(* ===== verification/_CoqProject ===== *)
-Q . S2P
Prelude.v
PyFloat.v
PyValue.v
Json.v
Sql.v
Contract.v
Blueprint.v
PortCompat.v
Policy.v
Envelope.v
PolicyGate.v
SideEffectLedger.v
Capsules.v
RecoveryClassifier.v
FailureManager.v
Governance.v
RecoveryPolicy.v
DispatchGuard.v
SearchFetch.v
RetryCoordinator.v
SideEffectJournal.v
ChainState.v
LoopEnforcer.v
Scheduler.v
StateStore.v
Persistence.v
BranchExecutor.v
BranchRun.v
RecoveryService.v
BudgetApproval.v
InvariantEngine.v
Preflight.v
DecisionLog.v
RunDeletion.v
BatchRecovery.v
Trace.v
ReviewWorkbench.v
ReviewManager.v
TraceReconciler.v
TraceAudit.v
ReviewTrail.v
Runtime.v
GateController.v
Orchestrator.v
OrchestratorRun.v
OrchestratorSafety.v
OrchestratorDemo.v
StrictJson.v
StrictText.v
ProtocolStream.v
ProtocolRuns.v
SupervisorChannels.v
MetadataStream.v
SupervisorMain.v
SupervisorRuns.v
SupervisorLaunch.v
SupervisorResult.v
SupervisorDemo.v
DependencyResolver.v
DependencySound.v
RegistryServer.v
RegistryLifecycle.v
RegistrySound.v
RegistryDemo.v
TransparencyLog.v
TransparencySound.v
