(* ===== verification/Prelude.v ===== *)
(** * NodeChain runtime: verification library

    NodeChain runs chains of nodes under contracts and policies, keeps every
    fact of a run in SQLite tables, and lets an operator recover a run after a
    crash, a failure or a budget stop.  This library models the core of that
    runtime ([src/src/nodechain/core], [runtime], [validation] and the dispatch
    boundary of [adapters/search]), and the supervisor that executes confined
    processes, and proves what they promise.

    ** How the program's parts interact

    A chain is a blueprint of nodes, connections, branches, joins and loops.
    Before a run the preflight resolves the contracts of the nodes, checks
    them against each other and computes each node's configuration; the
    invariant engine checks blueprint and state; the scheduler fixes an
    execution order; before each node the policy gate decides; branches run
    next to each other on copies of the state and meet in a join or a quorum;
    a risky result waits for a review; failures go to the failure manager; loops are limited by count, cost and
    conditions. Calls to the outside world pass the circuit breaker; a
    journal announces each one and records it in the side-effect ledger
    before and after it happens; the state, the journal and the invocation
    ledger are written in one transaction per step.  After a stop the
    classifier derives a recovery state from these tables, the operator policy
    (under a governance profile) authorizes one action, and the recovery
    service carries it out and records it, alone or in a batch.  A run that
    has ended can be deleted, which leaves a record only.  An effect is started
    together with an encrypted capsule of its operation. The retry
    coordinator replays that operation as a child row of the ledger, under a
    lease with a fencing token, behind a durable dispatch mark and through a
    dispatch guard.  The trace reconciler compares what a run emitted with
    what its tables hold.

    A confined process runs under a supervisor of its own: the parent sends it
    a framed configuration; a launcher forks the init of a fresh PID namespace,
    proves the topology to it and releases it by a token; the init becomes the
    supervisor, starts a bootstrap, reads its metadata, traces the workload
    and reports it all to the parent as records of a line protocol, which the
    parent parses and draws its evidence from.

    ** Files

    - Prelude: results with an error, dicts as association lists in insertion
      order, sets as lists, stable sorting, counting, tactics, the hint base.
    - PyFloat, PyValue, Sql: the language and database underneath: binary64
      floats and comparisons of mixed numbers, decimal reading and printing;
      dynamically typed values and ASCII text methods; tables as lists of
      rows, SELECT, UPDATE with its row count, transactions.
    - Json: the standard library's [json.dumps] and [json.loads] and UTF-8, as
      far as the code uses them, with the round trip.
    - Contract ([core/contract.py], [core/port.py]), Blueprint
      ([core/blueprint.py]), PortCompat ([validation/port_compatibility.py]):
      the static checks of a chain.
    - Policy ([core/policy.py], [core/default_policies.py]), PolicyGate
      ([runtime/policy_gate.py]): the condition language, the rule engine and
      the gate in front of every node.
    - Envelope ([core/envelope.py], [runtime/step_allocator.py]): what a node
      is called with, and its step number.
    - SideEffectLedger ([SideEffectLedgerStore] of [core/stores.py]): every
      operation on the tables side_effect_ledger,
      side_effect_recovery_decisions and recovery_execution_actions.
    - Capsules ([core/side_effect_utils.py], [core/capsule_crypto.py],
      [RunKeyStore] and [CapsuleStore] of [core/stores.py],
      [start_side_effect_with_capsule] of [core/state.py]): replay material.
    - RecoveryClassifier, FailureManager, Governance, RecoveryPolicy,
      DispatchGuard: [runtime/recovery_classifier.py], [failure_manager.py],
      [governance_profiles.py], [recovery_policy.py],
      [recovery_dispatch_guard.py].
    - SearchFetch ([failure_types.py], [circuit_breaker.py] and
      [base_search.py] of [adapters/search]): the shared fetch of the search
      adapters, its retries and the breaker in front of it.
    - SideEffectJournal ([runtime/side_effect_journal.py], the side-effect
      controller, the hash functions of [core/side_effect_utils.py]): the
      announcement, the verdict and the resume of effects, against the
      interface [EffectStore] that ledger and capsules implement.
    - RetryCoordinator ([runtime/side_effect_retry_coordinator.py]): one
      authorized retry as a program over database calls, the dispatch mark
      and the adapter call, and the system in which such programs interleave.
    - ChainState, StateStore: [ChainState] and [StateManager] of
      [core/state.py] with the journal and invocation stores of
      [core/stores.py].
    - Persistence ([runtime/persistence.py]): what one step of the
      execution writes, as a refinement of an abstract log of steps.
    - BranchExecutor ([runtime/branch_executor.py]), BranchRun: branches,
      joins and quorums over an arbitrary schedule of finished tasks, and
      the records one branch run leaves.
    - InvariantEngine ([runtime/invariant_engine.py]), Preflight
      ([runtime/contract_preflight_controller.py] and the head of
      [Orchestrator.run]): the checks before and between steps.
    - LoopEnforcer, Scheduler: [runtime/loop_enforcer.py],
      [runtime/scheduler.py].
    - RecoveryService, BudgetApproval: [runtime/recovery_service.py], and the
      budget pause and approval of [runtime/orchestrator.py].
    - Trace ([core/trace.py]), Runtime: the events of a run and the world its
      controllers share, with the monad, emission and transitions of
      [runtime/orchestrator.py] and the relations operations keep.
    - GateController ([runtime/policy_gate_controller.py]): the gate's verdict
      as rows of the decision logs and events.
    - Orchestrator ([runtime/orchestrator.py]): [run], [resume] and the
      operator's ways into them, over the interface [NodeServices];
      OrchestratorRun, OrchestratorSafety: what they guarantee under the laws
      [ServiceLaws]; OrchestratorDemo: runs of a small chain.
    - DecisionLog, RunDeletion, BatchRecovery, ReviewWorkbench, ReviewManager:
      the decision tables of [core/stores.py], [runtime/run_deletion_service.py],
      [runtime/batch_recovery.py], [sdk/review_workbench.py] and
      [runtime/review_manager.py].
    - TraceReconciler ([runtime/trace_reconciler.py]): every check of the
      report as a list of outcomes, and the report; TraceAudit: the condition
      on trace and tables each check decides; ReviewTrail: the trail a review
      leaves, against those conditions.
    - StrictJson, StrictText: the strict JSON reader of
      [runtime/exec_supervisor.py] on UTF-8 bytes, and the compact writer with
      its round trip.
    - ProtocolStream ([_ProtocolStreamParser], the two readers and
      [extract_supervisor_evidence] of [runtime/exec_supervisor.py]);
      ProtocolRuns: the streams they accept.
    - SupervisorChannels: bounded writes, framed channels, tokens and
      [emit_protocol]; MetadataStream: [read_bounded_metadata].
    - SupervisorMain: [supervisor_main] and [_cleanup_namespace] over what the
      system answers; SupervisorRuns: what its parent reads of it.
    - SupervisorLaunch: [launch_pid_namespace_supervisor],
      [namespace_init_supervisor_main], [supervisor_process_main];
      SupervisorResult: [map_supervisor_result] of
      [runtime/native_sandbox_exec.py]; SupervisorDemo: evaluated runs.
    - DependencyResolver ([sdk/dependency_resolver.py]); DependencySound: what
      a resolution without errors and its receipt mean.
    - RegistryServer ([sdk/reference_registry_server.py]), RegistryLifecycle
      ([sdk/registry_lifecycle.py]); RegistrySound: any sequence of their
      operations; RegistryDemo: evaluated runs.
    - TransparencyLog ([sdk/transparency_log.py]); TransparencySound: the
      chain and its file.

    Definitions keep the names of the source without leading underscores; a
    Python class is a record, an enum an inductive type, a table a list of
    records with the columns of the schema, an exception a constructor of the
    component's error type.  Where two files use a name it is qualified by its
    file.

    ** What is proved

    - Execution: a run that returns leaves the chain stored as completed,
      failed or paused with the matching event and status, and comes to an end
      when reviewers ask for no revision; a resumption always returns; a node
      is invoked only behind a verdict that allows it, with grants within its
      configuration (and its contract, where that declares any) and context
      within the read decision, or as a retry of that invocation; a resumption
      with no loop or review to do over invokes no node that had completed;
      every decision of the gate is a durable row, and the only grant of a
      memory read is that of an allowed one.
    - Retry protocol: whatever coordinators, ledger operations and starts
      interleave, one retry attempt calls the adapter at most once, its parent
      does not change and a coordinator reports a dispatch exactly when it
      made the call; nothing happens without an authorization; an undisturbed
      retry settles child, action and result; a repeated command converges;
      every program ends after a bounded number of calls.
    - Capsules: an effect starts only with a capsule that agrees with its
      operation; while the run is not purged the capsule decrypts to that
      operation and its binding; all writers of a run use one key.
    - Ledger: any interleaving of operations crosses the dispatch boundary of
      an effect at most once; rows move only along the transition table, but
      for the crash repair of an expired child that was never dispatched, and
      terminal rows never change; an effect leaves [unknown] only with a
      matching decision; a reclaimed worker can do nothing; crash repair
      reports and changes exactly what the read-only scan announced; recording
      is idempotent; resolution is atomic.
    - Branches: a quorum is announced, merged and missed by what really
      completed, whatever order the tasks finish in; the merge of states
      agrees with a reference; every branch run is recorded.
    - Journal: an effect is announced only when it is recorded; completing
      follows the record; a resume turns what a crash left started into
      unknown effects, on runs with nothing planned and no recovery child
      started.
    - Breaker and fetch: while its probes are made alone the breaker answers
      as a specification over the history of outcomes; a fetch has the outcome
      the responses decide.
    - Preflight and invariants: a cleared run has connections, branches and
      joins that fit, a well-formed blueprint and, in strict mode, governance;
      and such runs are cleared; the engine decides the declarative
      invariants.
    - State store: the step writer refines an abstract log; saves are all or
      nothing, but for the revision of a state that cannot be serialised; the
      journal is append-only with unique keys, replay recovers exactly the
      completed steps.
    - Recovery: the audit trail is truthful for every attempt on a known run
      under a valid profile; terminal actions commit with their event;
      authorization respects roles, profiles (which only restrict), per-effect
      decisions and terminal states; an admitted budget increase releases the
      loop; classification explains itself and agrees with the repair; the
      guards dispatch at most once; a dry run predicts its action; a batch
      reports what it did.
    - Reviews: the verifier decides its stated conditions; a run passes a
      review gate only on what the mode or the reviewer said, with a receipt
      for it that verifies against the request of that gate, a resumed one
      included; otherwise it fails, waits, or is as it was before.
    - Reconciliation: the report has no error exactly when trace and tables
      agree check by check; the trail the first review of a run leaves passes
      the review checks.
    - Supervised execution: the parser accepts exactly the legal runs of a
      supervisor, however their bytes are cut, within its limits; the framed
      channel delivers what was wholly written or nothing; what the parent
      accepts tells the truth about the supervisor, whatever the system
      answers, and a result passes only when the workload exited with 0; only
      the child of a proved topology, sent the whole proof and the exact
      token, enters the core.
    - Dependencies: a resolution ends; without errors it has an order that
      installs every package after its dependencies; a receipt that says all
      is verified covers a closed graph within its bounds.
    - Registry: over any sequence of operations, direct changes of its state
      included, packages keep their identity and revoked ones never change; a
      publication is decided as documented; the log of a governor that alone
      changes keys and lifecycles verifies and its keys form a chain.
    - Transparency log: the digest commits to all entries, unless two of the
      texts that were hashed collide; what is appended through the file
      verifies.
    - Deletion: exactly ended runs without an open retry are deleted, wholly
      and for good, with their keys; no log loses or repeats a row.
    - Scheduling: the traversal ends and covers the chain; loop-backs and
      retries are bounded; loop conditions are parsed and decided as written.
    - Policy and contracts: the first matching rule decides; no decision
      denies an allowed node a capability the gate looks at, and where the
      gate is closed by default one grants it; the static validators decide
      their declarative specifications.

    ** Parameters, bounds and fuel

    Code outside the repository and the environment are arguments: AES-GCM,
    SHA-256 and UUIDv5, the key manager's answer, the adapter factory and trust
    validator of a deployment, YAML parsing, version specifiers, uuid and clock
    readings, the answers of a remote service, the order in which concurrent
    tasks finish, the order of a Python set, float summation, node invocations,
    installed delegates.  Texts handled by Json hold code points below 256;
    those of StrictJson are UTF-8 bytes, so hold any character.  Answers of
    the system to a supervisor (reads, writes, wait statuses, probes, the
    fork, ptrace) are schedules of events given to the definitions; a call
    whose schedule ends is one that still waits.
    The serialisation of a state can fail in StateStore; the coordinator and
    the execution loop above it are modelled for states that hold JSON values,
    where it does not.
    A hypothesis on one is written in the theorem that needs it and met by a
    concrete function in its witness.  Integers are unbounded, as
    in Python.  Times are integers in microseconds where the code compares
    them and texts where it only stores them.  The functions with fuel are the
    breadth-first traversal, whose fuel - roots plus connections - is proved
    enough, the decimal printer of floats, whose fuel exceeds the digits of
    any binary64 number, and the JSON scanners, whose fuel - a multiple of the
    length of the text - is proved enough.  The loop of a run takes fuel because a run need
    not end; that some fuel is enough is proved.

    ** Not modelled

    Text of messages where a case carries the same information.  Network and
    model adapters and node bodies call external services and language models;
    their protocol with the runtime is the interface [NodeServices].  Of the
    supervised execution: the source text of the bootstrap, the closing of
    inherited descriptors, and the sandbox, session and transport files, which
    are sequences of system calls; recursion limits of the interpreter.  The
    command line, dashboards, research runner, HTTP interface and the rest of
    the package tooling are presentation and glue over the modelled parts.
    Operations of the registry and of the transparency log are taken one at a
    time; examples show what interleavings of threads can do. *)
From Stdlib Require Export ZArith Lia Bool Ascii String Sorted.
From stdpp Require Export base strings gmap option list.

(** ** Notations *)
Declare Scope nodechain_scope.
Delimit Scope nodechain_scope with nc.
Notation "a =s? b" := (String.eqb a b) (at level 70, no associativity) : nodechain_scope.
Notation "a ==> b" := (implb a b) (at level 55, right associativity) : nodechain_scope.
Open Scope nodechain_scope.
Open Scope string_scope.
Open Scope list_scope.
Open Scope Z_scope.

(** ** Fallible code: a value or the exception the code raises *)
Inductive res (E A : Type) : Type :=
| Ok (a : A)
| Err (e : E).
Arguments Ok {E A} a.
Arguments Err {E A} e.

#[export] Instance res_ret {E} : MRet (res E) := fun A a => Ok a.
#[export] Instance res_bind {E} : MBind (res E) :=
  fun A B f m => match m with Ok a => f a | Err e => Err e end.
#[export] Instance res_fmap {E} : FMap (res E) :=
  fun A B f m => match m with Ok a => Ok (f a) | Err e => Err e end.

#[export] Instance res_eq_dec {E A} `{EqDecision E} `{EqDecision A} :
  EqDecision (res E A).
Proof. solve_decision. Defined.

Definition is_ok {E A} (r : res E A) : bool :=
  match r with Ok _ => true | Err _ => false end.

(** [guard_err b e] is [if not b: raise e]. *)
Definition guard_err {E} (b : bool) (e : E) : res E unit :=
  if b then Ok tt else Err e.

Lemma bind_ok {E A B} (m : res E A) (f : A -> res E B) (b : B) :
  mbind f m = Ok b <-> exists a, m = Ok a /\ f a = Ok b.
Proof.
  destruct m as [a|e]; simpl; split.
  - eauto.
  - intros (a' & [= ->] & H); exact H.
  - discriminate.
  - intros (a' & H & _); discriminate.
Qed.

Lemma guard_err_ok {E} (b : bool) (e : E) u : guard_err b e = Ok u <-> b = true.
Proof. destruct b, u; simpl; split; congruence. Qed.

(** ** Lists of names: Python lists and sets of strings *)
Definition mem (x : string) (l : list string) : bool := existsb (String.eqb x) l.

Lemma mem_true x l : mem x l = true <-> x ∈ l.
Proof.
  unfold mem. rewrite existsb_exists, list_elem_of_In. split.
  - intros (y & Hy & He). apply String.eqb_eq in He. subst. exact Hy.
  - intros H. exists x. split; [exact H | apply String.eqb_refl].
Qed.

Lemma mem_false x l : mem x l = false <-> x ∉ l.
Proof. rewrite <- mem_true. destruct (mem x l); split; congruence. Qed.

Lemma mem_spec x l : reflect (x ∈ l) (mem x l).
Proof. apply iff_reflect. symmetry. apply mem_true. Qed.

(** [set(a) - set(b)], kept in the order of [a]. *)
Definition set_diff (a b : list string) : list string :=
  List.filter (fun x => negb (mem x b)) a.

Lemma elem_of_lfilter {A} (p : A -> bool) (x : A) (l : list A) :
  x ∈ List.filter p l <-> p x = true /\ x ∈ l.
Proof. rewrite !list_elem_of_In, filter_In. tauto. Qed.

Lemma elem_of_set_diff x a b : x ∈ set_diff a b <-> x ∈ a /\ x ∉ b.
Proof.
  unfold set_diff. rewrite elem_of_lfilter, negb_true_iff, mem_false. tauto.
Qed.

Lemma set_diff_nil a b : set_diff a b = [] <-> (forall x, x ∈ a -> x ∈ b).
Proof.
  split.
  - intros H x Hx. destruct (mem_spec x b) as [|Hn]; [done|].
    assert (x ∈ set_diff a b) as Hd by (apply elem_of_set_diff; auto).
    rewrite H in Hd. inversion Hd.
  - intros H. destruct (set_diff a b) as [|y t] eqn:E; [done|].
    assert (y ∈ set_diff a b) as Hy by (rewrite E; left).
    apply elem_of_set_diff in Hy as [Ha Hb]. by apply H in Ha.
Qed.

(** [if l:] on a Python list *)
Definition nonempty {A} (l : list A) : bool :=
  match l with [] => false | _ => true end.

Lemma nonempty_true {A} (l : list A) : nonempty l = true <-> l <> [].
Proof. destruct l; simpl; split; congruence. Qed.

Lemma nonempty_false {A} (l : list A) : nonempty l = false <-> l = [].
Proof. destruct l; simpl; split; congruence. Qed.

(** [if s:] on a Python string, and on an optional one *)
Definition str_truthy (s : string) : bool := negb (s =s? EmptyString).
Lemma str_truthy_false s : str_truthy s = false <-> s = "".
Proof. unfold str_truthy. rewrite negb_false_iff. apply String.eqb_eq. Qed.

Lemma str_truthy_true s : str_truthy s = true <-> s <> "".
Proof. unfold str_truthy. rewrite negb_true_iff. apply String.eqb_neq. Qed.
Definition ostr_truthy (s : option string) : bool :=
  match s with Some s => str_truthy s | None => false end.

(** Append [x] unless it is already there (the idiom
    [if x not in l: l.append(x)]). *)
Definition add_new (x : string) (l : list string) : list string :=
  if mem x l then l else l ++ [x].

Lemma elem_of_add_new y x l : y ∈ add_new x l <-> y = x \/ y ∈ l.
Proof.
  unfold add_new. destruct (mem_spec x l) as [H|H].
  - split; [auto | intros [->|]; auto].
  - rewrite elem_of_app, list_elem_of_singleton. tauto.
Qed.

Lemma NoDup_snoc {A} (x : A) (l : list A) :
  NoDup l -> x ∉ l -> NoDup (l ++ [x]).
Proof.
  intros Hl Hx. apply NoDup_app. split_and!; [done| |apply NoDup_singleton].
  intros y Hy Hc%list_elem_of_singleton. subst. done.
Qed.

Lemma NoDup_add_new x l : NoDup l -> NoDup (add_new x l).
Proof.
  intros Hl. unfold add_new. destruct (mem_spec x l); [done|].
  by apply NoDup_snoc.
Qed.

(** ** Python dicts: association lists in insertion order *)
Definition dict (V : Type) := list (string * V).

Fixpoint dget {V} (k : string) (d : dict V) : option V :=
  match d with
  | [] => None
  | (k', v) :: d' => if k =s? k' then Some v else dget k d'
  end.

(** [d[k] = v]: in place when the key is there, appended otherwise. *)
Fixpoint dset {V} (k : string) (v : V) (d : dict V) : dict V :=
  match d with
  | [] => [(k, v)]
  | (k', v') :: d' => if k =s? k' then (k, v) :: d' else (k', v') :: dset k v d'
  end.

Definition dmem {V} (k : string) (d : dict V) : bool :=
  match dget k d with Some _ => true | None => false end.

Definition dkeys {V} (d : dict V) : list string := map fst d.
Definition dget_or {V} (k : string) (dflt : V) (d : dict V) : V :=
  match dget k d with Some v => v | None => dflt end.

Section Dict.
Context {V : Type}.
Implicit Types (d : dict V) (k : string) (v : V).

Lemma dget_dset_same k v d : dget k (dset k v d) = Some v.
Proof.
  induction d as [|[k' v'] d IH]; simpl.
  - by rewrite String.eqb_refl.
  - destruct (k =s? k') eqn:E; simpl.
    + by rewrite String.eqb_refl.
    + by rewrite E.
Qed.

Lemma dget_dset_other k k' v d : k <> k' -> dget k (dset k' v d) = dget k d.
Proof.
  intros Hne. induction d as [|[k2 v2] d IH]; simpl.
  - by apply String.eqb_neq in Hne as ->.
  - destruct (k' =s? k2) eqn:E; simpl.
    + apply String.eqb_eq in E as <-. by apply String.eqb_neq in Hne as ->.
    + by rewrite IH.
Qed.

Lemma dget_None k d : dget k d = None <-> k ∉ dkeys d.
Proof.
  induction d as [|[k' v'] d IH]; simpl.
  - split; [intros _ H; inversion H | done].
  - rewrite not_elem_of_cons. destruct (String.eqb_spec k k') as [->|Hne].
    + split; [discriminate | intros [[] _]; reflexivity].
    + rewrite IH. tauto.
Qed.

Lemma dget_In k v d : dget k d = Some v -> (k, v) ∈ d.
Proof.
  induction d as [|[k' v'] d IH]; simpl; [discriminate|].
  destruct (String.eqb_spec k k') as [->|].
  - intros [= ->]. left.
  - intros H. right. auto.
Qed.

Lemma dkeys_dset k v d : dkeys (dset k v d) = add_new k (dkeys d).
Proof.
  induction d as [|[k' v'] d IH]; simpl; [done|].
  unfold add_new in *. simpl.
  destruct (String.eqb_spec k k') as [->|Hne]; simpl; [done|].
  rewrite IH. by destruct (mem k (dkeys d)).
Qed.

Lemma dset_NoDup k v d : NoDup (dkeys d) -> NoDup (dkeys (dset k v d)).
Proof. rewrite dkeys_dset. apply NoDup_add_new. Qed.
End Dict.

(** ** Counting, first matches and filters *)
Definition count {A} (p : A -> bool) (l : list A) : nat :=
  length (List.filter p l).

Lemma count_app {A} (p : A -> bool) l l' :
  count p (l ++ l') = (count p l + count p l')%nat.
Proof. unfold count. by rewrite List.filter_app, length_app. Qed.

Lemma count_zero {A} (p : A -> bool) l :
  count p l = 0%nat <-> (forall x, x ∈ l -> p x = false).
Proof.
  unfold count. induction l as [|a l IH]; simpl.
  - split; [intros _ x H; inversion H | done].
  - destruct (p a) eqn:E; simpl; split.
    + discriminate.
    + intros H. rewrite (H a) in E; [discriminate | left].
    + intros H x Hx. apply elem_of_cons in Hx as [->|Hx]; [done|].
      by apply IH.
    + intros H. apply IH. intros x Hx. apply H. by right.
Qed.

Lemma find_some_elem {A} (p : A -> bool) l x :
  List.find p l = Some x -> x ∈ l /\ p x = true.
Proof. rewrite list_elem_of_In. apply find_some. Qed.

Lemma existsb_elem {A} (p : A -> bool) l :
  existsb p l = true <-> exists x, x ∈ l /\ p x = true.
Proof. setoid_rewrite list_elem_of_In. apply existsb_exists. Qed.

Lemma existsb_false {A} (p : A -> bool) l :
  existsb p l = false <-> forall x, x ∈ l -> p x = false.
Proof.
  split.
  - intros H x Hx. destruct (p x) eqn:E; [|done].
    assert (existsb p l = true) by (apply existsb_elem; eauto). congruence.
  - intros H. destruct (existsb p l) eqn:E; [|done].
    apply existsb_elem in E as (x & Hx & Hp). by rewrite H in Hp.
Qed.

Lemma forallb_elem {A} (p : A -> bool) l :
  forallb p l = true <-> forall x, x ∈ l -> p x = true.
Proof. setoid_rewrite list_elem_of_In. apply forallb_forall. Qed.

(** ** Sorting: [sorted(l, key=...)] is stable *)
Section Sorting.
Context {A : Type} (leb : A -> A -> bool).

Fixpoint sort_insert (x : A) (l : list A) : list A :=
  match l with
  | [] => [x]
  | y :: l' => if leb x y then x :: l else y :: sort_insert x l'
  end.

Definition py_sorted (l : list A) : list A := foldr sort_insert [] l.

Lemma sort_insert_perm x l : sort_insert x l ≡ₚ x :: l.
Proof.
  induction l as [|y l IH]; simpl; [done|].
  destruct (leb x y); [done|]. rewrite IH. apply perm_swap.
Qed.

Lemma py_sorted_perm l : py_sorted l ≡ₚ l.
Proof. induction l as [|x l IH]; simpl; [done|]. by rewrite sort_insert_perm, IH. Qed.

Lemma elem_of_py_sorted x l : x ∈ py_sorted l <-> x ∈ l.
Proof. by rewrite py_sorted_perm. Qed.

Context (leb_total : forall x y, leb x y = true \/ leb y x = true).
Context (leb_trans : forall x y z, leb x y = true -> leb y z = true -> leb x z = true).

Definition sorted : list A -> Prop := StronglySorted (fun x y => leb x y = true).

Lemma sort_insert_sorted x l : sorted l -> sorted (sort_insert x l).
Proof.
  unfold sorted.
  induction l as [|y l IH]; simpl; intros Hl.
  - repeat constructor.
  - apply StronglySorted_inv in Hl as [Hl Hy].
    destruct (leb x y) eqn:E.
    + constructor; [by constructor|]. constructor; [done|].
      eapply List.Forall_impl; [|exact Hy]. intros z Hz. eauto.
    + constructor; [auto|]. rewrite sort_insert_perm. constructor; [|done].
      destruct (leb_total x y); congruence.
Qed.

Lemma py_sorted_sorted l : sorted (py_sorted l).
Proof. induction l; simpl; [constructor | by apply sort_insert_sorted]. Qed.

(** A sorted list is left alone. *)
Lemma py_sorted_id l : sorted l -> py_sorted l = l.
Proof.
  induction l as [|x l IH]; [done|]. intros [Hl Hx]%StronglySorted_inv.
  unfold py_sorted in *. cbn [foldr]. rewrite IH by done.
  destruct l as [|y l]; [done|]. cbn [sort_insert].
  apply Forall_cons in Hx as [-> _]. done.
Qed.

(** Elements of one key keep their order. *)
Lemma sort_insert_stable x l :
  List.filter (fun y => leb x y && leb y x) (sort_insert x l) =
  x :: List.filter (fun y => leb x y && leb y x) l.
Proof.
  assert (Hxx : leb x x = true) by (destruct (leb_total x x); done).
  induction l as [|y l IH]; simpl.
  - by rewrite Hxx.
  - destruct (leb x y) eqn:E; simpl; [by rewrite Hxx, E|].
    rewrite E; simpl. exact IH.
Qed.
End Sorting.

(** The order of texts by code points. *)
Lemma ascii_compare_trans a b c o :
  Ascii.compare a b = o -> Ascii.compare b c = o -> Ascii.compare a c = o.
Proof.
  unfold Ascii.compare. destruct o; rewrite ?N.compare_eq_iff, ?N.compare_lt_iff, ?N.compare_gt_iff; lia.
Qed.

Lemma str_leb_cons a s b t :
  String.leb (String a s) (String b t) =
  match Ascii.compare a b with Eq => String.leb s t | Lt => true | Gt => false end.
Proof. unfold String.leb. cbn [String.compare]. by destruct (Ascii.compare a b). Qed.

Lemma str_leb_trans x y z :
  String.leb x y = true -> String.leb y z = true -> String.leb x z = true.
Proof.
  revert y z. induction x as [|a x IH]; intros [|b y] [|c z]; try done.
  rewrite !str_leb_cons.
  destruct (Ascii.compare a b) eqn:E1, (Ascii.compare b c) eqn:E2; try done.
  - rewrite (ascii_compare_trans _ _ _ _ E1 E2). eauto.
  - apply Ascii.compare_eq_iff in E1 as ->. by rewrite E2.
  - apply Ascii.compare_eq_iff in E2 as ->. by rewrite E1.
  - by rewrite (ascii_compare_trans _ _ _ _ E1 E2).
Qed.

(** Sorting texts: [sorted(names)] *)
Definition sort_str (l : list string) : list string := py_sorted String.leb l.

(** [set(l)], listed in order of first occurrence. *)
Definition py_set (l : list string) : list string :=
  fold_left (fun acc x => add_new x acc) l [].

Lemma py_set_gen l acc x :
  x ∈ fold_left (fun acc x => add_new x acc) l acc <-> x ∈ acc \/ x ∈ l.
Proof.
  revert acc. induction l as [|y l IH]; intros acc; simpl.
  - split; [auto | intros [H|H]; [done | inversion H]].
  - rewrite IH, elem_of_add_new, elem_of_cons. tauto.
Qed.

Lemma elem_of_py_set x l : x ∈ py_set l <-> x ∈ l.
Proof.
  unfold py_set. rewrite py_set_gen. split; [intros [H|H]; [inversion H | done] | auto].
Qed.

Lemma NoDup_py_set l : NoDup (py_set l).
Proof.
  unfold py_set. assert (NoDup (@nil string)) as H by constructor.
  revert H. generalize (@nil string). induction l as [|x l IH]; intros acc H; simpl; [done|].
  by apply IH, NoDup_add_new.
Qed.

Lemma py_set_nil l : py_set l = [] <-> l = [].
Proof.
  split.
  - destruct l as [|x l]; [done|]. intros H.
    assert (x ∈ py_set (x :: l)) as Hx by (apply elem_of_py_set; left).
    rewrite H in Hx. inversion Hx.
  - by intros ->.
Qed.

(** ** Reflexive-transitive closure of a step relation *)
Inductive star {S : Type} (step : S -> S -> Prop) : S -> S -> Prop :=
| star_refl s : star step s s
| star_step s1 s2 s3 : step s1 s2 -> star step s2 s3 -> star step s1 s3.

Lemma star_one {S} (step : S -> S -> Prop) s s' : step s s' -> star step s s'.
Proof. intros H. eapply star_step; [exact H | apply star_refl]. Qed.

Lemma star_trans {S} (step : S -> S -> Prop) s1 s2 s3 :
  star step s1 s2 -> star step s2 s3 -> star step s1 s3.
Proof. induction 1; eauto using star_step. Qed.

Lemma star_invariant {S} (step : S -> S -> Prop) (I : S -> Prop) :
  (forall s s', I s -> step s s' -> I s') ->
  forall s s', star step s s' -> I s -> I s'.
Proof. intros Hp s s' H. induction H; eauto. Qed.

(** ** Automation *)
Create HintDb nodechain.
Create Rewrite HintDb nodechain.
#[export] Hint Constructors star : nodechain.
#[export] Hint Resolve star_one dset_NoDup NoDup_add_new : nodechain.
#[export] Hint Rewrite @dget_dset_same mem_true mem_false elem_of_set_diff
  elem_of_add_new elem_of_py_set String.eqb_eq String.eqb_neq : nodechain.

(** Turn every boolean test in the context into a proposition. *)
Ltac bool_prop :=
  repeat match goal with
    | H : andb _ _ = true |- _ => apply andb_true_iff in H; destruct H
    | H : andb _ _ = false |- _ => apply andb_false_iff in H
    | H : orb _ _ = true |- _ => apply orb_true_iff in H
    | H : orb _ _ = false |- _ => apply orb_false_iff in H; destruct H
    | H : negb _ = true |- _ => apply negb_true_iff in H
    | H : negb _ = false |- _ => apply negb_false_iff in H
    | H : String.eqb _ _ = true |- _ => apply String.eqb_eq in H
    | H : String.eqb _ _ = false |- _ => apply String.eqb_neq in H
    | H : Z.ltb _ _ = true |- _ => apply Z.ltb_lt in H
    | H : Z.ltb _ _ = false |- _ => apply Z.ltb_ge in H
    | H : Z.leb _ _ = true |- _ => apply Z.leb_le in H
    | H : Z.leb _ _ = false |- _ => apply Z.leb_gt in H
    | H : Z.eqb _ _ = true |- _ => apply Z.eqb_eq in H
    | H : Z.eqb _ _ = false |- _ => apply Z.eqb_neq in H
    | H : mem _ _ = true |- _ => apply mem_true in H
    | H : mem _ _ = false |- _ => apply mem_false in H
    end.

(** Case on the scrutinee of the first [match] or [if] of the goal. *)
Ltac case_goal :=
  match goal with
  | |- context [match ?x with _ => _ end] =>
      lazymatch x with
      | context [match _ with _ => _ end] => fail
      | _ => destruct x eqn:?
      end
  end.

(** The same in a hypothesis. *)
Ltac case_in H :=
  match type of H with
  | context [match ?x with _ => _ end] =>
      lazymatch x with
      | context [match _ with _ => _ end] => fail
      | _ => destruct x eqn:?
      end
  end.

(** Split a hypothesis [m ≫= f = Ok b] along its binds. *)
Ltac inv_bind H :=
  repeat (let a := fresh "a" in let Ha := fresh "Ha" in
          apply bind_ok in H; destruct H as (a & Ha & H)).
