(* ===== verification/PyFloat.v ===== *)
(** * Python floats

    Python's [float] is IEEE 754 binary64.  The model uses the Standard
    Library's [SpecFloat] at precision 53 and maximal exponent 1024.  This
    file adds what the runtime does with floats: reading a decimal
    ([float(s)], correctly rounded), converting an [int] ([OverflowError]
    out of range), comparing numbers exactly (Python compares an [int] with
    a [float] without rounding the [int]), printing ([repr], the shortest
    decimal that reads back, and [format(x, '.4f')]), and adding. *)
From Corelib Require Import SpecFloat.
From S2P Require Import Prelude.

Definition pyfloat := spec_float.

#[export] Instance spec_float_eq_dec : EqDecision spec_float.
Proof. solve_decision. Defined.

Definition fprec : Z := 53.
Definition femax : Z := 1024.

Definition fadd (x y : pyfloat) : pyfloat := SFadd fprec femax x y.
Definition fsub (x y : pyfloat) : pyfloat := SFsub fprec femax x y.
Definition fmul (x y : pyfloat) : pyfloat := SFmul fprec femax x y.
Definition fdiv (x y : pyfloat) : pyfloat := SFdiv fprec femax x y.

Definition fzero : pyfloat := S754_zero false.

Definition is_nan (x : pyfloat) : bool :=
  match x with S754_nan => true | _ => false end.
Definition is_inf (x : pyfloat) : bool :=
  match x with S754_infinity _ => true | _ => false end.

(** The nearest float of [z * 2^0]; infinite when it is out of range. *)
Definition fround_int (z : Z) : pyfloat :=
  binary_normalize fprec femax z 0 false.

(** [float(z)]: [None] is [OverflowError]. *)
Definition float_of_int (z : Z) : option pyfloat :=
  let f := fround_int z in if is_inf f then None else Some f.

(** The float nearest to [(-1)^s * m * 10^k]. *)
Definition float_of_decimal (s : bool) (m k : Z) : pyfloat :=
  match m with
  | Zpos p =>
      if 0 <=? k then
        match Zpos p * 10 ^ k with
        | Zpos q => binary_normalize fprec femax (if s then Zneg q else Zpos q) 0 s
        | _ => S754_zero s
        end
      else
        match 10 ^ (- k) with
        | Zpos q => fdiv (S754_finite s p 0) (S754_finite false q 0)
        | _ => S754_zero s
        end
  | _ => S754_zero s
  end.

(** ** Exact comparison *)

(** Every number the code compares is an [int] or a [float]. *)
Inductive num :=
| NInt (z : Z)
| NFloat (f : pyfloat).

(** Compare [m1 * 2^e1] with [m2 * 2^e2]. *)
Definition scaled_cmp (m1 e1 m2 e2 : Z) : comparison :=
  let e := Z.min e1 e2 in
  Z.compare (m1 * 2 ^ (e1 - e)) (m2 * 2 ^ (e2 - e)).

(** A number is a NaN, an infinity or a scaled integer. *)
Inductive ext :=
| ENan
| EInf (neg : bool)
| EFin (m e : Z).

Definition ext_of_float (f : pyfloat) : ext :=
  match f with
  | S754_nan => ENan
  | S754_infinity s => EInf s
  | S754_zero _ => EFin 0 0
  | S754_finite s m e => EFin (if s then Zneg m else Zpos m) e
  end.

Definition ext_of (n : num) : ext :=
  match n with NInt z => EFin z 0 | NFloat f => ext_of_float f end.

(** [None] when one side is a NaN. *)
Definition ext_cmp (a b : ext) : option comparison :=
  match a, b with
  | ENan, _ | _, ENan => None
  | EInf s, EInf s' =>
      Some (if Bool.eqb s s' then Eq else if s then Lt else Gt)
  | EInf s, EFin _ _ => Some (if s then Lt else Gt)
  | EFin _ _, EInf s => Some (if s then Gt else Lt)
  | EFin m e, EFin m' e' => Some (scaled_cmp m e m' e')
  end.

Definition num_cmp (a b : num) : option comparison := ext_cmp (ext_of a) (ext_of b).

Definition num_lt (a b : num) : bool :=
  match num_cmp a b with Some Lt => true | _ => false end.
Definition num_gt (a b : num) : bool :=
  match num_cmp a b with Some Gt => true | _ => false end.
Definition num_le (a b : num) : bool :=
  match num_cmp a b with Some Lt | Some Eq => true | _ => false end.
Definition num_ge (a b : num) : bool :=
  match num_cmp a b with Some Gt | Some Eq => true | _ => false end.
Definition num_eq (a b : num) : bool :=
  match num_cmp a b with Some Eq => true | _ => false end.

Definition flt (a b : pyfloat) : bool := num_lt (NFloat a) (NFloat b).
Definition fgt (a b : pyfloat) : bool := num_gt (NFloat a) (NFloat b).
Definition fle (a b : pyfloat) : bool := num_le (NFloat a) (NFloat b).
Definition fge (a b : pyfloat) : bool := num_ge (NFloat a) (NFloat b).

(** ** Reading a decimal *)

Definition digit_of (c : Ascii.ascii) : option Z :=
  let n := Z.of_nat (Ascii.nat_of_ascii c) in
  if (48 <=? n) && (n <=? 57) then Some (n - 48) else None.

Definition is_digit (c : Ascii.ascii) : bool :=
  match digit_of c with Some _ => true | None => false end.

(** Digits, a single underscore allowed between two of them (as [float()]
    and [int()] accept); returns the value, the number of digits and the
    rest of the text. [prev] says the last character read was a digit. *)
Fixpoint read_digits (prev : bool) (acc : Z) (n : nat) (l : list Ascii.ascii)
  : Z * nat * list Ascii.ascii :=
  match l with
  | c :: l' =>
      match digit_of c with
      | Some d => read_digits true (acc * 10 + d) (S n) l'
      | None =>
          if prev && Ascii.eqb c "_"%char then
            match l' with
            | c' :: l'' =>
                match digit_of c' with
                | Some d => read_digits true (acc * 10 + d) (S n) l''
                | None => (acc, n, l)
                end
            | [] => (acc, n, l)
            end
          else (acc, n, l)
      end
  | [] => (acc, n, [])
  end.

Definition read_sign (l : list Ascii.ascii) : bool * list Ascii.ascii :=
  match l with
  | c :: l' =>
      if Ascii.eqb c "-"%char then (true, l')
      else if Ascii.eqb c "+"%char then (false, l')
      else (false, l)
  | [] => (false, l)
  end.

(** The exponent part, if the text has one; [None] is a syntax error. *)
Definition read_exponent (l : list Ascii.ascii) : option (Z * list Ascii.ascii) :=
  match l with
  | c :: l' =>
      if Ascii.eqb c "e"%char || Ascii.eqb c "E"%char then
        let (sg, l1) := read_sign l' in
        let '(x, n, l2) := read_digits false 0 0 l1 in
        if Nat.eqb n 0 then None
        else Some ((if sg then - x else x), l2)
      else Some (0, l)
  | [] => Some (0, [])
  end.

Definition lower_ascii (c : Ascii.ascii) : Ascii.ascii :=
  let n := Ascii.nat_of_ascii c in
  if (Nat.leb 65 n && Nat.leb n 90) then Ascii.ascii_of_nat (n + 32) else c.

Definition lower (s : string) : string :=
  String.string_of_list_ascii (map lower_ascii (String.list_ascii_of_string s)).

(** The decimal [mantissa * 10^k] of a text already stripped of blanks. *)
Definition read_decimal (l : list Ascii.ascii) : option (bool * Z * Z) :=
  let (sg, l1) := read_sign l in
  let '(x, n, l2) := read_digits false 0 0 l1 in
  let '(m, fr, l3) :=
    match l2 with
    | c :: l' =>
        if Ascii.eqb c "."%char then
          let '(m, n', l3) := read_digits false x 0 l' in (m, n', l3)
        else (x, 0%nat, l2)
    | [] => (x, 0%nat, [])
    end in
  if Nat.eqb (n + fr) 0 then None
  else match read_exponent l3 with
       | Some (k, []) => Some (sg, m, k - Z.of_nat fr)
       | _ => None
       end.

(** [float(s)] of a stripped text; [None] is [ValueError]. *)
Definition parse_float (s : string) : option pyfloat :=
  let t := lower s in
  let (sg, body) := read_sign (String.list_ascii_of_string t) in
  let b := String.string_of_list_ascii body in
  if (b =s? "inf") || (b =s? "infinity") then Some (S754_infinity sg)
  else if b =s? "nan" then Some S754_nan
  else match read_decimal (String.list_ascii_of_string t) with
       | Some (s', m, k) => Some (float_of_decimal s' m k)
       | None => None
       end.

(** ** Printing *)

Fixpoint digits_fuel (fuel : nat) (z : Z) (acc : list Ascii.ascii) : list Ascii.ascii :=
  match fuel with
  | O => acc
  | S fuel' =>
      let acc' := Ascii.ascii_of_nat (Z.to_nat (48 + z mod 10)) :: acc in
      if z <? 10 then acc' else digits_fuel fuel' (z / 10) acc'
  end.

(** The decimal digits of [z >= 0]: a number has at most one more digit
    than bits, which is the fuel. *)
Definition digits (z : Z) : list Ascii.ascii :=
  digits_fuel (S (Z.to_nat (Z.log2 z))) z [].

Definition str_of_ascii := String.string_of_list_ascii.

Definition str_int (z : Z) : string :=
  if z <? 0 then "-" +:+ str_of_ascii (digits (- z)) else str_of_ascii (digits z).

(** Round [n / d] ([d > 0]) to the nearest integer, ties to even. *)
Definition round_half_even (n d : Z) : Z :=
  let q := n / d in
  let r := n mod d in
  match Z.compare (2 * r) d with
  | Lt => q
  | Gt => q + 1
  | Eq => if Z.even q then q else q + 1
  end.

(** [m * 2^e] as a fraction. *)
Definition frac (m e : Z) : Z * Z :=
  if 0 <=? e then (m * 2 ^ e, 1) else (m, 2 ^ (- e)).

(** [format(x, '.4f')] of a finite magnitude [n / d]. *)
Definition fixed4 (n d : Z) : string :=
  let v := round_half_even (n * 10000) d in
  let fr := str_of_ascii (digits (v mod 10000)) in
  let pad := String.length fr in
  str_int (v / 10000) +:+ "." +:+
  str_of_ascii (repeat "0"%char (4 - pad)) +:+ fr.

Definition format_4f (x : pyfloat) : string :=
  match x with
  | S754_nan => "nan"
  | S754_infinity s => if s then "-inf" else "inf"
  | S754_zero s => if s then "-0.0000" else "0.0000"
  | S754_finite s m e =>
      let (n, d) := frac (Zpos m) e in
      (if s then "-" else "") +:+ fixed4 n d
  end.

(** The decimal exponent [k] with [10^(k-1) <= n/d < 10^k]. *)
Fixpoint dec_exp_fuel (fuel : nat) (n d k : Z) : Z :=
  match fuel with
  | O => k
  | S fuel' =>
      let ge := if 0 <=? k then d * 10 ^ k <=? n else d <=? n * 10 ^ (- k) in
      if ge then dec_exp_fuel fuel' n d (k + 1) else k
  end.

(** Binary64 magnitudes lie between [10^-324] and [10^309]. *)
Definition dec_exp (n d : Z) : Z := dec_exp_fuel 700 n d (-330).

(** The [p]-digit decimals next to [n/d], nearest first, as [c * 10^j]. *)
Definition near_decimals (n d p k : Z) : list (Z * Z) :=
  let j := k - p in
  let '(n', d') := if 0 <=? j then (n, d * 10 ^ j) else (n * 10 ^ (- j), d) in
  let q := n' / d' in
  let c := round_half_even n' d' in
  if c =? q then [(q, j); (q + 1, j)] else [(q + 1, j); (q, j)].

Fixpoint shortest_fuel (fuel : nat) (p : Z) (f : pyfloat) (n d k : Z) : Z * Z :=
  match fuel with
  | O => (0, 0)
  | S fuel' =>
      match List.find (fun cj => bool_decide
                                   (float_of_decimal false (fst cj) (snd cj) = f))
              (near_decimals n d p k) with
      | Some cj => cj
      | None => shortest_fuel fuel' (p + 1) f n d k
      end
  end.

(** Seventeen digits always identify a binary64 number. *)
Definition shortest (m : positive) (e : Z) : Z * Z :=
  let (n, d) := frac (Zpos m) e in
  shortest_fuel 17 1 (S754_finite false m e) n d (dec_exp n d).

Fixpoint strip_zeros (l : list Ascii.ascii) : list Ascii.ascii :=
  match l with
  | c :: l' =>
      match strip_zeros l' with
      | [] => if Ascii.eqb c "0"%char then [] else [c]
      | t => c :: t
      end
  | [] => []
  end.

(** [repr(x)]: fixed notation for decimal points in (-4, 16], exponent
    notation otherwise. *)
Definition repr_mag (m : positive) (e : Z) : string :=
  let (c, j) := shortest m e in
  let ds0 := digits c in
  let decpt := Z.of_nat (length ds0) + j in
  let ds := strip_zeros ds0 in
  let nd := Z.of_nat (length ds) in
  if (-4 <? decpt) && (decpt <=? 16) then
    if decpt <=? 0 then
      "0." +:+ str_of_ascii (repeat "0"%char (Z.to_nat (- decpt)) ++ ds)
    else if nd <=? decpt then
      str_of_ascii (ds ++ repeat "0"%char (Z.to_nat (decpt - nd))) +:+ ".0"
    else
      str_of_ascii (take (Z.to_nat decpt) ds) +:+ "." +:+
      str_of_ascii (drop (Z.to_nat decpt) ds)
  else
    let x := decpt - 1 in
    let xs := digits (Z.abs x) in
    str_of_ascii (take 1 ds) +:+
    (if nd <=? 1 then "" else "." +:+ str_of_ascii (drop 1 ds)) +:+
    "e" +:+ (if x <? 0 then "-" else "+") +:+
    str_of_ascii (repeat "0"%char (2 - length xs) ++ xs).

Definition repr_float (x : pyfloat) : string :=
  match x with
  | S754_nan => "nan"
  | S754_infinity s => if s then "-inf" else "inf"
  | S754_zero s => if s then "-0.0" else "0.0"
  | S754_finite s m e => (if s then "-" else "") +:+ repr_mag m e
  end.

(** ** Lemmas on the order *)

Lemma scaled_cmp_common m1 e1 m2 e2 e :
  e <= e1 -> e <= e2 ->
  scaled_cmp m1 e1 m2 e2 = Z.compare (m1 * 2 ^ (e1 - e)) (m2 * 2 ^ (e2 - e)).
Proof.
  intros H1 H2. unfold scaled_cmp. set (m := Z.min e1 e2).
  assert (e <= m) as Hm by lia.
  replace (e1 - e) with ((e1 - m) + (m - e)) by lia.
  replace (e2 - e) with ((e2 - m) + (m - e)) by lia.
  rewrite !Z.pow_add_r, !Z.mul_assoc by lia.
  apply Zmult_compare_compat_r.
  apply Z.lt_gt, Z.pow_pos_nonneg; lia.
Qed.

Lemma scaled_cmp_antisym m1 e1 m2 e2 :
  scaled_cmp m2 e2 m1 e1 = CompOpp (scaled_cmp m1 e1 m2 e2).
Proof. unfold scaled_cmp. rewrite Z.min_comm. apply Z.compare_antisym. Qed.

Lemma ext_cmp_antisym a b :
  ext_cmp b a = option_map CompOpp (ext_cmp a b).
Proof.
  destruct a as [|[]|m e], b as [|[]|m' e']; simpl; try done.
  by rewrite scaled_cmp_antisym.
Qed.

Lemma num_cmp_antisym a b : num_cmp b a = option_map CompOpp (num_cmp a b).
Proof. apply ext_cmp_antisym. Qed.

Lemma num_gt_lt a b : num_gt a b = num_lt b a.
Proof.
  unfold num_gt, num_lt. rewrite (num_cmp_antisym a b).
  by destruct (num_cmp a b) as [[]|].
Qed.

Lemma num_ge_le a b : num_ge a b = num_le b a.
Proof.
  unfold num_ge, num_le. rewrite (num_cmp_antisym a b).
  by destruct (num_cmp a b) as [[]|].
Qed.

Lemma num_cmp_int a b : num_cmp (NInt a) (NInt b) = Some (Z.compare a b).
Proof. unfold num_cmp; simpl. unfold scaled_cmp; simpl. by rewrite !Z.mul_1_r. Qed.

Lemma num_lt_int a b : num_lt (NInt a) (NInt b) = (a <? b).
Proof. unfold num_lt. rewrite num_cmp_int. unfold Z.ltb. by destruct (a ?= b). Qed.

(** A NaN is neither above, below nor equal to anything. *)
Lemma nan_incomparable x :
  num_gt x (NFloat S754_nan) = false /\ num_le x (NFloat S754_nan) = false /\
  num_lt x (NFloat S754_nan) = false /\ num_ge x (NFloat S754_nan) = false.
Proof.
  unfold num_gt, num_le, num_lt, num_ge, num_cmp.
  by destruct (ext_of x) as [| |].
Qed.

(** Away from NaNs, [>] is the negation of [<=]. *)
Lemma num_gt_not_le a b :
  ext_of a <> ENan -> ext_of b <> ENan -> num_gt a b = negb (num_le a b).
Proof.
  intros Ha Hb. unfold num_gt, num_le, num_cmp.
  destruct (ext_of a) as [|[]|], (ext_of b) as [|[]|]; try done; simpl;
    by destruct (scaled_cmp _ _ _ _).
Qed.

Lemma num_lt_trans a b c : num_lt a b = true -> num_lt b c = true -> num_lt a c = true.
Proof.
  unfold num_lt, num_cmp.
  destruct (ext_of a) as [|[]|m e], (ext_of b) as [|[]|m' e'],
    (ext_of c) as [|[]|m'' e'']; simpl; try done.
  set (k := Z.min e (Z.min e' e'')).
  rewrite (scaled_cmp_common m e m' e' k), (scaled_cmp_common m' e' m'' e'' k),
    (scaled_cmp_common m e m'' e'' k) by lia.
  repeat (match goal with |- context [Z.compare ?x ?y] => destruct (Z.compare_spec x y) end);
    try done; lia.
Qed.

#[export] Hint Rewrite num_cmp_int num_lt_int : nodechain.

(** ** The conversions on concrete numbers *)
Example parse_tenth : option_map repr_float (parse_float "0.1") = Some "0.1".
Proof. vm_compute. reflexivity. Qed.
Example parse_big : option_map repr_float (parse_float "1_000e20") = Some "1e+23".
Proof. vm_compute. reflexivity. Qed.
Example parse_sum :
  repr_float (fadd (float_of_decimal false 1 (-1)) (float_of_decimal false 2 (-1)))
  = "0.30000000000000004".
Proof. vm_compute. reflexivity. Qed.
Example format_half : format_4f (float_of_decimal true 5 (-1)) = "-0.5000".
Proof. vm_compute. reflexivity. Qed.
Example int_float_exact :
  num_gt (NInt 9007199254740993) (NFloat (fround_int 9007199254740993)) = true.
Proof. vm_compute. reflexivity. Qed.
