(* ===== verification/PyValue.v ===== *)
(** * Python values and strings

    The dynamically typed values the runtime passes through contexts,
    rule parameters and payloads, and the string methods it calls
    ([strip], [split], [lower], [in], [str]).  Strings are ASCII. *)
From Corelib Require Import SpecFloat.
From S2P Require Import Prelude PyFloat.

(** ** Text *)

Definition is_space (c : ascii) : bool :=
  let n := nat_of_ascii c in
  (Nat.leb 9 n && Nat.leb n 13) || (Nat.leb 28 n && Nat.leb n 32).

Fixpoint lstrip_by (p : ascii -> bool) (s : string) : string :=
  match s with
  | String c s' => if p c then lstrip_by p s' else s
  | EmptyString => EmptyString
  end.

Fixpoint rstrip_by (p : ascii -> bool) (s : string) : string :=
  match s with
  | String c s' =>
      match rstrip_by p s' with
      | EmptyString => if p c then EmptyString else String c EmptyString
      | t => String c t
      end
  | EmptyString => EmptyString
  end.

Definition strip_by (p : ascii -> bool) (s : string) : string :=
  rstrip_by p (lstrip_by p s).

(** [s.strip()] *)
Definition strip (s : string) : string := strip_by is_space s.

(** [s.strip(chars)] *)
Definition char_in (chars : string) (c : ascii) : bool :=
  existsb (Ascii.eqb c) (String.list_ascii_of_string chars).
Definition strip_chars (chars s : string) : string := strip_by (char_in chars) s.

(** [s.removeprefix(p)] when [s.startswith(p)] *)
Fixpoint drop_prefix (p s : string) : option string :=
  match p, s with
  | EmptyString, _ => Some s
  | String a p', String b s' => if Ascii.eqb a b then drop_prefix p' s' else None
  | String _ _, EmptyString => None
  end.

Definition starts_with (p s : string) : bool :=
  match drop_prefix p s with Some _ => true | None => false end.

(** [s.split(sep, 1)] when [sep in s], [None] otherwise. *)
Fixpoint split1 (sep s : string) : option (string * string) :=
  match drop_prefix sep s with
  | Some r => Some (EmptyString, r)
  | None =>
      match s with
      | EmptyString => None
      | String c s' =>
          match split1 sep s' with
          | Some (a, b) => Some (String c a, b)
          | None => None
          end
      end
  end.

(** [sep in s] *)
Definition contains (sep s : string) : bool :=
  match split1 sep s with Some _ => true | None => false end.

(** [s.split(c)] for a one-character separator *)
Fixpoint split_char (c : ascii) (s : string) : list string :=
  match s with
  | EmptyString => [EmptyString]
  | String a s' =>
      match split_char c s' with
      | h :: t => if Ascii.eqb a c then EmptyString :: h :: t else String a h :: t
      | [] => [EmptyString]
      end
  end.

Lemma append_nil s : "" +:+ s = s.
Proof. reflexivity. Qed.
Lemma append_cons c a s : String c a +:+ s = String c (a +:+ s).
Proof. reflexivity. Qed.
#[export] Hint Rewrite append_nil append_cons : nodechain.

Lemma drop_prefix_spec p s r : drop_prefix p s = Some r <-> s = p +:+ r.
Proof.
  revert s. induction p as [|a p IH]; intros [|b s]; simpl;
    rewrite ?append_nil, ?append_cons.
  - split; congruence.
  - split; congruence.
  - split; discriminate.
  - destruct (Ascii.eqb_spec a b) as [->|Hne].
    + rewrite IH. split; [intros -> | intros [= ->]]; reflexivity.
    + split; [discriminate | intros [= -> ?]; congruence].
Qed.

Lemma drop_prefix_app p s : drop_prefix p (p +:+ s) = Some s.
Proof. by apply drop_prefix_spec. Qed.

(** The parts around the separator make up the text. *)
Lemma split1_join sep s a b : split1 sep s = Some (a, b) -> s = a +:+ sep +:+ b.
Proof.
  revert a b. induction s as [|c s IH]; intros a b; cbn [split1].
  - destruct (drop_prefix sep "") eqn:E; [|discriminate].
    intros [= <- <-]. by apply drop_prefix_spec in E.
  - destruct (drop_prefix sep (String c s)) eqn:E.
    + intros [= <- <-]. by apply drop_prefix_spec in E.
    + destruct (split1 sep s) as [[a' b']|]; [|discriminate].
        intros [= <- <-]. rewrite append_cons. f_equal. by apply IH.
Qed.

(** A text that holds the separator is split. *)
Lemma contains_app sep a b : contains sep (a +:+ sep +:+ b) = true.
Proof.
  unfold contains.
  assert (is_Some (split1 sep (a +:+ sep +:+ b))) as [[x y] ->]; [|done].
  induction a as [|c a IH]; rewrite ?append_nil, ?append_cons.
  - destruct (sep +:+ b) as [|d t] eqn:E; cbn [split1];
      rewrite <- E, drop_prefix_app; eauto.
  - cbn [split1]. destruct (drop_prefix _ _); [eauto|].
    destruct IH as [[x y] ->]. eauto.
Qed.

Lemma contains_spec sep s :
  contains sep s = true <-> exists a b, s = a +:+ sep +:+ b.
Proof.
  split.
  - unfold contains. destruct (split1 sep s) as [[a b]|] eqn:E; [|discriminate].
    intros _. exists a, b. by apply split1_join.
  - intros (a & b & ->). apply contains_app.
Qed.

(** Texts whose characters are all in [p], and trimming them. *)
Fixpoint all_chars (p : ascii -> bool) (s : string) : bool :=
  match s with String c s' => p c && all_chars p s' | EmptyString => true end.

(** The first character, if any, is not in [p]. *)
Definition starts_out (p : ascii -> bool) (s : string) : bool :=
  match s with String c _ => negb (p c) | EmptyString => true end.

Lemma append_assoc a b c : (a +:+ b) +:+ c = a +:+ (b +:+ c).
Proof. induction a as [|x a IH]; [done|]. by rewrite !append_cons, IH. Qed.

Lemma length_append a b : String.length (a +:+ b) = (String.length a + String.length b)%nat.
Proof. induction a as [|c a IH]; [done|]. rewrite append_cons. simpl. by rewrite IH. Qed.

Lemma append_inj_tail a b c : a +:+ c = b +:+ c -> a = b.
Proof.
  revert b. induction a as [|x a IH]; intros [|y b] E; [done| | |].
  1, 2: apply (f_equal String.length) in E; rewrite !length_append in E; simpl in E; lia.
  rewrite !append_cons in E. injection E as -> E. f_equal. by apply IH.
Qed.

Lemma append_empty_r a : a +:+ "" = a.
Proof. induction a as [|x a IH]; [done|]. by rewrite append_cons, IH. Qed.

Lemma all_chars_app p a b : all_chars p (a +:+ b) = all_chars p a && all_chars p b.
Proof.
  induction a as [|c a IH]; [done|]. rewrite append_cons. cbn [all_chars].
  by rewrite IH, andb_assoc.
Qed.

Lemma lstrip_skip p a b : all_chars p a = true -> lstrip_by p (a +:+ b) = lstrip_by p b.
Proof.
  induction a as [|c a IH]; [done|]. cbn [all_chars]. rewrite append_cons.
  intros [H1 H2]%andb_true_iff. cbn [lstrip_by]. rewrite H1. auto.
Qed.

Lemma lstrip_id p s : starts_out p s = true -> lstrip_by p s = s.
Proof. destruct s as [|c s]; [done|]. cbn. by intros ->%negb_true_iff. Qed.

Lemma lstrip_split p s :
  exists a, all_chars p a = true /\ s = a +:+ lstrip_by p s /\ starts_out p (lstrip_by p s) = true.
Proof.
  induction s as [|c s (a & Ha & Hs & Ho)]; [by exists ""|]. cbn [lstrip_by].
  destruct (p c) eqn:E.
  - exists (String c a). cbn [all_chars]. rewrite E, append_cons. rewrite Hs at 1. done.
  - exists "". cbn. by rewrite E.
Qed.

Lemma rstrip_blank p a : all_chars p a = true -> rstrip_by p a = "".
Proof.
  induction a as [|c a IH]; [done|]. cbn [all_chars]. intros [H1 H2]%andb_true_iff.
  cbn [rstrip_by]. by rewrite IH, H1.
Qed.

Lemma rstrip_skip p a b : all_chars p b = true -> rstrip_by p (a +:+ b) = rstrip_by p a.
Proof.
  intros Hb. induction a as [|c a IH]; [by apply rstrip_blank|].
  rewrite append_cons. cbn [rstrip_by]. by rewrite IH.
Qed.

Lemma rstrip_app p a b : rstrip_by p b <> "" -> rstrip_by p (a +:+ b) = a +:+ rstrip_by p b.
Proof.
  intros Hb. induction a as [|c a IH]; [done|]. rewrite !append_cons. cbn [rstrip_by].
  rewrite IH. destruct (a +:+ rstrip_by p b) eqn:E; [|done].
  destruct a; [by rewrite append_nil in E | by rewrite append_cons in E].
Qed.

(** The longest prefix of characters in [p], and the rest. *)
Fixpoint span (p : ascii -> bool) (s : string) : string * string :=
  match s with
  | String c s' =>
      if p c then let '(a, b) := span p s' in (String c a, b) else (EmptyString, s)
  | EmptyString => (EmptyString, EmptyString)
  end.

Lemma span_app p a b :
  all_chars p a = true -> starts_out p b = true -> span p (a +:+ b) = (a, b).
Proof.
  intros Ha Hb. induction a as [|c a IH].
  - rewrite append_nil. destruct b as [|c b]; [done|]. cbn in *.
    apply negb_true_iff in Hb. by rewrite Hb.
  - cbn [all_chars] in Ha. apply andb_true_iff in Ha as [Hc Ha].
    rewrite append_cons. cbn [span]. by rewrite Hc, IH.
Qed.

Lemma span_split p s a b : span p s = (a, b) -> s = a +:+ b /\ all_chars p a = true.
Proof.
  revert a b. induction s as [|c s IH]; intros a b; cbn [span].
  - by intros [= <- <-].
  - destruct (p c) eqn:E.
    + destruct (span p s) as [a' b'] eqn:Es. intros [= <- <-].
      destruct (IH a' b' eq_refl) as [Hs Ha]. cbn [all_chars].
      rewrite append_cons, E, Ha. by rewrite Hs at 1.
    + by intros [= <- <-].
Qed.

Lemma contains_not p c s : all_chars p s = true -> p c = false -> contains (String c "") s = false.
Proof.
  intros Hs Hc. destruct (contains _ _) eqn:E; [|done].
  apply contains_spec in E as (a & b & ->).
  rewrite all_chars_app, append_cons in Hs. cbn [all_chars] in Hs.
  rewrite Hc in Hs. by destruct (all_chars p a).
Qed.

(** ** Decimal digits *)

(** [int(text)] of a text of digits *)
Definition read_int (l : list ascii) : Z :=
  fold_left (fun acc c => 10 * acc + default 0 (digit_of c)) l 0.

Lemma digit_of_digit d : 0 <= d < 10 -> digit_of (ascii_of_nat (Z.to_nat (48 + d))) = Some d.
Proof.
  intros H. assert (d ∈ [0;1;2;3;4;5;6;7;8;9]) as Hd.
  { rewrite !elem_of_cons. lia. }
  repeat (apply elem_of_cons in Hd as [->|Hd]; [reflexivity|]). inversion Hd.
Qed.

Lemma digits_fuel_read fuel z acc :
  0 <= z < 2 ^ Z.of_nat fuel -> (0 < fuel)%nat ->
  exists l, digits_fuel fuel z acc = l ++ acc /\ read_int l = z /\ l <> [] /\
    forall c, c ∈ l -> is_digit c = true.
Proof.
  revert z acc. induction fuel as [|fuel IH]; intros z acc Hz Hf; [lia|].
  cbn [digits_fuel]. assert (0 <= z mod 10 < 10) as Hd by (apply Z.mod_pos_bound; lia).
  assert (Hdig : is_digit (ascii_of_nat (Z.to_nat (48 + z mod 10))) = true)
    by (unfold is_digit; by rewrite digit_of_digit).
  destruct (z <? 10) eqn:E; bool_prop.
  - exists [ascii_of_nat (Z.to_nat (48 + z mod 10))]. split_and!; [done| |done|].
    + unfold read_int. cbn [fold_left]. rewrite digit_of_digit by done. simpl.
      rewrite Z.mod_small by lia. lia.
    + by intros c ->%list_elem_of_singleton.
  - destruct fuel as [|fuel]; [change (2 ^ Z.of_nat 1) with 2 in Hz; lia|].
    destruct (IH (z / 10) (ascii_of_nat (Z.to_nat (48 + z mod 10)) :: acc))
      as (l & Hl & Hr & Hn & Hall); [|lia|].
    { split; [apply Z.div_pos; lia|]. apply Z.div_lt_upper_bound; [lia|].
      rewrite Nat2Z.inj_succ, Z.pow_succ_r in Hz by lia. lia. }
    exists (l ++ [ascii_of_nat (Z.to_nat (48 + z mod 10))]). rewrite Hl. split_and!.
    + by rewrite <- app_assoc.
    + unfold read_int in *. rewrite fold_left_app, Hr. cbn [fold_left].
      rewrite digit_of_digit by done. simpl. pose proof (Z.div_mod z 10). lia.
    + by destruct l.
    + intros c [Hc|Hc]%elem_of_app; [auto|]. by apply list_elem_of_singleton in Hc as ->.
Qed.

Lemma digits_read z :
  0 <= z -> read_int (digits z) = z /\ digits z <> [] /\
  forall c, c ∈ digits z -> is_digit c = true.
Proof.
  intros Hz. unfold digits.
  destruct (digits_fuel_read (S (Z.to_nat (Z.log2 z))) z []) as (l & Hl & Hr & Hn & Hall); [|lia|].
  - split; [done|]. rewrite Nat2Z.inj_succ, Z2Nat.id by apply Z.log2_nonneg.
    destruct (Z.eq_dec z 0) as [->|]; [reflexivity|]. apply Z.log2_spec. lia.
  - rewrite app_nil_r in Hl. by rewrite Hl.
Qed.

(** A text of digits. *)
Definition digit_text (s : string) : Prop := s <> "" /\ all_chars is_digit s = true.

Lemma all_chars_of p l :
  (forall c, c ∈ l -> p c = true) -> all_chars p (String.string_of_list_ascii l) = true.
Proof.
  induction l as [|c l IH]; intros H; [done|]. cbn. rewrite (H c) by left.
  apply IH. intros x Hx. apply H. by right.
Qed.

(** ** Values *)

Inductive pyval :=
| VNone
| VBool (b : bool)
| VInt (z : Z)
| VFloat (f : pyfloat)
| VStr (s : string)
| VList (l : list pyval)
| VDict (d : list (string * pyval)).

Definition pyctx := dict pyval.

(** [bool(v)] *)
Definition truthy (v : pyval) : bool :=
  match v with
  | VNone => false
  | VBool b => b
  | VInt z => negb (z =? 0)
  | VFloat f => match f with S754_zero _ => false | _ => true end
  | VStr s => str_truthy s
  | VList l => nonempty l
  | VDict d => nonempty d
  end.

(** The number a value is, if it is one ([bool] is a subclass of [int]). *)
Definition as_num (v : pyval) : option num :=
  match v with
  | VBool b => Some (NInt (if b then 1 else 0))
  | VInt z => Some (NInt z)
  | VFloat f => Some (NFloat f)
  | _ => None
  end.

(** [v == w]. *)
Fixpoint py_eq (v w : pyval) {struct v} : bool :=
  match v, w with
  | VNone, VNone => true
  | VStr s, VStr s' => s =s? s'
  | VList l, VList l' =>
      (fix go (l l' : list pyval) :=
         match l, l' with
         | [], [] => true
         | x :: t, y :: t' => py_eq x y && go t t'
         | _, _ => false
         end) l l'
  | VDict d, VDict d' =>
      Nat.eqb (length d) (length d') &&
      (fix go (d : list (string * pyval)) :=
         match d with
         | [] => true
         | (k, x) :: t =>
             match dget k d' with Some y => py_eq x y | None => false end && go t
         end) d
  | _, _ =>
      match as_num v, as_num w with
      | Some a, Some b => num_eq a b
      | _, _ => false
      end
  end.

Lemma py_eq_int x y : py_eq (VInt x) (VInt y) = (x =? y).
Proof.
  change (num_eq (NInt x) (NInt y) = (x =? y)). unfold num_eq. rewrite num_cmp_int.
  destruct (Z.compare_spec x y), (Z.eqb_spec x y); lia || done.
Qed.

Definition hex_digit (n : nat) : ascii :=
  ascii_of_nat (if Nat.ltb n 10 then 48 + n else 87 + n).

(** One character of [repr(s)], between quotes [q]. *)
Definition repr_char (q c : ascii) : string :=
  let n := nat_of_ascii c in
  if Ascii.eqb c q || Nat.eqb n 92 then String (ascii_of_nat 92) (String c "")
  else if Nat.eqb n 10 then String (ascii_of_nat 92) "n"
  else if Nat.eqb n 13 then String (ascii_of_nat 92) "r"
  else if Nat.eqb n 9 then String (ascii_of_nat 92) "t"
  else if Nat.ltb n 32 || Nat.leb 127 n then
    String (ascii_of_nat 92)
      (String "x" (String (hex_digit (n / 16)) (String (hex_digit (n mod 16)) "")))
  else String c "".

Definition squote : ascii := ascii_of_nat 39.
Definition dquote : ascii := ascii_of_nat 34.

(** [repr(s)]: single quotes, unless the text holds one and no double quote. *)
Definition repr_str (s : string) : string :=
  let l := String.list_ascii_of_string s in
  let q := if existsb (Ascii.eqb squote) l && negb (existsb (Ascii.eqb dquote) l)
           then dquote else squote in
  String q (String.concat "" (map (repr_char q) l)) +:+ String q "".

(** [repr(v)] *)
Fixpoint repr (v : pyval) : string :=
  match v with
  | VNone => "None"
  | VBool b => if b then "True" else "False"
  | VInt z => str_int z
  | VFloat f => repr_float f
  | VStr s => repr_str s
  | VList l => "[" +:+ String.concat ", " (map repr l) +:+ "]"
  | VDict d =>
      "{" +:+ String.concat ", "
        ((fix go (d : list (string * pyval)) :=
            match d with
            | [] => []
            | (k, x) :: t => (repr_str k +:+ ": " +:+ repr x) :: go t
            end) d) +:+ "}"
  end.

(** [str(v)] *)
Definition py_str (v : pyval) : string :=
  match v with VStr s => s | _ => repr v end.

Inductive float_error := FValueError | FTypeError | FOverflowError.

#[export] Instance float_error_eq_dec : EqDecision float_error.
Proof. solve_decision. Defined.

(** [float(v)] *)
Definition py_float (v : pyval) : res float_error pyfloat :=
  match v with
  | VBool b => Ok (fround_int (if b then 1 else 0))
  | VInt z => match float_of_int z with Some f => Ok f | None => Err FOverflowError end
  | VFloat f => Ok f
  | VStr s => match parse_float (strip s) with Some f => Ok f | None => Err FValueError end
  | VNone | VList _ | VDict _ => Err FTypeError
  end.

Definition context_get (k : string) (ctx : pyctx) : pyval :=
  match dget k ctx with Some v => v | None => VNone end.

Definition is_none (v : pyval) : bool := match v with VNone => true | _ => false end.

Example repr_nested :
  repr (VList [VStr "a"; VInt (-3); VBool true; VFloat (float_of_decimal false 15 (-1))])
  = "['a', -3, True, 1.5]".
Proof. vm_compute. reflexivity. Qed.
Example strip_ex : strip "  a b  " = "a b".
Proof. reflexivity. Qed.
Example split_ex : split1 "==" "x == y == z" = Some ("x ", " y == z").
Proof. reflexivity. Qed.
