(* ===== verification/Json.v ===== *)
(** * JSON texts

    [json.dumps] and [json.loads] as the runtime calls them.  A text is a
    sequence of code points below 256; bytes are the same type, and UTF-8
    maps one to the other.  The round trip covers every value without
    floats: their shortest printing is executable here, not verified. *)
From Corelib Require Import SpecFloat.
From S2P Require Import Prelude PyFloat PyValue.

(** ** Writing *)

(** [separators], [ensure_ascii], [sort_keys] and [allow_nan]: the separators
    are a comma and a colon followed by blanks. *)
Record JsonOptions := mkJsonOptions {
  o_item_ws : string;
  o_kv_ws : string;
  o_ensure_ascii : bool;
  o_sort_keys : bool;
  o_allow_nan : bool;
}.

Definition backslash : ascii := ascii_of_nat 92.

(** One character inside the quotes. *)
Definition json_char (ascii_only : bool) (c : ascii) : string :=
  let n := nat_of_ascii c in
  let esc (d : ascii) := String backslash (String d "") in
  if Nat.eqb n 34 then esc dquote
  else if Nat.eqb n 92 then esc backslash
  else if Nat.eqb n 10 then esc "n"%char
  else if Nat.eqb n 13 then esc "r"%char
  else if Nat.eqb n 9 then esc "t"%char
  else if Nat.eqb n 12 then esc "f"%char
  else if Nat.eqb n 8 then esc "b"%char
  else if Nat.ltb n 32 || (ascii_only && Nat.leb 127 n) then
    String backslash ("u00" +:+ String (hex_digit (n / 16)) (String (hex_digit (n mod 16)) ""))
  else String c "".

Fixpoint json_chars (ascii_only : bool) (s : string) : string :=
  match s with
  | String c s' => json_char ascii_only c +:+ json_chars ascii_only s'
  | EmptyString => EmptyString
  end.

Definition json_str (ascii_only : bool) (s : string) : string :=
  String dquote (json_chars ascii_only s +:+ String dquote "").

Definition json_float (f : pyfloat) : string :=
  match f with
  | S754_nan => "NaN"
  | S754_infinity s => if s then "-Infinity" else "Infinity"
  | _ => repr_float f
  end.

Definition key_leb {A} (x y : string * A) : bool := String.leb (fst x) (fst y).

Definition json_items {A} (o : JsonOptions) (l : list (string * A)) : list (string * A) :=
  if o_sort_keys o then py_sorted key_leb l else l.

Fixpoint join (sep : string) (l : list string) : string :=
  match l with
  | [] => ""
  | [x] => x
  | x :: l' => x +:+ sep +:+ join sep l'
  end.

Definition json_entry (o : JsonOptions) (e : string * string) : string :=
  json_str (o_ensure_ascii o) (fst e) +:+ ":" +:+ o_kv_ws o +:+ snd e.

Fixpoint json_text (o : JsonOptions) (v : pyval) : string :=
  match v with
  | VNone => "null"
  | VBool b => if b then "true" else "false"
  | VInt z => str_int z
  | VFloat f => json_float f
  | VStr s => json_str (o_ensure_ascii o) s
  | VList l => "[" +:+ join ("," +:+ o_item_ws o) (map (json_text o) l) +:+ "]"
  | VDict d =>
      "{" +:+ join ("," +:+ o_item_ws o)
        (map (json_entry o) (json_items o
           ((fix go (d : list (string * pyval)) :=
               match d with
               | [] => []
               | (k, x) :: t => (k, json_text o x) :: go t
               end) d))) +:+ "}"
  end.

(** No NaN and no infinity anywhere. *)
Fixpoint json_finite (v : pyval) : bool :=
  match v with
  | VFloat f => negb (is_nan f || is_inf f)
  | VList l => forallb json_finite l
  | VDict d =>
      (fix go (d : list (string * pyval)) :=
         match d with [] => true | (_, x) :: t => json_finite x && go t end) d
  | _ => true
  end.

(** [json.dumps]; [None] is the [ValueError] of [allow_nan=False]. *)
Definition dumps (o : JsonOptions) (v : pyval) : option string :=
  if o_allow_nan o || json_finite v then Some (json_text o v) else None.

(** [json.dumps(v)] and [json.dumps(v, sort_keys=True)] *)
Definition default_options : JsonOptions := mkJsonOptions " " " " true false true.
Definition sorted_options : JsonOptions := mkJsonOptions " " " " true true true.

(** ** Reading *)

Definition is_json_ws (c : ascii) : bool :=
  let n := nat_of_ascii c in Nat.eqb n 32 || Nat.eqb n 9 || Nat.eqb n 10 || Nat.eqb n 13.

Definition skip_ws (s : string) : string := lstrip_by is_json_ws s.

Definition hex_value (c : ascii) : option nat :=
  let n := nat_of_ascii c in
  if Nat.leb 48 n && Nat.leb n 57 then Some (n - 48)%nat
  else if Nat.leb 97 n && Nat.leb n 102 then Some (n - 87)%nat
  else if Nat.leb 65 n && Nat.leb n 70 then Some (n - 55)%nat
  else None.

(** The code point of four hexadecimal digits, below 256. *)
Definition code_point (a b c d : ascii) : option ascii :=
  match hex_value a, hex_value b, hex_value c, hex_value d with
  | Some 0%nat, Some 0%nat, Some x, Some y => Some (ascii_of_nat (16 * x + y))
  | _, _, _, _ => None
  end.

Definition unescape (c : ascii) : option ascii :=
  let n := nat_of_ascii c in
  if Nat.eqb n 34 || Nat.eqb n 92 || Nat.eqb n 47 then Some c
  else if Nat.eqb n 110 then Some (ascii_of_nat 10)
  else if Nat.eqb n 114 then Some (ascii_of_nat 13)
  else if Nat.eqb n 116 then Some (ascii_of_nat 9)
  else if Nat.eqb n 102 then Some (ascii_of_nat 12)
  else if Nat.eqb n 98 then Some (ascii_of_nat 8)
  else None.

Definition cons_fst {B} (c : ascii) (r : option (string * B)) : option (string * B) :=
  match r with Some (s, rest) => Some (String c s, rest) | None => None end.

(** The rest of a string literal after its opening quote ([strict]). *)
Fixpoint scan_string (s : string) : option (string * string) :=
  match s with
  | EmptyString => None
  | String c s' =>
      if Ascii.eqb c dquote then Some (EmptyString, s')
      else if Ascii.eqb c backslash then
        match s' with
        | String e s2 =>
            if Ascii.eqb e "u"%char then
              match s2 with
              | String h1 (String h2 (String h3 (String h4 s3))) =>
                  match code_point h1 h2 h3 h4 with
                  | Some c' => cons_fst c' (scan_string s3)
                  | None => None
                  end
              | _ => None
              end
            else match unescape e with
                 | Some c' => cons_fst c' (scan_string s2)
                 | None => None
                 end
        | EmptyString => None
        end
      else if Nat.ltb (nat_of_ascii c) 32 then None
      else cons_fst c (scan_string s')
  end.

(** [(\.\d+)?] and [([eE][-+]?\d+)?] *)
Definition scan_frac (s : string) : string * string :=
  match s with
  | String c s' =>
      let '(ds, rest) := span is_digit s' in
      if Ascii.eqb c "."%char && str_truthy ds then (String c ds, rest) else ("", s)
  | EmptyString => ("", s)
  end.

Definition scan_exp (s : string) : string * string :=
  match s with
  | String c s' =>
      if Ascii.eqb c "e"%char || Ascii.eqb c "E"%char then
        let '(sg, s2) := match s' with
                         | String d t => if Ascii.eqb d "-"%char || Ascii.eqb d "+"%char
                                         then (String d "", t) else ("", s')
                         | EmptyString => ("", s')
                         end in
        let '(ds, rest) := span is_digit s2 in
        if str_truthy ds then (String c (sg +:+ ds), rest) else ("", s)
      else ("", s)
  | EmptyString => ("", s)
  end.

(** [(-?(?:0|[1-9]\d* ))], the value of its digits and what follows. *)
Definition scan_int (s : string) : option (bool * string * string) :=
  let '(neg, s1) := match drop_prefix "-" s with Some t => (true, t) | None => (false, s) end in
  match s1 with
  | String c t =>
      if Ascii.eqb c "0"%char then Some (neg, "0", t)
      else let '(ds, rest) := span is_digit s1 in
           if str_truthy ds then Some (neg, ds, rest) else None
  | EmptyString => None
  end.

Definition scan_number (s : string) : option (pyval * string) :=
  match scan_int s with
  | None => None
  | Some (neg, ds, rest) =>
      let '(fr, rest1) := scan_frac rest in
      let '(ex, rest2) := scan_exp rest1 in
      if str_truthy fr || str_truthy ex then
        match parse_float ((if neg then "-" else "") +:+ ds +:+ fr +:+ ex) with
        | Some f => Some (VFloat f, rest2)
        | None => None
        end
      else
        let m := read_int (String.list_ascii_of_string ds) in
        Some (VInt (if neg then - m else m), rest2)
  end.

(** The literals, tried in the order of the scanner. *)
Definition scan_literal (s : string) : option (pyval * string) :=
  let lit (w : string) (v : pyval) (k : option (pyval * string)) :=
    match drop_prefix w s with Some r => Some (v, r) | None => k end in
  lit "null" VNone (lit "true" (VBool true) (lit "false" (VBool false)
    (match scan_number s with
     | Some r => Some r
     | None => lit "NaN" (VFloat S754_nan) (lit "Infinity" (VFloat (S754_infinity false))
                 (lit "-Infinity" (VFloat (S754_infinity true)) None))
     end))).

(** [scan_once], the array after its bracket or a comma, and the object after
    its brace or a comma; a value takes at least one character, so the length
    of the text is enough fuel. *)
Fixpoint scan_once (fuel : nat) (s : string) : option (pyval * string) :=
  match fuel with
  | O => None
  | S f =>
      match s with
      | String c s' =>
          if Ascii.eqb c dquote then
            match scan_string s' with Some (t, r) => Some (VStr t, r) | None => None end
          else if Ascii.eqb c "{"%char then
            match skip_ws s' with
            | String c2 r =>
                if Ascii.eqb c2 "}"%char then Some (VDict [], r)
                else match scan_object f (skip_ws s') with
                     | Some (kvs, r) => Some (VDict (fold_left (fun d kv => dset (fst kv) (snd kv) d) kvs []), r)
                     | None => None
                     end
            | EmptyString => None
            end
          else if Ascii.eqb c "["%char then
            match skip_ws s' with
            | String c2 r =>
                if Ascii.eqb c2 "]"%char then Some (VList [], r)
                else match scan_array f (skip_ws s') with
                     | Some (vs, r) => Some (VList vs, r)
                     | None => None
                     end
            | EmptyString => None
            end
          else scan_literal s
      | EmptyString => None
      end
  end
with scan_array (fuel : nat) (s : string) : option (list pyval * string) :=
  match fuel with
  | O => None
  | S f =>
      match scan_once f s with
      | Some (v, r) =>
          match skip_ws r with
          | String c r' =>
              if Ascii.eqb c "]"%char then Some ([v], r')
              else if Ascii.eqb c ","%char then
                match scan_array f (skip_ws r') with
                | Some (vs, r2) => Some (v :: vs, r2)
                | None => None
                end
              else None
          | EmptyString => None
          end
      | None => None
      end
  end
with scan_object (fuel : nat) (s : string) : option (list (string * pyval) * string) :=
  match fuel with
  | O => None
  | S f =>
      match s with
      | String q s' =>
          if Ascii.eqb q dquote then
            match scan_string s' with
            | Some (k, r) =>
                match skip_ws r with
                | String c r' =>
                    if Ascii.eqb c ":"%char then
                      match scan_once f (skip_ws r') with
                      | Some (v, r2) =>
                          match skip_ws r2 with
                          | String c2 r3 =>
                              if Ascii.eqb c2 "}"%char then Some ([(k, v)], r3)
                              else if Ascii.eqb c2 ","%char then
                                match scan_object f (skip_ws r3) with
                                | Some (kvs, r4) => Some ((k, v) :: kvs, r4)
                                | None => None
                                end
                              else None
                          | EmptyString => None
                          end
                      | None => None
                      end
                    else None
                | EmptyString => None
                end
            | None => None
            end
          else None
      | EmptyString => None
      end
  end.

(** [json.loads]; [None] is [JSONDecodeError]. *)
Definition loads (s : string) : option pyval :=
  let s := skip_ws s in
  match scan_once (String.length s) s with
  | Some (v, r) => if str_truthy (skip_ws r) then None else Some v
  | None => None
  end.

(** ** UTF-8 *)

Fixpoint utf8_encode (s : string) : string :=
  match s with
  | String c s' =>
      let n := nat_of_ascii c in
      if Nat.ltb n 128 then String c (utf8_encode s')
      else String (ascii_of_nat (192 + n / 64)) (String (ascii_of_nat (128 + n mod 64)) (utf8_encode s'))
  | EmptyString => EmptyString
  end.

(** Code points from 256 on are outside the model. *)
Fixpoint utf8_decode (s : string) : option string :=
  match s with
  | EmptyString => Some EmptyString
  | String c s' =>
      let n := nat_of_ascii c in
      if Nat.ltb n 128 then option_map (String c) (utf8_decode s')
      else if Nat.eqb n 194 || Nat.eqb n 195 then
        match s' with
        | String d s2 =>
            let m := nat_of_ascii d in
            if Nat.leb 128 m && Nat.ltb m 192
            then option_map (String (ascii_of_nat ((n - 192) * 64 + (m - 128)))) (utf8_decode s2)
            else None
        | EmptyString => None
        end
      else None
  end.

Example dumps_ex :
  dumps (mkJsonOptions "" "" false true false)
    (VDict [("b", VList [VInt (-3); VNone]); ("a", VStr (String (ascii_of_nat 10) "x"))])
  = Some ("{" +:+ String dquote "a" +:+ String dquote ":" +:+ String dquote (String backslash "nx")
          +:+ String dquote "," +:+ String dquote "b" +:+ String dquote ":[-3,null]}").
Proof. vm_compute. reflexivity. Qed.
Example loads_ex :
  loads (" [1, 2.5 ,-0, " +:+ String dquote (String backslash "u0041") +:+ String dquote ", {}, true ] ")
  = Some (VList [VInt 1; VFloat (float_of_decimal false 25 (-1)); VInt 0; VStr "A"; VDict []; VBool true]).
Proof. vm_compute. reflexivity. Qed.
Example loads_bad : loads "[1,]" = None /\ loads "01" = None /\ loads "nul" = None.
Proof. vm_compute. repeat split. Qed.

(** ** Lemmas on the scanner *)

(** Induction over values with the hypothesis for every element. *)
Fixpoint pyval_nested_ind (P : pyval -> Prop)
  (Hnone : P VNone) (Hbool : forall b, P (VBool b)) (Hint : forall z, P (VInt z))
  (Hfloat : forall f, P (VFloat f)) (Hstr : forall s, P (VStr s))
  (Hlist : forall l, Forall P l -> P (VList l))
  (Hdict : forall d, Forall (fun kv => P (snd kv)) d -> P (VDict d))
  (v : pyval) {struct v} : P v.
Proof.
  destruct v as [| b | z | f | s | l | d]; auto.
  - apply Hlist. induction l as [|x l IH]; constructor; [|exact IH].
    apply pyval_nested_ind; assumption.
  - apply Hdict. induction d as [|[k x] d IH]; constructor; [|exact IH].
    apply pyval_nested_ind; assumption.
Defined.

Lemma scan_json_char a c t : scan_string (json_char a c +:+ t) = cons_fst c (scan_string t).
Proof. destruct a, c as [[] [] [] [] [] [] [] []]; reflexivity. Qed.

Lemma scan_json_chars a s rest :
  scan_string (json_chars a s +:+ String dquote rest) = Some (s, rest).
Proof.
  induction s as [|c s IH]; [reflexivity|].
  cbn [json_chars]. by rewrite append_assoc, scan_json_char, IH.
Qed.

Lemma json_str_app a s rest :
  json_str a s +:+ rest = String dquote (json_chars a s +:+ String dquote rest).
Proof. unfold json_str. by rewrite append_cons, append_assoc. Qed.

(** What may follow a number. *)
Definition num_stop (c : ascii) : bool :=
  is_digit c || Ascii.eqb c "."%char || Ascii.eqb c "e"%char || Ascii.eqb c "E"%char.

Lemma scan_tail_stop rest :
  starts_out num_stop rest = true -> scan_frac rest = ("", rest) /\ scan_exp rest = ("", rest).
Proof.
  destruct rest as [|c t]; [done|]. cbn [starts_out]. unfold num_stop.
  intros H%negb_true_iff. bool_prop. unfold scan_frac, scan_exp.
  destruct (Ascii.eqb c "."); [done|]. destruct (Ascii.eqb c "e"), (Ascii.eqb c "E"); try done.
  by destruct (span is_digit t).
Qed.

Lemma num_stop_digit rest : starts_out num_stop rest = true -> starts_out is_digit rest = true.
Proof.
  destruct rest as [|c t]; [done|]. cbn [starts_out]. unfold num_stop.
  destruct (is_digit c); [done | done].
Qed.

Lemma digits_fuel_first fuel z acc :
  0 < z -> (0 < fuel)%nat -> z < 2 ^ Z.of_nat fuel ->
  exists d l, 0 < d < 10 /\ digits_fuel fuel z acc = ascii_of_nat (Z.to_nat (48 + d)) :: l.
Proof.
  revert z acc. induction fuel as [|fuel IH]; intros z acc Hz Hf Hlt; [lia|].
  cbn [digits_fuel]. destruct (z <? 10) eqn:E; bool_prop.
  - exists (z mod 10), acc. rewrite Z.mod_small by lia. split; [lia | done].
  - destruct fuel as [|fuel]; [change (2 ^ Z.of_nat 1) with 2 in Hlt; lia|].
    apply IH; [|lia|].
    + apply Z.div_str_pos. lia.
    + apply Z.div_lt_upper_bound; [lia|]. rewrite Nat2Z.inj_succ, Z.pow_succ_r in Hlt by lia. lia.
Qed.

(** The digits of a positive number do not start with a zero. *)
Lemma digits_first z :
  0 < z -> exists c l, digits z = c :: l /\ Ascii.eqb c "0"%char = false.
Proof.
  intros Hz. unfold digits.
  destruct (digits_fuel_first (S (Z.to_nat (Z.log2 z))) z []) as (d & l & Hd & He); [done|lia| |].
  - rewrite Nat2Z.inj_succ, Z2Nat.id by apply Z.log2_nonneg. apply Z.log2_spec. lia.
  - exists (ascii_of_nat (Z.to_nat (48 + d))), l. split; [done|].
    assert (d ∈ [1;2;3;4;5;6;7;8;9]) as Hin by (rewrite !elem_of_cons; lia).
    repeat (apply elem_of_cons in Hin as [->|Hin]; [reflexivity|]). inversion Hin.
Qed.

(** The text of the digits of [z >= 0], and its value. *)
Lemma digit_text_of z :
  0 <= z -> exists c t, str_of_ascii (digits z) = String c t /\
    all_chars is_digit (String c t) = true /\
    read_int (String.list_ascii_of_string (String c t)) = z /\
    (Ascii.eqb c "0"%char = true -> z = 0 /\ t = "").
Proof.
  intros Hz. destruct (digits_read z Hz) as (Hr & Hn & Hd).
  destruct (digits z) as [|c l] eqn:E; [done|].
  exists c, (str_of_ascii l). split; [done|]. split_and!.
  - apply (all_chars_of is_digit (c :: l)). intros x Hx. by apply Hd.
  - change (String c (str_of_ascii l)) with (str_of_ascii (c :: l)). unfold str_of_ascii.
    by rewrite String.list_ascii_of_string_of_list_ascii.
  - intros Hc. destruct (Z.eq_dec z 0) as [->|Hne].
    + split; [done|]. vm_compute in E. by injection E as <- <-.
    + destruct (digits_first z) as (c' & l' & E' & Hc'); [lia|]. congruence.
Qed.

Lemma scan_int_digits z rest :
  0 <= z -> starts_out is_digit rest = true ->
  exists ds, read_int (String.list_ascii_of_string ds) = z /\
    scan_int (str_of_ascii (digits z) +:+ rest) = Some (false, ds, rest) /\
    scan_int ("-" +:+ str_of_ascii (digits z) +:+ rest) = Some (true, ds, rest).
Proof.
  intros Hz Hr. destruct (digit_text_of z Hz) as (c & t & -> & Ha & Hv & Hc).
  assert (Hm : drop_prefix "-" (String c t +:+ rest) = None).
  { rewrite append_cons. cbn [drop_prefix]. cbn [all_chars] in Ha.
    apply andb_true_iff in Ha as [Hd _].
    destruct (Ascii.eqb_spec "-" c) as [<-|]; [discriminate Hd | done]. }
  exists (String c t). split; [done|]. unfold scan_int.
  rewrite Hm, drop_prefix_app, append_cons. destruct (Ascii.eqb c "0"%char) eqn:E.
  - destruct (Hc eq_refl) as [-> ->]. apply Ascii.eqb_eq in E as ->. done.
  - rewrite <- append_cons, span_app by done. done.
Qed.

Lemma scan_number_int z rest :
  starts_out num_stop rest = true -> scan_number (str_int z +:+ rest) = Some (VInt z, rest).
Proof.
  intros Hr. destruct (scan_tail_stop rest Hr) as [Hf He].
  destruct (scan_int_digits (Z.abs z) rest) as (ds & Hv & H1 & H2);
    [lia | by apply num_stop_digit |].
  unfold str_int, scan_number. destruct (z <? 0) eqn:E; bool_prop.
  - replace (- z) with (Z.abs z) by lia. rewrite append_assoc, H2, Hf, He. cbn.
    rewrite Hv. do 2 f_equal. f_equal. lia.
  - replace (str_of_ascii (digits z)) with (str_of_ascii (digits (Z.abs z))) by (do 2 f_equal; lia).
    rewrite H1, Hf, He. cbn. rewrite Hv. do 2 f_equal. f_equal. lia.
Qed.

(** A number starts with a digit or a minus sign. *)
Lemma str_int_first z :
  exists c t, str_int z = String c t /\ is_digit c || Ascii.eqb c "-"%char = true.
Proof.
  unfold str_int. destruct (z <? 0) eqn:E; bool_prop; [by eexists _, _|].
  destruct (digit_text_of z) as (c & t & -> & Ha & _); [lia|]. cbn [all_chars] in Ha.
  apply andb_true_iff in Ha as [Hd _]. exists c, t. by rewrite Hd.
Qed.

Lemma scan_literal_int z rest :
  starts_out num_stop rest = true -> scan_literal (str_int z +:+ rest) = Some (VInt z, rest).
Proof.
  intros Hr. unfold scan_literal. rewrite scan_number_int by done.
  destruct (str_int_first z) as (c & t & -> & Hc). rewrite append_cons.
  cbn [drop_prefix].
  by destruct c as [[] [] [] [] [] [] [] []].
Qed.

(** ** Reading back what was written *)

Definition map_snd {A B} (f : A -> B) (d : list (string * A)) : list (string * B) :=
  map (fun kv => (fst kv, f (snd kv))) d.

(** The value with its dicts in the order of the text. *)
Fixpoint json_value (o : JsonOptions) (v : pyval) : pyval :=
  match v with
  | VList l => VList (map (json_value o) l)
  | VDict d =>
      VDict (json_items o
        ((fix go (d : list (string * pyval)) :=
            match d with [] => [] | (k, x) :: t => (k, json_value o x) :: go t end) d))
  | _ => v
  end.

(** No floats, and dicts with distinct keys. *)
Fixpoint json_plain (v : pyval) : bool :=
  match v with
  | VFloat _ => false
  | VList l => forallb json_plain l
  | VDict d =>
      bool_decide (NoDup (map fst d)) &&
      (fix go (d : list (string * pyval)) :=
         match d with [] => true | (_, x) :: t => json_plain x && go t end) d
  | _ => true
  end.

Lemma json_text_dict o d :
  json_text o (VDict d) =
  "{" +:+ join ("," +:+ o_item_ws o)
    (map (json_entry o) (json_items o (map_snd (json_text o) d))) +:+ "}".
Proof.
  cbn [json_text]. do 5 f_equal. induction d as [|[k x] d IH]; [done|]. cbn. by rewrite IH.
Qed.

Lemma json_value_dict o d :
  json_value o (VDict d) = VDict (json_items o (map_snd (json_value o) d)).
Proof.
  cbn [json_value]. do 2 f_equal. induction d as [|[k x] d IH]; [done|]. cbn. by rewrite IH.
Qed.

Lemma json_plain_dict d :
  json_plain (VDict d) = true <->
  NoDup (map fst d) /\ Forall (fun kv => json_plain (snd kv) = true) d.
Proof.
  cbn [json_plain]. rewrite andb_true_iff, bool_decide_eq_true. f_equiv.
  induction d as [|[k x] d IH]; [by split; [constructor|]|].
  rewrite andb_true_iff, Forall_cons, IH. done.
Qed.

Lemma sort_insert_map_snd {A B} (f : A -> B) x l :
  map_snd f (sort_insert key_leb x l) = sort_insert key_leb (fst x, f (snd x)) (map_snd f l).
Proof.
  induction l as [|y l IH]; [done|]. cbn [sort_insert map_snd map].
  unfold key_leb at 1 3. cbn [fst]. destruct (String.leb (fst x) (fst y)); [done|].
  cbn [map_snd map] in *. f_equal. exact IH.
Qed.

Lemma json_items_map_snd {A B} o (f : A -> B) d :
  json_items o (map_snd f d) = map_snd f (json_items o d).
Proof.
  unfold json_items. destruct (o_sort_keys o); [|done].
  induction d as [|x d IH]; [done|].
  change (py_sorted key_leb (x :: d)) with (sort_insert key_leb x (py_sorted key_leb d)).
  change (py_sorted key_leb (map_snd f (x :: d)))
    with (sort_insert key_leb (fst x, f (snd x)) (py_sorted key_leb (map_snd f d))).
  by rewrite IH, sort_insert_map_snd.
Qed.

Lemma json_items_perm {A} o (d : list (string * A)) : json_items o d ≡ₚ d.
Proof. unfold json_items. destruct (o_sort_keys o); [apply py_sorted_perm | done]. Qed.

Lemma dset_new {V} k (v : V) d : k ∉ map fst d -> dset k v d = d ++ [(k, v)].
Proof.
  induction d as [|[k' v'] d IH]; [done|]. cbn. rewrite not_elem_of_cons.
  intros [Hne Hd]. apply String.eqb_neq in Hne as ->. by rewrite IH.
Qed.

(** Building a dict from pairs with distinct keys keeps them. *)
Lemma dict_of_pairs {V} (l acc : list (string * V)) :
  NoDup (map fst (acc ++ l)) ->
  fold_left (fun d kv => dset (fst kv) (snd kv) d) l acc = acc ++ l.
Proof.
  revert acc. induction l as [|[k v] l IH]; intros acc Hn; [by rewrite app_nil_r|].
  cbn [fold_left fst snd]. rewrite dset_new.
  - rewrite IH; rewrite <- app_assoc; done.
  - rewrite map_app in Hn. apply NoDup_app in Hn as (_ & H & _). intros Hk.
    apply (H k Hk). left.
Qed.

Lemma skip_ws_sep c ws t :
  all_chars is_json_ws ws = true -> is_json_ws c = false ->
  skip_ws (ws +:+ String c t) = String c t.
Proof.
  intros Hw Hc. unfold skip_ws. rewrite lstrip_skip by done. apply lstrip_id.
  cbn. by rewrite Hc.
Qed.

Lemma skip_ws_char c t : is_json_ws c = false -> skip_ws (String c t) = String c t.
Proof. intros Hc. apply lstrip_id. cbn. by rewrite Hc. Qed.

(** A value starts with a character that is neither blank nor closing. *)
Definition value_char (c : ascii) : bool :=
  negb (is_json_ws c || Ascii.eqb c "]"%char || Ascii.eqb c "}"%char).

Lemma json_text_first o v :
  json_plain v = true -> exists c t, json_text o v = String c t /\ value_char c = true.
Proof.
  destruct v as [|[]|z|f|s|l|d]; intros Hp; try discriminate Hp;
    try (eexists _, _; split; [reflexivity | reflexivity]).
  destruct (str_int_first z) as (c & t & Hs & Hc). exists c, t. split; [exact Hs|].
  destruct c as [[] [] [] [] [] [] [] []]; done.
Qed.

Lemma value_char_spec c :
  value_char c = true -> is_json_ws c = false /\ Ascii.eqb c "]"%char = false /\
  Ascii.eqb c "}"%char = false.
Proof. unfold value_char. intros H%negb_true_iff. bool_prop. done. Qed.

(** Wrap the opening checks of an array and of an object. *)
Lemma scan_once_array f s c t vs r :
  skip_ws s = String c t -> Ascii.eqb c "]"%char = false ->
  scan_array f (String c t) = Some (vs, r) ->
  scan_once (S f) (String "["%char s) = Some (VList vs, r).
Proof. intros Hs Hc Ha. cbn [scan_once]. cbn. by rewrite Hs, Hc, Ha. Qed.

Lemma scan_once_object f s c t kvs r :
  skip_ws s = String c t -> Ascii.eqb c "}"%char = false ->
  scan_object f (String c t) = Some (kvs, r) ->
  scan_once (S f) (String "{"%char s) =
  Some (VDict (fold_left (fun d kv => dset (fst kv) (snd kv) d) kvs []), r).
Proof. intros Hs Hc Ha. cbn [scan_once]. cbn. by rewrite Hs, Hc, Ha. Qed.

Section RoundTrip.
Context (o : JsonOptions).
Context (item_blank : all_chars is_json_ws (o_item_ws o) = true).
Context (kv_blank : all_chars is_json_ws (o_kv_ws o) = true).

(** The scanner reads the text of [v] whatever follows it. *)
Definition reads (v : pyval) : Prop :=
  forall fuel rest, (String.length (json_text o v) <= fuel)%nat ->
  starts_out num_stop rest = true ->
  scan_once fuel (json_text o v +:+ rest) = Some (json_value o v, rest).

Definition item_sep : string := "," +:+ o_item_ws o.

(** After an item comes the closing bracket, or a comma and the next item. *)
Lemma scan_array_spec l fuel rest :
  l <> [] -> Forall (fun v => json_plain v = true) l -> Forall reads l ->
  (S (String.length (join item_sep (map (json_text o) l))) <= fuel)%nat ->
  scan_array fuel (join item_sep (map (json_text o) l) +:+ String "]"%char rest)
  = Some (map (json_value o) l, rest).
Proof.
  revert fuel. induction l as [|v l IH]; intros fuel Hne Hp Hr Hf; [done|].
  apply Forall_cons in Hp as [Hpv Hp], Hr as [Hv Hr].
  destruct fuel as [|fuel]; [lia|]. destruct l as [|w l].
  - cbn [map join scan_array] in *. rewrite Hv by (cbn; lia || done).
    rewrite skip_ws_char by done. done.
  - change (join item_sep (map (json_text o) (v :: w :: l)))
      with (json_text o v +:+ item_sep +:+ join item_sep (map (json_text o) (w :: l))) in *.
    rewrite !length_append in Hf. unfold item_sep at 1 in Hf. rewrite length_append in Hf.
    cbn [String.length] in Hf.
    cbn [scan_array]. rewrite !append_assoc. unfold item_sep at 1. rewrite !append_assoc.
    change ("," +:+ ?x) with (String ","%char x).
    rewrite Hv by (lia || done). rewrite skip_ws_char by done. cbn [Ascii.eqb Bool.eqb].
    destruct (json_text_first o w) as (c & t & Hw & Hc); [by apply Forall_cons in Hp as [? _]|].
    apply value_char_spec in Hc as (Hws & _ & _).
    assert (exists t', join item_sep (map (json_text o) (w :: l)) +:+ String "]"%char rest
                       = String c t') as [t' Ht'].
    { destruct l; cbn [map join]; rewrite Hw, !append_cons; eauto. }
    rewrite Ht', skip_ws_sep, <- Ht' by done.
    rewrite IH by (done || lia). done.
Qed.

Definition item_text (kv : string * pyval) : string :=
  json_entry o (fst kv, json_text o (snd kv)).

Lemma scan_object_spec d fuel rest :
  d <> [] -> Forall (fun kv => json_plain (snd kv) = true) d ->
  Forall (fun kv => reads (snd kv)) d ->
  (S (String.length (join item_sep (map item_text d))) <= fuel)%nat ->
  scan_object fuel (join item_sep (map item_text d) +:+ String "}"%char rest)
  = Some (map_snd (json_value o) d, rest).
Proof.
  revert fuel. induction d as [|[k v] d IH]; intros fuel Hne Hp Hr Hf; [done|].
  apply Forall_cons in Hp as [Hpv Hp], Hr as [Hv Hr]. cbn [snd] in Hpv, Hv.
  destruct fuel as [|fuel]; [lia|].
  assert (Hstep : forall tail, starts_out num_stop tail = true ->
            (String.length (item_text (k, v)) <= fuel)%nat ->
            scan_object (S fuel) (item_text (k, v) +:+ tail) =
            match skip_ws tail with
            | String c2 r3 =>
                if Ascii.eqb c2 "}"%char then Some ([(k, json_value o v)], r3)
                else if Ascii.eqb c2 ","%char then
                  match scan_object fuel (skip_ws r3) with
                  | Some (kvs, r4) => Some ((k, json_value o v) :: kvs, r4)
                  | None => None
                  end
                else None
            | EmptyString => None
            end).
  { intros tail Ht Hl. unfold item_text, json_entry in *. cbn [fst snd] in *.
    rewrite !length_append in Hl. rewrite !append_assoc, json_str_app. cbn [scan_object].
    rewrite Ascii.eqb_refl, scan_json_chars. change (":" +:+ ?x) with (String ":"%char x).
    rewrite skip_ws_char by done. cbn [Ascii.eqb Bool.eqb].
    destruct (json_text_first o v Hpv) as (c & t & Hw & Hc).
    apply value_char_spec in Hc as (Hws & _ & _).
    rewrite Hw, append_cons, skip_ws_sep, <- append_cons, <- Hw by done.
    rewrite Hv by (lia || done). done. }
  destruct d as [|[k2 v2] d].
  - cbn [map join] in *. rewrite Hstep by (done || lia). done.
  - change (join item_sep (map item_text ((k, v) :: (k2, v2) :: d)))
      with (item_text (k, v) +:+ item_sep +:+ join item_sep (map item_text ((k2, v2) :: d))) in *.
    rewrite !length_append in Hf. unfold item_sep at 1 in Hf. rewrite length_append in Hf.
    cbn [String.length] in Hf.
    rewrite !append_assoc. unfold item_sep at 1. rewrite !append_assoc.
    change ("," +:+ ?x) with (String ","%char x).
    rewrite Hstep by (lia || done). rewrite skip_ws_char by done. cbn [Ascii.eqb Bool.eqb].
    assert (exists t', join item_sep (map item_text ((k2, v2) :: d)) +:+ String "}"%char rest
                       = String dquote t') as [t' Ht'].
    { destruct d; cbn [map join]; unfold item_text at 1, json_entry, json_str; cbn [fst];
        rewrite !append_cons; eauto. }
    rewrite Ht', skip_ws_sep, <- Ht' by done.
    rewrite IH by (done || lia). done.
Qed.
End RoundTrip.

(** ** The round trip *)

Lemma forallb_Forall' {A} (p : A -> bool) l : forallb p l = true <-> Forall (fun x => p x = true) l.
Proof.
  rewrite forallb_forall, Forall_forall. by setoid_rewrite list_elem_of_In.
Qed.

Lemma Forall_map_snd_items {A} o (P : A -> Prop) d :
  Forall (fun kv => P (snd kv)) d -> Forall (fun kv => P (snd kv)) (json_items o d).
Proof. intros H. by rewrite json_items_perm. Qed.

Section RoundTripTheorem.
Context (o : JsonOptions).
Context (item_blank : all_chars is_json_ws (o_item_ws o) = true).
Context (kv_blank : all_chars is_json_ws (o_kv_ws o) = true).

Lemma plain_reads v : json_plain v = true -> reads o v.
Proof.
  induction v as [| b | z | f | s | l IH | d IH] using pyval_nested_ind;
    intros Hp fuel rest Hf Hrest; (destruct fuel as [|fuel];
      [destruct (json_text_first o _ Hp) as (c & t & Ht & _); rewrite Ht in Hf; cbn in Hf; lia|]).
  - reflexivity.
  - destruct b; reflexivity.
  - cbn [json_text json_value]. cbn [scan_once].
    destruct (str_int_first z) as (c & t & Hs & Hc).
    rewrite Hs, append_cons.
    assert (scan_literal (String c (t +:+ rest)) = Some (VInt z, rest)) as <-.
    { rewrite <- append_cons, <- Hs. by apply scan_literal_int. }
    clear Hs. by destruct c as [[] [] [] [] [] [] [] []].
  - done.
  - cbn [json_text json_value]. rewrite json_str_app. cbn [scan_once].
    by rewrite Ascii.eqb_refl, scan_json_chars.
  - cbn [json_plain] in Hp. apply forallb_Forall' in Hp.
    assert (Hall : Forall (reads o) l).
    { eapply Forall_impl; [exact (List.Forall_and IH Hp)|]. intros v [H1 H2]. auto. }
    destruct l as [|v l]; [reflexivity|].
    cbn [json_value]. cbn [json_text] in *. fold (item_sep o) in *.
    rewrite !append_cons, append_nil, append_assoc in *. cbn [String.length] in Hf.
    rewrite length_append in Hf. cbn [String.length] in Hf.
    pose proof (json_text_first o v) as (c & t & Ht & Hc); [by apply Forall_cons in Hp as [? _]|].
    apply value_char_spec in Hc as (Hws & Hc & _).
    assert (exists t', join (item_sep o) (map (json_text o) (v :: l)) +:+ String "]"%char rest
                       = String c t') as [t' Ht'].
    { destruct l; cbn [map join]; rewrite Ht, !append_cons; eauto. }
    apply (scan_once_array _ _ c t'); [|done|].
    + change ("]" +:+ rest) with (String "]"%char rest). by rewrite Ht', skip_ws_char.
    + rewrite <- Ht'. apply scan_array_spec; try done. lia.
  - apply json_plain_dict in Hp as [Hn Hp].
    assert (Hall : Forall (fun kv => reads o (snd kv)) (json_items o d)).
    { apply (Forall_map_snd_items o (reads o)). eapply Forall_impl; [exact (List.Forall_and IH Hp)|].
      intros v [H1 H2]. auto. }
    apply (Forall_map_snd_items o (fun x => json_plain x = true)) in Hp. pose proof (json_items_perm o d) as Hperm.
    rewrite json_text_dict in *. rewrite json_value_dict.
    rewrite !json_items_map_snd in *.
    assert (Hn' : NoDup (map fst (map_snd (json_value o) (json_items o d)))).
    { unfold map_snd. rewrite map_map. cbn [fst].
      eapply (NoDup_Permutation_proper _ _ (Permutation_map fst Hperm)), Hn. }
    clear IH Hn Hperm. revert Hf Hall Hp Hn'. generalize (json_items o d) as l.
    intros l Hf Hall Hp Hn'. unfold map_snd in Hf. unfold map_snd at 1. rewrite map_map in Hf |- *.
    fold (item_sep o) in *. change (map _ l) with (map (item_text o) l) in Hf |- * at 1.
    destruct l as [|[k v] l]; [reflexivity|].
    rewrite !append_cons, append_nil, append_assoc in *. cbn [String.length] in Hf.
    rewrite length_append in Hf. cbn [String.length] in Hf.
    assert (exists t', join (item_sep o) (map (item_text o) ((k, v) :: l)) +:+ String "}"%char rest
                       = String dquote t') as [t' Ht'].
    { destruct l; cbn [map join]; unfold item_text at 1, json_entry, json_str; cbn [fst];
        rewrite !append_cons; eauto. }
    pose proof (dict_of_pairs (map_snd (json_value o) ((k, v) :: l)) [] Hn') as Hd.
    cbn [app] in Hd. rewrite <- Hd.
    apply (scan_once_object _ _ dquote t'); [|done|].
    + change ("}" +:+ rest) with (String "}"%char rest). by rewrite Ht', skip_ws_char.
    + rewrite <- Ht'. apply scan_object_spec; try done. lia.
Qed.

Lemma loads_dumps v :
  json_plain v = true -> loads (json_text o v) = Some (json_value o v).
Proof.
  intros Hp. unfold loads. destruct (json_text_first o v Hp) as (c & t & Ht & Hc).
  apply value_char_spec in Hc as (Hws & _ & _).
  assert (skip_ws (json_text o v) = json_text o v) as -> by (rewrite Ht; by apply skip_ws_char).
  pose proof (plain_reads v Hp (String.length (json_text o v)) "" (le_n _) eq_refl) as H.
  rewrite append_empty_r in H. by rewrite H.
Qed.
End RoundTripTheorem.

(** ** The text is canonical *)

Lemma json_items_idem {A} o (d : list (string * A)) :
  json_items o (json_items o d) = json_items o d.
Proof.
  unfold json_items. destruct (o_sort_keys o); [|done]. apply py_sorted_id, py_sorted_sorted.
  - intros x y. apply String.leb_total.
  - intros x y z. apply str_leb_trans.
Qed.

Lemma map_snd_ext {A B} (f g : A -> B) d :
  Forall (fun kv => f (snd kv) = g (snd kv)) d -> map_snd f d = map_snd g d.
Proof. induction 1 as [|[k x] d H _ IH]; [done|].
  unfold map_snd in *. cbn in *. by rewrite H, IH.
Qed.

Lemma map_snd_compose {A B C} (f : A -> B) (g : B -> C) d :
  map_snd g (map_snd f d) = map_snd (fun x => g (f x)) d.
Proof. unfold map_snd. by rewrite map_map. Qed.

(** Writing the value that was read gives the same text again. *)
Lemma json_text_value o v : json_text o (json_value o v) = json_text o v.
Proof.
  induction v as [| b | z | f | s | l IH | d IH] using pyval_nested_ind; try done.
  - cbn [json_value json_text]. do 3 f_equal. rewrite map_map. apply map_ext_Forall, IH.
  - rewrite json_value_dict, !json_text_dict, !json_items_map_snd, json_items_idem, map_snd_compose.
    do 4 f_equal. apply map_snd_ext.
    by apply (Forall_map_snd_items o (fun x => json_text o (json_value o x) = json_text o x)).
Qed.

(** Sorting keeps what the keys hold. *)
Lemma dget_sort_insert {A} k (x : string * A) l : dget k (sort_insert key_leb x l) = dget k (x :: l).
Proof.
  induction l as [|y l IH]; [done|]. cbn [sort_insert]. destruct (key_leb x y) eqn:E; [done|].
  destruct x as [kx vx], y as [ky vy]. cbn [dget] in *. rewrite IH. destruct (String.eqb_spec k ky) as [->|]; [|done].
  destruct (String.eqb_spec ky kx) as [->|]; [|done]. unfold key_leb in E. cbn in E.
  by destruct (String.leb_total kx kx) as [H|H]; rewrite H in E.
Qed.

Lemma dget_sorted {A} k (l : dict A) : dget k (py_sorted key_leb l) = dget k l.
Proof.
  induction l as [|[k' v] l IH]; [done|]. change (py_sorted key_leb ((k', v) :: l)) with (sort_insert key_leb (k', v) (py_sorted key_leb l)).
  rewrite dget_sort_insert. cbn. by rewrite IH.
Qed.

Lemma dget_json_items {A} o k (d : dict A) : dget k (json_items o d) = dget k d.
Proof. unfold json_items. destruct (o_sort_keys o); [apply dget_sorted | done]. Qed.

Lemma dget_map_snd {A B} (f : A -> B) k d : dget k (map_snd f d) = option_map f (dget k d).
Proof. induction d as [|[k' v] d IH]; [done|]. cbn. by destruct (k =s? k')%string. Qed.

(** Only the order of the keys matters to the value that is read. *)
Lemma json_value_sort o o' v : o_sort_keys o = o_sort_keys o' -> json_value o v = json_value o' v.
Proof.
  intros Ho. induction v as [| | | | |l IH|d IH] using pyval_nested_ind; [done..| |].
  - cbn. f_equal. induction IH as [|v l Hv _ IHl]; [done|]. cbn. by rewrite Hv, IHl.
  - rewrite !json_value_dict. assert (map_snd (json_value o) d = map_snd (json_value o') d) as Hm.
    { induction IH as [|kv d Hv _ IHd]; [done|]. unfold map_snd in *. cbn. by rewrite Hv, IHd. }
    rewrite Hm. unfold json_items. by rewrite Ho.
Qed.

Lemma json_plain_finite v : json_plain v = true -> json_finite v = true.
Proof.
  induction v as [| b | z | f | s | l IH | d IH] using pyval_nested_ind; try done.
  - cbn. rewrite !forallb_Forall'. intros Hp.
    eapply Forall_impl; [exact (List.Forall_and IH Hp)|]. intros v [H1 H2]. auto.
  - intros [_ Hp]%json_plain_dict. cbn [json_finite].
    induction d as [|[k x] d IHd]; [done|]. apply Forall_cons in IH as [Hx IH], Hp as [Hpx Hp].
    cbn in Hx, Hpx. rewrite Hx by done. auto.
Qed.

Lemma json_finite_value o v : json_plain v = true -> json_finite (json_value o v) = true.
Proof.
  induction v as [| b | z | f | s | l IH | d IH] using pyval_nested_ind; try done.
  - cbn. rewrite !forallb_Forall'. intros Hp. apply Forall_map.
    eapply Forall_impl; [exact (List.Forall_and IH Hp)|]. intros v [H1 H2]. auto.
  - intros [_ Hp]%json_plain_dict. rewrite json_value_dict, json_items_map_snd.
    assert (Hall : Forall (fun kv => json_finite (json_value o (snd kv)) = true) (json_items o d)).
    { apply (Forall_map_snd_items o (fun x => json_finite (json_value o x) = true)).
      eapply Forall_impl; [exact (List.Forall_and IH Hp)|]. intros kv [H1 H2]. auto. }
    cbn [json_finite]. induction Hall as [|[k x] l Hx _ IHl]; [done|]. cbn in *. by rewrite Hx.
Qed.

(** ** UTF-8 *)

Lemma utf8_char c t :
  utf8_decode (utf8_encode (String c t)) = option_map (String c) (utf8_decode (utf8_encode t)).
Proof. destruct c as [[] [] [] [] [] [] [] []]; reflexivity. Qed.

Lemma utf8_roundtrip s : utf8_decode (utf8_encode s) = Some s.
Proof. induction s as [|c s IH]; [done|]. by rewrite utf8_char, IH. Qed.
