(* ===== verification/Sql.v ===== *)
(** * Tables

    The stores keep their state in SQLite tables.  A table is the list of
    its rows in rowid order; this file has the few statements the stores use
    on one table - SELECT, UPDATE ... WHERE with its row count, COALESCE and
    the comparison with a column that may be NULL - with their lemmas.  A
    store operation runs in one transaction: [transaction] rolls back when
    the operation raises. *)
From S2P Require Import Prelude.

Section Tables.
Context {R : Type}.
Implicit Types (p : R -> bool) (f : R -> R) (t : list R).

(** [SELECT ... WHERE p]; [fetchone()]; [UPDATE ... SET f WHERE p]; its row count *)
Definition select p t : list R := List.filter p t.
Definition fetchone p t : option R := List.find p t.
Definition update_where p f t : list R := map (fun r => if p r then f r else r) t.
Definition rowcount p t : nat := count p t.

Lemma length_update_where p f t : length (update_where p f t) = length t.
Proof. apply length_map. Qed.

Lemma map_update_where {K} (key : R -> K) p f t :
  (forall r, key (f r) = key r) -> map key (update_where p f t) = map key t.
Proof.
  intros Hk. unfold update_where. rewrite map_map. apply map_ext.
  intros r. by destruct (p r).
Qed.

Lemma elem_of_update_where p f t r' :
  r' ∈ update_where p f t <-> exists r, r ∈ t /\ r' = (if p r then f r else r).
Proof.
  unfold update_where. rewrite list_elem_of_In, in_map_iff.
  setoid_rewrite list_elem_of_In. split; intros (r & H1 & H2); eauto.
Qed.

Lemma update_where_none p f t : rowcount p t = 0%nat -> update_where p f t = t.
Proof.
  intros H. unfold rowcount in H. rewrite count_zero in H. unfold update_where.
  induction t as [|r t IH]; simpl; [done|].
  rewrite H by left. f_equal. apply IH. intros x Hx. apply H. by right.
Qed.

Lemma rowcount_pos p t :
  rowcount p t <> 0%nat <-> exists r, r ∈ t /\ p r = true.
Proof.
  unfold rowcount. split.
  - intros H. destruct (existsb p t) eqn:E; [by apply existsb_elem in E|].
    exfalso. apply H, count_zero. intros r Hr. destruct (p r) eqn:Ep; [|done].
    assert (existsb p t = true) by (apply existsb_elem; eauto). congruence.
  - intros (r & Hr & Hp) H. rewrite count_zero in H. rewrite (H r Hr) in Hp. done.
Qed.

Lemma fetchone_some p t r : fetchone p t = Some r -> r ∈ t /\ p r = true.
Proof. apply find_some_elem. Qed.

Lemma fetchone_none p t : fetchone p t = None <-> forall r, r ∈ t -> p r = false.
Proof.
  unfold fetchone. split.
  - intros H r Hr. apply list_elem_of_In in Hr. by apply (find_none _ _ H).
  - intros H. destruct (List.find p t) eqn:E; [|done].
    apply find_some_elem in E as [H1 H2]. by rewrite H in H2.
Qed.

Lemma fetchone_app p t t' :
  fetchone p (t ++ t') = match fetchone p t with Some r => Some r | None => fetchone p t' end.
Proof. unfold fetchone. induction t as [|r t IH]; [done|]. cbn. by destruct (p r). Qed.

(** On a table with a unique key a row is found by its key. *)
Lemma unique_key {K} (key : R -> K) t r r' :
  NoDup (map key t) -> r ∈ t -> r' ∈ t -> key r = key r' -> r = r'.
Proof.
  induction t as [|x t IH]; intros Hn Hr Hr' Hk; [inversion Hr|].
  simpl in Hn. apply NoDup_cons in Hn as [Hx Hn].
  apply elem_of_cons in Hr as [->|Hr], Hr' as [->|Hr']; auto; exfalso; apply Hx;
    apply list_elem_of_In, in_map_iff; [exists r' | exists r];
    (split; [congruence | by apply list_elem_of_In]).
Qed.

Lemma fetchone_unique {K} (key : R -> K) p t r :
  NoDup (map key t) -> (forall a b, p a = true -> p b = true -> key a = key b) ->
  r ∈ t -> p r = true -> fetchone p t = Some r.
Proof.
  intros Hn Hp Hr Hpr. destruct (fetchone p t) as [r'|] eqn:E.
  - apply fetchone_some in E as [H1 H2]. f_equal. eapply (unique_key key); eauto.
  - rewrite fetchone_none in E. rewrite E in Hpr; done.
Qed.
End Tables.

(** [COALESCE(a, b)] *)
Definition coalesce {A} (a b : option A) : option A :=
  match a with Some x => Some x | None => b end.

(** [column = ?]: not true when either side is NULL. *)
Definition sql_eq (a b : option string) : bool :=
  match a, b with Some x, Some y => x =s? y | _, _ => false end.

(** [column <= ?] and [column > ?] on times *)
Definition sql_le (a : option Z) (t : Z) : bool :=
  match a with Some x => x <=? t | None => false end.
Definition sql_gt (a : option Z) (t : Z) : bool :=
  match a with Some x => t <? x | None => false end.

Definition not_null {A} (a : option A) : bool := match a with Some _ => true | None => false end.
Definition is_null {A} (a : option A) : bool := negb (not_null a).

Lemma sql_eq_true a b : sql_eq a b = true <-> exists x, a = Some x /\ b = Some x.
Proof.
  destruct a as [x|], b as [y|]; simpl; try (split; [discriminate | naive_solver]).
  rewrite String.eqb_eq. naive_solver.
Qed.

(** ** Transactions *)
Definition transaction (D E A : Type) : Type := D -> res E (D * A).

(** The database after the operation: unchanged when it raised. *)
Definition commit {D E A} (op : transaction D E A) (db : D) : D :=
  match op db with Ok (db', _) => db' | Err _ => db end.

(** [row is None] tests of the code, as propositions *)
Lemma not_null_true {A} (a : option A) : not_null a = true <-> exists x, a = Some x.
Proof. destruct a; simpl; split; [eauto | done | discriminate | by intros [? [=]]]. Qed.

Lemma is_null_true {A} (a : option A) : is_null a = true <-> a = None.
Proof. by destruct a. Qed.
