(* ===== verification/Contract.v ===== *)
(** * Node contracts

    [core/contract.py] and [core/port.py]: the side-effect taxonomy, the
    declared requirements of a node, the compatibility check between the exit
    of one node and the entry of the next, and the registry that validates
    the connections of a chain. *)
From S2P Require Import Prelude PyFloat PyValue.

(** ** Side-effect types *)

Inductive SideEffectType :=
| EXTERNAL_CALL
| MEMORY_WRITE
| MEMORY_READ
| CODE_EXECUTION
| SANDBOX_FILE_WRITE.

Definition SideEffectType_value (t : SideEffectType) : string :=
  match t with
  | EXTERNAL_CALL => "external_call"
  | MEMORY_WRITE => "memory_write"
  | MEMORY_READ => "memory_read"
  | CODE_EXECUTION => "code_execution"
  | SANDBOX_FILE_WRITE => "sandbox_file_write"
  end.

Definition SIDE_EFFECT_CANONICAL : dict string :=
  [ ("external_call", SideEffectType_value EXTERNAL_CALL);
    ("external_api_read", SideEffectType_value EXTERNAL_CALL);
    ("api_call", SideEffectType_value EXTERNAL_CALL);
    ("search", SideEffectType_value EXTERNAL_CALL);
    ("external_read", SideEffectType_value EXTERNAL_CALL);
    ("external_write", SideEffectType_value EXTERNAL_CALL);
    ("memory_write", SideEffectType_value MEMORY_WRITE);
    ("memory_read", SideEffectType_value MEMORY_READ);
    ("code_execution", SideEffectType_value CODE_EXECUTION);
    ("sandbox_file_write", SideEffectType_value SANDBOX_FILE_WRITE);
    ("temp_workspace_pytest", SideEffectType_value CODE_EXECUTION) ].

Definition normalize_side_effect_type (raw : string) : option string :=
  if str_truthy raw then dget raw SIDE_EFFECT_CANONICAL else None.

(** ** The data of a contract *)

Record EntryContract := mkEntry {
  input_type : string;
  entry_schema_ref : string;
  required_fields : list string;
  optional_fields : list string;
}.

Record ExitContract := mkExit {
  output_type : string;
  exit_schema_ref : string;
  guaranteed_fields : list string;
  possible_fields : list string;
  error_type : option string;
}.

Record SideEffect := mkSideEffect {
  effect_type : string;
  effect_target : string;
  effect_optional : bool;
}.

Record ModelRequirements := mkModelRequirements {
  structured_output_required : option bool;
  min_output_tokens : option Z;
  json_schema_adherence : option string;
}.

(** The field validators: [None] is the [ValidationError] they raise. *)
Definition check_min_output_tokens (v : option Z) : option (option Z) :=
  match v with
  | Some n => if n <=? 0 then None else Some v
  | None => Some v
  end.

Definition check_adherence (v : option string) : option (option string) :=
  match v with
  | Some s => if mem s ["required"; "preferred"] then Some v else None
  | None => Some v
  end.

Definition make_ModelRequirements (so : option bool) (mot : option Z) (jsa : option string)
  : option ModelRequirements :=
  mot ← check_min_output_tokens mot;
  jsa ← check_adherence jsa;
  Some (mkModelRequirements so mot jsa).

Definition requirements_is_empty (m : ModelRequirements) : bool :=
  match structured_output_required m, min_output_tokens m, json_schema_adherence m with
  | None, None, None => true
  | _, _, _ => false
  end.

(** [model_dump(exclude_none=True)] *)
Definition to_trace_dict (m : ModelRequirements) : dict pyval :=
  match structured_output_required m with
  | Some b => [("structured_output_required", VBool b)] | None => [] end ++
  match min_output_tokens m with
  | Some n => [("min_output_tokens", VInt n)] | None => [] end ++
  match json_schema_adherence m with
  | Some s => [("json_schema_adherence", VStr s)] | None => [] end.

Record Requirements := mkRequirements {
  model_required : bool;
  model_capabilities : list string;
  tools_required : list string;
  adapters_required : list string;
  memory_access : string;
  trust_level : string;
  req_max_cost_usd : option pyfloat;
  model_requirements : option ModelRequirements;
}.

Record NodeContract := mkContract {
  contract_id : string;
  contract_node_id : string;
  contract_version : string;
  entry : EntryContract;
  exit : ExitContract;
  side_effects : list SideEffect;
  requirements : Requirements;
}.

Definition is_privileged_node (c : NodeContract) : bool :=
  let req := requirements c in
  nonempty (tools_required req)
  || nonempty (adapters_required req)
  || negb (memory_access req =s? "none")
  || nonempty (side_effects c)
  || model_required req.

(** ** Compatibility *)

(** The issue and warning texts, by what they report. *)
Inductive Issue :=
| TypeMismatch (source produces target expects : string)
| MissingRequired (missing : list string) (source : string)
    (guarantees : list string) (target : string) (requires : list string)
| SourceUnregistered (source : string)
| TargetUnregistered (target : string)
| OptionalUnavailable (missing : list string).

Record CompatibilityResult := mkCompatibilityResult {
  compatible : bool;
  source_node : string;
  target_node : string;
  result_output_type : string;
  result_input_type : string;
  issues : list Issue;
  warnings : list Issue;
}.

Definition check_compatibility (source target : NodeContract) : CompatibilityResult :=
  let issues1 :=
    if negb (output_type (exit source) =s? input_type (entry target)) then
      [TypeMismatch (contract_node_id source) (output_type (exit source))
         (contract_node_id target) (input_type (entry target))]
    else [] in
  let issues2 :=
    if nonempty (required_fields (entry target)) then
      let missing := set_diff (py_set (required_fields (entry target)))
                              (py_set (guaranteed_fields (exit source))) in
      if nonempty missing then
        [MissingRequired missing (contract_node_id source)
           (guaranteed_fields (exit source)) (contract_node_id target)
           (required_fields (entry target))]
      else []
    else [] in
  let warnings :=
    if nonempty (optional_fields (entry target)) then
      let available := py_set (guaranteed_fields (exit source) ++
                               possible_fields (exit source)) in
      let missing_optional := set_diff (py_set (optional_fields (entry target))) available in
      if nonempty missing_optional then [OptionalUnavailable missing_optional] else []
    else [] in
  let issues := issues1 ++ issues2 in
  mkCompatibilityResult (Nat.eqb (length issues) 0)
    (contract_node_id source) (contract_node_id target)
    (output_type (exit source)) (input_type (entry target)) issues warnings.

(** ** The registry *)

Definition ContractRegistry := dict NodeContract.

Definition register (r : ContractRegistry) (c : NodeContract) : ContractRegistry :=
  dset (contract_node_id c) c r.

Definition get (r : ContractRegistry) (node_id : string) : option NodeContract :=
  dget node_id r.

Inductive contract_error := KeyError (k : string).

Definition getitem (conn : dict string) (k : string) : res contract_error string :=
  match dget k conn with Some v => Ok v | None => Err (KeyError k) end.

(** The body of the loop over the connections. *)
Definition validate_connection (r : ContractRegistry) (source_id target_id : string)
  : CompatibilityResult :=
  match dget source_id r with
  | None => mkCompatibilityResult false source_id target_id "unknown" "unknown"
              [SourceUnregistered source_id] []
  | Some source =>
      match dget target_id r with
      | None => mkCompatibilityResult false source_id target_id
                  (output_type (exit source)) "unknown" [TargetUnregistered target_id] []
      | Some target => check_compatibility source target
      end
  end.

Fixpoint validate_connections (r : ContractRegistry) (connections : list (dict string))
  : res contract_error (list CompatibilityResult) :=
  match connections with
  | [] => Ok []
  | conn :: rest =>
      source_id ← getitem conn "from_node";
      target_id ← getitem conn "to_node";
      results ← validate_connections r rest;
      Ok (validate_connection r source_id target_id :: results)
  end.

(** ** Ports *)

Record Port := mkPort {
  port_name : string;
  port_type : string;
  port_schema_ref : string;
  port_required : bool;
  port_description : string;
}.

Record PortConnection := mkPortConnection {
  pc_from_node : string;
  pc_from_port : string;
  pc_to_node : string;
  pc_to_port : string;
  pc_condition : option string;
  pc_label : option string;
}.

Definition ports_compatible (source target : Port) : bool :=
  port_type source =s? port_type target.

(** ** Properties *)

(** The abstract contract of the check: what the docstring promises of a
    compatible pair. *)
Definition contracts_fit (source target : NodeContract) : Prop :=
  output_type (exit source) = input_type (entry target) /\
  forall f, f ∈ required_fields (entry target) -> f ∈ guaranteed_fields (exit source).

Lemma missing_required_nil (req guar : list string) :
  set_diff (py_set req) (py_set guar) = [] <-> (forall f, f ∈ req -> f ∈ guar).
Proof.
  rewrite set_diff_nil. setoid_rewrite elem_of_py_set. done.
Qed.

Lemma check_compatibility_fit source target :
  compatible (check_compatibility source target) = true <-> contracts_fit source target.
Proof.
  unfold check_compatibility, contracts_fit. simpl.
  rewrite <- missing_required_nil.
  destruct (String.eqb_spec (output_type (exit source)) (input_type (entry target)))
    as [->|Hne]; simpl.
  - destruct (required_fields (entry target)) as [|f t] eqn:Er; simpl; [done|].
    destruct (set_diff _ _) eqn:Ed; simpl; split; naive_solver.
  - split; [discriminate | intros [? _]; done].
Qed.

Definition connection_of (conn : dict string) : option (string * string) :=
  f ← dget "from_node" conn; t ← dget "to_node" conn; Some (f, t).

Lemma validate_connections_spec r conns results :
  validate_connections r conns = Ok results <->
  exists ends, mapM connection_of conns = Some ends /\
    results = map (fun '(s, t) => validate_connection r s t) ends.
Proof.
  revert results. induction conns as [|c conns IH]; intros results; simpl.
  - split; [intros [= <-]; by exists [] | intros (e & [= <-] & ->); done].
  - unfold getitem.
    assert (Hc : connection_of c =
                 match dget "from_node" c, dget "to_node" c with
                 | Some f, Some t => Some (f, t)
                 | _, _ => None
                 end).
    { unfold connection_of. by destruct (dget "from_node" c), (dget "to_node" c). }
    rewrite Hc. clear Hc.
    destruct (dget "from_node" c) as [s|]; simpl;
      [|split; [discriminate | by intros (? & [=] & _)]].
    destruct (dget "to_node" c) as [t|]; simpl;
      [|split; [discriminate | by intros (? & [=] & _)]].
    destruct (validate_connections r conns) as [l|e] eqn:E; simpl.
    + destruct (proj1 (IH l) eq_refl) as (ends & -> & ->). simpl. split.
      * intros [= <-]. eauto.
      * intros (? & [= <-] & ->). done.
    + split; [discriminate|].
      destruct (mapM connection_of conns) as [ends|]; simpl; [|by intros (? & [=] & _)].
      specialize (proj2 (IH _) (ex_intro _ ends (conj eq_refl eq_refl))). done.
Qed.

(** Two nodes are declared compatible exactly when the types agree and
    every required field is guaranteed; the schema references, which rule 3
    of the docstring mentions, play no part. *)
Theorem check_compatibility_correct source target :
  compatible (check_compatibility source target) = true <->
  output_type (exit source) = input_type (entry target) /\
  forall f, f ∈ required_fields (entry target) -> f ∈ guaranteed_fields (exit source).
Proof. apply check_compatibility_fit. Qed.

(** Validation answers every connection once, in order, and never raises on an
    incompatible pair: all results are compatible exactly when each connection
    joins two registered contracts that fit. *)
Theorem validate_connections_complete r conns results :
  validate_connections r conns = Ok results ->
  length results = length conns /\
  (forallb compatible results = true <->
   forall c, c ∈ conns -> exists s t source target,
     dget "from_node" c = Some s /\ dget "to_node" c = Some t /\
     dget s r = Some source /\ dget t r = Some target /\ contracts_fit source target).
Proof.
  intros (ends & Hm & ->)%validate_connections_spec.
  apply mapM_Some in Hm. split.
  { rewrite length_map. symmetry. by apply Forall2_length in Hm. }
  induction Hm as [|c [s t] conns ends Hc Hm IH]; simpl.
  - split; [intros _ c H; inversion H | done].
  - rewrite andb_true_iff, IH. clear IH.
    unfold connection_of in Hc.
    destruct (dget "from_node" c) as [s'|] eqn:Hs; [|discriminate].
    destruct (dget "to_node" c) as [t'|] eqn:Ht; [|discriminate].
    injection Hc as <- <-. unfold validate_connection.
    setoid_rewrite elem_of_cons. split.
    + intros [H1 H2] c' [->|Hin]; [|auto].
      destruct (dget s' r) as [src|] eqn:Es; [|discriminate].
      destruct (dget t' r) as [tgt|] eqn:Et; [|discriminate].
      apply check_compatibility_fit in H1. eauto 10.
    + intros H. split; [|auto].
      destruct (H c) as (s & t & src & tgt & H1 & H2 & H3 & H4 & H5); [auto|].
      simplify_eq. rewrite H3, H4. by apply check_compatibility_fit.
Qed.

Definition demo_requirements : Requirements :=
  mkRequirements false [] [] [] "none" "trusted" None None.
Definition demo_contract (id out inp : string) (req guar : list string) : NodeContract :=
  mkContract (id +:+ ".v1") id "1.0.0" (mkEntry inp "schema" req [])
    (mkExit out "schema" guar [] None) [] demo_requirements.

Lemma validate_connections_complete_witness :
  exists results,
    validate_connections
      (register (register [] (demo_contract "a" "text" "raw" [] ["q"]))
                (demo_contract "b" "plan" "text" ["q"] []))
      [[("from_node", "a"); ("to_node", "b")]; [("from_node", "b"); ("to_node", "z")]]
    = Ok results /\ length results = 2%nat.
Proof.
  eexists. split; [vm_compute; reflexivity|].
  apply (validate_connections_complete
           (register (register [] (demo_contract "a" "text" "raw" [] ["q"]))
                     (demo_contract "b" "plan" "text" ["q"] []))
           [[("from_node", "a"); ("to_node", "b")]; [("from_node", "b"); ("to_node", "z")]]).
  vm_compute. reflexivity.
Defined.

(** The canonical names are the fixed points of the normalisation. *)
Lemma normalize_canonical raw t :
  normalize_side_effect_type raw = Some t ->
  exists ty, t = SideEffectType_value ty.
Proof.
  unfold normalize_side_effect_type.
  destruct (str_truthy raw); [|discriminate].
  intros H%dget_In%list_elem_of_In.
  unfold SIDE_EFFECT_CANONICAL in H. cbn [In] in H.
  repeat (destruct H as [H|H]; [eexists; exact (eq_sym (f_equal snd H))|]).
  destruct H.
Qed.

Lemma normalize_value ty :
  normalize_side_effect_type (SideEffectType_value ty) = Some (SideEffectType_value ty).
Proof. by destruct ty. Qed.

(** Normalising a side-effect type is idempotent and lands in the
    canonical taxonomy. *)
Theorem normalize_idempotent raw t :
  normalize_side_effect_type raw = Some t ->
  normalize_side_effect_type t = Some t /\ exists ty, t = SideEffectType_value ty.
Proof.
  intros H. destruct (normalize_canonical _ _ H) as [ty ->].
  split; [apply normalize_value | eauto].
Qed.

Lemma normalize_idempotent_witness :
  normalize_side_effect_type "search" = Some "external_call" /\
  normalize_side_effect_type "external_call" = Some "external_call".
Proof.
  split; [reflexivity|]. apply (normalize_idempotent "search"). reflexivity.
Defined.

Lemma make_ModelRequirements_valid so mot jsa m :
  make_ModelRequirements so mot jsa = Some m ->
  m = mkModelRequirements so mot jsa /\
  (forall n, min_output_tokens m = Some n -> 0 < n) /\
  (forall s, json_schema_adherence m = Some s -> s = "required" \/ s = "preferred").
Proof.
  unfold make_ModelRequirements, check_min_output_tokens, check_adherence.
  intros H. destruct mot as [n|]; [destruct (n <=? 0) eqn:En; [discriminate|]|];
    (destruct jsa as [s|]; [destruct (mem s _) eqn:Es; [|discriminate]|]);
    simpl in H; simplify_eq; bool_prop; simpl; split_and!; naive_solver set_solver.
Qed.

Lemma requirements_is_empty_trace m :
  requirements_is_empty m = true <-> to_trace_dict m = [].
Proof. by destruct m as [[] [] []]. Qed.
