(* ===== verification/Blueprint.v ===== *)
(** * Chain blueprints

    [core/blueprint.py]: the declarative description of a chain and the
    look-ups on it.  Loading the YAML text is not modelled. *)
From S2P Require Import Prelude PyFloat PyValue.

Record NodeDef := mkNodeDef {
  node_id : string;
  node_type : string;
  node_config : pyctx;
  node_position : Z;
}.

Record ConnectionDef := mkConnection {
  from_node : string;
  from_port : string;
  to_node : string;
  to_port : string;
  conn_condition : option string;
  conn_label : option string;
}.

Record BranchDef := mkBranch {
  branch_id : string;
  branch_from_node : string;
  branches : dict (list string);
  default_branch : option string;
}.

Record JoinDef := mkJoin {
  join_id : string;
  join_to_node : string;
  from_branches : list string;
  wait_for : string;
  merge_strategy : string;
  quorum_count : option Z;
  quorum_ratio : option pyfloat;
  cancellation_after_quorum : string;
}.

Record LoopDef := mkLoop {
  loop_id : string;
  entry_condition : string;
  exit_condition : string;
  max_iterations : Z;
  max_cost_usd : pyfloat;
  path : list string;
  escalation : option string;
}.

Record GateDef := mkGate {
  gate_id : string;
  trigger : string;
  allowed_decisions : list string;
  timeout_minutes : Z;
  approver_role : string;
}.

Record InvariantDef := mkInvariant {
  invariant_id : string;
  inv_description : string;
  enforcement : string;
}.

Record ChainBlueprint := mkBlueprint {
  chain_id : string;
  chain_name : string;
  chain_version : string;
  chain_description : string;
  goal : string;
  nodes : list NodeDef;
  connections : list ConnectionDef;
  loops : list LoopDef;
  chain_branches : list BranchDef;
  joins : list JoinDef;
  gates : list GateDef;
  invariants : list InvariantDef;
  chain_policies : list pyctx;
  chain_trace : pyctx;
  chain_governance : pyctx;
  policy_preset : string;
}.

Section Lookups.
Context (bp : ChainBlueprint).

Definition node_ids : list string := map node_id (nodes bp).

Definition get_node (nid : string) : option NodeDef :=
  List.find (fun n => node_id n =s? nid) (nodes bp).

Definition get_connections_from (nid : string) : list ConnectionDef :=
  List.filter (fun c => from_node c =s? nid) (connections bp).

Definition get_connections_to (nid : string) : list ConnectionDef :=
  List.filter (fun c => to_node c =s? nid) (connections bp).

Definition get_loop (lid : string) : option LoopDef :=
  List.find (fun l => loop_id l =s? lid) (loops bp).

Definition get_branch (bid : string) : option BranchDef :=
  List.find (fun b => branch_id b =s? bid) (chain_branches bp).

Definition get_branches_from (nid : string) : list BranchDef :=
  List.filter (fun b => branch_from_node b =s? nid) (chain_branches bp).

Definition get_join_for (nid : string) : option JoinDef :=
  List.find (fun j => join_to_node j =s? nid) (joins bp).

Definition is_branch_node (nid : string) : bool :=
  existsb (fun b => branch_from_node b =s? nid) (chain_branches bp).

Definition is_join_node (nid : string) : bool :=
  existsb (fun j => join_to_node j =s? nid) (joins bp).

(** The look-ups agree with the membership tests. *)
Lemma get_node_some nid n : get_node nid = Some n -> n ∈ nodes bp /\ node_id n = nid.
Proof. intros [H1 H2]%find_some_elem. bool_prop. done. Qed.

Lemma get_node_none nid : get_node nid = None <-> nid ∉ node_ids.
Proof.
  unfold get_node, node_ids. split.
  - intros H (n & -> & Hn)%list_elem_of_fmap.
    apply list_elem_of_In, (find_none _ _ H), String.eqb_neq in Hn. done.
  - intros H. destruct (List.find _ _) as [n|] eqn:E; [|done].
    apply find_some_elem in E as [Hn He]. bool_prop. subst.
    exfalso. apply H, list_elem_of_fmap. eauto.
Qed.

Lemma get_loop_some lid l : get_loop lid = Some l -> l ∈ loops bp /\ loop_id l = lid.
Proof. intros [H1 H2]%find_some_elem. bool_prop. done. Qed.

Lemma elem_of_connections_from nid c :
  c ∈ get_connections_from nid <-> c ∈ connections bp /\ from_node c = nid.
Proof.
  unfold get_connections_from. rewrite elem_of_lfilter, String.eqb_eq. tauto.
Qed.

Lemma is_branch_node_true nid :
  is_branch_node nid = true <-> exists b, b ∈ chain_branches bp /\ branch_from_node b = nid.
Proof.
  unfold is_branch_node. rewrite existsb_elem. by setoid_rewrite String.eqb_eq.
Qed.

Lemma is_join_node_true nid : is_join_node nid = true <-> get_join_for nid <> None.
Proof.
  unfold is_join_node, get_join_for. split.
  - intros (j & Hj & He)%existsb_elem H.
    apply list_elem_of_In in Hj. rewrite (find_none _ _ H j Hj) in He. done.
  - destruct (List.find _ _) as [j|] eqn:E; [|done]. intros _.
    apply find_some_elem in E. apply existsb_elem. eauto.
Qed.
End Lookups.
