(* ===== verification/PortCompat.v ===== *)
(** * Port compatibility

    [validation/port_compatibility.py]: the load-time check of every
    backbone connection, branch fan-out and join fan-in of a blueprint.  The
    report is threaded through the checks as the code mutates it; the
    message of an issue is given by its details. *)
From S2P Require Import Prelude PyFloat PyValue Contract Blueprint.

(** The [details] of an issue, which determine its message. *)
Inductive PortDetails :=
| DMissingContract (which : string)
| DTypeMismatch (source_output_type target_input_type : string)
| DMissingFields (missing source_guaranteed target_required : list string)
| DSchema (source_schema target_schema : string)
| DOptional (missing_optional : list string)
| DBranchType (branch source_output_type target_input_type : string)
| DJoinType (branch join source_output_type target_input_type : string).

Record PortIssue := mkPortIssue {
  severity : string;
  pi_source_node : string;
  pi_source_port : string;
  pi_target_node : string;
  pi_target_port : string;
  issue_type : string;
  details : PortDetails;
}.

Record PortCompatibilityReport := mkReport {
  checks_run : Z;
  report_issues : list PortIssue;
}.

Definition report_errors (r : PortCompatibilityReport) : list PortIssue :=
  List.filter (fun i => severity i =s? "error") (report_issues r).
Definition report_warnings (r : PortCompatibilityReport) : list PortIssue :=
  List.filter (fun i => severity i =s? "warning") (report_issues r).
Definition is_valid (r : PortCompatibilityReport) : bool :=
  Nat.eqb (length (report_errors r)) 0.

Definition add_issue (r : PortCompatibilityReport) (i : PortIssue) : PortCompatibilityReport :=
  mkReport (checks_run r) (report_issues r ++ [i]).
Definition add_check (r : PortCompatibilityReport) : PortCompatibilityReport :=
  mkReport (checks_run r + 1) (report_issues r).

(** The four checks of a connection whose two contracts exist. *)
Definition check_contracts (conn : ConnectionDef) (strict : bool)
  (source_exit : ExitContract) (target_entry : EntryContract)
  (r : PortCompatibilityReport) : PortCompatibilityReport :=
  let issue sev ty d :=
    mkPortIssue sev (from_node conn) (from_port conn) (to_node conn) (to_port conn) ty d in
  let r :=
    if negb (output_type source_exit =s? input_type target_entry) then
      add_issue r (issue "error" "type_mismatch"
        (DTypeMismatch (output_type source_exit) (input_type target_entry)))
    else r in
  let r :=
    if nonempty (required_fields target_entry) then
      let missing := set_diff (py_set (required_fields target_entry))
                              (py_set (guaranteed_fields source_exit)) in
      if nonempty missing then
        add_issue r (issue "error" "missing_required_field"
          (DMissingFields (sort_str missing) (guaranteed_fields source_exit)
             (required_fields target_entry)))
      else r
    else r in
  let r :=
    if str_truthy (exit_schema_ref source_exit) && str_truthy (entry_schema_ref target_entry) then
      if negb (exit_schema_ref source_exit =s? entry_schema_ref target_entry) then
        add_issue r (issue (if strict then "error" else "warning") "schema_ref_mismatch"
          (DSchema (exit_schema_ref source_exit) (entry_schema_ref target_entry)))
      else r
    else r in
  if nonempty (optional_fields target_entry) then
    let available := py_set (guaranteed_fields source_exit ++ possible_fields source_exit) in
    let missing_optional := set_diff (py_set (optional_fields target_entry)) available in
    if nonempty missing_optional then
      add_issue r (issue "warning" "optional_field_gap" (DOptional (sort_str missing_optional)))
    else r
  else r.

Definition check_connection (contracts : ContractRegistry) (strict : bool)
  (r : PortCompatibilityReport) (conn : ConnectionDef) : PortCompatibilityReport :=
  let r := add_check r in
  let issue d :=
    mkPortIssue "error" (from_node conn) (from_port conn) (to_node conn) (to_port conn)
      "missing_port" d in
  match dget (from_node conn) contracts with
  | None => add_issue r (issue (DMissingContract "source_contract"))
  | Some source =>
      match dget (to_node conn) contracts with
      | None => add_issue r (issue (DMissingContract "target_contract"))
      | Some target => check_contracts conn strict (exit source) (entry target) r
      end
  end.

(** One branch of the loop over [branch_def.branches.items()]. *)
Definition check_branch_item (contracts : ContractRegistry) (source_id : string)
  (source : NodeContract) (r : PortCompatibilityReport) (item : string * list string)
  : PortCompatibilityReport :=
  let '(branch_name, ids) := item in
  match ids with
  | [] => r
  | first_node_id :: _ =>
      match dget first_node_id contracts with
      | None => r
      | Some target =>
          let r := add_check r in
          if negb (output_type (exit source) =s? input_type (entry target)) then
            add_issue r (mkPortIssue "error" source_id "output" first_node_id "input"
              "type_mismatch"
              (DBranchType branch_name (output_type (exit source)) (input_type (entry target))))
          else r
      end
  end.

Definition check_branch_fan_out (contracts : ContractRegistry)
  (r : PortCompatibilityReport) (b : BranchDef) : PortCompatibilityReport :=
  match dget (branch_from_node b) contracts with
  | None => r
  | Some source =>
      fold_left (check_branch_item contracts (branch_from_node b) source) (branches b) r
  end.

(** One (branch definition, branch name) pair of the nested loops. *)
Definition check_join_item (contracts : ContractRegistry) (j : JoinDef)
  (join_contract : NodeContract) (b : BranchDef)
  (r : PortCompatibilityReport) (branch_name : string) : PortCompatibilityReport :=
  match dget branch_name (branches b) with
  | None => r
  | Some ids =>
      match last ids with
      | None => r
      | Some last_node_id =>
          match dget last_node_id contracts with
          | None => r
          | Some last_contract =>
              let r := add_check r in
              if negb (output_type (exit last_contract) =s? input_type (entry join_contract)) then
                add_issue r (mkPortIssue "error" last_node_id "output" (join_to_node j) "input"
                  "fan_in_mismatch"
                  (DJoinType branch_name (join_id j) (output_type (exit last_contract))
                     (input_type (entry join_contract))))
              else r
          end
      end
  end.

Definition check_join_fan_in (bp : ChainBlueprint) (contracts : ContractRegistry)
  (r : PortCompatibilityReport) (j : JoinDef) : PortCompatibilityReport :=
  match dget (join_to_node j) contracts with
  | None => r
  | Some join_contract =>
      fold_left (fun r b => fold_left (check_join_item contracts j join_contract b)
                              (from_branches j) r)
        (chain_branches bp) r
  end.

Definition validate_port_compatibility (bp : ChainBlueprint) (contracts : ContractRegistry)
  (strict : bool) : PortCompatibilityReport :=
  let r := mkReport 0 [] in
  let r := fold_left (check_connection contracts strict) (connections bp) r in
  let r := fold_left (check_branch_fan_out contracts) (chain_branches bp) r in
  fold_left (check_join_fan_in bp contracts) (joins bp) r.

(** ** Properties *)

(** The specification of a valid blueprint, clause by clause. *)
Definition connection_fits (contracts : ContractRegistry) (strict : bool)
  (c : ConnectionDef) : Prop :=
  exists s t, dget (from_node c) contracts = Some s /\ dget (to_node c) contracts = Some t /\
    contracts_fit s t /\
    (strict = true ->
     exit_schema_ref (exit s) = "" \/ entry_schema_ref (entry t) = "" \/
     exit_schema_ref (exit s) = entry_schema_ref (entry t)).

Definition fan_out_fits (contracts : ContractRegistry) (b : BranchDef) : Prop :=
  forall s, dget (branch_from_node b) contracts = Some s ->
  forall name n rest t, (name, n :: rest) ∈ branches b -> dget n contracts = Some t ->
    output_type (exit s) = input_type (entry t).

Definition fan_in_fits (bp : ChainBlueprint) (contracts : ContractRegistry) (j : JoinDef) : Prop :=
  forall t, dget (join_to_node j) contracts = Some t ->
  forall b name ids n s, b ∈ chain_branches bp -> name ∈ from_branches j ->
    dget name (branches b) = Some ids -> last ids = Some n -> dget n contracts = Some s ->
    output_type (exit s) = input_type (entry t).

(** Validity of the report after a step: it was valid before, and the step is fine. *)
Definition step_valid {X} (f : PortCompatibilityReport -> X -> PortCompatibilityReport)
  (fits : X -> Prop) : Prop :=
  forall r x, is_valid (f r x) = true <-> is_valid r = true /\ fits x.

Lemma fold_valid {X} (f : PortCompatibilityReport -> X -> PortCompatibilityReport) fits :
  step_valid f fits ->
  forall l r, is_valid (fold_left f l r) = true <->
              is_valid r = true /\ (forall x, x ∈ l -> fits x).
Proof.
  intros Hf l. induction l as [|x l IH]; intros r; simpl.
  - split; [intros H; split; [done | intros x Hx; inversion Hx] | tauto].
  - rewrite IH, (Hf r x). setoid_rewrite elem_of_cons. naive_solver.
Qed.

Lemma is_valid_add_check r : is_valid (add_check r) = is_valid r.
Proof. reflexivity. Qed.

Lemma is_valid_add_issue r i :
  is_valid (add_issue r i) = is_valid r && negb (severity i =s? "error").
Proof.
  unfold is_valid, report_errors, add_issue; simpl.
  rewrite List.filter_app, length_app. simpl.
  destruct (severity i =s? "error"); simpl; destruct (length _); simpl; done.
Qed.

#[export] Hint Rewrite is_valid_add_check is_valid_add_issue : nodechain.

Lemma check_contracts_valid conn strict s t r :
  is_valid (check_contracts conn strict (exit s) (entry t) r) = true <->
  is_valid r = true /\ contracts_fit s t /\
  (strict = true ->
     exit_schema_ref (exit s) = "" \/ entry_schema_ref (entry t) = "" \/
     exit_schema_ref (exit s) = entry_schema_ref (entry t)).
Proof.
  unfold check_contracts, contracts_fit. rewrite <- missing_required_nil.
  set (opt := nonempty (optional_fields _)).
  set (r1 := if negb (output_type _ =s? _) then _ else r).
  assert (is_valid r1 = true <-> is_valid r = true /\
          output_type (exit s) = input_type (entry t)) as H1.
  { subst r1. destruct (String.eqb_spec (output_type (exit s)) (input_type (entry t))); simpl.
    - tauto.
    - rewrite is_valid_add_issue. simpl. rewrite andb_false_r. split; [done | tauto]. }
  clearbody r1.
  set (r2 := if nonempty (required_fields _) then _ else r1).
  assert (is_valid r2 = true <-> is_valid r1 = true /\
          set_diff (py_set (required_fields (entry t)))
            (py_set (guaranteed_fields (exit s))) = []) as H2.
  { subst r2. destruct (required_fields (entry t)) as [|f l]; simpl; [tauto|].
    destruct (set_diff _ _); simpl; [tauto|].
    rewrite is_valid_add_issue. simpl. rewrite andb_false_r. split; [done | intros [_ [=]]]. }
  clearbody r2.
  set (r3 := if str_truthy _ && _ then _ else r2).
  assert (is_valid r3 = true <-> is_valid r2 = true /\ (strict = true ->
     exit_schema_ref (exit s) = "" \/ entry_schema_ref (entry t) = "" \/
     exit_schema_ref (exit s) = entry_schema_ref (entry t))) as H3.
  { subst r3. destruct (str_truthy (exit_schema_ref (exit s))) eqn:E1; simpl;
      [|apply str_truthy_false in E1; tauto].
    destruct (str_truthy (entry_schema_ref (entry t))) eqn:E2; simpl;
      [|apply str_truthy_false in E2; tauto].
    destruct (String.eqb_spec (exit_schema_ref (exit s)) (entry_schema_ref (entry t)))
      as [|Hne]; simpl; [tauto|].
    rewrite is_valid_add_issue. unfold str_truthy in *. bool_prop.
    destruct strict; simpl; rewrite ?andb_false_r, ?andb_true_r; naive_solver. }
  clearbody r3.
  assert (forall i, severity i = "warning" -> is_valid (add_issue r3 i) = is_valid r3) as Hw.
  { intros i Hi. rewrite is_valid_add_issue, Hi. simpl. by rewrite andb_true_r. }
  destruct opt; [|tauto]. destruct (nonempty _); [|tauto].
  rewrite Hw; [tauto | done].
Qed.

Lemma check_connection_valid contracts strict :
  step_valid (check_connection contracts strict) (connection_fits contracts strict).
Proof.
  intros r c. unfold check_connection, connection_fits.
  destruct (dget (from_node c) contracts) as [s|] eqn:Es.
  - destruct (dget (to_node c) contracts) as [t|] eqn:Et.
    + rewrite check_contracts_valid, is_valid_add_check. naive_solver.
    + rewrite is_valid_add_issue. simpl. rewrite andb_false_r. naive_solver.
  - rewrite is_valid_add_issue. simpl. rewrite andb_false_r. naive_solver.
Qed.

Lemma type_check_valid (a b : string) r i :
  severity i = "error" ->
  is_valid (if negb (a =s? b) then add_issue (add_check r) i else add_check r) = true <->
  is_valid r = true /\ a = b.
Proof.
  intros Hi. destruct (String.eqb_spec a b); simpl.
  - rewrite is_valid_add_check. tauto.
  - rewrite is_valid_add_issue, Hi. simpl. rewrite andb_false_r. naive_solver.
Qed.

Lemma check_branch_valid contracts :
  step_valid (check_branch_fan_out contracts) (fan_out_fits contracts).
Proof.
  intros r b. unfold check_branch_fan_out, fan_out_fits.
  destruct (dget (branch_from_node b) contracts) as [s|] eqn:Es; [|naive_solver].
  rewrite (fold_valid _ (fun item => forall n rest t, item.2 = n :: rest ->
             dget n contracts = Some t -> output_type (exit s) = input_type (entry t))).
  - split; intros [H1 H2]; (split; [exact H1|]).
    + intros ? [= <-] name n rest t Hin Ht. by eapply (H2 (name, n :: rest)).
    + intros [name ids] Hin n rest t Heq Ht. simpl in Heq. subst ids. eauto.
  - intros r' [name ids]. unfold check_branch_item. simpl.
    destruct ids as [|n rest]; [naive_solver|].
    destruct (dget n contracts) as [t|] eqn:Et; [|naive_solver].
    rewrite type_check_valid by done. naive_solver.
Qed.

(** A clause whose premise is the look-up that just failed. *)
Ltac vacuous_case :=
  split; [intros H; split; [exact H | intros; simplify_eq] | intros [H _]; exact H].

Lemma check_join_valid bp contracts :
  step_valid (check_join_fan_in bp contracts) (fan_in_fits bp contracts).
Proof.
  intros r j. unfold check_join_fan_in, fan_in_fits.
  destruct (dget (join_to_node j) contracts) as [t|] eqn:Et; [|naive_solver].
  rewrite (fold_valid _ (fun b => forall name, name ∈ from_branches j -> forall ids n s,
             dget name (branches b) = Some ids -> last ids = Some n ->
             dget n contracts = Some s -> output_type (exit s) = input_type (entry t))).
  - naive_solver.
  - intros r' b. apply (fold_valid _ (fun name => forall ids n s,
      dget name (branches b) = Some ids -> last ids = Some n ->
      dget n contracts = Some s -> output_type (exit s) = input_type (entry t))).
    intros r'' name. unfold check_join_item. cbv beta.
    destruct (dget name (branches b)) as [ids|] eqn:E1; [|vacuous_case].
    destruct (last ids) as [n|] eqn:E2; [|vacuous_case].
    destruct (dget n contracts) as [s|] eqn:E3; [|vacuous_case].
    rewrite type_check_valid by done. split; intros [H1 H2]; (split; [exact H1|]).
    + intros. by simplify_eq.
    + by eapply H2.
Qed.

Lemma validate_valid bp contracts strict :
  is_valid (validate_port_compatibility bp contracts strict) = true <->
  (forall c, c ∈ connections bp -> connection_fits contracts strict c) /\
  (forall b, b ∈ chain_branches bp -> fan_out_fits contracts b) /\
  (forall j, j ∈ joins bp -> fan_in_fits bp contracts j).
Proof.
  unfold validate_port_compatibility.
  rewrite (fold_valid _ _ (check_join_valid bp contracts)),
    (fold_valid _ _ (check_branch_valid contracts)),
    (fold_valid _ _ (check_connection_valid contracts strict)).
  split; [tauto|]. intros (? & ? & ?). by split_and!.
Qed.

(** The report is valid exactly when every connection joins two
    registered contracts that fit (with equal schema references in strict
    mode), every branch's first node accepts what the branching node
    produces, and every join accepts what the last node of each of its
    branches produces. *)
Theorem validate_port_compatibility_correct bp contracts strict :
  is_valid (validate_port_compatibility bp contracts strict) = true <->
  (forall c, c ∈ connections bp -> connection_fits contracts strict c) /\
  (forall b, b ∈ chain_branches bp -> fan_out_fits contracts b) /\
  (forall j, j ∈ joins bp -> fan_in_fits bp contracts j).
Proof. apply validate_valid. Qed.

(** Strict validation only refuses more; and a blueprint it accepts has no
    connection that the contract check of [core/contract.py] refuses. *)
Theorem strict_validation_stronger bp contracts :
  is_valid (validate_port_compatibility bp contracts true) = true ->
  is_valid (validate_port_compatibility bp contracts false) = true /\
  forall c, c ∈ connections bp ->
    compatible (validate_connection contracts (from_node c) (to_node c)) = true.
Proof.
  rewrite !validate_valid. intros (Hc & Hb & Hj). split; [split_and!; auto|].
  - intros c Hin. destruct (Hc c Hin) as (s & t & H1 & H2 & H3 & _).
    exists s, t. split_and!; try done.
  - intros c Hin. destruct (Hc c Hin) as (s & t & H1 & H2 & H3 & _).
    unfold validate_connection. rewrite H1, H2. by apply check_compatibility_fit.
Qed.

Definition demo_blueprint : ChainBlueprint :=
  mkBlueprint "c" "c" "1.0.0" "" "g" [] [mkConnection "a" "out" "b" "in" None None]
    [] [mkBranch "br" "a" [("left", ["b"])] None]
    [mkJoin "j" "b" ["left"] "all" "merge" None None "cancel"] [] [] [] [] [] "".

Lemma strict_validation_stronger_witness :
  let reg := register (register [] (demo_contract "a" "text" "raw" [] ["q"]))
               (demo_contract "b" "text" "text" ["q"] []) in
  is_valid (validate_port_compatibility demo_blueprint reg false) = true /\
  forall c, c ∈ connections demo_blueprint ->
    compatible (validate_connection reg (from_node c) (to_node c)) = true.
Proof. apply strict_validation_stronger. vm_compute. reflexivity. Defined.
