(* ===== verification/Policy.v ===== *)
(** * Policies

    [core/policy.py] and [core/default_policies.py]: declarative rules, the
    condition language, and the engine that returns one decision per
    applicable policy.  Conditions are parsed to a [cond] and then evaluated,
    in the order the code tries the forms. *)
From Corelib Require Import SpecFloat.
From S2P Require Import Prelude PyFloat PyValue.

Inductive PolicyType :=
| INPUT_VALIDATION | OUTPUT_VALIDATION | TOOL_ACCESS | MODEL_ACCESS
| MEMORY_ACCESS | MEMORY_WRITE | MEMORY_READ | COST_LIMIT | RATE_LIMIT
| CONTENT_FILTER | TRUST_LEVEL | RETRY | TIMEOUT | FALLBACK | AUDIT
| MEMORY_RETENTION | SENSITIVITY | SIDE_EFFECT | ADAPTER_ACCESS.

#[export] Instance PolicyType_eq_dec : EqDecision PolicyType.
Proof. solve_decision. Defined.

Definition PolicyType_value (t : PolicyType) : string :=
  match t with
  | INPUT_VALIDATION => "input_validation" | OUTPUT_VALIDATION => "output_validation"
  | TOOL_ACCESS => "tool_access" | MODEL_ACCESS => "model_access"
  | MEMORY_ACCESS => "memory_access" | MEMORY_WRITE => "memory_write"
  | MEMORY_READ => "memory_read" | COST_LIMIT => "cost_limit"
  | RATE_LIMIT => "rate_limit" | CONTENT_FILTER => "content_filter"
  | TRUST_LEVEL => "trust_level" | RETRY => "retry" | TIMEOUT => "timeout"
  | FALLBACK => "fallback" | AUDIT => "audit" | MEMORY_RETENTION => "memory_retention"
  | SENSITIVITY => "sensitivity" | SIDE_EFFECT => "side_effect"
  | ADAPTER_ACCESS => "adapter_access"
  end.

Inductive PolicyAction :=
| ALLOW | DENY | REQUIRE_APPROVAL | TRANSFORM | ARETRY | ESCALATE | LOG.

#[export] Instance PolicyAction_eq_dec : EqDecision PolicyAction.
Proof. solve_decision. Defined.

Definition PolicyAction_value (a : PolicyAction) : string :=
  match a with
  | ALLOW => "allow" | DENY => "deny" | REQUIRE_APPROVAL => "require_approval"
  | TRANSFORM => "transform" | ARETRY => "retry" | ESCALATE => "escalate" | LOG => "log"
  end.

Record PolicyRule := mkRule {
  rule_id : string;
  condition : string;
  rule_action : PolicyAction;
  rule_parameters : pyctx;
  priority : Z;
}.

Record Policy := mkPolicy {
  policy_id : string;
  policy_type : PolicyType;
  target : string;
  rules : list PolicyRule;
}.

Record PolicyDecision := mkDecision {
  d_policy_id : string;
  d_rule_id : string;
  d_action : PolicyAction;
  d_reason : string;
  d_parameters : pyctx;
}.

(** ** Conditions *)

Inductive cmp_op := OGe | OLe | ONe | OGt | OLt | OEq.

#[export] Instance cmp_op_eq_dec : EqDecision cmp_op.
Proof. solve_decision. Defined.

Definition op_text (o : cmp_op) : string :=
  match o with
  | OGe => ">=" | OLe => "<=" | ONe => "!=" | OGt => ">" | OLt => "<" | OEq => "=="
  end.

(** The operators in the order the code looks for them. *)
Definition ops : list cmp_op := [OGe; OLe; ONe; OGt; OLt; OEq].

Inductive cond :=
| CAlways
| CNever
| CCompare (op : cmp_op) (field value : string)
| CIn (field : string) (values : list string)
| CExists (key : string).

Definition parse_condition (condition : string) : cond :=
  if condition =s? "always" then CAlways
  else if condition =s? "never" then CNever
  else match List.find (fun o => contains (op_text o) condition) ops with
  | Some o =>
      match split1 (op_text o) condition with
      | Some (field, value) => CCompare o (strip field) (strip value)
      | None => CNever
      end
  | None =>
      match split1 " in " condition with
      | Some (field, values_str) =>
          CIn (strip field)
            (map (fun v => strip_chars (String squote (String dquote "")) (strip v))
               (split_char ","%char (strip_chars "[]" (strip values_str))))
      | None => CExists (strip condition)
      end
  end.

(** [float(actual) <op> float(resolved)] under the handler that turns
    [ValueError] and [TypeError] into [False]. *)
Definition compare_floats (cmp : pyfloat -> pyfloat -> bool) (actual resolved : pyval)
  : res float_error bool :=
  match py_float actual with
  | Err FOverflowError => Err FOverflowError
  | Err _ => Ok false
  | Ok a =>
      match py_float resolved with
      | Err FOverflowError => Err FOverflowError
      | Err _ => Ok false
      | Ok b => Ok (cmp a b)
      end
  end.

Definition eval_compare (o : cmp_op) (actual resolved : pyval) : res float_error bool :=
  match o with
  | OGe => compare_floats fge actual resolved
  | OLe => compare_floats fle actual resolved
  | OGt => compare_floats fgt actual resolved
  | OLt => compare_floats flt actual resolved
  | ONe => Ok (negb (py_str actual =s? py_str resolved))
  | OEq => Ok (py_str actual =s? py_str resolved)
  end.

Definition eval_cond (c : cond) (ctx : pyctx) : res float_error bool :=
  match c with
  | CAlways => Ok true
  | CNever => Ok false
  | CCompare o field value =>
      let actual := context_get field ctx in
      if is_none actual then Ok false
      else
        let resolved := dget_or value (VStr value) ctx in
        eval_compare o actual resolved
  | CIn field values =>
      match context_get field ctx with
      | VNone => Ok false
      | VList l => Ok (existsb (fun a => mem (py_str a) values) l)
      | actual => Ok (mem (py_str actual) values)
      end
  | CExists key => Ok (dmem key ctx)
  end.

Definition evaluate_condition (condition : string) (ctx : pyctx) : res float_error bool :=
  eval_cond (parse_condition condition) ctx.

(** ** The engine *)

Definition PolicyEngine := dict Policy.

Definition register (e : PolicyEngine) (p : Policy) : PolicyEngine :=
  dset (policy_id p) p e.

Definition make_engine (policies : list Policy) : PolicyEngine :=
  fold_left register policies [].

Definition applies (p : Policy) (t : PolicyType) (node_id : string) : bool :=
  ((target p =s? "*") || (target p =s? node_id)) && bool_decide (policy_type p = t).

(** [sorted(rules, key=priority, reverse=True)] *)
Definition sorted_rules (rs : list PolicyRule) : list PolicyRule :=
  py_sorted (fun a b => priority b <=? priority a) rs.

Fixpoint first_match (rs : list PolicyRule) (ctx : pyctx) : res float_error (option PolicyRule) :=
  match rs with
  | [] => Ok None
  | r :: rest =>
      b ← evaluate_condition (condition r) ctx;
      if (b : bool) then Ok (Some r) else first_match rest ctx
  end.

Definition decision_of (p : Policy) (r : PolicyRule) : PolicyDecision :=
  mkDecision (policy_id p) (rule_id r) (rule_action r) "" (rule_parameters r).

Fixpoint evaluate_policies (ps : list Policy) (t : PolicyType) (node_id : string) (ctx : pyctx)
  : res float_error (list PolicyDecision) :=
  match ps with
  | [] => Ok []
  | p :: rest =>
      if applies p t node_id then
        m ← first_match (sorted_rules (rules p)) ctx;
        ds ← evaluate_policies rest t node_id ctx;
        Ok (match m with Some r => decision_of p r :: ds | None => ds end)
      else evaluate_policies rest t node_id ctx
  end.

Definition evaluate (e : PolicyEngine) (t : PolicyType) (node_id : string) (ctx : pyctx)
  : res float_error (list PolicyDecision) :=
  evaluate_policies (map snd e) t node_id ctx.

(** ** The rule that decides *)

(** [r] decides the policy: its condition holds, and neither a rule of higher
    priority nor an earlier rule of the same priority has a condition that holds. *)
Definition decides (rs : list PolicyRule) (ctx : pyctx) (r : PolicyRule) : Prop :=
  evaluate_condition (condition r) ctx = Ok true /\
  exists before after, rs = before ++ r :: after /\
    (forall r', r' ∈ before -> priority r <= priority r' ->
                evaluate_condition (condition r') ctx = Ok false) /\
    (forall r', r' ∈ after -> priority r < priority r' ->
                evaluate_condition (condition r') ctx = Ok false).

(** No rule of the list raises on the context. *)
Definition no_raise (rs : list PolicyRule) (ctx : pyctx) : Prop :=
  forall r, r ∈ rs -> is_ok (evaluate_condition (condition r) ctx) = true.

Definition holds (ctx : pyctx) (r : PolicyRule) : bool :=
  match evaluate_condition (condition r) ctx with Ok b => b | Err _ => false end.

(** The reference definition: scan from the last rule, a rule replaces the
    best so far unless it has a strictly lower priority. *)
Definition best_rule (ctx : pyctx) (rs : list PolicyRule) : option PolicyRule :=
  foldr (fun r best =>
           if holds ctx r then
             match best with
             | Some b => if priority b <=? priority r then Some r else best
             | None => Some r
             end
           else best) None rs.

Lemma first_match_find rs ctx :
  no_raise rs ctx -> first_match rs ctx = Ok (List.find (holds ctx) rs).
Proof.
  induction rs as [|r rs IH]; intros Hn; simpl; [done|].
  assert (Hr := Hn r (list_elem_of_here _ _)).
  unfold holds at 1. destruct (evaluate_condition (condition r) ctx) as [[]|]; simpl; try done.
  apply IH. intros r' Hr'. apply Hn. by right.
Qed.

Definition prio_leb (a b : PolicyRule) : bool := priority b <=? priority a.

Lemma find_insert ctx x l :
  StronglySorted (fun a b => prio_leb a b = true) l ->
  List.find (holds ctx) (sort_insert prio_leb x l) =
  if holds ctx x then
    match List.find (holds ctx) l with
    | Some b => if priority b <=? priority x then Some x else List.find (holds ctx) l
    | None => Some x
    end
  else List.find (holds ctx) l.
Proof.
  unfold prio_leb. induction l as [|y l IH]; simpl; intros Hs; [by destruct (holds ctx x)|].
  apply StronglySorted_inv in Hs as [Hs Hy].
  destruct (priority y <=? priority x) eqn:E; simpl.
  - destruct (holds ctx x) eqn:Hx; [|done].
    destruct (holds ctx y); [by rewrite E|].
    destruct (List.find (holds ctx) l) as [b|] eqn:Eb; [|done].
    apply find_some_elem in Eb as [Hb _].
    rewrite List.Forall_forall in Hy. apply list_elem_of_In, Hy in Hb. bool_prop.
    replace (priority b <=? priority x) with true; [done|]. symmetry. apply Z.leb_le. lia.
  - rewrite (IH Hs). destruct (holds ctx y) eqn:Hyh; [|done].
    rewrite E. by destruct (holds ctx x).
Qed.

Lemma find_sorted ctx rs : List.find (holds ctx) (sorted_rules rs) = best_rule ctx rs.
Proof.
  unfold sorted_rules, py_sorted. change (fun a b => priority b <=? priority a) with prio_leb.
  induction rs as [|r rs IH]; simpl; [done|].
  rewrite find_insert, IH; [done|].
  apply py_sorted_sorted; unfold prio_leb; intros; rewrite !Z.leb_le in *; lia.
Qed.

Lemma best_rule_holds ctx rs r : best_rule ctx rs = Some r -> r ∈ rs /\ holds ctx r = true.
Proof.
  revert r. induction rs as [|x rs IH]; intros r; simpl; [discriminate|].
  destruct (holds ctx x) eqn:Hx.
  - destruct (best_rule ctx rs) as [b|].
    + destruct (_ <=? _); intros [= <-]; [split; [left|done]|].
      destruct (IH b eq_refl). split; [by right | done].
    + intros [= <-]. split; [left | done].
  - intros H. destruct (IH r H). split; [by right | done].
Qed.

Lemma best_rule_none ctx rs :
  best_rule ctx rs = None <-> forall r, r ∈ rs -> holds ctx r = false.
Proof.
  induction rs as [|x rs IH]; simpl.
  - split; [intros _ r H; inversion H | done].
  - setoid_rewrite elem_of_cons. destruct (holds ctx x) eqn:Hx.
    + split; [destruct (best_rule ctx rs) as [b|]; [destruct (_ <=? _)|]; discriminate|].
      intros H. rewrite (H x) in Hx; [done | auto].
    + rewrite IH. naive_solver.
Qed.

Lemma best_rule_spec ctx rs r :
  best_rule ctx rs = Some r ->
  exists before after, rs = before ++ r :: after /\
    (forall r', r' ∈ before -> priority r <= priority r' -> holds ctx r' = false) /\
    (forall r', r' ∈ after -> priority r < priority r' -> holds ctx r' = false).
Proof.
  revert r. induction rs as [|x rs IH]; intros r; simpl; [discriminate|].
  assert (Hskip : best_rule ctx rs = Some r ->
            (priority r <= priority x -> holds ctx x = false) ->
            exists before after, x :: rs = before ++ r :: after /\
    (forall r', r' ∈ before -> priority r <= priority r' -> holds ctx r' = false) /\
    (forall r', r' ∈ after -> priority r < priority r' -> holds ctx r' = false)).
  { intros (before & after & -> & H1 & H2)%IH Hx. exists (x :: before), after.
    split_and!; [done| |done]. intros r' [->|]%elem_of_cons; auto. }
  destruct (holds ctx x) eqn:Hx; [|auto].
  destruct (best_rule ctx rs) as [b|] eqn:Eb.
  - destruct (priority b <=? priority x) eqn:Ep; intros [= <-]; bool_prop.
    + exists [], rs. split_and!; [done | intros r' H; inversion H|].
      intros r' Hr' Hlt. destruct (IH b eq_refl) as (bf & af & -> & H1 & H2).
      apply elem_of_app in Hr' as [Hr'|[->|Hr']%elem_of_cons]; [|lia|].
      * apply H1; [done | lia].
      * apply H2; [done | lia].
    + apply Hskip; [done | lia].
  - intros [= <-]. exists [], rs. split_and!; [done | intros r' H; inversion H|].
    intros r' Hr' _. by apply (proj1 (best_rule_none ctx rs) Eb).
Qed.

Lemma holds_false_ok ctx rs r :
  no_raise rs ctx -> r ∈ rs -> holds ctx r = false ->
  evaluate_condition (condition r) ctx = Ok false.
Proof.
  intros Hn Hr. unfold holds. specialize (Hn r Hr).
  by destruct (evaluate_condition (condition r) ctx) as [[]|].
Qed.

Lemma first_match_decides p ctx :
  no_raise (rules p) ctx ->
  exists m, first_match (sorted_rules (rules p)) ctx = Ok m /\
    match m with
    | Some r => decides (rules p) ctx r
    | None => forall r, r ∈ rules p -> evaluate_condition (condition r) ctx = Ok false
    end.
Proof.
  intros Hn. exists (best_rule ctx (rules p)). split.
  - rewrite first_match_find, find_sorted; [done|].
    intros r Hr. apply Hn. by apply elem_of_py_sorted in Hr.
  - destruct (best_rule ctx (rules p)) as [r|] eqn:E.
    + destruct (best_rule_holds _ _ _ E) as [Hr Hh].
      destruct (best_rule_spec _ _ _ E) as (bf & af & Heq & H1 & H2).
      split.
      * unfold holds in Hh. specialize (Hn r Hr).
        by destruct (evaluate_condition (condition r) ctx) as [[]|].
      * exists bf, af. rewrite Heq in Hn.
        split_and!; [done| |]; intros r' Hr' Hp; eapply holds_false_ok; eauto; set_solver.
    + intros r Hr. eapply holds_false_ok; eauto. by apply (proj1 (best_rule_none _ _) E).
Qed.

(** The engine returns, in registration order, one decision for each
    applicable policy that has a rule that holds, and that decision is of the
    deciding rule: highest priority first, declaration order between equals. *)
Theorem evaluate_first_matching_rule e t node_id ctx :
  (forall p, p ∈ map snd e -> no_raise (rules p) ctx) ->
  exists ds, evaluate e t node_id ctx = Ok ds /\
    exists choice : Policy -> option PolicyRule,
      ds = omap (fun p => decision_of p <$> choice p)
             (List.filter (fun p => applies p t node_id) (map snd e)) /\
      forall p, p ∈ map snd e ->
        match choice p with
        | Some r => decides (rules p) ctx r
        | None => forall r, r ∈ rules p -> evaluate_condition (condition r) ctx = Ok false
        end.
Proof.
  unfold evaluate. generalize (map snd e). intros ps Hn.
  assert (Hall : forall p, p ∈ ps -> exists m,
            first_match (sorted_rules (rules p)) ctx = Ok m /\
            match m with
            | Some r => decides (rules p) ctx r
            | None => forall r, r ∈ rules p -> evaluate_condition (condition r) ctx = Ok false
            end) by (intros; apply first_match_decides; auto).
  set (choice p := match first_match (sorted_rules (rules p)) ctx with
                   | Ok m => m | Err _ => None end).
  exists (omap (fun p => decision_of p <$> choice p)
            (List.filter (fun p => applies p t node_id) ps)). split.
  - clear Hn. induction ps as [|p ps IH]; simpl; [done|].
    destruct (applies p t node_id); simpl.
    + destruct (Hall p) as (m & Hm & _); [left|].
      assert (Hc : choice p = m) by (unfold choice; by rewrite Hm).
      rewrite Hm, IH, Hc by (intros; apply Hall; by right). simpl.
      by destruct m.
    + apply IH. intros; apply Hall; by right.
  - exists choice. split; [done|]. intros p Hp.
    destruct (Hall p Hp) as (m & Hm & Hd). unfold choice. by rewrite Hm.
Qed.

(** ** When no condition raises *)

(** Only an [int] beyond the binary64 range makes [float(...)] raise past the
    handler: it is then an [OverflowError]. *)
Definition no_huge_int (ctx : pyctx) : Prop :=
  forall k z, dget k ctx = Some (VInt z) -> float_of_int z <> None.

Lemma compare_floats_ok cmp a b :
  py_float a <> Err FOverflowError -> py_float b <> Err FOverflowError ->
  is_ok (compare_floats cmp a b) = true.
Proof.
  unfold compare_floats. intros Ha Hb.
  destruct (py_float a) as [|[]]; try done. by destruct (py_float b) as [|[]].
Qed.

Lemma py_float_ctx ctx k v :
  no_huge_int ctx -> dget k ctx = Some v -> py_float v <> Err FOverflowError.
Proof.
  intros Hn Hk. destruct v; simpl; try done.
  - specialize (Hn k z Hk). by destruct (float_of_int z).
  - by destruct (parse_float _).
Qed.

Lemma evaluate_condition_ok c ctx :
  no_huge_int ctx -> is_ok (evaluate_condition c ctx) = true.
Proof.
  intros Hn. unfold evaluate_condition. destruct (parse_condition c) as [| |o f v|f vs|k];
    simpl; try done.
  - destruct (is_none _) eqn:E; [done|].
    assert (Ha : py_float (context_get f ctx) <> Err FOverflowError).
    { unfold context_get in *. destruct (dget f ctx) eqn:Ef; [|done]. by eapply py_float_ctx. }
    assert (Hb : py_float (dget_or v (VStr v) ctx) <> Err FOverflowError).
    { unfold dget_or. destruct (dget v ctx) eqn:Ev; [by eapply py_float_ctx|].
      simpl. by destruct (parse_float _). }
    destruct o; simpl; auto using compare_floats_ok.
  - by destruct (context_get f ctx).
Qed.

Lemma no_huge_int_no_raise rs ctx : no_huge_int ctx -> no_raise rs ctx.
Proof. intros H r _. by apply evaluate_condition_ok. Qed.

(** ** The default policies *)

Definition deny_reason (s : string) : pyctx := [("reason", VStr s)].

Definition TOOL_ACCESS_POLICY : Policy :=
  mkPolicy "research.tool_access.v1" TOOL_ACCESS "*"
    [ mkRule "tool.deny_ungranted" "has_ungranted_tools == True" DENY
        (deny_reason "Node requests tools not in its capability grants") 20;
      mkRule "tool.allow_granted" "tools_required_count > 0" ALLOW [] 10 ].

Definition ADAPTER_ACCESS_POLICY : Policy :=
  mkPolicy "runtime.adapter_access.v1" ADAPTER_ACCESS "*"
    [ mkRule "adapter.deny_no_grants" "has_no_granted_adapters == True" DENY
        (deny_reason "Node declares adapters but none are granted in capabilities") 20;
      mkRule "adapter.allow_subset_grant" "adapters_required_count > 0" ALLOW [] 10 ].

Definition MEMORY_WRITE_POLICY : Policy :=
  mkPolicy "research.memory_write.v1" MEMORY_WRITE "memory_write_decision"
    [ mkRule "memory.block_low_confidence" "confidence < 0.7" DENY
        (deny_reason "Confidence below write threshold (0.7)") 20;
      mkRule "memory.block_high_sensitivity" "sensitivity == HIGH" REQUIRE_APPROVAL
        (deny_reason "HIGH sensitivity requires explicit approval") 15;
      mkRule "memory.allow_write" "always" ALLOW [] 0 ].

Definition MEMORY_READ_POLICY : Policy :=
  mkPolicy "research.memory_read.v1" MEMORY_READ "*"
    [ mkRule "memory.allow_read_with_access" "memory_access in [read, write, read_write]"
        ALLOW [] 10;
      mkRule "memory.deny_read_without_access" "always" DENY
        (deny_reason "Node does not have memory read access") 0 ].

Definition COST_LIMIT_POLICY : Policy :=
  mkPolicy "research.cost_limit.v1" COST_LIMIT "*"
    [ mkRule "cost.block_over_budget" "accumulated_cost > max_cost_usd" DENY
        (deny_reason "Node exceeded cost budget") 10;
      mkRule "cost.allow_under_budget" "always" ALLOW [] 0 ].

Definition TRUST_LEVEL_POLICY : Policy :=
  mkPolicy "runtime.trust.v1" TRUST_LEVEL "*"
    [ mkRule "trust.deny_untrusted_privileged"
        "observed_trust_level in [local_untrusted, remote_untrusted, unknown]" DENY
        (deny_reason "Untrusted package cannot execute privileged capabilities") 20;
      mkRule "trust.allow_trusted" "observed_trust_level in [built_in, local_trusted]"
        ALLOW [] 10 ].

Definition MODEL_ACCESS_POLICY : Policy :=
  mkPolicy "research.model_access.v1" MODEL_ACCESS "*"
    [ mkRule "model.allow_model_required" "model_required == True" ALLOW [] 10;
      mkRule "model.deny_non_model" "always" DENY
        (deny_reason "Node is not model-backed and cannot call LLM") 0 ].

Definition SIDE_EFFECT_POLICY : Policy :=
  mkPolicy "runtime.side_effect.v1" SIDE_EFFECT "*"
    [ mkRule "side_effect.allow" "always" ALLOW [] 0 ].

Definition DEFAULT_POLICIES : list Policy :=
  [ TOOL_ACCESS_POLICY; MODEL_ACCESS_POLICY; MEMORY_WRITE_POLICY; MEMORY_READ_POLICY;
    COST_LIMIT_POLICY; TRUST_LEVEL_POLICY; SIDE_EFFECT_POLICY; ADAPTER_ACCESS_POLICY ].

Definition default_engine : PolicyEngine := make_engine DEFAULT_POLICIES.

(** The conditions of the default rules, parsed. *)
Lemma parse_default_conditions :
  parse_condition "has_ungranted_tools == True" = CCompare OEq "has_ungranted_tools" "True" /\
  parse_condition "tools_required_count > 0" = CCompare OGt "tools_required_count" "0" /\
  parse_condition "has_no_granted_adapters == True"
    = CCompare OEq "has_no_granted_adapters" "True" /\
  parse_condition "accumulated_cost > max_cost_usd"
    = CCompare OGt "accumulated_cost" "max_cost_usd" /\
  parse_condition "observed_trust_level in [built_in, local_trusted]"
    = CIn "observed_trust_level" ["built_in"; "local_trusted"] /\
  parse_condition "memory_access in [read, write, read_write]"
    = CIn "memory_access" ["read"; "write"; "read_write"].
Proof. vm_compute. by split_and!. Qed.

Lemma evaluate_first_matching_rule_witness :
  exists ds, evaluate default_engine TRUST_LEVEL "n"
               [("observed_trust_level", VStr "local_untrusted")] = Ok ds /\
    ds = [decision_of TRUST_LEVEL_POLICY
            (mkRule "trust.deny_untrusted_privileged"
               "observed_trust_level in [local_untrusted, remote_untrusted, unknown]" DENY
               (deny_reason "Untrusted package cannot execute privileged capabilities") 20)].
Proof.
  destruct (evaluate_first_matching_rule default_engine TRUST_LEVEL "n"
              [("observed_trust_level", VStr "local_untrusted")]) as (ds & Hds & _).
  - intros p _ r _. apply evaluate_condition_ok. intros k z. simpl.
    destruct (_ =s? _); discriminate.
  - exists ds. split; [exact Hds|]. vm_compute in Hds. injection Hds as <-.
    vm_compute. reflexivity.
Defined.
