(* ===== verification/Envelope.v ===== *)
(** * Invocation envelopes

    [core/envelope.py]: the contract every node invocation passes through,
    and the validated recovery envelope of a side-effect retry;
    [runtime/step_allocator.py]: the step ids envelopes carry. *)
From S2P Require Import Prelude PyFloat PyValue.

Record Context := mkContext {
  session_memory : list pyctx;
  chain_state : pyctx;
  source_routing : pyctx;
  per_node_adapter_grants : list string;
  memory_read_decision_id : string;
}.

Record Capabilities := mkCaps {
  can_call_tools : bool;
  can_read_memory : bool;
  can_write_memory : bool;
  caps_max_cost_usd : pyfloat;
  max_latency_ms : Z;
  allowed_tools : list string;
  allowed_adapters : list string;
  side_effect_completed_keys : list string;
  side_effect_status_map : dict string;
}.

Definition default_context : Context := mkContext [] [] [] [] "".
Definition default_capabilities : Capabilities :=
  mkCaps false false false (fround_int 1) 60000 [] [] [] [].

Record InvocationEnvelope := mkEnvelope {
  envelope_id : string;
  env_run_id : string;
  env_chain_id : string;
  env_node_id : string;
  env_step_id : Z;
  env_timestamp : Z;
  payload : pyctx;
  env_context : Context;
  capabilities : Capabilities;
  env_metadata : pyctx;
  recovery : option pyctx;
}.

Record EnvelopeResponse := mkResponse {
  resp_envelope_id : string;
  request_envelope_id : string;
  resp_run_id : string;
  resp_chain_id : string;
  resp_node_id : string;
  resp_step_id : Z;
  resp_timestamp : Z;
  output : pyctx;
  output_type : string;
  success : bool;
  resp_error : option string;
  cost_usd : pyfloat;
  latency_ms : Z;
  resp_metadata : pyctx;
}.

(** The exceptions of this file: pydantic's [ValidationError] and the coded
    [RecoveryEnvelopeError]. *)
Inductive envelope_error :=
| ValidationError
| RecoveryEnvelopeError (code : string).

#[export] Instance envelope_error_eq_dec : EqDecision envelope_error.
Proof. solve_decision. Defined.

(** [fresh_id] and [now] are the default factories' values. *)
Definition compile_envelope (fresh_id : string) (now : Z)
  (run_id chain_id node_id : string) (step_id : Z) (payload : pyctx)
  (context : option Context) (caps : option Capabilities)
  : res envelope_error InvocationEnvelope :=
  _ ← guard_err (1 <=? step_id) ValidationError;
  Ok (mkEnvelope fresh_id run_id chain_id node_id step_id now payload
        (default default_context context) (default default_capabilities caps) [] None).

(** ** The recovery envelope *)

Record RecoveryEnvelopeV1 := mkRecoveryEnvelope {
  schema_version : Z;
  recovery_mode : string;
  recovery_action_id : string;
  recovery_decision_id : string;
  original_invocation_id : string;
  target_side_effect_key : string;
  parent_side_effect_key : string;
  root_side_effect_key : string;
  retry_attempt_key : string;
  retry_ordinal : Z;
  replay_capsule_id : string;
  replay_capsule_digest : string;
  replay_capsule_schema_version : Z;
  canonicalization_version : string;
  source_binding_node_id : string;
  source_binding_node_version : string;
  source_binding_contract_id : string;
  source_binding_contract_version : string;
  source_binding_adapter_id : string;
  source_binding_adapter_version : string;
  execution_claim_id : string;
  required_type : string;
  required_operation_name : string;
  required_adapter_id : string;
  required_adapter_version : string;
  required_request_hash : string;
  max_total_side_effects : Z;
}.

(** The keyword arguments of [build]. *)
Record BuildArgs := mkBuildArgs {
  b_recovery_action_id : string;
  b_recovery_decision_id : string;
  b_original_invocation_id : string;
  b_parent_side_effect_key : string;
  b_root_side_effect_key : string;
  b_retry_attempt_key : string;
  b_retry_ordinal : Z;
  b_replay_capsule_id : string;
  b_replay_capsule_digest : string;
  b_replay_capsule_schema_version : Z;
  b_canonicalization_version : string;
  b_source_binding : dict string;
  b_execution_claim_id : string;
  b_required_type : string;
  b_required_operation_name : string;
  b_required_adapter_id : string;
  b_required_adapter_version : string;
  b_required_request_hash : string;
  b_max_total_side_effects : Z;
}.

Definition required_binding_keys : list string :=
  ["node_id"; "node_version"; "contract_id"; "contract_version"; "adapter_id"; "adapter_version"].

Definition binding (a : BuildArgs) (key : string) : string :=
  default "" (dget key (b_source_binding a)).

Definition build (a : BuildArgs) : res envelope_error RecoveryEnvelopeV1 :=
  _ ← guard_err (str_truthy (b_parent_side_effect_key a)) (RecoveryEnvelopeError "MISSING_PARENT_KEY");
  _ ← guard_err (str_truthy (b_retry_attempt_key a)) (RecoveryEnvelopeError "MISSING_RETRY_KEY");
  _ ← guard_err (negb (b_parent_side_effect_key a =? b_retry_attempt_key a)%string)
        (RecoveryEnvelopeError "LINEAGE_COLLAPSE");
  _ ← guard_err (negb (nonempty (set_diff required_binding_keys (dkeys (b_source_binding a)))))
        (RecoveryEnvelopeError "INCOMPLETE_SOURCE_BINDING");
  _ ← guard_err (forallb (fun k => str_truthy (binding a k)) (sort_str required_binding_keys))
        (RecoveryEnvelopeError "EMPTY_BINDING_VALUE");
  _ ← guard_err (b_required_adapter_id a =? binding a "adapter_id")%string
        (RecoveryEnvelopeError "ADAPTER_ID_MISMATCH");
  _ ← guard_err (b_required_adapter_version a =? binding a "adapter_version")%string
        (RecoveryEnvelopeError "ADAPTER_VERSION_MISMATCH");
  Ok (mkRecoveryEnvelope 1 "side_effect_retry" (b_recovery_action_id a)
        (b_recovery_decision_id a) (b_original_invocation_id a)
        (b_parent_side_effect_key a) (b_parent_side_effect_key a) (b_root_side_effect_key a)
        (b_retry_attempt_key a) (b_retry_ordinal a) (b_replay_capsule_id a)
        (b_replay_capsule_digest a) (b_replay_capsule_schema_version a)
        (b_canonicalization_version a) (binding a "node_id") (binding a "node_version")
        (binding a "contract_id") (binding a "contract_version") (binding a "adapter_id")
        (binding a "adapter_version") (b_execution_claim_id a) (b_required_type a)
        (b_required_operation_name a) (b_required_adapter_id a) (b_required_adapter_version a)
        (b_required_request_hash a) (b_max_total_side_effects a)).

Definition to_envelope_recovery_dict (e : RecoveryEnvelopeV1) : pyctx :=
  [ ("schema_version", VInt (schema_version e));
    ("recovery_mode", VStr (recovery_mode e));
    ("recovery_action_id", VStr (recovery_action_id e));
    ("recovery_decision_id", VStr (recovery_decision_id e));
    ("original_invocation_id", VStr (original_invocation_id e));
    ("target_side_effect_key", VStr (target_side_effect_key e));
    ("parent_side_effect_key", VStr (parent_side_effect_key e));
    ("root_side_effect_key", VStr (root_side_effect_key e));
    ("retry_attempt_key", VStr (retry_attempt_key e));
    ("retry_ordinal", VInt (retry_ordinal e));
    ("replay_capsule_id", VStr (replay_capsule_id e));
    ("execution_claim_id", VStr (execution_claim_id e));
    ("required_adapter_id", VStr (required_adapter_id e)) ].

Record ExecutionConstraints := mkConstraints {
  c_required_type : string;
  c_required_operation_name : string;
  c_required_adapter_id : string;
  c_required_adapter_version : string;
  c_required_request_hash : string;
  c_required_canonicalization_version : string;
  c_max_total_side_effects : Z;
}.

Definition to_execution_constraints (e : RecoveryEnvelopeV1) : ExecutionConstraints :=
  mkConstraints (required_type e) (required_operation_name e) (required_adapter_id e)
    (required_adapter_version e) (required_request_hash e) (canonicalization_version e)
    (max_total_side_effects e).

(** ** Step allocation *)

Record InvocationIdentity := mkIdentity {
  ii_run_id : string;
  ii_step_id : Z;
  ii_node_id : string;
  ii_branch_name : option string;
  ii_attempt : Z;
}.

(** The allocator's state is its last step; [allocate] under the lock and
    [allocate_sync] are the same step of it. *)
Record AllocateRequest := mkRequest {
  rq_run_id : string;
  rq_node_id : string;
  rq_branch_name : option string;
  rq_attempt : Z;
}.

Definition allocate (next : Z) (rq : AllocateRequest) : Z * InvocationIdentity :=
  let next' := next + 1 in
  (next', mkIdentity (rq_run_id rq) next' (rq_node_id rq) (rq_branch_name rq) (rq_attempt rq)).

Definition initialize_from (next step : Z) : Z := step.

Fixpoint allocate_all (next : Z) (rqs : list AllocateRequest) : Z * list InvocationIdentity :=
  match rqs with
  | [] => (next, [])
  | rq :: rest =>
      let '(next, i) := allocate next rq in
      let '(next, ids) := allocate_all next rest in
      (next, i :: ids)
  end.

(** ** Properties *)

Lemma allocate_all_spec next rqs :
  let '(next', ids) := allocate_all next rqs in
  next' = next + Z.of_nat (length rqs) /\
  map ii_step_id ids = map (fun i => next + 1 + Z.of_nat i) (seq 0 (length rqs)) /\
  map ii_node_id ids = map rq_node_id rqs.
Proof.
  revert next. induction rqs as [|rq rqs IH]; intros next; simpl.
  - split_and!; [lia|done|done].
  - specialize (IH (next + 1)). destruct (allocate_all (next + 1) rqs) as [n ids].
    destruct IH as (-> & H1 & H2). simpl. split_and!; [lia| |by f_equal].
    rewrite H1. f_equal; [lia|]. rewrite <- seq_shift, map_map. apply map_ext. intros i. lia.
Qed.

(** Whatever the order in which concurrent branches get the allocator, the
    step ids of the invocations are consecutive from the starting point,
    hence pairwise distinct, and larger than every step before it. *)
Theorem step_ids_unique next rqs :
  let '(next', ids) := allocate_all next rqs in
  NoDup (map ii_step_id ids) /\
  (forall i, i ∈ ids -> next < ii_step_id i <= next') /\
  length ids = length rqs.
Proof.
  pose proof (allocate_all_spec next rqs) as H.
  destruct (allocate_all next rqs) as [n ids]. destruct H as (-> & H1 & H2).
  assert (length ids = length rqs) as Hl.
  { apply (f_equal length) in H2. by rewrite !length_map in H2. }
  split_and!; [| |done].
  - rewrite H1. apply NoDup_fmap_2; [intros i j; lia|]. apply NoDup_ListNoDup, seq_NoDup.
  - intros i Hi.
    assert (ii_step_id i ∈ map ii_step_id ids) as Hin
      by (apply list_elem_of_In, in_map; by apply list_elem_of_In).
    rewrite H1 in Hin. apply list_elem_of_In, in_map_iff in Hin as (k & <- & Hk).
    apply in_seq in Hk. lia.
Qed.

Lemma build_ok a e :
  build a = Ok e ->
  b_parent_side_effect_key a <> "" /\ b_retry_attempt_key a <> "" /\
  b_parent_side_effect_key a <> b_retry_attempt_key a /\
  (forall k, k ∈ required_binding_keys -> exists v, dget k (b_source_binding a) = Some v /\ v <> "") /\
  dget "adapter_id" (b_source_binding a) = Some (b_required_adapter_id a) /\
  dget "adapter_version" (b_source_binding a) = Some (b_required_adapter_version a).
Proof.
  unfold build. intros H. inv_bind H.
  repeat match goal with H : guard_err _ _ = Ok _ |- _ => apply guard_err_ok in H end.
  unfold str_truthy in *. bool_prop.
  assert (Hall : forall k, k ∈ required_binding_keys ->
            exists v, dget k (b_source_binding a) = Some v /\ v <> "").
  { intros k Hk. rewrite forallb_elem in Ha3.
    assert (Hs : k ∈ sort_str required_binding_keys) by by apply elem_of_py_sorted.
    specialize (Ha3 k Hs). unfold binding in Ha3. bool_prop.
    destruct (dget k (b_source_binding a)) as [v|]; [eauto | done]. }
  assert (Hb : forall k, k ∈ required_binding_keys ->
            dget k (b_source_binding a) = Some (binding a k)).
  { intros k Hk. destruct (Hall k Hk) as (v & Hv & _). unfold binding. by rewrite Hv. }
  split_and!; try done.
  - rewrite Hb by (unfold required_binding_keys; set_solver). by f_equal.
  - rewrite Hb by (unfold required_binding_keys; set_solver). by f_equal.
Qed.

(** A recovery envelope is built only for a two-row lineage whose source
    binding is complete and non-empty and attests the adapter to dispatch
    to; its target is the parent, and the constraints handed to the dispatch
    guard carry the attested adapter. *)
Theorem recovery_envelope_valid a e :
  build a = Ok e ->
  target_side_effect_key e = parent_side_effect_key e /\
  parent_side_effect_key e <> retry_attempt_key e /\
  parent_side_effect_key e <> "" /\ retry_attempt_key e <> "" /\
  (forall k, k ∈ required_binding_keys ->
     exists v, dget k (b_source_binding a) = Some v /\ v <> "") /\
  c_required_adapter_id (to_execution_constraints e) = source_binding_adapter_id e /\
  c_required_adapter_version (to_execution_constraints e) = source_binding_adapter_version e /\
  dget "adapter_id" (b_source_binding a) = Some (c_required_adapter_id (to_execution_constraints e)).
Proof.
  intros H. destruct (build_ok _ _ H) as (H1 & H2 & H3 & H4 & H5 & H6).
  unfold build in H. inv_bind H. injection H as <-. simpl. unfold binding.
  rewrite H5, H6. by split_and!.
Qed.

Definition demo_build (binding : dict string) : BuildArgs :=
  mkBuildArgs "act" "d1" "inv" "k" "k" "k2" 1 "cap:1" "digest" 1 "1" binding "tok"
    "external_call" "search" "arxiv" "1.0.0" "hash" 1.
Definition demo_binding : dict string :=
  [("node_id", "n"); ("node_version", "1"); ("contract_id", "c"); ("contract_version", "1");
   ("adapter_id", "arxiv"); ("adapter_version", "1.0.0")].

Lemma recovery_envelope_valid_witness :
  exists e, build (demo_build demo_binding) = Ok e /\
    target_side_effect_key e = parent_side_effect_key e.
Proof.
  eexists. split; [vm_compute; reflexivity|].
  eapply (proj1 (recovery_envelope_valid (demo_build demo_binding) _ _)).
  Unshelve. vm_compute. reflexivity.
Defined.
