(* ===== verification/PolicyGate.v ===== *)
(** * The policy gate

    [runtime/policy_gate.py]: the ordered authorization gates a node passes
    before it is invoked.  Each gate is one definition; the method [check]
    runs them in the order of the code, threading the evaluation context the
    code mutates and the list of evaluated policies, and stops at the first
    gate that blocks. *)
From Corelib Require Import SpecFloat.
From S2P Require Import Prelude PyFloat PyValue Envelope Contract Policy.

(** What the gate reads of a node: its contract, the trust attributes the
    loader set, and the name of the module its class was defined in (empty
    when it cannot be found). *)
Record GateNode := mkGateNode {
  gn_contract : NodeContract;
  gn_trust_level : string;
  gn_node_origin : string;
  gn_module : string;
}.

Record PolicyCheckResult := mkCheckResult {
  pcr_node_id : string;
  allowed : bool;
  denial_reason : pyval;
  approval_required : pyval;
  evaluated_policies : list pyctx;
}.

Definition gate_state : Type := pyctx * list pyctx.

Inductive outcome :=
| Continue (st : gate_state)
| Return (r : PolicyCheckResult).

Definition gate := gate_state -> res float_error outcome.

(** Run the gates in order until one returns. *)
Fixpoint run_gates (gs : list gate) (st : gate_state) : res float_error outcome :=
  match gs with
  | [] => Ok (Continue st)
  | g :: rest =>
      o ← g st;
      match o with
      | Continue st' => run_gates rest st'
      | Return r => Ok (Return r)
      end
  end.

Definition first_action (a : PolicyAction) (ds : list PolicyDecision) : option PolicyDecision :=
  List.find (fun d => bool_decide (d_action d = a)) ds.

Definition reason_or (prefix : string) (d : PolicyDecision) : pyval :=
  dget_or "reason"
    (VStr (if str_truthy (d_reason d) then d_reason d else prefix +:+ d_rule_id d))
    (d_parameters d).

Definition get_denial (ds : list PolicyDecision) : pyval :=
  match first_action DENY ds with
  | Some d => reason_or "Denied by rule " d
  | None => VNone
  end.

Definition get_approval_required (ds : list PolicyDecision) : pyval :=
  match first_action REQUIRE_APPROVAL ds with
  | Some d => reason_or "Approval required by rule " d
  | None => VNone
  end.

(** The policy and rule a structured evaluation is bound to. *)
Definition bind_blocking (blocking : option PolicyDecision) (ev : pyctx) : pyctx :=
  match blocking with
  | Some d => dset "rule_id" (VStr (d_rule_id d)) (dset "policy_id" (VStr (d_policy_id d)) ev)
  | None => ev
  end.

Definition deny_first (ds : list PolicyDecision) : option PolicyDecision :=
  match first_action DENY ds with Some d => Some d | None => head ds end.

Definition deny_or_approval_first (ds : list PolicyDecision) : option PolicyDecision :=
  match first_action DENY ds with
  | Some d => Some d
  | None => match first_action REQUIRE_APPROVAL ds with Some d => Some d | None => head ds end
  end.

Definition strs (l : list string) : pyval := VList (map VStr l).
Definition rule_ids (ds : list PolicyDecision) : pyval := strs (map d_rule_id ds).
Definition policy_ids (ds : list PolicyDecision) : pyval := strs (map d_policy_id ds).
Definition actions (ds : list PolicyDecision) : pyval :=
  strs (map (fun d => PolicyAction_value (d_action d)) ds).

Definition decision_word (deny : pyval) (ok : string) : pyval :=
  VStr (if truthy deny then "denied" else ok).
Definition decision_word3 (deny approval : pyval) : pyval :=
  VStr (if truthy deny then "denied"
        else if truthy approval then "requires_approval" else "allowed").

Section PolicyGate.
(** The collaborators the gate is built with. [py_sum] adds the costs of
    the events and [list_of_set] lists a set: the order of a set, and the
    rounding of [sum], depend on the interpreter. *)
Context (engine : PolicyEngine).
Context (get_capabilities : option (string -> option Capabilities)).
Context (get_trace_events : option (list (string * pyfloat))).
Context (get_step : option Z).
Context (py_sum : list pyfloat -> pyval).
Context (list_of_set : list string -> list string).

Definition has_policies : bool := nonempty engine.

Definition get_accumulated_cost (node_id : string) : pyval :=
  match get_trace_events with
  | None => VFloat fzero
  | Some events =>
      py_sum (map snd (List.filter (fun e => fst e =s? node_id) events))
  end.

Definition caps_of (node_id : string) : option Capabilities :=
  match get_capabilities with Some f => f node_id | None => None end.

Definition build_context (node_id : string) (req : Requirements) : pyctx :=
  let caps := caps_of node_id in
  let get {A} (f : Capabilities -> A) (dflt : A) : A :=
    match caps with Some c => f c | None => dflt end in
  [ ("node_id", VStr node_id);
    ("memory_access",
      VStr (if str_truthy (memory_access req) then memory_access req else "none"));
    ("model_required", VBool (model_required req));
    ("trust_level", VStr (if str_truthy (trust_level req) then trust_level req else "trusted"));
    ("can_call_tools", VBool (get can_call_tools false));
    ("can_read_memory", VBool (get can_read_memory false));
    ("can_write_memory", VBool (get can_write_memory false));
    ("allowed_tools", strs (get allowed_tools []));
    ("allowed_adapters", strs (get allowed_adapters []));
    ("max_cost_usd", VFloat (get caps_max_cost_usd (fround_int 1)));
    ("accumulated_cost", get_accumulated_cost node_id);
    ("step", VInt (match get_step with Some s => s | None => 0 end)) ].

(** The trust the runtime observed, a built-in claim being believed only of
    classes under [nodechain.nodes]. *)
Definition observed_trust (node : GateNode) : string * string :=
  let raw_trust := gn_trust_level node in
  let raw_origin := gn_node_origin node in
  if is_privileged_node (gn_contract node) then
    if (raw_trust =s? "built_in") || (raw_origin =s? "built_in") then
      if negb (starts_with "nodechain.nodes." (gn_module node)) then ("unknown", "unknown")
      else (raw_trust, raw_origin)
    else (raw_trust, raw_origin)
  else
    (if str_truthy raw_trust then raw_trust else "built_in",
     if str_truthy raw_origin then raw_origin else "built_in").

(** [set(context.get(key, []))] of a key that holds a list of names. *)
Definition ctx_names (key : string) (ctx : pyctx) : list string :=
  match context_get key ctx with
  | VList l => py_set (omap (fun v => match v with VStr s => Some s | _ => None end) l)
  | _ => []
  end.

Section Check.
Context (node_id : string) (node : GateNode).
Let req : Requirements := requirements (gn_contract node).

Definition denied (deny : pyval) (evaluated : list pyctx) : PolicyCheckResult :=
  mkCheckResult node_id false deny VNone evaluated.

(** 0. Package trust. *)
Definition gate_trust : gate := fun '(ctx, evaluated) =>
  let '(observed, origin) := observed_trust node in
  let required := if str_truthy (trust_level req) then trust_level req else "trusted" in
  let ctx := dset "required_trust_level" (VStr required)
               (dset "origin" (VStr origin)
                  (dset "observed_trust_level" (VStr observed) ctx)) in
  if is_privileged_node (gn_contract node) then
    ds ← evaluate engine TRUST_LEVEL node_id ctx;
    let deny := if nonempty ds then get_denial ds
                else VStr "No trust-level policy decision for privileged node" in
    let ev := bind_blocking (deny_first ds)
      [ ("type", VStr "package_trust");
        ("policy_type", VStr (PolicyType_value TRUST_LEVEL));
        ("observed_trust_level", VStr observed);
        ("required_trust_level", VStr required);
        ("origin", VStr origin);
        ("is_privileged", VBool true);
        ("decision", decision_word deny "allowed");
        ("rule_ids", rule_ids ds);
        ("policy_ids", policy_ids ds) ] in
    let evaluated := evaluated ++ [ev] in
    if truthy deny then Ok (Return (denied deny evaluated))
    else Ok (Continue (ctx, evaluated))
  else Ok (Continue (ctx, evaluated)).

(** 1. Tool access. *)
Definition gate_tools : gate := fun '(ctx, evaluated) =>
  if nonempty (tools_required req) then
    let declared := py_set (tools_required req) in
    let runtime_allowed := ctx_names "allowed_tools" ctx in
    let ungranted := set_diff declared runtime_allowed in
    let ctx :=
      dset "has_ungranted_tools" (VBool (nonempty ungranted))
      (dset "ungranted_tool_count" (VInt (Z.of_nat (length ungranted)))
      (dset "ungranted_tools" (strs (list_of_set ungranted))
      (dset "allowed_tools" (strs (list_of_set runtime_allowed))
      (dset "tools_required_count" (VInt (Z.of_nat (length declared)))
      (dset "tools_required" (strs (list_of_set declared)) ctx))))) in
    ds ← evaluate engine TOOL_ACCESS node_id ctx;
    let deny := if nonempty ds then get_denial ds
                else VStr "No tool-access policy decision for declared tool requirement" in
    let ev := bind_blocking (deny_first ds)
      [ ("type", VStr "tool_access");
        ("policy_type", VStr (PolicyType_value TOOL_ACCESS));
        ("tools_required", strs (list_of_set declared));
        ("allowed_tools", strs (list_of_set runtime_allowed));
        ("ungranted_tools", strs (list_of_set ungranted));
        ("decision", decision_word deny "allowed");
        ("rule_ids", rule_ids ds);
        ("policy_ids", policy_ids ds) ] in
    let evaluated := evaluated ++ [ev] in
    if truthy deny then Ok (Return (denied deny evaluated))
    else Ok (Continue (ctx, evaluated))
  else Ok (Continue (ctx, evaluated)).

(** 2. Model access. *)
Definition gate_model : gate := fun '(ctx, evaluated) =>
  if model_required req then
    ds ← evaluate engine MODEL_ACCESS node_id ctx;
    let deny := get_denial ds in
    let evaluated := evaluated ++
      [ [ ("type", VStr "model_access"); ("decision", decision_word deny "allowed");
          ("rule_ids", rule_ids ds) ] ] in
    if truthy deny then Ok (Return (denied deny evaluated))
    else Ok (Continue (ctx, evaluated))
  else Ok (Continue (ctx, evaluated)).

(** 1b. Adapter access: a subset grant is enough. *)
Definition gate_adapters : gate := fun '(ctx, evaluated) =>
  if nonempty (adapters_required req) then
    let declared := py_set (adapters_required req) in
    let runtime := ctx_names "allowed_adapters" ctx in
    let granted := List.filter (fun a => mem a runtime) declared in
    let ungranted := set_diff declared runtime in
    let ctx :=
      dset "has_no_granted_adapters" (VBool (Nat.eqb (length granted) 0))
      (dset "has_ungranted_adapters" (VBool (nonempty ungranted))
      (dset "ungranted_adapter_count" (VInt (Z.of_nat (length ungranted)))
      (dset "ungranted_adapters" (strs (list_of_set ungranted))
      (dset "granted_adapter_count" (VInt (Z.of_nat (length granted)))
      (dset "granted_adapters" (strs (list_of_set granted))
      (dset "allowed_adapters" (strs (list_of_set runtime))
      (dset "adapters_required_count" (VInt (Z.of_nat (length declared)))
      (dset "adapters_required" (strs (list_of_set declared)) ctx)))))))) in
    ds ← evaluate engine ADAPTER_ACCESS node_id ctx;
    let deny := if nonempty ds then get_denial ds
                else VStr "No adapter-access policy decision for declared adapter requirement" in
    let ev := bind_blocking (deny_first ds)
      [ ("type", VStr "adapter_access");
        ("policy_type", VStr (PolicyType_value ADAPTER_ACCESS));
        ("adapters_required", strs (list_of_set declared));
        ("allowed_adapters", strs (list_of_set runtime));
        ("granted_adapters", strs (list_of_set granted));
        ("ungranted_adapters", strs (list_of_set ungranted));
        ("decision", decision_word deny "allowed");
        ("rule_ids", rule_ids ds);
        ("policy_ids", policy_ids ds) ] in
    let evaluated := evaluated ++ [ev] in
    if truthy deny then Ok (Return (denied deny evaluated))
    else Ok (Continue (ctx, evaluated))
  else Ok (Continue (ctx, evaluated)).

(** 3. Memory write: only for the access level spelled exactly [write]. *)
Definition gate_memory_write : gate := fun '(ctx, evaluated) =>
  if memory_access req =s? "write" then
    ds ← evaluate engine MEMORY_WRITE node_id ctx;
    let deny := get_denial ds in
    let approval := get_approval_required ds in
    let evaluated := evaluated ++
      [ [ ("type", VStr "memory_access"); ("decision", decision_word3 deny approval);
          ("rule_ids", rule_ids ds) ] ] in
    if truthy deny then Ok (Return (denied deny evaluated))
    else Ok (Continue (ctx, evaluated))
  else Ok (Continue (ctx, evaluated)).

(** [deny or approval] *)
Definition py_or (a b : pyval) : pyval := if truthy a then a else b.

(** 3a. Memory read. *)
Definition gate_memory_read : gate := fun '(ctx, evaluated) =>
  if mem (memory_access req) ["read"; "read_write"] then
    ds ← evaluate engine MEMORY_READ node_id ctx;
    let approval := get_approval_required ds in
    let deny := if nonempty ds then get_denial ds
                else VStr "No memory-read policy decision for declared memory access" in
    let ev := bind_blocking (deny_or_approval_first ds)
      [ ("type", VStr "memory_read");
        ("policy_type", VStr (PolicyType_value MEMORY_READ));
        ("memory_access", VStr (memory_access req));
        ("decision", decision_word3 deny approval);
        ("rule_ids", rule_ids ds);
        ("policy_ids", policy_ids ds);
        ("actions", actions ds) ] in
    let evaluated := evaluated ++ [ev] in
    if truthy deny || truthy approval then
      Ok (Return (denied (py_or deny approval) evaluated))
    else Ok (Continue (ctx, evaluated))
  else Ok (Continue (ctx, evaluated)).

(** The declared effects in canonical form; unrecognised ones are skipped. *)
Definition canonical_effects (ses : list SideEffect) : list string :=
  fold_left (fun acc se =>
    match normalize_side_effect_type (effect_type se) with
    | Some canon => if str_truthy canon then add_new canon acc else acc
    | None => acc
    end) ses [].

(** 3b. Declared side effects. *)
Definition gate_side_effects : gate := fun '(ctx, evaluated) =>
  if nonempty (side_effects (gn_contract node)) then
    let se_types := canonical_effects (side_effects (gn_contract node)) in
    let ctx := dset "side_effect_types" (strs se_types) ctx in
    ds ← evaluate engine SIDE_EFFECT node_id ctx;
    let approval := get_approval_required ds in
    let deny := if nonempty ds then get_denial ds
                else VStr "No side-effect policy decision for declared side effects" in
    let ev := bind_blocking (deny_or_approval_first ds)
      [ ("type", VStr "side_effect");
        ("policy_type", VStr (PolicyType_value SIDE_EFFECT));
        ("side_effect_types", strs se_types);
        ("decision", decision_word3 deny approval);
        ("rule_ids", rule_ids ds);
        ("policy_ids", policy_ids ds);
        ("actions", actions ds) ] in
    let evaluated := evaluated ++ [ev] in
    if truthy deny || truthy approval then
      Ok (Return (denied (py_or deny approval) evaluated))
    else Ok (Continue (ctx, evaluated))
  else Ok (Continue (ctx, evaluated)).

(** 4. Cost budget. *)
Definition gate_cost : gate := fun '(ctx, evaluated) =>
  if model_required req then
    let cost_so_far := get_accumulated_cost node_id in
    let ctx := dset "accumulated_cost" cost_so_far ctx in
    let ctx := dset "max_cost_usd" (dget_or "max_cost_usd" (VFloat (fround_int 1)) ctx) ctx in
    ds ← evaluate engine COST_LIMIT node_id ctx;
    let deny := get_denial ds in
    let evaluated := evaluated ++
      [ [ ("type", VStr "cost_limit"); ("accumulated", cost_so_far);
          ("budget", context_get "max_cost_usd" ctx);
          ("decision", decision_word deny "ok"); ("rule_ids", rule_ids ds) ] ] in
    if truthy deny then Ok (Return (denied deny evaluated))
    else Ok (Continue (ctx, evaluated))
  else Ok (Continue (ctx, evaluated)).

Definition gates : list gate :=
  [ gate_trust; gate_tools; gate_model; gate_adapters; gate_memory_write;
    gate_memory_read; gate_side_effects; gate_cost ].

Definition check : res float_error PolicyCheckResult :=
  o ← run_gates gates (build_context node_id req, []);
  match o with
  | Continue (_, evaluated) => Ok (mkCheckResult node_id true VNone VNone evaluated)
  | Return r => Ok r
  end.
End Check.
End PolicyGate.

(** ** What the default policies decide *)

(** The decisions of the one default policy of a type that applies to every node. *)
Definition star_decisions (p : Policy) (ctx : pyctx) : res float_error (list PolicyDecision) :=
  m ← first_match (sorted_rules (rules p)) ctx;
  Ok (match m with Some r => [decision_of p r] | None => [] end).

Lemma default_engine_policies : map snd default_engine = DEFAULT_POLICIES.
Proof. vm_compute. reflexivity. Qed.

Lemma evaluate_default t p node_id ctx :
  List.find (fun q => bool_decide (policy_type q = t) && (target q =s? "*")) DEFAULT_POLICIES = Some p ->
  evaluate default_engine t node_id ctx = star_decisions p ctx.
Proof.
  intros H. unfold evaluate. rewrite default_engine_policies.
  unfold star_decisions, DEFAULT_POLICIES, evaluate_policies, applies in *.
  destruct t; try discriminate H; injection H as <-;
    cbn [policy_type TOOL_ACCESS_POLICY MODEL_ACCESS_POLICY
      MEMORY_WRITE_POLICY MEMORY_READ_POLICY COST_LIMIT_POLICY TRUST_LEVEL_POLICY
      SIDE_EFFECT_POLICY ADAPTER_ACCESS_POLICY bool_decide decide decide_rel PolicyType_eq_dec];
    rewrite ?andb_false_r; cbn [target String.eqb Ascii.eqb Bool.eqb andb orb
      TOOL_ACCESS_POLICY MODEL_ACCESS_POLICY
      MEMORY_WRITE_POLICY MEMORY_READ_POLICY COST_LIMIT_POLICY TRUST_LEVEL_POLICY
      SIDE_EFFECT_POLICY ADAPTER_ACCESS_POLICY];
    destruct (first_match _ ctx) as [[]|]; reflexivity.
Qed.

(** Symbolic execution of the default rules. *)
Ltac dget_simpl :=
  repeat (rewrite dget_dset_same || rewrite dget_dset_other by discriminate).

Lemma context_get_dget k ctx v : dget k ctx = Some v -> context_get k ctx = v.
Proof. unfold context_get. by intros ->. Qed.

Definition blocks (dflt : string) (ds : list PolicyDecision) : bool :=
  truthy (if nonempty ds then get_denial ds else VStr dflt).

Lemma trust_default ctx o :
  dget "observed_trust_level" ctx = Some (VStr o) ->
  exists ds, star_decisions TRUST_LEVEL_POLICY ctx = Ok ds /\
    blocks "No trust-level policy decision for privileged node" ds
    = negb (mem o ["built_in"; "local_trusted"]).
Proof.
  intros H%context_get_dget.
  change (star_decisions TRUST_LEVEL_POLICY ctx) with
    (m ← first_match (rules TRUST_LEVEL_POLICY) ctx;
     Ok (match m with Some r => [decision_of TRUST_LEVEL_POLICY r] | None => [] end)).
  cbn [rules TRUST_LEVEL_POLICY first_match condition].
  unfold evaluate_condition.
  change (parse_condition "observed_trust_level in [local_untrusted, remote_untrusted, unknown]")
    with (CIn "observed_trust_level" ["local_untrusted"; "remote_untrusted"; "unknown"]).
  change (parse_condition "observed_trust_level in [built_in, local_trusted]")
    with (CIn "observed_trust_level" ["built_in"; "local_trusted"]).
  cbn [eval_cond]. rewrite H. cbn [py_str mbind res_bind].
  destruct (mem o ["local_untrusted"; "remote_untrusted"; "unknown"]) eqn:E1.
  - eexists. split; [reflexivity|]. bool_prop.
    assert (mem o ["built_in"; "local_trusted"] = false) as -> by
      (apply mem_false; set_solver). reflexivity.
  - destruct (mem o ["built_in"; "local_trusted"]) eqn:E2;
      (eexists; split; [reflexivity|]; reflexivity).
Qed.

(** A rule [flag == True] that comes first denies when the flag is set. *)
Lemma flag_deny p flag r rest ctx ds dflt :
  rules p = r :: rest -> sorted_rules (rules p) = rules p ->
  parse_condition (condition r) = CCompare OEq flag "True" ->
  rule_action r = DENY -> truthy (dget_or "reason" VNone (rule_parameters r)) = true ->
  dget flag ctx = Some (VBool true) -> dget "True" ctx = None ->
  star_decisions p ctx = Ok ds -> blocks dflt ds = true.
Proof.
  intros Hr Hs Hp Ha Ht Hf HT. unfold star_decisions. rewrite Hs, Hr. cbn [first_match].
  unfold evaluate_condition. rewrite Hp. cbn [eval_cond].
  rewrite (context_get_dget _ _ _ Hf). unfold dget_or at 1. rewrite HT.
  cbn. intros [= <-]. unfold blocks, get_denial, first_action. cbn. rewrite Ha. cbn.
  unfold reason_or. cbn. unfold dget_or in *.
  rewrite bool_decide_eq_true_2 by done. cbn.
  by destruct (dget "reason" (rule_parameters r)).
Qed.

Lemma tools_denied ctx ds dflt :
  dget "has_ungranted_tools" ctx = Some (VBool true) -> dget "True" ctx = None ->
  star_decisions TOOL_ACCESS_POLICY ctx = Ok ds -> blocks dflt ds = true.
Proof. intros. by eapply (flag_deny TOOL_ACCESS_POLICY "has_ungranted_tools"). Qed.

Lemma adapters_denied ctx ds dflt :
  dget "has_no_granted_adapters" ctx = Some (VBool true) -> dget "True" ctx = None ->
  star_decisions ADAPTER_ACCESS_POLICY ctx = Ok ds -> blocks dflt ds = true.
Proof. intros. by eapply (flag_deny ADAPTER_ACCESS_POLICY "has_no_granted_adapters"). Qed.

Lemma cost_denied ctx ds acc cap :
  dget "accumulated_cost" ctx = Some acc -> dget "max_cost_usd" ctx = Some (VFloat cap) ->
  star_decisions COST_LIMIT_POLICY ctx = Ok ds -> truthy (get_denial ds) = false ->
  forall f, py_float acc = Ok f -> fgt f cap = false.
Proof.
  intros Ha Hc Hs Hd f Hf.
  change (star_decisions COST_LIMIT_POLICY ctx) with
    (m ← first_match (rules COST_LIMIT_POLICY) ctx;
     Ok (match m with Some r => [decision_of COST_LIMIT_POLICY r] | None => [] end)) in Hs.
  cbn [rules COST_LIMIT_POLICY first_match condition] in Hs. unfold evaluate_condition in Hs.
  change (parse_condition "accumulated_cost > max_cost_usd")
    with (CCompare OGt "accumulated_cost" "max_cost_usd") in Hs.
  cbn [eval_cond] in Hs. rewrite (context_get_dget _ _ _ Ha) in Hs.
  unfold dget_or in Hs. rewrite Hc in Hs.
  destruct acc; try discriminate Hf; cbn [is_none eval_compare] in Hs;
    unfold compare_floats in Hs; rewrite Hf in Hs; cbn [py_float mbind res_bind] in Hs;
    (destruct (fgt f cap); [|done]; injection Hs as <-; discriminate Hd).
Qed.

(** ** Passing a gate *)

(** Two contexts agree on the keys of [ks]. *)
Definition agrees (ks : list string) (c c' : pyctx) : Prop :=
  forall k, mem k ks = true -> dget k c = dget k c'.

Lemma agrees_refl ks c : agrees ks c c.
Proof. intros k _. reflexivity. Qed.

Lemma agrees_dset ks k v c c' :
  mem k ks = false -> agrees ks c c' -> agrees ks (dset k v c) c'.
Proof.
  intros Hk H k' Hk'. rewrite dget_dset_other; [by apply H|]. intros ->. congruence.
Qed.

(** What a state that has passed [g] satisfies. *)
Definition passes (g : gate) (pre : pyctx -> Prop) (fact : Prop) (post : pyctx -> Prop) : Prop :=
  forall ctx ev ctx' ev', pre ctx -> g (ctx, ev) = Ok (Continue (ctx', ev')) ->
    fact /\ post ctx'.

Lemma passes_weaken g pre pre' fact fact' post :
  passes g pre fact post -> (forall c, pre' c -> pre c) -> (fact -> fact') ->
  passes g pre' fact' post.
Proof. unfold passes. naive_solver. Qed.

Lemma passes_cons g gs pre mid post fact facts :
  passes g pre fact mid -> passes (run_gates gs) mid facts post ->
  passes (run_gates (g :: gs)) pre (fact /\ facts) post.
Proof.
  intros Hg Hgs ctx ev ctx' ev' Hpre H. cbn [run_gates] in H. apply bind_ok in H as (o & Ho & H).
  destruct o as [[c e]|]; [|discriminate].
  destruct (Hg _ _ _ _ Hpre Ho) as [Hf Hm]. destruct (Hgs _ _ _ _ Hm H). tauto.
Qed.

Lemma passes_nil pre : passes (run_gates []) pre True pre.
Proof. intros ctx ev ctx' ev' Hpre [= <- <-]. done. Qed.

(** A gate that only returns results that are refused. *)
Definition refuses (g : gate) : Prop :=
  forall st r, g st = Ok (Return r) -> allowed r = false.

(** Take an equation [gate st = Ok o] apart: the guard, the evaluation, the verdict. *)
Ltac gate_cases H :=
  cbv beta iota zeta in H;
  lazymatch type of H with
  | (if ?b then _ else _) = Ok _ =>
      destruct b eqn:?;
      [ apply bind_ok in H;
        let ds := fresh "ds" in let Hds := fresh "Hds" in
        destruct H as (ds & Hds & H);
        lazymatch type of H with
        | (if ?b' then _ else _) = Ok _ => destruct b' eqn:?
        end
      | ]
  end.

Ltac gate_refuses :=
  let H := fresh in intros [ctx ev] r H; unfold gate_trust, gate_tools, gate_model,
    gate_adapters, gate_memory_write, gate_memory_read, gate_side_effects, gate_cost in H;
  try (destruct (observed_trust _) in H);
  gate_cases H; try discriminate; injection H as <-; reflexivity.

Section GateFacts.
Context (engine : PolicyEngine).
Context (get_capabilities : option (string -> option Capabilities)).
Context (get_trace_events : option (list (string * pyfloat))).
Context (get_step : option Z).
Context (py_sum : list pyfloat -> pyval).
Context (list_of_set : list string -> list string).
Context (node_id : string) (node : GateNode).

Notation req := (requirements (gn_contract node)).
Notation ctx0 := (build_context get_capabilities get_trace_events get_step py_sum node_id req).

Lemma gates_refuse :
  Forall refuses (gates engine get_trace_events py_sum list_of_set node_id node).
Proof. repeat constructor; gate_refuses. Qed.

Lemma run_gates_refuse gs st r :
  Forall refuses gs -> run_gates gs st = Ok (Return r) -> allowed r = false.
Proof.
  intros Hgs. revert st. induction Hgs as [|g gs Hg Hgs IH]; intros st H; [discriminate|].
  cbn [run_gates] in H. apply bind_ok in H as ([st'|r'] & Ho & H); [by eapply IH|].
  injection H as <-. by eapply Hg.
Qed.

(** The keys of the initial context that later gates read. *)
Definition late_keys : list string :=
  ["memory_access"; "model_required"; "max_cost_usd"; "True"].
Definition adapter_keys : list string := "allowed_adapters" :: late_keys.
Definition tool_keys : list string := "allowed_tools" :: adapter_keys.

Lemma agrees_sub ks ks' c c' :
  (forall k, mem k ks' = true -> mem k ks = true) -> agrees ks c c' -> agrees ks' c c'.
Proof. intros Hs H k Hk. apply H. auto. Qed.

Ltac keep := repeat (apply agrees_dset; [reflexivity|]); try done.
Ltac shrink := eapply agrees_sub; [|eassumption]; intros k Hk;
  apply mem_true; apply mem_true in Hk; unfold tool_keys, adapter_keys in *; set_solver.

(** The evaluation a gate of type [t] passed on a context with the property [P]. *)
Definition cleared (t : PolicyType) (dflt : string) (P : pyctx -> Prop) : Prop :=
  exists ctx ds, P ctx /\ evaluate engine t node_id ctx = Ok ds /\ blocks dflt ds = false.

Definition trust_fact : Prop :=
  is_privileged_node (gn_contract node) = true ->
  cleared TRUST_LEVEL "No trust-level policy decision for privileged node"
    (fun ctx => dget "observed_trust_level" ctx = Some (VStr (fst (observed_trust node)))).

Lemma passes_trust :
  passes (gate_trust engine node_id node) (fun c => agrees tool_keys c ctx0)
    trust_fact (fun c => agrees tool_keys c ctx0).
Proof.
  intros ctx ev ctx' ev' Hpre H. unfold gate_trust in H. unfold trust_fact.
  destruct (observed_trust node) as [o orig]. gate_cases H; try discriminate;
    injection H as <- <-; split; try discriminate; [|keep|keep].
  intros _. eexists _, _. split; [|split; [exact Hds | exact Heqb0]]. by dget_simpl.
Qed.

Lemma ctx_names_strs k l c :
  dget k c = Some (strs l) -> ctx_names k c = py_set l.
Proof.
  intros H%context_get_dget. unfold ctx_names. rewrite H. unfold strs. f_equal. clear H.
  induction l as [|x l IH]; [done|]. cbn. f_equal. exact IH.
Qed.

Definition granted_names (f : Capabilities -> list string) : list string :=
  match caps_of get_capabilities node_id with Some c => f c | None => [] end.

Definition ungranted_tools : list string :=
  set_diff (py_set (tools_required req)) (py_set (granted_names allowed_tools)).

Definition tools_fact : Prop :=
  tools_required req <> [] ->
  cleared TOOL_ACCESS "No tool-access policy decision for declared tool requirement"
    (fun ctx => dget "has_ungranted_tools" ctx = Some (VBool (nonempty ungranted_tools)) /\
                dget "True" ctx = None).

Lemma passes_tools :
  passes (gate_tools engine list_of_set node_id node) (fun c => agrees tool_keys c ctx0)
    tools_fact (fun c => agrees adapter_keys c ctx0).
Proof.
  intros ctx ev ctx' ev' Hpre H. unfold gate_tools in H.
  assert (Ht : ctx_names "allowed_tools" ctx = py_set (granted_names allowed_tools)).
  { apply ctx_names_strs. by rewrite (Hpre "allowed_tools" eq_refl). }
  rewrite Ht in H. unfold tools_fact, ungranted_tools.
  gate_cases H; try discriminate; injection H as <- <-; split.
  - intros _. eexists _, _. split; [|split; [exact Hds | exact Heqb0]]. dget_simpl.
    split; [done|]. by rewrite (Hpre "True" eq_refl).
  - keep. shrink.
  - intros Hne. by apply nonempty_false in Heqb.
  - shrink.
Qed.

(** The evaluation a gate passed that does not insist on a decision. *)
Definition undenied (t : PolicyType) (P : pyctx -> Prop) : Prop :=
  exists ctx ds, P ctx /\ evaluate engine t node_id ctx = Ok ds /\ truthy (get_denial ds) = false.

Definition model_fact : Prop :=
  model_required req = true ->
  undenied MODEL_ACCESS (fun ctx => dget "model_required" ctx = Some (VBool true)).

Lemma passes_model :
  passes (gate_model engine node_id node) (fun c => agrees adapter_keys c ctx0)
    model_fact (fun c => agrees adapter_keys c ctx0).
Proof.
  intros ctx ev ctx' ev' Hpre H. unfold gate_model in H. unfold model_fact.
  gate_cases H; try discriminate; injection H as <- <-; split; try done.
  intros Hm. eexists _, _. split; [|split; [exact Hds | exact Heqb0]].
  rewrite (Hpre "model_required" eq_refl). unfold build_context. cbn. by rewrite Heqb.
Qed.

Definition granted_adapters : list string :=
  List.filter (fun a => mem a (py_set (granted_names allowed_adapters)))
    (py_set (adapters_required req)).

Definition adapters_fact : Prop :=
  adapters_required req <> [] ->
  cleared ADAPTER_ACCESS "No adapter-access policy decision for declared adapter requirement"
    (fun ctx => dget "has_no_granted_adapters" ctx
                = Some (VBool (Nat.eqb (length granted_adapters) 0)) /\
                dget "True" ctx = None).

Lemma passes_adapters :
  passes (gate_adapters engine list_of_set node_id node) (fun c => agrees adapter_keys c ctx0)
    adapters_fact (fun c => agrees late_keys c ctx0).
Proof.
  intros ctx ev ctx' ev' Hpre H. unfold gate_adapters in H.
  assert (Ht : ctx_names "allowed_adapters" ctx = py_set (granted_names allowed_adapters)).
  { apply ctx_names_strs. by rewrite (Hpre "allowed_adapters" eq_refl). }
  rewrite Ht in H. unfold adapters_fact, granted_adapters.
  gate_cases H; try discriminate; injection H as <- <-; split.
  - intros _. eexists _, _. split; [|split; [exact Hds | exact Heqb0]]. dget_simpl.
    split; [done|]. by rewrite (Hpre "True" eq_refl).
  - keep. shrink.
  - intros Hne. by apply nonempty_false in Heqb.
  - shrink.
Qed.

Definition write_fact : Prop :=
  memory_access req = "write" ->
  undenied MEMORY_WRITE (fun ctx => dget "memory_access" ctx = Some (VStr "write")).

Lemma passes_memory_write :
  passes (gate_memory_write engine node_id node) (fun c => agrees late_keys c ctx0)
    write_fact (fun c => agrees late_keys c ctx0).
Proof.
  intros ctx ev ctx' ev' Hpre H. unfold gate_memory_write in H. unfold write_fact.
  gate_cases H; try discriminate; injection H as <- <-; split; try done.
  - intros Hm. eexists _, _. split; [|split; [exact Hds | exact Heqb0]].
    rewrite (Hpre "memory_access" eq_refl). unfold build_context. cbn -[memory_access]. by rewrite Hm.
  - intros Hm. by rewrite Hm in Heqb.
Qed.

(** Cleared, and with no approval outstanding. *)
Definition approved (t : PolicyType) (dflt : string) (P : pyctx -> Prop) : Prop :=
  exists ctx ds, P ctx /\ evaluate engine t node_id ctx = Ok ds /\ blocks dflt ds = false /\
    truthy (get_approval_required ds) = false.

Definition read_fact : Prop :=
  memory_access req = "read" \/ memory_access req = "read_write" ->
  approved MEMORY_READ "No memory-read policy decision for declared memory access"
    (fun ctx => dget "memory_access" ctx = Some (VStr (memory_access req))).

Lemma passes_memory_read :
  passes (gate_memory_read engine node_id node) (fun c => agrees late_keys c ctx0)
    read_fact (fun c => agrees late_keys c ctx0).
Proof.
  intros ctx ev ctx' ev' Hpre H. unfold gate_memory_read in H. unfold read_fact.
  gate_cases H; try discriminate; injection H as <- <-; split; try done.
  - intros Hm. bool_prop. eexists _, _. split; [|split; [exact Hds | split; eassumption]].
    rewrite (Hpre "memory_access" eq_refl). unfold build_context. cbn.
    by destruct Hm as [-> | ->].
  - intros Hm. apply mem_false in Heqb. set_solver.
Qed.

Definition effects_fact : Prop :=
  side_effects (gn_contract node) <> [] ->
  approved SIDE_EFFECT "No side-effect policy decision for declared side effects"
    (fun ctx => dget "side_effect_types" ctx
                = Some (strs (canonical_effects (side_effects (gn_contract node))))).

Lemma passes_side_effects :
  passes (gate_side_effects engine node_id node) (fun c => agrees late_keys c ctx0)
    effects_fact (fun c => agrees late_keys c ctx0).
Proof.
  intros ctx ev ctx' ev' Hpre H. unfold gate_side_effects in H. unfold effects_fact.
  gate_cases H; try discriminate; injection H as <- <-; split; try done.
  - intros _. bool_prop. eexists _, _. split; [|split; [exact Hds | split; eassumption]].
    by dget_simpl.
  - keep.
  - intros Hne. by apply nonempty_false in Heqb.
Qed.

Definition node_budget : pyfloat :=
  match caps_of get_capabilities node_id with
  | Some c => caps_max_cost_usd c
  | None => fround_int 1
  end.

Definition cost_fact : Prop :=
  model_required req = true ->
  exists ctx ds,
    dget "accumulated_cost" ctx
      = Some (get_accumulated_cost get_trace_events py_sum node_id) /\
    dget "max_cost_usd" ctx = Some (VFloat node_budget) /\
    evaluate engine COST_LIMIT node_id ctx = Ok ds /\ truthy (get_denial ds) = false.

Lemma passes_cost :
  passes (gate_cost engine get_trace_events py_sum node_id node)
    (fun c => agrees late_keys c ctx0) cost_fact (fun _ => True).
Proof.
  intros ctx ev ctx' ev' Hpre H. unfold gate_cost in H. unfold cost_fact.
  gate_cases H; try discriminate; injection H as <- <-; split; try done.
  intros _. eexists _, _. split_and!; [| |exact Hds | exact Heqb0].
  - by dget_simpl.
  - dget_simpl. unfold dget_or. dget_simpl. by rewrite (Hpre "max_cost_usd" eq_refl).
Qed.

Lemma passes_gates :
  passes (run_gates (gates engine get_trace_events py_sum list_of_set node_id node))
    (fun c => agrees tool_keys c ctx0)
    (trust_fact /\ tools_fact /\ model_fact /\ adapters_fact /\ write_fact /\ read_fact /\
     effects_fact /\ cost_fact /\ True) (fun _ => True).
Proof.
  unfold gates.
  eapply passes_cons; [apply passes_trust|].
  eapply passes_cons; [apply passes_tools|].
  eapply passes_cons; [apply passes_model|].
  eapply passes_cons; [apply passes_adapters|].
  eapply passes_cons; [apply passes_memory_write|].
  eapply passes_cons; [apply passes_memory_read|].
  eapply passes_cons; [apply passes_side_effects|].
  eapply passes_cons; [apply passes_cost|]. apply passes_nil.
Qed.

Lemma check_allowed_facts r :
  check engine get_capabilities get_trace_events get_step py_sum list_of_set node_id node = Ok r ->
  allowed r = true ->
  trust_fact /\ tools_fact /\ model_fact /\ adapters_fact /\ write_fact /\ read_fact /\ effects_fact /\ cost_fact.
Proof.
  unfold check. intros H Ha. apply bind_ok in H as ([[c e]|r'] & Ho & H).
  - destruct (passes_gates _ _ _ _ (agrees_refl _ _) Ho) as [? _]. tauto.
  - injection H as <-. rewrite (run_gates_refuse _ _ _ gates_refuse Ho) in Ha. done.
Qed.
End GateFacts.

(** *** What the operator's rules decided, read off the decisions *)

(** No decision takes this action, unless the first that does was given an
    empty reason: the gate tests the reason and not the action. *)
Definition none_takes (a : PolicyAction) (ds : list PolicyDecision) : Prop :=
  forall before d after, ds = before ++ d :: after -> d_action d = a -> (forall x, x ∈ before -> d_action x <> a) ->
    exists v, dget "reason" (d_parameters d) = Some v /\ truthy v = false.

Lemma empty_reason prefix d : str_truthy prefix = true -> truthy (reason_or prefix d) = false ->
  exists v, dget "reason" (d_parameters d) = Some v /\ truthy v = false.
Proof.
  unfold reason_or, dget_or. intros Hp. destruct (dget "reason" (d_parameters d)) as [v|]; [by exists v|].
  destruct (str_truthy (d_reason d)) eqn:E; cbn; [by rewrite E|]. by destruct prefix.
Qed.

Lemma none_takes_first a ds :
  (forall d, first_action a ds = Some d -> exists v, dget "reason" (d_parameters d) = Some v /\ truthy v = false) ->
  none_takes a ds.
Proof.
  intros H before d after -> Hd Hb. apply H. clear H. unfold first_action. induction before as [|x before IH]; cbn [app List.find].
  - by rewrite bool_decide_eq_true_2.
  - rewrite bool_decide_eq_false_2 by (apply Hb; left). apply IH. intros y Hy. apply Hb. by right.
Qed.

Lemma denial_none ds : truthy (get_denial ds) = false -> none_takes DENY ds.
Proof.
  intros H. apply none_takes_first. intros d Hd. unfold get_denial in H. rewrite Hd in H. eapply empty_reason; [|exact H]. reflexivity.
Qed.

Lemma approval_none ds : truthy (get_approval_required ds) = false -> none_takes REQUIRE_APPROVAL ds.
Proof.
  intros H. apply none_takes_first. intros d Hd. unfold get_approval_required in H. rewrite Hd in H. eapply empty_reason; [|exact H]. reflexivity.
Qed.

Lemma blocks_none dflt ds : str_truthy dflt = true -> blocks dflt ds = false -> ds <> [] /\ none_takes DENY ds.
Proof.
  unfold blocks. intros Hd H. destruct (nonempty ds) eqn:E; [|cbn in H; congruence].
  apply nonempty_true in E. split; [done | by apply denial_none].
Qed.

(** The policies of this type were consulted on such a context: none denied. *)
Definition not_denied engine node_id (t : PolicyType) (P : pyctx -> Prop) : Prop :=
  exists ctx ds, P ctx /\ evaluate engine t node_id ctx = Ok ds /\ none_takes DENY ds.

(** And there was a decision. *)
Definition granted engine node_id (t : PolicyType) (P : pyctx -> Prop) : Prop :=
  exists ctx ds, P ctx /\ evaluate engine t node_id ctx = Ok ds /\ ds <> [] /\ none_takes DENY ds.

(** And none asked for approval. *)
Definition granted_outright engine node_id (t : PolicyType) (P : pyctx -> Prop) : Prop :=
  exists ctx ds, P ctx /\ evaluate engine t node_id ctx = Ok ds /\ ds <> [] /\ none_takes DENY ds /\
    none_takes REQUIRE_APPROVAL ds.

Lemma cleared_granted engine node_id t dflt (P : pyctx -> Prop) :
  str_truthy dflt = true -> cleared engine node_id t dflt P -> granted engine node_id t P.
Proof. intros Hd (ctx & ds & Hp & He & Hb). destruct (blocks_none _ _ Hd Hb). by exists ctx, ds. Qed.

Lemma approved_granted engine node_id t dflt (P : pyctx -> Prop) :
  str_truthy dflt = true -> approved engine node_id t dflt P -> granted_outright engine node_id t P.
Proof.
  intros Hd (ctx & ds & Hp & He & Hb & Ha). destruct (blocks_none _ _ Hd Hb). apply approval_none in Ha. by exists ctx, ds.
Qed.

Lemma undenied_none engine node_id t (P : pyctx -> Prop) : undenied engine node_id t P -> not_denied engine node_id t P.
Proof. intros (ctx & ds & Hp & He & Hd). apply denial_none in Hd. by exists ctx, ds. Qed.

(** C30: Fail-closed authorization.  A node the gate allows has a policy
    decision, and none that denies, for its privilege (on the trust that was
    observed), for its tools and for its adapters (on what it lacks of them);
    for the memory it reads and for its side effects (on their canonical
    types) moreover none that asks for approval.  For its model, its costs (on
    what it has spent and may spend) and the memory it writes - declared as
    [write] exactly - no decision denies, but none is required.  Throughout, a
    decision whose own reason is empty does not count: the gate tests the
    reason. *)
Theorem gate_fail_closed engine caps events step py_sum list_of_set node_id node r :
  check engine caps events step py_sum list_of_set node_id node = Ok r ->
  allowed r = true ->
  let req := requirements (gn_contract node) in
  let has k v := fun ctx : pyctx => dget k ctx = Some v in
  (is_privileged_node (gn_contract node) = true ->
     granted engine node_id TRUST_LEVEL (has "observed_trust_level" (VStr (fst (observed_trust node))))) /\
  (tools_required req <> [] ->
     granted engine node_id TOOL_ACCESS (has "has_ungranted_tools" (VBool (nonempty (ungranted_tools caps node_id node))))) /\
  (adapters_required req <> [] ->
     granted engine node_id ADAPTER_ACCESS
       (has "has_no_granted_adapters" (VBool (Nat.eqb (length (granted_adapters caps node_id node)) 0)))) /\
  (memory_access req = "read" \/ memory_access req = "read_write" ->
     granted_outright engine node_id MEMORY_READ (has "memory_access" (VStr (memory_access req)))) /\
  (side_effects (gn_contract node) <> [] ->
     granted_outright engine node_id SIDE_EFFECT
       (has "side_effect_types" (strs (canonical_effects (side_effects (gn_contract node)))))) /\
  (model_required req = true ->
     not_denied engine node_id MODEL_ACCESS (has "model_required" (VBool true)) /\
     not_denied engine node_id COST_LIMIT (fun ctx =>
       has "accumulated_cost" (get_accumulated_cost events py_sum node_id) ctx /\
       has "max_cost_usd" (VFloat (node_budget caps node_id)) ctx)) /\
  (memory_access req = "write" ->
     not_denied engine node_id MEMORY_WRITE (has "memory_access" (VStr "write"))).
Proof.
  intros H Ha. apply check_allowed_facts in H as (H1 & H2 & H3 & H4 & H5 & H6 & H7 & H8); [|done]. cbv zeta. split_and!.
  - intros Hp. eapply cleared_granted; [|exact (H1 Hp)]. reflexivity.
  - intros Hp. apply H2, cleared_granted in Hp as (ctx & ds & [Hc _] & Hr); [|reflexivity]. by exists ctx, ds.
  - intros Hp. apply H4, cleared_granted in Hp as (ctx & ds & [Hc _] & Hr); [|reflexivity]. by exists ctx, ds.
  - intros Hp. eapply approved_granted; [|exact (H6 Hp)]. reflexivity.
  - intros Hp. eapply approved_granted; [|exact (H7 Hp)]. reflexivity.
  - intros Hp. split; [by apply undenied_none, H3|]. destruct (H8 Hp) as (ctx & ds & Hc & Hm & He & Hd).
    exists ctx, ds. split_and!; [done | done | done | by apply denial_none].
  - intros Hp. by apply undenied_none, H5.
Qed.

(** What the default policies promise of a node that may run. *)
Definition default_promise caps events py_sum (node_id : string) (node : GateNode) : Prop :=
  let req := requirements (gn_contract node) in
  (is_privileged_node (gn_contract node) = true ->
   fst (observed_trust node) = "built_in" \/ fst (observed_trust node) = "local_trusted") /\
  (forall t, t ∈ tools_required req -> t ∈ granted_names caps node_id allowed_tools) /\
  (adapters_required req <> [] ->
   exists a, a ∈ adapters_required req /\ a ∈ granted_names caps node_id allowed_adapters) /\
  (model_required req = true ->
   forall spent, py_float (get_accumulated_cost events py_sum node_id) = Ok spent ->
   fgt spent (node_budget caps node_id) = false).

Lemma default_trust node_id node :
  trust_fact default_engine node_id node ->
  is_privileged_node (gn_contract node) = true ->
  fst (observed_trust node) = "built_in" \/ fst (observed_trust node) = "local_trusted".
Proof.
  intros H Hp. destruct (H Hp) as (ctx & ds & Ho & He & Hb).
  rewrite (evaluate_default _ TRUST_LEVEL_POLICY) in He by reflexivity.
  destruct (trust_default _ _ Ho) as (ds' & He' & Hb').
  assert (ds' = ds) as -> by congruence.
  rewrite Hb in Hb'. symmetry in Hb'. bool_prop. set_solver.
Qed.

Lemma default_tools caps node_id node t :
  tools_fact default_engine caps node_id node ->
  t ∈ tools_required (requirements (gn_contract node)) ->
  t ∈ granted_names caps node_id allowed_tools.
Proof.
  intros H Ht. destruct H as (ctx & ds & [Hu HT] & He & Hb).
  { intros Hn. rewrite Hn in Ht. inversion Ht. }
  rewrite (evaluate_default _ TOOL_ACCESS_POLICY) in He by reflexivity.
  destruct (nonempty (ungranted_tools caps node_id node)) eqn:E.
  - erewrite tools_denied in Hb; done.
  - apply nonempty_false in E. unfold ungranted_tools in E.
    rewrite missing_required_nil in E. auto.
Qed.

Lemma default_adapters caps node_id node :
  adapters_fact default_engine caps node_id node ->
  adapters_required (requirements (gn_contract node)) <> [] ->
  exists a, a ∈ adapters_required (requirements (gn_contract node)) /\
    a ∈ granted_names caps node_id allowed_adapters.
Proof.
  intros H Hne. destruct (H Hne) as (ctx & ds & [Hu HT] & He & Hb).
  rewrite (evaluate_default _ ADAPTER_ACCESS_POLICY) in He by reflexivity.
  destruct (granted_adapters caps node_id node) as [|a l] eqn:E.
  - erewrite adapters_denied in Hb; [done | exact Hu | done | done].
  - exists a. assert (a ∈ granted_adapters caps node_id node) as Ha by (rewrite E; left).
    unfold granted_adapters in Ha. apply elem_of_lfilter in Ha as [H1 H2].
    apply mem_true in H1. by rewrite elem_of_py_set in H1, H2.
Qed.

(** C29: under the default policies a node that may run is trusted when it is
    privileged, uses only granted tools, has at least one granted adapter
    when it declares adapters, and has not spent more than its budget when
    it needs a model. *)
Theorem default_gate_sound caps events step py_sum list_of_set node_id node r :
  check default_engine caps events step py_sum list_of_set node_id node = Ok r ->
  allowed r = true ->
  default_promise caps events py_sum node_id node.
Proof.
  intros H Ha. apply check_allowed_facts in H as (H1 & H2 & _ & H3 & _ & _ & _ & H6); [|done].
  split; [exact (default_trust _ _ H1)|].
  split; [intros t; exact (default_tools _ _ _ t H2)|].
  split; [exact (default_adapters _ _ _ H3)|].
  intros Hm spent Hs. destruct (H6 Hm) as (ctx & ds & Hacc & Hcap & He & Hd).
  rewrite (evaluate_default _ COST_LIMIT_POLICY) in He by reflexivity.
  by eapply cost_denied.
Qed.

(** A node with tools, an adapter and a model, loaded as local and trusted. *)
Definition demo_node (trust : string) : GateNode :=
  mkGateNode
    (mkContract "s.v1" "search" "1.0.0" (mkEntry "a" "s" [] []) (mkExit "b" "s" [] [] None)
       [mkSideEffect "search" "web" false]
       (mkRequirements true [] ["web"] ["brave"; "ddg"] "read" "trusted" None None))
    trust "external" "custom.search".

Definition demo_caps : option (string -> option Capabilities) :=
  Some (fun _ => Some (mkCaps true true false (fround_int 2) 60000 ["web"; "calc"] ["ddg"] [] [])).

Definition demo_sum (l : list pyfloat) : pyval := VFloat (fold_left fadd l fzero).
Definition demo_check (trust : string) (cost : Z) : res float_error PolicyCheckResult :=
  check default_engine demo_caps (Some [("search", fround_int cost); ("other", fround_int 9)])
    (Some 3) demo_sum (fun l => l) "search" (demo_node trust).

Lemma gate_fail_closed_witness :
  exists r, demo_check "local_trusted" 1 = Ok r /\ allowed r = true /\
    granted default_engine "search" TRUST_LEVEL (fun ctx => dget "observed_trust_level" ctx = Some (VStr "local_trusted")) /\
    granted_outright default_engine "search" MEMORY_READ (fun ctx => dget "memory_access" ctx = Some (VStr "read")).
Proof.
  eexists. split; [vm_compute; reflexivity|]. split; [reflexivity|].
  destruct (gate_fail_closed default_engine demo_caps
    (Some [("search", fround_int 1); ("other", fround_int 9)]) (Some 3) demo_sum (fun l => l)
    "search" (demo_node "local_trusted") _ ltac:(vm_compute; reflexivity) eq_refl) as (H1 & _ & _ & H4 & _).
  split; [apply H1; vm_compute; reflexivity | apply H4; by left].
Defined.

Lemma default_gate_sound_witness :
  exists r, demo_check "local_trusted" 2 = Ok r /\
    default_promise demo_caps (Some [("search", fround_int 2); ("other", fround_int 9)])
      demo_sum "search" (demo_node "local_trusted").
Proof.
  eexists. split; [vm_compute; reflexivity|].
  eapply (default_gate_sound demo_caps
    (Some [("search", fround_int 2); ("other", fround_int 9)]) (Some 3) demo_sum (fun l => l)
    "search" (demo_node "local_trusted")); [vm_compute; reflexivity | reflexivity].
Defined.

Example demo_untrusted :
  option_map allowed (match demo_check "local_untrusted" 1 with Ok r => Some r | _ => None end)
  = Some false.
Proof. vm_compute. reflexivity. Qed.
Example demo_over_budget :
  option_map denial_reason (match demo_check "local_trusted" 3 with Ok r => Some r | _ => None end)
  = Some (VStr "Node exceeded cost budget").
Proof. vm_compute. reflexivity. Qed.

(** ** Where the gate is open *)

(** A DENY rule that an operator installs for every memory write. *)
Definition deny_writes (reason : string) : PolicyEngine :=
  make_engine [ mkPolicy "ops.memory" MEMORY_WRITE "*"
                  [ mkRule "ops.no_write" "always" DENY (deny_reason reason) 100 ];
                MEMORY_READ_POLICY; TRUST_LEVEL_POLICY ].

Definition memory_node (access : string) : GateNode :=
  mkGateNode
    (mkContract "m.v1" "m" "1.0.0" (mkEntry "a" "s" [] []) (mkExit "b" "s" [] [] None) []
       (mkRequirements false [] [] [] access "trusted" None None))
    "local_trusted" "external" "custom.m".

Definition memory_check (reason access : string) : option bool :=
  match check (deny_writes reason) None None None demo_sum (fun l => l) "m" (memory_node access) with
  | Ok r => Some (allowed r)
  | Err _ => None
  end.

(** A rule that denies every memory write stops a node that declares
    [write], but not one that declares [read_write], and not even the first when
    the rule's reason is the empty text: the gate tests the reason, not the
    action. *)
Theorem memory_write_gate_gaps :
  memory_check "closed" "write" = Some false /\
  memory_check "closed" "read_write" = Some true /\
  memory_check "" "write" = Some true.
Proof. vm_compute. done. Qed.
