(* ===== verification/SideEffectLedger.v ===== *)
(** * The side-effect ledger

    [SideEffectLedgerStore] of [core/stores.py], on the tables that
    [StateManager] of [core/state.py] creates.  A row records one side
    effect; a row with a parent key is a recovery child, a retry that an
    operator authorized, and is driven only through the fenced operations.

    Times are microseconds; the ISO texts the code writes are all in UTC and
    are ordered as the times are.  An operation takes as arguments the clock
    readings (and fresh tokens) that the code obtains while it runs. *)
From S2P Require Import Prelude Sql.

(** ** Tables *)

Record Row := mkRow {
  id : Z;
  run_id : string;
  step_id : Z;
  node_id : string;
  branch_name : option string;
  side_effect_type : string;
  idempotency_key : string;
  status : string;
  request_hash : option string;
  response_hash : option string;
  external_reference : option string;
  retryable : bool;
  timestamp : Z;
  parent_side_effect_key : option string;
  root_side_effect_key : option string;
  retry_ordinal : Z;
  recovery_decision_id : option string;
  capsule_id : option string;
  capsule_status : string;
  execution_claim_id : option string;
  dispatch_attempted_at : option Z;
  claim_acquired_at : option Z;
  claim_expires_at : option Z;
}.

Record RecoveryDecision := mkRecoveryDecision {
  decision_id : string;
  rd_run_id : string;
  rd_key : string;
  rd_node_id : string;
  rd_step_id : option Z;
  rd_side_effect_type : string;
  rd_prior_status : string;
  rd_decision : string;
  rd_actor : string;
  rd_reason : string;
  rd_external_reference : string;
  rd_created_at : Z;
  rd_metadata_json : string;
  rd_retention_status : string;
}.

Record ExecutionAction := mkAction {
  action_id : string;
  operator_action_id : option string;
  act_run_id : string;
  retry_attempt_key : string;
  execution_status : string;
  act_claim_id : option string;
  started_at : option Z;
  finished_at : option Z;
  outcome_code : option string;
  metadata_json : string;
}.

(** A row of [state_events] as the store writes it: no node, no step, and the
    payload dict in place of its JSON text. *)
Record StateEvent := mkEvent {
  ev_run_id : string;
  ev_revision : Z;
  ev_type : string;
  ev_payload : dict string;
  ev_timestamp : Z;
}.

Record Db := mkDb {
  ledger : list Row;
  decisions : list RecoveryDecision;
  actions : list ExecutionAction;
  events : list StateEvent;
  revisions : dict Z;
}.

Definition with_ledger (t : list Row) (db : Db) : Db :=
  mkDb t (decisions db) (actions db) (events db) (revisions db).
Definition with_decisions (t : list RecoveryDecision) (db : Db) : Db :=
  mkDb (ledger db) t (actions db) (events db) (revisions db).
Definition with_actions (t : list ExecutionAction) (db : Db) : Db :=
  mkDb (ledger db) (decisions db) t (events db) (revisions db).
Definition with_events (t : list StateEvent) (db : Db) : Db :=
  mkDb (ledger db) (decisions db) (actions db) t (revisions db).

(** The exceptions; [RecoveryError] keeps its machine code. *)
Inductive ledger_error :=
| CollisionError
| IntegrityError
| TransitionError
| RecoveryError (code : string)
| SqlIntegrityError.

#[export] Instance ledger_error_eq_dec : EqDecision ledger_error.
Proof. solve_decision. Defined.

Definition op (A : Type) : Type := transaction Db ledger_error A.

(** ** Row updates: the SET clauses *)

Definition set_status (s : string) (r : Row) : Row :=
  mkRow (id r) (run_id r) (step_id r) (node_id r) (branch_name r) (side_effect_type r)
    (idempotency_key r) s (request_hash r) (response_hash r) (external_reference r)
    (retryable r) (timestamp r) (parent_side_effect_key r) (root_side_effect_key r)
    (retry_ordinal r) (recovery_decision_id r) (capsule_id r) (capsule_status r)
    (execution_claim_id r) (dispatch_attempted_at r) (claim_acquired_at r) (claim_expires_at r).

(** [SET response_hash, external_reference, timestamp] *)
Definition set_result (resp ext : option string) (t : Z) (r : Row) : Row :=
  mkRow (id r) (run_id r) (step_id r) (node_id r) (branch_name r) (side_effect_type r)
    (idempotency_key r) (status r) (request_hash r) resp ext
    (retryable r) t (parent_side_effect_key r) (root_side_effect_key r)
    (retry_ordinal r) (recovery_decision_id r) (capsule_id r) (capsule_status r)
    (execution_claim_id r) (dispatch_attempted_at r) (claim_acquired_at r) (claim_expires_at r).

(** [SET execution_claim_id, claim_acquired_at, claim_expires_at] *)
Definition set_claim (claim : option string) (acq exp : option Z) (r : Row) : Row :=
  mkRow (id r) (run_id r) (step_id r) (node_id r) (branch_name r) (side_effect_type r)
    (idempotency_key r) (status r) (request_hash r) (response_hash r) (external_reference r)
    (retryable r) (timestamp r) (parent_side_effect_key r) (root_side_effect_key r)
    (retry_ordinal r) (recovery_decision_id r) (capsule_id r) (capsule_status r)
    claim (dispatch_attempted_at r) acq exp.

Definition set_dispatch (d : option Z) (r : Row) : Row :=
  mkRow (id r) (run_id r) (step_id r) (node_id r) (branch_name r) (side_effect_type r)
    (idempotency_key r) (status r) (request_hash r) (response_hash r) (external_reference r)
    (retryable r) (timestamp r) (parent_side_effect_key r) (root_side_effect_key r)
    (retry_ordinal r) (recovery_decision_id r) (capsule_id r) (capsule_status r)
    (execution_claim_id r) d (claim_acquired_at r) (claim_expires_at r).

(** [SET capsule_id, capsule_status = 'available'] *)
Definition set_capsule (cap : string) (r : Row) : Row :=
  mkRow (id r) (run_id r) (step_id r) (node_id r) (branch_name r) (side_effect_type r)
    (idempotency_key r) (status r) (request_hash r) (response_hash r) (external_reference r)
    (retryable r) (timestamp r) (parent_side_effect_key r) (root_side_effect_key r)
    (retry_ordinal r) (recovery_decision_id r) (Some cap) "available"
    (execution_claim_id r) (dispatch_attempted_at r) (claim_acquired_at r) (claim_expires_at r).

Definition set_expiry (exp : option Z) (r : Row) : Row :=
  set_claim (execution_claim_id r) (claim_acquired_at r) exp r.

Definition set_response (resp : option string) (r : Row) : Row :=
  set_result resp (external_reference r) (timestamp r) r.

(** [SET execution_status, execution_claim_id, started_at, finished_at, outcome_code] *)
Definition set_action (st : string) (claim : option string) (started finished : option Z)
  (outcome : option string) (a : ExecutionAction) : ExecutionAction :=
  mkAction (action_id a) (operator_action_id a) (act_run_id a) (retry_attempt_key a)
    st claim started finished outcome (metadata_json a).

(** ** Transitions *)

Definition LEGAL_TRANSITIONS : dict (list string) :=
  [ ("planned", ["started"; "completed"; "failed"]);
    ("started", ["completed"; "failed"; "unknown"]);
    ("unknown", ["completed"; "failed"; "retry_authorized"]);
    ("completed", []);
    ("failed", []);
    ("retry_authorized", []) ].

Definition validate_side_effect_transition (prior_status new_status : string) : bool :=
  mem new_status (dget_or prior_status [] LEGAL_TRANSITIONS).

(** [WHERE run_id = ? AND idempotency_key = ?] *)
Definition at_key (run key : string) (r : Row) : bool :=
  (run_id r =? run)%string && (idempotency_key r =? key)%string.

Definition is_child_of (run key : string) (r : Row) : bool :=
  (run_id r =? run)%string && sql_eq (parent_side_effect_key r) (Some key).

(** The decisions that let an effect leave [unknown]. *)
Definition required_decisions (status : string) : list string :=
  if status =s? "completed" then ["verified_completed"]
  else if status =s? "failed" then ["verified_failed"; "mark_unrecoverable"]
  else ["safe_to_retry"].

(** [recovery_decisions_set] *)
Definition decisions_for (run key : string) (db : Db) : list string :=
  map rd_decision
    (select (fun d => (rd_run_id d =? run)%string && (rd_key d =? key)%string) (decisions db)).

Definition intersects (a b : list string) : bool := existsb (fun x => mem x b) a.

(** [a or b or ""] *)
Definition or_empty (a b : option string) : string :=
  match a with
  | Some s => if str_truthy s then s
              else match b with Some s' => s' | None => "" end
  | None => match b with Some s' => s' | None => "" end
  end.

(** ** Recording *)

Definition next_id (db : Db) : Z :=
  fold_left Z.max (map id (ledger db)) 0 + 1.

(** The UNIQUE constraints of the ledger, tried on a row to insert. *)
Definition insert_row (r : Row) (db : Db) : res ledger_error Db :=
  if existsb (at_key (run_id r) (idempotency_key r)) (ledger db)
     || existsb (fun x => (run_id x =? run_id r)%string &&
                          sql_eq (recovery_decision_id x) (recovery_decision_id r)) (ledger db)
  then Err SqlIntegrityError
  else Ok (with_ledger (ledger db ++ [r]) db).

Record RecordArgs := mkRecordArgs {
  a_step_id : Z;
  a_node_id : string;
  a_side_effect_type : string;
  a_branch_name : option string;
  a_status : string;
  a_request_hash : option string;
  a_response_hash : option string;
  a_external_reference : option string;
  a_retryable : bool;
  a_parent_side_effect_key : option string;
  a_root_side_effect_key : option string;
  a_retry_ordinal : Z;
  a_recovery_decision_id : option string;
}.

Definition new_row (run key : string) (a : RecordArgs) (now : Z) (db : Db) : Row :=
  mkRow (next_id db) run (a_step_id a) (a_node_id a) (a_branch_name a) (a_side_effect_type a)
    key (a_status a) (a_request_hash a) (a_response_hash a) (a_external_reference a)
    (a_retryable a) now (a_parent_side_effect_key a) (a_root_side_effect_key a)
    (a_retry_ordinal a) (a_recovery_decision_id a) None "legacy_unavailable"
    None None None None.

Definition record_side_effect (run key : string) (a : RecordArgs) (now : Z) : op unit := fun db =>
  match fetchone (at_key run key) (ledger db) with
  | Some ex =>
      if negb (node_id ex =? a_node_id a)%string
         || negb (side_effect_type ex =? a_side_effect_type a)%string
      then Err CollisionError
      else if ostr_truthy (a_request_hash a) && ostr_truthy (request_hash ex)
              && negb (bool_decide (a_request_hash a = request_hash ex))
      then Err CollisionError
      else Ok (db, tt)
  | None => db' ← insert_row (new_row run key a now db) db; Ok (db', tt)
  end.

(** ** The ordinary status update *)

(** The guard on a parent whose retry was allocated. *)
Definition parent_guard (run key : string) (ex : Row) (db : Db) : res ledger_error unit :=
  if (status ex =s? "retry_authorized") && (0 <? rowcount (is_child_of run key) (ledger db))%nat then
    if (0 <? rowcount (fun r => is_child_of run key r
                               && mem (status r) ["planned"; "started"]) (ledger db))%nat
    then Err (RecoveryError "RECOVERY_TARGET_IN_FLIGHT")
    else Err (RecoveryError "RECOVERY_TARGET_HAS_RETRY_LINEAGE")
  else Ok tt.

(** [Ok true]: the completed replay is safe and nothing is written. *)
Definition completed_replay (ex : Row) (new_status : string) (resp ext : option string)
  : res ledger_error bool :=
  if (status ex =s? "completed") && (new_status =s? "completed") then
    let new_resp := or_empty resp ext in
    let old_resp := or_empty (response_hash ex) (external_reference ex) in
    if str_truthy old_resp && str_truthy new_resp && negb (old_resp =s? new_resp)
    then Err IntegrityError
    else Ok (str_truthy old_resp || negb (str_truthy new_resp))
  else Ok false.

(** An effect leaves [unknown] only on a matching recovery decision. *)
Definition unknown_guard (run key : string) (ex : Row) (new_status : string) (db : Db)
  : res ledger_error unit :=
  if (status ex =s? "unknown") && mem new_status ["completed"; "failed"; "retry_authorized"] then
    let found := decisions_for run key db in
    if negb (nonempty found) then Err TransitionError
    else guard_err (intersects (required_decisions new_status) found) TransitionError
  else Ok tt.

Definition update_side_effect_status (run key new_status : string)
  (resp ext : option string) (now : Z) : op unit := fun db =>
  match fetchone (at_key run key) (ledger db) with
  | None => Ok (db, tt)
  | Some ex =>
      _ ← guard_err (is_null (parent_side_effect_key ex))
            (RecoveryError "RECOVERY_CHILD_REQUIRES_FENCED_TRANSITION");
      _ ← parent_guard run key ex db;
      replay ← completed_replay ex new_status resp ext;
      if (replay : bool) then Ok (db, tt)
      else
        _ ← guard_err (validate_side_effect_transition (status ex) new_status) TransitionError;
        _ ← unknown_guard run key ex new_status db;
        Ok (with_ledger
              (update_where (at_key run key)
                 (fun r => set_result resp ext now (set_status new_status r)) (ledger db)) db, tt)
  end.

(** ** The operator's resolution of an unknown effect *)

(** The decision dict, its absent keys defaulted as the code does. *)
Record DecisionDict := mkDecisionDict {
  dd_decision_id : string;
  dd_run_id : option string;
  dd_key : option string;
  dd_node_id : option string;
  dd_step_id : option Z;
  dd_side_effect_type : option string;
  dd_prior_status : option string;
  dd_decision : option string;
  dd_actor : option string;
  dd_reason : option string;
  dd_external_reference : option string;
  dd_created_at : option Z;
  dd_metadata_json : option string;
  dd_retention_status : option string;
}.

Definition decision_row (run key : string) (d : DecisionDict) (now : Z) : RecoveryDecision :=
  mkRecoveryDecision (dd_decision_id d) (default run (dd_run_id d)) (default key (dd_key d))
    (default "" (dd_node_id d)) (dd_step_id d) (default "" (dd_side_effect_type d))
    (default "unknown" (dd_prior_status d)) (default "" (dd_decision d))
    (default "operator" (dd_actor d)) (default "" (dd_reason d))
    (default "" (dd_external_reference d)) (default now (dd_created_at d))
    (default "" (dd_metadata_json d)) (default "active" (dd_retention_status d)).

Definition resolve_side_effect_recovery_decision_transactional (run key : string)
  (d : DecisionDict) (target_status : string) (resp ext : option string) (now : Z) : op unit :=
  fun db =>
  _ ← guard_err (str_truthy (dd_decision_id d)) TransitionError;
  let row := decision_row run key d now in
  _ ← guard_err (negb (existsb (fun x => (decision_id x =? decision_id row)%string) (decisions db)))
        IntegrityError;
  let db := with_decisions (decisions db ++ [row]) db in
  match fetchone (at_key run key) (ledger db) with
  | None => Err TransitionError
  | Some ex =>
      _ ← guard_err (status ex =s? "unknown") TransitionError;
      _ ← guard_err (validate_side_effect_transition (status ex) target_status) TransitionError;
      _ ← guard_err (intersects (required_decisions target_status) (decisions_for run key db))
            TransitionError;
      Ok (with_ledger
            (update_where (at_key run key)
               (fun r => set_result resp ext now (set_status target_status r)) (ledger db)) db, tt)
  end.

(** ** Reads *)

Definition get_side_effects (run : string) (db : Db) : list Row :=
  select (fun r => (run_id r =? run)%string) (ledger db).

Definition get_side_effect_by_key (run key : string) (db : Db) : option Row :=
  List.find (fun r => (idempotency_key r =? key)%string) (get_side_effects run db).

Definition is_side_effect_completed (run key : string) (db : Db) : bool :=
  match fetchone (at_key run key) (ledger db) with
  | Some r => status r =s? "completed"
  | None => false
  end.

Definition get_side_effects_by_status (run s : string) (db : Db) : list Row :=
  List.filter (fun r => status r =s? s) (get_side_effects run db).

(** ** Fenced operations on recovery children *)

(** Five minutes, the lease of a claim. *)
Definition lease : Z := 5 * 60 * 1000000.

Definition claim_recovery_attempt (run child_key claim act_id : string) (now now_lease : Z)
  : op string := fun db =>
  _ ← guard_err (str_truthy claim) (RecoveryError "CLAIM_MISSING_TOKEN");
  _ ← guard_err (str_truthy act_id) (RecoveryError "CLAIM_MISSING_ACTION_ID");
  let p r := at_key run child_key r && (status r =s? "planned")
             && not_null (parent_side_effect_key r) in
  if Nat.eqb (rowcount p (ledger db)) 0 then
    match fetchone (at_key run child_key) (ledger db) with
    | None => Err (RecoveryError "RECOVERY_CHILD_NOT_FOUND")
    | Some ex =>
        if status ex =s? "started" then Err (RecoveryError "CLAIM_ALREADY_HELD")
        else Err (RecoveryError "CLAIM_INVALID_TARGET")
    end
  else
    let db := with_ledger
      (update_where p (fun r => set_claim (Some claim) (Some now) (Some (now_lease + lease))
                                  (set_status "started" r)) (ledger db)) db in
    let q a := (action_id a =? act_id)%string && (act_run_id a =? run)%string
               && (retry_attempt_key a =? child_key)%string
               && sql_eq (act_claim_id a) (Some claim) && (execution_status a =s? "created") in
    _ ← guard_err (Nat.eqb (rowcount q (actions db)) 1) (RecoveryError "CLAIM_ACTION_NOT_FOUND");
    Ok (with_actions
          (update_where q (fun a => set_action "claimed" (Some claim)
             (coalesce (started_at a) (Some now)) (finished_at a) (outcome_code a) a)
             (actions db)) db, claim).

(** [status = 'started' AND execution_claim_id = ?] at the key *)
Definition held_by (run key token : string) (r : Row) : bool :=
  at_key run key r && (status r =s? "started") && sql_eq (execution_claim_id r) (Some token).

(** An UPDATE of the ledger that reports whether a row changed. *)
Definition cas (p : Row -> bool) (f : Row -> Row) : op bool := fun db =>
  Ok (with_ledger (update_where p f (ledger db)) db,
      (0 <? rowcount p (ledger db))%nat).

Definition heartbeat_recovery_attempt (run child_key token : string) (now : Z) : op bool :=
  cas (held_by run child_key token) (set_expiry (Some (now + lease))).

Definition complete_recovery_attempt (run child_key token : string) (resp : option string)
  : op bool :=
  cas (held_by run child_key token)
    (fun r => set_response (coalesce resp (response_hash r)) (set_status "completed" r)).

Definition fail_recovery_attempt (run child_key token : string) : op bool :=
  cas (held_by run child_key token) (set_status "failed").

Definition mark_recovery_dispatch_attempted (run child_key token : string) (now : Z) : op bool :=
  cas (fun r => held_by run child_key token r && is_null (dispatch_attempted_at r)
                && sql_gt (claim_expires_at r) now)
    (set_dispatch (Some now)).

(** [now] is read on entry, [now_lease] for the new lease, [now_check] for the
    expiry test and [now_write] for the UPDATE of a dispatched child. *)
Definition reclaim_expired_recovery_attempt (run child_key new_token : string)
  (now now_lease now_check now_write : Z) : op (option string) := fun db =>
  match fetchone (at_key run child_key) (ledger db) with
  | None => Err (RecoveryError "RECOVERY_CHILD_NOT_FOUND")
  | Some row =>
      if negb (status row =s? "started") then Ok (db, None)
      else if sql_gt (claim_expires_at row) now_check then Ok (db, None)
      else if not_null (dispatch_attempted_at row) then
        Ok (with_ledger
              (update_where (fun r => at_key run child_key r && (status r =s? "started")
                                      && sql_le (claim_expires_at r) now_write)
                 (set_status "unknown") (ledger db)) db, None)
      else
        let p r := at_key run child_key r && (status r =s? "started")
                   && sql_le (claim_expires_at r) now_check
                   && sql_eq (execution_claim_id r) (execution_claim_id row)
                   && is_null (dispatch_attempted_at r) in
        Ok (with_ledger
              (update_where p (set_claim (Some new_token) (Some now) (Some (now_lease + lease)))
                 (ledger db)) db,
            if (0 <? rowcount p (ledger db))%nat then Some new_token else None)
  end.

(** ** Crash repair *)

Definition expired_child (run : string) (now : Z) (r : Row) : bool :=
  (run_id r =? run)%string && (status r =s? "started")
  && not_null (parent_side_effect_key r) && sql_le (claim_expires_at r) now.

(** The pure scan: what a repair would do. *)
Definition scan_expired_recovery_children (run : string) (now : Z) (db : Db)
  : list (string * string) :=
  map (fun r => (idempotency_key r,
                 if not_null (dispatch_attempted_at r) then "unknown" else "requeued"))
    (select (expired_child run now) (ledger db)).

(** The action rows a repaired child leaves behind. *)
Definition close_actions (run key : string) (claim : option string) (st code : string) (now : Z)
  (db : Db) : Db :=
  with_actions
    (update_where (fun a => (act_run_id a =? run)%string && (retry_attempt_key a =? key)%string
                            && sql_eq (act_claim_id a) claim
                            && mem (execution_status a) ["claimed"; "dispatch_started"])
       (fun a => set_action st (act_claim_id a) (started_at a) (Some now)
                   (coalesce (outcome_code a) (Some code)) a) (actions db)) db.

(** The CAS predicate of both repairs, [dispatched] telling them apart. *)
Definition repair_target (run : string) (now : Z) (dispatched : bool) (key : string)
  (claim : option string) (r : Row) : bool :=
  at_key run key r && (status r =s? "started") && sql_le (claim_expires_at r) now
  && sql_eq (execution_claim_id r) claim
  && Bool.eqb (not_null (dispatch_attempted_at r)) dispatched.

(** The body of the loop over the scanned rows.  A result keeps the key and
    the action; its [old_status] is always [started]. *)
Definition reconcile_row (run : string) (now : Z) (row : Row) (st : Db * list (string * string))
  : Db * list (string * string) :=
  let '(db, results) := st in
  let key := idempotency_key row in
  let claim := execution_claim_id row in
  let dispatched := not_null (dispatch_attempted_at row) in
  let p := repair_target run now dispatched key claim in
  if Nat.eqb (rowcount p (ledger db)) 0 then (db, results)
  else if dispatched then
    let db := with_ledger (update_where p (set_status "unknown") (ledger db)) db in
    let db := close_actions run key claim "unknown" "lease_expired_after_dispatch" now db in
    (db, results ++ [(key, "unknown")])
  else
    let db := with_ledger
      (update_where p (fun r => set_dispatch None (set_claim None None None
                                  (set_status "planned" r))) (ledger db)) db in
    let db := close_actions run key claim "not_acquired" "lease_expired_before_dispatch" now db in
    let revision := dget_or run 0 (revisions db) in
    let db := with_events
      (events db ++ [mkEvent run revision "side_effect_retry_requeued"
                        [("child_key", key); ("action", "requeued")] now]) db in
    (db, results ++ [(key, "requeued")]).

Definition reconcile_expired_recovery_children (run : string) (now : Z)
  : op (list (string * string)) := fun db =>
  Ok (fold_left (fun st row => reconcile_row run now row st)
        (select (expired_child run now) (ledger db)) (db, [])).

(** ** Execution actions *)

Definition create_recovery_execution_action (act_id : string) (operator : option string)
  (run key claim meta : string) : op unit := fun db =>
  if existsb (fun a => (action_id a =? act_id)%string) (actions db) then Err SqlIntegrityError
  else Ok (with_actions (actions db ++ [mkAction act_id operator run key "created" (Some claim)
                                          None None None meta]) db, tt).

Definition terminal_outcomes : list string := ["completed"; "failed"; "unknown"; "not_acquired"].

Definition update_recovery_execution_status (act_id st : string)
  (outcome claim : option string) (now : Z) : op bool := fun db =>
  let p a := (action_id a =? act_id)%string in
  Ok (with_actions
        (update_where p
           (fun a => set_action st (coalesce claim (act_claim_id a))
              (if mem st ["claimed"; "dispatch_started"]
               then coalesce (started_at a) (Some now) else started_at a)
              (if mem st terminal_outcomes then Some now else finished_at a)
              (coalesce outcome (outcome_code a)) a)
           (actions db)) db,
      (0 <? rowcount p (actions db))%nat).

Definition finalize_recovery_execution_action (act_id outcome : string)
  (code : option string) (now : Z) : op bool := fun db =>
  _ ← guard_err (mem outcome terminal_outcomes) (RecoveryError "INVALID_OUTCOME");
  let p a := (action_id a =? act_id)%string in
  Ok (with_actions
        (update_where p
           (fun a => set_action outcome (act_claim_id a) (started_at a) (Some now)
                       (coalesce code (outcome_code a)) a) (actions db)) db,
      (0 <? rowcount p (actions db))%nat).

Definition get_recovery_execution_action (act_id : string) (db : Db) : option ExecutionAction :=
  fetchone (fun a => (action_id a =? act_id)%string) (actions db).

(** [ORDER BY started_at]: NULLs first, ties in any order (here rowid order). *)
Definition started_le (a b : ExecutionAction) : bool :=
  match started_at a, started_at b with
  | None, _ => true
  | Some _, None => false
  | Some x, Some y => x <=? y
  end.

Definition get_recovery_execution_actions (run key : option string) (db : Db)
  : list ExecutionAction :=
  py_sorted started_le
    (select (fun a => match run with Some s => (act_run_id a =? s)%string | None => true end
                      && match key with Some s => (retry_attempt_key a =? s)%string
                                      | None => true end) (actions db)).

(** ** How rows evolve *)

Definition row_key (r : Row) : string * string := (run_id r, idempotency_key r).

(** The UNIQUE(run_id, idempotency_key) constraint. *)
Definition unique (db : Db) : Prop := NoDup (map row_key (ledger db)).

(** A recovery decision that allows the row to reach [s] is on record. *)
Definition decided (db : Db) (r : Row) (s : string) : Prop :=
  intersects (required_decisions s) (decisions_for (run_id r) (idempotency_key r) db) = true.

(** Everything an operation may do to one row of the ledger, the database
    after it being [db]; [rep] is the run and the time of the repair, if the
    operation is one. *)
Inductive row_step (rep : option (string * Z)) (db : Db) : Row -> Row -> Prop :=
| rs_same r : row_step rep db r r
| rs_update r s resp ext t :
    validate_side_effect_transition (status r) s = true ->
    (status r = "unknown" -> decided db r s) ->
    row_step rep db r (set_result resp ext t (set_status s r))
| rs_start r cap :
    status r = "planned" -> row_step rep db r (set_capsule cap (set_status "started" r))
| rs_attach r cap : status r = "started" -> row_step rep db r (set_capsule cap r)
| rs_claim r tok acq exp :
    status r = "planned" -> not_null (parent_side_effect_key r) = true ->
    row_step rep db r (set_claim (Some tok) acq exp (set_status "started" r))
| rs_heartbeat r exp : status r = "started" -> row_step rep db r (set_expiry exp r)
| rs_complete r resp :
    status r = "started" -> row_step rep db r (set_response resp (set_status "completed" r))
| rs_fail r : status r = "started" -> row_step rep db r (set_status "failed" r)
| rs_mark r now :
    status r = "started" -> dispatch_attempted_at r = None ->
    row_step rep db r (set_dispatch (Some now) r)
| rs_unknown r :
    status r = "started" -> row_step rep db r (set_status "unknown" r)
| rs_reclaim r tok acq exp :
    status r = "started" -> dispatch_attempted_at r = None ->
    row_step rep db r (set_claim (Some tok) acq exp r)
| rs_requeue r now e :
    rep = Some (run_id r, now) -> status r = "started" -> parent_side_effect_key r <> None ->
    execution_claim_id r <> None -> claim_expires_at r = Some e -> e <= now -> dispatch_attempted_at r = None ->
    row_step rep db r (set_dispatch None (set_claim None None None (set_status "planned" r))).

(** The change an operation makes to the whole ledger. *)
Definition evolves (rep : option (string * Z)) (db db' : Db) : Prop :=
  exists f new,
    ledger db' = map f (ledger db) ++ new /\
    (forall r, r ∈ ledger db -> row_step rep db' r (f r)) /\
    (forall r, r ∈ new -> dispatch_attempted_at r = None) /\
    NoDup (map row_key (ledger db) ++ map row_key new).

Lemma row_step_key rep db r r' : row_step rep db r r' -> row_key r' = row_key r.
Proof. by destruct 1. Qed.

Lemma evolves_refl rep db db' : unique db -> ledger db' = ledger db -> evolves rep db db'.
Proof.
  intros Hu He. exists (fun r => r), []. rewrite map_id, app_nil_r, app_nil_r. split_and!.
  - exact He.
  - intros r _. constructor.
  - intros r Hr. inversion Hr.
  - exact Hu.
Qed.

Lemma evolves_update rep db db' p f :
  unique db -> ledger db' = update_where p f (ledger db) ->
  (forall r, r ∈ ledger db -> p r = true -> row_step rep db' r (f r)) ->
  evolves rep db db'.
Proof.
  intros Hu He Hs. exists (fun r => if p r then f r else r), [].
  rewrite !app_nil_r. split_and!; [exact He| | |exact Hu].
  - intros r Hr. destruct (p r) eqn:Hp; [by apply Hs | constructor].
  - intros r Hr. inversion Hr.
Qed.

Lemma evolves_unique rep db db' : evolves rep db db' -> unique db'.
Proof.
  intros (f & new & He & Hs & _ & Hn). unfold unique. rewrite He, map_app, map_map.
  replace (map (fun x => row_key (f x)) (ledger db)) with (map row_key (ledger db)); [done|].
  apply map_ext_in. intros r Hr. apply list_elem_of_In in Hr.
  symmetry. by eapply row_step_key, Hs.
Qed.

(** A row of the new ledger with the key of an old row comes from that row. *)
Lemma evolves_row rep db db' r r' :
  evolves rep db db' -> r ∈ ledger db -> r' ∈ ledger db' -> row_key r = row_key r' ->
  row_step rep db' r r'.
Proof.
  intros Hev Hr Hr' Hk. pose proof (evolves_unique _ _ _ Hev) as Hu'.
  destruct Hev as (f & new & He & Hs & _ & Hn).
  assert (f r ∈ ledger db') as Hfr.
  { rewrite He. apply elem_of_app. left. apply list_elem_of_In, in_map. by apply list_elem_of_In. }
  assert (f r = r') as <-; [|by apply Hs].
  eapply (unique_key row_key); eauto.
  rewrite (row_step_key _ _ _ _ (Hs r Hr)). exact Hk.
Qed.

Lemma evolves_keeps rep db db' r :
  evolves rep db db' -> r ∈ ledger db -> exists r', r' ∈ ledger db' /\ row_step rep db' r r'.
Proof.
  intros (f & new & He & Hs & _) Hr. exists (f r). split; [|by apply Hs].
  rewrite He. apply elem_of_app. left. apply list_elem_of_In, in_map. by apply list_elem_of_In.
Qed.

(** ** The operations as steps *)

Inductive ledger_op :=
| ORecord (run key : string) (a : RecordArgs) (now : Z)
| OUpdate (run key s : string) (resp ext : option string) (now : Z)
| OResolve (run key : string) (d : DecisionDict) (s : string) (resp ext : option string) (now : Z)
| OClaim (run key claim act : string) (now now_lease : Z)
| OHeartbeat (run key token : string) (now : Z)
| OComplete (run key token : string) (resp : option string)
| OFail (run key token : string)
| OMark (run key token : string) (now : Z)
| OReclaim (run key token : string) (now now_lease now_check now_write : Z)
| OReconcile (run : string) (now : Z)
| OCreateAction (act : string) (operator : option string) (run key claim meta : string)
| OUpdateAction (act st : string) (outcome claim : option string) (now : Z)
| OFinalizeAction (act outcome : string) (code : option string) (now : Z).

Definition exec (o : ledger_op) (db : Db) : Db :=
  match o with
  | ORecord run key a now => commit (record_side_effect run key a now) db
  | OUpdate run key s resp ext now => commit (update_side_effect_status run key s resp ext now) db
  | OResolve run key d s resp ext now =>
      commit (resolve_side_effect_recovery_decision_transactional run key d s resp ext now) db
  | OClaim run key claim act now now_lease =>
      commit (claim_recovery_attempt run key claim act now now_lease) db
  | OHeartbeat run key token now => commit (heartbeat_recovery_attempt run key token now) db
  | OComplete run key token resp => commit (complete_recovery_attempt run key token resp) db
  | OFail run key token => commit (fail_recovery_attempt run key token) db
  | OMark run key token now => commit (mark_recovery_dispatch_attempted run key token now) db
  | OReclaim run key token now now_lease now_check now_write =>
      commit (reclaim_expired_recovery_attempt run key token now now_lease now_check now_write) db
  | OReconcile run now => commit (reconcile_expired_recovery_children run now) db
  | OCreateAction act operator run key claim meta =>
      commit (create_recovery_execution_action act operator run key claim meta) db
  | OUpdateAction act st outcome claim now =>
      commit (update_recovery_execution_status act st outcome claim now) db
  | OFinalizeAction act outcome code now =>
      commit (finalize_recovery_execution_action act outcome code now) db
  end.

(** The run and the time of an operation that repairs. *)
Definition repair_of (o : ledger_op) : option (string * Z) :=
  match o with OReconcile run now => Some (run, now) | _ => None end.

Lemma commit_cases {A} (o : op A) db (P : Db -> Prop) :
  P db -> (forall db' a, o db = Ok (db', a) -> P db') -> P (commit o db).
Proof. unfold commit. intros H1 H2. destruct (o db) as [[db' a]|e] eqn:E; eauto. Qed.

Lemma at_key_true run key r : at_key run key r = true <-> row_key r = (run, key).
Proof.
  unfold at_key, row_key. rewrite andb_true_iff, !String.eqb_eq. split; [|by intros [= -> ->]].
  by intros [-> ->].
Qed.

Lemma fetch_unique run key db r :
  unique db -> r ∈ ledger db -> row_key r = (run, key) ->
  fetchone (at_key run key) (ledger db) = Some r.
Proof.
  intros Hu Hr Hk. apply (fetchone_unique row_key); [exact Hu| |exact Hr|by apply at_key_true].
  intros a b Ha Hb. apply at_key_true in Ha, Hb. congruence.
Qed.

(** The row a statement at a key changes is the row that was read there. *)
Lemma at_fetched run key db ex r :
  unique db -> fetchone (at_key run key) (ledger db) = Some ex ->
  r ∈ ledger db -> at_key run key r = true -> r = ex.
Proof.
  intros Hu Hex Hr Hk. apply at_key_true in Hk.
  rewrite (fetch_unique run key db r Hu Hr Hk) in Hex. congruence.
Qed.

Lemma held_by_true run key token r :
  held_by run key token r = true <->
  row_key r = (run, key) /\ status r = "started" /\ execution_claim_id r = Some token.
Proof.
  unfold held_by. rewrite !andb_true_iff, at_key_true, String.eqb_eq, sql_eq_true. naive_solver.
Qed.

Lemma record_evolves rep run key a now db db' :
  unique db -> record_side_effect run key a now db = Ok (db', tt) -> evolves rep db db'.
Proof.
  unfold record_side_effect. intros Hu H.
  destruct (fetchone (at_key run key) (ledger db)) as [ex|] eqn:E.
  - repeat (case_in H; try discriminate). injection H as <-. by apply evolves_refl.
  - apply bind_ok in H as (db1 & H1 & [= <-]). unfold insert_row in H1.
    case_in H1; [discriminate|]. injection H1 as <-. bool_prop.
    exists (fun r => r), [new_row run key a now db]. rewrite map_id. split_and!; [done|..].
    + intros r _. constructor.
    + intros r ->%list_elem_of_singleton. done.
    + apply NoDup_snoc; [exact Hu|]. intros Hin.
      apply list_elem_of_In, in_map_iff in Hin as (r & Hk & Hr). apply list_elem_of_In in Hr.
      rewrite fetchone_none in E. specialize (E r Hr).
      assert (at_key run key r = true) by (by apply at_key_true). congruence.
Qed.

Lemma update_evolves rep run key s resp ext now db db' :
  unique db -> update_side_effect_status run key s resp ext now db = Ok (db', tt) ->
  evolves rep db db'.
Proof.
  unfold update_side_effect_status. intros Hu H.
  destruct (fetchone (at_key run key) (ledger db)) as [ex|] eqn:E;
    [|injection H as <-; by apply evolves_refl].
  inv_bind H. destruct a1; [injection H as <-; by apply evolves_refl|].
  inv_bind H. apply guard_err_ok in Ha2. injection H as <-.
  eapply evolves_update; [exact Hu | reflexivity|].
  intros r Hr Hk. pose proof (at_fetched _ _ _ _ _ Hu E Hr Hk) as ->.
  apply rs_update; [exact Ha2|]. intros Hs. unfold unknown_guard in Ha3.
  assert (mem s ["completed"; "failed"; "retry_authorized"] = true) as Hm.
  { revert Ha2. unfold validate_side_effect_transition. by rewrite Hs. }
  rewrite Hs, Hm in Ha3. simpl in Ha3. case_in Ha3; [discriminate|].
  apply guard_err_ok in Ha3. unfold decided. apply at_key_true in Hk. injection Hk as -> ->.
  exact Ha3.
Qed.

Lemma resolve_evolves rep run key d s resp ext now db db' :
  unique db ->
  resolve_side_effect_recovery_decision_transactional run key d s resp ext now db = Ok (db', tt) ->
  evolves rep db db'.
Proof.
  unfold resolve_side_effect_recovery_decision_transactional. intros Hu H. inv_bind H.
  destruct (fetchone (at_key run key) (ledger _)) as [ex|] eqn:E; [|discriminate].
  inv_bind H. apply guard_err_ok in Ha2, Ha3. injection H as <-.
  eapply evolves_update; [exact Hu | reflexivity|].
  intros r Hr Hk. pose proof (at_fetched run key db _ _ Hu E Hr Hk) as ->.
  apply guard_err_ok in Ha1. bool_prop.
  apply rs_update; [exact Ha2|]. intros _. unfold decided.
  apply at_key_true in Hk. injection Hk as -> ->. exact Ha3.
Qed.

Lemma claim_evolves rep run key claim act now nl db db' tok :
  unique db -> claim_recovery_attempt run key claim act now nl db = Ok (db', tok) ->
  evolves rep db db'.
Proof.
  unfold claim_recovery_attempt. intros Hu H. inv_bind H.
  destruct (Nat.eqb _ _); [case_in H; [case_in H|]; discriminate|].
  inv_bind H. injection H as <- <-.
  eapply evolves_update; [exact Hu | reflexivity|].
  intros r Hr Hp. cbv beta in Hp. bool_prop. by apply rs_claim.
Qed.

Lemma cas_evolves rep p f db db' b :
  unique db -> cas p f db = Ok (db', b) ->
  (forall r, p r = true -> row_step rep db' r (f r)) -> evolves rep db db'.
Proof.
  unfold cas. intros Hu H Hs. injection H as <- <-.
  eapply evolves_update; [exact Hu | reflexivity | auto].
Qed.

Lemma reclaim_evolves rep run key tok t0 t1 t2 t3 db db' o :
  unique db -> reclaim_expired_recovery_attempt run key tok t0 t1 t2 t3 db = Ok (db', o) ->
  evolves rep db db'.
Proof.
  unfold reclaim_expired_recovery_attempt. intros Hu H.
  destruct (fetchone (at_key run key) (ledger db)) as [ex|] eqn:E; [|discriminate].
  case_in H; [injection H as <- <-; by apply evolves_refl|].
  case_in H; [injection H as <- <-; by apply evolves_refl|].
  case_in H; injection H as <- <-; (eapply evolves_update; [exact Hu | reflexivity|]);
    intros r Hr Hp; cbv beta in Hp; bool_prop.
  - by apply rs_unknown.
  - apply rs_reclaim; [done|]. by apply is_null_true.
Qed.

(** ** Crash repair, row by row *)

(** A recovery child whose worker let its lease expire. *)
Definition lost (run : string) (now : Z) (r : Row) : bool :=
  match parent_side_effect_key r, execution_claim_id r, claim_expires_at r with
  | Some _, Some _, Some e => (run_id r =? run)%string && (status r =? "started")%string && (e <=? now)
  | _, _, _ => false
  end.

(** What has to become of a row: past its dispatch boundary a lost child is
    unknown, before it it is planned again and free; nothing else changes. *)
Definition repaired_row (run : string) (now : Z) (r : Row) : Row :=
  if negb (lost run now r) then r
  else match dispatch_attempted_at r with
       | Some _ => set_status "unknown" r
       | None => set_dispatch None (set_claim None None None (set_status "planned" r))
       end.

(** What has to become of an action: the open one of a lost child ends with it. *)
Definition held_action (run : string) (now : Z) (a : ExecutionAction) (r : Row) : bool :=
  lost run now r && (act_run_id a =? run)%string && (retry_attempt_key a =? idempotency_key r)%string
  && sql_eq (act_claim_id a) (execution_claim_id r) && mem (execution_status a) ["claimed"; "dispatch_started"].

Definition ended_action (now : Z) (a : ExecutionAction) (r : Row) : ExecutionAction :=
  let '(st, code) := match dispatch_attempted_at r with
                     | Some _ => ("unknown", "lease_expired_after_dispatch")
                     | None => ("not_acquired", "lease_expired_before_dispatch")
                     end in
  mkAction (action_id a) (operator_action_id a) (act_run_id a) (retry_attempt_key a) st (act_claim_id a)
    (started_at a) (Some now) (coalesce (outcome_code a) (Some code)) (metadata_json a).

Definition settled_action (run : string) (now : Z) (rows : list Row) (a : ExecutionAction) : ExecutionAction :=
  match List.find (held_action run now a) rows with Some r => ended_action now a r | None => a end.

(** What has to be told of a row. *)
Definition scan_entry (r : Row) : string * string :=
  (idempotency_key r, match dispatch_attempted_at r with Some _ => "unknown" | None => "requeued" end).

Definition requeue_event (run : string) (now revision : Z) (r : Row) : list StateEvent :=
  match dispatch_attempted_at r with
  | Some _ => []
  | None => [mkEvent run revision "side_effect_retry_requeued"
               [("child_key", idempotency_key r); ("action", "requeued")] now]
  end.

Lemma lost_true run now r : lost run now r = true ->
  run_id r = run /\ status r = "started" /\ parent_side_effect_key r <> None /\ execution_claim_id r <> None /\
  exists e, claim_expires_at r = Some e /\ e <= now.
Proof.
  unfold lost. destruct (parent_side_effect_key r); [|done]. destruct (execution_claim_id r); [|done].
  destruct (claim_expires_at r) as [e|]; [|done]. intros H. bool_prop. split_and!; [done..|]. by exists e.
Qed.

Lemma lost_expired run now r : lost run now r = expired_child run now r && not_null (execution_claim_id r).
Proof.
  unfold lost, expired_child, sql_le. destruct (parent_side_effect_key r), (execution_claim_id r), (claim_expires_at r); cbn;
    by rewrite ?andb_true_r, ?andb_false_r.
Qed.

Lemma expired_child_true run now r :
  expired_child run now r = true ->
  run_id r = run /\ status r = "started" /\ sql_le (claim_expires_at r) now = true.
Proof. unfold expired_child. intros H. bool_prop. done. Qed.

Lemma repaired_key run now r : row_key (repaired_row run now r) = row_key r.
Proof. unfold repaired_row. destruct (lost _ _ _); cbn [negb]; [|done]. by destruct (dispatch_attempted_at r). Qed.

Lemma repaired_keys run now l : map row_key (map (repaired_row run now) l) = map row_key l.
Proof. rewrite map_map. apply map_ext. intros r. apply repaired_key. Qed.

Lemma repaired_not_started run now r : lost run now r = true -> status (repaired_row run now r) <> "started".
Proof. unfold repaired_row. intros ->. cbn [negb]. by destruct (dispatch_attempted_at r). Qed.

Lemma row_key_in (r : Row) l : r ∈ l -> row_key r ∈ map row_key l.
Proof. intros H. apply list_elem_of_In, in_map. by apply list_elem_of_In. Qed.

(** The repair of a row finds it, and it alone, if it is lost. *)
Lemma target_hits run now r x :
  expired_child run now r = true ->
  repair_target run now (not_null (dispatch_attempted_at r)) (idempotency_key r) (execution_claim_id r) x = true ->
  row_key x = row_key r /\ not_null (execution_claim_id r) = true.
Proof.
  unfold expired_child, repair_target. intros Hx Ht. bool_prop. destruct_and?. bool_prop.
  match goal with H : at_key _ _ _ = true |- _ => apply at_key_true in H as -> end. unfold row_key. split; [congruence|].
  destruct (execution_claim_id r); [done|]. by destruct (execution_claim_id x).
Qed.

Lemma target_self run now r : lost run now r = true ->
  repair_target run now (not_null (dispatch_attempted_at r)) (idempotency_key r) (execution_claim_id r) r = true.
Proof.
  intros (Hr & Hs & _ & Hc & e & He & Hle)%lost_true. unfold repair_target, at_key.
  rewrite Hr, Hs, He, Bool.eqb_reflx, !String.eqb_refl. destruct (execution_claim_id r); [|done]. cbn.
  rewrite String.eqb_refl, !andb_true_r. by apply Z.leb_le.
Qed.

Lemma find_ended run now l a r : List.find (held_action run now (ended_action now a r)) l = None.
Proof.
  induction l as [|x l IH]; [done|]. cbn [List.find]. unfold held_action at 1, ended_action at 1 2 3 4.
  by destruct (dispatch_attempted_at r); cbn; rewrite !andb_false_r.
Qed.

Lemma settled_cons run now r l a :
  settled_action run now (r :: l) a =
  settled_action run now l (if held_action run now a r then ended_action now a r else a).
Proof.
  unfold settled_action. cbn [List.find]. destruct (held_action run now a r); [|done]. by rewrite find_ended.
Qed.

(** One turn of the loop over the rows. *)
Lemma reconcile_row_spec run now r l1 l2 db res :
  expired_child run now r = true -> NoDup (map row_key (l1 ++ r :: l2)) -> ledger db = l1 ++ r :: l2 ->
  exists db1, reconcile_row run now r (db, res) = (db1, res ++ (if lost run now r then [scan_entry r] else [])) /\
    ledger db1 = l1 ++ repaired_row run now r :: l2 /\
    actions db1 = map (fun a => if held_action run now a r then ended_action now a r else a) (actions db) /\
    events db1 = events db ++ (if lost run now r then requeue_event run now (dget_or run 0 (revisions db)) r else []) /\
    decisions db1 = decisions db /\ revisions db1 = revisions db.
Proof.
  intros Hx Hn Hl. unfold reconcile_row.
  set (p := repair_target run now (not_null (dispatch_attempted_at r)) (idempotency_key r) (execution_claim_id r)).
  assert (Honly : forall x, x ∈ ledger db -> p x = true -> x = r /\ lost run now r = true).
  { intros x Hin Hp. destruct (target_hits _ _ _ _ Hx Hp) as [Hk Hc]. rewrite lost_expired, Hx, Hc. split; [|done].
    rewrite Hl in Hin. eapply (unique_key row_key); [exact Hn | exact Hin | |exact Hk]. apply elem_of_app. right. left. }
  destruct (lost run now r) eqn:El.
  2: { assert (rowcount p (ledger db) = 0%nat) as ->.
       { apply count_zero. intros x Hin. destruct (p x) eqn:Ep; [|done]. by destruct (Honly x Hin Ep). }
       cbn [Nat.eqb]. exists db. rewrite !app_nil_r. unfold repaired_row. rewrite El. cbn [negb].
       split_and!; try done. unfold held_action. rewrite El. symmetry. apply map_id. }
  assert (Nat.eqb (rowcount p (ledger db)) 0 = false) as ->.
  { apply Nat.eqb_neq, rowcount_pos. exists r. split; [rewrite Hl; apply elem_of_app; right; left | by apply target_self]. }
  assert (Hupd : forall f, update_where p f (ledger db) = l1 ++ f r :: l2).
  { intros f. rewrite Hl in *. rewrite map_app in Hn. cbn in Hn. apply NoDup_app in Hn as (_ & Hd & [Hnr _]%NoDup_cons).
    assert (Hno : forall l, (forall x, x ∈ l -> x ∈ l1 ++ r :: l2 /\ x <> r) -> update_where p f l = l).
    { intros l Hl'. apply update_where_none, count_zero. intros x Hin. destruct (p x) eqn:Ep; [|done].
      destruct (Hl' x Hin) as [Hin' Hne]. by destruct (Honly x Hin' Ep). }
    unfold update_where in *. rewrite map_app. cbn [map]. rewrite (target_self _ _ _ El : p r = true). f_equal; [|f_equal]; apply Hno.
    - intros x Hin. split; [by apply elem_of_app; left|]. intros ->. apply (Hd (row_key r)); [by apply row_key_in | left].
    - intros x Hin. split; [by apply elem_of_app; right; right|]. intros ->. by apply Hnr, row_key_in. }
  destruct (lost_true _ _ _ El) as (Hrun & _).
  unfold repaired_row, scan_entry, requeue_event. rewrite El. cbn [negb].
  destruct (dispatch_attempted_at r) as [t|] eqn:Ed; cbn [not_null is_null negb];
    (eexists; split; [reflexivity|]; cbn [ledger actions events decisions revisions close_actions with_actions with_ledger with_events];
     split_and!; try apply Hupd; try done; try (by rewrite app_nil_r));
    unfold update_where; apply map_ext; intros a; unfold held_action, ended_action; rewrite El, Ed; done.
Qed.

Lemma reconcile_fold_spec run now l2 : forall l1 db res,
  NoDup (map row_key (l1 ++ l2)) -> ledger db = map (repaired_row run now) l1 ++ l2 ->
  exists db', fold_left (fun st row => reconcile_row run now row st) (List.filter (expired_child run now) l2) (db, res)
      = (db', res ++ map scan_entry (List.filter (lost run now) l2)) /\
    ledger db' = map (repaired_row run now) (l1 ++ l2) /\
    actions db' = map (settled_action run now l2) (actions db) /\
    events db' = events db ++ concat (map (requeue_event run now (dget_or run 0 (revisions db))) (List.filter (lost run now) l2)) /\
    decisions db' = decisions db /\ revisions db' = revisions db.
Proof.
  induction l2 as [|r l2 IH]; intros l1 db res Hn Hl.
  - exists db. rewrite !app_nil_r in *. split_and!; try done. symmetry. apply map_id.
  - assert (Hsnoc : l1 ++ r :: l2 = (l1 ++ [r]) ++ l2) by by rewrite <- app_assoc.
    assert (Hmap : forall x, map (repaired_row run now) (l1 ++ [r]) ++ x = map (repaired_row run now) l1 ++ repaired_row run now r :: x)
      by (intros x; by rewrite map_app, <- app_assoc).
    cbn [List.filter]. destruct (expired_child run now r) eqn:Ex.
    + cbn [fold_left]. destruct (reconcile_row_spec run now r (map (repaired_row run now) l1) l2 db res Ex) as
        (db1 & -> & H1 & H2 & H3 & H4 & H5); [|exact Hl|].
      { revert Hn. by rewrite !map_app, repaired_keys. }
      destruct (IH (l1 ++ [r]) db1 (res ++ (if lost run now r then [scan_entry r] else []))) as (db' & -> & K1 & K2 & K3 & K4 & K5).
      { by rewrite <- Hsnoc. } { by rewrite Hmap, H1. }
      exists db'. rewrite Hsnoc, K1, K2, K3, K4, K5, H2, H3, H4, H5, map_map, <- !app_assoc. split_and!; try done.
      * by destruct (lost run now r).
      * apply map_ext. intros a. by rewrite settled_cons.
      * by destruct (lost run now r).
    + assert (lost run now r = false) as El by by rewrite lost_expired, Ex. rewrite El.
      destruct (IH (l1 ++ [r]) db res) as (db' & -> & K1 & K2 & K3 & K4 & K5).
      { by rewrite <- Hsnoc. } { rewrite Hmap. unfold repaired_row at 2. by rewrite El. }
      exists db'. rewrite Hsnoc, K1, K2, K3, K4, K5. split_and!; try done.
      apply map_ext. intros a. rewrite settled_cons. unfold held_action. by rewrite El.
Qed.

(** What a repair leaves: every lost child and its action settled, an event
    for each requeue, and nothing else changed. *)
Record repairs (run : string) (now : Z) (db db' : Db) : Prop := {
  repaired_ledger : ledger db' = map (repaired_row run now) (ledger db);
  repaired_actions : actions db' = map (settled_action run now (ledger db)) (actions db);
  repaired_events : events db' = events db ++
    concat (map (requeue_event run now (dget_or run 0 (revisions db))) (List.filter (lost run now) (ledger db)));
  repaired_decisions : decisions db' = decisions db;
  repaired_revisions : revisions db' = revisions db;
}.

Lemma reconcile_spec run now db : unique db ->
  exists db', reconcile_expired_recovery_children run now db = Ok (db', map scan_entry (List.filter (lost run now) (ledger db))) /\
    repairs run now db db'.
Proof.
  intros Hu. destruct (reconcile_fold_spec run now (ledger db) [] db []) as (db' & Hf & H1 & H2 & H3 & H4 & H5); [done..|].
  exists db'. unfold reconcile_expired_recovery_children, select. rewrite Hf. by split; [|split].
Qed.

Lemma reconcile_evolves run now db db' res :
  unique db -> reconcile_expired_recovery_children run now db = Ok (db', res) -> evolves (Some (run, now)) db db'.
Proof.
  intros Hu H. destruct (reconcile_spec run now db Hu) as (db1 & E & [Hl _ _ _ _]). rewrite E in H. injection H as <- _.
  exists (repaired_row run now), []. rewrite !app_nil_r. split_and!; [exact Hl| | |exact Hu].
  - intros r _. unfold repaired_row. destruct (lost run now r) eqn:El; cbn [negb]; [|constructor].
    destruct (lost_true _ _ _ El) as (Hr & Hs & Hp & Hc & e & He & Hle).
    destruct (dispatch_attempted_at r) eqn:Ed; [by apply rs_unknown|]. by eapply rs_requeue; [rewrite Hr|..].
  - intros r Hin. inversion Hin.
Qed.

Lemma exec_evolves o db : unique db -> evolves (repair_of o) db (exec o db).
Proof.
  intros Hu. destruct o; simpl; apply commit_cases; try (by apply evolves_refl); intros db' x H.
  - destruct x. by eapply record_evolves.
  - destruct x. by eapply update_evolves.
  - destruct x. by eapply resolve_evolves.
  - by eapply claim_evolves.
  - eapply cas_evolves; [done | exact H|]. intros r (_ & Hs & _)%held_by_true. by constructor.
  - eapply cas_evolves; [done | exact H|]. intros r (_ & Hs & _)%held_by_true. by constructor.
  - eapply cas_evolves; [done | exact H|]. intros r (_ & Hs & _)%held_by_true. by constructor.
  - eapply cas_evolves; [done | exact H|]. 
    intros r [[Hh Hn]%andb_true_iff _]%andb_true_iff.
    apply held_by_true in Hh as (_ & Hs & _). apply is_null_true in Hn. by apply rs_mark.
  - by eapply reclaim_evolves.
  - by eapply reconcile_evolves.
  - unfold create_recovery_execution_action in H. case_in H; [discriminate|].
    injection H as <- <-. by apply evolves_refl.
  - injection H as <- <-. by apply evolves_refl.
  - unfold finalize_recovery_execution_action in H. inv_bind H. injection H as <- <-.
    by apply evolves_refl.
Qed.

(** ** Runs of operations *)

Definition run_ops (ops : list ledger_op) (db : Db) : Db :=
  fold_left (fun db o => exec o db) ops db.

Lemma exec_unique o db : unique db -> unique (exec o db).
Proof. intros Hu. eapply evolves_unique, exec_evolves, Hu. Qed.

Lemma run_ops_unique ops db : unique db -> unique (run_ops ops db).
Proof.
  revert db. induction ops as [|o ops IH]; intros db Hu; [done|].
  by apply IH, exec_unique.
Qed.

(** A property of a row that every step keeps is kept by every run. *)
Lemma run_ops_row (P : Row -> Prop) ops db r :
  (forall rep d r r', row_step rep d r r' -> P r -> P r') ->
  unique db -> r ∈ ledger db -> P r ->
  exists r', r' ∈ ledger (run_ops ops db) /\ row_key r' = row_key r /\ P r'.
Proof.
  intros HP. revert db r. induction ops as [|o ops IH]; intros db r Hu Hr Hp; [eauto|].
  destruct (evolves_keeps _ _ _ _ (exec_evolves o db Hu) Hr) as (r1 & Hr1 & Hs1).
  destruct (IH (exec o db) r1) as (r' & H1 & H2 & H3); [by apply exec_unique|done|eauto|].
  exists r'. split; [exact H1|]. split; [|exact H3]. rewrite H2. by eapply row_step_key.
Qed.

Definition terminal (s : string) : Prop :=
  s = "completed" \/ s = "failed" \/ s = "retry_authorized".

Lemma terminal_no_transition s s' :
  terminal s -> validate_side_effect_transition s s' = false.
Proof. by intros [-> | [-> | ->]]. Qed.

Lemma row_step_terminal rep d r r' : row_step rep d r r' -> terminal (status r) -> r' = r.
Proof.
  intros Hs Ht. destruct Hs; try done;
    try (match goal with H : status _ = _ |- _ => rewrite H in Ht end;
         destruct Ht as [Ht|[Ht|Ht]]; discriminate Ht).
  match goal with H : validate_side_effect_transition _ _ = true |- _ =>
    by rewrite terminal_no_transition in H end.
Qed.

(** The status graph of a ledger row under an operation: a legal transition,
    out of [unknown] only with the decision for it on record, or the requeue
    by a repair of a recovery child of its run: claimed, its lease expired by
    the time of the repair, never dispatched. *)
Definition status_edge (o : ledger_op) (db' : Db) (r r' : Row) : Prop :=
  status r' = status r \/
  (validate_side_effect_transition (status r) (status r') = true /\
   (status r = "unknown" -> decided db' r (status r'))) \/
  (exists now e, o = OReconcile (run_id r) now /\ status r = "started" /\ status r' = "planned" /\
     parent_side_effect_key r <> None /\ execution_claim_id r <> None /\
     claim_expires_at r = Some e /\ e <= now /\ dispatch_attempted_at r = None).

Lemma row_step_edge o d r r' : row_step (repair_of o) d r r' -> status_edge o d r r'.
Proof.
  unfold status_edge. destruct 1; cbn [status set_status set_result set_capsule set_claim set_expiry set_response set_dispatch];
    try (by left); try (by right; left); right;
    first [left; match goal with H : status _ = _ |- _ => rewrite H end; by split | right].
  exists now, e. split_and!; try done. destruct o; try discriminate. cbn in *. congruence.
Qed.

Lemma row_step_dispatch rep d r r' t :
  row_step rep d r r' -> dispatch_attempted_at r = Some t -> dispatch_attempted_at r' = Some t.
Proof. destruct 1; simpl; congruence. Qed.

(** C25: Every operation moves every row along an edge of the transition
    table, out of [unknown] only on a matching recovery decision, and keeps
    its key unique.  The one step back, from [started] to [planned], is taken
    by the crash repair alone, and only for a recovery child of the repaired
    run whose claim has expired and whose dispatch boundary was never
    crossed. *)
Theorem ledger_transitions_legal o db :
  unique db ->
  unique (exec o db) /\
  forall r, r ∈ ledger db ->
    exists r', r' ∈ ledger (exec o db) /\ row_key r' = row_key r /\ status_edge o (exec o db) r r' /\
      forall r'', r'' ∈ ledger (exec o db) -> row_key r'' = row_key r -> r'' = r'.
Proof.
  intros Hu. split; [by apply exec_unique|]. intros r Hr.
  destruct (evolves_keeps _ _ _ _ (exec_evolves o db Hu) Hr) as (r' & Hr' & Hs).
  exists r'. pose proof (row_step_key _ _ _ _ Hs) as Hk.
  split_and!; [done|done|by eapply row_step_edge|].
  intros r'' Hr'' Hk''. eapply (unique_key row_key); [|done|done|congruence].
  by apply exec_unique.
Qed.

(** A row that is completed, failed or retry_authorized is never changed
    again, in any column, by any sequence of operations. *)
Theorem terminal_rows_immutable ops db r :
  unique db -> r ∈ ledger db -> terminal (status r) -> r ∈ ledger (run_ops ops db).
Proof.
  intros Hu Hr Ht.
  destruct (run_ops_row (fun x => x = r) ops db r) as (r' & Hr' & _ & ->); try done.
  intros rep d x x' Hs ->. by eapply row_step_terminal.
Qed.

(** An effect leaves [unknown] only when a matching recovery decision for
    it is on record: verified_completed to complete it, verified_failed or
    mark_unrecoverable to fail it, safe_to_retry to authorize a retry. *)
Theorem unknown_needs_decision o db r r' :
  unique db -> r ∈ ledger db -> r' ∈ ledger (exec o db) -> row_key r' = row_key r ->
  status r = "unknown" -> status r' <> "unknown" ->
  exists d, d ∈ decisions (exec o db) /\
    rd_run_id d = run_id r /\ rd_key d = idempotency_key r /\
    rd_decision d ∈ required_decisions (status r').
Proof.
  intros Hu Hr Hr' Hk Hs Hs'.
  pose proof (evolves_row _ _ _ _ _ (exec_evolves o db Hu) Hr Hr' (eq_sym Hk)) as Hst.
  destruct Hst; simpl in *; try congruence.
  match goal with H : status _ = "unknown" -> decided _ _ _ |- _ => specialize (H Hs);
    unfold decided, intersects in H; apply existsb_elem in H as (x & Hx & Hm) end.
  apply mem_true in Hm. unfold decisions_for in Hm.
  apply list_elem_of_In, in_map_iff in Hm as (d & <- & Hd). apply list_elem_of_In in Hd.
  unfold select in Hd. apply elem_of_lfilter in Hd as [Hd1 Hd2]. bool_prop. eauto.
Qed.

(** ** At most one dispatch *)

(** Did the operation cross the dispatch boundary of the effect? *)
Definition dispatched_by (run key : string) (o : ledger_op) (db : Db) : bool :=
  match o with
  | OMark run' key' token now =>
      (run' =? run)%string && (key' =? key)%string &&
      match mark_recovery_dispatch_attempted run' key' token now db with
      | Ok (_, b) => b
      | Err _ => false
      end
  | _ => false
  end.

Fixpoint dispatch_count (run key : string) (ops : list ledger_op) (db : Db) : nat :=
  match ops with
  | [] => 0
  | o :: rest =>
      (if dispatched_by run key o db then 1 else 0) + dispatch_count run key rest (exec o db)
  end%nat.

Definition mark_target (run key token : string) (now : Z) (r : Row) : bool :=
  held_by run key token r && is_null (dispatch_attempted_at r) && sql_gt (claim_expires_at r) now.

Lemma mark_spec run key token now db :
  mark_recovery_dispatch_attempted run key token now db =
  Ok (with_ledger (update_where (mark_target run key token now) (set_dispatch (Some now))
                     (ledger db)) db,
      (0 <? rowcount (mark_target run key token now) (ledger db))%nat).
Proof. reflexivity. Qed.

Lemma dispatched_by_marks run key o db :
  dispatched_by run key o db = true ->
  exists token now r, o = OMark run key token now /\ r ∈ ledger db /\
    mark_target run key token now r = true.
Proof.
  destruct o; cbn [dispatched_by]; try discriminate. rewrite mark_spec.
  rewrite !andb_true_iff, !String.eqb_eq. intros [[-> ->] H]. apply Nat.ltb_lt in H.
  destruct (proj1 (rowcount_pos (mark_target run key token now) (ledger db)))
    as (r & Hr & Hp); [lia|]. eauto 10.
Qed.

Lemma marked_key run key token now r :
  mark_target run key token now r = true ->
  row_key r = (run, key) /\ dispatch_attempted_at r = None.
Proof.
  unfold mark_target. intros [[H1 H2]%andb_true_iff _]%andb_true_iff.
  apply held_by_true in H1. apply is_null_true in H2. tauto.
Qed.

Lemma dispatched_stays run key ops db r t :
  unique db -> r ∈ ledger db -> row_key r = (run, key) -> dispatch_attempted_at r = Some t ->
  dispatch_count run key ops db = 0%nat.
Proof.
  revert db r. induction ops as [|o ops IH]; intros db r Hu Hr Hk Hd; [done|]. simpl.
  destruct (dispatched_by run key o db) eqn:E.
  - apply dispatched_by_marks in E as (token & now & r0 & -> & Hr0 & Hm).
    apply marked_key in Hm as [Hk0 Hd0].
    assert (r0 = r) as -> by (eapply (unique_key row_key); eauto; congruence). congruence.
  - destruct (evolves_keeps _ _ _ _ (exec_evolves o db Hu) Hr) as (r' & Hr' & Hs).
    apply (IH (exec o db) r'); [by apply exec_unique | done | |by eapply row_step_dispatch].
    rewrite (row_step_key _ _ _ _ Hs). exact Hk.
Qed.

(** C24: whatever the interleaving of claims, heartbeats, reclaims, repairs and
    dispatch marks of any number of workers, the dispatch boundary of an
    effect is crossed at most once, and only by the worker that holds the
    claim of the started row within its lease. *)
Theorem at_most_one_dispatch run key ops db :
  unique db ->
  (dispatch_count run key ops db <= 1)%nat /\
  forall token now db', mark_recovery_dispatch_attempted run key token now db = Ok (db', true) ->
    exists r e, r ∈ ledger db /\ row_key r = (run, key) /\ status r = "started" /\
      execution_claim_id r = Some token /\ claim_expires_at r = Some e /\ now < e /\
      dispatch_attempted_at r = None.
Proof.
  intros Hu. split.
  - revert db Hu. induction ops as [|o ops IH]; intros db Hu; simpl; [lia|].
    specialize (IH (exec o db) (exec_unique o db Hu)).
    destruct (dispatched_by run key o db) eqn:E; [|lia].
    apply dispatched_by_marks in E as (token & now & r & -> & Hr & Hm).
    pose proof (marked_key _ _ _ _ _ Hm) as [Hk _].
    rewrite (dispatched_stays run key ops _ (set_dispatch (Some now) r) now); [lia| |
      |exact Hk|done].
    + by apply exec_unique.
    + cbn [exec]. unfold commit. rewrite mark_spec. cbn [ledger with_ledger].
      apply elem_of_update_where. exists r. split; [exact Hr|]. by rewrite Hm.
  - intros token now db' H. rewrite mark_spec in H. injection H as _ H.
    apply Nat.ltb_lt in H.
    destruct (proj1 (rowcount_pos (mark_target run key token now) (ledger db)))
      as (r & Hr & Hp); [lia|].
    unfold mark_target in Hp. apply andb_true_iff in Hp as [[Hh Hn]%andb_true_iff Hg].
    apply held_by_true in Hh as (Hk & Hs & Hc). apply is_null_true in Hn.
    destruct (claim_expires_at r) as [e|] eqn:Ee; [|discriminate]. simpl in Hg. bool_prop.
    exists r, e. tauto.
Qed.

(** ** Fencing *)

Definition no_op (db : Db) (o : op bool) : Prop := o db = Ok (db, false).

Lemma cas_no_op p f db : (forall r, r ∈ ledger db -> p r = false) -> no_op db (cas p f).
Proof.
  intros H. unfold no_op, cas.
  assert (rowcount p (ledger db) = 0%nat) as Hc by by apply count_zero.
  rewrite Hc, update_where_none by exact Hc. simpl. by destruct db.
Qed.

Lemma not_held db run key token :
  (forall r, r ∈ ledger db -> row_key r = (run, key) ->
    execution_claim_id r <> Some token) ->
  forall r, r ∈ ledger db -> held_by run key token r = false.
Proof.
  intros H r Hr. destruct (held_by run key token r) eqn:E; [|done].
  apply held_by_true in E as (Hk & _ & Hc). by destruct (H r Hr Hk).
Qed.

(** Once a lease was reclaimed under a new token, the worker that held the
    old token can neither extend the lease, nor cross the dispatch boundary,
    nor complete or fail the child: each call reports False and changes
    nothing. *)
Theorem stale_token_fenced run key new_token t0 t1 t2 t3 db db' old resp now :
  unique db ->
  reclaim_expired_recovery_attempt run key new_token t0 t1 t2 t3 db = Ok (db', Some new_token) ->
  old <> new_token ->
  no_op db' (heartbeat_recovery_attempt run key old now) /\
  no_op db' (mark_recovery_dispatch_attempted run key old now) /\
  no_op db' (complete_recovery_attempt run key old resp) /\
  no_op db' (fail_recovery_attempt run key old).
Proof.
  intros Hu H Hne.
  assert (Hheld : forall r, r ∈ ledger db' -> held_by run key old r = false).
  { apply not_held.
    unfold reclaim_expired_recovery_attempt in H.
    destruct (fetchone (at_key run key) (ledger db)) as [ex|] eqn:E; [|discriminate].
    case_in H; [discriminate|]. case_in H; [discriminate|]. case_in H; [discriminate|].
    injection H as <- Hc. case_in Hc; [|discriminate]. apply Nat.ltb_lt in Heqb2.
    intros r' Hr' Hk'. simpl in Hr'. apply elem_of_update_where in Hr' as (r & Hr & ->).
    match goal with H : (0 < rowcount ?p _)%nat |- _ =>
      destruct (proj1 (rowcount_pos p (ledger db))) as (r0 & Hr0 & Hp0); [lia|] end.
    assert (r = r0) as ->.
    { eapply (unique_key row_key); [exact Hu|done|done|].
      case_in Hk'; simpl in Hk'.
      all: cbv beta in Hp0; rewrite !andb_true_iff, at_key_true in Hp0.
      all: destruct Hp0 as [[[[Hk0 _] _] _] _]. all: rewrite Hk0. all: exact Hk'. }
    rewrite Hp0. simpl. congruence. }
  split_and!; apply cas_no_op; intros r Hr; cbv beta; rewrite ?Hheld by exact Hr; done.
Qed.

(** ** Repair agrees with the scan *)

Lemma repaired_not_lost run now r : lost run now (repaired_row run now r) = false.
Proof.
  destruct (lost run now (repaired_row run now r)) eqn:E; [|done]. destruct (lost run now r) eqn:El.
  - apply lost_true in E as (_ & Hs & _). by apply repaired_not_started in Hs.
  - unfold repaired_row in E. rewrite El in E. cbn in E. congruence.
Qed.

Lemma scan_spec run now db :
  (forall r, r ∈ ledger db -> expired_child run now r = true -> execution_claim_id r <> None) ->
  scan_expired_recovery_children run now db = map scan_entry (List.filter (lost run now) (ledger db)).
Proof.
  intros Hc. unfold scan_expired_recovery_children, select.
  replace (List.filter (lost run now) (ledger db)) with (List.filter (expired_child run now) (ledger db)).
  - apply map_ext. intros r. unfold scan_entry. by destruct (dispatch_attempted_at r).
  - apply List.filter_ext_in. intros r Hr%list_elem_of_In. rewrite lost_expired.
    destruct (expired_child run now r) eqn:E; [|done]. specialize (Hc r Hr E). by destruct (execution_claim_id r).
Qed.

(** C26: The mutating repair does exactly what the read-only scan of the same
    moment reports.  It returns the scan's list; in the ledger the children
    the scan calls unknown - those past their dispatch boundary - become
    unknown, the requeued ones are planned again with no claim, and no other
    row changes; the open action of each ends with it, each requeue leaves
    one event, and no expired child is left to a second scan. *)
Theorem reconcile_matches_scan run now db :
  unique db ->
  (forall r, r ∈ ledger db -> expired_child run now r = true -> execution_claim_id r <> None) ->
  scan_expired_recovery_children run now db = map scan_entry (List.filter (lost run now) (ledger db)) /\
  exists db', reconcile_expired_recovery_children run now db
              = Ok (db', scan_expired_recovery_children run now db) /\
    repairs run now db db' /\
    scan_expired_recovery_children run now db' = [].
Proof.
  intros Hu Hc. split; [by apply scan_spec|]. destruct (reconcile_spec run now db Hu) as (db' & E & Hr). exists db'.
  rewrite scan_spec, E by done. split_and!; [done..|].
  assert (Hl : forall r, r ∈ ledger db' -> expired_child run now r = false).
  { intros r' Hr'. rewrite (repaired_ledger _ _ _ _ Hr) in Hr'.
    apply list_elem_of_In, in_map_iff in Hr' as (r & <- & Hin%list_elem_of_In).
    destruct (expired_child run now (repaired_row run now r)) eqn:Ex; [|done].
    pose proof (repaired_not_lost run now r) as Hn. rewrite lost_expired, Ex in Hn. cbn in Hn.
    destruct (lost run now r) eqn:El.
    - apply lost_true in El as Hlt. unfold expired_child in Ex. bool_prop. destruct_and?. bool_prop. by apply repaired_not_started in El.
    - unfold repaired_row in Ex, Hn. rewrite El in Ex, Hn. cbn in Ex, Hn. specialize (Hc r Hin Ex). by destruct (execution_claim_id r). }
  unfold scan_expired_recovery_children, select.
  destruct (List.filter (expired_child run now) (ledger db')) as [|r l] eqn:E'; [done|].
  assert (r ∈ List.filter (expired_child run now) (ledger db')) as [Hx Hin]%elem_of_lfilter by (rewrite E'; left).
  by rewrite Hl in Hx.
Qed.

(** ** Resolution, replay and the guards *)

(** Resolving an unknown effect is atomic: either the decision is stored
    and the row has moved to the target status, which the decision allows,
    or the call raised and the database is as before. *)
Theorem resolve_atomic run key d target resp ext now db :
  unique db ->
  let o := resolve_side_effect_recovery_decision_transactional run key d target resp ext now in
  (commit o db = db /\ exists e, o db = Err e) \/
  (o db = Ok (commit o db, tt) /\
   decision_row run key d now ∈ decisions (commit o db) /\
   exists r, r ∈ ledger db /\ row_key r = (run, key) /\ status r = "unknown" /\
     set_result resp ext now (set_status target r) ∈ ledger (commit o db) /\
     (exists x, x ∈ required_decisions target /\ x ∈ decisions_for run key (commit o db)) /\
     mem target ["completed"; "failed"; "retry_authorized"] = true).
Proof.
  intros Hu o. destruct (o db) as [[db' []]|e] eqn:E; unfold commit; rewrite E; [right | left; eauto].
  split; [done|]. subst o. unfold resolve_side_effect_recovery_decision_transactional in E.
  inv_bind E. destruct (fetchone _ (ledger _)) as [ex|] eqn:Ef; [|discriminate].
  inv_bind E. apply guard_err_ok in Ha1, Ha2, Ha3. injection E as <-. bool_prop. simpl.
  split; [apply elem_of_app; right; left|].
  apply fetchone_some in Ef as [Hin Hk]. exists ex. split_and!.
  - exact Hin.
  - by apply at_key_true.
  - exact Ha1.
  - apply elem_of_update_where. exists ex. by rewrite Hk.
  - unfold intersects in Ha3. apply existsb_elem in Ha3 as (x & Hx & Hm).
    apply mem_true in Hm. eauto.
  - unfold validate_side_effect_transition in Ha2. by rewrite Ha1 in Ha2.
Qed.

(** Recording is idempotent per (run, key): recording the same effect
    again changes nothing, and the key with another node, type or request
    hash raises a collision. *)
Theorem record_idempotent run key a b now now' db db' :
  record_side_effect run key a now db = Ok (db', tt) ->
  fetchone (at_key run key) (ledger db) = None ->
  record_side_effect run key b now' db' =
    if negb (a_node_id a =? a_node_id b)%string
       || negb (a_side_effect_type a =? a_side_effect_type b)%string
       || (ostr_truthy (a_request_hash b) && ostr_truthy (a_request_hash a)
           && negb (bool_decide (a_request_hash b = a_request_hash a)))
    then Err CollisionError else Ok (db', tt).
Proof.
  unfold record_side_effect. intros H Hn. rewrite Hn in H.
  apply bind_ok in H as (db1 & H1 & [= <-]). unfold insert_row in H1.
  case_in H1; [discriminate|]. injection H1 as <-.
  assert (fetchone (at_key run key) (ledger (with_ledger (ledger db ++ [new_row run key a now db]) db))
          = Some (new_row run key a now db)) as ->.
  { simpl. unfold fetchone in *. revert Hn. generalize (ledger db). intros l.
    induction l as [|x l IH]; simpl.
    - intros _. unfold at_key. simpl. by rewrite !String.eqb_refl.
    - destruct (at_key run key x); [discriminate | exact IH]. }
  simpl. destruct (negb (a_node_id a =? a_node_id b)%string
                   || negb (a_side_effect_type a =? a_side_effect_type b)%string); simpl; [done|].
  by destruct (_ && _ && _).
Qed.

(** The ordinary update never touches a recovery child, and never a
    retry_authorized parent whose retry was allocated: it raises the code
    that names the reason. *)
Theorem update_guards run key s resp ext now db r :
  unique db -> r ∈ ledger db -> row_key r = (run, key) ->
  (parent_side_effect_key r <> None ->
   update_side_effect_status run key s resp ext now db
   = Err (RecoveryError "RECOVERY_CHILD_REQUIRES_FENCED_TRANSITION")) /\
  (parent_side_effect_key r = None -> status r = "retry_authorized" ->
   forall c, c ∈ ledger db -> is_child_of run key c = true ->
   update_side_effect_status run key s resp ext now db
   = Err (RecoveryError
            (if existsb (fun x => is_child_of run key x
                                  && mem (status x) ["planned"; "started"]) (ledger db)
             then "RECOVERY_TARGET_IN_FLIGHT" else "RECOVERY_TARGET_HAS_RETRY_LINEAGE"))).
Proof.
  intros Hu Hr Hk. unfold update_side_effect_status. rewrite (fetch_unique _ _ _ _ Hu Hr Hk).
  split.
  - intros Hp. destruct (parent_side_effect_key r); [done | by destruct Hp].
  - intros -> Hs c Hc Hch. simpl. unfold parent_guard. rewrite Hs. cbn [String.eqb Ascii.eqb Bool.eqb andb].
    assert (forall p, (0 <? rowcount p (ledger db))%nat = existsb p (ledger db)) as Hcount.
    { intros p. destruct (existsb p (ledger db)) eqn:E.
      - apply Nat.ltb_lt. enough (rowcount p (ledger db) <> 0%nat) by lia.
        apply rowcount_pos. by apply existsb_elem in E.
      - apply Nat.ltb_ge. enough (rowcount p (ledger db) = 0%nat) by lia.
        apply count_zero. by apply existsb_false. }
    rewrite !Hcount.
    assert (existsb (is_child_of run key) (ledger db) = true) as -> by (apply existsb_elem; eauto).
    by destruct (existsb _ _).
Qed.

(** ** A concrete run *)

#[export] Instance Row_eq_dec : EqDecision Row.
Proof. solve_decision. Defined.
#[export] Instance unique_dec db : Decision (unique db).
Proof. unfold unique. apply _. Defined.

Definition empty_db : Db := mkDb [] [] [] [] [("r", 7)].
Definition demo_args (parent decision : option string) : RecordArgs :=
  mkRecordArgs 1 "n" "external_call" None "planned" (Some "h") None None true parent parent
    (if not_null parent then 1 else 0) decision.
Definition demo_decision (id what : string) : DecisionDict :=
  mkDecisionDict id None None None (Some 1) None None (Some what) None None None None None None.

(** An effect ends up unknown. *)
Definition db_unknown : Db :=
  run_ops [ORecord "r" "k" (demo_args None None) 1;
           OUpdate "r" "k" "started" None None 2;
           OUpdate "r" "k" "unknown" None None 3] empty_db.
(** Its retry is authorized, and the child allocated with its action. *)
Definition db_child : Db :=
  run_ops [OResolve "r" "k" (demo_decision "d1" "safe_to_retry") "retry_authorized" None None 4;
           ORecord "r" "k2" (demo_args (Some "k") (Some "d1")) 5;
           OCreateAction "act" None "r" "k2" "tok" "{}"] db_unknown.
(** A worker claims the child. *)
Definition db_claimed : Db := exec (OClaim "r" "k2" "tok" "act" 10 10) db_child.

Definition row_of (key : string) (db : Db) : Row :=
  default (new_row "r" key (demo_args None None) 0 db) (fetchone (at_key "r" key) (ledger db)).

Ltac decided :=
  match goal with |- ?P => refine (bool_decide_eq_true_1 P _); vm_compute; reflexivity end.

Lemma ledger_transitions_legal_witness :
  unique (exec (OReconcile "r" 400000000) db_claimed) /\
  forall r, r ∈ ledger db_claimed ->
    exists r', r' ∈ ledger (exec (OReconcile "r" 400000000) db_claimed) /\ row_key r' = row_key r /\
      status_edge (OReconcile "r" 400000000) (exec (OReconcile "r" 400000000) db_claimed) r r' /\
      forall r'', r'' ∈ ledger (exec (OReconcile "r" 400000000) db_claimed) -> row_key r'' = row_key r -> r'' = r'.
Proof. refine (ledger_transitions_legal (OReconcile "r" 400000000) db_claimed _). decided. Defined.

Lemma terminal_rows_immutable_witness :
  status (row_of "k" db_child) = "retry_authorized" /\
  row_of "k" db_child ∈ ledger (run_ops [OUpdate "r" "k" "completed" None None 20;
                                         OReconcile "r" 999999999999] db_child).
Proof.
  split; [vm_compute; reflexivity|].
  apply (terminal_rows_immutable [OUpdate "r" "k" "completed" None None 20;
                                  OReconcile "r" 999999999999] db_child (row_of "k" db_child)).
  - decided.
  - decided.
  - right. right. vm_compute. reflexivity.
Defined.

Lemma unknown_needs_decision_witness :
  let o := OResolve "r" "k" (demo_decision "d1" "verified_completed") "completed" None None 4 in
  status (row_of "k" (exec o db_unknown)) = "completed" /\
  exists d, d ∈ decisions (exec o db_unknown) /\ rd_key d = "k".
Proof.
  intros o. split; [vm_compute; reflexivity|].
  destruct (unknown_needs_decision o db_unknown (row_of "k" db_unknown)
              (row_of "k" (exec o db_unknown))) as (d & Hd & _ & Hk & _).
  - decided.
  - decided.
  - decided.
  - vm_compute. reflexivity.
  - vm_compute. reflexivity.
  - vm_compute. discriminate.
  - exists d. split; [exact Hd | exact Hk].
Defined.

Lemma at_most_one_dispatch_witness :
  dispatch_count "r" "k2" [OMark "r" "k2" "tok" 11; OMark "r" "k2" "tok" 12] db_claimed = 1%nat /\
  (dispatch_count "r" "k2" [OMark "r" "k2" "tok" 11; OMark "r" "k2" "tok" 12] db_claimed <= 1)%nat.
Proof.
  split; [vm_compute; reflexivity|].
  refine (proj1 (at_most_one_dispatch "r" "k2"
                   [OMark "r" "k2" "tok" 11; OMark "r" "k2" "tok" 12] db_claimed _)). decided.
Defined.

Definition later : Z := 400000000.

Lemma stale_token_fenced_witness :
  let db' := exec (OReclaim "r" "k2" "tok2" later later later later) db_claimed in
  no_op db' (mark_recovery_dispatch_attempted "r" "k2" "tok" (later + 1)).
Proof.
  intros db'.
  refine (proj1 (proj2 (stale_token_fenced "r" "k2" "tok2" later later later later db_claimed db'
                          "tok" None (later + 1) _ _ _))).
  - decided.
  - vm_compute. reflexivity.
  - discriminate.
Defined.

Lemma reconcile_matches_scan_witness :
  scan_expired_recovery_children "r" later db_claimed = [("k2", "requeued")] /\
  exists db', reconcile_expired_recovery_children "r" later db_claimed
    = Ok (db', scan_expired_recovery_children "r" later db_claimed) /\
    repairs "r" later db_claimed db' /\
    scan_expired_recovery_children "r" later db' = [].
Proof.
  split; [vm_compute; reflexivity|]. apply (reconcile_matches_scan "r" later db_claimed).
  - decided.
  - intros r Hr%list_elem_of_In Hx.
    assert (forallb (fun r => negb (expired_child "r" later r)
                              || not_null (execution_claim_id r)) (ledger db_claimed) = true) as Hall
      by (vm_compute; reflexivity).
    rewrite forallb_forall in Hall. specialize (Hall r Hr). rewrite Hx in Hall.
    simpl in Hall. destruct (execution_claim_id r); [discriminate | discriminate Hall].
Defined.

Lemma resolve_atomic_witness :
  let o := resolve_side_effect_recovery_decision_transactional "r" "k"
             (demo_decision "d9" "safe_to_retry") "completed" None None 4 in
  commit o db_unknown = db_unknown /\
  ((commit o db_unknown = db_unknown /\ exists e, o db_unknown = Err e) \/ True).
Proof.
  intros o. split; [vm_compute; reflexivity|].
  destruct (resolve_atomic "r" "k" (demo_decision "d9" "safe_to_retry") "completed" None None 4
              db_unknown) as [H|H]; [decided | left; exact H | right; exact I].
Defined.

Lemma record_idempotent_witness :
  record_side_effect "r" "k" (demo_args None None) 9 (exec (ORecord "r" "k" (demo_args None None) 1) empty_db)
  = Ok (exec (ORecord "r" "k" (demo_args None None) 1) empty_db, tt).
Proof.
  apply (record_idempotent "r" "k" (demo_args None None) (demo_args None None) 1 9 empty_db).
  - vm_compute. reflexivity.
  - vm_compute. reflexivity.
Defined.

Lemma update_guards_witness :
  update_side_effect_status "r" "k2" "completed" None None 12 db_claimed
  = Err (RecoveryError "RECOVERY_CHILD_REQUIRES_FENCED_TRANSITION").
Proof.
  refine (proj1 (update_guards "r" "k2" "completed" None None 12 db_claimed
                   (row_of "k2" db_claimed) _ _ _) _).
  - decided.
  - decided.
  - vm_compute. reflexivity.
  - vm_compute. discriminate.
Defined.
