(* ===== verification/Capsules.v ===== *)
(** * Replay capsules

    [core/side_effect_utils.py], the pure part of [core/capsule_crypto.py],
    [CapsuleStore] and [RunKeyStore] of [core/stores.py] and
    [StateManager.start_side_effect_with_capsule] of [core/state.py]: a
    governed effect becomes [started] together with the encrypted operation a
    retry would replay.

    Parameters: AES-GCM of the cryptography package, SHA-256 (hexadecimal) and
    UUIDv5 under the fixed namespace.  Random bytes and clock readings are
    arguments.  Bytes and texts are the same type; [Json] writes and reads
    the payloads. *)
From Corelib Require Import SpecFloat.
From S2P Require Import Prelude PyFloat PyValue Json Sql SideEffectLedger.

(** ** Tables *)

Record CapsuleRow := mkCapsule {
  cap_id : string;
  cap_run_id : string;
  cap_key : string;
  capsule_digest : string;
  capsule_schema_version : Z;
  cap_canonicalization_version : string;
  encrypted_payload : string;
  cap_nonce : string;
  key_version : Z;
  payload_sensitivity : string;
  serialization_version : string;
  source_binding_json : string;
  cap_created_at : Z;
}.

Record RunKeyRow := mkRunKey {
  rk_run_id : string;
  encrypted_dek : string;
  rk_key_version : Z;
  rk_nonce : string;
  rk_created_at : Z;
  purged_at : option Z;
}.

(** The database of a runtime: the ledger's tables and the two of this file. *)
Record CDb := mkCDb {
  core : Db;
  capsules : list CapsuleRow;
  run_keys : list RunKeyRow;
}.

Definition with_core (d : Db) (c : CDb) : CDb := mkCDb d (capsules c) (run_keys c).
Definition with_keys (k : list RunKeyRow) (c : CDb) : CDb := mkCDb (core c) (capsules c) k.

Inductive capsule_error :=
| PayloadError
| CapsuleOversized
| EmptyIdentity
| CapsuleEncryptionError
| StoreError (e : ledger_error).

#[export] Instance capsule_error_eq_dec : EqDecision capsule_error.
Proof. solve_decision. Defined.

(** ** Canonical payloads and derived identities *)

Definition MAX_CAPSULE_SIZE_BYTES : nat := 65536.
Definition CAPSULE_SCHEMA_VERSION : Z := 1.

(** [sort_keys=True, separators=(",", ":"), ensure_ascii=False, allow_nan=False] *)
Definition canonical_options : JsonOptions := mkJsonOptions "" "" false true false.

Definition canonicalize_capsule_payload (v : pyval) : option string :=
  option_map utf8_encode (dumps canonical_options v).

(** [json.loads] of bytes *)
Definition loads_bytes (b : string) : option pyval := utf8_decode b ≫= loads.

Section Identities.
Context (uuid5 : string -> string).

Definition make_capsule_id (run key : string) : res capsule_error string :=
  if str_truthy run && str_truthy key
  then Ok ("cap:" +:+ uuid5 (run +:+ "::" +:+ key +:+ "::v" +:+ str_int CAPSULE_SCHEMA_VERSION))
  else Err EmptyIdentity.

Definition make_retry_side_effect_key (parent decision : string) : res capsule_error string :=
  if str_truthy parent && str_truthy decision
  then Ok ("retry:" +:+ uuid5 (parent +:+ "::" +:+ decision))
  else Err EmptyIdentity.
End Identities.

Definition make_canonical_search_key (adapter_name request_hash : string) : string :=
  if str_truthy adapter_name && str_truthy request_hash
  then "search:" +:+ adapter_name +:+ ":" +:+ request_hash
  else "".

(** The immutable fields of a stored capsule and of a candidate. *)
Definition CAPSULE_EQUIVALENCE_FIELDS : list string :=
  ["capsule_digest"; "capsule_schema_version"; "canonicalization_version";
   "source_binding_json"; "payload_sensitivity"; "serialization_version"; "key_version"].

Definition capsules_logically_equivalent (existing candidate : pyctx) : bool :=
  forallb (fun f => py_eq (context_get f existing) (context_get f candidate))
    CAPSULE_EQUIVALENCE_FIELDS.

Definition capsule_fields (c : CapsuleRow) : pyctx :=
  [ ("capsule_digest", VStr (capsule_digest c));
    ("source_binding_json", VStr (source_binding_json c));
    ("capsule_schema_version", VInt (capsule_schema_version c));
    ("canonicalization_version", VStr (cap_canonicalization_version c));
    ("payload_sensitivity", VStr (payload_sensitivity c));
    ("serialization_version", VStr (serialization_version c));
    ("key_version", VInt (key_version c)) ].

(** ** Encryption *)

Definition nul : string := String (ascii_of_nat 0) "".

Definition build_aad (run capsule key : string) (schema : Z) (canon : string) : string :=
  join nul [ "nodechain:side-effect-replay-capsule:v1"; utf8_encode run; utf8_encode capsule;
             utf8_encode key; str_int schema; utf8_encode canon ].

Definition dek_aad : string := "nodechain:run-dek-wrap:v1".

Section Encryption.
Context (aes_encrypt : string -> string -> string -> string -> string).
Context (aes_decrypt : string -> string -> string -> string -> option string).

(** The nonce is drawn by the caller of the model. *)
Definition wrap_dek (nonce kek dek : string) : string * string :=
  (aes_encrypt kek nonce dek dek_aad, nonce).

Definition unwrap_dek (kek wrapped nonce : string) : res capsule_error string :=
  match aes_decrypt kek nonce wrapped dek_aad with
  | Some d => Ok d
  | None => Err CapsuleEncryptionError
  end.

Definition encrypt_capsule_payload (nonce dek plaintext run capsule key : string) (schema : Z)
  (canon : string) : string * string :=
  (aes_encrypt dek nonce plaintext (build_aad run capsule key schema canon), nonce).

Definition decrypt_capsule_payload (dek ciphertext nonce run capsule key : string) (schema : Z)
  (canon : string) : res capsule_error string :=
  match aes_decrypt dek nonce ciphertext (build_aad run capsule key schema canon) with
  | Some p => Ok p
  | None => Err CapsuleEncryptionError
  end.

(** ** The key of a run *)

Definition live_key (run : string) (k : RunKeyRow) : bool :=
  (rk_run_id k =? run)%string && is_null (purged_at k).

Definition load_wrapped_dek (run : string) (keys : list RunKeyRow) : option (string * string * Z) :=
  match fetchone (live_key run) keys with
  | Some k => Some (encrypted_dek k, rk_nonce k, rk_key_version k)
  | None => None
  end.

(** The random key and nonce, and the clock, of a creation. *)
Record DekDraw := mkDekDraw { draw_dek : string; draw_nonce : string; draw_now : Z }.

(** [seen] is the table at the first SELECT and [keys] at the INSERT: another
    writer may have come in between. *)
Definition get_or_create_run_dek (kek run : string) (d : DekDraw) (seen keys : list RunKeyRow)
  : res capsule_error (list RunKeyRow * (string * Z)) :=
  match load_wrapped_dek run seen with
  | Some (w, n, ver) => dek ← unwrap_dek kek w n; Ok (keys, (dek, ver))
  | None =>
      let '(w, n) := wrap_dek (draw_nonce d) kek (draw_dek d) in
      if existsb (fun k => (rk_run_id k =? run)%string) keys then
        match load_wrapped_dek run keys with
        | Some (w, n, ver) => dek ← unwrap_dek kek w n; Ok (keys, (dek, ver))
        | None => Err (StoreError SqlIntegrityError)
        end
      else Ok (keys ++ [mkRunKey run w 1 n (draw_now d) None], (draw_dek d, 1))
  end.

Definition purge_run_key (run : string) (now : Z) (keys : list RunKeyRow) : list RunKeyRow :=
  update_where (fun k => (rk_run_id k =? run)%string)
    (fun k => mkRunKey (rk_run_id k) (encrypted_dek k) (rk_key_version k) (rk_nonce k)
                (rk_created_at k) (Some now)) keys.

(** ** The capsule table *)

Inductive insert_outcome := Inserted | SameId | OtherUnique.

(** [INSERT ... ON CONFLICT(capsule_id) DO NOTHING]: the named conflict is
    tested before UNIQUE(run_id, side_effect_key). *)
Definition try_insert_capsule (c : CapsuleRow) (t : list CapsuleRow)
  : list CapsuleRow * insert_outcome :=
  if existsb (fun x => (cap_id x =? cap_id c)%string) t then (t, SameId)
  else if existsb (fun x => (cap_run_id x =? cap_run_id c)%string
                            && (cap_key x =? cap_key c)%string) t
  then (t, OtherUnique)
  else (t ++ [c], Inserted).

(** The literal ['1'] in the column serialization_version. *)
Definition serialized_v1 (c : CapsuleRow) : CapsuleRow :=
  mkCapsule (cap_id c) (cap_run_id c) (cap_key c) (capsule_digest c) (capsule_schema_version c)
    (cap_canonicalization_version c) (encrypted_payload c) (cap_nonce c) (key_version c)
    (payload_sensitivity c) "1" (source_binding_json c) (cap_created_at c).

(** A plain INSERT: any conflict raises. *)
Definition persist_capsule (c : CapsuleRow) (t : list CapsuleRow)
  : res capsule_error (list CapsuleRow) :=
  match try_insert_capsule (serialized_v1 c) t with
  | (t', Inserted) => Ok t'
  | _ => Err (StoreError SqlIntegrityError)
  end.

Definition load_capsule (capsule : string) (t : list CapsuleRow) : option CapsuleRow :=
  fetchone (fun c => (cap_id c =? capsule)%string) t.
(** ** Starting an effect *)

Record StartArgs := mkStartArgs {
  sa_run_id : string;
  sa_step_id : Z;
  sa_node_id : string;
  sa_side_effect_type : string;
  sa_key : string;
  sa_request_hash : string;
  sa_operation : pyval;
  sa_operation_name : string;
  sa_adapter_id : string;
  sa_adapter_version : string;
  sa_node_version : string;
  sa_contract_id : string;
  sa_contract_version : string;
  sa_capsule_id : option string;
  sa_payload_sensitivity : string;
}.

Definition source_binding (a : StartArgs) : pyctx :=
  [ ("node_id", VStr (sa_node_id a)); ("node_version", VStr (sa_node_version a));
    ("contract_id", VStr (sa_contract_id a)); ("contract_version", VStr (sa_contract_version a));
    ("adapter_id", VStr (sa_adapter_id a)); ("adapter_version", VStr (sa_adapter_version a));
    ("operation_name", VStr (sa_operation_name a)) ].

Definition binding_text (a : StartArgs) : string :=
  json_text sorted_options (VDict (source_binding a)).

(** The statements on the ledger. *)
Definition to_started (run key cap : string) (db : Db) : Db :=
  with_ledger (update_where (at_key run key) (fun r => set_capsule cap (set_status "started" r))
                 (ledger db)) db.

Definition started_row (a : StartArgs) (cap : string) (now : Z) (db : Db) : Row :=
  mkRow (next_id db) (sa_run_id a) (sa_step_id a) (sa_node_id a) None (sa_side_effect_type a)
    (sa_key a) "started" (Some (sa_request_hash a)) None None true now None None 0 None
    (Some cap) "available" None None None None.

Definition conflict : capsule_error := StoreError (RecoveryError "REPLAY_CAPSULE_CONFLICT").

(** A capsule of the same id must be the same capsule. *)
Definition compare_existing (c : CapsuleRow) (t : list CapsuleRow) : res capsule_error unit :=
  match load_capsule (cap_id c) t with
  | Some ex =>
      guard_err (capsules_logically_equivalent (capsule_fields ex) (capsule_fields c)) conflict
  | None => Ok tt
  end.

(** The transaction of step 6. *)
Definition start_tx (a : StartArgs) (c : CapsuleRow) (now : Z)
  : transaction CDb capsule_error string := fun db =>
  let run := sa_run_id a in
  let key := sa_key a in
  match fetchone (at_key run key) (ledger (core db)) with
  | Some ex =>
      if (status ex =? "started")%string && (capsule_status ex =? "available")%string then
        match fetchone (fun x => (cap_run_id x =? run)%string && (cap_key x =? key)%string)
                (capsules db) with
        | Some cap =>
            _ ← guard_err (capsules_logically_equivalent (capsule_fields cap) (capsule_fields c))
                  conflict;
            Ok (db, cap_id cap)
        | None => Err (StoreError (RecoveryError "CAPSULE_DATA_INCONSISTENT"))
        end
      else
        _ ← guard_err (negb (mem (status ex) ["completed"; "failed"; "unknown"; "retry_authorized"]))
              (StoreError TransitionError);
        let '(t, outcome) := try_insert_capsule c (capsules db) in
        _ ← match outcome with
            | Inserted => Ok tt
            | SameId => compare_existing c t
            | OtherUnique => Err (StoreError SqlIntegrityError)
            end;
        Ok (mkCDb (to_started run key (cap_id c) (core db)) t (run_keys db), cap_id c)
  | None =>
      let '(t, outcome) := try_insert_capsule c (capsules db) in
      _ ← match outcome with
          | Inserted => Ok tt
          | SameId => compare_existing c t
          | OtherUnique => Err conflict
          end;
      match insert_row (started_row a (cap_id c) now (core db)) (core db) with
      | Ok d => Ok (mkCDb d t (run_keys db), cap_id c)
      | Err e => Err (StoreError e)
      end
  end.

Context (sha256 uuid5 : string -> string).

Definition compute_canonical_request_digest (b : string) : string := sha256 b.

(** What a start draws: the key of a new run, the payload nonce, the clock. *)
Record StartDraw := mkStartDraw {
  sd_dek : DekDraw;
  sd_nonce : string;
  sd_now : Z;
}.

(** [kek] is what the key manager gives, [None] when it raises.  The key of
    the run is committed before the transaction and stays when it fails. *)
Definition start_side_effect_with_capsule (a : StartArgs) (kek : option string) (d : StartDraw)
  (db : CDb) : CDb * res capsule_error string :=
  match canonicalize_capsule_payload (sa_operation a) with
  | None => (db, Err PayloadError)
  | Some bytes =>
      if Nat.ltb MAX_CAPSULE_SIZE_BYTES (String.length bytes) then (db, Err CapsuleOversized)
      else
        match kek with
        | None => (db, Err CapsuleEncryptionError)
        | Some kek =>
            match get_or_create_run_dek kek (sa_run_id a) (sd_dek d) (run_keys db) (run_keys db) with
            | Err e => (db, Err e)
            | Ok (keys, (dek, ver)) =>
                let db := with_keys keys db in
                match make_capsule_id uuid5 (sa_run_id a) (sa_key a) with
                | Err e => (db, Err e)
                | Ok expected =>
                    if match sa_capsule_id a with
                       | Some i => negb (i =? expected)%string | None => false end
                    then (db, Err (StoreError (RecoveryError "CAPSULE_ID_SCOPE_VIOLATION")))
                    else
                      let '(ct, n) := encrypt_capsule_payload (sd_nonce d) dek bytes (sa_run_id a)
                                        expected (sa_key a) 1 "1" in
                      let c := mkCapsule expected (sa_run_id a) (sa_key a)
                                 (compute_canonical_request_digest bytes) 1 "1" ct n ver
                                 (sa_payload_sensitivity a) "1" (binding_text a) (sd_now d) in
                      match start_tx a c (sd_now d) db with
                      | Ok (db', i) => (db', Ok i)
                      | Err e => (db, Err e)
                      end
                end
            end
        end
  end.

(** ** Reading the capsule of a parent *)

(** [metadata.update(json.loads(text))], nothing when that raises. *)
Definition update_binding (text : string) (m : pyctx) : pyctx :=
  if str_truthy text then
    match loads text with
    | Some (VDict d) => fold_left (fun m kv => dset (fst kv) (snd kv) m) d m
    | _ => m
    end
  else m.

(** [_load_capsule_metadata] of the retry coordinator.  [None] for the key
    manager means that it raised; every failure carries the same code. *)
Definition load_capsule_metadata (kek : option string) (d : DekDraw) (run : string) (parent : Row)
  (db : CDb) : CDb * res string pyctx :=
  match capsule_id parent with
  | None => (db, Ok [])
  | Some cid =>
      if negb (str_truthy cid) then (db, Ok []) else
      match load_capsule cid (capsules db) with
      | None => (db, Ok [])
      | Some c =>
          let m := [ ("canonical_request_digest", VStr (capsule_digest c));
                     ("capsule_schema_version", VInt (capsule_schema_version c));
                     ("canonicalization_version", VStr (cap_canonicalization_version c)) ] in
          let m := update_binding (source_binding_json c) m in
          if str_truthy (encrypted_payload c) && str_truthy (cap_nonce c) then
            match kek with
            | None => (db, Err "CAPSULE_DECRYPTION_FAILED")
            | Some kek =>
                match get_or_create_run_dek kek run d (run_keys db) (run_keys db) with
                | Err _ => (db, Err "CAPSULE_DECRYPTION_FAILED")
                | Ok (keys, (dek, _)) =>
                    let db := with_keys keys db in
                    match decrypt_capsule_payload dek (encrypted_payload c) (cap_nonce c) run cid
                            (idempotency_key parent) (capsule_schema_version c)
                            (cap_canonicalization_version c) with
                    | Err _ => (db, Err "CAPSULE_DECRYPTION_FAILED")
                    | Ok plain =>
                        match loads_bytes plain with
                        | Some op => (db, Ok (dset "canonical_operation" op m))
                        | None => (db, Err "CAPSULE_DECRYPTION_FAILED")
                        end
                    end
                end
            end
          else (db, Ok m)
      end
  end.
End Encryption.

(** ** The key of a run is drawn once *)

Section KeyProperties.
Context (aes_encrypt : string -> string -> string -> string -> string).
Context (aes_decrypt : string -> string -> string -> string -> option string).

(** AES-GCM decrypts what it encrypted under the same key, nonce and
    additional data. *)
Definition aead_correct : Prop :=
  forall k n p a, aes_decrypt k n (aes_encrypt k n p a) a = Some p.

Local Abbreviation get_dek := (get_or_create_run_dek aes_encrypt aes_decrypt).
Local Abbreviation unwrap := (unwrap_dek aes_decrypt).

(** The row a run's key comes from. *)
Definition key_row (kek run : string) (keys : list RunKeyRow) (dek : string) (ver : Z) : Prop :=
  exists k, k ∈ keys /\ live_key run k = true /\ rk_key_version k = ver /\
    unwrap kek (encrypted_dek k) (rk_nonce k) = Ok dek.

Lemma load_wrapped_some kek run keys w n ver dek :
  load_wrapped_dek run keys = Some (w, n, ver) -> unwrap kek w n = Ok dek ->
  key_row kek run keys dek ver.
Proof.
  unfold load_wrapped_dek. destruct (fetchone _ _) as [k|] eqn:E; [|discriminate].
  intros [= <- <- <-] Hu. apply fetchone_some in E as [H1 H2]. by exists k.
Qed.

Lemma get_dek_row kek run d seen keys keys' dek ver :
  aead_correct -> seen `prefix_of` keys -> get_dek kek run d seen keys = Ok (keys', (dek, ver)) ->
  keys `prefix_of` keys' /\ key_row kek run keys' dek ver.
Proof.
  intros Hlaw [t Hseen]. unfold get_or_create_run_dek.
  destruct (load_wrapped_dek run seen) as [[[w n] v]|] eqn:El.
  - intros H. inv_bind H. injection H as <- <- <-. split; [done|].
    destruct (load_wrapped_some _ _ _ _ _ _ _ El Ha) as (k & Hk & Hr). exists k.
    split; [|done]. rewrite Hseen. apply elem_of_app. by left.
  - cbn [wrap_dek]. destruct (existsb _ keys) eqn:Ex.
    + destruct (load_wrapped_dek run keys) as [[[w n] v]|] eqn:El'; [|discriminate].
      intros H. inv_bind H. injection H as <- <- <-. split; [done|].
      by eapply load_wrapped_some.
    + intros [= <- <- <-]. split; [by exists [mkRunKey run (aes_encrypt kek (draw_nonce d)
        (draw_dek d) dek_aad) 1 (draw_nonce d) (draw_now d) None]|].
      eexists. split; [apply elem_of_app; right; left|]. cbn. split_and!; [|done|].
      * unfold live_key. cbn. by rewrite String.eqb_refl.
      * unfold unwrap_dek. by rewrite Hlaw.
Qed.

Lemma key_row_unique kek run keys d v d' v' :
  NoDup (map rk_run_id keys) -> key_row kek run keys d v -> key_row kek run keys d' v' ->
  d' = d /\ v' = v.
Proof.
  intros Hn (k & Hk & Hl & Hv & Hu) (k' & Hk' & Hl' & Hv' & Hu').
  unfold live_key in *. bool_prop.
  assert (k' = k) as -> by (eapply (unique_key rk_run_id); eauto; congruence).
  rewrite Hu in Hu'. split; congruence.
Qed.

Lemma key_row_prefix kek run keys keys' d v :
  keys `prefix_of` keys' -> key_row kek run keys d v -> key_row kek run keys' d v.
Proof.
  intros [t ->] (k & Hk & Hr). exists k. split; [apply elem_of_app; by left | done].
Qed.

(** A caller that finds the row of the run leaves the table alone. *)
Lemma get_dek_existing kek run d seen keys dek ver :
  NoDup (map rk_run_id keys) -> seen `prefix_of` keys -> key_row kek run keys dek ver ->
  get_dek kek run d seen keys = Ok (keys, (dek, ver)).
Proof.
  intros Hn [t Hseen] (k & Hk & Hl & Hv & Hu). unfold get_or_create_run_dek, load_wrapped_dek.
  assert (Hfetch : fetchone (live_key run) keys = Some k).
  { eapply (fetchone_unique rk_run_id); eauto. intros a b. unfold live_key. intros Ha Hb.
    bool_prop. congruence. }
  destruct (fetchone (live_key run) seen) as [k'|] eqn:Es.
  - apply fetchone_some in Es as [Hk' Hl'].
    assert (k' = k) as ->.
    { eapply (unique_key rk_run_id); [exact Hn| |done|].
      - rewrite Hseen. apply elem_of_app. by left.
      - unfold live_key in *. bool_prop. congruence. }
    rewrite Hu. cbn. by rewrite Hv.
  - cbn [wrap_dek]. assert (existsb (fun k => (rk_run_id k =? run)%string) keys = true) as ->.
    { apply existsb_elem. exists k. unfold live_key in Hl. bool_prop. split; [done|].
      by apply String.eqb_eq. }
    rewrite Hfetch, Hu. cbn. by rewrite Hv.
Qed.

(** The key of a run never changes: whichever caller comes first, and whatever
    another caller read before that, every later caller gets the same key and
    version and leaves the table as it is. *)
Theorem run_dek_race_safe kek run d1 seen1 keys1 keys1' dek ver d2 seen2 keys2 :
  aead_correct ->
  seen1 `prefix_of` keys1 -> get_dek kek run d1 seen1 keys1 = Ok (keys1', (dek, ver)) ->
  keys1' `prefix_of` keys2 -> seen2 `prefix_of` keys2 -> NoDup (map rk_run_id keys2) ->
  get_dek kek run d2 seen2 keys2 = Ok (keys2, (dek, ver)).
Proof.
  intros Hlaw H1 Hg Hp H2 Hn.
  destruct (get_dek_row _ _ _ _ _ _ _ _ Hlaw H1 Hg) as [_ Hk].
  apply get_dek_existing; [done|done|]. exact (key_row_prefix _ _ _ _ _ _ Hp Hk).
Qed.
End KeyProperties.

(** ** Started together with its capsule *)

Lemma py_eq_str x y : py_eq (VStr x) (VStr y) = (x =? y)%string.
Proof. done. Qed.

(** Equivalent capsules agree on every immutable column. *)
Lemma equivalent_fields x y :
  capsules_logically_equivalent (capsule_fields x) (capsule_fields y) = true <->
  capsule_digest x = capsule_digest y /\ source_binding_json x = source_binding_json y /\
  capsule_schema_version x = capsule_schema_version y /\
  cap_canonicalization_version x = cap_canonicalization_version y /\
  payload_sensitivity x = payload_sensitivity y /\
  serialization_version x = serialization_version y /\ key_version x = key_version y.
Proof.
  unfold capsules_logically_equivalent. rewrite forallb_elem. split.
  - intros H.
    assert (Hf : forall f, mem f CAPSULE_EQUIVALENCE_FIELDS = true ->
              py_eq (context_get f (capsule_fields x)) (context_get f (capsule_fields y)) = true)
      by (intros f Hf; apply H; by apply mem_true).
    split_and!;
      [ specialize (Hf "capsule_digest" eq_refl) | specialize (Hf "source_binding_json" eq_refl)
      | specialize (Hf "capsule_schema_version" eq_refl)
      | specialize (Hf "canonicalization_version" eq_refl)
      | specialize (Hf "payload_sensitivity" eq_refl)
      | specialize (Hf "serialization_version" eq_refl) | specialize (Hf "key_version" eq_refl) ];
      cbv [context_get capsule_fields dget String.eqb Ascii.eqb Bool.eqb] in Hf;
      rewrite ?py_eq_str, ?py_eq_int in Hf; by bool_prop.
  - intros (H1 & H2 & H3 & H4 & H5 & H6 & H7) f Hf. apply mem_true in Hf.
    unfold capsule_fields. rewrite H1, H2, H3, H4, H5, H6, H7.
    apply mem_true in Hf. unfold CAPSULE_EQUIVALENCE_FIELDS in Hf.
    repeat (apply elem_of_cons in Hf as [->|Hf];
      [cbv [context_get dget String.eqb Ascii.eqb Bool.eqb];
       rewrite ?py_eq_str, ?py_eq_int, ?String.eqb_refl, ?Z.eqb_refl; done|]).
    inversion Hf.
Qed.

(** The effect is started and points to a capsule equivalent to [c]. *)
Definition started_with (run key : string) (c : CapsuleRow) (i : string) (db : CDb) : Prop :=
  (exists r, r ∈ ledger (core db) /\ row_key r = (run, key) /\ status r = "started" /\
             capsule_status r = "available") /\
  exists x, x ∈ capsules db /\ cap_id x = i /\
    capsules_logically_equivalent (capsule_fields x) (capsule_fields c) = true.

Lemma equivalent_refl c : capsules_logically_equivalent (capsule_fields c) (capsule_fields c) = true.
Proof. by apply equivalent_fields. Qed.

Lemma to_started_row run key cap db r :
  r ∈ ledger db -> at_key run key r = true ->
  exists r', r' ∈ ledger (to_started run key cap db) /\ row_key r' = (run, key) /\
    status r' = "started" /\ capsule_status r' = "available" /\ capsule_id r' = Some cap.
Proof.
  intros Hr Hk. exists (set_capsule cap (set_status "started" r)). split_and!; try done.
  - cbn. apply elem_of_update_where. exists r. by rewrite Hk.
  - by apply at_key_true in Hk.
Qed.

(** Trying to insert: the table after it, and a capsule of the id in it. *)
Lemma try_insert_spec c t t' outcome :
  try_insert_capsule c t = (t', outcome) ->
  t `prefix_of` t' /\
  (outcome = Inserted -> t' = t ++ [c] /\ forall x, x ∈ t -> cap_id x <> cap_id c) /\
  (outcome <> Inserted -> t' = t).
Proof.
  unfold try_insert_capsule. destruct (existsb _ t) eqn:E1; [by intros [= <- <-]; split_and!|].
  destruct (existsb (fun x => _ && _) t) eqn:E2; intros [= <- <-]; split_and!; try done.
  - by exists [c].
  - intros _. split; [done|]. intros x Hx He.
    assert (existsb (fun x => (cap_id x =? cap_id c)%string) t = true); [|congruence].
    apply existsb_elem. exists x. split; [done|]. by apply String.eqb_eq.
Qed.

Lemma compare_existing_ok c t u :
  compare_existing c t = Ok u -> existsb (fun x => (cap_id x =? cap_id c)%string) t = true ->
  exists x, x ∈ t /\ cap_id x = cap_id c /\
    capsules_logically_equivalent (capsule_fields x) (capsule_fields c) = true.
Proof.
  unfold compare_existing, load_capsule. intros H Hx.
  destruct (fetchone _ t) as [ex|] eqn:E.
  - apply fetchone_some in E as [H1 H2]. apply guard_err_ok in H. bool_prop. eauto.
  - exfalso. rewrite fetchone_none in E. apply existsb_elem in Hx as (x & Hx & Hp).
    by rewrite E in Hp.
Qed.

Lemma same_id_exists c t t' :
  try_insert_capsule c t = (t', SameId) ->
  t' = t /\ existsb (fun x => (cap_id x =? cap_id c)%string) t = true.
Proof.
  unfold try_insert_capsule. destruct (existsb _ t) eqn:E1; [by intros [= <-]|].
  by destruct (existsb (fun x => _ && _) t).
Qed.

(** Either outcome that passes leaves a capsule equivalent to the new one. *)
Lemma insert_checked c t t' outcome e u :
  try_insert_capsule c t = (t', outcome) ->
  match outcome with Inserted => Ok tt | SameId => compare_existing c t' | OtherUnique => Err e end
  = Ok u ->
  exists x, x ∈ t' /\ cap_id x = cap_id c /\
    capsules_logically_equivalent (capsule_fields x) (capsule_fields c) = true.
Proof.
  intros Hi Hc. destruct (try_insert_spec _ _ _ _ Hi) as (_ & Hins & _). destruct outcome.
  - destruct (Hins eq_refl) as [-> _]. exists c. split_and!; [|done|apply equivalent_refl].
    apply elem_of_app. right. left.
  - destruct (same_id_exists _ _ _ Hi) as [-> Hx]. by eapply compare_existing_ok.
  - discriminate.
Qed.

Lemma start_tx_ok a c now db db' i :
  start_tx a c now db = Ok (db', i) ->
  capsules db `prefix_of` capsules db' /\ run_keys db' = run_keys db /\
  started_with (sa_run_id a) (sa_key a) c i db'.
Proof.
  unfold start_tx. destruct (fetchone _ _) as [ex|] eqn:Ef.
  - apply fetchone_some in Ef as [Hex Hk]. case_match eqn:Hsa.
    + destruct (fetchone (fun x => _ && _) (capsules db)) as [cap|] eqn:Ec; [|discriminate].
      apply fetchone_some in Ec as [Hcap _]. intros H. inv_bind H. injection H as <- <-.
      apply guard_err_ok in Ha. bool_prop. split_and!; [done|done|]. split; [|by exists cap].
      exists ex. by apply at_key_true in Hk.
    + intros H. inv_bind H. destruct (try_insert_capsule c (capsules db)) as [t o] eqn:Ei.
      inv_bind H. injection H as <- <-. destruct (try_insert_spec _ _ _ _ Ei) as (Hp & _).
      split_and!; [exact Hp|done|]. split; [|by eapply insert_checked].
      destruct (to_started_row _ _ (cap_id c) _ _ Hex Hk) as (r' & ? & ? & ? & ? & _).
      by exists r'.
  - destruct (try_insert_capsule c (capsules db)) as [t o] eqn:Ei. intros H. inv_bind H.
    destruct (try_insert_spec _ _ _ _ Ei) as (Hp & _).
    unfold insert_row in H. case_match eqn:Hu; [|discriminate].
    case_match eqn:Hu'; [discriminate|]. simplify_eq.
    split_and!; [exact Hp|done|]. split; [|by eapply insert_checked].
    eexists. split; [cbn; apply elem_of_app; right; left|]. done.
Qed.

Section StartProperties.
Context (aes_encrypt : string -> string -> string -> string -> string).
Context (aes_decrypt : string -> string -> string -> string -> option string).
Context (sha256 uuid5 : string -> string).

Local Abbreviation start := (start_side_effect_with_capsule aes_encrypt aes_decrypt sha256 uuid5).
Local Abbreviation load := (load_capsule_metadata aes_encrypt aes_decrypt).

(** The capsule a start tries to insert. *)
Definition candidate (a : StartArgs) (d : StartDraw) (dek bytes id : string) (ver : Z) : CapsuleRow :=
  let '(ct, n) := encrypt_capsule_payload aes_encrypt (sd_nonce d) dek bytes (sa_run_id a) id
                    (sa_key a) 1 "1" in
  mkCapsule id (sa_run_id a) (sa_key a) (sha256 bytes) 1 "1" ct n ver
    (sa_payload_sensitivity a) "1" (binding_text a) (sd_now d).

(** A start in steps: an error changes no capsule and no ledger row. *)
Lemma start_inv a kek d db db' r :
  start a kek d db = (db', r) ->
  match r with
  | Err _ => core db' = core db /\ capsules db' = capsules db
  | Ok i =>
      exists k bytes keys dek ver id,
        kek = Some k /\ canonicalize_capsule_payload (sa_operation a) = Some bytes /\
        (String.length bytes <= MAX_CAPSULE_SIZE_BYTES)%nat /\
        get_or_create_run_dek aes_encrypt aes_decrypt k (sa_run_id a) (sd_dek d)
          (run_keys db) (run_keys db) = Ok (keys, (dek, ver)) /\
        make_capsule_id uuid5 (sa_run_id a) (sa_key a) = Ok id /\
        start_tx a (candidate a d dek bytes id ver) (sd_now d) (with_keys keys db) = Ok (db', i)
  end.
Proof.
  unfold start_side_effect_with_capsule.
  destruct (canonicalize_capsule_payload _) as [bytes|]; [|by intros [= <- <-]].
  destruct (Nat.ltb_spec MAX_CAPSULE_SIZE_BYTES (String.length bytes)); [by intros [= <- <-]|].
  destruct kek as [k|]; [|by intros [= <- <-]].
  destruct (get_or_create_run_dek _ _ _ _ _ _ _) as [[keys [dek ver]]|] eqn:Eg;
    [|by intros [= <- <-]].
  destruct (make_capsule_id _ _ _) as [id|]; [|by intros [= <- <-]].
  case_match; [by intros [= <- <-]|]. cbn [encrypt_capsule_payload].
  destruct (start_tx _ _ _ _) as [[db2 i]|] eqn:Et; intros [= <- <-]; [|done].
  by exists k, bytes, keys, dek, ver, id.
Qed.

(** A start is all or nothing: when it fails the ledger and the stored
    capsules are untouched; when it succeeds the effect is [started] and there
    is, in the same state, a capsule of the returned id that agrees with the
    operation, its digest, its source binding and its versions.  No start
    ever drops or changes a stored capsule. *)
Theorem start_persists_capsule a kek d db db' r :
  start a kek d db = (db', r) ->
  capsules db `prefix_of` capsules db' /\
  match r with
  | Err _ => core db' = core db /\ capsules db' = capsules db
  | Ok i =>
      exists bytes x, canonicalize_capsule_payload (sa_operation a) = Some bytes /\
        (String.length bytes <= MAX_CAPSULE_SIZE_BYTES)%nat /\
        (exists row, row ∈ ledger (core db') /\ row_key row = (sa_run_id a, sa_key a) /\
           status row = "started" /\ capsule_status row = "available") /\
        x ∈ capsules db' /\ cap_id x = i /\ capsule_digest x = sha256 bytes /\
        source_binding_json x = binding_text a /\
        payload_sensitivity x = sa_payload_sensitivity a
  end.
Proof.
  intros H. pose proof (start_inv _ _ _ _ _ _ H) as Hi. destruct r as [i|e].
  - destruct Hi as (k & bytes & keys & dek & ver & id & -> & Hb & Hl & _ & _ & Ht).
    apply start_tx_ok in Ht as (Hp & _ & Hrow & x & Hx & Hxi & Heq).
    split; [exact Hp|]. apply equivalent_fields in Heq as (H1 & H2 & _ & _ & H3 & _).
    exists bytes, x. split_and!; try done.
  - destruct Hi as [H1 H2]. by rewrite H2.
Qed.

(** ** The replay material is the operation *)

Lemma canonical_loads v b :
  json_plain v = true -> canonicalize_capsule_payload v = Some b ->
  loads_bytes b = Some (json_value canonical_options v) /\
  canonicalize_capsule_payload (json_value canonical_options v) = Some b.
Proof.
  intros Hp. unfold canonicalize_capsule_payload, loads_bytes, dumps.
  rewrite (json_plain_finite v Hp), (json_finite_value canonical_options v Hp), orb_true_r. cbn.
  intros [= <-]. rewrite utf8_roundtrip, json_text_value. split; [|done]. cbn.
  by apply loads_dumps.
Qed.

(** No stored capsule has the identity of the attempt. *)
Definition fresh_attempt (run key id : string) (t : list CapsuleRow) : Prop :=
  forall x, x ∈ t -> cap_id x <> id /\ ~ (cap_run_id x = run /\ cap_key x = key).

Lemma fresh_start_inserts a c now db db' i :
  fresh_attempt (sa_run_id a) (sa_key a) (cap_id c) (capsules db) ->
  cap_run_id c = sa_run_id a -> cap_key c = sa_key a ->
  start_tx a c now db = Ok (db', i) ->
  i = cap_id c /\ capsules db' = capsules db ++ [c] /\ run_keys db' = run_keys db.
Proof.
  intros Hf Hr Hk.
  assert (Hins : try_insert_capsule c (capsules db) = (capsules db ++ [c], Inserted)).
  { unfold try_insert_capsule.
    destruct (existsb _ (capsules db)) eqn:E1.
    { apply existsb_elem in E1 as (x & Hx & Hp). bool_prop. by destruct (Hf x Hx). }
    destruct (existsb (fun x => _ && _) (capsules db)) eqn:E2; [|done].
    apply existsb_elem in E2 as (x & Hx & Hp). bool_prop.
    destruct (Hf x Hx) as [_ []]. split; congruence. }
  unfold start_tx. destruct (fetchone _ _) as [ex|]; [case_match|].
  - destruct (fetchone _ (capsules db)) as [cap|] eqn:Ec; [|discriminate].
    apply fetchone_some in Ec as [Hc Hp]. bool_prop. destruct (Hf cap Hc) as [_ []]. done.
  - intros H0. inv_bind H0. rewrite Hins in H0. cbn in H0. by injection H0 as <- <-.
  - rewrite Hins. cbn. destruct (insert_row _ _); [|discriminate]. by intros [= <- <-].
Qed.

Lemma load_capsule_first c t u :
  (forall x, x ∈ t -> cap_id x <> cap_id c) -> load_capsule (cap_id c) ((t ++ [c]) ++ u) = Some c.
Proof.
  intros H. unfold load_capsule, fetchone. induction t as [|x t IH]; cbn.
  - by rewrite String.eqb_refl.
  - assert (cap_id x <> cap_id c) as ->%String.eqb_neq by (apply H; left).
    apply IH. intros y Hy. apply H. by right.
Qed.

(** The metadata of a loaded capsule, before the operation is added. *)
Lemma binding_loaded a digest :
  update_binding (binding_text a)
    [ ("canonical_request_digest", VStr digest); ("capsule_schema_version", VInt 1);
      ("canonicalization_version", VStr "1") ] =
  [ ("canonical_request_digest", VStr digest); ("capsule_schema_version", VInt 1);
    ("canonicalization_version", VStr "1"); ("adapter_id", VStr (sa_adapter_id a));
    ("adapter_version", VStr (sa_adapter_version a)); ("contract_id", VStr (sa_contract_id a));
    ("contract_version", VStr (sa_contract_version a)); ("node_id", VStr (sa_node_id a));
    ("node_version", VStr (sa_node_version a)); ("operation_name", VStr (sa_operation_name a)) ].
Proof.
  unfold update_binding, binding_text.
  rewrite loads_dumps by reflexivity. reflexivity.
Qed.

(** *** Later states of the database *)

Local Abbreviation get_dek := (get_or_create_run_dek aes_encrypt aes_decrypt).

(** The rows of another run, gone from the capsules and changed at will among
    the keys: a purge of its key, or the deletion of that run. *)
Definition without_capsules (run : string) (t : list CapsuleRow) : list CapsuleRow :=
  List.filter (fun c => negb (cap_run_id c =? run)%string) t.

(** What the program does to the two tables and the ledger, short of purging
    or deleting the run [run]: starts of any effect, stored capsules, keys
    read or created, any change of the ledger, and for the other runs also a
    purge of the key and a deletion. *)
Inductive later_step (run : string) : CDb -> CDb -> Prop :=
| later_start a kek d db db' r : start a kek d db = (db', r) -> later_step run db db'
| later_key kek r d keys x db : get_dek kek r d (run_keys db) (run_keys db) = Ok (keys, x) ->
    later_step run db (with_keys keys db)
| later_persist c t db : persist_capsule c (capsules db) = Ok t ->
    later_step run db (mkCDb (core db) t (run_keys db))
| later_ledger l db : later_step run db (with_core l db)
| later_purge r now db : r <> run -> later_step run db (with_keys (purge_run_key r now (run_keys db)) db)
| later_delete r f l db : r <> run -> (forall k, rk_run_id (f k) = rk_run_id k) ->
    later_step run db (mkCDb l (without_capsules r (capsules db))
      (update_where (fun k => (rk_run_id k =? r)%string) f (run_keys db))).

Definition later (run : string) : CDb -> CDb -> Prop := rtc (later_step run).

(** The capsule of an attempt and the key of its run are there. *)
Definition material (c : CapsuleRow) (key : string * string * Z) (db : CDb) : Prop :=
  load_capsule (cap_id c) (capsules db) = Some c /\ load_wrapped_dek (cap_run_id c) (run_keys db) = Some key.

Lemma get_dek_keys kek run d seen keys keys' x :
  get_dek kek run d seen keys = Ok (keys', x) -> keys `prefix_of` keys'.
Proof.
  unfold get_or_create_run_dek. cbn [wrap_dek]. destruct (load_wrapped_dek run seen) as [[[w n] v]|].
  - intros H. inv_bind H. by injection H as <- _.
  - destruct (existsb _ keys).
    + destruct (load_wrapped_dek run keys) as [[[w n] v]|]; [|discriminate]. intros H. inv_bind H. by injection H as <- _.
    + intros [= <- _]. by eexists.
Qed.

(** The key that a caller got is the one the table holds for the run. *)
Lemma get_dek_held kek run d keys keys' dek ver :
  aead_correct aes_encrypt aes_decrypt -> get_dek kek run d keys keys = Ok (keys', (dek, ver)) ->
  exists w n, load_wrapped_dek run keys' = Some (w, n, ver) /\ unwrap_dek aes_decrypt kek w n = Ok dek.
Proof.
  intros Hlaw. unfold get_or_create_run_dek. destruct (load_wrapped_dek run keys) as [[[w n] v]|] eqn:El.
  - intros H. inv_bind H. injection H as <- <- <-. by exists w, n.
  - cbn [wrap_dek]. destruct (existsb _ keys) eqn:Ex; [discriminate|]. intros [= <- <- <-].
    exists (aes_encrypt kek (draw_nonce d) (draw_dek d) dek_aad), (draw_nonce d). split.
    + unfold load_wrapped_dek in *. rewrite fetchone_app. destruct (fetchone _ keys) as [k|]; [discriminate|].
      cbn. unfold live_key. cbn. by rewrite String.eqb_refl.
    + unfold unwrap_dek. by rewrite Hlaw.
Qed.

Lemma get_dek_of_held kek run d keys w n ver dek :
  load_wrapped_dek run keys = Some (w, n, ver) -> unwrap_dek aes_decrypt kek w n = Ok dek ->
  get_dek kek run d keys keys = Ok (keys, (dek, ver)).
Proof. intros Hl Hu. unfold get_or_create_run_dek. by rewrite Hl, Hu. Qed.

Lemma start_tables a kek d db db' r :
  start a kek d db = (db', r) -> capsules db `prefix_of` capsules db' /\ run_keys db `prefix_of` run_keys db'.
Proof.
  intros H. pose proof (start_inv _ _ _ _ _ _ H) as Hi. split.
  { destruct r as [i|e]; [|by destruct Hi as [_ ->]].
    destruct Hi as (k & bytes & keys & dek & ver & id & _ & _ & _ & _ & _ & Ht). by apply start_tx_ok in Ht as [Hp _]. }
  clear Hi. revert H. unfold start_side_effect_with_capsule.
  destruct (canonicalize_capsule_payload _) as [bytes|]; [|by intros [= <- <-]].
  case_match; [by intros [= <- <-]|]. destruct kek as [k|]; [|by intros [= <- <-]].
  destruct (get_or_create_run_dek _ _ _ _ _ _ _) as [[keys [dek ver]]|] eqn:Eg; [|by intros [= <- <-]].
  apply get_dek_keys in Eg. destruct (make_capsule_id _ _ _) as [id|]; [|by intros [= <- <-]].
  case_match; [by intros [= <- <-]|]. cbn [encrypt_capsule_payload].
  destruct (start_tx _ _ _ _) as [[db2 i]|] eqn:Et; intros [= <- <-]; [|done].
  apply start_tx_ok in Et as (_ & -> & _). done.
Qed.

Lemma fetchone_prefix {R} (p : R -> bool) t t' x : t `prefix_of` t' -> fetchone p t = Some x -> fetchone p t' = Some x.
Proof. intros [u ->] H. by rewrite fetchone_app, H. Qed.

Lemma wrapped_prefix run keys keys' x :
  keys `prefix_of` keys' -> load_wrapped_dek run keys = Some x -> load_wrapped_dek run keys' = Some x.
Proof.
  intros Hp. unfold load_wrapped_dek. destruct (fetchone _ keys) as [k|] eqn:E; [|discriminate].
  by rewrite (fetchone_prefix _ _ _ _ Hp E).
Qed.

Lemma wrapped_other run r f keys x : r <> run -> (forall k, rk_run_id (f k) = rk_run_id k) ->
  load_wrapped_dek run keys = Some x ->
  load_wrapped_dek run (update_where (fun k => (rk_run_id k =? r)%string) f keys) = Some x.
Proof.
  intros Hr Hf. unfold load_wrapped_dek, fetchone, update_where. induction keys as [|k keys IH]; [done|]. cbn [map List.find].
  destruct (String.eqb_spec (rk_run_id k) r) as [E|]; [|by destruct (live_key run k)].
  assert (live_key run k = false /\ live_key run (f k) = false) as [-> ->].
  { unfold live_key. rewrite Hf, E. by rewrite (proj2 (String.eqb_neq _ _) Hr). }
  exact IH.
Qed.

Lemma capsule_other c r t : cap_run_id c <> r -> load_capsule (cap_id c) t = Some c ->
  load_capsule (cap_id c) (without_capsules r t) = Some c.
Proof.
  intros Hr. unfold load_capsule, without_capsules, fetchone. induction t as [|x t IH]; [done|]. cbn [List.find List.filter].
  destruct (String.eqb_spec (cap_id x) (cap_id c)) as [E|E].
  - intros [= ->]. rewrite (proj2 (String.eqb_neq _ _) Hr). cbn. by rewrite String.eqb_refl.
  - intros H. destruct (negb _); [|by apply IH]. cbn. rewrite (proj2 (String.eqb_neq _ _) E). by apply IH.
Qed.

Lemma material_step c key db db' : later_step (cap_run_id c) db db' -> material c key db -> material c key db'.
Proof.
  intros Hs [H1 H2]. destruct Hs as [a kek d db db' r H|kek r d keys x db H|x t db H|l db|r now db Hr|r f l db Hr Hf].
  - apply start_tables in H as [Hc Hk]. split; [by eapply fetchone_prefix | by eapply wrapped_prefix].
  - split; [done|]. eapply wrapped_prefix; [by eapply get_dek_keys | done].
  - split; [|done]. unfold persist_capsule in H. destruct (try_insert_capsule _ _) as [t' []] eqn:E; try discriminate.
    injection H as <-. eapply fetchone_prefix; [|exact H1]. by apply try_insert_spec in E as [? _].
  - by split.
  - split; [done|]. by apply wrapped_other.
  - split; [by apply capsule_other | by apply wrapped_other].
Qed.

Lemma material_later c key db db' : later (cap_run_id c) db db' -> material c key db -> material c key db'.
Proof. induction 1 as [|x y z Hxy _ IH]; [done|]. intros H. apply IH. by eapply material_step. Qed.

(** C23: the material a retry replays is the operation that was started: after
    the first start of an attempt, and whatever the program does to its
    database later - starts, stored capsules, keys, changes of the ledger,
    purges and deletions of other runs, but no purge or deletion of this run -
    the capsule decrypts to the same operation (with its keys sorted), with
    the source binding and digest recorded at the start, and the digest
    recomputed from the decrypted operation is the stored one.  The operation
    is a JSON value without floats. *)
Theorem replay_material_faithful a k d db db1 i db2 d2 parent id :
  aead_correct aes_encrypt aes_decrypt ->
  (forall k n p x, aes_encrypt k n p x <> "") -> sd_nonce d <> "" ->
  json_plain (sa_operation a) = true ->
  make_capsule_id uuid5 (sa_run_id a) (sa_key a) = Ok id ->
  fresh_attempt (sa_run_id a) (sa_key a) id (capsules db) ->
  start a (Some k) d db = (db1, Ok i) -> later (sa_run_id a) db1 db2 ->
  capsule_id parent = Some i -> idempotency_key parent = sa_key a ->
  exists m bytes, load (Some k) d2 (sa_run_id a) parent db2 = (db2, Ok m) /\
    dget "canonical_operation" m = Some (json_value canonical_options (sa_operation a)) /\
    canonicalize_capsule_payload (json_value canonical_options (sa_operation a)) = Some bytes /\
    dget "canonical_request_digest" m = Some (VStr (sha256 bytes)) /\
    forall f v, dget f (source_binding a) = Some v -> dget f m = Some v.
Proof.
  intros Hlaw Hct Hn Hp Hid Hf Hs Hlater Hcap Hkey.
  apply start_inv in Hs as (k' & bytes & keys & dek & ver & id' & [= <-] & Hb & _ & Hg & Hid' & Ht).
  assert (id' = id) as -> by congruence.
  apply fresh_start_inserts in Ht as (-> & Hcs & Hks); [|exact Hf|done|done].
  destruct (canonical_loads _ _ Hp Hb) as [Hl Hcan]. destruct (get_dek_held _ _ _ _ _ _ _ Hlaw Hg) as (w & n & Hw & Hu).
  assert (Hm : material (candidate a d dek bytes id ver) (w, n, ver) db2).
  { eapply material_later; [exact Hlater|]. split; [|by rewrite Hks]. rewrite Hcs, <- (app_nil_r (capsules _ ++ _)).
    apply (load_capsule_first (candidate a d dek bytes id ver)). intros x Hx. by destruct (Hf x Hx). }
  clear Hcs Hks Hg Hlater. destruct Hm as [Hload Hdek]. change (cap_id _) with id in Hcap, Hload. change (cap_run_id _) with (sa_run_id a) in Hdek.
  assert (Hidt : str_truthy id = true).
  { unfold make_capsule_id in Hid. case_match; [|discriminate]. by injection Hid as <-. }
  exists (dset "canonical_operation" (json_value canonical_options (sa_operation a))
            (update_binding (binding_text a)
               [ ("canonical_request_digest", VStr (sha256 bytes)); ("capsule_schema_version", VInt 1);
                 ("canonicalization_version", VStr "1") ])), bytes.
  split_and!; [|apply dget_dset_same|exact Hcan| |].
  - unfold load_capsule_metadata. rewrite Hcap, Hidt, Hload, Hkey. unfold candidate.
    cbn [negb encrypt_capsule_payload encrypted_payload cap_nonce source_binding_json capsule_digest
         capsule_schema_version cap_canonicalization_version].
    assert (str_truthy (aes_encrypt dek (sd_nonce d) bytes
              (build_aad (sa_run_id a) id (sa_key a) 1 "1")) = true) as ->
      by (unfold str_truthy; apply negb_true_iff, String.eqb_neq, Hct).
    assert (str_truthy (sd_nonce d) = true) as -> by (by apply negb_true_iff, String.eqb_neq).
    cbn [andb]. rewrite (get_dek_of_held _ _ _ _ _ _ _ _ Hdek Hu).
    unfold decrypt_capsule_payload. rewrite Hlaw, Hl. by destruct db2.
  - rewrite dget_dset_other by done. by rewrite binding_loaded.
  - intros f v Hfv. rewrite dget_dset_other.
    + rewrite binding_loaded. unfold source_binding in Hfv. cbn [dget] in Hfv |- *.
      repeat (match type of Hfv with context [(f =? ?s)%string] =>
        destruct (String.eqb_spec f s) as [->|]; [done|] end). discriminate.
    + intros ->. discriminate Hfv.
Qed.
End StartProperties.

(** ** A concrete database and cipher *)

Definition toy_encrypt (k n p a : string) : string := ("X" +:+ k +:+ n +:+ a) +:+ p.
Definition toy_decrypt (k n c a : string) : option string :=
  drop_prefix ("X" +:+ k +:+ n +:+ a) c.
Definition toy_hash (s : string) : string := "h" +:+ s.

Lemma toy_correct : aead_correct toy_encrypt toy_decrypt.
Proof. intros k n p a. apply drop_prefix_app. Qed.

Definition demo_operation : pyval :=
  VDict [ ("terms", VList [VStr "b"; VStr "c"]); ("max", VInt 10); ("filters", VDict []) ].
Definition demo_start : StartArgs :=
  mkStartArgs "r" 1 "search_tool" "external_call" "k" "rh" demo_operation "search" "arxiv" "1.0.0"
    "2" "c" "3" None "standard".
Definition demo_draw : StartDraw := mkStartDraw (mkDekDraw "dek" "n1" 5) "n2" 6.
Definition empty_cdb : CDb := mkCDb empty_db [] [].
Definition demo_started : CDb * res capsule_error string :=
  start_side_effect_with_capsule toy_encrypt toy_decrypt toy_hash toy_hash demo_start
    (Some "kek") demo_draw empty_cdb.
Definition demo_parent : Row := started_row demo_start (from_option (fun x => x) "" (match snd demo_started with Ok i => Some i | Err _ => None end)) 6 empty_db.

Lemma run_dek_race_safe_witness :
  get_or_create_run_dek toy_encrypt toy_decrypt "kek" "r" (mkDekDraw "other" "n9" 9) []
    (run_keys (fst demo_started)) = Ok (run_keys (fst demo_started), ("dek", 1)).
Proof.
  apply (run_dek_race_safe toy_encrypt toy_decrypt "kek" "r" (mkDekDraw "dek" "n1" 5) [] []
           (run_keys (fst demo_started))).
  - exact toy_correct.
  - reflexivity.
  - vm_compute. reflexivity.
  - reflexivity.
  - eexists. reflexivity.
  - apply NoDup_singleton.
Defined.

Lemma start_persists_capsule_witness : capsules empty_cdb `prefix_of` capsules (fst demo_started).
Proof.
  exact (proj1 (start_persists_capsule toy_encrypt toy_decrypt toy_hash toy_hash demo_start
    (Some "kek") demo_draw empty_cdb (fst demo_started) (snd demo_started) eq_refl)).
Defined.

(** Another effect of the run is started, then another run is and its key
    purged. *)
Definition demo_second : StartArgs :=
  mkStartArgs "r" 2 "search_tool" "external_call" "k2" "rh" demo_operation "search" "arxiv" "1.0.0"
    "2" "c" "3" None "standard".
Definition demo_other : StartArgs :=
  mkStartArgs "s" 1 "search_tool" "external_call" "k" "rh" demo_operation "search" "arxiv" "1.0.0"
    "2" "c" "3" None "standard".
Definition start_demo (a : StartArgs) (db : CDb) : CDb :=
  fst (start_side_effect_with_capsule toy_encrypt toy_decrypt toy_hash toy_hash a (Some "kek")
         (mkStartDraw (mkDekDraw "dek2" "n3" 7) "n4" 8) db).
Definition demo_later : CDb :=
  let db := start_demo demo_other (start_demo demo_second (fst demo_started)) in
  with_keys (purge_run_key "s" 9 (run_keys db)) db.

Lemma demo_is_later : later toy_encrypt toy_decrypt toy_hash toy_hash "r" (fst demo_started) demo_later.
Proof.
  eapply rtc_l; [eapply (later_start _ _ _ _ _ demo_second); apply surjective_pairing|].
  eapply rtc_l; [eapply (later_start _ _ _ _ _ demo_other); apply surjective_pairing|].
  eapply rtc_l; [by eapply (later_purge _ _ _ _ _ "s" 9) | apply rtc_refl].
Qed.

Lemma replay_material_faithful_witness :
  exists m bytes, load_capsule_metadata toy_encrypt toy_decrypt (Some "kek")
      (mkDekDraw "other" "n9" 9) "r" demo_parent demo_later = (demo_later, Ok m) /\
    dget "canonical_operation" m = Some (json_value canonical_options demo_operation) /\
    canonicalize_capsule_payload (json_value canonical_options demo_operation) = Some bytes /\
    dget "canonical_request_digest" m = Some (VStr (toy_hash bytes)) /\
    forall f v, dget f (source_binding demo_start) = Some v -> dget f m = Some v.
Proof.
  apply (replay_material_faithful toy_encrypt toy_decrypt toy_hash toy_hash demo_start "kek"
           demo_draw empty_cdb (fst demo_started)
           (match snd demo_started with Ok i => i | Err _ => "" end) demo_later
           (mkDekDraw "other" "n9" 9) demo_parent
           (match snd demo_started with Ok i => i | Err _ => "" end)).
  - exact toy_correct.
  - intros k n p x. discriminate.
  - discriminate.
  - reflexivity.
  - vm_compute. reflexivity.
  - intros x Hx. inversion Hx.
  - vm_compute. reflexivity.
  - exact demo_is_later.
  - vm_compute. reflexivity.
  - reflexivity.
Defined.

(** The ordinary start does not look at the parent key: it starts a planned
    recovery child without a claim. *)
Lemma start_bypasses_fence :
  let a := mkStartArgs "r" 1 "n" "external_call" "k2" "rh" demo_operation "search" "arxiv" "1.0.0"
             "2" "c" "3" None "standard" in
  let db := fst (start_side_effect_with_capsule toy_encrypt toy_decrypt toy_hash toy_hash a
                   (Some "kek") demo_draw (mkCDb db_child [] [])) in
  not_null (parent_side_effect_key (row_of "k2" (core db))) = true /\
  status (row_of "k2" db_child) = "planned" /\
  status (row_of "k2" (core db)) = "started" /\
  execution_claim_id (row_of "k2" (core db)) = None.
Proof. vm_compute. done. Qed.

(** Two attempts whose identifiers contain the separator share a capsule id. *)
Lemma capsule_id_collision uuid5 :
  make_capsule_id uuid5 "a::b" "c" = make_capsule_id uuid5 "a" "b::c".
Proof. reflexivity. Qed.
