(* ===== verification/RecoveryClassifier.v ===== *)
(** * Recovery classification

    [runtime/recovery_classifier.py]: the recovery state of a run, derived
    from its durable facts, and the per-parent projection of retry lineages.
    The side effects are the rows the ledger returns, reduced to the columns
    the classifier reads; [now] is the clock reading of the lease test. *)
From S2P Require Import Prelude PyFloat PyValue Sql SideEffectLedger.

Inductive RecoveryState :=
| PAUSED_FOR_HUMAN_REVIEW | PAUSED_FOR_POLICY_APPROVAL | PAUSED_FOR_BUDGET_APPROVAL
| FAILED_RETRYABLE | FAILED_NON_RETRYABLE | LOOP_EXHAUSTED | TRACE_INCOMPLETE
| CRASH_RECOVERABLE | CRASH_NEEDS_OPERATOR | CANCELLED | COMPLETED
| RETRY_AUTHORIZED_PENDING_EXECUTION | RETRY_ATTEMPT_IN_FLIGHT | RETRY_COMPLETED
| RETRY_FAILED | RETRY_UNKNOWN | LEGACY_NOT_REPLAYABLE.

#[export] Instance RecoveryState_eq_dec : EqDecision RecoveryState.
Proof. solve_decision. Defined.

Record Classification := mkClass {
  c_state : RecoveryState;
  c_blocking_reason : option string;
}.

Record RetryLineageProjection := mkProjection {
  parent_key : string;
  p_state : RecoveryState;
  p_blocking_reason : option string;
  latest_child_key : option string;
  p_capsule_status : string;
}.

Definition CLOSED_RETRY_LINEAGE_STATES : list RecoveryState :=
  [RETRY_COMPLETED; RETRY_FAILED; LEGACY_NOT_REPLAYABLE].
Definition OPEN_RETRY_LINEAGE_STATES : list RecoveryState :=
  [RETRY_AUTHORIZED_PENDING_EXECUTION; RETRY_ATTEMPT_IN_FLIGHT; RETRY_UNKNOWN].

(** The lease column as text: absent, an aware ISO time, or a text that is
    empty, unparsable or not comparable with an aware time. *)
Inductive lease_text :=
| LeaseNone
| LeaseAt (t : Z)
| LeaseBad.

Record SideEffectFacts := mkFacts {
  se_key : string;
  se_status : string;
  se_parent : option string;
  se_ordinal : Z;
  se_dispatch_attempted : bool;
  se_lease : lease_text;
  se_capsule_status : string;
}.

(** The facts of a ledger row. *)
Definition facts_of (r : Row) : SideEffectFacts :=
  mkFacts (idempotency_key r) (status r) (parent_side_effect_key r) (retry_ordinal r)
    (not_null (dispatch_attempted_at r))
    (match claim_expires_at r with Some t => LeaseAt t | None => LeaseNone end)
    (capsule_status r).

(** What the classifier reads of the chain state: the status and four
    metadata entries (an absent or empty dict is [None]). *)
Record RunFacts := mkRunFacts {
  run_status : string;
  governed_review_request : option pyctx;
  loop_exhausted : pyval;
  loop_budget_exceeded : option pyval;
  last_failure : option pyctx;
}.

(** [max(l, key=...)]: the first of the largest. *)
Fixpoint py_max {A} (key : A -> Z) (best : A) (l : list A) : A :=
  match l with
  | [] => best
  | x :: l' => py_max key (if key best <? key x then x else best) l'
  end.

Definition lease_expired (now : Z) (l : lease_text) : bool :=
  match l with LeaseAt t => negb (now <? t) | _ => true end.

Definition classify_one_parent (now : Z) (pkey : string) (children : list SideEffectFacts)
  : Classification :=
  match children with
  | [] => mkClass RETRY_AUTHORIZED_PENDING_EXECUTION
            (Some ("side effect " +:+ pkey +:+ " authorized for retry, awaiting execution"))
  | c :: rest =>
      let latest := py_max se_ordinal c rest in
      let s := se_status latest in
      if s =s? "completed" then
        mkClass RETRY_COMPLETED
          (Some ("retry of " +:+ pkey +:+ " completed (child " +:+ se_key latest +:+ ")"))
      else if s =s? "failed" then
        mkClass RETRY_FAILED (Some ("retry of " +:+ pkey +:+ " definitively failed"))
      else if s =s? "unknown" then
        mkClass RETRY_UNKNOWN
          (Some ("retry of " +:+ pkey +:+ " outcome unknown; operator intervention required"))
      else if s =s? "planned" then
        mkClass RETRY_AUTHORIZED_PENDING_EXECUTION
          (Some ("retry of " +:+ pkey +:+ " allocated but not yet dispatched"))
      else
        let expired := lease_expired now (se_lease latest) in
        if se_dispatch_attempted latest && expired then
          mkClass RETRY_UNKNOWN
            (Some ("retry of " +:+ pkey +:+ " dispatched but lease expired; "
                   +:+ "outcome uncertain, operator intervention required"))
        else if negb (se_dispatch_attempted latest) && expired then
          mkClass RETRY_ATTEMPT_IN_FLIGHT
            (Some ("retry of " +:+ pkey +:+ " lease expired before dispatch; safely reclaimable"))
        else mkClass RETRY_ATTEMPT_IN_FLIGHT (Some ("retry of " +:+ pkey +:+ " in progress"))
  end.

(** [children_by_parent.get(pkey, [])] *)
Definition children_of (pkey : string) (all : list SideEffectFacts) : list SideEffectFacts :=
  List.filter (fun se => match se_parent se with
                         | Some p => str_truthy p && (p =s? pkey)
                         | None => false
                         end) all.

Definition project_parent (now : Z) (all : list SideEffectFacts) (parent : SideEffectFacts)
  : RetryLineageProjection :=
  let pkey := se_key parent in
  let capsule := se_capsule_status parent in
  if negb (capsule =s? "available") then
    mkProjection pkey LEGACY_NOT_REPLAYABLE
      (Some ("side effect " +:+ pkey +:+ " has no replay capsule (legacy)")) None capsule
  else
    let children := children_of pkey all in
    let cls := classify_one_parent now pkey children in
    mkProjection pkey (c_state cls) (c_blocking_reason cls)
      (match children with
       | [] => None
       | c :: rest => Some (se_key (py_max se_ordinal c rest))
       end) capsule.

Definition classify_retry_lineages (now : Z) (parents all : list SideEffectFacts)
  : list RetryLineageProjection := map (project_parent now all) parents.

Definition SEVERITY_ORDER : list RecoveryState :=
  [ RETRY_COMPLETED; RETRY_ATTEMPT_IN_FLIGHT; RETRY_AUTHORIZED_PENDING_EXECUTION;
    RETRY_FAILED; LEGACY_NOT_REPLAYABLE; RETRY_UNKNOWN ].

Fixpoint index_of (s : RecoveryState) (l : list RecoveryState) (i : Z) : option Z :=
  match l with
  | [] => None
  | x :: l' => if bool_decide (x = s) then Some i else index_of s l' (i + 1)
  end.

Definition severity_rank (s : RecoveryState) : Z := default 0 (index_of s SEVERITY_ORDER 0).

Definition worse (worst : option Classification) (p : RetryLineageProjection)
  : option Classification :=
  let candidate := mkClass (p_state p) (p_blocking_reason p) in
  match worst with
  | None => Some candidate
  | Some w => if severity_rank (c_state w) <? severity_rank (c_state candidate)
              then Some candidate else Some w
  end.

Definition classify_retry_lineage (now : Z) (parents all : list SideEffectFacts)
  : option Classification :=
  fold_left worse (classify_retry_lineages now parents all) None.

(** [request.get("step_id", "?")], formatted *)
Definition step_text (request : pyctx) : string := py_str (dget_or "step_id" (VStr "?") request).

Definition nat_text (n : nat) : string := str_int (Z.of_nat n).

(** The decisions after the review pause, in priority order. *)
Definition classify_unpaused (now : Z) (state : RunFacts) (side_effects : list SideEffectFacts)
  (report_errors : option nat) (recovery_decisions : list pyctx) : Classification :=
  let unknown := List.filter (fun se => (se_status se =s? "unknown")
                                        && negb (ostr_truthy (se_parent se))) side_effects in
  if nonempty unknown then
    if nonempty recovery_decisions then
      mkClass CRASH_RECOVERABLE
        (Some (nat_text (length unknown)
               +:+ " unknown side effect(s) with a recovery decision pending"))
    else
      mkClass CRASH_NEEDS_OPERATOR
        (Some (nat_text (length unknown)
               +:+ " unknown side effect(s) require an operator recovery decision"))
  else
  let retry_authorized :=
    List.filter (fun se => se_status se =s? "retry_authorized") side_effects in
  match (if nonempty retry_authorized
         then classify_retry_lineage now retry_authorized side_effects else None) with
  | Some lineage => lineage
  | None =>
  match report_errors with
  | Some (S n) =>
      mkClass TRACE_INCOMPLETE
        (Some ("trace reconciliation reported " +:+ nat_text (S n) +:+ " error(s)"))
  | _ =>
  if truthy (loop_exhausted state) then
    mkClass LOOP_EXHAUSTED
      (Some ("loop '" +:+ py_str (loop_exhausted state) +:+ "' exhausted its iteration budget"))
  else if run_status state =s? "paused_for_budget" then
    mkClass PAUSED_FOR_BUDGET_APPROVAL
      (Some ("loop '" +:+ py_str (default (VStr "unknown") (loop_budget_exceeded state))
             +:+ "' exceeded its cost budget; awaiting operator budget-increase approval"))
  else if run_status state =s? "failed" then
    if truthy (context_get "retryable" (default [] (last_failure state))) then
      mkClass FAILED_RETRYABLE (Some "failed node is retryable")
    else
      mkClass FAILED_NON_RETRYABLE
        (Some "failed node is not retryable without an operator override")
  else
    mkClass CRASH_RECOVERABLE
      (Some ("run is in status '" +:+ run_status state +:+ "' with no specific recovery signal"))
  end
  end.

Definition classify (now : Z) (state : RunFacts) (side_effects : list SideEffectFacts)
  (report_errors : option nat) (recovery_decisions : list pyctx) : Classification :=
  if run_status state =s? "completed" then mkClass COMPLETED None
  else if run_status state =s? "cancelled" then mkClass CANCELLED None
  else
  match (if run_status state =s? "waiting_for_review" then governed_review_request state
         else None) with
  | Some ((_ :: _) as request) =>
      if match dget "subject_type" request with
         | Some (VStr s) => s =s? "policy" | _ => false end then
        mkClass PAUSED_FOR_POLICY_APPROVAL
          (Some ("policy approval required at step " +:+ step_text request))
      else
        mkClass PAUSED_FOR_HUMAN_REVIEW
          (Some ("human review required at step " +:+ step_text request))
  | _ => classify_unpaused now state side_effects report_errors recovery_decisions
  end.

(** ** Properties *)

Lemma py_max_in {A} (key : A -> Z) b l : py_max key b l ∈ b :: l.
Proof.
  revert b. induction l as [|x l IH]; intros b; simpl; [left|].
  specialize (IH (if key b <? key x then x else b)).
  apply elem_of_cons in IH as [-> | Hin].
  - destruct (key b <? key x); [right; left | left].
  - right. by right.
Qed.

Lemma py_max_ge {A} (key : A -> Z) b l y : y ∈ b :: l -> key y <= key (py_max key b l).
Proof.
  revert b y. induction l as [|x l IH]; intros b y Hy; simpl.
  - apply list_elem_of_singleton in Hy as ->. lia.
  - apply elem_of_cons in Hy as [->|Hy].
    + destruct (key b <? key x) eqn:E; bool_prop.
      * specialize (IH x x ltac:(left)). lia.
      * apply IH. left.
    + apply elem_of_cons in Hy as [->|Hy].
      * destruct (key b <? key x) eqn:E; bool_prop; [apply IH; left|].
        specialize (IH b b ltac:(left)). lia.
      * apply IH. by right.
Qed.

(** The reason is never empty when there is one. *)
Lemma append_nonempty a b : a <> "" -> a +:+ b <> "".
Proof. destruct a; [done|]. intros _. rewrite append_cons. discriminate. Qed.

Lemma classify_one_parent_reason now pkey children :
  exists r, c_blocking_reason (classify_one_parent now pkey children) = Some r /\ r <> "".
Proof.
  unfold classify_one_parent. repeat case_goal; simpl; eexists;
    (split; [reflexivity | by apply append_nonempty]).
Qed.

Lemma project_parent_reason now all p :
  exists r, p_blocking_reason (project_parent now all p) = Some r /\ r <> "".
Proof.
  unfold project_parent. case_goal; simpl.
  - eexists. split; [reflexivity | by apply append_nonempty].
  - apply classify_one_parent_reason.
Qed.

Lemma project_parent_partition now all p :
  p_state (project_parent now all p) ∈ CLOSED_RETRY_LINEAGE_STATES \/
  p_state (project_parent now all p) ∈ OPEN_RETRY_LINEAGE_STATES.
Proof.
  unfold project_parent, classify_one_parent, CLOSED_RETRY_LINEAGE_STATES,
    OPEN_RETRY_LINEAGE_STATES.
  repeat case_goal; simpl; set_solver.
Qed.

(** The aggregate is one of the projections, of maximal severity. *)
Lemma fold_worse l w :
  match fold_left worse l w with
  | None => w = None /\ l = []
  | Some c =>
      (w = Some c \/ exists p, p ∈ l /\ c = mkClass (p_state p) (p_blocking_reason p)) /\
      (forall w', w = Some w' -> severity_rank (c_state w') <= severity_rank (c_state c)) /\
      (forall p, p ∈ l -> severity_rank (p_state p) <= severity_rank (c_state c))
  end.
Proof.
  revert w. induction l as [|p l IH]; intros w; simpl.
  - destruct w as [w|]; [|done]. split_and!; [by left | intros ? [= ->]; lia |].
    intros p Hp. inversion Hp.
  - specialize (IH (worse w p)).
    destruct (fold_left worse l (worse w p)) as [c|].
    + destruct IH as (H1 & H2 & H3).
      assert (Hw : forall w', worse w p = Some w' -> severity_rank (c_state w') <=
                              severity_rank (c_state c)) by exact H2.
      unfold worse in *. split_and!.
      * destruct w as [w|]; [destruct (_ <? _)|];
          (destruct H1 as [[= <-]|(q & Hq & ->)];
           [|right; exists q; split; [by right | done]]);
          [right; exists p; split; [left|done] | by left | right; exists p; split; [left|done]].
      * intros w' ->. destruct (_ <? _) eqn:E; specialize (Hw _ eq_refl); simpl in Hw;
          bool_prop; simpl in *; lia.
      * intros q [->|Hq]%elem_of_cons; [|auto].
        destruct w as [w|]; [destruct (_ <? _) eqn:E|]; specialize (Hw _ eq_refl); simpl in Hw;
          bool_prop; simpl in *; lia.
    + destruct IH as [H _]. unfold worse in H.
      destruct w; [destruct (_ <? _)|]; discriminate.
Qed.

(** The aggregate over the retry_authorized parents is the projection of
    one of them of the greatest severity, so unresolved uncertainty is never
    hidden behind a completed retry. *)
Theorem lineage_worst_of now parents all :
  match classify_retry_lineage now parents all with
  | None => parents = []
  | Some c =>
      (exists p, p ∈ parents /\
         c = mkClass (p_state (project_parent now all p))
                     (p_blocking_reason (project_parent now all p))) /\
      forall p, p ∈ parents ->
        severity_rank (p_state (project_parent now all p)) <= severity_rank (c_state c)
  end.
Proof.
  unfold classify_retry_lineage, classify_retry_lineages.
  pose proof (fold_worse (map (project_parent now all) parents) None) as H.
  destruct (fold_left worse _ None) as [c|].
  - destruct H as ([[=]|(q & Hq & ->)] & _ & H). split.
    + apply list_elem_of_In, in_map_iff in Hq as (p & <- & Hp). apply list_elem_of_In in Hp.
      eauto.
    + intros p Hp. apply H. apply list_elem_of_In, in_map. by apply list_elem_of_In.
  - destruct H as [_ H]. by destruct parents.
Qed.

(** A retry lineage is open or closed, never both and never neither, and
    a latest child that was dispatched and whose lease ran out is unknown -
    it is never offered for redispatch. *)
Theorem lineage_partition now all p :
  let s := p_state (project_parent now all p) in
  (s ∈ CLOSED_RETRY_LINEAGE_STATES \/ s ∈ OPEN_RETRY_LINEAGE_STATES) /\
  ~ (s ∈ CLOSED_RETRY_LINEAGE_STATES /\ s ∈ OPEN_RETRY_LINEAGE_STATES) /\
  forall c rest, se_capsule_status p = "available" ->
    children_of (se_key p) all = c :: rest ->
    let latest := py_max se_ordinal c rest in
    (latest ∈ all /\ forall x, x ∈ all -> se_parent x = Some (se_key p) -> se_key p <> "" ->
                     se_ordinal x <= se_ordinal latest) /\
    (se_status latest = "started" -> se_dispatch_attempted latest = true ->
     lease_expired now (se_lease latest) = true -> s = RETRY_UNKNOWN).
Proof.
  intros s. split; [apply project_parent_partition|]. split.
  { clearbody s. unfold CLOSED_RETRY_LINEAGE_STATES, OPEN_RETRY_LINEAGE_STATES.
    rewrite !elem_of_cons, !elem_of_nil. intuition congruence. }
  intros c rest Hcap Hch latest. split.
  - pose proof (py_max_in se_ordinal c rest) as Hin. rewrite <- Hch in Hin. split.
    + unfold children_of in Hin. by apply elem_of_lfilter in Hin as [_ Hin].
    + intros x Hx Hp Hne. apply py_max_ge. rewrite <- Hch. unfold children_of.
      apply elem_of_lfilter. split; [|done]. rewrite Hp, String.eqb_refl, andb_true_r.
      unfold str_truthy. apply negb_true_iff. by apply String.eqb_neq.
  - intros Hs Hd He. subst s. unfold project_parent. rewrite Hcap, Hch. simpl.
    fold latest. rewrite Hs, Hd, He. reflexivity.
Qed.

Lemma classify_unpaused_reason now state ses rep decs :
  exists r, c_blocking_reason (classify_unpaused now state ses rep decs) = Some r.
Proof.
  unfold classify_unpaused.
  case_goal; [case_goal; simpl; eauto|].
  match goal with |- context [if nonempty ?l then classify_retry_lineage _ _ _ else None] =>
    pose proof (lineage_worst_of now l ses) as Hl; destruct (nonempty l) end.
  - destruct (classify_retry_lineage _ _ _) as [c|].
    + destruct Hl as [(p & _ & ->) _]. simpl.
      destruct (project_parent_reason now ses p) as (r & -> & _). eauto.
    + repeat case_goal; simpl; eauto.
  - repeat case_goal; simpl; eauto.
Qed.

(** Every state but completed and cancelled carries the reason that blocks
    the run; and an ordinary effect left unknown is never hidden: outside a
    terminal status and a genuine review pause it decides the
    classification. *)
Theorem classify_explains now state ses rep decs :
  let c := classify now state ses rep decs in
  (c_state c <> COMPLETED -> c_state c <> CANCELLED ->
   exists r, c_blocking_reason c = Some r) /\
  (run_status state <> "completed" -> run_status state <> "cancelled" ->
   run_status state <> "waiting_for_review" ->
   (exists se, se ∈ ses /\ se_status se = "unknown" /\ se_parent se = None) ->
   c_state c = if nonempty decs then CRASH_RECOVERABLE else CRASH_NEEDS_OPERATOR).
Proof.
  intros c. subst c. split.
  - unfold classify. case_goal; [done|]. case_goal; [done|]. intros _ _.
    repeat (case_goal; try (simpl; eauto; fail)); apply classify_unpaused_reason.
  - intros H1 H2 H3 (se & Hin & Hs & Hp). unfold classify.
    apply String.eqb_neq in H1 as ->, H2 as ->, H3 as ->.
    unfold classify_unpaused.
    assert (nonempty (List.filter (fun se => (se_status se =s? "unknown")
              && negb (ostr_truthy (se_parent se))) ses) = true) as ->.
    { apply nonempty_true. intros Hn.
      assert (se ∈ @nil SideEffectFacts) as H; [|inversion H].
      rewrite <- Hn. apply elem_of_lfilter. by rewrite Hs, Hp. }
    by destruct (nonempty decs).
Qed.

(** The lineage view agrees with crash repair: a started child the repair
    would move to unknown is already shown as unknown, and one it would
    requeue as an attempt in flight that is safe to reclaim. *)
Theorem lineage_matches_repair now (db : Db) run p r :
  r ∈ ledger db -> expired_child run now r = true ->
  se_capsule_status p = "available" ->
  children_of (se_key p) (map facts_of (ledger db)) = [facts_of r] ->
  p_state (project_parent now (map facts_of (ledger db)) p) =
    (if (snd (scan_entry r) =s? "unknown")%string then RETRY_UNKNOWN else RETRY_ATTEMPT_IN_FLIGHT) /\
  (scan_entry r) ∈ scan_expired_recovery_children run now db.
Proof.
  intros Hr Hx Hcap Hch. split.
  - apply expired_child_true in Hx as (_ & Hs & Hl). unfold project_parent.
    rewrite Hcap, Hch. unfold classify_one_parent. simpl.
    rewrite Hs. unfold facts_of; simpl.
    destruct (claim_expires_at r) as [t|]; [|discriminate]. simpl in Hl. bool_prop.
    assert (now <? t = false) as Hlt by (apply Z.ltb_ge; lia).
    unfold lease_expired, scan_entry. rewrite Hlt.
    by destruct (dispatch_attempted_at r).
  - unfold scan_expired_recovery_children. apply list_elem_of_In, in_map_iff. exists r.
    split; [unfold scan_entry; by destruct (dispatch_attempted_at r)|]. apply list_elem_of_In. by apply elem_of_lfilter.
Qed.

Lemma lineage_matches_repair_witness :
  let r := row_of "k2" (exec (OMark "r" "k2" "tok" 11) db_claimed) in
  let db := exec (OMark "r" "k2" "tok" 11) db_claimed in
  let p := mkFacts "k" "retry_authorized" None 0 false LeaseNone "available" in
  p_state (project_parent later (map facts_of (ledger db)) p) =
    (if (snd (scan_entry r) =s? "unknown")%string then RETRY_UNKNOWN else RETRY_ATTEMPT_IN_FLIGHT).
Proof.
  intros r db p.
  refine (proj1 (lineage_matches_repair later db "r" p r _ _ _ _)).
  - decided.
  - vm_compute. reflexivity.
  - reflexivity.
  - vm_compute. reflexivity.
Defined.
