(* ===== verification/FailureManager.v ===== *)
(** * Failure recovery strategies

    [runtime/failure_manager.py]: classification of an error text and one
    strategy per failure type.  A strategy reads and increments the retry
    count of the node, compiles a retry envelope and invokes the node once.
    The collaborators are parameters: [allocate_step], [invoke_fn] (a missing
    one is [None]; it may raise) and the envelope's fresh id and time. *)
From S2P Require Import Prelude PyFloat PyValue Envelope.

Inductive FailureType :=
| NODE_SCHEMA_VALIDATION | MODEL_TIMEOUT | SEARCH_API_UNAVAILABLE
| SOURCE_QUALITY_LOOP_EXHAUSTED | CLAIM_VALIDATION_FAILURE | RISK_HIGH_NO_REVIEWER
| MEMORY_WRITE_POLICY_REJECTION | TRACE_WRITE_FAILURE | UNKNOWN.

#[export] Instance FailureType_eq_dec : EqDecision FailureType.
Proof. solve_decision. Defined.

Definition FailureType_value (t : FailureType) : string :=
  match t with
  | NODE_SCHEMA_VALIDATION => "node_schema_validation"
  | MODEL_TIMEOUT => "model_timeout"
  | SEARCH_API_UNAVAILABLE => "search_api_unavailable"
  | SOURCE_QUALITY_LOOP_EXHAUSTED => "source_quality_loop_exhausted"
  | CLAIM_VALIDATION_FAILURE => "claim_validation_failure"
  | RISK_HIGH_NO_REVIEWER => "risk_high_no_reviewer"
  | MEMORY_WRITE_POLICY_REJECTION => "memory_write_policy_rejection"
  | TRACE_WRITE_FAILURE => "trace_write_failure"
  | UNKNOWN => "unknown"
  end.

Definition all_failure_types : list FailureType :=
  [ NODE_SCHEMA_VALIDATION; MODEL_TIMEOUT; SEARCH_API_UNAVAILABLE;
    SOURCE_QUALITY_LOOP_EXHAUSTED; CLAIM_VALIDATION_FAILURE; RISK_HIGH_NO_REVIEWER;
    MEMORY_WRITE_POLICY_REJECTION; TRACE_WRITE_FAILURE; UNKNOWN ].

(** [FailureType(s)]: [None] is [ValueError]. *)
Definition FailureType_of (s : string) : option FailureType :=
  List.find (fun t => FailureType_value t =s? s) all_failure_types.

Definition OPERATOR_FALLBACK_TYPES : list FailureType := [SEARCH_API_UNAVAILABLE].

Definition supports_operator_fallback (t : FailureType) : bool :=
  existsb (fun x => bool_decide (x = t)) OPERATOR_FALLBACK_TYPES.

Record FailureResult := mkFailureResult {
  recovered : bool;
  response : option EnvelopeResponse;
  action : string;
}.

Definition classify_failure (error : string) : FailureType :=
  let e := lower error in
  let has s := contains s e in
  if has "claim" && (has "fail" || has "all" || has "unable") then CLAIM_VALIDATION_FAILURE
  else if has "loop" && has "exhaust" then SOURCE_QUALITY_LOOP_EXHAUSTED
  else if has "risk" && has "review" then RISK_HIGH_NO_REVIEWER
  else if has "memory" && has "policy" then MEMORY_WRITE_POLICY_REJECTION
  else if has "trace" && (has "write" || has "sink") then TRACE_WRITE_FAILURE
  else if has "schema" || has "validation" then NODE_SCHEMA_VALIDATION
  else if has "timeout" || has "timed out" then MODEL_TIMEOUT
  else if has "api" && (has "unavail" || has "connect") then SEARCH_API_UNAVAILABLE
  else UNKNOWN.

(** What escapes a strategy: an invalid envelope, or the exception of a
    collaborator. *)
Inductive handler_error :=
| EnvelopeInvalid
| CollaboratorRaised.

(** The retry counts per node. *)
Definition counts := dict Z.
Definition count_of (node_id : string) (c : counts) : Z := dget_or node_id 0 c.

(** A call that ran: the counts after it, whether the node was invoked, and
    the result or the exception. *)
Record Outcome := mkOutcome {
  o_counts : counts;
  o_invoked : list InvocationEnvelope;
  o_result : res handler_error FailureResult;
}.

Section Handlers.
Context (allocate_step : option (string -> string -> Z -> option Z)).
Context (invoke_fn : option (InvocationEnvelope -> option EnvelopeResponse)).
Context (fresh_id : string) (now : Z).

(** [None] when the allocator raises. *)
Definition allocate_retry_step (env : InvocationEnvelope) (attempt : Z) : option Z :=
  match allocate_step with
  | Some f => f (env_run_id env) (env_node_id env) attempt
  | None => Some (env_step_id env + 1)
  end.

Definition answer (c : counts) (r : FailureResult) : Outcome := mkOutcome c [] (Ok r).

(** Compile the retry envelope: [compile_envelope] with the node, the step
    of the allocator, a payload and possibly the context of the original. *)
Definition retry_envelope (env : InvocationEnvelope) (node_id : string) (payload : pyctx)
  (context : option Context) : res handler_error InvocationEnvelope :=
  match allocate_retry_step env 2 with
  | None => Err CollaboratorRaised
  | Some step =>
      match compile_envelope fresh_id now (env_run_id env) (env_chain_id env) node_id step
              payload context None with
      | Ok e => Ok e
      | Err _ => Err EnvelopeInvalid
      end
  end.

(** [response = await invoke_fn(node, e); if response.success ...] *)
Definition invoke_once (c : counts)
  (invoke : InvocationEnvelope -> option EnvelopeResponse)
  (e : InvocationEnvelope) (ok_action failed_action : string) : Outcome :=
  match invoke e with
  | None => mkOutcome c [e] (Err CollaboratorRaised)
  | Some r =>
      mkOutcome c [e] (Ok (mkFailureResult (success r) (Some r)
                             (if success r then ok_action else failed_action)))
  end.

(** Invoke with an envelope that may fail to compile. *)
Definition compile_and_invoke (c : counts) (env : InvocationEnvelope) (node_id : string)
  (payload : pyctx) (context : option Context) (ok_action failed_action : string) : Outcome :=
  match invoke_fn with
  | None => answer c (mkFailureResult false None "no_invoke_fn")
  | Some invoke =>
      match retry_envelope env node_id payload context with
      | Err e => mkOutcome c [] (Err e)
      | Ok e => invoke_once c invoke e ok_action failed_action
      end
  end.

(** Strategy 1: the envelope is compiled before [invoke_fn] is tested. *)
Definition handle_schema_failure (c : counts) (node_id : string) (env : InvocationEnvelope)
  : Outcome :=
  let retries := count_of node_id c in
  if 1 <=? retries then answer c (mkFailureResult false None "exhausted_schema_retry")
  else
    let c := dset node_id (retries + 1) c in
    match retry_envelope env node_id (payload env) None with
    | Err e => mkOutcome c [] (Err e)
    | Ok e =>
        match invoke_fn with
        | None => answer c (mkFailureResult false None "no_invoke_fn")
        | Some invoke =>
            invoke_once c invoke e "schema_retry_reduced_context" "schema_failure_retry_failed"
        end
    end.

(** Strategy 2. *)
Definition handle_model_timeout (c : counts) (node_id : string) (env : InvocationEnvelope)
  : Outcome :=
  let retries := count_of node_id c in
  if 2 <=? retries then answer c (mkFailureResult false None "exhausted_model_retry")
  else
    let c := dset node_id (retries + 1) c in
    compile_and_invoke c env node_id (payload env) (Some (env_context env))
      "model_retry_extended_timeout" "model_timeout_retry_failed".

(** Strategy 3: the local document store only. *)
Definition handle_search_unavailable (c : counts) (node_id : string) (env : InvocationEnvelope)
  : Outcome :=
  let retries := count_of node_id c in
  if 1 <=? retries then answer c (mkFailureResult false None "exhausted_search_fallback")
  else
    let c := dset node_id (retries + 1) c in
    let fallback_payload :=
      dset "fallback_mode" (VBool true)
        (dset "adapters_granted" (VDict [("chroma_local", VBool true)]) (payload env)) in
    compile_and_invoke c env node_id fallback_payload None
      "search_fallback_local_store" "search_unavailable_retry_failed".

(** Strategies 4 to 8. *)
Definition handle_loop_exhausted (c : counts) : Outcome :=
  answer c (mkFailureResult false None "escalate_to_human_review").

Definition handle_claim_failure (c : counts) (revision_count : Z) : Outcome :=
  if 1 <=? revision_count then answer c (mkFailureResult false None "exhausted_revision")
  else answer c (mkFailureResult false None "route_to_task_planner_revision").

Definition handle_no_reviewer (c : counts) : Outcome :=
  answer c (mkFailureResult false None "pause_escalation_no_reviewer").

Definition handle_memory_rejection (c : counts) : Outcome :=
  answer c (mkFailureResult true None "skip_memory_write_policy_rejection").

Definition handle_trace_failure (c : counts) : Outcome :=
  answer c (mkFailureResult true None "trace_fallback_stderr").

Definition handle_unknown (c : counts) (node_id : string) (env : InvocationEnvelope) : Outcome :=
  let retries := count_of node_id c in
  if 1 <=? retries then answer c (mkFailureResult false None "exhausted_default_retry")
  else
    let c := dset node_id (retries + 1) c in
    compile_and_invoke c env node_id (payload env) (Some (env_context env))
      "default_retry" "unknown_retry_failed".

(** [revision_count] is [state.get("revision_count", 0)]. *)
Definition handle (t : FailureType) (c : counts) (node_id : string) (env : InvocationEnvelope)
  (revision_count : Z) : Outcome :=
  match t with
  | NODE_SCHEMA_VALIDATION => handle_schema_failure c node_id env
  | MODEL_TIMEOUT => handle_model_timeout c node_id env
  | SEARCH_API_UNAVAILABLE => handle_search_unavailable c node_id env
  | SOURCE_QUALITY_LOOP_EXHAUSTED => handle_loop_exhausted c
  | CLAIM_VALIDATION_FAILURE => handle_claim_failure c revision_count
  | RISK_HIGH_NO_REVIEWER => handle_no_reviewer c
  | MEMORY_WRITE_POLICY_REJECTION => handle_memory_rejection c
  | TRACE_WRITE_FAILURE => handle_trace_failure c
  | UNKNOWN => handle_unknown c node_id env
  end.

Definition route_fallback (t : FailureType) (c : counts) (node_id : string)
  (env : InvocationEnvelope) (revision_count : Z) : Outcome :=
  if negb (supports_operator_fallback t) then
    answer c (mkFailureResult false None ("no_operator_fallback_for_" +:+ FailureType_value t))
  else handle t c node_id env revision_count.

(** ** Properties *)

(** Handle a sequence of failures, keeping the counts. *)
Fixpoint handle_all (c : counts) (l : list (FailureType * string * InvocationEnvelope * Z))
  : counts * list (string * InvocationEnvelope) :=
  match l with
  | [] => (c, [])
  | (t, nid, env, rev) :: rest =>
      let o := handle t c nid env rev in
      let '(c', calls) := handle_all (o_counts o) rest in
      (c', map (fun e => (nid, e)) (o_invoked o) ++ calls)
  end.

Lemma invoked_once c invoke e a b :
  o_invoked (invoke_once c invoke e a b) = [e] /\ o_counts (invoke_once c invoke e a b) = c.
Proof. unfold invoke_once. by destruct (invoke e). Qed.

Lemma compile_and_invoke_counts c env nid p ctx a b :
  o_counts (compile_and_invoke c env nid p ctx a b) = c /\
  (length (o_invoked (compile_and_invoke c env nid p ctx a b)) <= 1)%nat.
Proof.
  unfold compile_and_invoke. destruct invoke_fn as [invoke|]; [|by simpl; split; [|lia]].
  destruct (retry_envelope _ _ _ _) as [e|e]; [|by simpl; split; [|lia]].
  destruct (invoked_once c invoke e a b) as [-> ->]. simpl. split; [done | lia].
Qed.

(** What one call does to the count of the failing node. *)
Lemma handle_step t c nid env rev :
  let o := handle t c nid env rev in
  (o_counts o = c /\ o_invoked o = []) \/
  (count_of nid c < 2 /\ o_counts o = dset nid (count_of nid c + 1) c /\
   (length (o_invoked o) <= 1)%nat).
Proof.
  destruct t; cbn [handle]; try (by left).
  - unfold handle_schema_failure. case_goal; [by left|]. right. bool_prop.
    destruct (retry_envelope _ _ _ _) as [e|e]; simpl; [|split_and!; [lia|done|lia]].
    destruct invoke_fn as [invoke|]; simpl; [|split_and!; [lia|done|lia]].
    match goal with |- context [invoke_once ?c ?i ?e ?x ?y] =>
      destruct (invoked_once c i e x y) as [-> ->] end. simpl. split_and!; [lia|done|lia].
  - unfold handle_model_timeout. case_goal; [by left|]. right. bool_prop.
    match goal with |- context [compile_and_invoke ?c ?e ?n ?p ?x ?y ?z] =>
      destruct (compile_and_invoke_counts c e n p x y z) as [-> ?] end. by split_and!.
  - unfold handle_search_unavailable. case_goal; [by left|]. right. bool_prop.
    match goal with |- context [compile_and_invoke ?c ?e ?n ?p ?x ?y ?z] =>
      destruct (compile_and_invoke_counts c e n p x y z) as [-> ?] end. split_and!; [lia|done|lia].
  - unfold handle_claim_failure. case_goal; by left.
  - unfold handle_unknown. case_goal; [by left|]. right. bool_prop.
    match goal with |- context [compile_and_invoke ?c ?e ?n ?p ?x ?y ?z] =>
      destruct (compile_and_invoke_counts c e n p x y z) as [-> ?] end. split_and!; [lia|done|lia].
Qed.

Definition calls_for (nid : string) (calls : list (string * InvocationEnvelope)) : nat :=
  count (fun p => (fst p =? nid)%string) calls.

Lemma calls_for_map nid nid' (l : list InvocationEnvelope) :
  calls_for nid (map (fun e => (nid', e)) l) = if (nid' =? nid)%string then length l else 0%nat.
Proof.
  unfold calls_for, count. induction l as [|e l IH]; simpl; [by destruct (nid' =? nid)%string|].
  destruct (nid' =? nid)%string; simpl; by rewrite IH.
Qed.

(** Whatever failures a node reports, in whatever order and mixed with
    those of other nodes, the manager re-invokes it at most twice in all. *)
Theorem retries_bounded nid l c :
  0 <= count_of nid c ->
  let '(c', calls) := handle_all c l in
  Z.of_nat (calls_for nid calls) + count_of nid c <= Z.max 2 (count_of nid c) /\
  count_of nid c <= count_of nid c'.
Proof.
  revert c. induction l as [|[[[t nid'] env] rev] l IH]; intros c Hc; cbn [handle_all].
  - unfold calls_for, count; simpl. lia.
  - pose proof (handle_step t c nid' env rev) as Hs. cbv zeta in Hs.
    destruct (handle t c nid' env rev) as [c1 inv r]; cbn [o_counts o_invoked] in *.
    assert (H1 : 0 <= count_of nid c1).
    { destruct Hs as [[-> _] | (_ & -> & _)]; [done|].
      unfold count_of, dget_or in *. destruct (String.eqb_spec nid nid') as [<-|Hne].
      - rewrite dget_dset_same. destruct (dget nid c); lia.
      - by rewrite dget_dset_other by done. }
    specialize (IH c1 H1). destruct (handle_all c1 l) as [c' calls]. destruct IH as [IH1 IH2].
    unfold calls_for in *. rewrite count_app. fold (calls_for nid (map (fun e => (nid', e)) inv)).
    rewrite calls_for_map.
    destruct Hs as [[-> ->] | (Hlt & -> & Hl)].
    + destruct (_ =? _)%string; simpl; lia.
    + destruct (String.eqb_spec nid' nid) as [-> | Hne].
      * assert (count_of nid (dset nid (count_of nid c + 1) c) = count_of nid c + 1) as He
          by (unfold count_of, dget_or; by rewrite dget_dset_same).
        rewrite He in *. lia.
      * assert (count_of nid (dset nid' (count_of nid' c + 1) c) = count_of nid c) as He
          by (unfold count_of, dget_or; rewrite dget_dset_other by congruence; done).
        rewrite He in *. lia.
Qed.

(** An operator can route to a fallback only for the search failure: any
    other type is refused without touching the counts or invoking the node. *)
Theorem fallback_only_search t c nid env rev :
  t <> SEARCH_API_UNAVAILABLE ->
  route_fallback t c nid env rev =
  mkOutcome c [] (Ok (mkFailureResult false None
                        ("no_operator_fallback_for_" +:+ FailureType_value t))).
Proof. intros H. destruct t; try done. Qed.
End Handlers.

Lemma FailureType_roundtrip t : FailureType_of (FailureType_value t) = Some t.
Proof. by destruct t. Qed.

(** What a strategy invokes, and whose response it hands back. *)
Lemma handle_retry k (inv : InvocationEnvelope -> option EnvelopeResponse) f now t c nid env rev :
  let oc := handle (Some (fun _ _ _ => Some k)) (Some inv) f now t c nid env rev in
  (forall x, x ∈ o_invoked oc -> env_step_id x = k /\ env_node_id x = nid) /\
  (forall res r, o_result oc = Ok res -> response res = Some r -> exists x, x ∈ o_invoked oc /\ inv x = Some r).
Proof.
  assert (Henv : forall pl ctx e, retry_envelope (Some (fun _ _ _ => Some k)) f now env nid pl ctx = Ok e ->
            env_step_id e = k /\ env_node_id e = nid).
  { intros pl ctx e. unfold retry_envelope, allocate_retry_step, compile_envelope.
    destruct (1 <=? k); cbn; [|discriminate]. by intros [= <-]. }
  assert (Hans : forall c b a, (forall x, x ∈ o_invoked (answer c (mkFailureResult b None a)) ->
             env_step_id x = k /\ env_node_id x = nid) /\
            (forall res r, o_result (answer c (mkFailureResult b None a)) = Ok res -> response res = Some r ->
             exists x, x ∈ o_invoked (answer c (mkFailureResult b None a)) /\ inv x = Some r)).
  { intros c0 b a. split; cbn; [by intros x ?%elem_of_nil|]. by intros res r [= <-]. }
  assert (Hinv : forall c pl ctx e a b, retry_envelope (Some (fun _ _ _ => Some k)) f now env nid pl ctx = Ok e ->
            (forall x, x ∈ o_invoked (invoke_once c inv e a b) -> env_step_id x = k /\ env_node_id x = nid) /\
            (forall res r, o_result (invoke_once c inv e a b) = Ok res -> response res = Some r ->
             exists x, x ∈ o_invoked (invoke_once c inv e a b) /\ inv x = Some r)).
  { intros c0 pl ctx e a b He. apply Henv in He. unfold invoke_once. destruct (inv e) as [r|] eqn:Er; cbn; split.
    - by intros x ->%list_elem_of_singleton.
    - intros res r' [= <-] [= <-]. exists e. split; [by left | done].
    - by intros x ->%list_elem_of_singleton.
    - discriminate. }
  assert (Herr : forall c e, (forall x, x ∈ o_invoked (mkOutcome c [] (Err e)) -> env_step_id x = k /\ env_node_id x = nid) /\
            (forall res r, o_result (mkOutcome c [] (Err e)) = Ok res -> response res = Some r ->
             exists x, x ∈ o_invoked (mkOutcome c [] (Err e)) /\ inv x = Some r)).
  { intros c0 e. split; cbn; [by intros x ?%elem_of_nil | discriminate]. }
  intros oc. subst oc.
  destruct t; cbn [handle];
    unfold handle_schema_failure, handle_model_timeout, handle_search_unavailable, handle_loop_exhausted,
      handle_claim_failure, handle_no_reviewer, handle_memory_rejection, handle_trace_failure, handle_unknown,
      compile_and_invoke; try apply Hans; case_goal; try apply Hans;
    destruct (retry_envelope _ _ _ _ _ _ _) eqn:E; first [apply Herr | by eapply Hinv].
Qed.

(** A retry of an envelope: the same run and node, its payload, possibly with
    the marks of the fallback, its context or none, and no grant at all. *)
Definition retry_of (env x : InvocationEnvelope) : Prop :=
  env_run_id x = env_run_id env /\ env_chain_id x = env_chain_id env /\ env_node_id x = env_node_id env /\
  capabilities x = default_capabilities /\
  (env_context x = env_context env \/ env_context x = default_context) /\
  (payload x = payload env \/
   payload x = dset "fallback_mode" (VBool true)
     (dset "adapters_granted" (VDict [("chroma_local", VBool true)]) (payload env))).

Lemma invoked_retry k inv f now t c env rev x :
  x ∈ o_invoked (handle (Some (fun _ _ _ => Some k)) (Some inv) f now t c (env_node_id env) env rev) -> retry_of env x.
Proof.
  assert (Henv : forall pl ctx e, retry_envelope (Some (fun _ _ _ => Some k)) f now env (env_node_id env) pl ctx = Ok e ->
            (pl = payload env \/ pl = dset "fallback_mode" (VBool true)
               (dset "adapters_granted" (VDict [("chroma_local", VBool true)]) (payload env))) ->
            (ctx = Some (env_context env) \/ ctx = None) -> retry_of env e).
  { intros pl ctx e. unfold retry_envelope, allocate_retry_step, compile_envelope.
    destruct (1 <=? k); cbn; [|discriminate]. intros [= <-] Hpl Hctx. unfold retry_of. cbn.
    split_and!; try done. destruct Hctx as [->| ->]; cbn; auto. }
  assert (Hno : forall c0 r, x ∈ o_invoked (answer c0 r) -> retry_of env x) by (intros c0 r H; by apply elem_of_nil in H).
  assert (Herr : forall c0 e, x ∈ o_invoked (mkOutcome c0 [] (Err e)) -> retry_of env x)
    by (intros c0 e H; by apply elem_of_nil in H).
  assert (Hinv : forall c0 e a b, retry_of env e -> x ∈ o_invoked (invoke_once c0 inv e a b) -> retry_of env x).
  { intros c0 e a b He. unfold invoke_once. by destruct (inv e); cbn; intros ->%list_elem_of_singleton. }
  destruct t; cbn [handle];
    unfold handle_schema_failure, handle_model_timeout, handle_search_unavailable, handle_loop_exhausted,
      handle_claim_failure, handle_no_reviewer, handle_memory_rejection, handle_trace_failure, handle_unknown,
      compile_and_invoke; try apply Hno; case_goal; try apply Hno;
    destruct (retry_envelope _ _ _ _ _ _ _) eqn:E; try apply Herr; apply Hinv; eapply Henv; eauto.
Qed.

Definition demo_envelope : InvocationEnvelope :=
  mkEnvelope "e" "r" "c" "n" 1 0 [("q", VStr "x")] default_context default_capabilities [] None.

Lemma retries_bounded_witness :
  let '(c', calls) := handle_all None (Some (fun _ => None)) "e2" 1 []
     [(MODEL_TIMEOUT, "n", demo_envelope, 0); (UNKNOWN, "n", demo_envelope, 0);
      (MODEL_TIMEOUT, "n", demo_envelope, 0); (MODEL_TIMEOUT, "n", demo_envelope, 0)] in
  Z.of_nat (calls_for "n" calls) + 0 <= 2 /\ 0 <= count_of "n" c'.
Proof.
  refine (retries_bounded None (Some (fun _ => None)) "e2" 1 "n"
     [(MODEL_TIMEOUT, "n", demo_envelope, 0); (UNKNOWN, "n", demo_envelope, 0);
      (MODEL_TIMEOUT, "n", demo_envelope, 0); (MODEL_TIMEOUT, "n", demo_envelope, 0)] [] _).
  discriminate.
Defined.

Lemma fallback_only_search_witness :
  o_result (route_fallback None None "e" 0 MODEL_TIMEOUT [] "n" demo_envelope 0)
  = Ok (mkFailureResult false None "no_operator_fallback_for_model_timeout").
Proof.
  rewrite (fallback_only_search None None "e" 0 MODEL_TIMEOUT [] "n" demo_envelope 0);
    [reflexivity | discriminate].
Defined.
