(* ===== verification/Governance.v ===== *)
(** * Governance profiles

    [runtime/governance_profiles.py]: named profiles that may make recovery
    authorization stricter, their hard floors, the built-in profiles and the
    resolver.  Reading and parsing a YAML file is a parameter. *)
From S2P Require Import Prelude PyFloat PyValue.

Record RolePolicy := mkRoles { roles_allowed : list string; default_role : string }.

Record ActionGovernance := mkActionGov {
  ag_allowed_roles : list string;
  ag_require_reason : bool;
  ag_require_override : bool;
}.

Record BudgetGovernance := mkBudgetGov {
  approve_roles : list string;
  bg_require_reason : bool;
  max_new_budget_usd : option pyfloat;
  max_increase_multiplier : option pyfloat;
}.

Record BatchGovernance := mkBatchGov {
  batch_enabled : bool;
  max_actions : Z;
  allow_continue_on_error : bool;
  require_dry_run_before_execute : bool;
}.

Record AuditGovernance := mkAuditGov {
  require_operator_identity : bool;
  require_reason_for_mutations : bool;
  record_profile_digest : bool;
}.

Record OverrideGovernance := mkOverrideGov {
  non_retryable_retry_requires_admin : bool;
  non_retryable_retry_requires_env_override : bool;
  break_glass_requires_env_override : bool;
}.

Record GovernanceProfile := mkProfile {
  profile_id : string;
  display_name : string;
  profile_description : string;
  profile_version : string;
  roles : RolePolicy;
  profile_actions : dict ActionGovernance;
  budget : BudgetGovernance;
  batch : BatchGovernance;
  audit : AuditGovernance;
  override : OverrideGovernance;
}.

Definition ALL_ROLES : list string := ["operator"; "finance"; "admin"].
Definition ALL_ACTIONS : list string :=
  [ "resume"; "retry_step"; "approve_review"; "reject_review"; "request_revision";
    "route_fallback"; "cancel_run"; "fail_run"; "export_report"; "approve_budget_increase";
    "resolve_side_effect"; "execute_retry_authorized" ].

Definition actions_with (allowed : list string) (reason : bool) : dict ActionGovernance :=
  map (fun a => (a, mkActionGov allowed reason false)) ALL_ACTIONS.

(** [_default_actions(roles)]: an empty list falls back to all roles. *)
Definition default_actions (allowed : option (list string)) : dict ActionGovernance :=
  actions_with (match allowed with Some ((_ :: _) as l) => l | _ => ALL_ROLES end) false.

Definition default_override : OverrideGovernance := mkOverrideGov true true true.

Definition team_default : GovernanceProfile :=
  mkProfile "team-default" "Team Default"
    "Default governed recovery policy for normal team operation." "1"
    (mkRoles ALL_ROLES "operator") (default_actions None)
    (mkBudgetGov ["finance"; "admin"] true None None)
    (mkBatchGov true 50 true false) (mkAuditGov false false true) default_override.

Definition solo_dev : GovernanceProfile :=
  mkProfile "solo-dev" "Solo Dev"
    "Lower-friction recovery for solo development and non-production use." "1"
    (mkRoles ALL_ROLES "operator") (default_actions None)
    (mkBudgetGov ["finance"; "admin"] true None None)
    (mkBatchGov true 100 true false) (mkAuditGov false false true) default_override.

Definition regulated : GovernanceProfile :=
  mkProfile "regulated" "Regulated"
    "Strict recovery governance for regulated environments." "1"
    (mkRoles ALL_ROLES "operator") (actions_with ALL_ROLES true)
    (mkBudgetGov ["finance"; "admin"] true None None)
    (mkBatchGov true 20 false true) (mkAuditGov true true true) default_override.

Definition break_glass : GovernanceProfile :=
  mkProfile "break-glass" "Break Glass"
    "Emergency profile: admin-only, highly audited, more permissive for admin." "1"
    (mkRoles ["admin"] "admin") (actions_with ["admin"] true)
    (mkBudgetGov ["admin"] true None None)
    (mkBatchGov true 10 false false) (mkAuditGov true true true) default_override.

Definition BUILTIN_PROFILES : dict GovernanceProfile :=
  [ ("team-default", team_default); ("solo-dev", solo_dev); ("regulated", regulated);
    ("break-glass", break_glass) ].

Inductive governance_error :=
| UnknownProfile (name : string)
| BudgetFloor
| RetryAdminFloor
| RetryOverrideFloor
| InvalidRole (role : string)
| ActionRoleOutside (action role : string)
| NotAMapping
| InvalidProfile.

#[export] Instance governance_error_eq_dec : EqDecision governance_error.
Proof. solve_decision. Defined.

Definition get_builtin_profile (name : string) : res governance_error GovernanceProfile :=
  match dget name BUILTIN_PROFILES with
  | Some p => Ok p
  | None => Err (UnknownProfile name)
  end.

(** Floor 4, the loop over one action's roles and over the actions. *)
Fixpoint check_action_roles (allowed : list string) (name : string) (ars : list string)
  : res governance_error unit :=
  match ars with
  | [] => Ok tt
  | ar :: rest =>
      if mem ar allowed then check_action_roles allowed name rest
      else Err (ActionRoleOutside name ar)
  end.

Fixpoint check_actions (allowed : list string) (acts : dict ActionGovernance)
  : res governance_error unit :=
  match acts with
  | [] => Ok tt
  | (name, ag) :: rest =>
      _ ← check_action_roles allowed name (ag_allowed_roles ag);
      check_actions allowed rest
  end.

Fixpoint check_roles (rs : list string) : res governance_error unit :=
  match rs with
  | [] => Ok tt
  | r :: rest => if mem r ALL_ROLES then check_roles rest else Err (InvalidRole r)
  end.

Definition validate_profile_hard_floors (p : GovernanceProfile) : res governance_error unit :=
  _ ← guard_err (negb (mem "operator" (approve_roles (budget p)))) BudgetFloor;
  _ ← guard_err (non_retryable_retry_requires_admin (override p)) RetryAdminFloor;
  _ ← guard_err (non_retryable_retry_requires_env_override (override p)) RetryOverrideFloor;
  _ ← check_roles (roles_allowed (roles p));
  check_actions (roles_allowed (roles p)) (profile_actions p).

Section Resolver.
(** The YAML file at a path, parsed: not a mapping, not a valid profile, or a
    profile. [config_exists] tells whether the project file is there. *)
Context (parse_file : string -> res governance_error GovernanceProfile).
Context (config_exists : bool).
Context (env_profile env_profile_file : option string).

Definition CONFIG_PATH : string := "nodechain.governance.yaml".

Definition load_from_file (path : string) : res governance_error GovernanceProfile :=
  p ← parse_file path;
  _ ← validate_profile_hard_floors p;
  Ok p.

Definition resolve (explicit_profile explicit_profile_file : option string)
  : res governance_error GovernanceProfile :=
  if ostr_truthy explicit_profile then get_builtin_profile (default "" explicit_profile)
  else if ostr_truthy explicit_profile_file then load_from_file (default "" explicit_profile_file)
  else if ostr_truthy env_profile then get_builtin_profile (default "" env_profile)
  else if ostr_truthy env_profile_file then load_from_file (default "" env_profile_file)
  else if config_exists then load_from_file CONFIG_PATH
  else get_builtin_profile "team-default".
End Resolver.

(** ** Properties *)

(** The hard floors, declaratively. *)
Definition within_floors (p : GovernanceProfile) : Prop :=
  "operator" ∉ approve_roles (budget p) /\
  non_retryable_retry_requires_admin (override p) = true /\
  non_retryable_retry_requires_env_override (override p) = true /\
  (forall r, r ∈ roles_allowed (roles p) -> r ∈ ALL_ROLES) /\
  (forall name ag r, (name, ag) ∈ profile_actions p -> r ∈ ag_allowed_roles ag ->
     r ∈ roles_allowed (roles p)).

Lemma check_roles_ok rs u : check_roles rs = Ok u <-> forall r, r ∈ rs -> r ∈ ALL_ROLES.
Proof.
  destruct u. induction rs as [|x rs IH]; cbn [check_roles].
  - split; [intros _ r H; inversion H | done].
  - setoid_rewrite (elem_of_cons rs). destruct (mem_spec x ALL_ROLES) as [Hx|Hx].
    + rewrite IH. split; [intros H r [-> | Hr]; [exact Hx | by apply H] | intros H r Hr; apply H; by right].
    + split; [discriminate|]. intros H. exfalso. apply Hx, H. by left.
Qed.

Lemma check_action_roles_ok allowed name ars u :
  check_action_roles allowed name ars = Ok u <-> forall r, r ∈ ars -> r ∈ allowed.
Proof.
  destruct u. induction ars as [|x ars IH]; simpl.
  - split; [intros _ r H; inversion H | done].
  - setoid_rewrite (elem_of_cons ars). destruct (mem_spec x allowed) as [Hx|Hx].
    + rewrite IH. split; [intros H r [-> | Hr]; [exact Hx | by apply H] | intros H r Hr; apply H; by right].
    + split; [discriminate|]. intros H. exfalso. apply Hx, H. by left.
Qed.

Lemma check_actions_ok allowed acts u :
  check_actions allowed acts = Ok u <->
  forall name ag r, (name, ag) ∈ acts -> r ∈ ag_allowed_roles ag -> r ∈ allowed.
Proof.
  destruct u. induction acts as [|[n ag] acts IH]; simpl.
  - split; [intros _ n ag r H; inversion H | done].
  - rewrite bind_ok. setoid_rewrite elem_of_cons.
    setoid_rewrite check_action_roles_ok. split.
    + intros (u & H1 & H2) name ag' r [[= -> ->]|Hin] Hr; [auto|].
      by eapply (proj1 IH H2).
    + intros H. exists tt. split; [intros r Hr; eapply H; eauto|].
      apply IH. intros name ag' r Hin Hr. eapply H; eauto.
Qed.

Lemma validate_floors p u : validate_profile_hard_floors p = Ok u <-> within_floors p.
Proof.
  unfold validate_profile_hard_floors, within_floors. split.
  - intros H. inv_bind H.
    apply guard_err_ok in Ha, Ha0, Ha1. rewrite negb_true_iff, mem_false in Ha.
    rewrite check_roles_ok in Ha2. rewrite check_actions_ok in H. by split_and!.
  - intros (H1 & H2 & H3 & H4 & H5).
    apply mem_false in H1 as ->. rewrite H2, H3. cbn [negb guard_err mbind res_bind].
    rewrite (proj2 (check_roles_ok _ tt) H4). cbn [mbind res_bind].
    by apply check_actions_ok.
Qed.

Lemma builtin_within p name : dget name BUILTIN_PROFILES = Some p -> within_floors p.
Proof.
  intros H%dget_In%list_elem_of_In. apply (validate_floors p tt).
  unfold BUILTIN_PROFILES in H.
  repeat (destruct H as [H|H];
          [apply (f_equal snd) in H; simpl in H; subst p; vm_compute; reflexivity|]).
  destruct H.
Qed.

(** Every profile the resolver can return - built-in, named by the
    environment, or loaded from a file - is within the hard floors. *)
Theorem resolved_profile_within_floors parse_file config env_p env_f ep ef p :
  resolve parse_file config env_p env_f ep ef = Ok p ->
  "operator" ∉ approve_roles (budget p) /\
  non_retryable_retry_requires_admin (override p) = true /\
  non_retryable_retry_requires_env_override (override p) = true /\
  (forall r, r ∈ roles_allowed (roles p) -> r ∈ ALL_ROLES) /\
  (forall name ag r, (name, ag) ∈ profile_actions p -> r ∈ ag_allowed_roles ag ->
     r ∈ roles_allowed (roles p)).
Proof.
  assert (Hb : forall n, get_builtin_profile n = Ok p -> within_floors p).
  { unfold get_builtin_profile. intros n H. destruct (dget n _) eqn:E; [|discriminate].
    injection H as <-. by eapply builtin_within. }
  assert (Hf : forall f, load_from_file parse_file f = Ok p -> within_floors p).
  { unfold load_from_file. intros f H. inv_bind H. injection H as <-.
    by eapply validate_floors. }
  unfold resolve. intros H. change (within_floors p). repeat (case_in H; eauto).
Qed.

Lemma resolved_profile_within_floors_witness :
  "operator" ∉ approve_roles (budget regulated).
Proof.
  refine (proj1 (resolved_profile_within_floors (fun _ => Err NotAMapping) true (Some "regulated")
                   None None None regulated _)).
  reflexivity.
Defined.
