(* ===== verification/RecoveryPolicy.v ===== *)
(** * Authorization of operator recovery actions

    [runtime/recovery_policy.py]: role check, governance profile, override
    and action rules, in the order of [authorize].  The environment the code
    reads is a record; the profile digest (a hash of its JSON) is a
    parameter; a rejection is given by its case instead of its text. *)
From Corelib Require Import SpecFloat.
From S2P Require Import Prelude PyFloat PyValue Sql SideEffectLedger RecoveryClassifier.
From S2P Require Import Envelope FailureManager Governance.

Inductive RecoveryAction :=
| RESUME | RETRY_STEP | APPROVE_REVIEW | REJECT_REVIEW | REQUEST_REVISION | ROUTE_FALLBACK
| CANCEL_RUN | FAIL_RUN | EXPORT_REPORT | APPROVE_BUDGET_INCREASE | RESOLVE_SIDE_EFFECT
| EXECUTE_RETRY_AUTHORIZED.

#[export] Instance RecoveryAction_eq_dec : EqDecision RecoveryAction.
Proof. solve_decision. Defined.

Definition RecoveryAction_value (a : RecoveryAction) : string :=
  match a with
  | RESUME => "resume" | RETRY_STEP => "retry_step" | APPROVE_REVIEW => "approve_review"
  | REJECT_REVIEW => "reject_review" | REQUEST_REVISION => "request_revision"
  | ROUTE_FALLBACK => "route_fallback" | CANCEL_RUN => "cancel_run" | FAIL_RUN => "fail_run"
  | EXPORT_REPORT => "export_report" | APPROVE_BUDGET_INCREASE => "approve_budget_increase"
  | RESOLVE_SIDE_EFFECT => "resolve_side_effect"
  | EXECUTE_RETRY_AUTHORIZED => "execute_retry_authorized"
  end.

Definition TERMINAL_STATES : list RecoveryState := [COMPLETED; CANCELLED].
Definition is_terminal (s : RecoveryState) : bool :=
  existsb (fun x => bool_decide (x = s)) TERMINAL_STATES.

Inductive Rejection :=
| RInvalidRole (role : string)
| RRoleNotAuthorized (role : string) (action : RecoveryAction)
| RProfileRole | RProfileActionRole | RProfileReason | RProfileOverride
| RProfileMutationReason | RProfileBudgetRole | RProfileBudgetReason | RProfileBudgetCap
| RProfileBudgetMultiplier | RProfileIdentity | RBreakGlassOverride
| ROverrideRequired
| RTerminal (s : RecoveryState)
| RNotBudgetPaused (s : RecoveryState) | RBudgetMissing | RBudgetNotRaised | RBudgetBelowSpent
| RTargetMissing | RTargetMismatch | RNoFailureType | RUnknownFailureType (t : string)
| RNoFallback (t : FailureType) | RDuplicateFallback
| RReviewFirst | RUnresolvedEffects (keys : list string) | RResumeState (s : RecoveryState)
| RNonRetryable | RRetryState (s : RecoveryState) | RNoPendingReview | RReviewCommitted.

Record AuthorizationResult := mkAuth {
  admitted : bool;
  rejection_reason : option Rejection;
  denial_type : option string;
  governance_profile_id : option string;
  governance_profile_digest : option string;
}.

Definition admission : AuthorizationResult := mkAuth true None None None None.
Definition reject (r : Rejection) : AuthorizationResult := mkAuth false (Some r) None None None.

Definition all_three : list string := ["operator"; "finance"; "admin"].

Definition ACTION_ALLOWED_ROLES (a : RecoveryAction) : list string :=
  match a with
  | APPROVE_BUDGET_INCREASE => ["finance"; "admin"]
  | RESOLVE_SIDE_EFFECT => ["operator"]
  | EXECUTE_RETRY_AUTHORIZED => ["operator"]
  | _ => all_three
  end.

Definition VALID_ROLES : list string := ["operator"; "finance"; "admin"].

(** The side-effect and decision rows of a snapshot, by the two fields read. *)
Record SnapshotEffect := mkSnapEffect { sn_status : option string; sn_key : option string }.

Record Snapshot := mkSnapshot {
  recovery_state : RecoveryState;
  sn_side_effects : list SnapshotEffect;
  sn_decision_keys : list (option string);
  failed_step : option Z;
  last_failure_type : option string;
  prior_fallback_attempts : list Z;
  pending_review : pyval;
  governed_decision_receipt : pyval;
  budget_previous : option pyfloat;
  budget_accumulated_cost : option pyfloat;
}.

(** [snapshot.get(key) or 0.0] *)
Definition or_zero (f : option pyfloat) : pyfloat :=
  match f with Some (S754_zero _) | None => fzero | Some x => x end.

Record Env := mkEnv {
  env_operator_role : option string;
  env_operator_override : option string;
  env_operator_identity : option string;
}.

(** ** The action rules *)

Definition truthy_keys (l : list (option string)) : list string :=
  omap (fun k => match k with Some s => if str_truthy s then Some s else None | None => None end) l.

Definition unresolved_effects (sn : Snapshot) : list string :=
  let unknown_keys :=
    py_set (truthy_keys (map sn_key
      (List.filter (fun se => match sn_status se with Some s => s =s? "unknown" | None => false end)
         (sn_side_effects sn)))) in
  let decided_keys := py_set (truthy_keys (sn_decision_keys sn)) in
  sort_str (set_diff unknown_keys decided_keys).

Definition check_unknown_effects_resolved (sn : Snapshot) : AuthorizationResult :=
  let unresolved := unresolved_effects sn in
  if nonempty unresolved then reject (RUnresolvedEffects unresolved) else admission.

Definition authorize_resume (sn : Snapshot) (state : RecoveryState) : AuthorizationResult :=
  match state with
  | PAUSED_FOR_POLICY_APPROVAL => admission
  | PAUSED_FOR_HUMAN_REVIEW => reject RReviewFirst
  | CRASH_RECOVERABLE | CRASH_NEEDS_OPERATOR => check_unknown_effects_resolved sn
  | _ => reject (RResumeState state)
  end.

(** [failed_step is not None and target_step_id != failed_step] *)
Definition step_mismatch (sn : Snapshot) (step : Z) : bool :=
  match failed_step sn with Some f => negb (step =? f) | None => false end.

Definition authorize_retry (sn : Snapshot) (state : RecoveryState) (target_step : option Z)
  (operator_override : bool) : AuthorizationResult :=
  match target_step with
  | None => reject RTargetMissing
  | Some step =>
      if step_mismatch sn step then reject RTargetMismatch
      else
        match state with
        | FAILED_RETRYABLE => admission
        | FAILED_NON_RETRYABLE => if operator_override then admission else reject RNonRetryable
        | CRASH_RECOVERABLE | CRASH_NEEDS_OPERATOR =>
            let effect_check := check_unknown_effects_resolved sn in
            if negb (admitted effect_check) then effect_check else admission
        | _ => reject (RRetryState state)
        end
  end.

Definition authorize_review (sn : Snapshot) : AuthorizationResult :=
  if negb (truthy (pending_review sn)) then reject RNoPendingReview
  else if truthy (governed_decision_receipt sn) then reject RReviewCommitted
  else admission.

Definition authorize_route_fallback (sn : Snapshot) (target_step : option Z)
  : AuthorizationResult :=
  match target_step with
  | None => reject RTargetMissing
  | Some step =>
      if step_mismatch sn step then reject RTargetMismatch
      else if negb (ostr_truthy (last_failure_type sn)) then reject RNoFailureType
      else
        let t := default "" (last_failure_type sn) in
        match FailureType_of t with
        | None => reject (RUnknownFailureType t)
        | Some ft =>
            if negb (supports_operator_fallback ft) then reject (RNoFallback ft)
            else if existsb (Z.eqb step) (prior_fallback_attempts sn) then reject RDuplicateFallback
            else admission
        end
  end.

Definition authorize_budget_increase (sn : Snapshot) (new_budget : option pyfloat)
  : AuthorizationResult :=
  if negb (bool_decide (recovery_state sn = PAUSED_FOR_BUDGET_APPROVAL)) then
    reject (RNotBudgetPaused (recovery_state sn))
  else
    match new_budget with
    | None => reject RBudgetMissing
    | Some b =>
        if fle b (or_zero (budget_previous sn)) then reject RBudgetNotRaised
        else if fle b (or_zero (budget_accumulated_cost sn)) then reject RBudgetBelowSpent
        else admission
    end.

Definition authorize_action_state (action : RecoveryAction) (sn : Snapshot)
  (state : RecoveryState) (target_step : option Z) (operator_override : bool)
  (new_budget : option pyfloat) : AuthorizationResult :=
  match action with
  | EXPORT_REPORT => admission
  | RESOLVE_SIDE_EFFECT => admission
  | _ =>
      if is_terminal state then reject (RTerminal state)
      else
        match action with
        | EXECUTE_RETRY_AUTHORIZED => admission
        | RESUME => authorize_resume sn state
        | RETRY_STEP => authorize_retry sn state target_step operator_override
        | APPROVE_REVIEW | REJECT_REVIEW | REQUEST_REVISION => authorize_review sn
        | ROUTE_FALLBACK => authorize_route_fallback sn target_step
        | CANCEL_RUN => admission
        | FAIL_RUN => admission
        | _ => authorize_budget_increase sn new_budget
        end
  end.

(** ** The profile *)

Section Authorize.
Context (digest : GovernanceProfile -> string).
Context (env : Env).

Record Request := mkAuthRequest {
  rq_action : RecoveryAction;
  rq_snapshot : Snapshot;
  target_step_id : option Z;
  operator_override : option bool;
  new_budget : option pyfloat;
  operator_role : option string;
  reason : option string;
  operator_identity : option string;
}.

Definition the_role (rq : Request) : string :=
  match operator_role rq with
  | Some r => r
  | None => default "operator" (env_operator_role env)
  end.

Definition the_override (rq : Request) : bool :=
  match operator_override rq with
  | Some b => b
  | None => ostr_truthy (env_operator_override env)
  end.

(** [operator_identity or os.environ.get(..., "console")] *)
Definition the_identity (rq : Request) : string :=
  if ostr_truthy (operator_identity rq) then default "" (operator_identity rq)
  else default "console" (env_operator_identity env).

(** The budget constraints of a profile, for a budget increase. *)
Definition profile_budget_check (rq : Request) (b : pyfloat) (bg : BudgetGovernance)
  : option Rejection :=
  if negb (mem (the_role rq) (approve_roles bg)) then Some RProfileBudgetRole
  else if bg_require_reason bg && negb (ostr_truthy (reason rq)) then Some RProfileBudgetReason
  else if match max_new_budget_usd bg with Some cap => fgt b cap | None => false end
  then Some RProfileBudgetCap
  else if match max_increase_multiplier bg with
          | Some m =>
              let previous := or_zero (budget_previous (rq_snapshot rq)) in
              fgt previous fzero && fgt b (fmul previous m)
          | None => false
          end
  then Some RProfileBudgetMultiplier
  else None.

(** [None]: the profile has no objection. *)
Definition profile_check (rq : Request) (p : GovernanceProfile) : option Rejection :=
  let role := the_role rq in
  let action_gov := dget (RecoveryAction_value (rq_action rq)) (profile_actions p) in
  let is_export := bool_decide (rq_action rq = EXPORT_REPORT) in
  if negb (mem role (roles_allowed (roles p))) then Some RProfileRole
  else if match action_gov with
          | Some ag => negb (mem role (ag_allowed_roles ag)) | None => false end
  then Some RProfileActionRole
  else if match action_gov with
          | Some ag => ag_require_reason ag && negb (ostr_truthy (reason rq)) | None => false end
  then Some RProfileReason
  else if match action_gov with
          | Some ag => ag_require_override ag && negb (the_override rq) | None => false end
  then Some RProfileOverride
  else if require_reason_for_mutations (audit p) && negb is_export
          && negb (ostr_truthy (reason rq))
  then Some RProfileMutationReason
  else
    match (if bool_decide (rq_action rq = APPROVE_BUDGET_INCREASE) then
             match new_budget rq with
             | Some b => profile_budget_check rq b (budget p)
             | None => None
             end
           else None) with
    | Some r => Some r
    | None =>
        if require_operator_identity (audit p) && (the_identity rq =? "console")%string
        then Some RProfileIdentity
        else if (profile_id p =? "break-glass")%string
                && break_glass_requires_env_override (override p) && negb is_export
                && negb (the_override rq)
        then Some RBreakGlassOverride
        else None
    end.

Definition with_profile (p : option GovernanceProfile) (r : AuthorizationResult)
  : AuthorizationResult :=
  match p with
  | Some p =>
      match governance_profile_id r with
      | None => mkAuth (admitted r) (rejection_reason r) (denial_type r)
                  (Some (profile_id p)) (Some (digest p))
      | Some _ => r
      end
  | None => r
  end.

Definition authorize (rq : Request) (profile : option GovernanceProfile) : AuthorizationResult :=
  let role := the_role rq in
  if negb (mem role VALID_ROLES) then
    mkAuth false (Some (RInvalidRole role)) (Some "invalid_role") None None
  else if negb (mem role (ACTION_ALLOWED_ROLES (rq_action rq))) then
    mkAuth false (Some (RRoleNotAuthorized role (rq_action rq))) (Some "rbac") None None
  else
    match (match profile with Some p => profile_check rq p | None => None end) with
    | Some r =>
        mkAuth false (Some r) (Some "profile_constraint")
          (profile_id <$> profile) (digest <$> profile)
    | None =>
        let state := recovery_state (rq_snapshot rq) in
        if bool_decide (rq_action rq = RETRY_STEP)
           && bool_decide (state = FAILED_NON_RETRYABLE)
           && negb ((role =? "admin")%string && the_override rq)
        then mkAuth false (Some ROverrideRequired) (Some "override_required") None None
        else
          let result := authorize_action_state (rq_action rq) (rq_snapshot rq) state
                          (target_step_id rq) (the_override rq) (new_budget rq) in
          let result :=
            if negb (admitted result) && is_null (denial_type result) then
              mkAuth (admitted result) (rejection_reason result) (Some "policy") None None
            else result in
          with_profile profile result
    end.

(** ** Properties *)

Lemma with_profile_admitted p r : admitted (with_profile p r) = admitted r.
Proof. destruct p; simpl; [|done]. by destruct (governance_profile_id r). Qed.

(** The admission test of a request, all clauses at once. *)
Lemma authorize_admitted rq profile :
  admitted (authorize rq profile) = true <->
  mem (the_role rq) VALID_ROLES = true /\
  mem (the_role rq) (ACTION_ALLOWED_ROLES (rq_action rq)) = true /\
  (match profile with Some p => profile_check rq p = None | None => True end) /\
  (rq_action rq = RETRY_STEP -> recovery_state (rq_snapshot rq) = FAILED_NON_RETRYABLE ->
   the_role rq = "admin" /\ the_override rq = true) /\
  admitted (authorize_action_state (rq_action rq) (rq_snapshot rq)
              (recovery_state (rq_snapshot rq)) (target_step_id rq) (the_override rq)
              (new_budget rq)) = true.
Proof.
  unfold authorize.
  destruct (mem (the_role rq) VALID_ROLES); simpl; [|split; [discriminate | by intros ([=] & _)]].
  destruct (mem (the_role rq) (ACTION_ALLOWED_ROLES _)); simpl;
    [|split; [discriminate | by intros (_ & [=] & _)]].
  assert (Hp : (match profile with Some p => profile_check rq p | None => None end) = None <->
               match profile with Some p => profile_check rq p = None | None => True end)
    by by destruct profile.
  destruct (match profile with Some p => profile_check rq p | None => None end) as [r|].
  { simpl. split; [discriminate|]. intros (_ & _ & H & _). apply Hp in H. discriminate. }
  assert (Hprof := proj1 Hp eq_refl).
  set (st := recovery_state (rq_snapshot rq)).
  set (res := authorize_action_state _ _ _ _ _ _).
  destruct (bool_decide (rq_action rq = RETRY_STEP)) eqn:E1; simpl;
    [apply bool_decide_eq_true_1 in E1 | apply bool_decide_eq_false_1 in E1].
  - destruct (bool_decide (st = FAILED_NON_RETRYABLE)) eqn:E2; simpl;
      [apply bool_decide_eq_true_1 in E2 | apply bool_decide_eq_false_1 in E2].
    + destruct (String.eqb_spec (the_role rq) "admin") as [Ha|Ha]; simpl.
      * destruct (the_override rq) eqn:Eo; simpl.
        -- rewrite with_profile_admitted. destruct (admitted res) eqn:Er; simpl; [tauto|].
           destruct (is_null _); simpl; rewrite ?Er; split; try discriminate; tauto.
        -- split; [discriminate|]. intros (_ & _ & _ & H & _). destruct (H E1 E2). discriminate.
      * split; [discriminate|]. intros (_ & _ & _ & H & _). by destruct (H E1 E2).
    + rewrite with_profile_admitted. destruct (admitted res) eqn:Er; simpl; [tauto|].
      destruct (is_null _); simpl; rewrite ?Er; split; try discriminate; tauto.
  - rewrite with_profile_admitted. destruct (admitted res) eqn:Er; simpl; [tauto|].
    destruct (is_null _); simpl; rewrite ?Er; split; try discriminate; tauto.
Qed.
End Authorize.

(** A governance profile only restricts: what is admitted under a profile
    is admitted without one. *)
Theorem profile_only_stricter digest env rq p :
  admitted (authorize digest env rq (Some p)) = true ->
  admitted (authorize digest env rq None) = true.
Proof. rewrite !authorize_admitted. tauto. Qed.

(** Role-based access, under any profile and environment: an admitted
    action is of a valid role that the matrix allows, so an operator never
    raises a budget and only an operator makes claims about effects; and a
    non-retryable failure is retried only by an admin with the override. *)
Theorem authorization_rbac digest env rq profile :
  admitted (authorize digest env rq profile) = true ->
  the_role env rq ∈ VALID_ROLES /\
  the_role env rq ∈ ACTION_ALLOWED_ROLES (rq_action rq) /\
  (rq_action rq = APPROVE_BUDGET_INCREASE -> the_role env rq <> "operator") /\
  (rq_action rq = RESOLVE_SIDE_EFFECT \/ rq_action rq = EXECUTE_RETRY_AUTHORIZED ->
   the_role env rq = "operator") /\
  (rq_action rq = RETRY_STEP -> recovery_state (rq_snapshot rq) = FAILED_NON_RETRYABLE ->
   the_role env rq = "admin" /\ the_override env rq = true).
Proof.
  rewrite authorize_admitted. intros (H1 & H2 & _ & H4 & _). bool_prop.
  split_and!; try done.
  - intros Ha. rewrite Ha in H2. simpl in H2. intros Hr. rewrite Hr in H2.
    by apply mem_true in H2.
  - intros [Ha|Ha]; rewrite Ha in H2; by apply list_elem_of_singleton in H2.
Qed.

Lemma elem_of_truthy_keys k l : k ∈ truthy_keys l <-> Some k ∈ l /\ k <> "".
Proof.
  unfold truthy_keys. rewrite list_elem_of_omap. split.
  - intros ([s|] & Hs & He); [|discriminate].
    destruct (str_truthy s) eqn:Et; [|discriminate]. injection He as <-.
    unfold str_truthy in Et. bool_prop. done.
  - intros [Hk Hne]. exists (Some k). split; [done|].
    unfold str_truthy. by apply String.eqb_neq in Hne as ->.
Qed.

Lemma check_unknown_spec sn :
  admitted (check_unknown_effects_resolved sn) = true <->
  forall se k, se ∈ sn_side_effects sn -> sn_status se = Some "unknown" -> sn_key se = Some k ->
    k <> "" -> Some k ∈ sn_decision_keys sn.
Proof.
  unfold check_unknown_effects_resolved, unresolved_effects.
  set (u := py_set _). set (d := py_set (truthy_keys (sn_decision_keys sn))).
  assert (Hn : sort_str (set_diff u d) = [] <-> set_diff u d = []).
  { unfold sort_str. split; intros H.
    - apply Permutation_nil_r. rewrite <- H. symmetry. apply py_sorted_perm.
    - by rewrite H. }
  assert (Hu : forall k, k ∈ u <-> exists se, se ∈ sn_side_effects sn /\
            sn_status se = Some "unknown" /\ sn_key se = Some k /\ k <> "").
  { intros k. unfold u. rewrite elem_of_py_set, elem_of_truthy_keys. split.
    - intros [(se & Hk & Hse)%list_elem_of_In%in_map_iff Hne]. apply list_elem_of_In in Hse.
      apply elem_of_lfilter in Hse as [Hs Hse]. exists se. split_and!; try done.
      destruct (sn_status se) as [s|]; [|discriminate]. bool_prop. by subst.
    - intros (se & Hse & Hs & Hk & Hne). split; [|done].
      apply list_elem_of_In, in_map_iff. exists se. split; [done|].
      apply list_elem_of_In, elem_of_lfilter. by rewrite Hs. }
  destruct (nonempty (sort_str (set_diff u d))) eqn:E; simpl.
  - split; [discriminate|]. intros H. apply nonempty_true in E. destruct E. apply Hn, set_diff_nil.
    intros k Hk. apply Hu in Hk as (se & H1 & H2 & H3 & H4). unfold d.
    apply elem_of_py_set, elem_of_truthy_keys. split; [by eapply H | done].
  - split; [|done]. intros _. apply nonempty_false in E. apply Hn in E.
    rewrite set_diff_nil in E. intros se k H1 H2 H3 H4.
    assert (Hk : k ∈ u) by (apply Hu; eauto). apply E in Hk. unfold d in Hk.
    apply elem_of_py_set, elem_of_truthy_keys in Hk. tauto.
Qed.

(** After a crash the run resumes exactly when every effect left unknown
    has a recovery decision of its own: partial coverage, or a decision on
    another effect, is not enough. *)
Theorem resume_after_crash digest env rq :
  rq_action rq = RESUME -> the_role env rq ∈ VALID_ROLES ->
  recovery_state (rq_snapshot rq) = CRASH_RECOVERABLE \/
  recovery_state (rq_snapshot rq) = CRASH_NEEDS_OPERATOR ->
  admitted (authorize digest env rq None) = true <->
  forall se k, se ∈ sn_side_effects (rq_snapshot rq) -> sn_status se = Some "unknown" ->
    sn_key se = Some k -> k <> "" -> Some k ∈ sn_decision_keys (rq_snapshot rq).
Proof.
  intros Ha Hr Hs. rewrite <- check_unknown_spec, authorize_admitted, Ha.
  apply mem_true in Hr. assert (mem (the_role env rq) (ACTION_ALLOWED_ROLES RESUME) = true) as Hm
    by exact Hr.
  unfold authorize_action_state, authorize_resume.
  destruct Hs as [-> | ->]; simpl is_terminal; cbv iota;
    (split; [intros (_ & _ & _ & _ & H); exact H | intros H; split_and!; done]).
Qed.

(** A run that is completed or cancelled admits no recovery action except
    the read-only report and the resolution of a side effect. *)
Theorem terminal_runs_closed digest env rq profile :
  recovery_state (rq_snapshot rq) = COMPLETED \/ recovery_state (rq_snapshot rq) = CANCELLED ->
  admitted (authorize digest env rq profile) = true ->
  rq_action rq = EXPORT_REPORT \/ rq_action rq = RESOLVE_SIDE_EFFECT.
Proof.
  rewrite authorize_admitted. intros Hs (_ & _ & _ & _ & H).
  destruct (rq_action rq); auto; destruct Hs as [Hs|Hs]; rewrite Hs in H; discriminate H.
Qed.

Lemma budget_admitted digest env rq profile b :
  rq_action rq = APPROVE_BUDGET_INCREASE -> new_budget rq = Some b ->
  admitted (authorize digest env rq profile) = true ->
  recovery_state (rq_snapshot rq) = PAUSED_FOR_BUDGET_APPROVAL /\
  fle b (or_zero (budget_previous (rq_snapshot rq))) = false /\
  fle b (or_zero (budget_accumulated_cost (rq_snapshot rq))) = false.
Proof.
  intros Ha Hb. rewrite authorize_admitted. intros (_ & _ & _ & _ & H).
  rewrite Ha, Hb in H. simpl in H. case_in H; [discriminate|].
  unfold authorize_budget_increase in H.
  destruct (bool_decide _) eqn:E; [|discriminate]. apply bool_decide_eq_true_1 in E.
  split; [exact E|]. simpl in H.
  destruct (fle b (or_zero (budget_previous _))); [discriminate|].
  by destruct (fle b (or_zero (budget_accumulated_cost _))).
Qed.

(** An admitted budget increase is for a run paused for budget approval and
    names a ceiling strictly above the previous one and above what was
    spent - unless the ceiling is NaN, which passes every comparison and
    is admitted. *)
Theorem budget_increase_raises digest env rq profile b :
  rq_action rq = APPROVE_BUDGET_INCREASE -> new_budget rq = Some b ->
  ext_of_float (or_zero (budget_previous (rq_snapshot rq))) <> ENan ->
  ext_of_float (or_zero (budget_accumulated_cost (rq_snapshot rq))) <> ENan ->
  admitted (authorize digest env rq profile) = true ->
  recovery_state (rq_snapshot rq) = PAUSED_FOR_BUDGET_APPROVAL /\
  (b = S754_nan \/
   fgt b (or_zero (budget_previous (rq_snapshot rq))) = true /\
   fgt b (or_zero (budget_accumulated_cost (rq_snapshot rq))) = true).
Proof.
  intros Ha Hb Hp Hc H.
  destruct (budget_admitted _ _ _ _ _ Ha Hb H) as (Hs & E1 & E2). split; [exact Hs|].
  destruct (decide (b = S754_nan)) as [->|Hn]; [by left | right].
  unfold fgt, fle in *.
  assert (ext_of_float b <> ENan) by (destruct b; done).
  rewrite !num_gt_not_le by done. rewrite E1, E2. done.
Qed.

Definition demo_snapshot (st : RecoveryState) (effects : list SnapshotEffect)
  (decided : list (option string)) : Snapshot :=
  mkSnapshot st effects decided (Some 4) (Some "search_api_unavailable") [] VNone VNone
    (Some (fround_int 2)) (Some (fround_int 3)).
Definition demo_request (a : RecoveryAction) (sn : Snapshot) (role : string)
  (b : option pyfloat) : Request :=
  mkAuthRequest a sn (Some 4) (Some true) b (Some role) (Some "because") (Some "alice").
Definition demo_env : Env := mkEnv None None None.
Definition demo_digest (p : GovernanceProfile) : string := "sha256:" +:+ profile_id p.

Lemma profile_only_stricter_witness :
  let rq := demo_request RETRY_STEP (demo_snapshot FAILED_NON_RETRYABLE [] []) "admin" None in
  admitted (authorize demo_digest demo_env rq (Some break_glass)) = true /\
  admitted (authorize demo_digest demo_env rq None) = true.
Proof.
  intros rq. split; [vm_compute; reflexivity|].
  apply (profile_only_stricter demo_digest demo_env rq break_glass). vm_compute. reflexivity.
Defined.

Lemma authorization_rbac_witness :
  let rq := demo_request APPROVE_BUDGET_INCREASE
              (demo_snapshot PAUSED_FOR_BUDGET_APPROVAL [] []) "finance" (Some (fround_int 5)) in
  the_role demo_env rq ∈ VALID_ROLES.
Proof.
  intros rq. refine (proj1 (authorization_rbac demo_digest demo_env rq (Some regulated) _)).
  vm_compute. reflexivity.
Defined.

Lemma resume_after_crash_witness :
  let rq := demo_request RESUME (demo_snapshot CRASH_RECOVERABLE
              [mkSnapEffect (Some "unknown") (Some "k"); mkSnapEffect (Some "completed") (Some "j")]
              [Some "k"; None]) "operator" None in
  admitted (authorize demo_digest demo_env rq None) = true.
Proof.
  intros rq. refine (proj2 (resume_after_crash demo_digest demo_env rq _ _ _) _).
  - reflexivity.
  - apply mem_true. vm_compute. reflexivity.
  - left. reflexivity.
  - intros se k Hse Hs Hk _. cbn in Hse.
    apply elem_of_cons in Hse as [-> | Hse]; [injection Hk as <-; apply list_elem_of_here|].
    apply list_elem_of_singleton in Hse as ->. discriminate Hs.
Defined.

Lemma terminal_runs_closed_witness :
  let rq := demo_request RESOLVE_SIDE_EFFECT (demo_snapshot COMPLETED [] []) "operator" None in
  rq_action rq = EXPORT_REPORT \/ rq_action rq = RESOLVE_SIDE_EFFECT.
Proof.
  intros rq. apply (terminal_runs_closed demo_digest demo_env rq None).
  - left. reflexivity.
  - vm_compute. reflexivity.
Defined.

Lemma budget_increase_raises_witness :
  let rq := demo_request APPROVE_BUDGET_INCREASE
              (demo_snapshot PAUSED_FOR_BUDGET_APPROVAL [] []) "finance" (Some S754_nan) in
  admitted (authorize demo_digest demo_env rq None) = true /\
  recovery_state (rq_snapshot rq) = PAUSED_FOR_BUDGET_APPROVAL.
Proof.
  intros rq. split; [vm_compute; reflexivity|].
  refine (proj1 (budget_increase_raises demo_digest demo_env rq None S754_nan _ _ _ _ _)).
  - reflexivity.
  - reflexivity.
  - vm_compute. discriminate.
  - vm_compute. discriminate.
  - vm_compute. reflexivity.
Defined.
