(* ===== verification/DispatchGuard.v ===== *)
(** * Dispatch guards

    [runtime/recovery_dispatch_guard.py]: the wrappers that intercept a
    search adapter at the dispatch boundary.  The canonical digest of an
    operation (JSON and SHA-256; [None] when the serialisation raises), the
    version specifier of the packaging library, the capsule lookup and the
    persistence callback are parameters. A call of a guard returns its new
    state, whether the real adapter was called, and the result. *)
From S2P Require Import Prelude PyFloat PyValue Envelope.

Record SearchQuery := mkQuery {
  terms : list string;
  max_results : Z;
  filters : pyctx;
}.

(** The operation a guard hashes. *)
Definition operation_of (q : SearchQuery) : pyval :=
  VDict [ ("terms", VList (map VStr (sort_str (terms q))));
          ("max", VInt (max_results q));
          ("filters", VDict (filters q)) ].

Record Adapter := mkAdapter {
  adapter_name : string;
  adapter_version : string;
  adapter_class : string;
}.

Inductive dispatch_error :=
| DispatchRejected (rejection_type : string)
| DigestError
| CallbackRaised.

(** ** The recovery guard *)

Record RecoveryGuard := mkRecoveryGuard {
  dispatch_count : Z;
  target_dispatched : bool;
}.

Definition new_recovery_guard : RecoveryGuard := mkRecoveryGuard 0 false.

Section RecoveryDispatchGuard.
Context (digest : pyval -> option string).
Context (adapter : Adapter) (constraints : ExecutionConstraints).

Definition preflight_validate (q : SearchQuery) : res dispatch_error unit :=
  _ ← guard_err (adapter_name adapter =? c_required_adapter_id constraints)%string
        (DispatchRejected "adapter_mismatch");
  _ ← guard_err (adapter_version adapter =? c_required_adapter_version constraints)%string
        (DispatchRejected "version_mismatch");
  actual ← match digest (operation_of q) with Some d => Ok d | None => Err DigestError end;
  _ ← guard_err (actual =? c_required_request_hash constraints)%string
        (DispatchRejected "hash_mismatch");
  _ ← guard_err (c_required_type constraints =? "external_call")%string
        (DispatchRejected "side_effect_type_mismatch");
  _ ← guard_err (c_required_operation_name constraints =? "search")%string
        (DispatchRejected "operation_name_mismatch");
  guard_err (c_required_canonicalization_version constraints =? "1")%string
    (DispatchRejected "canonicalization_version_mismatch").

(** [on_dispatch_attempted]: absent, or called and returning or raising. *)
Inductive callback := NoCallback | CallbackReturns | CallbackRaises.

Definition recovery_search (g : RecoveryGuard) (q : SearchQuery) (cb : callback)
  : RecoveryGuard * bool * res dispatch_error unit :=
  let g := mkRecoveryGuard (dispatch_count g + 1) (target_dispatched g) in
  if target_dispatched g then (g, false, Err (DispatchRejected "duplicate_dispatch"))
  else
    match preflight_validate q with
    | Err e => (g, false, Err e)
    | Ok _ =>
        match cb with
        | CallbackRaises => (g, false, Err CallbackRaised)
        | _ => (mkRecoveryGuard (dispatch_count g) true, true, Ok tt)
        end
    end.

(** A sequence of proposals, and the queries that reached the adapter. *)
Fixpoint recovery_session (g : RecoveryGuard) (calls : list (SearchQuery * callback))
  : RecoveryGuard * list SearchQuery :=
  match calls with
  | [] => (g, [])
  | (q, cb) :: rest =>
      let '(g', delegated, _) := recovery_search g q cb in
      let '(g'', qs) := recovery_session g' rest in
      (g'', if delegated then q :: qs else qs)
  end.

Lemma preflight_ok q u :
  preflight_validate q = Ok u ->
  adapter_name adapter = c_required_adapter_id constraints /\
  adapter_version adapter = c_required_adapter_version constraints /\
  digest (operation_of q) = Some (c_required_request_hash constraints) /\
  c_required_type constraints = "external_call" /\
  c_required_operation_name constraints = "search" /\
  c_required_canonicalization_version constraints = "1".
Proof.
  unfold preflight_validate. intros H. inv_bind H.
  repeat match goal with H : guard_err _ _ = Ok _ |- _ => apply guard_err_ok in H end.
  bool_prop. destruct (digest (operation_of q)); [|discriminate].
  by simplify_eq; split_and!.
Qed.

Lemma recovery_session_closed g calls :
  target_dispatched g = true -> recovery_session g calls =
  (mkRecoveryGuard (dispatch_count g + Z.of_nat (length calls)) true, []).
Proof.
  revert g. induction calls as [|[q cb] calls IH]; intros [n b] Hb; simpl in *; subst b.
  - f_equal. f_equal. lia.
  - unfold recovery_search. simpl. rewrite IH by done. simpl. f_equal. f_equal. lia.
Qed.

Lemma recovery_session_spec g calls :
  let '(g', qs) := recovery_session g calls in
  dispatch_count g' = dispatch_count g + Z.of_nat (length calls) /\
  (length qs + (if target_dispatched g then 1 else 0) <= 1)%nat /\
  forall q, q ∈ qs -> exists u, preflight_validate q = Ok u.
Proof.
  revert g. induction calls as [|[q cb] calls IH]; intros g.
  - simpl. split_and!; [lia | destruct (target_dispatched g); lia|].
    intros q Hq. inversion Hq.
  - destruct (target_dispatched g) eqn:Hd.
    + rewrite recovery_session_closed by done. simpl. split_and!; [lia|lia|].
      intros q' Hq. inversion Hq.
    + cbn [recovery_session]. unfold recovery_search. cbn [target_dispatched dispatch_count].
      rewrite Hd. destruct (preflight_validate q) as [u|e] eqn:Hp.
      * assert (Hgo : let g1 := mkRecoveryGuard (dispatch_count g + 1) true in
                  let '(g', qs) := (let '(g2, qs) := recovery_session g1 calls in (g2, q :: qs)) in
                  dispatch_count g' = dispatch_count g + Z.of_nat (length ((q, cb) :: calls)) /\
                  (length qs + 0 <= 1)%nat /\
                  forall q', q' ∈ qs -> exists u, preflight_validate q' = Ok u).
        { intros g1. subst g1. rewrite recovery_session_closed by done. simpl.
          split_and!; [lia|lia|]. intros q' ->%list_elem_of_singleton. eauto. }
        destruct cb; [exact Hgo | exact Hgo |].
        specialize (IH (mkRecoveryGuard (dispatch_count g + 1) false)).
        destruct (recovery_session _ calls) as [g' qs]. simpl in *.
        destruct IH as (-> & ? & ?). split_and!; [lia|lia|done].
      * specialize (IH (mkRecoveryGuard (dispatch_count g + 1) false)).
        destruct (recovery_session _ calls) as [g' qs]. simpl in *.
        destruct IH as (-> & ? & ?). split_and!; [lia|lia|done].
Qed.

(** A recovery guard lets at most one proposal through to the real adapter,
    whatever queries are proposed and however its callback behaves; the one
    that passes matches the whole authorized tuple - adapter, version,
    canonical request digest, effect type, operation and canonicalization -
    and every proposal is counted, the refused ones too. *)
Theorem recovery_guard_one_shot calls :
  let '(g, qs) := recovery_session new_recovery_guard calls in
  (length qs <= 1)%nat /\
  dispatch_count g = Z.of_nat (length calls) /\
  forall q, q ∈ qs ->
    adapter_name adapter = c_required_adapter_id constraints /\
    adapter_version adapter = c_required_adapter_version constraints /\
    digest (operation_of q) = Some (c_required_request_hash constraints) /\
    c_required_type constraints = "external_call" /\
    c_required_operation_name constraints = "search" /\
    c_required_canonicalization_version constraints = "1".
Proof.
  pose proof (recovery_session_spec new_recovery_guard calls) as H.
  destruct (recovery_session new_recovery_guard calls) as [g qs].
  simpl in H. destruct H as (H1 & H2 & H3). split_and!; [lia|lia|].
  intros q Hq. destruct (H3 q Hq) as [u Hu]. by eapply preflight_ok.
Qed.
End RecoveryDispatchGuard.

(** [build_guarded_adapter_registry]: only the guarded target. *)
Definition build_guarded_adapter_registry {G} (name : string) (guard : G) : dict G :=
  [(name, guard)].

(** ** Attestation and trust *)

Record AdapterRetryCapability := mkCapability {
  cap_adapter_id : string;
  min_version : string;
  max_version : string;
  characterization_test_ref : string;
}.

Definition ADAPTER_RETRY_ALLOWLIST : dict AdapterRetryCapability :=
  [ ("semantic_scholar", mkCapability "semantic_scholar" "1.0.0" "999.0.0"
       "test_v35_adapter_attestation.py::TestSemanticScholarSingleton");
    ("arxiv", mkCapability "arxiv" "1.0.0" "999.0.0"
       "test_v35_adapter_attestation.py::TestArxivSingleton");
    ("openalex", mkCapability "openalex" "1.0.0" "999.0.0"
       "test_v35_adapter_attestation.py::TestOpenAlexSingleton");
    ("crossref", mkCapability "crossref" "1.0.0" "999.0.0"
       "test_v35_adapter_attestation.py::TestCrossRefSingleton");
    ("pubmed", mkCapability "pubmed" "1.0.0" "999.0.0"
       "test_v35_adapter_attestation.py::TestPubMedSingleton") ].

(** [in_spec lo hi v]: [v in SpecifierSet(">=lo,<hi")]; [None] when the
    packaging library is not installed. *)
Definition is_adapter_attested (in_spec : option (string -> string -> string -> bool))
  (adapter_id version : string) : bool :=
  match dget adapter_id ADAPTER_RETRY_ALLOWLIST with
  | None => false
  | Some cap =>
      match in_spec with
      | Some f => f (min_version cap) (max_version cap) version
      | None => dmem adapter_id ADAPTER_RETRY_ALLOWLIST
      end
  end.

Definition is_trusted_adapter (trusted : dict string) (a : Adapter) : bool :=
  match dget (adapter_name a) trusted with
  | None => false
  | Some cls => (adapter_class a =? cls)%string
  end.

(** ** The ordinary guard *)

Section OrdinaryDispatchGuard.
Context (digest : pyval -> option string).
Context (trusted_classes : dict string).
Context (adapter : Adapter) (run_id : string).
Context (capsule_validator : string -> string -> string -> bool).
Context (skip_trust_check : bool).

(** The state of the guard is the list of dispatched digests. *)
Definition ordinary_search (seen : list string) (q : SearchQuery)
  : list string * option string * res dispatch_error unit :=
  if negb skip_trust_check && negb (is_trusted_adapter trusted_classes adapter) then
    (seen, None, Err (DispatchRejected "untrusted_adapter"))
  else
    match digest (operation_of q) with
    | None => (seen, None, Err DigestError)
    | Some d =>
        if mem d seen then (seen, None, Err (DispatchRejected "duplicate_dispatch"))
        else if negb (capsule_validator run_id (adapter_name adapter) d) then
          (seen, None, Err (DispatchRejected "no_matching_capsule"))
        else (add_new d seen, Some d, Ok tt)
    end.

Definition ordinary_dispatch_count (seen : list string) : Z := Z.of_nat (length seen).

Fixpoint ordinary_session (seen : list string) (qs : list SearchQuery)
  : list string * list string :=
  match qs with
  | [] => (seen, [])
  | q :: rest =>
      let '(seen', d, _) := ordinary_search seen q in
      let '(seen'', ds) := ordinary_session seen' rest in
      (seen'', match d with Some d => d :: ds | None => ds end)
  end.

Lemma ordinary_search_spec seen q :
  let '(seen', d, _) := ordinary_search seen q in
  match d with
  | None => seen' = seen
  | Some d => seen' = seen ++ [d] /\ d ∉ seen /\ digest (operation_of q) = Some d /\
      capsule_validator run_id (adapter_name adapter) d = true /\
      (skip_trust_check = false -> is_trusted_adapter trusted_classes adapter = true)
  end.
Proof.
  unfold ordinary_search. case_goal; [done|].
  destruct (digest (operation_of q)) as [d|]; [|done].
  destruct (mem_spec d seen) as [Hd|Hd]; [done|].
  destruct (capsule_validator run_id (adapter_name adapter) d) eqn:E; [|done].
  simpl. unfold add_new. destruct (mem_spec d seen); [done|]. split_and!; try done.
  intros ->. simpl in Heqb. by apply negb_false_iff in Heqb.
Qed.

Lemma ordinary_session_spec seen qs :
  NoDup seen ->
  let '(seen', ds) := ordinary_session seen qs in
  seen' = seen ++ ds /\ NoDup seen' /\
  forall d, d ∈ ds -> capsule_validator run_id (adapter_name adapter) d = true /\
    (skip_trust_check = false -> is_trusted_adapter trusted_classes adapter = true) /\
    exists q, q ∈ qs /\ digest (operation_of q) = Some d.
Proof.
  revert seen. induction qs as [|q qs IH]; intros seen Hn; simpl.
  - rewrite app_nil_r. split_and!; [done|done|]. intros d Hd. inversion Hd.
  - pose proof (ordinary_search_spec seen q) as Hs.
    destruct (ordinary_search seen q) as [[seen1 d] r]. destruct d as [d|].
    + destruct Hs as (-> & Hd & Hq & Hc & Ht).
      specialize (IH (seen ++ [d]) (NoDup_snoc _ _ Hn Hd)).
      destruct (ordinary_session (seen ++ [d]) qs) as [seen2 ds].
      destruct IH as (-> & Hn2 & Hds). rewrite <- app_assoc in *. split_and!; [done|done|].
      intros d' [->|Hd']%elem_of_cons.
      * split_and!; [done|done|]. exists q. split; [left | done].
      * destruct (Hds d' Hd') as (? & ? & q' & ? & ?). split_and!; try done.
        exists q'. split; [by right | done].
    + subst seen1. specialize (IH seen Hn). destruct (ordinary_session seen qs) as [seen2 ds].
      destruct IH as (-> & Hn2 & Hds). split_and!; [done|done|].
      intros d' Hd'. destruct (Hds d' Hd') as (? & ? & q' & ? & ?). split_and!; try done.
      exists q'. split; [by right | done].
Qed.

(** The ordinary guard dispatches every canonical operation at most once,
    only when a capsule for exactly that operation exists, and only through
    an adapter of the trusted class for its name. *)
Theorem ordinary_guard_once qs :
  let '(seen, ds) := ordinary_session [] qs in
  NoDup ds /\ seen = ds /\
  forall d, d ∈ ds ->
    capsule_validator run_id (adapter_name adapter) d = true /\
    (skip_trust_check = false ->
     dget (adapter_name adapter) trusted_classes = Some (adapter_class adapter)) /\
    exists q, q ∈ qs /\ digest (operation_of q) = Some d.
Proof.
  pose proof (ordinary_session_spec [] qs ltac:(constructor)) as H.
  destruct (ordinary_session [] qs) as [seen ds]. destruct H as (-> & Hn & Hd).
  simpl in Hn. split_and!; [done|done|]. intros d Hin.
  destruct (Hd d Hin) as (H1 & H2 & H3). split_and!; [done| |done].
  intros Hs. specialize (H2 Hs). unfold is_trusted_adapter in H2.
  destruct (dget (adapter_name adapter) trusted_classes); [|discriminate].
  bool_prop. by f_equal.
Qed.
End OrdinaryDispatchGuard.

(** [build_ordinary_guarded_registry]: a fresh guard for each known adapter. *)
Definition build_ordinary_guarded_registry (get_adapter : string -> option Adapter)
  (names : list string) : dict (Adapter * list string) :=
  fold_left (fun reg n => match get_adapter n with
                          | Some a => dset n (a, []) reg
                          | None => reg
                          end) names [].
