(* ===== verification/SearchFetch.v ===== *)
(** * Search fetch

    The failure taxonomy, the circuit breaker and the shared fetch of the
    search adapters: [adapters/search/failure_types.py],
    [circuit_breaker.py] and the [_fetch], [_finalize_results] and [search]
    of [base_search.py].  The HTTP client, the clock and the jitter are the
    environment's: it gives, for each attempt, the answer and the readings of
    the clock in microseconds.  Sleeping is recorded by its base duration.
    Logging is left out. *)
From Corelib Require Import SpecFloat.
From S2P Require Import Prelude PyFloat PyValue Sql.

(** ** Failure types *)

Inductive SearchFailureType :=
| TIMEOUT | RATE_LIMIT | HTTP_ERROR | SCHEMA_DRIFT | EMPTY_RESULT | MALFORMED_PAYLOAD | CIRCUIT_OPEN
| UNKNOWN.

#[export] Instance failure_type_eq_dec : EqDecision SearchFailureType.
Proof. solve_decision. Defined.

Definition failure_value (t : SearchFailureType) : string :=
  match t with
  | TIMEOUT => "timeout" | RATE_LIMIT => "rate_limit" | HTTP_ERROR => "http_error"
  | SCHEMA_DRIFT => "schema_drift" | EMPTY_RESULT => "empty_result"
  | MALFORMED_PAYLOAD => "malformed_payload" | CIRCUIT_OPEN => "circuit_open" | UNKNOWN => "unknown"
  end.

Definition RETRYABLE_FAILURE_TYPES : list SearchFailureType := [TIMEOUT; RATE_LIMIT; HTTP_ERROR].
Definition is_retryable_type (t : SearchFailureType) : bool :=
  bool_decide (t ∈ RETRYABLE_FAILURE_TYPES).

Record AdapterFailure := mkFailure {
  af_adapter : string;
  af_failure_type : SearchFailureType;
  af_retryable : bool;
  af_attempts : Z;
  af_status_code : option Z;
  af_latency_ms : Z;
  af_query_hash : string;
  af_message : string;
  af_exception_class : string;
}.

(** The constructor without an explicit [retryable]. *)
Definition make_failure (adapter : string) (t : SearchFailureType) (attempts : Z)
  (status_code : option Z) (latency : Z) (query_hash message exception_class : string)
  : AdapterFailure :=
  mkFailure adapter t (is_retryable_type t) attempts status_code latency query_hash message
    exception_class.

Record SearchFetchResult := mkFetchResult {
  fr_data : option pyctx;
  fr_text : option string;
  fr_failure : option AdapterFailure;
  fr_latency_ms : Z;
  fr_attempts : Z;
}.

Definition succeeded (r : SearchFetchResult) : bool := is_null (fr_failure r).

(** What the code reads of an exception: its class name, its message, and
    whether it is a [ValueError], or one of [KeyError], [TypeError] and
    [AttributeError]. *)
Record Exn := mkExn {
  exc_name : string;
  exc_message : string;
  exc_value_error : bool;
  exc_schema : bool;
}.

Definition classify_exception (e : Exn) (status_code : option Z) : SearchFailureType :=
  let name := exc_name e in
  if contains "timeout" (lower name) || contains "Timeout" name then TIMEOUT
  else if contains "ConnectError" name || contains "ReadError" name then TIMEOUT
  else
    let by_status :=
      match status_code with
      | Some c => if c =? 429 then Some RATE_LIMIT
                  else if (500 <=? c) && (c <? 600) then Some HTTP_ERROR
                  else if (400 <=? c) && (c <? 500) then Some HTTP_ERROR else None
      | None => None
      end in
    match by_status with
    | Some t => t
    | None =>
        if contains "JSONDecodeError" name || contains "JSON" name || contains "DecodeError" name
        then MALFORMED_PAYLOAD
        else if exc_value_error e && contains "json" (lower (exc_message e)) then MALFORMED_PAYLOAD
        else if contains "ParseError" name || contains "ParseSyntax" name then MALFORMED_PAYLOAD
        else if exc_schema e then SCHEMA_DRIFT
        else UNKNOWN
    end.

Definition classify_http_status (c : Z) : option SearchFailureType :=
  if (200 <=? c) && (c <? 300) then None
  else if c =? 429 then Some RATE_LIMIT
  else if (500 <=? c) && (c <? 600) then Some HTTP_ERROR
  else if (400 <=? c) && (c <? 500) then Some HTTP_ERROR
  else Some UNKNOWN.

(** ** The circuit breaker *)

Inductive breaker_state := Closed | Open | HalfOpen.

#[export] Instance breaker_state_eq_dec : EqDecision breaker_state.
Proof. solve_decision. Defined.

Record CircuitBreaker := mkBreaker {
  cb_threshold : Z;
  cb_cooldown : Z;
  cb_failures : Z;
  cb_state : breaker_state;
  cb_opened_at : Z;
}.

Definition new_breaker (threshold cooldown : Z) : CircuitBreaker := mkBreaker threshold cooldown 0 Closed 0.

Definition set_breaker (failures : Z) (st : breaker_state) (opened : Z) (b : CircuitBreaker) : CircuitBreaker :=
  mkBreaker (cb_threshold b) (cb_cooldown b) failures st opened.

(** The [state] property: reading it may move the breaker to half-open. *)
Definition read_state (now : Z) (b : CircuitBreaker) : CircuitBreaker * breaker_state :=
  let b' :=
    match cb_state b with
    | Open => if cb_cooldown b <=? now - cb_opened_at b
              then set_breaker (cb_failures b) HalfOpen (cb_opened_at b) b else b
    | _ => b
    end in
  (b', cb_state b').

Definition is_open (now : Z) (b : CircuitBreaker) : CircuitBreaker * bool :=
  let '(b, s) := read_state now b in (b, bool_decide (s = Open)).

Definition allow_request (now : Z) (b : CircuitBreaker) : CircuitBreaker * bool :=
  let '(b, s) := read_state now b in (b, bool_decide (s = Closed) || bool_decide (s = HalfOpen)).

Definition record_success (b : CircuitBreaker) : CircuitBreaker :=
  set_breaker 0 Closed (cb_opened_at b) b.

Definition trip (now : Z) (b : CircuitBreaker) : CircuitBreaker := set_breaker (cb_failures b) Open now b.

Definition record_failure (t : SearchFailureType) (now : Z) (b : CircuitBreaker) : CircuitBreaker :=
  if negb (is_retryable_type t) then b
  else
    let b := set_breaker (cb_failures b + 1) (cb_state b) (cb_opened_at b) b in
    match cb_state b with
    | HalfOpen => trip now b
    | _ => if cb_threshold b <=? cb_failures b then trip now b else b
    end.

(** ** One fetch *)

Inductive body_answer :=
| JsonBody (data : pyctx)
| JsonFails (e : Exn).

Inductive http_answer :=
| Responded (status : Z) (body : body_answer) (text : string)
| RaisedTimeout (name : string)
| RaisedNetwork (name message : string)
| RaisedOther (e : Exn).

(** One attempt as the environment answers it: the answer, the clock before,
    after the answer, after parsing, and when the outcome is recorded. *)
Record Attempt := mkAttempt {
  at_answer : http_answer;
  at_start : Z;
  at_answered : Z;
  at_parsed : Z;
  at_recorded : Z;
}.

Record AdapterConfig := mkConfig {
  cf_name : string;
  cf_max_retries : Z;
  cf_timeout_text : string;
  cf_backoff_min : pyfloat;
  cf_backoff_max : pyfloat;
}.

Definition elapsed (a : Attempt) : Z := Z.quot (at_answered a - at_start a) 1000.
Definition elapsed_parsed (a : Attempt) : Z := Z.quot (at_parsed a - at_start a) 1000.

Section Fetch.
Context (cf : AdapterConfig) (json_format : bool) (query_hash : string).

(** What an attempt leads to: the end of the fetch, or another attempt. *)
Inductive verdict :=
| Stop (r : SearchFetchResult) (record : option (option SearchFailureType))
| Retry (f : AdapterFailure).

(** A result with a failure of this attempt. *)
Definition failed (n : Z) (t : SearchFailureType) (status_code : option Z) (ms : Z) (message exc : string)
  : AdapterFailure := make_failure (cf_name cf) t n status_code ms query_hash message exc.

Definition failing (f : AdapterFailure) (ms n : Z) : SearchFetchResult :=
  mkFetchResult None None (Some f) ms n.

(** The body of the loop for attempt [n]: [Some None] records a success,
    [Some (Some t)] a failure of type [t]. *)
Definition judge (n : Z) (a : Attempt) : verdict :=
  let ms := elapsed a in
  match at_answer a with
  | Responded c body text =>
      match classify_http_status c with
      | Some t =>
          let f := failed n t (Some c) ms ("HTTP " +:+ str_int c) "" in
          if bool_decide (t = RATE_LIMIT) || (bool_decide (t = HTTP_ERROR) && (500 <=? c))
          then Retry f
          else Stop (failing f ms n) (Some (Some t))
      | None =>
          if json_format then
            match body with
            | JsonFails e =>
                let ms := elapsed_parsed a in
                Stop (failing (failed n MALFORMED_PAYLOAD None ms ("JSON parse error: " +:+ exc_message e)
                                 (exc_name e)) ms n) None
            | JsonBody d =>
                Stop (mkFetchResult (Some d) None None (elapsed_parsed a) n) (Some None)
            end
          else Stop (mkFetchResult None (Some text) None (elapsed_parsed a) n) (Some None)
      end
  | RaisedTimeout name =>
      Retry (failed n TIMEOUT None ms ("Request timed out after " +:+ cf_timeout_text cf +:+ "s") name)
  | RaisedNetwork name message => Retry (failed n TIMEOUT None ms ("Network error: " +:+ message) name)
  | RaisedOther e =>
      let t := classify_exception e None in
      let f := failed n t None ms (exc_message e) (exc_name e) in
      if is_retryable_type t then Retry f else Stop (failing f ms n) (Some (Some t))
  end.

Definition apply_record (r : option (option SearchFailureType)) (now : Z) (b : CircuitBreaker)
  : CircuitBreaker :=
  match r with
  | None => b
  | Some None => record_success b
  | Some (Some t) => record_failure t now b
  end.

(** [min(backoff_min * 2 ** (attempt - 1), backoff_max)] *)
Definition backoff (n : Z) : pyfloat :=
  let x := fmul (cf_backoff_min cf) (fround_int (2 ^ (n - 1))) in
  if flt (cf_backoff_max cf) x then cf_backoff_max cf else x.

(** What the loop leaves: the breaker, the result, the number of calls and
    the sleeps. *)
Definition fetched : Type := CircuitBreaker * SearchFetchResult * Z * list pyfloat.

(** The loop from attempt [n], with [left] attempts left. *)
Fixpoint attempts (left : nat) (n : Z) (env : Z -> Attempt) (last : option AdapterFailure)
  (now_end : Z) (b : CircuitBreaker) : fetched :=
  match left with
  | O =>
      (match last with Some f => record_failure (af_failure_type f) now_end b | None => b end,
       mkFetchResult None None last (match last with Some f => af_latency_ms f | None => 0 end) (n - 1),
       0, [])
  | S left' =>
      let a := env n in
      match judge n a with
      | Stop r record => (apply_record record (at_recorded a) b, r, 1, [])
      | Retry f =>
          let '(b', r, calls, sleeps) :=
            attempts left' (n + 1) env (Some f) (at_recorded a) b in
          (b', r, 1 + calls, (if n <? cf_max_retries cf then [backoff n] else []) ++ sleeps)
      end
  end.

(** [_fetch] *)
Definition fetch (now : Z) (env : Z -> Attempt) (b : CircuitBreaker) : fetched :=
  let '(b, ok) := allow_request now b in
  if negb ok then
    (b, mkFetchResult None None
          (Some (make_failure (cf_name cf) CIRCUIT_OPEN 1 None 0 query_hash
                   ("Circuit breaker open for " +:+ cf_name cf) "")) 0 1, 0, [])
  else attempts (Z.to_nat (cf_max_retries cf)) 1 env None now b.
End Fetch.

(** ** Results *)

Record SearchAdapterResult := mkResult {
  ar_origin_api : string;
  ar_raw_data : pyctx;
  ar_query_used : string;
  ar_retrieved_at : string;
  ar_latency_ms : Z;
  (** [None] when the field was never assigned *)
  ar_provenance_version : option (option Z);
}.

Definition CURRENT_PROVENANCE_VERSION : Z := 1.

Inductive search_error :=
| SearchAdapterError (f : AdapterFailure)
| ProvenanceConflict (index : nat).

Definition set_latency (ms : Z) (r : SearchAdapterResult) : SearchAdapterResult :=
  mkResult (ar_origin_api r) (ar_raw_data r) (ar_query_used r) (ar_retrieved_at r) ms
    (ar_provenance_version r).
Definition set_version (v : Z) (r : SearchAdapterResult) : SearchAdapterResult :=
  mkResult (ar_origin_api r) (ar_raw_data r) (ar_query_used r) (ar_retrieved_at r) (ar_latency_ms r)
    (Some (Some v)).

(** The adapter supplied a field that only the boundary may set. *)
Definition supplied (r : SearchAdapterResult) : bool :=
  not_null (ar_provenance_version r) || dmem "provenance_entries" (ar_raw_data r)
  || dmem "_dedup_origins" (ar_raw_data r).

(** [_finalize_results]; the results are distinct objects. *)
Fixpoint finalize_results (i : nat) (ms : Z) (rs : list SearchAdapterResult)
  : res search_error (list SearchAdapterResult) :=
  match rs with
  | [] => Ok []
  | r :: rs =>
      let r := set_latency ms r in
      if supplied r then Err (ProvenanceConflict i)
      else rest ← finalize_results (S i) ms rs; Ok (set_version CURRENT_PROVENANCE_VERSION r :: rest)
  end.

(** [search], after the fetch: [normalize] is the adapter's
    [normalize_response] for the query, [ms] the time it took. *)
Definition search_result (normalize : pyctx -> list SearchAdapterResult) (ms : Z) (r : SearchFetchResult)
  : res search_error (list SearchAdapterResult) :=
  match fr_failure r with
  | Some f => Err (SearchAdapterError f)
  | None => finalize_results 0 (ms + fr_latency_ms r) (normalize (default [] (fr_data r)))
  end.

(** ** The breaker against its history *)

Inductive breaker_event :=
| EQuery (now : Z)
| ESuccess
| EFailure (t : SearchFailureType) (now : Z).

(** The breaker's answer to each event; only queries have one. *)
Definition breaker_step (e : breaker_event) (b : CircuitBreaker) : CircuitBreaker * list bool :=
  match e with
  | EQuery now => let '(b, ok) := allow_request now b in (b, [ok])
  | ESuccess => (record_success b, [])
  | EFailure t now => (record_failure t now b, [])
  end.

Fixpoint run_breaker (evs : list breaker_event) (b : CircuitBreaker) : CircuitBreaker * list bool :=
  match evs with
  | [] => (b, [])
  | e :: evs =>
      let '(b1, a) := breaker_step e b in
      let '(b2, rest) := run_breaker evs b1 in (b2, a ++ rest)
  end.

(** The specification reads the history, newest event first: the times of the
    retryable failures since the last success. *)
Fixpoint recent_failures (h : list breaker_event) : list Z :=
  match h with
  | [] => []
  | ESuccess :: _ => []
  | EQuery _ :: h => recent_failures h
  | EFailure t now :: h => if is_retryable_type t then now :: recent_failures h else recent_failures h
  end.

(** The breaker is tripped since the last of at least [threshold] failures. *)
Definition tripped_at (threshold : Z) (h : list breaker_event) : option Z :=
  match recent_failures h with
  | [] => None
  | t :: l => if threshold <=? Z.of_nat (length (t :: l)) then Some t else None
  end.

Definition spec_allows (threshold cooldown : Z) (h : list breaker_event) (now : Z) : bool :=
  match tripped_at threshold h with
  | None => true
  | Some t => cooldown <=? now - t
  end.

Fixpoint spec_answers (threshold cooldown : Z) (evs h : list breaker_event) : list bool :=
  match evs with
  | [] => []
  | e :: evs =>
      (match e with EQuery now => [spec_allows threshold cooldown h now] | _ => [] end)
      ++ spec_answers threshold cooldown evs (e :: h)
  end.

(** The clock does not run backwards. *)
Fixpoint monotone (clock : Z) (evs : list breaker_event) : Prop :=
  match evs with
  | [] => True
  | EQuery now :: evs | EFailure _ now :: evs => clock <= now /\ monotone now evs
  | ESuccess :: evs => monotone clock evs
  end.

(** The abstraction: what each state says of the history. *)
Record abstracts (h : list breaker_event) (clock : Z) (b : CircuitBreaker) : Prop := {
  ab_count : cb_failures b = Z.of_nat (length (recent_failures h));
  ab_state : match cb_state b with
             | Closed => tripped_at (cb_threshold b) h = None
             | Open => tripped_at (cb_threshold b) h = Some (cb_opened_at b)
             | HalfOpen => tripped_at (cb_threshold b) h = Some (cb_opened_at b) /\
                           cb_cooldown b <= clock - cb_opened_at b
             end;
}.

Lemma abstracts_query h clock now b b' ok :
  abstracts h clock b -> clock <= now -> allow_request now b = (b', ok) ->
  abstracts (EQuery now :: h) now b' /\ ok = spec_allows (cb_threshold b) (cb_cooldown b) h now /\
  cb_threshold b' = cb_threshold b /\ cb_cooldown b' = cb_cooldown b.
Proof.
  intros [Hc Hs] Hnow. unfold allow_request, read_state, spec_allows. destruct (cb_state b) eqn:E.
  - intros [= <- <-]. rewrite E, Hs. split_and!; try done. constructor; [done|]. by rewrite E.
  - rewrite Hs. destruct (Z.leb_spec (cb_cooldown b) (now - cb_opened_at b)) as [Hle|Hlt];
      intros [= <- <-]; cbn; rewrite ?E; split_and!; try done; constructor; cbn; rewrite ?E; done.
  - destruct Hs as [Hs Hle]. intros [= <- <-]. rewrite E, Hs. cbn.
    split_and!; try done.
    + constructor; [done|]. rewrite E. split; [done|lia].
    + symmetry. apply Z.leb_le. lia.
Qed.

Lemma recent_retryable h t now :
  is_retryable_type t = true -> recent_failures (EFailure t now :: h) = now :: recent_failures h.
Proof. intros Ht. cbn [recent_failures]. by rewrite Ht. Qed.

Lemma tripped_le h thr t : tripped_at thr h = Some t -> thr <= Z.of_nat (length (recent_failures h)).
Proof.
  unfold tripped_at. destruct (recent_failures h); [discriminate|].
  destruct (Z.leb_spec thr (Z.of_nat (length (z :: l)))); [done|discriminate].
Qed.

Lemma abstracts_failure h clock t now b :
  abstracts h clock b -> clock <= now ->
  abstracts (EFailure t now :: h) now (record_failure t now b) /\
  cb_threshold (record_failure t now b) = cb_threshold b /\
  cb_cooldown (record_failure t now b) = cb_cooldown b.
Proof.
  intros [Hc Hs] Hnow. unfold record_failure. destruct (is_retryable_type t) eqn:Et; cbn [negb].
  2: { split_and!; [|done|done]. constructor; [cbn [recent_failures]; by rewrite Et|].
       unfold tripped_at in *. cbn [recent_failures]. rewrite Et.
       destruct (cb_state b); [done|done|]. destruct Hs. split; [done|lia]. }
  assert (Htr : tripped_at (cb_threshold b) (EFailure t now :: h) =
                if cb_threshold b <=? cb_failures b + 1 then Some now else None).
  { unfold tripped_at. rewrite recent_retryable by done. cbn [length].
    by rewrite Nat2Z.inj_succ, Hc. }
  assert (Hlen : Z.of_nat (length (recent_failures (EFailure t now :: h))) = cb_failures b + 1).
  { rewrite recent_retryable by done. cbn [length]. rewrite Nat2Z.inj_succ. lia. }
  destruct (cb_state b) eqn:E; cbn [set_breaker cb_state cb_threshold cb_failures trip].
  1, 2: destruct (Z.leb_spec (cb_threshold b) (cb_failures b + 1)) as [Hle|Hlt];
        cbn; split_and!; try done; constructor; cbn [set_breaker trip cb_failures cb_state cb_opened_at cb_threshold];
        rewrite ?E; try (by rewrite Hlen); try done.
  - apply tripped_le in Hs. lia.
  - cbn. split_and!; try done. constructor; cbn [trip set_breaker cb_failures cb_state cb_opened_at cb_threshold]; [by rewrite Hlen|].
    destruct Hs as [Hs _]. apply tripped_le in Hs. rewrite Htr.
    destruct (Z.leb_spec (cb_threshold b) (cb_failures b + 1)); [done|lia].
Qed.

Lemma breaker_history threshold cooldown evs b answers :
  monotone 0 evs -> run_breaker evs (new_breaker threshold cooldown) = (b, answers) ->
  answers = spec_answers threshold cooldown evs [].
Proof.
  assert (H : forall evs h clock b0 b answers,
    abstracts h clock b0 -> monotone clock evs -> run_breaker evs b0 = (b, answers) ->
    answers = spec_answers (cb_threshold b0) (cb_cooldown b0) evs h).
  { clear. induction evs as [|e evs IH]; intros h clock b0 b answers Ha Hm Hr; cbn in *.
    - by injection Hr as <- <-.
    - destruct (breaker_step e b0) as [b1 a] eqn:E1. destruct (run_breaker evs b1) as [b2 rest] eqn:E2.
      injection Hr as <- <-. destruct e as [now| |t now]; cbn [breaker_step] in E1.
      + destruct (allow_request now b0) as [b1' ok] eqn:Eq. simplify_eq.
        destruct Hm as [Hnow Hm].
        destruct (abstracts_query _ _ _ _ _ _ Ha Hnow Eq) as (Ha' & -> & H1 & H2).
        rewrite (IH _ _ _ _ _ Ha' Hm E2), H1, H2. done.
      + injection E1 as <- <-. destruct Ha as [Hc Hs].
        assert (Ha' : abstracts (ESuccess :: h) clock (record_success b0)) by (by constructor).
        by rewrite (IH _ _ _ _ _ Ha' Hm E2).
      + injection E1 as <- <-. destruct Hm as [Hnow Hm].
        destruct (abstracts_failure h clock t now b0 Ha Hnow) as (Ha' & H1 & H2).
        rewrite (IH _ _ _ _ _ Ha' Hm E2), H1, H2. done. }
  intros Hm Hr. apply (H evs [] 0 (new_breaker threshold cooldown) b answers); [|done|done].
  by constructor.
Qed.

(** *** The documented breaker: one probe after the cooldown *)

(** What is documented: closed until at least [threshold] consecutive
    retryable failures, then open for the cooldown, then half-open, where a
    single probe is let through; [probing] while its outcome is not in. *)
Definition probe_allowed (threshold cooldown : Z) (h : list breaker_event) (probing : bool) (now : Z) : bool :=
  match tripped_at threshold h with
  | None => true
  | Some t => (t + cooldown <=? now) && negb probing
  end.

Fixpoint documented_answers (threshold cooldown : Z) (evs h : list breaker_event) (probing : bool) : list bool :=
  match evs with
  | [] => []
  | EQuery now :: evs =>
      let ok := probe_allowed threshold cooldown h probing now in
      ok :: documented_answers threshold cooldown evs (EQuery now :: h)
              (probing || ok && not_null (tripped_at threshold h))
  | e :: evs => documented_answers threshold cooldown evs (e :: h) false
  end.

(** The next that is heard, if anything, is how the probe went: well, or with
    a failure of a retryable type. *)
Definition outcome_follows (evs : list breaker_event) : Prop :=
  match evs with
  | [] | ESuccess :: _ => True
  | EFailure t _ :: _ => is_retryable_type t = true
  | EQuery _ :: _ => False
  end.

(** Whoever is let through after the cooldown reports before anyone asks. *)
Fixpoint probes_alone (threshold cooldown : Z) (evs h : list breaker_event) : Prop :=
  match evs with
  | [] => True
  | e :: evs =>
      match e with
      | EQuery now => forall t, tripped_at threshold h = Some t -> t + cooldown <= now -> outcome_follows evs
      | _ => True
      end /\ probes_alone threshold cooldown evs (e :: h)
  end.

Lemma probing_settled threshold cooldown evs h :
  outcome_follows evs -> documented_answers threshold cooldown evs h true = documented_answers threshold cooldown evs h false.
Proof. by destruct evs as [|[]]. Qed.

Lemma documented_spec threshold cooldown evs : forall h, probes_alone threshold cooldown evs h ->
  documented_answers threshold cooldown evs h false = spec_answers threshold cooldown evs h.
Proof.
  induction evs as [|e evs IH]; intros h Hp; [done|]. destruct Hp as [Hq Hp].
  destruct e as [now| |t now]; cbn [documented_answers spec_answers app]; [|by apply IH..].
  unfold probe_allowed, spec_allows. destruct (tripped_at threshold h) as [t|] eqn:E; cbn [negb orb not_null].
  - rewrite andb_true_r. destruct (Z.leb_spec (t + cooldown) now) as [Hle|Hgt]; cbn [andb].
    + rewrite probing_settled by by eapply Hq. rewrite IH by done. f_equal. symmetry. apply Z.leb_le. lia.
    + rewrite IH by done. f_equal. symmetry. apply Z.leb_gt. lia.
  - by rewrite IH.
Qed.

(** C34: The circuit breaker, which keeps a counter, a state and a time,
    answers as documented when probes are alone, that is when whoever it lets
    through after the cooldown reports a success or a retryable failure before
    anyone asks again: every request passes until at least [threshold]
    consecutive retryable failures, none in the [cooldown] after the last of
    them, then one probe, after which it is closed or open again.  (The
    breaker itself does not count its probes; without the condition it lets
    every request through after the cooldown.) *)
Theorem breaker_refines_history threshold cooldown evs b answers :
  monotone 0 evs -> probes_alone threshold cooldown evs [] ->
  run_breaker evs (new_breaker threshold cooldown) = (b, answers) ->
  answers = documented_answers threshold cooldown evs [] false.
Proof. intros Hm Hp Hr. rewrite documented_spec by done. by eapply breaker_history. Qed.

(** ** The fetch *)

Section FetchOutcome.
Context (cf : AdapterConfig) (json_format : bool) (query_hash : string).

Local Abbreviation verdict_of := (judge cf json_format query_hash).

(** Attempt [n] is followed by another attempt. *)
Definition retried (n : Z) (a : Attempt) : Prop := exists f, verdict_of n a = Retry f.

(** How a loop of [left] attempts from [n] ends after [calls] calls. *)
Inductive loop_end (left : nat) (n : Z) (env : Z -> Attempt) (last : option AdapterFailure) (now : Z)
  (b : CircuitBreaker) : CircuitBreaker -> SearchFetchResult -> Z -> Prop :=
| ends_stopped calls r record :
    1 <= calls <= Z.of_nat left ->
    (forall k, n <= k < n + calls - 1 -> retried k (env k)) ->
    verdict_of (n + calls - 1) (env (n + calls - 1)) = Stop r record ->
    loop_end left n env last now b
      (apply_record record (at_recorded (env (n + calls - 1))) b) r calls
| ends_exhausted f :
    (0 < left)%nat -> (forall k, n <= k < n + Z.of_nat left -> retried k (env k)) ->
    verdict_of (n + Z.of_nat left - 1) (env (n + Z.of_nat left - 1)) = Retry f ->
    loop_end left n env last now b
      (record_failure (af_failure_type f) (at_recorded (env (n + Z.of_nat left - 1))) b)
      (mkFetchResult None None (Some f) (af_latency_ms f) (n + Z.of_nat left - 1)) (Z.of_nat left)
| ends_empty :
    left = 0%nat ->
    loop_end left n env last now b
      (match last with Some f => record_failure (af_failure_type f) now b | None => b end)
      (mkFetchResult None None last (match last with Some f => af_latency_ms f | None => 0 end) (n - 1)) 0.

Lemma attempts_end left : forall n env last now b b' r calls sleeps,
  attempts cf json_format query_hash left n env last now b = (b', r, calls, sleeps) ->
  loop_end left n env last now b b' r calls.
Proof.
  induction left as [|left IH]; intros n env last now b b' r calls sleeps H; cbn [attempts] in H.
  { injection H as <- <- <- <-. by apply ends_empty. }
  destruct (verdict_of n (env n)) as [r0 record|f] eqn:E.
  - injection H as <- <- <- <-. replace (at_recorded (env n)) with (at_recorded (env (n + 1 - 1)))
      by (by rewrite Z.add_simpl_r).
    apply ends_stopped; [lia|lia|]. by rewrite Z.add_simpl_r.
  - destruct (attempts _ _ _ left _ _ _ _ _) as [[[b1 r1] calls1] sleeps1] eqn:El.
    injection H as <- <- <- <-. apply IH in El.
    assert (Hn : retried n (env n)) by (by exists f).
    destruct El as [calls1 r1 record Hc Hk Hs|f1 Hl Hk Hs|Hl].
    + replace (n + 1 + calls1 - 1) with (n + (1 + calls1) - 1) in * by lia.
      apply ends_stopped; [lia| |done]. intros k Hkk. destruct (decide (k = n)) as [->|]; [done|].
      apply Hk. lia.
    + replace (n + 1 + Z.of_nat left - 1) with (n + Z.of_nat (S left) - 1) in * by lia.
      replace (1 + Z.of_nat left) with (Z.of_nat (S left)) by lia.
      apply ends_exhausted; [lia| |done]. intros k Hkk. destruct (decide (k = n)) as [->|]; [done|].
      apply Hk. lia.
    + subst left. replace (1 + 0) with (Z.of_nat 1) by lia.
      replace (n + 1 - 1) with (n + Z.of_nat 1 - 1) by lia.
      replace (at_recorded (env n)) with (at_recorded (env (n + Z.of_nat 1 - 1)))
        by (f_equal; f_equal; lia).
      apply ends_exhausted; [lia| |].
      * intros k Hk. assert (k = n) as -> by lia. done.
      * by replace (n + Z.of_nat 1 - 1) with n by lia.
Qed.

(** A fetch makes no call while the breaker refuses, and otherwise calls until
    the first answer that settles the request or until the attempts are
    used up; its result and what the breaker is told are those of that last
    answer; a result counts as a success only for a usable 2xx answer. *)
Theorem fetch_outcome now env b b1 ok b' r calls sleeps :
  allow_request now b = (b1, ok) ->
  fetch cf json_format query_hash now env b = (b', r, calls, sleeps) ->
  if ok then loop_end (Z.to_nat (cf_max_retries cf)) 1 env None now b1 b' r calls /\
    (1 <= cf_max_retries cf -> succeeded r = true ->
     exists c body text, at_answer (env calls) = Responded c body text /\ 200 <= c < 300 /\
       b' = record_success b1)
  else calls = 0 /\ b' = b1 /\ option_map af_failure_type (fr_failure r) = Some CIRCUIT_OPEN.
Proof.
  intros Ha Hf. unfold fetch in Hf. rewrite Ha in Hf. destruct ok; cbn [negb] in Hf.
  2: { by injection Hf as <- <- <- <-. }
  apply attempts_end in Hf. split; [done|]. intros Hm Hs.
  destruct Hf as [calls r record Hc Hk Hv|f Hl Hk Hv|Hl]; [|done|lia].
  replace (1 + calls - 1) with calls in * by lia. unfold judge in Hv.
  destruct (at_answer (env calls)) as [c body text|nm|nm msg|e] eqn:Ea; try discriminate.
  - unfold classify_http_status in Hv. destruct ((200 <=? c) && (c <? 300)) eqn:E2.
    + bool_prop. destruct json_format; [destruct body as [d|e]|]; injection Hv as <- <-;
        try discriminate; by exists c; eexists _, _.
    + exfalso. repeat case_match; simplify_eq; discriminate.
  - exfalso. repeat case_match; simplify_eq; discriminate.
Qed.

(** A client error is given up at once, and still counts against the breaker. *)
Lemma client_error_counts now env b c body text :
  cb_state b = Closed -> 1 <= cf_max_retries cf -> 400 <= c < 500 -> c <> 429 ->
  at_answer (env 1) = Responded c body text ->
  exists r, fetch cf json_format query_hash now env b =
    (record_failure HTTP_ERROR (at_recorded (env 1)) b, r, 1, []) /\
    cb_failures (record_failure HTTP_ERROR (at_recorded (env 1)) b) = cb_failures b + 1.
Proof.
  intros Hb Hm Hc Hne Ha. unfold fetch, allow_request, read_state. rewrite Hb. cbn.
  rewrite Hb. cbn. destruct (Z.to_nat (cf_max_retries cf)) as [|left] eqn:El; [lia|].
  cbn [attempts]. unfold judge. rewrite Ha. unfold classify_http_status.
  destruct (Z.leb_spec 200 c); [|lia]. destruct (Z.ltb_spec c 300); [lia|].
  destruct (Z.eqb_spec c 429); [lia|]. destruct (Z.leb_spec 500 c); [lia|].
  destruct (Z.leb_spec 400 c); [|lia]. destruct (Z.ltb_spec c 500); [|lia]. cbn.
  eexists. split; [reflexivity|]. unfold record_failure. cbn. rewrite Hb.
  by destruct (cb_threshold b <=? cb_failures b + 1).
Qed.
End FetchOutcome.

(** ** Stamping *)

(** Results leave the boundary with the current version, or none does. *)
Lemma finalize_stamps rs : forall i ms rs',
  finalize_results i ms rs = Ok rs' <->
  Forall (fun r => supplied r = false) rs /\
  rs' = map (fun r => set_version CURRENT_PROVENANCE_VERSION (set_latency ms r)) rs.
Proof.
  induction rs as [|r rs IH]; intros i ms rs'; cbn [finalize_results map].
  - split; [by intros [= <-]|]. by intros [_ ->].
  - change (supplied (set_latency ms r)) with (supplied r). rewrite Forall_cons.
    destruct (supplied r); [split; [discriminate | by intros [[]]]|].
    rewrite bind_ok. split.
    + intros (rest & Hr & [= <-]). apply IH in Hr as [Hall ->]. done.
    + intros [[_ Hall] ->]. eexists. split; [by apply (IH (S i) ms)|done].
Qed.

(** ** A flaky service *)

Definition demo_config : AdapterConfig := mkConfig "arxiv" 3 "30.0" (fround_int 1) (fround_int 10).
Definition demo_env (k : Z) : Attempt :=
  mkAttempt (if k =? 1 then RaisedTimeout "ReadTimeout"
             else if k =? 2 then Responded 503 (JsonBody []) ""
             else Responded 200 (JsonBody [("papers", VList [])]) "{}")
    (k * 1000000) (k * 1000000 + 5000) (k * 1000000 + 6000) (k * 1000000 + 7000).

Definition demo_fetch : fetched := fetch demo_config true "h" 0 demo_env (new_breaker 2 60000000).

Lemma fetch_outcome_witness :
  snd (fst demo_fetch) = 3 /\
  exists c body text, at_answer (demo_env 3) = Responded c body text /\ 200 <= c < 300.
Proof.
  split; [vm_compute; reflexivity|].
  destruct (fetch_outcome demo_config true "h" 0 demo_env (new_breaker 2 60000000)
    (new_breaker 2 60000000) true (fst (fst (fst demo_fetch))) (snd (fst (fst demo_fetch)))
    (snd (fst demo_fetch)) (snd demo_fetch) ltac:(vm_compute; reflexivity) ltac:(vm_compute; reflexivity))
    as [_ H].
  destruct H as (c & body & text & H1 & H2 & _); [vm_compute; discriminate | vm_compute; reflexivity|].
  exists c, body, text. split; [exact H1 | exact H2].
Defined.

(** Two failures trip the breaker at 2; at 5 it refuses, at 12 it lets a probe
    through, which fails; at 14 it refuses, the probe at 23 succeeds. *)
Definition demo_history : list breaker_event :=
  [ EQuery 0; EFailure TIMEOUT 1; EFailure SCHEMA_DRIFT 1; EQuery 1; EFailure RATE_LIMIT 2; EQuery 5;
    EQuery 12; EFailure TIMEOUT 13; EQuery 14; EQuery 23; ESuccess; EQuery 23 ].

Lemma breaker_refines_history_witness :
  [true; true; false; true; false; true; true] = documented_answers 2 10 demo_history [] false.
Proof.
  apply (breaker_refines_history 2 10 demo_history (fst (run_breaker demo_history (new_breaker 2 10)))).
  - cbn. lia.
  - cbn. split_and!; try done; intros t [= <-]; done.
  - vm_compute. reflexivity.
Defined.

(** Three requests after the cooldown, all let through; a probe whose failure
    is not retryable leaves the breaker half-open. *)
Example probes_not_counted :
  let tripped := [EFailure TIMEOUT 1; EFailure TIMEOUT 2] in
  snd (run_breaker (tripped ++ [EQuery 12; EQuery 12; EQuery 12]) (new_breaker 2 10)) = [true; true; true] /\
  snd (run_breaker (tripped ++ [EQuery 12; EFailure SCHEMA_DRIFT 13; EQuery 13]) (new_breaker 2 10)) = [true; true].
Proof. vm_compute. done. Qed.

(** Without retries a fetch calls nobody and counts as a success. *)
Example no_retries_succeeds :
  succeeded (snd (fst (fst (fetch (mkConfig "arxiv" 0 "30.0" fzero fzero) true "h" 0 demo_env
                             (new_breaker 2 10))))) = true.
Proof. vm_compute. reflexivity. Qed.
