(* ===== verification/RetryCoordinator.v ===== *)
(** * Retry coordinator

    [runtime/side_effect_retry_coordinator.py]: one authorized retry of a
    side effect, from the operator's decision to the terminal row.  The
    coordinator is a program over database calls, the dispatch mark and the
    adapter call; several coordinators, ordinary ledger operations and
    ordinary starts interleave between these calls.

    A call gets its clock readings, random values and, for the adapter, the
    outcome from the environment ([Inputs]).  A worker that crashes is one
    that is not scheduled again.  Parameters: the cipher, the hash functions,
    the version specifier library, the trust validator, the adapter factory,
    the key manager's answer and the type checks of the query model.  Texts of
    errors are given by their case; the metrics emitter never changes
    execution and is left out. *)
From Corelib Require Import SpecFloat.
From S2P Require Import Prelude PyFloat PyValue Json Sql SideEffectLedger Capsules.
From S2P Require Import Envelope DispatchGuard.

(** ** Results and errors *)

Inductive retry_error :=
| RetryExecutionError (code : string)
| ValueErrorRaised
| LedgerRaised (e : ledger_error)
| PreparationRaised
| ResponseHashRaised.

Inductive result_note :=
| PriorUncertain
| ClaimContention (e : ledger_error)
| FenceLostDuringPreparation (code : string)
| PreparationFailed (code : string)
| BoundaryRejected
| ConfirmedNoEffect
| GuardRejected
| AdapterTimeout
| TransportError
| AdapterError.

Record RetryExecutionResult := mkResult {
  rr_retry_attempt_key : string;
  rr_child_status : string;
  rr_node_invocation_outcome : string;
  rr_operator_action_outcome : string;
  rr_capsule_id : option string;
  rr_error : option result_note;
  rr_dispatch_performed : bool;
  rr_recovery_action_id : option string;
}.

Record DispatchPreparation := mkPreparation {
  dp_envelope : RecoveryEnvelopeV1;
  dp_constraints : ExecutionConstraints;
  dp_adapter : Adapter;
  dp_query : SearchQuery;
}.

(** What the guarded adapter call does. *)
Inductive adapter_outcome :=
| Returned (results : list pyval)
| RaisedGuard
| RaisedNoEffect
| RaisedTimeout
| RaisedConnection
| RaisedOther.

(** The environment's answers to one call. *)
Record Inputs := mkInputs {
  in_now : Z;
  in_now_lease : Z;
  in_uuid : string;
  in_draw : DekDraw;
  in_outcome : adapter_outcome;
}.

(** ** Programs *)

Inductive prog (A : Type) : Type :=
| Ret (a : A)
| Raise (e : retry_error)
| DbCall (B : Type) (f : Inputs -> CDb -> CDb * B) (k : B -> prog A)
| MarkCall (run key token : string) (k : bool -> prog A)
| DispatchCall (run key : string) (p : DispatchPreparation) (k : adapter_outcome -> prog A).
Arguments Ret {A} a.
Arguments Raise {A} e.
Arguments DbCall {A B} f k.
Arguments MarkCall {A} run key token k.
Arguments DispatchCall {A} run key p k.

#[export] Instance prog_ret : MRet prog := fun A a => Ret a.
#[export] Instance prog_bind : MBind prog :=
  fun A B f => fix go m :=
    match m with
    | Ret a => f a
    | Raise e => Raise e
    | DbCall g k => DbCall g (fun x => go (k x))
    | MarkCall run key token k => MarkCall run key token (fun x => go (k x))
    | DispatchCall run key p k => DispatchCall run key p (fun x => go (k x))
    end.

(** A SELECT. *)
Definition query {A} (f : CDb -> A) : prog A := DbCall (fun _ db => (db, f db)) Ret.

(** A ledger operation in its own transaction; [Err] is what it raises. *)
Definition run_op {A} (o : Inputs -> op A) : prog (res ledger_error A) :=
  DbCall (fun i db => match o i (core db) with
                      | Ok (d, a) => (with_core d db, Ok a)
                      | Err e => (db, Err e)
                      end) Ret.

(** The same when an exception propagates. *)
Definition exec_op {A} (o : Inputs -> op A) : prog A :=
  r ← run_op o;
  match r with Ok a => Ret a | Err e => Raise (LedgerRaised e) end.

Definition check (b : bool) (code : string) : prog unit :=
  if b then Ret tt else Raise (RetryExecutionError code).

Definition get_effect (run key : string) : prog (option Row) :=
  query (fun db => get_side_effect_by_key run key (core db)).

Definition uuid4 : prog string := DbCall (fun i db => (db, in_uuid i)) Ret.

Definition update_action (act st code : string) : prog bool :=
  exec_op (fun i => update_recovery_execution_status act st (Some code) None (in_now i)).

Definition finalize_action (act outcome code : string) : prog bool :=
  exec_op (fun i => finalize_recovery_execution_action act outcome (Some code) (in_now i)).

Definition status_or_unknown (r : option Row) : string :=
  match r with Some r => SideEffectLedger.status r | None => "unknown" end.

(** ** Static helpers *)

(** [parent.get("root_side_effect_key") or default] *)
Definition root_key (parent : Row) (dflt : string) : string :=
  match SideEffectLedger.root_side_effect_key parent with
  | Some r => if str_truthy r then r else dflt
  | None => dflt
  end.

Definition extract_adapter_name (parent : Row) (parent_key : string) : string :=
  match split_char ":"%char parent_key with
  | p :: a :: rest =>
      if (p =? "search")%string && nonempty rest then a else p
  | _ => side_effect_type parent
  end.

Definition outcome_to_node (o : string) : string :=
  if (o =? "completed")%string then "succeeded"
  else if (o =? "failed")%string then "failed" else "pending".

Definition status_to_operator (s : string) : string :=
  if mem s ["completed"; "failed"; "unknown"] then "completed" else "in_progress".

Definition handle_existing_child (child : Row) (child_key : string) (parent : Row)
  : RetryExecutionResult :=
  let s := SideEffectLedger.status child in
  mkResult child_key s (outcome_to_node s) (status_to_operator s) (capsule_id parent)
    (if (s =? "unknown")%string then Some PriorUncertain else None) false None.

(** ** Allocation *)

Definition child_row (run child_key parent_key root : string) (ordinal : Z) (decision : string)
  (parent : Row) (now : Z) (db : Db) : Row :=
  mkRow (next_id db) run (SideEffectLedger.step_id parent) (SideEffectLedger.node_id parent) None
    (side_effect_type parent) child_key "planned" (request_hash parent) None None true now
    (Some parent_key) (Some root) ordinal (Some decision) (capsule_id parent) "available"
    None None None None.

(** [_allocate_child_and_action]: both rows in one transaction. *)
Definition allocate_child_and_action (run child_key parent_key root : string) (ordinal : Z)
  (decision : string) (parent : Row) (act : string) (operator : option string)
  (claim meta : string) (now : Z) : op unit := fun db =>
  db' ← insert_row (child_row run child_key parent_key root ordinal decision parent now db) db;
  create_recovery_execution_action act operator run child_key claim meta db'.

(** The direct UPDATE of a child whose outcome is uncertain. *)
Definition mark_unknown_by_fence (run child_key token : string) : op bool :=
  cas (held_by run child_key token) (set_status "unknown").

Section Coordinator.
Context (aes_encrypt : string -> string -> string -> string -> string).
Context (aes_decrypt : string -> string -> string -> string -> option string).
Context (sha256 uuid5 : string -> string).
Context (in_spec : option (string -> string -> string -> bool)).
Context (trust_validator : Adapter -> bool).
Context (adapter_factory : option (string -> option Adapter)).
Context (kek : option string).
Context (validate_int : pyval -> option Z).

(** ** Preparation *)

Inductive prep_error := PrepRejected (code : string) | PrepRaised.

Definition canonical_digest (v : pyval) : option string :=
  option_map (compute_canonical_request_digest sha256) (canonicalize_capsule_payload v).

(** A text of the metadata; the source binding holds texts only. *)
Definition text_field (k : string) (m : pyctx) : string :=
  match dget k m with Some (VStr s) => s | _ => "" end.

Definition int_field (k : string) (dflt : Z) (m : pyctx) : Z :=
  match dget k m with Some (VInt z) => z | _ => dflt end.

Fixpoint all_texts (l : list pyval) : option (list string) :=
  match l with
  | [] => Some []
  | VStr s :: t => cons s <$> all_texts t
  | _ :: _ => None
  end.

(** [SearchQuery(terms=..., max_results=..., filters=...)] of a canonical
    operation; [None] when the model rejects a field. *)
Definition query_of (op : pyctx) : option SearchQuery :=
  ts ← match dget "terms" op with
       | None => Some []
       | Some (VStr s) => Some [s]
       | Some (VList l) => all_texts l
       | Some _ => None
       end;
  m ← validate_int (match dget "max" op with Some v => v | None => VInt 10 end);
  f ← match dget "filters" op with
      | None => Some []
      | Some (VDict d) => Some d
      | Some _ => None
      end;
  Some (mkQuery ts m f).

Definition required_binding_fields : list string :=
  ["node_id"; "node_version"; "contract_id"; "contract_version"; "adapter_id"; "adapter_version"].

Definition build_args (parent : Row) (m : pyctx) (child_key token decision act : string)
  (ordinal : Z) : BuildArgs :=
  mkBuildArgs act decision (idempotency_key parent) (idempotency_key parent)
    (root_key parent (idempotency_key parent)) child_key ordinal
    (default "" (capsule_id parent)) (text_field "canonical_request_digest" m)
    (int_field "capsule_schema_version" 1 m)
    (if dmem "canonicalization_version" m then text_field "canonicalization_version" m else "1")
    (map (fun f => (f, text_field f m)) required_binding_fields) token (side_effect_type parent)
    (if dmem "operation_name" m then text_field "operation_name" m else "search")
    (text_field "adapter_id" m) (text_field "adapter_version" m)
    (text_field "canonical_request_digest" m) 1.

(** The checks after the metadata is loaded. *)
Definition prepare_checks (parent : Row) (adapter_name_ : string) (m : pyctx)
  (child_key token decision act : string) (ordinal : Z) : res prep_error DispatchPreparation :=
  let rejected {A} (code : string) : res prep_error A := Err (PrepRejected code) in
  let require (b : bool) (code : string) : res prep_error unit :=
    guard_err b (PrepRejected code) in
  _ ← require (negb (is_none (context_get "canonical_operation" m))) "CAPSULE_DECRYPTION_FAILED";
  let caps_adapter := text_field "adapter_id" m in
  _ ← require (str_truthy caps_adapter) "INCOMPLETE_CAPSULE_BINDING";
  _ ← require (caps_adapter =? adapter_name_)%string "ADAPTER_IDENTITY_MISMATCH";
  _ ← require (forallb (fun f => str_truthy (text_field f m)) required_binding_fields)
        "INCOMPLETE_CAPSULE_BINDING";
  envelope ← match build (build_args parent m child_key token decision act ordinal) with
             | Ok e => Ok e
             | Err _ => rejected "ENVELOPE_VALIDATION_FAILED"
             end;
  let constraints := to_execution_constraints envelope in
  adapter ← match adapter_factory with
            | None => rejected "NO_ADAPTER_FACTORY"
            | Some f => match f adapter_name_ with
                        | None => rejected "ADAPTER_CONSTRUCTION_FAILED"
                        | Some a => Ok a
                        end
            end;
  _ ← require (adapter_name adapter =? caps_adapter)%string "ADAPTER_IDENTITY_MISMATCH";
  _ ← require (is_adapter_attested in_spec caps_adapter (text_field "adapter_version" m))
        "ADAPTER_NOT_ATTESTED";
  _ ← require (trust_validator adapter) "UNTRUSTED_ADAPTER";
  op ← match context_get "canonical_operation" m with VDict d => Ok d | _ => Err PrepRaised end;
  q ← match query_of op with Some q => Ok q | None => Err PrepRaised end;
  _ ← match preflight_validate canonical_digest adapter constraints q with
      | Ok u => Ok u
      | Err (DispatchRejected _) => rejected "PREFLIGHT_VALIDATION_FAILED"
      | Err _ => Err PrepRaised
      end;
  recomputed ← match canonical_digest (VDict op) with Some d => Ok d | None => Err PrepRaised end;
  let stored := text_field "canonical_request_digest" m in
  _ ← require (negb (str_truthy stored && negb (recomputed =? stored)%string))
        "CAPSULE_DIGEST_MISMATCH";
  Ok (mkPreparation envelope constraints adapter q).

(** [_prepare_dispatch] *)
Definition prepare_dispatch (run child_key token : string) (parent : Row)
  (adapter_name_ decision : string) (ordinal : Z) (act : string) (i : Inputs) (db : CDb)
  : CDb * res prep_error DispatchPreparation :=
  match load_capsule_metadata aes_encrypt aes_decrypt kek (in_draw i) run parent db with
  | (db', Err code) => (db', Err (PrepRejected code))
  | (db', Ok m) =>
      (db', prepare_checks parent adapter_name_ m child_key token decision act ordinal)
  end.

(** ** Dispatch and terminalization *)

(** [_compute_response_hash]; [None] when the results cannot be serialized. *)
Definition compute_response_hash (results : list pyval) : option string :=
  match results with
  | [] => Some (sha256 "empty")
  | _ => canonical_digest (VList results)
  end.

(** [_execute_dispatch_async] after the call: outcome, response hash, error.
    The response hash is computed outside the [try]. *)
Definition classify_outcome (o : adapter_outcome)
  : prog (string * option string * option result_note) :=
  match o with
  | RaisedGuard => Ret ("failed", None, Some GuardRejected)
  | RaisedNoEffect => Ret ("failed", None, Some ConfirmedNoEffect)
  | RaisedTimeout => Ret ("unknown", None, Some AdapterTimeout)
  | RaisedConnection => Ret ("unknown", None, Some TransportError)
  | RaisedOther => Ret ("unknown", None, Some AdapterError)
  | Returned results =>
      match compute_response_hash results with
      | Some h => Ret ("completed", Some h, None)
      | None => Raise ResponseHashRaised
      end
  end.

(** The action of a worker that lost its fence follows the child's row. *)
Definition settle_stale (run child_key act : string) (resp : option string) : prog unit :=
  child ← get_effect run child_key;
  match child with
  | None => _ ← finalize_action act "unknown" "stale_fence_child_missing_integrity"; Ret tt
  | Some c =>
      let s := SideEffectLedger.status c in
      if (s =? "completed")%string then
        if ostr_truthy (response_hash c) && ostr_truthy resp
           && bool_decide (response_hash c = resp)
        then _ ← finalize_action act "completed" "adapter_confirmed_completion"; Ret tt
        else if negb (ostr_truthy (response_hash c)) || negb (ostr_truthy resp)
        then _ ← finalize_action act "unknown" "stale_fence_completed_hash_unverifiable"; Ret tt
        else _ ← finalize_action act "unknown" "stale_fence_completed_hash_mismatch"; Ret tt
      else if (s =? "failed")%string
      then _ ← finalize_action act "unknown" "stale_fence_child_failed"; Ret tt
      else if (s =? "unknown")%string
      then _ ← finalize_action act "unknown" "stale_fence_child_unknown"; Ret tt
      else _ ← update_action act "unknown" "fence_lost_after_dispatch"; Ret tt
  end.

Definition terminalize (run child_key token act outcome : string) (resp : option string)
  : prog unit :=
  if (outcome =? "completed")%string then
    ok ← exec_op (fun _ => complete_recovery_attempt run child_key token resp);
    if (ok : bool) then _ ← finalize_action act "completed" "adapter_confirmed_completion"; Ret tt
    else settle_stale run child_key act resp
  else if (outcome =? "failed")%string then
    ok ← exec_op (fun _ => fail_recovery_attempt run child_key token);
    if (ok : bool) then _ ← finalize_action act "failed" "adapter_confirmed_no_effect"; Ret tt
    else _ ← update_action act "unknown" "fence_lost_after_dispatch"; Ret tt
  else
    child ← get_effect run child_key;
    _ ← (if match child with
            | Some c => (SideEffectLedger.status c =? "started")%string | None => false end
         then _ ← exec_op (fun _ => mark_unknown_by_fence run child_key token); Ret tt
         else Ret tt);
    _ ← finalize_action act "unknown" "post_boundary_uncertain"; Ret tt.

(** ** The protocol *)

(** Step 8 on: across the boundary. *)
Definition dispatch_and_settle (run child_key token act : string) (parent : Row)
  (p : DispatchPreparation) : prog RetryExecutionResult :=
  _ ← exec_op (fun i => update_recovery_execution_status act "dispatch_started" None None (in_now i));
  o ← DispatchCall run child_key p Ret;
  r ← classify_outcome o;
  let '(outcome, resp, note) := r in
  _ ← terminalize run child_key token act outcome resp;
  final ← get_effect run child_key;
  let s := status_or_unknown final in
  Ret (mkResult child_key s (outcome_to_node outcome) (status_to_operator s) (capsule_id parent)
         note true (Some act)).

(** A worker that does not own the child any more. *)
Definition not_acquired (run child_key act code : string) (note : result_note)
  : prog RetryExecutionResult :=
  _ ← update_action act "not_acquired" code;
  child ← get_effect run child_key;
  Ret (mkResult child_key (status_or_unknown child) "pending" "not_acquired" None
         (Some note) false (Some act)).

(** Step 7: prepare, then mark the boundary. *)
Definition prepare_and_cross (run child_key token act decision adapter : string) (ordinal : Z)
  (parent : Row) : prog RetryExecutionResult :=
  prep ← DbCall (prepare_dispatch run child_key token parent adapter decision ordinal act) Ret;
  match prep with
  | Err PrepRaised => Raise PreparationRaised
  | Err (PrepRejected code) =>
      ok ← exec_op (fun _ => fail_recovery_attempt run child_key token);
      if (ok : bool) then
        _ ← finalize_action act "failed" code;
        Ret (mkResult child_key "failed" "failed" "completed" None (Some (PreparationFailed code))
               false (Some act))
      else not_acquired run child_key act ("fence_lost_during_prep:" +:+ code)
             (FenceLostDuringPreparation code)
  | Ok p =>
      crossed ← MarkCall run child_key token Ret;
      if (crossed : bool) then dispatch_and_settle run child_key token act parent p
      else not_acquired run child_key act "boundary_cas_rejected" BoundaryRejected
  end.

(** Step 6: the claim. *)
Definition claim_and_run (run child_key act claim decision adapter : string) (ordinal : Z)
  (parent : Row) : prog RetryExecutionResult :=
  r ← run_op (fun i => claim_recovery_attempt run child_key claim act (in_now i) (in_now_lease i));
  match r with
  | Ok token => prepare_and_cross run child_key token act decision adapter ordinal parent
  | Err e =>
      child ← get_effect run child_key;
      match child with
      | None => Raise (LedgerRaised e)
      | Some c =>
          _ ← update_action act "not_acquired" "claim_contention";
          Ret (mkResult child_key (SideEffectLedger.status c) "pending" "not_acquired" None
                 (Some (ClaimContention e)) false (Some act))
      end
  end.

(** Step 2b: the decision that authorizes the retry. *)
Definition validate_decision (run parent_key decision_id_ : string) : prog unit :=
  d ← query (fun db => fetchone (fun d => (decision_id d =? decision_id_)%string)
                         (decisions (core db)));
  match d with
  | None => Raise (RetryExecutionError "DECISION_NOT_FOUND")
  | Some d =>
      _ ← check (rd_run_id d =? run)%string "DECISION_RUN_MISMATCH";
      _ ← check (rd_key d =? parent_key)%string "DECISION_TARGET_MISMATCH";
      _ ← check (rd_decision d =? "safe_to_retry")%string "DECISION_NOT_SAFE_TO_RETRY";
      _ ← check (rd_prior_status d =? "unknown")%string "DECISION_PRIOR_NOT_UNKNOWN";
      check (rd_retention_status d =? "active")%string "DECISION_NOT_ACTIVE"
  end.

(** The JSON texts of the action's metadata. *)
Definition action_metadata (actor role : string) (requeue : bool) : string :=
  json_text default_options
    (VDict ([("actor", VStr actor); ("role", VStr role)]
            ++ (if requeue then [("requeue", VBool true)] else []))).

Record RetryArgs := mkRetryArgs {
  ra_run_id : string;
  ra_parent_key : string;
  ra_decision_id : string;
  ra_actor : string;
  ra_actor_role : string;
  ra_operator_action_id : option string;
}.

(** [execute_authorized_retry].  The identifiers are drawn twice and the
    second pair is used; the model draws once. *)
Definition execute_authorized_retry (a : RetryArgs) : prog RetryExecutionResult :=
  let run := ra_run_id a in
  let parent_key := ra_parent_key a in
  let decision := ra_decision_id a in
  p ← get_effect run parent_key;
  match p with
  | None => Raise (RetryExecutionError "SIDE_EFFECT_NOT_FOUND")
  | Some parent =>
      _ ← check (SideEffectLedger.status parent =? "retry_authorized")%string
            "SIDE_EFFECT_NOT_RETRY_AUTHORIZED";
      _ ← check (capsule_status parent =? "available")%string "REPLAY_MATERIAL_UNAVAILABLE";
      _ ← validate_decision run parent_key decision;
      match make_retry_side_effect_key uuid5 parent_key decision with
      | Err _ => Raise ValueErrorRaised
      | Ok child_key =>
          existing ← get_effect run child_key;
          let adapter := extract_adapter_name parent parent_key in
          let root := root_key parent parent_key in
          let operator := ra_operator_action_id a in
          let start (ordinal : Z) (act claim : string) :=
            claim_and_run run child_key act claim decision adapter ordinal parent in
          match existing with
          | Some c =>
              if negb (SideEffectLedger.status c =? "planned")%string
              then Ret (handle_existing_child c child_key parent)
              else
                act ← uuid4;
                claim ← uuid4;
                _ ← exec_op (fun _ => create_recovery_execution_action act operator run child_key
                               claim (action_metadata (ra_actor a) (ra_actor_role a) true));
                start (SideEffectLedger.retry_ordinal c) act claim
          | None =>
              let ordinal := SideEffectLedger.retry_ordinal parent + 1 in
              act ← uuid4;
              claim ← uuid4;
              r ← run_op (fun i => allocate_child_and_action run child_key parent_key root ordinal
                             decision parent act operator claim
                             (action_metadata (ra_actor a) (ra_actor_role a) false) (in_now i));
              match r with
              | Ok _ => start ordinal act claim
              | Err _ =>
                  again ← get_effect run child_key;
                  match again with
                  | Some c => Ret (handle_existing_child c child_key parent)
                  | None => Raise (RetryExecutionError "CHILD_ALLOCATION_RACE_LOST")
                  end
              end
          end
      end
  end.
End Coordinator.

(** ** Interleaved execution *)

Section System.
Context (aes_encrypt : string -> string -> string -> string -> string).
Context (aes_decrypt : string -> string -> string -> string -> option string).
Context (sha256 uuid5 : string -> string).
Context (in_spec : option (string -> string -> string -> bool)).
Context (trust_validator : Adapter -> bool).
Context (adapter_factory : option (string -> option Adapter)).
Context (kek : option string).
Context (validate_int : pyval -> option Z).

Local Abbreviation coordinator := (execute_authorized_retry aes_encrypt aes_decrypt sha256 uuid5
  in_spec trust_validator adapter_factory kek validate_int).
Local Abbreviation start := (start_side_effect_with_capsule aes_encrypt aes_decrypt sha256 uuid5).

(** The database, the programs still running or finished, and the adapter
    calls made so far, each with the worker that made it. *)
Record Sys := mkSys {
  s_db : CDb;
  s_workers : list (prog RetryExecutionResult);
  s_calls : list (nat * (string * string));
}.

Inductive sys_event :=
| ESpawn (a : RetryArgs)
| EWorker (n : nat) (i : Inputs)
| ELedger (o : ledger_op)
| EStart (a : StartArgs) (d : StartDraw).

(** One call of a program. *)
Definition prog_step (i : Inputs) (p : prog RetryExecutionResult) (db : CDb)
  : prog RetryExecutionResult * CDb * list (string * string) :=
  match p with
  | Ret _ | Raise _ => (p, db, [])
  | DbCall f k => let '(db', x) := f i db in (k x, db', [])
  | MarkCall run key token k =>
      match mark_recovery_dispatch_attempted run key token (in_now i) (core db) with
      | Ok (d, b) => (k b, with_core d db, [])
      | Err e => (Raise (LedgerRaised e), db, [])
      end
  | DispatchCall run key _ k => (k (in_outcome i), db, [(run, key)])
  end.

Definition sys_step (s : Sys) (e : sys_event) : Sys :=
  match e with
  | ESpawn a => mkSys (s_db s) (s_workers s ++ [coordinator a]) (s_calls s)
  | EWorker n i =>
      match s_workers s !! n with
      | Some p =>
          let '(p', db', calls) := prog_step i p (s_db s) in
          mkSys db' (<[n := p']> (s_workers s)) (s_calls s ++ map (pair n) calls)
      | None => s
      end
  | ELedger o => mkSys (with_core (exec o (core (s_db s))) (s_db s)) (s_workers s) (s_calls s)
  | EStart a d => mkSys (fst (start a kek d (s_db s))) (s_workers s) (s_calls s)
  end.

Definition sys_run (es : list sys_event) (s : Sys) : Sys := fold_left sys_step es s.

Definition initial (db : CDb) : Sys := mkSys db [] [].

(** The program alone, one entry of [ins] per call. *)
Fixpoint run_alone (ins : list Inputs) (p : prog RetryExecutionResult) (db : CDb)
  : prog RetryExecutionResult * CDb * list (string * string) :=
  match ins with
  | [] => (p, db, [])
  | i :: ins =>
      let '(p', db', calls) := prog_step i p db in
      let '(p'', db'', calls') := run_alone ins p' db' in
      (p'', db'', calls ++ calls')
  end.
End System.

(** ** What every step keeps *)

(** Rows keep their keys and dispatch marks, terminal rows stay as they are,
    and new rows are undispatched. *)
Definition preserves (db db' : Db) : Prop :=
  exists f new,
    ledger db' = map f (ledger db) ++ new /\
    (forall r, r ∈ ledger db -> row_key (f r) = row_key r /\
       (forall t, dispatch_attempted_at r = Some t -> dispatch_attempted_at (f r) = Some t) /\
       (terminal (SideEffectLedger.status r) -> f r = r)) /\
    (forall r, r ∈ new -> dispatch_attempted_at r = None) /\
    NoDup (map row_key (ledger db) ++ map row_key new).

Lemma evolves_preserves rep db db' : evolves rep db db' -> preserves db db'.
Proof.
  intros (f & new & H1 & H2 & H3 & H4). exists f, new. split_and!; [done| |done|done].
  intros r Hr. specialize (H2 r Hr). split_and!.
  - by eapply row_step_key.
  - intros t. by eapply row_step_dispatch.
  - by eapply row_step_terminal.
Qed.

Lemma preserves_unique db db' : preserves db db' -> unique db'.
Proof.
  intros (f & new & H1 & H2 & _ & H4). unfold unique. rewrite H1, map_app, map_map.
  replace (map (fun x => row_key (f x)) (ledger db)) with (map row_key (ledger db)); [done|].
  apply map_ext_in. intros r Hr. apply list_elem_of_In in Hr. by destruct (H2 r Hr) as [-> _].
Qed.

Lemma preserves_row db db' r :
  preserves db db' -> r ∈ ledger db ->
  exists r', r' ∈ ledger db' /\ row_key r' = row_key r /\
    (forall t, dispatch_attempted_at r = Some t -> dispatch_attempted_at r' = Some t) /\
    (terminal (SideEffectLedger.status r) -> r' = r).
Proof.
  intros (f & new & H1 & H2 & _ & _) Hr. exists (f r). split; [|by apply H2].
  rewrite H1. apply elem_of_app. left. apply list_elem_of_In, in_map. by apply list_elem_of_In.
Qed.

(** The dispatch boundary of an effect has been crossed. *)
Definition crossed (run key : string) (db : Db) : Prop :=
  exists r t, r ∈ ledger db /\ row_key r = (run, key) /\ dispatch_attempted_at r = Some t.

Lemma preserves_crossed db db' run key : preserves db db' -> crossed run key db -> crossed run key db'.
Proof.
  intros Hp (r & t & Hr & Hk & Hd). destruct (preserves_row _ _ _ Hp Hr) as (r' & ? & ? & Hd' & _).
  exists r', t. split_and!; [done|congruence|auto].
Qed.

(** ** Reasoning about programs *)

(** Where a worker is with respect to the dispatch boundary. *)
Inductive phase := Before | Armed | Called.

Definition phase_eqb (a b : phase) : bool :=
  match a, b with
  | Before, Before | Armed, Armed | Called, Called => true
  | _, _ => false
  end.

(** Every database call keeps what [preserves] says, the only mark and the
    only adapter call are for the effect at hand, the adapter is called once
    and only after the worker's own mark succeeded, and a result satisfies
    [Q] in the phase it is returned. *)
Fixpoint wp {A} (run key : string) (Q : phase -> A -> Prop) (ph : phase) (p : prog A) : Prop :=
  match p with
  | Ret a => Q ph a
  | Raise _ => True
  | DbCall f k =>
      (forall i db, unique (core db) -> preserves (core db) (core (fst (f i db)))) /\
      forall x, wp run key Q ph (k x)
  | MarkCall run' key' _ k =>
      run' = run /\ key' = key /\ ph = Before /\ wp run key Q Armed (k true) /\
      wp run key Q Before (k false)
  | DispatchCall run' key' _ k =>
      run' = run /\ key' = key /\ ph = Armed /\ forall x, wp run key Q Called (k x)
  end.

Section Wp.
Context (run key : string).

Lemma wp_bind {A B} (m : prog A) (f : A -> prog B) Q ph :
  wp run key (fun ph a => wp run key Q ph (f a)) ph m -> wp run key Q ph (m ≫= f).
Proof.
  revert ph. induction m as [a|e|C g k IH|r' k' t k IH|r' k' p k IH]; intros ph; cbn.
  - done.
  - done.
  - intros [H1 H2]. split; [done|]. intros x. apply IH, H2.
  - intros (-> & -> & -> & H1 & H2). split_and!; try done; by apply IH.
  - intros (-> & -> & -> & H). split_and!; try done. intros x. apply IH, H.
Qed.

Lemma wp_mono {A} (p : prog A) (Q Q' : phase -> A -> Prop) ph :
  (forall ph a, Q ph a -> Q' ph a) -> wp run key Q ph p -> wp run key Q' ph p.
Proof.
  intros HQ. revert ph. induction p as [a|e|C g k IH|r' k' t k IH|r' k' p k IH]; intros ph; cbn.
  - apply HQ.
  - done.
  - intros [H1 H2]. split; [done|]. intros x. apply IH, H2.
  - intros (-> & -> & -> & H1 & H2). split_and!; try done; by apply IH.
  - intros (-> & -> & -> & H). split_and!; try done. intros x. apply IH, H.
Qed.

Lemma preserves_refl db : unique db -> preserves db db.
Proof. intros Hu. by apply (evolves_preserves None), evolves_refl. Qed.

Lemma wp_query {A} (f : CDb -> A) Q ph : (forall x, Q ph x) -> wp run key Q ph (query f).
Proof. intros HQ. split; [|done]. intros i db Hu. by apply preserves_refl. Qed.

Lemma wp_run_op {A} (o : Inputs -> op A) Q ph :
  (forall i db, unique db -> evolves None db (commit (o i) db)) ->
  (forall x, Q ph x) -> wp run key Q ph (run_op o).
Proof.
  intros Ho HQ. split; [|done]. intros i db Hu. specialize (Ho i (core db) Hu). unfold commit in Ho.
  apply (evolves_preserves None). by destruct (o i (core db)) as [[d a]|e].
Qed.

Lemma wp_exec_op {A} (o : Inputs -> op A) Q ph :
  (forall i db, unique db -> evolves None db (commit (o i) db)) ->
  (forall x, Q ph x) -> wp run key Q ph (exec_op o).
Proof.
  intros Ho HQ. apply wp_bind, wp_run_op; [done|]. intros [x|e]; cbn; [apply HQ | done].
Qed.

Lemma wp_check b code (Q : phase -> unit -> Prop) ph : Q ph tt -> wp run key Q ph (check b code).
Proof. by destruct b. Qed.

Lemma wp_uuid4 Q ph : (forall x, Q ph x) -> wp run key Q ph uuid4.
Proof. intros HQ. split; [|done]. intros i db Hu. by apply preserves_refl. Qed.
End Wp.

(** The operations of the coordinator are steps of the ledger. *)
Lemma action_evolves (o : ledger_op) db : unique db -> evolves (repair_of o) db (exec o db).
Proof. apply exec_evolves. Qed.

Lemma update_action_evolves act st outcome now db :
  unique db -> evolves None db (commit (update_recovery_execution_status act st outcome None now) db).
Proof. exact (exec_evolves (OUpdateAction act st outcome None now) db). Qed.

Lemma finalize_action_evolves act st code now db :
  unique db -> evolves None db (commit (finalize_recovery_execution_action act st code now) db).
Proof. exact (exec_evolves (OFinalizeAction act st code now) db). Qed.

Lemma create_action_evolves act operator run key claim meta db :
  unique db -> evolves None db (commit (create_recovery_execution_action act operator run key claim meta) db).
Proof. exact (exec_evolves (OCreateAction act operator run key claim meta) db). Qed.

Lemma claim_op_evolves run key claim act now nl db :
  unique db -> evolves None db (commit (claim_recovery_attempt run key claim act now nl) db).
Proof. exact (exec_evolves (OClaim run key claim act now nl) db). Qed.

Lemma complete_op_evolves run key token resp db :
  unique db -> evolves None db (commit (complete_recovery_attempt run key token resp) db).
Proof. exact (exec_evolves (OComplete run key token resp) db). Qed.

Lemma fail_op_evolves run key token db :
  unique db -> evolves None db (commit (fail_recovery_attempt run key token) db).
Proof. exact (exec_evolves (OFail run key token) db). Qed.

Lemma unknown_op_evolves run key token db :
  unique db -> evolves None db (commit (mark_unknown_by_fence run key token) db).
Proof.
  intros Hu. unfold commit, mark_unknown_by_fence, cas. eapply evolves_update; [done|reflexivity|].
  intros r Hr Hp. apply held_by_true in Hp as (_ & Hs & _). by constructor.
Qed.

Lemma insert_row_spec r db db' :
  insert_row r db = Ok db' ->
  db' = with_ledger (ledger db ++ [r]) db /\
  forall x, x ∈ ledger db -> row_key x <> row_key r.
Proof.
  unfold insert_row. destruct (existsb (at_key _ _) _) eqn:E1; [discriminate|].
  cbn [orb]. case_match; [discriminate|]. intros [= <-]. split; [done|].
  intros x Hx Hk. assert (existsb (at_key (run_id r) (idempotency_key r)) (ledger db) = true);
    [|congruence].
  apply existsb_elem. exists x. split; [done|]. by apply at_key_true.
Qed.

Lemma insert_evolves db db1 db' r :
  unique db -> insert_row r db = Ok db1 -> dispatch_attempted_at r = None ->
  ledger db' = ledger db1 -> evolves None db db'.
Proof.
  intros Hu Hi Hd He. apply insert_row_spec in Hi as [-> Hk].
  exists (fun x => x), [r]. rewrite map_id. split_and!.
  - exact He.
  - intros x _. constructor.
  - by intros x ->%list_elem_of_singleton.
  - apply NoDup_snoc; [exact Hu|]. rewrite list_elem_of_In, in_map_iff.
    intros (x & Hx1 & Hx2). apply list_elem_of_In in Hx2. by apply (Hk x).
Qed.

Lemma allocate_evolves run ck pk root ord dec parent act operator claim meta now db :
  unique db ->
  evolves None db (commit (allocate_child_and_action run ck pk root ord dec parent act operator claim
                        meta now) db).
Proof.
  intros Hu. unfold commit, allocate_child_and_action.
  destruct (insert_row _ db) as [db1|e] eqn:Ei; cbn; [|by apply evolves_refl].
  unfold create_recovery_execution_action.
  destruct (existsb _ (actions db1)); [by apply evolves_refl|]. by eapply insert_evolves.
Qed.

Create HintDb retry.
#[export] Hint Resolve update_action_evolves finalize_action_evolves create_action_evolves
  claim_op_evolves complete_op_evolves fail_op_evolves unknown_op_evolves allocate_evolves : retry.

(** One call of a program whose ledger operation is in the hint base. *)
Ltac wp_call :=
  match goal with
  | |- wp _ _ _ _ (_ ≫= _) => apply wp_bind
  | |- wp _ _ _ _ (exec_op _) => apply wp_exec_op; [solve [intros; auto with retry] | intros ?]
  | |- wp _ _ _ _ (update_action _ _ _) => apply wp_exec_op; [solve [intros; auto with retry] | intros ?]
  | |- wp _ _ _ _ (finalize_action _ _ _) => apply wp_exec_op; [solve [intros; auto with retry] | intros ?]
  | |- wp _ _ _ _ (run_op _) => apply wp_run_op; [solve [intros; auto with retry] | intros ?]
  | |- wp _ _ _ _ (get_effect _ _) => apply wp_query; intros ?
  | |- wp _ _ _ _ (query _) => apply wp_query; intros ?
  | |- wp _ _ _ _ uuid4 => apply wp_uuid4; intros ?
  | |- wp _ _ _ _ (check _ _) => apply wp_check
  | |- wp _ _ _ _ (Raise _) => exact I
  | |- wp _ _ _ _ (Ret _) => cbn [wp]
  end.
Ltac wp_split :=
  repeat first [ wp_call | progress cbv beta iota | case_goal; subst ].

Definition result_ok (key : string) (ph : phase) (r : RetryExecutionResult) : Prop :=
  (rr_dispatch_performed r = true <-> ph = Called) /\ rr_retry_attempt_key r = key.

Section CoordinatorWp.
Context (aes_encrypt : string -> string -> string -> string -> string).
Context (aes_decrypt : string -> string -> string -> string -> option string).
Context (sha256 uuid5 : string -> string).
Context (in_spec : option (string -> string -> string -> bool)).
Context (trust_validator : Adapter -> bool).
Context (adapter_factory : option (string -> option Adapter)).
Context (kek : option string).
Context (validate_int : pyval -> option Z).

Lemma load_metadata_core d run parent db :
  core (fst (load_capsule_metadata aes_encrypt aes_decrypt kek d run parent db)) = core db.
Proof. unfold load_capsule_metadata. by repeat (case_goal; subst). Qed.

Lemma wp_settle_stale run key act resp (Q : phase -> unit -> Prop) ph :
  Q ph tt -> wp run key Q ph (settle_stale run key act resp).
Proof. intros HQ. unfold settle_stale. wp_split; done. Qed.

Lemma wp_terminalize run key token act outcome resp (Q : phase -> unit -> Prop) ph :
  Q ph tt -> wp run key Q ph (terminalize run key token act outcome resp).
Proof.
  intros HQ. unfold terminalize. wp_split; try done. by apply wp_settle_stale.
Qed.

Lemma wp_not_acquired run key act code note :
  wp run key (result_ok key) Before (not_acquired run key act code note).
Proof. unfold not_acquired. wp_split. done. Qed.

Lemma wp_dispatch_and_settle run key token act parent p :
  wp run key (result_ok key) Armed (dispatch_and_settle sha256 run key token act parent p).
Proof.
  unfold dispatch_and_settle. repeat wp_call. split_and!; try done. intros o. cbn [wp].
  apply wp_bind.
  assert (Hc : wp run key (fun ph _ => ph = Called) Called (classify_outcome sha256 o)).
  { unfold classify_outcome. by repeat case_goal. }
  eapply wp_mono; [|exact Hc]. intros ph [[outcome resp] note] ->.
  apply wp_bind, wp_terminalize. wp_split. done.
Qed.

Lemma wp_prepare_and_cross run key token act decision adapter ordinal parent :
  wp run key (result_ok key) Before
    (prepare_and_cross aes_encrypt aes_decrypt sha256 in_spec trust_validator adapter_factory kek
       validate_int run key token act decision adapter ordinal parent).
Proof.
  unfold prepare_and_cross. apply wp_bind. split.
  { intros i db Hu. apply (evolves_preserves None), evolves_refl; [done|]. unfold prepare_dispatch.
    pose proof (load_metadata_core (in_draw i) run parent db) as Hl.
    destruct (load_capsule_metadata _ _ _ _ _ _ _) as [db' [m|e]]; cbn in *; by rewrite Hl. }
  intros [p|[code|]]; cbn [wp].
  - apply wp_bind. cbn [wp]. split_and!; try done.
    + apply wp_dispatch_and_settle.
    + apply wp_not_acquired.
  - do 2 wp_call. case_goal; [|apply wp_not_acquired]. wp_split. done.
  - done.
Qed.

Lemma wp_claim_and_run run key act claim decision adapter ordinal parent :
  wp run key (result_ok key) Before
    (claim_and_run aes_encrypt aes_decrypt sha256 in_spec trust_validator adapter_factory kek
       validate_int run key act claim decision adapter ordinal parent).
Proof.
  unfold claim_and_run. do 2 wp_call. case_goal; [apply wp_prepare_and_cross|]. wp_split; done.
Qed.

Lemma wp_existing run key child parent :
  wp run key (result_ok key) Before (Ret (handle_existing_child child key parent)).
Proof. done. Qed.

Lemma wp_validate_decision run key run' pk d (Q : phase -> unit -> Prop) ph :
  Q ph tt -> wp run key Q ph (validate_decision run' pk d).
Proof. intros HQ. unfold validate_decision. wp_split; done. Qed.

(** The key a coordinator works on. *)
Definition child_key_of (a : RetryArgs) : string :=
  match make_retry_side_effect_key uuid5 (ra_parent_key a) (ra_decision_id a) with
  | Ok k => k
  | Err _ => ""
  end.

Lemma wp_coordinator a :
  wp (ra_run_id a) (child_key_of a) (result_ok (child_key_of a)) Before
    (execute_authorized_retry aes_encrypt aes_decrypt sha256 uuid5 in_spec trust_validator
       adapter_factory kek validate_int a).
Proof.
  unfold execute_authorized_retry, child_key_of. cbv zeta.
  destruct (make_retry_side_effect_key _ _ _) as [key|e].
  - do 2 wp_call. case_goal; [|done]. repeat wp_call. apply wp_validate_decision.
    do 2 wp_call. case_goal; [case_goal; [apply wp_existing|]|].
    + repeat wp_call. apply wp_claim_and_run.
    + repeat wp_call. case_goal; [apply wp_claim_and_run|]. do 2 wp_call.
      case_goal; [apply wp_existing | done].
  - do 2 wp_call. case_goal; [|done]. repeat wp_call. by apply wp_validate_decision.
Qed.
End CoordinatorWp.

(** ** Ordinary starts *)

Lemma to_started_preserves run key cap db ex :
  unique db -> ex ∈ ledger db -> at_key run key ex = true ->
  ~ terminal (SideEffectLedger.status ex) -> preserves db (to_started run key cap db).
Proof.
  intros Hu Hex Hk Ht.
  exists (fun r => if at_key run key r then set_capsule cap (set_status "started" r) else r), [].
  rewrite !app_nil_r. split_and!; [done| | |exact Hu].
  - intros r Hr. destruct (at_key run key r) eqn:E; [|done]. split_and!; [done|done|].
    intros Htr. exfalso. apply Ht. apply at_key_true in E, Hk.
    assert (r = ex) as -> by (eapply (unique_key row_key); eauto; congruence). done.
  - intros r Hr. inversion Hr.
Qed.

Lemma start_tx_preserves a c now db db' i :
  unique (core db) -> start_tx a c now db = Ok (db', i) -> preserves (core db) (core db').
Proof.
  intros Hu. unfold start_tx. destruct (fetchone _ _) as [ex|] eqn:Ef.
  - apply fetchone_some in Ef as [Hex Hk]. case_match.
    + destruct (fetchone (fun x => _ && _) _); [|discriminate]. intros H0. inv_bind H0.
      injection H0 as <- <-. by apply preserves_refl.
    + intros H0. inv_bind H0. apply guard_err_ok in Ha. bool_prop.
      destruct (try_insert_capsule c _) as [t o]. inv_bind H0. injection H0 as <- <-.
      eapply to_started_preserves; eauto.
      match goal with H : _ ∉ _ |- _ => intros [Ht|[Ht|Ht]]; apply H; rewrite Ht end; set_solver.
  - destruct (try_insert_capsule c _) as [t o]. intros H0. inv_bind H0.
    destruct (insert_row _ _) as [d|] eqn:Ei; [|discriminate]. injection H0 as <- <-.
    eapply (evolves_preserves None), insert_evolves; [exact Hu|exact Ei|done|done].
Qed.

Lemma start_preserves enc dec sha uuid a kek d db :
  unique (core db) ->
  preserves (core db) (core (fst (start_side_effect_with_capsule enc dec sha uuid a kek d db))).
Proof.
  intros Hu. destruct (start_side_effect_with_capsule _ _ _ _ _ _ _ _) as [db' r] eqn:E.
  apply start_inv in E. destruct r as [i|e].
  - destruct E as (k & bytes & keys & dek & ver & id & _ & _ & _ & _ & _ & Ht).
    apply start_tx_preserves in Ht; done.
  - destruct E as [E _]. cbn. rewrite E. by apply preserves_refl.
Qed.

(** ** The invariant of the interleaved system *)

(** What is known of a worker: its effect and its phase. *)
Record ghost := mkGhost { g_run : string; g_key : string; g_phase : phase }.

Definition in_phase (run key : string) (ph : phase) (g : ghost) : bool :=
  (g_run g =? run)%string && (g_key g =? key)%string && phase_eqb (g_phase g) ph.

Definition call_of (run key : string) (c : nat * (string * string)) : bool :=
  (fst (snd c) =? run)%string && (snd (snd c) =? key)%string.

Definition worker_ok (p : prog RetryExecutionResult) (g : ghost) : Prop :=
  wp (g_run g) (g_key g) (result_ok (g_key g)) (g_phase g) p.

(** The calls are those of the workers past the boundary call, one each. *)
Definition owners (calls : list (nat * (string * string))) (gs : list ghost) : Prop :=
  forall n c, (n, c) ∈ calls <-> exists g, gs !! n = Some g /\ g_phase g = Called /\ c = (g_run g, g_key g).

Definition Inv (s : Sys) : Prop :=
  unique (core (s_db s)) /\
  exists gs, Forall2 worker_ok (s_workers s) gs /\ owners (s_calls s) gs /\
    forall run key,
      count (call_of run key) (s_calls s) = count (in_phase run key Called) gs /\
      (count (in_phase run key Armed) gs + count (in_phase run key Called) gs <= 1)%nat /\
      ((0 < count (in_phase run key Armed) gs + count (in_phase run key Called) gs)%nat ->
       crossed run key (core (s_db s))).

Lemma count_insert {A} (p : A -> bool) l n (x y : A) :
  l !! n = Some x ->
  (count p (<[n := y]> l) + (if p x then 1 else 0) = count p l + (if p y then 1 else 0))%nat.
Proof.
  revert n. induction l as [|a l IH]; intros [|n] Hn; cbn in Hn; try discriminate.
  - injection Hn as ->. change (<[0%nat := y]> (x :: l)) with (y :: l). unfold count. cbn.
    destruct (p x), (p y); cbn; lia.
  - change (<[S n := y]> (a :: l)) with (a :: <[n := y]> l). specialize (IH n Hn).
    unfold count in *. cbn. destruct (p a); cbn; lia.
Qed.

Lemma in_phase_eq run key ph g :
  in_phase run key ph g =
  (g_run g =? run)%string && (g_key g =? key)%string && phase_eqb (g_phase g) ph.
Proof. done. Qed.

Lemma count_snoc {A} (p : A -> bool) l x : count p (l ++ [x]) = (count p l + (if p x then 1 else 0))%nat.
Proof. rewrite count_app. unfold count. cbn. by destruct (p x). Qed.

Lemma Inv_initial db : unique (core db) -> Inv (initial db).
Proof.
  intros Hu. split; [done|]. exists []. split; [constructor|].
  split; [intros n c; split; [by intros ?%elem_of_nil | by intros (g & Hg & _)]|]. intros run key. cbn.
  split_and!; [done|lia|]. intros H. unfold count in H. cbn in H. lia.
Qed.

(** A step that only changes the database. *)
Lemma Inv_db s db' :
  Inv s -> preserves (core (s_db s)) (core db') -> Inv (mkSys db' (s_workers s) (s_calls s)).
Proof.
  intros (Hu & gs & Hw & Ho & Hc) Hp. split; [by eapply preserves_unique|]. exists gs.
  split; [done|]. split; [done|]. intros run key. destruct (Hc run key) as (H1 & H2 & H3). split_and!; try done.
  intros H. cbn. eapply preserves_crossed; [exact Hp | auto].
Qed.

(** The counts of calls and phases that the invariant relates. *)
Definition counts_ok (db : Db) (calls : list (nat * (string * string))) (gs : list ghost) : Prop :=
  forall run key,
    count (call_of run key) calls = count (in_phase run key Called) gs /\
    (count (in_phase run key Armed) gs + count (in_phase run key Called) gs <= 1)%nat /\
    ((0 < count (in_phase run key Armed) gs + count (in_phase run key Called) gs)%nat ->
     crossed run key db).

Lemma counts_move db db' calls gs n g ph' new :
  counts_ok db calls gs -> gs !! n = Some g -> preserves db db' ->
  (ph' = g_phase g /\ new = [] \/
   g_phase g = Before /\ ph' = Armed /\ new = [] /\
     ~ crossed (g_run g) (g_key g) db /\ crossed (g_run g) (g_key g) db' \/
   g_phase g = Armed /\ ph' = Called /\ new = [(n, (g_run g, g_key g))]) ->
  counts_ok db' (calls ++ new) (<[n := mkGhost (g_run g) (g_key g) ph']> gs).
Proof.
  intros Hc Hn Hp Hm run key. destruct (Hc run key) as (H1 & H2 & H3).
  pose proof (count_insert (in_phase run key Armed) gs n g (mkGhost (g_run g) (g_key g) ph') Hn) as Ha.
  pose proof (count_insert (in_phase run key Called) gs n g (mkGhost (g_run g) (g_key g) ph') Hn) as Hd.
  rewrite count_app. rewrite !(in_phase_eq run key) in Ha, Hd. cbn [g_run g_key g_phase] in Ha, Hd.
  destruct Hm as [[-> ->]|[(Hb & -> & -> & Hnc & Hcr)|(Hb & -> & ->)]].
  - change (count (call_of run key) []) with 0%nat. split_and!; [lia|lia|]. intros H.
    eapply preserves_crossed; [exact Hp|]. apply H3. lia.
  - rewrite Hb in Ha, Hd. change (count (call_of run key) []) with 0%nat.
    destruct ((g_run g =? run)%string && (g_key g =? key)%string) eqn:E;
      cbn [andb phase_eqb] in Ha, Hd.
    + apply andb_true_iff in E as [<-%String.eqb_eq <-%String.eqb_eq].
      assert (~ (0 < count (in_phase (g_run g) (g_key g) Armed) gs +
                     count (in_phase (g_run g) (g_key g) Called) gs)%nat) by auto.
      split_and!; [lia|lia|done].
    + split_and!; [lia|lia|]. intros H. eapply preserves_crossed; [exact Hp|]. apply H3. lia.
  - rewrite Hb in Ha, Hd. change (count (call_of run key) [(n, (g_run g, g_key g))])
      with (length (if (g_run g =? run)%string && (g_key g =? key)%string
                    then [(n, (g_run g, g_key g))] else [])).
    destruct ((g_run g =? run)%string && (g_key g =? key)%string) eqn:E;
      cbn [andb phase_eqb length] in Ha, Hd |- *.
    + split_and!; [lia|lia|]. intros _. eapply preserves_crossed; [exact Hp|]. apply H3. lia.
    + split_and!; [lia|lia|]. intros H. eapply preserves_crossed; [exact Hp|]. apply H3. lia.
Qed.

Lemma owners_move calls gs n g ph' new :
  owners calls gs -> gs !! n = Some g -> (g_phase g = Called -> ph' = Called) ->
  (ph' <> Called /\ new = [] \/ ph' = g_phase g /\ new = [] \/ ph' = Called /\ new = [(n, (g_run g, g_key g))]) ->
  owners (calls ++ new) (<[n := mkGhost (g_run g) (g_key g) ph']> gs).
Proof.
  intros Ho Hn Hph Hm m c. rewrite elem_of_app, (Ho m c). destruct (decide (m = n)) as [->|Hne].
  - rewrite list_lookup_insert_eq by (by eapply lookup_lt_Some). rewrite Hn. split.
    + intros [(g' & [= <-] & Hg & ->)|Hin]; [eexists; split; [done|]; cbn; split; [by apply Hph | done]|].
      destruct Hm as [[_ ->]|[[_ ->]|[-> ->]]]; try by apply elem_of_nil in Hin.
      apply list_elem_of_singleton in Hin as [= ->]. by eexists.
    + intros (g' & [= <-] & Hg & ->). cbn in Hg |- *. destruct Hm as [[Hx _]|[[-> ->]|[_ ->]]]; [done|left; by exists g|].
      right. by apply list_elem_of_singleton.
  - rewrite list_lookup_insert_ne by done. split; [|by left]. intros [H|Hin]; [done|].
    destruct Hm as [[_ ->]|[[_ ->]|[_ ->]]]; try by apply elem_of_nil in Hin.
    apply list_elem_of_singleton in Hin as [= -> _]. done.
Qed.

(** A mark that succeeds crosses a boundary that was not crossed. *)
Lemma mark_crosses run key token now db d :
  unique db -> mark_recovery_dispatch_attempted run key token now db = Ok (d, true) ->
  ~ crossed run key db /\ crossed run key d.
Proof.
  intros Hu. rewrite mark_spec. intros [= <- Hp].
  apply Nat.ltb_lt in Hp. destruct (proj1 (rowcount_pos (mark_target run key token now) (ledger db)))
    as (r & Hr & Hm); [lia|]. destruct (marked_key _ _ _ _ _ Hm) as [Hk Hd]. split.
  - intros (r' & t & Hr' & Hk' & Hd').
    assert (r' = r) as -> by (eapply (unique_key row_key); eauto; congruence). congruence.
  - exists (set_dispatch (Some now) r), now. split_and!; [|exact Hk|done].
    cbn. apply elem_of_update_where. exists r. by rewrite Hm.
Qed.

Lemma mark_preserves run key token now db d b :
  unique db -> mark_recovery_dispatch_attempted run key token now db = Ok (d, b) -> preserves db d.
Proof.
  intros Hu H. apply (evolves_preserves None). pose proof (exec_evolves (OMark run key token now) db Hu) as He.
  cbn [exec] in He. unfold commit in He. by rewrite H in He.
Qed.

Lemma Forall2_insert_same {A B} (P : A -> B -> Prop) l k n x g :
  Forall2 P l k -> k !! n = Some g -> P x g -> Forall2 P (<[n := x]> l) k.
Proof. intros H Hg Hx. rewrite <- (list_insert_id k n g Hg). by apply Forall2_insert. Qed.

Lemma Inv_worker s n i s' :
  Inv s ->
  s' = match s_workers s !! n with
       | Some p => let '(p', db', calls) := prog_step i p (s_db s) in
                   mkSys db' (<[n := p']> (s_workers s)) (s_calls s ++ map (pair n) calls)
       | None => s
       end -> Inv s'.
Proof.
  intros (Hu & gs & Hw & Ho & Hc) ->. destruct (s_workers s !! n) as [p|] eqn:Hn; [|by split; [|exists gs]].
  destruct (Forall2_lookup_l _ _ _ _ _ Hw Hn) as (g & Hg & Hok). unfold worker_ok in Hok.
  assert (Hmove : forall p' ph' db' new,
    wp (g_run g) (g_key g) (result_ok (g_key g)) ph' p' -> preserves (core (s_db s)) (core db') ->
    (ph' = g_phase g /\ new = [] \/
     g_phase g = Before /\ ph' = Armed /\ new = [] /\
       ~ crossed (g_run g) (g_key g) (core (s_db s)) /\ crossed (g_run g) (g_key g) (core db') \/
     g_phase g = Armed /\ ph' = Called /\ new = [(n, (g_run g, g_key g))]) ->
    Inv (mkSys db' (<[n := p']> (s_workers s)) (s_calls s ++ new))).
  { intros p' ph' db' new Hp' Hpr Hm. split; [by eapply preserves_unique|].
    exists (<[n := mkGhost (g_run g) (g_key g) ph']> gs). split; [by apply Forall2_insert|].
    split; [|by eapply counts_move]. apply owners_move; [done..| |].
    - intros Hcl. destruct Hm as [[-> _]|[(Hb & _)|(Hb & _)]]; congruence.
    - destruct Hm as [[-> ->]|[(_ & -> & -> & _)|(_ & -> & ->)]]; [by right; left | by left | by right; right]. }
  destruct p as [a|e|B f k|run key token k|run key pr k]; cbn [prog_step].
  - apply (Hmove _ (g_phase g)); [exact Hok | by apply preserves_refl | by left].
  - apply (Hmove _ (g_phase g)); [exact Hok | by apply preserves_refl | by left].
  - destruct Hok as [Hf Hk]. specialize (Hf i (s_db s) Hu).
    destruct (f i (s_db s)) as [db' x]. apply (Hmove _ (g_phase g)); [apply Hk | done | by left].
  - destruct Hok as (-> & -> & Hb & Ht & Hf).
    destruct (mark_recovery_dispatch_attempted _ _ _ _ _) as [[d b]|e] eqn:Em.
    + pose proof (mark_preserves _ _ _ _ _ _ _ Hu Em) as Hp. destruct b.
      * apply (Hmove _ Armed); [done|done|]. right. left.
        destruct (mark_crosses _ _ _ _ _ _ Hu Em). by split_and!.
      * apply (Hmove _ Before); [done|done|]. by left.
    + apply (Hmove _ (g_phase g)); [done | by apply preserves_refl | by left].
  - destruct Hok as (-> & -> & Hb & Hk). apply (Hmove _ Called); [done | by apply preserves_refl|].
    right. right. by split_and!.
Qed.

Section SystemProperties.
Context (aes_encrypt : string -> string -> string -> string -> string).
Context (aes_decrypt : string -> string -> string -> string -> option string).
Context (sha256 uuid5 : string -> string).
Context (in_spec : option (string -> string -> string -> bool)).
Context (trust_validator : Adapter -> bool).
Context (adapter_factory : option (string -> option Adapter)).
Context (kek : option string).
Context (validate_int : pyval -> option Z).

Local Abbreviation srun := (sys_run aes_encrypt aes_decrypt sha256 uuid5 in_spec trust_validator
  adapter_factory kek validate_int).
Local Abbreviation sstep := (sys_step aes_encrypt aes_decrypt sha256 uuid5 in_spec trust_validator
  adapter_factory kek validate_int).

Lemma Inv_step s e : Inv s -> Inv (sstep s e).
Proof.
  intros Hi. destruct e as [a|n i|o|a d]; cbn [sys_step].
  - destruct Hi as (Hu & gs & Hw & Ho & Hc). split; [done|].
    exists (gs ++ [mkGhost (ra_run_id a) (child_key_of uuid5 a) Before]). split_and!.
    + apply Forall2_app; [done|]. constructor; [|constructor]. apply wp_coordinator.
    + intros n c. rewrite (Ho n c). split; intros (g & Hg & Hph & ->); exists g.
      * by rewrite lookup_app_l by (by eapply lookup_lt_Some).
      * split_and!; [|done..]. apply lookup_app_Some in Hg as [Hg|[_ Hg]]; [done|].
        apply list_lookup_singleton_Some in Hg as [_ <-]. discriminate Hph.
    + intros run key. rewrite !count_snoc. rewrite !(in_phase_eq run key Armed (mkGhost _ _ _)), !(in_phase_eq run key Called (mkGhost _ _ _)).
      cbn [g_phase phase_eqb]. rewrite !andb_false_r, !Nat.add_0_r. apply Hc.
  - by eapply Inv_worker.
  - apply Inv_db; [done|]. eapply evolves_preserves, exec_evolves. by destruct Hi.
  - apply Inv_db; [done|]. apply start_preserves. by destruct Hi.
Qed.

Lemma Inv_run es s : Inv s -> Inv (srun es s).
Proof. revert s. induction es as [|e es IH]; intros s Hi; [done|]. by apply IH, Inv_step. Qed.

Lemma sstep_preserves s e : Inv s -> preserves (core (s_db s)) (core (s_db (sstep s e))).
Proof.
  intros (Hu & gs & Hw & _ & _). destruct e as [a|n i|o|a d]; cbn [sys_step s_db].
  - by apply preserves_refl.
  - destruct (s_workers s !! n) as [p|] eqn:Hn; [|by apply preserves_refl].
    destruct (Forall2_lookup_l _ _ _ _ _ Hw Hn) as (g & _ & Hok). unfold worker_ok in Hok.
    destruct p as [a|e|B f k|run key token k|run key pr k]; cbn [prog_step];
      try by apply preserves_refl.
    + destruct Hok as [Hf _]. specialize (Hf i (s_db s) Hu). by destruct (f i (s_db s)).
    + destruct (mark_recovery_dispatch_attempted _ _ _ _ _) as [[d b]|e] eqn:Em;
        [by eapply mark_preserves | by apply preserves_refl].
  - by eapply evolves_preserves, exec_evolves.
  - by apply start_preserves.
Qed.

(** C22: Whatever the interleaving of any number of coordinators - for the same
    authorization or for others, some of them crashing between any two calls -
    with ledger operations and ordinary starts, the adapter is called at most
    once for a retry attempt; the durable dispatch marker is set whenever the
    call was made; and a coordinator that returns reports having dispatched
    exactly when it made the call itself, for the attempt it names and for no
    other. *)
Theorem retry_dispatched_once db es :
  unique (core db) ->
  let s := srun es (initial db) in
  (forall run key, (count (call_of run key) (s_calls s) <= 1)%nat) /\
  (forall n run key, (n, (run, key)) ∈ s_calls s -> crossed run key (core (s_db s))) /\
  (forall n r, s_workers s !! n = Some (Ret r) ->
     (rr_dispatch_performed r = true <-> exists c, (n, c) ∈ s_calls s) /\
     (forall c, (n, c) ∈ s_calls s -> snd c = rr_retry_attempt_key r)).
Proof.
  intros Hu s. destruct (Inv_run es (initial db) (Inv_initial db Hu)) as (_ & gs & Hw & Ho & Hc).
  fold s in Hw, Ho, Hc. split_and!.
  - intros run key. destruct (Hc run key) as (H1 & H2 & _). lia.
  - intros n run key Hin. destruct (Hc run key) as (H1 & _ & H3). apply H3.
    assert (count (call_of run key) (s_calls s) <> 0%nat); [|lia].
    intros H0. rewrite count_zero in H0. specialize (H0 _ Hin). unfold call_of in H0. cbn in H0.
    by rewrite !String.eqb_refl in H0.
  - intros n r Hn. destruct (Forall2_lookup_l _ _ _ _ _ Hw Hn) as (g & Hg & Hok & Hk). split.
    + rewrite Hok. split.
      * intros Hd. exists (g_run g, g_key g). apply Ho. by exists g.
      * intros (c & (g' & Hg' & Hd & _)%Ho). congruence.
    + intros c (g' & Hg' & _ & ->)%Ho. cbn. congruence.
Qed.

(** An authorized parent never changes again: a row that is completed,
    failed or retry_authorized is the same, in every column, after any
    interleaving of coordinators, ledger operations and starts. *)
Theorem retry_parent_immutable db es r :
  unique (core db) -> r ∈ ledger (core db) -> terminal (SideEffectLedger.status r) ->
  r ∈ ledger (core (s_db (srun es (initial db)))).
Proof.
  intros Hu Hr Ht. change (core db) with (core (s_db (initial db))) in Hr.
  assert (Hi : Inv (initial db)) by (by apply Inv_initial).
  revert Hi Hr. generalize (initial db) as s. induction es as [|e es IH]; intros s Hi Hr; [done|].
  apply IH; [by apply Inv_step|].
  destruct (preserves_row _ _ _ (sstep_preserves s e Hi) Hr) as (r' & Hr' & _ & _ & He).
  by rewrite He in Hr'.
Qed.

(** The program under interference: before each call the database is whatever
    the others have made of it. *)
Fixpoint drive (steps : list (Inputs * CDb)) (p : prog RetryExecutionResult)
  : prog RetryExecutionResult * list (string * string) :=
  match steps with
  | [] => (p, [])
  | (i, db) :: rest =>
      let '(p', _, calls) := prog_step i p db in
      let '(p'', calls') := drive rest p' in
      (p'', calls ++ calls')
  end.

Lemma drive_calls run key ph p steps r calls :
  wp run key (result_ok key) ph p -> drive steps p = (Ret r, calls) ->
  rr_retry_attempt_key r = key /\
  (rr_dispatch_performed r = true <-> calls = [(run, key)] \/ ph = Called) /\
  (calls = [] \/ calls = [(run, key)]) /\ (ph = Called -> calls = []).
Proof.
  revert ph p calls. induction steps as [|[i db] steps IH]; intros ph p calls Hp Hd.
  - cbn in Hd. injection Hd as -> <-. destruct Hp as [H1 H2]. split_and!; [done| |by left|done].
    rewrite H1. split; [by right | by intros [|]].
  - cbn [drive] in Hd. destruct p as [a|e|B f k|run' key' token k|run' key' pr k]; cbn [prog_step] in Hd.
    + destruct (drive steps (Ret a)) as [p'' c] eqn:E. injection Hd as -> <-.
      by apply (IH ph (Ret a)).
    + destruct (drive steps (Raise e)) as [p'' c] eqn:E. injection Hd as -> <-.
      by apply (IH ph (Raise e)).
    + destruct Hp as [_ Hk]. destruct (f i db) as [db' x].
      destruct (drive steps (k x)) as [p'' c] eqn:E. injection Hd as -> <-. by apply (IH ph (k x)).
    + destruct Hp as (-> & -> & -> & Ht & Hf).
      destruct (mark_recovery_dispatch_attempted _ _ _ _ _) as [[d b]|e].
      * destruct (drive steps (k b)) as [p'' c] eqn:E. injection Hd as -> <-. destruct b.
        -- destruct (IH Armed (k true) _ Ht E) as (H1 & H2 & H3 & _). split_and!; try done.
           rewrite H2. split; (intros [Hc|Hc]; [by left | discriminate Hc]).
        -- by apply (IH Before (k false)).
      * destruct (drive steps (Raise (LedgerRaised e))) as [p'' c] eqn:E. injection Hd as -> <-.
        by apply (IH Before (Raise (LedgerRaised e))).
    + destruct Hp as (-> & -> & -> & Hk).
      destruct (drive steps (k (in_outcome i))) as [p'' c] eqn:E. injection Hd as -> <-.
      destruct (IH Called _ _ (Hk _) E) as (H1 & H2 & _ & H4). rewrite (H4 eq_refl) in *.
      split_and!; [done| |by right|done]. rewrite H2. split; auto.
Qed.

Local Abbreviation coordinator := (execute_authorized_retry aes_encrypt aes_decrypt sha256 uuid5
  in_spec trust_validator adapter_factory kek validate_int).

(** The result a coordinator returns is truthful whatever others do to
    the database between its calls: it names the attempt derived from the
    parent and the decision, and it says that a dispatch was performed exactly
    when this coordinator called the adapter, once. *)
Theorem retry_result_truthful a steps r calls :
  drive steps (coordinator a) = (Ret r, calls) ->
  rr_retry_attempt_key r = child_key_of uuid5 a /\
  (rr_dispatch_performed r = true -> calls = [(ra_run_id a, child_key_of uuid5 a)]) /\
  (rr_dispatch_performed r = false -> calls = []).
Proof.
  intros Hd. destruct (drive_calls _ _ _ _ _ _ _
    (wp_coordinator aes_encrypt aes_decrypt sha256 uuid5 in_spec trust_validator adapter_factory
       kek validate_int a) Hd) as (H1 & H2 & H3 & _).
  split_and!; [done| |].
  - intros Hp. apply H2 in Hp as [|]; done.
  - intros Hp. destruct H3 as [|H3]; [done|].
    assert (rr_dispatch_performed r = true) by (apply H2; auto). congruence.
Qed.

(** ** Termination *)

(** The program makes at most [n] calls. *)
Fixpoint bounded {A} (n : nat) (p : prog A) {struct p} : Prop :=
  match p with
  | Ret _ | Raise _ => True
  | DbCall f k => match n with O => False | S n => forall x, bounded n (k x) end
  | MarkCall _ _ _ k => match n with O => False | S n => forall x, bounded n (k x) end
  | DispatchCall _ _ _ k => match n with O => False | S n => forall x, bounded n (k x) end
  end.

Definition finished {A} (p : prog A) : bool :=
  match p with Ret _ | Raise _ => true | _ => false end.

Lemma bounded_mono {A} n m (p : prog A) : (n <= m)%nat -> bounded n p -> bounded m p.
Proof.
  revert n m. induction p as [a|e|B f k IH|r k t kk IH|r k pr kk IH]; intros n m Hle; cbn; try done;
    (destruct n as [|n]; [done|]; destruct m as [|m]; [lia|]; intros H x;
     apply (IH x n); [lia | apply H]).
Qed.

(** [n] calls, then at most [m]. *)
Lemma bounded_bind {A B} n m (p : prog A) (f : A -> prog B) :
  bounded n p -> (forall a, bounded m (f a)) -> bounded (n + m) (p ≫= f).
Proof.
  intros Hp Hf. revert n Hp. induction p as [a|e|C g k IH|r k t kk IH|r k pr kk IH]; intros n; cbn;
    try done; try (destruct n as [|n]; [done|]; intros H x; apply IH, H).
  intros _. apply (bounded_mono m); [lia | apply Hf].
Qed.

Lemma bounded_call {A B} m (p : prog A) (f : A -> prog B) :
  bounded 1 p -> (forall a, bounded m (f a)) -> bounded (S m) (p ≫= f).
Proof. apply (bounded_bind 1 m). Qed.

Lemma bounded_free {A B} m (p : prog A) (f : A -> prog B) :
  bounded 0 p -> (forall a, bounded m (f a)) -> bounded m (p ≫= f).
Proof. apply (bounded_bind 0 m). Qed.

Lemma bounded_exec_op {A} (o : Inputs -> op A) : bounded 1 (exec_op o).
Proof. intros [a|e]; done. Qed.
Lemma bounded_run_op {A} (o : Inputs -> op A) : bounded 1 (run_op o).
Proof. exact (fun _ => I). Qed.
Lemma bounded_query {A} (f : CDb -> A) : bounded 1 (query f).
Proof. exact (fun _ => I). Qed.
Lemma bounded_check b code : bounded 0 (check b code).
Proof. by destruct b. Qed.

(** Count the calls of a program written with binds. *)
Ltac bound_step :=
  match goal with
  | |- bounded _ (Ret _) => exact I
  | |- bounded _ (Raise _) => exact I
  | |- bounded _ (check _ _ ≫= _) => apply bounded_free; [apply bounded_check | intros ?]
  | |- bounded _ (exec_op _ ≫= _) => apply bounded_call; [apply bounded_exec_op | intros ?]
  | |- bounded _ (update_action _ _ _ ≫= _) => apply bounded_call; [apply bounded_exec_op | intros ?]
  | |- bounded _ (finalize_action _ _ _ ≫= _) => apply bounded_call; [apply bounded_exec_op | intros ?]
  | |- bounded _ (run_op _ ≫= _) => apply bounded_call; [apply bounded_run_op | intros ?]
  | |- bounded _ (query _ ≫= _) => apply bounded_call; [apply bounded_query | intros ?]
  | |- bounded _ (get_effect _ _ ≫= _) => apply bounded_call; [apply bounded_query | intros ?]
  | |- bounded _ (uuid4 ≫= _) => apply bounded_call; [exact (fun _ => I) | intros ?]
  | |- bounded _ (check _ _) => eapply bounded_mono; [|apply bounded_check]; lia
  | |- bounded _ (match ?x with _ => _ end) => destruct x
  end.

Lemma bounded_settle_stale run key act resp : bounded 2 (settle_stale run key act resp).
Proof. unfold settle_stale. repeat bound_step. Qed.

Lemma bounded_terminalize run key token act outcome resp :
  bounded 3 (terminalize run key token act outcome resp).
Proof.
  unfold terminalize. destruct (outcome =? "completed")%string.
  - do 2 bound_step; [repeat bound_step | apply bounded_settle_stale].
  - destruct (outcome =? "failed")%string; [repeat bound_step|]. bound_step.
    apply (bounded_bind 1 1); [repeat bound_step | intros ?; repeat bound_step].
Qed.

Lemma bounded_not_acquired run key act code note : bounded 2 (not_acquired run key act code note).
Proof. unfold not_acquired. repeat bound_step. Qed.

Lemma bounded_dispatch run key token act parent p :
  bounded 6 (dispatch_and_settle sha256 run key token act parent p).
Proof.
  unfold dispatch_and_settle. bound_step. apply bounded_call; [exact (fun _ => I)|]. intros o.
  apply bounded_free.
  - unfold classify_outcome. by repeat case_goal.
  - intros [[outcome resp] note]. apply (bounded_bind 3 1); [apply bounded_terminalize|].
    intros ?. repeat bound_step.
Qed.

Lemma bounded_prepare run key token act decision adapter ordinal parent :
  bounded 8 (prepare_and_cross aes_encrypt aes_decrypt sha256 in_spec trust_validator
    adapter_factory kek validate_int run key token act decision adapter ordinal parent).
Proof.
  unfold prepare_and_cross. apply bounded_call; [exact (fun _ => I)|]. intros [p|[code|]].
  - apply bounded_call; [exact (fun _ => I)|]. intros [|]; [apply bounded_dispatch|].
    eapply bounded_mono; [|apply bounded_not_acquired]; lia.
  - do 2 bound_step; [repeat bound_step|]. eapply bounded_mono; [|apply bounded_not_acquired]; lia.
  - done.
Qed.

Lemma bounded_claim run key act claim decision adapter ordinal parent :
  bounded 9 (claim_and_run aes_encrypt aes_decrypt sha256 in_spec trust_validator
    adapter_factory kek validate_int run key act claim decision adapter ordinal parent).
Proof.
  unfold claim_and_run. bound_step. bound_step; [apply bounded_prepare | repeat bound_step].
Qed.

Lemma bounded_validate run pk d : bounded 1 (validate_decision run pk d).
Proof. unfold validate_decision. repeat bound_step. Qed.

Lemma bounded_coordinator a : bounded 15 (coordinator a).
Proof.
  unfold execute_authorized_retry. do 2 bound_step; [|done]. do 2 bound_step.
  apply (bounded_bind 1 13); [apply bounded_validate|]. intros _. bound_step; [|done].
  do 2 bound_step; [bound_step; [repeat bound_step|]|].
  - do 3 bound_step. apply bounded_claim.
  - do 4 bound_step; [apply bounded_claim | repeat bound_step].
Qed.

Lemma drive_finished n p steps :
  bounded n p -> (n <= length steps)%nat -> finished (fst (drive steps p)) = true.
Proof.
  revert n p. induction steps as [|[i db] steps IH]; intros n p Hb Hl.
  - cbn in Hl. assert (n = 0%nat) as -> by lia. by destruct p.
  - cbn [drive]. cbn [length] in Hl.
    assert (Hgo : forall p' calls, bounded (pred n) p' ->
      finished (fst (let '(p'', c) := drive steps p' in (p'', calls ++ c))) = true).
    { intros p' calls Hp'. specialize (IH (pred n) p' Hp' ltac:(lia)).
      by destruct (drive steps p'). }
    destruct p as [r|e|B f k|run key t k|run key pr k]; cbn [prog_step].
    + by apply Hgo.
    + by apply Hgo.
    + destruct n as [|n]; [done|]. destruct (f i db) as [db' x]. apply Hgo, Hb.
    + destruct n as [|n]; [done|].
      destruct (mark_recovery_dispatch_attempted _ _ _ _ _) as [[d b]|e]; apply Hgo; [apply Hb | done].
    + destruct n as [|n]; [done|]. apply Hgo, Hb.
Qed.

(** a coordinator returns or raises after at most fifteen calls, the
    adapter's included, whatever it finds in the database. *)
Theorem retry_terminates a steps :
  (15 <= length steps)%nat -> finished (fst (drive steps (coordinator a))) = true.
Proof. apply drive_finished, bounded_coordinator. Qed.
End SystemProperties.

(** ** One retry on its own *)

(** The database once the child and its action are allocated: the last row of
    each table is the retry's. *)
Definition staged (db : Db) (c : Row) (a : ExecutionAction) : Db :=
  mkDb (ledger db ++ [c]) (decisions db) (actions db ++ [a]) (events db) (revisions db).

Record fresh_retry (db : Db) (run ck act decision : string) : Prop := mkFreshRetry {
  fresh_key : forall r, r ∈ ledger db -> row_key r <> (run, ck);
  fresh_decision : forall r, r ∈ ledger db -> run_id r = run ->
    SideEffectLedger.recovery_decision_id r <> Some decision;
  fresh_action : forall a, a ∈ actions db -> action_id a <> act;
}.

Lemma existsb_all_false {A} (p : A -> bool) l :
  (forall x, x ∈ l -> p x = false) -> existsb p l = false.
Proof.
  intros H. destruct (existsb p l) eqn:E; [|done]. apply existsb_elem in E as (x & Hx & Hp).
  by rewrite H in Hp.
Qed.

Lemma update_where_last {R} (p : R -> bool) f (l : list R) x :
  (forall y, y ∈ l -> p y = false) -> p x = true ->
  update_where p f (l ++ [x]) = l ++ [f x] /\ rowcount p (l ++ [x]) = 1%nat.
Proof.
  intros Hl Hx. unfold update_where, rowcount. rewrite map_app, count_snoc. cbn. rewrite Hx. split.
  - f_equal. rewrite <- (map_id l) at 2. apply map_ext_in. intros y Hy.
    apply list_elem_of_In in Hy. by rewrite Hl.
  - by rewrite (proj2 (count_zero p l) Hl).
Qed.

Section Alone.
Context (db : Db) (run ck act decision : string).
Context (fresh : fresh_retry db run ck act decision).

Lemma at_key_old r : r ∈ ledger db -> at_key run ck r = false.
Proof.
  intros Hr. destruct (at_key run ck r) eqn:E; [|done]. apply at_key_true in E.
  by destruct (fresh_key _ _ _ _ _ fresh r Hr).
Qed.

Lemma staged_get c a : row_key c = (run, ck) -> get_side_effect_by_key run ck (staged db c a) = Some c.
Proof.
  intros [= Hr Hk]. unfold get_side_effect_by_key, get_side_effects, select. cbn [ledger staged].
  rewrite List.filter_app.
  change (List.find ?p ?l) with (fetchone p l). rewrite fetchone_app.
  assert (fetchone (fun r => (idempotency_key r =? ck)%string)
            (List.filter (fun r => (run_id r =? run)%string) (ledger db)) = None) as ->.
  { apply fetchone_none. intros r Hin.
    apply elem_of_lfilter in Hin as [Hp Hin]. pose proof (at_key_old r Hin) as H. unfold at_key in H.
    by rewrite Hp in H. }
  cbn [List.filter]. rewrite Hr, String.eqb_refl. unfold fetchone. cbn [List.find].
  by rewrite Hk, String.eqb_refl.
Qed.

Lemma staged_cas p f c a :
  (forall r, p r = true -> at_key run ck r = true) -> p c = true ->
  cas p f (staged db c a) = Ok (staged db (f c) a, true).
Proof.
  intros Hp Hc. unfold cas. cbn [ledger staged].
  destruct (update_where_last p f (ledger db) c) as [-> ->]; [|done|done].
  intros r Hr. destruct (p r) eqn:E; [|done]. apply Hp in E. by rewrite at_key_old in E.
Qed.

Lemma staged_actions p f c a :
  (forall x, p x = true -> action_id x = act) -> p a = true ->
  update_where p f (actions (staged db c a)) = actions db ++ [f a] /\
  rowcount p (actions (staged db c a)) = 1%nat.
Proof.
  intros Hp Ha. apply update_where_last; [|done]. intros x Hx. destruct (p x) eqn:E; [|done].
  apply Hp in E. by destruct (fresh_action _ _ _ _ _ fresh x Hx).
Qed.

Lemma staged_update st oc cl now c a :
  action_id a = act ->
  update_recovery_execution_status act st oc cl now (staged db c a) =
  Ok (staged db c (set_action st (coalesce cl (act_claim_id a))
        (if mem st ["claimed"; "dispatch_started"]
         then coalesce (started_at a) (Some now) else started_at a)
        (if mem st terminal_outcomes then Some now else finished_at a)
        (coalesce oc (outcome_code a)) a), true).
Proof.
  intros Ha. unfold update_recovery_execution_status.
  destruct (staged_actions (fun x => (action_id x =? act)%string)
    (fun a => set_action st (coalesce cl (act_claim_id a))
       (if mem st ["claimed"; "dispatch_started"]
        then coalesce (started_at a) (Some now) else started_at a)
       (if mem st terminal_outcomes then Some now else finished_at a)
       (coalesce oc (outcome_code a)) a) c a) as [-> ->]; [..|done].
  - intros x. apply String.eqb_eq.
  - by apply String.eqb_eq.
Qed.

Lemma staged_finalize outcome code now c a :
  action_id a = act -> mem outcome terminal_outcomes = true ->
  finalize_recovery_execution_action act outcome code now (staged db c a) =
  Ok (staged db c (set_action outcome (act_claim_id a) (started_at a) (Some now)
                     (coalesce code (outcome_code a)) a), true).
Proof.
  intros Ha Ho. unfold finalize_recovery_execution_action. rewrite Ho. cbn [guard_err mbind res_bind].
  destruct (staged_actions (fun x => (action_id x =? act)%string)
    (fun a => set_action outcome (act_claim_id a) (started_at a) (Some now)
       (coalesce code (outcome_code a)) a) c a) as [-> ->]; [..|done].
  - intros x. apply String.eqb_eq.
  - by apply String.eqb_eq.
Qed.

Definition fresh_action_row (operator : option string) (claim meta : string) : ExecutionAction :=
  mkAction act operator run ck "created" (Some claim) None None None meta.

Lemma allocate_staged pk root ord parent operator claim meta now :
  allocate_child_and_action run ck pk root ord decision parent act operator claim meta now db =
  Ok (staged db (child_row run ck pk root ord decision parent now db)
        (fresh_action_row operator claim meta), tt).
Proof.
  unfold allocate_child_and_action, insert_row. cbn [run_id idempotency_key child_row SideEffectLedger.recovery_decision_id].
  rewrite (existsb_all_false (at_key run ck)) by apply at_key_old.
  rewrite existsb_all_false.
  - cbn [orb mbind res_bind]. unfold create_recovery_execution_action. cbn [actions with_ledger].
    rewrite existsb_all_false; [done|]. intros a Ha. apply String.eqb_neq.
    by apply (fresh_action _ _ _ _ _ fresh).
  - intros r Hr. destruct (String.eqb_spec (run_id r) run) as [Hrun|]; [|done]. cbn.
    destruct (SideEffectLedger.recovery_decision_id r) as [d|] eqn:Ed; [|done]. cbn.
    apply String.eqb_neq. intros ->. by apply (fresh_decision _ _ _ _ _ fresh r Hr Hrun).
Qed.

Lemma claim_staged c operator claim meta now nl :
  row_key c = (run, ck) -> SideEffectLedger.status c = "planned" ->
  not_null (SideEffectLedger.parent_side_effect_key c) = true -> claim <> "" -> act <> "" ->
  claim_recovery_attempt run ck claim act now nl (staged db c (fresh_action_row operator claim meta)) =
  Ok (staged db (set_claim (Some claim) (Some now) (Some (nl + lease)) (set_status "started" c))
        (set_action "claimed" (Some claim) (Some now) None None (fresh_action_row operator claim meta)),
      claim).
Proof.
  intros Hk Hs Hp Hcl Ha. unfold claim_recovery_attempt.
  assert (str_truthy claim = true) as -> by (by apply negb_true_iff, String.eqb_neq).
  assert (str_truthy act = true) as -> by (by apply negb_true_iff, String.eqb_neq).
  cbn [guard_err mbind res_bind]. cbn [ledger staged].
  set (p := fun r => at_key run ck r && _ && _).
  destruct (update_where_last p (fun r => set_claim (Some claim) (Some now) (Some (nl + lease))
              (set_status "started" r)) (ledger db) c) as [-> ->].
  { intros r Hr. unfold p. by rewrite at_key_old. }
  { unfold p. rewrite (proj2 (at_key_true run ck c) Hk), Hs, Hp. done. }
  cbn [Nat.eqb].
  set (q := fun a => (action_id a =? act)%string && _ && _ && _ && _).
  change (actions (with_ledger _ _)) with (actions (staged db c (fresh_action_row operator claim meta))).
  destruct (staged_actions q (fun a => set_action "claimed" (Some claim)
    (coalesce (started_at a) (Some now)) (finished_at a) (outcome_code a) a) c
    (fresh_action_row operator claim meta)) as [-> ->].
  { intros x. unfold q. intros H. by bool_prop. }
  { unfold q. cbn. by rewrite !String.eqb_refl. }
  done.
Qed.
End Alone.

(** A program that runs to its result with exactly these inputs. *)
Inductive runs {A} : list Inputs -> prog A -> CDb -> A -> CDb -> list (string * string) -> Prop :=
| runs_ret a db : runs [] (Ret a) db a db []
| runs_db B (f : Inputs -> CDb -> CDb * B) k i ins db db1 x a db2 calls :
    f i db = (db1, x) -> runs ins (k x) db1 a db2 calls ->
    runs (i :: ins) (DbCall f k) db a db2 calls
| runs_mark run key token k i ins db d b a db2 calls :
    mark_recovery_dispatch_attempted run key token (in_now i) (core db) = Ok (d, b) ->
    runs ins (k b) (with_core d db) a db2 calls ->
    runs (i :: ins) (MarkCall run key token k) db a db2 calls
| runs_dispatch run key p k i ins db a db2 calls :
    runs ins (k (in_outcome i)) db a db2 calls ->
    runs (i :: ins) (DispatchCall run key p k) db a db2 ((run, key) :: calls).

Lemma runs_bind {A B} ins ins' (m : prog A) (f : A -> prog B) db a db1 c1 b db2 c2 :
  runs ins m db a db1 c1 -> runs ins' (f a) db1 b db2 c2 ->
  runs (ins ++ ins') (m ≫= f) db b db2 (c1 ++ c2).
Proof.
  intros H1 H2. induction H1 as [a db|C g k i ins db db1 x a db3 calls Hf _ IH
    |run key token k i ins db d bb a db3 calls Hm _ IH|run key p k i ins db a db3 calls _ IH].
  - exact H2.
  - cbn. eapply runs_db; [exact Hf | by apply IH].
  - cbn. eapply runs_mark; [exact Hm | by apply IH].
  - cbn. apply runs_dispatch. by apply IH.
Qed.

Lemma runs_step {A B} i ins (m : prog A) (f : A -> prog B) db a db1 b db2 c :
  runs [i] m db a db1 [] -> runs ins (f a) db1 b db2 c -> runs (i :: ins) (m ≫= f) db b db2 c.
Proof. apply (runs_bind [i] ins m f db a db1 [] b db2 c). Qed.

Lemma runs_free {A B} ins (m : prog A) (f : A -> prog B) db a b db2 c :
  runs [] m db a db [] -> runs ins (f a) db b db2 c -> runs ins (m ≫= f) db b db2 c.
Proof. apply (runs_bind [] ins m f db a db [] b db2 c). Qed.

Lemma runs_query {A} (f : CDb -> A) i db : runs [i] (query f) db (f db) db [].
Proof. eapply runs_db; [done | apply runs_ret]. Qed.

Lemma runs_run_op {A} (o : Inputs -> op A) i db d a :
  o i (core db) = Ok (d, a) -> runs [i] (run_op o) db (Ok a) (with_core d db) [].
Proof. intros H. eapply runs_db; [by rewrite H | apply runs_ret]. Qed.

Lemma runs_exec_op {A} (o : Inputs -> op A) i db d a :
  o i (core db) = Ok (d, a) -> runs [i] (exec_op o) db a (with_core d db) [].
Proof. intros H. eapply runs_db; [by rewrite H | apply runs_ret]. Qed.

Lemma runs_check code db : runs [] (check true code) db tt db [].
Proof. apply runs_ret. Qed.

(** Inputs left over change nothing. *)
Lemma runs_alone ins more p db r db' calls :
  runs ins p db r db' calls -> run_alone (ins ++ more) p db = (Ret r, db', calls).
Proof.
  intros H. induction H as [a db|C g k i ins db db1 x a db3 calls Hf _ IH
    |run key token k i ins db d bb a db3 calls Hm _ IH|run key p k i ins db a db3 calls _ IH];
    cbn [app run_alone prog_step].
  - induction more as [|i more IH]; [done|]. cbn [app run_alone prog_step] in *. by rewrite IH.
  - by rewrite Hf, IH.
  - by rewrite Hm, IH.
  - by rewrite IH.
Qed.

Section AloneRuns.
Context (aes_encrypt : string -> string -> string -> string -> string).
Context (aes_decrypt : string -> string -> string -> string -> option string).
Context (sha256 uuid5 : string -> string).
Context (in_spec : option (string -> string -> string -> bool)).
Context (trust_validator : Adapter -> bool).
Context (adapter_factory : option (string -> option Adapter)).
Context (kek : option string).
Context (validate_int : pyval -> option Z).

Local Abbreviation coordinator := (execute_authorized_retry aes_encrypt aes_decrypt sha256 uuid5
  in_spec trust_validator adapter_factory kek validate_int).
Local Abbreviation prepare := (prepare_dispatch aes_encrypt aes_decrypt sha256 in_spec
  trust_validator adapter_factory kek validate_int).

(** What the checks of steps 1 and 2 ask of the parent and the decision. *)
Record eligible (db : Db) (run pk decision : string) (parent : Row) : Prop := mkEligible {
  el_parent : get_side_effect_by_key run pk db = Some parent;
  el_status : SideEffectLedger.status parent = "retry_authorized";
  el_capsule : capsule_status parent = "available";
  el_decision : exists d, fetchone (fun d => (decision_id d =? decision)%string) (decisions db) = Some d /\
    rd_run_id d = run /\ rd_key d = pk /\ rd_decision d = "safe_to_retry" /\
    rd_prior_status d = "unknown" /\ rd_retention_status d = "active";
}.

Lemma runs_validate run pk decision parent i db :
  eligible (core db) run pk decision parent ->
  runs [i] (validate_decision run pk decision) db tt db [].
Proof.
  intros [_ _ _ (d & Hd & H1 & H2 & H3 & H4 & H5)]. unfold validate_decision.
  eapply runs_step; [apply runs_query|]. cbn beta. rewrite Hd, H1, H2, H3, H4, H5, !String.eqb_refl.
  do 4 (eapply runs_free; [apply runs_check|]). apply runs_check.
Qed.

(** How an adapter outcome settles the child and the action. *)
Definition settlement (o : adapter_outcome)
  : option (string * option string * option result_note * string) :=
  match o with
  | Returned rs =>
      match compute_response_hash sha256 rs with
      | Some h => Some ("completed", Some h, None, "adapter_confirmed_completion")
      | None => None
      end
  | RaisedGuard => Some ("failed", None, Some GuardRejected, "adapter_confirmed_no_effect")
  | RaisedNoEffect => Some ("failed", None, Some ConfirmedNoEffect, "adapter_confirmed_no_effect")
  | RaisedTimeout => Some ("unknown", None, Some AdapterTimeout, "post_boundary_uncertain")
  | RaisedConnection => Some ("unknown", None, Some TransportError, "post_boundary_uncertain")
  | RaisedOther => Some ("unknown", None, Some AdapterError, "post_boundary_uncertain")
  end.

Section Settle.
Context (db : Db) (run ck act decision : string).
Context (fresh : fresh_retry db run ck act decision).

(** The child's row and the action as the retry leaves them. *)
Record settled (pk st code : string) (resp : option string) (marked ord : Z)
  (c : Row) (a : ExecutionAction) : Prop := mkSettled {
  se_key : row_key c = (run, ck);
  se_status : SideEffectLedger.status c = st;
  se_dispatch : dispatch_attempted_at c = Some marked;
  se_response : response_hash c = resp;
  se_parent : SideEffectLedger.parent_side_effect_key c = Some pk;
  se_ordinal : SideEffectLedger.retry_ordinal c = ord;
  se_action : action_id a = act;
  se_action_status : execution_status a = st;
  se_code : outcome_code a = Some code;
  se_finished : not_null (finished_at a) = true;
}.

(** The child between the mark and the settlement. *)
Record dispatched (pk token : string) (marked ord : Z) (c : Row) (a : ExecutionAction) : Prop := mkDispatched {
  di_key : row_key c = (run, ck);
  di_status : SideEffectLedger.status c = "started";
  di_claim : SideEffectLedger.execution_claim_id c = Some token;
  di_dispatch : dispatch_attempted_at c = Some marked;
  di_response : response_hash c = None;
  di_parent : SideEffectLedger.parent_side_effect_key c = Some pk;
  di_ordinal : SideEffectLedger.retry_ordinal c = ord;
  di_action : action_id a = act;
  di_code : outcome_code a = None;
}.

Lemma dispatched_held pk token marked ord c a :
  dispatched pk token marked ord c a -> held_by run ck token c = true.
Proof.
  intros [Hk Hs Hc _ _ _ _ _ _]. unfold held_by.
  rewrite (proj2 (at_key_true run ck c) Hk), Hs, Hc. cbn. by rewrite String.eqb_refl.
Qed.

Lemma held_at_key token r : held_by run ck token r = true -> at_key run ck r = true.
Proof. unfold held_by. by intros [[H _]%andb_true_iff _]%andb_true_iff. Qed.

Lemma runs_terminalize pk token marked ord c a cdb o st resp note code j1 j2 j3 :
  core cdb = staged db c a -> dispatched pk token marked ord c a ->
  settlement o = Some (st, resp, note, code) ->
  exists ins c' a', ins = (if (st =? "unknown")%string then [j1; j2; j3] else [j1; j2]) /\
    settled pk st code resp marked ord c' a' /\
    runs ins (terminalize run ck token act st resp) cdb tt (with_core (staged db c' a') cdb) [].
Proof.
  intros Hc Hd Ho. pose proof (dispatched_held _ _ _ _ _ _ Hd) as Hh.
  destruct Hd as [Hk Hs Hcl Hda Hre Hpa Hor Hact Hco].
  assert (Hcas : forall f, cas (held_by run ck token) f (core cdb) = Ok (staged db (f c) a, true)).
  { intros f. rewrite Hc. eapply staged_cas; eauto using held_at_key. }
  assert (Hfin : forall i d c1 outcome code', core d = staged db c1 a ->
    mem outcome terminal_outcomes = true ->
    runs [i] (finalize_action act outcome code') d true
      (with_core (staged db c1 (set_action outcome (act_claim_id a) (started_at a)
        (Some (in_now i)) (Some code') a)) d) []).
  { intros i d c1 outcome code' Hd Hm. apply runs_exec_op. rewrite Hd.
    by eapply staged_finalize. }
  assert (Hcases : st = "completed" /\ code = "adapter_confirmed_completion" \/
    st = "failed" /\ resp = None /\ code = "adapter_confirmed_no_effect" \/
    st = "unknown" /\ resp = None /\ code = "post_boundary_uncertain").
  { destruct o as [rs| | | | |]; cbn in Ho; [|injection Ho as <- <- <- <-; tauto..].
    destruct (compute_response_hash sha256 rs); [|discriminate]. injection Ho as <- <- <- <-. tauto. }
  unfold terminalize.
  destruct Hcases as [[-> ->]|[(-> & -> & ->)|(-> & -> & ->)]]; cbn [String.eqb Ascii.eqb Bool.eqb].
  - eexists _, _, _. split; [reflexivity|]. split; cycle 1.
    + eapply runs_step; [apply runs_exec_op, Hcas|]. cbn beta iota.
      eapply runs_step; [eapply Hfin; reflexivity|]. apply runs_ret.
    + by constructor; cbn; rewrite ?Hre; destruct resp.
  - eexists _, _, _. split; [reflexivity|]. split; cycle 1.
    + eapply runs_step; [apply runs_exec_op, Hcas|]. cbn beta iota.
      eapply runs_step; [eapply Hfin; reflexivity|]. apply runs_ret.
    + by constructor.
  - eexists _, _, _. split; [reflexivity|]. split; cycle 1.
    + eapply runs_step; [apply runs_query|]. cbn beta. rewrite Hc.
      rewrite (staged_get db run ck act decision fresh c a Hk), Hs.
      cbn [String.eqb Ascii.eqb Bool.eqb]. eapply runs_step.
      * eapply runs_step; [apply runs_exec_op, Hcas|]. apply runs_ret.
      * eapply runs_step; [eapply Hfin; reflexivity|]. apply runs_ret.
    + by constructor.
Qed.
End Settle.
(** From the mark on: the action is updated, the adapter is called, child and
    action are settled and the child is read again. *)
Lemma runs_dispatch_and_settle db run ck act decision pk token marked ord c a cdb parent p o st resp
  note code u d j1 j2 j3 j4 :
  fresh_retry db run ck act decision ->
  core cdb = staged db c a -> dispatched run ck act pk token marked ord c a ->
  in_outcome d = o -> settlement o = Some (st, resp, note, code) ->
  exists ins more c' a', [j1; j2; j3; j4] = ins ++ more /\
    settled run ck act pk st code resp marked ord c' a' /\
    runs (u :: d :: ins) (dispatch_and_settle sha256 run ck token act parent p) cdb
      (mkResult ck st (outcome_to_node st) (status_to_operator st) (capsule_id parent) note true
         (Some act)) (with_core (staged db c' a') cdb) [(run, ck)].
Proof.
  intros Hf Hc Hd Ho Hs. pose proof Hd as [Hk Hst Hcl Hda Hre Hpa Hor Hact Hco].
  set (a1 := set_action "dispatch_started" (act_claim_id a) (coalesce (started_at a) (Some (in_now u)))
               (finished_at a) (outcome_code a) a).
  assert (Hd1 : dispatched run ck act pk token marked ord c a1) by (by constructor).
  destruct (runs_terminalize db run ck act decision Hf pk token marked ord c a1
              (with_core (staged db c a1) cdb) o st resp note code j1 j2 j3 eq_refl Hd1 Hs)
    as (ins & c' & a' & Hins & Hse & Hrun).
  assert (exists f more, [j1; j2; j3; j4] = (ins ++ [f]) ++ more) as (f & more & Hall).
  { rewrite Hins. destruct (st =? "unknown")%string; [by exists j4, [] | by exists j3, [j4]]. }
  exists (ins ++ [f]), more, c', a'. split; [exact Hall|]. split; [exact Hse|].
  unfold dispatch_and_settle. eapply runs_step.
  { apply runs_exec_op. rewrite Hc. by apply (staged_update db run ck act decision Hf). }
  fold a1. apply runs_dispatch. rewrite Ho. cbn beta.
  eapply (runs_bind [] (ins ++ [f]) _ _ _ (st, resp, note) _ [] _ _ []).
  { unfold settlement in Hs. destruct o as [rs| | | | |]; cbn; try (injection Hs as <- <- <- <-; apply runs_ret).
    destruct (compute_response_hash sha256 rs); [|discriminate]. injection Hs as <- <- <- <-. apply runs_ret. }
  cbn beta iota. eapply (runs_bind ins [f] _ _ _ tt _ [] _ _ []); [exact Hrun|]. cbn beta.
  eapply runs_step; [apply runs_query|]. cbn beta.
  change (core (with_core ?x _)) with x.
  rewrite (staged_get db run ck act decision Hf c' a' (se_key _ _ _ _ _ _ _ _ _ _ _ Hse)).
  cbn [status_or_unknown]. rewrite (se_status _ _ _ _ _ _ _ _ _ _ _ Hse). apply runs_ret.
Qed.
Lemma fresh_get_none db run ck act decision :
  fresh_retry db run ck act decision -> get_side_effect_by_key run ck db = None.
Proof.
  intros Hf. apply (fetchone_none (fun r => (idempotency_key r =? ck)%string)). intros r Hin.
  unfold get_side_effects, select in Hin. apply elem_of_lfilter in Hin as [Hp Hin].
  pose proof (at_key_old db run ck act decision Hf r Hin) as H. unfold at_key in H. by rewrite Hp in H.
Qed.

(** From the claim to the mark. *)
Lemma runs_claim_and_run db run ck act claim decision adapter ord parent pk root operator meta
  t cdb caps keys p o st resp note code i7 i8 i9 u d j1 j2 j3 j4 :
  fresh_retry db run ck act decision -> act <> "" -> claim <> "" ->
  core cdb = staged db (child_row run ck pk root ord decision parent t db)
               (fresh_action_row run ck act operator claim meta) ->
  (forall x, prepare run ck claim parent adapter decision ord act i8 (with_core x cdb)
             = (mkCDb x caps keys, Ok p)) ->
  in_now i9 < in_now_lease i7 + lease ->
  in_outcome d = o -> settlement o = Some (st, resp, note, code) ->
  exists ins more c' a', [j1; j2; j3; j4] = ins ++ more /\
    settled run ck act pk st code resp (in_now i9) ord c' a' /\
    runs (i7 :: i8 :: i9 :: u :: d :: ins)
      (claim_and_run aes_encrypt aes_decrypt sha256 in_spec trust_validator adapter_factory kek
         validate_int run ck act claim decision adapter ord parent) cdb
      (mkResult ck st (outcome_to_node st) (status_to_operator st) (capsule_id parent) note true
         (Some act)) (mkCDb (staged db c' a') caps keys) [(run, ck)].
Proof.
  intros Hf Ha Hcl Hc Hprep Hl Ho Hs.
  set (c0 := child_row run ck pk root ord decision parent t db) in *.
  set (c1 := set_claim (Some claim) (Some (in_now i7)) (Some (in_now_lease i7 + lease))
               (set_status "started" c0)).
  set (a1 := set_action "claimed" (Some claim) (Some (in_now i7)) None None
               (fresh_action_row run ck act operator claim meta)).
  set (c2 := set_dispatch (Some (in_now i9)) c1).
  assert (Hd : dispatched run ck act pk claim (in_now i9) ord c2 a1) by (by constructor).
  destruct (runs_dispatch_and_settle db run ck act decision pk claim (in_now i9) ord c2 a1
    (mkCDb (staged db c2 a1) caps keys) parent p o st resp note code u d j1 j2 j3 j4 Hf eq_refl Hd Ho Hs)
    as (ins & more & c' & a' & Hall & Hse & Hrun).
  exists ins, more, c', a'. split; [exact Hall|]. split; [exact Hse|].
  unfold claim_and_run. eapply runs_step.
  { apply runs_run_op. rewrite Hc. by apply (claim_staged db run ck act decision Hf). }
  fold c1 a1. cbn beta iota. unfold prepare_and_cross. eapply runs_step.
  { eapply runs_db; [apply Hprep | apply runs_ret]. }
  cbn beta iota. eapply runs_step.
  { eapply runs_mark; [|apply runs_ret]. cbn [core].
    apply (staged_cas db run ck act decision Hf).
    - intros r. intros [[H _]%andb_true_iff _]%andb_true_iff. by eapply held_at_key.
    - unfold held_by, at_key. cbn. rewrite !String.eqb_refl. cbn. by apply Z.ltb_lt. }
  exact Hrun.
Qed.

(** An authorized retry that is not interfered with calls the adapter
    exactly once and settles everything to the adapter's answer: results
    complete the child with their hash, a confirmed no-effect fails it, and
    every other exception leaves it unknown; the child's row, the action's row
    and the returned result agree, the dispatch marker is the one set before
    the call, and nothing else in the ledger or the actions changes. *)
Theorem retry_alone_settles a db parent ck act claim caps keys p o st resp note code
  i1 i2 i3 i4 i5 i6 i7 i8 i9 u d j1 j2 j3 j4 :
  eligible (core db) (ra_run_id a) (ra_parent_key a) (ra_decision_id a) parent ->
  make_retry_side_effect_key uuid5 (ra_parent_key a) (ra_decision_id a) = Ok ck ->
  fresh_retry (core db) (ra_run_id a) ck act (ra_decision_id a) ->
  in_uuid i4 = act -> in_uuid i5 = claim -> act <> "" -> claim <> "" ->
  (forall x, prepare (ra_run_id a) ck claim parent (extract_adapter_name parent (ra_parent_key a))
               (ra_decision_id a) (SideEffectLedger.retry_ordinal parent + 1) act i8 (with_core x db)
             = (mkCDb x caps keys, Ok p)) ->
  in_now i9 < in_now_lease i7 + lease ->
  in_outcome d = o -> settlement o = Some (st, resp, note, code) ->
  exists c' a',
    run_alone [i1; i2; i3; i4; i5; i6; i7; i8; i9; u; d; j1; j2; j3; j4] (coordinator a) db =
      (Ret (mkResult ck st (outcome_to_node st) "completed" (capsule_id parent) note true (Some act)),
       mkCDb (staged (core db) c' a') caps keys, [(ra_run_id a, ck)]) /\
    settled (ra_run_id a) ck act (ra_parent_key a) st code resp (in_now i9)
      (SideEffectLedger.retry_ordinal parent + 1) c' a'.
Proof.
  intros Hel Hck Hf Hu4 Hu5 Ha Hcl Hprep Hl Ho Hs.
  set (run := ra_run_id a) in *. set (pk := ra_parent_key a) in *.
  set (ord := SideEffectLedger.retry_ordinal parent + 1) in *.
  set (meta := action_metadata (ra_actor a) (ra_actor_role a) false).
  set (c0 := child_row run ck pk (root_key parent pk) ord (ra_decision_id a) parent (in_now i6) (core db)).
  set (a0 := fresh_action_row run ck act (ra_operator_action_id a) claim meta).
  destruct (runs_claim_and_run (core db) run ck act claim (ra_decision_id a)
    (extract_adapter_name parent pk) ord parent pk (root_key parent pk) (ra_operator_action_id a) meta
    (in_now i6) (with_core (staged (core db) c0 a0) db) caps keys p o st resp note code i7 i8 i9 u d
    j1 j2 j3 j4 Hf Ha Hcl eq_refl Hprep Hl Ho Hs) as (ins & more & c' & a' & Hall & Hse & Hrun).
  exists c', a'. split; [|exact Hse].
  assert (Hst : status_to_operator st = "completed").
  { destruct o as [rs| | | | |]; cbn in Hs; try (by injection Hs as <- _ _ _).
    destruct (compute_response_hash sha256 rs); [|discriminate]. by injection Hs as <- _ _ _. }
  rewrite Hst in Hrun. rewrite Hall.
  change (i1 :: i2 :: i3 :: i4 :: i5 :: i6 :: i7 :: i8 :: i9 :: u :: d :: ins ++ more)
    with ((i1 :: i2 :: i3 :: i4 :: i5 :: i6 :: i7 :: i8 :: i9 :: u :: d :: ins) ++ more).
  apply runs_alone. unfold execute_authorized_retry. fold run pk.
  eapply runs_step; [apply runs_query|]. cbn beta. pose proof Hel as [Hp H1 H2 _].
  rewrite Hp, H1, H2, !String.eqb_refl. do 2 (eapply runs_free; [apply runs_check|]). cbn beta.
  eapply runs_step; [by eapply runs_validate|]. cbn beta. rewrite Hck.
  eapply runs_step; [apply runs_query|]. cbn beta zeta.
  rewrite (fresh_get_none _ _ _ _ _ Hf).
  eapply runs_step; [eapply runs_db; [reflexivity | apply runs_ret]|]. cbn beta. rewrite Hu4.
  eapply runs_step; [eapply runs_db; [reflexivity | apply runs_ret]|]. cbn beta. rewrite Hu5.
  eapply runs_step.
  { apply runs_run_op. by apply (allocate_staged (core db) run ck act (ra_decision_id a) Hf). }
  exact Hrun.
Qed.
(** A repeated command converges: when the attempt of this parent and
    decision exists and is past [planned], the coordinator reports its state
    after three reads, writes nothing and calls nothing. *)
Theorem retry_converges a db parent ck child i1 i2 i3 more :
  eligible (core db) (ra_run_id a) (ra_parent_key a) (ra_decision_id a) parent ->
  make_retry_side_effect_key uuid5 (ra_parent_key a) (ra_decision_id a) = Ok ck ->
  get_side_effect_by_key (ra_run_id a) ck (core db) = Some child ->
  SideEffectLedger.status child <> "planned" ->
  exists r, run_alone ([i1; i2; i3] ++ more) (coordinator a) db = (Ret r, db, []) /\
    rr_retry_attempt_key r = ck /\ rr_child_status r = SideEffectLedger.status child /\
    rr_dispatch_performed r = false /\
    (rr_node_invocation_outcome r = "succeeded" <-> SideEffectLedger.status child = "completed").
Proof.
  intros Hel Hck Hch Hs. exists (handle_existing_child child ck parent). split_and!; try done.
  - apply runs_alone. unfold execute_authorized_retry. pose proof Hel as [Hp H1 H2 _].
    eapply runs_step; [apply runs_query|]. cbn beta.
    rewrite Hp, H1, H2, !String.eqb_refl. do 2 (eapply runs_free; [apply runs_check|]). cbn beta.
    eapply runs_step; [by eapply runs_validate|]. cbn beta. rewrite Hck.
    eapply runs_step; [apply runs_query|]. cbn beta zeta. rewrite Hch.
    apply String.eqb_neq in Hs as ->. apply runs_ret.
  - unfold handle_existing_child, outcome_to_node. cbn.
    destruct (String.eqb_spec (SideEffectLedger.status child) "completed") as [->|Hne]; [done|].
    by case_match.
Qed.

Lemma run_alone_raise ins e db : run_alone ins (Raise e) db = (Raise e, db, []).
Proof. induction ins as [|i ins IH]; [done|]. cbn [run_alone prog_step]. by rewrite IH. Qed.

(** A failed check ends the program. *)
Lemma run_alone_check ins b code (k : unit -> prog RetryExecutionResult) db p' db' calls :
  run_alone ins (check b code ≫= k) db = (p', db', calls) ->
  (db' = db /\ calls = []) \/ b = true /\ run_alone ins (k tt) db = (p', db', calls).
Proof.
  destruct b; cbn; [by right|]. intros H. rewrite run_alone_raise in H. injection H as <- <- <-. by left.
Qed.

Lemma run_alone_query {B} ins (f : CDb -> B) (k : B -> prog RetryExecutionResult) db p' db' calls :
  run_alone ins (query f ≫= k) db = (p', db', calls) ->
  (db' = db /\ calls = []) \/ exists i ins', ins = i :: ins' /\
    run_alone ins' (k (f db)) db = (p', db', calls).
Proof.
  destruct ins as [|i ins]; cbn; [intros [= <- <- <-]; by left|].
  destruct (run_alone ins (k (f db)) db) as [[p1 db1] c1] eqn:E. intros [= <- <- <-]. right.
  by exists i, ins.
Qed.

(** A coordinator on its own writes and calls nothing unless the parent is
    retry_authorized with its capsule available and the decision is an active
    safe_to_retry issued from unknown for that parent in that run. *)
Theorem retry_requires_authorization a ins db p' db' calls :
  run_alone ins (coordinator a) db = (p', db', calls) ->
  db' <> db \/ calls <> [] ->
  exists parent, eligible (core db) (ra_run_id a) (ra_parent_key a) (ra_decision_id a) parent.
Proof.
  unfold execute_authorized_retry. cbv zeta. intros H Hne.
  apply run_alone_query in H as [[]|(i & ins' & -> & H)]; [tauto|]. cbv beta in H.
  destruct (get_side_effect_by_key _ _ (core db)) as [parent|] eqn:Ep;
    [|rewrite run_alone_raise in H; injection H as <- <- <-; tauto].
  apply run_alone_check in H as [[]|[H1 H]]; [tauto|].
  apply run_alone_check in H as [[]|[H2 H]]; [tauto|]. bool_prop.
  exists parent. unfold validate_decision in H.
  destruct ins' as [|i2 ins']; [cbn in H; injection H as <- <- <-; tauto|].
  cbn [run_alone query mbind prog_bind prog_step] in H.
  destruct (fetchone _ (decisions (core db))) as [d|] eqn:Ed;
    [|cbn in H; rewrite run_alone_raise in H; injection H as <- <- <-; tauto].
  destruct (run_alone ins' _ db) as [[p1 db1] c1] eqn:E. injection H as <- <- <-.
  constructor; [done|done|done|]. exists d. split; [done|].
  destruct (String.eqb_spec (rd_run_id d) (ra_run_id a));
    [|cbn in E; rewrite run_alone_raise in E; injection E as <- <- <-; tauto].
  destruct (String.eqb_spec (rd_key d) (ra_parent_key a));
    [|cbn in E; rewrite run_alone_raise in E; injection E as <- <- <-; tauto].
  destruct (String.eqb_spec (rd_decision d) "safe_to_retry");
    [|cbn in E; rewrite run_alone_raise in E; injection E as <- <- <-; tauto].
  destruct (String.eqb_spec (rd_prior_status d) "unknown");
    [|cbn in E; rewrite run_alone_raise in E; injection E as <- <- <-; tauto].
  destruct (String.eqb_spec (rd_retention_status d) "active");
    [|cbn in E; rewrite run_alone_raise in E; injection E as <- <- <-; tauto]. done.
Qed.
End AloneRuns.

(** ** A concrete retry *)

Definition demo_start_args : StartArgs :=
  mkStartArgs "r" 1 "search_tool" "external_call" "search:arxiv:h" "rh" demo_operation "search"
    "arxiv" "1.0.0" "2" "c" "3" None "standard".
Definition demo_decision_args : DecisionDict :=
  mkDecisionDict "d1" (Some "r") (Some "search:arxiv:h") None None None (Some "unknown")
    (Some "safe_to_retry") None (Some "checked") None None None None.

(** An effect that was started, lost and authorized for a retry. *)
Definition demo_db : CDb :=
  let db := fst (start_side_effect_with_capsule toy_encrypt toy_decrypt toy_hash toy_hash
                   demo_start_args (Some "kek") demo_draw empty_cdb) in
  with_core (exec (OResolve "r" "search:arxiv:h" demo_decision_args "retry_authorized" None None 9)
               (exec (OUpdate "r" "search:arxiv:h" "unknown" None None 8) (core db))) db.

Definition demo_trust (a : Adapter) : bool := is_trusted_adapter [("arxiv", "ArxivAdapter")] a.
Definition demo_factory (n : string) : option Adapter := Some (mkAdapter n "1.0.0" "ArxivAdapter").
Definition demo_int (v : pyval) : option Z := match v with VInt z => Some z | _ => None end.
Definition demo_args : RetryArgs := mkRetryArgs "r" "search:arxiv:h" "d1" "op" "operator" None.
Definition demo_inputs (uuid : string) (t : Z) (o : adapter_outcome) : Inputs :=
  mkInputs t t uuid (mkDekDraw "other" "n9" 9) o.
Definition demo_in (uuid : string) (t : Z) : Inputs := demo_inputs uuid t (Returned [VStr "paper"]).

Definition demo_coordinator : prog RetryExecutionResult :=
  execute_authorized_retry toy_encrypt toy_decrypt toy_hash toy_hash None demo_trust
    (Some demo_factory) (Some "kek") demo_int demo_args.
Definition demo_run (es : list sys_event) : Sys :=
  sys_run toy_encrypt toy_decrypt toy_hash toy_hash None demo_trust (Some demo_factory)
    (Some "kek") demo_int es (initial demo_db).

(** Two coordinators of the same authorization, one call each in turn. *)
Definition demo_events : list sys_event :=
  ESpawn demo_args :: ESpawn demo_args ::
  concat (map (fun k => [EWorker 0 (demo_in ("a" +:+ str_int k) (100 + k));
                         EWorker 1 (demo_in ("b" +:+ str_int k) (100 + k))])
            (map Z.of_nat (seq 0 15))).

Definition demo_key : string := child_key_of toy_hash demo_args.

Example demo_race :
  s_calls (demo_run demo_events) = [(0%nat, ("r", demo_key))] /\
  map (fun p => match p with Ret r => Some (rr_child_status r, rr_dispatch_performed r) | _ => None end)
    (s_workers (demo_run demo_events)) =
  [Some ("completed", true); Some ("started", false)].
Proof. vm_compute. done. Qed.

Lemma demo_unique : unique (core demo_db).
Proof. apply NoDup_singleton. Qed.

Lemma retry_dispatched_once_witness :
  let s := demo_run demo_events in
  (forall run key, (count (call_of run key) (s_calls s) <= 1)%nat) /\
  (forall n run key, (n, (run, key)) ∈ s_calls s -> crossed run key (core (s_db s))) /\
  (forall n r, s_workers s !! n = Some (Ret r) ->
     (rr_dispatch_performed r = true <-> exists c, (n, c) ∈ s_calls s) /\
     (forall c, (n, c) ∈ s_calls s -> snd c = rr_retry_attempt_key r)).
Proof.
  exact (retry_dispatched_once toy_encrypt toy_decrypt toy_hash toy_hash None demo_trust
    (Some demo_factory) (Some "kek") demo_int demo_db demo_events demo_unique).
Defined.

Definition demo_parent_row : Row := row_of "search:arxiv:h" (core demo_db).

Lemma retry_parent_immutable_witness :
  demo_parent_row ∈ ledger (core (s_db (demo_run demo_events))).
Proof.
  apply (retry_parent_immutable toy_encrypt toy_decrypt toy_hash toy_hash None demo_trust
    (Some demo_factory) (Some "kek") demo_int demo_db demo_events demo_parent_row).
  - exact demo_unique.
  - vm_compute. left.
  - right. right. vm_compute. reflexivity.
Defined.

Definition demo_steps : list (Inputs * CDb) := repeat (demo_in "x" 100, demo_db) 15.

Lemma retry_terminates_witness : finished (fst (drive demo_steps demo_coordinator)) = true.
Proof.
  apply (retry_terminates toy_encrypt toy_decrypt toy_hash toy_hash None demo_trust
    (Some demo_factory) (Some "kek") demo_int demo_args demo_steps). vm_compute. lia.
Defined.

(** The worker alone, on its own database. *)
Definition demo_alone : list Inputs :=
  map (fun k => demo_in ("u" +:+ str_int k) (100 + k)) (map Z.of_nat (seq 0 15)).

Definition demo_result : prog RetryExecutionResult * CDb * list (string * string) :=
  run_alone demo_alone demo_coordinator demo_db.

(** The same run as seen from outside: each call with the database it finds. *)
Fixpoint alone_steps (ins : list Inputs) (p : prog RetryExecutionResult) (db : CDb)
  : list (Inputs * CDb) :=
  match ins with
  | [] => []
  | i :: ins =>
      let '(p', db', _) := prog_step i p db in (i, db) :: alone_steps ins p' db'
  end.

Definition demo_final : RetryExecutionResult :=
  ltac:(let r := eval vm_compute in (fst (fst demo_result)) in match r with Ret ?x => exact x end).

Lemma retry_result_truthful_witness :
  rr_retry_attempt_key demo_final = demo_key /\
  (rr_dispatch_performed demo_final = true -> [("r", demo_key)] = [("r", demo_key)]) /\
  (rr_dispatch_performed demo_final = false -> [("r", demo_key)] = []).
Proof.
  apply (retry_result_truthful toy_encrypt toy_decrypt toy_hash toy_hash None demo_trust
    (Some demo_factory) (Some "kek") demo_int demo_args
    (alone_steps demo_alone demo_coordinator demo_db)).
  vm_compute. reflexivity.
Defined.

Example demo_completes :
  snd demo_result = [("r", demo_key)] /\
  map SideEffectLedger.status (ledger (core (snd (fst demo_result)))) = ["retry_authorized"; "completed"].
Proof. vm_compute. done. Qed.

Lemma demo_eligible db :
  db = demo_db \/ db = snd (fst demo_result) ->
  eligible (core db) "r" "search:arxiv:h" "d1" demo_parent_row.
Proof.
  intros [-> | ->]; constructor; try (vm_compute; reflexivity);
    (eexists; split; [vm_compute; reflexivity | vm_compute; done]).
Defined.

Lemma retry_converges_witness :
  exists r, run_alone ([demo_in "x" 1; demo_in "x" 2; demo_in "x" 3] ++ []) demo_coordinator
      (snd (fst demo_result)) = (Ret r, snd (fst demo_result), []) /\
    rr_retry_attempt_key r = demo_key /\
    rr_child_status r = SideEffectLedger.status (row_of demo_key (core (snd (fst demo_result)))) /\
    rr_dispatch_performed r = false /\
    (rr_node_invocation_outcome r = "succeeded" <->
     SideEffectLedger.status (row_of demo_key (core (snd (fst demo_result)))) = "completed").
Proof.
  apply (retry_converges toy_encrypt toy_decrypt toy_hash toy_hash None demo_trust
    (Some demo_factory) (Some "kek") demo_int demo_args (snd (fst demo_result)) demo_parent_row).
  - apply demo_eligible. by right.
  - vm_compute. reflexivity.
  - vm_compute. reflexivity.
  - vm_compute. discriminate.
Defined.

Lemma retry_requires_authorization_witness :
  exists parent, eligible (core demo_db) "r" "search:arxiv:h" "d1" parent.
Proof.
  apply (retry_requires_authorization toy_encrypt toy_decrypt toy_hash toy_hash None demo_trust
    (Some demo_factory) (Some "kek") demo_int demo_args demo_alone demo_db
    (fst (fst demo_result)) (snd (fst demo_result)) (snd demo_result)).
  - vm_compute. reflexivity.
  - right. vm_compute. discriminate.
Defined.

(** The preparation of that run, evaluated. *)
Definition demo_prep : DispatchPreparation :=
  ltac:(let r := eval vm_compute in
          (snd (prepare_dispatch toy_encrypt toy_decrypt toy_hash None demo_trust (Some demo_factory)
             (Some "kek") demo_int "r" demo_key "u4" demo_parent_row "arxiv" "d1" 1 "u3"
             (demo_in "u7" 107) demo_db)) in
        match r with Ok ?p => exact p end).

Lemma retry_alone_settles_witness :
  exists c' a' caps keys,
    run_alone demo_alone demo_coordinator demo_db =
      (Ret (mkResult demo_key "completed" "succeeded" "completed" (capsule_id demo_parent_row) None
              true (Some "u3")), mkCDb (staged (core demo_db) c' a') caps keys, [("r", demo_key)]) /\
    settled "r" demo_key "u3" "search:arxiv:h" "completed" "adapter_confirmed_completion"
      (compute_response_hash toy_hash [VStr "paper"]) 108 1 c' a'.
Proof.
  assert (H : exists c' a',
    run_alone demo_alone demo_coordinator demo_db =
      (Ret (mkResult demo_key "completed" (outcome_to_node "completed") "completed"
              (capsule_id demo_parent_row) None true (Some "u3")),
       mkCDb (staged (core demo_db) c' a') (capsules demo_db) (run_keys demo_db), [("r", demo_key)]) /\
    settled "r" demo_key "u3" "search:arxiv:h" "completed" "adapter_confirmed_completion"
      (compute_response_hash toy_hash [VStr "paper"]) 108 1 c' a').
  2: { destruct H as (c' & a' & H). exists c', a', (capsules demo_db), (run_keys demo_db). exact H. }
  eapply (retry_alone_settles toy_encrypt toy_decrypt toy_hash toy_hash None demo_trust
    (Some demo_factory) (Some "kek") demo_int demo_args demo_db demo_parent_row demo_key "u3" "u4"
    (capsules demo_db) (run_keys demo_db) demo_prep).
  - apply demo_eligible. by left.
  - vm_compute. reflexivity.
  - constructor.
    + intros r Hr. vm_compute in Hr. apply list_elem_of_singleton in Hr as ->. vm_compute. discriminate.
    + intros r Hr _. vm_compute in Hr. apply list_elem_of_singleton in Hr as ->. vm_compute. discriminate.
    + intros r Hr. vm_compute in Hr. inversion Hr.
  - reflexivity.
  - reflexivity.
  - discriminate.
  - discriminate.
  - intros x. vm_compute. reflexivity.
  - vm_compute. reflexivity.
  - reflexivity.
  - reflexivity.
Defined.
