(* ===== verification/SideEffectJournal.v ===== *)
(** * The side-effect journal

    [runtime/side_effect_journal.py] with its controller, and the identities
    of [core/side_effect_utils.py] it uses: what a node is about to do is
    written to the ledger before the call, what it reports to have done after
    it, and a resumed run closes what a crash left open.

    The journal is written against an interface, [EffectStore]: a database
    whose ledger can be read and in which an effect can be started.  The
    capsule store of Capsules implements it.  Trace events are records of their type,
    node, decision and metadata. *)
From stdpp Require sorting.
From S2P Require Import Prelude PyFloat PyValue Json Sql Contract Envelope SideEffectLedger Capsules.

(** ** Data *)

(** [NodeManifest] of [core/manifest.py] *)
Record NodeManifest := mkManifest {
  manifest_version : string;
  manifest_contract : NodeContract;
}.

Record JournalEvent := mkJournalEvent {
  je_type : string;
  je_node : string;
  je_decision : string;
  je_meta : pyctx;
}.

(** What stops the journal with an exception: a failed start, a failed ledger
    update, or a payload that does not have the shape the code expects. *)
Inductive journal_error (E : Type) :=
| StartRaised (e : E)
| LedgerRaised (e : ledger_error)
| BadShape.
Arguments StartRaised {E} e.
Arguments LedgerRaised {E} e.
Arguments BadShape {E}.

(** ** Request identities *)

Definition text_of (v : pyval) : option string := match v with VStr s => Some s | _ => None end.

(** The texts of a list of texts. *)
Definition texts (l : list pyval) : option (list string) := mapM text_of l.

(** [_normalize_for_hash] on a value of the dict, and on the dict. *)
Fixpoint normalize_value (v : pyval) : pyval :=
  match v with
  | VList l => match texts l with Some ss => VList (map VStr (sort_str ss)) | None => v end
  | VDict d => VDict (py_sorted key_leb (map (fun kv => (fst kv, normalize_value (snd kv))) d))
  | _ => v
  end.

Definition normalize_for_hash (d : pyctx) : pyval := normalize_value (VDict d).

(** The text that is hashed. *)
Definition hash_input (ty node : string) (operation payload : option pyctx) : string :=
  json_text sorted_options
    (VDict ([ ("type", VStr ty); ("node_id", VStr node) ] ++
            match operation, payload with
            | Some o, _ => [ ("operation", normalize_for_hash o) ]
            | None, Some p => [ ("payload", normalize_for_hash p) ]
            | None, None => []
            end)).

(** The first sixteen digits of the hash; the idempotency key, which the code
    accepts, plays no part. *)
Definition compute_side_effect_request_hash (sha256 : string -> string) (ty node : string)
  (payload operation : option pyctx) : string :=
  String.substring 0 16 (sha256 (hash_input ty node operation payload)).

(** ** Search queries *)

(** [sq.get("terms", [])]: a text is one term, a list of texts is its terms. *)
Definition query_terms (q : pyctx) : option (list string) :=
  match dget "terms" q with
  | None => Some []
  | Some (VStr s) => Some [s]
  | Some (VList l) => texts l
  | Some (VDict d) => Some (dkeys d)
  | Some _ => None
  end.

(** [sq.get("target_adapters", [])], [["unknown"]] when empty. *)
Definition query_adapters (q : pyctx) : option (list string) :=
  match dget "target_adapters" q with
  | None => Some ["unknown"]
  | Some v =>
      if negb (truthy v) then Some ["unknown"]
      else match v with
           | VStr s => Some (map (fun c => String c "") (String.list_ascii_of_string s))
           | VList l => texts l
           | VDict d => Some (dkeys d)
           | _ => None
           end
  end.

(** The canonical operation of a query. *)
Definition query_operation (q : pyctx) (terms : list string) : pyctx :=
  [ ("terms", VList (map VStr (sort_str terms)));
    ("max", match dget "max_results" q with Some v => v | None => VInt 10 end);
    ("filters", match dget "filters" q with Some v => v | None => VDict [] end) ].

Definition search_key (adapter hash : string) : string := "search:" +:+ adapter +:+ ":" +:+ hash.

(** [f"{node_id}:{effect_type}:{step_id}"] *)
Definition reservation_key (node ty : string) (stp : Z) : string :=
  node +:+ ":" +:+ ty +:+ ":" +:+ str_int stp.

(** ** The interface to the database *)

(** What a start does to the rows of the ledger. *)
Inductive row_started (a : StartArgs) (rows : list Row) : list Row -> Prop :=
| StartedAlready ex :
    ex ∈ rows -> row_key ex = (sa_run_id a, sa_key a) -> status ex = "started" ->
    capsule_status ex = "available" ->
    row_started a rows rows
| StartedExisting ex cap :
    ex ∈ rows -> row_key ex = (sa_run_id a, sa_key a) ->
    status ex ∉ ["completed"; "failed"; "unknown"; "retry_authorized"] ->
    row_started a rows
      (update_where (at_key (sa_run_id a) (sa_key a))
         (fun r => set_capsule cap (set_status "started" r)) rows)
| StartedNew r :
    (forall x, x ∈ rows -> row_key x <> (sa_run_id a, sa_key a)) ->
    row_key r = (sa_run_id a, sa_key a) -> status r = "started" -> node_id r = sa_node_id a ->
    side_effect_type r = sa_side_effect_type a -> step_id r = sa_step_id a ->
    request_hash r = Some (sa_request_hash a) -> parent_side_effect_key r = None ->
    capsule_status r = "available" ->
    row_started a rows (rows ++ [r]).

(** A database in which effects are started; [n] numbers the draws of nonces
    and clock readings. *)
Class EffectStore (D E : Type) := {
  effect_db : D -> Db;
  start_effect : StartArgs -> nat -> D -> D * res E string;
  start_effect_ok a n d d' i :
    start_effect a n d = (d', Ok i) -> row_started a (ledger (effect_db d)) (ledger (effect_db d'));
  start_effect_err a n d d' e :
    start_effect a n d = (d', Err e) -> ledger (effect_db d') = ledger (effect_db d);
}.

(** ** The journal *)

Section Journal.
Context {D E : Type} `{!EffectStore D E}.
Context (sha256 : string -> string).
Context (run : string) (nodes : dict NodeManifest).
(** The adapters that [_get_adapter] finds, with their versions. *)
Context (adapters : dict string).

Record World := mkJournalWorld {
  jw_db : D;
  jw_trace : list JournalEvent;
  jw_draws : nat;
}.

Definition jw_ledger (w : World) : list Row := ledger (effect_db (jw_db w)).

Definition J (A : Type) : Type := World -> World * res (journal_error E) A.

Definition emit (e : JournalEvent) (w : World) : World :=
  mkJournalWorld (jw_db w) (jw_trace w ++ [e]) (jw_draws w).

(** Calls [f] for each item, and stops at the first [False]. *)
Fixpoint all_ok {A} (f : A -> J bool) (l : list A) : J bool := fun w =>
  match l with
  | [] => (w, Ok true)
  | x :: l =>
      match f x w with
      | (w', Ok true) => all_ok f l w'
      | (w', r) => (w', r)
      end
  end.

(** [_get_declared_se_types] *)
Definition get_declared_se_types (node : string) : list string :=
  match dget node nodes with
  | None => []
  | Some m =>
      fold_left (fun declared se =>
        match normalize_side_effect_type (effect_type se) with
        | Some c => if str_truthy c && negb (mem c declared) then declared ++ [c] else declared
        | None => declared
        end) (side_effects (manifest_contract m)) []
  end.

Definition violation (node decision : string) (meta : pyctx) : JournalEvent :=
  mkJournalEvent "contract_violation" node decision meta.

Definition undeclared (node observed key : string) (canonical : option string) (reason : string)
  : JournalEvent :=
  violation node "undeclared_side_effect"
    [ ("observed_side_effect_type", VStr observed);
      ("canonical_side_effect_type", match canonical with Some c => VStr c | None => VNone end);
      ("declared_side_effect_types", VList (map VStr (get_declared_se_types node)));
      ("idempotency_key", VStr key); ("reason", VStr reason) ].

(** [_assert_declared_side_effect]: the canonical type, or the violation to
    emit. *)
Definition assert_declared_side_effect (node observed key : string) : JournalEvent + string :=
  match normalize_side_effect_type observed with
  | None => inl (undeclared node observed key None "unrecognized_side_effect_type")
  | Some c =>
      let declared := get_declared_se_types node in
      if dmem node nodes && negb (mem c declared)
      then inl (undeclared node observed key (Some c)
                  (if nonempty declared then "side_effect_not_declared_by_node"
                   else "node_declares_no_side_effects"))
      else inr c
  end.

(** [side_effect_started] and [side_effect_completed] of the trace emitter *)
Definition started_event (node ty key request_hash : string) : JournalEvent :=
  mkJournalEvent "side_effect_started" node "side_effect_begin"
    ([ ("effect_type", VStr ty); ("idempotency_key", VStr key) ] ++
     (if str_truthy request_hash then [ ("request_hash", VStr request_hash) ] else [])).

Definition completed_event (node ty key : string) (request_hash response_hash : string) : JournalEvent :=
  mkJournalEvent "side_effect_completed" node "side_effect_done"
    ([ ("effect_type", VStr ty); ("idempotency_key", VStr key); ("duration_ms", VInt 0) ] ++
     (if str_truthy request_hash then [ ("request_hash", VStr request_hash) ] else []) ++
     (if str_truthy response_hash then [ ("response_hash", VStr response_hash) ] else [])).

Definition node_version_of (node : string) : string :=
  match dget node nodes with Some m => manifest_version m | None => "" end.
Definition contract_id_of (node : string) : string :=
  match dget node nodes with Some m => Contract.contract_id (manifest_contract m) | None => "" end.
Definition contract_version_of (node : string) : string :=
  match dget node nodes with
  | Some m => Contract.contract_version (manifest_contract m) | None => "" end.
Definition adapter_version_of (adapter : string) : string :=
  if str_truthy adapter then dget_or "1.0.0" adapter adapters else "1.0.0".

(** The arguments of the start of one journalled effect. *)
Definition start_args (key node canonical : string) (env : InvocationEnvelope)
  (operation : option pyctx) (adapter : string) : StartArgs :=
  mkStartArgs run (env_step_id env) node canonical key
    (compute_side_effect_request_hash sha256 canonical node
       (match operation with None => Some (payload env) | Some _ => None end) operation)
    (VDict (match operation with Some o => o | None => payload env end)) "search" adapter
    (adapter_version_of adapter) (node_version_of node) (contract_id_of node)
    (contract_version_of node) None "standard".

(** [start_side_effect_with_capsule], then [SIDE_EFFECT_STARTED]; a raising
    start emits nothing. *)
Definition start_and_emit (a : StartArgs) (e : JournalEvent) : J bool := fun w =>
  match start_effect a (jw_draws w) (jw_db w) with
  | (d, Ok _) => (emit e (mkJournalWorld d (jw_trace w) (S (jw_draws w))), Ok true)
  | (d, Err x) => (mkJournalWorld d (jw_trace w) (S (jw_draws w)), Err (StartRaised x))
  end.

(** [_journal_one] *)
Definition journal_one (key node ty : string) (env : InvocationEnvelope)
  (operation : option pyctx) (adapter : string) : J bool := fun w =>
  match assert_declared_side_effect node ty key with
  | inl v => (emit v w, Ok false)
  | inr canonical =>
      let a := start_args key node canonical env operation adapter in
      match get_side_effect_by_key run key (effect_db (jw_db w)) with
      | Some existing =>
          if (status existing =? "planned")%string
          then start_and_emit a (started_event node canonical key "") w
          else (w, Ok true)
      | None => start_and_emit a (started_event node canonical key (sa_request_hash a)) w
      end
  end.

(** The body of the loop over the queries. *)
Definition journal_query (node ty : string) (env : InvocationEnvelope) (sq : pyval) : J bool := fun w =>
  match sq with
  | VDict q =>
      match query_terms q, query_adapters q with
      | Some terms, Some names =>
          let operation := query_operation q terms in
          let req_hash := compute_side_effect_request_hash sha256 ty node None (Some operation) in
          all_ok (fun adapter => journal_one (search_key adapter req_hash) node ty env
                                   (Some operation) adapter) names w
      | _, _ => (w, Err BadShape)
      end
  | _ => (w, Err BadShape)
  end.

(** [_journal_search_operations] *)
Definition journal_search_operations (node ty : string) (env : InvocationEnvelope) : J bool := fun w =>
  match dget "search_queries" (payload env) with
  | None => journal_one (reservation_key node ty (env_step_id env)) node ty env None "" w
  | Some v =>
      if negb (truthy v)
      then journal_one (reservation_key node ty (env_step_id env)) node ty env None "" w
      else match v with
           | VList l => all_ok (journal_query node ty env) l w
           | _ => (w, Err BadShape)
           end
  end.

Definition is_search (node ty : string) : bool :=
  mem ty ["external_api_read"; "external_call"] && mem node ["search_tool"; "branch_search"].

(** The body of the loop over the declared effects. *)
Definition journal_effect (node : string) (env : InvocationEnvelope) (se : SideEffect) : J bool := fun w =>
  if is_search node (effect_type se) then journal_search_operations node (effect_type se) env w
  else if (effect_type se =? "memory_write")%string
  then journal_one (node +:+ ":memory_write:" +:+ str_int (env_step_id env)) node (effect_type se)
         env None "" w
  else journal_one (reservation_key node (effect_type se) (env_step_id env)) node (effect_type se)
         env None "" w.

(** [_journal_planned_side_effects] *)
Definition journal_planned_side_effects (node : string) (env : InvocationEnvelope) : J bool := fun w =>
  match dget node nodes with
  | None => (w, Ok true)
  | Some m => all_ok (journal_effect node env) (side_effects (manifest_contract m)) w
  end.
End Journal.

(** ** What the journal does to ledger and trace *)

Lemma key_lookup run key db : get_side_effect_by_key run key db = fetchone (at_key run key) (ledger db).
Proof.
  unfold get_side_effect_by_key, get_side_effects, select, fetchone, at_key.
  induction (ledger db) as [|r l IH]; [done|]. cbn. destruct (run_id r =? run)%string; cbn; [|done].
  by destruct (idempotency_key r =? key)%string.
Qed.

(** The keys of the [side_effect_started] events. *)
Definition started_keys (evs : list JournalEvent) : list string :=
  omap (fun e => if (je_type e =? "side_effect_started")%string
                 then match dget "idempotency_key" (je_meta e) with Some (VStr k) => Some k | _ => None end
                 else None) evs.

Definition violations (evs : list JournalEvent) : nat :=
  count (fun e => (je_type e =? "contract_violation")%string) evs.

Definition started_in (run k : string) (rows : list Row) : Prop :=
  exists x, x ∈ rows /\ row_key x = (run, k) /\ status x = "started".

Section JournalProperties.
Context {D E : Type} `{!EffectStore D E}.
Context (sha256 : string -> string) (run : string) (nodes : dict NodeManifest) (adapters : dict string).

Local Abbreviation World := (@World D).
Local Abbreviation J := (@J D E).
Local Abbreviation rows := jw_ledger.
Local Abbreviation unique_rows w := (NoDup (map row_key (rows w))).

(** The effect of journalling for [node] at step [stp], with answer [r]. *)
Record journalled (node : string) (stp : Z) (w w' : World) (evs : list JournalEvent)
  (r : res (journal_error E) bool) : Prop := {
  jn_trace : jw_trace w' = jw_trace w ++ evs;
  jn_unique : unique_rows w';
  jn_nodup : NoDup (started_keys evs);
  jn_started k : k ∈ started_keys evs -> started_in run k (rows w') /\ ~ started_in run k (rows w) /\
    forall x, x ∈ rows w -> row_key x = (run, k) -> status x = "planned";
  jn_kept x : x ∈ rows w ->
    x ∈ rows w' \/ run_id x = run /\ status x = "planned" /\ idempotency_key x ∈ started_keys evs;
  jn_changed x' : x' ∈ rows w' ->
    x' ∈ rows w \/ run_id x' = run /\ status x' = "started" /\ capsule_status x' = "available" /\
      idempotency_key x' ∈ started_keys evs;
  jn_new x' : x' ∈ rows w' -> row_key x' ∉ map row_key (rows w) ->
    node_id x' = node /\ step_id x' = stp /\ side_effect_type x' ∈ get_declared_se_types nodes node;
  jn_keys : map row_key (rows w) `prefix_of` map row_key (rows w');
  jn_violations : violations evs = match r with Ok false => 1%nat | _ => 0%nat end;
}.

Lemma journalled_refl node stp w r :
  unique_rows w -> (r <> Ok false) -> journalled node stp w w [] r.
Proof.
  intros Hu Hr. constructor; try done; try (by left).
  - by rewrite app_nil_r.
  - intros k Hk. inversion Hk.
  - intros x' Hx Hn. destruct Hn. apply list_elem_of_In, in_map. by apply list_elem_of_In.
  - by destruct r as [[]|].
Qed.

Lemma started_keys_app a b : started_keys (a ++ b) = started_keys a ++ started_keys b.
Proof. apply omap_app. Qed.

Lemma journalled_trans node stp w w1 w2 evs1 evs2 r :
  journalled node stp w w1 evs1 (Ok true) -> journalled node stp w1 w2 evs2 r ->
  journalled node stp w w2 (evs1 ++ evs2) r.
Proof.
  intros J1 J2.
  assert (Hstay : forall k, started_in run k (rows w1) -> started_in run k (rows w2)).
  { intros k (x & Hx & Hk & Hs). destruct (jn_kept _ _ _ _ _ _ J2 x Hx) as [H|(_ & H & _)].
    - by exists x.
    - by rewrite Hs in H. }
  assert (Hkeys : forall k, k ∈ started_keys evs1 -> k ∉ started_keys evs2).
  { intros k H1 H2. apply (jn_started _ _ _ _ _ _ J2) in H2 as (_ & H & _). apply H.
    by apply (jn_started _ _ _ _ _ _ J1). }
  constructor.
  - by rewrite (jn_trace _ _ _ _ _ _ J2), (jn_trace _ _ _ _ _ _ J1), app_assoc.
  - apply J2.
  - rewrite started_keys_app. apply NoDup_app. split_and!; [apply J1|exact Hkeys|apply J2].
  - intros k. rewrite started_keys_app, elem_of_app. intros [Hk|Hk].
    + destruct (jn_started _ _ _ _ _ _ J1 k Hk) as (H1 & H2 & H3). split_and!; auto.
    + destruct (jn_started _ _ _ _ _ _ J2 k Hk) as (H1 & H2 & H3). split_and!; [done| |].
      * intros (x & Hx & Hxk & Hs). apply H2.
        destruct (jn_kept _ _ _ _ _ _ J1 x Hx) as [H|(_ & H & _)]; [by exists x|by rewrite Hs in H].
      * intros x Hx Hxk. destruct (jn_kept _ _ _ _ _ _ J1 x Hx) as [H|(_ & H & _)]; auto.
  - intros x Hx. rewrite started_keys_app, elem_of_app.
    destruct (jn_kept _ _ _ _ _ _ J1 x Hx) as [H|H]; [|right; naive_solver].
    destruct (jn_kept _ _ _ _ _ _ J2 x H) as [H'|H']; [by left|right; naive_solver].
  - intros x Hx. rewrite started_keys_app, elem_of_app.
    destruct (jn_changed _ _ _ _ _ _ J2 x Hx) as [H|H]; [|right; naive_solver].
    destruct (jn_changed _ _ _ _ _ _ J1 x H) as [H'|H']; [by left|right; naive_solver].
  - intros x Hx Hn. destruct (decide (row_key x ∈ map row_key (rows w1))) as [Hi|Hi].
    + assert (Hx1 : x ∈ rows w1).
      { apply list_elem_of_In, in_map_iff in Hi as (y & Hk & Hy%list_elem_of_In).
        destruct (jn_changed _ _ _ _ _ _ J2 x Hx) as [H|(_ & Hr & _ & Hs)]; [done|].
        exfalso. destruct (jn_changed _ _ _ _ _ _ J1 y Hy) as [Hw|(_ & Hst & _ & Hs1)].
        - apply Hn. rewrite <- Hk. apply list_elem_of_In, in_map. by apply list_elem_of_In.
        - unfold row_key in Hk. injection Hk as _ Hk. rewrite Hk in Hs1. by apply (Hkeys _ Hs1). }
      by apply (jn_new _ _ _ _ _ _ J1).
    + by apply (jn_new _ _ _ _ _ _ J2).
  - etrans; [apply J1|apply J2].
  - unfold violations. rewrite count_app. fold (violations evs1) (violations evs2).
    by rewrite (jn_violations _ _ _ _ _ _ J1), (jn_violations _ _ _ _ _ _ J2).
Qed.
Lemma started_keys_event node ty key h : started_keys [started_event node ty key h] = [key].
Proof. done. Qed.

(** The rows after a start: the one of the key is started, the others stay. *)
Lemma row_started_rows a l l' :
  NoDup (map row_key l) -> row_started a l l' -> ~ started_in (sa_run_id a) (sa_key a) l ->
  NoDup (map row_key l') /\ map row_key l `prefix_of` map row_key l' /\
  (forall x, x ∈ l -> x ∈ l' \/ row_key x = (sa_run_id a, sa_key a)) /\
  (exists x', x' ∈ l' /\ row_key x' = (sa_run_id a, sa_key a) /\ status x' = "started" /\
     capsule_status x' = "available") /\
  (forall x', x' ∈ l' -> x' ∈ l \/ row_key x' = (sa_run_id a, sa_key a) /\ status x' = "started" /\
     capsule_status x' = "available") /\
  (forall x', x' ∈ l' -> row_key x' ∉ map row_key l ->
     node_id x' = sa_node_id a /\ step_id x' = sa_step_id a /\ side_effect_type x' = sa_side_effect_type a).
Proof.
  intros Hu Hs Hn. destruct Hs as [ex Hex Hk Hst _|ex cap Hex Hk _|r Hnone Hk Hst Hnd Hty Hstp _ _ Hcap].
  - destruct Hn. by exists ex.
  - assert (Hkeys : forall l, map row_key (update_where (at_key (sa_run_id a) (sa_key a))
              (fun r => set_capsule cap (set_status "started" r)) l) = map row_key l).
    { intros l0. by apply map_update_where. }
    rewrite Hkeys. split_and!; [done|done| | | |].
    + intros x Hx. destruct (at_key (sa_run_id a) (sa_key a) x) eqn:Ek.
      * right. by apply at_key_true.
      * left. apply elem_of_update_where. exists x. by rewrite Ek.
    + exists (set_capsule cap (set_status "started" ex)). split_and!; try done.
      apply elem_of_update_where. exists ex. split; [done|]. by apply at_key_true in Hk as ->.
    + intros x' (x & Hx & ->)%elem_of_update_where. destruct (at_key _ _ x) eqn:Ek; [|by left].
      right. apply at_key_true in Ek. done.
    + intros x' (x & Hx & ->)%elem_of_update_where Hnew. destruct Hnew.
      apply list_elem_of_In, in_map_iff. exists x. split; [by destruct (at_key _ _ x)|].
      by apply list_elem_of_In.
  - rewrite map_app. split_and!.
    + apply NoDup_app. split_and!; [done| |apply NoDup_singleton]. cbn.
      intros k H1 H2%list_elem_of_singleton. subst k. rewrite Hk in H1.
      apply list_elem_of_In, in_map_iff in H1 as (x & Hx & Hi%list_elem_of_In).
      by apply (Hnone x).
    + by exists (map row_key [r]).
    + intros x Hx. left. apply elem_of_app. by left.
    + exists r. split_and!; try done. apply elem_of_app. right. left.
    + intros x' [H|H%list_elem_of_singleton]%elem_of_app; [by left|]. subst x'. right. done.
    + intros x' [H|H%list_elem_of_singleton]%elem_of_app Hnew; [|by subst x'].
      destruct Hnew. apply list_elem_of_In, in_map. by apply list_elem_of_In.
Qed.

Lemma start_and_emit_spec node stp a key h w w' r :
  sa_run_id a = run -> sa_key a = key -> sa_node_id a = node -> sa_step_id a = stp ->
  sa_side_effect_type a ∈ get_declared_se_types nodes node -> unique_rows w ->
  (forall x, x ∈ rows w -> row_key x = (run, key) -> status x = "planned") ->
  start_and_emit a (started_event node (sa_side_effect_type a) key h) w = (w', r) ->
  exists evs, journalled node stp w w' evs r /\
    (r = Ok true -> started_in run key (rows w')) /\ r <> Ok false.
Proof.
  intros Hr Hk Hn Hs Hty Hu Hplan. unfold start_and_emit.
  destruct (start_effect a (jw_draws w) (jw_db w)) as [d [i|e]] eqn:Est; intros [= <- <-].
  - apply start_effect_ok in Est. fold (rows w) in Est.
    assert (Hno : ~ started_in (sa_run_id a) (sa_key a) (rows w)).
    { intros (x & Hx & Hxk & Hxs). rewrite Hr, Hk in Hxk. specialize (Hplan x Hx Hxk). congruence. }
    destruct (row_started_rows _ _ _ Hu Est Hno) as (I1 & I2 & I3 & I4 & I5 & I6).
    rewrite Hr, Hk in *. subst node stp.
    assert (Hin : started_in run key (ledger (effect_db d))).
    { destruct I4 as (x & ? & ? & ? & _). by exists x. }
    eexists [_]. split; [|done]. constructor; try rewrite started_keys_event; try done.
    + apply NoDup_singleton.
    + by intros k ->%list_elem_of_singleton.
    + intros x Hx. destruct (I3 x Hx) as [H|H]; [by left|]. right.
      pose proof (Hplan x Hx H). injection H as H1 H2. rewrite H2. split_and!; try done. left.
    + intros x' Hx. destruct (I5 x' Hx) as [H|(H & H1 & H2)]; [by left|]. right.
      injection H as H3 H4. rewrite H4. split_and!; try done. left.
    + intros x' Hx Hnew. destruct (I6 x' Hx Hnew) as (-> & -> & ->). done.
  - apply start_effect_err in Est. exists []. split; [|done].
    constructor; try done; cbn; unfold jw_ledger; cbn; rewrite ?Est; try done; try (by left).
    + by rewrite app_nil_r.
    + by intros k0 Hk0%elem_of_nil.
    + intros x' Hx Hnew. destruct Hnew. apply list_elem_of_In, in_map. by apply list_elem_of_In.
Qed.
Lemma declared_truthy raw c : normalize_side_effect_type raw = Some c -> str_truthy c = true.
Proof. intros (ty & ->)%normalize_canonical. by destruct ty. Qed.

Lemma assert_declared_inr node ty key c :
  assert_declared_side_effect nodes node ty key = inr c ->
  normalize_side_effect_type ty = Some c /\
  (dmem node nodes = true -> c ∈ get_declared_se_types nodes node).
Proof.
  unfold assert_declared_side_effect. destruct (normalize_side_effect_type ty) as [c'|]; [|discriminate].
  destruct (dmem node nodes); cbn.
  - destruct (mem c' _) eqn:Em; cbn; [|discriminate]. intros [= ->]. split; [done|].
    intros _. by apply mem_true.
  - intros [= ->]. by split.
Qed.

Lemma assert_declared_inl node ty key v :
  assert_declared_side_effect nodes node ty key = inl v -> je_type v = "contract_violation".
Proof.
  unfold assert_declared_side_effect. destruct (normalize_side_effect_type ty); [|by intros [= <-]].
  by case_match; intros [= <-].
Qed.

Lemma journal_one_spec key node ty env op ad w w' r :
  dmem node nodes = true -> unique_rows w ->
  journal_one sha256 run nodes adapters key node ty env op ad w = (w', r) ->
  exists evs, journalled node (env_step_id env) w w' evs r /\
    (r = Ok true -> exists x c, assert_declared_side_effect nodes node ty key = inr c /\
       x ∈ rows w' /\ row_key x = (run, key) /\ status x <> "planned").
Proof.
  intros Hnode Hu. unfold journal_one.
  destruct (assert_declared_side_effect nodes node ty key) as [v|c] eqn:Ea.
  - intros [= <- <-]. exists [v]. split; [|done]. apply assert_declared_inl in Ea.
    assert (Hv : started_keys [v] = []) by (unfold started_keys; cbn; by rewrite Ea).
    constructor; try done; try rewrite Hv; try (by left).
    + by intros k0 Hk0%elem_of_nil.
    + intros x' Hx Hn. destruct Hn. apply list_elem_of_In, in_map. by apply list_elem_of_In.
    + cbn. by rewrite Ea.
  - destruct (assert_declared_inr _ _ _ _ Ea) as [_ Hdecl]. specialize (Hdecl Hnode).
    rewrite key_lookup. destruct (fetchone _ _) as [ex|] eqn:Ef.
    + pose proof (fetchone_some _ _ _ Ef) as [Hex Hk]. apply at_key_true in Hk.
      destruct (String.eqb_spec (status ex) "planned") as [Hp|Hp]; intros H.
      * apply (start_and_emit_spec node (env_step_id env)
             (start_args sha256 run nodes adapters key node c env op ad) key) in H as (evs & H & Hst & _); try done.
        -- exists evs. split; [done|]. intros Hr. destruct (Hst Hr) as (x & ? & ? & Hs).
           exists x, c. split_and!; try done. by rewrite Hs.
        -- intros x Hx Hxk. enough (x = ex) as -> by done.
           by apply (unique_key row_key (rows w)); try done; rewrite Hxk, Hk.
      * injection H as <- <-. exists []. split; [by apply journalled_refl|]. intros _. by exists ex, c.
    + intros H. apply (start_and_emit_spec node (env_step_id env)
             (start_args sha256 run nodes adapters key node c env op ad) key) in H as (evs & H & Hst & _); try done.
      * exists evs. split; [done|]. intros Hr. destruct (Hst Hr) as (x & ? & ? & Hs).
        exists x, c. split_and!; try done. by rewrite Hs.
      * intros x Hx Hxk. apply at_key_true in Hxk. rewrite fetchone_none in Ef.
        by rewrite (Ef x Hx) in Hxk.
Qed.

(** ** The plan of a node *)

(** One entry to journal. *)
Record Item := mkItem {
  it_key : string;
  it_type : string;
  it_operation : option pyctx;
  it_adapter : string;
}.

(** The entries of a query, [None] where its shape stops the journal. *)
Definition plan_query (node ty : string) (sq : pyval) : list (option Item) :=
  match sq with
  | VDict q =>
      match query_terms q, query_adapters q with
      | Some terms, Some names =>
          let op := query_operation q terms in
          let h := compute_side_effect_request_hash sha256 ty node None (Some op) in
          map (fun ad => Some (mkItem (search_key ad h) ty (Some op) ad)) names
      | _, _ => [None]
      end
  | _ => [None]
  end.

Definition plan_effect (node : string) (env : InvocationEnvelope) (se : SideEffect) : list (option Item) :=
  let ty := effect_type se in
  let reservation := [Some (mkItem (reservation_key node ty (env_step_id env)) ty None "")] in
  if is_search node ty then
    match dget "search_queries" (payload env) with
    | None => reservation
    | Some v =>
        if negb (truthy v) then reservation
        else match v with
             | VList l => concat (map (plan_query node ty) l)
             | _ => [None]
             end
    end
  else reservation.

(** Everything the node is about to do, in the order of its contract. *)
Definition journal_plan (node : string) (env : InvocationEnvelope) : list (option Item) :=
  match dget node nodes with
  | None => []
  | Some m => concat (map (plan_effect node env) (side_effects (manifest_contract m)))
  end.

Definition journal_item (node : string) (env : InvocationEnvelope) (i : option Item) : J bool :=
  match i with
  | Some i => journal_one sha256 run nodes adapters (it_key i) node (it_type i) env (it_operation i)
                (it_adapter i)
  | None => fun w => (w, Err BadShape)
  end.

Lemma all_ok_app {A} (f : A -> J bool) l l' (w : World) :
  all_ok f (l ++ l') w =
  match all_ok f l w with (w', Ok true) => all_ok f l' w' | stop => stop end.
Proof.
  revert w. induction l as [|x l IH]; intros w; [done|]. cbn.
  destruct (f x w) as [w' [[]|]]; [apply IH|done|done].
Qed.

Lemma all_ok_concat {A B} (f : A -> J bool) (g : B -> J bool) (plan : B -> list A) l (w : World) :
  (forall b w, g b w = all_ok f (plan b) w) ->
  all_ok g l w = all_ok f (concat (map plan l)) w.
Proof.
  intros H. revert w. induction l as [|b l IH]; intros w; [done|]. cbn.
  rewrite all_ok_app, H. destruct (all_ok f (plan b) w) as [w' [[]|]]; [apply IH|done|done].
Qed.

Lemma all_ok_one {A} (f : A -> J bool) x (w : World) : all_ok f [x] w = f x w.
Proof. cbn. by destruct (f x w) as [w' [[]|]]. Qed.

Lemma all_ok_map {A B} (f : A -> J bool) (h : B -> A) l (w : World) :
  all_ok f (map h l) w = all_ok (fun b => f (h b)) l w.
Proof.
  revert w. induction l as [|b l IH]; intros w; [done|]. cbn.
  destruct (f (h b) w) as [w' [[]|]]; [apply IH|done|done].
Qed.

(** The journal works off the plan. *)
Lemma journal_follows_plan node env (w : World) :
  journal_planned_side_effects sha256 run nodes adapters node env w =
  all_ok (journal_item node env) (journal_plan node env) w.
Proof.
  unfold journal_planned_side_effects, journal_plan. destruct (dget node nodes) as [m|]; [|done].
  apply all_ok_concat. clear w. intros se w. unfold journal_effect, plan_effect.
  destruct (is_search node (effect_type se)).
  - unfold journal_search_operations. destruct (dget _ _) as [v|]; [|by rewrite all_ok_one].
    destruct (negb (truthy v)); [by rewrite all_ok_one|].
    destruct v; rewrite ?all_ok_one; try done. apply all_ok_concat. clear w. intros sq w.
    unfold journal_query, plan_query. destruct sq; rewrite ?all_ok_one; try done.
    destruct (query_terms _) as [terms|]; [|by rewrite all_ok_one].
    destruct (query_adapters _) as [names|]; [|by rewrite all_ok_one].
    by rewrite all_ok_map.
  - rewrite all_ok_one. destruct (String.eqb_spec (effect_type se) "memory_write") as [Em|]; [|done].
    unfold journal_item, reservation_key. cbn. by rewrite Em.
Qed.
(** The entry is declared and has a row that is past [planned]. *)
Definition covered (node : string) (w : World) (i : option Item) : Prop :=
  exists it x c, i = Some it /\
    assert_declared_side_effect nodes node (it_type it) (it_key it) = inr c /\
    x ∈ rows w /\ row_key x = (run, it_key it) /\ status x <> "planned".

Lemma covered_later node stp w w' evs r i :
  journalled node stp w w' evs r -> covered node w i -> covered node w' i.
Proof.
  intros Hj (it & x & c & -> & Ha & Hx & Hk & Hs). exists it, x, c. split_and!; try done.
  by destruct (jn_kept _ _ _ _ _ _ Hj x Hx) as [H|(_ & H & _)].
Qed.

Lemma items_journalled node env items : forall w w' r,
  dmem node nodes = true -> unique_rows w ->
  all_ok (journal_item node env) items w = (w', r) ->
  exists evs, journalled node (env_step_id env) w w' evs r /\
    (r = Ok true -> Forall (covered node w') items).
Proof.
  induction items as [|i items IH]; intros w w' r Hn Hu H; cbn in H.
  { injection H as <- <-. exists []. split; [by apply journalled_refl|]. constructor. }
  assert (Hone : forall w1 r1, journal_item node env i w = (w1, r1) ->
            exists evs, journalled node (env_step_id env) w w1 evs r1 /\
              (r1 = Ok true -> covered node w1 i)).
  { intros w1 r1 Hi. destruct i as [it|]; cbn in Hi.
    - destruct (journal_one_spec _ _ _ _ _ _ _ _ _ Hn Hu Hi) as (evs & Hj & Hc). exists evs.
      split; [done|]. intros Hr. destruct (Hc Hr) as (x & c & ? & ? & ? & ?). by exists it, x, c.
    - injection Hi as <- <-. exists []. split; [by apply journalled_refl|done]. }
  destruct (journal_item node env i w) as [w1 r1] eqn:Ei.
  destruct (Hone w1 r1 eq_refl) as (evs1 & J1 & C1). destruct r1 as [[]|e].
  - destruct (IH w1 w' r Hn (jn_unique _ _ _ _ _ _ J1) H) as (evs2 & J2 & C2).
    exists (evs1 ++ evs2). split; [by eapply journalled_trans|]. intros Hr.
    constructor; [|auto]. eapply covered_later; [exact J2|auto].
  - injection H as <- <-. by exists evs1.
  - injection H as <- <-. by exists evs1.
Qed.

Lemma node_journalled node env w w' r :
  unique_rows w -> journal_planned_side_effects sha256 run nodes adapters node env w = (w', r) ->
  exists evs, journalled node (env_step_id env) w w' evs r /\
    (r = Ok true -> Forall (covered node w') (journal_plan node env)).
Proof.
  intros Hu. rewrite journal_follows_plan. destruct (dmem node nodes) eqn:Hn.
  - by apply items_journalled.
  - unfold journal_plan. unfold dmem in Hn. destruct (dget node nodes); [done|]. intros [= <- <-].
    exists []. split; [by apply journalled_refl|]. constructor.
Qed.

(** The journal before a call is truthful and contained: the
    [side_effect_started] events are, once each, exactly the effects of the
    run that the call found planned or absent and left started; those have a
    capsule, every other row is untouched and none is lost; a row it adds
    belongs to the node and step and has a type the node declares; a
    violation is reported exactly when the answer is [False]. *)
Theorem journal_starts_declared node env w w' r :
  unique_rows w -> journal_planned_side_effects sha256 run nodes adapters node env w = (w', r) ->
  exists evs, jw_trace w' = jw_trace w ++ evs /\ NoDup (started_keys evs) /\
    (forall k, k ∈ started_keys evs <->
       started_in run k (rows w') /\ ~ started_in run k (rows w)) /\
    (forall x, x ∈ rows w -> x ∈ rows w' \/
       run_id x = run /\ status x = "planned" /\ idempotency_key x ∈ started_keys evs) /\
    (forall x, x ∈ rows w' -> x ∉ rows w ->
       run_id x = run /\ status x = "started" /\ capsule_status x = "available" /\
       idempotency_key x ∈ started_keys evs /\
       (row_key x ∉ map row_key (rows w) ->
        node_id x = node /\ step_id x = env_step_id env /\
        side_effect_type x ∈ get_declared_se_types nodes node)) /\
    violations evs = match r with Ok false => 1%nat | _ => 0%nat end.
Proof.
  intros Hu H. destruct (node_journalled _ _ _ _ _ Hu H) as (evs & J & _). exists evs.
  split_and!; try apply J.
  - intros k. split; [intros Hk; by apply (jn_started _ _ _ _ _ _ J) in Hk as (? & ? & _)|].
    intros [(x & Hx & Hk & Hs) Hno]. destruct (jn_changed _ _ _ _ _ _ J x Hx) as [Hw|(_ & _ & _ & Hin)].
    + destruct Hno. by exists x.
    + unfold row_key in Hk. by injection Hk as _ <-.
  - intros x Hx Hnew. destruct (jn_changed _ _ _ _ _ _ J x Hx) as [Hw|(? & ? & ? & ?)]; [done|].
    split_and!; try done. by apply (jn_new _ _ _ _ _ _ J).
Qed.

Lemma covered_again node env w i :
  unique_rows w -> covered node w i -> journal_item node env i w = (w, Ok true).
Proof.
  intros Hu (it & x & c & -> & Ha & Hx & Hk & Hs). cbn. unfold journal_one. rewrite Ha, key_lookup.
  rewrite (fetch_unique run (it_key it) (effect_db (jw_db w)) x Hu Hx Hk).
  by destruct (String.eqb_spec (status x) "planned").
Qed.

(** Rows past [planned] have stayed past it. *)
Definition no_restart (w w' : World) : Prop :=
  unique_rows w' /\
  forall x, x ∈ rows w -> status x <> "planned" ->
    exists x', x' ∈ rows w' /\ row_key x' = row_key x /\ status x' <> "planned".

(** After a successful journal everything the node plans is declared and on
    record, past [planned]; journalling the same call again, whatever happened
    to the started effects since, changes nothing and emits nothing. *)
Theorem journal_idempotent node env w w1 w2 :
  unique_rows w -> journal_planned_side_effects sha256 run nodes adapters node env w = (w1, Ok true) ->
  no_restart w1 w2 ->
  Forall (covered node w1) (journal_plan node env) /\
  journal_planned_side_effects sha256 run nodes adapters node env w2 = (w2, Ok true).
Proof.
  intros Hu H [Hu2 Hnr]. destruct (node_journalled _ _ _ _ _ Hu H) as (evs1 & J & Hc).
  specialize (Hc eq_refl). split; [done|]. rewrite journal_follows_plan.
  induction Hc as [|i l (it & x & c & -> & Ha & Hx & Hk & Hs) _ IH]; [done|]. cbn [all_ok].
  destruct (Hnr x Hx Hs) as (x' & Hx' & Hk' & Hs').
  rewrite (covered_again node env w2 (Some it)); [exact IH|exact Hu2|].
  exists it, x', c. split_and!; try done. congruence.
Qed.
End JournalProperties.

(** ** The capsule store implements the interface *)

Section CapsuleStore.
Context (aes_encrypt : string -> string -> string -> string -> string).
Context (aes_decrypt : string -> string -> string -> string -> option string).
Context (sha256 uuid5 : string -> string).
(** The answer of the key manager, and the draws. *)
Context (kek : option string) (draw : nat -> StartDraw).

Definition start_with_capsule (a : StartArgs) (n : nat) (db : CDb) : CDb * res capsule_error string :=
  start_side_effect_with_capsule aes_encrypt aes_decrypt sha256 uuid5 a kek (draw n) db.

Lemma start_tx_rows a c now db db' i :
  start_tx a c now db = Ok (db', i) -> row_started a (ledger (core db)) (ledger (core db')).
Proof.
  unfold start_tx. destruct (fetchone _ _) as [ex|] eqn:Ef.
  - apply fetchone_some in Ef as [Hex Hk]. apply at_key_true in Hk. case_match eqn:Hsa.
    + destruct (fetchone (fun x => _ && _) (capsules db)) as [cap|]; [|discriminate].
      intros H. inv_bind H. injection H as <- <-. bool_prop. by eapply StartedAlready.
    + intros H. inv_bind H. destruct (try_insert_capsule c (capsules db)) as [t o].
      inv_bind H. injection H as <- <-. apply guard_err_ok in Ha. bool_prop.
            exact (StartedExisting a _ ex (cap_id c) Hex Hk Ha).
  - destruct (try_insert_capsule c (capsules db)) as [t o]. intros H. inv_bind H.
    unfold insert_row in H. case_match eqn:Hu; [|discriminate]. case_match; [discriminate|].
    simplify_eq. cbn. apply StartedNew; try done.
    intros x Hx Hk. apply at_key_true in Hk. rewrite fetchone_none in Ef. by rewrite (Ef x Hx) in Hk.
Qed.

Lemma start_with_capsule_ok a n db db' i :
  start_with_capsule a n db = (db', Ok i) -> row_started a (ledger (core db)) (ledger (core db')).
Proof.
  intros H. apply start_inv in H as (k & bytes & keys & dek & ver & id & _ & _ & _ & _ & _ & Ht).
  by apply start_tx_rows in Ht.
Qed.

Lemma start_with_capsule_err a n db db' e :
  start_with_capsule a n db = (db', Err e) -> ledger (core db') = ledger (core db).
Proof. intros H. apply start_inv in H as [-> _]. done. Qed.

Definition capsule_effect_store : EffectStore CDb capsule_error := {|
  effect_db := core;
  start_effect := start_with_capsule;
  start_effect_ok := start_with_capsule_ok;
  start_effect_err := start_with_capsule_err;
|}.
End CapsuleStore.

(** ** The identity of a request *)

Lemma texts_map ss : texts (map VStr ss) = Some ss.
Proof. induction ss as [|s ss IH]; [done|]. cbn. unfold texts in IH. by rewrite IH. Qed.

Lemma normalize_dict d :
  normalize_for_hash d = VDict (py_sorted key_leb (map_snd normalize_value d)).
Proof. done. Qed.

Lemma normalize_plain v : json_plain v = true -> json_plain (normalize_value v) = true.
Proof.
  induction v as [| b | z | f | s | l IH | d IH] using pyval_nested_ind; try done.
  - intros Hp. cbn [normalize_value]. destruct (texts l) as [ss|]; [|done].
    change (forallb json_plain (map VStr (sort_str ss)) = true). by induction (sort_str ss).
  - rewrite json_plain_dict. intros [Hn Hp]. change (normalize_value (VDict d)) with (normalize_for_hash d).
    rewrite normalize_dict, json_plain_dict.
    assert (Hperm : py_sorted key_leb (map_snd normalize_value d) ≡ₚ map_snd normalize_value d)
      by apply py_sorted_perm.
    rewrite Hperm. split.
    + unfold map_snd. by rewrite map_map.
    + clear Hperm. induction Hp as [|[k x] d Hx _ IHp]; [constructor|].
      inversion IH as [|? ? Hi Hr]. subst. cbn in Hn. apply NoDup_cons in Hn as [_ Hn].
      constructor; [by apply Hi|by apply IHp].
Qed.

(** The canonical value of an operation. *)
Definition canonical_value (d : pyctx) : pyval := json_value sorted_options (normalize_for_hash d).

Lemma hash_input_value ty node op :
  json_value sorted_options
    (VDict [("type", VStr ty); ("node_id", VStr node); ("operation", normalize_for_hash op)]) =
  VDict [("node_id", VStr node); ("operation", canonical_value op); ("type", VStr ty)].
Proof. rewrite json_value_dict. done. Qed.

(** What is hashed identifies the request: two operations are given the same
    text exactly when type, node and canonical value agree. *)
Lemma hash_input_identifies ty node op ty' node' op' :
  json_plain (VDict op) = true -> json_plain (VDict op') = true ->
  hash_input ty node (Some op) None = hash_input ty' node' (Some op') None <->
  ty = ty' /\ node = node' /\ canonical_value op = canonical_value op'.
Proof.
  intros Hp Hp'.
  assert (Hplain : forall t n o, json_plain (VDict o) = true -> json_plain
            (VDict [("type", VStr t); ("node_id", VStr n); ("operation", normalize_for_hash o)]) = true).
  { intros t n o Ho%normalize_plain. cbn [json_plain]. apply andb_true_iff. split; [done|].
    change (normalize_value (VDict o)) with (normalize_for_hash o) in Ho. by rewrite Ho. }
  unfold hash_input. cbn [app]. split.
  - intros H. apply (f_equal loads) in H. rewrite !loads_dumps, !hash_input_value in H by auto.
    revert H. generalize (canonical_value op) (canonical_value op'). intros v v' [= -> -> ->]. done.
  - intros (-> & -> & H). rewrite <- (json_text_value _ (VDict [_; _; _])), hash_input_value, H.
    by rewrite <- hash_input_value, json_text_value.
Qed.

Lemma sort_str_eq l l' : sort_str l = sort_str l' <-> l ≡ₚ l'.
Proof.
  split.
  - intros H. rewrite <- (py_sorted_perm String.leb l), <- (py_sorted_perm String.leb l').
    by unfold sort_str in H; rewrite H.
  - intros H. unfold sort_str.
    assert (Hs : forall l, StronglySorted (fun x y => String.leb x y = true) (py_sorted String.leb l)).
    { intros l0. apply py_sorted_sorted; [apply String.leb_total|apply str_leb_trans]. }
    apply (sorting.StronglySorted_unique_strong (fun x y => String.leb x y = true)); try done.
    + intros x y _ _. apply String.leb_antisym.
    + by rewrite !py_sorted_perm.
Qed.

(** A search is identified by its type and node, by its terms up to their
    order, and by the canonical values of its bound and filters. *)
Theorem search_identity ty node q terms ty' node' q' terms' :
  json_plain (VDict (query_operation q terms)) = true ->
  json_plain (VDict (query_operation q' terms')) = true ->
  let max q := match dget "max_results" q with Some v => v | None => VInt 10 end in
  let filters q := match dget "filters" q with Some v => v | None => VDict [] end in
  let canon v := json_value sorted_options (normalize_value v) in
  hash_input ty node (Some (query_operation q terms)) None =
  hash_input ty' node' (Some (query_operation q' terms')) None <->
  ty = ty' /\ node = node' /\ terms ≡ₚ terms' /\ canon (max q) = canon (max q') /\
  canon (filters q) = canon (filters q').
Proof.
  intros Hp Hp' max filters canon. rewrite (hash_input_identifies _ _ _ _ _ _ Hp Hp').
  assert (Hv : forall q terms, canonical_value (query_operation q terms) =
            VDict [ ("filters", canon (filters q)); ("max", canon (max q));
                    ("terms", VList (map (json_value sorted_options) (map VStr (sort_str terms)))) ]).
  { intros q0 t0. unfold canonical_value. rewrite normalize_dict. unfold query_operation.
    cbn [map_snd map fst snd normalize_value]. rewrite texts_map.
    assert (sort_str (sort_str t0) = sort_str t0) as -> by (apply sort_str_eq, py_sorted_perm).
    change (py_sorted key_leb _) with
      [ ("filters", normalize_value (filters q0)); ("max", normalize_value (max q0));
        ("terms", VList (map VStr (sort_str t0))) ].
    rewrite json_value_dict. done. }
  rewrite !Hv.
  assert (Hm : forall l, map (json_value sorted_options) (map VStr l) = map VStr l).
  { intros l. rewrite map_map. by apply map_ext. }
  rewrite !Hm, <- sort_str_eq. split.
  - intros (-> & -> & [= H1 H2 H3]). split_and!; try done.
    revert H3. generalize (sort_str terms) (sort_str terms'). intros l.
    induction l as [|x l IH]; intros [|y l']; try done. intros [= -> H]. f_equal. auto.
  - intros (-> & -> & -> & -> & ->). done.
Qed.

(** ** Completion reports *)

(** The fields of a record; an absent one is "". *)
Record Report := mkReport {
  rp_key : string;
  rp_type : string;
  rp_status : string;
  rp_observed_by : string;
  rp_response_hash : string;
  rp_observed_at : string;
}.

Definition text_field (k : string) (d : pyctx) : option string :=
  match dget k d with None => Some "" | Some v => text_of v end.

(** The reads at the head of [_complete_reported_side_effect]. *)
Definition read_report (d : pyctx) : option Report :=
  k ← text_field "side_effect_key" d;
  t ← text_field "side_effect_type" d;
  s ← text_field "status" d;
  o ← text_field "observed_by" d;
  h ← text_field "response_hash" d;
  at_ ← text_field "observed_at" d;
  Some (mkReport k t s o h at_).

Definition ACCEPTED_COMPLETION_AUTHORITIES : list string := ["node"].

Definition opt_text (s : option string) : pyval := match s with Some s => VStr s | None => VNone end.

Definition or_blank (s : option string) : string := match s with Some s => s | None => "" end.

(** What to do with a report: the reason for its refusal, a replay of a known
    completion, or a completion under the canonical type. *)
Inductive report_verdict :=
| Refused (reason : string) (details : pyctx)
| Replayed
| Accepted (canonical : string).

(** The validation gate of [_complete_reported_side_effect]. *)
Definition judge_report (existing : option Row) (r : Report) : report_verdict :=
  match existing with
  | None => Refused "no_matching_started_side_effect" []
  | Some ex =>
      if (status ex =? "completed")%string then
        let old := or_blank (response_hash ex) in
        if str_truthy (rp_response_hash r) && (old =? rp_response_hash r)%string then Replayed
        else Refused "completion_response_hash_conflict"
               [ ("existing_response_hash", VStr old);
                 ("reported_response_hash", VStr (rp_response_hash r)) ]
      else if negb (status ex =? "started")%string then
        Refused "completion_requires_started_status" [ ("ledger_status", VStr (status ex)) ]
      else
        let canonical := normalize_side_effect_type (rp_type r) in
        let mismatch := Refused "type_mismatch"
          [ ("reported_type", VStr (rp_type r)); ("canonical_type", opt_text canonical);
            ("ledger_type", VStr (side_effect_type ex)) ] in
        match canonical with
        | None => mismatch
        | Some c =>
            if negb (rp_type r =? c)%string || negb (c =? side_effect_type ex)%string then mismatch
            else if negb (rp_status r =? "completed")%string then
              Refused "status_not_completed" [ ("reported_status", VStr (rp_status r)) ]
            else if negb (mem (rp_observed_by r) ACCEPTED_COMPLETION_AUTHORITIES) then
              Refused "unaccepted_authority"
                [ ("observed_by", VStr (rp_observed_by r));
                  ("accepted", VList (map VStr ACCEPTED_COMPLETION_AUTHORITIES)) ]
            else if negb (str_truthy (rp_response_hash r)) then Refused "empty_response_hash" []
            else if negb (str_truthy (rp_observed_at r)) then Refused "empty_observed_at" []
            else Accepted c
        end
  end.

Definition refusal (node key reason : string) (details : pyctx) : JournalEvent :=
  violation node "invalid_completion_report"
    (("side_effect_key", VStr key) :: details ++ [ ("reason", VStr reason) ]).

(** Database, trace and answer. *)
Definition reported : Type := Db * list JournalEvent * res (journal_error ledger_error) bool.

(** [_complete_reported_side_effect] *)
Definition complete_reported_side_effect (run node : string) (record : pyctx) (now : Z)
  (db : Db) (trace : list JournalEvent) : reported :=
  match read_report record with
  | None => (db, trace, Err BadShape)
  | Some r =>
      let existing := get_side_effect_by_key run (rp_key r) db in
      match judge_report existing r with
      | Refused reason details => (db, trace ++ [refusal node (rp_key r) reason details], Ok false)
      | Replayed => (db, trace, Ok true)
      | Accepted c =>
          match update_side_effect_status run (rp_key r) "completed" (Some (rp_response_hash r)) None
                  now db with
          | Ok (db', _) =>
              (db', trace ++ [completed_event node c (rp_key r)
                                (or_blank (existing ≫= request_hash)) (rp_response_hash r)], Ok true)
          | Err e => (db, trace, Err (LedgerRaised e))
          end
      end
  end.

Definition not_a_dict (node : string) : JournalEvent :=
  violation node "invalid_completion_report"
    [ ("reason", VStr "malformed_completion_record_not_dict") ].

Fixpoint complete_records (run node : string) (now : Z) (records : list pyval)
  (db : Db) (trace : list JournalEvent) : reported :=
  match records with
  | [] => (db, trace, Ok true)
  | VDict d :: rest =>
      match complete_reported_side_effect run node d now db trace with
      | (db', trace', Ok true) => complete_records run node now rest db' trace'
      | stop => stop
      end
  | _ :: _ => (db, trace ++ [not_a_dict node], Ok false)
  end.

(** [complete_reported_side_effects] of the controller *)
Definition complete_reported_side_effects (run node : string) (output : pyval) (now : Z)
  (db : Db) (trace : list JournalEvent) : reported :=
  match output with
  | VDict o =>
      match dget "side_effect_records" o with
      | Some (VList ((_ :: _) as l)) => complete_records run node now l db trace
      | _ => (db, trace, Ok true)
      end
  | _ => (db, trace, Ok true)
  end.

(** ** Resume *)

(** The updates one after the other; the first that raises ends the loop, the
    ones before it are committed. *)
Fixpoint update_each (run s : string) (now : Z) (keys : list string) (db : Db)
  : Db * res ledger_error unit :=
  match keys with
  | [] => (db, Ok tt)
  | k :: keys =>
      match update_side_effect_status run k s None None now db with
      | Ok (db', _) => update_each run s now keys db'
      | Err e => (db, Err e)
      end
  end.

(** [_reconcile_side_effects_on_resume] *)
Definition reconcile_side_effects_on_resume (run : string) (now : Z) (db : Db)
  : Db * res ledger_error unit :=
  let started := map idempotency_key (get_side_effects_by_status run "started" db) in
  let planned := map idempotency_key (get_side_effects_by_status run "planned" db) in
  match update_each run "unknown" now started db with
  | (db', Ok _) => update_each run "planned" now planned db'
  | stop => stop
  end.

(** ** What a completion report achieves *)

(** The report repeats the evidence on record. *)
Definition repeats (r : Report) (x : Row) : Prop :=
  status x = "completed" /\ rp_response_hash r <> "" /\ or_blank (response_hash x) = rp_response_hash r.

(** The report is full evidence for a started row. *)
Definition evidence (r : Report) (x : Row) : Prop :=
  status x = "started" /\ rp_type r = side_effect_type x /\
  normalize_side_effect_type (rp_type r) = Some (rp_type r) /\ rp_status r = "completed" /\
  rp_observed_by r = "node" /\ rp_response_hash r <> "" /\ rp_observed_at r <> "".

Definition to_completed (hash : string) (now : Z) (x : Row) : Row :=
  set_result (Some hash) None now (set_status "completed" x).

(** The verdict, by the row it is about. *)
Lemma judge_report_spec existing r :
  match judge_report existing r with
  | Replayed => exists x, existing = Some x /\ repeats r x
  | Accepted c => exists x, existing = Some x /\ evidence r x /\ c = rp_type r
  | Refused _ _ => forall x, existing = Some x -> ~ repeats r x /\ ~ evidence r x
  end.
Proof.
  unfold judge_report, repeats, evidence. destruct existing as [x|]; [|done].
  destruct (String.eqb_spec (status x) "completed") as [Hc|Hc].
  { destruct (str_truthy (rp_response_hash r)) eqn:Ht; cbn.
    - apply str_truthy_true in Ht. destruct (String.eqb_spec (or_blank (response_hash x)) (rp_response_hash r)).
      + by exists x.
      + intros y [= <-]. rewrite Hc. split; [naive_solver|]. by intros [? _].
    - intros y [= <-]. rewrite Hc. split; [|by intros [? _]]. intros (_ & H & _).
      apply str_truthy_true in H. congruence. }
  destruct (String.eqb_spec (status x) "started") as [Hs|Hs]; cbn; [|naive_solver].
  destruct (normalize_side_effect_type (rp_type r)) as [c|]; [|naive_solver].
  destruct (String.eqb_spec (rp_type r) c) as [<-|Hr]; cbn; [|naive_solver].
  destruct (String.eqb_spec (rp_type r) (side_effect_type x)) as [Et|]; cbn; [|naive_solver].
  destruct (String.eqb_spec (rp_status r) "completed"); cbn; [|naive_solver].
  destruct (String.eqb_spec (rp_observed_by r) "node") as [Eo|]; cbn; [|naive_solver].
  destruct (str_truthy (rp_response_hash r)) eqn:Hh; cbn.
  2: { intros y [= <-]. split; [naive_solver|]. intros (_ & _ & _ & _ & _ & H & _).
       apply str_truthy_true in H. congruence. }
  destruct (str_truthy (rp_observed_at r)) eqn:Ha; cbn.
  2: { intros y [= <-]. split; [naive_solver|]. intros (_ & _ & _ & _ & _ & _ & H).
       apply str_truthy_true in H. congruence. }
  apply str_truthy_true in Hh, Ha. by exists x.
Qed.

(** The ordinary update of a started effect: the fence of a recovery child is
    the only obstacle. *)
Lemma update_started run key s resp now db x :
  fetchone (at_key run key) (ledger db) = Some x -> status x = "started" ->
  s ∈ ["completed"; "failed"; "unknown"] ->
  update_side_effect_status run key s resp None now db =
  if is_null (parent_side_effect_key x) then
    Ok (with_ledger (update_where (at_key run key) (fun r => set_result resp None now (set_status s r))
                       (ledger db)) db, tt)
  else Err (RecoveryError "RECOVERY_CHILD_REQUIRES_FENCED_TRANSITION").
Proof.
  intros Hf Hs Hin. unfold update_side_effect_status. rewrite Hf.
  destruct (is_null (parent_side_effect_key x)); [|done]. cbn.
  unfold parent_guard, completed_replay, unknown_guard, validate_side_effect_transition.
  rewrite Hs. apply mem_true in Hin. change (dget_or "started" [] LEGAL_TRANSITIONS) with
    ["completed"; "failed"; "unknown"]. by rewrite Hin.
Qed.

(** A report is decided by its evidence alone: it is answered [True] exactly
    when it is full evidence for a started effect, which it completes, storing
    the response hash and emitting one event, or repeats the evidence of a
    completed one, and then nothing happens; anything else is refused with one
    violation and changes no row; only a recovery child, which belongs to its
    fence, makes the update raise. *)
Theorem completion_decided run node record r now db trace db' trace' answer :
  unique db -> read_report record = Some r ->
  complete_reported_side_effect run node record now db trace = (db', trace', answer) ->
  let at_row P := exists x, x ∈ ledger db /\ row_key x = (run, rp_key r) /\ P x in
  match answer with
  | Ok true =>
      at_row (fun x => repeats r x) /\ db' = db /\ trace' = trace \/
      at_row (fun x => evidence r x /\ parent_side_effect_key x = None /\
        ledger db' = update_where (at_key run (rp_key r)) (to_completed (rp_response_hash r) now)
                       (ledger db) /\
        trace' = trace ++ [completed_event node (rp_type r) (rp_key r) (or_blank (request_hash x))
                             (rp_response_hash r)])
  | Ok false =>
      ~ at_row (fun x => repeats r x \/ evidence r x) /\ db' = db /\
      exists reason details, trace' = trace ++ [refusal node (rp_key r) reason details]
  | Err _ =>
      at_row (fun x => evidence r x /\ parent_side_effect_key x <> None) /\ db' = db /\ trace' = trace
  end.
Proof.
  intros Hu Hr. unfold complete_reported_side_effect. rewrite Hr, key_lookup.
  pose proof (judge_report_spec (fetchone (at_key run (rp_key r)) (ledger db)) r) as Hj.
  assert (Hrow : forall x, fetchone (at_key run (rp_key r)) (ledger db) = Some x ->
            x ∈ ledger db /\ row_key x = (run, rp_key r)).
  { intros x Hx. apply fetchone_some in Hx as [? Hk]. split; [done|]. by apply at_key_true. }
  destruct (judge_report _ r) as [reason details| |c].
  - intros [= <- <- <-]. split_and!; [|done|by exists reason, details].
    intros (x & Hx & Hk & Hp). destruct (Hj x (fetch_unique _ _ _ _ Hu Hx Hk)) as [? ?]. naive_solver.
  - intros [= <- <- <-]. left. destruct Hj as (x & Hf & Hp). destruct (Hrow x Hf). by split; [exists x|].
  - destruct Hj as (x & Hf & Hev & ->). destruct (Hrow x Hf) as [Hx Hk].
    rewrite (update_started _ _ _ _ _ _ _ Hf (proj1 Hev)) by set_solver.
    destruct (is_null (parent_side_effect_key x)) eqn:Hp; intros [= <- <- <-].
    + right. exists x. apply is_null_true in Hp. rewrite Hf. done.
    + split; [|done]. exists x. split_and!; try done. intros Hnone. apply is_null_true in Hnone.
      congruence.
Qed.

(** ** What a resume does to the effects *)

Definition to_unknown (now : Z) (x : Row) : Row := set_result None None now (set_status "unknown" x).

Definition open_in (run s : string) (x : Row) : bool :=
  (run_id x =? run)%string && (status x =? s)%string.

Lemma by_status_elem run s db x :
  x ∈ get_side_effects_by_status run s db <-> x ∈ ledger db /\ open_in run s x = true.
Proof.
  unfold get_side_effects_by_status, get_side_effects, select, open_in.
  rewrite !list_elem_of_In, !List.filter_In, andb_true_iff. naive_solver.
Qed.

(** The keys of the chosen rows, updated one after the other. *)
Definition fenced_off (run key : string) (db : Db) : Prop :=
  exists x, x ∈ ledger db /\ row_key x = (run, key) /\ parent_side_effect_key x <> None.

Lemma unknown_next run k keys now t :
  k ∉ keys ->
  update_where (fun x => (run_id x =? run)%string && mem (idempotency_key x) keys) (to_unknown now)
    (update_where (at_key run k) (to_unknown now) t) =
  update_where (fun x => (run_id x =? run)%string && mem (idempotency_key x) (k :: keys))
    (to_unknown now) t.
Proof.
  intros Hk%mem_false. unfold update_where. rewrite map_map. apply map_ext. intros y.
  change (mem (idempotency_key y) (k :: keys))
    with ((idempotency_key y =? k)%string || mem (idempotency_key y) keys).
  unfold at_key. destruct (String.eqb_spec (run_id y) run) as [Er|Er]; cbn [andb].
  - destruct (String.eqb_spec (idempotency_key y) k) as [Ek|Ek]; cbn [orb].
    + change (run_id (to_unknown now y)) with (run_id y).
      change (idempotency_key (to_unknown now y)) with (idempotency_key y).
      by rewrite Er, Ek, Hk, andb_false_r.
    + by rewrite Er, String.eqb_refl.
  - by destruct (String.eqb_spec (run_id y) run).
Qed.

Lemma update_each_unknown run now keys : forall db db' r,
  unique db -> NoDup keys ->
  (forall k, k ∈ keys -> exists x, x ∈ ledger db /\ row_key x = (run, k) /\ status x = "started") ->
  update_each run "unknown" now keys db = (db', r) ->
  unique db' /\
  (forall x, x ∈ ledger db -> x ∈ ledger db' \/ run_id x = run /\ idempotency_key x ∈ keys /\
     to_unknown now x ∈ ledger db') /\
  (r = Ok tt <-> forall k, k ∈ keys -> ~ fenced_off run k db) /\
  (r = Ok tt -> ledger db' =
     update_where (fun x => (run_id x =? run)%string && mem (idempotency_key x) keys) (to_unknown now)
       (ledger db)).
Proof.
  induction keys as [|k keys IH]; intros db db' r Hu Hn Hs H; cbn in H.
  - injection H as <- <-. split_and!; try done; [by left|split; [|done]; set_solver|].
    intros _. symmetry. unfold update_where. rewrite <- (map_id (ledger db)) at 2.
    apply map_ext. intros x. by rewrite andb_false_r.
  - apply NoDup_cons in Hn as [Hk Hn].
    assert (Hne : forall k', k' ∈ keys -> k' <> k) by (by intros k' Hk' ->).
    assert (Hcons : forall k', k' ∈ keys -> k' ∈ k :: keys) by (intros; by right).
    destruct (Hs k) as (x & Hx & Hxk & Hst); [left|].
    pose proof (fetch_unique _ _ _ _ Hu Hx Hxk) as Hf.
    rewrite (update_started _ _ _ _ _ _ _ Hf Hst) in H by set_solver.
    destruct (is_null (parent_side_effect_key x)) eqn:Hp.
    + set (db1 := with_ledger _ db) in H.
      assert (Hkeys : map row_key (ledger db1) = map row_key (ledger db)) by (by apply map_update_where).
      assert (Hold : forall y, y ∈ ledger db -> row_key y <> (run, k) -> y ∈ ledger db1).
      { intros y Hy Hyne. apply elem_of_update_where. exists y. split; [done|].
        by destruct (at_key run k y) eqn:E; [apply at_key_true in E|]. }
      assert (Hback : forall y, y ∈ ledger db1 -> row_key y <> (run, k) -> y ∈ ledger db).
      { intros y (z & Hz & ->)%elem_of_update_where Hyne. destruct (at_key run k z) eqn:E; [|done].
        destruct Hyne. by apply at_key_true in E. }
      destruct (IH db1 db' r) as (I1 & I2 & I3 & I4).
      { unfold unique. by rewrite Hkeys. }
      { done. }
      { intros k' Hk'. destruct (Hs k' (Hcons k' Hk')) as (y & Hy & Hyk & Hys). exists y.
        split_and!; try done. apply Hold; [done|]. specialize (Hne k' Hk'). congruence. }
      { exact H. }
      split_and!; [exact I1| | |].
      * intros y Hy. destruct (decide (row_key y = (run, k))) as [Hyk|Hyk].
        -- right. assert (y = x) as ->.
           { apply (unique_key row_key (ledger db)); try done. congruence. }
           assert (Hin : to_unknown now x ∈ ledger db1).
           { apply elem_of_update_where. exists x. split; [done|]. by apply at_key_true in Hxk as ->. }
           destruct (I2 _ Hin) as [H2|(_ & H2 & _)].
           ++ injection Hxk as H3 H4. rewrite H4. split_and!; [done|left|done].
           ++ injection Hxk as H3 H4. cbn in H2. rewrite H4 in H2. done.
        -- destruct (I2 y (Hold y Hy Hyk)) as [H2|(H2 & H3 & H4)]; [by left|right; auto].
      * rewrite I3. unfold fenced_off. split.
        -- intros Hall k' Hk' (y & Hy & Hyk & Hyp). apply elem_of_cons in Hk' as [->|Hk'].
           ++ assert (y = x) as -> by (apply (unique_key row_key (ledger db)); try done; congruence).
              apply Hyp. by apply is_null_true in Hp.
           ++ apply (Hall k' Hk'). exists y. split_and!; try done. apply Hold; [done|].
              specialize (Hne k' Hk'). congruence.
        -- intros Hall k' Hk' (y & Hy & Hyk & Hyp). apply (Hall k' (Hcons k' Hk')). exists y.
           split_and!; try done. apply Hback; [done|]. specialize (Hne k' Hk'). congruence.
      * intros Hr. rewrite (I4 Hr). by apply unknown_next.
    + injection H as <- <-. split_and!; try done; [by left|].
      split; [discriminate|]. intros Hall. exfalso. apply (Hall k); [left|].
      exists x. split_and!; try done. intros Hnone. apply is_null_true in Hnone. congruence.
Qed.

Lemma update_planned run key now db x :
  fetchone (at_key run key) (ledger db) = Some x -> status x = "planned" ->
  exists e, update_side_effect_status run key "planned" None None now db = Err e.
Proof.
  intros Hf Hs. unfold update_side_effect_status. rewrite Hf.
  destruct (is_null (parent_side_effect_key x)); cbn; [|by eexists].
  unfold parent_guard, completed_replay, validate_side_effect_transition. rewrite Hs. cbn. by eexists.
Qed.

Lemma by_status_key run s db k :
  k ∈ map idempotency_key (get_side_effects_by_status run s db) <->
  exists x, x ∈ ledger db /\ row_key x = (run, k) /\ status x = s.
Proof.
  rewrite list_elem_of_In, in_map_iff. setoid_rewrite <- list_elem_of_In.
  setoid_rewrite by_status_elem. unfold open_in, row_key. split.
  - intros (x & <- & Hx & Ho). bool_prop. exists x. naive_solver.
  - intros (x & Hx & [= H1 H2] & Hs). exists x. split_and!; [done|done|].
    by rewrite H1, Hs, !String.eqb_refl.
Qed.

Lemma by_status_nodup run s db :
  unique db -> NoDup (map idempotency_key (get_side_effects_by_status run s db)).
Proof.
  intros Hu. unfold unique in Hu. unfold get_side_effects_by_status, get_side_effects, select.
  induction (ledger db) as [|x l IH]; cbn in *; [constructor|].
  apply NoDup_cons in Hu as [Hx Hu]. specialize (IH Hu).
  destruct (String.eqb_spec (run_id x) run) as [Hr|]; [|done]. cbn.
  destruct (status x =s? s); [|done]. cbn. apply NoDup_cons. split; [|done].
  intros (y & Hk & Hy)%list_elem_of_In%in_map_iff. apply Hx.
  apply List.filter_In in Hy as [Hy _]. apply List.filter_In in Hy as [Hy Hyr].
  apply list_elem_of_In, in_map_iff. exists y. split; [|done]. bool_prop. unfold row_key. congruence.
Qed.

(** When the repair of a resumed run succeeds: the run has no planned effect
    and no started recovery child - for either of them an update is asked that
    the ledger refuses; when it raises, the updates before are kept. *)
Lemma resume_decided run now db db' r :
  unique db -> reconcile_side_effects_on_resume run now db = (db', r) ->
  (r = Ok tt <-> forall x, x ∈ ledger db -> run_id x = run ->
     status x <> "planned" /\ (status x = "started" -> parent_side_effect_key x = None)) /\
  (r = Ok tt -> ledger db' = update_where (open_in run "started") (to_unknown now) (ledger db)) /\
  (forall x, x ∈ ledger db ->
     x ∈ ledger db' \/ run_id x = run /\ status x = "started" /\ to_unknown now x ∈ ledger db').
Proof.
  intros Hu H. unfold reconcile_side_effects_on_resume in H.
  set (started := map _ (get_side_effects_by_status run "started" db)) in H.
  set (planned := map _ (get_side_effects_by_status run "planned" db)) in H.
  destruct (update_each run "unknown" now started db) as [db1 r1] eqn:E1.
  destruct (update_each_unknown run now started db db1 r1) as (U1 & K1 & O1 & L1);
    [done|by apply by_status_nodup|by intros k Hk%by_status_key|exact E1|].
  assert (Hstart : forall x, x ∈ ledger db -> run_id x = run ->
            (idempotency_key x ∈ started <-> status x = "started")).
  { intros x Hx Hr. unfold started. rewrite by_status_key. split.
    - intros (y & Hy & Hk & Hs). enough (y = x) as -> by done.
      apply (unique_key row_key (ledger db)); try done. unfold row_key in *. congruence.
    - intros Hs. exists x. split_and!; try done. unfold row_key. congruence. }
  assert (Hch : forall x, x ∈ ledger db ->
            x ∈ ledger db1 \/ run_id x = run /\ status x = "started" /\ to_unknown now x ∈ ledger db1).
  { intros x Hx. destruct (K1 x Hx) as [?|(Hr & Hk & ?)]; [by left|]. right.
    split_and!; try done. by apply Hstart. }
  assert (Hok1 : r1 = Ok tt <-> forall x, x ∈ ledger db -> run_id x = run -> status x = "started" ->
            parent_side_effect_key x = None).
  { rewrite O1. unfold fenced_off. split.
    - intros Hall x Hx Hr Hs. destruct (parent_side_effect_key x) eqn:Hp; [|done]. exfalso.
      apply (Hall (idempotency_key x)); [by apply Hstart|]. exists x. unfold row_key.
      split_and!; [done|congruence|congruence].
    - intros Hall k Hk (x & Hx & Hxk & Hp). apply Hp. injection Hxk as Hr <-. apply Hall; try done.
      by apply Hstart. }
  assert (Hl1 : r1 = Ok tt -> ledger db1 = update_where (open_in run "started") (to_unknown now) (ledger db)).
  { intros Hr. rewrite (L1 Hr). unfold update_where. apply map_ext_in. intros x Hx%list_elem_of_In.
    unfold open_in. destruct (String.eqb_spec (run_id x) run) as [Er|]; [|done]. cbn [andb].
    destruct (String.eqb_spec (status x) "started") as [Es|Es].
    - assert (mem (idempotency_key x) started = true) as -> by (by apply mem_true, Hstart). done.
    - assert (mem (idempotency_key x) started = false) as ->; [|done].
      apply mem_false. by rewrite Hstart. }
  destruct r1 as [[]|e].
  - destruct planned as [|k rest] eqn:Ep; cbn in H.
    + injection H as <- <-. split_and!; [|auto|done]. split; [|done]. intros _ x Hx Hr. split.
      * intros Hs. assert (idempotency_key x ∈ planned) as Hin.
        { apply by_status_key. exists x. split_and!; try done. unfold row_key. congruence. }
        rewrite Ep in Hin. by apply elem_of_nil in Hin.
      * by apply Hok1.
    + assert (Hin : k ∈ planned) by (rewrite Ep; left).
      apply by_status_key in Hin as (x & Hx & Hk & Hs).
      destruct (Hch x Hx) as [Hx1|(_ & Hs' & _)]; [|congruence].
      destruct (update_planned run k now db1 x) as [e Hup]; [by apply fetch_unique|done|].
      rewrite Hup in H. injection H as <- <-. split_and!; [|done|done].
      split; [discriminate|]. intros Hall. injection Hk as Hr _. by destruct (Hall x Hx Hr).
  - injection H as <- <-. split_and!; [|done|done].
    rewrite Hok1. split; [intros; split|naive_solver]; [|by auto].
    intros Hs. assert (@Err ledger_error unit e = Ok tt) by (by apply Hok1). discriminate.
Qed.

(** C35: On a run whose effects were all started directly - none is planned
    and none of the started ones is the child of a recovery - the repair of a
    resume succeeds, turns every effect that a crash left started into an
    unknown one, and changes no other effect, of this run or another. *)
Theorem resume_outcome run now db :
  unique db ->
  (forall x, x ∈ ledger db -> run_id x = run ->
     status x <> "planned" /\ (status x = "started" -> parent_side_effect_key x = None)) ->
  exists db', reconcile_side_effects_on_resume run now db = (db', Ok tt) /\
    ledger db' = update_where (open_in run "started") (to_unknown now) (ledger db).
Proof.
  intros Hu Hx. destruct (reconcile_side_effects_on_resume run now db) as [db' r] eqn:E.
  destruct (resume_decided _ _ _ _ _ Hu E) as (H1 & H2 & _). assert (r = Ok tt) as -> by by apply H1.
  exists db'. split; [done | by apply H2].
Qed.

(** ** A search, its report, and a crash *)

Definition demo_manifest (effects : list SideEffect) : NodeManifest :=
  mkManifest "2" (mkContract "search.v1" "search_tool" "3" (mkEntry "plan" "s" [] [])
                    (mkExit "results" "s" [] [] None) effects demo_requirements).
Definition demo_nodes : dict NodeManifest :=
  [ ("search_tool", demo_manifest [mkSideEffect "external_call" "search_apis" false;
                                   mkSideEffect "memory_write" "store" false]) ].
Definition demo_query : pyctx :=
  [ ("terms", VList [VStr "b"; VStr "a"]); ("target_adapters", VList [VStr "arxiv"; VStr "pubmed"]) ].
Definition demo_envelope : InvocationEnvelope :=
  mkEnvelope "e" "r" "c" "search_tool" 4 0 [ ("search_queries", VList [VDict demo_query]) ]
    default_context default_capabilities [] None.

Definition short_hash (s : string) : string := str_int (Z.of_nat (String.length s)).

Definition demo_store : EffectStore CDb capsule_error :=
  capsule_effect_store toy_encrypt toy_decrypt toy_hash toy_hash (Some "kek") (fun _ => demo_draw).

Definition demo_before : @World CDb := mkJournalWorld empty_cdb [] 0.
Definition demo_journal (w : @World CDb) : @World CDb * res (journal_error capsule_error) bool :=
  @journal_planned_side_effects CDb capsule_error demo_store short_hash "r" demo_nodes
    [("arxiv", "1.2.0")] "search_tool" demo_envelope w.
Definition demo_after : @World CDb := fst (demo_journal demo_before).

Example demo_keys :
  started_keys (jw_trace demo_after) = ["search:arxiv:113"; "search:pubmed:113"; "search_tool:memory_write:4"] /\
  snd (demo_journal demo_before) = Ok true.
Proof. vm_compute. done. Qed.

Lemma journal_starts_declared_witness :
  exists evs, jw_trace demo_after = [] ++ evs /\ NoDup (started_keys evs).
Proof.
  destruct (@journal_starts_declared CDb capsule_error demo_store short_hash "r" demo_nodes
    [("arxiv", "1.2.0")] "search_tool" demo_envelope demo_before demo_after
    (snd (demo_journal demo_before))) as (evs & H1 & H2 & _).
  - constructor.
  - vm_compute. reflexivity.
  - exists evs. split; [exact H1|exact H2].
Defined.

Lemma journal_idempotent_witness : demo_journal demo_after = (demo_after, Ok true).
Proof.
  apply (@journal_idempotent CDb capsule_error demo_store short_hash "r" demo_nodes
    [("arxiv", "1.2.0")] "search_tool" demo_envelope demo_before demo_after demo_after).
  - constructor.
  - vm_compute. reflexivity.
  - split.
    + apply (bool_decide_unpack _). vm_compute. exact I.
    + intros x Hx Hs. by exists x.
Defined.

Definition demo_report (hash : string) : pyctx :=
  [ ("side_effect_key", VStr "search:arxiv:113"); ("side_effect_type", VStr "external_call");
    ("status", VStr "completed"); ("observed_by", VStr "node"); ("response_hash", VStr hash);
    ("observed_at", VStr "t") ].
Definition demo_completed : reported :=
  complete_reported_side_effects "r" "search_tool"
    (VDict [("side_effect_records", VList [VDict (demo_report "h1")])]) 9 (core (jw_db demo_after)) [].

(** A second report with other evidence is refused. *)
Definition demo_conflict : reported :=
  complete_reported_side_effect "r" "search_tool" (demo_report "h2") 9 (fst (fst demo_completed)) [].

Lemma completion_decided_witness :
  fst (fst demo_conflict) = fst (fst demo_completed).
Proof.
  refine (proj1 (proj2 (completion_decided "r" "search_tool" (demo_report "h2")
    (mkReport "search:arxiv:113" "external_call" "completed" "node" "h2" "t") 9
    (fst (fst demo_completed)) [] (fst (fst demo_conflict)) (snd (fst demo_conflict)) (Ok false) _ _ _))).
  - apply (bool_decide_unpack _). vm_compute. exact I.
  - reflexivity.
  - vm_compute. reflexivity.
Defined.

Lemma resume_outcome_witness :
  exists db', reconcile_side_effects_on_resume "r" 10 (core (jw_db demo_after)) = (db', Ok tt) /\
    ledger db' = update_where (open_in "r" "started") (to_unknown 10) (ledger (core (jw_db demo_after))).
Proof.
  apply (resume_outcome "r" 10 (core (jw_db demo_after))).
  - apply (bool_decide_unpack _). vm_compute. exact I.
  - assert (Forall (fun x => status x = "started" /\ parent_side_effect_key x = None) (ledger (core (jw_db demo_after)))) as H
      by (vm_compute; repeat constructor).
    rewrite Forall_forall in H. intros x Hx _. destruct (H x Hx) as [Hs Hp]. rewrite Hs. by split.
Defined.

Lemma search_identity_witness :
  hash_input "external_call" "n" (Some (query_operation demo_query ["a"; "b"])) None =
  hash_input "external_call" "n" (Some (query_operation [] ["b"; "a"])) None.
Proof.
  apply (search_identity "external_call" "n" demo_query ["a"; "b"] "external_call" "n" [] ["b"; "a"]).
  - reflexivity.
  - reflexivity.
  - split_and!; try reflexivity. apply perm_swap.
Defined.

(** An effect declared under an alias gets one hash in its key and another in
    its row. *)
Example alias_hash_differs :
  let f ty := compute_side_effect_request_hash short_hash ty "search_tool" None
                (Some (query_operation demo_query ["a"])) in
  normalize_side_effect_type "external_api_read" = Some "external_call" /\
  f "external_api_read" <> f "external_call".
Proof. vm_compute. done. Qed.

(** A planned recovery child stops the resume of its run. *)
Example resume_stops_on_planned_child :
  snd (reconcile_side_effects_on_resume "r" 10 db_child) =
  Err (RecoveryError "RECOVERY_CHILD_REQUIRES_FENCED_TRANSITION").
Proof. vm_compute. done. Qed.
