(* ===== verification/ChainState.v ===== *)
(** * Chain state

    [core/state.py]: the mutable state of a run and the copy a transition is
    built on.  Times are texts, as the code stores them. *)
From S2P Require Import Prelude PyFloat PyValue.

Record LoopState := mkLoopState {
  iteration : Z;
  entered_at : string;
  loop_reason : string;
}.

Record HumanReviewState := mkReview {
  requested : bool;
  decision : option string;
  reviewer : option string;
  decided_at : option string;
  timeout_at : option string;
}.

Record ChainState := mkState {
  run_id : string;
  chain_id : string;
  status : string;
  current_node : string;
  step : Z;
  started_at : string;
  paused_at : option string;
  completed_at : option string;
  outputs : pyctx;
  loop_state : dict LoopState;
  cost_accumulated_usd : pyfloat;
  human_review : HumanReviewState;
  metadata : pyctx;
  branch_outputs : dict pyctx;
  join_inputs : dict pyctx;
  skipped_nodes : list pyctx;
  routing_decisions : list pyctx;
  branch_states : dict string;
  revision : Z;
  completed_steps : list (Z * string);
  side_effects : list pyctx;
  is_resumed : bool;
  blueprint_version : string;
  execution_order_hash : string;
}.

(** The defaults of the model, [ChainState(run_id=..., started_at=...)]. *)
Definition initial_state (run started : string) : ChainState :=
  mkState run "" "initialized" "" 0 started None None [] [] fzero
    (mkReview false None None None None) [] [] [] [] [] [] 0 [] [] false "" "".

Definition with_loop_state (ls : dict LoopState) (s : ChainState) : ChainState :=
  mkState (run_id s) (chain_id s) (status s) (current_node s) (step s) (started_at s)
    (paused_at s) (completed_at s) (outputs s) ls (cost_accumulated_usd s) (human_review s)
    (metadata s) (branch_outputs s) (join_inputs s) (skipped_nodes s) (routing_decisions s)
    (branch_states s) (revision s) (completed_steps s) (side_effects s) (is_resumed s)
    (blueprint_version s) (execution_order_hash s).
