(* ===== verification/LoopEnforcer.v ===== *)
(** * Loop policies

    [runtime/loop_enforcer.py]: the condition language of loop definitions
    and the entry, budget and exit checks.  The regular expressions are
    written out as functions on the text; [strict] is the governance switch
    the code reads from the environment; a reason is given by its case. *)
From S2P Require Import Prelude PyFloat PyValue Policy Blueprint ChainState.

(** ** Conditions *)

Inductive condition_error :=
| InvalidSyntax (condition : string)
| UnknownVariable (var : string)
| CannotCompare (op : cmp_op).

#[export] Instance condition_error_eq_dec : EqDecision condition_error.
Proof. solve_decision. Defined.

(** [\w] *)
Definition is_word (c : ascii) : bool :=
  let n := nat_of_ascii c in
  (Nat.leb 48 n && Nat.leb n 57) || (Nat.leb 65 n && Nat.leb n 90)
  || (Nat.leb 97 n && Nat.leb n 122) || Nat.eqb n 95.

Definition newline : string := String (ascii_of_nat 10) "".

(** The operators in the order of the alternation. *)
Definition compare_ops : list cmp_op := [OGe; OLe; ONe; OEq; OGt; OLt].

(** [<op>\s*(.+?)\s*$] on a text that ends in no blank: the value is what is
    left after the blanks, and it must be non-empty and in one line. *)
Definition match_op (s : string) (o : cmp_op) : option (cmp_op * string) :=
  match drop_prefix (op_text o) s with
  | Some rest =>
      let v := lstrip_by is_space rest in
      if str_truthy v && negb (contains newline v) then Some (o, v) else None
  | None => None
  end.

Fixpoint first_some {A B} (f : A -> option B) (l : list A) : option B :=
  match l with
  | [] => None
  | x :: t => match f x with Some y => Some y | None => first_some f t end
  end.

(** [_COMPARE_RE.match] on a stripped condition. *)
Definition compare_re (s : string) : option (string * cmp_op * string) :=
  let '(var, rest) := span is_word s in
  if str_truthy var then
    match first_some (match_op (lstrip_by is_space rest)) compare_ops with
    | Some (o, v) => Some (var, o, v)
    | None => None
    end
  else None.

(** [_NUMERIC_RE]: an optional sign, digits, and optionally a dot and digits. *)
Definition numeric_re (s : string) : bool :=
  let body := match drop_prefix "-" s with Some b => b | None => s end in
  let '(int_part, rest) := span is_digit body in
  str_truthy int_part &&
  match rest with
  | EmptyString => true
  | String c frac =>
      let '(d, r) := span is_digit frac in
      Ascii.eqb c "."%char && str_truthy d && negb (str_truthy r)
  end.

(** [int(text)] of a text of an optional sign and digits. *)
Definition int_of_text (s : string) : Z :=
  let '(neg, body) := match drop_prefix "-" s with
                      | Some b => (true, b) | None => (false, s) end in
  let m := fold_left (fun acc c => 10 * acc + default 0 (digit_of c))
             (String.list_ascii_of_string body) 0 in
  if (neg : bool) then - m else m.

Definition BOOL_VALUES : list string := ["true"; "false"; "yes"; "no"].

(** The value a condition compares with. *)
Definition parse_value (raw : string) : pyval :=
  if mem (lower raw) BOOL_VALUES then VBool (mem (lower raw) ["true"; "yes"])
  else if numeric_re raw then
    if contains "." raw
    then match parse_float raw with Some f => VFloat f | None => VStr raw end
    else VInt (int_of_text raw)
  else VStr raw.

(** A text is turned into a number next to one, when [float()] takes it. *)
Definition coerce_right (left right : pyval) : pyval :=
  match as_num left, right with
  | Some _, VStr s => match parse_float (strip s) with Some f => VFloat f | None => right end
  | _, _ => right
  end.

(** [left <op> right] on numbers and texts; an order between a number and a
    text is a [TypeError]. *)
Definition str_cmp (o : cmp_op) (a b : string) : bool :=
  match o with
  | OGe => String.leb b a | OLe => String.leb a b
  | OGt => String.ltb b a | OLt => String.ltb a b
  | OEq => a =s? b | ONe => negb (a =s? b)
  end.

Definition num_test (o : cmp_op) (a b : num) : bool :=
  match o with
  | OGe => num_ge a b | OLe => num_le a b | OGt => num_gt a b | OLt => num_lt a b
  | OEq => num_eq a b | ONe => negb (num_eq a b)
  end.

Definition py_compare (o : cmp_op) (left right : pyval) : res condition_error bool :=
  match as_num left, as_num right with
  | Some a, Some b => Ok (num_test o a b)
  | _, _ =>
      match left, right with
      | VStr a, VStr b => Ok (str_cmp o a b)
      | _, _ =>
          match o with
          | OEq => Ok (py_eq left right)
          | ONe => Ok (negb (py_eq left right))
          | _ => Err (CannotCompare o)
          end
      end
  end.

Definition evaluate_condition (condition : string) (ctx : pyctx) : res condition_error bool :=
  if negb (str_truthy condition) || negb (str_truthy (strip condition)) then Ok true
  else
    match compare_re (strip condition) with
    | None => Err (InvalidSyntax (strip condition))
    | Some (var, o, raw) =>
        match dget var ctx with
        | None => Err (UnknownVariable var)
        | Some lv => py_compare o lv (coerce_right lv (parse_value (strip raw)))
        end
    end.

(** ** The checks *)

Inductive loop_reason_case :=
| StrictUnparseable (condition : string)
| EntryNotMet (condition : string)
| BudgetExceeded (cost : pyfloat) (budget : pyval)
| ExitMet (condition : string)
| ExitError (e : condition_error).

Record LoopEnforcementResult := mkResult {
  allowed : bool;
  reason : option loop_reason_case;
  check_type : string;
  result_loop_id : string;
  context : pyctx;
  advisory : option string;
}.

Definition build_context (loop : LoopDef) (state : ChainState) (cost : pyfloat) : pyctx :=
  [ ("iteration", VInt match dget (loop_id loop) (loop_state state) with
                       | Some ls => iteration ls | None => 0 end);
    ("cost", VFloat cost);
    ("max_iterations", VInt (max_iterations loop));
    ("max_cost_usd", VFloat (max_cost_usd loop));
    ("loop_id", VStr (loop_id loop)) ].

Section Checks.
Context (strict : bool).

Definition check_entry (loop : LoopDef) (state : ChainState) (cost : pyfloat)
  : LoopEnforcementResult :=
  let ctx := build_context loop state cost in
  match evaluate_condition (entry_condition loop) ctx with
  | Err _ =>
      if strict then
        mkResult false (Some (StrictUnparseable (entry_condition loop))) "entry"
          (loop_id loop) ctx None
      else
        mkResult true None "entry" (loop_id loop) ctx (Some (entry_condition loop))
  | Ok false =>
      mkResult false (Some (EntryNotMet (entry_condition loop))) "entry" (loop_id loop) ctx None
  | Ok true => mkResult true None "entry" (loop_id loop) ctx None
  end.

(** [state.metadata["budget_overrides"] or {}]; [None] when it is not a dict. *)
Definition budget_overrides (state : ChainState) : option pyctx :=
  match context_get "budget_overrides" (metadata state) with
  | VDict d => Some d
  | v => if truthy v then None else Some []
  end.

Inductive budget_error := OverridesNotADict | BudgetNotANumber.

Definition check_budget (loop : LoopDef) (state : ChainState) (cost : pyfloat)
  : res budget_error LoopEnforcementResult :=
  match budget_overrides state with
  | None => Err OverridesNotADict
  | Some overrides =>
      let effective := dget_or (loop_id loop) (VFloat (max_cost_usd loop)) overrides in
      let ctx := dset "max_cost_usd" effective (build_context loop state cost) in
      match as_num effective with
      | None => Err BudgetNotANumber
      | Some budget =>
          if num_gt (NFloat cost) budget then
            Ok (mkResult false (Some (BudgetExceeded cost effective)) "budget"
                  (loop_id loop) ctx None)
          else Ok (mkResult true None "budget" (loop_id loop) ctx None)
      end
  end.

Definition check_exit (loop : LoopDef) (state : ChainState) (cost : pyfloat)
  : LoopEnforcementResult :=
  if negb (str_truthy (exit_condition loop)) || negb (str_truthy (strip (exit_condition loop)))
  then mkResult true None "exit" (loop_id loop) [] None
  else
    let ctx := build_context loop state cost in
    match evaluate_condition (exit_condition loop) ctx with
    | Err e =>
        if strict then
          mkResult false (Some (StrictUnparseable (exit_condition loop))) "exit"
            (loop_id loop) ctx None
        else
          mkResult true (Some (ExitError e)) "exit" (loop_id loop) ctx
            (Some (exit_condition loop))
    | Ok true =>
        mkResult false (Some (ExitMet (exit_condition loop))) "exit" (loop_id loop) ctx None
    | Ok false => mkResult true None "exit" (loop_id loop) ctx None
    end.
End Checks.

(** [get_escalation]; [reason] is the rendered text. *)
Definition get_escalation (loop : LoopDef) (reason : string) : string :=
  match escalation loop with
  | Some e => if str_truthy e then e +:+ ": " +:+ reason else reason
  | None => reason
  end.

Example cond_ge : evaluate_condition " iteration>= 1" [("iteration", VInt 1)] = Ok true.
Proof. vm_compute. reflexivity. Qed.
Example cond_gt_eq : compare_re "x >=" = Some ("x", OGt, "=").
Proof. vm_compute. reflexivity. Qed.
Example cond_float : evaluate_condition "cost < 0.5" [("cost", VFloat (fround_int 1))] = Ok false.
Proof. vm_compute. reflexivity. Qed.
Example cond_prose :
  is_ok (evaluate_condition "sources are weak" [("cost", VFloat (fround_int 1))]) = false.
Proof. vm_compute. reflexivity. Qed.

(** ** Reading conditions back *)

(** A value a condition can carry: not empty, no blank at either end, one line. *)
Definition plain_value (v : string) : Prop :=
  v <> "" /\ lstrip_by is_space v = v /\ rstrip_by is_space v = v /\ contains newline v = false.

Lemma lstrip_blank_before sp v :
  all_chars is_space sp = true -> lstrip_by is_space v = v ->
  lstrip_by is_space (sp +:+ v) = v.
Proof. intros Hs Hv. by rewrite lstrip_skip. Qed.

Lemma match_op_same o sp v :
  all_chars is_space sp = true -> plain_value v ->
  match_op (op_text o +:+ (sp +:+ v)) o = Some (o, v).
Proof.
  intros Hs (Hn & Hl & _ & Hc). unfold match_op.
  rewrite drop_prefix_app, lstrip_blank_before by done.
  rewrite Hc. unfold str_truthy. by destruct (String.eqb_spec v "").
Qed.

(** [>] followed at once by [=] is the operator [>=]. *)
Definition op_glued (o : cmp_op) (rest : string) : bool :=
  match o with OGt | OLt => starts_with "=" rest | _ => false end.

Lemma first_op o sp v :
  all_chars is_space sp = true -> plain_value v -> op_glued o (sp +:+ v) = false ->
  first_some (match_op (op_text o +:+ (sp +:+ v))) compare_ops = Some (o, v).
Proof.
  intros Hs Hv Hg. pose proof (match_op_same o sp v Hs Hv) as Hm.
  assert (Hother : forall o', drop_prefix (op_text o') (op_text o +:+ (sp +:+ v)) = None ->
            match_op (op_text o +:+ (sp +:+ v)) o' = None)
    by (intros o' Ho'; unfold match_op; by rewrite Ho').
  unfold op_glued, starts_with in Hg. generalize dependent (sp +:+ v). intros r Hg Hm Hother.
  assert (Hglue : (o = OGt \/ o = OLt) -> drop_prefix "=" r = None)
    by (intros [-> | ->]; destruct (drop_prefix "=" r); (discriminate Hg || reflexivity)).
  destruct o; cbn [compare_ops first_some].
  - by rewrite Hm.
  - by rewrite (Hother OGe eq_refl), Hm.
  - by rewrite (Hother OGe eq_refl), (Hother OLe eq_refl), Hm.
  - rewrite (Hother OGe (Hglue (or_introl eq_refl))).
    by rewrite (Hother OLe eq_refl), (Hother ONe eq_refl), (Hother OEq eq_refl), Hm.
  - rewrite (Hother OGe eq_refl), (Hother OLe (Hglue (or_intror eq_refl))).
    by rewrite (Hother ONe eq_refl), (Hother OEq eq_refl), (Hother OGt eq_refl), Hm.
  - by rewrite (Hother OGe eq_refl), (Hother OLe eq_refl), (Hother ONe eq_refl), Hm.
Qed.

Lemma space_not_word c : is_space c = true -> is_word c = false.
Proof. destruct c as [[] [] [] [] [] [] [] []]; vm_compute; congruence. Qed.

Lemma op_after_word o sp rest :
  all_chars is_space sp = true -> starts_out is_word (sp +:+ (op_text o +:+ rest)) = true.
Proof.
  destruct sp as [|c sp]; intros H.
  - rewrite append_nil. by destruct o.
  - rewrite append_cons. cbn in *. apply andb_true_iff in H as [H _].
    by rewrite space_not_word.
Qed.

Lemma op_no_space o rest : starts_out is_space (op_text o +:+ rest) = true.
Proof. by destruct o. Qed.

Lemma compare_re_complete var o v sp1 sp2 :
  var <> "" -> all_chars is_word var = true -> plain_value v ->
  all_chars is_space sp1 = true -> all_chars is_space sp2 = true ->
  op_glued o (sp2 +:+ v) = false ->
  compare_re (var +:+ (sp1 +:+ (op_text o +:+ (sp2 +:+ v)))) = Some (var, o, v).
Proof.
  intros Hn Hw Hv H1 H2 Hg. unfold compare_re.
  rewrite span_app by (done || by apply op_after_word).
  unfold str_truthy. destruct (String.eqb_spec var ""); [done|]. cbn [negb].
  rewrite lstrip_skip, lstrip_id by (done || apply op_no_space).
  by rewrite first_op.
Qed.

Lemma compare_re_sound s var o v :
  compare_re s = Some (var, o, v) ->
  exists sp1 sp2, s = var +:+ (sp1 +:+ (op_text o +:+ (sp2 +:+ v))) /\
    var <> "" /\ all_chars is_word var = true /\ v <> "" /\ contains newline v = false /\
    all_chars is_space sp1 = true /\ all_chars is_space sp2 = true.
Proof.
  unfold compare_re. destruct (span is_word s) as [a b] eqn:Es.
  apply span_split in Es as [Hs Hw]. case_goal; [|discriminate].
  destruct (first_some _ _) as [[o' v']|] eqn:Ef; [|discriminate].
  intros [= -> -> ->].
  assert (match_op (lstrip_by is_space b) o = Some (o, v)) as Hm.
  { revert Ef. generalize (lstrip_by is_space b), compare_ops. intros t os.
    induction os as [|o1 os IH]; cbn [first_some]; [discriminate|].
    destruct (match_op t o1) as [[o2 v2]|] eqn:E; [|exact IH].
    intros [= -> ->]. revert E. unfold match_op at 1.
    destruct (drop_prefix _ _) eqn:Ed; [|discriminate]. case_goal; [|discriminate].
    intros [= -> Hv]. unfold match_op. rewrite Ed. rewrite Hv in *. by rewrite Heqb1. }
  unfold match_op in Hm. destruct (drop_prefix _ _) as [rest|] eqn:Ed; [|discriminate].
  case_in Hm; [|discriminate]. injection Hm as Hm. apply drop_prefix_spec in Ed.
  destruct (lstrip_split is_space b) as (sp1 & H1 & Hb & _).
  destruct (lstrip_split is_space rest) as (sp2 & H2 & Hr & _).
  rewrite Hm in *. apply andb_true_iff in Heqb1 as [Hv Hc].
  exists sp1, sp2. unfold str_truthy in *. bool_prop. split_and!; try done.
  by rewrite Hs, Hb at 1; rewrite Ed, Hr at 1.
Qed.

(** ** Numbers read back *)

Lemma str_int_shape z :
  exists s, digit_text s /\ str_int z = (if z <? 0 then "-" +:+ s else s) /\
    int_of_text (str_int z) = z.
Proof.
  destruct (digits_read (Z.abs z)) as (Hr & Hn & Hd); [lia|].
  assert (Hne : str_of_ascii (digits (Z.abs z)) <> "") by (destruct (digits (Z.abs z)); [done | discriminate]).
  set (s := str_of_ascii (digits (Z.abs z))).
  assert (Hs : digit_text s).
  { split; [exact Hne | by apply all_chars_of]. }
  assert (Hrs : fold_left (fun acc c => 10 * acc + default 0 (digit_of c))
                  (String.list_ascii_of_string s) 0 = Z.abs z)
    by (unfold s, str_of_ascii; rewrite String.list_ascii_of_string_of_list_ascii; exact Hr).
  exists s. split; [done|]. unfold str_int.
  destruct (z <? 0) eqn:E; bool_prop.
  - assert (- z = Z.abs z) as -> by lia. fold s. split; [done|].
    unfold int_of_text. rewrite drop_prefix_app, Hrs. lia.
  - assert (str_of_ascii (digits z) = s) as -> by (unfold s; repeat f_equal; lia).
    split; [done|]. unfold int_of_text. destruct Hs as [_ Ha].
    assert (drop_prefix "-" s = None) as ->; [|rewrite Hrs; lia].
    destruct s as [|c t]; [done|]. cbn [all_chars] in Ha. apply andb_true_iff in Ha as [Hc _].
    cbn [drop_prefix]. destruct (Ascii.eqb_spec "-" c) as [<-|]; [discriminate Hc | done].
Qed.

(** The characters of a numeral. *)
Definition num_char (c : ascii) : bool := is_digit c || Ascii.eqb c "-"%char.

Lemma num_char_facts c :
  num_char c = true -> is_space c = false /\ lower_ascii c = c.
Proof. destruct c as [[] [] [] [] [] [] [] []]; vm_compute; try done. Qed.

Lemma str_int_chars z : str_int z <> "" /\ all_chars num_char (str_int z) = true.
Proof.
  destruct (str_int_shape z) as (s & [Hn Hs] & -> & _).
  assert (all_chars num_char s = true).
  { clear Hn. induction s as [|c s IH]; [done|]. cbn [all_chars] in *.
    apply andb_true_iff in Hs as [H1 H2]. unfold num_char at 1. by rewrite H1, IH. }
  destruct (z <? 0); [|done]. split; [by rewrite append_cons|].
  rewrite append_cons. exact H.
Qed.

Lemma num_text_trimmed s :
  all_chars num_char s = true -> lstrip_by is_space s = s /\ rstrip_by is_space s = s /\ lower s = s.
Proof.
  unfold lower. induction s as [|c s IH]; [done|]. cbn [all_chars].
  intros [Hc Hs]%andb_true_iff. destruct (num_char_facts c Hc) as [H1 H2].
  destruct (IH Hs) as (_ & IH2 & IH3). cbn. rewrite H1, H2, IH2, IH3. split_and!; try done.
  by destruct s.
Qed.

Lemma str_int_plain z : plain_value (str_int z).
Proof.
  destruct (str_int_chars z) as [Hn Hc]. destruct (num_text_trimmed _ Hc) as (H1 & H2 & _).
  split_and!; try done. by apply (contains_not num_char).
Qed.

Lemma numeric_re_int z : numeric_re (str_int z) = true.
Proof.
  destruct (str_int_shape z) as (s & [Hn Hs] & -> & _).
  assert (Hspan : span is_digit s = (s, "")).
  { rewrite <- (append_empty_r s) at 1. by apply span_app. }
  assert (Hneg : drop_prefix "-" s = None).
  { destruct s as [|c t]; [done|]. cbn [all_chars] in Hs. apply andb_true_iff in Hs as [Hc _].
    cbn [drop_prefix]. destruct (Ascii.eqb_spec "-" c) as [<-|]; [discriminate Hc | done]. }
  unfold numeric_re. destruct (z <? 0); rewrite ?drop_prefix_app, ?Hneg, Hspan;
    unfold str_truthy; by destruct (String.eqb_spec s "").
Qed.

Lemma parse_value_int z : parse_value (strip (str_int z)) = VInt z.
Proof.
  destruct (str_int_chars z) as [Hn Hc]. destruct (num_text_trimmed _ Hc) as (H1 & H2 & H3).
  unfold strip, strip_by. rewrite H1, H2. unfold parse_value. rewrite H3, numeric_re_int.
  assert (mem (str_int z) BOOL_VALUES = false) as ->.
  { apply mem_false. intros Hin. unfold BOOL_VALUES in Hin.
    destruct (str_int z) as [|c t] eqn:E; [done|]. cbn [all_chars] in Hc.
    apply andb_true_iff in Hc as [Hc _].
    repeat (apply elem_of_cons in Hin as [Hin|Hin];
            [injection Hin as -> _; discriminate Hc|]). inversion Hin. }
  rewrite (contains_not num_char) by done.
  destruct (str_int_shape z) as (_ & _ & _ & Hi). by rewrite Hi.
Qed.

(** ** Properties *)

(** The condition language is read as documented: a word, an operator and a
    value, with blanks around each, is exactly that comparison - provided a
    value right after [>] or [<] does not start with [=] - and whatever is
    accepted splits into a word, an operator and a one-line value, so nothing
    else is ever evaluated. *)
Theorem condition_grammar var o v :
  (forall sp1 sp2,
     var <> "" -> all_chars is_word var = true -> plain_value v ->
     all_chars is_space sp1 = true -> all_chars is_space sp2 = true ->
     op_glued o (sp2 +:+ v) = false ->
     compare_re (var +:+ (sp1 +:+ (op_text o +:+ (sp2 +:+ v)))) = Some (var, o, v)) /\
  (forall s, compare_re s = Some (var, o, v) ->
     exists sp1 sp2, s = var +:+ (sp1 +:+ (op_text o +:+ (sp2 +:+ v))) /\
       var <> "" /\ all_chars is_word var = true /\ v <> "" /\ contains newline v = false /\
       all_chars is_space sp1 = true /\ all_chars is_space sp2 = true).
Proof. split; [intros; by apply compare_re_complete | intros s Hs; exact (compare_re_sound s var o v Hs)]. Qed.

Definition int_test (o : cmp_op) (a b : Z) : bool :=
  match o with
  | OGe => b <=? a | OLe => a <=? b | OGt => b <? a | OLt => a <? b
  | OEq => a =? b | ONe => negb (a =? b)
  end.

Lemma num_test_int o a b : num_test o (NInt a) (NInt b) = int_test o a b.
Proof.
  unfold num_test, num_ge, num_le, num_gt, num_lt, num_eq. rewrite num_cmp_int.
  unfold int_test, Z.leb, Z.ltb. rewrite (Z.compare_antisym a b).
  assert ((a =? b) = match a ?= b with Eq => true | _ => false end) as ->.
  { apply Z.eqb_compare. }
  by destruct o, (a ?= b).
Qed.

Definition iteration_of (loop : LoopDef) (state : ChainState) : Z :=
  match dget (loop_id loop) (loop_state state) with Some ls => iteration ls | None => 0 end.

Lemma glued_int o sp n :
  all_chars is_space sp = true -> op_glued o (sp +:+ str_int n) = false.
Proof.
  intros Hs. destruct (str_int_chars n) as [Hn Hc].
  assert (starts_with "=" (sp +:+ str_int n) = false) as H; [|by destruct o].
  unfold starts_with. destruct sp as [|c sp].
  - rewrite append_nil. destruct (str_int n) as [|c t]; [done|].
    cbn [all_chars] in Hc. apply andb_true_iff in Hc as [Hc _].
    cbn [drop_prefix]. by destruct (Ascii.eqb_spec "=" c) as [<-|].
  - rewrite append_cons. cbn [all_chars] in Hs. apply andb_true_iff in Hs as [Hs _].
    cbn [drop_prefix]. by destruct (Ascii.eqb_spec "=" c) as [<-|].
Qed.

(** The text of a condition is not blank and is stripped of its outer blanks. *)
Lemma strip_condition sp0 core v sp3 :
  all_chars is_space sp0 = true -> all_chars is_space sp3 = true ->
  starts_out is_space (core +:+ v) = true -> plain_value v ->
  strip (sp0 +:+ ((core +:+ v) +:+ sp3)) = core +:+ v.
Proof.
  intros H0 H3 Hc (Hn & _ & Hr & _). unfold strip, strip_by.
  rewrite lstrip_skip by done.
  assert (lstrip_by is_space ((core +:+ v) +:+ sp3) = (core +:+ v) +:+ sp3) as ->.
  { destruct (core +:+ v) as [|c t] eqn:E.
    - destruct core; [by rewrite append_nil in E | by rewrite append_cons in E].
    - rewrite append_cons. apply lstrip_id. exact Hc. }
  rewrite rstrip_skip, rstrip_app by (rewrite ?Hr; done). by rewrite Hr.
Qed.

Lemma evaluate_stripped s t ctx :
  strip s = t -> t <> "" ->
  evaluate_condition s ctx =
  match compare_re t with
  | None => Err (InvalidSyntax t)
  | Some (var, o, raw) =>
      match dget var ctx with
      | None => Err (UnknownVariable var)
      | Some lv => py_compare o lv (coerce_right lv (parse_value (strip raw)))
      end
  end.
Proof.
  intros Hs Ht. unfold evaluate_condition. rewrite Hs. unfold str_truthy.
  destruct (String.eqb_spec s "") as [->|]; [|by destruct (String.eqb_spec t "")].
  by destruct Ht.
Qed.

(** A bound on the iteration count means what it says: [iteration <op> n],
    with any blanks and any integer, compares the loop's current iteration
    (0 before it is entered) with [n]. *)
Theorem iteration_condition_decides loop state cost o n sp0 sp1 sp2 sp3 :
  all_chars is_space sp0 = true -> all_chars is_space sp1 = true ->
  all_chars is_space sp2 = true -> all_chars is_space sp3 = true ->
  evaluate_condition
    (sp0 +:+ (("iteration" +:+ (sp1 +:+ (op_text o +:+ sp2))) +:+ str_int n) +:+ sp3)
    (build_context loop state cost) =
  Ok (int_test o (iteration_of loop state) n).
Proof.
  intros H0 H1 H2 H3.
  erewrite evaluate_stripped; [|by apply strip_condition; [| | |apply str_int_plain]|done].
  rewrite !append_assoc. rewrite compare_re_complete;
    [|done|done|apply str_int_plain|done|done|by apply glued_int].
  rewrite parse_value_int. cbn [dget build_context String.eqb Ascii.eqb Bool.eqb].
  unfold py_compare, coerce_right. cbn [as_num]. by rewrite num_test_int.
Qed.

Lemma iteration_condition_decides_witness :
  evaluate_condition " iteration >= 2"
    (build_context (mkLoop "l" "" "" 3 fzero ["a"] None)
       (with_loop_state [("l", mkLoopState 2 "" "")] (initial_state "r" "t")) fzero) = Ok true.
Proof.
  exact (iteration_condition_decides (mkLoop "l" "" "" 3 fzero ["a"] None)
    (with_loop_state [("l", mkLoopState 2 "" "")] (initial_state "r" "t")) fzero
    OGe 2 " " " " " " "" eq_refl eq_refl eq_refl eq_refl).
Defined.

(** In strict governance a loop condition that cannot be evaluated stops
    the loop at both ends; otherwise it is recorded as an advisory and only a
    condition that evaluates decides. *)
Theorem conditions_fail_closed strict loop state cost :
  let ctx := build_context loop state cost in
  let entry := evaluate_condition (entry_condition loop) ctx in
  let exit := evaluate_condition (exit_condition loop) ctx in
  let blank := negb (str_truthy (strip (exit_condition loop))) in
  (allowed (check_entry strict loop state cost) = true <->
     entry = Ok true \/ strict = false /\ is_ok entry = false) /\
  (allowed (check_exit strict loop state cost) = true <->
     blank = true \/ exit = Ok false \/ strict = false /\ is_ok exit = false) /\
  (strict = true -> advisory (check_entry strict loop state cost) = None /\
                    advisory (check_exit strict loop state cost) = None).
Proof.
  cbv zeta. unfold check_entry, check_exit.
  assert (Hb : negb (str_truthy (exit_condition loop))
               || negb (str_truthy (strip (exit_condition loop))) =
               negb (str_truthy (strip (exit_condition loop)))).
  { destruct (exit_condition loop); [done|]. done. }
  rewrite Hb. destruct (negb (str_truthy (strip _))).
  - destruct (evaluate_condition (entry_condition loop) _) as [[]|], strict; simpl; naive_solver.
  - destruct (evaluate_condition (entry_condition loop) _) as [[]|],
      (evaluate_condition (exit_condition loop) _) as [[]|], strict; simpl; naive_solver.
Qed.
