(* ===== verification/Scheduler.v ===== *)
(** * Graph scheduler

    [runtime/scheduler.py]: execution order, loop-backs, branch selection and
    review transitions.  [set_order] is the order in which Python iterates
    the set of node ids, which the language leaves open. *)
From S2P Require Import Prelude PyFloat PyValue Sql Policy Blueprint ChainState LoopEnforcer.

(** ** Decisions *)

Inductive SchedulingAction :=
| CONTINUE | LOOP_BACK | SKIP_TO_JOIN | TERMINATE
| REVIEW_APPROVE | REVIEW_REJECT | REVIEW_REVISION | REVIEW_TIMEOUT.

#[export] Instance SchedulingAction_eq_dec : EqDecision SchedulingAction.
Proof. solve_decision. Defined.

Record SchedulingDecision := mkDecisionS {
  sd_action : SchedulingAction;
  sd_target_node : option string;
  sd_loop_id : option string;
  sd_reason : string;
  sd_review_decision : option string;
  sd_revision_target : option string;
}.

Section Scheduler.
Context (bp : ChainBlueprint).

(** ** Execution order *)

(** [successors.get(n, [])] and membership in [predecessors]. *)
Definition successors (n : string) : list string := map to_node (get_connections_from bp n).
Definition has_predecessor (n : string) : bool :=
  existsb (fun c => to_node c =s? n) (connections bp).

(** The loop over the queue: [None] when the fuel runs out. *)
Fixpoint bfs (fuel : nat) (queue visited order : list string) : option (list string) :=
  match queue with
  | [] => Some order
  | current :: queue =>
      match fuel with
      | O => None
      | S fuel =>
          if mem current visited then bfs fuel queue visited order
          else
            let visited := visited ++ [current] in
            let fresh := List.filter (fun s => negb (mem s visited)) (successors current) in
            bfs fuel (queue ++ fresh) visited (order ++ [current])
      end
  end.

(** Every node enters the queue once as a root and once per connection. *)
Definition bfs_fuel (roots : list string) : nat :=
  length roots + length (connections bp).

Definition branch_node_ids : list string :=
  flat_map (fun b => flat_map snd (branches b)) (chain_branches bp).

Section Order.
Context (set_order : list string -> list string).

Definition all_nodes : list string := set_order (py_set (node_ids bp)).

Definition roots : list string := List.filter (fun n => negb (has_predecessor n)) all_nodes.

Definition resolve_execution_order : option (list string) :=
  match bfs (bfs_fuel roots) roots [] [] with
  | Some order =>
      let order := order ++ List.filter (fun n => negb (mem n order)) all_nodes in
      Some (List.filter (fun n => negb (mem n branch_node_ids)) order)
  | None => None
  end.
End Order.

(** ** Loops *)

Definition check_loop_exhaustion (node_id : string) (state : ChainState) : option string :=
  if existsb (fun l => mem node_id (path l) &&
                match dget (loop_id l) (loop_state state) with
                | Some ls => max_iterations l <=? iteration ls
                | None => false
                end) (loops bp)
  then Some "escalate" else None.

(** [loop.path[-1]] and [loop.path[0]]: [IndexError] on an empty path. *)
Inductive scheduler_error := IndexError | NotIterable.

#[export] Instance scheduler_error_eq_dec : EqDecision scheduler_error.
Proof. solve_decision. Defined.

Definition path_last (l : LoopDef) : res scheduler_error string :=
  match last (path l) with Some n => Ok n | None => Err IndexError end.
Definition path_first (l : LoopDef) : res scheduler_error string :=
  match head (path l) with Some n => Ok n | None => Err IndexError end.

Definition loop_text (lid what : string) (i m : Z) : string :=
  "Loop '" +:+ lid +:+ "' " +:+ what +:+ str_int i +:+ "/" +:+ str_int m.

(** The body of the loop over the loop definitions; the state is returned
    because the iteration count is kept in it. *)
Fixpoint check_loop_back_in (ls : list LoopDef) (node_id : string) (output : pyctx)
  (state : ChainState) : res scheduler_error (ChainState * option SchedulingDecision) :=
  match ls with
  | [] => Ok (state, None)
  | loop :: rest =>
      lst ← path_last loop;
      if negb (node_id =? lst)%string then check_loop_back_in rest node_id output state
      else if negb (truthy (dget_or "loop_required" (VBool false) output)) then
        check_loop_back_in rest node_id output state
      else
        let lid := loop_id loop in
        target_node ← path_first loop;
        let st0 := match dget lid (loop_state state) with
                   | Some s => s | None => mkLoopState 0 "" "" end in
        if max_iterations loop <=? iteration st0 then
          Ok (with_loop_state (dset lid st0 (loop_state state)) state,
              Some (mkDecisionS TERMINATE None None
                      (loop_text lid "exhausted: " (iteration st0) (max_iterations loop))
                      None None))
        else
          let st1 := mkLoopState (iteration st0 + 1) (entered_at st0) (loop_reason st0) in
          Ok (with_loop_state (dset lid st1 (loop_state state)) state,
              Some (mkDecisionS LOOP_BACK (Some target_node) (Some lid)
                      (loop_text lid "iteration " (iteration st1) (max_iterations loop))
                      None None))
  end.

Definition check_loop_back : string -> pyctx -> ChainState ->
  res scheduler_error (ChainState * option SchedulingDecision) :=
  check_loop_back_in (loops bp).

(** [order.index(node)] *)
Fixpoint index (node : string) (order : list string) : option nat :=
  match order with
  | [] => None
  | x :: t => if x =s? node then Some 0%nat else S <$> index node t
  end.

Definition get_loop_for_node (node_id : string) : option LoopDef :=
  List.find (fun l => mem node_id (path l)) (loops bp).

Definition rebuild_order_with_loop (current_order : list string)
  (current_node target_node : string) : list string :=
  let current_idx := match index current_node current_order with
                     | Some i => Z.of_nat i
                     | None => Z.of_nat (length current_order) - 1
                     end in
  match index target_node current_order with
  | None => current_order
  | Some target_idx =>
      if current_idx <? Z.of_nat target_idx then current_order
      else
        let cut := Z.to_nat (current_idx + 1) in
        let loop_segment := match get_loop_for_node target_node with
                            | Some l => path l
                            | None => drop target_idx (take cut current_order)
                            end in
        take cut current_order ++ loop_segment ++ drop cut current_order
  end.

(** ** Branches *)

(** The names a Python value iterates over. *)
Definition iterate (v : pyval) : res scheduler_error (list pyval) :=
  match v with
  | VList l => Ok l
  | VStr s => Ok (map (fun c => VStr (String c "")) (String.list_ascii_of_string s))
  | VDict d => Ok (map (fun kv => VStr (fst kv)) d)
  | _ => Err NotIterable
  end.

Definition names_in (names : list string) (vs : list pyval) : list string :=
  omap (fun v => match v with VStr s => if mem s names then Some s else None | _ => None end) vs.

Definition related (bname d_lower : string) : bool :=
  contains (lower bname) d_lower || contains d_lower (lower bname).

Definition select_by_domains (names : list string) (domains : list pyval) : list string :=
  fold_left (fun sel d =>
    fold_left (fun sel b => if related b (lower (py_str d)) then add_new b sel else sel)
      names sel) domains [].

Definition default_selection (b : BranchDef) : list string :=
  match default_branch b with
  | Some d => if str_truthy d then [d] else dkeys (branches b)
  | None => dkeys (branches b)
  end.

Definition resolve_branch_selection (b : BranchDef) (output : pyctx)
  : res scheduler_error (list string) :=
  let names := dkeys (branches b) in
  let selected := dget_or "selected_branches" (VList []) output in
  if truthy selected then names_in names <$> iterate selected
  else
    let domain := dget_or "research_domain" (VStr "") output in
    match dget_or "domain_classification" (VList []) output with
    | VList ((_ :: _) as ds) =>
        let sel := select_by_domains names ds in
        Ok (if nonempty sel then sel else default_selection b)
    | _ =>
        match domain with
        | VStr d =>
            match (if str_truthy d
                   then List.find (fun n => related n (lower d)) names else None) with
            | Some n => Ok [n]
            | None => Ok (default_selection b)
            end
        | _ => Ok (default_selection b)
        end
    end.

Definition skip_to_join (execution_order : list string) (from_node : string) (b : BranchDef)
  : list string :=
  match joins bp with
  | [] => execution_order
  | j :: _ =>
      if negb (str_truthy (join_to_node j)) || negb (mem (join_to_node j) execution_order)
      then execution_order
      else List.filter (fun n => negb (mem n (flat_map snd (branches b)))) execution_order
  end.

(** ** Reviews *)

Definition is_model (nid : string) : bool :=
  existsb (fun n => (Blueprint.node_id n =s? nid) && (node_type n =s? "model")) (nodes bp).

Definition first_or (order : list string) (node : string) : string :=
  match order with x :: _ => x | [] => node end.

Definition default_revision_target (order : list string) (current_node : string) : string :=
  match index current_node order with
  | None => first_or order current_node
  | Some i =>
      match List.find is_model (reverse (take i order)) with
      | Some n => n
      | None => first_or order current_node
      end
  end.

Definition apply_review_decision (review_decision : string) (order : list string)
  (current_node : string) (revision_target : option string) : SchedulingDecision :=
  if review_decision =s? "approve" then
    mkDecisionS REVIEW_APPROVE None None "review_approved" (Some "approve") None
  else if review_decision =s? "reject" then
    mkDecisionS REVIEW_REJECT None None "review_rejected" (Some "reject") None
  else if review_decision =s? "request_revision" then
    let target := match revision_target with
                  | Some t => if str_truthy t then t else default_revision_target order current_node
                  | None => default_revision_target order current_node
                  end in
    mkDecisionS REVIEW_REVISION (Some target) None ("review_revision_to_" +:+ target)
      (Some "request_revision") (Some target)
  else if review_decision =s? "timeout" then
    mkDecisionS REVIEW_TIMEOUT None None "review_timeout" (Some "timeout") None
  else mkDecisionS REVIEW_REJECT None None ("unknown_review_decision:" +:+ review_decision)
         (Some review_decision) None.

Definition find_continuation_point (order : list string) (current_node : string) : nat :=
  match index current_node order with Some i => S i | None => 0 end.

(** ** Loop policies *)

Section Policies.
Context (strict : bool).

Definition check_loop_entry (node_id : string) (state : ChainState) (cost : pyfloat)
  : res scheduler_error (option LoopEnforcementResult) :=
  match get_loop_for_node node_id with
  | None => Ok None
  | Some loop =>
      fst_node ← path_first loop;
      if negb (node_id =? fst_node)%string then Ok None
      else if match dget (loop_id loop) (loop_state state) with
              | Some ls => 0 <? iteration ls | None => false end then Ok None
      else
        let r := check_entry strict loop state cost in
        Ok (if allowed r then None else Some r)
  end.

Definition check_loop_budget (lid : string) (state : ChainState) (cost : pyfloat)
  : res budget_error (option LoopEnforcementResult) :=
  match get_loop bp lid with
  | None => Ok None
  | Some loop =>
      r ← check_budget loop state cost;
      Ok (if allowed r then None else Some r)
  end.

Definition check_loop_exit (lid : string) (state : ChainState) (cost : pyfloat)
  : option LoopEnforcementResult :=
  match get_loop bp lid with
  | None => None
  | Some loop =>
      let r := check_exit strict loop state cost in
      if allowed r then None else Some r
  end.

Definition get_escalation_message (lid reason : string) : string :=
  match get_loop bp lid with
  | Some l => get_escalation l reason
  | None => reason
  end.
End Policies.
End Scheduler.

(** ** The traversal *)

Section Traversal.
Context (bp : ChainBlueprint).

(** [m] is a successor of [n] in the chain graph. *)
Definition edge (n m : string) : Prop :=
  exists c, c ∈ connections bp /\ from_node c = n /\ to_node c = m.

Lemma elem_of_successors n m : m ∈ successors bp n <-> edge n m.
Proof.
  unfold successors, edge. rewrite list_elem_of_fmap.
  setoid_rewrite elem_of_connections_from. naive_solver.
Qed.

(** Connections whose source was not taken from the queue yet. *)
Definition pending (visited : list string) : nat :=
  count (fun c => negb (mem (from_node c) visited)) (connections bp).

Lemma count_split {A} (p q : A -> bool) l :
  count p l = (count (fun x => p x && q x) l + count (fun x => p x && negb (q x)) l)%nat.
Proof.
  unfold count. induction l as [|x l IH]; simpl; [done|].
  destruct (p x), (q x); simpl; lia.
Qed.

Lemma count_ext {A} (p q : A -> bool) l : (forall x, p x = q x) -> count p l = count q l.
Proof. intros H. unfold count. f_equal. by apply List.filter_ext. Qed.

Lemma pending_visit visited n :
  n ∉ visited ->
  pending visited = (length (successors bp n) + pending (visited ++ [n]))%nat.
Proof.
  intros Hn. unfold pending. rewrite (count_split _ (fun c => from_node c =s? n)). f_equal.
  - unfold successors, get_connections_from. rewrite length_map. apply count_ext.
    intros c. destruct (String.eqb_spec (from_node c) n) as [->|]; [|by rewrite andb_false_r].
    apply mem_false in Hn. by rewrite Hn.
  - apply count_ext. intros c. unfold mem. rewrite existsb_app. simpl.
    by rewrite orb_false_r, negb_orb.
Qed.

Lemma length_lfilter {A} (p : A -> bool) l : (length (List.filter p l) <= length l)%nat.
Proof. induction l as [|x l IH]; simpl; [lia|]. destruct (p x); simpl; lia. Qed.

(** What a finished traversal guarantees. *)
Definition traversed (start queue order res : list string) : Prop :=
  NoDup res /\
  (forall n, n ∈ order \/ n ∈ queue -> n ∈ res) /\
  (forall n m, n ∈ res -> edge n m -> m ∈ res) /\
  (forall before n after, res = before ++ n :: after ->
     n ∈ start \/ exists p, p ∈ before /\ edge p n).

Definition invariant (start queue order : list string) : Prop :=
  NoDup order /\
  (forall n, n ∈ queue -> n ∈ start \/ exists p, p ∈ order /\ edge p n) /\
  (forall n m, n ∈ order -> edge n m -> m ∈ order \/ m ∈ queue) /\
  (forall before n after, order = before ++ n :: after ->
     n ∈ start \/ exists p, p ∈ before /\ edge p n).

Lemma split_snoc {A} (order : list A) x before n after :
  order ++ [x] = before ++ n :: after ->
  (before = order /\ n = x /\ after = []) \/
  exists after', order = before ++ n :: after' /\ after = after' ++ [x].
Proof.
  destruct after as [|y after _] using rev_ind.
  - intros H. apply app_inj_tail in H as [-> ->]. by left.
  - rewrite app_comm_cons, app_assoc. intros H. apply app_inj_tail in H as [-> ->].
    right. eauto.
Qed.

Lemma invariant_visit start current queue order :
  invariant start (current :: queue) order -> current ∉ order ->
  invariant start
    (queue ++ List.filter (fun s => negb (mem s (order ++ [current]))) (successors bp current))
    (order ++ [current]).
Proof.
  intros (Hn & Hq & Hc & Ht) Hnew. split_and!.
  - by apply NoDup_snoc.
  - intros n [Hin|Hin]%elem_of_app.
    + destruct (Hq n) as [|(p & Hp & He)]; [by right | auto|].
      right. exists p. rewrite elem_of_app. auto.
    + apply elem_of_lfilter in Hin as [_ Hin%elem_of_successors].
      right. exists current. rewrite elem_of_app, list_elem_of_singleton. auto.
  - intros n m [Hin|Hin]%elem_of_app He.
    + rewrite !elem_of_app, list_elem_of_singleton.
      destruct (Hc n m Hin He) as [|[|]%elem_of_cons]; auto.
    + apply list_elem_of_singleton in Hin as ->.
      destruct (decide (m ∈ order ++ [current])) as [|Hm]; [by left|]. right.
      rewrite elem_of_app, elem_of_lfilter, elem_of_successors. right.
      split; [|done]. apply negb_true_iff. by apply mem_false.
  - intros before n after [(-> & -> & _)|(after' & Ho & _)]%split_snoc.
    + apply Hq. left.
    + by eapply Ht.
Qed.

Lemma bfs_total fuel queue order start :
  (length queue + pending order <= fuel)%nat -> invariant start queue order ->
  exists res, bfs bp fuel queue order order = Some res /\ traversed start queue order res.
Proof.
  revert queue order. induction fuel as [|fuel IH]; intros [|current queue] order Hf Hi.
  1, 3: exists order; destruct Hi as (H1 & H2 & H3 & H4); split; [done|]; split_and!; auto;
    [intros n [|H]; [done | inversion H]|
     intros n m Hn He; destruct (H3 n m Hn He) as [|H]; [done | inversion H]].
  - simpl in Hf. lia.
  - cbn [bfs]. destruct (mem_spec current order) as [Hin|Hnew].
    + destruct (IH queue order) as (res & Hr & Ht); [simpl in Hf; lia| |].
      * destruct Hi as (H1 & H2 & H3 & H4). split_and!; auto.
        -- intros n Hn. apply H2. by right.
        -- intros n m Hn He. destruct (H3 n m Hn He) as [|[->|]%elem_of_cons]; auto.
      * exists res. split; [done|]. destruct Ht as (T1 & T2 & T3 & T4). split_and!; auto.
        intros n [|[->|]%elem_of_cons]; auto.
    + pose proof (invariant_visit _ _ _ _ Hi Hnew) as Hi'.
      edestruct IH as (res & Hr & T1 & T2 & T3 & T4); [|exact Hi'|].
      * rewrite length_app. rewrite (pending_visit order current Hnew) in Hf. simpl in Hf.
        match goal with |- context [List.filter ?p ?l] => pose proof (length_lfilter p l) end. lia.
      * exists res. split; [exact Hr|]. split_and!; auto.
        intros n Hn. apply T2. rewrite !elem_of_app, list_elem_of_singleton.
        rewrite elem_of_cons in Hn. tauto.
Qed.

Lemma traversal start :
  exists res, bfs bp (bfs_fuel bp start) start [] [] = Some res /\ traversed start start [] res.
Proof.
  apply bfs_total.
  - unfold bfs_fuel, pending, count. pose proof (length_lfilter
      (fun c => negb (mem (from_node c) [])) (connections bp)). lia.
  - split_and!; [constructor | auto | intros n m H; inversion H|].
    intros before n after H. by destruct before.
Qed.
End Traversal.

(** ** Properties *)

Section Properties.
Context (bp : ChainBlueprint).
Implicit Types (n m : string).

Definition is_root n : Prop := n ∈ node_ids bp /\ forall m, ~ edge bp m n.

Definition on_branch n : Prop := n ∈ branch_node_ids bp.

Lemma elem_of_roots set_order n :
  (forall l, set_order l ≡ₚ l) -> n ∈ roots bp set_order <-> is_root n.
Proof.
  intros Hp. unfold roots, all_nodes, is_root.
  rewrite elem_of_lfilter, Hp, elem_of_py_set, negb_true_iff.
  assert (has_predecessor bp n = false <-> forall m, ~ edge bp m n) as ->; [|tauto].
  unfold has_predecessor. rewrite <- not_true_iff_false, existsb_elem. split.
  - intros H m (c & Hc & _ & He). apply H. exists c. by rewrite String.eqb_eq.
  - intros H (c & Hc & He). apply String.eqb_eq in He. apply (H (from_node c)). by exists c.
Qed.

Lemma closed_star (res : list string) n m :
  (forall x y, x ∈ res -> edge bp x y -> y ∈ res) -> star (edge bp) n m -> n ∈ res -> m ∈ res.
Proof. intros Hc H. induction H; eauto. Qed.

Lemma filter_split {A} (p : A -> bool) l before (n : A) after :
  List.filter p l = before ++ n :: after ->
  exists before' after', l = before' ++ n :: after' /\ before = List.filter p before'.
Proof.
  revert before. induction l as [|x l IH]; intros before; simpl; [by destruct before|].
  destruct (p x) eqn:E.
  - destruct before as [|b before]; simpl; intros [= -> H].
    + by exists [], l.
    + destruct (IH _ H) as (b' & a' & -> & ->). exists (b :: b'), a'. simpl. by rewrite E.
  - intros H. destruct (IH _ H) as (b' & a' & -> & ->). exists (x :: b'), a'. simpl. by rewrite E.
Qed.

Lemma app_split {A} (l l' before : list A) (n : A) after :
  l ++ l' = before ++ n :: after ->
  (exists after', l = before ++ n :: after') \/ (exists before', l' = before' ++ n :: after).
Proof.
  revert before. induction l as [|x l IH]; intros before; simpl.
  - intros ->. right. eauto.
  - destruct before as [|b before]; simpl; intros [= -> H].
    + left. eauto.
    + destruct (IH _ H) as [(a' & ->)|(b' & ->)]; eauto.
Qed.

(** C31: The execution order is total: the search ends, and the order lists each
    declared node off the branches exactly once, nothing on a branch, and -
    among the nodes reachable from a root - none that is not a root before
    all of its predecessors: one of them comes earlier or is on a branch. *)
Theorem execution_order_correct set_order :
  (forall l, set_order l ≡ₚ l) ->
  exists order, resolve_execution_order bp set_order = Some order /\
    NoDup order /\
    (forall n, n ∈ node_ids bp -> ~ on_branch n -> n ∈ order) /\
    (forall n, n ∈ order -> ~ on_branch n) /\
    forall before n after root, order = before ++ n :: after ->
      is_root root -> star (edge bp) root n -> ~ is_root n ->
      exists p, edge bp p n /\ (p ∈ before \/ on_branch p).
Proof.
  intros Hp. destruct (traversal bp (roots bp set_order)) as (res & Hr & Hn & Hall & Hc & Ht).
  unfold resolve_execution_order. rewrite Hr. eexists. split; [reflexivity|].
  set (off := fun n => negb (mem n (branch_node_ids bp))).
  set (rest := List.filter (fun n => negb (mem n res)) (all_nodes bp set_order)).
  assert (Hoff : forall n, off n = true <-> ~ on_branch n)
    by (intros n; unfold off, on_branch; rewrite negb_true_iff; apply mem_false).
  assert (Hrest : forall n, n ∈ rest <-> (n ∉ res) /\ n ∈ node_ids bp).
  { intros n. unfold rest, all_nodes. rewrite elem_of_lfilter, Hp, elem_of_py_set.
    by rewrite negb_true_iff, mem_false. }
  assert (NoDup (res ++ rest)) as Hnd.
  { apply NoDup_app. split_and!; [done| |].
    - intros n H1 H2. by apply Hrest in H2 as [? _].
    - unfold rest, all_nodes. apply NoDup_ListNoDup, List.NoDup_filter, NoDup_ListNoDup.
      rewrite Hp. apply NoDup_py_set. }
  split_and!.
  - apply NoDup_ListNoDup, List.NoDup_filter. by apply NoDup_ListNoDup.
  - intros n Hin Hb. apply elem_of_lfilter. split; [by apply Hoff|].
    rewrite elem_of_app, Hrest. destruct (decide (n ∈ res)); auto.
  - intros n [H _]%elem_of_lfilter. by apply Hoff.
  - intros before n after root Ho Hroot Hreach Hnr.
    apply filter_split in Ho as (b' & a' & Ho & ->).
    assert (n ∈ res) as Hin.
    { apply (closed_star res root n Hc Hreach). apply Hall. right. by apply elem_of_roots. }
    apply app_split in Ho as [(a2 & Ho)|(b2 & Ho)].
    + destruct (Ht _ _ _ Ho) as [Hs|(p & Hpb & He)]; [by apply elem_of_roots in Hs|].
      exists p. split; [done|]. destruct (off p) eqn:E.
      * left. by apply elem_of_lfilter.
      * right. destruct (decide (on_branch p)) as [|Hb]; [done|]. apply Hoff in Hb. congruence.
    + assert (n ∈ rest) as Hb by (rewrite Ho, elem_of_app; right; left).
      apply Hrest in Hb as [? _]. done.
Qed.

(** ** Loop-backs are bounded *)

(** The completions of a run, in order; an error ends the run. *)
Fixpoint loop_backs (lid : string) (state : ChainState) (events : list (string * pyctx)) : nat :=
  match events with
  | [] => 0
  | (node_id, output) :: rest =>
      match check_loop_back bp node_id output state with
      | Err _ => 0
      | Ok (state', d) =>
          match d with
          | Some d => if bool_decide (sd_action d = LOOP_BACK /\ sd_loop_id d = Some lid)
                      then 1 else 0
          | None => 0
          end + loop_backs lid state' rest
      end
  end%nat.

Definition iteration_at (lid : string) (s : ChainState) : Z :=
  match dget lid (loop_state s) with Some ls => iteration ls | None => 0 end.

(** What one completion does to the iteration counts. *)
Definition loop_step (ls : list LoopDef) (state state' : ChainState)
  (d : option SchedulingDecision) : Prop :=
  ((forall lid, iteration_at lid state' = iteration_at lid state) /\
   (forall x, d = Some x -> sd_action x <> LOOP_BACK)) \/
  exists loop x, loop ∈ ls /\ d = Some x /\ sd_action x = LOOP_BACK /\
    sd_loop_id x = Some (loop_id loop) /\
    iteration_at (loop_id loop) state < max_iterations loop /\
    forall lid, iteration_at lid state' =
      iteration_at lid state + (if (lid =? loop_id loop)%string then 1 else 0).

Lemma iteration_at_dset lid lid' ls state :
  iteration_at lid (with_loop_state (dset lid' ls (loop_state state)) state) =
  if (lid =? lid')%string then iteration ls else iteration_at lid state.
Proof.
  unfold iteration_at. cbn [loop_state with_loop_state].
  destruct (String.eqb_spec lid lid') as [->|Hne].
  - by rewrite dget_dset_same.
  - by rewrite dget_dset_other.
Qed.

Lemma check_loop_back_step ls node_id output state state' d :
  check_loop_back_in ls node_id output state = Ok (state', d) -> loop_step ls state state' d.
Proof.
  induction ls as [|loop ls IH]; cbn [check_loop_back_in].
  - intros [= <- <-]. by left.
  - intros H. destruct (path_last loop) as [lst|]; simpl in H; [|discriminate].
    assert (Hskip : check_loop_back_in ls node_id output state = Ok (state', d) ->
              loop_step (loop :: ls) state state' d).
    { intros Hs. destruct (IH Hs) as [|(l & x & Hl & Hrest)]; [by left|].
      right. exists l, x. split; [by right | done]. }
    case_in H; [by apply Hskip|]. case_in H; [by apply Hskip|]. clear Hskip.
    destruct (path_first loop) as [t|]; simpl in H; [|discriminate].
    set (st0 := match dget (loop_id loop) (loop_state state) with
                | Some s => s | None => mkLoopState 0 "" "" end) in *.
    assert (Hit : iteration st0 = iteration_at (loop_id loop) state)
      by (unfold st0, iteration_at; by destruct (dget _ _)).
    case_in H; injection H as <- <-; bool_prop.
    + left. split; [|by intros x [= <-]]. intros lid. rewrite iteration_at_dset.
      by destruct (String.eqb_spec lid (loop_id loop)) as [->|].
    + right. exists loop. eexists. split; [left|]. split_and!; try done; [lia|].
      intros lid. rewrite iteration_at_dset. cbn [iteration].
      destruct (String.eqb_spec lid (loop_id loop)) as [->|]; lia.
Qed.

(** Loops end: whatever the nodes answer, a loop sends the run back at most
    as often as its remaining iterations allow. *)
Theorem loop_backs_bounded loop state events :
  NoDup (map loop_id (loops bp)) -> loop ∈ loops bp ->
  Z.of_nat (loop_backs (loop_id loop) state events) <=
  Z.max 0 (max_iterations loop - iteration_at (loop_id loop) state).
Proof.
  intros Hn Hl. revert state. induction events as [|[node output] events IH]; intros state;
    cbn [loop_backs]; [lia|].
  unfold check_loop_back. destruct (check_loop_back_in _ _ _ _) as [[state' d]|] eqn:E; [|lia].
  specialize (IH state').
  destruct (check_loop_back_step _ _ _ _ _ _ E) as [[Hs Hd]|(l & x & Hin & -> & Ha & Hx & Hlt & Hs)].
  - rewrite Hs in IH. destruct d as [x|]; [|lia].
    rewrite bool_decide_eq_false_2; [lia|]. intros [Ha _]. by apply (Hd x).
  - rewrite (Hs (loop_id loop)) in IH. rewrite Ha, Hx.
    destruct (String.eqb_spec (loop_id loop) (loop_id l)) as [He|Hne].
    + assert (l = loop) as -> by (eapply (unique_key loop_id); eauto).
      rewrite bool_decide_eq_true_2 by done. lia.
    + rewrite bool_decide_eq_false_2 by naive_solver. lia.
Qed.

(** The loop-back that uses up the last iteration is granted and then refused:
    every node of the path, the target first, is escalated. *)
Lemma last_loop_back_escalates loop state n :
  loop ∈ loops bp -> n ∈ path loop -> 0 < max_iterations loop ->
  iteration_at (loop_id loop) state = max_iterations loop ->
  check_loop_exhaustion bp n state = Some "escalate".
Proof.
  intros Hl Hn Hpos Hi. unfold check_loop_exhaustion.
  assert (existsb (fun l => mem n (path l) &&
            match dget (loop_id l) (loop_state state) with
            | Some ls => max_iterations l <=? iteration ls | None => false end)
          (loops bp) = true) as ->; [|done].
  apply existsb_elem. exists loop. split; [done|]. apply andb_true_iff. split.
  - by apply mem_true.
  - unfold iteration_at in Hi. destruct (dget _ _); [apply Z.leb_le; lia | lia].
Qed.

(** ** The order after a loop-back *)

Lemma index_app n order i rest : index n order = Some i -> index n (order ++ rest) = Some i.
Proof.
  revert i. induction order as [|x order IH]; intros i; simpl; [discriminate|].
  destruct (x =? n)%string; [done|]. destruct (index n order) as [j|]; [|discriminate].
  intros [= <-]. by rewrite (IH j).
Qed.

Lemma index_take n order i k : index n order = Some i -> (i < k)%nat -> index n (take k order) = Some i.
Proof.
  revert i k. induction order as [|x order IH]; intros i [|k]; simpl; try (discriminate || lia).
  destruct (x =? n)%string; [done|]. destruct (index n order) as [j|]; [|discriminate].
  intros [= <-] Hk. by rewrite (IH j k eq_refl) by lia.
Qed.

Lemma index_lt n order i : index n order = Some i -> (i < length order)%nat.
Proof.
  revert i. induction order as [|x order IH]; intros i; simpl; [discriminate|].
  destruct (x =? n)%string; [intros [= <-]; lia|].
  destruct (index n order) as [j|]; [|discriminate]. intros [= <-]. specialize (IH j eq_refl). lia.
Qed.

(** After a loop-back from [current] to an earlier [target] nothing of the
    old order is lost, but the cursor is set to the first occurrence of
    [target] ([execution_order.index(target_node)]), so the nodes from
    [target] to [current] are scheduled again and then the loop's path once
    more before the rest: one loop-back runs the body twice. *)
Theorem loop_back_schedule order current target i j l :
  index current order = Some j -> index target order = Some i -> (i <= j)%nat ->
  get_loop_for_node bp target = Some l ->
  let order' := rebuild_order_with_loop bp order current target in
  order' = take (S j) order ++ path l ++ drop (S j) order /\
  index target order' = Some i /\
  drop i order' = drop i (take (S j) order) ++ path l ++ drop (S j) order.
Proof.
  intros Hj Hi Hle Hl. cbv zeta. unfold rebuild_order_with_loop. rewrite Hj, Hi, Hl.
  destruct (Z.ltb_spec (Z.of_nat j) (Z.of_nat i)); [lia|].
  replace (Z.to_nat (Z.of_nat j + 1)) with (S j) by lia.
  assert (Hlen : (j < length order)%nat) by by apply index_lt in Hj.
  split_and!; [done| |].
  - apply index_app, index_take; [done | lia].
  - rewrite drop_app_le; [done|]. rewrite length_take. lia.
Qed.
End Properties.

Definition demo_conn (a b : string) : ConnectionDef := mkConnection a "out" b "in" None None.
Definition demo_chain : ChainBlueprint :=
  mkBlueprint "c" "chain" "1.0.0" "" "g"
    (map (fun n => mkNodeDef n "model" [] 0) ["a"; "b"; "c"; "d"])
    [demo_conn "a" "b"; demo_conn "b" "c"; demo_conn "c" "d"]
    [mkLoop "l" "" "" 2 fzero ["b"; "c"] None] [] [] [] [] [] [] [] "".

Example demo_order :
  resolve_execution_order demo_chain (fun l => l) = Some ["a"; "b"; "c"; "d"].
Proof. vm_compute. reflexivity. Qed.

(** The order is not topological: [d] comes before its predecessor [c]. *)
Example order_not_topological :
  resolve_execution_order
    (mkBlueprint "c" "chain" "1.0.0" "" "g"
       (map (fun n => mkNodeDef n "model" [] 0) ["a"; "b"; "c"; "d"])
       [demo_conn "a" "d"; demo_conn "a" "b"; demo_conn "b" "c"; demo_conn "c" "d"]
       [] [] [] [] [] [] [] [] "") (fun l => l) = Some ["a"; "d"; "b"; "c"].
Proof. vm_compute. reflexivity. Qed.

Lemma execution_order_correct_witness :
  exists order, resolve_execution_order demo_chain (fun l => l) = Some order /\ NoDup order.
Proof.
  destruct (execution_order_correct demo_chain (fun l => l) (fun l => reflexivity l))
    as (order & H1 & H2 & _).
  exact (ex_intro _ order (conj H1 H2)).
Defined.

Lemma loop_backs_bounded_witness :
  loop_backs demo_chain "l" (initial_state "r" "t")
    (repeat ("c", [("loop_required", VBool true)]) 5) = 2%nat /\
  Z.of_nat (loop_backs demo_chain "l" (initial_state "r" "t")
              (repeat ("c", [("loop_required", VBool true)]) 5)) <= 2.
Proof.
  split; [vm_compute; reflexivity|].
  refine (loop_backs_bounded demo_chain (mkLoop "l" "" "" 2 fzero ["b"; "c"] None)
            (initial_state "r" "t") (repeat ("c", [("loop_required", VBool true)]) 5) _ _).
  - apply NoDup_singleton.
  - left.
Defined.

Lemma loop_back_schedule_witness :
  rebuild_order_with_loop demo_chain ["a"; "b"; "c"; "d"] "c" "b" =
  ["a"; "b"; "c"; "b"; "c"; "d"].
Proof.
  exact (proj1 (loop_back_schedule demo_chain ["a"; "b"; "c"; "d"] "c" "b" 1 2
    (mkLoop "l" "" "" 2 fzero ["b"; "c"] None) eq_refl eq_refl ltac:(lia) eq_refl)).
Defined.
