(* ===== verification/StateStore.v ===== *)
(** * Run state store

    [StateManager] of [core/state.py] with the [EventLogStore] and the
    [InvocationLedgerStore] of [core/stores.py]: the tables chain_states,
    state_events and invocation_ledger, their writes and reads and the replay
    of a run.  [dump] and [parse] are the JSON serialisation of the state;
    [dump] is [None] where [model_dump_json] raises.
    [io] tells whether the database accepts the transaction (a disk or lock
    error raises, and the transaction is rolled back).  A write returns the
    caller's state object, which it mutates, the tables and the outcome. *)
From S2P Require Import Prelude PyFloat PyValue Sql ChainState.

Record StateRow (Json : Type) := mkStateRow {
  sr_run_id : string;
  state_json : Json;
  sr_revision : Z;
  updated_at : string;
}.
Arguments mkStateRow {Json}.
Arguments sr_run_id {Json}.
Arguments state_json {Json}.
Arguments sr_revision {Json}.
Arguments updated_at {Json}.

Record EventRow := mkEventRow {
  seq : Z;
  er_run_id : string;
  er_revision : Z;
  event_type : string;
  er_node_id : option string;
  er_step_id : option Z;
  payload : option pyctx;
  timestamp : string;
  trace_event_id : option string;
}.

Record InvocationRow := mkInvocation {
  ir_run_id : string;
  ir_step_id : Z;
  ir_node_id : string;
  branch_name : option string;
  ir_status : string;
  output_hash : option string;
  cost_usd : pyfloat;
  ir_timestamp : string;
}.

Record Store (Json : Type) := mkStore {
  chain_states : list (StateRow Json);
  state_events : list EventRow;
  invocation_ledger : list InvocationRow;
}.
Arguments mkStore {Json}.
Arguments chain_states {Json}.
Arguments state_events {Json}.
Arguments invocation_ledger {Json}.

Inductive store_error :=
| SerializationError
| DatabaseError
| DuplicateTraceEvent
| InvocationConflict.

#[export] Instance store_error_eq_dec : EqDecision store_error.
Proof. solve_decision. Defined.

Definition with_revision (r : Z) (s : ChainState) : ChainState :=
  mkState (run_id s) (chain_id s) (status s) (current_node s) (step s) (started_at s)
    (paused_at s) (completed_at s) (outputs s) (loop_state s) (cost_accumulated_usd s)
    (human_review s) (metadata s) (branch_outputs s) (join_inputs s) (skipped_nodes s)
    (routing_decisions s) (branch_states s) r (completed_steps s) (side_effects s)
    (is_resumed s) (blueprint_version s) (execution_order_hash s).

(** The serialisation of states that hold JSON values only: it never raises. *)
Definition total {Json} (dump : ChainState -> Json) (s : ChainState) : option Json := Some (dump s).

Section Store.
Context {Json : Type} (dump : ChainState -> option Json) (parse : Json -> option ChainState).
Implicit Types (st : Store Json) (s : ChainState).

(** ** Statements *)

(** [INSERT OR REPLACE INTO chain_states]: the old row goes, the new is last. *)
Definition replace_state s (text : Json) (now : string) st : Store Json :=
  mkStore
    (List.filter (fun r => negb (sr_run_id r =? run_id s)%string) (chain_states st)
       ++ [mkStateRow (run_id s) text (revision s) now])
    (state_events st) (invocation_ledger st).

(** AUTOINCREMENT: one more than the largest [seq] ever used. *)
Definition next_seq st : Z := foldr (fun e m => Z.max (seq e) m) 0 (state_events st) + 1.

(** [INSERT INTO state_events] under the partial unique index on
    (run_id, trace_event_id). *)
Definition insert_event (run : string) (rev : Z) (ty : string) (node : option string)
  (stp : option Z) (pl : option pyctx) (ts : string) (tid : option string) st
  : res store_error (Store Json) :=
  if existsb (fun e => (er_run_id e =? run)%string && sql_eq (trace_event_id e) tid)
       (state_events st)
  then Err DuplicateTraceEvent
  else Ok (mkStore (chain_states st)
             (state_events st ++ [mkEventRow (next_seq st) run rev ty node stp pl ts tid])
             (invocation_ledger st)).

(** [json.dumps(p) if p else None] *)
Definition payload_of (p : option pyctx) : option pyctx :=
  match p with Some ((_ :: _) as d) => Some d | _ => None end.

Definition at_step (run : string) (stp : Z) (r : InvocationRow) : bool :=
  (ir_run_id r =? run)%string && (ir_step_id r =? stp).

Definition identity_match (node : string) (branch : option string) (stat : string)
  (hash : option string) (cost : pyfloat) (r : InvocationRow) : bool :=
  (ir_node_id r =? node)%string && bool_decide (branch_name r = branch)
  && (ir_status r =? stat)%string && bool_decide (output_hash r = hash)
  && num_eq (NFloat (cost_usd r)) (NFloat cost).

(** A NaN cost is stored as NULL, which the column refuses. *)
Definition insert_invocation_checked (run : string) (stp : Z) (node : string)
  (branch : option string) (stat : string) (hash : option string) (cost : pyfloat)
  (now : string) st : res store_error (Store Json) :=
  match fetchone (at_step run stp) (invocation_ledger st) with
  | Some ex =>
      if identity_match node branch stat hash cost ex then Ok st else Err InvocationConflict
  | None =>
      if is_nan cost then Err InvocationConflict
      else Ok (mkStore (chain_states st) (state_events st)
                 (invocation_ledger st ++ [mkInvocation run stp node branch stat hash cost now]))
  end.

(** ** Writes *)

(** The object the caller holds, the tables, and the outcome. *)
Definition written : Type := ChainState * Store Json * res store_error unit.

(** A transaction that advances the revision, and restores it when it raises.
    The serialisation comes after the advance and before the [try]. *)
Definition restoring s st (io : bool) (body : ChainState -> Json -> res store_error (Store Json))
  : written :=
  let s' := with_revision (revision s + 1) s in
  match dump s' with
  | None => (s', st, Err SerializationError)
  | Some text =>
      match (if io then body s' text else Err DatabaseError) with
      | Ok st' => (s', st', Ok tt)
      | Err e => (s, st, Err e)
      end
  end.

(** [save] advances the revision first and does not restore it. *)
Definition save s (now : string) (io : bool) st : written :=
  let s' := with_revision (revision s + 1) s in
  match dump s' with
  | None => (s', st, Err SerializationError)
  | Some text => if io then (s', replace_state s' text now st, Ok tt) else (s', st, Err DatabaseError)
  end.

Record InvocationArgs := mkInvArgs {
  ia_step_id : Z;
  ia_node_id : string;
  ia_branch_name : option string;
  ia_status : string;
  ia_event_type : option string;
  ia_payload : option pyctx;
  ia_cost : pyfloat;
}.

Definition save_with_invocation s (a : InvocationArgs) (now : string) (io : bool) st : written :=
  restoring s st io (fun s' text =>
    st1 ← insert_invocation_checked (run_id s') (ia_step_id a) (ia_node_id a)
            (ia_branch_name a) (ia_status a) None (ia_cost a) now (replace_state s' text now st);
    if ostr_truthy (ia_event_type a) then
      insert_event (run_id s') (revision s') (default "" (ia_event_type a))
        (Some (ia_node_id a)) (Some (ia_step_id a)) (payload_of (ia_payload a)) now None st1
    else Ok st1).

Definition save_with_event s (ty : string) (pl : option pyctx) (tid : option string)
  (now : string) (io : bool) st : written :=
  restoring s st io (fun s' text =>
    insert_event (run_id s') (revision s') ty None None (payload_of pl) now tid
      (replace_state s' text now st)).

(** [event.durable_payload()] is the caller's record of the event. *)
Record TraceEvent := mkTraceEvent {
  te_event_id : string;
  te_event_type : string;
  te_node_id : option string;
  te_step_id : option Z;
  te_durable_payload : pyctx;
  te_timestamp : string;
}.

Definition save_with_trace_event s (e : TraceEvent) (now : string) (io : bool) st : written :=
  restoring s st io (fun s' text =>
    insert_event (run_id s') (revision s') (te_event_type e) (te_node_id e) (te_step_id e)
      (Some (te_durable_payload e)) (te_timestamp e) (Some (te_event_id e))
      (replace_state s' text now st)).

(** The single-table writes. *)
Definition append_event (run : string) (rev : Z) (ty : string) (node : option string)
  (stp : option Z) (pl : option pyctx) (now : string) st : res store_error (Store Json) :=
  insert_event run rev ty node stp (payload_of pl) now None st.

Definition append_trace_event (run : string) (rev : Z) (ty : string) (node : option string)
  (stp : option Z) (tid ts : string) (pl : option pyctx) st : res store_error (Store Json) :=
  insert_event run rev ty node stp (payload_of pl) ts (Some tid) st.

Definition record_invocation (run : string) (stp : Z) (node : string) (branch : option string)
  (stat : string) (hash : option string) (cost : pyfloat) (now : string) st
  : res store_error (Store Json) :=
  insert_invocation_checked run stp node branch stat hash cost now st.

Definition delete (run : string) st : Store Json :=
  mkStore (List.filter (fun r => negb (sr_run_id r =? run)%string) (chain_states st))
    (state_events st) (invocation_ledger st).

(** ** Reads *)

Definition load (run : string) st : option ChainState :=
  match fetchone (fun r => sr_run_id r =? run)%string (chain_states st) with
  | Some r => parse (state_json r)
  | None => None
  end.

Definition get_run_updated_at (run : string) st : option string :=
  updated_at <$> fetchone (fun r => sr_run_id r =? run)%string (chain_states st).

(** [ORDER BY seq]; the rows are kept in that order. *)
Definition get_events (run : string) st : list EventRow :=
  select (fun e => er_run_id e =? run)%string (state_events st).

Definition get_trace_events (run : string) st : list EventRow :=
  select (fun e => (er_run_id e =? run)%string && not_null (trace_event_id e)) (state_events st).

Definition completed_at_step (run : string) (stp : Z) (r : InvocationRow) : bool :=
  at_step run stp r && (ir_status r =? "completed")%string.

Definition is_step_completed (run : string) (stp : Z) st : bool :=
  not_null (fetchone (completed_at_step run stp) (invocation_ledger st)).

Definition is_node_completed (run node : string) st : bool :=
  not_null (fetchone (fun r => (ir_run_id r =? run)%string && (ir_node_id r =? node)%string
                               && (ir_status r =? "completed")%string) (invocation_ledger st)).

Definition get_completed_steps (run : string) st : list (Z * string) :=
  map (fun r => (ir_step_id r, ir_node_id r))
    (py_sorted (fun a b => ir_step_id a <=? ir_step_id b)
       (select (fun r => (ir_run_id r =? run)%string && (ir_status r =? "completed")%string)
          (invocation_ledger st))).

(** [sql_sum] is SQLite's SUM of a non-empty column. *)
Definition get_invocation_cost (sql_sum : list pyfloat -> pyfloat) (run : string)
  (node_ids : list string) st : pyfloat :=
  match select (fun r => (ir_run_id r =? run)%string
                         && (negb (nonempty node_ids) || mem (ir_node_id r) node_ids))
          (invocation_ledger st) with
  | [] => fzero
  | rows => sql_sum (map cost_usd rows)
  end.

(** ** Replay *)

Definition sub_dict (k : string) (d : pyctx) : pyctx :=
  match dget k d with Some (VDict m) => m | _ => [] end.

(** The payload of an event as the replay reads it. *)
Definition payload_dict (e : EventRow) : pyctx := default [] (payload e).

Definition replay_event (e : EventRow) (acc : list pyctx * list pyctx) : list pyctx * list pyctx :=
  let '(routing, skipped) := acc in
  let md := sub_dict "metadata" (payload_dict e) in
  if (event_type e =? "routing_decision")%string then
    (routing ++ [[ ("from_node", dget_or "from_node" (VStr "") md);
                   ("selected", dget_or "selected" (VList []) md);
                   ("skipped", dget_or "skipped" (VList []) md);
                   ("available", dget_or "available" (VList []) md) ]], skipped)
  else if (event_type e =? "node_skipped")%string then
    (routing, skipped ++ [[ ("branch", dget_or "branch" (VStr "") md);
                            ("nodes", dget_or "nodes" (VList []) md);
                            ("reason", VStr "not_selected") ]])
  else acc.

(** The last completed step: the largest, the rows being sorted. *)
Definition replay_state (run now : string) st : option ChainState :=
  match last (get_events run st) with
  | None => None
  | Some last_event =>
      let steps := get_completed_steps run st in
      let '(routing, skipped) :=
        fold_left (fun acc e => replay_event e acc) (get_events run st) ([], []) in
      let max_step := match last steps with Some (k, _) => k | None => 0 end in
      Some (mkState run "" (if nonempty steps then "completed" else "initialized")
              (match last steps with Some (_, n) => n | None => "" end) max_step now None None
              [] [] fzero (mkReview false None None None None) [] [] [] skipped routing []
              (Z.max (er_revision last_event) max_step) steps [] false "" "")
  end.
End Store.

(** ** Well-formed tables *)

Definition trace_key (e : EventRow) : option (string * string) :=
  match trace_event_id e with Some t => Some (er_run_id e, t) | None => None end.

Definition step_key (r : InvocationRow) : string * Z := (ir_run_id r, ir_step_id r).

(** The keys of the schema hold, and the journal is in sequence order. *)
Definition well_formed {Json} (st : Store Json) : Prop :=
  StronglySorted (fun a b => seq a < seq b) (state_events st) /\
  NoDup (omap trace_key (state_events st)) /\
  NoDup (map step_key (invocation_ledger st)) /\
  NoDup (map sr_run_id (chain_states st)).

(** The journal and the invocation ledger only grow. *)
Definition extends {Json} (st st' : Store Json) : Prop :=
  (exists es, state_events st' = state_events st ++ es) /\
  (exists rs, invocation_ledger st' = invocation_ledger st ++ rs).

Definition good_step {Json} (st st' : Store Json) : Prop := well_formed st' /\ extends st st'.

Section Lemmas.
Context {Json : Type} (dump : ChainState -> option Json) (parse : Json -> option ChainState).
Implicit Types (st : Store Json) (s : ChainState).

Lemma extends_refl st : extends st st.
Proof. split; exists []; by rewrite app_nil_r. Qed.

Lemma extends_same st st' :
  state_events st' = state_events st -> invocation_ledger st' = invocation_ledger st ->
  extends st st'.
Proof. unfold extends. intros -> ->. split; exists []; by rewrite app_nil_r. Qed.

Lemma extends_trans st1 st2 st3 : extends st1 st2 -> extends st2 st3 -> extends st1 st3.
Proof.
  intros [(e1 & E1) (r1 & R1)] [(e2 & E2) (r2 & R2)].
  split; [exists (e1 ++ e2); rewrite E2, E1 | exists (r1 ++ r2); rewrite R2, R1];
    by rewrite app_assoc.
Qed.

Lemma next_seq_gt st e : e ∈ state_events st -> seq e < next_seq st.
Proof.
  unfold next_seq. induction (state_events st) as [|x l IH]; [intros H; inversion H|].
  intros [->|H]%elem_of_cons; simpl; [lia|]. specialize (IH H). lia.
Qed.

Lemma NoDup_filter_keys {A K} (key : A -> K) (p : A -> bool) l :
  NoDup (map key l) -> NoDup (map key (List.filter p l)).
Proof.
  induction l as [|x l IH]; simpl; [done|]. intros [Hx Hl]%NoDup_cons.
  destruct (p x); simpl; [|auto]. apply NoDup_cons. split; [|auto].
  intros (y & He & Hy)%list_elem_of_fmap. apply elem_of_lfilter in Hy as [_ Hy].
  apply Hx, list_elem_of_fmap. eauto.
Qed.

Lemma replace_state_good s (text : Json) now st :
  well_formed st -> good_step st (replace_state s text now st).
Proof.
  intros (H1 & H2 & H3 & H4). split; [|by apply extends_same]. split_and!; try done.
  simpl. rewrite map_app. apply NoDup_snoc; [by apply NoDup_filter_keys|].
  intros (y & He & Hy)%list_elem_of_fmap. apply elem_of_lfilter in Hy as [Hy _].
  simpl in He. rewrite He, String.eqb_refl in Hy. done.
Qed.

Lemma StronglySorted_snoc {A} (R : A -> A -> Prop) l x :
  StronglySorted R l -> (forall y, y ∈ l -> R y x) -> StronglySorted R (l ++ [x]).
Proof.
  induction 1 as [|y l Hs IH Hf]; intros Hx; simpl; [repeat constructor|].
  constructor.
  - apply IH. intros z Hz. apply Hx. by right.
  - apply List.Forall_app. split; [done|]. constructor; [apply Hx; left | constructor].
Qed.

Lemma insert_event_good run rev ty node stp pl ts tid st st' :
  insert_event run rev ty node stp pl ts tid st = Ok st' -> well_formed st -> good_step st st'.
Proof.
  unfold insert_event. destruct (existsb _ _) eqn:E; [discriminate|].
  intros [= <-] (H1 & H2 & H3 & H4). split.
  - split_and!; simpl; try done.
    + apply StronglySorted_snoc; [done|]. intros e He. simpl. by apply next_seq_gt.
    + rewrite omap_app. simpl. unfold trace_key at 2. simpl. destruct tid as [t|]; simpl.
      * apply NoDup_snoc; [done|]. intros (e & He & Hk)%list_elem_of_omap.
        unfold trace_key in Hk. destruct (trace_event_id e) as [t'|] eqn:Et; [|discriminate].
        injection Hk as Hr ->. apply not_true_iff_false in E. apply E, existsb_elem.
        exists e. split; [done|]. rewrite Hr, Et. simpl. by rewrite !String.eqb_refl.
      * by rewrite app_nil_r.
  - split; simpl; [eexists; reflexivity|]. exists []. by rewrite app_nil_r.
Qed.

Lemma at_step_true run stp r : at_step run stp r = true <-> step_key r = (run, stp).
Proof.
  unfold at_step, step_key. rewrite andb_true_iff, String.eqb_eq, Z.eqb_eq.
  split; [intros [-> ->]; done | by intros [= -> ->]].
Qed.

Lemma insert_invocation_good run stp node br stat hash cost now st st' :
  insert_invocation_checked run stp node br stat hash cost now st = Ok st' ->
  well_formed st -> good_step st st'.
Proof.
  unfold insert_invocation_checked. destruct (fetchone _ _) as [ex|] eqn:E.
  - case_goal; [|discriminate]. intros [= <-] Hw. split; [done | apply extends_refl].
  - case_goal; [discriminate|]. intros [= <-] (H1 & H2 & H3 & H4). split.
    + split_and!; try done. simpl. rewrite map_app. apply NoDup_snoc; [done|].
      intros (r & He & Hr)%list_elem_of_fmap. rewrite fetchone_none in E.
      specialize (E r Hr). apply not_true_iff_false in E. by apply E, at_step_true.
    + split; simpl; [exists []; by rewrite app_nil_r | eexists; reflexivity].
Qed.

Lemma good_trans st1 st2 st3 : good_step st1 st2 -> good_step st2 st3 -> good_step st1 st3.
Proof. intros [_ E1] [W2 E2]. split; [done | by eapply extends_trans]. Qed.

(** ** Any sequence of operations *)

Inductive store_op :=
| OpSave (s : ChainState) (now : string) (io : bool)
| OpInvocation (s : ChainState) (a : InvocationArgs) (now : string) (io : bool)
| OpEvent (s : ChainState) (ty : string) (pl : option pyctx) (tid : option string)
    (now : string) (io : bool)
| OpTrace (s : ChainState) (e : TraceEvent) (now : string) (io : bool)
| OpAppend (run : string) (rev : Z) (ty : string) (node : option string) (stp : option Z)
    (pl : option pyctx) (now : string)
| OpAppendTrace (run : string) (rev : Z) (ty : string) (node : option string) (stp : option Z)
    (tid ts : string) (pl : option pyctx)
| OpRecord (run : string) (stp : Z) (node : string) (branch : option string) (stat : string)
    (hash : option string) (cost : pyfloat) (now : string)
| OpDelete (run : string).

(** The tables after a raising write are those before it. *)
Definition keep st (r : res store_error (Store Json)) : Store Json :=
  match r with Ok st' => st' | Err _ => st end.

Definition exec (o : store_op) st : Store Json :=
  match o with
  | OpSave s now io => snd (fst (save dump s now io st))
  | OpInvocation s a now io => snd (fst (save_with_invocation dump s a now io st))
  | OpEvent s ty pl tid now io => snd (fst (save_with_event dump s ty pl tid now io st))
  | OpTrace s e now io => snd (fst (save_with_trace_event dump s e now io st))
  | OpAppend run rev ty node stp pl now => keep st (append_event run rev ty node stp pl now st)
  | OpAppendTrace run rev ty node stp tid ts pl =>
      keep st (append_trace_event run rev ty node stp tid ts pl st)
  | OpRecord run stp node br stat hash cost now =>
      keep st (record_invocation run stp node br stat hash cost now st)
  | OpDelete run => delete run st
  end.

Lemma restoring_good s st io body :
  (forall s' text st', body s' text = Ok st' -> good_step st st') -> well_formed st ->
  good_step st (snd (fst (restoring dump s st io body))).
Proof.
  intros Hb Hw. unfold restoring.
  assert (good_step st st) as Hr by (split; [done | apply extends_refl]).
  destruct (dump _) as [text|]; [|exact Hr]. destruct io; [|exact Hr].
  destruct (body _ _) as [st'|] eqn:E; [by eapply Hb | exact Hr].
Qed.

Lemma keep_good st r :
  (forall st', r = Ok st' -> good_step st st') -> well_formed st -> good_step st (keep st r).
Proof.
  intros H Hw. destruct r as [st'|]; [by apply H|]. split; [done | apply extends_refl].
Qed.

Lemma exec_good o st : well_formed st -> good_step st (exec o st).
Proof.
  intros Hw. destruct o; cbn [exec].
  - unfold save. destruct (dump _) as [text|]; [|split; [done | apply extends_refl]]. destruct io; [by apply replace_state_good | split; [done | apply extends_refl]].
  - apply restoring_good; [|done]. intros s' text st' Hb. inv_bind Hb.
    pose proof (replace_state_good s' text now st Hw) as G1.
    pose proof (insert_invocation_good _ _ _ _ _ _ _ _ _ _ Ha (proj1 G1)) as G2.
    case_in Hb.
    + eapply good_trans; [eapply good_trans; [exact G1 | exact G2]|].
      eapply insert_event_good; [exact Hb | apply G2].
    + injection Hb as <-. eapply good_trans; [exact G1 | exact G2].
  - apply restoring_good; [|done]. intros s' text st' Hb.
    pose proof (replace_state_good s' text now st Hw) as G1.
    eapply good_trans; [exact G1|]. eapply insert_event_good; [exact Hb | apply G1].
  - apply restoring_good; [|done]. intros s' text st' Hb.
    pose proof (replace_state_good s' text now st Hw) as G1.
    eapply good_trans; [exact G1|]. eapply insert_event_good; [exact Hb | apply G1].
  - apply keep_good; [|done]. intros st' H. by eapply insert_event_good.
  - apply keep_good; [|done]. intros st' H. by eapply insert_event_good.
  - apply keep_good; [|done]. intros st' H. by eapply insert_invocation_good.
  - destruct Hw as (H1 & H2 & H3 & H4). split.
    + split_and!; try done. by apply NoDup_filter_keys.
    + by apply extends_same.
Qed.

Definition run_ops (ops : list store_op) st : Store Json :=
  fold_left (fun st o => exec o st) ops st.

Lemma run_ops_good ops st : well_formed st -> good_step st (run_ops ops st).
Proof.
  revert st. induction ops as [|o ops IH]; intros st Hw; simpl.
  - split; [done | apply extends_refl].
  - pose proof (exec_good o st Hw) as G. eapply good_trans; [exact G|]. apply IH, G.
Qed.
End Lemmas.

(** ** Properties *)

Section Properties.
Context {Json : Type} (dump : ChainState -> option Json) (parse : Json -> option ChainState).
Implicit Types (st : Store Json) (s : ChainState).

Lemma elem_of_completed run k n st :
  (k, n) ∈ get_completed_steps run st <->
  exists r, r ∈ invocation_ledger st /\ step_key r = (run, k) /\ ir_node_id r = n /\
    ir_status r = "completed".
Proof.
  unfold get_completed_steps, select. rewrite list_elem_of_fmap. split.
  - intros (r & [= -> ->] & Hr). rewrite elem_of_py_sorted, elem_of_lfilter in Hr.
    destruct Hr as [Hp Hr]. bool_prop. exists r. split_and!; try done.
    unfold step_key. by f_equal.
  - intros (r & Hr & Hk & <- & Hs). injection Hk as Hrun <-. exists r. split; [done|].
    rewrite elem_of_py_sorted, elem_of_lfilter. split; [|done].
    by rewrite Hrun, Hs, !String.eqb_refl.
Qed.

Lemma step_completed_true run k st :
  is_step_completed run k st = true <-> exists n, (k, n) ∈ get_completed_steps run st.
Proof.
  unfold is_step_completed. setoid_rewrite elem_of_completed.
  rewrite not_null_true. split.
  - intros (r & [Hr Hp]%fetchone_some). unfold completed_at_step in Hp.
    apply andb_true_iff in Hp as [Hp Hs]. apply at_step_true in Hp. bool_prop. eauto 10.
  - intros (n & r & Hr & Hk & <- & Hs).
    destruct (fetchone (completed_at_step run k) (invocation_ledger st)) as [x|] eqn:E; [eauto|].
    rewrite fetchone_none in E. specialize (E r Hr). unfold completed_at_step in E.
    apply at_step_true in Hk. by rewrite Hk, Hs, String.eqb_refl in E.
Qed.

(** The journal is the durable truth: whatever is written, replaced or
    deleted, and whichever writes fail, the journal keeps every row in
    strictly increasing sequence with at most one row per trace event, an
    invocation row is never changed or doubled, and a completed step stays
    completed by the same node. *)
Theorem journal_append_only ops st :
  well_formed st ->
  well_formed (run_ops dump ops st) /\ extends st (run_ops dump ops st) /\
  (forall run k n, (k, n) ∈ get_completed_steps run st ->
     (k, n) ∈ get_completed_steps run (run_ops dump ops st) /\
     is_step_completed run k (run_ops dump ops st) = true).
Proof.
  intros Hw. destruct (run_ops_good dump ops st Hw) as [Hw' He]. split_and!; [done|done|].
  intros run k n Hk.
  assert ((k, n) ∈ get_completed_steps run (run_ops dump ops st)) as Hk'.
  { apply elem_of_completed in Hk as (r & Hr & Hrest). apply elem_of_completed.
    exists r. split; [|done]. destruct He as [_ (rs & ->)]. rewrite elem_of_app. auto. }
  split; [done|]. apply step_completed_true. eauto.
Qed.

(** ** Atomic saves *)

Inductive save_op :=
| SaveInvocation (a : InvocationArgs)
| SaveEvent (ty : string) (pl : option pyctx) (tid : option string)
| SaveTrace (e : TraceEvent).

Definition run_save (o : save_op) s (now : string) (io : bool) st : written :=
  match o with
  | SaveInvocation a => save_with_invocation dump s a now io st
  | SaveEvent ty pl tid => save_with_event dump s ty pl tid now io st
  | SaveTrace e => save_with_trace_event dump s e now io st
  end.

(** The rows of the journal that a save adds, [s'] being the saved state. *)
Definition saved_events (o : save_op) (s' : ChainState) (now : string) st : list EventRow :=
  let row ty node stp pl ts tid := mkEventRow (next_seq st) (run_id s') (revision s') ty node stp pl ts tid in
  match o with
  | SaveInvocation a =>
      match ia_event_type a with
      | Some (String _ _ as ty) => [row ty (Some (ia_node_id a)) (Some (ia_step_id a)) (payload_of (ia_payload a)) now None]
      | _ => []
      end
  | SaveEvent ty pl tid => [row ty None None (payload_of pl) now tid]
  | SaveTrace e =>
      [row (te_event_type e) (te_node_id e) (te_step_id e) (Some (te_durable_payload e)) (te_timestamp e) (Some (te_event_id e))]
  end.

(** The row of an invocation: the new one of its step, or the identical one
    that was there; the other saves leave the ledger alone. *)
Definition saved_invocation (o : save_op) (run now : string) st st' : Prop :=
  match o with
  | SaveInvocation a =>
      (invocation_ledger st' = invocation_ledger st /\
       exists r, r ∈ invocation_ledger st /\ step_key r = (run, ia_step_id a) /\
         identity_match (ia_node_id a) (ia_branch_name a) (ia_status a) None (ia_cost a) r = true) \/
      ((forall r, r ∈ invocation_ledger st -> step_key r <> (run, ia_step_id a)) /\
       invocation_ledger st' = invocation_ledger st ++
         [mkInvocation run (ia_step_id a) (ia_node_id a) (ia_branch_name a) (ia_status a) None (ia_cost a) now])
  | _ => invocation_ledger st' = invocation_ledger st
  end.

Lemma load_replaced s (text : Json) now st :
  parse text = Some s -> well_formed st ->
  load parse (run_id s) (replace_state s text now st) = Some s /\
  forall run, run <> run_id s -> load parse run (replace_state s text now st) = load parse run st.
Proof.
  intros Hp (_ & _ & _ & Hn). unfold load, replace_state, fetchone. cbn [chain_states]. split.
  - induction (chain_states st) as [|r l IH]; simpl.
    + by rewrite String.eqb_refl.
    + destruct (String.eqb_spec (sr_run_id r) (run_id s)) as [E|E]; simpl.
      * apply IH. simpl in Hn. by apply NoDup_cons in Hn as [_ ?].
      * apply String.eqb_neq in E. rewrite E. apply IH. simpl in Hn.
        by apply NoDup_cons in Hn as [_ ?].
  - intros run Hne. induction (chain_states st) as [|r l IH]; simpl.
    + apply not_eq_sym, String.eqb_neq in Hne. by rewrite Hne.
    + simpl in Hn. apply NoDup_cons in Hn as [_ Hn].
      destruct (String.eqb_spec (sr_run_id r) (run_id s)) as [E|E]; simpl.
      * rewrite E. apply not_eq_sym, String.eqb_neq in Hne. rewrite Hne. auto.
      * destruct (sr_run_id r =? run)%string; [done | auto].
Qed.

Lemma insert_event_adds run rev ty node stp pl ts tid st st' :
  insert_event run rev ty node stp pl ts tid st = Ok st' ->
  chain_states st' = chain_states st /\ invocation_ledger st' = invocation_ledger st /\
  state_events st' = state_events st ++ [mkEventRow (next_seq st) run rev ty node stp pl ts tid].
Proof. unfold insert_event. case_goal; [discriminate|]. by intros [= <-]. Qed.

Lemma insert_invocation_adds (a : InvocationArgs) run now st st' :
  insert_invocation_checked run (ia_step_id a) (ia_node_id a) (ia_branch_name a) (ia_status a) None (ia_cost a) now st = Ok st' ->
  chain_states st' = chain_states st /\ state_events st' = state_events st /\
  saved_invocation (SaveInvocation a) run now st st'.
Proof.
  unfold insert_invocation_checked. destruct (fetchone _ _) as [ex|] eqn:E.
  - case_goal; [|discriminate]. intros [= <-]. split_and!; try done. left. split; [done|].
    apply fetchone_some in E as [H1 H2]. apply at_step_true in H2. eauto.
  - case_goal; [discriminate|]. intros [= <-]. split_and!; try done. right. split; [|done].
    intros r Hr Hk%at_step_true. by rewrite (proj1 (fetchone_none _ _) E r Hr) in Hk.
Qed.

(** Either way the row is there. *)
Lemma saved_row a run now st st' : is_nan (ia_cost a) = false -> saved_invocation (SaveInvocation a) run now st st' ->
  exists r, r ∈ invocation_ledger st' /\ step_key r = (run, ia_step_id a) /\
    identity_match (ia_node_id a) (ia_branch_name a) (ia_status a) None (ia_cost a) r = true.
Proof.
  intros Hc [[-> (r & H)]|[_ ->]]; [by exists r|]. eexists. split; [apply elem_of_app; right; left|]. split; [done|].
  unfold identity_match. cbn [ir_node_id branch_name ir_status output_hash cost_usd]. rewrite !String.eqb_refl.
  rewrite !bool_decide_eq_true_2 by done. cbn [andb].
  unfold num_eq, num_cmp. simpl. destruct (ia_cost a) as [[]|[]| |[]]; try done; simpl;
    unfold scaled_cmp; by rewrite Z.compare_refl.
Qed.

(** What a committed save has done. *)
Record committed (o : save_op) (now : string) s s' st st' : Prop := {
  committed_object : s' = with_revision (revision s + 1) s;
  committed_load : load parse (run_id s) st' = Some s';
  committed_others : forall run, run <> run_id s -> load parse run st' = load parse run st;
  committed_events : state_events st' = state_events st ++ saved_events o s' now st;
  committed_invocation : saved_invocation o (run_id s) now st st';
  committed_well_formed : well_formed st';
}.

Lemma load_same st st' run : chain_states st' = chain_states st -> load parse run st' = load parse run st.
Proof. unfold load. by intros ->. Qed.

Lemma run_save_well_formed o s now io st : well_formed st -> well_formed (snd (fst (run_save o s now io st))).
Proof.
  intros Hw. destruct o as [a|ty pl tid|e]; cbn [run_save].
  - exact (proj1 (exec_good dump (OpInvocation s a now io) st Hw)).
  - exact (proj1 (exec_good dump (OpEvent s ty pl tid now io) st Hw)).
  - exact (proj1 (exec_good dump (OpTrace s e now io) st Hw)).
Qed.

Lemma save_body_committed o s now io st s' st' u :
  (forall x text, dump x = Some text -> parse text = Some x) -> well_formed st ->
  run_save o s now io st = (s', st', Ok u) -> committed o now s s' st st'.
Proof.
  intros Hp Hw H. set (s1 := with_revision (revision s + 1) s).
  assert (Hwf : well_formed st') by (pose proof (run_save_well_formed o s now io st Hw) as Hx; by rewrite H in Hx).
  destruct o; cbn [run_save] in H;
    unfold save_with_invocation, save_with_event, save_with_trace_event, restoring in H;
    fold s1 in H; (destruct (dump s1) as [text|] eqn:Ed; [|discriminate]); (destruct io; [|discriminate]);
    destruct (load_replaced s1 text now st (Hp _ _ Ed) Hw) as [L1 L2]; change (run_id s1) with (run_id s) in L1, L2.
  - destruct (mbind _ _) as [st2|] eqn:Hb in H; [|discriminate]. injection H as <- <- <-.
    apply bind_ok in Hb as (st1 & H1 & Hb). change (run_id s1) with (run_id s) in H1.
    destruct (insert_invocation_adds _ _ _ _ _ H1) as (C1 & E1 & R1).
    assert (chain_states st2 = chain_states st1 /\ invocation_ledger st2 = invocation_ledger st1 /\
            state_events st2 = state_events st ++ saved_events (SaveInvocation a) s1 now st) as (C2 & R2 & E2).
    { unfold saved_events. destruct (ia_event_type a) as [[|c ty]|]; cbn in Hb |- *.
      2: { apply insert_event_adds in Hb as (C2 & R2 & E2). rewrite C2, R2, E2, E1.
           unfold next_seq. by rewrite E1. }
      all: injection Hb as <-; by rewrite app_nil_r. }
    split; try done.
    + by rewrite (load_same (replace_state s1 text now st)) by congruence.
    + intros run Hn. rewrite (load_same (replace_state s1 text now st)) by congruence. by apply L2.
    + unfold saved_invocation in *. rewrite R2. exact R1.
  - destruct (insert_event _ _ _ _ _ _ _ _ _) as [st2|] eqn:Hb in H; [|discriminate].
    injection H as <- <- <-. destruct (insert_event_adds _ _ _ _ _ _ _ _ _ _ Hb) as (C2 & R2 & E2). split; try done.
    + by rewrite (load_same (replace_state s1 text now st)).
    + intros run Hn. rewrite (load_same (replace_state s1 text now st)) by done. by apply L2.
  - destruct (insert_event _ _ _ _ _ _ _ _ _) as [st2|] eqn:Hb in H; [|discriminate].
    injection H as <- <- <-. destruct (insert_event_adds _ _ _ _ _ _ _ _ _ _ Hb) as (C2 & R2 & E2). split; try done.
    + by rewrite (load_same (replace_state s1 text now st)).
    + intros run Hn. rewrite (load_same (replace_state s1 text now st)) by done. by apply L2.
Qed.

(** A save that raised: only the serialisation leaves the revision advanced. *)
Definition save_undone (e : store_error) s s' st st' : Prop :=
  st' = st /\
  s' = match e with SerializationError => with_revision (revision s + 1) s | _ => s end.

Lemma body_never_serializes o s' text now st :
  match o with
  | SaveInvocation a => st1 ← insert_invocation_checked (run_id s') (ia_step_id a) (ia_node_id a)
            (ia_branch_name a) (ia_status a) None (ia_cost a) now (replace_state s' text now st);
    if ostr_truthy (ia_event_type a) then
      insert_event (run_id s') (revision s') (default "" (ia_event_type a))
        (Some (ia_node_id a)) (Some (ia_step_id a)) (payload_of (ia_payload a)) now None st1
    else Ok st1
  | SaveEvent ty pl tid => insert_event (run_id s') (revision s') ty None None (payload_of pl) now tid
      (replace_state s' text now st)
  | SaveTrace e => insert_event (run_id s') (revision s') (te_event_type e) (te_node_id e) (te_step_id e)
      (Some (te_durable_payload e)) (te_timestamp e) (Some (te_event_id e)) (replace_state s' text now st)
  end <> Err SerializationError.
Proof.
  destruct o as [a|ty pl tid|e]; [|unfold insert_event; by destruct (existsb _ _)..]. unfold insert_invocation_checked, insert_event.
  intros H. destruct (fetchone _ _) as [ex|]; [destruct (identity_match _ _ _ _ _ ex)|destruct (is_nan _)]; try discriminate;
    change (mbind ?f (Ok ?x)) with (f x) in H; destruct (ostr_truthy _); try discriminate;
    by destruct (existsb _ _).
Qed.

Lemma save_failed o s now io st s' st' e :
  run_save o s now io st = (s', st', Err e) -> save_undone e s s' st st'.
Proof.
  intros E. unfold save_undone.
  pose proof (fun text => body_never_serializes o (with_revision (revision s + 1) s) text now st) as Hb.
  destruct o; cbn [run_save] in E;
    unfold save_with_invocation, save_with_event, save_with_trace_event, restoring in E;
    (destruct (dump _) as [text|]; [|by injection E as <- <- <-]); specialize (Hb text);
    (destruct io; [|by injection E as <- <- <-]);
    match type of E with context [match ?x with Ok _ => _ | Err _ => _ end] => destruct x end;
    try discriminate; injection E as <- <- <-; (split; [done|]);
    match goal with |- _ = match ?x with _ => _ end => by destruct x end.
Qed.

(** C28: The three transactional saves are all or nothing.  On success the run's
    stored state is the caller's object at the next revision, no other run is
    touched, the journal gained exactly the one row of the save, at that very
    revision and with its type, node, step and payload (none when an
    invocation names no event type), and an invocation has its ledger row,
    the new one or the identical one it already had.  On any failure of the
    transaction - database error, invocation conflict, duplicate trace event -
    neither the tables nor the caller's object changed.  Only the
    serialisation of the state, which runs before the transaction, can raise
    and leave something behind: the caller's revision stays advanced. *)
Theorem saves_atomic o s now io st :
  (forall x text, dump x = Some text -> parse text = Some x) -> well_formed st ->
  let '(s', st', r) := run_save o s now io st in
  match r with
  | Ok _ => committed o now s s' st st'
  | Err e => save_undone e s s' st st' /\ (e = SerializationError -> dump (with_revision (revision s + 1) s) = None)
  end.
Proof.
  intros Hp Hw. destruct (run_save o s now io st) as [[s' st'] [u|e]] eqn:E.
  - by eapply save_body_committed.
  - split; [by eapply save_failed|]. intros ->. destruct (dump _) as [text|] eqn:Ed; [exfalso|done].
    pose proof (body_never_serializes o (with_revision (revision s + 1) s) text now st) as Hb.
    destruct o; cbn [run_save] in E;
      unfold save_with_invocation, save_with_event, save_with_trace_event, restoring in E; rewrite Ed in E;
      (destruct io; [|discriminate]);
      match type of E with context [match ?x with Ok _ => _ | Err _ => _ end] => destruct x end; congruence.
Qed.

(** ** Replay *)

Lemma sorted_strict {A} (f : A -> Z) l :
  StronglySorted (fun a b => (f a <=? f b) = true) l -> NoDup (map f l) ->
  StronglySorted (fun a b => f a < f b) l.
Proof.
  induction 1 as [|x l Hs IH Hf]; [constructor|]. simpl. intros [Hx Hn]%NoDup_cons.
  constructor; [auto|]. rewrite List.Forall_forall in *. intros y Hy. specialize (Hf y Hy).
  apply Z.leb_le in Hf. assert (f x <> f y); [|lia]. intros E. apply Hx, list_elem_of_fmap.
  exists y. split; [done | by apply list_elem_of_In].
Qed.

Lemma StronglySorted_map {A B} (R : B -> B -> Prop) (f : A -> B) l :
  StronglySorted (fun a b => R (f a) (f b)) l -> StronglySorted R (map f l).
Proof.
  induction 1 as [|x l Hs IH Hf]; simpl; constructor; [done|].
  rewrite List.Forall_map. exact Hf.
Qed.

Lemma completed_steps_sorted run st :
  well_formed st -> StronglySorted (fun a b : Z * string => fst a < fst b) (get_completed_steps run st).
Proof.
  intros (_ & _ & Hn & _). unfold get_completed_steps. apply StronglySorted_map. cbn [fst].
  apply sorted_strict.
  - apply py_sorted_sorted; intros; rewrite !Z.leb_le in *; lia.
  - rewrite py_sorted_perm. unfold select.
    assert (Hs : NoDup (map step_key (List.filter (fun r => (ir_run_id r =? run)%string
              && (ir_status r =? "completed")%string) (invocation_ledger st))))
      by by apply NoDup_filter_keys.
    assert (Hall : forall r, r ∈ List.filter (fun r => (ir_run_id r =? run)%string
              && (ir_status r =? "completed")%string) (invocation_ledger st) -> ir_run_id r = run)
      by (intros r [Hr _]%elem_of_lfilter; by bool_prop).
    revert Hs Hall. generalize (List.filter (fun r => (ir_run_id r =? run)%string
              && (ir_status r =? "completed")%string) (invocation_ledger st)).
    intros l. induction l as [|r l IH]; simpl; [constructor|].
    intros [Hx Hl]%NoDup_cons Hall. apply NoDup_cons. split.
    + intros (y & He & Hy)%list_elem_of_fmap. apply Hx, list_elem_of_fmap. exists y.
      split; [|done]. unfold step_key. rewrite He, (Hall r) by left.
      by rewrite (Hall y) by by right.
    + apply IH; [done|]. intros y Hy. apply Hall. by right.
Qed.

Lemma sorted_last {A} (f : A -> Z) l x :
  StronglySorted (fun a b => f a < f b) l -> last l = Some x -> forall y, y ∈ l -> f y <= f x.
Proof.
  induction 1 as [|a l Hs IH Hf]; [discriminate|]. intros Hl y Hy.
  destruct l as [|b l]; [injection Hl as ->; by apply list_elem_of_singleton in Hy as ->|].
  simpl in Hl. apply elem_of_cons in Hy as [->|Hy]; [|by apply IH].
  assert (x ∈ b :: l) as Hx by by apply last_Some_elem_of.
  rewrite List.Forall_forall in Hf. apply list_elem_of_In, Hf in Hx. lia.
Qed.

(** Replaying the journal recovers exactly the completed work: the steps of
    the replayed state are the completed rows of the invocation ledger, in
    strictly increasing order, the idempotency check agrees with them, and
    the cursor is the last of them - so a resumed run repeats no step. *)
Theorem replay_completed_work run now st s :
  well_formed st -> replay_state run now st = Some s ->
  (forall k n, (k, n) ∈ completed_steps s <->
     exists r, r ∈ invocation_ledger st /\ step_key r = (run, k) /\ ir_node_id r = n /\
       ir_status r = "completed") /\
  StronglySorted (fun a b : Z * string => fst a < fst b) (completed_steps s) /\
  (forall k, is_step_completed run k st = true <-> exists n, (k, n) ∈ completed_steps s) /\
  (forall k n, (k, n) ∈ completed_steps s -> k <= step s) /\
  (completed_steps s <> [] -> (step s, current_node s) ∈ completed_steps s).
Proof.
  intros Hw. unfold replay_state. destruct (last (get_events run st)) as [e|]; [|discriminate].
  destruct (fold_left _ _ _) as [routing skipped]. intros [= <-]. cbn [completed_steps step current_node].
  pose proof (completed_steps_sorted run st Hw) as Hs. split_and!.
  - intros k n. apply elem_of_completed.
  - exact Hs.
  - intros k. apply step_completed_true.
  - intros k n Hk. destruct (last (get_completed_steps run st)) as [[m x]|] eqn:El.
    + by apply (sorted_last fst _ (m, x) Hs El (k, n)).
    + apply last_None in El. rewrite El in Hk. inversion Hk.
  - intros Hne. destruct (last (get_completed_steps run st)) as [[m x]|] eqn:El.
    + by apply last_Some_elem_of.
    + by apply last_None in El.
Qed.
End Properties.

(** ** Witnesses: two steps of a run, kept as objects *)

Definition demo_args (k : Z) (n : string) : InvocationArgs :=
  mkInvArgs k n None "completed" (Some "node_completed") None fzero.

Definition empty_store : Store ChainState := mkStore [] [] [].
Definition as_object (s : ChainState) : ChainState := s.

Lemma total_parse {Json} (dump : ChainState -> Json) (parse : Json -> option ChainState) :
  (forall x, parse (dump x) = Some x) -> forall x text, total dump x = Some text -> parse text = Some x.
Proof. by intros Hp x text [= <-]. Qed.

Definition demo_ops : list store_op :=
  [ OpInvocation (initial_state "r" "t0") (demo_args 1 "a") "t1" true;
    OpInvocation (with_revision 1 (initial_state "r" "t0")) (demo_args 2 "b") "t2" true;
    OpInvocation (with_revision 2 (initial_state "r" "t0")) (demo_args 2 "c") "t3" true ].

Definition demo_store : Store ChainState := run_ops (total as_object) demo_ops empty_store.

Lemma empty_store_good : well_formed empty_store.
Proof. split_and!; constructor. Qed.

Lemma journal_append_only_witness :
  well_formed demo_store /\ length (state_events demo_store) = 2%nat /\
  get_completed_steps "r" demo_store = [(1, "a"); (2, "b")].
Proof.
  split; [|by vm_compute].
  exact (proj1 (journal_append_only (total as_object) demo_ops empty_store empty_store_good)).
Defined.

Lemma saves_atomic_witness :
  let r := run_save (total as_object) (SaveInvocation (demo_args 2 "c")) (with_revision 2 (initial_state "r" "t0"))
             "t3" true demo_store in
  snd r = Err InvocationConflict /\ fst (fst r) = with_revision 2 (initial_state "r" "t0").
Proof.
  pose proof (saves_atomic (total as_object) Some (SaveInvocation (demo_args 2 "c"))
    (with_revision 2 (initial_state "r" "t0")) "t3" true demo_store (total_parse as_object Some (fun x => eq_refl))
    (proj1 journal_append_only_witness)) as H.
  split; [by vm_compute|]. exact (proj2 (proj1 H)).
Defined.

(** A state that cannot be written: the tables are as before, but the object
    has moved on. *)
Example unserializable_state :
  let r := save_with_event (Json := ChainState) (fun _ => None) (initial_state "r" "t0") "run_failed" None None "t3" true demo_store in
  r = (with_revision 1 (initial_state "r" "t0"), demo_store, Err SerializationError).
Proof. reflexivity. Qed.

Lemma replay_completed_work_witness :
  exists s, replay_state "r" "t9" demo_store = Some s /\ step s = 2 /\
    (step s, current_node s) ∈ completed_steps s.
Proof.
  destruct (replay_state "r" "t9" demo_store) as [s|] eqn:E; [|by vm_compute in E].
  destruct (replay_completed_work "r" "t9" demo_store s (proj1 journal_append_only_witness) E)
    as (_ & _ & _ & _ & H).
  exists s. assert (completed_steps s = [(1, "a"); (2, "b")] /\ step s = 2) as [Hs Hk]
    by (vm_compute in E; by injection E as <-).
  split; [done|]. split; [done|]. apply H. by rewrite Hs.
Defined.
