(* ===== verification/Persistence.v ===== *)
(** * Persistence coordinator

    [runtime/persistence.py]: every transition of a run is built on a
    candidate copy of the accepted state, committed in one transaction, and
    only then adopted into the live object.  A commit returns the live object,
    the tables and the outcome.  [dump], [parse] and [io] are those of the
    state store, for states that hold JSON values only, which are always
    serialised; [apply] of a checkpoint is the caller's function, called once
    on the candidate and once on the live object. *)
From S2P Require Import Prelude PyFloat PyValue Sql SideEffectLedger ChainState StateStore.

(** [d.update(e)] *)
Definition dupdate {V} (d e : dict V) : dict V := fold_left (fun acc kv => dset (fst kv) (snd kv) acc) e d.

(** Assignment in a dict keyed by integers. *)
Fixpoint zset (k : Z) (v : string) (d : list (Z * string)) : list (Z * string) :=
  match d with
  | [] => [(k, v)]
  | (k', v') :: d' => if k =? k' then (k, v) :: d' else (k', v') :: zset k v d'
  end.

(** ** The proposals *)

Record InvocationProposal := mkProposal {
  ip_step_id : Z;
  ip_node_id : string;
  ip_branch_name : option string;
  (** [None] is the unset sentinel *)
  ip_output : option pyval;
  ip_cursor : option (Z * string);
  ip_branch_states : dict string;
  ip_event_type : string;
  ip_event_payload : option pyctx;
  ip_cost : pyfloat;
}.

(** The assignments, made on the candidate and again on the live state. *)
Definition apply_invocation (p : InvocationProposal) (s : ChainState) : ChainState :=
  let outs := match ip_output p with Some v => dset (ip_node_id p) v (outputs s) | None => outputs s end in
  let '(stp, cur) := match ip_cursor p with Some c => c | None => (step s, current_node s) end in
  mkState (run_id s) (chain_id s) (ChainState.status s) cur stp (started_at s)
    (paused_at s) (completed_at s) outs (loop_state s) (cost_accumulated_usd s) (human_review s)
    (metadata s) (branch_outputs s) (join_inputs s) (skipped_nodes s) (routing_decisions s)
    (dupdate (branch_states s) (ip_branch_states p)) (revision s)
    (zset (ip_step_id p) (ip_node_id p) (completed_steps s)) (side_effects s) (is_resumed s)
    (blueprint_version s) (execution_order_hash s).

Record LifecycleProposal := mkLifecycle {
  lp_status : option string;
  lp_completed_at : option string;
  (** the inner [None] clears the field *)
  lp_paused_at : option (option string);
  lp_is_resumed : option bool;
  lp_metadata : pyctx;
}.

Definition apply_lifecycle (p : LifecycleProposal) (s : ChainState) : ChainState :=
  mkState (run_id s) (chain_id s) (default (ChainState.status s) (lp_status p)) (current_node s) (step s)
    (started_at s) (default (paused_at s) (lp_paused_at p))
    (match lp_completed_at p with Some c => Some c | None => completed_at s end) (outputs s)
    (loop_state s) (cost_accumulated_usd s) (human_review s) (dupdate (metadata s) (lp_metadata p))
    (branch_outputs s) (join_inputs s) (skipped_nodes s) (routing_decisions s) (branch_states s)
    (revision s) (completed_steps s) (side_effects s) (default (is_resumed s) (lp_is_resumed p))
    (blueprint_version s) (execution_order_hash s).

Section Coordinator.
Context {Json : Type} (dump : ChainState -> Json) (parse : Json -> option ChainState).
Implicit Types (st : Store Json) (s : ChainState).

(** States that are always serialised never fail for it. *)
Lemma save_serialized o s now io st s' st' e : run_save (total dump) o s now io st = (s', st', Err e) -> e <> SerializationError.
Proof.
  intros E ->. pose proof (fun text => body_never_serializes o (with_revision (revision s + 1) s) text now st) as Hb.
  specialize (Hb (dump (with_revision (revision s + 1) s))).
  destruct o; cbn [run_save] in E;
    unfold save_with_invocation, save_with_event, save_with_trace_event, restoring, total in E;
    (destruct io; [|discriminate]);
    match type of E with context [match ?x with Ok _ => _ | Err _ => _ end] => destruct x end; congruence.
Qed.

(** ** Commits *)

(** [payload or {...}] *)
Definition event_payload (p : InvocationProposal) : pyctx :=
  match ip_event_payload p with
  | Some ((_ :: _) as d) => d
  | _ => [("node_id", VStr (ip_node_id p)); ("step_id", VInt (ip_step_id p))]
  end.

Definition invocation_args (p : InvocationProposal) : InvocationArgs :=
  mkInvArgs (ip_step_id p) (ip_node_id p) (ip_branch_name p) "completed" (Some (ip_event_type p))
    (Some (event_payload p)) (ip_cost p).

(** The candidate is written; the live state adopts the proposals and the
    candidate's revision, or stays as it is. *)
Definition adopt (apply : ChainState -> ChainState) s (w : @written Json) : @written Json :=
  match w with
  | (cand, st', Ok u) => (with_revision (revision cand) (apply s), st', Ok u)
  | (_, st', Err e) => (s, st', Err e)
  end.

Definition commit_invocation_success (p : InvocationProposal) s (now : string) (io : bool) st : @written Json :=
  adopt (apply_invocation p) s
    (save_with_invocation (total dump) (apply_invocation p s) (invocation_args p) now io st).

Definition commit_lifecycle (p : LifecycleProposal) (e : TraceEvent) s (now : string) (io : bool) st
  : @written Json :=
  adopt (apply_lifecycle p) s (save_with_trace_event (total dump) (apply_lifecycle p s) e now io st).

Definition commit_checkpoint (apply : ChainState -> ChainState) s (now : string) (io : bool) st : @written Json :=
  adopt apply s (save (total dump) (apply s) now io st).

(** [save_snapshot] and [save_final] *)
Definition save_snapshot s (now : string) (io : bool) st : @written Json :=
  adopt (fun s => s) s (save (total dump) s now io st).

(** [commit_invocation_failure]: no candidate, and the default status of
    [save_with_invocation]. *)
Definition commit_invocation_failure (stp : Z) (node error : string) (branch : option string) s
  (now : string) (io : bool) st : @written Json :=
  save_with_invocation (total dump) s
    (mkInvArgs stp node branch "completed" (Some "node_failed")
       (Some [("node_id", VStr node); ("step_id", VInt stp); ("error", VStr error)]) fzero) now io st.

(** ** Recovery loads *)

Record RecoveryContext := mkRecovery {
  rc_state : ChainState;
  rc_completed_steps : list (Z * string);
  rc_side_effects : list Row;
  rc_completed_keys : list string;
}.

Definition completed_node_ids (c : RecoveryContext) : list string :=
  py_set (map snd (rc_completed_steps c)).
Definition last_completed_step (c : RecoveryContext) : Z :=
  match rc_completed_steps c with
  | [] => 0
  | x :: l => foldr (fun y m => Z.max (fst y) m) (fst x) l
  end.

Definition completed_keys (effects : list Row) : list string :=
  map idempotency_key (List.filter (fun r => (SideEffectLedger.status r =? "completed")%string) effects).

Definition load_for_recovery (run : string) st (effects : list Row) : option RecoveryContext :=
  match load parse run st with
  | None => None
  | Some s => Some (mkRecovery s (get_completed_steps run st) effects (completed_keys effects))
  end.

Definition get_completed_side_effect_keys (effects : list Row) : list string := completed_keys effects.

(** [str(bool(...))] *)
Definition bool_text (b : bool) : string := if b then "True" else "False".

Definition get_side_effect_status_map (effects : list Row) : dict string :=
  fold_left (fun m r =>
      let m := dset (idempotency_key r) (SideEffectLedger.status r) m in
      if (SideEffectLedger.status r =? "failed")%string
      then dset (idempotency_key r +:+ "__retryable") (bool_text (retryable r)) m else m)
    effects [].
End Coordinator.

(** ** The accepted state and the durable state *)

Section Refinement.
Context {Json : Type} (dump : ChainState -> Json) (parse : Json -> option ChainState).
Context (Hparse : forall x, parse (dump x) = Some x).
Implicit Types (st : Store Json) (s : ChainState).

Inductive commit :=
| CInvocation (p : InvocationProposal)
| CLifecycle (p : LifecycleProposal) (e : TraceEvent)
| CCheckpoint (apply : ChainState -> ChainState)
| CSnapshot
| CFailure (stp : Z) (node error : string) (branch : option string).

Definition run_commit (c : commit) s (now : string) (io : bool) st : @written Json :=
  match c with
  | CInvocation p => commit_invocation_success dump p s now io st
  | CLifecycle p e => commit_lifecycle dump p e s now io st
  | CCheckpoint apply => commit_checkpoint dump apply s now io st
  | CSnapshot => save_snapshot dump s now io st
  | CFailure stp node error branch => commit_invocation_failure dump stp node error branch s now io st
  end.

(** What a commit proposes. *)
Definition proposal (c : commit) : ChainState -> ChainState :=
  match c with
  | CInvocation p => apply_invocation p
  | CLifecycle p _ => apply_lifecycle p
  | CCheckpoint apply => apply
  | CSnapshot | CFailure _ _ _ _ => fun s => s
  end.

(** The abstract machine: a state that a commit replaces or leaves alone. *)
Definition accept (c : commit) (success : bool) s : ChainState :=
  if success then with_revision (revision (proposal c s) + 1) (proposal c s) else s.

(** The live object of a run is what a recovery would load. *)
Definition durable s st : Prop := load parse (run_id s) st = Some s /\ well_formed st.

(** A proposal stays within its run. *)
Definition same_run (c : commit) : Prop := forall s, run_id (proposal c s) = run_id s.

Lemma proposal_run c s :
  (forall apply, c = CCheckpoint apply -> forall s, run_id (apply s) = run_id s) ->
  run_id (proposal c s) = run_id s.
Proof.
  destruct c as [p|p e|apply| |]; cbn; intros H; [|done|by apply H|done|done].
  unfold apply_invocation. by destruct (ip_cursor p) as [[]|].
Qed.

Lemma save_well_formed o s now io st :
  well_formed st -> well_formed (snd (fst (run_save (total dump) o s now io st))).
Proof.
  intros Hw. destruct o as [a|ty pl tid|e].
  - apply (exec_good (total dump) (OpInvocation s a now io) st Hw).
  - apply (exec_good (total dump) (OpEvent s ty pl tid now io) st Hw).
  - apply (exec_good (total dump) (OpTrace s e now io) st Hw).
Qed.

Lemma with_revision_twice r r' s : with_revision r (with_revision r' s) = with_revision r s.
Proof. done. Qed.

(** A transactional save of the proposal, adopted. *)
Lemma adopt_save apply o s now io st s' st' r :
  well_formed st -> adopt apply s (run_save (total dump) o (apply s) now io st) = (s', st', r) ->
  match r with
  | Ok _ => s' = with_revision (revision (apply s) + 1) (apply s) /\ durable s' st'
  | Err _ => s' = s /\ st' = st
  end.
Proof.
  intros Hw H. pose proof (save_well_formed o (apply s) now io st Hw) as Hw'.
  destruct (run_save (total dump) o (apply s) now io st) as [[cand st1] [u|e]] eqn:E.
  - destruct (save_body_committed (total dump) parse o (apply s) now io st cand st1 u (total_parse dump parse Hparse) Hw E)
      as [-> Hl _ _ _ _]. injection H as <- <- <-. split; [done|]. split; [|done]. exact Hl.
  - destruct (save_failed (total dump) o (apply s) now io st cand st1 e E) as [-> _].
    by injection H as <- <- <-.
Qed.

Lemma adopt_snapshot apply s now io st s' st' r :
  well_formed st -> adopt apply s (save (total dump) (apply s) now io st) = (s', st', r) ->
  match r with
  | Ok _ => s' = with_revision (revision (apply s) + 1) (apply s) /\ durable s' st'
  | Err _ => s' = s /\ st' = st
  end.
Proof.
  intros Hw. unfold save. destruct io; cbn; intros [= <- <- <-]; [|done].
  split; [done|]. split.
  - pose proof (load_replaced parse (with_revision (revision (apply s) + 1) (apply s)) _ now st (Hparse _) Hw)
      as [Hl _]. exact Hl.
  - by apply replace_state_good.
Qed.

Lemma run_commit_spec c s now io st s' st' r :
  well_formed st -> run_commit c s now io st = (s', st', r) ->
  s' = accept c (is_ok r) s /\
  match r with Ok _ => durable s' st' | Err _ => st' = st end.
Proof.
  intros Hw. destruct c as [p|p e|apply| |stp node error branch]; cbn [run_commit proposal accept]; intros H.
  - pose proof (adopt_save (apply_invocation p) (SaveInvocation (invocation_args p)) s now io st s' st' r Hw H).
    by destruct r.
  - pose proof (adopt_save (apply_lifecycle p) (SaveTrace e) s now io st s' st' r Hw H). by destruct r.
  - pose proof (adopt_snapshot apply s now io st s' st' r Hw H). by destruct r.
  - pose proof (adopt_snapshot (fun s => s) s now io st s' st' r Hw H). by destruct r.
  - unfold commit_invocation_failure in H.
    set (a := mkInvArgs stp node branch "completed" _ _ _) in H.
    pose proof (save_well_formed (SaveInvocation a) s now io st Hw) as Hw'.
    change (save_with_invocation (total dump) s a now io st) with (run_save (total dump) (SaveInvocation a) s now io st) in H.
    rewrite H in Hw'. destruct r as [u|e].
    + destruct (save_body_committed (total dump) parse _ _ _ _ _ _ _ _ (total_parse dump parse Hparse) Hw H) as [-> Hl _ _ _ _]. by split.
    + pose proof (save_serialized dump _ _ _ _ _ _ _ _ H) as Hne.
      destruct (save_failed (total dump) _ _ _ _ _ _ _ _ H) as [-> ->]. by destruct e.
Qed.

(** A commit only adds to the journal and the invocation ledger. *)
Lemma run_commit_good c s now io st s' st' r :
  well_formed st -> run_commit c s now io st = (s', st', r) -> good_step st st'.
Proof.
  intros Hw. assert (Hsave : forall o s, good_step st (snd (fst (run_save (total dump) o s now io st)))).
  { intros [a|ty pl tid|e] s0; [apply (exec_good (total dump) (OpInvocation s0 a now io) st Hw)
      | apply (exec_good (total dump) (OpEvent s0 ty pl tid now io) st Hw)
      | apply (exec_good (total dump) (OpTrace s0 e now io) st Hw)]. }
  assert (Hadopt : forall apply s0 w, good_step st (snd (fst w)) ->
            good_step st (snd (fst (adopt (Json := Json) apply s0 w)))).
  { by intros ? ? [[] []]. }
  assert (Hsnap : forall s0, good_step st (snd (fst (save (total dump) s0 now io st)))).
  { intros s0. unfold save. destruct io; cbn; [by apply replace_state_good|].
    split; [done | apply extends_refl]. }
  intros H. replace st' with (snd (fst (run_commit c s now io st))) by by rewrite H.
  destruct c as [p|p e|apply| |stp node error branch]; cbn [run_commit].
  - apply Hadopt, (Hsave (SaveInvocation (invocation_args p))).
  - apply Hadopt, (Hsave (SaveTrace e)).
  - apply Hadopt, Hsnap.
  - apply Hadopt, Hsnap.
  - apply (Hsave (SaveInvocation (mkInvArgs stp node branch "completed" (Some "node_failed")
       (Some [("node_id", VStr node); ("step_id", VInt stp); ("error", VStr error)]) fzero))).
Qed.

(** Well-formed tables or not, the live object takes the proposal exactly when
    the commit succeeds. *)
Lemma run_commit_state c s now io st s' st' r :
  run_commit c s now io st = (s', st', r) -> s' = accept c (is_ok r) s.
Proof.
  assert (Hr : forall s0 body, match restoring (total dump) s0 st io body with
            | (c0, _, Ok _) => revision c0 = revision s0 + 1 | (c0, _, Err _) => c0 = s0 end).
  { intros s0 body. unfold restoring, total. by destruct (if io then _ else _). }
  destruct c as [p|p e|apply| |stp node error branch]; cbn [run_commit].
  - unfold commit_invocation_success, adopt. pose proof (Hr (apply_invocation p s)) as H.
    specialize (H (fun s' text => st1 ← insert_invocation_checked (run_id s') (ia_step_id (invocation_args p))
        (ia_node_id (invocation_args p)) (ia_branch_name (invocation_args p))
        (ia_status (invocation_args p)) None (ia_cost (invocation_args p)) now (replace_state s' text now st);
      if ostr_truthy (ia_event_type (invocation_args p)) then
        insert_event (run_id s') (revision s') (default "" (ia_event_type (invocation_args p)))
          (Some (ia_node_id (invocation_args p))) (Some (ia_step_id (invocation_args p)))
          (payload_of (ia_payload (invocation_args p))) now None st1 else Ok st1)).
    unfold save_with_invocation. destruct (restoring _ _ _ _) as [[c0 st0] [u|e]].
    + intros [= <- <- <-]. cbn. by rewrite H.
    + by intros [= <- <- <-].
  - unfold commit_lifecycle, adopt, save_with_trace_event.
    pose proof (Hr (apply_lifecycle p s) (fun s' text =>
      insert_event (run_id s') (revision s') (te_event_type e) (te_node_id e) (te_step_id e)
        (Some (te_durable_payload e)) (te_timestamp e) (Some (te_event_id e)) (replace_state s' text now st))) as H.
    destruct (restoring _ _ _ _) as [[c0 st0] [u|e']].
    + intros [= <- <- <-]. cbn. by rewrite H.
    + by intros [= <- <- <-].
  - unfold commit_checkpoint, adopt, save. destruct io; by intros [= <- <- <-].
  - unfold save_snapshot, adopt, save. destruct io; by intros [= <- <- <-].
  - unfold commit_invocation_failure, save_with_invocation, restoring, total.
    destruct (if io then _ else _); by intros [= <- <- <-].
Qed.

(** A lifecycle commit has its event in the journal. *)
Lemma lifecycle_journaled p e s now io st s' st' u :
  well_formed st -> commit_lifecycle dump p e s now io st = (s', st', Ok u) ->
  exists row, row ∈ state_events st' /\ trace_event_id row = Some (te_event_id e) /\
    event_type row = te_event_type e.
Proof.
  intros Hw. unfold commit_lifecycle, adopt.
  destruct (save_with_trace_event _ _ _ _ _ _) as [[c1 st1] [u1|x1]] eqn:Es; [|discriminate].
  destruct (save_body_committed (total dump) parse (SaveTrace e) _ _ _ _ _ _ _ (total_parse dump parse Hparse) Hw Es)
    as [_ _ _ Hes _ _].
  intros [= _ <-]. eexists. rewrite Hes. split; [apply elem_of_app; right; left | done].
Qed.

(** Commits one after the other, each with its clock and its database. *)
Fixpoint run_commits (cs : list (commit * string * bool)) s st : ChainState * Store Json * list bool :=
  match cs with
  | [] => (s, st, [])
  | (c, now, io) :: cs =>
      let '(s1, st1, r) := run_commit c s now io st in
      let '(s2, st2, oks) := run_commits cs s1 st1 in (s2, st2, is_ok r :: oks)
  end.

Fixpoint accept_all (cs : list commit) (oks : list bool) s : ChainState :=
  match cs, oks with
  | c :: cs, ok :: oks => accept_all cs oks (accept c ok s)
  | _, _ => s
  end.

(** C33: the coordinator refines the abstract machine of accepted states: after
    any sequence of commits, some of which fail, the live object is what the
    successful commits make of it, and a process that crashes at that point
    loads exactly this state; a failed commit leaves no trace in either. *)
Theorem persistence_refines cs s st s' st' oks :
  durable s st -> Forall (fun c => same_run (fst (fst c))) cs ->
  run_commits cs s st = (s', st', oks) ->
  s' = accept_all (map (fun c => fst (fst c)) cs) oks s /\ run_id s' = run_id s /\
  load parse (run_id s) st' = Some s'.
Proof.
  intros Hd Hc. revert s st s' st' oks Hd.
  induction Hc as [|[[c now] io] cs Hrun _ IH]; intros s st s' st' oks [Hl Hw] H; cbn in H.
  - by injection H as <- <- <-.
  - destruct (run_commit c s now io st) as [[s1 st1] r] eqn:E.
    destruct (run_commits cs s1 st1) as [[s2 st2] oks2] eqn:E2. injection H as <- <- <-.
    destruct (run_commit_spec c s now io st s1 st1 r Hw E) as [-> Hr]. cbn in Hrun.
    assert (Hid : run_id (accept c (is_ok r) s) = run_id s).
    { destruct r; [apply Hrun | done]. }
    destruct (IH (accept c (is_ok r) s) st1 s2 st2 oks2) as (-> & Hid2 & Hload); [|done|].
    { destruct r; [done|]. by subst st1. }
    rewrite Hid in Hid2, Hload. done.
Qed.

(** A step recorded as failed is from then on a completed step: the recovery
    load lists it. *)
Theorem failed_step_completed stp node error branch s now io st s' st' :
  commit_invocation_failure dump stp node error branch s now io st = (s', st', Ok tt) ->
  is_step_completed (run_id s) stp st' = true.
Proof.
  unfold commit_invocation_failure, save_with_invocation, restoring, total. destruct io; [|discriminate].
  destruct (mbind _ _) as [st2|] eqn:Hb; [|discriminate]. intros [= <- <-].
  apply bind_ok in Hb as (st1 & H1 & Hb).
  destruct (insert_invocation_adds (mkInvArgs stp node branch "completed" None None fzero) _ _ _ _ H1) as (_ & _ & Hs).
  apply saved_row in Hs as (r & Hr & Hk & Hi); [|done].
  cbn [ia_event_type] in Hb. cbn in Hb.
  destruct (insert_event_adds _ _ _ _ _ _ _ _ _ _ Hb) as (_ & Hinv & _).
  unfold identity_match in Hi. bool_prop. injection Hk as Hk1 Hk2.
  apply step_completed_true. exists (ir_node_id r). apply elem_of_completed. exists r.
  rewrite Hinv. unfold step_key. by rewrite Hk1, Hk2.
Qed.
End Refinement.

(** ** Statuses for the capabilities *)

Definition flag_key (k : string) : string := k +:+ "__retryable".

(** Each effect's status is found under its key, and the flag of a failed
    effect under its flag key, when no effect is named like a flag. *)
Lemma status_map_correct effects r :
  NoDup (map idempotency_key effects) ->
  (forall a b, a ∈ effects -> b ∈ effects -> idempotency_key a <> flag_key (idempotency_key b)) ->
  r ∈ effects ->
  dget (idempotency_key r) (get_side_effect_status_map effects) = Some (SideEffectLedger.status r) /\
  (SideEffectLedger.status r = "failed" ->
   dget (flag_key (idempotency_key r)) (get_side_effect_status_map effects) =
   Some (bool_text (retryable r))).
Proof.
  unfold get_side_effect_status_map. intros Hnd Hsep Hr.
  assert (Hflag : forall a b, flag_key a = flag_key b -> a = b).
  { intros a b. unfold flag_key. apply append_inj_tail. }
  induction effects as [|x l IH] using rev_ind; [by apply elem_of_nil in Hr|].
  rewrite map_app in Hnd. apply NoDup_app in Hnd as (Hnd & Hx & _).
  rewrite fold_left_app. cbn [fold_left]. set (m := fold_left _ l _) in *.
  assert (Hin : r ∈ l -> idempotency_key r <> idempotency_key x).
  { intros Hrl E. apply (Hx (idempotency_key r)).
    - apply list_elem_of_In, in_map_iff. exists r. split; [done|]. by apply list_elem_of_In.
    - cbn. rewrite E. by apply list_elem_of_singleton. }
  apply elem_of_app in Hr as [Hr|Hr%list_elem_of_singleton].
  - destruct (IH Hnd) as [I1 I2]; [|done|].
    { intros a b Ha Hb. apply Hsep; apply elem_of_app; by left. }
    assert (S1 := Hsep r x ltac:(apply elem_of_app; by left) ltac:(apply elem_of_app; right; left)).
    assert (S2 := Hsep x r ltac:(apply elem_of_app; right; left) ltac:(apply elem_of_app; by left)).
    specialize (Hin Hr).
    assert (Hf : flag_key (idempotency_key r) <> flag_key (idempotency_key x)) by (intros E%Hflag; done).
    fold (flag_key (idempotency_key x)).
    destruct (_ =? "failed")%string; rewrite !dget_dset_other by congruence; done.
  - subst r. fold (flag_key (idempotency_key x)).
    assert (S := Hsep x x ltac:(apply elem_of_app; right; left) ltac:(apply elem_of_app; right; left)).
    destruct (String.eqb_spec (SideEffectLedger.status x) "failed") as [E|E].
    + rewrite dget_dset_same, dget_dset_other, dget_dset_same by done. done.
    + by rewrite dget_dset_same.
Qed.

(** ** A short run *)

Definition demo_proposal (k : Z) (n : string) : InvocationProposal :=
  mkProposal k n None (Some (VStr n)) (Some (k, n)) [] "node_completed" None fzero.

Definition demo_start : ChainState := with_revision 1 (initial_state "r" "t0").
Definition demo_tables : Store ChainState :=
  snd (fst (save (total as_object) (initial_state "r" "t0") "t0" true empty_store)).

(** The second commit meets a locked database, the fourth repeats a step
    with another node. *)
Definition demo_commits : list (commit * string * bool) :=
  [ (CInvocation (demo_proposal 1 "a"), "t1", true);
    (CInvocation (demo_proposal 2 "b"), "t2", false);
    (CLifecycle (mkLifecycle (Some "paused") None (Some (Some "t3")) None [])
       (mkTraceEvent "e1" "chain_paused" None None [] "t3"), "t3", true);
    (CInvocation (demo_proposal 1 "b"), "t4", true); (CSnapshot, "t5", true) ].

Definition demo_end : ChainState * Store ChainState * list bool :=
  run_commits as_object demo_commits demo_start demo_tables.

Lemma persistence_refines_witness :
  snd demo_end = [true; false; true; false; true] /\
  load (@Some ChainState) "r" (snd (fst demo_end)) = Some (fst (fst demo_end)).
Proof.
  split; [vm_compute; reflexivity|].
  apply (persistence_refines as_object (@Some ChainState) (fun x => eq_refl) demo_commits demo_start
    demo_tables (fst (fst demo_end)) (snd (fst demo_end)) (snd demo_end)).
  - split; [vm_compute; reflexivity|]. split_and!; cbn; repeat constructor; set_solver.
  - repeat constructor; intros s; reflexivity.
  - vm_compute. reflexivity.
Defined.

(** An effect named like the flag of a failed one hides its status. *)
Definition demo_effect (k st : string) : Row :=
  mkRow 1 "r" 1 "n" None "external_call" k st None None None true 0 None None 0 None None
    "available" None None None None.

Example status_map_collision :
  get_side_effect_status_map [demo_effect "a__retryable" "completed"; demo_effect "a" "failed"] =
  [("a__retryable", "True"); ("a", "failed")].
Proof. vm_compute. reflexivity. Qed.
