(* ===== verification/BranchExecutor.v ===== *)
(** * Branch executor

    [runtime/branch_executor.py]: the branches of a fan-out run concurrently,
    each as a sequence of nodes; their results are classified, the join is
    decided, and the outputs of the merge branches are combined.

    The environment answers for the node executor (one answer per call of a
    branch), for the clock, and for the scheduler: [asyncio.gather] yields one
    outcome per branch in the order of the call, [asyncio.wait] yields batches
    of finished tasks, each batch in the order in which the code iterates over
    it.  Requests to cancel a task are recorded; what a cancelled task does is
    the environment's choice. *)
From Corelib Require Import SpecFloat.
From S2P Require Import Prelude PyFloat PyValue Blueprint.

Definition CANCEL_ALLOW_ALL : string := "allow_all".
Definition CANCEL_ON_FIRST : string := "cancel_on_first".
Definition CANCEL_IGNORE_LATE : string := "ignore_late".
Definition CANCEL_FIRST_SUCCESS_ONLY : string := "first_success_only".
Definition CANCEL_QUORUM : string := "quorum".

(** ** Data *)

Record BranchNodeResult := mkNodeResult {
  nr_node_id : string;
  nr_success : bool;
  nr_output : option pyctx;
  nr_error : option string;
}.

Record BranchResult := mkBranchResult {
  br_name : string;
  br_skipped : bool;
  br_failed : bool;
  br_cancelled : bool;
  br_failure_reason : option string;
  br_failed_node : option string;
  br_cancelled_node : option string;
  br_cancel_phase : option string;
  br_outputs : dict pyctx;
  br_duration : pyfloat;
  br_start : pyfloat;
  br_end : pyfloat;
}.

Record Event := mkEvent {
  ev_type : string;
  ev_node : string;
  ev_meta : pyctx;
}.

Record BranchExecutionReport := mkReport {
  selected_branches : list string;
  completed_branches : list string;
  failed_branches : list string;
  cancelled_branches : list string;
  skipped_branches : list string;
  ignored_branches : list string;
  branch_outputs : dict pyctx;
  branch_timings : dict pyctx;
  rep_join_id : string;
  rep_wait_for : string;
  join_meta : pyctx;
  merged_output : pyctx;
  first_completed_branch : option string;
  partial : bool;
  blocked : bool;
  block_reason : option string;
  cancellation_policy : string;
  cancellation_enforced : bool;
  events : list Event;
  first_merge_branches : option (list string);
}.

Definition success (r : BranchExecutionReport) : bool := negb (blocked r).

(** What a node does when the branch calls it. *)
Inductive node_answer :=
| Answered (r : BranchNodeResult)
| NodeCancelled
| NodeRaised (msg : string).

(** How a branch's task ends. *)
Inductive task_outcome :=
| TaskCancelled
| TaskRaised (msg : string)
| TaskReturned (r : BranchResult).

Inductive exec_error := CeilError | AttributeError.

(** The values that branches give to a field. *)
Abbreviation Entries := (list (string * pyval)).

Definition strs (l : list string) : pyval := VList (map VStr l).
Definition opt_str (s : option string) : pyval :=
  match s with Some s => VStr s | None => VNone end.

(** [s or default] *)
Definition or_text (s : option string) (dflt : string) : string :=
  match s with Some s => if str_truthy s then s else dflt | None => dflt end.

(** ** Updates of the report *)

Definition add_event (t n : string) (m : pyctx) (r : BranchExecutionReport) : BranchExecutionReport :=
  mkReport (selected_branches r) (completed_branches r) (failed_branches r) (cancelled_branches r)
    (skipped_branches r) (ignored_branches r) (branch_outputs r) (branch_timings r) (rep_join_id r)
    (rep_wait_for r) (join_meta r) (merged_output r) (first_completed_branch r) (partial r) (blocked r)
    (block_reason r) (cancellation_policy r) (cancellation_enforced r) (events r ++ [mkEvent t n m])
    (first_merge_branches r).

Definition set_lists (comp fail canc skip ign : list string) (r : BranchExecutionReport)
  : BranchExecutionReport :=
  mkReport (selected_branches r) comp fail canc skip ign (branch_outputs r) (branch_timings r)
    (rep_join_id r) (rep_wait_for r) (join_meta r) (merged_output r) (first_completed_branch r)
    (partial r) (blocked r) (block_reason r) (cancellation_policy r) (cancellation_enforced r)
    (events r) (first_merge_branches r).

Definition add_completed (b : string) (r : BranchExecutionReport) : BranchExecutionReport :=
  set_lists (completed_branches r ++ [b]) (failed_branches r) (cancelled_branches r)
    (skipped_branches r) (ignored_branches r) r.
Definition add_failed (b : string) (r : BranchExecutionReport) : BranchExecutionReport :=
  set_lists (completed_branches r) (failed_branches r ++ [b]) (cancelled_branches r)
    (skipped_branches r) (ignored_branches r) r.
Definition add_cancelled (b : string) (r : BranchExecutionReport) : BranchExecutionReport :=
  set_lists (completed_branches r) (failed_branches r) (cancelled_branches r ++ [b])
    (skipped_branches r) (ignored_branches r) r.
Definition add_skipped (b : string) (r : BranchExecutionReport) : BranchExecutionReport :=
  set_lists (completed_branches r) (failed_branches r) (cancelled_branches r)
    (skipped_branches r ++ [b]) (ignored_branches r) r.
Definition add_ignored (l : list string) (r : BranchExecutionReport) : BranchExecutionReport :=
  set_lists (completed_branches r) (failed_branches r) (cancelled_branches r)
    (skipped_branches r) (ignored_branches r ++ l) r.
Definition set_completed (l : list string) (r : BranchExecutionReport) : BranchExecutionReport :=
  set_lists l (failed_branches r) (cancelled_branches r) (skipped_branches r) (ignored_branches r) r.

Definition set_output (b : string) (o : pyctx) (t : option pyctx) (r : BranchExecutionReport)
  : BranchExecutionReport :=
  mkReport (selected_branches r) (completed_branches r) (failed_branches r) (cancelled_branches r)
    (skipped_branches r) (ignored_branches r) (dset b o (branch_outputs r))
    (match t with Some t => dset b t (branch_timings r) | None => branch_timings r end) (rep_join_id r)
    (rep_wait_for r) (join_meta r) (merged_output r) (first_completed_branch r) (partial r) (blocked r)
    (block_reason r) (cancellation_policy r) (cancellation_enforced r) (events r)
    (first_merge_branches r).

Definition set_first (f : option string) (r : BranchExecutionReport) : BranchExecutionReport :=
  mkReport (selected_branches r) (completed_branches r) (failed_branches r) (cancelled_branches r)
    (skipped_branches r) (ignored_branches r) (branch_outputs r) (branch_timings r) (rep_join_id r)
    (rep_wait_for r) (join_meta r) (merged_output r) f
    (nonempty (failed_branches r) || nonempty (cancelled_branches r)) (blocked r)
    (block_reason r) (cancellation_policy r) (cancellation_enforced r) (events r)
    (first_merge_branches r).

Definition set_merge_branches (l : list string) (r : BranchExecutionReport) : BranchExecutionReport :=
  mkReport (selected_branches r) (completed_branches r) (failed_branches r) (cancelled_branches r)
    (skipped_branches r) (ignored_branches r) (branch_outputs r) (branch_timings r) (rep_join_id r)
    (rep_wait_for r) (join_meta r) (merged_output r) (first_completed_branch r) (partial r) (blocked r)
    (block_reason r) (cancellation_policy r) (cancellation_enforced r) (events r) (Some l).

Definition set_blocked (reason : string) (r : BranchExecutionReport) : BranchExecutionReport :=
  mkReport (selected_branches r) (completed_branches r) (failed_branches r) (cancelled_branches r)
    (skipped_branches r) (ignored_branches r) (branch_outputs r) (branch_timings r) (rep_join_id r)
    (rep_wait_for r) (join_meta r) (merged_output r) (first_completed_branch r) (partial r) true
    (Some reason) (cancellation_policy r) (cancellation_enforced r) (events r)
    (first_merge_branches r).

Definition set_join (meta merged : pyctx) (r : BranchExecutionReport) : BranchExecutionReport :=
  mkReport (selected_branches r) (completed_branches r) (failed_branches r) (cancelled_branches r)
    (skipped_branches r) (ignored_branches r) (branch_outputs r) (branch_timings r) (rep_join_id r)
    (rep_wait_for r) meta merged (first_completed_branch r) (partial r) (blocked r)
    (block_reason r) (cancellation_policy r) (cancellation_enforced r) (events r)
    (first_merge_branches r).

(** ** One branch *)

(** [round(x, 1)] *)
Definition round1 (x : pyfloat) : pyfloat :=
  match x with
  | S754_finite s m e => let (n, d) := frac (Zpos m) e in
                         float_of_decimal s (round_half_even (n * 10) d) (-1)
  | _ => x
  end.

Definition duration_ms (t0 t1 : pyfloat) : pyfloat := round1 (fmul (fsub t1 t0) (fround_int 1000)).

Section RunBranch.
Context (name : string) (t0 t1 : pyfloat).

Definition plain_result : BranchResult :=
  mkBranchResult name false false false None None None None [] fzero fzero fzero.

Definition timed (failed cancelled : bool) (reason failed_node cancelled_node phase : option string)
  (outs : dict pyctx) : BranchResult :=
  mkBranchResult name false failed cancelled reason failed_node cancelled_node phase outs
    (duration_ms t0 t1) t0 t1.

(** The loop over the nodes; [ask i n payload] answers the branch's [i]-th
    call. *)
Context (ask : nat -> string -> pyctx -> node_answer).

Fixpoint run_nodes (i : nat) (nodes : list string) (payload : pyctx) (outs : dict pyctx)
  : BranchResult :=
  match nodes with
  | [] => timed false false None None None None outs
  | n :: nodes' =>
      match ask i n payload with
      | NodeCancelled => timed false true None None (Some n) (Some "during_invocation") outs
      | NodeRaised e =>
          timed true false (Some ("Node '" +:+ n +:+ "' raised: " +:+ e)) (Some n) None None outs
      | Answered r =>
          if negb (nr_success r) then
            timed true false (Some (or_text (nr_error r) ("Node '" +:+ n +:+ "' failed"))) (Some n)
              None None
              (dset n [("error", VStr (or_text (nr_error r) "unknown"))] outs)
          else
            let out := default [] (nr_output r) in
            run_nodes (S i) nodes' out (dset n out outs)
      end
  end.

(** [_run_branch] *)
Definition run_branch (nodes : list string) (parent_output : pyctx) : BranchResult :=
  run_nodes 0 nodes parent_output [].
End RunBranch.

(** ** Classification of results *)

Definition outputs_dict (o : dict pyctx) : pyval := VDict (map (fun '(n, d) => (n, VDict d)) o).

Definition branch_record (br : BranchResult) : pyctx :=
  [ ("skipped", VBool (br_skipped br)); ("branch", VStr (br_name br));
    ("outputs", outputs_dict (br_outputs br)); ("failed", VBool (br_failed br));
    ("cancelled", VBool (br_cancelled br)); ("failure_reason", opt_str (br_failure_reason br)) ].

Definition timing_record (br : BranchResult) : pyctx :=
  [ ("duration_ms", VFloat (br_duration br)); ("start", VFloat (br_start br));
    ("end", VFloat (br_end br)) ].

Section Execute.
Context (branch_def : BranchDef).

Definition all_branch_names : list string := dkeys (branches branch_def).
Definition nodes_of (b : string) : list string := dget_or b [] (branches branch_def).

(** The report and the name of the first completed branch. *)
Definition Progress : Type := BranchExecutionReport * option string.

(** [_classify_branch_result] *)
Definition classify_branch_result (br : BranchResult) (p : Progress) : Progress :=
  let '(r, first) := p in
  let b := br_name br in
  let r := set_output b (branch_record br) (Some (timing_record br)) r in
  if br_cancelled br then
    (add_event "branch_cancelled" (branch_from_node branch_def)
       [ ("branch", VStr b); ("cancelled_node_id", opt_str (br_cancelled_node br));
         ("cancel_phase", opt_str (br_cancel_phase br));
         ("partial_outputs", strs (dkeys (br_outputs br))) ] (add_cancelled b r), first)
  else if br_skipped br then (add_skipped b r, first)
  else if br_failed br then
    (add_event "branch_failed" (or_text (br_failed_node br) (branch_from_node branch_def))
       [ ("branch", VStr b); ("node", opt_str (br_failed_node br));
         ("error", opt_str (br_failure_reason br));
         ("failure_reason", opt_str (br_failure_reason br)) ] (add_failed b r), first)
  else
    (add_event "branch_completed" (branch_from_node branch_def)
       [ ("branch", VStr b); ("duration_ms", VFloat (br_duration br)) ] (add_completed b r),
     match first with None => Some b | Some _ => first end).

Definition cancelled_result (b : string) : BranchResult :=
  mkBranchResult b false false true None None None (Some "during_invocation") [] fzero fzero fzero.
Definition raised_result (b msg : string) : BranchResult :=
  mkBranchResult b false true false (Some msg) None None None [] fzero fzero fzero.

(** The result that the loops over finished tasks classify. *)
Definition result_of (b : string) (o : task_outcome) : BranchResult :=
  match o with
  | TaskCancelled => cancelled_result b
  | TaskRaised e => raised_result b e
  | TaskReturned br => br
  end.

(** *** The three ways to run the tasks *)

(** [asyncio.gather(..., return_exceptions=True)]: one outcome per branch, in
    order.  A cancellation is no [Exception] and is read as a result. *)
Fixpoint gather (outcomes : list task_outcome) (p : Progress) : res exec_error Progress :=
  match outcomes with
  | [] => Ok p
  | TaskRaised e :: rest =>
      let '(r, first) := p in
      gather rest
        (add_failed "unknown"
           (set_output "unknown" [("failed", VBool true); ("failure_reason", VStr e)] None r), first)
  | TaskCancelled :: _ => Err AttributeError
  | TaskReturned br :: rest => gather rest (classify_branch_result br p)
  end.

(** One pass of [while pending]: the finished tasks of the pass. *)
Definition Batch : Type := list (string * task_outcome).

Definition still_pending (batch : Batch) (pending : list string) : list string :=
  set_diff pending (map fst batch).

(** Does the loop cancel the others after this task? *)
Definition is_success (br : BranchResult) : bool :=
  negb (br_failed br) && negb (br_cancelled br) && negb (br_skipped br).

Record Waiting := mkWaiting {
  wt_progress : Progress;
  wt_triggered : bool;
  wt_pending : list string;
  (** the tasks on which [cancel()] was called, in order *)
  wt_cancels : list string;
}.

(** [_execute_with_cancel_on_first]: one finished task. *)
Definition cancel_first_task (w : Waiting) (t : string * task_outcome) : Waiting :=
  let '(b, o) := t in
  let p := classify_branch_result (result_of b o) (wt_progress w) in
  let returned := match o with TaskReturned _ => true | _ => false end in
  if returned && negb (wt_triggered w) && is_success (result_of b o)
  then mkWaiting p true (wt_pending w) (wt_cancels w ++ wt_pending w)
  else mkWaiting p (wt_triggered w) (wt_pending w) (wt_cancels w).

Definition cancel_first_batch (w : Waiting) (batch : Batch) : Waiting :=
  let pending := still_pending batch (wt_pending w) in
  fold_left cancel_first_task batch
    (mkWaiting (wt_progress w) (wt_triggered w) pending (wt_cancels w)).

(** The loop; it stops when nothing is pending.  [None] when the scheduler's
    batches end before. *)
Fixpoint wait_loop (step : Waiting -> Batch -> Waiting) (batches : list Batch) (w : Waiting)
  : option Waiting :=
  match wt_pending w with
  | [] => Some w
  | _ => match batches with
         | [] => None
         | batch :: rest => wait_loop step rest (step w batch)
         end
  end.

Definition start_waiting (selected_to_run : list string) (p : Progress) : Waiting :=
  mkWaiting p false selected_to_run [].

Definition cancel_on_first_end (policy_name : string) (w : Waiting) : Progress :=
  let '(r, first) := wt_progress w in
  let r :=
    if wt_triggered w then
      add_event (policy_name +:+ "_enforced") (branch_from_node branch_def)
        [ ("policy", VStr policy_name); ("first_completed_branch", opt_str first);
          ("cancelled_branches", strs (cancelled_branches r));
          ("completed_before_cancel",
            strs (List.filter (fun b => negb (bool_decide (Some b = first))) (completed_branches r))) ] r
    else r in
  (match first with
   | Some f => if str_truthy f then set_merge_branches [f] r else r
   | None => r
   end, first).

(** *** Quorum *)

(** [math.ceil] *)
Definition fceil (x : pyfloat) : res exec_error Z :=
  match x with
  | S754_nan | S754_infinity _ => Err CeilError
  | S754_zero _ => Ok 0
  | S754_finite s m e =>
      let v := if s then Zneg m else Zpos m in
      Ok (if 0 <=? e then v * 2 ^ e else - ((- v) / 2 ^ (- e)))
  end.

(** [_compute_quorum_threshold] *)
Definition compute_quorum_threshold (j : JoinDef) (selected : list string) : res exec_error Z :=
  match quorum_count j with
  | Some c => Ok c
  | None =>
      match quorum_ratio j with
      | Some r => fceil (fmul (fround_int (Z.of_nat (length selected))) r)
      | None => Ok (Z.of_nat (length selected))
      end
  end.

Definition after_quorum (j : JoinDef) : string :=
  if str_truthy (cancellation_after_quorum j) then cancellation_after_quorum j else "cancel".

Definition zlen {A} (l : list A) : Z := Z.of_nat (length l).

(** The tests after each pass. *)
Definition quorum_check (j : JoinDef) (threshold : Z) (w : Waiting) : Waiting :=
  let '(r, first) := wt_progress w in
  let n := zlen (completed_branches r) in
  let possible := n + zlen (wt_pending w) in
  let now_met := (threshold <=? n) && negb (wt_triggered w) in
  let w :=
    if now_met then
      let r := add_event "quorum_reached" (branch_from_node branch_def)
        [ ("join_id", VStr (rep_join_id r)); ("quorum_required", VInt threshold);
          ("quorum_reached", VInt n); ("winning_branches", strs (completed_branches r));
          ("failed_branches", strs (failed_branches r)); ("pending_branches", strs (wt_pending w));
          ("cancellation_policy", VStr (after_quorum j)) ] r in
      mkWaiting (r, first) true (wt_pending w)
        (if (after_quorum j =? "cancel")%string then wt_cancels w ++ wt_pending w else wt_cancels w)
    else w in
  if negb (wt_triggered w) && (possible <? threshold) then
    let '(r, first) := wt_progress w in
    let r := add_event "quorum_impossible" (branch_from_node branch_def)
      [ ("join_id", VStr (rep_join_id r)); ("quorum_required", VInt threshold);
        ("successes_so_far", VInt n); ("remaining_possible", VInt possible);
        ("failed_branches", strs (failed_branches r)) ] r in
    mkWaiting (r, first) (wt_triggered w) (wt_pending w) (wt_cancels w ++ wt_pending w)
  else w.

Definition quorum_task (w : Waiting) (t : string * task_outcome) : Waiting :=
  mkWaiting (classify_branch_result (result_of (fst t) (snd t)) (wt_progress w)) (wt_triggered w)
    (wt_pending w) (wt_cancels w).

Definition quorum_batch (j : JoinDef) (threshold : Z) (w : Waiting) (batch : Batch) : Waiting :=
  let pending := still_pending batch (wt_pending w) in
  quorum_check j threshold
    (fold_left quorum_task batch
       (mkWaiting (wt_progress w) (wt_triggered w) pending (wt_cancels w))).

(** [l[:n]], a negative [n] counts from the end. *)
Definition slice_to {A} (n : Z) (l : list A) : list A :=
  take (Z.to_nat (if n <? 0 then Z.max 0 (zlen l + n) else n)) l.

(** The end of [_execute_with_quorum].  [report.first_completed_branch] is
    assigned by the caller only after this function returns. *)
Definition quorum_end (j : JoinDef) (threshold : Z) (w : Waiting) : Progress :=
  let '(r, first) := wt_progress w in
  if negb (wt_triggered w) then (r, first)
  else
    let winners := slice_to threshold (completed_branches r) in
    if (after_quorum j =? "ignore_late")%string then
      let late := List.filter
        (fun b => negb (bool_decide (first_completed_branch r = Some b))
                  && (threshold <? zlen (completed_branches r))) (completed_branches r) in
      (set_merge_branches winners (set_completed winners (add_ignored late r)), first)
    else (set_merge_branches winners r, first).

(** ** Merge strategies *)

Definition truncate (v : pyval) : pyval :=
  match v with
  | VStr s => if 200 <? Z.of_nat (String.length s)
              then VStr (substring 0 200 s +:+ "...") else v
  | VList l => if 5 <? zlen l then VStr ("[" +:+ str_int (zlen l) +:+ " items]") else v
  | VDict d => if 5 <? zlen d then VStr ("{dict with " +:+ str_int (zlen d) +:+ " keys}") else v
  | _ => v
  end.

(** [x.get(k, {}).items()] of a dict of dicts *)
Definition items_of (k : string) (d : pyctx) : list (string * pyval) :=
  match dget k d with Some (VDict o) => o | _ => [] end.

Definition add_field (b : string) (acc : dict Entries) (kv : string * pyval) : dict Entries :=
  dset (fst kv) (dget_or (fst kv) [] acc ++ [(b, snd kv)]) acc.

Definition add_node_fields (b : string) (acc : dict Entries) (nv : string * pyval) : dict Entries :=
  match snd nv with
  | VDict o => fold_left (add_field b) o acc
  | _ => acc
  end.

Definition add_branch_fields (outs : dict pyctx) (acc : dict Entries) (b : string) : dict Entries :=
  fold_left (add_node_fields b) (items_of "outputs" (dget_or b [] outs)) acc.

(** [_collect_outputs] *)
Definition collect_outputs (outs : dict pyctx) (completed : list string) : dict Entries :=
  fold_left (add_branch_fields outs) completed [].

Definition as_list (v : pyval) : option (list pyval) :=
  match v with VList l => Some l | _ => None end.
Definition as_str (v : pyval) : option string :=
  match v with VStr s => Some s | _ => None end.

(** The contents of the entries when all have the same shape. *)
Definition all_as {A} (f : pyval -> option A) (es : Entries) : option (list A) :=
  mapM (fun e => f (snd e)) es.

Definition provenance (b : string) (item : pyval) : pyval :=
  match item with VDict d => VDict (dset "_provenance" (VStr b) d) | _ => item end.

(** What a strategy makes of one field: value, count, conflict. *)
Definition Merged : Type := pyval * Z * option pyctx.

Definition last_value (es : Entries) : pyval := List.last (map snd es) VNone.
Definition first_value (es : Entries) : pyval := match es with (_, v) :: _ => v | [] => VNone end.

Definition append_field (f : string) (es : Entries) : Merged :=
  match all_as as_list es with
  | Some ls =>
      let items := concat (map (fun '((b, _), l) => map (provenance b) l) (combine es ls)) in
      match es with
      | [] => (last_value es, zlen es, None)
      | _ => (VList items, zlen items, None)
      end
  | None => (last_value es, zlen es, None)
  end.

Definition list_count (v : pyval) : Z := match v with VList l => zlen l | _ => 1 end.
Definition text_count (v : pyval) : Z :=
  match v with VList l => zlen l | VStr s => Z.of_nat (String.length s) | _ => 1 end.

Definition scalar_conflict (f b : string) (v : pyval) (rest : Entries) : option pyctx :=
  match List.find (fun e => negb (py_eq (snd e) v)) rest with
  | Some (b', v') =>
      Some [ ("field", VStr f); ("conflict_type", VStr "scalar_key_conflict");
             ("branches", strs [b; b']);
             ("values", VDict (dset b' (truncate v') [(b, truncate v)])) ]
  | None => None
  end.

Definition merge_field (f : string) (es : Entries) : Merged :=
  match es with
  | [(_, v)] => (v, list_count v, None)
  | _ =>
      match all_as as_list es with
      | Some ls => (VList (concat ls), zlen (concat ls), None)
      | None =>
          match es with
          | (b, v) :: rest => (v, 1, scalar_conflict f b v rest)
          | [] => (VNone, 1, None)
          end
      end
  end.

Definition type_name (v : pyval) : string :=
  match v with
  | VNone => "NoneType" | VBool _ => "bool" | VInt _ => "int" | VFloat _ => "float"
  | VStr _ => "str" | VList _ => "list" | VDict _ => "dict"
  end.

Definition newline : string := String (ascii_of_nat 10) "".
Definition separator : string := newline +:+ "---" +:+ newline.

Definition concat_field (f : string) (es : Entries) : Merged :=
  match es with
  | [(_, v)] => (v, text_count v, None)
  | _ =>
      match all_as as_list es, all_as as_str es with
      | Some ls, _ => (VList (concat ls), zlen (concat ls), None)
      | None, Some ts =>
          (VStr (String.concat separator ts),
           foldr Z.add 0 (map (fun s => Z.of_nat (String.length s)) ts), None)
      | None, None =>
          (first_value es, 1,
           Some [ ("field", VStr f); ("conflict_type", VStr "incompatible_types");
                  ("branches", strs (map fst es));
                  ("types", VDict (fold_left (fun d e => dset (fst e) (VStr (type_name (snd e))) d)
                                     es [])) ])
      end
  end.

(** The three strategies that treat one field at a time. *)
Definition merge_fields (strategy : string) (field : string -> Entries -> Merged)
  (outs : dict pyctx) (completed : list string) : pyctx * pyctx :=
  let fs := map (fun '(f, es) => (f, field f es)) (collect_outputs outs completed) in
  (map (fun '(f, (v, _, _)) => (f, v)) fs,
   [ ("strategy", VStr strategy); ("input_branches", strs completed);
     ("used_branches", strs completed);
     ("conflicts", VList (omap (fun '(_, (_, _, c)) => option_map VDict c) fs));
     ("output_counts", VDict (map (fun '(f, (_, n, _)) => (f, VInt n)) fs)) ]).

Definition merge_append := merge_fields "append" append_field.
Definition merge_dict := merge_fields "merge" merge_field.
Definition merge_concat := merge_fields "concat" concat_field.

(** The key of the latest branch: its end time, then its name. *)
Definition end_time (timings : dict pyctx) (b : string) : num :=
  match dget_or b [] timings with
  | d => default (NInt 0) (as_num (match dget "end" d with Some v => v | None => VInt 0 end))
  end.

Definition later (timings : dict pyctx) (b b' : string) : bool :=
  let t := end_time timings b in
  let t' := end_time timings b' in
  if num_eq t t' then negb (String.leb b b') else num_gt t t'.

(** [max(completed_branches, key=...)]: the first of the greatest. *)
Definition latest_of (timings : dict pyctx) (b : string) (rest : list string) : string :=
  fold_left (fun best b => if later timings b best then b else best) rest b.

Definition latest_fields (o : list (string * pyval)) : pyctx :=
  fold_left (fun acc nv => match snd nv with
                           | VDict d => fold_left (fun acc kv => dset (fst kv) (snd kv) acc) d acc
                           | _ => acc
                           end) o [].

Definition merge_latest (outs : dict pyctx) (completed : list string) (timings : dict pyctx)
  : pyctx * pyctx :=
  match completed with
  | [] => ([], [("strategy", VStr "latest"); ("used_branches", VList []); ("conflicts", VList [])])
  | b :: rest =>
      let latest := latest_of timings b rest in
      let merged := latest_fields (items_of "outputs" (dget_or latest [] outs)) in
      (merged,
       [ ("strategy", VStr "latest"); ("input_branches", strs completed);
         ("used_branches", strs [latest]); ("conflicts", VList []);
         ("selection_reason", VStr "latest_end_time");
         ("output_counts", VDict (map (fun '(k, v) => (k, VInt (list_count v))) merged)) ])
  end.

(** [_merge_branch_outputs] *)
Definition merge_branch_outputs (strategy : string) (outs : dict pyctx) (completed : list string)
  (timings : dict pyctx) : pyctx * pyctx :=
  if (strategy =? "append")%string then merge_append outs completed
  else if (strategy =? "merge")%string then merge_dict outs completed
  else if (strategy =? "latest")%string then merge_latest outs completed timings
  else if (strategy =? "concat")%string then merge_concat outs completed
  else
    let '(merged, meta) := merge_dict outs completed in
    (merged, dset "original_strategy" (VStr strategy) (dset "fallback" (VBool true) meta)).

(** ** The join *)

Context (join_def : option JoinDef).

Definition join_name : string := match join_def with Some j => join_id j | None => "unknown" end.
Definition join_node : string := match join_def with Some j => join_to_node j | None => "join" end.
Definition the_wait_for : string := match join_def with Some j => wait_for j | None => "all" end.

Definition block (reason : string) (more : pyctx) (r : BranchExecutionReport)
  : BranchExecutionReport :=
  add_event "join_blocked" join_node
    ([ ("reason", VStr reason); ("join_id", VStr (rep_join_id r)); ("wait_for", VStr the_wait_for) ]
     ++ more) (set_blocked reason r).

Definition blocked_lists (r : BranchExecutionReport) : pyctx :=
  [ ("completed_branches", strs (completed_branches r)); ("failed_branches", strs (failed_branches r)) ].

(** The result of the tests for a blocked join: the report to return, or
    [None] to go on. *)
Definition block_all (r : BranchExecutionReport) : option BranchExecutionReport :=
  if (the_wait_for =? "all")%string && nonempty (failed_branches r) then
    Some (block ("Join '" +:+ rep_join_id r +:+ "' blocked: branches "
                 +:+ repr (strs (failed_branches r)) +:+ " failed with wait_for=all")
            (blocked_lists r ++ [("skipped_branches", strs (skipped_branches r))]) r)
  else None.

Definition block_any (r : BranchExecutionReport) : option BranchExecutionReport :=
  if (the_wait_for =? "any")%string && negb (nonempty (completed_branches r)) then
    Some (block ("Join '" +:+ rep_join_id r +:+ "' blocked: no branches completed with wait_for=any")
            (blocked_lists r) r)
  else None.

Definition block_quorum (selected : list string) (r : BranchExecutionReport)
  : res exec_error (option BranchExecutionReport) :=
  match join_def with
  | Some j =>
      if (wait_for j =? "quorum")%string then
        threshold ← compute_quorum_threshold j selected;
        if zlen (completed_branches r) <? threshold then
          Ok (Some (block ("Join '" +:+ rep_join_id r +:+ "' blocked: quorum not met ("
                           +:+ str_int (zlen (completed_branches r)) +:+ "/" +:+ str_int threshold
                           +:+ ")")
                      ([("quorum_required", VInt threshold)] ++ blocked_lists r
                       ++ [("cancelled_branches", strs (cancelled_branches r))]) r))
        else Ok None
      else Ok None
  | None => Ok None
  end.

(** Completed branches after the first one. *)
Definition late_branches (r : BranchExecutionReport) : list string :=
  List.filter (fun b => negb (bool_decide (first_completed_branch r = Some b))) (completed_branches r).

(** The [ignore_late] overlay. *)
Definition ignore_late_overlay (r : BranchExecutionReport) : BranchExecutionReport :=
  if (cancellation_policy r =? CANCEL_IGNORE_LATE)%string && mem the_wait_for ["any"; "first"]
     && nonempty (completed_branches r) then
    let late := late_branches r in
    set_merge_branches (match first_completed_branch r with Some f => [f] | None => [] end)
      (add_event "ignore_late_enforced" join_node
         [ ("join_id", VStr (rep_join_id r)); ("wait_for", VStr the_wait_for);
           ("cancellation_policy", VStr "ignore_late");
           ("first_accepted_branch", opt_str (first_completed_branch r));
           ("ignored_late_branches", strs late); ("failed_branches", strs (failed_branches r)) ]
         (add_ignored late r))
  else r.

Definition block_first (r : BranchExecutionReport) : option BranchExecutionReport :=
  if (the_wait_for =? "first")%string && negb (nonempty (completed_branches r)) then
    Some (block ("Join '" +:+ rep_join_id r +:+ "' blocked: all branches failed with wait_for=first")
            (blocked_lists r) r)
  else None.

Definition select_first (r : BranchExecutionReport) : BranchExecutionReport :=
  if (the_wait_for =? "first")%string then
    let late := late_branches r in
    set_merge_branches (match first_completed_branch r with Some f => [f] | None => [] end)
      (add_event "first_branch_selected" join_node
         [ ("join_id", VStr (rep_join_id r)); ("wait_for", VStr "first");
           ("first_completed_branch", opt_str (first_completed_branch r));
           ("ignored_late_branches", strs late); ("failed_branches", strs (failed_branches r)) ]
         (add_ignored late r))
  else r.

Definition timings_value (t : dict pyctx) : pyval := VDict (map (fun '(b, d) => (b, VDict d)) t).

Definition join_metadata (selected : list string) (r : BranchExecutionReport) : pyctx :=
  [ ("join_id", VStr (rep_join_id r)); ("wait_for", VStr the_wait_for);
    ("selected_branches", strs selected); ("completed_branches", strs (completed_branches r));
    ("failed_branches", strs (failed_branches r)); ("cancelled_branches", strs (cancelled_branches r));
    ("skipped_branches", strs (skipped_branches r)); ("ignored_branches", strs (ignored_branches r));
    ("partial", VBool (partial r)); ("branch_timings", timings_value (branch_timings r)) ]
  ++ (if ostr_truthy (first_completed_branch r)
      then [("first_completed_branch", opt_str (first_completed_branch r))] else []).

Definition merge_branches (r : BranchExecutionReport) : list string :=
  match first_merge_branches r with Some l => l | None => completed_branches r end.

Definition the_merge_strategy : string :=
  match join_def with Some j => merge_strategy j | None => "merge" end.

(** The join of a report that is not blocked. *)
Definition finish_join (selected : list string) (r : BranchExecutionReport) : BranchExecutionReport :=
  let meta := join_metadata selected r in
  let '(merged, detail) :=
    merge_branch_outputs the_merge_strategy (branch_outputs r) (merge_branches r) (branch_timings r) in
  let merged :=
    dset "branch_outputs" (VDict (map (fun '(b, d) => (b, VDict d)) (branch_outputs r))) merged in
  let ready := if partial r && nonempty (completed_branches r) then "join_partial" else "join_ready" in
  add_event "join_completed" join_node
    (dset "merge_detail" (VDict detail) (dset "merge_strategy" (VStr the_merge_strategy) meta))
    (set_join meta merged (add_event ready join_node meta r)).

(** Everything after the branches have run. *)
Definition join_semantics (selected : list string) (r : BranchExecutionReport)
  : res exec_error BranchExecutionReport :=
  match block_all r with
  | Some r => Ok r
  | None =>
      match block_any r with
      | Some r => Ok r
      | None =>
          q ← block_quorum selected r;
          match q with
          | Some r => Ok r
          | None =>
              let r := ignore_late_overlay r in
              match block_first r with
              | Some r => Ok r
              | None => Ok (finish_join selected (select_first r))
              end
          end
      end
  end.

(** ** [execute] *)

(** What the scheduler did with the tasks. *)
Record Schedule := mkSchedule {
  sch_gather : list task_outcome;
  sch_batches : list Batch;
}.

Context (policy : string).

Definition selected_to_run (selected : list string) : list string :=
  List.filter (fun b => mem b selected) all_branch_names.

Definition unselected (selected : list string) : list string :=
  List.filter (fun b => negb (mem b selected)) all_branch_names.

Definition new_report (selected : list string) : BranchExecutionReport :=
  mkReport selected [] [] [] [] [] [] [] join_name the_wait_for [] [] None false false None policy
    (mem policy [ CANCEL_ALLOW_ALL; CANCEL_IGNORE_LATE; CANCEL_ON_FIRST; CANCEL_FIRST_SUCCESS_ONLY;
                  CANCEL_QUORUM ]) [] None.

Definition skip_branch (r : BranchExecutionReport) (b : string) : BranchExecutionReport :=
  add_event "branch_skipped" (branch_from_node branch_def) [("branch", VStr b)]
    (set_output b [("skipped", VBool true); ("branch", VStr b)] None (add_skipped b r)).

Definition start_branch (r : BranchExecutionReport) (b : string) : BranchExecutionReport :=
  add_event "branch_started" (branch_from_node branch_def)
    [("branch", VStr b); ("nodes", strs (nodes_of b))] r.

Definition prepared (selected : list string) : BranchExecutionReport :=
  let r := add_event "routing_decision" (branch_from_node branch_def)
    [ ("selected", strs selected); ("available", strs all_branch_names);
      ("skipped", strs (unselected selected)) ] (new_report selected) in
  fold_left start_branch (selected_to_run selected) (fold_left skip_branch (unselected selected) r).

Definition on_first : bool := mem policy [CANCEL_ON_FIRST; CANCEL_FIRST_SUCCESS_ONLY].

(** The branches run; [Ok None] when the scheduler never finishes them. *)
Definition run_selected (sch : Schedule) (to_run : list string) (p : Progress)
  : res exec_error (option Progress) :=
  match to_run with
  | [] => Ok (Some p)
  | _ =>
      if on_first then
        Ok (option_map (cancel_on_first_end policy)
              (wait_loop cancel_first_batch (sch_batches sch) (start_waiting to_run p)))
      else
        match join_def with
        | Some j =>
            if (wait_for j =? "quorum")%string then
              threshold ← compute_quorum_threshold j to_run;
              Ok (option_map (quorum_end j threshold)
                    (wait_loop (quorum_batch j threshold) (sch_batches sch) (start_waiting to_run p)))
            else Some <$> gather (sch_gather sch) p
        | None => Some <$> gather (sch_gather sch) p
        end
  end.

Definition execute (selected : list string) (sch : Schedule)
  : res exec_error (option BranchExecutionReport) :=
  p ← run_selected sch (selected_to_run selected) (prepared selected, None);
  match p with
  | Some (r, first) => Some <$> join_semantics selected (set_first first r)
  | None => Ok None
  end.
End Execute.

(** ** Branch states *)

(** [metadata.get("branch", "")] and the list of ignored branches *)
Definition event_branch (e : Event) : string :=
  match dget "branch" (ev_meta e) with Some (VStr b) => b | _ => "" end.

Definition event_ignored (e : Event) : list string :=
  match dget "ignored_late_branches" (ev_meta e) with
  | Some (VList l) => omap as_str l
  | _ => []
  end.

Definition mark_ignored (states : dict string) (b : string) : dict string :=
  if dmem b states then dset b "ignored_late" states else states.

(** What [Orchestrator._execute_branches] makes of one event of the report in
    [ChainState.branch_states]. *)
Definition apply_event (states : dict string) (e : Event) : dict string :=
  let t := ev_type e in
  if (t =? "branch_started")%string then dset (event_branch e) "running" states
  else if (t =? "branch_completed")%string then dset (event_branch e) "completed" states
  else if (t =? "branch_failed")%string then dset (event_branch e) "failed" states
  else if (t =? "branch_cancelled")%string then dset (event_branch e) "cancelled" states
  else if mem t ["ignore_late_enforced"; "first_branch_selected"]
  then fold_left mark_ignored (event_ignored e) states
  else states.

Definition apply_events (evs : list Event) (states : dict string) : dict string :=
  fold_left apply_event evs states.

(** Event types that leave the states alone. *)
Definition neutral (t : string) : bool :=
  negb (mem t ["branch_started"; "branch_completed"; "branch_failed"; "branch_cancelled";
               "ignore_late_enforced"; "first_branch_selected"]).

Lemma apply_event_neutral states e : neutral (ev_type e) = true -> apply_event states e = states.
Proof.
  unfold neutral, apply_event. intros H. cbn in H. bool_prop. cbn.
  repeat match goal with H : String.eqb _ _ = false |- _ => rewrite H; clear H
    | H : ev_type e <> ?s |- _ => apply String.eqb_neq in H end; done.
Qed.

Lemma apply_events_app evs evs' st :
  apply_events (evs ++ evs') st = apply_events evs' (apply_events evs st).
Proof. apply fold_left_app. Qed.

(** ** Schedules the event loop can produce *)

(** How the task of a branch can end: with the result of its node loop, or
    cancelled before the loop's first call. *)
Inductive branch_ends (bd : BranchDef) (parent : pyctx) (b : string) : task_outcome -> Prop :=
| ends_returned t0 t1 ask :
    branch_ends bd parent b (TaskReturned (run_branch b t0 t1 ask (nodes_of bd b) parent))
| ends_cancelled : branch_ends bd parent b TaskCancelled.

Record admissible (bd : BranchDef) (parent : pyctx) (to_run : list string) (sch : Schedule) : Prop := {
  adm_gather : Forall2 (branch_ends bd parent) to_run (sch_gather sch);
  adm_batches : Forall (Forall (fun t => branch_ends bd parent (fst t) (snd t))) (sch_batches sch);
  adm_once : concat (map (map fst) (sch_batches sch)) ≡ₚ to_run;
  adm_progress : Forall (fun batch => batch <> []) (sch_batches sch);
}.

Lemma run_nodes_shape name t0 t1 ask i nodes payload outs :
  let br := run_nodes name t0 t1 ask i nodes payload outs in
  br_name br = name /\ br_skipped br = false /\ (br_failed br = true -> br_cancelled br = false).
Proof.
  revert i payload outs. induction nodes as [|n nodes IH]; intros i payload outs; cbn; [done|].
  destruct (ask i n payload) as [r| |e]; [|done|done].
  destruct (nr_success r); cbn; [apply IH | done].
Qed.

Lemma result_of_shape bd parent b o :
  branch_ends bd parent b o -> br_name (result_of b o) = b /\ br_skipped (result_of b o) = false.
Proof.
  intros [t0 t1 ask|]; cbn; [|done].
  by destruct (run_nodes_shape b t0 t1 ask 0 (nodes_of bd b) parent []) as (? & ? & _).
Qed.

(** ** Every branch is classified once *)

Section Classification.
Context (bd : BranchDef).

(** The state of the report while [names] have been classified. *)
Record classified (base : BranchExecutionReport) (names : list string) (p : Progress) : Prop := {
  cl_perm : completed_branches (fst p) ++ failed_branches (fst p) ++ cancelled_branches (fst p)
            ++ skipped_branches (fst p) ≡ₚ names;
  cl_skipped : skipped_branches (fst p) = skipped_branches base;
  cl_first : snd p = head (completed_branches (fst p));
  cl_done : forall b, b ∈ completed_branches (fst p) -> exists br,
      br_name br = b /\ is_success br = true /\
      dget b (branch_outputs (fst p)) = Some (branch_record br);
  cl_ignored : ignored_branches (fst p) = [];
  cl_open : first_merge_branches (fst p) = None /\ blocked (fst p) = false /\
            first_completed_branch (fst p) = None;
  cl_states : forall st b,
      let st' := apply_events (events (fst p)) st in
      (b ∈ completed_branches (fst p) -> dget b st' = Some "completed") /\
      (b ∈ failed_branches (fst p) -> dget b st' = Some "failed") /\
      (b ∈ cancelled_branches (fst p) -> dget b st' = Some "cancelled") /\
      (b ∉ completed_branches (fst p) -> b ∉ failed_branches (fst p) ->
       b ∉ cancelled_branches (fst p) -> dget b st' = dget b (apply_events (events base) st));
  cl_same : cancellation_policy (fst p) = cancellation_policy base /\
            selected_branches (fst p) = selected_branches base;
}.

Lemma perm_insert (l1 l2 : list string) x names :
  l1 ++ l2 ≡ₚ names -> l1 ++ [x] ++ l2 ≡ₚ x :: names.
Proof. intros <-. symmetry. apply Permutation_middle. Qed.

(** One more branch gets its state. *)
Lemma states_classified (comp fail canc comp' fail' canc' : list string) (x b label : string)
  (st st0 : dict string) :
  (b ∈ comp -> dget b st = Some "completed") /\ (b ∈ fail -> dget b st = Some "failed") /\
  (b ∈ canc -> dget b st = Some "cancelled") /\
  (b ∉ comp -> b ∉ fail -> b ∉ canc -> dget b st = dget b st0) ->
  x ∉ comp /\ x ∉ fail /\ x ∉ canc ->
  (comp', fail', canc', label) = (comp ++ [x], fail, canc, "completed") \/
  (comp', fail', canc', label) = (comp, fail ++ [x], canc, "failed") \/
  (comp', fail', canc', label) = (comp, fail, canc ++ [x], "cancelled") ->
  let st' := dset x label st in
  (b ∈ comp' -> dget b st' = Some "completed") /\ (b ∈ fail' -> dget b st' = Some "failed") /\
  (b ∈ canc' -> dget b st' = Some "cancelled") /\
  (b ∉ comp' -> b ∉ fail' -> b ∉ canc' -> dget b st' = dget b st0).
Proof.
  intros (A & B & C & D) (N1 & N2 & N3) Hcase. cbn.
  destruct (decide (b = x)) as [->|Hne].
  - rewrite dget_dset_same. destruct Hcase as [E|[E|E]]; injection E as -> -> -> ->; set_solver.
  - rewrite dget_dset_other by done.
    destruct Hcase as [E|[E|E]]; injection E as -> -> -> ->; set_solver.
Qed.

Lemma classify_classified base names br p :
  classified base names p -> br_name br ∉ names -> br_skipped br = false ->
  classified base (br_name br :: names) (classify_branch_result bd br p).
Proof.
  destruct p as [r first]. intros [H1 Hsk H2 H3 H4 H5 Hst H6] Hn Hns. cbn [fst snd] in *.
  assert (Hkeep : forall b, b ∈ completed_branches r -> exists br',
            br_name br' = b /\ is_success br' = true /\
            dget b (dset (br_name br) (branch_record br) (branch_outputs r)) =
            Some (branch_record br')).
  { intros b Hb. destruct (H3 b Hb) as (br' & Ha & Hs & Hd). exists br'. split_and!; [done|done|].
    rewrite dget_dset_other; [done|]. intros ->. apply Hn. rewrite <- H1, elem_of_app. by left. }
  assert (Hn' : br_name br ∉ completed_branches r /\ br_name br ∉ failed_branches r /\
                br_name br ∉ cancelled_branches r).
  { rewrite <- H1, !not_elem_of_app in Hn. tauto. }
  unfold classify_branch_result. rewrite Hns.
  destruct (br_cancelled br) eqn:Ec; [|destruct (br_failed br) eqn:Ef];
    (constructor; cbn -[apply_events]; [|done| | |done|done| |done]); try done.
  - rewrite <- (perm_insert (completed_branches r ++ failed_branches r ++ cancelled_branches r)
      (skipped_branches r) (br_name br) names); by rewrite <- ?app_assoc.
  - intros st b. rewrite apply_events_app. eapply states_classified; [exact (Hst st b)|exact Hn'|auto].
  - rewrite <- (perm_insert (completed_branches r ++ failed_branches r)
      (cancelled_branches r ++ skipped_branches r) (br_name br) names); by rewrite <- ?app_assoc.
  - intros st b. rewrite apply_events_app. eapply states_classified; [exact (Hst st b)|exact Hn'|auto].
  - rewrite <- (perm_insert (completed_branches r)
      (failed_branches r ++ cancelled_branches r ++ skipped_branches r) (br_name br) names);
      by rewrite <- ?app_assoc.
  - rewrite H2. by destruct (completed_branches r).
  - intros b [Hb|Hb]%elem_of_app; [by apply Hkeep|]. apply list_elem_of_singleton in Hb as ->.
    exists br. split_and!; [done| |apply dget_dset_same]. unfold is_success. by rewrite Ec, Hns, Ef.
  - intros st b. rewrite apply_events_app. eapply states_classified; [exact (Hst st b)|exact Hn'|auto].
Qed.

Lemma gather_classified base names outs parent to_run p p' :
  classified base names p -> Forall2 (branch_ends bd parent) to_run outs ->
  NoDup (to_run ++ names) -> gather bd outs p = Ok p' ->
  classified base (rev to_run ++ names) p'.
Proof.
  intros Hp Hall. revert names p Hp.
  induction Hall as [|b o to_run outs Ho _ IH]; intros names p Hp Hnd Hg; cbn in Hg.
  - by injection Hg as <-.
  - pose proof (result_of_shape _ _ _ _ Ho) as [Hname Hns].
    destruct Ho as [t0 t1 ask|]; [|discriminate]. cbn [result_of] in Hname, Hns.
    cbn in Hnd. apply NoDup_cons in Hnd as [Hb Hnd]. cbn [rev]. rewrite <- app_assoc. cbn [app].
    eapply IH; [|by rewrite <- Permutation_middle, NoDup_cons|done].
    rewrite <- Hname at 1. apply classify_classified; [done| |done].
    rewrite Hname. intros Hin. apply Hb. apply elem_of_app. by right.
Qed.

Lemma classified_perm base names names' p :
  names ≡ₚ names' -> classified base names p -> classified base names' p.
Proof. intros Hn [H1 H2 H3 H4 H5 H6 H7]. constructor; [by rewrite H1|done..]. Qed.

Lemma classified_event base names r first t n m :
  neutral t = true ->
  classified base names (r, first) -> classified base names (add_event t n m r, first).
Proof.
  intros Hneu [H1 H2 H3 H4 H5 H6 H7 H8]. constructor; try done. cbn -[apply_events].
  intros st b. rewrite apply_events_app. cbn [apply_events fold_left].
  rewrite apply_event_neutral by done. apply H7.
Qed.

(** *** The loops over finished tasks *)

Definition classify_task (p : Progress) (t : string * task_outcome) : Progress :=
  classify_branch_result bd (result_of (fst t) (snd t)) p.

Lemma classify_tasks_classified base names parent batch p :
  classified base names p -> Forall (fun t => branch_ends bd parent (fst t) (snd t)) batch ->
  NoDup (map fst batch ++ names) ->
  classified base (map fst batch ++ names) (fold_left classify_task batch p).
Proof.
  intros Hp Hall. revert names p Hp.
  induction Hall as [|[b o] batch Ho _ IH]; intros names p Hp Hnd; cbn; [done|].
  cbn in Ho, Hnd. apply NoDup_cons in Hnd as [Hb Hnd].
  pose proof (result_of_shape _ _ _ _ Ho) as [Hname Hns].
  eapply classified_perm; [symmetry; apply Permutation_middle|].
  apply IH; [|rewrite <- Permutation_middle; by apply NoDup_cons].
  unfold classify_task. cbn [fst snd]. rewrite <- Hname at 1. apply classify_classified; [done| |done].
  rewrite Hname. intros Hin. apply Hb. apply elem_of_app. by right.
Qed.

Lemma cancel_first_fold batch w :
  wt_progress (fold_left (cancel_first_task bd) batch w) =
    fold_left classify_task batch (wt_progress w) /\
  wt_pending (fold_left (cancel_first_task bd) batch w) = wt_pending w.
Proof.
  revert w. induction batch as [|[b o] batch IH]; intros w; cbn [fold_left]; [done|].
  destruct (IH (cancel_first_task bd w (b, o))) as [-> ->].
  unfold cancel_first_task. by destruct (_ && _).
Qed.

Lemma quorum_fold batch w :
  wt_progress (fold_left (quorum_task bd) batch w) = fold_left classify_task batch (wt_progress w) /\
  wt_pending (fold_left (quorum_task bd) batch w) = wt_pending w /\
  wt_triggered (fold_left (quorum_task bd) batch w) = wt_triggered w.
Proof.
  revert w. induction batch as [|[b o] batch IH]; intros w; cbn [fold_left]; [done|].
  by destruct (IH (quorum_task bd w (b, o))) as (-> & -> & ->).
Qed.

(** A loop body that classifies the tasks of the pass. *)
Definition classifies (step : Waiting -> Batch -> Waiting) : Prop :=
  forall base names parent batch w,
    classified base names (wt_progress w) ->
    Forall (fun t => branch_ends bd parent (fst t) (snd t)) batch ->
    NoDup (map fst batch ++ names) ->
    classified base (map fst batch ++ names) (wt_progress (step w batch)) /\
    wt_pending (step w batch) = still_pending batch (wt_pending w).

Lemma cancel_first_classifies : classifies (cancel_first_batch bd).
Proof.
  intros base names parent batch w Hw Hb Hnd. unfold cancel_first_batch.
  destruct (cancel_first_fold batch (mkWaiting (wt_progress w) (wt_triggered w)
    (still_pending batch (wt_pending w)) (wt_cancels w))) as [-> ->]. cbn.
  split; [|done]. by eapply classify_tasks_classified.
Qed.

Lemma quorum_check_progress j t w :
  exists evs, wt_progress (quorum_check bd j t w) =
    (fold_left (fun r e => add_event (ev_type e) (ev_node e) (ev_meta e) r) evs (fst (wt_progress w)),
     snd (wt_progress w)) /\ wt_pending (quorum_check bd j t w) = wt_pending w /\
    Forall (fun e => neutral (ev_type e) = true) evs.
Proof.
  destruct w as [[r first] tr pend canc]. unfold quorum_check. cbn [wt_progress wt_triggered wt_pending wt_cancels].
  destruct (_ && negb tr); cbn [wt_progress wt_triggered wt_pending wt_cancels negb andb].
  - eexists [mkEvent _ _ _]. split_and!; [reflexivity|done|by apply Forall_singleton].
  - destruct (_ && _); [|by exists []].
    eexists [mkEvent _ _ _]. split_and!; [reflexivity|done|by apply Forall_singleton].
Qed.

Lemma quorum_classifies j t : classifies (quorum_batch bd j t).
Proof.
  intros base names parent batch w Hw Hb Hnd. unfold quorum_batch.
  destruct (quorum_check_progress j t (fold_left (quorum_task bd) batch
    (mkWaiting (wt_progress w) (wt_triggered w) (still_pending batch (wt_pending w)) (wt_cancels w))))
    as (evs & -> & -> & Hneu).
  destruct (quorum_fold batch (mkWaiting (wt_progress w) (wt_triggered w)
    (still_pending batch (wt_pending w)) (wt_cancels w))) as (-> & -> & _). cbn.
  split; [|done].
  pose proof (classify_tasks_classified base names parent batch _ Hw Hb Hnd) as Hc.
  destruct (fold_left classify_task batch (wt_progress w)) as [r first]. cbn. clear -Hc Hneu.
  revert r Hc. induction Hneu as [|e evs He _ IH]; intros r Hc; cbn; [done|].
  apply IH. by apply classified_event.
Qed.

Lemma wait_loop_classified step base parent batches : forall names w w',
  classifies step -> classified base names (wt_progress w) ->
  Forall (Forall (fun t => branch_ends bd parent (fst t) (snd t))) batches ->
  concat (map (map fst) batches) ≡ₚ wt_pending w -> NoDup (wt_pending w ++ names) ->
  wait_loop step batches w = Some w' ->
  classified base (wt_pending w ++ names) (wt_progress w').
Proof.
  induction batches as [|batch rest IH]; intros names w w' Hstep Hc Hall Hperm Hnd Hw;
    cbn [wait_loop] in Hw.
  - destruct (wt_pending w); [by injection Hw as <-|discriminate].
  - destruct (wt_pending w) as [|b pend] eqn:Ep; [by injection Hw as <-|]. rewrite <- Ep in *.
    apply Forall_cons in Hall as [Hb Hall]. cbn in Hperm.
    destruct (Hstep base names parent batch w Hc Hb) as [Hc' Hpend].
    { rewrite <- Hperm, <- app_assoc in Hnd. apply NoDup_app in Hnd as (H1 & H2 & H3).
      apply NoDup_app. split_and!; [done| |].
      - intros x Hx Hin. apply (H2 x Hx). apply elem_of_app. by right.
      - by apply NoDup_app in H3 as (_ & _ & H3). }
    assert (Hrest : concat (map (map fst) rest) ≡ₚ wt_pending (step w batch)).
    { rewrite Hpend. unfold still_pending.
      assert (Hnp : NoDup (map fst batch ++ concat (map (map fst) rest))).
      { rewrite Hperm. by apply NoDup_app in Hnd as (? & _). }
      apply NoDup_app in Hnp as (N1 & N2 & N3). apply NoDup_Permutation; [done| |].
      - apply NoDup_ListNoDup, List.NoDup_filter, NoDup_ListNoDup. by apply NoDup_app in Hnd as (? & _).
      - intros x. rewrite elem_of_set_diff, <- Hperm, elem_of_app. split; [|tauto].
        intros Hx. split; [by right|]. intros Hx'. by apply (N2 x). }
    eapply classified_perm; [|eapply (IH (map fst batch ++ names) _ w' Hstep Hc' Hall Hrest); [|done]].
    + rewrite <- Hrest, app_assoc. apply Permutation_app_tail. rewrite <- Hperm.
      apply Permutation_app_comm.
    + rewrite <- Hrest, app_assoc, (Permutation_app_comm (concat _)), Hperm. done.
Qed.
End Classification.

(** *** The report before and after the run *)

Section Reports.
Context (bd : BranchDef) (j : option JoinDef) (policy : string).

Lemma skip_fold l : forall r,
  let r' := fold_left (skip_branch bd) l r in
  completed_branches r' = completed_branches r /\ failed_branches r' = failed_branches r /\
  cancelled_branches r' = cancelled_branches r /\ skipped_branches r' = skipped_branches r ++ l /\
  ignored_branches r' = ignored_branches r /\ first_merge_branches r' = first_merge_branches r /\
  blocked r' = blocked r /\ first_completed_branch r' = first_completed_branch r.
Proof.
  induction l as [|b l IH]; intros r; cbn [fold_left]; [by rewrite app_nil_r|].
  destruct (IH (skip_branch bd r b)) as (-> & -> & -> & -> & -> & -> & -> & ->). cbn.
  by rewrite <- app_assoc.
Qed.

Lemma start_fold l : forall r,
  let r' := fold_left (start_branch bd) l r in
  completed_branches r' = completed_branches r /\ failed_branches r' = failed_branches r /\
  cancelled_branches r' = cancelled_branches r /\ skipped_branches r' = skipped_branches r /\
  ignored_branches r' = ignored_branches r /\ first_merge_branches r' = first_merge_branches r /\
  blocked r' = blocked r /\ first_completed_branch r' = first_completed_branch r.
Proof.
  induction l as [|b l IH]; intros r; cbn [fold_left]; [done|].
  by destruct (IH (start_branch bd r b)) as (-> & -> & -> & -> & -> & -> & -> & ->).
Qed.

Lemma skip_policy l r :
  cancellation_policy (fold_left (skip_branch bd) l r) = cancellation_policy r.
Proof. revert r. induction l as [|b l IH]; intros r; cbn; [done | by rewrite IH]. Qed.

Lemma start_policy l r :
  cancellation_policy (fold_left (start_branch bd) l r) = cancellation_policy r.
Proof. revert r. induction l as [|b l IH]; intros r; cbn; [done | by rewrite IH]. Qed.

Lemma prepared_classified selected :
  classified (prepared bd j policy selected) (unselected bd selected)
    (prepared bd j policy selected, None) /\
  skipped_branches (prepared bd j policy selected) = unselected bd selected /\
  completed_branches (prepared bd j policy selected) = [].
Proof.
  unfold prepared. set (r0 := add_event _ _ _ _).
  destruct (start_fold (selected_to_run bd selected) (fold_left (skip_branch bd) (unselected bd selected) r0))
    as (A1 & A2 & A3 & A4 & A5 & A6 & A7 & A8).
  destruct (skip_fold (unselected bd selected) r0) as (B1 & B2 & B3 & B4 & B5 & B6 & B7 & B8).
  rewrite B1 in A1; rewrite B2 in A2; rewrite B3 in A3; rewrite B4 in A4; rewrite B5 in A5;
    rewrite B6 in A6; rewrite B7 in A7; rewrite B8 in A8. cbn in A1, A2, A3, A4, A5, A6, A7, A8.
  split; [|done]. constructor; cbn [fst snd]; rewrite ?A1, ?A2, ?A3, ?A4; try done.
  - by intros b Hb%elem_of_nil.
  - intros st b. split_and!; try (by intros Hb%elem_of_nil). done.
Qed.

(** The lists that the join leaves alone. *)
Definition same_lists (r r' : BranchExecutionReport) : Prop :=
  completed_branches r' = completed_branches r /\ failed_branches r' = failed_branches r /\
  cancelled_branches r' = cancelled_branches r /\ skipped_branches r' = skipped_branches r /\
  branch_outputs r' = branch_outputs r /\ first_completed_branch r' = first_completed_branch r.

Lemma finish_join_lists selected r : same_lists r (finish_join j selected r).
Proof. unfold finish_join. by destruct (merge_branch_outputs _ _ _ _). Qed.

Lemma ignore_late_lists r : same_lists r (ignore_late_overlay j r).
Proof. unfold ignore_late_overlay. by case_match. Qed.

Lemma select_first_lists r : same_lists r (select_first j r).
Proof. unfold select_first. by case_match. Qed.

Lemma block_all_some r r' :
  block_all j r = Some r' ->
  same_lists r r' /\ blocked r' = true /\ the_wait_for j = "all" /\ failed_branches r <> [].
Proof.
  unfold block_all. destruct (_ && _) eqn:E; [|discriminate]. intros [= <-]. bool_prop.
  by rewrite nonempty_true in *.
Qed.

Lemma block_any_some r r' :
  block_any j r = Some r' ->
  same_lists r r' /\ blocked r' = true /\ the_wait_for j = "any" /\ completed_branches r = [].
Proof.
  unfold block_any. destruct (_ && _) eqn:E; [|discriminate]. intros [= <-]. bool_prop.
  by rewrite nonempty_false in *.
Qed.

Lemma block_first_some r r' :
  block_first j r = Some r' ->
  same_lists r r' /\ blocked r' = true /\ the_wait_for j = "first" /\ completed_branches r = [].
Proof.
  unfold block_first. destruct (_ && _) eqn:E; [|discriminate]. intros [= <-]. bool_prop.
  by rewrite nonempty_false in *.
Qed.

(** The quorum of a join is missed by these completed branches. *)
Definition quorum_missed (selected completed : list string) : Prop :=
  exists jd t, j = Some jd /\ wait_for jd = "quorum" /\
    compute_quorum_threshold jd selected = Ok t /\ zlen completed < t.

Lemma block_quorum_ok selected r q :
  block_quorum j selected r = Ok q ->
  match q with
  | Some r' => same_lists r r' /\ blocked r' = true /\ quorum_missed selected (completed_branches r)
  | None => ~ quorum_missed selected (completed_branches r)
  end.
Proof.
  unfold block_quorum, quorum_missed. destruct j as [jd|]; [|intros [= <-]; naive_solver].
  destruct (String.eqb_spec (wait_for jd) "quorum") as [Hw|Hw]; [|intros [= <-]; naive_solver].
  destruct (compute_quorum_threshold jd selected) as [t|e] eqn:Et; [|discriminate]. cbn.
  destruct (Z.ltb_spec (zlen (completed_branches r)) t); intros [= <-].
  - split; [done|]. split; [done|]. naive_solver.
  - intros (jd' & t' & [= <-] & _ & Ht & Hlt). rewrite Et in Ht. injection Ht as <-. lia.
Qed.

(** When the join is blocked. *)
Definition should_block (selected : list string) (r : BranchExecutionReport) : Prop :=
  (the_wait_for j = "all" /\ failed_branches r <> []) \/
  (the_wait_for j = "any" /\ completed_branches r = []) \/
  quorum_missed selected (completed_branches r) \/
  (the_wait_for j = "first" /\ completed_branches r = []).

(** What the join does with the report of the run. *)
Lemma join_semantics_cases selected r r' :
  join_semantics j selected r = Ok r' ->
  same_lists r r' /\
  ((blocked r' = true /\ should_block selected r) \/
   (r' = finish_join j selected (select_first j (ignore_late_overlay j r)) /\
    ~ should_block selected r)).
Proof.
  unfold join_semantics, should_block. intros H.
  destruct (block_all j r) as [x|] eqn:Eall.
  { injection H as ->. apply block_all_some in Eall. naive_solver. }
  destruct (block_any j r) as [x|] eqn:Eany.
  { injection H as ->. apply block_any_some in Eany. naive_solver. }
  inv_bind H. rename a into q. pose proof (block_quorum_ok _ _ _ Ha) as Hq.
  destruct q as [x|]; [injection H as ->; naive_solver|].
  pose proof (ignore_late_lists r) as Hi.
  destruct (block_first j (ignore_late_overlay j r)) as [x|] eqn:Ef.
  { injection H as ->. apply block_first_some in Ef as (E1 & E2 & E3 & E4).
    unfold same_lists in *. split; [intuition congruence|]. left. split; [done|].
    right; right; right. split; [done|]. destruct Hi. congruence. }
  injection H as <-. split.
  - pose proof (select_first_lists (ignore_late_overlay j r)).
    pose proof (finish_join_lists selected (select_first j (ignore_late_overlay j r))).
    unfold same_lists in *. intuition congruence.
  - right. split; [done|]. unfold block_all in Eall. unfold block_any in Eany. unfold block_first in Ef.
    destruct Hi as (Hi & _). rewrite Hi in Ef. intros [[Hw Hl]|[[Hw Hl]|[Hl|[Hw Hl]]]]; [| |done|].
    all: rewrite Hw, ?Hl in *; cbn in *; try discriminate.
    by destruct (failed_branches r).
Qed.

Lemma should_block_lists selected r r' :
  same_lists r r' -> should_block selected r' <-> should_block selected r.
Proof. unfold should_block. intros (-> & -> & _). done. Qed.

Lemma finish_join_blocked selected r : blocked (finish_join j selected r) = blocked r.
Proof. unfold finish_join. by destruct (merge_branch_outputs _ _ _ _). Qed.
Lemma select_first_blocked r : blocked (select_first j r) = blocked r.
Proof. unfold select_first. by case_match. Qed.
Lemma ignore_late_blocked r : blocked (ignore_late_overlay j r) = blocked r.
Proof. unfold ignore_late_overlay. by case_match. Qed.

Lemma finish_join_merge_branches selected r :
  merge_branches (finish_join j selected r) = merge_branches r.
Proof. unfold finish_join. by destruct (merge_branch_outputs _ _ _ _). Qed.

Lemma finish_join_merged selected r :
  let r' := finish_join j selected r in
  merged_output r' =
    dset "branch_outputs" (VDict (map (fun '(b, d) => (b, VDict d)) (branch_outputs r')))
      (fst (merge_branch_outputs (the_merge_strategy j) (branch_outputs r') (merge_branches r')
              (branch_timings r'))).
Proof.
  unfold finish_join. destruct (merge_branch_outputs _ _ _ _) as [m d] eqn:E.
  unfold merge_branches in *. cbn in *. by rewrite E.
Qed.

Lemma selected_partition selected :
  selected_to_run bd selected ++ unselected bd selected ≡ₚ all_branch_names bd.
Proof.
  unfold selected_to_run, unselected.
  induction (all_branch_names bd) as [|b l IH]; [done|]. cbn [List.filter].
  destruct (mem b selected); cbn [negb app]; [by rewrite IH|].
  by rewrite <- Permutation_middle, IH.
Qed.
End Reports.

(** ** What an execution guarantees *)

Section Guarantees.
Context (bd : BranchDef) (j : option JoinDef) (policy : string).
Context (parent : pyctx) (selected : list string) (sch : Schedule).
Context (Hnames : NoDup (all_branch_names bd)).
Context (Hsch : admissible bd parent (selected_to_run bd selected) sch).

(** The report before the run, as a basis of comparison. *)
Local Abbreviation base := (prepared bd j policy selected).

(** What running the tasks leaves, up to the choice of the merge branches. *)
Record ran (done : list string) (p : Progress) : Prop := {
  ran_completed : completed_branches (fst p) = done \/
    exists t, completed_branches (fst p) = slice_to t done;
  ran_perm : done ++ failed_branches (fst p) ++ cancelled_branches (fst p)
             ++ skipped_branches (fst p) ≡ₚ all_branch_names bd;
  ran_skipped : skipped_branches (fst p) = unselected bd selected;
  ran_first : snd p = head done;
  ran_done : forall b, b ∈ done -> exists br,
      br_name br = b /\ is_success br = true /\
      dget b (branch_outputs (fst p)) = Some (branch_record br);
  ran_open : blocked (fst p) = false /\ cancellation_policy (fst p) = policy;
  ran_states : forall st b,
      let st' := apply_events (events (fst p)) st in
      (b ∈ done -> dget b st' = Some "completed") /\
      (b ∈ failed_branches (fst p) -> dget b st' = Some "failed") /\
      (b ∈ cancelled_branches (fst p) -> dget b st' = Some "cancelled") /\
      (b ∈ skipped_branches (fst p) -> dget b st' = dget b st);
}.

(** Starting the selected branches leaves the others' states alone. *)
Lemma prepared_states st b :
  b ∈ unselected bd selected -> dget b (apply_events (events base) st) = dget b st.
Proof.
  intros Hb. unfold prepared.
  assert (Hskip : forall l r, apply_events (events (fold_left (skip_branch bd) l r)) st =
                              apply_events (events r) st).
  { induction l as [|x l IH]; intros r; cbn [fold_left]; [done|]. rewrite IH. cbn [events skip_branch add_event].
    by rewrite apply_events_app. }
  assert (Hstart : forall l r, b ∉ l ->
            dget b (apply_events (events (fold_left (start_branch bd) l r)) st) =
            dget b (apply_events (events r) st)).
  { induction l as [|x l IH]; intros r Hl; cbn [fold_left]; [done|].
    apply not_elem_of_cons in Hl as [Hne Hl]. rewrite IH by done. cbn [events start_branch add_event].
    rewrite apply_events_app. cbn. by rewrite dget_dset_other. }
  rewrite Hstart, Hskip; [done|]. unfold unselected, selected_to_run in *.
  rewrite elem_of_lfilter in *. destruct Hb as [Hb _]. intros [Hs _]. by rewrite Hs in Hb.
Qed.

Lemma classified_ran names p :
  classified base names p -> names ≡ₚ all_branch_names bd -> ran (completed_branches (fst p)) p.
Proof.
  intros [H1 H2 H3 H4 H5 H6 H7 H8] Hn.
  assert (Hsk : skipped_branches (fst p) = unselected bd selected).
  { rewrite H2. by destruct (prepared_classified bd j policy selected) as (_ & -> & _). }
  constructor; auto.
  - by rewrite H1.
  - split; [apply H6|]. destruct H8 as [-> _]. unfold prepared. rewrite start_policy, skip_policy. done.
  - intros st b. destruct (H7 st b) as (A & B & C & D). split_and!; [done..|].
    intros Hb. rewrite D; [apply prepared_states; by rewrite <- Hsk| | |].
    all: intros Hb'; assert (Hnd : NoDup (completed_branches (fst p) ++ failed_branches (fst p)
           ++ cancelled_branches (fst p) ++ skipped_branches (fst p))) by (by rewrite H1, Hn).
    all: rewrite !NoDup_app in Hnd; set_solver.
Qed.

Lemma enforced_neutral : on_first policy = true -> neutral (policy +:+ "_enforced") = true.
Proof.
  unfold on_first. rewrite mem_true, !elem_of_cons. by intros [->|[->|[]%elem_of_nil]].
Qed.

Lemma cancel_on_first_ran names w :
  on_first policy = true -> classified base names (wt_progress w) -> names ≡ₚ all_branch_names bd ->
  ran (completed_branches (fst (wt_progress w))) (cancel_on_first_end bd policy w).
Proof.
  intros Ho Hc Hn. pose proof (classified_ran _ _ Hc Hn) as [H1 H2 H3 H4 H5 H6 H7].
  destruct w as [[r first] tr pend canc]. cbn -[apply_events] in *. unfold cancel_on_first_end.
  cbn -[apply_events].
  assert (Hst : forall n m st, apply_events (events r ++ [mkEvent (policy +:+ "_enforced") n m]) st =
                               apply_events (events r) st).
  { intros n m st. rewrite apply_events_app. cbn [apply_events fold_left].
    by apply apply_event_neutral, enforced_neutral. }
  destruct tr, first as [f|]; cbn -[apply_events]; try destruct (str_truthy f); constructor;
    cbn -[apply_events]; try done; intros st b; rewrite Hst; apply H7.
Qed.

Lemma quorum_ran names jd t w :
  classified base names (wt_progress w) -> names ≡ₚ all_branch_names bd ->
  ran (completed_branches (fst (wt_progress w))) (quorum_end jd t w).
Proof.
  intros Hc Hn. pose proof (classified_ran _ _ Hc Hn) as [H1 H2 H3 H4 H5 H6 H7].
  destruct w as [[r first] tr pend canc]. cbn in *. unfold quorum_end. cbn.
  destruct tr; cbn; [|by constructor].
  destruct (String.eqb (after_quorum jd) "ignore_late"); constructor; cbn; eauto.
Qed.

Lemma processed_perm : selected_to_run bd selected ++ unselected bd selected ≡ₚ all_branch_names bd.
Proof. apply selected_partition. Qed.

Lemma processed_NoDup : NoDup (selected_to_run bd selected ++ unselected bd selected).
Proof. by rewrite processed_perm. Qed.

Lemma waiting_classified step w :
  classifies bd step ->
  wait_loop step (sch_batches sch) (start_waiting (selected_to_run bd selected) (base, None)) = Some w ->
  classified base (selected_to_run bd selected ++ unselected bd selected) (wt_progress w).
Proof.
  intros Hstep Hw.
  apply (wait_loop_classified bd step base parent (sch_batches sch) (unselected bd selected)
    (start_waiting (selected_to_run bd selected) (base, None)) w); try done.
  - by destruct (prepared_classified bd j policy selected).
  - apply Hsch.
  - apply Hsch.
  - apply processed_NoDup.
Qed.

Lemma run_selected_ran p :
  run_selected bd j policy sch (selected_to_run bd selected) (base, None) = Ok (Some p) ->
  exists done, ran done p.
Proof.
  destruct (prepared_classified bd j policy selected) as (Hbase & _ & _).
  unfold run_selected. intros H.
  destruct (selected_to_run bd selected) as [|b0 l0] eqn:Esel in H; [|rewrite <- Esel in H].
  { injection H as <-. eexists. eapply classified_ran; [exact Hbase|].
    by rewrite <- processed_perm, Esel. }
  assert (Hg : forall p', gather bd (sch_gather sch) (base, None) = Ok p' -> exists done, ran done p').
  { intros p' Hp'. eexists. eapply classified_ran.
    - eapply gather_classified; [exact Hbase|apply Hsch|apply processed_NoDup|done].
    - rewrite <- processed_perm. apply Permutation_app_tail. symmetry. apply Permutation_rev. }
  set (bs := prepared bd j policy selected) in H.
  change (forall p', gather bd (sch_gather sch) (bs, None) = Ok p' -> exists done, ran done p') in Hg.
  destruct (on_first policy) eqn:Eof.
  - injection H as H. destruct (wait_loop _ _ _) as [w|] eqn:Ew; [|discriminate]. injection H as <-.
    eexists. eapply cancel_on_first_ran; [done| |apply processed_perm].
    eapply waiting_classified; [apply cancel_first_classifies|done].
  - destruct j as [jd|] eqn:Ejd in H.
    2: { destruct (gather bd _ _) as [p'|] eqn:Eg; [|discriminate]. injection H as <-. by apply Hg. }
    destruct (String.eqb (wait_for jd) "quorum").
    2: { destruct (gather bd _ _) as [p'|] eqn:Eg; [|discriminate]. injection H as <-. by apply Hg. }
    inv_bind H. injection H as H. destruct (wait_loop _ _ _) as [w|] eqn:Ew; [|discriminate].
    injection H as <-. eexists. eapply quorum_ran; [|apply processed_perm].
    eapply waiting_classified; [apply quorum_classifies|done].
Qed.

(** every branch of the fan-out ends in exactly one class: the branches that
    completed (all of them listed as completed, or the first ones, when a
    quorum ignores late branches), failed, were cancelled or were not
    selected; the report keeps the output of each completed branch, and the
    first completed branch is the head of the completion order. *)
Theorem branches_partitioned r :
  execute bd j policy selected sch = Ok (Some r) ->
  exists done,
    done ++ failed_branches r ++ cancelled_branches r ++ skipped_branches r
      ≡ₚ all_branch_names bd /\
    completed_branches r `prefix_of` done /\
    (forall b, b ∈ skipped_branches r <-> b ∈ all_branch_names bd /\ b ∉ selected) /\
    first_completed_branch r = head done /\
    (forall b, b ∈ done -> exists br, br_name br = b /\ is_success br = true /\
       dget b (branch_outputs r) = Some (branch_record br)).
Proof.
  unfold execute. intros H. inv_bind H. destruct a as [[r0 first]|]; [|discriminate].
  destruct (run_selected_ran _ Ha) as [done [H1 H2 H3 H4 H5 _]].
  destruct (join_semantics j selected (set_first first r0)) as [r'|] eqn:Ej; [|discriminate].
  injection H as <-.
  destruct (join_semantics_cases _ _ _ _ Ej) as [(-> & -> & -> & -> & -> & ->) _]. cbn in *.
  exists done. split_and!; [done| | | done|done].
  - destruct H1 as [-> | [t ->]]; [done|]. unfold slice_to. apply prefix_take.
  - intros b. rewrite H3. unfold unselected. rewrite elem_of_lfilter, negb_true_iff, mem_false. tauto.
Qed.

(** the join is blocked exactly when its waiting rule is not met, and
    otherwise it merges the outputs of the branches that the rule admits: the
    first completed one under [first] and under a late-ignoring [any], the
    merge branches chosen by the run in the other cases. *)
Theorem join_decided r :
  execute bd j policy selected sch = Ok (Some r) ->
  (blocked r = true <-> should_block j selected r) /\
  (blocked r = false ->
   merged_output r =
     dset "branch_outputs" (VDict (map (fun '(b, d) => (b, VDict d)) (branch_outputs r)))
       (fst (merge_branch_outputs (the_merge_strategy j) (branch_outputs r) (merge_branches r)
               (branch_timings r))) /\
   (the_wait_for j = "first" \/
    (the_wait_for j = "any" /\ policy = CANCEL_IGNORE_LATE) ->
    exists f, first_completed_branch r = Some f /\ merge_branches r = [f])).
Proof.
  unfold execute. intros H. inv_bind H. destruct a as [[r0 first]|]; [|discriminate].
  destruct (run_selected_ran _ Ha) as [done [H1 _ _ H4 _ [H6 H7]]].
  destruct (join_semantics j selected (set_first first r0)) as [r'|] eqn:Ej; [|discriminate].
  injection H as <-. cbn in *.
  destruct (join_semantics_cases _ _ _ _ Ej) as [Hl [[Hb Hs]|[-> Hs]]].
  { rewrite <- (should_block_lists _ _ _ _ Hl) in Hs. split; [tauto|]. by rewrite Hb. }
  rewrite <- (should_block_lists _ _ _ _ Hl) in Hs.
  assert (Hb : blocked (finish_join j selected (select_first j (ignore_late_overlay j
    (set_first first r0)))) = false).
  { rewrite finish_join_blocked, select_first_blocked, ignore_late_blocked. done. }
  split; [by rewrite Hb|]. intros _. split; [apply finish_join_merged|].
  intros Hw. rewrite finish_join_merge_branches.
  assert (Hne : completed_branches r0 <> []).
  { intros E. apply Hs. unfold should_block. destruct Hl as (-> & _). cbn. rewrite E. tauto. }
  assert (Hf : exists f, first = Some f).
  { rewrite H4. destruct done as [|f]; [|by exists f].
    destruct H1 as [H1|[t H1]]; rewrite H1 in Hne; [done|]. unfold slice_to in Hne.
    by rewrite take_nil in Hne. }
  destruct Hf as [f ->]. exists f. split.
  { destruct Hl as (_ & _ & _ & _ & _ & ->). done. }
  unfold select_first. destruct (String.eqb_spec (the_wait_for j) "first") as [Ew|Ew].
  - destruct (ignore_late_lists j (set_first (Some f) r0)) as (_ & _ & _ & _ & _ & ->). done.
  - destruct Hw as [|[Hw Hp]]; [done|]. unfold ignore_late_overlay. cbn [cancellation_policy set_first].
    rewrite H7, Hp, Hw. cbn. destruct (completed_branches r0); [done|]. done.
Qed.
End Guarantees.

(** ** The quorum *)

(** The branches that completed, in the order in which the loop saw them. *)
Definition completions (batch : Batch) : list string :=
  map fst (List.filter (fun t => is_success (result_of (fst t) (snd t))) batch).

Definition events_of (ty : string) (r : BranchExecutionReport) : nat :=
  count (fun e => (ev_type e =? ty)%string) (events r).

Section Quorum.
Context (bd : BranchDef) (jd : JoinDef) (t : Z).

Lemma events_of_add ty ty' n m r :
  events_of ty (add_event ty' n m r) = (events_of ty r + if (ty' =? ty)%string then 1 else 0)%nat.
Proof.
  unfold events_of. cbn [events add_event]. rewrite count_app. f_equal. unfold count. cbn. by case_match.
Qed.

Lemma completions_app b1 b2 : completions (b1 ++ b2) = completions b1 ++ completions b2.
Proof. unfold completions. by rewrite List.filter_app, map_app. Qed.

(** The passes after which the quorum is out of reach: those completed so far,
    [before] of them before the first pass, with the tasks left are too few. *)
Definition lost_passes (before : Z) (batches : list Batch) : nat :=
  count (fun k => before + zlen (completions (concat (take k batches))) + zlen (concat (drop k batches)) <? t)
    (seq 1 (length batches)).

Lemma lost_passes_cons before batch rest :
  lost_passes before (batch :: rest) =
  ((if (before + zlen (completions batch) + zlen (concat rest) <? t)%Z then 1 else 0) +
   lost_passes (before + zlen (completions batch))%Z rest)%nat.
Proof.
  unfold lost_passes. cbn [length seq]. rewrite <- (seq_shift (length rest) 1). unfold count. cbn [List.filter].
  assert (H : forall l, length (List.filter (fun k => before + zlen (completions (concat (take k (batch :: rest)))) +
      zlen (concat (drop k (batch :: rest))) <? t) (map S l)) =
    length (List.filter (fun k => before + zlen (completions batch) + zlen (completions (concat (take k rest))) +
      zlen (concat (drop k rest)) <? t) l)).
  { induction l as [|k l IH]; [done|]. cbn [map List.filter take drop concat]. rewrite completions_app.
    replace (before + zlen (completions batch ++ completions (concat (take k rest))) + zlen (concat (drop k rest)))
      with (before + zlen (completions batch) + zlen (completions (concat (take k rest))) + zlen (concat (drop k rest)))
      by (unfold zlen; rewrite length_app; lia).
    destruct (_ <? t); cbn [length]; by rewrite IH. }
  cbn [take drop concat]. rewrite take_0, drop_0, app_nil_r. destruct (_ <? t); cbn [length]; by rewrite H.
Qed.

(** The loop's state after [done] completions and [lost] hopeless passes. *)
Record quorum_state (done : list string) (lost : nat) (w : Waiting) : Prop := {
  qs_done : completed_branches (fst (wt_progress w)) = done;
  qs_met : wt_triggered w = (t <=? zlen done);
  qs_reached : events_of "quorum_reached" (fst (wt_progress w)) = if t <=? zlen done then 1%nat else 0%nat;
  qs_impossible : events_of "quorum_impossible" (fst (wt_progress w)) = lost;
}.

Lemma classify_task_quorum parent p tk :
  branch_ends bd parent (fst tk) (snd tk) ->
  let p' := classify_task bd p tk in
  completed_branches (fst p') = completed_branches (fst p) ++ completions [tk] /\
  events_of "quorum_reached" (fst p') = events_of "quorum_reached" (fst p) /\
  events_of "quorum_impossible" (fst p') = events_of "quorum_impossible" (fst p).
Proof.
  destruct tk as [b o], p as [r first]. cbn [fst snd]. intros [Hn Hs]%result_of_shape.
  unfold classify_task, classify_branch_result, completions, is_success. cbn [fst snd List.filter].
  rewrite Hs. destruct (br_cancelled _), (br_failed _); cbn [negb andb map fst];
    rewrite ?app_nil_r, !events_of_add; cbn; rewrite ?Hn, ?Nat.add_0_r; done.
Qed.

Lemma classify_tasks_quorum parent batch : forall p,
  Forall (fun tk => branch_ends bd parent (fst tk) (snd tk)) batch ->
  let p' := fold_left (classify_task bd) batch p in
  completed_branches (fst p') = completed_branches (fst p) ++ completions batch /\
  events_of "quorum_reached" (fst p') = events_of "quorum_reached" (fst p) /\
  events_of "quorum_impossible" (fst p') = events_of "quorum_impossible" (fst p).
Proof.
  induction batch as [|tk batch IH]; intros p Hall; cbn [fold_left]; [by rewrite app_nil_r|].
  apply Forall_cons in Hall as [Htk Hall].
  destruct (IH (classify_task bd p tk) Hall) as (-> & -> & ->).
  destruct (classify_task_quorum parent p tk Htk) as (-> & -> & ->). split; [|done].
  rewrite <- app_assoc. f_equal. unfold completions. cbn [List.filter].
  by destruct (is_success _).
Qed.

Lemma completions_length batch : zlen (completions batch) <= zlen batch.
Proof.
  unfold completions, zlen. rewrite length_map.
  pose proof (List.filter_length_le (fun t => is_success (result_of (fst t) (snd t))) batch). lia.
Qed.

(** The test at the end of a pass restores the invariant. *)
Lemma quorum_check_state done lost w :
  completed_branches (fst (wt_progress w)) = done ->
  (wt_triggered w = true -> t <= zlen done) ->
  events_of "quorum_reached" (fst (wt_progress w)) = (if wt_triggered w then 1%nat else 0%nat) ->
  events_of "quorum_impossible" (fst (wt_progress w)) = lost ->
  quorum_state done (lost + if (zlen done + zlen (wt_pending w) <? t)%Z then 1 else 0)%nat (quorum_check bd jd t w).
Proof.
  destruct w as [[r first] tr pend canc]. cbn [wt_progress wt_triggered wt_pending fst].
  intros Hd Htr Hre Him. unfold quorum_check. cbn [wt_progress wt_triggered wt_pending wt_cancels].
  rewrite Hd. destruct (Z.leb_spec t (zlen done)) as [Hm|Hm].
  - destruct (Z.ltb_spec (zlen done + zlen pend) t) as [Hp|_]; [unfold zlen in *; lia|].
    destruct tr; cbn [andb negb wt_progress wt_triggered wt_pending fst]; constructor;
      cbn [wt_progress wt_triggered wt_pending fst]; rewrite ?events_of_add; cbn [String.eqb Ascii.eqb Bool.eqb];
      try (destruct (Z.leb_spec t (zlen done)); [|lia]); rewrite ?Hre, ?Him, ?Nat.add_0_r; auto.
  - assert (tr = false) as -> by (destruct tr; [specialize (Htr eq_refl); lia | done]).
    cbn [andb negb wt_progress wt_triggered wt_pending fst].
    destruct (Z.ltb_spec (zlen done + zlen pend) t) as [Hp|Hp]; constructor;
      cbn [wt_progress wt_triggered wt_pending fst]; rewrite ?events_of_add; cbn [String.eqb Ascii.eqb Bool.eqb];
      try (destruct (Z.leb_spec t (zlen done)); [lia|]); rewrite ?Hre, ?Him, ?Nat.add_0_r; auto.
Qed.

Lemma quorum_batch_state parent done lost batch w :
  quorum_state done lost w -> Forall (fun tk => branch_ends bd parent (fst tk) (snd tk)) batch ->
  NoDup (map fst batch) -> (forall b, b ∈ map fst batch -> b ∈ wt_pending w) -> NoDup (wt_pending w) ->
  quorum_state (done ++ completions batch)
    (lost + if (zlen done + zlen (completions batch) + zlen (still_pending batch (wt_pending w)) <? t)%Z then 1 else 0)%nat
    (quorum_batch bd jd t w batch).
Proof.
  intros [H1 H2 H3 H4] Hall Hnd Hsub Hndp. unfold quorum_batch.
  set (w1 := mkWaiting _ _ _ _). destruct (quorum_fold bd batch w1) as (E1 & E2 & E3).
  destruct (classify_tasks_quorum parent batch (wt_progress w) Hall) as (C1 & C2 & C3).
  assert (Hdone : zlen (done ++ completions batch) = zlen done + zlen (completions batch)).
  { unfold zlen. rewrite length_app. lia. }
  rewrite <- Hdone. change (still_pending batch (wt_pending w)) with (wt_pending w1). rewrite <- E2.
  apply quorum_check_state; rewrite ?E1, ?E2, ?E3; cbn [wt_progress wt_triggered wt_pending w1].
  - by rewrite C1, H1.
  - rewrite H2, Hdone. intros ?%Z.leb_le. unfold zlen in *. lia.
  - by rewrite C2, H3, H2.
  - by rewrite C3.
Qed.

Lemma pending_after batch rest pend :
  map fst (batch : Batch) ++ concat (map (map fst) (rest : list Batch)) ≡ₚ pend -> NoDup pend ->
  concat (map (map fst) rest) ≡ₚ still_pending batch pend.
Proof.
  intros Hperm Hnd. assert (Hnp := Hnd). rewrite <- Hperm in Hnp.
  apply NoDup_app in Hnp as (N1 & N2 & N3). apply NoDup_Permutation; [done| |].
  - apply NoDup_ListNoDup, List.NoDup_filter. by apply NoDup_ListNoDup.
  - intros x. unfold still_pending. rewrite elem_of_set_diff, <- Hperm, elem_of_app.
    split; [|tauto]. intros Hx. split; [by right|]. intros Hx'. by apply (N2 x).
Qed.

Lemma wait_loop_quorum parent batches : forall done lost w w',
  quorum_state done lost w ->
  Forall (Forall (fun tk => branch_ends bd parent (fst tk) (snd tk))) batches ->
  concat (map (map fst) batches) ≡ₚ wt_pending w -> NoDup (wt_pending w) ->
  Forall (fun batch => batch <> []) batches ->
  wait_loop (quorum_batch bd jd t) batches w = Some w' ->
  quorum_state (done ++ completions (concat batches)) (lost + lost_passes (zlen done) batches)%nat w'.
Proof.
  induction batches as [|batch rest IH]; intros done lost w w' Hw Hall Hperm Hnd Hne Hrun;
    cbn [wait_loop concat] in *.
  - rewrite app_nil_r. unfold lost_passes. cbn. rewrite Nat.add_0_r. destruct (wt_pending w) eqn:E; [by injection Hrun as <-|discriminate].
  - apply Forall_cons in Hne as [Hne1 Hne]. apply Forall_cons in Hall as [Hb Hall]. cbn in Hperm.
    destruct (wt_pending w) as [|b pend] eqn:E.
    { apply Permutation_nil_r in Hperm. by destruct batch. }
    rewrite <- E in *. rewrite completions_app, app_assoc, lost_passes_cons, Nat.add_assoc.
    pose proof (pending_after batch rest (wt_pending w) Hperm Hnd) as Hrest.
    assert (Hleft : zlen (concat rest) = zlen (still_pending batch (wt_pending w))).
    { unfold zlen. rewrite <- Hrest, <- concat_map, length_map. done. }
    assert (Hnext : zlen done + zlen (completions batch) = zlen (done ++ completions batch))
      by (unfold zlen; rewrite length_app; lia).
    assert (Hp : wt_pending (quorum_batch bd jd t w batch) = still_pending batch (wt_pending w)).
    { unfold quorum_batch. destruct (quorum_check_progress bd jd t (fold_left (quorum_task bd) batch
        (mkWaiting (wt_progress w) (wt_triggered w) (still_pending batch (wt_pending w)) (wt_cancels w))))
        as (evs & _ & -> & _). by destruct (quorum_fold bd batch (mkWaiting (wt_progress w) (wt_triggered w)
        (still_pending batch (wt_pending w)) (wt_cancels w))) as (_ & -> & _). }
    rewrite Hnext. apply (IH _ _ (quorum_batch bd jd t w batch)); [|done| | |done|done].
    + rewrite <- Hnext, Hleft. apply (quorum_batch_state parent); try done.
      * rewrite <- Hperm in Hnd. by apply NoDup_app in Hnd as (? & _).
      * intros x Hx. rewrite <- Hperm. apply elem_of_app. by left.
    + by rewrite Hp.
    + rewrite Hp. unfold still_pending. apply NoDup_ListNoDup, List.NoDup_filter. by apply NoDup_ListNoDup.
Qed.

(** Once out of reach, it stays so: some pass is lost exactly when too few
    complete. *)
Lemma lost_passes_iff batches : forall before, batches <> [] ->
  lost_passes before batches <> 0%nat <-> before + zlen (completions (concat batches)) < t.
Proof.
  induction batches as [|batch rest IH]; intros before Hne; [done|]. rewrite lost_passes_cons.
  assert (Hc : zlen (completions (concat (batch :: rest))) = zlen (completions batch) + zlen (completions (concat rest))).
  { cbn [concat]. rewrite completions_app. unfold zlen. rewrite length_app. lia. }
  rewrite Hc. pose proof (completions_length (concat rest)) as Hl. destruct rest as [|b rest].
  - unfold lost_passes. cbn [length seq]. unfold count, zlen in *. cbn [List.filter concat length completions map] in *.
    destruct (Z.ltb_spec (before + Z.of_nat (length (completions batch)) + Z.of_nat 0) t); lia.
  - specialize (IH (before + zlen (completions batch)) ltac:(done)).
    destruct (Z.ltb_spec (before + zlen (completions batch) + zlen (concat (b :: rest))) t) as [Hlt|Hge]; [lia|].
    cbn [Nat.add]. rewrite IH. lia.
Qed.

(** The join adds events of its own kinds only. *)
Definition join_kinds : list string :=
  ["join_blocked"; "ignore_late_enforced"; "first_branch_selected"; "join_partial"; "join_ready";
   "join_completed"].

Definition join_adds (r r' : BranchExecutionReport) : Prop :=
  exists more, events r' = events r ++ more /\ Forall (fun e => ev_type e ∈ join_kinds) more.

Lemma join_adds_refl r r' : events r' = events r -> join_adds r r'.
Proof. intros E. exists []. by rewrite app_nil_r. Qed.

Lemma join_adds_event r0 r1 r2 e :
  join_adds r0 r1 -> events r2 = events r1 ++ [e] -> ev_type e ∈ join_kinds -> join_adds r0 r2.
Proof.
  intros (more & E & Hm) E2 He. exists (more ++ [e]). rewrite E2, E, app_assoc. split; [done|].
  apply Forall_app. split; [done|]. by apply Forall_singleton.
Qed.

Lemma join_adds_count r r' ty :
  join_adds r r' -> ty ∉ join_kinds -> events_of ty r' = events_of ty r.
Proof.
  intros (more & E & Hm) Hty. unfold events_of. rewrite E, count_app.
  assert (count (fun e => (ev_type e =? ty)%string) more = 0%nat) as ->; [|lia].
  apply count_zero. intros e He. rewrite Forall_forall in Hm. apply String.eqb_neq. intros <-.
  by apply Hty, Hm.
Qed.

Lemma join_semantics_adds selected j r r' : join_semantics j selected r = Ok r' -> join_adds r r'.
Proof.
  assert (K : forall k, mem k join_kinds = true -> k ∈ join_kinds) by (intros k; apply (proj1 (mem_true k join_kinds))).
  assert (B : forall reason more r0, join_adds r0 (block j reason more r0)).
  { intros reason more r0. eapply join_adds_event; [by apply join_adds_refl|reflexivity|by apply K]. }
  unfold join_semantics. intros H.
  destruct (block_all j r) as [x|] eqn:E1.
  { injection H as <-. unfold block_all in E1. case_match; [|done]. injection E1 as <-. apply B. }
  destruct (block_any j r) as [x|] eqn:E2.
  { injection H as <-. unfold block_any in E2. case_match; [|done]. injection E2 as <-. apply B. }
  inv_bind H. destruct a as [x|].
  { injection H as <-. unfold block_quorum in Ha. destruct j; [|done]. case_match; [|done].
    inv_bind Ha. case_match; [|done]. injection Ha as <-. apply B. }
  assert (Hi : join_adds r (ignore_late_overlay j r)).
  { unfold ignore_late_overlay. destruct (_ && _ && nonempty _); [|by apply join_adds_refl].
    eapply (join_adds_event r r); [by apply join_adds_refl|reflexivity|by apply K]. }
  destruct (block_first j _) as [x|] eqn:E3.
  { injection H as <-. unfold block_first in E3. case_match; [|done]. injection E3 as <-.
    eapply join_adds_event; [exact Hi|reflexivity|by apply K]. }
  injection H as <-.
  assert (Hs : join_adds r (select_first j (ignore_late_overlay j r))).
  { unfold select_first. case_match; [|done]. eapply join_adds_event; [exact Hi|reflexivity|by apply K]. }
  unfold finish_join. destruct (merge_branch_outputs _ _ _ _).
  eapply join_adds_event; [|reflexivity|by apply K].
  eapply join_adds_event; [exact Hs|reflexivity|]. case_match; by apply K.
Qed.
End Quorum.

Lemma join_semantics_merge jd selected r r' :
  wait_for jd = "quorum" -> join_semantics (Some jd) selected r = Ok r' ->
  first_merge_branches r' = first_merge_branches r.
Proof.
  intros Hw. unfold join_semantics, block_all, block_any, block_first, ignore_late_overlay, select_first.
  cbn [the_wait_for]. rewrite Hw. cbn -[block_quorum finish_join].
  intros H. inv_bind H. destruct a as [x|].
  - injection H as <-. unfold block_quorum in Ha. rewrite Hw in Ha. cbn in Ha. inv_bind Ha.
    case_match; [|done]. by injection Ha as <-.
  - rewrite andb_false_r in H. cbn -[finish_join] in H. injection H as <-.
    unfold finish_join. by destruct (merge_branch_outputs _ _ _ _).
Qed.

(** What the end of the loop makes of it. *)
Lemma quorum_end_spec jd t done w r0 first :
  completed_branches (fst (wt_progress w)) = done -> wt_triggered w = (t <=? zlen done) -> 0 < t ->
  quorum_end jd t w = (r0, first) ->
  events r0 = events (fst (wt_progress w)) /\
  (t <= zlen done -> first_merge_branches r0 = Some (take (Z.to_nat t) done)) /\
  zlen (completed_branches r0) = if (t <=? zlen done) && (after_quorum jd =? "ignore_late")%string then t else zlen done.
Proof.
  destruct w as [[rw fw] tr pend canc]. unfold quorum_end. cbn [wt_progress wt_triggered fst].
  intros <- -> Ht. destruct (Z.leb_spec t (zlen (completed_branches rw))) as [Hm|Hm]; cbn [negb andb].
  - unfold slice_to. destruct (Z.ltb_spec t 0); [lia|].
    destruct (_ =? _)%string; intros [= <- <-]; cbn; split_and!; try done.
    unfold zlen in *. rewrite length_take. lia.
  - intros [= <- <-]. split_and!; [done|lia|done].
Qed.

Section QuorumGuarantee.
Context (bd : BranchDef) (jd : JoinDef) (policy : string).
Context (parent : pyctx) (selected : list string) (sch : Schedule) (t : Z).

Lemma prepared_events ty :
  ty ∉ ["routing_decision"; "branch_skipped"; "branch_started"] ->
  events_of ty (prepared bd (Some jd) policy selected) = 0%nat.
Proof.
  intros Hty. unfold prepared.
  assert (Hs : forall l r, events_of ty (fold_left (start_branch bd) l r) = events_of ty r).
  { induction l as [|b l IH]; intros r; cbn [fold_left]; [done|]. rewrite IH. unfold start_branch.
    rewrite events_of_add. destruct (String.eqb_spec "branch_started" ty) as [<-|]; [set_solver|lia]. }
  assert (Hk : forall l r, events_of ty (fold_left (skip_branch bd) l r) = events_of ty r).
  { induction l as [|b l IH]; intros r; cbn [fold_left]; [done|]. rewrite IH. unfold skip_branch.
    rewrite events_of_add. destruct (String.eqb_spec "branch_skipped" ty) as [<-|]; [set_solver|].
    rewrite Nat.add_0_r. done. }
  rewrite Hs, Hk, events_of_add.
  destruct (String.eqb_spec "routing_decision" ty) as [<-|]; [set_solver|done].
Qed.

Context (Hnames : NoDup (all_branch_names bd)).
Context (Hsch : admissible bd parent (selected_to_run bd selected) sch).

(** C32: a quorum join counts what really completed.  The quorum is announced
    once when at least [t] of the branches that ran complete and not otherwise,
    whatever the order and grouping of completions; then the first [t] of them
    are merged.  That it has become impossible is announced after every pass
    at which the completed branches and those still running are fewer than
    [t], hence at all exactly when fewer than [t] complete.  And the join is
    blocked exactly when fewer branches count as completed than the threshold
    the join itself computes, over all the selected names: all that completed
    count or, when late ones are ignored, the first [t]. *)
Theorem quorum_outcome r :
  wait_for jd = "quorum" -> on_first policy = false -> selected_to_run bd selected <> [] ->
  compute_quorum_threshold jd (selected_to_run bd selected) = Ok t -> 0 < t ->
  execute bd (Some jd) policy selected sch = Ok (Some r) ->
  let done := completions (concat (sch_batches sch)) in
  let counted := if (t <=? zlen done) && (after_quorum jd =? "ignore_late")%string then t else zlen done in
  events_of "quorum_reached" r = (if t <=? zlen done then 1%nat else 0%nat) /\
  (t <= zlen done -> merge_branches r = take (Z.to_nat t) done) /\
  events_of "quorum_impossible" r = lost_passes t 0 (sch_batches sch) /\
  (events_of "quorum_impossible" r <> 0%nat <-> zlen done < t) /\
  (forall t', compute_quorum_threshold jd selected = Ok t' -> (blocked r = true <-> counted < t')).
Proof.
  intros Hw Hof Hrun Hth Ht Hex done counted.
  assert (Hex0 := Hex). unfold execute in Hex. inv_bind Hex.
  unfold run_selected in Ha. destruct (selected_to_run bd selected) as [|b0 l0] eqn:Esel in Ha; [done|].
  rewrite <- Esel in Ha. rewrite Hof, Hw in Ha. cbn in Ha. rewrite Hth in Ha. cbn in Ha.
  destruct (wait_loop _ _ _) as [w|] eqn:Ew; injection Ha as <-; [|discriminate]. cbn in Hex.
  destruct (wait_loop_quorum bd jd t parent (sch_batches sch) [] 0
    (start_waiting (selected_to_run bd selected) (prepared bd (Some jd) policy selected, None)) w)
    as [Q1 Q2 Q3 Q4]; try apply Hsch; try done.
  { destruct (prepared_classified bd (Some jd) policy selected) as (_ & _ & Hc).
    assert (Hz : (t <=? zlen (@nil string)) = false) by (apply Z.leb_gt; exact Ht).
    constructor; cbn [start_waiting wt_progress fst wt_triggered wt_pending]; rewrite ?Hz; try done;
      apply prepared_events; set_solver. }
  { apply NoDup_ListNoDup, List.NoDup_filter. by apply NoDup_ListNoDup. }
  cbn [app] in Q1, Q2, Q3, Q4. fold done in Q1, Q2, Q3. change (zlen (@nil string)) with 0 in Q4. rewrite Nat.add_0_l in Q4.
  destruct (quorum_end jd t w) as [r0 first] eqn:Eend. cbn in Hex.
  destruct (join_semantics _ _ _) as [r'|] eqn:Ej; [|discriminate]. injection Hex as ->.
  destruct (quorum_end_spec jd t done w r0 first Q1 Q2 Ht Eend) as (E1 & E2 & E3). fold counted in E3.
  assert (Hcount : forall ty, ty ∉ join_kinds -> events_of ty r = events_of ty (fst (wt_progress w))).
  { intros ty Hty. rewrite (join_adds_count _ _ ty (join_semantics_adds _ _ _ _ Ej) Hty).
    unfold events_of. cbn [events set_first]. by rewrite E1. }
  assert (Himp : events_of "quorum_impossible" r = lost_passes t 0 (sch_batches sch)).
  { rewrite Hcount; [done|unfold join_kinds; set_solver]. }
  split_and!; [| |exact Himp| |].
  - rewrite Hcount; [done|unfold join_kinds; set_solver].
  - intros Hm. unfold merge_branches. rewrite (join_semantics_merge _ _ _ _ Hw Ej). cbn.
    by rewrite E2.
  - rewrite Himp. apply lost_passes_iff. intros E. destruct Hsch as [_ _ Hall _]. rewrite E, Esel in Hall. by apply Permutation_nil_cons in Hall.
  - intros t' Hsel. destruct (join_decided bd (Some jd) policy parent selected sch Hnames Hsch r Hex0) as [-> _].
    destruct (join_semantics_cases _ _ _ _ Ej) as [(Hl & _) _]. unfold should_block. rewrite Hl.
    cbn [the_wait_for completed_branches set_first]. rewrite Hw, <- E3. split.
    + intros [[? _]|[[? _]|[(jd' & t2 & [= <-] & _ & Ht' & Hlt)|[? _]]]]; try discriminate.
      rewrite Hsel in Ht'. by injection Ht' as <-.
    + intros Hlt. right; right; left. by exists jd, t'.
Qed.
End QuorumGuarantee.

(** ** The merge strategies against a reference *)

Section Merge.
Context (outs : dict pyctx).

(** The values that branch [b] gives to field [f], in the order of its nodes. *)
Definition given_by (f b : string) : Entries :=
  concat (map (fun nv => match snd nv with
                         | VDict o => map (fun kv => (b, snd kv))
                                        (List.filter (fun kv => (fst kv =? f)%string) o)
                         | _ => []
                         end) (items_of "outputs" (dget_or b [] outs))).

(** The values of a field over the merged branches, in their order. *)
Definition field_entries (f : string) (names : list string) : Entries :=
  concat (map (given_by f) names).

Definition entries_at (f : string) (acc : dict Entries) : Entries := dget_or f [] acc.

Definition good_entries (acc : dict Entries) : Prop :=
  NoDup (dkeys acc) /\ forall f es, dget f acc = Some es -> es <> [].

Lemma add_field_at f b kv acc :
  entries_at f (add_field b acc kv) =
  entries_at f acc ++ (if (fst kv =? f)%string then [(b, snd kv)] else []).
Proof.
  unfold entries_at, add_field, dget_or. destruct (String.eqb_spec (fst kv) f) as [<-|Hne].
  - by rewrite dget_dset_same.
  - rewrite dget_dset_other, app_nil_r; [done|congruence].
Qed.

Lemma add_field_good b kv acc : good_entries acc -> good_entries (add_field b acc kv).
Proof.
  intros [H1 H2]. split; [by apply dset_NoDup|]. intros f es. unfold add_field.
  destruct (decide (f = fst kv)) as [->|Hne].
  - rewrite dget_dset_same. intros [= <-]. by destruct (dget_or _ _ _).
  - rewrite dget_dset_other by done. apply H2.
Qed.

Lemma add_fields_at f b o : forall acc,
  entries_at f (fold_left (add_field b) o acc) =
    entries_at f acc ++ map (fun kv => (b, snd kv)) (List.filter (fun kv => (fst kv =? f)%string) o) /\
  (good_entries acc -> good_entries (fold_left (add_field b) o acc)).
Proof.
  induction o as [|kv o IH]; intros acc; cbn [fold_left List.filter map]; [by rewrite app_nil_r|].
  destruct (IH (add_field b acc kv)) as [-> Hg]. rewrite add_field_at, <- app_assoc.
  split; [|by intros ?; apply Hg, add_field_good].
  by destruct (String.eqb (fst kv) f).
Qed.

Lemma add_branch_at f b acc :
  entries_at f (add_branch_fields outs acc b) = entries_at f acc ++ given_by f b /\
  (good_entries acc -> good_entries (add_branch_fields outs acc b)).
Proof.
  unfold add_branch_fields, given_by. generalize (items_of "outputs" (dget_or b [] outs)).
  intros l. revert acc. induction l as [|[n v] l IH]; intros acc; cbn [fold_left map concat];
    [by rewrite app_nil_r|].
  destruct (IH (add_node_fields b acc (n, v))) as [-> Hg]. unfold add_node_fields in *. cbn [snd] in *.
  destruct v; try (by rewrite app_nil_l).
  destruct (add_fields_at f b d acc) as [-> Hd]. rewrite <- app_assoc. split; [done|]. auto.
Qed.

Lemma collect_at f names : forall acc,
  entries_at f (fold_left (add_branch_fields outs) names acc) =
    entries_at f acc ++ field_entries f names /\
  (good_entries acc -> good_entries (fold_left (add_branch_fields outs) names acc)).
Proof.
  induction names as [|b names IH]; intros acc; cbn [fold_left]; [by rewrite app_nil_r|].
  destruct (IH (add_branch_fields outs acc b)) as [-> Hg].
  destruct (add_branch_at f b acc) as [-> Hd]. split; [by rewrite <- app_assoc|]. auto.
Qed.

Lemma collect_outputs_spec f names :
  dget f (collect_outputs outs names) =
    (match field_entries f names with [] => None | es => Some es end) /\
  NoDup (dkeys (collect_outputs outs names)).
Proof.
  destruct (collect_at f names []) as [He Hg]. cbn [app] in He.
  destruct Hg as [Hnd Hne]; [split; [constructor | done]|].
  fold (collect_outputs outs names) in *. split; [|done].
  change (entries_at f (@nil (string * Entries))) with (@nil (string * pyval)) in He. cbn [app] in He.
  rewrite <- He. unfold entries_at, dget_or.
  destruct (dget f (collect_outputs outs names)) as [es|] eqn:E; [|done].
  apply Hne in E. by destruct es.
Qed.

Lemma dget_map {A B} (g : string -> A -> B) f (d : dict A) :
  dget f (map (fun '(k, v) => (k, g k v)) d) = option_map (g f) (dget f d).
Proof.
  induction d as [|[k v] d IH]; cbn; [done|].
  destruct (String.eqb_spec f k) as [->|]; [done|apply IH].
Qed.

Lemma merge_fields_value strategy field f names :
  dget f (fst (merge_fields strategy field outs names)) =
  match field_entries f names with [] => None | es => Some (fst (fst (field f es))) end.
Proof.
  unfold merge_fields. cbn [fst]. rewrite map_map.
  rewrite (map_ext _ (fun '(k, es) => (k, fst (fst (field k es))))).
  2: { intros [k es]. by destruct (field k es) as [[v n] c]. }
  rewrite (dget_map (fun k es => fst (fst (field k es)))).
  destruct (collect_outputs_spec f names) as [-> _]. by destruct (field_entries f names).
Qed.

(** What a merged field should hold: the concatenation, when every branch
    gives a list, else the value given first. *)
Definition reference_value (es : Entries) : option pyval :=
  match es with
  | [] => None
  | (_, v) :: _ =>
      match all_as as_list es with Some ls => Some (VList (concat ls)) | None => Some v end
  end.

(** Some branch disagrees with the first. *)
Definition disagree (es : Entries) : Prop :=
  all_as as_list es = None /\
  exists b v rest e, es = (b, v) :: rest /\ e ∈ rest /\ py_eq (snd e) v = false.

Definition conflicts_of (meta : pyctx) : list pyval :=
  match dget "conflicts" meta with Some (VList l) => l | _ => [] end.

Lemma merge_conflict_field f es c :
  snd (merge_field f es) = Some c -> dget "field" c = Some (VStr f).
Proof.
  unfold merge_field. destruct es as [|[b v] [|e rest]]; [done|done|].
  destruct (all_as as_list _); [done|]. cbn [snd]. unfold scalar_conflict.
  destruct (List.find _ _) as [[b' v']|]; [|done]. by intros [= <-].
Qed.

Lemma elem_dget {V} k (v : V) (d : dict V) : NoDup (dkeys d) -> (k, v) ∈ d -> dget k d = Some v.
Proof.
  induction d as [|[k' v'] d IH]; [by intros _ ?%elem_of_nil|]. cbn.
  intros [Hk Hnd]%NoDup_cons [[= <- <-]|Hin]%elem_of_cons; [by rewrite String.eqb_refl|].
  destruct (String.eqb_spec k k') as [->|]; [|by apply IH].
  exfalso. apply Hk. apply list_elem_of_In, in_map_iff. exists (k', v). split; [done|].
  by apply list_elem_of_In.
Qed.

(** The merge strategy, computed field by field over dictionaries built
    incrementally, gives each field its reference value - the concatenation of
    lists, else the value of the first branch that has the field - and
    reports a conflict for a field exactly when a later value differs from
    the one taken. *)
Theorem merge_dict_reference f names :
  dget f (fst (merge_dict outs names)) = reference_value (field_entries f names) /\
  ((exists c, VDict c ∈ conflicts_of (snd (merge_dict outs names)) /\
              dget "field" c = Some (VStr f)) <->
   disagree (field_entries f names)).
Proof.
  unfold merge_dict. split.
  - rewrite merge_fields_value. unfold reference_value, merge_field.
    destruct (field_entries f names) as [|[b v] [|e rest]]; [done| |].
    + destruct v; try done. cbn. by rewrite app_nil_r.
    + by destruct (all_as as_list _).
  - destruct (collect_outputs_spec f names) as [Hf Hnd].
    assert (Hc : forall k (es : Entries), is_Some (snd (merge_field k es)) <-> disagree es).
    { intros k es. unfold merge_field, disagree. destruct es as [|[b v] [|e rest]].
      - cbn. split; [by intros [? ?]|by intros [? _]].
      - cbn. split; [by intros [? ?]|]. intros (_ & b' & v' & rest' & e' & [= <- <- <-] & He & _).
        by apply elem_of_nil in He.
      - destruct (all_as as_list _) as [ls|]; cbn [snd].
        { split; [by intros [? ?]|by intros [? _]]. }
        unfold scalar_conflict. split.
        + intros Hs. split; [done|]. destruct (List.find _ _) as [[b' v']|] eqn:E; [|by destruct Hs].
          apply find_some_elem in E as [E1 E2]. bool_prop. naive_solver.
        + intros (_ & b' & v' & rest' & e' & [= <- <- <-] & He & Hv).
          destruct (List.find _ _) as [[b' v']|] eqn:E; [done|].
          apply list_elem_of_In in He. pose proof (List.find_none _ _ E e' He) as Hn. cbn in Hn.
          by rewrite Hv in Hn. }
    unfold conflicts_of, merge_fields. cbn [snd dget String.eqb Ascii.eqb Bool.eqb].
    split.
    + intros (c & Hin & Hfc). apply list_elem_of_omap in Hin as ([k [[v n] c']] & Hin & Hk).
      apply list_elem_of_In, in_map_iff in Hin as ([k' es] & Heq & Hin). injection Heq as -> Hm.
      destruct c' as [c'|]; [|done]. injection Hk as ->.
      assert (Hkf : k = f).
      { pose proof (merge_conflict_field k es c) as Hcf. rewrite Hm in Hcf. cbn in Hcf.
        specialize (Hcf eq_refl). congruence. }
      subst k. apply list_elem_of_In, elem_dget in Hin; [|done].
      assert (field_entries f names = es) as ->.
      { rewrite Hf in Hin. destruct (field_entries f names); congruence. }
      apply (Hc f es). by rewrite Hm.
    + intros Hd. pose proof Hd as Hd'. apply (Hc f) in Hd' as [c Hcc]. exists c.
      assert (Hin : dget f (collect_outputs outs names) = Some (field_entries f names)).
      { rewrite Hf. destruct (field_entries f names); [|done].
        by destruct Hd as (_ & b & v & rest & e & [=] & _). }
      split.
      * apply list_elem_of_omap. exists (f, merge_field f (field_entries f names)). split.
        { apply dget_In in Hin. apply list_elem_of_In, in_map_iff.
          exists (f, field_entries f names). split; [done|]. by apply list_elem_of_In. }
        destruct (merge_field f (field_entries f names)) as [[v n] c']. cbn in *. by rewrite Hcc.
      * by apply (merge_conflict_field f (field_entries f names)).
Qed.
End Merge.

(** ** The branch states of the run *)

Section States.
Context (j : option JoinDef).

(** The rule under which completed branches after the first are ignored. *)
Definition late_rule (policy : string) : bool :=
  (the_wait_for j =? "first")%string
  || ((the_wait_for j =? "any")%string && (policy =? CANCEL_IGNORE_LATE)%string).

Definition state_after (l : list string) (b : string) (states : dict string) : option string :=
  if mem b l && dmem b states then Some "ignored_late" else dget b states.

Lemma mark_ignored_get l : forall st b, dget b (fold_left mark_ignored l st) = state_after l b st.
Proof.
  unfold state_after. induction l as [|x l IH]; intros st b; cbn [fold_left]; [done|]. rewrite IH.
  assert (Hm : dmem b (mark_ignored st x) = dmem b st).
  { unfold mark_ignored. destruct (dmem x st) eqn:Ex; [|done]. unfold dmem in *.
    destruct (decide (b = x)) as [->|]; [|by rewrite dget_dset_other].
    rewrite dget_dset_same. by destruct (dget x st). }
  rewrite Hm. cbn [mem existsb]. destruct (mem b l) eqn:El; cbn [andb orb].
  { unfold mem in El. rewrite El, orb_true_r. cbn. destruct (dmem b st) eqn:Eb; [done|].
    unfold mark_ignored. destruct (dmem x st) eqn:Ex; [|done].
    rewrite dget_dset_other; [done|]. intros ->. congruence. }
  unfold mem in El. rewrite El, orb_false_r. unfold mark_ignored.
  destruct (String.eqb_spec b x) as [->|Hne]; cbn [andb].
  - destruct (dmem x st) eqn:Ex; [by rewrite dget_dset_same|done].
  - destruct (dmem x st); [by rewrite dget_dset_other|done].
Qed.

Lemma omap_strs l : omap as_str (map VStr l) = l.
Proof. induction l as [|x l IH]; cbn; [done | by rewrite IH]. Qed.

Lemma apply_snoc evs e st : apply_events (evs ++ [e]) st = apply_event (apply_events evs st) e.
Proof. by rewrite apply_events_app. Qed.

Lemma block_states reason more r st :
  apply_events (events (block j reason more r)) st = apply_events (events r) st.
Proof. unfold block. cbn [events add_event set_blocked]. by rewrite apply_snoc. Qed.

Lemma finish_join_states selected r st :
  apply_events (events (finish_join j selected r)) st = apply_events (events r) st.
Proof.
  unfold finish_join. destruct (merge_branch_outputs _ _ _ _). cbn [events add_event set_join].
  rewrite !apply_snoc. by destruct (_ && _).
Qed.

Definition overlay_on (r : BranchExecutionReport) : bool :=
  (cancellation_policy r =? CANCEL_IGNORE_LATE)%string && mem (the_wait_for j) ["any"; "first"]
  && nonempty (completed_branches r).

Lemma ignore_late_states r st b :
  dget b (apply_events (events (ignore_late_overlay j r)) st) =
  if overlay_on r then state_after (late_branches r) b (apply_events (events r) st)
  else dget b (apply_events (events r) st).
Proof.
  unfold ignore_late_overlay, overlay_on. destruct (_ && _ && nonempty _); [|done].
  cbn [events add_event set_merge_branches add_ignored set_lists]. rewrite apply_snoc.
  unfold apply_event. cbn -[omap mark_ignored]. rewrite omap_strs. apply mark_ignored_get.
Qed.

Lemma select_first_states r st b :
  dget b (apply_events (events (select_first j r)) st) =
  if (the_wait_for j =? "first")%string
  then state_after (late_branches r) b (apply_events (events r) st)
  else dget b (apply_events (events r) st).
Proof.
  unfold select_first. destruct (the_wait_for j =? "first")%string; [|done].
  cbn [events add_event set_merge_branches add_ignored set_lists]. rewrite apply_snoc.
  unfold apply_event. cbn -[omap mark_ignored]. rewrite omap_strs. apply mark_ignored_get.
Qed.

Lemma late_branches_nil r : completed_branches r = [] -> late_branches r = [].
Proof. unfold late_branches. by intros ->. Qed.

Lemma state_after_nil b st : state_after [] b st = dget b st.
Proof. done. Qed.

Lemma state_after_twice l b (st st' : dict string) :
  (forall x, dget x st' = state_after l x st) -> state_after l b st' = state_after l b st.
Proof.
  intros H. unfold state_after at 1, dmem. rewrite H. unfold state_after, dmem.
  destruct (mem b l); cbn [andb]; [|done]. by destruct (dget b st).
Qed.

Lemma join_semantics_states selected r r' st b :
  join_semantics j selected r = Ok r' ->
  dget b (apply_events (events r') st) =
  if late_rule (cancellation_policy r)
  then state_after (late_branches r) b (apply_events (events r) st)
  else dget b (apply_events (events r) st).
Proof.
  assert (Hskip : the_wait_for j <> "first" -> the_wait_for j <> "any" ->
                  late_rule (cancellation_policy r) = false).
  { intros H1 H2. unfold late_rule. apply String.eqb_neq in H1 as ->. by apply String.eqb_neq in H2 as ->. }
  unfold join_semantics. intros H.
  destruct (block_all j r) as [x|] eqn:Eall.
  { injection H as ->. unfold block_all in Eall. destruct (_ && _) eqn:E in Eall; [|discriminate].
    injection Eall as <-. bool_prop. rewrite block_states, Hskip; [done|congruence..]. }
  destruct (block_any j r) as [x|] eqn:Eany.
  { injection H as ->. unfold block_any in Eany. destruct (_ && _) eqn:E in Eany; [|discriminate].
    injection Eany as <-. bool_prop. rewrite nonempty_false in *.
    rewrite block_states, late_branches_nil, state_after_nil by done. by case_match. }
  inv_bind H. destruct a as [x|].
  { injection H as ->. unfold block_quorum in Ha. destruct j as [jd|]; [|discriminate].
    destruct (String.eqb_spec (wait_for jd) "quorum") as [Hq|]; [|discriminate]. inv_bind Ha.
    destruct (_ <? _); [|discriminate]. injection Ha as <-.
    assert (late_rule (cancellation_policy r) = false) as ->.
    { apply Hskip; cbn [the_wait_for]; rewrite Hq; discriminate. }
    unfold block. cbn [events add_event set_blocked]. by rewrite apply_snoc. }
  destruct (block_first j (ignore_late_overlay j r)) as [x|] eqn:Ef.
  { injection H as ->. unfold block_first in Ef. destruct (_ && _) eqn:E in Ef; [|discriminate].
    injection Ef as <-. bool_prop. rewrite nonempty_false in *.
    destruct (ignore_late_lists j r) as (Hc & _). rewrite Hc in *.
    rewrite block_states, ignore_late_states, late_branches_nil, state_after_nil by done.
    by repeat case_match. }
  injection H as <-. rewrite finish_join_states, select_first_states.
  assert (Hlate : late_branches (ignore_late_overlay j r) = late_branches r).
  { destruct (ignore_late_lists j r) as (Hc & _ & _ & _ & _ & Hf). unfold late_branches.
    by rewrite Hc, Hf. }
  rewrite Hlate. unfold late_rule.
  destruct (String.eqb_spec (the_wait_for j) "first") as [Ew|Ew]; cbn [orb].
  - destruct (overlay_on r) eqn:Eo.
    + apply state_after_twice. intros x. by rewrite ignore_late_states, Eo.
    + unfold state_after, dmem. rewrite !ignore_late_states, Eo. done.
  - rewrite ignore_late_states. unfold overlay_on. cbn [mem existsb].
    apply String.eqb_neq in Ew as ->. cbn [orb]. rewrite ?orb_false_r.
    destruct (the_wait_for j =? "any")%string; [|by rewrite andb_false_r].
    destruct (String.eqb_spec (cancellation_policy r) CANCEL_IGNORE_LATE); cbn [andb]; [|done].
    destruct (completed_branches r) eqn:Ec; cbn [nonempty]; [|done].
    by rewrite late_branches_nil, state_after_nil.
Qed.
End States.

(** after an execution the branch states of the run, whatever they were
    before, name the class of each branch: completed branches are [completed],
    or [ignored_late] when a first-branch rule passed them over, failed and
    cancelled branches are marked so, and branches that were not selected keep
    the state they had. *)
Theorem branch_states_truthful bd j policy parent selected sch r st b :
  NoDup (all_branch_names bd) -> admissible bd parent (selected_to_run bd selected) sch ->
  execute bd j policy selected sch = Ok (Some r) ->
  let st' := apply_events (events r) st in
  (b ∈ completed_branches r ->
   dget b st' = Some (if late_rule j policy && negb (bool_decide (first_completed_branch r = Some b))
                      then "ignored_late" else "completed")) /\
  (b ∈ failed_branches r -> dget b st' = Some "failed") /\
  (b ∈ cancelled_branches r -> dget b st' = Some "cancelled") /\
  (b ∈ skipped_branches r -> dget b st' = dget b st).
Proof.
  intros Hnames Hsch. unfold execute. intros H. inv_bind H. destruct a as [[r0 first]|]; [|discriminate].
  destruct (run_selected_ran _ _ _ _ _ _ Hnames Hsch _ Ha) as [done [H1 H2 _ _ _ [_ H6] H7]].
  destruct (join_semantics j selected (set_first first r0)) as [r'|] eqn:Ej; [|discriminate].
  injection H as <-. cbn -[apply_events] in *.
  destruct (join_semantics_cases _ _ _ _ Ej) as [(Hc & Hf & Hk & Hs & _ & Hfirst) _].
  rewrite (join_semantics_states _ _ _ _ st b Ej). rewrite Hc, Hf, Hk, Hs, Hfirst.
  cbn -[apply_events late_branches] in *. rewrite H6. destruct (H7 st b) as (A & B & C & D).
  assert (Hsub : forall x, x ∈ completed_branches r0 -> x ∈ done).
  { intros x. destruct H1 as [-> | [t ->]]; [done|]. unfold slice_to. intros Hx.
    apply elem_of_take in Hx as (i & Hi & _). by apply list_elem_of_lookup_2 in Hi. }
  assert (Hlate : reflect (b ∈ completed_branches r0 /\ first <> Some b)
                    (mem b (late_branches (set_first first r0)))).
  { apply iff_reflect. rewrite mem_true. unfold late_branches. rewrite elem_of_lfilter. cbn.
    rewrite negb_true_iff, bool_decide_eq_false. tauto. }
  assert (Hnd : NoDup (done ++ failed_branches r0 ++ cancelled_branches r0 ++ skipped_branches r0))
    by (by rewrite H2).
  rewrite !NoDup_app in Hnd.
  assert (Hother : b ∉ completed_branches r0 ->
            (if late_rule j policy
             then state_after (late_branches (set_first first r0)) b (apply_events (events r0) st)
             else dget b (apply_events (events r0) st)) = dget b (apply_events (events r0) st)).
  { intros Hb. unfold state_after. destruct Hlate as [[? _]|_]; [done|by case_match]. }
  split_and!.
  - intros Hb. specialize (A (Hsub _ Hb)). unfold state_after, dmem. rewrite A, andb_true_r.
    destruct (late_rule j policy); cbn [andb]; [|done].
    destruct Hlate as [[_ Hne]|Hn]; [by rewrite bool_decide_eq_false_2|].
    destruct (decide (first = Some b)) as [->|]; [by rewrite bool_decide_eq_true_2|]. tauto.
  - intros Hb. rewrite Hother; [by apply B|]. intros Hb'%Hsub. set_solver.
  - intros Hb. rewrite Hother; [by apply C|]. intros Hb'%Hsub. set_solver.
  - intros Hb. rewrite Hother; [by apply D|]. intros Hb'%Hsub. set_solver.
Qed.

(** ** Concrete fan-outs *)

Definition demo_bd : BranchDef :=
  mkBranch "b" "router" [("bio", ["b1"; "b2"]); ("tech", ["t1"]); ("law", ["l1"])] None.
Definition demo_parent : pyctx := [("query", VStr "q")].

(** Every node answers with its name; node [t1] fails. *)
Definition demo_ask (i : nat) (n : string) (payload : pyctx) : node_answer :=
  if (n =? "t1")%string then Answered (mkNodeResult n false None (Some "down"))
  else Answered (mkNodeResult n true (Some [("found", VList [VStr n]); ("by", VStr n)]) None).

Definition demo_run (b : string) (t1 : Z) : task_outcome :=
  TaskReturned (run_branch b fzero (fround_int t1) demo_ask (nodes_of demo_bd b) demo_parent).

Definition demo_join (wait strategy after : string) (quorum : option Z) : JoinDef :=
  mkJoin "j" "merge_node" ["bio"; "tech"; "law"] wait strategy quorum None after.

Definition demo_selected : list string := ["bio"; "tech"; "law"].

(** The law branch finishes first, then the failing one, then bio. *)
Definition demo_schedule : Schedule :=
  mkSchedule [demo_run "bio" 9; demo_run "tech" 2; demo_run "law" 1]
    [[("law", demo_run "law" 1)]; [("tech", demo_run "tech" 2)]; [("bio", demo_run "bio" 9)]].

Lemma demo_names : NoDup (all_branch_names demo_bd).
Proof. apply (bool_decide_unpack _). vm_compute. exact I. Defined.

Lemma demo_admissible :
  admissible demo_bd demo_parent (selected_to_run demo_bd demo_selected) demo_schedule.
Proof.
  constructor.
  - repeat constructor.
  - repeat constructor.
  - apply (bool_decide_unpack _). vm_compute. exact I.
  - repeat constructor; discriminate.
Defined.

Definition demo_execute (wait policy after : string) (quorum : option Z)
  : option BranchExecutionReport :=
  match execute demo_bd (Some (demo_join wait "merge" after quorum)) policy demo_selected demo_schedule with
  | Ok r => r
  | Err _ => None
  end.

Definition view (r : option BranchExecutionReport) :=
  option_map (fun r => (completed_branches r, failed_branches r, ignored_branches r,
                        first_completed_branch r, blocked r, merge_branches r)) r.

(** Under [first] the branch that the blueprint lists first is taken, whichever
    completed first. *)
Example first_prefers_declaration :
  view (demo_execute "first" "allow_all" "cancel" None) =
  Some (["bio"; "law"], ["tech"], ["law"], Some "bio", false, ["bio"]).
Proof. vm_compute. reflexivity. Qed.

(** A quorum of one that ignores late branches lists its own winner as
    ignored. *)
Example quorum_ignores_winner :
  view (demo_execute "quorum" "allow_all" "ignore_late" (Some 1)) =
  Some (["law"], ["tech"], ["law"; "bio"], Some "law", false, ["law"]).
Proof. vm_compute. reflexivity. Qed.

(** Ignoring late branches twice lists them twice. *)
Example first_and_ignore_late :
  view (demo_execute "first" "ignore_late" "cancel" None) =
  Some (["bio"; "law"], ["tech"], ["law"; "law"], Some "bio", false, ["bio"]).
Proof. vm_compute. reflexivity. Qed.

Definition the_report (r : option BranchExecutionReport) : BranchExecutionReport :=
  default (new_report None "" []) r.

Lemma branches_partitioned_witness :
  exists done,
    let r := the_report (demo_execute "any" "allow_all" "cancel" None) in
    done ++ failed_branches r ++ cancelled_branches r ++ skipped_branches r
      ≡ₚ all_branch_names demo_bd.
Proof.
  destruct (branches_partitioned demo_bd (Some (demo_join "any" "merge" "cancel" None)) "allow_all"
    demo_parent demo_selected demo_schedule demo_names demo_admissible
    (the_report (demo_execute "any" "allow_all" "cancel" None)) ltac:(vm_compute; reflexivity))
    as (done & H & _).
  exists done. exact H.
Defined.

Lemma join_decided_witness :
  blocked (the_report (demo_execute "all" "allow_all" "cancel" None)) = true.
Proof.
  apply (proj1 (join_decided demo_bd (Some (demo_join "all" "merge" "cancel" None)) "allow_all"
    demo_parent demo_selected demo_schedule demo_names demo_admissible
    (the_report (demo_execute "all" "allow_all" "cancel" None)) ltac:(vm_compute; reflexivity))).
  left. split; [reflexivity | vm_compute; discriminate].
Defined.

Lemma quorum_outcome_witness :
  merge_branches (the_report (demo_execute "quorum" "allow_all" "cancel" (Some 2))) = ["law"; "bio"].
Proof.
  destruct (quorum_outcome demo_bd (demo_join "quorum" "merge" "cancel" (Some 2)) "allow_all"
    demo_parent demo_selected demo_schedule 2 demo_names demo_admissible
    (the_report (demo_execute "quorum" "allow_all" "cancel" (Some 2)))) as (_ & H & _);
    [reflexivity|reflexivity|discriminate|reflexivity|reflexivity|vm_compute; reflexivity|].
  apply H. vm_compute. discriminate.
Defined.

Lemma branch_states_truthful_witness :
  dget "law" (apply_events (events (the_report (demo_execute "first" "allow_all" "cancel" None))) []) =
  Some "ignored_late".
Proof.
  apply (branch_states_truthful demo_bd (Some (demo_join "first" "merge" "cancel" None)) "allow_all"
    demo_parent demo_selected demo_schedule
    (the_report (demo_execute "first" "allow_all" "cancel" None)) [] "law" demo_names demo_admissible
    ltac:(vm_compute; reflexivity)).
  apply (bool_decide_unpack _). vm_compute. exact I.
Defined.
