(* ===== verification/BranchRun.v ===== *)
(** * Branches in a run

    [Orchestrator._execute_branches] of [runtime/orchestrator.py]: the group
    of branch states is committed, the branch executor runs, and its report is
    translated into the state of the run and into trace events.  The commits
    of the branch nodes (which mark their branch as running) are the
    environment's; the node executor itself invokes nodes and is represented
    by its answers in BranchExecutor. *)
From S2P Require Import Prelude PyFloat PyValue Blueprint BranchExecutor Sql ChainState StateStore.
From S2P Require Import Persistence.

Definition with_branches (states : dict string) (outs : dict pyctx) (inputs : dict pyctx)
  (skipped routing : list pyctx) (s : ChainState) : ChainState :=
  mkState (run_id s) (chain_id s) (status s) (current_node s) (step s) (started_at s)
    (paused_at s) (completed_at s) (outputs s) (loop_state s) (cost_accumulated_usd s) (human_review s)
    (metadata s) outs inputs skipped routing states (revision s) (completed_steps s) (side_effects s)
    (is_resumed s) (blueprint_version s) (execution_order_hash s).

(** [_apply_branch_group] *)
Definition apply_branch_group (bd : BranchDef) (selected : list string) (s : ChainState) : ChainState :=
  let names := all_branch_names bd in
  with_branches
    (fold_left (fun st b => dset b (if mem b selected then "pending" else "skipped") st) names
       (branch_states s))
    (ChainState.branch_outputs s) (join_inputs s) (skipped_nodes s)
    (routing_decisions s ++
       [[ ("from_node", VStr (branch_from_node bd)); ("selected", strs selected);
          ("skipped", strs (unselected bd selected)); ("available", strs names) ]]) s.

(** The first join of the blueprint, whatever branches it joins. *)
Definition first_join (bp : ChainBlueprint) : option JoinDef := head (joins bp).

Definition cancellation_policies (governance : pyctx) : pyctx :=
  match dget "cancellation_policies" governance with Some (VDict d) => d | _ => [] end.

(** A configured value that is no text is no policy the executor knows. *)
Definition policy_text (v : pyval) : string := match v with VStr s => s | _ => "" end.

Definition choose_policy (governance : pyctx) (j : option JoinDef) : string :=
  let cps := cancellation_policies governance in
  match j with
  | Some jd =>
      match dget (join_id jd) cps with
      | Some v => policy_text v
      | None => match dget "default" cps with Some v => policy_text v | None => "allow_all" end
      end
  | None => match dget "default" cps with Some v => policy_text v | None => "allow_all" end
  end.

(** ** The report *)

(** The trace event of a report event: type and decision.  Quorum events have
    none. *)
Definition trace_of (e : Event) : option (string * string) :=
  let t := ev_type e in
  let b := event_branch e in
  if (t =? "routing_decision")%string then Some ("routing_decision", "branch_selected")
  else if (t =? "branch_skipped")%string then Some ("node_skipped", "branch_" +:+ b +:+ "_skipped")
  else if (t =? "branch_started")%string then Some ("branch_started", "branch_" +:+ b +:+ "_started")
  else if (t =? "branch_completed")%string then Some ("branch_completed", "branch_" +:+ b +:+ "_completed")
  else if (t =? "branch_failed")%string then Some ("branch_failed", "branch_" +:+ b +:+ "_failed")
  else if (t =? "branch_cancelled")%string then Some ("branch_cancelled", "branch_" +:+ b +:+ "_cancelled")
  else if mem t ["cancel_on_first_enforced"; "first_success_only_enforced"; "ignore_late_enforced";
                 "first_branch_selected"] then Some ("branch_first_selected", t)
  else if mem t ["join_blocked"; "join_partial"; "join_ready"; "join_completed"] then Some (t, t)
  else None.

Definition is_skipped (o : pyctx) : bool :=
  match dget "skipped" o with Some v => truthy v | None => false end.

Definition run_outputs (r : BranchExecutionReport) : dict pyctx :=
  List.filter (fun bo => negb (is_skipped (snd bo))) (BranchExecutor.branch_outputs r).

Definition skipped_entry (bd : BranchDef) (b : string) : option pyctx :=
  match dget b (branches bd) with
  | Some ns => Some [("branch", VStr b); ("nodes", strs ns); ("reason", VStr "not_selected")]
  | None => None
  end.

(** [branch_states], [branch_outputs], [skipped_nodes] and [join_inputs] after
    the report. *)
Definition apply_report (bd : BranchDef) (j : option JoinDef) (r : BranchExecutionReport)
  (s : ChainState) : ChainState :=
  with_branches (apply_events (events r) (branch_states s))
    (dupdate (ChainState.branch_outputs s) (map (fun '(b, o) => (b, items_of "outputs" o)) (run_outputs r)))
    (match j with
     | Some jd => dset (join_id jd) (map (fun '(b, o) => (b, VDict o)) (run_outputs r)) (join_inputs s)
     | None => join_inputs s
     end)
    (skipped_nodes s ++ omap (skipped_entry bd) (skipped_branches r)) (routing_decisions s) s.

(** What the orchestrator goes on with: the merged output, or the failure of
    the chain. *)
Inductive branch_step :=
| Joined (merged : pyctx)
| ChainFailed (reason : string) (details : list string).

Definition step_of (r : BranchExecutionReport) : branch_step :=
  if blocked r then ChainFailed "join_blocked" [default "" (block_reason r)]
  else Joined (merged_output r).

(** Commits of branch nodes: each marks its branch as running. *)
Definition mark_running (commits : list string) (s : ChainState) : ChainState :=
  with_branches (fold_left (fun st b => dset b "running" st) commits (branch_states s))
    (ChainState.branch_outputs s) (join_inputs s) (skipped_nodes s) (routing_decisions s) s.

(** [_execute_branches] *)
Definition execute_branches (bp : ChainBlueprint) (bd : BranchDef) (selected : list string)
  (sch : Schedule) (commits : list string) (s : ChainState)
  : res exec_error (option (ChainState * branch_step * list (string * string))) :=
  let s1 := mark_running commits (apply_branch_group bd selected s) in
  let j := first_join bp in
  r ← execute bd j (choose_policy (chain_governance bp) j) selected sch;
  match r with
  | Some r => Ok (Some (apply_report bd j r s1, step_of r, omap trace_of (events r)))
  | None => Ok None
  end.

(** ** The run's account of its branches *)

Lemma group_states names selected : forall (st : dict string) b,
  dget b (fold_left (fun st b => dset b (if mem b selected then "pending" else "skipped") st) names st) =
  if mem b names then Some (if mem b selected then "pending" else "skipped") else dget b st.
Proof.
  induction names as [|x names IH]; intros st b; cbn [fold_left]; [done|]. rewrite IH.
  cbn [mem existsb]. destruct (existsb (String.eqb b) names) eqn:E.
  - unfold mem. by rewrite E, orb_true_r.
  - unfold mem. rewrite E, orb_false_r. destruct (String.eqb_spec b x) as [->|Hne].
    + apply dget_dset_same.
    + by rewrite dget_dset_other.
Qed.

Lemma running_states commits : forall (st : dict string) b,
  b ∉ commits -> dget b (fold_left (fun st b => dset b "running" st) commits st) = dget b st.
Proof.
  induction commits as [|x l IH]; intros st b Hb; cbn [fold_left]; [done|].
  apply not_elem_of_cons in Hb as [Hne Hb]. by rewrite IH, dget_dset_other.
Qed.

(** After a fan-out the run's record agrees with what its branches did: each
    branch of the definition has the state of its class - skipped exactly for
    the branches that were not selected - whatever the run recorded before;
    and the chain fails exactly when the waiting rule of the join is not met. *)
Theorem branch_run_recorded bp bd selected sch commits s parent s' out evs :
  let j := first_join bp in
  let policy := choose_policy (chain_governance bp) j in
  NoDup (all_branch_names bd) -> admissible bd parent (selected_to_run bd selected) sch ->
  (forall b, b ∈ commits -> b ∈ selected) ->
  execute_branches bp bd selected sch commits s = Ok (Some (s', out, evs)) ->
  exists r, execute bd j policy selected sch = Ok (Some r) /\
    (forall b, b ∈ all_branch_names bd -> b ∉ selected -> dget b (branch_states s') = Some "skipped") /\
    (forall b, b ∈ completed_branches r ->
       dget b (branch_states s') =
       Some (if late_rule j policy && negb (bool_decide (first_completed_branch r = Some b))
             then "ignored_late" else "completed")) /\
    (forall b, b ∈ failed_branches r -> dget b (branch_states s') = Some "failed") /\
    (forall b, b ∈ cancelled_branches r -> dget b (branch_states s') = Some "cancelled") /\
    (match out with ChainFailed _ _ => True | Joined _ => False end <-> should_block j selected r).
Proof.
  intros j policy Hnames Hsch Hcom H. unfold execute_branches in H.
  fold j in H. fold policy in H. inv_bind H. rename a into r0. destruct r0 as [r|]; [|discriminate].
  injection H as <- <- <-. exists r. split; [done|].
  pose proof (fun b => branch_states_truthful bd j policy parent selected sch r
    (branch_states (mark_running commits (apply_branch_group bd selected s))) b Hnames Hsch Ha) as Hst.
  destruct (join_decided bd j policy parent selected sch Hnames Hsch r Ha) as [Hblock _].
  destruct (branches_partitioned bd j policy parent selected sch Hnames Hsch r Ha)
    as (done & _ & _ & Hskip & _).
  split_and!; try (intros b Hb; by apply (Hst b)).
  - intros b Hb Hsel. destruct (Hst b) as (_ & _ & _ & Hs). change (branch_states (apply_report bd j r
      (mark_running commits (apply_branch_group bd selected s)))) with (apply_events (events r)
      (branch_states (mark_running commits (apply_branch_group bd selected s)))).
    rewrite Hs by (by apply Hskip). cbn [branch_states mark_running with_branches apply_branch_group].
    rewrite running_states by (intros Hc; by apply Hsel, Hcom). rewrite group_states.
    rewrite (proj2 (mem_true b _) Hb). by rewrite (proj2 (mem_false b selected) Hsel).
  - rewrite <- Hblock. unfold step_of. by destruct (blocked r).
Qed.

(** ** A fan-out of a blueprint with one join *)

Definition demo_bp : ChainBlueprint :=
  mkBlueprint "c" "c" "1.0.0" "" "g" [] [] [] [demo_bd] [demo_join "any" "merge" "cancel" None] [] [] []
    [] [("cancellation_policies", VDict [("j", VStr "ignore_late")])] "".

Definition demo_branch_run : res exec_error (option (ChainState * branch_step * list (string * string))) :=
  execute_branches demo_bp demo_bd demo_selected demo_schedule ["bio"; "law"] (initial_state "r" "t0").

Definition demo_run_state : ChainState :=
  match demo_branch_run with Ok (Some (s, _, _)) => s | _ => initial_state "" "" end.
Definition demo_run_out : branch_step :=
  match demo_branch_run with Ok (Some (_, o, _)) => o | _ => ChainFailed "" [] end.
Definition demo_run_events : list (string * string) :=
  match demo_branch_run with Ok (Some (_, _, e)) => e | _ => [] end.

Lemma branch_run_recorded_witness :
  branch_states demo_run_state = [("bio", "completed"); ("tech", "failed"); ("law", "ignored_late")] /\
  exists r, dget "law" (branch_states demo_run_state) = Some "ignored_late" /\
    ~ should_block (first_join demo_bp) demo_selected r.
Proof.
  split; [vm_compute; reflexivity|].
  destruct (branch_run_recorded demo_bp demo_bd demo_selected demo_schedule ["bio"; "law"]
    (initial_state "r" "t0") demo_parent demo_run_state demo_run_out demo_run_events
    demo_names demo_admissible) as (r & _ & _ & _ & _ & _ & H).
  - apply Forall_forall. apply (bool_decide_unpack _). vm_compute. exact I.
  - vm_compute. reflexivity.
  - exists r. split; [vm_compute; reflexivity|]. intros Hb. apply H in Hb. vm_compute in Hb. exact Hb.
Defined.
