(* ===== verification/RecoveryService.v ===== *)
(** * Recovery service

    [runtime/recovery_service.py] with the facade
    [StateManager.resolve_side_effect_recovery_decision] of [core/state.py]
    and [record_operator_action] of [core/stores.py]: the snapshot the policy
    reads and the one boundary through which an operator action changes
    anything.

    Parameters: the JSON of a state, the texts of rejections and errors, the
    profile digest, the environment, the parser of profile files, the error
    count of the trace report, the orchestrator delegate and the retry
    coordinator that the command line installs, and the fresh identifiers.
    The metrics emitter never changes execution and is left out. *)
From Corelib Require Import SpecFloat.
From S2P Require Import Prelude PyFloat PyValue Sql SideEffectLedger RecoveryClassifier.
From S2P Require Import Envelope FailureManager Governance RecoveryPolicy ChainState StateStore.

(** ** The operator's decision on an unknown effect *)

Definition DECISION_TO_STATUS : dict string :=
  [ ("verified_completed", "completed"); ("verified_failed", "failed");
    ("mark_unrecoverable", "failed"); ("safe_to_retry", "retry_authorized") ].

(** [x or None] *)
Definition or_none (s : string) : option string := if str_truthy s then Some s else None.

Definition resolve_side_effect_recovery_decision (run key decision reason actor resp ext : string)
  (fresh_decision_id : string) (now : Z) : op string := fun db =>
  match dget decision DECISION_TO_STATUS with
  | None => Err (RecoveryError "INVALID_RECOVERY_DECISION")
  | Some target =>
      _ ← guard_err (if (decision =? "verified_completed")%string
                     then str_truthy ext || str_truthy resp else str_truthy reason)
            (RecoveryError "MISSING_REQUIRED_EVIDENCE");
      match get_side_effect_by_key run key db with
      | None => Err (RecoveryError "SIDE_EFFECT_NOT_FOUND")
      | Some ex =>
          _ ← guard_err (negb (mem (SideEffectLedger.status ex) ["completed"; "failed"]))
                (RecoveryError "SIDE_EFFECT_ALREADY_RESOLVED");
          _ ← guard_err (SideEffectLedger.status ex =? "unknown")%string
                (RecoveryError "SIDE_EFFECT_NOT_UNKNOWN");
          let record := mkDecisionDict fresh_decision_id (Some run) (Some key)
            (Some (SideEffectLedger.node_id ex)) (Some (SideEffectLedger.step_id ex)) (Some (SideEffectLedger.side_effect_type ex))
            (Some "unknown") (Some decision) (Some actor) (Some reason) (Some ext) None
            (Some "") (Some "active") in
          '(db', _) ← resolve_side_effect_recovery_decision_transactional run key record
                        target (or_none resp) (or_none ext) now db;
          Ok (db', target)
      end
  end.

(** ** The operator action log *)

Record OperatorAction := mkOperatorAction {
  oa_action_id : string;
  oa_run_id : string;
  oa_action : string;
  oa_actor_identity : string;
  oa_requested_at : string;
  oa_admitted : bool;
  oa_rejection_reason : option string;
  oa_target_step_id : option Z;
  oa_target_node_id : option string;
  oa_resulting_state : string;
  oa_trace_event_id : option string;
  oa_metadata : pyctx;
}.

(** [INSERT OR REPLACE] on the primary key [action_id]. *)
Definition record_operator_action (a : OperatorAction) (log : list OperatorAction)
  : list OperatorAction :=
  List.filter (fun x => negb (oa_action_id x =? oa_action_id a)%string) log ++ [a].

(** ** The service *)

Inductive service_error :=
| StoreRaised (e : store_error)
| LedgerRaised (e : ledger_error)
| ValueErrorRaised
| NotImplementedRaised (action : RecoveryAction)
| DelegateRaised (text : string).

Record ActionArgs := mkArgs {
  aa_action : RecoveryAction;
  aa_operator_identity : string;
  aa_target_step_id : option Z;
  aa_operator_override : option bool;
  aa_reason : option string;
  aa_instructions : option string;
  aa_new_budget : option pyfloat;
  aa_operator_role : option string;
  aa_governance_profile : option string;
  aa_governance_profile_file : option string;
  aa_side_effect_key : option string;
  aa_side_effect_decision : option string;
  aa_external_reference : option string;
  aa_response_hash : option string;
  aa_recovery_decision_id : option string;
}.

(** The identifiers [uuid4] supplies, the clock, and whether the database
    accepts the terminal transaction. *)
Record Fresh := mkFresh {
  fr_action_id : string;
  fr_requested_tev : string;
  fr_outcome_tev : string;
  fr_terminal_tev : string;
  fr_decision_id : string;
  fr_now : Z;
  fr_now_text : string;
  fr_io : bool;
}.

Record ActionResult := mkActionResult {
  ar_admitted : bool;
  ar_rejection_reason : option string;
  ar_resulting_state : option string;
  ar_action_id : option string;
  ar_trace_event_id : option string;
  ar_denial_type : option string;
}.

Record World (Json : Type) := mkWorld {
  w_store : Store Json;
  w_log : list OperatorAction;
  w_db : Db;
}.
Arguments mkWorld {Json}.
Arguments w_store {Json}.
Arguments w_log {Json}.
Arguments w_db {Json}.

(** Code that keeps what it wrote before it raised. *)
Definition io (Json A : Type) : Type := World Json -> World Json * res service_error A.

Definition io_ret {Json A} (a : A) : io Json A := fun w => (w, Ok a).
Definition io_raise {Json A} (e : service_error) : io Json A := fun w => (w, Err e).
Definition io_bind {Json A B} (m : io Json A) (f : A -> io Json B) : io Json B := fun w =>
  match m w with
  | (w', Ok a) => f a w'
  | (w', Err e) => (w', Err e)
  end.
Notation "x <~ m ; f" := (io_bind m (fun x => f))
  (at level 100, m at next level, f at level 200, right associativity) : nodechain_scope.

(** Run a statement of the store or of the ledger. *)
Definition on_store {Json} (f : Store Json -> res store_error (Store Json)) : io Json unit :=
  fun w => match f (w_store w) with
           | Ok st => (mkWorld st (w_log w) (w_db w), Ok tt)
           | Err e => (w, Err (StoreRaised e))
           end.
Definition on_db {Json A} (f : op A) : io Json A :=
  fun w => match f (w_db w) with
           | Ok (db, a) => (mkWorld (w_store w) (w_log w) db, Ok a)
           | Err e => (w, Err (LedgerRaised e))
           end.
Definition log_action {Json} (a : OperatorAction) : io Json unit :=
  fun w => (mkWorld (w_store w) (record_operator_action a (w_log w)) (w_db w), Ok tt).

(** ** Facts and snapshots *)

(** A number the runtime stored in a metadata dict. *)
Definition float_field (k : string) (d : pyctx) : option pyfloat :=
  match dget k d with
  | Some (VFloat f) => Some f
  | Some (VInt z) => Some (fround_int z)
  | _ => None
  end.

Definition str_field (k : string) (d : pyctx) : option string :=
  match dget k d with Some (VStr s) => Some s | _ => None end.

Definition dict_field (k : string) (d : pyctx) : option pyctx :=
  match dget k d with Some (VDict ((_ :: _) as m)) => Some m | _ => None end.

Definition last_failure_of (s : ChainState) : pyctx := sub_dict "last_failure" (metadata s).
Definition budget_context (s : ChainState) : pyctx := sub_dict "budget_context" (metadata s).

(** What the classifier reads of the state. *)
Definition run_facts (s : ChainState) : RunFacts :=
  mkRunFacts (ChainState.status s) (dict_field "governed_review_request" (metadata s))
    (context_get "loop_exhausted" (metadata s)) (dget "loop_budget_exceeded" (metadata s))
    (dict_field "last_failure" (metadata s)).

(** [max(xs)] of a list that is not empty. *)
Definition max_of (x : Z) (xs : list Z) : Z := fold_left Z.max xs x.

Definition failed_step_of (s : ChainState) (effects : list Row) : option Z :=
  match dget "step_id" (last_failure_of s) with
  | Some (VInt z) => Some z
  | _ =>
      match map SideEffectLedger.step_id
              (List.filter (fun r => SideEffectLedger.status r =? "failed")%string effects) with
      | x :: xs => Some (max_of x xs)
      | [] =>
          if (ChainState.status s =? "failed")%string
          then (if step s =? 0 then None else Some (step s)) else None
      end
  end.

Definition pending_review_of (s : ChainState) : pyval :=
  if (ChainState.status s =? "waiting_for_review")%string then
    let req := context_get "governed_review_request" (metadata s) in
    if truthy req then req else VNone
  else VNone.

Definition get_recovery_decisions (run : string) (db : Db) : list RecoveryDecision :=
  select (fun d => rd_run_id d =? run)%string (decisions db).

(** The rows of admitted fallbacks with a target. *)
Definition prior_fallback_steps (run : string) (log : list OperatorAction) : list Z :=
  omap oa_target_step_id
    (List.filter (fun a => (oa_run_id a =? run)%string && oa_admitted a
                           && (oa_action a =? "route_fallback")%string) log).

(** The classification of a snapshot; [errors] is the number of errors of the
    trace report. *)
Definition classify_run (now : Z) (errors : nat) (s : ChainState) (db : Db) : Classification :=
  classify now (run_facts s) (map facts_of (get_side_effects (ChainState.run_id s) db)) (Some errors)
    (map (fun d => [("decision_id", VStr (decision_id d))])
       (get_recovery_decisions (ChainState.run_id s) db)).

Definition snapshot_for_policy (now : Z) (errors : nat) (run : string) (s : ChainState)
  (log : list OperatorAction) (db : Db) : Snapshot :=
  let effects := get_side_effects run db in
  mkSnapshot (c_state (classify_run now errors s db))
    (map (fun r => mkSnapEffect (Some (SideEffectLedger.status r)) (Some (idempotency_key r))) effects)
    (map (fun d => Some (rd_key d)) (get_recovery_decisions run db))
    (failed_step_of s effects)
    (str_field "failure_type" (last_failure_of s))
    (prior_fallback_steps run log)
    (pending_review_of s)
    (context_get "governed_decision_receipt" (metadata s))
    (Some (default fzero (float_field "previous_budget" (budget_context s))))
    (Some (default fzero (float_field "accumulated_cost" (budget_context s)))).

(** The actions a snapshot advertises. *)
Definition available_actions (s : RecoveryState) : list string :=
  (match s with
   | PAUSED_FOR_HUMAN_REVIEW => ["approve_review"; "reject_review"; "request_revision"]
   | CRASH_RECOVERABLE | PAUSED_FOR_POLICY_APPROVAL => ["resume"]
   | FAILED_RETRYABLE => ["retry_step"]
   | _ => []
   end)
  ++ (if is_terminal s then [] else ["cancel_run"; "fail_run"]) ++ ["export_report"].

(** ** The governed write boundary *)

Section Service.
Context {Json : Type} (dump : ChainState -> Json) (parse : Json -> option ChainState).
Context (rejection_text : Rejection -> string).
Context (governance_text : governance_error -> string).
Context (error_text : service_error -> string).
Context (digest : GovernanceProfile -> string).
Context (env : Env).
Context (parse_file : string -> res governance_error GovernanceProfile).
Context (config_exists : bool) (env_profile env_profile_file : option string).
Context (trace_errors : World Json -> string -> nat).
Context (action_delegate retry_coordinator : option (string -> ActionArgs -> io Json string)).

Definition opt_field (k : string) (v : option string) : pyctx :=
  if ostr_truthy v then [(k, VStr (default "" v))] else [].

Definition opt_int (k : string) (v : option Z) : pyctx :=
  match v with Some z => [(k, VInt z)] | None => [] end.

(** [_emit_operator_event] *)
Definition emit_operator_event (run : string) (rev : Z) (ty : string) (a : ActionArgs)
  (rejection gp_id gp_digest : option string) (tev now : string) : io Json string :=
  let payload :=
    [ ("actor", VStr "operator"); ("action", VStr (RecoveryAction_value (aa_action a)));
      ("operator_identity", VStr (aa_operator_identity a)); ("trace_event_id", VStr tev) ]
    ++ opt_field "governance_profile_id" gp_id ++ opt_field "governance_profile_digest" gp_digest
    ++ opt_field "operator_role" (aa_operator_role a) ++ opt_field "reason" (aa_reason a)
    ++ opt_field "rejection_reason" rejection ++ opt_int "target_step_id" (aa_target_step_id a) in
  _ <~ on_store (append_trace_event run rev ty None (aa_target_step_id a) tev now (Some payload));
  io_ret tev.

(** [_emit_outcome_event] *)
Definition emit_outcome_event (run : string) (rev : Z) (ty node : string) (rs : option string)
  (tev now : string) : io Json unit :=
  on_store (append_trace_event run rev ty (Some node) None tev now
    (Some ([("actor", VStr "operator"); ("trace_event_id", VStr tev)] ++ opt_field "reason" rs))).

Definition with_status (st : string) (md : pyctx) (s : ChainState) : ChainState :=
  mkState (ChainState.run_id s) (chain_id s) st (current_node s) (step s)
    (ChainState.started_at s) (paused_at s) (completed_at s) (outputs s) (loop_state s)
    (cost_accumulated_usd s) (human_review s) md (branch_outputs s) (join_inputs s)
    (skipped_nodes s) (routing_decisions s) (branch_states s) (revision s) (completed_steps s)
    (ChainState.side_effects s) (is_resumed s) (blueprint_version s) (execution_order_hash s).

(** CANCEL_RUN and FAIL_RUN: a candidate, committed with its event. The result
    is the caller's state, which adopts a committed candidate. *)
Definition end_run (s : ChainState) (st reason_key ty : string) (rs : option string) (f : Fresh)
  : World Json -> World Json * ChainState * res service_error string := fun w =>
  let md := if ostr_truthy rs then dset reason_key (VStr (default "" rs)) (metadata s)
            else metadata s in
  let cand := with_status st md s in
  let payload := [("actor", VStr "operator")] ++ opt_field "reason" rs
                 ++ [("trace_event_id", VStr (fr_terminal_tev f))] in
  match save_with_event (total dump) cand ty (Some payload) (Some (fr_terminal_tev f)) (fr_now_text f)
          (fr_io f) (w_store w) with
  | (cand', store', Ok _) => (mkWorld store' (w_log w) (w_db w), cand', Ok (ChainState.status cand'))
  | (_, store', Err e) => (mkWorld store' (w_log w) (w_db w), s, Err (StoreRaised e))
  end.

(** The state object is untouched by the other delegations. *)
Definition keeping (s : ChainState) (m : io Json string)
  : World Json -> World Json * ChainState * res service_error string :=
  fun w => let '(w', r) := m w in (w', s, r).

Definition installed (a : ActionArgs) (run : string)
  (d : option (string -> ActionArgs -> io Json string)) : io Json string :=
  match d with
  | Some call => call run a
  | None => io_raise (NotImplementedRaised (aa_action a))
  end.

Definition delegate_action (s : ChainState) (run : string) (a : ActionArgs) (f : Fresh)
  : World Json -> World Json * ChainState * res service_error string :=
  match aa_action a with
  | EXPORT_REPORT =>
      keeping s (_ <~ emit_outcome_event run (revision s) "recovery_report_exported" run
                        (aa_reason a) (fr_terminal_tev f) (fr_now_text f);
                 io_ret (ChainState.status s))
  | CANCEL_RUN =>
      end_run s "cancelled" "cancel_reason" "run_cancelled_by_operator" (aa_reason a) f
  | FAIL_RUN => end_run s "failed" "fail_reason" "run_failed_by_operator" (aa_reason a) f
  | RESOLVE_SIDE_EFFECT =>
      keeping s
        (if ostr_truthy (aa_side_effect_key a) && ostr_truthy (aa_side_effect_decision a) then
           on_db (resolve_side_effect_recovery_decision run (default "" (aa_side_effect_key a))
                    (default "" (aa_side_effect_decision a)) (default "" (aa_reason a)) "operator"
                    (default "" (aa_response_hash a)) (default "" (aa_external_reference a))
                    (fr_decision_id f) (fr_now f))
         else io_raise ValueErrorRaised)
  | EXECUTE_RETRY_AUTHORIZED =>
      keeping s
        (if ostr_truthy (aa_side_effect_key a) && ostr_truthy (aa_recovery_decision_id a)
         then installed a run retry_coordinator
         else io_raise ValueErrorRaised)
  | _ => keeping s (installed a run action_delegate)
  end.

(** The metadata of the log row. *)
Definition action_metadata (s : ChainState) (a : ActionArgs) (p : GovernanceProfile) : pyctx :=
  let md := opt_field "reason" (aa_reason a)
            ++ [ ("governance_profile_id", VStr (profile_id p));
                 ("governance_profile_digest", VStr (digest p)) ]
            ++ (if (profile_id p =? "break-glass")%string then [("break_glass", VBool true)] else []) in
  match aa_action a, aa_new_budget a with
  | APPROVE_BUDGET_INCREASE, Some b =>
      let bc := budget_context s in
      md ++ [ ("loop_id", context_get "loop_id" bc);
              ("previous_budget", context_get "previous_budget" bc);
              ("new_budget", VFloat b);
              ("accumulated_cost_at_pause", context_get "accumulated_cost" bc);
              ("remaining_budget_after_approval",
                 VFloat (fsub b (or_zero (float_field "accumulated_cost" bc)))) ]
  | _, _ => md
  end.

Definition log_row (run : string) (a : ActionArgs) (f : Fresh) (ok : bool)
  (rejection : option string) (resulting : string) (tev : option string) (md : pyctx)
  : OperatorAction :=
  mkOperatorAction (fr_action_id f) run (RecoveryAction_value (aa_action a))
    (aa_operator_identity a) (fr_now_text f) ok rejection (aa_target_step_id a) None resulting
    tev md.

Definition request_of (run : string) (s : ChainState) (a : ActionArgs) (f : Fresh) (w : World Json)
  : RecoveryPolicy.Request :=
  mkAuthRequest (aa_action a)
    (snapshot_for_policy (fr_now f) (trace_errors w run) run s (w_log w) (w_db w))
    (aa_target_step_id a) (aa_operator_override a) (aa_new_budget a) (aa_operator_role a)
    (aa_reason a) (Some (aa_operator_identity a)).

Definition resolve_profile (a : ActionArgs) : res governance_error GovernanceProfile :=
  resolve parse_file config_exists env_profile env_profile_file (aa_governance_profile a)
    (aa_governance_profile_file a).

(** Emit BLOCKED and bind the row to it. *)
Definition blocked (run : string) (rev : Z) (a : ActionArgs) (f : Fresh) (why : string)
  (gp_id gp_digest : option string) (resulting : string) (md : pyctx) : io Json ActionResult :=
  tev <~ emit_operator_event run rev "recovery_action_blocked" a (Some why) gp_id gp_digest
           (fr_outcome_tev f) (fr_now_text f);
  _ <~ log_action (log_row run a f false (Some why) resulting (Some tev) md);
  io_ret (mkActionResult false (Some why) None (Some (fr_action_id f)) (Some tev) None).

Definition apply_action (run : string) (a : ActionArgs) (f : Fresh) : io Json ActionResult := fun w =>
  match load parse run (w_store w) with
  | None =>
      (w, Ok (mkActionResult false (Some ("unknown run: " +:+ run)) None None None None))
  | Some s =>
      match resolve_profile a with
      | Err e =>
          let why := "invalid governance profile: " +:+ governance_text e in
          (_ <~ log_action (log_row run a f false (Some why) (ChainState.status s) None
                              (opt_field "reason" (aa_reason a)));
           io_ret (mkActionResult false (Some why) None None None (Some "governance_profile"))) w
      | Ok p =>
          let decision := authorize digest env (request_of run s a f w) (Some p) in
          let gp_id := governance_profile_id decision in
          let gp_digest := governance_profile_digest decision in
          let md := action_metadata s a p in
          (_ <~ emit_operator_event run (revision s) "recovery_action_requested" a None gp_id
                  gp_digest (fr_requested_tev f) (fr_now_text f);
           if negb (admitted decision) then
             blocked run (revision s) a f
               (default "" (rejection_text <$> rejection_reason decision)) gp_id gp_digest
               (ChainState.status s) md
           else fun w =>
             match delegate_action s run a f w with
             | (w', s', Err e) =>
                 blocked run (revision s') a f ("delegation failed: " +:+ error_text e) gp_id
                   gp_digest (ChainState.status s) md w'
             | (w', s', Ok resulting) =>
                 (tev <~ emit_operator_event run (revision s') "recovery_action_allowed" a None
                           gp_id gp_digest (fr_outcome_tev f) (fr_now_text f);
                  _ <~ log_action (log_row run a f true None resulting (Some tev) md);
                  io_ret (mkActionResult true None (Some resulting) (Some (fr_action_id f))
                            (Some tev) None)) w'
             end) w
      end
  end.

(** [authorize_action]: the same checks, with nothing written. *)
Definition authorize_action (run : string) (a : ActionArgs) (f : Fresh) (w : World Json)
  : ActionResult :=
  match load parse run (w_store w) with
  | None => mkActionResult false (Some ("unknown run: " +:+ run)) None None None (Some "policy")
  | Some s =>
      match resolve_profile a with
      | Err e => mkActionResult false (Some ("invalid governance profile: " +:+ governance_text e))
                   None None None (Some "governance_profile")
      | Ok p =>
          let decision := authorize digest env (request_of run s a f w) (Some p) in
          mkActionResult (admitted decision) (rejection_text <$> rejection_reason decision) None None
            None (denial_type decision)
      end
  end.
End Service.

(** ** Properties *)

Section Properties.
Context {Json : Type} (dump : ChainState -> Json) (parse : Json -> option ChainState).
Context (rejection_text : Rejection -> string).
Context (governance_text : governance_error -> string).
Context (error_text : service_error -> string).
Context (digest : GovernanceProfile -> string).
Context (env : Env).
Context (parse_file : string -> res governance_error GovernanceProfile).
Context (config_exists : bool) (env_profile env_profile_file : option string).
Context (trace_errors : World Json -> string -> nat).
Context (action_delegate retry_coordinator : option (string -> ActionArgs -> io Json string)).
Implicit Types (w : World Json).

Abbreviation act := (apply_action dump parse rejection_text governance_text error_text digest env
  parse_file config_exists env_profile env_profile_file trace_errors action_delegate
  retry_coordinator).
Abbreviation delegate := (delegate_action dump action_delegate retry_coordinator).

(** The installed delegates write through the state manager: the journal only
    grows. *)
Definition appends (d : option (string -> ActionArgs -> io Json string)) : Prop :=
  forall call run a w, d = Some call -> extends (w_store w) (w_store (fst (call run a w))).

(** The row the journal gained. *)
Definition is_event (run ty tev : string) (e : EventRow) : Prop :=
  er_run_id e = run /\ event_type e = ty /\ trace_event_id e = Some tev.

Lemma emit_spec run rev ty a rejection gp_id gp_digest tev now w w' t :
  emit_operator_event run rev ty a rejection gp_id gp_digest tev now w = (w', Ok t) ->
  t = tev /\ chain_states (w_store w') = chain_states (w_store w) /\ w_log w' = w_log w /\
  w_db w' = w_db w /\
  exists e, is_event run ty tev e /\ state_events (w_store w') = state_events (w_store w) ++ [e].
Proof.
  unfold emit_operator_event, io_bind, on_store.
  destruct (append_trace_event _ _ _ _ _ _ _ _ _) as [st|] eqn:E; [|discriminate].
  intros [= <- <-]. unfold append_trace_event in E. apply insert_event_adds in E as (E1 & E2 & E3).
  split_and!; try done. eexists. split; [|exact E3]. done.
Qed.

Lemma blocked_log run rev a f why gp_id gp_digest resulting md w w' r :
  blocked run rev a f why gp_id gp_digest resulting md w = (w', Ok r) ->
  w_log w' = record_operator_action (log_row run a f false (Some why) resulting (Some (fr_outcome_tev f)) md) (w_log w).
Proof.
  unfold blocked, io_bind. destruct (emit_operator_event _ _ _ _ _ _ _ _ _ w) as [w1 [t|]] eqn:E; [|discriminate].
  apply emit_spec in E as (-> & _ & E2 & _). intros [= <- _]. cbn. by rewrite E2.
Qed.

Lemma blocked_spec run rev a f why gp_id gp_digest resulting md w w' r :
  blocked run rev a f why gp_id gp_digest resulting md w = (w', Ok r) ->
  chain_states (w_store w') = chain_states (w_store w) /\ w_db w' = w_db w /\
  r = mkActionResult false (Some why) None (Some (fr_action_id f)) (Some (fr_outcome_tev f)) None /\
  exists e, is_event run "recovery_action_blocked" (fr_outcome_tev f) e /\
    state_events (w_store w') = state_events (w_store w) ++ [e].
Proof.
  unfold blocked, io_bind. destruct (emit_operator_event _ _ _ _ _ _ _ _ _ w) as [w1 [t|]] eqn:E;
    [|discriminate].
  apply emit_spec in E as (-> & E1 & E2 & E3 & E4). intros [= <- <-]. cbn [w_store w_db w_log].
  by split_and!.
Qed.

Lemma end_run_extends s st k ty rs f w :
  extends (w_store w) (w_store (fst (fst (end_run dump s st k ty rs f w)))).
Proof.
  unfold end_run, save_with_event, restoring, total. destruct (fr_io f); [|apply extends_refl].
  destruct (insert_event _ _ _ _ _ _ _ _ _) as [st'|] eqn:E; [|apply extends_refl].
  apply insert_event_adds in E as (E1 & E2 & E3). simpl. split.
  - rewrite E3. simpl. eauto.
  - exists []. by rewrite E2, app_nil_r.
Qed.

Lemma delegate_extends s run a f w :
  appends action_delegate -> appends retry_coordinator ->
  extends (w_store w) (w_store (fst (fst (delegate s run a f w)))).
Proof.
  intros H1 H2.
  assert (Hi : forall d, appends d -> extends (w_store w) (w_store (fst (installed a run d w)))).
  { intros d Hd. unfold installed. destruct d as [call|]; [by apply Hd | apply extends_refl]. }
  assert (Hk : forall m, extends (w_store w) (w_store (fst (m w))) ->
            extends (w_store w) (w_store (fst (fst (keeping s m w))))).
  { intros m Hm. unfold keeping. by destruct (m w). }
  unfold delegate_action. destruct (aa_action a); try (by apply Hk, Hi); try apply end_run_extends;
    apply Hk.
  - unfold io_bind, emit_outcome_event, on_store.
    destruct (append_trace_event _ _ _ _ _ _ _ _ _) as [st'|] eqn:E; [|apply extends_refl].
    apply insert_event_adds in E as (E1 & E2 & E3). simpl. split; [rewrite E3; eauto|].
    exists []. by rewrite E2, app_nil_r.
  - case_goal; [|apply extends_refl]. unfold on_db.
    match goal with |- context [match ?x with Ok _ => _ | Err _ => _ end] => destruct x as [[]|] end;
      apply extends_refl.
  - case_goal; [by apply Hi | apply extends_refl].
Qed.

(** What carrying out an action does to a world, and the state that results;
    nothing and none when the policy refused it or the delegation raised. *)
Definition carried_out (run : string) (s : ChainState) (a : ActionArgs) (f : Fresh) (policy_ok : bool)
  (w : World Json) : World Json * option string :=
  if policy_ok then
    match delegate s run a f w with
    | (w', _, Ok resulting) => (w', Some resulting)
    | (w', _, Err _) => (w', None)
    end
  else (w, None).

(** The log with this row in the place of an earlier one of the same id. *)
Definition logged (row : OperatorAction) (log log' : list OperatorAction) : Prop :=
  log' = List.filter (fun x => negb (oa_action_id x =? oa_action_id row)%string) log ++ [row].

(** The row of an attempt with this outcome. *)
Definition row_tells (run : string) (s : ChainState) (a : ActionArgs) (f : Fresh) (took : option string)
  (row : OperatorAction) : Prop :=
  oa_action_id row = fr_action_id f /\ oa_run_id row = run /\
  oa_action row = RecoveryAction_value (aa_action a) /\ oa_actor_identity row = aa_operator_identity a /\
  oa_admitted row = bool_decide (is_Some took) /\
  oa_resulting_state row = default (ChainState.status s) took /\
  (took = None <-> is_Some (oa_rejection_reason row)) /\ oa_trace_event_id row = Some (fr_outcome_tev f).

(** What an attempt leaves behind: first REQUESTED, then what carrying the
    action out did, then the one event and the one row that tell of it. *)
Definition audited (run : string) (s : ChainState) (a : ActionArgs) (f : Fresh) (policy_ok : bool)
  (w w' : World Json) (r : ActionResult) : Prop :=
  exists st1 req wd took es out row,
    chain_states st1 = chain_states (w_store w) /\
    is_event run "recovery_action_requested" (fr_requested_tev f) req /\
    state_events st1 = state_events (w_store w) ++ [req] /\
    carried_out run s a f policy_ok (mkWorld st1 (w_log w) (w_db w)) = (wd, took) /\
    is_event run (if took then "recovery_action_allowed" else "recovery_action_blocked") (fr_outcome_tev f) out /\
    state_events (w_store w') = state_events (w_store w) ++ req :: es ++ [out] /\
    state_events (w_store wd) = state_events (w_store w) ++ req :: es /\
    chain_states (w_store w') = chain_states (w_store wd) /\ w_db w' = w_db wd /\
    row_tells run s a f took row /\ logged row (w_log wd) (w_log w') /\
    ar_admitted r = bool_decide (is_Some took) /\ ar_action_id r = Some (fr_action_id f) /\
    ar_trace_event_id r = Some (fr_outcome_tev f).

Lemma apply_action_audited_core run a f w w' r s p :
  appends action_delegate -> appends retry_coordinator ->
  load parse run (w_store w) = Some s ->
  resolve_profile parse_file config_exists env_profile env_profile_file a = Ok p ->
  act run a f w = (w', Ok r) ->
  audited run s a f (admitted (authorize digest env (request_of trace_errors run s a f w) (Some p))) w w' r.
Proof.
  intros Hd Hc Hs Hp. unfold apply_action. rewrite Hs, Hp.
  set (decision := authorize digest env _ (Some p)). unfold io_bind at 1.
  destruct (emit_operator_event _ _ _ _ _ _ _ _ _ w) as [[st1 log1 db1] [t|]] eqn:E1; [|discriminate].
  apply emit_spec in E1 as (-> & C1 & G1 & D1 & req & R1 & S1). cbn [w_store w_log w_db] in *. subst log1 db1.
  destruct (admitted decision) eqn:Ha; cbn [negb].
  - pose proof (delegate_extends s run a f (mkWorld st1 (w_log w) (w_db w)) Hd Hc) as [(es & Hes) _].
    destruct (delegate s run a f (mkWorld st1 (w_log w) (w_db w))) as [[w2 s2] [resulting|e]] eqn:E2; cbn [fst snd w_store] in Hes.
    + unfold io_bind.
      destruct (emit_operator_event _ _ _ _ _ _ _ _ _ w2) as [w3 [t|]] eqn:E3; [|discriminate].
      apply emit_spec in E3 as (-> & C3 & G3 & D3 & out & R3 & S3).
      intros [= <- <-]. exists st1, req, w2, (Some resulting), es, out, (log_row run a f true None resulting (Some (fr_outcome_tev f)) (action_metadata digest s a p)).
      cbn [w_log w_store w_db].
      unfold carried_out. rewrite E2, S3, Hes, S1, <- !app_assoc. unfold logged, record_operator_action. rewrite G3. unfold row_tells. cbn. split_and!; try done.
    + intros H. pose proof (blocked_log _ _ _ _ _ _ _ _ _ _ _ _ H) as L3. apply blocked_spec in H as (C3 & D3 & -> & out & R3 & S3).
      eexists st1, req, w2, None, es, out, _. unfold carried_out. rewrite E2, S3, Hes, S1, <- !app_assoc.
      split_and!; try exact L3; try done.
  - intros H. pose proof (blocked_log _ _ _ _ _ _ _ _ _ _ _ _ H) as L3. apply blocked_spec in H as (C3 & D3 & -> & out & R3 & S3).
    eexists st1, req, _, None, [], out, _. unfold carried_out. rewrite S3. cbn [w_store] in *. rewrite S1, <- !app_assoc.
    split_and!; try exact L3; try done.
Qed.

(** C27: The audit trail of the recovery console tells the truth about every
    attempt on a known run under a valid governance profile: it appends
    REQUESTED, then whatever the delegate wrote, then exactly one outcome -
    ALLOWED when the policy admitted the action and carrying it out did not
    raise, BLOCKED otherwise - and to the log exactly one row, bound to that
    outcome, with the same verdict and the resulting state (of the delegate,
    or as it was); a refused attempt changes neither the run nor the ledger,
    and the caller is told the same. *)
Theorem apply_action_audited run a f w w' r s p :
  appends action_delegate -> appends retry_coordinator ->
  load parse run (w_store w) = Some s ->
  resolve_profile parse_file config_exists env_profile env_profile_file a = Ok p ->
  act run a f w = (w', Ok r) ->
  audited run s a f (admitted (authorize digest env (request_of trace_errors run s a f w) (Some p))) w w' r.
Proof. apply apply_action_audited_core. Qed.

(** An attempt that never reached the policy - unknown run, invalid profile -
    emits no event, and is not admitted. *)
Theorem unresolved_attempts_emit_nothing run a f w w' r :
  load parse run (w_store w) = None \/
  is_ok (resolve_profile parse_file config_exists env_profile env_profile_file a) = false ->
  act run a f w = (w', Ok r) ->
  ar_admitted r = false /\ ar_action_id r = None /\ w_store w' = w_store w /\ w_db w' = w_db w.
Proof.
  unfold apply_action. destruct (load parse run (w_store w)) as [s|]; [|by intros _ [= <- <-]].
  destruct (resolve_profile _ _ _ _ a) as [p|e]; [by intros [|]|]. by intros _ [= <- <-].
Qed.

(** The outcome of a terminal action. *)
Definition terminal_event (a : RecoveryAction) : option (string * string) :=
  match a with
  | CANCEL_RUN => Some ("cancelled", "run_cancelled_by_operator")
  | FAIL_RUN => Some ("failed", "run_failed_by_operator")
  | _ => None
  end.

Lemma end_run_spec s st k ty rs f w w' s' r :
  (forall x, parse (dump x) = Some x) -> well_formed (w_store w) ->
  end_run dump s st k ty rs f w = (w', s', r) ->
  w_log w' = w_log w /\ w_db w' = w_db w /\
  match r with
  | Ok _ => s' = with_revision (revision s + 1) s' /\ revision s' = revision s + 1 /\
      ChainState.status s' = st /\
      load parse (ChainState.run_id s) (w_store w') = Some s' /\
      exists e, e ∈ state_events (w_store w') /\ er_run_id e = ChainState.run_id s /\
        event_type e = ty /\ er_revision e = revision s'
  | Err _ => s' = s /\ w_store w' = w_store w
  end.
Proof.
  intros Hp Hw. unfold end_run.
  set (md := if ostr_truthy rs then _ else _). set (pl := Some (_ ++ _)).
  assert (Hok := fun c' st' u => save_body_committed (total dump) parse (SaveEvent ty pl (Some (fr_terminal_tev f)))
    (with_status st md s) (fr_now_text f) (fr_io f) (w_store w) c' st' u (total_parse dump parse Hp) Hw).
  assert (Herr := save_failed (total dump) (SaveEvent ty pl (Some (fr_terminal_tev f)))
    (with_status st md s) (fr_now_text f) (fr_io f) (w_store w)).
  unfold run_save in Hok, Herr. destruct (save_with_event _ _ _ _ _ _ _ _) as [[c' st'] [u|e]].
  - intros [= <- <- <-].
    destruct (Hok c' st' u eq_refl) as [-> Hl _ He _ _].
    split_and!; try done. eexists. cbn [w_store]. rewrite He. split; [apply elem_of_app; right; left | done].
  - intros [= <- <- <-]. destruct (Herr c' st' e eq_refl) as [-> _]. by destruct w.
Qed.

Lemma load_chain run w w' :
  chain_states (w_store w') = chain_states (w_store w) ->
  load parse run (w_store w') = load parse run (w_store w).
Proof. intros H. by apply load_same. Qed.

Lemma emit_good run rev ty a rejection gp_id gp_digest tev now w w' t :
  emit_operator_event run rev ty a rejection gp_id gp_digest tev now w = (w', Ok t) ->
  well_formed (w_store w) -> well_formed (w_store w').
Proof.
  unfold emit_operator_event, io_bind, on_store.
  destruct (append_trace_event _ _ _ _ _ _ _ _ _) as [st|] eqn:E; [|discriminate].
  intros [= <- _] Hw. apply (insert_event_good _ _ _ _ _ _ _ _ _ _ E Hw).
Qed.

(** Ending a run is atomic: an admitted cancel or fail leaves the stored run
    in its terminal status at the next revision together with the operator's
    outcome event at that revision; one that was refused, or whose commit
    failed, leaves the stored run as it was. *)
Theorem terminal_actions_atomic run a f w w' r s st ty :
  (forall x, parse (dump x) = Some x) -> well_formed (w_store w) ->
  terminal_event (aa_action a) = Some (st, ty) ->
  load parse run (w_store w) = Some s -> ChainState.run_id s = run ->
  act run a f w = (w', Ok r) ->
  if ar_admitted r then
    exists s', load parse run (w_store w') = Some s' /\ ChainState.status s' = st /\
      revision s' = revision s + 1 /\
      exists e, e ∈ state_events (w_store w') /\ er_run_id e = run /\ event_type e = ty /\
        er_revision e = revision s'
  else load parse run (w_store w') = Some s.
Proof.
  intros Hp Hw Ht Hl Hrun. unfold apply_action. rewrite Hl.
  destruct (resolve_profile _ _ _ _ a) as [p|e]; [|by intros [= <- <-]].
  set (decision := authorize digest env _ (Some p)). unfold io_bind at 1.
  destruct (emit_operator_event _ _ _ _ _ _ _ _ _ w) as [w1 [t|]] eqn:E1; [|discriminate].
  pose proof (emit_good _ _ _ _ _ _ _ _ _ _ _ _ E1 Hw) as Hw1.
  apply emit_spec in E1 as (-> & C1 & _). rewrite <- (load_chain run w w1 C1) in Hl.
  destruct (admitted decision); cbn [negb].
  2: { intros H. apply blocked_spec in H as (C3 & _ & -> & _). simpl.
       by rewrite (load_chain run _ _ C3). }
  assert (exists k, delegate s run a f = end_run dump s st k ty (aa_reason a) f) as [k ->].
  { unfold delegate_action, terminal_event in *.
    destruct (aa_action a); try discriminate Ht; injection Ht as <- <-; eauto. }
  destruct (end_run _ _ _ _ _ _ _ w1) as [[w2 s2] res] eqn:E2.
  destruct (end_run_spec _ _ _ _ _ _ _ _ _ _ Hp Hw1 E2) as (_ & _ & Hres).
  destruct res as [resulting|e].
  - destruct Hres as (_ & Hrev & Hst & Hld & ev & Hev). unfold io_bind.
    destruct (emit_operator_event _ _ _ _ _ _ _ _ _ w2) as [w3 [t|]] eqn:E3; [|discriminate].
    apply emit_spec in E3 as (-> & C3 & _ & _ & out & _ & S3).
    intros [= <- <-]. cbn [ar_admitted w_store]. exists s2. rewrite Hrun in *.
    rewrite (load_same _ _ _ _ C3). split_and!; try done.
    exists ev. rewrite S3, elem_of_app. tauto.
  - destruct Hres as [-> Hst]. intros H. apply blocked_spec in H as (C3 & _ & -> & _). simpl.
    by rewrite (load_chain run _ _ C3), Hst.
Qed.

(** A dry run tells the truth about its action: the execution of an action the
    dry run denies is refused and changes neither the run nor the ledger, and
    one it admits is admitted unless carrying it out fails. *)
Theorem dry_run_predicts run a f w w' r :
  appends action_delegate -> appends retry_coordinator ->
  act run a f w = (w', Ok r) ->
  let dry := authorize_action parse rejection_text governance_text digest env parse_file config_exists
               env_profile env_profile_file trace_errors run a f w in
  (ar_admitted dry = false -> ar_admitted r = false /\ w_db w' = w_db w /\
     chain_states (w_store w') = chain_states (w_store w)) /\
  (ar_admitted dry = true -> ar_admitted r = false ->
     exists e, ar_rejection_reason r = Some ("delegation failed: " +:+ error_text e)).
Proof.
  intros Hd Hc H dry. subst dry. unfold authorize_action.
  destruct (load parse run (w_store w)) as [s|] eqn:Es.
  2: { destruct (unresolved_attempts_emit_nothing run a f w w' r (or_introl Es) H) as (Ha & _ & -> & ->). split; [by intros _ | discriminate]. }
  destruct (resolve_profile _ _ _ _ a) as [p|e] eqn:Ep.
  2: { destruct (unresolved_attempts_emit_nothing run a f w w' r) as (Ha & _ & -> & ->); [right; by rewrite Ep | done |].
       split; [by intros _ | discriminate]. }
  pose proof (apply_action_audited_core run a f w w' r s p Hd Hc Es Ep H) as Ha. unfold apply_action in H. rewrite Es, Ep in H.
  set (decision := authorize digest env _ (Some p)) in *. simpl. split; intros Hdry.
  - destruct Ha as (st1 & req & wd & took & es & out & row & H1 & _ & _ & H2 & _ & _ & _ & H3 & H4 & _ & _ & H5 & _).
    unfold carried_out in H2. rewrite Hdry in H2. injection H2 as <- <-. cbn in *. rewrite H3, H4. auto.
  - intros Hr. unfold io_bind at 1 in H. destruct (emit_operator_event _ _ _ _ _ _ _ _ _ w) as [w1 [t|]];
      [|discriminate]. rewrite Hdry in H. cbn [negb] in H.
    destruct (delegate s run a f w1) as [[w2 s2] [resulting|e]].
    + unfold io_bind in H. destruct (emit_operator_event _ _ _ _ _ _ _ _ _ w2) as [w3 [t'|]];
        [|discriminate]. by injection H as _ <-.
    + apply blocked_spec in H as (_ & _ & -> & _). eauto.
Qed.
End Properties.

(** ** Witnesses: a running chain ended by its operator *)

Definition demo_digest (p : GovernanceProfile) : string := "sha256:" +:+ profile_id p.
Definition demo_env : Env := mkEnv None None None.
Definition no_files (path : string) : res governance_error GovernanceProfile := Err NotAMapping.
Definition demo_state : ChainState := with_status "failed" [] (initial_state "r" "t0").
Definition demo_world : World ChainState :=
  mkWorld (replace_state demo_state demo_state "t0" (mkStore [] [] [])) [] (mkDb [] [] [] [] []).
Definition demo_action (x : RecoveryAction) (rs : option string) : ActionArgs :=
  mkArgs x "alice" None None rs None None (Some "operator") None None None None None None None.
Definition demo_fresh (io : bool) : Fresh := mkFresh "oal-1" "tev-1" "tev-2" "tev-3" "rec:1" 0 "t1" io.

Definition demo_apply (x : RecoveryAction) (io : bool)
  : World ChainState * res service_error ActionResult :=
  apply_action as_object Some (fun _ => "rejected") (fun _ => "bad profile") (fun _ => "error")
    demo_digest demo_env no_files false None None (fun _ _ => 0%nat) None None "r"
    (demo_action x (Some "why")) (demo_fresh io) demo_world.

Lemma demo_world_good : well_formed (w_store demo_world).
Proof. split_and!; try constructor; [apply not_elem_of_nil | constructor]. Qed.

(** A resume is refused in the failed state; the trail says so. *)
Lemma apply_action_audited_witness :
  exists w' r, demo_apply RESUME true = (w', Ok r) /\ ar_admitted r = false /\
    map event_type (state_events (w_store w')) =
      ["recovery_action_requested"; "recovery_action_blocked"] /\
    map (fun row => (oa_action row, oa_admitted row)) (w_log w') = [("resume", false)] /\
    w_db w' = w_db demo_world.
Proof.
  destruct (demo_apply RESUME true) as [w' [r|e]] eqn:E; [|by vm_compute in E].
  pose proof (apply_action_audited as_object Some (fun _ => "rejected") (fun _ => "bad profile")
    (fun _ => "error") demo_digest demo_env no_files false None None (fun _ _ => 0%nat) None None
    "r" (demo_action RESUME (Some "why")) (demo_fresh true) demo_world w' r demo_state team_default
    ltac:(intros ? ? ? ?; discriminate) ltac:(intros ? ? ? ?; discriminate) eq_refl eq_refl E) as H.
  exists w', r. split; [reflexivity|].
  destruct H as (st1 & req & wd & took & es & out & row & _ & Hreq & _ & Hc & Hout & Hev & Hwd & _ & Hdb & Hrow & Hlog & Ha & _).
  match type of Hc with carried_out _ _ _ _ _ _ _ ?b _ = _ => assert (b = false) as Hb by (vm_compute; reflexivity); rewrite Hb in Hc end.
  unfold carried_out in Hc. injection Hc as <- <-. cbn in Hdb, Hwd, Hlog, Ha. split; [exact Ha|].
  destruct Hrow as (_ & _ & Hact & _ & Hadm & _). cbn in Hact, Hadm. split_and!; [| |exact Hdb].
  - assert (es = []) as -> by (vm_compute in E; injection E as <- <-; by destruct es as [|? [|? ?]]).
    rewrite Hev. destruct Hreq as (_ & Hreq & _), Hout as (_ & Hout & _). simpl. by rewrite Hreq, Hout.
  - rewrite Hlog. cbn. by rewrite Hact, Hadm.
Defined.

Lemma terminal_actions_atomic_witness :
  exists w' r, demo_apply CANCEL_RUN true = (w', Ok r) /\ ar_admitted r = true /\
    exists s', load Some "r" (w_store w') = Some s' /\ ChainState.status s' = "cancelled".
Proof.
  destruct (demo_apply CANCEL_RUN true) as [w' [r|e]] eqn:E; [|by vm_compute in E].
  pose proof (terminal_actions_atomic as_object Some (fun _ => "rejected") (fun _ => "bad profile")
    (fun _ => "error") demo_digest demo_env no_files false None None (fun _ _ => 0%nat) None None
    "r" (demo_action CANCEL_RUN (Some "why")) (demo_fresh true) demo_world w' r demo_state
    "cancelled" "run_cancelled_by_operator" (fun x => eq_refl) demo_world_good eq_refl eq_refl
    eq_refl E) as H.
  assert (ar_admitted r = true) as Ha by (vm_compute in E; by injection E as _ <-).
  rewrite Ha in H. destruct H as (s' & H1 & H2 & _).
  exists w', r. split; [reflexivity|]. split; [exact Ha|]. by exists s'.
Defined.

(** The dry run refuses to resume a failed run, and so does the execution. *)
Lemma dry_run_predicts_witness :
  ar_admitted (authorize_action Some (fun _ => "rejected") (fun _ => "bad profile") demo_digest demo_env
    no_files false None None (fun _ _ => 0%nat) "r" (demo_action RESUME (Some "why")) (demo_fresh true)
    demo_world) = false /\
  exists w' r, demo_apply RESUME true = (w', Ok r) /\ ar_admitted r = false.
Proof.
  split; [vm_compute; reflexivity|].
  destruct (demo_apply RESUME true) as [w' [r|e]] eqn:E; [|by vm_compute in E].
  exists w', r. split; [reflexivity|].
  refine (proj1 (proj1 (dry_run_predicts as_object Some (fun _ => "rejected") (fun _ => "bad profile")
    (fun _ => "error") demo_digest demo_env no_files false None None (fun _ _ => 0%nat) None None
    "r" (demo_action RESUME (Some "why")) (demo_fresh true) demo_world w' r
    ltac:(intros ? ? ? ?; discriminate) ltac:(intros ? ? ? ?; discriminate) E) _)).
  vm_compute. reflexivity.
Defined.
