(* ===== verification/BudgetApproval.v ===== *)
(** * Budget pauses and approvals

    [Orchestrator._pause_for_budget] and [approve_budget_increase] of
    [runtime/orchestrator.py]: the candidate each commits.  The commit itself
    is a save of the state store; the resume that follows an approval runs
    nodes and is not modelled. *)
From Corelib Require Import SpecFloat.
From S2P Require Import Prelude PyFloat PyValue Sql SideEffectLedger RecoveryClassifier.
From S2P Require Import Governance RecoveryPolicy Blueprint ChainState LoopEnforcer StateStore.
From S2P Require Import RecoveryService.

(** [{**a, **b}] *)
Definition merge (a b : pyctx) : pyctx := fold_left (fun acc kv => dset (fst kv) (snd kv) acc) b a.

Definition dpop (k : string) (d : pyctx) : pyctx :=
  List.filter (fun kv => negb (fst kv =? k)%string) d.

Definition pause_for_budget (lid : string) (accumulated : pyfloat) (previous : pyval)
  (why : string) (target source : option string) (s : ChainState) : ChainState :=
  let pause_md :=
    [ ("loop_budget_exceeded", VStr lid);
      ("budget_context",
         VDict [ ("loop_id", VStr lid); ("accumulated_cost", VFloat accumulated);
                 ("previous_budget", previous); ("reason", VStr why) ]) ]
    ++ (if ostr_truthy target then
          [ ("pending_loop_back",
              VDict [ ("loop_id", VStr lid);
                      ("source_node", match source with Some n => VStr n | None => VNone end);
                      ("target_node", VStr (default "" target));
                      ("accumulated_cost", VFloat accumulated) ]) ]
        else []) in
  with_status "paused_for_budget" (merge (metadata s) pause_md) s.

(** [_apply_budget_approval] with the [ctx] read before it; [None] is the
    [ValueError] of a run without a budget context. *)
Definition approve_budget_increase (new_budget : pyfloat) (s : ChainState) : option ChainState :=
  let ctx := budget_context s in
  match str_field "loop_id" ctx with
  | Some lid =>
      if str_truthy lid then
        let overrides := sub_dict "budget_overrides" (metadata s) in
        let amd := dset "budget_overrides" (VDict (dset lid (VFloat new_budget) overrides))
                     (metadata s) in
        let amd := dpop "loop_budget_exceeded" amd in
        let spent := default fzero (float_field "accumulated_cost" ctx) in
        let amd := dset "budget_approved"
          (VDict [ ("loop_id", VStr lid);
                   ("previous_budget", dget_or "previous_budget" (VFloat fzero) ctx);
                   ("new_budget", VFloat new_budget);
                   ("accumulated_cost_at_pause",
                      dget_or "accumulated_cost" (VFloat fzero) ctx);
                   ("remaining_budget", VFloat (fsub new_budget spent)) ]) amd in
        Some (with_status "running" amd s)
      else None
  | None => None
  end.

(** ** Reading the metadata back *)

Lemma dget_dpop k k' d : k <> k' -> dget k (dpop k' d) = dget k d.
Proof.
  intros Hne. induction d as [|[x v] d IH]; simpl; [done|].
  destruct (String.eqb_spec x k') as [->|]; simpl; [|by rewrite IH].
  apply String.eqb_neq in Hne. by rewrite Hne.
Qed.

Lemma pause_context lid c previous why target source s :
  budget_context (pause_for_budget lid c previous why target source s) =
  [ ("loop_id", VStr lid); ("accumulated_cost", VFloat c); ("previous_budget", previous);
    ("reason", VStr why) ].
Proof.
  unfold budget_context, sub_dict, pause_for_budget, merge. cbn [metadata with_status].
  destruct (ostr_truthy target); cbn [app fold_left fst snd].
  - rewrite dget_dset_other by done. by rewrite dget_dset_same.
  - by rewrite dget_dset_same.
Qed.

Lemma le_false_not_gt b c : fle b c = false -> fgt c b = false.
Proof.
  unfold fle, fgt, num_le, num_gt. rewrite (num_cmp_antisym (NFloat b) (NFloat c)).
  by destruct (num_cmp (NFloat b) (NFloat c)) as [[]|].
Qed.

Lemma fgt_or_zero c b : fgt (or_zero (Some c)) b = fgt c b.
Proof. by destruct c. Qed.

(** Raising a budget releases the loop: when the policy admits an increase
    to [b] on the snapshot of a run paused at cost [c], the approval sets the
    run running with the spent cost carried over, and the budget check of
    the loop then passes at that cost under the ceiling [b]. *)
Theorem approved_increase_unblocks digest env rq profile now errors run s log db loop c previous
  why target source b :
  rq_action rq = APPROVE_BUDGET_INCREASE -> new_budget rq = Some b ->
  rq_snapshot rq =
    snapshot_for_policy now errors run
      (pause_for_budget (loop_id loop) c previous why target source s) log db ->
  admitted (authorize digest env rq profile) = true -> loop_id loop <> "" ->
  exists s2, approve_budget_increase b
      (pause_for_budget (loop_id loop) c previous why target source s) = Some s2 /\
    ChainState.status s2 = "running" /\
    exists r, check_budget loop s2 c = Ok r /\ allowed r = true /\
      dget "max_cost_usd" (context r) = Some (VFloat b).
Proof.
  intros Ha Hb Hs Hadm Hl.
  destruct (budget_admitted _ _ _ _ _ Ha Hb Hadm) as (_ & _ & Hc).
  rewrite Hs in Hc. cbn [budget_accumulated_cost snapshot_for_policy] in Hc.
  rewrite pause_context in Hc. cbn [float_field dget String.eqb Ascii.eqb Bool.eqb default] in Hc.
  apply le_false_not_gt in Hc. rewrite fgt_or_zero in Hc. change (fgt c b = false) in Hc.
  set (s1 := pause_for_budget _ _ _ _ _ _ _).
  assert (Hctx : budget_context s1 = _) by apply pause_context.
  unfold approve_budget_increase. rewrite Hctx. cbn [str_field dget String.eqb Ascii.eqb Bool.eqb].
  destruct (str_truthy (loop_id loop)) eqn:Et.
  2: { unfold str_truthy in Et. by destruct (String.eqb_spec (loop_id loop) ""). }
  eexists. split; [reflexivity|]. split; [done|].
  unfold check_budget, budget_overrides. cbn [metadata with_status].
  unfold context_get. rewrite dget_dset_other, dget_dpop, dget_dset_same by done.
  unfold dget_or. rewrite dget_dset_same. cbn [as_num].
  fold (fgt c b). rewrite Hc. eexists. split; [reflexivity|]. cbn [allowed context].
  split; [done|]. by rewrite dget_dset_same.
Qed.

(** ** Witness: a loop paused at 0.75 with a ceiling of 0.5, raised to 2 *)

Definition three_quarters : pyfloat := float_of_decimal false 75 (-2).
Definition demo_loop : LoopDef := mkLoop "refine" "" "" 3 (float_of_decimal false 5 (-1)) ["a"] None.
Definition demo_paused : ChainState :=
  pause_for_budget "refine" three_quarters (VFloat (float_of_decimal false 5 (-1))) "over budget"
    (Some "a") (Some "a") (initial_state "r" "t0").
Definition demo_db : Db := mkDb [] [] [] [] [].
Definition demo_increase : RecoveryPolicy.Request :=
  mkAuthRequest APPROVE_BUDGET_INCREASE (snapshot_for_policy 0 0 "r" demo_paused [] demo_db) None
    None (Some (fround_int 2)) (Some "finance") (Some "needed") (Some "alice").

Lemma approved_increase_unblocks_witness :
  exists s2 r, approve_budget_increase (fround_int 2) demo_paused = Some s2 /\
    check_budget demo_loop s2 three_quarters = Ok r /\ allowed r = true.
Proof.
  destruct (approved_increase_unblocks demo_digest demo_env demo_increase (Some team_default) 0 0 "r"
    (initial_state "r" "t0") [] demo_db demo_loop three_quarters
    (VFloat (float_of_decimal false 5 (-1))) "over budget" (Some "a") (Some "a") (fround_int 2)
    eq_refl eq_refl eq_refl ltac:(vm_compute; reflexivity) ltac:(discriminate))
    as (s2 & H1 & _ & r & H2 & H3 & _).
  exists s2, r. split; [exact H1|]. split; [exact H2 | exact H3].
Defined.
