(* ===== verification/InvariantEngine.v ===== *)
(** * The invariant engine

    [runtime/invariant_engine.py]: the structural invariants of a blueprint
    and the governance invariants of a run, each check in the order of the
    code, with the severities of the default and the strict mode.  Messages
    are given by the invariant's id; where details list a set, the order is
    the one in which its members were added.  [set_order] is the iteration
    order of a Python set. *)
From Corelib Require Import SpecFloat.
From S2P Require Import Prelude PyFloat PyValue Blueprint Contract BranchExecutor.

Definition VALID_CANCELLATION_POLICIES : list string :=
  [CANCEL_ALLOW_ALL; CANCEL_ON_FIRST; CANCEL_IGNORE_LATE; CANCEL_FIRST_SUCCESS_ONLY; CANCEL_QUORUM].

(** [_governance_strict]: the environment variable, "" when unset. *)
Definition governance_strict (env : string) : bool := mem (strip env) ["1"; "true"; "yes"].

(** ** The report *)

Record InvariantViolation := mkViolation {
  vi_invariant : string;
  vi_severity : string;
  vi_node : string;
  vi_details : pyctx;
}.

Record InvariantReport := mkInvariantReport {
  checks_run : Z;
  violations : list InvariantViolation;
}.

Definition errors (r : InvariantReport) : list InvariantViolation :=
  List.filter (fun v => vi_severity v =? "error")%string (violations r).
Definition warnings (r : InvariantReport) : list InvariantViolation :=
  List.filter (fun v => vi_severity v =? "warning")%string (violations r).
Definition is_valid (r : InvariantReport) : bool := Nat.eqb (length (errors r)) 0.

(** [checks_run += 1] *)
Definition bump (r : InvariantReport) : InvariantReport := mkInvariantReport (checks_run r + 1) (violations r).

(** A violation when the test holds. *)
Definition flag (bad : bool) (v : InvariantViolation) (r : InvariantReport) : InvariantReport :=
  if bad then mkInvariantReport (checks_run r) (violations r ++ [v]) else r.

Definition the_severity (strict : bool) : string := if strict then "error" else "warning".

(** ** The blueprint *)

Section Engine.
(** The engine's mode and the environment's, which the quorum check reads. *)
Context (strict env_strict : bool).
Context (set_order : list string -> list string).
Context (bp : ChainBlueprint).

Definition governance_severity : string := the_severity strict.

Definition node_set : list string := py_set (node_ids bp).
Definition undefined (n : string) : bool := negb (mem n node_set).

Definition check_connection (r : InvariantReport) (c : ConnectionDef) : InvariantReport :=
  let details := [("from", VStr (from_node c)); ("to", VStr (to_node c))] in
  flag (undefined (to_node c)) (mkViolation "connection_target_exists" "error" (to_node c) details)
    (flag (undefined (from_node c))
       (mkViolation "connection_source_exists" "error" (from_node c) details) (bump r)).

Definition check_branch_node (r : InvariantReport) (n : string) : InvariantReport :=
  flag (undefined n) (mkViolation "branch_target_exists" "error" n []) (bump r).

Definition check_branch (r : InvariantReport) (b : BranchDef) : InvariantReport :=
  let r := flag (undefined (branch_from_node b))
             (mkViolation "branch_source_exists" "error" (branch_from_node b) []) (bump r) in
  let r := fold_left (fun r named => fold_left check_branch_node (snd named) r) (branches b) r in
  match default_branch b with
  | Some d =>
      if str_truthy d && negb (dmem d (branches b))
      then flag true (mkViolation "branch_default_exists" "warning" ""
                        [("available", strs (dkeys (branches b)))]) (bump r)
      else r
  | None => r
  end.

Definition branch_exists (name : string) : bool :=
  existsb (fun bd => dmem name (branches bd)) (chain_branches bp).

Definition check_join (r : InvariantReport) (j : JoinDef) : InvariantReport :=
  let r := flag (undefined (join_to_node j))
             (mkViolation "join_target_exists" "error" (join_to_node j) []) (bump r) in
  fold_left (fun r b =>
    flag (negb (branch_exists b))
      (mkViolation "join_source_exists" "error" "" [("from_branch", VStr b)]) (bump r))
    (from_branches j) r.

Definition check_loop (r : InvariantReport) (l : LoopDef) : InvariantReport :=
  let r := fold_left (fun r n => flag (undefined n) (mkViolation "loop_target_exists" "error" n []) r)
             (path l) (bump r) in
  flag (max_iterations l <? 1) (mkViolation "loop_max_iterations_positive" "error" "" []) (bump r).

Definition supported_strategies : list string := ["merge"; "append"; "latest"; "concat"].

Definition check_strategy (r : InvariantReport) (j : JoinDef) : InvariantReport :=
  flag (negb (mem (merge_strategy j) supported_strategies))
    (mkViolation "merge_strategy_supported" governance_severity ""
       [("strategy", VStr (merge_strategy j)); ("supported", strs supported_strategies)]) (bump r).

Definition supported_wait : list string := ["all"; "any"; "first"; "quorum"].

(** [quorum_ratio <= 0 or quorum_ratio > 1] *)
Definition ratio_out_of_range (x : pyfloat) : bool := fle x fzero || fgt x (fround_int 1).

Definition check_wait (r : InvariantReport) (j : JoinDef) : InvariantReport :=
  let r := flag (negb (mem (wait_for j) supported_wait))
             (mkViolation "wait_for_supported" "warning" "" []) (bump r) in
  if (wait_for j =? "quorum")%string then
    let r := flag (match quorum_count j, quorum_ratio j with None, None => true | _, _ => false end)
               (mkViolation "quorum_config_required" (the_severity env_strict) "" []) r in
    let r := flag (match quorum_ratio j with Some x => ratio_out_of_range x | None => false end)
               (mkViolation "quorum_ratio_range" "error" "" []) r in
    flag (match quorum_count j with Some c => c <? 1 | None => false end)
      (mkViolation "quorum_count_minimum" "error" "" []) r
  else r.

Definition connected_nodes : list string :=
  flat_map (fun c => [from_node c; to_node c]) (connections bp) ++
  flat_map (fun b => branch_from_node b :: flat_map snd (branches b)) (chain_branches bp) ++
  map join_to_node (joins bp) ++ flat_map path (loops bp).

Definition check_orphan (r : InvariantReport) (n : string) : InvariantReport :=
  flag (negb (mem n connected_nodes)) (mkViolation "no_orphan_nodes" "warning" n []) (bump r).

Definition check_blueprint : InvariantReport :=
  let r := fold_left check_connection (connections bp) (mkInvariantReport 0 []) in
  let r := fold_left check_branch (chain_branches bp) r in
  let r := fold_left check_join (joins bp) r in
  let r := fold_left check_loop (loops bp) r in
  let r := fold_left check_strategy (joins bp) r in
  let r := fold_left check_wait (joins bp) r in
  fold_left check_orphan (set_order node_set) r.

(** ** The run *)

(** [config.get(key)] as a condition, and the declared effects, a list of
    texts. *)
Definition config_flag (k : string) (config : pyctx) : bool :=
  match dget k config with Some v => truthy v | None => false end.

Definition config_effects (config : pyctx) : list string :=
  match dget "side_effects" config with
  | Some (VList l) => omap as_str l
  | _ => []
  end.

(** [p.get("type", p.get("policy_type", ""))] of each policy, when truthy. *)
Definition policy_type_of (p : pyctx) : option string :=
  match dget "type" p with
  | Some v => match v with VStr s => if str_truthy s then Some s else None | _ => None end
  | None => match dget "policy_type" p with
            | Some (VStr s) => if str_truthy s then Some s else None
            | _ => None
            end
  end.

Context (node_configs : dict pyctx) (policies : option (list pyctx)).
Context (cancellation_policies : option (dict string)).

Definition policy_types : list string :=
  match policies with Some ps => py_set (omap policy_type_of ps) | None => [] end.

(** [policies is not None and t not in policy_types] *)
Definition lacks (t : string) : bool :=
  match policies with Some _ => negb (mem t policy_types) | None => false end.

(** The policy type that must cover an effect. *)
Definition required_policy (effect : string) : option string :=
  let canonical := match normalize_side_effect_type effect with
                   | Some c => c | None => effect end in
  if (canonical =? "external_call")%string then Some "tool_access"
  else if mem canonical ["memory_write"; "memory_read"] then Some "memory_access"
  else None.

Definition uncovered (effects : list string) : list string :=
  List.filter (fun e => match required_policy e with
                        | Some t => negb (mem t policy_types) | None => false end) effects.

Definition check_node (r : InvariantReport) (n : string) : InvariantReport :=
  let config := dget_or n [] node_configs in
  let sev := governance_severity in
  let r := flag (config_flag "model_required" config && lacks "model_access")
             (mkViolation "model_access_policy_coverage" sev n []) (bump r) in
  let r := flag (config_flag "can_call_tools" config && lacks "tool_access")
             (mkViolation "tool_access_policy_coverage" sev n []) (bump r) in
  let r := bump r in
  let r :=
    if config_flag "can_write_memory" config then
      flag (negb (mem "memory_write" (config_effects config)))
        (mkViolation "memory_write_side_effect_declaration" sev n
           [("declared", strs (config_effects config))])
        (bump (flag (lacks "memory_access") (mkViolation "memory_governance_coverage" sev n []) r))
    else r in
  let r := flag (config_flag "has_side_effects" config && negb (nonempty (config_effects config)))
             (mkViolation "side_effect_declaration_required" sev n []) (bump r) in
  let bad := uncovered (config_effects config) in
  flag (match policies with Some _ => nonempty bad | None => false end)
    (mkViolation "side_effect_policy_coverage" sev n
       [("uncovered", strs bad); ("policy_types", strs policy_types)]) (bump r).

Definition check_review (r : InvariantReport) : InvariantReport :=
  flag (nonempty (gates bp) && (lacks "trust_level" && lacks "review"))
    (mkViolation "review_gate_policy_coverage" governance_severity "" []) (bump r).

Definition check_any_join (r : InvariantReport) (j : JoinDef) : InvariantReport :=
  let r := bump r in
  if (wait_for j =? "any")%string then
    match cancellation_policies ≫= dget (join_id j) with
    | None =>
        flag true (mkViolation "wait_for_any_cancellation_policy" governance_severity ""
          [ ("join_id", VStr (join_id j)); ("wait_for", VStr (wait_for j));
            ("available", strs (match cancellation_policies with Some d => dkeys d | None => [] end));
            ("valid_policies", strs (sort_str VALID_CANCELLATION_POLICIES)) ]) r
    | Some v =>
        flag (negb (mem v VALID_CANCELLATION_POLICIES))
          (mkViolation "cancellation_policy_value_invalid" "warning" ""
             [("value", VStr v); ("valid", strs (sort_str VALID_CANCELLATION_POLICIES))]) (bump r)
    end
  else r.

Definition trace_required : bool :=
  config_flag "required" (chain_trace bp) ||
  existsb (fun i => contains "trace" (lower (invariant_id i)) && mem (enforcement i) ["runtime"; "both"])
    (invariants bp).

Definition is_trace_node (n : string) : bool :=
  existsb (fun kw => contains kw (lower n)) ["trace"; "audit"; "reconciler"].

Definition check_trace (r : InvariantReport) : InvariantReport :=
  flag (trace_required && negb (existsb is_trace_node (set_order node_set)))
    (mkViolation "trace_required_terminal_audit" (if strict then governance_severity else "warning") ""
       [("node_ids", strs (set_order node_set)); ("trace_config", VDict (chain_trace bp))]) (bump r).

Definition check_loop_path (r : InvariantReport) (l : LoopDef) : InvariantReport :=
  let r := flag (length (path l) <? 2)%nat (mkViolation "loop_path_minimum_length" "warning" "" [])
             (bump r) in
  match path l, last (path l) with
  | first :: _ :: _, Some last =>
      if (first =? last)%string
      then flag true (mkViolation "loop_path_redundant_bookend" "warning" first []) (bump r) else r
  | _, _ => r
  end.

Definition check_runtime : InvariantReport :=
  let r := fold_left check_node (set_order node_set) check_blueprint in
  let r := check_review r in
  let r := fold_left check_any_join (joins bp) r in
  let r := check_trace r in
  fold_left check_loop_path (loops bp) r.
End Engine.

(** ** Validity *)

(** The value m * 2^e of a float is in (0, 1]. *)
Definition in_unit_interval (x : pyfloat) : Prop :=
  match x with
  | S754_finite false m e => if 0 <=? e then Zpos m * 2 ^ e <= 1 else Zpos m <= 2 ^ (- e)
  | _ => False
  end.

(** What the checks are to guarantee of a blueprint; [strict] is the mode. *)
Record well_formed (strict : bool) (bp : ChainBlueprint) : Prop := {
  wf_connections c : c ∈ connections bp -> from_node c ∈ node_ids bp /\ to_node c ∈ node_ids bp;
  wf_branches b : b ∈ chain_branches bp -> branch_from_node b ∈ node_ids bp /\
    forall named n, named ∈ branches b -> n ∈ snd named -> n ∈ node_ids bp;
  wf_joins j : j ∈ joins bp -> join_to_node j ∈ node_ids bp /\
    forall name, name ∈ from_branches j ->
      exists bd, bd ∈ chain_branches bp /\ name ∈ dkeys (branches bd);
  wf_loops l : l ∈ loops bp -> (forall n, n ∈ path l -> n ∈ node_ids bp) /\ 1 <= max_iterations l;
  wf_strategies j : j ∈ joins bp -> strict = true ->
    merge_strategy j ∈ ["merge"; "append"; "latest"; "concat"];
  wf_quorum j : j ∈ joins bp -> wait_for j = "quorum" ->
    (strict = true -> quorum_count j <> None \/ quorum_ratio j <> None) /\
    (forall x, quorum_ratio j = Some x -> in_unit_interval x) /\
    (forall c, quorum_count j = Some c -> 1 <= c);
}.

(** The ratios are numbers.  A NaN passes the range check, see
    [nan_ratio_valid]. *)
Definition numeric_ratios (bp : ChainBlueprint) : Prop :=
  forall j, j ∈ joins bp -> quorum_ratio j <> Some S754_nan.

Lemma ratio_in_range x :
  x <> S754_nan -> ratio_out_of_range x = false <-> in_unit_interval x.
Proof.
  intros Hx. destruct x as [s|s| |s m e].
  - split; [|done]. destruct s; vm_compute; discriminate.
  - split; [|done]. destruct s; vm_compute; discriminate.
  - done.
  - unfold ratio_out_of_range, fle, fgt, num_le, num_gt, num_cmp.
    assert (ext_of (NFloat (fround_int 1)) = EFin (2 ^ 52) (-52)) as -> by (vm_compute; reflexivity).
    cbn [ext_of ext_of_float ext_cmp fzero in_unit_interval]. unfold scaled_cmp.
    rewrite Z.mul_0_l. pose proof (Z.pow_pos_nonneg 2 (e - Z.min e 0)) as H0.
    destruct s.
    + split; [|done]. destruct (Z.compare_spec (Zneg m * 2 ^ (e - Z.min e 0)) 0) as [H|H|H]; [done|done|nia].
    + destruct (Z.compare_spec (Zpos m * 2 ^ (e - Z.min e 0)) 0) as [H|H|H]; [nia|nia|]. cbn [orb].
      assert (Hiff : (if 0 <=? e then Zpos m * 2 ^ e <= 1 else Zpos m <= 2 ^ (- e)) <->
                     Zpos m * 2 ^ (e - Z.min e (-52)) <= 2 ^ 52 * 2 ^ (-52 - Z.min e (-52))).
      { destruct (Z.leb_spec 0 e).
        - replace (Z.min e (-52)) with (-52) by lia. replace (e - -52) with (e + 52) by lia.
          rewrite Z.pow_add_r by lia. change (-52 - -52) with 0. rewrite Z.mul_assoc, Z.pow_0_r, Z.mul_1_r.
          set (k := 2 ^ e). clearbody k. lia.
        - destruct (Z.le_ge_cases e (-52)).
          + replace (Z.min e (-52)) with e by lia. rewrite Z.sub_diag, Z.pow_0_r, Z.mul_1_r, <- Z.pow_add_r by lia.
            replace (52 + (-52 - e)) with (- e) by lia. done.
          + replace (Z.min e (-52)) with (-52) by lia. change (-52 - -52) with 0. rewrite Z.pow_0_r, Z.mul_1_r.
            replace (2 ^ 52) with (2 ^ (- e) * 2 ^ (e - -52)) by (rewrite <- Z.pow_add_r by lia; f_equal; lia).
            rewrite <- Z.mul_le_mono_pos_r; [done|]. apply Z.pow_pos_nonneg; lia. }
      rewrite Hiff. unfold Z.le. by destruct (_ ?= _).
Qed.

Definition is_error (v : InvariantViolation) : bool := (vi_severity v =? "error")%string.

Lemma is_valid_flag bad v r :
  is_valid (flag bad v r) = is_valid r && negb (bad && is_error v).
Proof.
  unfold flag, is_valid, errors, is_error. destruct bad; cbn; [|by rewrite andb_true_r].
  rewrite List.filter_app, length_app. cbn. destruct (vi_severity v =? "error")%string; cbn.
  - rewrite andb_false_r. apply Nat.eqb_neq. lia.
  - by rewrite Nat.add_0_r, andb_true_r.
Qed.

Lemma is_valid_bump r : is_valid (bump r) = is_valid r.
Proof. done. Qed.

(** A loop of checks is passed when every item passes. *)
Lemma is_valid_fold {A} (f : InvariantReport -> A -> InvariantReport) (ok : A -> bool) l :
  (forall r x, is_valid (f r x) = is_valid r && ok x) ->
  forall r, is_valid (fold_left f l r) = is_valid r && forallb ok l.
Proof.
  intros Hf. induction l as [|x l IH]; intros r; cbn; [by rewrite andb_true_r|].
  by rewrite IH, Hf, andb_assoc.
Qed.

Lemma severity_error b : ((the_severity b =? "error")%string) = b.
Proof. by destruct b. Qed.



Lemma dmem_keys {V} k (d : dict V) : dmem k d = true <-> k ∈ dkeys d.
Proof.
  unfold dmem. destruct (dget k d) eqn:E; [|by rewrite dget_None in E].
  split; [|done]. intros _. destruct (decide (k ∈ dkeys d)) as [|H]; [done|].
  apply dget_None in H. congruence.
Qed.

Section Validity.
Context (strict : bool) (set_order : list string -> list string) (bp : ChainBlueprint).
Context (Hset : forall l, set_order l ≡ₚ l).

Local Abbreviation ids := (node_ids bp).

Lemma defined_spec n : negb (undefined bp n) = true <-> n ∈ ids.
Proof. unfold undefined, node_set. by rewrite negb_involutive, mem_true, elem_of_py_set. Qed.

Lemma valid_connection r c :
  is_valid (check_connection bp r c) =
  is_valid r && (negb (undefined bp (from_node c)) && negb (undefined bp (to_node c))).
Proof.
  unfold check_connection. rewrite !is_valid_flag, is_valid_bump. cbn. by rewrite !andb_true_r, andb_assoc.
Qed.

Lemma valid_branch r b :
  is_valid (check_branch bp r b) =
  is_valid r && (negb (undefined bp (branch_from_node b)) &&
    forallb (fun named => forallb (fun n => negb (undefined bp n)) (snd named)) (branches b)).
Proof.
  unfold check_branch.
  set (r0 := flag (undefined bp (branch_from_node b)) _ _).
  set (r1 := fold_left _ (branches b) r0).
  assert (H1 : is_valid r1 = is_valid r && (negb (undefined bp (branch_from_node b)) &&
    forallb (fun named => forallb (fun n => negb (undefined bp n)) (snd named)) (branches b))).
  { subst r1. rewrite (is_valid_fold _
      (fun named => forallb (fun n => negb (undefined bp n)) (snd named))).
    - subst r0. rewrite is_valid_flag, is_valid_bump. cbn. by rewrite andb_true_r, andb_assoc.
    - intros r' [name l]. cbn. apply is_valid_fold. intros r2 n. unfold check_branch_node.
      rewrite is_valid_flag, is_valid_bump. cbn. by rewrite andb_true_r. }
  destruct (default_branch b) as [d|]; [|exact H1].
  destruct (str_truthy d && negb (dmem d (branches b))); [|exact H1].
  rewrite is_valid_flag, is_valid_bump, H1. cbn. by rewrite andb_true_r.
Qed.

Lemma valid_join r j :
  is_valid (check_join bp r j) =
  is_valid r && (negb (undefined bp (join_to_node j)) && forallb (branch_exists bp) (from_branches j)).
Proof.
  unfold check_join. rewrite (is_valid_fold _ (branch_exists bp)).
  - rewrite is_valid_flag, is_valid_bump. cbn. by rewrite andb_true_r, andb_assoc.
  - intros r' b. rewrite is_valid_flag, is_valid_bump. cbn.
    by rewrite andb_true_r, negb_involutive.
Qed.

Lemma valid_loop r l :
  is_valid (check_loop bp r l) =
  is_valid r && (forallb (fun n => negb (undefined bp n)) (path l) && (1 <=? max_iterations l)).
Proof.
  unfold check_loop. rewrite is_valid_flag, is_valid_bump.
  rewrite (is_valid_fold _ (fun n => negb (undefined bp n))).
  - rewrite is_valid_bump. cbn. rewrite andb_true_r, andb_assoc. f_equal.
    destruct (Z.ltb_spec (max_iterations l) 1), (Z.leb_spec 1 (max_iterations l)); lia || done.
  - intros r' n. rewrite is_valid_flag. cbn. by rewrite andb_true_r.
Qed.

Lemma valid_strategy r j :
  is_valid (check_strategy strict r j) =
  is_valid r && (negb strict || mem (merge_strategy j) supported_strategies).
Proof.
  unfold check_strategy. rewrite is_valid_flag, is_valid_bump. unfold is_error.
  cbn [vi_severity]. unfold governance_severity. rewrite severity_error. f_equal.
  by destruct strict, (mem (merge_strategy j) supported_strategies).
Qed.

Definition quorum_ok (env_strict : bool) (j : JoinDef) : bool :=
  negb (wait_for j =? "quorum")%string ||
  (negb env_strict || match quorum_count j, quorum_ratio j with None, None => false | _, _ => true end) &&
  match quorum_ratio j with Some x => negb (ratio_out_of_range x) | None => true end &&
  match quorum_count j with Some c => 1 <=? c | None => true end.

Lemma valid_wait env_strict r j :
  is_valid (check_wait env_strict r j) = is_valid r && quorum_ok env_strict j.
Proof.
  unfold check_wait, quorum_ok. destruct (wait_for j =? "quorum")%string; cbn [negb orb].
  - rewrite !is_valid_flag, is_valid_bump. unfold is_error. cbn [vi_severity].
    rewrite severity_error. cbn. rewrite !andb_true_r, andb_false_r. cbn. rewrite andb_true_r.
    rewrite !andb_assoc. f_equal; [f_equal; [f_equal|]|].
    + by destruct (quorum_count j), (quorum_ratio j), env_strict.
    + by destruct (quorum_ratio j).
    + destruct (quorum_count j) as [c|]; [|done].
      destruct (Z.ltb_spec c 1), (Z.leb_spec 1 c); lia || done.
  - rewrite is_valid_flag, is_valid_bump. cbn. by rewrite andb_false_r, !andb_true_r.
Qed.

Lemma valid_orphans l r : is_valid (fold_left (check_orphan bp) l r) = is_valid r.
Proof.
  rewrite (is_valid_fold _ (fun _ => true)).
  - rewrite (proj2 (forallb_elem _ _)); [by rewrite andb_true_r|done].
  - intros r' n. unfold check_orphan. rewrite is_valid_flag, is_valid_bump. cbn.
    by rewrite andb_false_r.
Qed.

Lemma check_blueprint_decides :
  numeric_ratios bp ->
  is_valid (check_blueprint strict strict set_order bp) = true <-> well_formed strict bp.
Proof.
  intros Hnan. unfold check_blueprint. rewrite valid_orphans.
  rewrite (is_valid_fold _ _ _ (valid_wait strict)), (is_valid_fold _ _ _ valid_strategy),
    (is_valid_fold _ _ _ valid_loop), (is_valid_fold _ _ _ valid_join),
    (is_valid_fold _ _ _ valid_branch), (is_valid_fold _ _ _ valid_connection).
  cbn [is_valid errors violations List.filter length Nat.eqb andb].
  rewrite !andb_true_iff, !forallb_elem. split.
  - intros (((((H1 & H2) & H3) & H4) & H5) & H6). constructor.
    + intros c Hc. specialize (H1 c Hc). rewrite andb_true_iff, !defined_spec in H1. done.
    + intros b Hb. specialize (H2 b Hb). rewrite andb_true_iff, defined_spec, forallb_elem in H2.
      destruct H2 as [? H2]. split; [done|]. intros named n Hn Hi. specialize (H2 named Hn).
      rewrite forallb_elem in H2. by apply defined_spec, H2.
    + intros j Hj. specialize (H3 j Hj). rewrite andb_true_iff, defined_spec, forallb_elem in H3.
      destruct H3 as [? H3]. split; [done|]. intros name Hn. apply H3, existsb_elem in Hn as (bd & ? & Hd).
      exists bd. split; [done|]. by apply dmem_keys.
    + intros l Hl. specialize (H4 l Hl). rewrite andb_true_iff, forallb_elem, Z.leb_le in H4.
      destruct H4 as [H4 ?]. split; [|done]. intros n Hn. by apply defined_spec, H4.
    + intros j Hj ->. specialize (H5 j Hj). cbn in H5. by apply mem_true.
    + intros j Hj Hw. specialize (H6 j Hj). unfold quorum_ok in H6. rewrite Hw in H6. cbn in H6.
      rewrite !andb_true_iff in H6. destruct H6 as [[H6 H7] H8]. split_and!.
      * intros ->. cbn in H6. destruct (quorum_count j), (quorum_ratio j); auto.
      * intros x Hx. rewrite Hx in H7. apply ratio_in_range; [|by apply negb_true_iff].
        intros ->. by apply (Hnan j).
      * intros c Hc. rewrite Hc in H8. by apply Z.leb_le.
  - intros [H1 H2 H3 H4 H5 H6]. split_and!.
    + intros c Hc. rewrite andb_true_iff, !defined_spec. auto.
    + intros b Hb. rewrite andb_true_iff, defined_spec, forallb_elem. destruct (H2 b Hb) as [? Hn].
      split; [done|]. intros named Hi. apply forallb_elem. intros n Hin. apply defined_spec. eauto.
    + intros j Hj. rewrite andb_true_iff, defined_spec, forallb_elem. destruct (H3 j Hj) as [? Hn].
      split; [done|]. intros name Hi. apply existsb_elem. destruct (Hn name Hi) as (bd & ? & ?).
      exists bd. split; [done|]. by apply dmem_keys.
    + intros l Hl. rewrite andb_true_iff, forallb_elem, Z.leb_le. destruct (H4 l Hl) as [Hn ?].
      split; [|done]. intros n Hin. by apply defined_spec, Hn.
    + intros j Hj. apply orb_true_iff. destruct strict; [right|by left]. by apply mem_true, H5.
    + intros j Hj. unfold quorum_ok. destruct (String.eqb_spec (wait_for j) "quorum") as [Hw|]; [|done].
      destruct (H6 j Hj Hw) as (Q1 & Q2 & Q3). cbn. rewrite !andb_true_iff. split_and!.
      * destruct strict; [|done]. cbn. destruct (Q1 eq_refl); by destruct (quorum_count j), (quorum_ratio j).
      * destruct (quorum_ratio j) as [x|] eqn:Ex; [|done]. apply negb_true_iff, ratio_in_range; [|by apply Q2].
        intros ->. by apply (Hnan j).
      * destruct (quorum_count j); [|done]. by apply Z.leb_le, Q3.
Qed.
End Validity.

(** The flag [k] of a configuration is set. *)
Definition flagged (k : string) (config : pyctx) : Prop :=
  exists v, dget k config = Some v /\ truthy v = true.

(** The effect is declared. *)
Definition declared (config : pyctx) (effect : string) : Prop :=
  exists l, dget "side_effects" config = Some (VList l) /\ VStr effect ∈ l.

(** The policies an effect calls for: outbound calls, under every name they
    have, are tools, memory is read and written under one policy. *)
Definition calls_for (effect type : string) : Prop :=
  effect ∈ ["external_call"; "external_api_read"; "api_call"; "search"; "external_read"; "external_write"] /\
    type = "tool_access" \/
  effect ∈ ["memory_write"; "memory_read"] /\ type = "memory_access".

(** The blueprint asks for a trace. *)
Definition demands_trace (bp : ChainBlueprint) : Prop :=
  flagged "required" (chain_trace bp) \/
  exists i, i ∈ invariants bp /\ contains "trace" (lower (invariant_id i)) = true /\
    enforcement i ∈ ["runtime"; "both"].

(** What the governance checks are to guarantee of a run in strict mode. *)
Section Governed.
Context (bp : ChainBlueprint) (node_configs : dict pyctx) (policies : option (list pyctx)).
Context (cancellation_policies : option (dict string)).

Local Abbreviation types := (policy_types policies).

(** A policy of type [t] is registered, when policies are given at all. *)
Definition covered_by (t : string) : Prop :=
  forall ps, policies = Some ps -> exists p, p ∈ ps /\
    (dget "type" p = Some (VStr t) \/ dget "type" p = None /\ dget "policy_type" p = Some (VStr t)).

Record node_governed (config : pyctx) : Prop := {
  ng_model : flagged "model_required" config -> covered_by "model_access";
  ng_tools : flagged "can_call_tools" config -> covered_by "tool_access";
  ng_memory : flagged "can_write_memory" config ->
    covered_by "memory_access" /\ declared config "memory_write";
  ng_declared : flagged "has_side_effects" config -> exists e, declared config e;
  ng_effects e t : declared config e -> calls_for e t -> covered_by t;
}.

Record governed : Prop := {
  gv_nodes n : n ∈ node_ids bp -> node_governed (dget_or n [] node_configs);
  gv_review : gates bp <> [] -> covered_by "trust_level" \/ covered_by "review";
  gv_joins j : j ∈ joins bp -> wait_for j = "any" ->
    exists d v, cancellation_policies = Some d /\ dget (join_id j) d = Some v;
  gv_trace : demands_trace bp ->
    exists n kw, n ∈ node_ids bp /\ kw ∈ ["trace"; "audit"; "reconciler"] /\ contains kw (lower n) = true;
}.

Lemma flagged_spec k config : config_flag k config = true <-> flagged k config.
Proof. unfold config_flag, flagged. destruct (dget k config); naive_solver. Qed.

Lemma declared_spec config e : e ∈ config_effects config <-> declared config e.
Proof.
  unfold config_effects, declared. destruct (dget "side_effects" config) as [[]|];
    try (split; [by intros ?%elem_of_nil|naive_solver]).
  rewrite list_elem_of_omap. split.
  - intros (v & Hv & He). destruct v; try discriminate. injection He as ->. eauto.
  - intros (l' & [= <-] & He). by exists (VStr e).
Qed.

Lemma covered_spec ps t :
  policies = Some ps -> t <> "" -> t ∈ types <-> covered_by t.
Proof.
  intros Hps Ht. unfold covered_by, policy_types. rewrite Hps, elem_of_py_set, list_elem_of_omap.
  assert (Htext : forall v, match v with VStr s => if str_truthy s then Some s else None | _ => None end =
            Some t <-> v = VStr t).
  { intros v. destruct v as [| | | |s| |]; try (split; [discriminate|congruence]).
    unfold str_truthy. destruct (String.eqb_spec s "") as [->|]; cbn [negb]; split; congruence. }
  assert (Hp : forall p, policy_type_of p = Some t <->
     dget "type" p = Some (VStr t) \/ dget "type" p = None /\ dget "policy_type" p = Some (VStr t)).
  { intros p. unfold policy_type_of. destruct (dget "type" p) as [v|]; [rewrite Htext; naive_solver|].
    destruct (dget "policy_type" p) as [v|]; [|naive_solver]. rewrite Htext. naive_solver. }
  split.
  - intros (p & Hi & Hd) ps' E. injection E as <-. exists p. split; [done|]. by apply Hp.
  - intros Hd. destruct (Hd ps eq_refl) as (p & Hi & H'). exists p. split; [done|]. by apply Hp.
Qed.

Lemma required_policy_spec e t : required_policy e = Some t <-> calls_for e t.
Proof.
  unfold required_policy, calls_for, normalize_side_effect_type. rewrite <- !mem_true.
  cbn [SIDE_EFFECT_CANONICAL SideEffectType_value dget mem existsb orb].
  destruct (String.eqb_spec e "") as [->|He]; [cbn; naive_solver|].
  unfold str_truthy. rewrite (proj2 (String.eqb_neq _ _) He). cbn [negb].
  repeat match goal with
  | |- context [String.eqb e ?k] => destruct (String.eqb_spec e k) as [->|]; [first [congruence|cbn; clear; naive_solver]|]
  end.
  cbn. split; [intros H; discriminate H|intros [[H _]|[H _]]; discriminate H].
Qed.

Lemma required_nonempty e t : required_policy e = Some t -> t <> "".
Proof. rewrite required_policy_spec. by intros [[_ ->]|[_ ->]]. Qed.

Lemma lacks_spec t : t <> "" -> lacks policies t = false <-> covered_by t.
Proof.
  intros Ht. unfold lacks. destruct policies as [ps|] eqn:E;
    [|by split; [intros _ ps Hps; congruence|]].
  rewrite negb_false_iff, mem_true, <- E. by apply (covered_spec ps).
Qed.

Lemma uncovered_spec effects :
  uncovered policies effects = [] <->
  forall e t, e ∈ effects -> required_policy e = Some t -> t ∈ types.
Proof.
  unfold uncovered. induction effects as [|e l IH]; cbn.
  { split; [|done]. intros _ e t He. by apply elem_of_nil in He. }
  destruct (required_policy e) as [t|] eqn:Er.
  - destruct (mem_spec t types) as [Ht|Ht]; cbn.
    + rewrite IH. split; [|intros H e' t' He; apply H; by right].
      intros H e' t' [->|He]%elem_of_cons Hr; [congruence|eauto].
    + split; [discriminate|]. intros H. destruct Ht. apply (H e t); [left|done].
  - rewrite IH. split; [|intros H e' t' He; apply H; by right].
    intros H e' t' [->|He]%elem_of_cons Hr; [congruence|eauto].
Qed.

Context (strict : bool) (set_order : list string -> list string).
Context (Hset : forall l, set_order l ≡ₚ l).

(** The checks of one node, as a test. *)
Definition node_ok (n : string) : bool :=
  let config := dget_or n [] node_configs in
  negb (config_flag "model_required" config && lacks policies "model_access") &&
  negb (config_flag "can_call_tools" config && lacks policies "tool_access") &&
  (negb (config_flag "can_write_memory" config) ||
   negb (lacks policies "memory_access") && mem "memory_write" (config_effects config)) &&
  negb (config_flag "has_side_effects" config && negb (nonempty (config_effects config))) &&
  negb (match policies with Some _ => nonempty (uncovered policies (config_effects config)) | None => false end).

Lemma node_ok_spec n : node_ok n = true <-> node_governed (dget_or n [] node_configs).
Proof.
  unfold node_ok. set (config := dget_or n [] node_configs).
  assert (Hu : match policies with Some _ => nonempty (uncovered policies (config_effects config))
               | None => false end = false <->
               forall e t, declared config e -> calls_for e t -> covered_by t).
  { transitivity (forall e t, e ∈ config_effects config -> required_policy e = Some t -> covered_by t);
      [|by setoid_rewrite declared_spec; setoid_rewrite required_policy_spec].
    destruct policies as [ps|] eqn:Ep; [|by split; [intros _ e t _ _ ps Hps; congruence|]].
    rewrite nonempty_false, <- Ep, uncovered_spec.
    split; intros H e t He Hr; apply (covered_spec ps); eauto; by eapply required_nonempty. }
  rewrite !andb_true_iff, !negb_true_iff, Hu, !andb_false_iff, !lacks_spec, negb_false_iff, orb_true_iff,
    negb_true_iff, andb_true_iff, negb_true_iff, lacks_spec, mem_true, nonempty_true, declared_spec by done.
  assert (Hf : forall k, config_flag k config = false <-> ~ flagged k config).
  { intros k. rewrite <- flagged_spec. by destruct (config_flag k config). }
  assert (Hd : config_effects config <> [] <-> exists e, declared config e).
  { setoid_rewrite <- declared_spec. destruct (config_effects config) as [|e l]; split; [done| |eexists; left|done].
    by intros [e ?%elem_of_nil]. }
  assert (Himp : forall k P, ~ flagged k config \/ P <-> (flagged k config -> P)).
  { intros k P. rewrite <- Hf, <- flagged_spec. destruct (config_flag k config); naive_solver. }
  rewrite !Hf, Hd, !Himp. split; [by intros ((((? & ?) & ?) & ?) & ?)|by intros []].
Qed.

Lemma valid_node r n :
  is_valid (check_node strict node_configs policies r n) = is_valid r && (negb strict || node_ok n).
Proof.
  unfold check_node, node_ok. set (config := dget_or n [] node_configs).
  set (bad := uncovered policies (config_effects config)).
  rewrite is_valid_flag, is_valid_bump, is_valid_flag, is_valid_bump.
  destruct (config_flag "can_write_memory" config); rewrite ?is_valid_flag, ?is_valid_bump, ?is_valid_flag;
    rewrite ?is_valid_bump, ?is_valid_flag, ?is_valid_bump, ?is_valid_flag, ?is_valid_bump;
    unfold is_error, governance_severity; cbn [vi_severity]; rewrite !severity_error;
    destruct strict; rewrite ?andb_true_r, ?andb_false_r; cbn [negb orb]; rewrite ?andb_true_r;
    try done; rewrite !andb_assoc; cbn; rewrite ?andb_true_r; try done.
  by rewrite negb_involutive.
Qed.

Lemma valid_review r :
  is_valid (check_review strict bp policies r) =
  is_valid r && (negb strict || negb (nonempty (gates bp) && (lacks policies "trust_level" && lacks policies "review"))).
Proof.
  unfold check_review. rewrite is_valid_flag, is_valid_bump. unfold is_error, governance_severity.
  cbn [vi_severity]. rewrite severity_error. destruct strict; [by rewrite andb_true_r|by rewrite andb_false_r].
Qed.

Lemma valid_any_join r j :
  is_valid (check_any_join strict cancellation_policies r j) =
  is_valid r && (negb strict || (negb (wait_for j =? "any")%string ||
                  match cancellation_policies ≫= dget (join_id j) with Some _ => true | None => false end)).
Proof.
  unfold check_any_join. destruct (wait_for j =? "any")%string; cbn [negb orb];
    [|by rewrite is_valid_bump, orb_true_r, andb_true_r].
  destruct (cancellation_policies ≫= dget (join_id j)) as [v|].
  - rewrite is_valid_flag, !is_valid_bump. cbn. by rewrite andb_false_r, orb_true_r.
  - rewrite is_valid_flag, is_valid_bump. unfold is_error, governance_severity. cbn [vi_severity].
    rewrite severity_error. by destruct strict.
Qed.

Lemma valid_trace r :
  is_valid (check_trace strict set_order bp r) =
  is_valid r && (negb strict || negb (trace_required bp && negb (existsb is_trace_node (set_order (node_set bp))))).
Proof.
  unfold check_trace. rewrite is_valid_flag, is_valid_bump. unfold is_error, governance_severity.
  cbn [vi_severity]. destruct strict; cbn [the_severity negb orb String.eqb Ascii.eqb Bool.eqb];
    [by rewrite andb_true_r|by rewrite andb_false_r].
Qed.

Lemma valid_loop_path r l : is_valid (check_loop_path r l) = is_valid r.
Proof.
  unfold check_loop_path.
  assert (H : is_valid (flag (length (path l) <? 2)%nat
                (mkViolation "loop_path_minimum_length" "warning" "" []) (bump r)) = is_valid r).
  { rewrite is_valid_flag, is_valid_bump. cbn. by rewrite andb_false_r, andb_true_r. }
  destruct (path l) as [|a [|b t]]; [exact H|exact H|].
  destruct (last _) as [z|]; [|exact H]. destruct (a =? z)%string; [|exact H].
  rewrite is_valid_flag, is_valid_bump, H. cbn. by rewrite andb_true_r.
Qed.

Lemma forallb_orb {A} (b : bool) (p : A -> bool) l :
  forallb (fun x => negb b || p x) l = (negb b || forallb p l).
Proof. destruct b; cbn; [done|]. by induction l. Qed.

Lemma trace_required_spec : trace_required bp = true <-> demands_trace bp.
Proof.
  unfold trace_required, demands_trace. rewrite orb_true_iff, flagged_spec, existsb_elem.
  setoid_rewrite andb_true_iff. by setoid_rewrite mem_true.
Qed.

Lemma trace_node_spec :
  existsb is_trace_node (set_order (node_set bp)) = true <->
  exists n kw, n ∈ node_ids bp /\ kw ∈ ["trace"; "audit"; "reconciler"] /\ contains kw (lower n) = true.
Proof.
  unfold is_trace_node. rewrite existsb_elem. setoid_rewrite existsb_elem. unfold node_set.
  setoid_rewrite Hset. setoid_rewrite elem_of_py_set. naive_solver.
Qed.

Lemma check_runtime_decides :
  numeric_ratios bp ->
  is_valid (check_runtime strict strict set_order bp node_configs policies cancellation_policies) = true <->
  well_formed strict bp /\ (strict = true -> governed).
Proof.
  intros Hnan. unfold check_runtime.
  rewrite (is_valid_fold _ (fun _ => true)) by (intros; by rewrite valid_loop_path, andb_true_r).
  rewrite valid_trace, (is_valid_fold _ _ _ valid_any_join), valid_review,
    (is_valid_fold _ _ _ valid_node), !forallb_orb.
  rewrite (proj2 (forallb_elem _ (loops bp))) by done. rewrite andb_true_r, !andb_true_iff,
    (check_blueprint_decides strict set_order bp Hnan). destruct strict; cbn [negb orb];
    [|split; [by intros ((((Hw & _) & _) & _) & _)|by intros [Hw _]]].
  rewrite !forallb_elem, !negb_true_iff, !andb_false_iff, negb_false_iff, !lacks_spec,
      nonempty_false, trace_node_spec by done.
  split.
  - intros ((((Hw & H1) & H2) & H3) & H4). split; [done|]. intros _. constructor.
    + intros n Hn. apply node_ok_spec, H1. by rewrite Hset; apply elem_of_py_set.
    + intros Hg. by destruct H2.
    + intros j Hj Hw'. specialize (H3 j Hj). rewrite Hw' in H3. cbn in H3.
      destruct cancellation_policies as [d|]; [|done]. cbn in H3.
      destruct (dget (join_id j) d) as [v|] eqn:Ed; [|done]. by exists d, v.
    + intros Ht%trace_required_spec. destruct H4; [congruence|done].
  - intros [Hw Hg]. destruct (Hg eq_refl) as [H1 H2 H3 H4]. split_and!; try done.
    + intros n Hn. apply node_ok_spec, H1. rewrite Hset in Hn. by apply elem_of_py_set.
    + destruct (gates bp); [by left|]. right. by apply H2.
    + intros j Hj. destruct (String.eqb_spec (wait_for j) "any") as [Hw'|]; [|done].
      destruct (H3 j Hj Hw') as (d & v & -> & Hd). cbn. by rewrite Hd.
    + destruct (trace_required bp) eqn:E; [|by left]. right. by apply H4, trace_required_spec.
Qed.
End Governed.

(** C37: The engine decides its invariants in the mode of the environment,
    strict or not: when no quorum ratio is a NaN, the structural report has
    no error exactly for well-formed blueprints, and the runtime report
    exactly when moreover, in strict mode, every capability and every effect
    of every node has its policy, memory writers and effectful nodes declare
    their effects, every review gate and any-join has its rule, and a
    required trace its node.  In the default mode governance never blocks. *)
Theorem invariants_decided strict set_order bp node_configs policies cancellation :
  (forall l, set_order l ≡ₚ l) -> numeric_ratios bp ->
  (is_valid (check_blueprint strict strict set_order bp) = true <-> well_formed strict bp) /\
  (is_valid (check_runtime strict strict set_order bp node_configs policies cancellation) = true <->
   well_formed strict bp /\
   (strict = true -> governed bp node_configs policies cancellation)).
Proof.
  intros Hset Hnan. split; [by apply check_blueprint_decides|by apply check_runtime_decides].
Qed.

(** ** A blueprint with a quorum *)

Definition demo_blueprint (ratio : pyfloat) (target : string) : ChainBlueprint :=
  mkBlueprint "c" "chain" "1.0.0" "" "g" (map (fun n => mkNodeDef n "model" [] 0) ["a"; "b"; "z"])
    [mkConnection "a" "out" target "in" None None] [mkLoop "l" "" "" 2 fzero ["a"; "b"] None]
    [mkBranch "br" "a" [("x", ["b"])] None]
    [mkJoin "j" "z" ["x"] "quorum" "merge" None (Some ratio) "cancel"] [] [] [] [] [] "".

Lemma invariants_decided_witness :
  well_formed false (demo_blueprint (fround_int 1) "z") /\
  ~ well_formed false (demo_blueprint (fround_int 1) "y").
Proof.
  assert (Hn : forall target, numeric_ratios (demo_blueprint (fround_int 1) target)).
  { intros target j ->%list_elem_of_singleton. discriminate. }
  split.
  - apply (proj1 (invariants_decided false (fun l => l) (demo_blueprint (fround_int 1) "z") [] None None
             (fun l => reflexivity l) (Hn _))). vm_compute. reflexivity.
  - intros H. apply (proj1 (invariants_decided false (fun l => l) (demo_blueprint (fround_int 1) "y")
             [] None None (fun l => reflexivity l) (Hn _))) in H. vm_compute in H. discriminate H.
Defined.

(** A quorum ratio that is no number passes the range check. *)
Example nan_ratio_valid :
  is_valid (check_blueprint true true (fun l => l) (demo_blueprint S754_nan "z")) = true.
Proof. vm_compute. reflexivity. Qed.

(** The quorum's own configuration is judged by the environment and not by
    the mode the engine was given: without it an engine made strict only
    warns, and with it one made lenient fails. *)
Definition unconfigured_quorum : ChainBlueprint :=
  mkBlueprint "c" "chain" "1.0.0" "" "g" (map (fun n => mkNodeDef n "model" [] 0) ["a"; "b"; "z"])
    [] [] [mkBranch "br" "a" [("x", ["b"])] None]
    [mkJoin "j" "z" ["x"] "quorum" "merge" None None "cancel"] [] [] [] [] [] "".

Example quorum_ignores_engine_mode :
  is_valid (check_blueprint true false (fun l => l) unconfigured_quorum) = true /\
  is_valid (check_blueprint false true (fun l => l) unconfigured_quorum) = false.
Proof. split; vm_compute; reflexivity. Qed.
