(* ===== verification/Preflight.v ===== *)
(** * The preflight of a run

    [runtime/contract_preflight_controller.py] and the head of
    [Orchestrator.run] of [runtime/orchestrator.py]: contracts, ports and
    invariants are checked before the first node is called.  [nodes] are the
    registered nodes with their contracts, [env] the value of
    NODECHAIN_GOVERNANCE_STRICT.  What the package index adds to a node's
    configuration is not read by the checks and left out. *)
From S2P Require Import Prelude PyFloat PyValue Contract Blueprint PortCompat Policy BranchExecutor Scheduler.
From S2P Require InvariantEngine.

Section Preflight.
Context (set_order : list string -> list string).
Context (bp : ChainBlueprint) (nodes : dict NodeContract) (engine : PolicyEngine) (env : string).

Definition strict_mode : bool := InvariantEngine.governance_strict env.

(** The contract registry of the orchestrator. *)
Definition registry : ContractRegistry :=
  fold_left (fun r nc => Contract.register r (snd nc)) nodes [].

Definition connection_pairs : list (dict string) :=
  map (fun c => [("from_node", from_node c); ("to_node", to_node c)]) (connections bp).

Inductive preflight_issue :=
| ContractIssue (i : Issue)
| PortError (i : PortIssue).

(** [ContractPreflightController.validate]: the issues, and the node and
    codes of each [contract_validated] event. *)
Definition validate : res contract_error (list preflight_issue * list (string * list Issue)) :=
  results ← validate_connections registry connection_pairs;
  let bad := List.filter (fun r => negb (compatible r)) results in
  let ports := validate_port_compatibility bp registry strict_mode in
  Ok (flat_map (fun r => map ContractIssue (issues r)) bad ++ map PortError (report_errors ports),
      map (fun r => (source_node r, issues r)) bad).

(** The configuration of a node, from its contract. *)
Definition run_node_config (c : NodeContract) : pyctx :=
  let reqs := requirements c in
  [ ("model_required", VBool (model_required reqs));
    ("can_call_tools", VBool (nonempty (tools_required reqs)));
    ("can_write_memory", VBool (mem (memory_access reqs) ["write"; "read_write"]));
    ("has_side_effects", VBool (nonempty (side_effects c)));
    ("side_effects", strs (map effect_type (side_effects c))) ].

Definition node_configs : dict pyctx :=
  fold_left (fun d nc => dset (fst nc) (run_node_config (snd nc)) d) nodes [].

Definition policies_raw : list pyctx :=
  map (fun kp => [("type", VStr (PolicyType_value (policy_type (snd kp))))]) engine.

(** [{j.join_id: "allow_all" for j in joins if j.wait_for == "any"}] *)
Definition run_cancellations : dict string :=
  fold_left (fun d j => if (wait_for j =? "any")%string then dset (join_id j) "allow_all" d else d)
    (joins bp) [].

Definition blueprint_report : InvariantEngine.InvariantReport :=
  InvariantEngine.check_blueprint strict_mode strict_mode set_order bp.

Definition governance_report : InvariantEngine.InvariantReport :=
  InvariantEngine.check_runtime strict_mode strict_mode set_order bp node_configs (Some policies_raw)
    (Some run_cancellations).

(** The reason with which the chain fails, or the order to execute with the
    governance warnings that go to the trace. *)
Inductive preflight_result :=
| ContractsFailed (l : list preflight_issue)
| BlueprintFailed (l : list InvariantEngine.InvariantViolation)
| GovernanceFailed (l : list InvariantEngine.InvariantViolation)
| Cleared (order : list string) (warned : list InvariantEngine.InvariantViolation).

(** [Orchestrator.run] up to the execution loop. *)
Definition preflight : res contract_error (option preflight_result) :=
  v ← validate;
  match fst v with
  | (_ :: _) as l => Ok (Some (ContractsFailed l))
  | [] =>
      if negb (InvariantEngine.is_valid blueprint_report)
      then Ok (Some (BlueprintFailed (InvariantEngine.errors blueprint_report)))
      else match InvariantEngine.errors governance_report with
           | (_ :: _) as l => Ok (Some (GovernanceFailed l))
           | [] => Ok (option_map (fun order => Cleared order (InvariantEngine.warnings governance_report))
                         (resolve_execution_order bp set_order))
           end
  end.
End Preflight.

(** ** What a cleared run can rely on *)

(** A traversal stays among the roots and the targets of connections. *)
Lemma bfs_within bp (P : string -> Prop) fuel : forall queue visited order res,
  (forall c, c ∈ connections bp -> P (to_node c)) ->
  Forall P queue -> Forall P order -> bfs bp fuel queue visited order = Some res -> Forall P res.
Proof.
  induction fuel as [|fuel IH]; intros [|n queue] visited order res Hc Hq Ho H; cbn in H;
    try discriminate; try (by injection H as <-).
  apply Forall_cons in Hq as [Hn Hq]. destruct (mem n visited); [exact (IH _ _ _ _ Hc Hq Ho H)|].
  eapply IH; [exact Hc| | |exact H].
  - apply Forall_app. split; [done|]. apply Forall_forall. intros m Hm%list_elem_of_In.
    apply List.filter_In in Hm as [Hm _]. apply list_elem_of_In, elem_of_successors in Hm.
    destruct Hm as (c & Hin & _ & <-). by apply Hc.
  - apply Forall_app. by split; [|constructor].
Qed.

Lemma order_within bp set_order order :
  (forall l, set_order l ≡ₚ l) -> (forall c, c ∈ connections bp -> to_node c ∈ node_ids bp) ->
  resolve_execution_order bp set_order = Some order -> forall n, n ∈ order -> n ∈ node_ids bp.
Proof.
  intros Hset Hc. unfold resolve_execution_order.
  assert (Hall : forall n, n ∈ all_nodes bp set_order -> n ∈ node_ids bp).
  { intros n. unfold all_nodes. rewrite Hset. by rewrite elem_of_py_set. }
  destruct (bfs bp _ _ _ _) as [o|] eqn:E; [|discriminate]. intros [= <-] n Hn%list_elem_of_In.
  apply List.filter_In in Hn as [Hn _]. apply in_app_or in Hn as [Hn|Hn].
  - apply list_elem_of_In in Hn. refine (proj1 (Forall_forall (fun n => n ∈ node_ids bp) o) _ n Hn).
    eapply (bfs_within bp (fun n => n ∈ node_ids bp)); [exact Hc| |constructor|exact E].
    apply Forall_forall. intros m Hm%list_elem_of_In. apply List.filter_In in Hm as [Hm _].
    by apply Hall, list_elem_of_In.
  - apply List.filter_In in Hn as [Hn _]. by apply Hall, list_elem_of_In.
Qed.

Section Cleared.
Context (set_order : list string -> list string).
Context (bp : ChainBlueprint) (nodes : dict NodeContract) (engine : PolicyEngine) (env : string).
Context (Hset : forall l, set_order l ≡ₚ l).
(** Nodes are registered under the id of their contract. *)
Context (Hkeys : NoDup (dkeys nodes)).
Context (Hids : forall n c, dget n nodes = Some c -> contract_node_id c = n).

Local Abbreviation reg := (registry nodes).
Local Abbreviation strict := (strict_mode env).

Lemma registry_get n : dget n reg = dget n nodes.
Proof.
  assert (Hgen : forall l acc, NoDup (dkeys l) ->
            (forall k c, (k, c) ∈ l -> contract_node_id c = k) ->
            dget n (fold_left (fun r nc => Contract.register r (snd nc)) l acc) =
            match dget n l with Some c => Some c | None => dget n acc end).
  { induction l as [|[k c] l IH]; intros acc Hn Hk; [done|]. cbn in Hn. apply NoDup_cons in Hn as [Hk' Hn].
    cbn [fold_left snd dget]. rewrite IH; [|done|intros; apply Hk; by right].
    unfold Contract.register. rewrite (Hk k c) by left.
    destruct (String.eqb_spec n k) as [->|Hne].
    - rewrite dget_dset_same. assert (dget k l = None) as ->; [|done].
      destruct (dget k l) as [c'|] eqn:Ed; [|done]. exfalso. apply Hk'.
      apply list_elem_of_In, in_map_iff. exists (k, c'). split; [done|]. by apply list_elem_of_In, dget_In.
    - rewrite dget_dset_other by done. done. }
  unfold registry. rewrite Hgen; [|done|].
  - by destruct (dget n nodes).
  - intros k c Hi. apply Hids. by apply elem_dget.
Qed.

Lemma pair_results l :
  validate_connections reg
    (map (fun c => [("from_node", from_node c); ("to_node", to_node c)]) l) =
  Ok (map (fun c => validate_connection reg (from_node c) (to_node c)) l).
Proof. induction l as [|c l IH]; [done|]. cbn [map validate_connections]. by rewrite IH. Qed.

(** The issues are empty exactly when the ports are valid: the port check
    contains the contract check. *)
Lemma validate_issues :
  exists l evs, validate bp nodes env = Ok (l, evs) /\
    (l = [] <-> is_valid (validate_port_compatibility bp reg strict) = true).
Proof.
  unfold validate, connection_pairs. rewrite pair_results. cbn [mbind res_bind].
  set (results := map _ (connections bp)). eexists _, _. split; [reflexivity|]. split.
  - intros [_ H]%app_eq_nil. unfold is_valid. apply map_eq_nil in H. by rewrite H.
  - intros Hv. apply app_nil. split.
    + assert (Hc := Hv). apply validate_valid in Hc as [Hc _].
      assert (List.filter (fun r => negb (compatible r)) results = []) as ->; [|done].
      destruct (List.filter _ results) as [|r rest] eqn:E; [done|]. exfalso.
      assert (Hr : In r (List.filter (fun r => negb (compatible r)) results)) by (rewrite E; by left).
      apply List.filter_In in Hr as [Hr Hn]. apply in_map_iff in Hr as (c & <- & Hin%list_elem_of_In).
      destruct (Hc c Hin) as (s & t & Hs & Ht & Hf & _). unfold validate_connection in Hn.
      rewrite Hs, Ht in Hn. apply check_compatibility_fit in Hf. by rewrite Hf in Hn.
    + unfold is_valid in Hv. apply Nat.eqb_eq, length_zero_iff_nil in Hv. by rewrite Hv.
Qed.

Lemma resolve_total : exists order, resolve_execution_order bp set_order = Some order.
Proof.
  destruct (traversal bp (roots bp set_order)) as (res & Hr & _).
  unfold resolve_execution_order. rewrite Hr. by eexists.
Qed.

Lemma errors_nil r : InvariantEngine.errors r = [] <-> InvariantEngine.is_valid r = true.
Proof. unfold InvariantEngine.is_valid. by rewrite Nat.eqb_eq, length_zero_iff_nil. Qed.

Local Abbreviation governed :=
  (InvariantEngine.governed bp (node_configs nodes) (Some (policies_raw engine)) (Some (run_cancellations bp))).

(** Every optional input of the target is produced, if not always. *)
Definition optional_available (c : ConnectionDef) : Prop :=
  forall s t f, dget (from_node c) nodes = Some s -> dget (to_node c) nodes = Some t ->
    f ∈ optional_fields (entry t) -> f ∈ guaranteed_fields (exit s) \/ f ∈ possible_fields (exit s).

(** The answer of the preflight: it clears the run exactly when every part
    fits. *)
Lemma preflight_answer :
  InvariantEngine.numeric_ratios bp ->
  exists r order w, preflight set_order bp nodes engine env = Ok (Some r) /\
  (r = Cleared order w <->
   (forall c, c ∈ connections bp -> connection_fits reg strict c) /\
   (forall b, b ∈ chain_branches bp -> fan_out_fits reg b) /\
   (forall j, j ∈ joins bp -> fan_in_fits bp reg j) /\
   InvariantEngine.well_formed strict bp /\ (strict = true -> governed)) /\
  (forall o w', r = Cleared o w' -> o = order /\ w' = w) /\
  resolve_execution_order bp set_order = Some order /\
  w = InvariantEngine.warnings (governance_report set_order bp nodes engine env).
Proof.
  intros Hnan. unfold preflight. destruct validate_issues as (l & evs & -> & Hl). cbn [mbind res_bind fst].
  assert (Hb : InvariantEngine.is_valid (blueprint_report set_order bp env) = true <->
               InvariantEngine.well_formed strict bp)
    by by apply InvariantEngine.check_blueprint_decides.
  assert (Hg : InvariantEngine.errors (governance_report set_order bp nodes engine env) = [] <->
               InvariantEngine.well_formed strict bp /\ (strict = true -> governed))
    by (rewrite errors_nil; by apply InvariantEngine.check_runtime_decides).
  assert (Hp := validate_valid bp reg strict). rewrite Hp in Hl. clear Hp.
  destruct resolve_total as [order Ho]. rewrite Ho.
  destruct l as [|i l]; [destruct (InvariantEngine.is_valid (blueprint_report set_order bp env)) eqn:Eb;
    [destruct (InvariantEngine.errors (governance_report set_order bp nodes engine env)) as [|e es] eqn:Ee|]|];
    cbn [negb option_map]; eexists _, order, _; (split; [reflexivity|]); split_and!; try done; naive_solver.
Qed.

(** C36: When no quorum ratio is a NaN: a run the preflight clears has
    connections, branches and joins that fit the contracts, a well-formed
    blueprint and, in strict mode, governance for every node, gate, join and
    trace; it schedules only nodes the blueprint declares, its connections
    join registered nodes and outputs to inputs of the same type, and what
    it reports beside the order are all the warnings of the engine.
    Conversely the preflight answers and clears every such run; in strict
    mode this is said of runs whose optional inputs are all produced. *)
Theorem preflight_sound :
  InvariantEngine.numeric_ratios bp ->
  (forall order w, preflight set_order bp nodes engine env = Ok (Some (Cleared order w)) ->
   (forall c, c ∈ connections bp -> connection_fits reg strict c) /\
   (forall b, b ∈ chain_branches bp -> fan_out_fits reg b) /\
   (forall j, j ∈ joins bp -> fan_in_fits bp reg j) /\
   InvariantEngine.well_formed strict bp /\ (strict = true -> governed) /\
   (forall n, n ∈ order -> n ∈ node_ids bp) /\
   (forall c, c ∈ connections bp -> exists s t,
      dget (from_node c) nodes = Some s /\ dget (to_node c) nodes = Some t /\
      output_type (exit s) = input_type (entry t)) /\
   (forall v, v ∈ w <->
      v ∈ InvariantEngine.violations (governance_report set_order bp nodes engine env) /\
      InvariantEngine.vi_severity v = "warning")) /\
  ((forall c, c ∈ connections bp -> connection_fits reg strict c) ->
   (forall b, b ∈ chain_branches bp -> fan_out_fits reg b) ->
   (forall j, j ∈ joins bp -> fan_in_fits bp reg j) ->
   InvariantEngine.well_formed strict bp ->
   (strict = true -> governed /\ forall c, c ∈ connections bp -> optional_available c) ->
   exists order w, preflight set_order bp nodes engine env = Ok (Some (Cleared order w))).
Proof.
  intros Hnan. destruct (preflight_answer Hnan) as (r & order & w & -> & Hiff & Huniq & Ho & Hw). split.
  - intros o w' [= ->]. destruct (Huniq o w' eq_refl) as [-> ->].
    destruct (proj1 Hiff eq_refl) as (Hc & Hb & Hj & Hwf & Hg). split_and!; try done.
    + intros n Hn. eapply order_within; [exact Hset| |exact Ho|exact Hn].
      intros c Hin. by apply (InvariantEngine.wf_connections _ _ Hwf).
    + intros c Hin. destruct (Hc c Hin) as (s & t & Hs & Ht & [Hf _] & _).
      rewrite registry_get in Hs, Ht. by exists s, t.
    + intros v. rewrite Hw. unfold InvariantEngine.warnings.
      by rewrite list_elem_of_In, filter_In, String.eqb_eq, <- list_elem_of_In.
  - intros Hc Hb Hj Hwf Hg. exists order, w. do 2 f_equal. apply Hiff. split_and!; try done.
    intros Hs. by apply Hg.
Qed.
End Cleared.

(** The any-join check is asked with a rule for every any-join, whatever the
    blueprint declares. *)
Lemma any_join_always_covered bp j :
  j ∈ joins bp -> wait_for j = "any" -> dget (join_id j) (run_cancellations bp) = Some "allow_all".
Proof.
  intros Hj Hw. unfold run_cancellations.
  set (f := fun d j => _).
  assert (Hkeep : forall l d, dget (join_id j) d = Some "allow_all" ->
            dget (join_id j) (fold_left f l d) = Some "allow_all").
  { induction l as [|x l IH]; intros d Hd; [done|]. apply IH. subst f. cbn.
    destruct (wait_for x =? "any")%string; [|done].
    destruct (String.eqb_spec (join_id j) (join_id x)) as [->|Hne];
      [by rewrite dget_dset_same|by rewrite dget_dset_other]. }
  generalize (@nil (string * string)). induction (joins bp) as [|x l IH]; [by apply elem_of_nil in Hj|].
  intros d. cbn [fold_left]. apply elem_of_cons in Hj as [<-|Hj]; [|by apply IH].
  apply Hkeep. subst f. cbn. rewrite Hw. cbn. by rewrite dget_dset_same.
Qed.

(** ** Two chains *)

Definition demo_nodes (memory : string) (effects : list SideEffect) : dict NodeContract :=
  [ ("a", mkContract "a.v1" "a" "1" (mkEntry "raw" "" [] []) (mkExit "text" "" ["q"] [] None) [] demo_requirements);
    ("b", mkContract "b.v1" "b" "1" (mkEntry "text" "" ["q"] []) (mkExit "plan" "" [] [] None) effects
            (mkRequirements false [] [] [] memory "trusted" None None)) ].
Definition demo_blueprint : ChainBlueprint :=
  mkBlueprint "c" "chain" "1.0.0" "" "g" (map (fun n => mkNodeDef n "model" [] 0) ["a"; "b"])
    [mkConnection "a" "out" "b" "in" None None] [] [] [] [] [] [] [] [] "".

Lemma preflight_sound_witness :
  exists order w, preflight (fun l => l) demo_blueprint (demo_nodes "none" []) default_engine "1" =
    Ok (Some (Cleared order w)) /\ forall n, n ∈ order -> n ∈ ["a"; "b"].
Proof.
  exists ["a"; "b"], [].
  assert (Hcl : preflight (fun l => l) demo_blueprint (demo_nodes "none" []) default_engine "1" =
            Ok (Some (Cleared ["a"; "b"] []))) by (vm_compute; reflexivity).
  split; [exact Hcl|].
  refine (proj1 (proj2 (proj2 (proj2 (proj2 (proj2 (proj1
    (preflight_sound (fun l => l) demo_blueprint (demo_nodes "none" []) default_engine "1" _ _ _ _) _ _ Hcl))))))).
  - intros l. reflexivity.
  - apply (bool_decide_unpack _). vm_compute. exact I.
  - intros n c H. unfold demo_nodes in H. cbn [dget] in H.
    repeat (match type of H with context [(?x =? ?y)%string] => destruct (String.eqb_spec x y) end;
      [by injection H as <-|]). discriminate.
  - intros j Hj. by apply elem_of_nil in Hj.
Defined.

(** With the default policies no strict run with a memory-writing node is
    cleared: the engine asks for a [memory_access] policy, the defaults
    govern memory by [memory_write] and [memory_read]. *)
Example memory_writer_refused :
  match preflight (fun l => l) demo_blueprint
          (demo_nodes "write" [mkSideEffect "memory_write" "store" false]) default_engine "1" with
  | Ok (Some (GovernanceFailed vs)) =>
      map InvariantEngine.vi_invariant vs = ["memory_governance_coverage"; "side_effect_policy_coverage"]
  | _ => False
  end.
Proof. vm_compute. reflexivity. Qed.

(** An optional input that nothing produces stays a warning in strict mode:
    the run is cleared. *)
Definition optional_gap_nodes : dict NodeContract :=
  [ ("a", mkContract "a.v1" "a" "1" (mkEntry "raw" "" [] []) (mkExit "text" "" ["q"] [] None) [] demo_requirements);
    ("b", mkContract "b.v1" "b" "1" (mkEntry "text" "" ["q"] ["hint"]) (mkExit "plan" "" [] [] None) []
            demo_requirements) ].

Example optional_gap_cleared :
  preflight (fun l => l) demo_blueprint optional_gap_nodes default_engine "1" = Ok (Some (Cleared ["a"; "b"] [])) /\
  map severity (report_issues (validate_port_compatibility demo_blueprint (registry optional_gap_nodes) true)) =
    ["warning"].
Proof. split; vm_compute; reflexivity. Qed.

(** Incompatible contracts are issues of the answer: nothing is raised. *)
Example incompatible_contracts_answered :
  match preflight (fun l => l) demo_blueprint (dset "b" (mkContract "b.v1" "b" "1" (mkEntry "image" "" [] [])
          (mkExit "plan" "" [] [] None) [] demo_requirements) (demo_nodes "none" [])) default_engine "1" with
  | Ok (Some (ContractsFailed (_ :: _))) => True
  | _ => False
  end.
Proof. vm_compute. exact I. Qed.
