(* ===== verification/DecisionLog.v ===== *)
(** * Decision logs

    [DecisionLogStore] of [core/stores.py] on the tables [StateManager] of
    [core/state.py] creates: one append-or-replace table per kind of governed
    decision.  The methods differ only in their columns, so a log is a schema
    - for each column the dict key it is read from, its default, NOT NULL and
    the column's own default - and one pair of operations over schemas.  A row
    is the list of its columns.  Values are stored as bound: the conversion of
    a number put into a TEXT column is left out, callers pass texts there. *)
From S2P Require Import Prelude PyFloat PyValue Json Sql.

(** ** Schemas *)

(** How the tuple of the INSERT computes a column from the decision dict. *)
Inductive source :=
| Required                  (* [d[k]] *)
| Get (dflt : pyval)        (* [d.get(k, dflt)] *)
| GetNow                    (* [d.get(k, datetime.now(...).isoformat())] *)
| Flag                      (* [1 if d.get(k) else 0] *)
| Dump                      (* [json.dumps(d.get(k) or {})] *)
| DumpIfGiven.              (* the same unless [d.get(k) is None], then NULL *)

Record Column := mkColumn {
  col_name : string;
  col_key : string;
  col_source : source;
  col_not_null : bool;
  col_default : option pyval;
}.

Record Schema := mkSchema {
  table_name : string;
  id_column : string;
  columns : list Column;
  order_column : string;
}.

Definition text (n : string) : Column := mkColumn n n (Get (VStr "")) false None.
Definition nullable (n : string) : Column := mkColumn n n (Get VNone) false None.
Definition text_nn (n : string) : Column := mkColumn n n (Get (VStr "")) true None.
Definition with_dflt (v : pyval) (c : Column) : Column :=
  mkColumn (col_name c) (col_key c) (Get v) (col_not_null c) (col_default c).
Definition key_column (n : string) : Column := mkColumn n n Required false None.
Definition time_column (n : string) : Column := mkColumn n n GetNow true None.
Definition flag_column (n : string) : Column := mkColumn n n Flag true (Some (VInt 0)).
Definition retention_column : Column :=
  mkColumn "retention_status" "retention_status" (Get (VStr "active")) true (Some (VStr "active")).

Definition operator_action_log : Schema := mkSchema "operator_action_log" "action_id"
  [ key_column "action_id"; text_nn "run_id"; text_nn "action"; text "actor_identity";
    time_column "requested_at"; flag_column "admitted"; nullable "rejection_reason";
    nullable "target_step_id"; nullable "target_node_id"; nullable "resulting_state";
    nullable "trace_event_id"; mkColumn "metadata_json" "metadata" DumpIfGiven false None ]
  "requested_at".

Definition review_decision_attempts : Schema :=
  mkSchema "review_decision_attempts" "review_attempt_id"
  [ key_column "review_attempt_id"; text_nn "run_id"; text "chain_id";
    with_dflt (VInt 0) (text "step_id"); text "request_id"; text "request_digest";
    text "subject_type"; text "subject_id"; text "attempted_decision_type";
    text "attempted_outcome"; text "reviewer_identity"; text "required_reviewer_role";
    flag_column "admitted"; text "rejection_reason";
    mkColumn "verifier_checks" "verifier_checks" Dump false None; text "policy_digest";
    text "graph_digest"; time_column "created_at"; retention_column ]
  "created_at".

Definition memory_decisions : Schema := mkSchema "memory_decisions" "memory_decision_id"
  [ key_column "memory_decision_id"; text_nn "run_id"; text "chain_id";
    with_dflt (VInt 0) (text "step_id"); text "node_id"; text "candidate_id"; text "subject";
    text "subject_digest"; text "candidate_digest"; with_dflt (VFloat fzero) (text "confidence");
    text "sensitivity"; text "policy_id"; text "rule_id"; text_nn "decision"; text "reason_code";
    text "write_ref"; time_column "created_at"; retention_column ]
  "created_at".

Definition side_effect_blocked_attempts : Schema :=
  mkSchema "side_effect_blocked_attempts" "attempt_id"
  [ text "attempt_id"; text_nn "run_id"; nullable "chain_id"; nullable "step_id"; text_nn "node_id";
    text_nn "side_effect_type"; nullable "effect_target"; nullable "policy_id";
    nullable "rule_id"; with_dflt (VStr "deny") (text_nn "decision"); nullable "denial_reason";
    time_column "created_at"; retention_column ]
  "created_at".

Definition memory_read_decisions : Schema := mkSchema "memory_read_decisions" "decision_id"
  [ text "decision_id"; text_nn "run_id"; nullable "step_id"; text_nn "node_id";
    mkColumn "actor" "actor" (Get (VStr "runtime")) true (Some (VStr "runtime"));
    nullable "policy_id"; nullable "rule_id"; text_nn "decision"; text "purpose"; text "source";
    text "query_digest"; text "memory_namespace";
    mkColumn "requested_item_count" "requested_item_count" (Get (VInt 0)) false (Some (VInt 0));
    mkColumn "exposed_item_count" "exposed_item_count" (Get (VInt 0)) false (Some (VInt 0));
    flag_column "exposed_to_node"; text "reason_codes"; time_column "created_at";
    text "metadata_json"; retention_column ]
  "created_at".

Definition tool_access_decisions : Schema := mkSchema "tool_access_decisions" "decision_id"
  [ text "decision_id"; text_nn "run_id"; nullable "step_id"; text_nn "node_id";
    text_nn "tool_name"; nullable "policy_id"; nullable "rule_id"; text_nn "decision";
    text "reason"; time_column "created_at"; text "metadata_json"; retention_column ]
  "created_at".

Definition adapter_access_decisions : Schema := mkSchema "adapter_access_decisions" "decision_id"
  [ text "decision_id"; text_nn "run_id"; nullable "step_id"; text_nn "node_id";
    text "adapter_type"; text_nn "adapter_name"; text "tool_name"; nullable "policy_id";
    nullable "rule_id"; text_nn "decision"; text "reason"; time_column "created_at";
    text "metadata_json"; retention_column ]
  "created_at".

Definition package_trust_decisions : Schema := mkSchema "package_trust_decisions" "decision_id"
  [ text "decision_id"; text_nn "run_id"; nullable "step_id"; text_nn "node_id";
    text "package_name"; text "package_version"; text "package_digest"; text "origin";
    text "observed_trust_level"; text "required_trust_level"; text "signature_status";
    text "lockfile_status"; flag_column "is_privileged"; text "trust_source";
    text_nn "decision"; text "reason"; time_column "created_at"; text "metadata_json";
    retention_column ]
  "created_at".

Definition registry_admission_decisions : Schema :=
  mkSchema "registry_admission_decisions" "admission_id"
  [ text "admission_id"; with_dflt (VStr "unknown") (text_nn "node_id"); text "package_name";
    text "package_version"; with_dflt (VStr "unknown") (text "package_digest");
    with_dflt (VStr "local_registry") (text "origin"); text "manifest_hash";
    text "contract_hash"; text_nn "decision"; text "reason"; text "rule_id"; text "policy_id";
    flag_column "declared_privileged"; time_column "created_at"; text "metadata_json";
    retention_column ]
  "created_at".

(** ** Recording *)

Inductive log_error := MissingKey (k : string) | UnboundValue (k : string) | NotNullFailed (k : string).

#[export] Instance log_error_eq_dec : EqDecision log_error.
Proof. solve_decision. Defined.

(** [d.get(k) or {}], dumped; the default options refuse nothing. *)
Definition dump_or_empty (v : pyval) : pyval :=
  VStr (json_text default_options (if truthy v then v else VDict [])).

Definition source_value (now : string) (d : pyctx) (c : Column) : res log_error pyval :=
  let k := col_key c in
  match col_source c with
  | Required => match dget k d with Some v => Ok v | None => Err (MissingKey k) end
  | Get dflt => Ok (dget_or k dflt d)
  | GetNow => Ok (dget_or k (VStr now) d)
  | Flag => Ok (VInt (if truthy (context_get k d) then 1 else 0))
  | Dump => Ok (dump_or_empty (context_get k d))
  | DumpIfGiven =>
      Ok (if is_none (context_get k d) then VNone else dump_or_empty (context_get k d))
  end.

(** What sqlite3 stores for a bound Python value: a bool as an integer, NaN
    as NULL; a list, a dict or an integer beyond 64 bits raises. *)
Definition bind_value (v : pyval) : option pyval :=
  match v with
  | VBool b => Some (VInt (if b then 1 else 0))
  | VInt z => if (- 2 ^ 63 <=? z) && (z <? 2 ^ 63) then Some v else None
  | VFloat f => Some (if is_nan f then VNone else v)
  | VNone | VStr _ => Some v
  | VList _ | VDict _ => None
  end.

(** NOT NULL under OR REPLACE: the column's default if it has one. *)
Definition stored_value (c : Column) (v : pyval) : res log_error pyval :=
  match bind_value v with
  | None => Err (UnboundValue (col_name c))
  | Some v =>
      if is_none v && col_not_null c then
        match col_default c with Some w => Ok w | None => Err (NotNullFailed (col_name c)) end
      else Ok v
  end.

(** All values are computed, then all are stored. *)
Fixpoint each {A B E} (f : A -> res E B) (l : list A) : res E (list B) :=
  match l with
  | [] => Ok []
  | x :: l' => y ← f x; ys ← each f l'; Ok (y :: ys)
  end.

Definition row_of (sc : Schema) (now : string) (d : pyctx) : res log_error pyctx :=
  vs ← each (source_value now d) (columns sc);
  ws ← each (fun cv => stored_value (fst cv) (snd cv)) (zip (columns sc) vs);
  Ok (zip (map col_name (columns sc)) ws).

(** [column = ?] *)
Definition sql_val_eq (a b : pyval) : bool :=
  match a, b with
  | VStr s, VStr t => s =? t
  | VNone, _ | _, VNone | VStr _, _ | _, VStr _ => false
  | _, _ => py_eq a b
  end%string.

Definition cell (k : string) (r : pyctx) : pyval := context_get k r.

(** [INSERT OR REPLACE]: a row of the same primary key goes. *)
Definition insert_or_replace (sc : Schema) (r : pyctx) (t : list pyctx) : list pyctx :=
  List.filter (fun x => negb (sql_val_eq (cell (id_column sc) x) (cell (id_column sc) r))) t ++ [r].

Definition record (sc : Schema) (now : string) (d : pyctx) (t : list pyctx)
  : res log_error (list pyctx) :=
  r ← row_of sc now d; Ok (insert_or_replace sc r t).

Definition record_operator_action := record operator_action_log.
Definition record_review_attempt := record review_decision_attempts.
Definition record_memory_decision := record memory_decisions.
Definition record_side_effect_block := record side_effect_blocked_attempts.
Definition record_memory_read_decision := record memory_read_decisions.
Definition record_tool_access_decision := record tool_access_decisions.
Definition record_adapter_access_decision := record adapter_access_decisions.
Definition record_package_trust_decision := record package_trust_decisions.
Definition record_registry_admission := record registry_admission_decisions.

(** ** Querying *)

(** The optional keyword arguments of a query, by column. *)
Definition where_clause (filters : list (string * option pyval)) (r : pyctx) : bool :=
  forallb (fun f => match snd f with
                    | Some v => sql_val_eq (cell (fst f) r) v
                    | None => true
                    end) filters.

(** [ORDER BY ... DESC] on texts, ties in rowid order. *)
Definition newer (k : string) (x y : pyctx) : bool :=
  match cell k x, cell k y with
  | VStr s, VStr t => String.leb t s
  | VStr _, _ => true
  | _, VStr _ => false
  | _, _ => true
  end.

Definition query (sc : Schema) (filters : list (string * option pyval)) (t : list pyctx)
  : list pyctx :=
  py_sorted (newer (order_column sc)) (select (where_clause filters) t).

(** The dict of one operator action: the flag a bool again, the metadata read
    back, [{}] when NULL, empty or unreadable. *)
Definition operator_action_view (r : pyctx) : pyctx :=
  map (fun kv =>
    let '(k, v) := kv in
    if k =? "admitted" then (k, VBool (truthy v))
    else if k =? "metadata_json" then
      ("metadata", match v with
                   | VStr s => if str_truthy s then default (VDict []) (loads s) else VDict []
                   | _ => VDict []
                   end)
    else kv)%string r.

Definition get_operator_actions (run : option string) (admitted : option bool) (t : list pyctx)
  : list pyctx :=
  map operator_action_view
    (query operator_action_log
       [ ("run_id", VStr <$> run);
         ("admitted", (fun b : bool => VInt (if b then 1 else 0)) <$> admitted) ] t).

Definition get_review_attempts (run : option string) (admitted : option bool)
  (rejection : option string) (t : list pyctx) : list pyctx :=
  query review_decision_attempts
    [ ("run_id", VStr <$> run);
      ("admitted", (fun b : bool => VInt (if b then 1 else 0)) <$> admitted);
      ("rejection_reason", VStr <$> rejection) ] t.

Definition get_memory_decisions (run decision rule : option string) : list pyctx -> list pyctx :=
  query memory_decisions
    [("run_id", VStr <$> run); ("decision", VStr <$> decision); ("rule_id", VStr <$> rule)].

Definition get_side_effect_blocks (run decision rule : option string) : list pyctx -> list pyctx :=
  query side_effect_blocked_attempts
    [("run_id", VStr <$> run); ("decision", VStr <$> decision); ("rule_id", VStr <$> rule)].

(** The four access logs take the same arguments. *)
Definition get_access_decisions (sc : Schema) (run node decision : option string)
  : list pyctx -> list pyctx :=
  query sc [("run_id", VStr <$> run); ("node_id", VStr <$> node); ("decision", VStr <$> decision)].

Definition get_memory_read_decisions := get_access_decisions memory_read_decisions.
Definition get_tool_access_decisions := get_access_decisions tool_access_decisions.
Definition get_adapter_access_decisions := get_access_decisions adapter_access_decisions.
Definition get_package_trust_decisions := get_access_decisions package_trust_decisions.

Definition get_registry_admissions (node decision : option string) : list pyctx -> list pyctx :=
  query registry_admission_decisions [("node_id", VStr <$> node); ("decision", VStr <$> decision)].

(** ** Properties *)

Definition schemas : list Schema :=
  [ operator_action_log; review_decision_attempts; memory_decisions; side_effect_blocked_attempts;
    memory_read_decisions; tool_access_decisions; adapter_access_decisions;
    package_trust_decisions; registry_admission_decisions ].

Definition column_value (now : string) (d : pyctx) (c : Column) : res log_error pyval :=
  v ← source_value now d c; stored_value c v.

(** No two columns of one name; the key and the order are columns. *)
Definition good_schema (sc : Schema) : bool :=
  bool_decide (NoDup (map col_name (columns sc)))
  && mem (id_column sc) (map col_name (columns sc))
  && mem (order_column sc) (map col_name (columns sc)).

Lemma schemas_good : forallb good_schema schemas = true.
Proof. vm_compute. reflexivity. Qed.

Lemma good_of sc : sc ∈ schemas -> good_schema sc = true.
Proof. intros H. pose proof schemas_good as G. rewrite forallb_elem in G. auto. Qed.

Lemma each_ok {A B E} (f : A -> res E B) l ys :
  each f l = Ok ys <-> Forall2 (fun x y => f x = Ok y) l ys.
Proof.
  revert ys. induction l as [|x l IH]; intros ys; simpl.
  - split; [intros [= <-]; constructor | intros H; by inversion H].
  - rewrite bind_ok. split.
    + intros (y & Hy & (ys' & Hys & [= <-])%bind_ok). constructor; [done | by apply IH].
    + intros H. inversion H as [|? y ? ys' Hy Hys]; subst. exists y. split; [done|].
      apply bind_ok. exists ys'. split; [by apply IH | done].
Qed.

Lemma row_of_cells sc now d r :
  row_of sc now d = Ok r ->
  exists ws, r = zip (map col_name (columns sc)) ws /\
             Forall2 (fun c w => column_value now d c = Ok w) (columns sc) ws.
Proof.
  unfold row_of. intros (vs & Hvs & (ws & Hws & [= <-])%bind_ok)%bind_ok.
  exists ws. split; [done|].
  apply each_ok in Hvs, Hws. revert vs ws Hvs Hws.
  induction (columns sc) as [|c cs IH]; intros vs ws Hvs Hws.
  - inversion Hvs; subst. inversion Hws; subst. constructor.
  - inversion Hvs as [|? v ? vs' Hv Hvs']; subst. simpl in Hws.
    inversion Hws as [|? w ? ws' Hw Hws']; subst. constructor; [|eauto].
    unfold column_value. by rewrite Hv.
Qed.

Lemma cell_zip (cs : list Column) (ws : list pyval) (P : Column -> pyval -> Prop) c :
  NoDup (map col_name cs) -> Forall2 P cs ws -> c ∈ cs ->
  P c (cell (col_name c) (zip (map col_name cs) ws)).
Proof.
  intros Hn H. revert Hn. induction H as [|c' w cs ws Hw H IH]; intros Hn Hc; [inversion Hc|].
  simpl in Hn. apply NoDup_cons in Hn as [Hx Hn]. unfold cell, context_get in *. simpl.
  apply elem_of_cons in Hc as [->|Hc].
  - by rewrite String.eqb_refl.
  - destruct (col_name c =? col_name c')%string eqn:E; [|by apply IH].
    apply String.eqb_eq in E. destruct Hx. rewrite <- E. apply list_elem_of_In, in_map.
    by apply list_elem_of_In.
Qed.

Lemma sql_val_eq_refl_str s : sql_val_eq (VStr s) (VStr s) = true.
Proof. apply String.eqb_refl. Qed.

Definition same_id (sc : Schema) (x r : pyctx) : bool :=
  sql_val_eq (cell (id_column sc) x) (cell (id_column sc) r).

Lemma elem_of_insert_or_replace sc r t x :
  x ∈ insert_or_replace sc r t <-> x = r \/ (x ∈ t /\ same_id sc x r = false).
Proof.
  unfold insert_or_replace. rewrite elem_of_app, elem_of_lfilter, list_elem_of_singleton.
  rewrite negb_true_iff. unfold same_id. naive_solver.
Qed.

(** Writing the same row again changes nothing. *)
Lemma insert_or_replace_again sc r t :
  same_id sc r r = true -> insert_or_replace sc r (insert_or_replace sc r t) = insert_or_replace sc r t.
Proof.
  intros Hr. unfold insert_or_replace. rewrite List.filter_app. cbn [List.filter].
  unfold same_id in Hr. rewrite Hr. cbn [negb]. rewrite app_nil_r. f_equal.
  induction t as [|x t IH]; [done|]. cbn [List.filter].
  destruct (negb _) eqn:E; [|done]. cbn [List.filter]. by rewrite E, IH.
Qed.

Lemma newer_total k x y : newer k x y = true \/ newer k y x = true.
Proof.
  unfold newer. destruct (cell k x), (cell k y); auto. apply String.leb_total.
Qed.

Lemma newer_trans k x y z : newer k x y = true -> newer k y z = true -> newer k x z = true.
Proof.
  unfold newer. destruct (cell k x), (cell k y), (cell k z); try done.
  intros H1 H2. by eapply str_leb_trans.
Qed.

Lemma each_err {A B E} (f : A -> res E B) l e :
  each f l = Err e -> exists x, x ∈ l /\ f x = Err e.
Proof.
  induction l as [|x l IH]; simpl; [discriminate|].
  destruct (f x) as [y|e'] eqn:Ex; simpl.
  - destruct (each f l) as [ys|e'']; simpl; [discriminate|].
    intros [= ->]. destruct (IH eq_refl) as (x' & Hx & Hf). exists x'. split; [by right | done].
  - intros [= ->]. exists x. split; [left | done].
Qed.

Lemma row_of_error sc now d e :
  row_of sc now d = Err e -> exists c, c ∈ columns sc /\ column_value now d c = Err e.
Proof.
  unfold row_of, column_value. destruct (each (source_value now d) _) as [vs|e'] eqn:Ev; simpl.
  - destruct (each _ (zip _ _)) as [ws|e'] eqn:Ew; simpl; [discriminate|]. intros [= ->].
    apply each_err in Ew as ([c v] & Hin & Hs). apply each_ok in Ev. exists c.
    revert Hin. induction Ev as [|c0 v0 cs vs0 H0 Ev IH]; simpl; intros Hin; [inversion Hin|].
    apply elem_of_cons in Hin as [[= -> ->]|Hin].
    + split; [left|]. rewrite H0. done.
    + destruct (IH Hin). split; [by right | done].
  - intros [= ->]. apply each_err in Ev as (c & Hc & Hf). exists c. by rewrite Hf.
Qed.

(** A query returns exactly the rows that meet every given filter, the
    newest first. *)
Theorem query_exact sc filters t :
  (forall x, x ∈ query sc filters t <->
     x ∈ t /\ forall k v, (k, Some v) ∈ filters -> sql_val_eq (cell k x) v = true) /\
  sorted (newer (order_column sc)) (query sc filters t) /\
  length (query sc filters t) = count (where_clause filters) t.
Proof.
  unfold query, select. split_and!.
  - intros x. rewrite elem_of_py_sorted, elem_of_lfilter. unfold where_clause.
    rewrite forallb_elem. split.
    + intros [H Hx]. split; [done|]. intros k v Hf. apply (H _ Hf).
    + intros [Hx H]. split; [|done]. intros [k [v|]] Hf; simpl; [by apply H | done].
  - apply py_sorted_sorted; [apply newer_total | apply newer_trans].
  - rewrite py_sorted_perm. done.
Qed.

Lemma record_spec sc now d t t' :
  sc ∈ schemas -> record sc now d t = Ok t' ->
  exists r, t' = insert_or_replace sc r t /\ row_of sc now d = Ok r /\
    forall c, c ∈ columns sc -> column_value now d c = Ok (cell (col_name c) r).
Proof.
  intros Hsc. unfold record. intros (r & Hr & [= <-])%bind_ok. exists r.
  split; [done|]. split; [done|]. intros c Hc.
  destruct (row_of_cells _ _ _ _ Hr) as (ws & -> & H).
  apply good_of in Hsc. unfold good_schema in Hsc. rewrite !andb_true_iff in Hsc.
  destruct Hsc as [[Hn%bool_decide_eq_true _] _].
  by apply (cell_zip _ _ (fun c w => column_value now d c = Ok w)).
Qed.

(** A decision that is recorded is found with the values it was recorded
    with, by every query it meets; rows of other ids stay, a row of the same
    id is gone; and recording it once more changes nothing, which makes a
    record safe to repeat.  Nothing is written when a column has no value. *)
Theorem decision_recorded sc now d t :
  sc ∈ schemas ->
  match record sc now d t with
  | Ok t' => exists r,
      (forall c, c ∈ columns sc -> column_value now d c = Ok (cell (col_name c) r)) /\
      (forall x, x ∈ t' <-> x = r \/ (x ∈ t /\ same_id sc x r = false)) /\
      (forall fs, (forall k v, (k, Some v) ∈ fs -> sql_val_eq (cell k r) v = true) ->
        r ∈ query sc fs t') /\
      (forall s, cell (id_column sc) r = VStr s -> record sc now d t' = Ok t')
  | Err e => exists c, c ∈ columns sc /\ column_value now d c = Err e
  end.
Proof.
  intros Hsc. destruct (record sc now d t) as [t'|e] eqn:E.
  - destruct (record_spec _ _ _ _ _ Hsc E) as (r & -> & Hr & Hc). exists r. split_and!.
    + exact Hc.
    + apply elem_of_insert_or_replace.
    + intros fs H. apply query_exact. split; [apply elem_of_insert_or_replace; by left | done].
    + intros s Hs. unfold record. rewrite Hr. simpl. f_equal. apply insert_or_replace_again.
      unfold same_id. rewrite Hs. apply sql_val_eq_refl_str.
  - unfold record in E. destruct (row_of sc now d) as [r|e'] eqn:Er; [discriminate|].
    injection E as ->. by apply row_of_error.
Qed.

(** The ids of a log; a NULL id is none. *)
Definition ids (sc : Schema) (t : list pyctx) : list string :=
  omap (fun x => match cell (id_column sc) x with VStr s => Some s | _ => None end) t.

Lemma elem_of_ids sc t s : s ∈ ids sc t <-> exists x, x ∈ t /\ cell (id_column sc) x = VStr s.
Proof.
  unfold ids. rewrite list_elem_of_omap. split.
  - intros (x & Hx & E). exists x. split; [done|]. destruct (cell _ x); naive_solver.
  - intros (x & Hx & E). exists x. by rewrite E.
Qed.

Lemma ids_filter sc (p : pyctx -> bool) t : NoDup (ids sc t) -> NoDup (ids sc (List.filter p t)).
Proof.
  induction t as [|x t IH]; [done|]. intros H.
  assert (Ht : NoDup (ids sc t)).
  { unfold ids in *. simpl in H. destruct (cell (id_column sc) x); try done.
    by apply NoDup_cons in H as [_ H]. }
  simpl. destruct (p x); [|auto]. unfold ids in *. simpl in *.
  destruct (cell (id_column sc) x) as [| | | |s| |] eqn:E; try (apply IH; done).
  apply NoDup_cons in H as [Hs H]. apply NoDup_cons. split; [|by apply IH].
  intros Hin. apply Hs, (elem_of_ids sc). apply (elem_of_ids sc) in Hin as (y & Hy & Ey).
  apply elem_of_lfilter in Hy as [_ Hy]. eauto.
Qed.

(** A log has one row per id, whatever is recorded. *)
Theorem ids_stay_unique sc now d t t' :
  record sc now d t = Ok t' -> NoDup (ids sc t) -> NoDup (ids sc t').
Proof.
  unfold record. intros (r & _ & [= <-])%bind_ok H. unfold insert_or_replace.
  pose proof (ids_filter sc (fun x => negb (same_id sc x r)) t H) as Hf.
  unfold same_id in Hf. unfold ids. rewrite omap_app. cbn [omap list_omap].
  destruct (cell (id_column sc) r) as [| | | |s| |] eqn:E; rewrite ?app_nil_r; try exact Hf.
  apply NoDup_snoc; [exact Hf|]. intros Hin.
  apply (elem_of_ids sc) in Hin as (y & Hy & Ey). apply elem_of_lfilter in Hy as [Hp _].
  rewrite Ey in Hp. by rewrite sql_val_eq_refl_str in Hp.
Qed.

(** ** Examples *)

Definition demo_attempt : pyctx :=
  [("review_attempt_id", VStr "a1"); ("run_id", VStr "r"); ("admitted", VBool true)].

Definition demo_log : list pyctx :=
  match record review_decision_attempts "2026-01-01" demo_attempt [] with
  | Ok t => t | Err _ => [] end.

Example attempt_read_back :
  (cell "attempted_outcome" <$> get_review_attempts (Some "r") (Some true) None demo_log,
   get_review_attempts (Some "q") None None demo_log) = ([VStr ""], []).
Proof. vm_compute. reflexivity. Qed.

(** An id that is missing raises in the two logs that index the dict and is
    the empty text in the others, where the next such decision replaces it. *)
Example default_id_replaced :
  match record tool_access_decisions "t1" [("tool_name", VStr "a")] [] with
  | Ok t => option_map (map (cell "tool_name"))
              (match record tool_access_decisions "t2" [("tool_name", VStr "b")] t with
               | Ok t' => Some t' | Err _ => None end)
  | Err _ => None
  end = Some [VStr "b"].
Proof. vm_compute. reflexivity. Qed.

Example missing_id_raises :
  record review_decision_attempts "t" [("run_id", VStr "r")] [] = Err (MissingKey "review_attempt_id").
Proof. vm_compute. reflexivity. Qed.
