(* ===== verification/RunDeletion.v ===== *)
(** * Run deletion and recovery metrics

    [runtime/run_deletion_service.py], [RecoveryMetricStore] of
    [core/stores.py] and [runtime/recovery_metrics.py]: a run is deleted in one
    transaction when it exists, has a terminal status and every retry lineage
    is closed; its key is invalidated and a tombstone is written, which also
    stops later metrics of the run.  The database is all its tables, which
    [StateManager] has created; the state text is read with [Json].  Clock
    readings and random ids are drawn by the caller of the model.  The texts
    of the warnings are left out. *)
From S2P Require Import Prelude PyFloat PyValue Json Sql SideEffectLedger Capsules.
From Corelib Require Import SpecFloat.
From S2P Require Import RecoveryClassifier StateStore.
From S2P Require DecisionLog.

(** ** Tables *)

Record MetricRow := mkMetric {
  metric_event_id : string;
  emitted_at : string;
  metric_name : string;
  metric_kind : string;
  value : pyfloat;
  me_run_id : option string;
  me_attempt_key : option string;
  recovery_action_id : option string;
  labels_json : string;
  source_event_key : string;
}.

Record RunPurgeRecord := mkPurgeRecord {
  purge_id : string;
  pr_run_id : string;
  actor_identity : string;
  reason : string;
  requested_at : string;
  completed_at : string;
  chain_status_before_purge : pyval;
  lineage_summary_json : string;
  legacy_not_replayable_count : nat;
  deleted_row_counts_json : string;
  key_purged : nat;
}.

(** [logs]: the decision logs by table name. *)
Record RunDb := mkRunDb {
  store : Store string;
  effects : list Row;
  recovery_decisions : list RecoveryDecision;
  execution_actions : list ExecutionAction;
  replay_capsules : list CapsuleRow;
  encryption_keys : list RunKeyRow;
  logs : dict (list pyctx);
  metric_events : list MetricRow;
  run_purge_audit : list RunPurgeRecord;
}.

Definition with_store (x : Store string) (d : RunDb) : RunDb :=
  mkRunDb x (effects d) (recovery_decisions d) (execution_actions d) (replay_capsules d)
    (encryption_keys d) (logs d) (metric_events d) (run_purge_audit d).
Definition with_effects (x : list Row) (d : RunDb) : RunDb :=
  mkRunDb (store d) x (recovery_decisions d) (execution_actions d) (replay_capsules d)
    (encryption_keys d) (logs d) (metric_events d) (run_purge_audit d).
Definition with_recovery_decisions (x : list RecoveryDecision) (d : RunDb) : RunDb :=
  mkRunDb (store d) (effects d) x (execution_actions d) (replay_capsules d)
    (encryption_keys d) (logs d) (metric_events d) (run_purge_audit d).
Definition with_execution_actions (x : list ExecutionAction) (d : RunDb) : RunDb :=
  mkRunDb (store d) (effects d) (recovery_decisions d) x (replay_capsules d)
    (encryption_keys d) (logs d) (metric_events d) (run_purge_audit d).
Definition with_capsules (x : list CapsuleRow) (d : RunDb) : RunDb :=
  mkRunDb (store d) (effects d) (recovery_decisions d) (execution_actions d) x
    (encryption_keys d) (logs d) (metric_events d) (run_purge_audit d).
Definition with_keys (x : list RunKeyRow) (d : RunDb) : RunDb :=
  mkRunDb (store d) (effects d) (recovery_decisions d) (execution_actions d) (replay_capsules d)
    x (logs d) (metric_events d) (run_purge_audit d).
Definition with_logs (x : dict (list pyctx)) (d : RunDb) : RunDb :=
  mkRunDb (store d) (effects d) (recovery_decisions d) (execution_actions d) (replay_capsules d)
    (encryption_keys d) x (metric_events d) (run_purge_audit d).
Definition with_metrics (x : list MetricRow) (d : RunDb) : RunDb :=
  mkRunDb (store d) (effects d) (recovery_decisions d) (execution_actions d) (replay_capsules d)
    (encryption_keys d) (logs d) x (run_purge_audit d).
Definition with_audit (x : list RunPurgeRecord) (d : RunDb) : RunDb :=
  mkRunDb (store d) (effects d) (recovery_decisions d) (execution_actions d) (replay_capsules d)
    (encryption_keys d) (logs d) (metric_events d) x.

Definition with_chain_states (x : list (StateRow string)) (d : RunDb) : RunDb :=
  with_store (mkStore x (state_events (store d)) (invocation_ledger (store d))) d.
Definition with_state_events (x : list EventRow) (d : RunDb) : RunDb :=
  with_store (mkStore (chain_states (store d)) x (invocation_ledger (store d))) d.
Definition with_invocations (x : list InvocationRow) (d : RunDb) : RunDb :=
  with_store (mkStore (chain_states (store d)) (state_events (store d)) x) d.

(** ** Recovery metrics *)

Definition METRIC_KINDS : dict string :=
  [ ("retry_attempt_created", "count"); ("retry_claim_acquired", "count");
    ("retry_claim_not_acquired", "count"); ("retry_no_operation_total", "count");
    ("retry_dispatch_boundary_crossed_total", "count"); ("retry_outcome_completed", "count");
    ("retry_outcome_failed", "count"); ("retry_unknown_total", "count");
    ("retry_requeued", "count"); ("retry_command_latency_ms", "duration_ms");
    ("retry_attempt_latency_ms", "duration_ms"); ("retry_material_unavailable_total", "count");
    ("retry_legacy_ineligible_total", "count"); ("retry_rejected_total", "count");
    ("retry_policy_denied_total", "count") ].

Definition ALLOWED_LABEL_KEYS : list string := ["side_effect_type"; "outcome"; "adapter_id"].
Definition LABEL_MAX_LEN : nat := 128.
Definition METRIC_NAME_MAX_LEN : nat := 128.
Definition OUTCOME_VALUES : list string := ["completed"; "failed"; "unknown"].

Inductive metric_error :=
| MetricValueError
| MetricRunPurged
| MetricSourceKeyConflict
| MetricSqlError.

#[export] Instance metric_error_eq_dec : EqDecision metric_error.
Proof. solve_decision. Defined.

Definition label_ok (kv : string * pyval) : bool :=
  mem (fst kv) ALLOWED_LABEL_KEYS &&
  match snd kv with
  | VStr v => Nat.leb (String.length v) LABEL_MAX_LEN
              && implb (fst kv =? "outcome")%string (mem v OUTCOME_VALUES)
  | _ => false
  end.

(** [_validate]; [labels] is [None] or a dict, an empty one is not looked at. *)
Definition validate (name : string) (v : pyfloat) (labels : option pyctx)
  : res metric_error string :=
  match dget name METRIC_KINDS with
  | None => Err MetricValueError
  | Some kind =>
      _ ← guard_err (Nat.leb (String.length name) METRIC_NAME_MAX_LEN) MetricValueError;
      _ ← guard_err (negb (is_nan v || is_inf v)) MetricValueError;
      _ ← guard_err (negb (mem kind ["count"; "duration_ms"] && flt v fzero)) MetricValueError;
      _ ← guard_err (forallb label_ok (default [] labels)) MetricValueError;
      Ok kind
  end.

Definition canonical_labels (labels : option pyctx) : string :=
  match labels with
  | Some ((_ :: _) as d) => json_text (mkJsonOptions "" "" true true true) (VDict d)
  | _ => "{}"
  end.

(** The columns compared when a source key is used again. *)
Definition same_payload (a b : MetricRow) : bool :=
  (metric_name a =? metric_name b)%string && (metric_kind a =? metric_kind b)%string
  && num_eq (NFloat (value a)) (NFloat (value b)) && bool_decide (me_run_id a = me_run_id b)
  && bool_decide (me_attempt_key a = me_attempt_key b)
  && bool_decide (recovery_action_id a = recovery_action_id b)
  && (labels_json a =? labels_json b)%string.

(** [RecoveryMetricStore.insert]: whether a row was added. *)
Definition insert_metric (m : MetricRow) : transaction RunDb metric_error bool := fun db =>
  _ ← guard_err (negb (existsb (fun p => sql_eq (Some (pr_run_id p)) (me_run_id m))
                         (run_purge_audit db))) MetricRunPurged;
  match fetchone (fun x => (source_event_key x =? source_event_key m)%string) (metric_events db) with
  | Some ex =>
      _ ← guard_err (same_payload ex m) MetricSourceKeyConflict;
      Ok (db, false)
  | None =>
      if existsb (fun x => (metric_event_id x =? metric_event_id m)%string) (metric_events db)
         || is_nan (value m) then Err MetricSqlError
      else Ok (with_metrics (metric_events db ++ [m]) db, true)
  end.

Record EmitArgs := mkEmit {
  em_name : string;
  em_value : pyfloat;
  em_run_id : option string;
  em_attempt_key : option string;
  em_action_id : option string;
  em_source_key : string;
  em_labels : option pyctx;
  em_emitted_at : option string;
}.

(** [emit]; [draw] and [now] are the random suffix and the clock. *)
Definition emit (draw now : string) (a : EmitArgs) : transaction RunDb metric_error bool := fun db =>
  kind ← validate (em_name a) (em_value a) (em_labels a);
  insert_metric
    (mkMetric ("rme-" +:+ draw)
       (match em_emitted_at a with Some t => if str_truthy t then t else now | None => now end)
       (em_name a) kind (em_value a) (em_run_id a) (em_attempt_key a) (em_action_id a)
       (canonical_labels (em_labels a)) (em_source_key a)) db.

(** [failure_isolated]: whatever is raised is dropped. *)
Definition failure_isolated (draw now : string) (a : EmitArgs) (db : RunDb) : RunDb :=
  commit (emit draw now a) db.

(** ** The deletion gate *)

Definition TERMINAL_CHAIN_STATUSES : list string := ["completed"; "failed"; "cancelled"].

Definition RUN_NOT_FOUND : string := "RUN_NOT_FOUND".
Definition RUN_DELETION_BLOCKED_NON_TERMINAL : string := "RUN_DELETION_BLOCKED_NON_TERMINAL".
Definition RUN_DELETION_BLOCKED_OPEN_LINEAGE : string := "RUN_DELETION_BLOCKED_OPEN_LINEAGE".
Definition RUN_DELETION_BLOCKED_UNCLASSIFIED_LINEAGE : string :=
  "RUN_DELETION_BLOCKED_UNCLASSIFIED_LINEAGE".

Inductive deletion_error :=
| BlankArgument
| DeletionBlocked (reasons : list string)
| UnreadableState
| NoSuchTable
| TombstoneConflict.

#[export] Instance deletion_error_eq_dec : EqDecision deletion_error.
Proof. solve_decision. Defined.

Record DeletionAssessment := mkAssessment {
  allowed : bool;
  run_exists : bool;
  run_terminal : bool;
  retry_lineage_closed : bool;
  chain_status : pyval;
  blocking_reasons : list string;
  parent_states : list RetryLineageProjection;
  da_legacy_count : nat;
}.

(** The status in a state text: unreadable text is ["unknown"]; a value that
    is no dict has no [get], and an unhashable status is in no set: both
    raise outside the [try]. *)
Definition status_of_text (t : string) : res deletion_error pyval :=
  match loads t with
  | None => Ok (VStr "unknown")
  | Some (VDict d) =>
      match dget_or "status" (VStr "unknown") d with
      | VList _ | VDict _ => Err UnreadableState
      | v => Ok v
      end
  | Some _ => Err UnreadableState
  end.

Definition is_terminal_status (v : pyval) : bool :=
  match v with VStr s => mem s TERMINAL_CHAIN_STATUSES | _ => false end.

Definition in_states (l : list RecoveryState) (p : RetryLineageProjection) : bool :=
  bool_decide (p_state p ∈ l).

Definition open_parent (p : RetryLineageProjection) : bool := in_states OPEN_RETRY_LINEAGE_STATES p.
Definition unclassified_parent (p : RetryLineageProjection) : bool :=
  negb (in_states OPEN_RETRY_LINEAGE_STATES p) && negb (in_states CLOSED_RETRY_LINEAGE_STATES p).

Definition load_side_effects (run : string) (db : RunDb) : list SideEffectFacts :=
  map facts_of (select (fun r => (run_id r =? run)%string) (effects db)).

Definition projections_of (now : Z) (run : string) (db : RunDb) : list RetryLineageProjection :=
  let ses := load_side_effects run db in
  classify_retry_lineages now
    (List.filter (fun se => (se_status se =? "retry_authorized")%string) ses) ses.

Definition assess_locked (now : Z) (run : string) (db : RunDb)
  : res deletion_error DeletionAssessment :=
  match fetchone (fun r => sr_run_id r =? run)%string (chain_states (store db)) with
  | None => Ok (mkAssessment false false false true VNone [RUN_NOT_FOUND] [] 0)
  | Some row =>
      st ← status_of_text (state_json row);
      let terminal := is_terminal_status st in
      let ps := projections_of now run db in
      let opened := List.filter open_parent ps in
      let unclassified := List.filter unclassified_parent ps in
      let blocking :=
        (if terminal then [] else [RUN_DELETION_BLOCKED_NON_TERMINAL])
        ++ (if nonempty opened then [RUN_DELETION_BLOCKED_OPEN_LINEAGE] else [])
        ++ (if nonempty unclassified then [RUN_DELETION_BLOCKED_UNCLASSIFIED_LINEAGE] else []) in
      Ok (mkAssessment (negb (nonempty blocking)) true terminal
            (negb (nonempty opened) && negb (nonempty unclassified)) st blocking ps
            (count (fun p => bool_decide (p_state p = LEGACY_NOT_REPLAYABLE)) ps))
  end.

Definition can_delete (now : Z) (run : string) (db : RunDb) : res deletion_error DeletionAssessment :=
  assess_locked now run db.

(** ** The purge *)

Definition PURGE_TABLE_ORDER : list string :=
  [ "recovery_metric_events"; "recovery_execution_actions"; "side_effect_replay_capsules";
    "side_effect_recovery_decisions"; "side_effect_blocked_attempts"; "review_decision_attempts";
    "operator_action_log"; "memory_decisions"; "memory_read_decisions"; "tool_access_decisions";
    "adapter_access_decisions"; "package_trust_decisions"; "invocation_ledger"; "state_events";
    "side_effect_ledger"; "chain_states" ].

(** [DELETE FROM ... WHERE p], with its row count *)
Definition delete_where {R} (p : R -> bool) (t : list R) : list R := List.filter (fun r => negb (p r)) t.

(** [run_id = ?] in each table. *)
Definition me_of (run : string) (m : MetricRow) : bool := sql_eq (me_run_id m) (Some run).
Definition act_of (run : string) (a : ExecutionAction) : bool := (act_run_id a =? run)%string.
Definition cap_of (run : string) (c : CapsuleRow) : bool := (cap_run_id c =? run)%string.
Definition dec_of (run : string) (d : RecoveryDecision) : bool := (rd_run_id d =? run)%string.
Definition log_of (run : string) (r : pyctx) : bool :=
  DecisionLog.sql_val_eq (DecisionLog.cell "run_id" r) (VStr run).
Definition inv_of (run : string) (r : InvocationRow) : bool := (ir_run_id r =? run)%string.
Definition ev_of (run : string) (e : EventRow) : bool := (er_run_id e =? run)%string.
Definition eff_of (run : string) (r : Row) : bool := (run_id r =? run)%string.
Definition st_of (run : string) (r : StateRow string) : bool := (sr_run_id r =? run)%string.
Definition key_of (run : string) (k : RunKeyRow) : bool := (rk_run_id k =? run)%string.

(** [DELETE FROM <table> WHERE run_id = ?]: the row count and the database. *)
Definition purge_table (table run : string) (db : RunDb) : option (nat * RunDb) :=
  if table =s? "recovery_metric_events" then
    Some (rowcount (me_of run) (metric_events db),
          with_metrics (delete_where (me_of run) (metric_events db)) db)
  else if table =s? "recovery_execution_actions" then
    Some (rowcount (act_of run) (execution_actions db),
          with_execution_actions (delete_where (act_of run) (execution_actions db)) db)
  else if table =s? "side_effect_replay_capsules" then
    Some (rowcount (cap_of run) (replay_capsules db),
          with_capsules (delete_where (cap_of run) (replay_capsules db)) db)
  else if table =s? "side_effect_recovery_decisions" then
    Some (rowcount (dec_of run) (recovery_decisions db),
          with_recovery_decisions (delete_where (dec_of run) (recovery_decisions db)) db)
  else if table =s? "invocation_ledger" then
    Some (rowcount (inv_of run) (invocation_ledger (store db)),
          with_invocations (delete_where (inv_of run) (invocation_ledger (store db))) db)
  else if table =s? "state_events" then
    Some (rowcount (ev_of run) (state_events (store db)),
          with_state_events (delete_where (ev_of run) (state_events (store db))) db)
  else if table =s? "side_effect_ledger" then
    Some (rowcount (eff_of run) (effects db), with_effects (delete_where (eff_of run) (effects db)) db)
  else if table =s? "chain_states" then
    Some (rowcount (st_of run) (chain_states (store db)),
          with_chain_states (delete_where (st_of run) (chain_states (store db))) db)
  else
    (fun t => (rowcount (log_of run) t, with_logs (dset table (delete_where (log_of run) t) (logs db)) db))
    <$> dget table (logs db).

Fixpoint purge_tables (tables : list string) (run : string) (counts : dict nat) (db : RunDb)
  : res deletion_error (dict nat * RunDb) :=
  match tables with
  | [] => Ok (counts, db)
  | t :: rest =>
      match purge_table t run db with
      | None => Err NoSuchTable
      | Some (n, db') => purge_tables rest run (dset t n counts) db'
      end
  end%string.

(** [X''] in both columns of the live key. *)
Definition invalidate_key (run : string) (stamp : Z) (keys : list RunKeyRow) : list RunKeyRow :=
  update_where (live_key run)
    (fun k => mkRunKey (rk_run_id k) "" (rk_key_version k) "" (rk_created_at k) (Some stamp)) keys.

Definition recovery_state_value (s : RecoveryState) : string :=
  match s with
  | PAUSED_FOR_HUMAN_REVIEW => "PAUSED_FOR_HUMAN_REVIEW"
  | PAUSED_FOR_POLICY_APPROVAL => "PAUSED_FOR_POLICY_APPROVAL"
  | PAUSED_FOR_BUDGET_APPROVAL => "PAUSED_FOR_BUDGET_APPROVAL"
  | FAILED_RETRYABLE => "FAILED_RETRYABLE" | FAILED_NON_RETRYABLE => "FAILED_NON_RETRYABLE"
  | LOOP_EXHAUSTED => "LOOP_EXHAUSTED" | TRACE_INCOMPLETE => "TRACE_INCOMPLETE"
  | CRASH_RECOVERABLE => "CRASH_RECOVERABLE" | CRASH_NEEDS_OPERATOR => "CRASH_NEEDS_OPERATOR"
  | CANCELLED => "CANCELLED" | COMPLETED => "COMPLETED"
  | RETRY_AUTHORIZED_PENDING_EXECUTION => "RETRY_AUTHORIZED_PENDING_EXECUTION"
  | RETRY_ATTEMPT_IN_FLIGHT => "RETRY_ATTEMPT_IN_FLIGHT"
  | RETRY_COMPLETED => "RETRY_COMPLETED" | RETRY_FAILED => "RETRY_FAILED"
  | RETRY_UNKNOWN => "RETRY_UNKNOWN" | LEGACY_NOT_REPLAYABLE => "LEGACY_NOT_REPLAYABLE"
  end.

Definition lineage_summary (ps : list RetryLineageProjection) : string :=
  json_text sorted_options
    (VList (map (fun p => VDict [ ("parent", VStr (parent_key p));
                                  ("state", VStr (recovery_state_value (p_state p))) ]) ps)).

Definition counts_text (counts : dict nat) : string :=
  json_text sorted_options (VDict (map (fun kn => (fst kn, VInt (Z.of_nat (snd kn)))) counts)).

(** The INSERT under the primary key and UNIQUE(run_id). *)
Definition insert_tombstone (r : RunPurgeRecord) (t : list RunPurgeRecord)
  : res deletion_error (list RunPurgeRecord) :=
  if existsb (fun x => (purge_id x =? purge_id r) || (pr_run_id x =? pr_run_id r))%string t
  then Err TombstoneConflict else Ok (t ++ [r]).

(** What [delete_run] reads from the clock and draws. *)
Record PurgeDraw := mkPurgeDraw {
  pd_requested_at : string;
  pd_lease_now : Z;
  pd_key_purged_at : Z;
  pd_purge_hex : string;
  pd_completed_at : string;
}.

Definition nonblank (s : string) : bool := str_truthy s && str_truthy (strip s).

Definition delete_run (d : PurgeDraw) (run actor why : string)
  : transaction RunDb deletion_error RunPurgeRecord := fun db =>
  _ ← guard_err (nonblank actor) BlankArgument;
  _ ← guard_err (nonblank why) BlankArgument;
  a ← assess_locked (pd_lease_now d) run db;
  _ ← guard_err (allowed a) (DeletionBlocked (blocking_reasons a));
  cdb ← purge_tables PURGE_TABLE_ORDER run [] db;
  let '(counts, db1) := cdb in
  let purged := rowcount (live_key run) (encryption_keys db1) in
  let db2 := with_keys (invalidate_key run (pd_key_purged_at d)
                          (encryption_keys db1)) db1 in
  let r := mkPurgeRecord ("purge-" +:+ pd_purge_hex d) run actor why (pd_requested_at d)
             (pd_completed_at d) (chain_status a) (lineage_summary (parent_states a))
             (da_legacy_count a) (counts_text counts) purged in
  t ← insert_tombstone r (run_purge_audit db2);
  Ok (with_audit t db2, r).

(** ** The gate *)

Definition lineages_closed (now : Z) (run : string) (db : RunDb) : Prop :=
  forall r, r ∈ effects db -> run_id r = run -> status r = "retry_authorized" ->
    p_state (project_parent now (load_side_effects run db) (facts_of r)) ∈ CLOSED_RETRY_LINEAGE_STATES.

Definition deletable (now : Z) (run : string) (db : RunDb) : Prop :=
  (exists row s, fetchone (st_of run) (chain_states (store db)) = Some row /\
     status_of_text (state_json row) = Ok (VStr s) /\ s ∈ TERMINAL_CHAIN_STATUSES) /\
  lineages_closed now run db.

Lemma elem_of_projections now run db p :
  p ∈ projections_of now run db <->
  exists r, r ∈ effects db /\ run_id r = run /\ status r = "retry_authorized" /\
    p = project_parent now (load_side_effects run db) (facts_of r).
Proof.
  unfold projections_of, classify_retry_lineages. rewrite list_elem_of_In, in_map_iff. split.
  - intros (se & <- & H). apply list_elem_of_In, elem_of_lfilter in H as [Hs H].
    unfold load_side_effects, select in H. apply list_elem_of_In, in_map_iff in H as (r & <- & H).
    apply list_elem_of_In, elem_of_lfilter in H as [Hr H]. bool_prop. exists r. auto.
  - intros (r & H & Hr & Hs & ->). eexists. split; [reflexivity|].
    apply list_elem_of_In, elem_of_lfilter. simpl. rewrite Hs. split; [done|].
    unfold load_side_effects, select. apply list_elem_of_In, in_map, list_elem_of_In, elem_of_lfilter.
    split; [by apply String.eqb_eq | done].
Qed.

Lemma projections_partition now run db p :
  p ∈ projections_of now run db ->
  p_state p ∈ CLOSED_RETRY_LINEAGE_STATES \/ p_state p ∈ OPEN_RETRY_LINEAGE_STATES.
Proof. intros (r & _ & _ & _ & ->)%elem_of_projections. apply project_parent_partition. Qed.

Lemma closed_not_open s : s ∈ CLOSED_RETRY_LINEAGE_STATES -> s ∉ OPEN_RETRY_LINEAGE_STATES.
Proof.
  unfold CLOSED_RETRY_LINEAGE_STATES, OPEN_RETRY_LINEAGE_STATES.
  rewrite !elem_of_cons, !elem_of_nil. intuition congruence.
Qed.

Lemma lineages_closed_spec now run db :
  lineages_closed now run db <->
  List.filter open_parent (projections_of now run db) = [].
Proof.
  split.
  - intros H. destruct (List.filter _ _) as [|p l] eqn:E; [done|]. exfalso.
    assert (Hp : p ∈ List.filter open_parent (projections_of now run db)) by (rewrite E; left).
    apply elem_of_lfilter in Hp as [Ho Hp]. apply bool_decide_eq_true in Ho.
    apply elem_of_projections in Hp as (r & H1 & H2 & H3 & ->).
    by apply (closed_not_open _ (H r H1 H2 H3)).
  - intros H r H1 H2 H3. set (p := project_parent now (load_side_effects run db) (facts_of r)).
    assert (Hp : p ∈ projections_of now run db) by (apply elem_of_projections; exists r; auto).
    destruct (projections_partition _ _ _ _ Hp) as [?|Ho]; [done|]. exfalso.
    assert (Hf : p ∈ List.filter open_parent (projections_of now run db)).
    { apply elem_of_lfilter. split; [by apply bool_decide_eq_true | done]. }
    rewrite H in Hf. inversion Hf.
Qed.

Lemma none_unclassified now run db :
  List.filter unclassified_parent (projections_of now run db) = [].
Proof.
  destruct (List.filter _ _) as [|p l] eqn:E; [done|]. exfalso.
  assert (Hp : p ∈ List.filter unclassified_parent (projections_of now run db)) by (rewrite E; left).
  apply elem_of_lfilter in Hp as [Hu Hp]. apply projections_partition in Hp.
  unfold unclassified_parent, in_states in Hu. rewrite andb_true_iff, !negb_true_iff, !bool_decide_eq_false in Hu.
  tauto.
Qed.

Lemma terminal_status_true v :
  is_terminal_status v = true <-> exists s, v = VStr s /\ s ∈ TERMINAL_CHAIN_STATUSES.
Proof.
  destruct v; unfold is_terminal_status; try (split; [discriminate | by intros (? & [=] & _)]).
  rewrite mem_true. split; [eauto | by intros (? & [= <-] & H)].
Qed.

Lemma assess_spec now run db :
  match assess_locked now run db with
  | Ok a =>
      (allowed a = true <-> deletable now run db) /\
      (allowed a = true <-> blocking_reasons a = []) /\
      parent_states a = (if run_exists a then projections_of now run db else [])
  | Err _ => ~ deletable now run db
  end.
Proof.
  unfold assess_locked, deletable, st_of.
  destruct (fetchone _ _) as [row|] eqn:E; simpl.
  2: { split_and!; [|done|done]. split; [discriminate | by intros [(? & ? & [=] & _) _]]. }
  destruct (status_of_text (state_json row)) as [v|e] eqn:Ev; simpl.
  2: { intros [(? & ? & [= <-] & H & _) _]. congruence. }
  rewrite none_unclassified. simpl.
  rewrite lineages_closed_spec.
  assert (Ht : (exists row0 s, Some row = Some row0 /\ status_of_text (state_json row0) = Ok (VStr s) /\
                  s ∈ TERMINAL_CHAIN_STATUSES) <-> is_terminal_status v = true).
  { rewrite terminal_status_true. split.
    - intros (? & s & [= <-] & Hs & H). exists s. split; [congruence | done].
    - intros (s & -> & H). exists row, s. auto. }
  rewrite Ht. destruct (is_terminal_status v), (List.filter open_parent _) eqn:Eo; simpl;
    split_and!; try done; naive_solver.
Qed.

(** ** The purge *)

Lemma rowcount_deleted {R} (p : R -> bool) (t : list R) : rowcount p (delete_where p t) = 0%nat.
Proof.
  unfold rowcount. apply count_zero. intros r Hr. unfold delete_where in Hr.
  apply elem_of_lfilter in Hr as [Hp _]. by apply negb_true_iff.
Qed.

Lemma select_deleted {R} (p q : R -> bool) (t : list R) :
  (forall r, q r = true -> p r = false) -> select q (delete_where p t) = select q t.
Proof.
  intros H. unfold select, delete_where. induction t as [|r t IH]; [done|]. cbn [List.filter].
  destruct (p r) eqn:Ep; cbn [negb List.filter].
  - destruct (q r) eqn:Eq; [|done]. rewrite H in Ep; done.
  - by rewrite IH.
Qed.

Lemma select_snoc {R} (p : R -> bool) t x :
  select p (t ++ [x]) = if p x then select p t ++ [x] else select p t.
Proof.
  unfold select. rewrite List.filter_app. cbn [List.filter]. destruct (p x); [done|]. apply app_nil_r.
Qed.

(** The row count of a DELETE. *)
Definition purge_count (table run : string) (db : RunDb) : nat :=
  match purge_table table run db with Some (n, _) => n | None => 0%nat end.

Definition LOG_TABLES : list string :=
  [ "side_effect_blocked_attempts"; "review_decision_attempts"; "operator_action_log";
    "memory_decisions"; "memory_read_decisions"; "tool_access_decisions";
    "adapter_access_decisions"; "package_trust_decisions" ].

Definition tables_exist (db : RunDb) : Prop := forall t, t ∈ LOG_TABLES -> t ∈ dkeys (logs db).

Lemma dget_elem {V} k (d : dict V) : k ∈ dkeys d -> exists v, dget k d = Some v.
Proof. destruct (dget k d) eqn:E; [eauto|]. by rewrite dget_None in E. Qed.

Lemma add_new_id x l : x ∈ l -> add_new x l = l.
Proof. intros H. unfold add_new. by apply mem_true in H as ->. Qed.

Lemma purge_table_keys t run db n db' :
  purge_table t run db = Some (n, db') -> dkeys (logs db') = dkeys (logs db).
Proof.
  unfold purge_table. repeat (case_goal; [by intros [= _ <-]|]).
  destruct (dget t (logs db)) as [l|] eqn:E; simpl; [|discriminate]. intros [= _ <-]. simpl.
  rewrite dkeys_dset. apply add_new_id. destruct (decide (t ∈ dkeys (logs db))) as [?|Hn]; [done|].
  apply dget_None in Hn. congruence.
Qed.

Lemma purge_table_exists t run db :
  t ∈ PURGE_TABLE_ORDER -> tables_exist db -> exists n db', purge_table t run db = Some (n, db').
Proof.
  intros Ht Hl. unfold purge_table. repeat (case_goal; [by eauto|]).
  destruct (dget_elem t (logs db)) as [l ->]; [|by eexists _, _].
  apply Hl. unfold PURGE_TABLE_ORDER in Ht. rewrite !elem_of_cons in Ht. unfold LOG_TABLES.
  rewrite !elem_of_cons. bool_prop. intuition congruence.
Qed.

(** A statement deletes the rows of the run in its table, and no others. *)
Lemma purge_table_rows t run db n db' :
  purge_table t run db = Some (n, db') ->
  n = purge_count t run db /\
  forall t', purge_count t' run db' = if (t' =? t)%string then 0%nat else purge_count t' run db.
Proof.
  intros H. split; [by unfold purge_count; rewrite H|]. intros t'. revert H. unfold purge_table.
  repeat (case_goal;
    [bool_prop; subst t; intros [= <- <-]; unfold purge_count, purge_table;
     repeat (case_goal; [bool_prop; subst t'; simpl; rewrite ?rowcount_deleted; reflexivity|]);
     repeat match goal with E : (t' =s? ?x)%nc = false |- _ => rewrite ?E; clear E end;
     simpl; by destruct (dget t' (logs db))|]).
  destruct (dget t (logs db)) as [l|] eqn:E; simpl; [|discriminate]. intros [= <- <-].
  unfold purge_count, purge_table.
  destruct (t' =? t)%string eqn:Ett.
  - apply String.eqb_eq in Ett as ->.
    repeat match goal with E : (t =s? ?x)%nc = false |- _ => rewrite ?E; clear E end.
    simpl. rewrite dget_dset_same. simpl. apply rowcount_deleted.
  - apply String.eqb_neq in Ett. repeat (case_goal; [reflexivity|]). simpl.
    rewrite dget_dset_other by done. by destruct (dget t' (logs db)).
Qed.

(** The rows of one run, everywhere. *)
Definition slice (run : string) (db : RunDb) : RunDb :=
  mkRunDb
    (mkStore (select (st_of run) (chain_states (store db)))
       (select (ev_of run) (state_events (store db)))
       (select (inv_of run) (invocation_ledger (store db))))
    (select (eff_of run) (effects db)) (select (dec_of run) (recovery_decisions db))
    (select (act_of run) (execution_actions db)) (select (cap_of run) (replay_capsules db))
    (select (key_of run) (encryption_keys db))
    (map (fun kt => (fst kt, select (log_of run) (snd kt))) (logs db))
    (select (me_of run) (metric_events db))
    (select (fun r => (pr_run_id r =? run)%string) (run_purge_audit db)).

Lemma dset_mapped {V W} (f : V -> W) k v w (d : dict V) :
  dget k d = Some w -> f v = f w ->
  map (fun kt => (fst kt, f (snd kt))) (dset k v d) = map (fun kt => (fst kt, f (snd kt))) d.
Proof.
  intros H Hf. induction d as [|[k' v'] d IH]; simpl in *; [discriminate|].
  destruct (k =? k')%string eqn:E; simpl.
  - apply String.eqb_eq in E as ->. injection H as ->. by rewrite Hf.
  - by rewrite IH.
Qed.

Lemma log_other run other r : other <> run -> log_of other r = true -> log_of run r = false.
Proof.
  unfold log_of. destruct (DecisionLog.cell "run_id" r); simpl; try done.
  intros Hn ->%String.eqb_eq. by apply String.eqb_neq.
Qed.

Lemma purge_table_slice t run other db n db' :
  other <> run -> purge_table t run db = Some (n, db') -> slice other db' = slice other db.
Proof.
  intros Hn. unfold purge_table, slice.
  assert (Heq : forall a : string, (a =? other)%string = true -> (a =? run)%string = false).
  { intros a ->%String.eqb_eq. by apply String.eqb_neq. }
  repeat (case_goal; [intros [= _ <-]; simpl; rewrite ?select_deleted; [done|];
    (intros r; unfold me_of, act_of, cap_of, dec_of, inv_of, ev_of, eff_of, st_of; try apply Heq)|]).
  - destruct (me_run_id r); simpl; [apply Heq | done].
  - destruct (dget t (logs db)) as [l|] eqn:E; simpl; [|discriminate]. intros [= _ <-]. simpl. f_equal.
    apply (dset_mapped (select (log_of other)) _ _ l); [done|].
    apply select_deleted. intros r. by apply log_other.
Qed.

Lemma purge_table_frame t run db n db' :
  purge_table t run db = Some (n, db') ->
  encryption_keys db' = encryption_keys db /\ run_purge_audit db' = run_purge_audit db.
Proof.
  unfold purge_table. repeat (case_goal; [by intros [= _ <-]|]).
  destruct (dget t (logs db)); simpl; [by intros [= _ <-] | discriminate].
Qed.

Definition purged_counts (run : string) (tables : list string) (db : RunDb) : dict nat :=
  map (fun t => (t, purge_count t run db)) tables.

Lemma purge_tables_spec tables run counts db counts' db' :
  NoDup tables -> (forall t, t ∈ tables -> t ∉ dkeys counts) ->
  purge_tables tables run counts db = Ok (counts', db') ->
  counts' = counts ++ purged_counts run tables db /\
  (forall t, t ∈ tables -> purge_count t run db' = 0%nat) /\
  (forall t, purge_count t run db = 0%nat -> purge_count t run db' = 0%nat) /\
  (forall other, other <> run -> slice other db' = slice other db) /\
  encryption_keys db' = encryption_keys db /\ run_purge_audit db' = run_purge_audit db.
Proof.
  revert counts db. induction tables as [|t tables IH]; intros counts db Hn Hc; simpl.
  - intros [= <- <-]. rewrite app_nil_r. split_and!; try done. intros t Ht. inversion Ht.
  - apply NoDup_cons in Hn as [Ht Hn].
    destruct (purge_table t run db) as [[n db1]|] eqn:E; [|discriminate]. intros H.
    destruct (purge_table_rows _ _ _ _ _ E) as [-> Hr].
    destruct (purge_table_frame _ _ _ _ _ E) as [Hk Ha].
    rewrite dset_new in H by (apply Hc; left).
    apply IH in H as (-> & H1 & H2 & H3 & H4 & H5); [|done|].
    + split_and!; try congruence.
      * rewrite <- app_assoc. simpl. do 2 f_equal. apply map_ext_in. intros t' Ht'.
        f_equal. rewrite Hr. destruct (t' =? t)%string eqn:Ett; [|done].
        apply String.eqb_eq in Ett as ->. by apply list_elem_of_In in Ht'.
      * intros t' [->|Ht']%elem_of_cons; [|auto]. apply H2. by rewrite Hr, String.eqb_refl.
      * intros t' Ht'. apply H2. rewrite Hr. by destruct (t' =? t)%string.
      * intros other Ho. rewrite H3 by done. by apply (purge_table_slice _ _ _ _ _ _ Ho E).
    + intros t' Ht'. unfold dkeys. rewrite map_app. apply not_elem_of_app. split.
      * apply Hc. by right.
      * simpl. rewrite list_elem_of_singleton. intros ->. done.
Qed.

Lemma purge_tables_exist tables run counts db :
  (forall t, t ∈ tables -> t ∈ PURGE_TABLE_ORDER) -> tables_exist db ->
  exists r, purge_tables tables run counts db = Ok r.
Proof.
  revert counts db. induction tables as [|t tables IH]; intros counts db Ht Hl; simpl; [eauto|].
  destruct (purge_table_exists t run db) as (n & db' & E); [apply Ht; left | done |].
  rewrite E. apply IH; [intros; apply Ht; by right|].
  intros x Hx. rewrite (purge_table_keys _ _ _ _ _ E). auto.
Qed.

Lemma purge_order_NoDup : NoDup PURGE_TABLE_ORDER.
Proof. apply (bool_decide_eq_true_1 (NoDup PURGE_TABLE_ORDER)). vm_compute. reflexivity. Qed.

Lemma purge_all run db counts db' :
  purge_tables PURGE_TABLE_ORDER run [] db = Ok (counts, db') ->
  counts = purged_counts run PURGE_TABLE_ORDER db /\
  (forall t, t ∈ PURGE_TABLE_ORDER -> purge_count t run db' = 0%nat) /\
  (forall other, other <> run -> slice other db' = slice other db) /\
  encryption_keys db' = encryption_keys db /\ run_purge_audit db' = run_purge_audit db.
Proof.
  intros H. apply purge_tables_spec in H as (H1 & H2 & _ & H3); [auto | apply purge_order_NoDup |].
  intros t _ Hx. inversion Hx.
Qed.

Lemma nonblank_strip s : nonblank s = true <-> strip s <> "".
Proof.
  unfold nonblank. split.
  - intros [_ H]%andb_true_iff. by apply negb_true_iff, String.eqb_neq in H.
  - intros H. apply andb_true_iff. unfold str_truthy. rewrite !negb_true_iff, !String.eqb_neq.
    split; [|done]. by intros ->.
Qed.

(** No tombstone of the run, and a fresh purge id. *)
Definition tombstone_free (d : PurgeDraw) (run : string) (db : RunDb) : Prop :=
  forall x, x ∈ run_purge_audit db -> pr_run_id x <> run /\ purge_id x <> "purge-" +:+ pd_purge_hex d.

Lemma insert_tombstone_spec r t :
  is_ok (insert_tombstone r t) = true <->
  forall x, x ∈ t -> pr_run_id x <> pr_run_id r /\ purge_id x <> purge_id r.
Proof.
  unfold insert_tombstone. destruct (existsb _ t) eqn:E; simpl.
  - split; [discriminate|]. intros H. apply existsb_elem in E as (x & Hx & E).
    destruct (H x Hx). bool_prop. destruct E; bool_prop; congruence.
  - split; [|done]. intros _ x Hx. destruct ((purge_id x =? purge_id r)%string
      || (pr_run_id x =? pr_run_id r)%string) eqn:Ex.
    + assert (existsb (fun x => (purge_id x =? purge_id r)%string
        || (pr_run_id x =? pr_run_id r)%string) t = true) by (apply existsb_elem; eauto). congruence.
    + apply orb_false_iff in Ex as [E1 E2]. by apply String.eqb_neq in E1, E2.
Qed.

(** A run is deleted exactly when somebody is named with a reason, the run
    exists in a terminal status, every retry an operator authorized in it has
    come to an end, and it was not purged before. *)
Theorem deletion_gate d run actor why db :
  tables_exist db ->
  is_ok (delete_run d run actor why db) = true <->
  strip actor <> "" /\ strip why <> "" /\ deletable (pd_lease_now d) run db /\
  tombstone_free d run db.
Proof.
  intros Hl. destruct (purge_tables_exist PURGE_TABLE_ORDER run [] db) as ([counts db1] & E);
    [done | done |].
  unfold delete_run. rewrite E. apply purge_all in E as (_ & _ & _ & _ & E).
  rewrite <- (nonblank_strip actor), <- (nonblank_strip why).
  destruct (nonblank actor); simpl; [|naive_solver].
  destruct (nonblank why); simpl; [|naive_solver].
  pose proof (assess_spec (pd_lease_now d) run db) as Ha.
  destruct (assess_locked _ _ _) as [a|e]; simpl; [|naive_solver].
  destruct Ha as (Ha & _). destruct (allowed a); simpl; [|naive_solver].
  rewrite E.
  match goal with |- context [insert_tombstone ?r ?t] => pose proof (insert_tombstone_spec r t) as Ht;
    destruct (insert_tombstone r t) end; simpl in *; unfold tombstone_free; naive_solver.
Qed.

Lemma delete_run_inv d run actor why db db' r :
  delete_run d run actor why db = Ok (db', r) ->
  exists a db1 t,
    assess_locked (pd_lease_now d) run db = Ok a /\ allowed a = true /\
    purge_tables PURGE_TABLE_ORDER run [] db = Ok (purged_counts run PURGE_TABLE_ORDER db, db1) /\
    insert_tombstone r (run_purge_audit db) = Ok t /\
    db' = with_audit t (with_keys (invalidate_key run (pd_key_purged_at d) (encryption_keys db)) db1) /\
    r = mkPurgeRecord ("purge-" +:+ pd_purge_hex d) run actor why (pd_requested_at d)
          (pd_completed_at d) (chain_status a) (lineage_summary (parent_states a)) (da_legacy_count a)
          (counts_text (purged_counts run PURGE_TABLE_ORDER db))
          (rowcount (live_key run) (encryption_keys db)).
Proof.
  unfold delete_run. intros H.
  apply bind_ok in H as (u1 & _ & H). apply bind_ok in H as (u2 & _ & H).
  apply bind_ok in H as (a & Ha & H). apply bind_ok in H as (u3 & H3%guard_err_ok & H).
  apply bind_ok in H as ([counts db1] & Hp & H).
  pose proof (purge_all _ _ _ _ Hp) as (-> & _ & _ & Hk & Haud).
  rewrite Hk in H. simpl in H. rewrite Haud in H.
  apply bind_ok in H as (t & Ht & [= <- <-]). exists a, db1, t. split_and!; done.
Qed.

Lemma invalidate_other run other stamp keys :
  other <> run -> select (key_of other) (invalidate_key run stamp keys) = select (key_of other) keys.
Proof.
  intros Hn. unfold select, invalidate_key, update_where. induction keys as [|k keys IH]; [done|].
  cbn [map List.filter]. unfold key_of, live_key in *. destruct (rk_run_id k =? run)%string eqn:E; simpl.
  - apply String.eqb_eq in E. assert ((rk_run_id k =? other)%string = false) as H.
    { apply String.eqb_neq. congruence. }
    destruct (is_null (purged_at k)); simpl; rewrite H; apply IH.
  - destruct (rk_run_id k =? other)%string; by rewrite IH.
Qed.

Lemma invalidated_unloadable run stamp keys : load_wrapped_dek run (invalidate_key run stamp keys) = None.
Proof.
  unfold load_wrapped_dek. destruct (fetchone _ _) as [k|] eqn:E; [|done]. exfalso.
  apply fetchone_some in E as [Hk Hl]. apply elem_of_update_where in Hk as (k0 & Hk0 & ->).
  destruct (live_key run k0) eqn:E0; [|congruence]. unfold live_key in Hl. simpl in Hl.
  by rewrite andb_false_r in Hl.
Qed.

Lemma purge_count_with_keys t run x db : purge_count t run (with_keys x db) = purge_count t run db.
Proof.
  unfold purge_count, purge_table. repeat (case_goal; [reflexivity|]). simpl. by destruct (dget t (logs db)).
Qed.

Lemma purge_count_with_audit t run x db : purge_count t run (with_audit x db) = purge_count t run db.
Proof.
  unfold purge_count, purge_table. repeat (case_goal; [reflexivity|]). simpl. by destruct (dget t (logs db)).
Qed.

Lemma insert_tombstone_ok r t t' :
  insert_tombstone r t = Ok t' -> t' = t ++ [r].
Proof. unfold insert_tombstone. case_goal; [discriminate | by intros [= <-]]. Qed.

(** The run that each row of a table belongs to, table by table. *)
Definition log_owner (r : pyctx) : option string :=
  match DecisionLog.cell "run_id" r with VStr s => Some s | _ => None end.

Definition owners (table : string) (db : RunDb) : list (option string) :=
  if (table =? "chain_states")%string then map (fun r => Some (sr_run_id r)) (chain_states (store db))
  else if (table =? "state_events")%string then map (fun e => Some (er_run_id e)) (state_events (store db))
  else if (table =? "invocation_ledger")%string then map (fun r => Some (ir_run_id r)) (invocation_ledger (store db))
  else if (table =? "side_effect_ledger")%string then map (fun r => Some (run_id r)) (effects db)
  else if (table =? "side_effect_replay_capsules")%string then map (fun c => Some (cap_run_id c)) (replay_capsules db)
  else if (table =? "side_effect_recovery_decisions")%string then map (fun d => Some (rd_run_id d)) (recovery_decisions db)
  else if (table =? "recovery_execution_actions")%string then map (fun a => Some (act_run_id a)) (execution_actions db)
  else if (table =? "recovery_metric_events")%string then map me_run_id (metric_events db)
  else map log_owner (dget_or table [] (logs db)).

(** The rows of a run in a table. *)
Definition rows_in (table run : string) (db : RunDb) : nat :=
  length (List.filter (fun o => bool_decide (o = Some run)) (owners table db)).

Lemma owned {R} (run : string) (own : R -> option string) (p : R -> bool) (t : list R) :
  (forall r, p r = true <-> own r = Some run) ->
  length (List.filter (fun o => bool_decide (o = Some run)) (map own t)) = rowcount p t.
Proof.
  intros H. induction t as [|r t IH]; [done|]. cbn [map List.filter rowcount].
  assert (bool_decide (own r = Some run) = p r) as Hb.
  { destruct (p r) eqn:E; [apply bool_decide_eq_true_2, H, E|]. apply bool_decide_eq_false_2. intros Ho%H. congruence. }
  unfold rowcount, count in *. cbn. rewrite Hb. destruct (p r); cbn; by rewrite IH.
Qed.

Lemma sql_eq_some a run : sql_eq a (Some run) = true <-> a = Some run.
Proof. rewrite sql_eq_true. naive_solver. Qed.

Lemma rows_in_purge_count t run db : rows_in t run db = purge_count t run db.
Proof.
  assert (Hs : forall a : string, (a =? run)%string = true <-> Some a = Some run)
    by (intros a; rewrite String.eqb_eq; split; congruence).
  unfold rows_in, owners, purge_count, purge_table.
  repeat match goal with |- context [if (t =? ?n)%string then _ else _] =>
    destruct (String.eqb_spec t n) as [->|?]; [exact (owned run _ _ _ (fun r => Hs _)) || (apply owned; intros r; apply sql_eq_some)|] end.
  unfold dget_or. destruct (dget t (logs db)) as [l|]; [|done]. apply owned. intros r. unfold log_of, log_owner.
  destruct (DecisionLog.cell "run_id" r); cbn; try done; apply Hs.
Qed.

(** Every table with rows of a run, but its key and its tombstone. *)
Definition RUN_TABLES : list string :=
  [ "chain_states"; "state_events"; "invocation_ledger"; "side_effect_ledger";
    "side_effect_replay_capsules"; "side_effect_recovery_decisions"; "recovery_execution_actions";
    "recovery_metric_events" ] ++ LOG_TABLES.

Lemma run_tables_purged t : t ∈ RUN_TABLES -> t ∈ PURGE_TABLE_ORDER.
Proof.
  intros Ht. assert (forallb (fun t => mem t PURGE_TABLE_ORDER) RUN_TABLES = true) as H by reflexivity.
  rewrite forallb_elem in H. apply mem_true. auto.
Qed.

Lemma run_purged_core d run actor why db db' r :
  delete_run d run actor why db = Ok (db', r) ->
  (forall t, t ∈ RUN_TABLES -> rows_in t run db' = 0%nat) /\
  load_wrapped_dek run (encryption_keys db') = None /\
  (forall k, k ∈ encryption_keys db -> live_key run k = true ->
     mkRunKey (rk_run_id k) "" (rk_key_version k) "" (rk_created_at k) (Some (pd_key_purged_at d))
       ∈ encryption_keys db') /\
  (forall other, other <> run -> slice other db' = slice other db) /\
  run_purge_audit db' = run_purge_audit db ++ [r] /\
  (pr_run_id r, actor_identity r, reason r) = (run, actor, why) /\
  deleted_row_counts_json r =
    counts_text (map (fun t => (t, rows_in t run db)) PURGE_TABLE_ORDER) /\
  lineage_summary_json r = lineage_summary (projections_of (pd_lease_now d) run db).
Proof.
  intros H. apply delete_run_inv in H as (a & db1 & t & Ha & Hal & Hp & Ht & -> & ->).
  rewrite (map_ext (fun t => (t, rows_in t run db)) (fun t => (t, purge_count t run db)))
    by (intros t0; by rewrite rows_in_purge_count).
  pose proof (purge_all _ _ _ _ Hp) as (_ & H1 & H2 & Hk & Haud).
  apply insert_tombstone_ok in Ht as ->.
  pose proof (assess_spec (pd_lease_now d) run db) as Hs. rewrite Ha in Hs.
  destruct Hs as (_ & Hb & Hps). split_and!; try reflexivity.
  - intros t Ht. rewrite rows_in_purge_count, purge_count_with_audit, purge_count_with_keys. by apply H1, run_tables_purged.
  - apply invalidated_unloadable.
  - intros k Hin Hl. apply elem_of_update_where. exists k. by rewrite Hl.
  - intros other Ho. specialize (H2 other Ho). unfold slice in *. simpl.
    injection H2 as E1 E2 E3 E4 E5 E6 E7 E8 E9 E10 E11.
    rewrite E1, E2, E3, E4, E5, E6, E7, E9, E10, invalidate_other by done. f_equal.
    unfold select. rewrite List.filter_app. cbn [List.filter pr_run_id].
    assert ((run =? other)%string = false) as -> by (apply String.eqb_neq; congruence).
    by rewrite app_nil_r.
  - simpl. rewrite Hps. unfold assess_locked in Ha.
    destruct (fetchone _ (chain_states (store db))) as [row|]; [|by injection Ha as <-].
    apply bind_ok in Ha as (v & _ & Ha). by injection Ha as <-.
Qed.

(** C40: A purge leaves no row of the run in any of the sixteen tables and no
    loadable key, erases the key material it found live, does not touch any
    other run, and leaves one record, whose counts are the rows there were
    and whose summary is the lineage it was admitted under. *)
Theorem run_purged d run actor why db db' r :
  delete_run d run actor why db = Ok (db', r) ->
  (forall t, t ∈ RUN_TABLES -> rows_in t run db' = 0%nat) /\
  load_wrapped_dek run (encryption_keys db') = None /\
  (forall k, k ∈ encryption_keys db -> live_key run k = true ->
     mkRunKey (rk_run_id k) "" (rk_key_version k) "" (rk_created_at k) (Some (pd_key_purged_at d))
       ∈ encryption_keys db') /\
  (forall other, other <> run -> slice other db' = slice other db) /\
  run_purge_audit db' = run_purge_audit db ++ [r] /\
  (pr_run_id r, actor_identity r, reason r) = (run, actor, why) /\
  deleted_row_counts_json r =
    counts_text (map (fun t => (t, rows_in t run db)) PURGE_TABLE_ORDER) /\
  lineage_summary_json r = lineage_summary (projections_of (pd_lease_now d) run db).
Proof. apply run_purged_core. Qed.

(** ** After the purge *)

Definition emissions (es : list (string * string * EmitArgs)) (db : RunDb) : RunDb :=
  fold_left (fun db e => let '(draw, now, a) := e in failure_isolated draw now a db) es db.

Definition purged (run : string) (db : RunDb) : Prop :=
  exists r, r ∈ run_purge_audit db /\ pr_run_id r = run.

Lemma purged_insert run m db :
  purged run db -> me_run_id m = Some run -> insert_metric m db = Err MetricRunPurged.
Proof.
  intros (r & Hr & Hrun) Hm. unfold insert_metric.
  assert (existsb (fun p => sql_eq (Some (pr_run_id p)) (me_run_id m)) (run_purge_audit db) = true) as ->.
  { apply existsb_elem. exists r. split; [done|]. rewrite Hm. simpl. by apply String.eqb_eq. }
  done.
Qed.

Lemma insert_metric_cases m db db' b :
  insert_metric m db = Ok (db', b) -> db' = if b then with_metrics (metric_events db ++ [m]) db else db.
Proof.
  unfold insert_metric. intros H. apply bind_ok in H as (u & _ & H).
  destruct (fetchone _ _) as [ex|].
  - by apply bind_ok in H as (u' & _ & [= <- <-]).
  - destruct (_ || _); [discriminate|]. by injection H as <- <-.
Qed.

Lemma failure_isolated_spec draw now a db run :
  purged run db ->
  let db' := failure_isolated draw now a db in
  store db' = store db /\ encryption_keys db' = encryption_keys db /\
  run_purge_audit db' = run_purge_audit db /\
  select (me_of run) (metric_events db') = select (me_of run) (metric_events db).
Proof.
  intros Hp. unfold failure_isolated, commit, emit.
  destruct (validate _ _ _) as [kind|]; simpl; [|done].
  destruct (insert_metric _ db) as [[db' b]|] eqn:E; [|done].
  pose proof E as E'. apply insert_metric_cases in E' as ->. destruct b; [|done]. simpl.
  split_and!; try done. rewrite select_snoc. destruct (me_of run _) eqn:Er; [|done].
  apply sql_eq_true in Er as (x & Hx & [= <-]).
  rewrite (purged_insert run) in E; [discriminate | done | done].
Qed.

Lemma emissions_spec es db run :
  purged run db ->
  let db' := emissions es db in
  store db' = store db /\ encryption_keys db' = encryption_keys db /\
  run_purge_audit db' = run_purge_audit db /\
  select (me_of run) (metric_events db') = select (me_of run) (metric_events db).
Proof.
  revert db. induction es as [|[[draw now] a] es IH]; intros db Hp; [done|]. simpl.
  pose proof (failure_isolated_spec draw now a db run Hp) as (H1 & H2 & H3 & H4).
  destruct (IH (failure_isolated draw now a db)) as (G1 & G2 & G3 & G4).
  { destruct Hp as (r & Hr & Hrun). exists r. by rewrite H3. }
  split_and!; congruence.
Qed.

(** A purge is final: whatever metrics producers emit afterwards, no metric
    of the run appears, a second deletion finds no run, and a run that had a
    key can never get another, so no further effect of it can be recorded
    with a capsule. *)
Theorem purge_final d run actor why db db' r es :
  delete_run d run actor why db = Ok (db', r) ->
  let late := emissions es db' in
  rows_in "recovery_metric_events" run late = 0%nat /\
  delete_run d run actor why late = Err (DeletionBlocked [RUN_NOT_FOUND]) /\
  (forall enc dec kek draw seen,
     existsb (key_of run) (encryption_keys db) = true ->
     seen = encryption_keys db' \/ seen = encryption_keys late ->
     get_or_create_run_dek enc dec kek run draw seen (encryption_keys late)
     = Err (StoreError SqlIntegrityError)).
Proof.
  intros H late. pose proof H as H0. apply run_purged_core in H as (H1 & H2 & _ & _ & H3 & H4 & _).
  injection H4 as Hr _ _.
  assert (Hp : purged run db').
  { exists r. rewrite H3. split; [apply elem_of_app; right; left | done]. }
  pose proof (emissions_spec es db' run Hp) as (E1 & E2 & E3 & E4). fold late in E1, E2, E3, E4.
  split_and!.
  - assert (rows_in "recovery_metric_events" run db' = 0%nat) as Hz by (apply H1; decided).
    rewrite rows_in_purge_count in *. unfold purge_count in *. simpl in *. unfold rowcount, count in *. unfold select in E4.
    by rewrite E4.
  - assert (Hs : fetchone (fun r => sr_run_id r =? run)%string (chain_states (store late)) = None).
    { rewrite E1. apply fetchone_none. pose proof (H1 "chain_states" ltac:(decided)) as Hz.
      rewrite rows_in_purge_count in Hz. unfold purge_count in Hz. simpl in Hz. unfold rowcount in Hz. by rewrite count_zero in Hz. }
    unfold delete_run in H0 |- *.
    apply bind_ok in H0 as (u1 & Hu1 & H0). apply bind_ok in H0 as (u2 & Hu2 & _).
    rewrite Hu1, Hu2. simpl. unfold assess_locked. by rewrite Hs.
  - intros enc dec kek draw seen Hk Hseen.
    assert (Hl : load_wrapped_dek run seen = None).
    { destruct Hseen as [->| ->]; [done|]. by rewrite E2. }
    apply delete_run_inv in H0 as (a & db1 & t & _ & _ & _ & _ & Edb & _).
    assert (Hk' : existsb (fun k => rk_run_id k =? run)%string (encryption_keys late) = true).
    { rewrite E2, Edb. simpl. apply existsb_elem in Hk as (k & Hk & Hr'). apply existsb_elem.
      eexists. split; [apply elem_of_update_where; exists k; split; [done | reflexivity]|].
      by destruct (live_key run k). }
    unfold get_or_create_run_dek. rewrite Hl. unfold wrap_dek. rewrite Hk', E2, H2. done.
Qed.

(** ** Metrics *)

Lemma validate_finite name v labels kind : validate name v labels = Ok kind -> is_nan v = false.
Proof.
  unfold validate. destruct (dget name METRIC_KINDS); [|discriminate]. intros H.
  apply bind_ok in H as (u1 & _ & H). apply bind_ok in H as (u2 & H%guard_err_ok & _).
  by apply negb_true_iff, orb_false_iff in H as [H _].
Qed.

Lemma num_eq_self v : is_nan v = false -> num_eq (NFloat v) (NFloat v) = true.
Proof.
  unfold num_eq, num_cmp, ext_of. destruct v as [b|b| |b m e]; intros H; try done.
  - cbn [ext_of_float ext_cmp]. by rewrite Bool.eqb_reflx.
  - cbn [ext_of_float ext_cmp]. unfold scaled_cmp. by rewrite Z.compare_refl.
Qed.

Lemma emit_ok draw now a db db' b :
  emit draw now a db = Ok (db', b) ->
  exists kind at_, validate (em_name a) (em_value a) (em_labels a) = Ok kind /\
    insert_metric (mkMetric ("rme-" +:+ draw) at_ (em_name a) kind (em_value a) (em_run_id a)
      (em_attempt_key a) (em_action_id a) (canonical_labels (em_labels a)) (em_source_key a)) db
    = Ok (db', b).
Proof. unfold emit. intros (kind & Hv & H)%bind_ok. eauto. Qed.

(** A source key names one event: emitting the event again adds nothing and
    is no error, and what is emitted under the key with other content is
    refused; so a producer may repeat itself after a crash. *)
Theorem metric_source_key_once draw now a db db' b :
  emit draw now a db = Ok (db', b) ->
  (forall draw' now', emit draw' now' a db' = Ok (db', false)) /\
  (forall draw' now' a' db2 b2, em_source_key a' = em_source_key a ->
     emit draw' now' a' db' = Ok (db2, b2) -> db2 = db' /\ b2 = false).
Proof.
  intros (kind & at_ & Hv & H)%emit_ok.
  assert (Hrow : exists ex, fetchone (fun x => (source_event_key x =? em_source_key a)%string)
                    (metric_events db') = Some ex /\
            same_payload ex (mkMetric ("rme-" +:+ draw) at_ (em_name a) kind (em_value a) (em_run_id a)
              (em_attempt_key a) (em_action_id a) (canonical_labels (em_labels a)) (em_source_key a)) = true
            /\ existsb (fun p => sql_eq (Some (pr_run_id p)) (em_run_id a)) (run_purge_audit db') = false).
  { unfold insert_metric in H. apply bind_ok in H as (u & Hg%guard_err_ok & H). simpl in H, Hg.
    apply negb_true_iff in Hg.
    destruct (fetchone _ (metric_events db)) as [ex|] eqn:E.
    - apply bind_ok in H as (u' & Hp%guard_err_ok & [= <- <-]). exists ex. auto.
    - destruct (_ || _); [discriminate|]. injection H as <- <-. simpl. rewrite fetchone_app, E.
      unfold fetchone at 1. cbn [List.find source_event_key]. rewrite String.eqb_refl.
      eexists. split_and!; [reflexivity | | done].
      unfold same_payload. cbn. rewrite !String.eqb_refl, !bool_decide_eq_true_2 by done.
      by rewrite num_eq_self by (by eapply validate_finite). }
  destruct Hrow as (ex & Hf & Hsame & Hg). split.
  - intros draw' now'. unfold emit. rewrite Hv. cbn [mbind res_bind]. unfold insert_metric.
    cbn [me_run_id source_event_key]. rewrite Hg. cbn. rewrite Hf. unfold same_payload in *. simpl in *. by rewrite Hsame.
  - intros draw' now' a' db2 b2 Hk (kind' & at' & _ & H')%emit_ok. unfold insert_metric in H'.
    apply bind_ok in H' as (u & _ & H'). simpl in H'. rewrite Hk, Hf in H'.
    by apply bind_ok in H' as (u' & _ & [= <- <-]).
Qed.

(** ** Examples *)

Definition demo_state (st : string) : StateRow string :=
  mkStateRow "r" (json_text default_options (VDict [("status", VStr st)])) 3 "t".

Definition demo_effect (run key st : string) (parent : option string) : Row :=
  mkRow 1 run 1 "n" None "search" key st (Some "h") None None true 5 parent None 0 None
    (Some "cap:1") "available" None None None None.

Definition demo_key (run : string) : RunKeyRow := mkRunKey run "dek" 1 "nonce" 4 None.

(** One finished run with an authorized retry that completed, and another. *)
Definition demo_db (st child : string) : RunDb :=
  mkRunDb (mkStore [demo_state st] [] [])
    [ demo_effect "r" "k" "retry_authorized" None; demo_effect "r" "k2" child (Some "k");
      demo_effect "q" "k" "started" None ]
    [] [] [] [demo_key "r"; demo_key "q"]
    (map (fun t => (t, [])) ("registry_admission_decisions" :: LOG_TABLES)) [] [].

Definition demo_draw : PurgeDraw := mkPurgeDraw "t1" 10 11 "abc" "t2".

Lemma demo_tables st child : tables_exist (demo_db st child).
Proof. intros t Ht. simpl. by right. Qed.

Lemma deletion_gate_witness :
  tables_exist (demo_db "failed" "completed") /\
  deletable 10 "r" (demo_db "failed" "completed") /\
  is_ok (delete_run demo_draw "r" "ops" " " (demo_db "failed" "completed")) = false.
Proof.
  split; [apply demo_tables|]. split.
  - apply (deletion_gate demo_draw "r" "ops" "gdpr" (demo_db "failed" "completed") (demo_tables _ _)).
    vm_compute. reflexivity.
  - vm_compute. reflexivity.
Defined.

Example open_lineage_blocks :
  delete_run demo_draw "r" "ops" "gdpr" (demo_db "completed" "started")
  = Err (DeletionBlocked [RUN_DELETION_BLOCKED_OPEN_LINEAGE]).
Proof. vm_compute. reflexivity. Qed.

Example running_blocks :
  delete_run demo_draw "r" "ops" "gdpr" (demo_db "running" "completed")
  = Err (DeletionBlocked [RUN_DELETION_BLOCKED_NON_TERMINAL]).
Proof. vm_compute. reflexivity. Qed.

Definition demo_purge : res deletion_error (RunDb * RunPurgeRecord) :=
  delete_run demo_draw "r" "ops" "gdpr" (demo_db "completed" "completed").

Definition demo_after : RunDb :=
  match demo_purge with Ok (db, _) => db | Err _ => demo_db "" "" end.

Definition demo_record : RunPurgeRecord :=
  match demo_purge with
  | Ok (_, r) => r
  | Err _ => mkPurgeRecord "" "" "" "" "" "" VNone "" 0 "" 0
  end.

Lemma demo_purge_ok :
  delete_run demo_draw "r" "ops" "gdpr" (demo_db "completed" "completed") = Ok (demo_after, demo_record).
Proof. vm_compute. reflexivity. Qed.

Lemma run_purged_witness :
  slice "q" demo_after = slice "q" (demo_db "completed" "completed") /\
  rows_in "side_effect_ledger" "r" demo_after = 0%nat /\ key_purged demo_record = 1%nat.
Proof.
  destruct (run_purged _ _ _ _ _ _ _ demo_purge_ok) as (H1 & _ & _ & H2 & _).
  split_and!; [by apply H2 | apply H1; decided | vm_compute; reflexivity].
Defined.

Definition demo_emit : EmitArgs :=
  mkEmit "retry_attempt_created" (S754_zero false) (Some "r") None None "s1"
    (Some [("outcome", VStr "failed")]) None.

Lemma purge_final_witness :
  rows_in "recovery_metric_events" "r" (emissions [("d", "t", demo_emit)] demo_after) = 0%nat.
Proof. apply (purge_final _ _ _ _ _ _ _ [("d", "t", demo_emit)] demo_purge_ok). Defined.

Lemma metric_source_key_once_witness :
  exists db', emit "d" "t" demo_emit (demo_db "completed" "completed") = Ok (db', true) /\
    emit "e" "u" demo_emit db' = Ok (db', false).
Proof.
  eexists. split; [vm_compute; reflexivity|].
  apply (metric_source_key_once "d" "t" demo_emit (demo_db "completed" "completed") _ true).
  vm_compute. reflexivity.
Defined.

(** A key that was purged on its own keeps its material through the deletion. *)
Example early_purged_key_kept :
  let db := demo_db "completed" "completed" in
  let early := with_keys (Capsules.purge_run_key "r" 6 (encryption_keys db)) db in
  match delete_run demo_draw "r" "ops" "gdpr" early with
  | Ok (db', r) => (map encrypted_dek (select (key_of "r") (encryption_keys db')), key_purged r)
  | Err _ => ([], 9%nat)
  end = (["dek"], 0%nat).
Proof. vm_compute. reflexivity. Qed.
