(* ===== verification/BatchRecovery.v ===== *)
(** * Batch recovery

    [runtime/batch_recovery.py]: a batch file as the value YAML gives, and the
    executor, which asks the recovery service for one action after the other.
    The executor is written against an interface with the two methods it
    calls; RecoveryService implements it.  Entries are read at the types the
    dataclass declares; a value of another type is refused where the code
    would carry it along. *)
From S2P Require Import Prelude PyFloat PyValue Sql SideEffectLedger RecoveryClassifier.
From S2P Require Import FailureManager Governance RecoveryPolicy ChainState StateStore RecoveryService.

Definition MAX_BATCH_ACTIONS : Z := 100.

Record BatchAction := mkBatchAction {
  ba_action : RecoveryAction;
  ba_run_id : string;
  ba_reason : string;
  ba_step_id : option Z;
  ba_new_budget : option pyfloat;
  ba_instructions : option string;
}.

Record BatchSpec := mkBatchSpec {
  bs_actions : list BatchAction;
  bs_batch_id : string;
  bs_operator_identity : string;
  bs_operator_role : string;
  bs_dry_run : bool;
  bs_governance_profile : string;
  bs_governance_profile_file : string;
}.

(** ** Parsing *)

Inductive batch_error :=
| NotAMapping
| ActionsMissing
| ActionsEmpty
| TooManyActions (n : nat)
| EntryNotAMapping (i : Z)
| ActionMissing (i : Z)
| UnknownAction (i : Z)
| RunIdMissing (i : Z)
| ReasonMissing (i : Z)
| WrongType.

Definition all_actions : list RecoveryAction :=
  [ RESUME; RETRY_STEP; APPROVE_REVIEW; REJECT_REVIEW; REQUEST_REVISION; ROUTE_FALLBACK; CANCEL_RUN;
    FAIL_RUN; EXPORT_REPORT; APPROVE_BUDGET_INCREASE; RESOLVE_SIDE_EFFECT; EXECUTE_RETRY_AUTHORIZED ].

(** [RecoveryAction(v)] *)
Definition action_of (v : pyval) : option RecoveryAction :=
  match v with
  | VStr s => List.find (fun a => RecoveryAction_value a =? s)%string all_actions
  | _ => None
  end.

Definition opt_text (v : pyval) : res batch_error (option string) :=
  match v with VNone => Ok None | VStr s => Ok (Some s) | _ => Err WrongType end.
Definition opt_step (v : pyval) : res batch_error (option Z) :=
  match v with VNone => Ok None | VInt z => Ok (Some z) | _ => Err WrongType end.
Definition opt_budget (v : pyval) : res batch_error (option pyfloat) :=
  match v with
  | VNone => Ok None
  | VFloat f => Ok (Some f)
  | VInt z => Ok (Some (fround_int z))
  | _ => Err WrongType
  end.
Definition the_text (v : pyval) : res batch_error string :=
  match v with VStr s => Ok s | _ => Err WrongType end.

(** [raw.get(k) or ""] *)
Definition text_or_empty (v : pyval) : res batch_error string :=
  if truthy v then the_text v else Ok "".

Definition parse_entry (i : Z) (entry : pyval) : res batch_error BatchAction :=
  match entry with
  | VDict e =>
      _ ← guard_err (truthy (context_get "action" e)) (ActionMissing i);
      match action_of (context_get "action" e) with
      | None => Err (UnknownAction i)
      | Some act =>
          _ ← guard_err (truthy (context_get "run_id" e)) (RunIdMissing i);
          _ ← guard_err (truthy (context_get "reason" e)) (ReasonMissing i);
          run ← the_text (context_get "run_id" e);
          why ← the_text (context_get "reason" e);
          stp ← opt_step (context_get "step_id" e);
          budget ← opt_budget (context_get "new_budget" e);
          ins ← opt_text (context_get "instructions" e);
          Ok (mkBatchAction act run why stp budget ins)
      end
  | _ => Err (EntryNotAMapping i)
  end.

Fixpoint parse_entries (i : Z) (l : list pyval) : res batch_error (list BatchAction) :=
  match l with
  | [] => Ok []
  | e :: l' => a ← parse_entry i e; rest ← parse_entries (i + 1) l'; Ok (a :: rest)
  end.

(** [raw] is what YAML reads; [hex] is the id drawn when the file names none. *)
Definition parse_batch_file (hex : string) (raw : pyval) : res batch_error BatchSpec :=
  match raw with
  | VDict d =>
      match context_get "actions" d with
      | VNone => Err ActionsMissing
      | VList ((_ :: _) as l) =>
          _ ← guard_err (Z.of_nat (length l) <=? MAX_BATCH_ACTIONS) (TooManyActions (length l));
          acts ← parse_entries 0 l;
          id ← text_or_empty (context_get "batch_id" d);
          who ← text_or_empty (context_get "operator_identity" d);
          role ← text_or_empty (context_get "operator_role" d);
          gp ← text_or_empty (context_get "governance_profile" d);
          gpf ← text_or_empty (context_get "governance_profile_file" d);
          Ok (mkBatchSpec acts (if str_truthy id then id else "batch-" +:+ hex) who role
                (truthy (dget_or "dry_run" (VBool false) d)) gp gpf)
      | _ => Err ActionsEmpty
      end
  | _ => Err NotAMapping
  end.

(** ** Results *)

Inductive result_status := Pending | Admitted_ | Denied | Executed | Failed_ | Skipped.

#[export] Instance result_status_eq_dec : EqDecision result_status.
Proof. solve_decision. Defined.

Record BatchActionResult := mkResult {
  br_index : Z;
  br_action : RecoveryAction;
  br_run_id : string;
  br_admitted : bool;
  br_denial_type : option string;
  br_rejection_reason : option string;
  br_resulting_state : option string;
  br_status : result_status;
}.

Record BatchSummary := mkSummary {
  su_batch_id : string;
  su_operator_identity : string;
  su_operator_role : string;
  su_dry_run : bool;
  total_actions : nat;
  admitted_count : nat;
  denied_count : nat;
  executed_count : nat;
  failed_count : nat;
  skipped_count : nat;
  results : list BatchActionResult;
  overall_status : string;
}.

(** ** The service as the executor sees it *)

(** Who acts, and under which profile. *)
Record Caller := mkCaller {
  ca_identity : string;
  ca_role : string;
  ca_profile : option string;
  ca_profile_file : option string;
}.

(** [authorize] reads; [apply] may write and may raise. *)
Class ActionService (W E : Type) := {
  sv_authorize : Caller -> Z -> BatchAction -> W -> ActionResult;
  sv_apply : Caller -> Z -> BatchAction -> W -> W * res E ActionResult;
}.

Section Executor.
Context {W E : Type} `{ActionService W E}.

Definition set_overall (st : string) (s : BatchSummary) : BatchSummary :=
  mkSummary (su_batch_id s) (su_operator_identity s) (su_operator_role s) (su_dry_run s)
    (total_actions s) (admitted_count s) (denied_count s) (executed_count s) (failed_count s)
    (skipped_count s) (results s) st.

(** Append a result and count it. *)
Definition add_result (r : BatchActionResult) (adm den exe skp : nat) (s : BatchSummary) : BatchSummary :=
  mkSummary (su_batch_id s) (su_operator_identity s) (su_operator_role s) (su_dry_run s)
    (total_actions s) (admitted_count s + adm) (denied_count s + den) (executed_count s + exe)
    (failed_count s) (skipped_count s + skp) (results s ++ [r]) (overall_status s).

Definition blank_result (i : Z) (a : BatchAction) (st : result_status) : BatchActionResult :=
  mkResult i (ba_action a) (ba_run_id a) false None None None st.

Definition retry_excluded : string :=
  "EXECUTE_RETRY_AUTHORIZED is excluded from batch execution (v3.5.0: one operator command → one side effect)".

Definition denied_result (i : Z) (a : BatchAction) (denial why : option string) : BatchActionResult :=
  mkResult i (ba_action a) (ba_run_id a) false denial why None Denied.

Definition stop_if (stop : bool) (s : BatchSummary) : BatchSummary :=
  if stop then set_overall "failed_fast" s else s.

Definition has_status (sts : list result_status) (i : Z) (r : BatchActionResult) : bool :=
  existsb (fun st => bool_decide (br_status r = st)) sts && (br_index r <? i).

(** One turn of the loop. *)
Definition batch_step (dry stop : bool) (c : Caller) (i : Z) (a : BatchAction) (w : W)
  (s : BatchSummary) : W * res E BatchSummary :=
  if bool_decide (ba_action a = EXECUTE_RETRY_AUTHORIZED) then
    (w, Ok (stop_if stop
              (add_result (denied_result i a (Some "batch_policy") (Some retry_excluded)) 0 1 0 0 s)))
  else if (overall_status s =? "failed_fast")%string
          || existsb (has_status [Skipped] i) (if stop then results s else []) then
    (w, Ok (add_result (blank_result i a Skipped) 0 0 0 1 s))
  else
    let prior_failure := stop && existsb (has_status [Denied; Failed_] i) (results s) in
    let s := if prior_failure && negb (existsb (fun r => bool_decide (br_status r = Skipped)) (results s))
             then set_overall "failed_fast" s else s in
    if (overall_status s =? "failed_fast")%string then
      (w, Ok (add_result (blank_result i a Skipped) 0 0 0 1 s))
    else
      let '(w', answer) := if dry then (w, Ok (sv_authorize c i a w)) else sv_apply c i a w in
      match answer with
      | Err e => (w', Err e)
      | Ok r =>
          (w', Ok
            (if negb (ar_admitted r) then
               stop_if stop
                 (add_result (denied_result i a (ar_denial_type r) (ar_rejection_reason r)) 0 1 0 0 s)
             else if dry then
               add_result (mkResult i (ba_action a) (ba_run_id a) true None None None Admitted_) 1 0 0 0 s
             else
               add_result (mkResult i (ba_action a) (ba_run_id a) true None None
                             (ar_resulting_state r) Executed) 1 0 1 0 s))
      end.

Fixpoint batch_loop (dry stop : bool) (c : Caller) (i : Z) (acts : list BatchAction) (w : W)
  (s : BatchSummary) : W * res E BatchSummary :=
  match acts with
  | [] => (w, Ok s)
  | a :: rest =>
      match batch_step dry stop c i a w s with
      | (w', Ok s') => batch_loop dry stop c (i + 1) rest w' s'
      | (w', Err e) => (w', Err e)
      end
  end.

Definition finish (dry : bool) (s : BatchSummary) : BatchSummary :=
  let denied := negb (Nat.eqb (denied_count s) 0) in
  let failed := negb (Nat.eqb (failed_count s) 0) in
  if negb (nonempty (results s)) then set_overall "completed" s
  else if dry then set_overall (if denied then "dry_run_denied" else "dry_run_passed") s
  else if (overall_status s =? "failed_fast")%string then s
  else if denied || failed then
    set_overall (if failed then "completed_with_failures" else "completed_with_denials") s
  else set_overall "completed" s.

(** All actions refused by the profile. *)
Fixpoint refuse_all (i : Z) (why : string) (acts : list BatchAction) : list BatchActionResult :=
  match acts with
  | [] => []
  | a :: rest => denied_result i a (Some "batch_policy") (Some why) :: refuse_all (i + 1) why rest
  end.

Section Execute.
(** The variables of the environment, the resolver, the texts of the refusals. *)
Context (env_identity env_role : option string).
Context (resolver : option string -> option string -> res governance_error GovernanceProfile).
Context (dry_run_text max_actions_text : GovernanceProfile -> string).

(** [a or b or os.environ.get(..., dflt)] *)
Definition effective (a : option string) (b : string) (env : option string) (dflt : string) : string :=
  if ostr_truthy a then default "" a else if str_truthy b then b else default dflt env.

Definition or_none_text (s : string) : option string := if str_truthy s then Some s else None.

Definition execute (spec : BatchSpec) (dry_run : option bool) (fail_fast continue_on_error : bool)
  (operator_identity operator_role : option string) (w : W) : W * res E BatchSummary :=
  let dry := default (bs_dry_run spec) dry_run in
  let who := effective operator_identity (bs_operator_identity spec) env_identity "console" in
  let role := effective operator_role (bs_operator_role spec) env_role "operator" in
  let gp := bs_governance_profile spec in
  let gpf := bs_governance_profile_file spec in
  let resolved :=
    if str_truthy gp || str_truthy gpf
    then match resolver (or_none_text gp) (or_none_text gpf) with Ok p => Some p | Err _ => None end
    else None in
  let n := length (bs_actions spec) in
  let empty := mkSummary (bs_batch_id spec) who role dry n 0 0 0 0 0 [] "pending" in
  let refused why :=
    mkSummary (bs_batch_id spec) who role dry n 0 n 0 0 0 (refuse_all 0 why (bs_actions spec))
      "failed_fast" in
  let run coe :=
    let c := mkCaller who role (or_none_text gp) (or_none_text gpf) in
    match batch_loop dry (fail_fast && negb coe) c 0 (bs_actions spec) w empty with
    | (w', Ok s) => (w', Ok (finish dry s))
    | (w', Err e) => (w', Err e)
    end in
  match resolved with
  | None => run continue_on_error
  | Some p =>
      if negb (batch_enabled (batch p)) then (w, Ok (set_overall "failed_fast" empty))
      else
        let coe := if allow_continue_on_error (batch p) then continue_on_error else false in
        if require_dry_run_before_execute (batch p) && negb dry then (w, Ok (refused (dry_run_text p)))
        else if max_actions (batch p) <? Z.of_nat n then (w, Ok (refused (max_actions_text p)))
        else run coe
  end.
End Execute.
End Executor.

(** ** The reference: what a batch means *)

Section Reference.
Context {W E : Type} `{ActionService W E}.

(** A retry is refused; once [halted] nothing is asked of the service; else
    the service answers, and a denial halts the batch when it is to stop. *)
Fixpoint reference (dry stop : bool) (c : Caller) (halted : bool) (i : Z) (acts : list BatchAction)
  (w : W) : W * res E (list BatchActionResult) :=
  match acts with
  | [] => (w, Ok [])
  | a :: rest =>
      let continue_with r halted w :=
        match reference dry stop c halted (i + 1) rest w with
        | (w', Ok rs) => (w', Ok (r :: rs))
        | (w', Err e) => (w', Err e)
        end in
      if bool_decide (ba_action a = EXECUTE_RETRY_AUTHORIZED) then
        continue_with (denied_result i a (Some "batch_policy") (Some retry_excluded)) (halted || stop) w
      else if halted then continue_with (blank_result i a Skipped) halted w
      else
        match (if dry then (w, Ok (sv_authorize c i a w)) else sv_apply c i a w) with
        | (w', Err e) => (w', Err e)
        | (w', Ok r) =>
            if ar_admitted r then
              continue_with (mkResult i (ba_action a) (ba_run_id a) true None None
                               (if dry then None else ar_resulting_state r)
                               (if dry then Admitted_ else Executed)) false w'
            else continue_with (denied_result i a (ar_denial_type r) (ar_rejection_reason r)) stop w'
        end
  end.

Definition is_status (st : result_status) (r : BatchActionResult) : bool :=
  bool_decide (br_status r = st).

(** The counters are those of the results. *)
Definition counted (s : BatchSummary) : Prop :=
  admitted_count s = count br_admitted (results s) /\
  denied_count s = count (is_status Denied) (results s) /\
  executed_count s = count (is_status Executed) (results s) /\
  failed_count s = 0%nat /\
  skipped_count s = count (is_status Skipped) (results s).

Definition done_status (dry : bool) : result_status := if dry then Admitted_ else Executed.

(** What the loop maintains: the summary says "failed_fast" exactly when the
    batch is halted, which a denial caused, and an unhalted batch has nothing
    skipped and no denial it was to stop at. *)
Record loop_inv (dry stop halted : bool) (s : BatchSummary) : Prop := mkLoopInv {
  li_overall : overall_status s = if halted then "failed_fast" else "pending";
  li_halted : halted = true -> stop = true /\ exists r, r ∈ results s /\ br_status r = Denied;
  li_clean : halted = false -> forall r, r ∈ results s ->
    br_status r = done_status dry \/ (br_status r = Denied /\ stop = false);
  li_counted : counted s;
}.

Lemma tally_snoc {A} (p : A -> bool) l x :
  count p (l ++ [x]) = (count p l + if p x then 1 else 0)%nat.
Proof. rewrite count_app. unfold count at 2. simpl. by destruct (p x). Qed.

Lemma counted_add r adm den exe skp s :
  counted s ->
  adm = (if br_admitted r then 1 else 0)%nat -> den = (if is_status Denied r then 1 else 0)%nat ->
  exe = (if is_status Executed r then 1 else 0)%nat -> skp = (if is_status Skipped r then 1 else 0)%nat ->
  counted (add_result r adm den exe skp s).
Proof.
  intros (H1 & H2 & H3 & H4 & H5) -> -> -> ->. unfold counted, add_result. simpl.
  rewrite !tally_snoc, <- H1, <- H2, <- H3, <- H5. split_and!; done.
Qed.

Lemma counted_overall st s : counted s -> counted (set_overall st s).
Proof. done. Qed.

(** A denial halts the batch if it is to stop. *)
Lemma deny_inv dry stop halted s r :
  loop_inv dry stop halted s -> counted (add_result r 0 1 0 0 s) -> br_status r = Denied ->
  loop_inv dry stop (halted || stop) (stop_if stop (add_result r 0 1 0 0 s)).
Proof.
  intros [Ho Hh Hc Hn] Hn' Hr.
  assert (Hin : exists r', r' ∈ results s ++ [r] /\ br_status r' = Denied).
  { exists r. split; [apply elem_of_app; right; left | done]. }
  constructor.
  - destruct stop, halted; simpl; try done; rewrite Ho; done.
  - intros Hhs. destruct halted, stop; try discriminate; simpl; try (split; [done | exact Hin]).
    destruct (Hh eq_refl) as [[=] _].
  - destruct halted, stop; try discriminate. intros _ x. simpl.
    rewrite elem_of_app, list_elem_of_singleton. intros [Hx| ->]; [by apply Hc | by right].
  - by destruct stop.
Qed.

(** One turn agrees with the reference. *)
Lemma batch_step_spec dry stop c i a w s halted :
  loop_inv dry stop halted s ->
  match batch_step dry stop c i a w s with
  | (w', Err e) =>
      ba_action a <> EXECUTE_RETRY_AUTHORIZED /\ halted = false /\
      (if dry then (w, Ok (sv_authorize c i a w)) else sv_apply c i a w) = (w', Err e)
  | (w', Ok s') => exists r halted',
      results s' = results s ++ [r] /\ loop_inv dry stop halted' s' /\ total_actions s' = total_actions s /\
      forall rest, reference dry stop c halted i (a :: rest) w =
        match reference dry stop c halted' (i + 1) rest w' with
        | (w2, Ok rs) => (w2, Ok (r :: rs))
        | (w2, Err e) => (w2, Err e)
        end
  end.
Proof.
  intros [Ho Hh Hc Hn]. unfold batch_step. cbn [reference].
  destruct (bool_decide (ba_action a = EXECUTE_RETRY_AUTHORIZED)) eqn:Er.
  { eexists _, (halted || stop). split; [by destruct stop|]. split; [|split; [by destruct stop | done]].
    apply (deny_inv dry stop halted); [by constructor | by apply counted_add | done]. }
  apply bool_decide_eq_false in Er. destruct halted.
  { rewrite Ho. cbn [orb String.eqb]. simpl. destruct (Hh eq_refl) as (Hst & x & Hx & Hd).
    eexists _, true. split_and!; [done | | done | done]. constructor; [done | | done |].
    - intros _. split; [done|]. exists x. simpl. by rewrite elem_of_app; auto.
    - by apply counted_add. }
  specialize (Hc eq_refl).
  assert (existsb (has_status [Skipped] i) (if stop then results s else []) = false) as ->.
  { destruct stop; [|done]. apply existsb_false. intros r Hr. unfold has_status. simpl.
    destruct (Hc r Hr) as [-> | [_ [=]]]. by destruct dry. }
  assert ((stop && existsb (has_status [Denied; Failed_] i) (results s)) = false) as ->.
  { destruct stop; [|done]. apply existsb_false. intros r Hr. unfold has_status. simpl.
    destruct (Hc r Hr) as [-> | [_ [=]]]. by destruct dry. }
  rewrite Ho. simpl. rewrite Ho. simpl.
  destruct (if dry then (w, Ok (sv_authorize c i a w)) else sv_apply c i a w) as [w' [r|e]] eqn:Ea; [|done].
  destruct (ar_admitted r) eqn:Ead; simpl.
  - assert (Hg : forall r' exe, br_admitted r' = true -> br_status r' = done_status dry ->
        exe = (if dry then 0 else 1)%nat ->
        loop_inv dry stop false (add_result r' 1 0 exe 0 s)).
    { intros r' exe Hra Hrs ->. constructor; [done | done | |].
      - intros _ x. simpl. rewrite elem_of_app, list_elem_of_singleton. intros [Hx| ->]; auto.
      - apply counted_add; [done | by rewrite Hra | | |]; unfold is_status; rewrite Hrs; by destruct dry. }
    destruct dry; eexists _, false; (split_and!; [reflexivity | by apply Hg | done | done]).
  - eexists _, stop. split; [by destruct stop|]. split; [|split; [by destruct stop | done]].
    apply (deny_inv dry stop false); [by constructor | by apply counted_add | done].
Qed.

(** The loop computes the reference, and counts its results. *)
Lemma batch_loop_spec dry stop c acts i w s halted :
  loop_inv dry stop halted s ->
  match batch_loop dry stop c i acts w s, reference dry stop c halted i acts w with
  | (w1, Ok s'), (w2, Ok rs) =>
      w1 = w2 /\ results s' = results s ++ rs /\ total_actions s' = total_actions s /\
      exists halted', loop_inv dry stop halted' s'
  | (w1, Err e), (w2, Err e') => w1 = w2 /\ e = e'
  | _, _ => False
  end.
Proof.
  revert i w s halted. induction acts as [|a acts IH]; intros i w s halted Hi.
  - simpl. rewrite app_nil_r. split_and!; eauto.
  - cbn [batch_loop]. pose proof (batch_step_spec dry stop c i a w s halted Hi) as Hs.
    destruct (batch_step dry stop c i a w s) as [w' [s'|e]].
    + destruct Hs as (r & halted' & Hr & Hi' & Ht & Href). rewrite Href.
      specialize (IH (i + 1) w' s' halted' Hi').
      destruct (batch_loop _ _ _ _ _ _ _) as [w1 [s1|e1]],
        (reference dry stop c halted' (i + 1) acts w') as [w2 [rs|e2]]; try done.
      destruct IH as (-> & H1 & H2 & H3). split_and!; try done; [|congruence].
      by rewrite H1, Hr, <- app_assoc.
    + destruct Hs as (Hr & -> & Ha). cbn [reference].
      rewrite bool_decide_eq_false_2 by done. by rewrite Ha.
Qed.

(** Every action has one result, in order. *)
Fixpoint lists_actions (i : Z) (acts : list BatchAction) (rs : list BatchActionResult) : Prop :=
  match acts, rs with
  | [], [] => True
  | a :: acts, r :: rs =>
      br_index r = i /\ br_action r = ba_action a /\ br_run_id r = ba_run_id a /\
      (ba_action a = EXECUTE_RETRY_AUTHORIZED -> br_status r = Denied) /\
      lists_actions (i + 1) acts rs
  | _, _ => False
  end.

Ltac next_result IH :=
  match goal with
  | |- context [reference ?d ?st ?c ?h ?i ?acts ?w] =>
      specialize (IH i w h); destruct (reference d st c h i acts w) as [? [?|?]]; [simpl | done]
  end.

Lemma reference_lists dry stop c acts i w halted :
  match reference dry stop c halted i acts w with
  | (_, Ok rs) => lists_actions i acts rs
  | (_, Err _) => True
  end.
Proof.
  revert i w halted. induction acts as [|a acts IH]; intros i w halted; [done|]. cbn [reference].
  destruct (bool_decide (ba_action a = EXECUTE_RETRY_AUTHORIZED)) eqn:Er.
  - next_result IH. split_and!; done.
  - apply bool_decide_eq_false in Er. destruct halted; [next_result IH; split_and!; done|].
    destruct (if dry then _ else _) as [w' [r|e]]; [|done].
    destruct (ar_admitted r); next_result IH; split_and!; done.
Qed.

(** A halted batch asks nothing of the service. *)
Lemma reference_halted dry stop c acts i w :
  exists rs, reference dry stop c true i acts w = (w, Ok rs) /\
    forall r, r ∈ rs -> br_status r = Skipped \/
      (br_status r = Denied /\ br_action r = EXECUTE_RETRY_AUTHORIZED).
Proof.
  revert i. induction acts as [|a acts IH]; intros i; cbn [reference].
  - exists []. split; [done|]. intros r Hr. inversion Hr.
  - destruct (IH (i + 1)) as (rs & Hr1 & Hrs). cbn [orb]. rewrite Hr1.
    destruct (bool_decide (ba_action a = EXECUTE_RETRY_AUTHORIZED)) eqn:Er;
      (eexists; split; [reflexivity|]; intros r [->|Hr]%elem_of_cons; [|auto]); [right | by left].
    apply bool_decide_eq_true in Er. done.
Qed.

(** After the first denial of a batch that stops, nothing is carried out. *)
Lemma reference_stops dry c acts i w w' rs l1 d l2 :
  reference dry true c false i acts w = (w', Ok rs) -> rs = l1 ++ d :: l2 -> br_status d = Denied ->
  forall r, r ∈ l2 -> br_status r = Skipped \/
    (br_status r = Denied /\ br_action r = EXECUTE_RETRY_AUTHORIZED).
Proof.
  revert i w rs l1. induction acts as [|a acts IH]; intros i w rs l1; cbn [reference].
  - intros [= _ <-]. destruct l1; discriminate.
  - assert (Hhalt : forall r0 (w0 : W), match reference dry true c true (i + 1) acts w0 with
        | (w', Ok rs) => (w', Ok (r0 :: rs)) | (w', Err e) => (w', Err e) end = (w', Ok rs) ->
        br_status r0 = Denied -> rs = l1 ++ d :: l2 -> br_status d = Denied ->
        forall r, r ∈ l2 -> br_status r = Skipped \/
          (br_status r = Denied /\ br_action r = EXECUTE_RETRY_AUTHORIZED)).
    { intros r0 w0. destruct (reference_halted dry true c acts (i + 1) w0) as (rs' & -> & Hrs).
      intros [= _ <-] _ Heq Hd r Hr. apply Hrs. destruct l1 as [|r1 l1]; simplify_eq/=; [done|].
      apply elem_of_app. right. by right. }
    destruct (bool_decide (ba_action a = EXECUTE_RETRY_AUTHORIZED)); [intros; by eapply Hhalt|].
    destruct (if dry then _ else _) as [w1 [r1|e]]; [|discriminate].
    destruct (ar_admitted r1); [|intros; by eapply Hhalt].
    destruct (reference dry true c false (i + 1) acts w1) as [w2 [rs2|e]] eqn:E2; [|discriminate].
    intros [= <- <-] Heq Hd. destruct l1 as [|x l1]; simplify_eq/=.
    + by destruct dry.
    + by eapply IH.
Qed.

(** A dry run asks for permissions only. *)
Lemma reference_dry stop c acts i w halted : fst (reference true stop c halted i acts w) = w.
Proof.
  revert i halted. induction acts as [|a acts IH]; intros i halted; cbn [reference]; [done|].
  assert (Hk : forall h (r : BatchActionResult),
    fst (match reference true stop c h (i + 1) acts w with
         | (w', Ok rs) => (w', Ok (r :: rs)) | (w', Err e) => (w', Err e) end) = w).
  { intros h r. specialize (IH (i + 1) h). by destruct (reference _ _ _ _ _ _ _) as [? [?|?]]. }
  destruct (bool_decide _); [apply Hk|]. destruct halted; [apply Hk|].
  destruct (ar_admitted _); apply Hk.
Qed.
End Reference.

(** ** Properties *)

Section Properties.
Context {W E : Type} `{ActionService W E}.
Context (env_identity env_role : option string).
Context (resolver : option string -> option string -> res governance_error GovernanceProfile).
Context (dry_run_text max_actions_text : GovernanceProfile -> string).

Abbreviation exec_batch := (execute env_identity env_role resolver dry_run_text max_actions_text).

Lemma refuse_all_lists i why acts : lists_actions i acts (refuse_all i why acts).
Proof. revert i. induction acts as [|a acts IH]; intros i; simpl; [done|]. by split_and!. Qed.

Lemma refuse_all_denied i why acts r : r ∈ refuse_all i why acts -> br_status r = Denied /\ br_admitted r = false.
Proof.
  revert i. induction acts as [|a acts IH]; intros i Hr; simpl in Hr; [inversion Hr|].
  apply elem_of_cons in Hr as [->|Hr]; [done | eauto].
Qed.

Lemma count_all {A} (p : A -> bool) l : (forall x, x ∈ l -> p x = true) -> count p l = length l.
Proof.
  induction l as [|x l IH]; intros Hp; [done|]. unfold count in *. simpl.
  rewrite Hp by left. simpl. rewrite IH; [done|]. intros y Hy. apply Hp. by right.
Qed.

Lemma refuse_all_length i why acts : length (refuse_all i why acts) = length acts.
Proof. revert i. induction acts; intros i; simpl; auto. Qed.

Lemma refused_counted b who role dry n why acts :
  n = length acts ->
  counted (mkSummary b who role dry n 0 n 0 0 0 (refuse_all 0 why acts) "failed_fast").
Proof.
  intros ->. unfold counted. simpl. split_and!; try done; symmetry.
  - apply count_zero. intros r Hr. by apply refuse_all_denied in Hr as [_ ->].
  - rewrite count_all; [apply refuse_all_length|]. intros r Hr.
    apply refuse_all_denied in Hr as [Hs _]. unfold is_status. by rewrite Hs.
  - apply count_zero. intros r Hr. apply refuse_all_denied in Hr as [Hs _]. unfold is_status. by rewrite Hs.
  - apply count_zero. intros r Hr. apply refuse_all_denied in Hr as [Hs _]. unfold is_status. by rewrite Hs.
Qed.

Lemma finish_same dry s : results (finish dry s) = results s /\ (counted s -> counted (finish dry s)) /\
  total_actions (finish dry s) = total_actions s.
Proof. unfold finish. repeat case_goal; done. Qed.

Lemma finish_clean dry stop halted s :
  loop_inv dry stop halted s -> mem (overall_status (finish dry s)) ["completed"; "dry_run_passed"] = true ->
  forall r, r ∈ results s -> br_status r = done_status dry.
Proof.
  intros [Ho Hh Hc (_ & Hd & _ & Hf & _)] Hs r Hr. unfold finish in Hs.
  assert (nonempty (results s) = true) as Hne by (apply nonempty_true; intros E0; rewrite E0 in Hr; inversion Hr).
  rewrite Hne, Hf in Hs. cbn [negb] in Hs.
  assert (Hz : denied_count s = 0%nat /\ halted = false).
  { destruct halted.
    - destruct (Hh eq_refl) as (_ & x & Hx & Hxd).
      assert (denied_count s <> 0%nat) as Hnz.
      { rewrite Hd. intros Hz. rewrite count_zero in Hz. specialize (Hz x Hx). unfold is_status in Hz.
        by rewrite Hxd in Hz. }
      apply Nat.eqb_neq in Hnz. rewrite Hnz, Ho in Hs. destruct dry; [done|].
      simpl in Hs. by rewrite Ho in Hs.
    - split; [|done]. destruct (Nat.eqb (denied_count s) 0) eqn:Ez; [by apply Nat.eqb_eq|].
      rewrite Ho in Hs. by destruct dry. }
  destruct Hz as [Hz ->]. destruct (Hc eq_refl r Hr) as [?|[Hrd _]]; [done|].
  rewrite Hd, count_zero in Hz. specialize (Hz r Hr). unfold is_status in Hz. by rewrite Hrd in Hz.
Qed.

(** The outcome of the run path. *)
Lemma run_path dry stop c acts w s0 :
  results s0 = [] -> overall_status s0 = "pending" -> counted s0 ->
  match batch_loop dry stop c 0 acts w s0, reference dry stop c false 0 acts w with
  | (w1, Ok s), (w2, Ok rs) =>
      w1 = w2 /\ results (finish dry s) = rs /\ total_actions (finish dry s) = total_actions s0 /\
      counted (finish dry s) /\
      (mem (overall_status (finish dry s)) ["completed"; "dry_run_passed"] = true ->
       forall r, r ∈ rs -> br_status r = done_status dry)
  | (w1, Err e), (w2, Err e') => w1 = w2 /\ e = e'
  | _, _ => False
  end.
Proof.
  intros Hr Ho Hn. pose proof (batch_loop_spec dry stop c acts 0 w s0 false) as Hl.
  destruct (batch_loop _ _ _ _ _ _ _) as [w1 [s|e]], (reference _ _ _ _ _ _ _) as [w2 [rs|e2]];
    try (apply Hl; constructor; try done; by rewrite Hr; intros _ r Hx; inversion Hx).
  destruct Hl as (-> & H1 & H2 & halted & Hi).
  { constructor; try done. rewrite Hr. intros _ r Hx. inversion Hx. }
  rewrite Hr in H1. simpl in H1. destruct (finish_same dry s) as (F1 & F2 & F3).
  split_and!; [done | congruence | congruence | by apply F2, Hi |].
  intros Hs. rewrite <- H1. by apply (finish_clean dry stop halted).
Qed.

Lemma reference_dry_ok stop c acts i w h e : snd (reference true stop c h i acts w) <> Err e.
Proof.
  revert i h. induction acts as [|a acts IH]; intros i h; cbn [reference]; [done|].
  assert (Hk : forall h (r : BatchActionResult),
    snd (match reference true stop c h (i + 1) acts w with
         | (w', Ok rs) => (w', Ok (r :: rs)) | (w', Err e) => (w', Err e) end) <> Err e).
  { intros h0 r. specialize (IH (i + 1) h0).
    destruct (reference _ _ _ _ _ _ _) as [? [?|?]]; simpl in *; congruence. }
  destruct (bool_decide _); [apply Hk|]. destruct h; [apply Hk|].
  destruct (ar_admitted _); apply Hk.
Qed.

(** What a batch reports. *)
Definition reported (acts : list BatchAction) (dry stops : bool) (w w' : W) (s : BatchSummary) : Prop :=
  total_actions s = length acts /\ counted s /\
  (lists_actions 0 acts (results s) \/
   (results s = [] /\ overall_status s = "failed_fast" /\ w' = w)) /\
  (dry = true -> w' = w) /\
  (stops = true -> forall l1 d l2 r, results s = l1 ++ d :: l2 -> br_status d = Denied ->
     r ∈ l2 -> br_status r = Skipped \/ br_status r = Denied) /\
  (mem (overall_status s) ["completed"; "dry_run_passed"] = true -> forall r, r ∈ results s ->
     br_status r = done_status dry).

Lemma run_reported dry stop c acts w s0 :
  results s0 = [] -> overall_status s0 = "pending" -> counted s0 -> total_actions s0 = length acts ->
  match batch_loop dry stop c 0 acts w s0 with
  | (w', Ok s) => reported acts dry stop w w' (finish dry s)
  | (_, Err _) => dry = false
  end.
Proof.
  intros H1 H2 H3 H4. pose proof (run_path dry stop c acts w s0 H1 H2 H3) as Hp.
  pose proof (reference_lists dry stop c acts 0 w false) as Hl.
  pose proof (reference_dry stop c acts 0 w false) as Hd.
  destruct (batch_loop _ _ _ _ _ _ _) as [w1 [s|e]],
    (reference dry _ _ _ _ _ _) as [w2 [rs|e2]] eqn:Er; try done.
  - destruct Hp as (-> & G1 & G2 & G3 & G4). unfold reported. rewrite G1.
    split_and!; [congruence | done | by left | | | done].
    + intros ->. by rewrite Er in Hd.
    + intros -> l1 d l2 r Heq Hden Hr.
      destruct (reference_stops dry c acts 0 w w2 rs l1 d l2 Er Heq Hden r Hr) as [?|[? _]]; auto.
  - destruct dry; [|done]. exfalso. apply (reference_dry_ok stop c acts 0 w false e2). by rewrite Er.
Qed.

Lemma refused_reported b who role dry stops why acts w :
  reported acts dry stops w w
    (mkSummary b who role dry (length acts) 0 (length acts) 0 0 0 (refuse_all 0 why acts) "failed_fast").
Proof.
  split_and!; try done.
  - by apply refused_counted.
  - left. apply refuse_all_lists.
  - simpl. intros _ l1 d l2 r Heq _ Hr. right.
    destruct (refuse_all_denied 0 why acts r) as [? _]; [|done]. rewrite Heq. apply elem_of_app. right. by right.
Qed.

(** A batch carries out its actions one by one and reports on each: the
    report has one result per action in the order of the file (none when the
    profile forbids batches) and its counters are those of the results; a
    dry run changes nothing; a retry is never carried out; a batch that stops
    on error carries out nothing after its first denial; and a batch reported
    as completed or passed had every action executed or admitted. *)
Theorem batch_reported spec dry_run ff coe id role w :
  let dry := default (bs_dry_run spec) dry_run in
  match exec_batch spec dry_run ff coe id role w with
  | (w', Ok s) => reported (bs_actions spec) dry (ff && negb coe) w w' s
  | (_, Err _) => dry = false
  end.
Proof.
  intros dry. unfold execute. fold dry.
  set (empty := mkSummary _ _ _ dry _ 0 0 0 0 0 [] "pending"). set (c := mkCaller _ _ _ _).
  assert (Hrun : forall coe0, (coe = false -> coe0 = false) ->
    match (match batch_loop dry (ff && negb coe0) c 0 (bs_actions spec) w empty with
           | (w', Ok s) => (w', Ok (finish dry s)) | (w', Err e) => (w', Err e) end) with
    | (w', Ok s) => reported (bs_actions spec) dry (ff && negb coe) w w' s
    | (_, Err _) => dry = false
    end).
  { intros coe0 Hcoe. pose proof (run_reported dry (ff && negb coe0) c (bs_actions spec) w empty) as Hr.
    destruct (batch_loop _ _ _ _ _ _ _) as [w1 [s|e]]; [|by apply Hr].
    destruct Hr as (G1 & G2 & G3 & G4 & G5 & G6); try done. split_and!; try done.
    intros Hst. apply G5. destruct ff, coe; try discriminate. by rewrite Hcoe. }
  destruct (if str_truthy _ || str_truthy _ then _ else None) as [p|]; [|by apply Hrun].
  destruct (batch_enabled (batch p)); cbn [negb].
  2: { split_and!; try done; [by right|]. intros _ l1 d l2 r Heq. by destruct l1. }
  destruct (require_dry_run_before_execute (batch p) && negb dry); [apply refused_reported|].
  destruct (max_actions (batch p) <? _); [apply refused_reported|].
  apply Hrun. by destruct (allow_continue_on_error (batch p)).
Qed.
End Properties.

(** ** The recovery service behind the interface *)

Section Service.
Context {Json : Type} (dump : ChainState -> Json) (parse : Json -> option ChainState).
Context (rejection_text : Rejection -> string).
Context (governance_text : governance_error -> string).
Context (error_text : service_error -> string).
Context (digest : GovernanceProfile -> string).
Context (env : Env).
Context (parse_file : string -> res governance_error GovernanceProfile).
Context (config_exists : bool) (env_profile env_profile_file : option string).
Context (trace_errors : World Json -> string -> nat).
Context (action_delegate retry_coordinator : option (string -> ActionArgs -> io Json string)).
(** The identifiers and clock readings of the call for the [i]-th action. *)
Context (fresh : Z -> Fresh).

(** The keyword arguments the executor passes; the others keep their default. *)
Definition args_of (c : Caller) (a : BatchAction) : ActionArgs :=
  mkArgs (ba_action a) (ca_identity c) (ba_step_id a) None (Some (ba_reason a)) (ba_instructions a)
    (ba_new_budget a) (Some (ca_role c)) (ca_profile c) (ca_profile_file c) None None None None None.

#[local] Instance recovery_actions : ActionService (World Json) service_error := {|
  sv_authorize c i a w :=
    authorize_action parse rejection_text governance_text digest env parse_file config_exists
      env_profile env_profile_file trace_errors (ba_run_id a) (args_of c a) (fresh i) w;
  sv_apply c i a w :=
    apply_action dump parse rejection_text governance_text error_text digest env parse_file
      config_exists env_profile env_profile_file trace_errors action_delegate retry_coordinator
      (ba_run_id a) (args_of c a) (fresh i) w |}.

(** The executor passes neither the key nor the decision of an effect: a batch
    can list the resolution of an effect and its dry run can admit it, but
    its execution never does. *)
Lemma batched_resolution_fails c i a w w' r :
  ba_action a = RESOLVE_SIDE_EFFECT -> sv_apply c i a w = (w', Ok r) -> ar_admitted r = false.
Proof.
  intros Ha. simpl. unfold apply_action. destruct (load parse _ _) as [s|]; [|by intros [= _ <-]].
  destruct (resolve_profile _ _ _ _ _) as [p|e]; [|by intros [= _ <-]].
  unfold io_bind at 1. destruct (emit_operator_event _ _ _ _ _ _ _ _ _ w) as [w1 [t|]]; [|discriminate].
  case_goal.
  - intros Hb. by apply blocked_spec in Hb as (_ & _ & -> & _).
  - unfold delegate_action. cbn [aa_action args_of]. rewrite Ha. simpl.
    intros Hb. by apply blocked_spec in Hb as (_ & _ & -> & _).
Qed.
End Service.

(** ** Examples *)

(** A service that refuses the run "bad" and writes down the runs it acts on. *)
#[local] Instance demo_service : ActionService (list string) unit := {|
  sv_authorize c i a w := mkActionResult (negb (ba_run_id a =? "bad")%string) None None None None None;
  sv_apply c i a w :=
    if (ba_run_id a =? "bad")%string then (w, Ok (mkActionResult false (Some "no") None None None None))
    else (w ++ [ba_run_id a], Ok (mkActionResult true None (Some "cancelled") None None None)) |}.

Definition demo_entry (act run : string) : pyval :=
  VDict [("action", VStr act); ("run_id", VStr run); ("reason", VStr "why")].

Definition demo_batch (runs : list string) : BatchSpec :=
  match parse_batch_file "0f" (VDict [("actions", VList (map (demo_entry "cancel_run") runs))]) with
  | Ok s => s
  | Err _ => mkBatchSpec [] "" "" "" false "" ""
  end.

Definition demo_execute (spec : BatchSpec) (dry coe : bool) : list string * res unit BatchSummary :=
  execute None None (fun _ _ => Err Governance.NotAMapping) (fun _ => "") (fun _ => "") spec (Some dry)
    true coe None None [].

Definition outcome (r : list string * res unit BatchSummary) : list string * list result_status * string :=
  match r with
  | (w, Ok s) => (w, map br_status (results s), overall_status s)
  | (w, Err _) => (w, [], "")
  end.

Example fail_fast_batch :
  outcome (demo_execute (demo_batch ["a"; "bad"; "b"]) false false)
  = (["a"], [Executed; Denied; Skipped], "failed_fast").
Proof. vm_compute. reflexivity. Qed.

Example continuing_batch :
  outcome (demo_execute (demo_batch ["a"; "bad"; "b"]) false true)
  = (["a"; "b"], [Executed; Denied; Executed], "completed_with_denials").
Proof. vm_compute. reflexivity. Qed.

Example dry_batch :
  outcome (demo_execute (demo_batch ["a"; "b"]) true false) = ([], [Admitted_; Admitted_], "dry_run_passed").
Proof. vm_compute. reflexivity. Qed.

Example unknown_action_refused :
  parse_batch_file "0f" (VDict [("actions", VList [demo_entry "pause" "a"])]) = Err (UnknownAction 0).
Proof. vm_compute. reflexivity. Qed.
