(* ===== verification/Trace.v ===== *)
(** * Traces

    [core/trace.py]: what an event stores besides the columns of its row, and
    the verdict a trace gets when it is finalized.  An event is the record of
    StateStore: its payload holds the fields that have no column. *)
From S2P Require Import Prelude PyFloat PyValue Sql ChainState StateStore.

Definition strings (l : list string) : pyval := VList (map VStr l).
Definition opt_text (t : option string) : pyval := match t with Some s => VStr s | None => VNone end.

(** [TraceEvent.durable_payload]; contract, policy, references and risk are
    never set by the runtime. *)
Definition durable_payload (chain actor : string) (decision : option string) (reasons : list string)
  (cost : pyfloat) (latency : Z) (md : pyctx) : pyctx :=
  [ ("chain_id", VStr chain); ("actor", VStr actor); ("contract_id", VNone); ("policy_id", VNone);
    ("input_reference", VNone); ("output_reference", VNone); ("decision", opt_text decision);
    ("reason_codes", strings reasons); ("cost_usd", VFloat cost); ("latency_ms", VInt latency);
    ("risk_level", VNone); ("metadata", VDict md) ].

Definition event_cost (e : TraceEvent) : pyfloat :=
  match dget "cost_usd" (te_durable_payload e) with Some (VFloat f) => f | _ => fzero end.
Definition event_decision (e : TraceEvent) : string :=
  match dget "decision" (te_durable_payload e) with Some (VStr s) => s | _ => "" end.
Definition event_reasons (e : TraceEvent) : list string :=
  match dget "reason_codes" (te_durable_payload e) with
  | Some (VList l) => omap (fun v => match v with VStr s => Some s | _ => None end) l
  | _ => []
  end.
Definition event_metadata (e : TraceEvent) : pyctx :=
  match dget "metadata" (te_durable_payload e) with Some (VDict d) => d | _ => [] end.

Definition is_type (ty : string) (e : TraceEvent) : bool := (te_event_type e =? ty)%string.
Definition of_node (n : string) (e : TraceEvent) : bool := sql_eq (te_node_id e) (Some n).
Definition events_of (ty : string) (l : list TraceEvent) : nat := count (is_type ty) l.

(** ** The finalized trace *)

Record TraceSummary := mkSummary {
  nodes_executed : nat;
  loops_entered : nat;
  human_reviews : nat;
  memory_writes_attempted : nat;
  memory_writes_committed : nat;
  trace_complete : bool;
}.

(** [_verify_truth_rule] *)
Definition verify_truth_rule (l : list TraceEvent) : bool :=
  existsb (is_type "chain_started") l
  && (existsb (is_type "chain_completed") l || existsb (is_type "chain_failed") l).

(** The summary [finalize] computes. *)
Definition finalize (l : list TraceEvent) : TraceSummary :=
  mkSummary (events_of "node_succeeded" l) (events_of "loop_entered" l)
    (events_of "human_review_requested" l) (events_of "memory_write_requested" l)
    (events_of "memory_write_allowed" l) (verify_truth_rule l).

(** [total_cost_usd], which [add_event] keeps. *)
Definition total_cost_usd (l : list TraceEvent) : pyfloat := fold_left (fun c e => fadd c (event_cost e)) l fzero.
