(* ===== verification/ReviewWorkbench.v ===== *)
(** * Review workbench

    [sdk/review_workbench.py]: review requests, operator decisions, the
    verifier that admits a decision and issues its receipt, and the queue of
    pending requests.

    Parameters: SHA-256 (hexadecimal) and [instant_of], the instant in
    microseconds that [datetime.fromisoformat] reads from a text, [None] when
    it raises or the time has no zone (the subtraction then raises).  Clock
    readings are arguments. *)
From S2P Require Import Prelude PyFloat PyValue Json.

(** ** Vocabulary *)

Definition SUBJECT_CAPABILITY : string := "capability_selection".
Definition SUBJECT_BRANCH_MERGE : string := "branch_merge".
Definition SUBJECT_COMPENSATION : string := "compensation".
Definition SUBJECT_DEPLOYMENT : string := "deployment".
Definition SUBJECT_REMOTE_BINDING : string := "remote_binding".
Definition SUBJECT_HEALTH : string := "health_finding".
Definition SUBJECT_CHAIN_REVIEW : string := "chain_review".

Definition ALL_SUBJECT_TYPES : list string :=
  [ SUBJECT_CAPABILITY; SUBJECT_BRANCH_MERGE; SUBJECT_COMPENSATION; SUBJECT_DEPLOYMENT;
    SUBJECT_REMOTE_BINDING; SUBJECT_HEALTH; SUBJECT_CHAIN_REVIEW ].

Definition SUBJECT_DECISION_MAP : dict (list string) :=
  [ (SUBJECT_CAPABILITY, ["approve_capability_selection"; "reject_capability_selection"]);
    (SUBJECT_BRANCH_MERGE, ["approve_branch_merge"; "reject_branch_merge"]);
    (SUBJECT_COMPENSATION, ["approve_compensation"; "reject_compensation"]);
    (SUBJECT_DEPLOYMENT, ["approve_deployment"; "reject_deployment"]);
    (SUBJECT_REMOTE_BINDING, ["approve_remote_binding"; "reject_remote_binding"]);
    (SUBJECT_HEALTH, ["acknowledge_health_finding"]);
    (SUBJECT_CHAIN_REVIEW,
       ["approve_chain_review"; "reject_chain_review"; "request_revision_chain_review"]) ].

Definition OUTCOME_MAP : dict string :=
  [ ("approve_capability_selection", "approve"); ("reject_capability_selection", "reject");
    ("approve_branch_merge", "approve"); ("reject_branch_merge", "reject");
    ("approve_compensation", "approve"); ("reject_compensation", "reject");
    ("approve_deployment", "approve"); ("reject_deployment", "reject");
    ("approve_remote_binding", "approve"); ("reject_remote_binding", "reject");
    ("acknowledge_health_finding", "acknowledge"); ("approve_chain_review", "approve");
    ("reject_chain_review", "reject"); ("request_revision_chain_review", "request_revision") ].

Definition ALL_DECISION_TYPES : list string := dkeys OUTCOME_MAP.

Definition ALL_REVIEWER_ROLES : list string :=
  ["operator"; "security_officer"; "release_manager"; "admin"].

Definition DEFAULT_ROLE_AUTHORITY : dict (list string) :=
  [ ("operator", [SUBJECT_HEALTH; SUBJECT_CHAIN_REVIEW]);
    ("security_officer", [SUBJECT_CAPABILITY; SUBJECT_REMOTE_BINDING; SUBJECT_HEALTH]);
    ("release_manager", [SUBJECT_DEPLOYMENT; SUBJECT_BRANCH_MERGE; SUBJECT_COMPENSATION]);
    ("admin", ALL_SUBJECT_TYPES) ].

Definition REJECT_NO_REQUEST : string := "reject_no_review_request".
Definition REJECT_SUBJECT_MISMATCH : string := "reject_subject_digest_mismatch".
Definition REJECT_POLICY_MISMATCH : string := "reject_policy_digest_mismatch".
Definition REJECT_UNAUTHORIZED : string := "reject_unauthorized_reviewer".
Definition REJECT_MISSING_RATIONALE : string := "reject_missing_rationale_high_risk".
Definition REJECT_STALE : string := "reject_stale_request".
Definition REJECT_DECISION_TYPE_MISMATCH : string := "reject_decision_type_not_valid_for_subject".

Definition REVIEW_SCHEMA_VERSION : string := "1.0.0".

(** [ValueError] for any other outcome. *)
Definition chain_review_decision_type (outcome : string) : option string :=
  dget outcome [ ("approve", "approve_chain_review"); ("reject", "reject_chain_review");
                 ("request_revision", "request_revision_chain_review") ].

(** ** Records *)

Record ReviewSubject := mkSubject {
  subject_type : string;
  subject_id : string;
  subject_digest : string;
  subject_metadata : pyctx;
}.

Record ReviewRequest := mkRequest {
  request_id : string;
  subject : ReviewSubject;
  reason_for_review : string;
  required_reviewer_role : string;
  graph_digest : string;
  rq_policy_digest : string;
  trace_event_ids : list string;
  created_at : option string;
  risk_level : string;
  rq_status : string;
}.

Record ReviewerPolicy := mkPolicy {
  policy_id : string;
  role_authority : dict (list string);
  require_rationale_for_risk : string;
  max_request_age_hours : Z;
  policy_version : string;
}.

Definition default_policy : ReviewerPolicy :=
  mkPolicy "default" DEFAULT_ROLE_AUTHORITY "high" 72 "1.0.0".

Record OperatorDecision := mkDecision {
  decision_type : string;
  od_request_id : string;
  reviewer_identity : string;
  reviewer_role : string;
  rationale : string;
  od_request_digest : string;
  od_subject_digest : string;
  od_policy_digest : string;
  decided_at : string;
  authority_source : string;
}.

Record DecisionReceipt := mkReceipt {
  receipt_id : string;
  rc_decision : OperatorDecision;
  rc_request_id : string;
  rc_request_digest : string;
  rc_subject_type : string;
  rc_subject_id : string;
  rc_subject_digest : string;
  rc_policy_digest : string;
  rc_schema_version : string;
  rc_created_at : string;
  digest_commitment : string;
}.

Record VerificationResult := mkVerification {
  admissible : bool;
  rejection_reason : string;
  receipt : option DecisionReceipt;
  warnings : list string;
}.

(** The checks of [__post_init__], which raise [ValueError]. *)
Definition check_subject (s : ReviewSubject) : option ReviewSubject :=
  if mem (subject_type s) ALL_SUBJECT_TYPES then Some s else None.
Definition check_request (r : ReviewRequest) : option ReviewRequest :=
  if mem (required_reviewer_role r) ALL_REVIEWER_ROLES then Some r else None.
Definition check_decision (d : OperatorDecision) : option OperatorDecision :=
  if mem (decision_type d) ALL_DECISION_TYPES && mem (reviewer_role d) ALL_REVIEWER_ROLES
  then Some d else None.

Definition outcome (d : OperatorDecision) : string := dget_or (decision_type d) "unknown" OUTCOME_MAP.

(** ** Policy *)

Definition is_authorized (p : ReviewerPolicy) (role subject_type : string) : bool :=
  mem subject_type (dget_or role [] (role_authority p)).

Definition risk_order : dict Z := [("low", 0); ("medium", 1); ("high", 2); ("critical", 3)].

Definition rationale_required (p : ReviewerPolicy) (risk : string) : bool :=
  dget_or (require_rationale_for_risk p) 2 risk_order <=? dget_or risk 0 risk_order.

Definition role_hierarchy : dict Z :=
  [("operator", 0); ("security_officer", 1); ("release_manager", 1); ("admin", 2)].

(** ** Digests *)

Section Workbench.
Context (sha256 : string -> string) (instant_of : string -> option Z).

(** [json.dumps(data, sort_keys=True, separators=(",", ":"))]: ASCII. *)
Definition sha256_dict (d : pyctx) : string :=
  sha256 (json_text (mkJsonOptions "" "" true true true) (VDict d)).

Definition texts (l : list string) : pyval := VList (map VStr l).
Definition text_or_none (t : option string) : pyval :=
  match t with Some s => VStr s | None => VNone end.

Definition subject_dict (s : ReviewSubject) : pyctx :=
  [ ("subject_type", VStr (subject_type s)); ("subject_id", VStr (subject_id s));
    ("subject_digest", VStr (subject_digest s)); ("metadata", VDict (subject_metadata s)) ].

Definition request_digest (r : ReviewRequest) : string :=
  sha256_dict
    [ ("request_id", VStr (request_id r)); ("subject", VDict (subject_dict (subject r)));
      ("reason_for_review", VStr (reason_for_review r));
      ("required_reviewer_role", VStr (required_reviewer_role r));
      ("graph_digest", VStr (graph_digest r)); ("policy_digest", VStr (rq_policy_digest r));
      ("trace_event_ids", texts (sort_str (trace_event_ids r))); ("risk_level", VStr (risk_level r));
      ("created_at", text_or_none (created_at r)) ].

Definition request_dict (r : ReviewRequest) : pyctx :=
  [ ("request_id", VStr (request_id r)); ("subject", VDict (subject_dict (subject r)));
    ("reason_for_review", VStr (reason_for_review r));
    ("required_reviewer_role", VStr (required_reviewer_role r));
    ("graph_digest", VStr (graph_digest r)); ("policy_digest", VStr (rq_policy_digest r));
    ("trace_event_ids", texts (sort_str (trace_event_ids r))); ("risk_level", VStr (risk_level r));
    ("status", VStr (rq_status r)); ("created_at", text_or_none (created_at r));
    ("request_digest", VStr (request_digest r)) ].

(** [for role, subjects in sorted(self.role_authority.items())] *)
Definition authority_dict (p : ReviewerPolicy) : pyctx :=
  map (fun rs => (fst rs, texts (sort_str (snd rs))))
    (py_sorted (fun x y => String.leb (fst x) (fst y)) (role_authority p)).

Definition policy_digest (p : ReviewerPolicy) : string :=
  sha256_dict
    [ ("policy_id", VStr (policy_id p)); ("role_authority", VDict (authority_dict p));
      ("require_rationale_for_risk", VStr (require_rationale_for_risk p));
      ("max_request_age_hours", VInt (max_request_age_hours p));
      ("policy_version", VStr (policy_version p)) ].

Definition decision_digest (d : OperatorDecision) : string :=
  sha256_dict
    [ ("decision_type", VStr (decision_type d)); ("request_id", VStr (od_request_id d));
      ("reviewer_identity", VStr (reviewer_identity d)); ("reviewer_role", VStr (reviewer_role d));
      ("rationale_digest", VStr (sha256 (utf8_encode (rationale d))));
      ("request_digest", VStr (od_request_digest d)); ("subject_digest", VStr (od_subject_digest d));
      ("policy_digest", VStr (od_policy_digest d)); ("decided_at", VStr (decided_at d));
      ("authority_source", VStr (authority_source d)) ].

Definition decision_dict (d : OperatorDecision) : pyctx :=
  [ ("decision_type", VStr (decision_type d)); ("outcome", VStr (outcome d));
    ("request_id", VStr (od_request_id d)); ("reviewer_identity", VStr (reviewer_identity d));
    ("reviewer_role", VStr (reviewer_role d)); ("rationale", VStr (rationale d));
    ("rationale_digest", VStr (sha256 (utf8_encode (rationale d))));
    ("request_digest", VStr (od_request_digest d)); ("subject_digest", VStr (od_subject_digest d));
    ("policy_digest", VStr (od_policy_digest d)); ("decided_at", VStr (decided_at d));
    ("authority_source", VStr (authority_source d)); ("decision_digest", VStr (decision_digest d)) ].

Definition receipt_digest (r : DecisionReceipt) : string :=
  sha256_dict
    [ ("receipt_id", VStr (receipt_id r)); ("decision", VDict (decision_dict (rc_decision r)));
      ("request_id", VStr (rc_request_id r)); ("request_digest", VStr (rc_request_digest r));
      ("subject_type", VStr (rc_subject_type r)); ("subject_id", VStr (rc_subject_id r));
      ("subject_digest", VStr (rc_subject_digest r)); ("policy_digest", VStr (rc_policy_digest r));
      ("schema_version", VStr (rc_schema_version r)); ("created_at", VStr (rc_created_at r)) ].

Definition commit_receipt (r : DecisionReceipt) : DecisionReceipt :=
  mkReceipt (receipt_id r) (rc_decision r) (rc_request_id r) (rc_request_digest r)
    (rc_subject_type r) (rc_subject_id r) (rc_subject_digest r) (rc_policy_digest r)
    (rc_schema_version r) (rc_created_at r) (receipt_digest r).

Definition is_committed (r : DecisionReceipt) : bool :=
  str_truthy (digest_commitment r) && (digest_commitment r =? receipt_digest r)%string.

Definition receipt_dict (r : DecisionReceipt) : pyctx :=
  [ ("receipt_id", VStr (receipt_id r)); ("schema_version", VStr (rc_schema_version r));
    ("created_at", VStr (rc_created_at r)); ("decision", VDict (decision_dict (rc_decision r)));
    ("request_id", VStr (rc_request_id r)); ("request_digest", VStr (rc_request_digest r));
    ("subject_type", VStr (rc_subject_type r)); ("subject_id", VStr (rc_subject_id r));
    ("subject_digest", VStr (rc_subject_digest r)); ("policy_digest", VStr (rc_policy_digest r));
    ("receipt_digest", VStr (receipt_digest r)); ("digest_commitment", VStr (digest_commitment r));
    ("is_committed", VBool (is_committed r)) ].

(** Older than 72 hours; a time that cannot be read or compared is not stale. *)
Definition is_stale (now : Z) (r : ReviewRequest) : bool :=
  match created_at r ≫= instant_of with
  | Some t => 72 * 3600 * 1000000 <? now - t
  | None => false
  end.

(** ** The verifier *)

Definition inadmissible (reason : string) (ws : list string) : VerificationResult :=
  mkVerification false reason None ws.

Definition issue_receipt (p : ReviewerPolicy) (d : OperatorDecision) (r : ReviewRequest)
  : DecisionReceipt :=
  commit_receipt
    (mkReceipt ("receipt_" +:+ od_request_id d +:+ "_" +:+ substring 0 8 (sha256 (utf8_encode (decided_at d))))
       d (request_id r) (request_digest r) (subject_type (subject r)) (subject_id (subject r))
       (subject_digest (subject r)) (policy_digest p) REVIEW_SCHEMA_VERSION (decided_at d) "").

(** [len(rationale.strip()) < 3], or no rationale at all *)
Definition rationale_missing (d : OperatorDecision) : bool :=
  negb (str_truthy (rationale d)) || Nat.ltb (String.length (strip (rationale d))) 3.

Definition role_insufficient (d : OperatorDecision) (r : ReviewRequest) : bool :=
  negb (required_reviewer_role r =? reviewer_role d)%string
  && (dget_or (reviewer_role d) 0 role_hierarchy
      <? dget_or (required_reviewer_role r) 0 role_hierarchy).

Definition verify (p : ReviewerPolicy) (now : Z) (d : OperatorDecision) (r : ReviewRequest)
  : VerificationResult :=
  let ty := subject_type (subject r) in
  if negb (od_request_id d =? request_id r)%string then inadmissible REJECT_NO_REQUEST []
  else if negb (od_request_digest d =? request_digest r)%string then
    inadmissible REJECT_NO_REQUEST ["Decision request_digest does not match actual request digest"]
  else if negb (od_subject_digest d =? subject_digest (subject r))%string then
    inadmissible REJECT_SUBJECT_MISMATCH []
  else if negb (od_policy_digest d =? policy_digest p)%string then
    inadmissible REJECT_POLICY_MISMATCH ["Decision policy_digest does not match actual policy digest"]
  else if negb (mem (decision_type d) (dget_or ty [] SUBJECT_DECISION_MAP)) then
    inadmissible REJECT_DECISION_TYPE_MISMATCH
      ["Decision " +:+ decision_type d +:+ " not valid for subject type " +:+ ty]
  else if negb (is_authorized p (reviewer_role d) ty) then
    inadmissible REJECT_UNAUTHORIZED
      ["Role " +:+ reviewer_role d +:+ " not authorized for subject type " +:+ ty]
  else if rationale_required p (risk_level r) && rationale_missing d then
    inadmissible REJECT_MISSING_RATIONALE ["Rationale required for risk level " +:+ risk_level r]
  else if is_stale now r then
    inadmissible REJECT_STALE ["Request " +:+ request_id r +:+ " is stale (>72h old)"]
  else if role_insufficient d r then
    inadmissible REJECT_UNAUTHORIZED
      ["Role " +:+ reviewer_role d +:+ " insufficient; requires " +:+ required_reviewer_role r]
  else mkVerification true "" (Some (issue_receipt p d r)) [].

Definition verify_receipt (c : DecisionReceipt) (r : ReviewRequest) : bool :=
  is_committed c && (rc_request_id c =? request_id r)%string
  && (rc_request_digest c =? request_digest r)%string
  && (rc_subject_digest c =? subject_digest (subject r))%string.

(** ** The queue *)

Record ReviewQueue := mkQueue {
  q_requests : dict ReviewRequest;
  q_decisions : dict DecisionReceipt;
}.

Definition submit (r : ReviewRequest) (q : ReviewQueue) : option ReviewQueue :=
  match dget (request_id r) (q_requests q) with
  | Some _ => None
  | None => Some (mkQueue (dset (request_id r) r (q_requests q)) (q_decisions q))
  end.

Definition set_rq_status (st : string) (r : ReviewRequest) : ReviewRequest :=
  mkRequest (request_id r) (subject r) (reason_for_review r) (required_reviewer_role r)
    (graph_digest r) (rq_policy_digest r) (trace_event_ids r) (created_at r) (risk_level r) st.

Definition status_of_outcome (o : string) : option string :=
  dget o [ ("approve", "approved"); ("reject", "rejected"); ("acknowledge", "acknowledged");
           ("request_revision", "revision_requested") ].

Definition record_decision (id : string) (c : DecisionReceipt) (q : ReviewQueue) : option ReviewQueue :=
  match dget id (q_requests q) with
  | None => None
  | Some r =>
      let reqs := match status_of_outcome (outcome (rc_decision c)) with
                  | Some st => dset id (set_rq_status st r) (q_requests q)
                  | None => q_requests q
                  end in
      Some (mkQueue reqs (dset id c (q_decisions q)))
  end.

Definition requests (q : ReviewQueue) : list ReviewRequest := map snd (q_requests q).
Definition list_pending (q : ReviewQueue) : list ReviewRequest :=
  List.filter (fun r => rq_status r =? "pending")%string (requests q).
Definition list_by_subject_type (ty : string) (q : ReviewQueue) : list ReviewRequest :=
  List.filter (fun r => subject_type (subject r) =? ty)%string (requests q).
Definition list_by_risk (risk : string) (q : ReviewQueue) : list ReviewRequest :=
  List.filter (fun r => risk_level r =? risk)%string (requests q).
Definition list_stale (now : Z) (q : ReviewQueue) : list ReviewRequest :=
  List.filter (fun r => is_stale now r && (rq_status r =? "pending")%string) (requests q).
Definition pending_count (q : ReviewQueue) : nat := length (list_pending q).
Definition total_count (q : ReviewQueue) : nat := length (q_requests q).
End Workbench.

(** ** Properties *)

Section Properties.
Context (sha256 : string -> string) (instant_of : string -> option Z).
Context (sha256_nonempty : forall x, sha256 x <> "").

(** OR-001: what makes a decision admissible. *)
Definition admissible_decision (p : ReviewerPolicy) (now : Z) (d : OperatorDecision) (r : ReviewRequest)
  : Prop :=
  od_request_id d = request_id r /\ od_request_digest d = request_digest sha256 r /\
  od_subject_digest d = subject_digest (subject r) /\ od_policy_digest d = policy_digest sha256 p /\
  (exists ds, dget (subject_type (subject r)) SUBJECT_DECISION_MAP = Some ds /\ decision_type d ∈ ds) /\
  (exists ss, dget (reviewer_role d) (role_authority p) = Some ss /\ subject_type (subject r) ∈ ss) /\
  (rationale_required p (risk_level r) = true -> (3 <= String.length (strip (rationale d)))%nat) /\
  (forall text t, created_at r = Some text -> instant_of text = Some t -> now - t <= 72 * 3600 * 1000000) /\
  (required_reviewer_role r = reviewer_role d \/
   dget_or (required_reviewer_role r) 0 role_hierarchy <= dget_or (reviewer_role d) 0 role_hierarchy).

Lemma dget_or_mem x k (d : dict (list string)) :
  mem x (dget_or k [] d) = true <-> exists l, dget k d = Some l /\ x ∈ l.
Proof.
  rewrite mem_true. unfold dget_or. destruct (dget k d) as [l|]; [naive_solver|].
  split; [intros H; inversion H | by intros (? & [=] & _)].
Qed.

Lemma not_stale now r :
  is_stale instant_of now r = false <->
  forall text t, created_at r = Some text -> instant_of text = Some t -> now - t <= 72 * 3600 * 1000000.
Proof.
  unfold is_stale. destruct (created_at r) as [text|]; simpl; [|split; [intros _ ? ? [=] | done]].
  destruct (instant_of text) as [t|] eqn:Et.
  - rewrite Z.ltb_ge. split; [|eauto]. intros H ? ? [= <-] Ht. congruence.
  - split; [|done]. intros _ ? ? [= <-]. congruence.
Qed.

Lemma rationale_present d : rationale_missing d = false <-> (3 <= String.length (strip (rationale d)))%nat.
Proof.
  unfold rationale_missing. rewrite orb_false_iff, negb_false_iff, Nat.ltb_ge. split; [by intros []|].
  intros H. split; [|done]. unfold str_truthy. apply negb_true_iff, String.eqb_neq. intros E.
  rewrite E in H. simpl in H. lia.
Qed.

Lemma role_sufficient d r :
  role_insufficient d r = false <->
  (required_reviewer_role r = reviewer_role d \/
   dget_or (required_reviewer_role r) 0 role_hierarchy <= dget_or (reviewer_role d) 0 role_hierarchy).
Proof.
  unfold role_insufficient. rewrite andb_false_iff, negb_false_iff, String.eqb_eq, Z.ltb_ge. done.
Qed.

Lemma issued_verifies p d r :
  verify_receipt sha256 (issue_receipt sha256 p d r) r = true.
Proof.
  unfold verify_receipt, issue_receipt, is_committed. cbn. rewrite !String.eqb_refl, !andb_true_r.
  unfold receipt_digest, str_truthy, sha256_dict. apply negb_true_iff, String.eqb_neq. apply sha256_nonempty.
Qed.

Ltac verify_case := cbn; split; [split; naive_solver | split; naive_solver].

Lemma verify_spec p now d r :
  let v := verify sha256 instant_of p now d r in
  (admissible v = true <-> admissible_decision p now d r) /\
  (admissible v = true -> v = mkVerification true "" (Some (issue_receipt sha256 p d r)) []) /\
  (admissible v = false -> receipt v = None /\ rejection_reason v <> "").
Proof.
  unfold verify, admissible_decision.
  rewrite <- not_stale, <- rationale_present, <- role_sufficient.
  unfold is_authorized. setoid_rewrite <- dget_or_mem. rewrite <- !String.eqb_eq.
  destruct (od_request_id d =? request_id r)%string; [cbn [negb] | by verify_case].
  destruct (od_request_digest d =? _)%string; [cbn [negb] | by verify_case].
  destruct (od_subject_digest d =? _)%string; [cbn [negb] | by verify_case].
  destruct (od_policy_digest d =? _)%string; [cbn [negb] | by verify_case].
  destruct (mem (decision_type d) _); [cbn [negb] | by verify_case].
  destruct (mem (subject_type _) _); [cbn [negb] | by verify_case].
  destruct (rationale_required p _), (rationale_missing d); cbn [andb]; try (by verify_case);
    (destruct (is_stale _ _ _); [by verify_case|]); destruct (role_insufficient _ _); by verify_case.
Qed.

(** C39: The verifier admits a decision exactly when it meets OR-001 - it names
    the request and its exact content, subject and policy, its type fits the
    subject, its role has the authority and at least the required rank, a
    high risk has its rationale and the request is not stale - and exactly an
    admitted decision gets a receipt, which is committed, carries that
    decision and verifies against the request. *)
Theorem verify_decides p now d r :
  let v := verify sha256 instant_of p now d r in
  (admissible v = true <-> admissible_decision p now d r) /\
  match receipt v with
  | Some c => admissible v = true /\ rc_decision c = d /\ verify_receipt sha256 c r = true
  | None => admissible v = false /\ rejection_reason v <> ""
  end.
Proof.
  intros v. subst v. destruct (verify_spec p now d r) as (H1 & H2 & H3). split; [exact H1|].
  destruct (admissible _) eqn:E.
  - rewrite H2 by done. simpl. split_and!; [done | done | apply issued_verifies].
  - destruct H3 as [-> H3]; done.
Qed.

(** ** The queue *)

Inductive queue_step : ReviewQueue -> ReviewQueue -> Prop :=
| qs_submit r q q' : rq_status r = "pending" -> submit r q = Some q' -> queue_step q q'
| qs_record id c q q' : record_decision id c q = Some q' -> queue_step q q'.

(** A request is pending until a decision with an outcome is recorded for
    it, and then has the status of the last one; requests stay under their
    id. *)
Definition queue_inv (q : ReviewQueue) : Prop :=
  (forall id r, dget id (q_requests q) = Some r -> request_id r = id /\
     (dget id (q_decisions q) = None -> rq_status r = "pending")) /\
  (forall id c, dget id (q_decisions q) = Some c ->
     exists r, dget id (q_requests q) = Some r /\
       forall st, status_of_outcome (outcome (rc_decision c)) = Some st -> rq_status r = st).

Lemma dget_dset {V} k k' (v : V) d : dget k (dset k' v d) = if (k =? k')%string then Some v else dget k d.
Proof.
  destruct (String.eqb_spec k k') as [->|Hn]; [apply dget_dset_same | by apply dget_dset_other].
Qed.

Theorem queue_statuses q q' : queue_inv q -> queue_step q q' -> queue_inv q'.
Proof.
  intros [H1 H2] Hs. destruct Hs as [r q q' Hp Hs | id c q q' Hs].
  - unfold submit in Hs. destruct (dget (request_id r) (q_requests q)) eqn:E; [discriminate|].
    injection Hs as <-. split; simpl.
    + intros id x. rewrite dget_dset. destruct (String.eqb_spec id (request_id r)) as [->|Hn]; [|apply H1].
      intros [= <-]. done.
    + intros id c Hc. destruct (H2 id c Hc) as (x & Hx & Hst). exists x. split; [|done].
      rewrite dget_dset. destruct (String.eqb_spec id (request_id r)) as [->|Hn]; congruence.
  - unfold record_decision in Hs. destruct (dget id (q_requests q)) as [r|] eqn:E; [|discriminate].
    injection Hs as <-. destruct (H1 id r E) as [Hid _]. split; simpl.
    + intros id' x. rewrite dget_dset. destruct (status_of_outcome _) as [st|].
      * rewrite dget_dset. destruct (String.eqb_spec id' id) as [->|Hn]; [|apply H1].
        intros [= <-]. done.
      * intros Hx. destruct (String.eqb_spec id' id) as [->|Hn]; [|by apply H1].
        split; [congruence | discriminate].
    + intros id' c'. rewrite dget_dset. destruct (String.eqb_spec id' id) as [->|Hn].
      * intros [= <-]. destruct (status_of_outcome _) as [st|].
        -- exists (set_rq_status st r). rewrite dget_dset_same. split; [done|]. by intros st' [= <-].
        -- exists r. split; [done | discriminate].
      * intros Hc. destruct (H2 id' c' Hc) as (x & Hx & Hst). exists x. split; [|done].
        case_goal; [by rewrite dget_dset_other | exact Hx].
Qed.
End Properties.

(** ** Examples *)

Definition demo_sha (s : string) : string := "#" +:+ str_int (Z.of_nat (String.length s)).

Lemma demo_sha_nonempty x : demo_sha x <> "".
Proof. discriminate. Qed.

Definition demo_subject : ReviewSubject := mkSubject SUBJECT_CHAIN_REVIEW "r:3" "d0" [].
Definition demo_request (risk : string) : ReviewRequest :=
  mkRequest "review_r_3" demo_subject "risk" "operator" "" (policy_digest demo_sha default_policy) []
    (Some "t0") risk "pending".
Definition demo_decision (ty role why : string) : OperatorDecision :=
  mkDecision ty "review_r_3" "alice" role why (request_digest demo_sha (demo_request "high")) "d0"
    (policy_digest demo_sha default_policy) "t1" "reviewer_policy".
Definition demo_verify (ty role why : string) : VerificationResult :=
  verify demo_sha (fun _ => Some 0) default_policy 5 (demo_decision ty role why) (demo_request "high").

Lemma verify_decides_witness :
  (forall x, demo_sha x <> "") /\
  admissible_decision demo_sha (fun _ => Some 0) default_policy 5
    (demo_decision "approve_chain_review" "operator" "seen") (demo_request "high") /\
  rejection_reason (demo_verify "approve_chain_review" "operator" " ") = REJECT_MISSING_RATIONALE.
Proof.
  split; [apply demo_sha_nonempty|]. split.
  - destruct (verify_decides demo_sha (fun _ => Some 0) demo_sha_nonempty default_policy 5
      (demo_decision "approve_chain_review" "operator" "seen") (demo_request "high")) as [H _].
    apply H. vm_compute. reflexivity.
  - vm_compute. reflexivity.
Defined.

Example release_manager_unauthorized :
  rejection_reason (demo_verify "approve_chain_review" "release_manager" "seen") = REJECT_UNAUTHORIZED.
Proof. vm_compute. reflexivity. Qed.

(** A request whose creation time has no zone is never stale. *)
Example naive_time_never_stale :
  admissible (verify demo_sha (fun _ => None) default_policy (10 ^ 18)
    (demo_decision "approve_chain_review" "operator" "seen") (demo_request "high")) = true.
Proof. vm_compute. reflexivity. Qed.

Lemma queue_statuses_witness :
  exists q, submit (demo_request "low") (mkQueue [] []) = Some q /\ queue_inv q.
Proof.
  eexists. split; [vm_compute; reflexivity|].
  eapply queue_statuses; [| apply (qs_submit (demo_request "low") (mkQueue [] [])); reflexivity].
  split; intros ? ? [=].
Defined.
