(* ===== verification/ReviewManager.v ===== *)
(** * Review manager

    [runtime/review_manager.py] over the workbench, the persistence coordinator
    and the log of review attempts: the pause for a human, the decision with
    its receipt, and the failure of a chain whose decision cannot be
    verified.

    The adapter that asks a human is the environment's: [answer] is what it
    returns; so are clock readings, fresh identifiers and whether the database
    accepts a transaction.  What the code stored in the metadata of a run is
    read back at the types it was written with. *)
From S2P Require Import Prelude PyFloat PyValue Json Sql ReviewWorkbench ChainState StateStore.
From S2P Require Import Persistence Trace.
From S2P Require DecisionLog.

Definition REASON_REVIEW_RECEIPT_VERIFICATION_FAILED : string := "review_receipt_verification_failed".

Record ReviewEnv := mkReviewEnv {
  env_review_mode : option string;
  env_rationale_override : option string;
  env_reviewer_identity : option string;
}.

Definition review_mode (e : ReviewEnv) : string := default "interactive" (env_review_mode e).

Inductive review_error :=
| CommitRaised (e : store_error)
| ReviewPaused (run step : pyval)
| UnknownVocabulary
| NoReceipt
| NotAText.

(** ** Is a review needed? *)

Definition upper_char (c : ascii) : ascii :=
  let n := nat_of_ascii c in
  if Nat.leb 97 n && Nat.leb n 122 then ascii_of_nat (n - 32) else c.

Fixpoint upper (s : string) : string :=
  match s with EmptyString => EmptyString | String c s' => String (upper_char c) (upper s') end.

(** [0.3] *)
Definition three_tenths : pyfloat := float_of_decimal false 3 (-1).

Definition low_confidence (v : pyval) : bool :=
  match as_num v with Some n => num_lt n (NFloat three_tenths) | None => false end.

(** A risk level that is no text has no [upper]. *)
Definition needs_review (e : ReviewEnv) (risk : pyctx) : res review_error bool :=
  if (review_mode e =? "disabled")%string then Ok false
  else match dget_or "risk_level" (VStr "") risk with
       | VStr level =>
           if (upper level =? "HIGH")%string then Ok true
           else if (upper level =? "MEDIUM")%string
                   && low_confidence (dget_or "confidence" (VFloat (fround_int 1)) risk)
           then Ok true
           else Ok match dget "review_required" risk with Some (VBool true) => true | _ => false end
       | _ => Err NotAText
       end.

(** ** Requests *)

Definition first3 {A} (l : list A) : list A := firstn 3 l.

Definition risk_text (risk : pyctx) : string := lower (py_str (dget_or "risk_level" (VStr "medium") risk)).

(** [a or b or []] *)
Definition risk_factors (risk : pyctx) : pyval :=
  let a := context_get "risk_factors" risk in
  let b := context_get "uncertainty_disclosures" risk in
  if truthy a then a else if truthy b then b else VList [].

Definition default_rationale (e : ReviewEnv) (risk : pyctx) (review_required : bool) : string :=
  match env_rationale_override e with
  | Some o => o
  | None =>
      match risk_factors risk with
      | VList ((_ :: _) as fs) =>
          "Runtime review gate: " +:+ risk_text risk +:+ " risk (" +:+ join ", " (map py_str (first3 fs)) +:+ ")"
      | _ =>
          if review_required
          then "Runtime review gate: review_required=true, " +:+ risk_text risk +:+ " risk"
          else "Runtime review gate: " +:+ risk_text risk +:+ " risk classification"
      end
  end.

Definition workbench_risk (risk : pyctx) : string :=
  if mem (risk_text risk) ["low"; "medium"; "high"; "critical"] then risk_text risk else "medium".

(** ** The world of a review *)

Record RvWorld (Json : Type) := mkRvWorld {
  rw_state : ChainState;
  rw_store : Store Json;
  rw_attempts : list pyctx;
  rw_trace : list TraceEvent;
}.
Arguments mkRvWorld {Json}.
Arguments rw_state {Json}.
Arguments rw_store {Json}.
Arguments rw_attempts {Json}.
Arguments rw_trace {Json}.

Section Manager.
Context (sha256 : string -> string) (instant_of : string -> option Z).

Definition build_governed_review_request (e : ReviewEnv) (risk : pyctx) (s : ChainState) (stp : Z)
  (created : string) : ReviewRequest :=
  mkRequest ("review_" +:+ run_id s +:+ "_" +:+ str_int stp)
    (mkSubject SUBJECT_CHAIN_REVIEW (run_id s +:+ ":" +:+ str_int stp) (sha256_dict sha256 risk) [])
    (default_rationale e risk true) "operator" (execution_order_hash s)
    (policy_digest sha256 default_policy) [] (Some created) (workbench_risk risk) "pending".

Definition text_at (k dflt : string) (d : pyctx) : string :=
  match dget k d with Some (VStr s) => s | _ => dflt end.
Definition dict_at (k : string) (d : pyctx) : pyctx :=
  match dget k d with Some (VDict m) => m | _ => [] end.
Definition texts_at (k : string) (d : pyctx) : list string :=
  match dget k d with
  | Some (VList l) => omap (fun v => match v with VStr s => Some s | _ => None end) l
  | _ => []
  end.

Definition rebuild_governed_review_request (d : pyctx) : res review_error ReviewRequest :=
  let sj := dict_at "subject" d in
  match check_subject (mkSubject (text_at "subject_type" "chain_review" sj) (text_at "subject_id" "" sj)
                         (text_at "subject_digest" "" sj) []) with
  | None => Err UnknownVocabulary
  | Some subj =>
      match check_request (mkRequest (text_at "request_id" "" d) subj (text_at "reason_for_review" "" d)
              (text_at "required_reviewer_role" "operator" d) (text_at "graph_digest" "" d)
              (text_at "policy_digest" "" d) (texts_at "trace_event_ids" d)
              (match dget "created_at" d with Some (VStr t) => Some t | _ => None end)
              (text_at "risk_level" "medium" d) (text_at "status" "pending" d)) with
      | None => Err UnknownVocabulary
      | Some r => Ok r
      end
  end.

Context {Json : Type} (dump : ChainState -> Json).
Implicit Types (w : RvWorld Json).

Definition io (A : Type) : Type := RvWorld Json -> RvWorld Json * res review_error A.
Definition io_ret {A} (a : A) : io A := fun w => (w, Ok a).
Definition io_raise {A} (e : review_error) : io A := fun w => (w, Err e).
Definition io_bind {A B} (m : io A) (f : A -> io B) : io B := fun w =>
  match m w with
  | (w', Ok a) => f a w'
  | (w', Err e) => (w', Err e)
  end.
Notation "x <- m ;; f" := (io_bind m (fun x => f))
  (at level 100, m at next level, right associativity).
Definition get_state : io ChainState := fun w => (w, Ok (rw_state w)).
Definition lift {A} (r : res review_error A) : io A := fun w => (w, r).

(** What one transition draws, and whether its transaction commits. *)
Record Tx := mkTx { tx_event_id : string; tx_timestamp : string; tx_now : string; tx_io : bool }.

Definition review_event (t : Tx) (s : ChainState) (stp : Z) (ty actor decision : string)
  (reasons : list string) (md : pyctx) : TraceEvent :=
  mkTraceEvent (tx_event_id t) ty (Some "risk_classifier") (Some stp)
    (durable_payload (chain_id s) actor (Some decision) reasons fzero 0 md) (tx_timestamp t).

(** [Orchestrator._commit_review_transition]: state and event in one
    transaction, then the live trace. *)
Definition commit_review_transition (t : Tx) (e : TraceEvent) (status : string)
  (paused : option string) (md : pyctx) : io unit := fun w =>
  match commit_lifecycle dump (mkLifecycle (Some status) None (Some paused) None md) e (rw_state w)
          (tx_now t) (tx_io t) (rw_store w) with
  | (s', st', Ok _) => (mkRvWorld s' st' (rw_attempts w) (rw_trace w ++ [e]), Ok tt)
  | (s', st', Err x) => (mkRvWorld s' st' (rw_attempts w) (rw_trace w), Err (CommitRaised x))
  end.

(** ** Receipts *)

Record ReceiptInfo := mkInfo {
  ri_receipt_id : option string;
  ri_receipt_digest : option string;
  ri_receipt_dict : pyctx;
  ri_trace_metadata : pyctx;
}.

Definition no_receipt : ReceiptInfo := mkInfo None None [] [].

(** What a decision draws: its time, the reading of the clock in the stale
    check, and the identifier and times of the attempt row. *)
Record Draws := mkDraws {
  dr_decided_at : string;
  dr_now : Z;
  dr_attempt_hex : string;
  dr_attempt_at : string;
  dr_governance : Tx;
}.

Definition fail_closed_governance (t : Tx) (stp : Z) (r : ReviewRequest) (reason : string)
  (ws : list string) : io unit :=
  s <- get_state;;
  let rd := VStr (request_digest sha256 r) in
  commit_review_transition t
    (review_event t s stp "human_review_completed" "runtime" "governance_failure"
       [REASON_REVIEW_RECEIPT_VERIFICATION_FAILED; reason]
       [ ("request_id", VStr (request_id r)); ("subject_id", VStr (subject_id (subject r)));
         ("request_digest", rd); ("rejection_reason", VStr reason) ])
    "failed" None
    [ ("governed_review_failure", VDict
         [ ("reason_code", VStr REASON_REVIEW_RECEIPT_VERIFICATION_FAILED);
           ("rejection_reason", VStr reason); ("warnings", texts ws);
           ("request_id", VStr (request_id r)); ("subject_id", VStr (subject_id (subject r)));
           ("request_digest", rd) ]) ].

(** The row of an attempt; a failure of the log is swallowed. *)
Definition record_review_attempt (dr : Draws) (d : OperatorDecision) (r : ReviewRequest)
  (v : VerificationResult) (s : ChainState) (stp : Z) (identity outcome : string) : io unit := fun w =>
  let attempt :=
    [ ("review_attempt_id",
         VStr ("rda_" +:+ run_id s +:+ "_" +:+ str_int stp +:+ "_" +:+ dr_attempt_hex dr));
      ("run_id", VStr (run_id s)); ("chain_id", VStr (chain_id s)); ("step_id", VInt stp);
      ("request_id", VStr (request_id r)); ("request_digest", VStr (request_digest sha256 r));
      ("subject_type", VStr (subject_type (subject r))); ("subject_id", VStr (subject_id (subject r)));
      ("attempted_decision_type", VStr (decision_type d)); ("attempted_outcome", VStr outcome);
      ("reviewer_identity", VStr identity);
      ("required_reviewer_role", VStr (required_reviewer_role r));
      ("admitted", VBool (admissible v));
      ("rejection_reason", VStr (if admissible v then "" else rejection_reason v));
      ("verifier_checks", VDict [("warnings", texts (warnings v))]);
      ("policy_digest", VStr (policy_digest sha256 default_policy));
      ("graph_digest", VStr (execution_order_hash s)); ("created_at", VStr (dr_attempt_at dr));
      ("retention_status", VStr "active") ] in
  match DecisionLog.record_review_attempt (dr_attempt_at dr) attempt (rw_attempts w) with
  | Ok t => (mkRvWorld (rw_state w) (rw_store w) t (rw_trace w), Ok tt)
  | Err _ => (w, Ok tt)
  end.

Definition runtime_decision (e : ReviewEnv) (dr : Draws) (risk : pyctx) (ty : string) (r : ReviewRequest)
  : OperatorDecision :=
  mkDecision ty (request_id r) (default "runtime:auto" (env_reviewer_identity e)) "operator"
    (default_rationale e risk false) (request_digest sha256 r) (subject_digest (subject r))
    (policy_digest sha256 default_policy) (dr_decided_at dr) "reviewer_policy".

Definition materialize_decision_receipt (e : ReviewEnv) (dr : Draws) (decision : string)
  (r : ReviewRequest) (risk : pyctx) (stp : Z) : io ReceiptInfo :=
  if (decision =? "timeout")%string then io_ret no_receipt
  else
    match chain_review_decision_type decision with
    | None =>
        _ <- fail_closed_governance (dr_governance dr) stp r ("unsupported_review_outcome:" +:+ decision) [];;
        io_ret no_receipt
    | Some ty =>
        let identity := default "runtime:auto" (env_reviewer_identity e) in
        let d := runtime_decision e dr risk ty r in
        let v := verify sha256 instant_of default_policy (dr_now dr) d r in
        s <- get_state;;
        _ <- record_review_attempt dr d r v s stp identity decision;;
        if negb (admissible v) then
          _ <- fail_closed_governance (dr_governance dr) stp r (rejection_reason v) (warnings v);;
          io_ret no_receipt
        else
        match receipt v with
        | None => io_raise NoReceipt
        | Some c =>
            io_ret (mkInfo (Some (receipt_id c)) (Some (receipt_digest sha256 c)) (receipt_dict sha256 c)
              [ ("receipt_id", VStr (receipt_id c)); ("receipt_digest", VStr (receipt_digest sha256 c));
                ("subject_type", VStr (subject_type (subject r))); ("request_id", VStr (request_id r));
                ("request_digest", VStr (request_digest sha256 r)); ("reviewer_identity", VStr identity) ])
        end
    end.

(** ** Decisions *)

Record ReviewDecision := mkReviewDecision {
  rd_decision : string;
  rd_review_request : pyctx;
  rd_risk_assessment : pyctx;
  rd_receipt_id : option string;
  rd_receipt_digest : option string;
  rd_decision_receipt : pyctx;
}.

Definition governance_failure (legacy risk : pyctx) : ReviewDecision :=
  mkReviewDecision "governance_failure" legacy risk None None [].

Definition with_receipt (decision : string) (legacy risk : pyctx) (i : ReceiptInfo) : ReviewDecision :=
  mkReviewDecision decision legacy risk (ri_receipt_id i) (ri_receipt_digest i) (ri_receipt_dict i).

Definition decision_map : dict string :=
  [("auto-approve", "approve"); ("auto-reject", "reject"); ("auto-revision", "request_revision")].

(** The adapter's answer, unless the mode decides or pauses. *)
Definition get_decision (e : ReviewEnv) (answer : string) (outs : pyctx) : res review_error string :=
  match dget (review_mode e) decision_map with
  | Some d => Ok d
  | None =>
      if (review_mode e =? "pause")%string
      then Err (ReviewPaused (dget_or "run_id" (VStr "unknown") outs) (dget_or "step_id" (VInt 0) outs))
      else Ok answer
  end.

Definition is_failed_without_receipt (s : ChainState) (i : ReceiptInfo) : bool :=
  (status s =? "failed")%string && match ri_receipt_id i with None => true | Some _ => false end.

(** The receipt and the transition of a decision. *)
Definition settle_review (e : ReviewEnv) (dr : Draws) (decision : string) (r : ReviewRequest)
  (risk : pyctx) (stp : Z) (resolve : Tx) (legacy : pyctx) : io ReviewDecision :=
  i <- materialize_decision_receipt e dr decision r risk stp;;
  s <- get_state;;
  if is_failed_without_receipt s i then io_ret (governance_failure legacy risk)
  else
    _ <- commit_review_transition resolve
           (review_event resolve s stp
              (if (decision =? "timeout")%string then "human_review_timeout" else "human_review_completed")
              "human" decision [] (ri_trace_metadata i))
           (if mem decision ["reject"; "timeout"] then "failed" else "running") None
           (match ri_receipt_dict i with
            | [] => []
            | d => [("governed_decision_receipt", VDict d)]
            end);;
    io_ret (with_receipt decision legacy risk i).

Definition request_review (e : ReviewEnv) (answer : string) (dr : Draws) (created paused : string)
  (pause resolve : Tx) (risk : pyctx) (stp : Z) : io ReviewDecision :=
  s <- get_state;;
  let r := build_governed_review_request e risk s stp created in
  let legacy := [ ("risk_assessment", VDict risk); ("step_id", VInt stp);
                  ("node_id", VStr "risk_classifier") ] in
  _ <- commit_review_transition pause
         (review_event pause s stp "human_review_requested" "runtime" "paused_for_review"
            ["Risk classification requires human review"]
            [ ("subject_type", VStr (subject_type (subject r))); ("request_id", VStr (request_id r));
              ("request_digest", VStr (request_digest sha256 r)) ])
         "waiting_for_review" (Some paused)
         [ ("review_request", VDict legacy); ("governed_review_request", VDict (request_dict sha256 r)) ];;
  s <- get_state;;
  decision <- lift (get_decision e answer (outputs s));;
  settle_review e dr decision r risk stp resolve legacy.

(** On a resume the state is the saved one. *)
Definition resolve_resume_review (e : ReviewEnv) (answer : string) (dr : Draws) : io ReviewDecision :=
  s <- get_state;;
  let legacy := dict_at "review_request" (metadata s) in
  let risk := dict_at "risk_assessment" legacy in
  decision <- (match context_get "review_decision" (metadata s) with
               | VStr d => if str_truthy d then io_ret d else lift (get_decision e answer (outputs s))
               | v => if truthy v then io_raise NotAText else lift (get_decision e answer (outputs s))
               end);;
  i <- (match dict_at "governed_review_request" (metadata s) with
        | [] => io_ret no_receipt
        | d =>
            r <- lift (rebuild_governed_review_request d);;
            if (decision =? "timeout")%string then io_ret no_receipt
            else materialize_decision_receipt e dr decision r risk
                   (match dget "step_id" legacy with Some (VInt z) => z | _ => 0 end)
        end);;
  s <- get_state;;
  io_ret (if is_failed_without_receipt s i then governance_failure legacy risk
          else with_receipt decision legacy risk i).
End Manager.

(** ** Properties *)

Section Properties.
Context (sha256 : string -> string) (instant_of : string -> option Z).
Context (sha256_nonempty : forall x, sha256 x <> "").
Context {Json : Type} (dump : ChainState -> Json) (parse : Json -> option ChainState).
Context (Hparse : forall x, parse (dump x) = Some x).
Implicit Types (w : RvWorld Json).

Abbreviation materialize := (materialize_decision_receipt sha256 instant_of dump).
Abbreviation review := (request_review sha256 instant_of dump).
Abbreviation resume := (resolve_resume_review sha256 instant_of dump).

(** The accepted state is what a recovery loads, and an event is in the live
    trace only if the journal has it. *)
Definition good w : Prop :=
  durable parse (rw_state w) (rw_store w) /\
  forall e, e ∈ rw_trace w -> exists row, row ∈ state_events (rw_store w) /\
    trace_event_id row = Some (te_event_id e) /\ event_type row = te_event_type e.

Definition proposal_of (status : string) (paused : option string) (md : pyctx) : LifecycleProposal :=
  mkLifecycle (Some status) None (Some paused) None md.

Lemma transition_spec t e status paused md w w' r :
  good w -> commit_review_transition dump t e status paused md w = (w', r) ->
  good w' /\ rw_attempts w' = rw_attempts w /\
  match r with
  | Ok _ => rw_trace w' = rw_trace w ++ [e] /\
      rw_state w' = accept (CLifecycle (proposal_of status paused md) e) true (rw_state w)
  | Err x => rw_trace w' = rw_trace w /\ rw_state w' = rw_state w /\ exists se, x = CommitRaised se
  end.
Proof.
  intros [[Hl Hw] Hack]. unfold commit_review_transition.
  destruct (commit_lifecycle _ _ _ _ _ _ _) as [[s' st'] r'] eqn:E.
  pose proof (run_commit_spec dump parse Hparse (CLifecycle (proposal_of status paused md) e) (rw_state w)
    (tx_now t) (tx_io t) (rw_store w) s' st' r' Hw E) as [Hs Hr].
  destruct r' as [u|x]; intros [= <- <-]; cbn [rw_state rw_store rw_trace rw_attempts is_ok] in *.
  - split; [|done]. split; [exact Hr|]. cbn [rw_trace rw_store]. intros e' [He'|He'%list_elem_of_singleton]%elem_of_app.
    + destruct (Hack e' He') as (row & Hin & Hrow). exists row. split; [|done].
      unfold commit_lifecycle, adopt in E.
      destruct (save_with_trace_event _ _ _ _ _ _) as [[c1 st1] [u1|x1]] eqn:Es; [|discriminate].
      destruct (save_body_committed (total dump) parse (SaveTrace e) _ _ _ _ _ _ _ (total_parse dump parse Hparse) Hw Es)
        as [_ _ _ Hes _ _]. injection E as _ <-. rewrite Hes. apply elem_of_app. by left.
    + subst e'. unfold commit_lifecycle, adopt in E.
      destruct (save_with_trace_event _ _ _ _ _ _) as [[c1 st1] [u1|x1]] eqn:Es; [|discriminate].
      destruct (save_body_committed (total dump) parse (SaveTrace e) _ _ _ _ _ _ _ (total_parse dump parse Hparse) Hw Es)
        as [_ _ _ Hes _ _]. injection E as _ <-.
      eexists. rewrite Hes. split; [apply elem_of_app; right; left | done].
  - subst st'. cbn [accept] in Hs. subst s'. split; [|split_and!; eauto]. by split.
Qed.

Lemma attempt_spec dr d r v s stp identity oc w w' res :
  good w -> record_review_attempt sha256 dr d r v s stp identity oc w = (w', res) ->
  good w' /\ rw_state w' = rw_state w /\ rw_trace w' = rw_trace w /\ rw_store w' = rw_store w /\ res = Ok tt.
Proof.
  intros Hg. unfold record_review_attempt.
  destruct (DecisionLog.record_review_attempt _ _ _); intros [= <- <-]; split_and!; try done; apply Hg.
Qed.

Lemma fail_closed_spec t stp r reason ws w w' res :
  good w -> fail_closed_governance sha256 dump t stp r reason ws w = (w', res) ->
  good w' /\
  match res with
  | Ok _ => status (rw_state w') = "failed" /\
      exists m, dget "governed_review_failure" (metadata (rw_state w')) = Some (VDict m)
  | Err x => rw_state w' = rw_state w /\ exists se, x = CommitRaised se
  end.
Proof.
  intros Hg. unfold fail_closed_governance, io_bind, get_state. intros H.
  apply transition_spec in H as (Hg' & _ & H); [|done]. split; [done|].
  destruct res as [u|x]; [|naive_solver]. destruct H as [_ ->]. split; [done|].
  eexists. cbn. apply dget_dset_same.
Qed.

(** What a receipt that was issued proves. *)
Definition receipt_for (decision : string) (r : ReviewRequest) (i : ReceiptInfo) : Prop :=
  exists c, ri_receipt_id i = Some (receipt_id c) /\
    ri_receipt_digest i = Some (receipt_digest sha256 c) /\ ri_receipt_dict i = receipt_dict sha256 c /\
    verify_receipt sha256 c r = true /\ outcome (rc_decision c) = decision.

Lemma chain_decision_outcome decision ty :
  chain_review_decision_type decision = Some ty ->
  dget_or ty "unknown" OUTCOME_MAP = decision /\ decision ∈ ["approve"; "reject"; "request_revision"].
Proof.
  unfold chain_review_decision_type. cbn [dget].
  repeat (case_goal; [bool_prop; intros [= <-]; subst; split; [reflexivity | by apply mem_true]|]).
  discriminate.
Qed.

Lemma materialize_spec e dr decision r risk stp w w' res :
  good w -> materialize e dr decision r risk stp w = (w', res) ->
  good w' /\
  match res with
  | Ok i =>
      (rw_state w' = rw_state w /\ rw_trace w' = rw_trace w /\ receipt_for decision r i /\
         decision ∈ ["approve"; "reject"; "request_revision"]) \/
      (i = no_receipt /\ decision = "timeout" /\ w' = w) \/
      (i = no_receipt /\ decision <> "timeout" /\ status (rw_state w') = "failed" /\
         exists m, dget "governed_review_failure" (metadata (rw_state w')) = Some (VDict m))
  | Err x => rw_state w' = rw_state w /\ exists se, x = CommitRaised se
  end.
Proof.
  intros Hg. unfold materialize_decision_receipt.
  destruct (String.eqb_spec decision "timeout") as [->|Hn]; [intros [= <- <-]; auto 6|].
  destruct (chain_review_decision_type decision) as [ty|] eqn:Et.
  2: { unfold io_bind. destruct (fail_closed_governance _ _ _ _ _ _ _ w) as [w1 [u|x]] eqn:Ef;
         apply fail_closed_spec in Ef as [Hg1 Hf]; try done; intros [= <- <-]; split; auto; naive_solver. }
  apply chain_decision_outcome in Et as [Hout Hin].
  set (d := runtime_decision _ _ _ _ _ _).
  destruct (verify_spec sha256 instant_of default_policy (dr_now dr) d r) as (_ & Hv & _).
  set (v := verify _ _ _ _ d r) in *. unfold io_bind at 1, get_state at 1.
  unfold io_bind at 1. destruct (record_review_attempt _ _ _ _ _ _ _ _ _ w) as [w1 r1] eqn:Ea.
  apply attempt_spec in Ea as (Hg1 & Hs1 & Ht1 & Hst1 & ->); [|done].
  destruct (admissible v) eqn:Ead; cbn [negb].
  - rewrite Hv by done. cbn [receipt]. intros [= <- <-]. split; [done|]. left.
    split_and!; [done | done | | done]. exists (issue_receipt sha256 default_policy d r).
    split_and!; try reflexivity; [|exact Hout]. by apply (issued_verifies sha256).
  - unfold io_bind. destruct (fail_closed_governance _ _ _ _ _ _ _ w1) as [w2 [u|x]] eqn:Ef;
      apply fail_closed_spec in Ef as [Hg2 Hf]; try done; intros [= <- <-]; (split; [done|]).
    + right. right. naive_solver.
    + destruct Hf as [Hf Hx]. split; [congruence | done].
Qed.

(** What the review says: the mode's own decision, or the adapter's answer. *)
Definition said (e : ReviewEnv) (answer : string) : string :=
  if (review_mode e =? "auto-approve")%string then "approve"
  else if (review_mode e =? "auto-reject")%string then "reject"
  else if (review_mode e =? "auto-revision")%string then "request_revision"
  else answer.

Lemma get_decision_spec e answer outs :
  match get_decision e answer outs with
  | Ok d => d = said e answer
  | Err x => review_mode e = "pause" /\ exists run stp, x = ReviewPaused run stp
  end.
Proof.
  unfold get_decision, said, decision_map. cbn [dget].
  destruct (String.eqb_spec (review_mode e) "auto-approve"); [done|].
  destruct (String.eqb_spec (review_mode e) "auto-reject"); [done|].
  destruct (String.eqb_spec (review_mode e) "auto-revision"); [done|].
  destruct (String.eqb_spec (review_mode e) "pause"); [eauto | done].
Qed.

(** A stored receipt for the decision, over the request of this gate. *)
Definition receipted (r : ReviewRequest) (s : ChainState) (d : ReviewDecision) : Prop :=
  exists c, rd_receipt_id d = Some (receipt_id c) /\ verify_receipt sha256 c r = true /\
    outcome (rc_decision c) = rd_decision d /\
    dget "governed_decision_receipt" (metadata s) = Some (VDict (receipt_dict sha256 c)).

(** The outcome of a review that said [word]. *)
Definition reviewed (word : string) (r : ReviewRequest) (w' : RvWorld Json) (d : ReviewDecision) : Prop :=
  let s := rw_state w' in
  (rd_decision d = word /\ word ∈ ["approve"; "request_revision"] /\ status s = "running" /\ receipted r s d) \/
  (rd_decision d = word /\ word = "reject" /\ status s = "failed" /\ receipted r s d) \/
  (rd_decision d = word /\ word = "timeout" /\ status s = "failed" /\ rd_receipt_id d = None) \/
  (rd_decision d = "governance_failure" /\ status s = "failed" /\ rd_receipt_id d = None /\
     exists m, dget "governed_review_failure" (metadata s) = Some (VDict m)).

(** The last transition, once a decision has been materialized. *)
Lemma resolve_spec e dr decision r risk stp resolve legacy w w' res :
  good w -> status (rw_state w) = "waiting_for_review" ->
  settle_review sha256 instant_of dump e dr decision r risk stp resolve legacy w = (w', res) ->
  good w' /\
  match res with
  | Ok d => reviewed decision r w' d
  | Err x => status (rw_state w') = "waiting_for_review" /\ exists se, x = CommitRaised se
  end.
Proof.
  intros Hg Hwait. unfold settle_review, io_bind at 1.
  destruct (materialize e dr decision r risk stp w) as [w1 [i|x]] eqn:Em;
    apply materialize_spec in Em as [Hg1 Hm]; try done.
  2: { intros [= <- <-]. destruct Hm as [Hm Hx]. split; [done|]. split; [congruence | done]. }
  unfold io_bind at 1, get_state at 1, is_failed_without_receipt.
  destruct Hm as [(Hs1 & _ & (c & H1 & H2 & H3 & H4 & H5) & Hd)|[(-> & -> & ->)|(-> & Hd & Hf & m & Hm)]].
  - rewrite H1, andb_false_r, H3. unfold io_bind.
    destruct (commit_review_transition _ _ _ _ _ _ w1) as [w2 [u|x]] eqn:Et;
      apply transition_spec in Et as (Hg2 & _ & Ht); try done; intros [= <- <-]; (split; [done|]).
    + destruct Ht as [_ Hst].
      assert (Hrec : receipted r (rw_state w2) (with_receipt decision legacy risk i)).
      { exists c. unfold with_receipt. cbn [rd_receipt_id rd_decision]. rewrite Hst, H1. split_and!; [done..|].
        cbn. apply dget_dset_same. }
      unfold reviewed. rewrite Hst in *. rewrite !elem_of_cons, elem_of_nil in Hd.
      destruct Hd as [->|[->|[->|[]]]]; cbn; [left | right; left | left]; split_and!; try done; by apply mem_true.
    + destruct Ht as (_ & -> & Hx). split; [congruence | done].
  - rewrite Hwait. cbn [andb String.eqb]. simpl. unfold io_bind.
    destruct (commit_review_transition _ _ _ _ _ _ w) as [w2 [u|x]] eqn:Et;
      apply transition_spec in Et as (Hg2 & _ & Ht); try done; intros [= <- <-]; (split; [done|]).
    + destruct Ht as [_ Hst]. unfold reviewed. rewrite Hst. cbn. right. right. by left.
    + destruct Ht as (_ & -> & Hx). done.
  - rewrite Hf. cbn. intros [= <- <-]. split; [done|]. unfold reviewed. rewrite Hf. cbn.
    right. right. right. eauto.
Qed.

Lemma review_fail_closed_core e answer dr created paused pause resolve risk stp w w' res :
  good w ->
  review e answer dr created paused pause resolve risk stp w = (w', res) ->
  good w' /\
  match res with
  | Ok d => review_mode e <> "pause" /\
      reviewed (said e answer) (build_governed_review_request sha256 e risk (rw_state w) stp created) w' d
  | Err (ReviewPaused _ _) => review_mode e = "pause" /\ status (rw_state w') = "waiting_for_review"
  | Err x => (exists se, x = CommitRaised se) /\
      (rw_state w' = rw_state w \/ status (rw_state w') = "waiting_for_review")
  end.
Proof.
  intros Hg. unfold request_review. unfold io_bind at 1, get_state at 1. cbv zeta.
  set (r := build_governed_review_request _ _ _ _ _ _).
  unfold io_bind at 1. destruct (commit_review_transition _ pause _ _ _ _ w) as [w1 [u|x]] eqn:Et;
    apply transition_spec in Et as (Hg1 & _ & Ht); try done.
  2: { intros [= <- <-]. destruct Ht as (_ & Hs & se & ->). split; [done|]. split; [eauto | by left]. }
  destruct Ht as [_ Hst].
  assert (Hwait : status (rw_state w1) = "waiting_for_review") by by rewrite Hst.
  unfold io_bind at 1, get_state at 1. unfold io_bind at 1, lift.
  pose proof (get_decision_spec e answer (outputs (rw_state w1))) as Hd.
  assert (Hm : is_ok (get_decision e answer (outputs (rw_state w1))) = true -> review_mode e <> "pause")
    by (unfold get_decision; intros H Hm; rewrite Hm in H; by vm_compute in H).
  destruct (get_decision e answer (outputs (rw_state w1))) as [decision|x].
  2: { intros [= <- <-]. destruct Hd as (Hp & run & st' & ->). done. }
  subst decision. intros H. apply resolve_spec in H as [Hg' H]; [|done|done]. split; [done|].
  destruct res as [d|x]; [by split; [apply Hm|]|]. destruct H as [Hw' (se & ->)]. eauto.
Qed.

(** C38: A review lets a chain go on only on the word of the review and with a
    verified receipt for it.  When it comes back, its decision is what the
    mode or the reviewer said, or the failure of governance.  The run goes on
    exactly on an approval or a request for revision; these and a rejection
    come with a receipt for that very decision, which verifies against the
    request of this gate and is stored in the run.  A rejection and a timeout
    leave the run failed, and so does a decision that could not be verified,
    which stores its reason and no receipt.  In pause mode the run waits.  If
    the database refuses the pause, the run is as it was before the review;
    if it refuses the later transition, the run still waits.  In every case
    the accepted state is the one a recovery would load, and the live trace
    has no event that the journal lacks. *)
Theorem review_fail_closed e answer dr created paused pause resolve risk stp w w' res :
  good w ->
  review e answer dr created paused pause resolve risk stp w = (w', res) ->
  good w' /\
  match res with
  | Ok d => review_mode e <> "pause" /\
      reviewed (said e answer) (build_governed_review_request sha256 e risk (rw_state w) stp created) w' d
  | Err (ReviewPaused _ _) => review_mode e = "pause" /\ status (rw_state w') = "waiting_for_review"
  | Err x => (exists se, x = CommitRaised se) /\
      (rw_state w' = rw_state w \/ status (rw_state w') = "waiting_for_review")
  end.
Proof. apply review_fail_closed_core. Qed.

(** ** The resume *)

(** A request the workbench can have made, as this manager persists it. *)
Definition persistable (r : ReviewRequest) : Prop :=
  subject_type (subject r) ∈ ALL_SUBJECT_TYPES /\ required_reviewer_role r ∈ ALL_REVIEWER_ROLES /\
  subject_metadata (subject r) = [].

Lemma texts_read l : omap (fun v => match v with VStr s => Some s | _ => None end) (map VStr l) = l.
Proof. induction l as [|x l IH]; simpl; [done|]. unfold omap in IH. by rewrite IH. Qed.

Lemma sort_str_again l : sort_str (sort_str l) = sort_str l.
Proof.
  apply py_sorted_id, py_sorted_sorted; [apply String.leb_total | apply str_leb_trans].
Qed.

(** A persisted request is read back as the request it was, down to its
    digest. *)
Lemma rebuild_persisted r :
  persistable r ->
  exists r', rebuild_governed_review_request (request_dict sha256 r) = Ok r' /\
    request_digest sha256 r' = request_digest sha256 r /\ request_id r' = request_id r /\
    subject r' = subject r /\ created_at r' = created_at r /\
    required_reviewer_role r' = required_reviewer_role r /\ risk_level r' = risk_level r.
Proof.
  intros (H1 & H2 & H3). apply mem_true in H1, H2.
  set (sj := mkSubject (subject_type (subject r)) (subject_id (subject r)) (subject_digest (subject r)) []).
  assert (Hsj : sj = subject r) by (subst sj; destruct (subject r); simpl in *; by subst).
  set (r' := mkRequest (request_id r) sj (reason_for_review r) (required_reviewer_role r) (graph_digest r)
    (rq_policy_digest r) (sort_str (trace_event_ids r)) (created_at r) (risk_level r) (rq_status r)).
  exists r'. split; [|split_and!; try done].
  - change (rebuild_governed_review_request (request_dict sha256 r)) with
      (match check_subject sj with
       | None => Err UnknownVocabulary
       | Some subj =>
           match check_request (mkRequest (request_id r) subj (reason_for_review r) (required_reviewer_role r)
              (graph_digest r) (rq_policy_digest r) (texts_at "trace_event_ids" (request_dict sha256 r))
              (match text_or_none (created_at r) with VStr t => Some t | _ => None end)
              (risk_level r) (rq_status r)) with
           | None => Err UnknownVocabulary
           | Some r => Ok r
           end
       end).
    unfold check_subject. rewrite Hsj, H1. unfold check_request. cbn [required_reviewer_role]. rewrite H2.
    unfold texts_at. cbn [request_dict dget String.eqb]. subst r'. rewrite Hsj. unfold texts.
    by destruct (created_at r); cbn; rewrite texts_read.
  - unfold request_digest. subst r'. cbn [trace_event_ids subject request_id reason_for_review
      required_reviewer_role graph_digest rq_policy_digest risk_level created_at].
    by rewrite sort_str_again, Hsj.
Qed.

Lemma verify_receipt_same c r r' :
  request_digest sha256 r' = request_digest sha256 r -> request_id r' = request_id r ->
  subject r' = subject r -> verify_receipt sha256 c r' = verify_receipt sha256 c r.
Proof. unfold verify_receipt. by intros -> -> ->. Qed.

(** A resumed review is bound to the request the run was paused with: the
    decision, whether it was made beforehand or is made now, comes back with
    a receipt that verifies against that original request and leaves the
    saved state alone, or it is a timeout, or the run has failed. *)
Theorem resume_bound e answer dr r w w' d :
  good w -> status (rw_state w) = "waiting_for_review" -> persistable r ->
  dget "governed_review_request" (metadata (rw_state w)) = Some (VDict (request_dict sha256 r)) ->
  resume e answer dr w = (w', Ok d) ->
  good w' /\
  ((rw_state w' = rw_state w /\ rd_decision d ∈ ["approve"; "reject"; "request_revision"] /\
    exists c, rd_receipt_id d = Some (receipt_id c) /\ rd_decision_receipt d = receipt_dict sha256 c /\
      verify_receipt sha256 c r = true /\ outcome (rc_decision c) = rd_decision d) \/
   (rd_decision d = "timeout" /\ w' = w) \/
   (rd_decision d = "governance_failure" /\ status (rw_state w') = "failed" /\ rd_receipt_id d = None)).
Proof.
  intros Hg Hwait Hp Hmd. unfold resolve_resume_review. unfold io_bind at 1, get_state at 1.
  cbv zeta. set (legacy := dict_at "review_request" _). set (risk := dict_at "risk_assessment" legacy).
  unfold io_bind at 1. set (pick := match context_get "review_decision" _ with VNone => _ | _ => _ end).
  assert (Hpick : fst (pick w) = w).
  { subst pick. unfold lift, io_ret, io_raise. by repeat case_goal. }
  destruct (pick w) as [w0 [decision|x]]; simpl in Hpick; [|discriminate]. subst w0.
  destruct (rebuild_persisted r Hp) as (r' & Hr' & Hdig & Hid & Hsub & _).
  unfold dict_at at 1. rewrite Hmd.
  destruct (request_dict sha256 r) as [|kv l] eqn:Ereq; [discriminate|].
  unfold io_bind at 1. unfold lift. unfold io_bind at 1. rewrite Hr'.
  destruct (String.eqb_spec decision "timeout") as [->|Hn].
  { unfold io_ret, io_bind, get_state, is_failed_without_receipt. rewrite Hwait. cbn.
    intros [= <- <-]. split; [done|]. right. left. done. }
  destruct (materialize e dr decision r' risk _ w) as [w1 [i|x]] eqn:Em; [|discriminate].
  apply materialize_spec in Em as [Hg1 Hm]; [|done].
  unfold io_ret, io_bind, get_state, is_failed_without_receipt.
  destruct Hm as [(Hs1 & _ & (c & H1 & H2 & H3 & H4 & H5) & Hd)|[(_ & ? & _)|(-> & _ & Hf & _)]]; [|done|].
  - rewrite H1, andb_false_r. intros [= <- <-]. split; [done|]. left. split_and!; [done | done |].
    exists c. cbn. rewrite H1, H3. split_and!; [done..| |done].
    by rewrite <- (verify_receipt_same c r r').
  - rewrite Hf. cbn. intros [= <- <-]. split; [done|]. right. right. done.
Qed.
End Properties.

(** ** A short review *)

Definition demo_env (mode : string) : ReviewEnv := mkReviewEnv (Some mode) None (Some "alice").
Definition demo_tx (n : string) : Tx := mkTx ("ev-" +:+ n) "t1" "t2" true.
Definition demo_draws (now : Z) : Draws := mkDraws "t1" now "0a" "t1" (demo_tx "g").
Definition demo_risk : pyctx := [("risk_level", VStr "high"); ("confidence", VFloat three_tenths)].
Definition demo_world : RvWorld ChainState := mkRvWorld demo_start demo_tables [] [].
Definition demo_instants (t : string) : option Z := Some 0.

Abbreviation demo_review mode now :=
  (request_review demo_sha demo_instants as_object (demo_env mode) "approve" (demo_draws now)
     "t0" "t0" (demo_tx "p") (demo_tx "r") demo_risk 3 demo_world).
Abbreviation demo_resume mode now :=
  (resolve_resume_review demo_sha demo_instants as_object (demo_env mode) "approve" (demo_draws now)
     (fst (demo_review "pause" 5))).
Definition demo_asked : ReviewRequest :=
  build_governed_review_request demo_sha (demo_env "pause") demo_risk demo_start 3 "t0".

Lemma review_world_good : good (@Some ChainState) demo_world.
Proof.
  split; [|intros e He; by apply elem_of_nil in He].
  split; [vm_compute; reflexivity|]. split_and!; cbn; repeat constructor; set_solver.
Qed.

Definition decision_of (x : RvWorld ChainState * res review_error ReviewDecision) : string :=
  match snd x with Ok d => rd_decision d | Err _ => "" end.

Lemma review_fail_closed_witness :
  match demo_review "auto-reject" 5 with
  | (w', Ok d) => good (@Some ChainState) w' /\ review_mode (demo_env "auto-reject") <> "pause" /\
      reviewed demo_sha "reject"
        (build_governed_review_request demo_sha (demo_env "auto-reject") demo_risk (rw_state demo_world) 3 "t0") w' d
  | _ => False
  end.
Proof.
  destruct (demo_review "auto-reject" 5) as [w' [d|x]] eqn:E; [|vm_compute in E; discriminate].
  exact (review_fail_closed demo_sha demo_instants demo_sha_nonempty as_object (@Some ChainState)
    (fun x => eq_refl) (demo_env "auto-reject") "approve" (demo_draws 5) "t0" "t0" (demo_tx "p") (demo_tx "r")
    demo_risk 3 demo_world w' (Ok d) review_world_good E).
Defined.

(** A pause never names its run: the exception reads the outputs of the
    nodes, where no node writes it. *)
Example pause_names_no_run :
  snd (demo_review "pause" 5) = Err (ReviewPaused (VStr "unknown") (VInt 0)).
Proof. vm_compute. reflexivity. Qed.

(** Resumed past the age limit, the chain fails instead. *)
Example stale_resume_fails :
  match demo_resume "interactive" (10 ^ 12) with
  | (w', Ok d) => rd_decision d = "governance_failure" /\ status (rw_state w') = "failed" /\
      length (rw_attempts w') = 1%nat
  | _ => False
  end.
Proof. vm_compute. auto. Qed.

Lemma demo_paused_good : good (@Some ChainState) (fst (demo_review "pause" 5)).
Proof.
  destruct (demo_review "pause" 5) as [w' res] eqn:E.
  exact (proj1 (review_fail_closed_core demo_sha demo_instants demo_sha_nonempty as_object (@Some ChainState)
    (fun x => eq_refl) (demo_env "pause") "approve" (demo_draws 5) "t0" "t0" (demo_tx "p") (demo_tx "r")
    demo_risk 3 demo_world w' res review_world_good E)).
Qed.

Lemma resume_bound_witness :
  decision_of (demo_resume "interactive" 5) = "approve" /\
  good (@Some ChainState) (fst (demo_resume "interactive" 5)).
Proof.
  assert (Hd : decision_of (demo_resume "interactive" 5) = "approve") by (vm_compute; reflexivity).
  split; [exact Hd|].
  destruct (demo_resume "interactive" 5) as [w' [d|x]] eqn:E; [|discriminate].
  refine (proj1 (resume_bound demo_sha demo_instants demo_sha_nonempty as_object (@Some ChainState)
    (fun x => eq_refl) (demo_env "interactive") "approve" (demo_draws 5) demo_asked
    (fst (demo_review "pause" 5)) w' d demo_paused_good _ _ _ E)).
  - vm_compute. reflexivity.
  - split_and!; [apply mem_true | apply mem_true |]; vm_compute; reflexivity.
  - vm_compute. reflexivity.
Defined.
