(* ===== verification/TraceReconciler.v ===== *)
(** * The trace reconciler

    [runtime/trace_reconciler.py]: the audit that compares the events of a
    trace with the tables of its run.  A check is a function from events and
    rows to outcomes: a check passed or an issue; the report counts the first
    and keeps the second in order.  The two texts of an issue are left out, and
    so are the branches that swallow exceptions of queries the tables of the
    model always answer.  Identifiers in the metadata of events and receipts
    are read as texts, as every emitter writes them. *)
From S2P Require Import Prelude PyFloat PyValue Sql Contract ChainState StateStore Persistence.
From S2P Require Import ReviewWorkbench ReviewManager Trace.
From S2P Require SideEffectLedger DecisionLog RecoveryService.

Abbreviation Row := SideEffectLedger.Row.
Abbreviation Db := SideEffectLedger.Db.
Abbreviation cell := DecisionLog.cell.

(** ** Reports *)

Record ReconciliationIssue := mkIssue {
  check : string;
  severity : string;
  issue_node : string;
  issue_step : Z;
}.

Inductive outcome := Passed | Flag (i : ReconciliationIssue).

Definition err (c n : string) (s : Z) : outcome := Flag (mkIssue c "error" n s).
Definition warn (c n : string) (s : Z) : outcome := Flag (mkIssue c "warning" n s).

Record ReconciliationReport := mkReport {
  checks_passed : nat;
  report_issues : list ReconciliationIssue;
}.

Definition is_pass (o : outcome) : bool := match o with Passed => true | Flag _ => false end.
Definition issue_of (o : outcome) : option ReconciliationIssue :=
  match o with Passed => None | Flag i => Some i end.

Definition report_of (l : list outcome) : ReconciliationReport :=
  mkReport (count is_pass l) (omap issue_of l).

Definition errors (r : ReconciliationReport) : list ReconciliationIssue :=
  List.filter (fun i => severity i =? "error")%string (report_issues r).
Definition warnings (r : ReconciliationReport) : list ReconciliationIssue :=
  List.filter (fun i => severity i =? "warning")%string (report_issues r).
Definition is_clean (r : ReconciliationReport) : bool := negb (nonempty (errors r)).

(** ** Events *)

(** [str(e.event_type)]: the members of the enum are their values in upper
    case. *)
Definition enum_text (e : TraceEvent) : string := "EventType." +:+ upper (te_event_type e).
Definition tagged (t : string) (e : TraceEvent) : bool := contains t (enum_text e).

Definition node_of (e : TraceEvent) : string := default "" (te_node_id e).
Definition step_of (e : TraceEvent) : Z := default 0 (te_step_id e).
Definition meta (k : string) (e : TraceEvent) : string := text_at k "" (event_metadata e).

(** An issue at an event; a check at an event that passes or is an error. *)
Definition at_event (sev c : string) (e : TraceEvent) : outcome := Flag (mkIssue c sev (node_of e) (step_of e)).
Definition hold (c : string) (e : TraceEvent) (ok : bool) : outcome :=
  if ok then Passed else at_event "error" c e.

Inductive category :=
| NodeSucceeded | NodeFailed | BranchCompleted | BranchFailed
| EffectCompleted | EffectFailed | EffectBlocked | EffectStarted
| ReviewRequested | ReviewCompleted | NodeSkipped | JoinCompleted
| MemoryWriteAllowed | MemoryWriteBlocked | Other.

#[export] Instance category_eq_dec : EqDecision category.
Proof. solve_decision. Defined.

Definition category_of (e : TraceEvent) : category :=
  if tagged "NODE_SUCCEEDED" e || contains "node_completed" (lower (enum_text e)) then NodeSucceeded
  else if tagged "NODE_FAILED" e then NodeFailed
  else if tagged "BRANCH_COMPLETED" e then BranchCompleted
  else if tagged "BRANCH_FAILED" e then BranchFailed
  else if tagged "SIDE_EFFECT_COMPLETED" e then EffectCompleted
  else if tagged "SIDE_EFFECT_FAILED" e then EffectFailed
  else if tagged "SIDE_EFFECT_BLOCKED" e then EffectBlocked
  else if tagged "SIDE_EFFECT_STARTED" e then EffectStarted
  else if tagged "REVIEW_REQUESTED" e then ReviewRequested
  else if tagged "REVIEW_COMPLETED" e || tagged "HUMAN_REVIEW_COMPLETED" e then ReviewCompleted
  else if tagged "NODE_SKIPPED" e then NodeSkipped
  else if tagged "JOIN_COMPLETED" e then JoinCompleted
  else if tagged "MEMORY_WRITE_ALLOWED" e then MemoryWriteAllowed
  else if tagged "MEMORY_WRITE_BLOCKED" e then MemoryWriteBlocked
  else Other.

Definition of_category (c : category) (l : list TraceEvent) : list TraceEvent :=
  List.filter (fun e => bool_decide (category_of e = c)) l.

(** ** Steps *)

Definition node_at (s : Z) (steps : list (Z * string)) : option string :=
  option_map snd (List.find (fun x => fst x =? s) steps).

(** Check 1: a success at a step is the ledger's. *)
Definition check_succeeded (steps : list (Z * string)) (e : TraceEvent) : list outcome :=
  if step_of e =? 0 then []
  else match node_at (step_of e) steps with
       | Some n => [hold "node_succeeded_ledger_match" e (n =? node_of e)%string]
       | None => [at_event "warning" "node_succeeded_ledger_exists" e; Passed]
       end.

(** Check 2 *)
Definition check_failed (e : TraceEvent) : list outcome := [Passed].

Definition covers (x : Z * string) (e : TraceEvent) : bool :=
  (step_of e =? fst x) && (node_of e =? snd x)%string.

(** Check 3: a completed step is in the trace, or at least in the journal. *)
Definition check_covered (succeeded : list TraceEvent) (journal : list EventRow) (x : Z * string)
  : list outcome :=
  if existsb (covers x) succeeded then [Passed]
  else if existsb (fun r => bool_decide (er_step_id r = Some (fst x))) journal
  then [warn "ledger_trace_coverage" (snd x) (fst x); Passed; Passed]
  else [err "ledger_trace_coverage" (snd x) (fst x); Passed].

(** Check 6 *)
Definition check_terminal (events : list TraceEvent) (final_status : option string) : list outcome :=
  if existsb (fun e => tagged "CHAIN_COMPLETED" e || tagged "CHAIN_FAILED" e) events then [Passed]
  else match final_status with
       | Some s => if mem s ["completed"; "failed"] then [Passed] else [warn "chain_terminal_status" "" 0]
       | None => [warn "chain_terminal_status" "" 0]
       end.

(** Check 9: the stored state and the ledger name the same steps. *)
Definition check_state_steps (state : option ChainState) (steps : list (Z * string)) : list outcome :=
  match state with
  | Some s =>
      if nonempty (completed_steps s) then
        map (fun x => match node_at (fst x) steps with
                      | Some n => if (n =? snd x)%string then Passed
                                  else err "state_ledger_step_mapping" (snd x) (fst x)
                      | None => err "state_ledger_step_mapping" (snd x) (fst x)
                      end) (completed_steps s)
        ++ flat_map (fun x => match node_at (fst x) (completed_steps s) with
                              | Some _ => []
                              | None => [warn "state_ledger_step_mapping" (snd x) (fst x)]
                              end) steps
      else []
  | None => []
  end.

(** Check 10: one node per step, in the trace and in the ledger; the map of
    what was seen first. *)
Fixpoint check_trace_unique (seen : list (Z * string)) (l : list TraceEvent)
  : list outcome * list (Z * string) :=
  match l with
  | [] => ([], seen)
  | e :: l =>
      if step_of e =? 0 then check_trace_unique seen l
      else match node_at (step_of e) seen with
           | Some n =>
               let '(o, s) := check_trace_unique seen l in
               ((if (n =? node_of e)%string then [] else [at_event "error" "trace_step_id_uniqueness" e]) ++ o, s)
           | None => check_trace_unique (seen ++ [(step_of e, node_of e)]) l
           end
  end.

Fixpoint check_ledger_unique (seen : list (Z * string)) (l : list (Z * string)) : list outcome :=
  match l with
  | [] => []
  | x :: l =>
      match node_at (fst x) seen with
      | Some _ => err "ledger_step_id_uniqueness" (snd x) (fst x) :: check_ledger_unique seen l
      | None => check_ledger_unique (seen ++ [x]) l
      end
  end.

Definition check_unique (succeeded : list TraceEvent) (steps : list (Z * string)) : list outcome :=
  let '(o, seen) := check_trace_unique [] succeeded in
  o ++ check_ledger_unique [] steps ++ (if nonempty seen && nonempty steps then [Passed] else []).

(** ** Side effects *)

Definition canon (raw : string) : string :=
  match normalize_side_effect_type raw with
  | Some c => if str_truthy c then c else raw
  | None => raw
  end.

(** [a or b] *)
Definition or_else (a b : string) : string := if str_truthy a then a else b.

(** Both given, and not the same. *)
Definition differs (a b : string) : bool := str_truthy a && str_truthy b && negb (a =? b)%string.
Definition steps_differ (a b : Z) : bool := negb (a =? 0) && negb (b =? 0) && negb (a =? b).

Definition opt_or (a b : option string) : string := or_else (default "" a) (default "" b).

(** [_strong_bind]: the errors between an event and its row. *)
Definition strong_bind (c : string) (e : TraceEvent) (r : Row) : list outcome :=
  let flag (b : bool) := if b then [at_event "error" c e] else [] in
  flag (differs (node_of e) (SideEffectLedger.node_id r))
  ++ flag (steps_differ (step_of e) (SideEffectLedger.step_id r))
  ++ flag (differs (canon (meta "effect_type" e)) (canon (SideEffectLedger.side_effect_type r)))
  ++ flag (differs (meta "request_hash" e) (default "" (SideEffectLedger.request_hash r)))
  ++ flag (differs (or_else (meta "response_hash" e) (meta "external_reference" e))
             (opt_or (SideEffectLedger.response_hash r) (SideEffectLedger.external_reference r))).

Section Reconciler.
(** The order in which Python iterates over a set, and SHA-256. *)
Context (list_of_set : list string -> list string) (sha256 : string -> string).

(** The keys of the events, as a set; the last event of a key; the row of a
    key. *)
Definition keys_of (k : string) (l : list TraceEvent) : list string :=
  list_of_set (py_set (List.filter str_truthy (map (meta k) l))).
Definition event_of (key : string) (l : list TraceEvent) : option TraceEvent :=
  List.find (fun e => (meta "idempotency_key" e =? key)%string) (reverse l).
Definition row_of (key : string) (rows : list Row) : option Row :=
  List.find (fun r => (SideEffectLedger.idempotency_key r =? key)%string) (reverse rows).

(** Checks 4a, 4b, 4f: the row of a keyed event has one of the statuses. *)
Definition check_keyed (missing bound : string) (statuses : list string) (rows : list Row)
  (l : list TraceEvent) : list outcome :=
  flat_map (fun key =>
    match row_of key rows with
    | None => [err missing "" 0]
    | Some r =>
        if negb (mem (SideEffectLedger.status r) statuses)
        then [err missing "" (SideEffectLedger.step_id r)]
        else Passed :: match event_of key l with Some e => strong_bind bound e r | None => [] end
    end) (keys_of "idempotency_key" l).

Definition has_status (s : string) (r : Row) : bool := (SideEffectLedger.status r =? s)%string.

(** Check 4c *)
Definition check_completed_covered (completed : list TraceEvent) (r : Row) : list outcome :=
  if has_status "completed" r then
    [if mem (SideEffectLedger.idempotency_key r) (keys_of "idempotency_key" completed) then Passed
     else warn "side_effect_ledger_trace_coverage" "" (SideEffectLedger.step_id r)]
  else [].

(** Checks 4d, 4e *)
Definition check_unknown (rows : list Row) : list outcome :=
  [if existsb (has_status "unknown") rows then warn "side_effect_recovery_required" "" 0 else Passed].
Definition check_count (completed : list TraceEvent) (rows : list Row) : list outcome :=
  (if Nat.eqb (length completed) (count (has_status "completed") rows) then []
   else [warn "side_effect_count_match" "" 0]) ++ [Passed].

(** Check 4f, the other way *)
Definition check_failed_covered (failed : list TraceEvent) (r : Row) : list outcome :=
  if has_status "failed" r && negb (mem (SideEffectLedger.idempotency_key r) (keys_of "idempotency_key" failed))
  then [warn "side_effect_failed_trace_coverage" "" (SideEffectLedger.step_id r)] else [].

Definition int_cell (k : string) (r : pyctx) : Z := match cell k r with VInt z => z | _ => 0 end.
Definition text_cell (k : string) (r : pyctx) : string := match cell k r with VStr s => s | _ => "" end.

(** Check 4g: a blocked effect has a row that blocks it. *)
Definition check_blocked (blocked : list TraceEvent) (rows : list pyctx) : list outcome :=
  let ids := keys_of "attempt_id" blocked in
  flat_map (fun aid =>
    match List.find (fun r => (text_cell "attempt_id" r =? aid)%string) rows with
    | None => [err "side_effect_blocked_ledger_match" "" 0]
    | Some r =>
        [if mem (text_cell "decision" r) ["deny"; "require_approval"] then Passed
         else err "side_effect_blocked_ledger_match" "" (int_cell "step_id" r)]
    end) ids
  ++ flat_map (fun r => if mem (text_cell "attempt_id" r) ids then []
                        else [warn "side_effect_blocked_trace_coverage" "" (int_cell "step_id" r)]) rows.

(** Check 4h: a type is declared by the contract of its node. *)
Definition declared_types (c : NodeContract) : list string :=
  py_set (List.filter str_truthy
    (omap (fun se => normalize_side_effect_type (effect_type se)) (Contract.side_effects c))).
Definition check_declared (nodes : dict NodeContract) (nid type : string) (stp : Z) : list outcome :=
  match dget nid nodes with
  | Some c => if mem (canon type) (declared_types c) then []
              else [err "side_effect_declared_type_match" nid stp]
  | None => [warn "side_effect_declared_type_match" nid stp]
  end.
Definition check_row_declared (nodes : dict NodeContract) (r : Row) : list outcome :=
  check_declared nodes (SideEffectLedger.node_id r) (SideEffectLedger.side_effect_type r) (SideEffectLedger.step_id r).
Definition check_event_declared (nodes : dict NodeContract) (e : TraceEvent) : list outcome :=
  check_declared nodes (node_of e) (meta "effect_type" e) (step_of e).

(** ** Recovery *)

Definition LEGAL_STATES : list string :=
  ["planned"; "started"; "completed"; "failed"; "unknown"; "retry_authorized"].

(** SE-R3 *)
Definition check_legal (r : Row) : list outcome :=
  if mem (SideEffectLedger.status r) LEGAL_STATES then []
  else [err "side_effect_illegal_transition" (SideEffectLedger.node_id r) (SideEffectLedger.step_id r)].

Definition decision_step (d : SideEffectLedger.RecoveryDecision) : Z := default 0 (SideEffectLedger.rd_step_id d).

(** SE-R4 *)
Definition check_decision_row (rows : list Row) (d : SideEffectLedger.RecoveryDecision) : list outcome :=
  if str_truthy (SideEffectLedger.rd_key d) && negb (not_null (row_of (SideEffectLedger.rd_key d) rows))
  then [err "side_effect_recovery_missing_ledger" "" (decision_step d)] else [].

(** What a decision leaves its row in. *)
Definition decided_status (d : SideEffectLedger.RecoveryDecision) : option string :=
  dget (SideEffectLedger.rd_decision d)
    [("verified_completed", "completed"); ("verified_failed", "failed"); ("safe_to_retry", "retry_authorized")].

(** SE-R5 *)
Definition check_decision_status (rows : list Row) (d : SideEffectLedger.RecoveryDecision) : list outcome :=
  match row_of (SideEffectLedger.rd_key d) rows, decided_status d with
  | Some r, Some s => if has_status s r then [] else [err "side_effect_recovery_conflict" "" (decision_step d)]
  | _, _ => []
  end.

(** SE-R5c *)
Definition authorizes (key : string) (d : SideEffectLedger.RecoveryDecision) : bool :=
  (SideEffectLedger.rd_decision d =? "safe_to_retry")%string
  && (SideEffectLedger.rd_retention_status d =? "active")%string && (SideEffectLedger.rd_key d =? key)%string.
Definition check_retry_decided (decisions : list SideEffectLedger.RecoveryDecision) (r : Row) : list outcome :=
  if has_status "retry_authorized" r && negb (existsb (authorizes (SideEffectLedger.idempotency_key r)) decisions)
  then [err "side_effect_retry_missing_safe_to_retry" "" (SideEffectLedger.step_id r)] else [].

Definition in_status (l : list string) (a : SideEffectLedger.ExecutionAction) : bool :=
  mem (SideEffectLedger.execution_status a) l.
Definition active (a : SideEffectLedger.ExecutionAction) : bool :=
  in_status ["created"; "claimed"; "dispatch_started"] a.
Definition claim_text (c : option string) : string := default "" c.

(** An action that cannot be without the dispatch mark of its child. *)
Definition requires_boundary (a : SideEffectLedger.ExecutionAction) : bool :=
  in_status ["dispatch_started"; "completed"; "unknown"] a
  || (in_status ["failed"] a
      && (default "" (SideEffectLedger.outcome_code a) =? "adapter_confirmed_no_effect")%string).

(** SE-R6f and SE-R6g for one action of a child. *)
Definition check_action (r : Row) (a : SideEffectLedger.ExecutionAction) : list outcome :=
  let stp := SideEffectLedger.step_id r in
  (if requires_boundary a && negb (not_null (SideEffectLedger.dispatch_attempted_at r))
   then [err "side_effect_retry_action_dispatch_without_boundary" "" stp] else [])
  ++ (if mem (SideEffectLedger.status r) ["completed"; "failed"; "unknown"] && active a
      then [warn "side_effect_retry_unfinalized_action" "" stp] else [])
  ++ (if in_status ["completed"; "failed"; "unknown"] a
         && negb (has_status (SideEffectLedger.execution_status a) r)
      then [err "side_effect_retry_action_child_mismatch" "" stp] else []).

(** SE-R6: a recovery child, its parent and its actions. *)
Definition check_child (rows : list Row) (actions : list SideEffectLedger.ExecutionAction) (r : Row)
  : list outcome :=
  let parent := default "" (SideEffectLedger.parent_side_effect_key r) in
  let stp := SideEffectLedger.step_id r in
  let mine := List.filter (fun a => (SideEffectLedger.retry_attempt_key a =? SideEffectLedger.idempotency_key r)%string)
                actions in
  let current := List.filter active mine in
  if negb (str_truthy parent) then []
  else
    match row_of parent rows with
    | None => [err "side_effect_retry_orphan_child" "" stp]
    | Some p => if has_status "retry_authorized" p then [] else [err "side_effect_retry_parent_not_authorized" "" stp]
    end
    ++ (if nonempty mine then [] else [warn "side_effect_retry_missing_action" "" stp])
    ++ (if has_status "planned" r && not_null (SideEffectLedger.dispatch_attempted_at r)
        then [err "side_effect_retry_premature_dispatch" "" stp] else [])
    ++ (if (1 <? length current)%nat then [err "side_effect_retry_multiple_active_actions" "" stp] else [])
    ++ (if has_status "started" r then
          if negb (str_truthy (claim_text (SideEffectLedger.execution_claim_id r)))
          then [err "side_effect_retry_action_claim_mismatch" "" stp]
          else if Nat.eqb (count (fun a => sql_eq (SideEffectLedger.act_claim_id a) (SideEffectLedger.execution_claim_id r)
                                           && in_status ["claimed"; "dispatch_started"] a) current) 1
          then [] else [err "side_effect_retry_action_claim_mismatch" "" stp]
        else [])
    ++ flat_map (check_action r) mine.

(** The isolation of nodes whose origin a caller attached: none does. *)
Definition check_isolated (o : string * pyctx) : list outcome :=
  if mem (text_at "origin" "built_in" (snd o)) ["local_registry"; "remote_registry"]
     && mem (text_at "trust_level" "local_untrusted" (snd o)) ["local_untrusted"; "remote_untrusted"]
     && negb (text_at "isolation_mode" "in_process" (snd o) =? "subprocess")%string
  then [err "trust_isolation_required" "" 0] else [].

(** [_check_side_effect_trace_ledger] *)
Definition check_side_effect_trace_ledger (nodes : dict NodeContract) (origins : list (string * pyctx))
  (events : list TraceEvent) (rows : list Row) (blocks : list pyctx)
  (decisions : list SideEffectLedger.RecoveryDecision) (actions : list SideEffectLedger.ExecutionAction)
  : list outcome :=
  let completed := of_category EffectCompleted events in
  let started := of_category EffectStarted events in
  let failed := of_category EffectFailed events in
  map (fun _ => Passed) completed ++ map (fun _ => Passed) started
  ++ check_keyed "side_effect_trace_ledger_match" "side_effect_strong_bind_completed" ["completed"] rows completed
  ++ check_keyed "side_effect_started_ledger_match" "side_effect_strong_bind_started"
       ["started"; "completed"; "failed"; "unknown"] rows started
  ++ flat_map (check_completed_covered completed) rows
  ++ check_unknown rows ++ check_count completed rows
  ++ check_keyed "side_effect_failed_ledger_match" "side_effect_strong_bind_failed" ["failed"] rows failed
  ++ flat_map (check_failed_covered failed) rows
  ++ check_blocked (of_category EffectBlocked events) blocks
  ++ flat_map (check_row_declared nodes) rows
  ++ flat_map (check_event_declared nodes) (started ++ completed ++ failed)
  ++ flat_map check_legal rows
  ++ flat_map (check_decision_row rows) decisions
  ++ flat_map (check_decision_status rows) decisions
  ++ flat_map (check_retry_decided decisions) rows
  ++ flat_map (check_child rows actions) rows
  ++ flat_map check_isolated origins ++ [Passed].

(** ** Reviews *)

Definition stored_dict (k : string) (state : option ChainState) : option pyctx :=
  match state with
  | Some s => match context_get k (metadata s) with VDict d => Some d | _ => None end
  | None => None
  end.

(** The receipt that is stored, as an object again; [None] when its decision
    is outside the vocabulary.  A time that is missing reads as empty. *)
Definition rebuild_receipt (d : pyctx) : option DecisionReceipt :=
  let dec := dict_at "decision" d in
  decision ← check_decision
    (mkDecision (text_at "decision_type" "" dec) (text_at "request_id" "" dec)
       (text_at "reviewer_identity" "" dec) (text_at "reviewer_role" "operator" dec)
       (text_at "rationale" "" dec) (text_at "request_digest" "" dec) (text_at "subject_digest" "" dec)
       (text_at "policy_digest" "" dec) (text_at "decided_at" "" dec)
       (text_at "authority_source" "reviewer_policy" dec));
  Some (mkReceipt (text_at "receipt_id" "" d) decision (text_at "request_id" "" d)
          (text_at "request_digest" "" d) (text_at "subject_type" "chain_review" d)
          (text_at "subject_id" "" d) (text_at "subject_digest" "" d) (text_at "policy_digest" "" d)
          (text_at "schema_version" "1.0.0" d) (text_at "created_at" "" d) (text_at "digest_commitment" "" d)).

Definition recomputed_receipt_digest (receipt : option pyctx) : string :=
  match receipt with
  | Some ((_ :: _) as d) =>
      match rebuild_receipt d with Some r => receipt_digest sha256 r | None => "" end
  | _ => ""
  end.

Definition recomputed_request_digest (request : option pyctx) : string :=
  match request with
  | Some ((_ :: _) as d) =>
      match rebuild_governed_review_request d with Ok r => request_digest sha256 r | Err _ => "" end
  | _ => ""
  end.

Definition receipt_keys : list string := ["receipt_id"; "receipt_digest"; "request_id"; "request_digest"].

(** The comparisons of a completed review with the stored receipt. *)
Definition bind_receipt (request : option pyctx) (r : pyctx) (e : TraceEvent) : list outcome :=
  let recomputed := recomputed_receipt_digest (Some r) in
  let request_recomputed := recomputed_request_digest request in
  let stored := text_at "receipt_digest" "" r in
  let subject := text_at "subject_type" "" r in
  [ hold "review_receipt_id_mismatch" e (meta "receipt_id" e =? text_at "receipt_id" "" r)%string;
    (if negb (meta "receipt_digest" e =? stored)%string then at_event "error" "review_receipt_digest_mismatch" e
     else if str_truthy recomputed && negb (stored =? recomputed)%string
     then at_event "error" "review_receipt_digest_tamper" e else Passed);
    hold "review_request_id_mismatch" e (meta "request_id" e =? text_at "request_id" "" r)%string;
    hold "review_request_digest_mismatch" e (meta "request_digest" e =? text_at "request_digest" "" r)%string;
    (if differs (meta "subject_type" e) subject then at_event "warning" "review_subject_type_mismatch" e
     else if str_truthy subject && negb (subject =? "chain_review")%string
     then at_event "warning" "review_subject_type_unexpected" e else Passed);
    hold "review_receipt_not_committed" e (truthy (context_get "is_committed" r)) ]
  ++ (if str_truthy request_recomputed
      then [hold "review_request_digest_request_mismatch" e
              (text_at "request_digest" "" r =? request_recomputed)%string]
      else []).

Definition check_review_receipt (receipt request : option pyctx) (e : TraceEvent) : list outcome :=
  if (event_decision e =? "governance_failure")%string then
    [hold "governance_failure_with_receipt" e match receipt with Some (_ :: _) => false | _ => true end]
  else if (event_decision e =? "timeout")%string then [Passed]
  else if negb (forallb (fun k => str_truthy (meta k e)) receipt_keys)
  then [at_event "error" "review_receipt_metadata_missing" e]
  else match receipt with
       | None => [at_event "error" "review_receipt_state_missing" e]
       | Some r => bind_receipt request r e
       end.

(** [_check_review_receipt_binding] *)
Definition check_review_receipt_binding (state : option ChainState) (events : list TraceEvent) : list outcome :=
  (if nonempty (of_category ReviewRequested events) then [Passed] else [])
  ++ flat_map (check_review_receipt (stored_dict "governed_decision_receipt" state)
                 (stored_dict "governed_review_request" state))
       (of_category ReviewCompleted events).

(** Rows that do not agree on some column. *)
Definition conflict (keys : list string) (rows : list pyctx) : bool :=
  match rows with
  | [] => false
  | r :: rows => existsb (fun k => existsb (fun x => negb (py_eq (cell k x) (cell k r))) rows) keys
  end.
Definition memory_decisions_conflict : list pyctx -> bool :=
  conflict ["decision"; "write_ref"; "rule_id"; "candidate_digest"].
Definition admitted_attempts_conflict : list pyctx -> bool :=
  conflict ["request_digest"; "attempted_outcome"; "reviewer_identity"; "subject_id"; "subject_type"].

(** The audit triangle of an admitted attempt: trace, attempt, receipt. *)
Definition bind_attempt (receipt : option pyctx) (att : pyctx) (e : TraceEvent) : list outcome :=
  let subject := text_cell "subject_type" att in
  [ hold "review_attempt_request_digest_mismatch" e
      (negb (differs (meta "request_digest" e) (text_cell "request_digest" att)));
    hold "review_attempt_subject_type_unexpected" e
      (negb (str_truthy subject && negb (subject =? "chain_review")%string)) ]
  ++ match receipt with
     | Some ((_ :: _) as r) =>
         let dec := dict_at "decision" r in
         [ hold "review_attempt_request_id_receipt_mismatch" e
             (negb (differs (text_cell "request_id" att) (text_at "request_id" "" r)));
           hold "review_attempt_request_digest_receipt_mismatch" e
             (negb (differs (text_cell "request_digest" att) (text_at "request_digest" "" r)));
           hold "review_attempt_subject_type_receipt_mismatch" e
             (negb (differs subject (text_at "subject_type" "" r)));
           hold "review_attempt_outcome_receipt_mismatch" e
             (py_eq (cell "attempted_outcome" att) (context_get "outcome" dec));
           hold "review_attempt_subject_id_mismatch" e
             (negb (differs (text_cell "subject_id" att) (text_at "subject_id" "" r)));
           hold "review_attempt_reviewer_identity_mismatch" e
             (negb (differs (text_cell "reviewer_identity" att) (text_at "reviewer_identity" "" dec))) ]
     | _ => []
     end.

Definition is_admitted (a : pyctx) : bool := truthy (cell "admitted" a).

Definition check_review_attempt (receipt : option pyctx) (attempts : list pyctx) (e : TraceEvent) : list outcome :=
  if (event_decision e =? "timeout")%string then (if nonempty attempts then [] else [Passed])
  else if (event_decision e =? "governance_failure")%string then
    match List.filter (fun a => negb (is_admitted a)) attempts with
    | [] => [at_event "error" "review_attempt_log_missing" e]
    | [a] => [hold "review_attempt_rejection_mismatch" e
                (negb (differs (meta "rejection_reason" e) (text_cell "rejection_reason" a)))]
    | _ => [at_event "error" "review_attempt_duplicate_failure" e]
    end
  else
    match List.filter is_admitted attempts with
    | [] => [at_event "error" "review_attempt_log_missing" e]
    | (a :: rest) as l =>
        (if nonempty rest then
           [if admitted_attempts_conflict l then at_event "error" "review_attempt_duplicate_conflict" e
            else at_event "warning" "review_attempt_duplicate_admitted" e]
         else [])
        ++ bind_attempt receipt a e
    end.

(** [_check_review_attempt_binding]; the events of a trace are of its run. *)
Definition check_review_attempt_binding (run : string) (state : option ChainState) (attempts : list pyctx)
  (events : list TraceEvent) : list outcome :=
  flat_map (check_review_attempt (stored_dict "governed_decision_receipt" state)
              (List.filter (fun a => (text_cell "run_id" a =? run)%string) attempts))
    (of_category ReviewCompleted events).

(** ** Memory *)

(** [_bind_event] of a memory write. *)
Definition check_memory_write (decisions : list pyctx) (expected : list string) (e : TraceEvent) : list outcome :=
  let digest := meta "candidate_digest" e in
  let blocked := negb (mem "allow" expected) in
  match (if str_truthy digest
         then List.filter (fun d => (text_cell "candidate_digest" d =? digest)%string) decisions else []) with
  | [] => [at_event "error" "memory_decision_log_missing" e]
  | (row :: rest) as rows =>
      let ref := text_cell "write_ref" row in
      (if nonempty rest then
         [if memory_decisions_conflict rows then at_event "error" "memory_decision_duplicate_conflict" e
          else at_event "warning" "memory_decision_duplicate" e]
       else [])
      ++ [ hold "memory_decision_type_mismatch" e (mem (text_cell "decision" row) expected);
           (if negb blocked && negb (str_truthy ref)
            then at_event "error" "memory_decision_allow_missing_write_ref" e
            else if blocked && str_truthy ref
            then at_event "error" "memory_decision_blocked_has_write_ref" e else Passed);
           hold "memory_write_ref_mismatch" e (negb (negb blocked && differs (meta "write_ref" e) ref));
           hold "memory_rule_id_mismatch" e (negb (differs (meta "rule_id" e) (text_cell "rule_id" row))) ]
  end.

(** [_check_memory_decision_binding] *)
Definition check_memory_decision_binding (decisions : list pyctx) (events : list TraceEvent) : list outcome :=
  flat_map (check_memory_write decisions ["allow"]) (of_category MemoryWriteAllowed events)
  ++ flat_map (check_memory_write decisions ["deny"; "skip"]) (of_category MemoryWriteBlocked events).

Definition row_by_id (id : string) (rows : list pyctx) : option pyctx :=
  List.find (fun d => (text_cell "decision_id" d =? id)%string) (reverse rows).

Definition check_memory_read (decisions : list pyctx) (e : TraceEvent) : list outcome :=
  let id := meta "decision_id" e in
  if tagged "MEMORY_READ_ALLOWED" e then
    [hold "memory_read_allowed_without_decision" e (negb (str_truthy id) || not_null (row_by_id id decisions))]
  else if tagged "MEMORY_READ_DENIED" e && str_truthy id then
    match List.find (fun d => (text_cell "decision_id" d =? id)%string) decisions with
    | Some d => if truthy (cell "exposed_to_node" d)
                then [at_event "error" "memory_read_denied_but_exposed" e] else []
    | None => []
    end
  else [].

(** MR-3 *)
Definition check_read_traced (events : list TraceEvent) (d : pyctx) : list outcome :=
  let id := text_cell "decision_id" d in
  if (text_cell "decision" d =? "allow")%string && str_truthy id
     && negb (existsb (fun e => tagged "MEMORY_READ" e && (meta "decision_id" e =? id)%string) events)
  then [warn "memory_read_allow_without_trace" (text_cell "node_id" d) (int_cell "step_id" d)] else [].

(** [_check_memory_read_binding] *)
Definition check_memory_read_binding (decisions : list pyctx) (events : list TraceEvent) : list outcome :=
  flat_map (check_memory_read decisions) events ++ flat_map (check_read_traced events) decisions.

(** ** Adapters *)

(** A row of the node and the step of the event. *)
Definition same_turn (d : pyctx) (e : TraceEvent) : bool :=
  py_eq (cell "node_id" d) (VStr (node_of e)) && py_eq (cell "step_id" d) (VInt (step_of e)).
Definition allows (d : pyctx) : bool := py_eq (cell "decision" d) (VStr "allow").

(** AA-3 for the ids of one polarity. *)
Definition check_adapter_ids (decisions : list pyctx) (polarity : string) (e : TraceEvent) (ids : list string)
  : list outcome :=
  flat_map (fun id =>
    match row_by_id id decisions with
    | None => [at_event "error" "adapter_access_trace_missing_durable" e]
    | Some d =>
        if negb (py_eq (cell "decision" d) (VStr polarity))
        then [at_event "error" "adapter_access_polarity_mismatch" e]
        else if negb (same_turn d e) then [at_event "error" "adapter_access_identity_mismatch" e] else []
    end) ids.

Definition ids_at (k : string) (e : TraceEvent) : list string := texts_at k (event_metadata e).

Definition check_adapter_event (decisions : list pyctx) (e : TraceEvent) : list outcome :=
  if negb (tagged "ADAPTER_ACCESS" e) then []
  else check_adapter_ids decisions "allow" e (ids_at "allow_decision_ids" e)
       ++ check_adapter_ids decisions "deny" e (ids_at "deny_decision_ids" e)
       ++ flat_map (fun id => match row_by_id id decisions with
                              | None => [at_event "error" "adapter_access_trace_missing_durable" e]
                              | Some _ => []
                              end) (ids_at "decision_ids" e).

(** AA-1 *)
Definition check_adapter_call (decisions : list pyctx) (e : TraceEvent) : list outcome :=
  let adapter := meta "adapter" e in
  if tagged "TOOL_CALLED" e && str_truthy adapter
     && negb (existsb (fun d => allows d && same_turn d e && (text_cell "adapter_name" d =? adapter)%string) decisions)
  then [at_event "error" "adapter_call_without_allow" e] else [].

(** AA-2 *)
Definition calls (adapter : string) (e c : TraceEvent) : bool :=
  tagged "TOOL_CALLED" c && (meta "adapter" c =? adapter)%string && (node_of c =? node_of e)%string
  && (step_of c =? step_of e).
Definition check_adapter_denied (events : list TraceEvent) (e : TraceEvent) : list outcome :=
  if tagged "ADAPTER_ACCESS_DENIED" e then
    flat_map (fun a => if existsb (calls a e) events then [at_event "error" "adapter_denied_but_called" e] else [])
      (ids_at "ungranted" e)
  else [].

(** [_check_adapter_access_binding] *)
Definition check_adapter_access_binding (decisions : list pyctx) (events : list TraceEvent) : list outcome :=
  flat_map (check_adapter_event decisions) events ++ flat_map (check_adapter_call decisions) events
  ++ flat_map (check_adapter_denied events) events.

(** ** Package trust *)

Definition PRIVILEGED_EVENT_SUBSTRINGS : list string :=
  ["TOOL_ACCESS_ALLOWED"; "ADAPTER_ACCESS_ALLOWED"; "MEMORY_READ_ALLOWED"; "MEMORY_READ_EXPOSED";
   "MEMORY_WRITE_ALLOWED"; "SIDE_EFFECT_STARTED"; "SIDE_EFFECT_COMPLETED"; "MODEL_CALLED"].
Definition privileged (e : TraceEvent) : bool := existsb (fun t => tagged t e) PRIVILEGED_EVENT_SUBSTRINGS.

(** PT-1, PT-4 *)
Definition check_privileged (decisions : list pyctx) (e : TraceEvent) : list outcome :=
  if negb (privileged e) then []
  else if existsb (fun d => negb (allows d) && same_turn d e) decisions
  then [at_event "error" "package_trust_denied_with_privileged_event" e]
  else if negb (existsb (fun d => allows d && same_turn d e) decisions) && nonempty decisions
  then [at_event "error" "package_trust_missing_for_privileged_event" e] else [].

Definition trust_fields : list string := ["origin"; "observed_trust_level"; "package_digest"].

(** PT-2, PT-3 *)
Definition check_trust_event (decisions : list pyctx) (e : TraceEvent) : list outcome :=
  let id := meta "decision_id" e in
  let flag (b : bool) c := if b then [at_event "error" c e] else [] in
  if negb (tagged "PACKAGE_TRUST" e && str_truthy id) then []
  else match row_by_id id decisions with
       | None => [at_event "error" "package_trust_trace_missing_durable" e]
       | Some d =>
           flag (negb (py_eq (cell "decision" d) (VStr (if tagged "ALLOWED" e then "allow" else "deny"))))
             "package_trust_polarity_mismatch"
           ++ flag (negb (py_eq (cell "node_id" d) (VStr (node_of e)))) "package_trust_identity_mismatch"
           ++ flag (negb (py_eq (cell "step_id" d) (VInt (step_of e)))) "package_trust_identity_mismatch"
           ++ flag (match context_get "is_privileged" (event_metadata e) with
                    | VNone => false
                    | v => negb (Bool.eqb (truthy v) (truthy (cell "is_privileged" d)))
                    end) "package_trust_metadata_mismatch"
           ++ flat_map (fun k =>
                if negb (str_truthy (meta k e)) then [at_event "error" "package_trust_metadata_missing" e]
                else flag (differs (meta k e) (text_cell k d)) "package_trust_metadata_mismatch") trust_fields
       end.

(** [_check_package_trust_binding] *)
Definition check_package_trust_binding (decisions : list pyctx) (events : list TraceEvent) : list outcome :=
  flat_map (check_privileged decisions) events ++ flat_map (check_trust_event decisions) events.

(** ** The reconciliation *)

(** The trace, as far as it is compared. *)
Record ChainTrace := mkChainTrace {
  tr_run_id : string;
  tr_events : list TraceEvent;
  tr_final_status : option string;
}.

(** What the tables hold for the run. *)
Record Facts := mkFacts {
  f_steps : list (Z * string);
  f_journal : list EventRow;
  f_state : option ChainState;
  f_effects : list Row;
  f_decisions : list SideEffectLedger.RecoveryDecision;
  f_actions : list SideEffectLedger.ExecutionAction;
  f_blocks : list pyctx;
  f_attempts : list pyctx;
  f_memory : list pyctx;
  f_reads : list pyctx;
  f_adapters : list pyctx;
  f_trust : list pyctx;
}.

Definition audit (nodes : dict NodeContract) (origins : list (string * pyctx)) (t : ChainTrace) (f : Facts)
  : list outcome :=
  let events := tr_events t in
  let succeeded := of_category NodeSucceeded events in
  flat_map (check_succeeded (f_steps f)) succeeded
  ++ flat_map check_failed (of_category NodeFailed events)
  ++ flat_map (check_covered succeeded (f_journal f)) (f_steps f)
  ++ check_side_effect_trace_ledger nodes origins events (f_effects f) (f_blocks f) (f_decisions f) (f_actions f)
  ++ check_review_receipt_binding (f_state f) events
  ++ check_review_attempt_binding (tr_run_id t) (f_state f) (f_attempts f) events
  ++ check_memory_decision_binding (f_memory f) events
  ++ check_memory_read_binding (f_reads f) events
  ++ check_adapter_access_binding (f_adapters f) events
  ++ check_package_trust_binding (f_trust f) events
  ++ check_terminal events (tr_final_status t)
  ++ map (fun _ => Passed) (of_category BranchCompleted events ++ of_category BranchFailed events)
  ++ map (fun _ => Passed) (of_category JoinCompleted events)
  ++ check_state_steps (f_state f) (f_steps f)
  ++ check_unique succeeded (f_steps f).

Section Reconcile.
Context {Json : Type} (parse : Json -> option ChainState).

(** The rows of the run; [logs] are the decision logs by table. *)
Definition load_facts (run : string) (st : Store Json) (db : Db) (logs : dict (list pyctx)) : Facts :=
  let log (sc : DecisionLog.Schema) := dget_or (DecisionLog.table_name sc) [] logs in
  mkFacts (get_completed_steps run st) (get_events run st) (load parse run st)
    (SideEffectLedger.get_side_effects run db) (RecoveryService.get_recovery_decisions run db)
    (SideEffectLedger.get_recovery_execution_actions (Some run) None db)
    (DecisionLog.get_side_effect_blocks (Some run) None None (log DecisionLog.side_effect_blocked_attempts))
    (DecisionLog.get_review_attempts None None None (log DecisionLog.review_decision_attempts))
    (DecisionLog.get_memory_decisions (Some run) None None (log DecisionLog.memory_decisions))
    (DecisionLog.get_memory_read_decisions (Some run) None None (log DecisionLog.memory_read_decisions))
    (DecisionLog.get_adapter_access_decisions (Some run) None None (log DecisionLog.adapter_access_decisions))
    (DecisionLog.get_package_trust_decisions (Some run) None None (log DecisionLog.package_trust_decisions)).

(** The claim a requeued child had. *)
Definition old_claim (run key : string) (db : Db) : string :=
  match SideEffectLedger.get_side_effect_by_key run key db with
  | Some r => claim_text (SideEffectLedger.execution_claim_id r)
  | None => ""
  end.

(** The [retry_requeued] metric asked for per requeued child: its attempt key
    and its source key. *)
Definition requeue_metrics (run : string) (db : Db) (repaired : list (string * string)) : list (string * string) :=
  omap (fun kr => if (snd kr =? "requeued")%string
                  then Some (fst kr, "retry:" +:+ run +:+ ":" +:+ fst kr +:+ ":" +:+ old_claim run (fst kr) db
                                     +:+ ":requeued")
                  else None) repaired.

(** [TraceReconciler.reconcile]: the tables after the repair, the metrics asked
    for and the report. *)
Definition reconcile (nodes : dict NodeContract) (origins : list (string * pyctx)) (repair_expired : bool) (now : Z)
  (t : ChainTrace) (st : Store Json) (logs : dict (list pyctx)) (db : Db)
  : Db * list (string * string) * ReconciliationReport :=
  let run := tr_run_id t in
  if repair_expired then
    match SideEffectLedger.reconcile_expired_recovery_children run now db with
    | Ok (db', repaired) =>
        (db', requeue_metrics run db repaired, report_of (audit nodes origins t (load_facts run st db' logs)))
    | Err _ =>
        (db, [], report_of (err "side_effect_retry_repair_failed" "" 0
                            :: audit nodes origins t (load_facts run st db logs)))
    end
  else (db, [], report_of (audit nodes origins t (load_facts run st db logs))).
End Reconcile.
End Reconciler.
