(* ===== verification/TraceAudit.v ===== *)
(** * What a clean reconciliation means

    The report of TraceReconciler has no error exactly when the trace and the
    tables agree in the sense of this file, stated over events and rows without
    the maps and sets of the code; and the trail the review manager leaves is
    one the reconciler accepts. *)
From S2P Require Import Prelude PyFloat PyValue Sql Contract ChainState StateStore Persistence.
From S2P Require Import ReviewWorkbench ReviewManager Trace TraceReconciler.
From S2P Require SideEffectLedger DecisionLog RecoveryService.

(** ** Outcomes without errors *)

Definition no_error (o : outcome) : Prop :=
  match o with Passed => True | Flag i => severity i <> "error" end.
Definition clean (l : list outcome) : Prop := Forall no_error l.

Lemma is_clean_spec l : is_clean (report_of l) = true <-> clean l.
Proof.
  unfold is_clean, errors, report_of, clean. cbn [report_issues].
  induction l as [|o l IH]; [done|]. rewrite Forall_cons. destruct o as [|i]; [naive_solver|].
  cbn. destruct (String.eqb_spec (severity i) "error") as [He|He]; cbn; [|naive_solver].
  split; [done|]. by intros [H _].
Qed.

Lemma clean_nil : clean [] <-> True.
Proof. split; [done|]. constructor. Qed.
Lemma clean_cons o l : clean (o :: l) <-> no_error o /\ clean l.
Proof. apply Forall_cons. Qed.
Lemma clean_app l k : clean (l ++ k) <-> clean l /\ clean k.
Proof. apply Forall_app. Qed.
Lemma clean_flat_map {A} (f : A -> list outcome) l : clean (flat_map f l) <-> forall x, x ∈ l -> clean (f x).
Proof.
  induction l as [|a l IH]; cbn; [split; [by intros _ x ?%elem_of_nil | constructor]|].
  rewrite clean_app, IH. split.
  - intros [H1 H2] x [->|H]%elem_of_cons; auto.
  - intros H. split; [apply H; left | intros x Hx; apply H; by right].
Qed.
Lemma clean_map {A} (f : A -> outcome) l : clean (map f l) <-> forall x, x ∈ l -> no_error (f x).
Proof.
  induction l as [|a l IH]; cbn; [split; [by intros _ x ?%elem_of_nil | constructor]|].
  rewrite clean_cons, IH. split.
  - intros [H1 H2] x [->|H]%elem_of_cons; auto.
  - intros H. split; [apply H; left | intros x Hx; apply H; by right].
Qed.
Lemma clean_if (b : bool) l k : clean (if b then l else k) <-> (b = true -> clean l) /\ (b = false -> clean k).
Proof. destruct b; naive_solver. Qed.
Lemma no_error_if (b : bool) o p :
  no_error (if b then o else p) <-> (b = true -> no_error o) /\ (b = false -> no_error p).
Proof. destruct b; naive_solver. Qed.
Lemma no_error_pass : no_error Passed <-> True.
Proof. done. Qed.
Lemma no_error_err c n s : no_error (err c n s) <-> False.
Proof. cbn. naive_solver. Qed.
Lemma no_error_warn c n s : no_error (warn c n s) <-> True.
Proof. cbn. naive_solver. Qed.
Lemma no_error_at_error c e : no_error (at_event "error" c e) <-> False.
Proof. cbn. naive_solver. Qed.
Lemma no_error_at_warning c e : no_error (at_event "warning" c e) <-> True.
Proof. cbn. naive_solver. Qed.
Lemma no_error_hold c e b : no_error (hold c e b) <-> b = true.
Proof. destruct b; cbn; naive_solver. Qed.

Ltac simp_clean :=
  repeat first [ rewrite clean_app | rewrite clean_cons | rewrite clean_nil | rewrite no_error_pass
               | rewrite no_error_hold | rewrite no_error_err | rewrite no_error_warn | rewrite no_error_at_error
               | rewrite no_error_at_warning ].

#[local] Opaque err warn at_event hold no_error clean.

Lemma elem_category c e l : e ∈ of_category c l <-> e ∈ l /\ category_of e = c.
Proof. unfold of_category. rewrite elem_of_lfilter, bool_decide_eq_true. naive_solver. Qed.

(** Agreement where both are given. *)
Definition agree (a b : string) : Prop := a <> "" -> b <> "" -> a = b.
Definition agree_steps (a b : Z) : Prop := a <> 0 -> b <> 0 -> a = b.

Lemma differs_false a b : differs a b = false <-> agree a b.
Proof.
  unfold differs, agree. split.
  - intros H Ha%str_truthy_true Hb%str_truthy_true. rewrite Ha, Hb in H. cbn in H.
    by apply negb_false_iff, String.eqb_eq in H.
  - intros H. destruct (str_truthy a) eqn:Ea; [|done]. destruct (str_truthy b) eqn:Eb; [|done].
    apply str_truthy_true in Ea, Eb. cbn. by rewrite (H Ea Eb), String.eqb_refl.
Qed.

Lemma steps_differ_false a b : steps_differ a b = false <-> agree_steps a b.
Proof.
  unfold steps_differ, agree_steps. destruct (Z.eqb_spec a 0), (Z.eqb_spec b 0), (Z.eqb_spec a b); cbn; split; intros; first [done | lia | by exfalso; auto].
Qed.

(** ** Steps *)

Record steps_agree (events : list TraceEvent) (f : Facts) : Prop := {
  (** a success at a recorded step is of the recorded node *)
  sa_success : forall e n, e ∈ events -> category_of e = NodeSucceeded -> step_of e <> 0 ->
    node_at (step_of e) (f_steps f) = Some n -> n = node_of e;
  (** a recorded step is in the trace or in the journal *)
  sa_covered : forall s n, (s, n) ∈ f_steps f ->
    (exists e, e ∈ events /\ category_of e = NodeSucceeded /\ step_of e = s /\ node_of e = n) \/
    (exists r, r ∈ f_journal f /\ er_step_id r = Some s);
  (** the stored state has no step the ledger lacks *)
  sa_state : forall st s n, f_state f = Some st -> (s, n) ∈ completed_steps st -> node_at s (f_steps f) = Some n;
  (** no step is of two nodes *)
  sa_unique : forall e e', e ∈ events -> e' ∈ events -> category_of e = NodeSucceeded ->
    category_of e' = NodeSucceeded -> step_of e <> 0 -> step_of e = step_of e' -> node_of e = node_of e';
  sa_ledger : NoDup (map fst (f_steps f));
}.

Lemma check_succeeded_clean steps e :
  clean (check_succeeded steps e) <->
  (step_of e <> 0 -> forall n, node_at (step_of e) steps = Some n -> n = node_of e).
Proof.
  unfold check_succeeded. destruct (Z.eqb_spec (step_of e) 0); [simp_clean; naive_solver|].
  destruct (node_at (step_of e) steps) as [n'|]; simp_clean; [|naive_solver].
  rewrite String.eqb_eq. naive_solver.
Qed.

Lemma check_covered_clean succeeded journal x :
  clean (check_covered succeeded journal x) <->
  (exists e, e ∈ succeeded /\ step_of e = fst x /\ node_of e = snd x) \/
  (exists r, r ∈ journal /\ er_step_id r = Some (fst x)).
Proof.
  unfold check_covered. destruct (existsb (covers x) succeeded) eqn:E1.
  - apply existsb_elem in E1 as (e & He & [H1%Z.eqb_eq H2%String.eqb_eq]%andb_true_iff).
    simp_clean. split; [|done]. intros _. left. by exists e.
  - assert (Hno : ~ exists e, e ∈ succeeded /\ step_of e = fst x /\ node_of e = snd x).
    { intros (e & He & H1 & H2). assert (existsb (covers x) succeeded = true); [|congruence].
      apply existsb_elem. exists e. split; [done|]. unfold covers. by rewrite H1, H2, Z.eqb_refl, String.eqb_refl. }
    destruct (existsb _ journal) eqn:E2; simp_clean.
    + apply existsb_elem in E2 as (r & Hr & H%bool_decide_eq_true). split; [|done]. intros _. right. by exists r.
    + split; [naive_solver|]. intros [H|(r & Hr & H)]; [by destruct (Hno H)|].
      assert (existsb (fun r => bool_decide (er_step_id r = Some (fst x))) journal = true); [|congruence].
      apply existsb_elem. exists r. split; [done|]. by apply bool_decide_eq_true.
Qed.

Lemma check_state_clean state steps :
  clean (check_state_steps state steps) <->
  (forall st s n, state = Some st -> (s, n) ∈ completed_steps st -> node_at s steps = Some n).
Proof.
  unfold check_state_steps. destruct state as [st|]; [|simp_clean; naive_solver].
  destruct (completed_steps st) as [|x l] eqn:E; cbn [nonempty].
  { simp_clean. split; [|done]. intros _ st' s n [= <-]. rewrite E. by intros ?%elem_of_nil. }
  rewrite <- E. simp_clean. rewrite clean_map, clean_flat_map. split.
  - intros [H _] st' s n [= <-] Hin. specialize (H (s, n) Hin). cbn in H.
    destruct (node_at s steps) as [n'|]; [|by apply no_error_err in H].
    destruct (String.eqb_spec n' n); [by subst | by apply no_error_err in H].
  - intros H. split.
    + intros [s n] Hin. cbn. rewrite (H st s n eq_refl Hin), String.eqb_refl. done.
    + intros [s n] _. cbn. destruct (node_at s _); by simp_clean.
Qed.

Lemma node_at_app s l x :
  node_at s (l ++ [x]) =
  match node_at s l with Some n => Some n | None => if fst x =? s then Some (snd x) else None end.
Proof.
  unfold node_at. induction l as [|y l IH]; cbn; [by destruct (fst x =? s)|]. by destruct (fst y =? s).
Qed.

Lemma node_at_In s l n : node_at s l = Some n -> (s, n) ∈ l.
Proof.
  unfold node_at. induction l as [|[s' n'] l IH]; cbn; [done|]. destruct (Z.eqb_spec s' s) as [->|Hn]; cbn.
  - intros [= ->]. left.
  - intros H. right. by apply IH.
Qed.

Lemma node_at_None s l : node_at s l = None <-> s ∉ map fst l.
Proof.
  unfold node_at. induction l as [|[s' n'] l IH]; cbn; [split; [by intros _ ?%elem_of_nil | done]|].
  rewrite not_elem_of_cons, <- IH. destruct (Z.eqb_spec s' s) as [->|Hn]; cbn; naive_solver.
Qed.

(** One node per step among the events, and in what was seen before. *)
Definition one_node (seen : list (Z * string)) (l : list TraceEvent) : Prop :=
  (forall e n, e ∈ l -> step_of e <> 0 -> node_at (step_of e) seen = Some n -> n = node_of e) /\
  (forall e e', e ∈ l -> e' ∈ l -> step_of e <> 0 -> step_of e = step_of e' -> node_of e = node_of e').

Lemma one_node_skip seen e l : step_of e = 0 -> one_node seen (e :: l) <-> one_node seen l.
Proof.
  intros He. unfold one_node. split.
  - intros [H1 H2]. split; intros *; [intros H; apply H1 | intros H H'; apply H2]; by right.
  - intros [H1 H2]. split.
    + intros x n [->|Hx]%elem_of_cons; [done | by apply H1].
    + intros x y [->|Hx]%elem_of_cons [->|Hy]%elem_of_cons; try done; [congruence | by apply H2].
Qed.

Lemma one_node_seen seen e l n : step_of e <> 0 -> node_at (step_of e) seen = Some n ->
  one_node seen (e :: l) <-> n = node_of e /\ one_node seen l.
Proof.
  intros He Hn. unfold one_node. split.
  - intros [H1 H2]. split; [apply (H1 e n); [left|done..]|].
    split; intros *; [intros H; apply H1 | intros H H'; apply H2]; by right.
  - intros [-> [H1 H2]]. split.
    + intros x n [->|Hx]%elem_of_cons Hs Hm; [congruence | by apply H1].
    + intros x y [->|Hx]%elem_of_cons [->|Hy]%elem_of_cons Hs Heq; [done | | | by apply H2].
      * apply (H1 y); [done | congruence | congruence].
      * symmetry. apply (H1 x); [done | done | congruence].
Qed.

Lemma one_node_new seen e l : step_of e <> 0 -> node_at (step_of e) seen = None ->
  one_node seen (e :: l) <-> one_node (seen ++ [(step_of e, node_of e)]) l.
Proof.
  intros He Hn. unfold one_node. split.
  - intros [H1 H2]. split.
    + intros x n Hx Hs. rewrite node_at_app. destruct (node_at (step_of x) seen) as [m|] eqn:Em.
      * intros [= <-]. apply H1; [by right | done | done].
      * cbn. destruct (Z.eqb_spec (step_of e) (step_of x)) as [Heq|]; [|done]. intros [= <-].
        apply H2; [left | by right | done | done].
    + intros x y Hx Hy. apply H2; by right.
  - intros [H1 H2].
    assert (Hl : forall y, y ∈ l -> step_of e = step_of y -> node_of e = node_of y).
    { intros y Hy Heq. apply (H1 y); [done | congruence |]. rewrite node_at_app, <- Heq, Hn. cbn. by rewrite Z.eqb_refl. }
    split.
    + intros x n [->|Hx]%elem_of_cons Hs Hm; [congruence|]. apply H1; [done | done|]. by rewrite node_at_app, Hm.
    + intros x y [->|Hx]%elem_of_cons [->|Hy]%elem_of_cons Hs Heq; [done | by apply Hl | | by apply H2].
      symmetry. by apply Hl.
Qed.

Lemma check_trace_unique_clean l : forall seen, clean (fst (check_trace_unique seen l)) <-> one_node seen l.
Proof.
  induction l as [|e l IH]; intros seen; cbn [check_trace_unique].
  { simp_clean. split; [intros _ | done]. by split; intros * ?%elem_of_nil. }
  destruct (Z.eqb_spec (step_of e) 0) as [He|He]; [by rewrite IH, one_node_skip|].
  destruct (node_at (step_of e) seen) as [n|] eqn:En; [|by rewrite one_node_new, <- IH].
  rewrite (one_node_seen _ _ _ n), <- IH by done. destruct (check_trace_unique seen l) as [o s]. cbn [fst].
  destruct (String.eqb_spec n (node_of e)); simp_clean; naive_solver.
Qed.

Lemma check_ledger_unique_clean l : forall seen,
  clean (check_ledger_unique seen l) <-> NoDup (map fst l) /\ forall x, x ∈ l -> fst x ∉ map fst seen.
Proof.
  induction l as [|x l IH]; intros seen; cbn [check_ledger_unique map].
  { simp_clean. split; [|done]. intros _. split; [constructor | by intros x ?%elem_of_nil]. }
  rewrite NoDup_cons. destruct (node_at (fst x) seen) as [n|] eqn:En.
  - simp_clean. split; [by intros [[] _]|]. intros [_ H]. apply node_at_In in En. exfalso. apply (H x); [left|].
    apply list_elem_of_fmap. by exists (fst x, n).
  - apply node_at_None in En. rewrite IH, map_app. cbn [map]. split.
    + intros [H1 H2]. split_and!; [|done|].
      * intros (y & Heq & Hy)%list_elem_of_fmap. apply (H2 y Hy). rewrite <- Heq. apply elem_of_app. right. left.
      * intros y [->|Hy]%elem_of_cons; [done|]. intros Hin. apply (H2 y Hy), elem_of_app. by left.
    + intros [[Hx H1] H2]. split; [done|]. intros y Hy [Hin|Hin]%elem_of_app.
      * by apply (H2 y); [right|].
      * apply list_elem_of_singleton in Hin. apply Hx. rewrite <- Hin. by apply list_elem_of_fmap_2.
Qed.

Lemma clean_passes (b : bool) : clean (if b then [Passed] else []) <-> True.
Proof. by destruct b; simp_clean. Qed.

Lemma check_unique_clean succeeded steps :
  clean (check_unique succeeded steps) <-> one_node [] succeeded /\ NoDup (map fst steps).
Proof.
  unfold check_unique. pose proof (check_trace_unique_clean succeeded []) as H.
  destruct (check_trace_unique [] succeeded) as [o seen]. cbn [fst] in H. simp_clean.
  rewrite H, check_ledger_unique_clean, clean_passes. cbn [map].
  split; [by intros (? & [? _] & _)|]. intros [H1 H2]. split_and!; try done. by intros x _ ?%elem_of_nil.
Qed.

Lemma check_terminal_clean events fs : clean (check_terminal events fs).
Proof. unfold check_terminal. repeat case_goal; by simp_clean. Qed.

Lemma clean_all_passed {A} (l : list A) : clean (map (fun _ => Passed) l).
Proof. by apply clean_map. Qed.

(** What the step checks find. *)
Definition step_checks (t : ChainTrace) (f : Facts) : list outcome :=
  let succeeded := of_category NodeSucceeded (tr_events t) in
  flat_map (check_succeeded (f_steps f)) succeeded ++ flat_map (check_covered succeeded (f_journal f)) (f_steps f)
  ++ check_state_steps (f_state f) (f_steps f) ++ check_unique succeeded (f_steps f).

Lemma steps_clean t f : clean (step_checks t f) <-> steps_agree (tr_events t) f.
Proof.
  unfold step_checks. cbv zeta. simp_clean. rewrite !clean_flat_map, check_state_clean, check_unique_clean.
  setoid_rewrite check_succeeded_clean. setoid_rewrite check_covered_clean. setoid_rewrite elem_category. split.
  - intros (H1 & H2 & H3 & [_ H4] & H5). split; [naive_solver | | done | | done].
    + intros s n Hin. destruct (H2 _ Hin) as [(e & ? & ? & ?)|(r & ? & ?)]; [left; exists e | right; exists r]; naive_solver.
    + intros e e' He He' Hc Hc'. apply H4; by apply elem_category.
  - intros [H1 H2 H3 H4 H5]. split_and!; [naive_solver | | done | | done].
    + intros [s n] Hin. destruct (H2 _ _ Hin) as [(e & ? & ? & ? & ?)|(r & ? & ?)]; [left; exists e | right; exists r]; naive_solver.
    + split; [done|]. intros e e' [He Hc]%elem_category [He' Hc']%elem_category. by apply H4.
Qed.

(** ** Side effects *)

(** The event and the row of a key are of the same effect. *)
Record bound (e : TraceEvent) (r : Row) : Prop := {
  bd_node : agree (node_of e) (SideEffectLedger.node_id r);
  bd_step : agree_steps (step_of e) (SideEffectLedger.step_id r);
  bd_type : agree (canon (meta "effect_type" e)) (canon (SideEffectLedger.side_effect_type r));
  bd_request : agree (meta "request_hash" e) (default "" (SideEffectLedger.request_hash r));
  bd_response : agree (or_else (meta "response_hash" e) (meta "external_reference" e))
    (opt_or (SideEffectLedger.response_hash r) (SideEffectLedger.external_reference r));
}.

Lemma clean_flag (b : bool) c e : clean (if b then [at_event "error" c e] else []) <-> b = false.
Proof. destruct b; simp_clean; naive_solver. Qed.
Lemma clean_flag_err (b : bool) c n s : clean (if b then [err c n s] else []) <-> b = false.
Proof. destruct b; simp_clean; naive_solver. Qed.
Lemma clean_unless (b : bool) c n s : clean (if b then [] else [err c n s]) <-> b = true.
Proof. destruct b; simp_clean; naive_solver. Qed.
Lemma clean_flag_warn (b : bool) c n s : clean (if b then [warn c n s] else []) <-> True.
Proof. destruct b; by simp_clean. Qed.
Lemma clean_unless_warn (b : bool) c n s : clean (if b then [] else [warn c n s]) <-> True.
Proof. destruct b; by simp_clean. Qed.

Lemma strong_bind_clean c e r : clean (strong_bind c e r) <-> bound e r.
Proof.
  unfold strong_bind. cbv zeta. simp_clean. rewrite !clean_flag, !differs_false, steps_differ_false.
  split; [by intros (? & ? & ? & ? & ?) | by intros []].
Qed.

Section Effects.
Context (list_of_set : list string -> list string).
(** Iterating over a set lists its elements. *)
Hypothesis list_of_set_elems : forall l x, x ∈ list_of_set l <-> x ∈ l.

Lemma elem_keys_of k l key :
  key ∈ keys_of list_of_set k l <-> key <> "" /\ exists e, e ∈ l /\ meta k e = key.
Proof.
  unfold keys_of. rewrite list_of_set_elems, elem_of_py_set, elem_of_lfilter, str_truthy_true, list_elem_of_fmap.
  naive_solver.
Qed.

Lemma key_in k l e : e ∈ l -> meta k e <> "" -> meta k e ∈ keys_of list_of_set k l.
Proof. intros He Hk. apply elem_keys_of. eauto. Qed.

Lemma event_of_Some key l e :
  e ∈ l -> meta "idempotency_key" e = key -> exists e', event_of key l = Some e'.
Proof.
  intros He Hk. unfold event_of. destruct (List.find _ (reverse l)) as [e'|] eqn:E; [by exists e'|].
  exfalso. pose proof (List.find_none _ _ E e) as H. cbv beta in H. rewrite Hk, String.eqb_refl in H.
  discriminate H. apply list_elem_of_In. by rewrite elem_of_reverse.
Qed.

Lemma event_of_key key l e : event_of key l = Some e -> e ∈ l /\ meta "idempotency_key" e = key.
Proof.
  unfold event_of. intros [Hin Hk%String.eqb_eq]%List.find_some.
  by rewrite <- list_elem_of_In, elem_of_reverse in Hin.
Qed.

(** The row of the last event of a key: there, in a status the event allows,
    and of the same effect. *)
Definition keyed (statuses : list string) (rows : list Row) (l : list TraceEvent) : Prop :=
  forall key e, key <> "" -> event_of key l = Some e ->
    exists r, row_of key rows = Some r /\ SideEffectLedger.status r ∈ statuses /\ bound e r.

Lemma check_keyed_clean m b statuses rows l :
  clean (check_keyed list_of_set m b statuses rows l) <-> keyed statuses rows l.
Proof.
  unfold check_keyed, keyed. rewrite clean_flat_map. split.
  - intros H key e Hk He. specialize (H key). destruct (event_of_key _ _ _ He) as [Hin Hm].
    rewrite He, <- Hm in H. specialize (H (key_in _ _ _ Hin ltac:(by rewrite Hm))). rewrite Hm in H.
    destruct (row_of key rows) as [r|]; [|by apply clean_cons in H as [[]%no_error_err _]].
    destruct (mem _ statuses) eqn:Em; cbn [negb] in H; [|by apply clean_cons in H as [[]%no_error_err _]].
    apply clean_cons in H as [_ H%strong_bind_clean]. exists r. split_and!; [done | by apply mem_true | done].
  - intros H key [Hk (e & Hin & Hm)]%elem_keys_of. destruct (event_of_Some _ _ _ Hin Hm) as [e' He'].
    destruct (H key e' Hk He') as (r & -> & Hs%mem_true & Hb). rewrite Hs, He'. cbn [negb]. simp_clean.
    by rewrite strong_bind_clean.
Qed.

(** A blocked event has a row that denies or asks for approval. *)
Definition blocked_recorded (blocked : list TraceEvent) (rows : list pyctx) : Prop :=
  forall e, e ∈ blocked -> meta "attempt_id" e <> "" ->
    exists r, List.find (fun r => (text_cell "attempt_id" r =? meta "attempt_id" e)%string) rows = Some r /\
      text_cell "decision" r ∈ ["deny"; "require_approval"].

Lemma check_blocked_clean blocked rows :
  clean (check_blocked list_of_set blocked rows) <-> blocked_recorded blocked rows.
Proof.
  unfold check_blocked, blocked_recorded. cbv zeta. simp_clean. rewrite !clean_flat_map. split.
  - intros [H _] e He Hk. specialize (H _ (key_in _ _ _ He Hk)).
    destruct (List.find _ rows) as [r|]; [|by apply clean_cons in H as [[]%no_error_err _]].
    destruct (mem _ _) eqn:Em; [|by apply clean_cons in H as [[]%no_error_err _]].
    exists r. split; [done|]. by apply mem_true.
  - intros H. split.
    + intros aid [Hk (e & He & <-)]%elem_keys_of. destruct (H e He Hk) as (r & -> & Hd%mem_true). rewrite Hd. by simp_clean.
    + intros r _. destruct (mem _ _); by simp_clean.
Qed.

(** A type the contract of its node declares, where the node is known. *)
Definition declared (nodes : dict NodeContract) (nid type : string) : Prop :=
  forall c, dget nid nodes = Some c -> canon type ∈ declared_types c.

Lemma check_declared_clean nodes nid type stp :
  clean (check_declared nodes nid type stp) <-> declared nodes nid type.
Proof.
  unfold check_declared, declared. destruct (dget nid nodes) as [c|]; [|simp_clean; naive_solver].
  rewrite clean_unless, mem_true. naive_solver.
Qed.

Record effects_agree (nodes : dict NodeContract) (events : list TraceEvent) (f : Facts) : Prop := {
  ea_completed : keyed ["completed"] (f_effects f) (of_category EffectCompleted events);
  ea_started : keyed ["started"; "completed"; "failed"; "unknown"] (f_effects f) (of_category EffectStarted events);
  ea_failed : keyed ["failed"] (f_effects f) (of_category EffectFailed events);
  ea_blocked : blocked_recorded (of_category EffectBlocked events) (f_blocks f);
  ea_row_type : forall r, r ∈ f_effects f ->
    declared nodes (SideEffectLedger.node_id r) (SideEffectLedger.side_effect_type r);
  ea_event_type : forall e, e ∈ events -> category_of e ∈ [EffectStarted; EffectCompleted; EffectFailed] ->
    declared nodes (node_of e) (meta "effect_type" e);
}.

(** ** Recovery *)

(** A child of a recovery, its parent and its actions. *)
Record child_agrees (rows : list Row) (actions : list SideEffectLedger.ExecutionAction) (r : Row) (parent : string)
  : Prop := {
  ca_parent : exists p, row_of parent rows = Some p /\ SideEffectLedger.status p = "retry_authorized";
  ca_planned : SideEffectLedger.status r = "planned" -> SideEffectLedger.dispatch_attempted_at r = None;
  ca_one_active : forall a b l, List.filter active
      (List.filter (fun a => (SideEffectLedger.retry_attempt_key a =? SideEffectLedger.idempotency_key r)%string)
         actions) <> a :: b :: l;
  ca_claimed : SideEffectLedger.status r = "started" ->
    claim_text (SideEffectLedger.execution_claim_id r) <> "" /\
    exists a, a ∈ actions /\ SideEffectLedger.retry_attempt_key a = SideEffectLedger.idempotency_key r /\
      SideEffectLedger.act_claim_id a = SideEffectLedger.execution_claim_id r /\
      SideEffectLedger.execution_status a ∈ ["claimed"; "dispatch_started"];
  ca_boundary : forall a, a ∈ actions -> SideEffectLedger.retry_attempt_key a = SideEffectLedger.idempotency_key r ->
    requires_boundary a = true -> SideEffectLedger.dispatch_attempted_at r <> None;
  ca_outcome : forall a, a ∈ actions -> SideEffectLedger.retry_attempt_key a = SideEffectLedger.idempotency_key r ->
    SideEffectLedger.execution_status a ∈ ["completed"; "failed"; "unknown"] ->
    SideEffectLedger.status r = SideEffectLedger.execution_status a;
}.

Lemma count_pos {A} (p : A -> bool) l : (0 < count p l)%nat <-> exists x, x ∈ l /\ p x = true.
Proof.
  unfold count. split.
  - destruct (List.filter p l) as [|x k] eqn:E; [cbn; lia|]. intros _. exists x.
    assert (x ∈ List.filter p l) as H%elem_of_lfilter by (rewrite E; left). naive_solver.
  - intros (x & Hx & Hp). assert (x ∈ List.filter p l) as H by by apply elem_of_lfilter.
    destruct (List.filter p l); [by apply elem_of_nil in H | cbn; lia].
Qed.

Lemma count_le {A} (p : A -> bool) l : (count p l <= length l)%nat.
Proof. apply List.filter_length_le. Qed.

Lemma not_two {A} (l : list A) : (1 <? length l)%nat = false <-> forall a b k, l <> a :: b :: k.
Proof.
  rewrite Nat.ltb_ge. destruct l as [|a [|b k]]; cbn; split; intros; try done; try lia.
  exfalso. by apply (H a b k).
Qed.

Definition current (r : Row) (actions : list SideEffectLedger.ExecutionAction) : list SideEffectLedger.ExecutionAction :=
  List.filter active (List.filter
    (fun a => (SideEffectLedger.retry_attempt_key a =? SideEffectLedger.idempotency_key r)%string) actions).

Definition holds_claim (r : Row) (a : SideEffectLedger.ExecutionAction) : bool :=
  sql_eq (SideEffectLedger.act_claim_id a) (SideEffectLedger.execution_claim_id r)
  && in_status ["claimed"; "dispatch_started"] a.

Lemma holds_claim_active r a : holds_claim r a = true -> active a = true.
Proof.
  unfold holds_claim, active, in_status. intros [_ H%mem_true]%andb_true_iff. apply mem_true.
  rewrite !elem_of_cons, elem_of_nil in *. naive_solver.
Qed.

Lemma elem_current r actions a :
  a ∈ current r actions <->
  a ∈ actions /\ SideEffectLedger.retry_attempt_key a = SideEffectLedger.idempotency_key r /\ active a = true.
Proof. unfold current. rewrite !elem_of_lfilter, String.eqb_eq. naive_solver. Qed.

Lemma one_claim r actions : claim_text (SideEffectLedger.execution_claim_id r) <> "" ->
  (forall a b k, current r actions <> a :: b :: k) ->
  count (holds_claim r) (current r actions) = 1%nat <->
  exists a, a ∈ actions /\ SideEffectLedger.retry_attempt_key a = SideEffectLedger.idempotency_key r /\
    SideEffectLedger.act_claim_id a = SideEffectLedger.execution_claim_id r /\
    SideEffectLedger.execution_status a ∈ ["claimed"; "dispatch_started"].
Proof.
  intros Hc Hone%not_two%Nat.ltb_ge. pose proof (count_le (holds_claim r) (current r actions)).
  transitivity (0 < count (holds_claim r) (current r actions))%nat; [lia|].
  rewrite count_pos. setoid_rewrite elem_current.
  unfold claim_text in Hc. destruct (SideEffectLedger.execution_claim_id r) as [c|] eqn:Ec; [|done].
  split; intros (a & Ha).
  - destruct Ha as [(H1 & H2 & _) [(x & H3 & H4)%sql_eq_true H5%mem_true]%andb_true_iff]. rewrite Ec in H4.
    exists a. split_and!; congruence || done.
  - destruct Ha as (H1 & H2 & H3 & H4%mem_true). exists a.
    assert (holds_claim r a = true) as Hh.
    { apply andb_true_iff. split; [apply sql_eq_true; exists c; by rewrite H3, Ec | done]. }
    split_and!; try done. by apply (holds_claim_active r).
Qed.

Lemma check_action_clean r a :
  clean (check_action r a) <->
  (requires_boundary a = true -> SideEffectLedger.dispatch_attempted_at r <> None) /\
  (SideEffectLedger.execution_status a ∈ ["completed"; "failed"; "unknown"] ->
   SideEffectLedger.status r = SideEffectLedger.execution_status a).
Proof.
  unfold check_action. cbv zeta. simp_clean. rewrite clean_flag_warn, !clean_flag_err, !andb_false_iff, !negb_false_iff.
  unfold in_status at 1, has_status. rewrite <- mem_true.
  destruct (requires_boundary a), (mem _ _), (SideEffectLedger.dispatch_attempted_at r); cbn;
    rewrite ?String.eqb_eq; naive_solver.
Qed.

Lemma parent_clean rows parent stp :
  clean (match row_of parent rows with
         | None => [err "side_effect_retry_orphan_child" "" stp]
         | Some p => if has_status "retry_authorized" p then []
                     else [err "side_effect_retry_parent_not_authorized" "" stp]
         end) <->
  exists p, row_of parent rows = Some p /\ SideEffectLedger.status p = "retry_authorized".
Proof.
  destruct (row_of parent rows) as [p|]; [|simp_clean; naive_solver].
  rewrite clean_unless. unfold has_status. rewrite String.eqb_eq. naive_solver.
Qed.

Lemma planned_false r :
  has_status "planned" r && not_null (SideEffectLedger.dispatch_attempted_at r) = false <->
  (SideEffectLedger.status r = "planned" -> SideEffectLedger.dispatch_attempted_at r = None).
Proof.
  unfold has_status.
  destruct (String.eqb_spec (SideEffectLedger.status r) "planned"), (SideEffectLedger.dispatch_attempted_at r);
    cbn; naive_solver.
Qed.

Lemma claim_clean r l stp :
  clean (if has_status "started" r then
           if negb (str_truthy (claim_text (SideEffectLedger.execution_claim_id r)))
           then [err "side_effect_retry_action_claim_mismatch" "" stp]
           else if Nat.eqb (count (holds_claim r) l) 1 then []
           else [err "side_effect_retry_action_claim_mismatch" "" stp]
         else []) <->
  (SideEffectLedger.status r = "started" ->
   claim_text (SideEffectLedger.execution_claim_id r) <> "" /\ count (holds_claim r) l = 1%nat).
Proof.
  unfold has_status. destruct (String.eqb_spec (SideEffectLedger.status r) "started"); [|simp_clean; naive_solver].
  rewrite <- str_truthy_true. destruct (str_truthy _); cbn [negb]; [|simp_clean; naive_solver].
  rewrite clean_unless, Nat.eqb_eq. naive_solver.
Qed.

Lemma check_child_clean rows actions r :
  clean (check_child rows actions r) <->
  (forall parent, SideEffectLedger.parent_side_effect_key r = Some parent -> parent <> "" ->
     child_agrees rows actions r parent).
Proof.
  unfold check_child. cbv zeta. destruct (SideEffectLedger.parent_side_effect_key r) as [parent|] eqn:Ep; cbn [default id].
  2: { simp_clean. naive_solver. }
  destruct (str_truthy parent) eqn:Et; cbn [negb].
  2: { simp_clean. split; [|done]. intros _ p [= <-]. by destruct parent. }
  apply str_truthy_true in Et. rewrite !clean_app, clean_unless_warn, !clean_flag_err, clean_flat_map, not_two.
  setoid_rewrite check_action_clean. fold (current r actions). change (fun a => sql_eq _ _ && _) with (holds_claim r).
  transitivity (child_agrees rows actions r parent); [|naive_solver].
  rewrite parent_clean, planned_false, claim_clean. setoid_rewrite elem_of_lfilter. setoid_rewrite String.eqb_eq.
  split.
  - intros (H1 & _ & H2 & H3 & H4 & H5). split; [done | done | done | | |]; [|naive_solver..].
    intros [Hc H]%H4. split; [done|]. by apply one_claim.
  - intros [H1 H2 H3 H4 H5 H6]. split_and!; [done.. | | naive_solver].
    intros [Hc H]%H4. split; [done|]. by apply one_claim.
Qed.

Record recovery_agrees (origins : list (string * pyctx)) (f : Facts) : Prop := {
  ra_legal : forall r, r ∈ f_effects f -> SideEffectLedger.status r ∈ LEGAL_STATES;
  (** a decision is about a row, which is where the decision left it *)
  ra_row : forall d, d ∈ f_decisions f -> SideEffectLedger.rd_key d <> "" ->
    exists r, row_of (SideEffectLedger.rd_key d) (f_effects f) = Some r;
  ra_decided : forall d r s, d ∈ f_decisions f -> row_of (SideEffectLedger.rd_key d) (f_effects f) = Some r ->
    decided_status d = Some s -> SideEffectLedger.status r = s;
  ra_retry : forall r, r ∈ f_effects f -> SideEffectLedger.status r = "retry_authorized" ->
    exists d, d ∈ f_decisions f /\ SideEffectLedger.rd_key d = SideEffectLedger.idempotency_key r /\
      SideEffectLedger.rd_decision d = "safe_to_retry" /\ SideEffectLedger.rd_retention_status d = "active";
  ra_child : forall r parent, r ∈ f_effects f -> SideEffectLedger.parent_side_effect_key r = Some parent ->
    parent <> "" -> child_agrees (f_effects f) (f_actions f) r parent;
  ra_isolated : forall o, o ∈ origins ->
    text_at "origin" "built_in" (snd o) ∈ ["local_registry"; "remote_registry"] ->
    text_at "trust_level" "local_untrusted" (snd o) ∈ ["local_untrusted"; "remote_untrusted"] ->
    text_at "isolation_mode" "in_process" (snd o) = "subprocess";
}.

Lemma check_decision_row_clean rows d :
  clean (check_decision_row rows d) <->
  (SideEffectLedger.rd_key d <> "" -> exists r, row_of (SideEffectLedger.rd_key d) rows = Some r).
Proof.
  unfold check_decision_row. rewrite clean_flag_err, andb_false_iff, negb_false_iff, <- str_truthy_true.
  destruct (str_truthy _), (row_of _ rows); cbn; naive_solver.
Qed.

Lemma check_decision_status_clean rows d :
  clean (check_decision_status rows d) <->
  (forall r s, row_of (SideEffectLedger.rd_key d) rows = Some r -> decided_status d = Some s ->
     SideEffectLedger.status r = s).
Proof.
  unfold check_decision_status. destruct (row_of _ rows) as [r|], (decided_status d) as [s|];
    try (simp_clean; naive_solver).
  rewrite clean_unless. unfold has_status. rewrite String.eqb_eq. naive_solver.
Qed.

Lemma check_retry_decided_clean decisions r :
  clean (check_retry_decided decisions r) <->
  (SideEffectLedger.status r = "retry_authorized" ->
   exists d, d ∈ decisions /\ SideEffectLedger.rd_key d = SideEffectLedger.idempotency_key r /\
     SideEffectLedger.rd_decision d = "safe_to_retry" /\ SideEffectLedger.rd_retention_status d = "active").
Proof.
  unfold check_retry_decided, has_status. rewrite clean_flag_err, andb_false_iff, negb_false_iff, existsb_elem.
  setoid_rewrite andb_true_iff. setoid_rewrite andb_true_iff. setoid_rewrite String.eqb_eq.
  destruct (String.eqb_spec (SideEffectLedger.status r) "retry_authorized"); naive_solver.
Qed.

Lemma check_isolated_clean o :
  clean (check_isolated o) <->
  (text_at "origin" "built_in" (snd o) ∈ ["local_registry"; "remote_registry"] ->
   text_at "trust_level" "local_untrusted" (snd o) ∈ ["local_untrusted"; "remote_untrusted"] ->
   text_at "isolation_mode" "in_process" (snd o) = "subprocess").
Proof.
  unfold check_isolated. rewrite clean_flag_err, !andb_false_iff, negb_false_iff, String.eqb_eq, <- !mem_true.
  destruct (mem _ _), (mem _ _); naive_solver.
Qed.

Lemma check_legal_clean r : clean (check_legal r) <-> SideEffectLedger.status r ∈ LEGAL_STATES.
Proof. unfold check_legal. by rewrite clean_unless, mem_true. Qed.

Lemma effects_clean nodes origins t f :
  clean (check_side_effect_trace_ledger list_of_set nodes origins (tr_events t) (f_effects f) (f_blocks f)
           (f_decisions f) (f_actions f)) <->
  effects_agree nodes (tr_events t) f /\ recovery_agrees origins f.
Proof.
  unfold check_side_effect_trace_ledger. cbv zeta. rewrite !clean_app, !check_keyed_clean, check_blocked_clean.
  assert (Hw : clean (flat_map (check_completed_covered list_of_set (of_category EffectCompleted (tr_events t))) (f_effects f))
    /\ clean (check_unknown (f_effects f)) /\ clean (check_count (of_category EffectCompleted (tr_events t)) (f_effects f))
    /\ clean (flat_map (check_failed_covered list_of_set (of_category EffectFailed (tr_events t))) (f_effects f))).
  { rewrite !clean_flat_map. unfold check_completed_covered, check_unknown, check_count, check_failed_covered.
    split_and!; intros; repeat case_goal; by simp_clean. }
  rewrite !clean_flat_map in *. setoid_rewrite check_declared_clean.
  setoid_rewrite check_legal_clean. setoid_rewrite check_decision_row_clean. setoid_rewrite check_decision_status_clean.
  setoid_rewrite check_retry_decided_clean. setoid_rewrite check_child_clean. setoid_rewrite check_isolated_clean.
  setoid_rewrite elem_of_app. setoid_rewrite elem_of_app.
  setoid_rewrite elem_category. split.
  - intros (_ & _ & H1 & H2 & _ & _ & _ & H3 & _ & H4 & H5 & H6 & H7 & H8 & H9 & H10 & H11 & H12 & _).
    split; split; try eassumption; [|by intros; eapply H9 | naive_solver].
    intros e He. rewrite !elem_of_cons, elem_of_nil. intros Hc. apply H6. naive_solver.
  - intros [[H1 H2 H3 H4 H5 H6] [H7 H8 H9 H10 H11 H12]]. destruct Hw as (W1 & W2 & W3 & W4).
    split_and!; try eassumption; try apply clean_all_passed; [|by eauto | naive_solver | by simp_clean].
    intros e He. apply H6; [naive_solver|]. rewrite !elem_of_cons, elem_of_nil. naive_solver.
Qed.
End Effects.

(** ** Reviews *)

Section Reviews.
Context (sha256 : string -> string).

Lemma clean_hold c e b l : clean (hold c e b :: l) <-> b = true /\ clean l.
Proof. by rewrite clean_cons, no_error_hold. Qed.

Lemma negb_differs a b : negb (differs a b) = true <-> agree a b.
Proof. by rewrite negb_true_iff, differs_false. Qed.

(** A completed review and the stored receipt name the same receipt and the
    same request; what is stored is what its digest says, and so is the
    request it answers. *)
Record receipt_bound (request : option pyctx) (r : pyctx) (e : TraceEvent) : Prop := {
  rb_given : forall k, k ∈ receipt_keys -> meta k e <> "";
  rb_id : meta "receipt_id" e = text_at "receipt_id" "" r;
  rb_digest : meta "receipt_digest" e = text_at "receipt_digest" "" r;
  rb_genuine : recomputed_receipt_digest sha256 (Some r) <> "" ->
    text_at "receipt_digest" "" r = recomputed_receipt_digest sha256 (Some r);
  rb_request : meta "request_id" e = text_at "request_id" "" r;
  rb_request_digest : meta "request_digest" e = text_at "request_digest" "" r;
  rb_committed : truthy (context_get "is_committed" r) = true;
  rb_answers : recomputed_request_digest sha256 request <> "" ->
    text_at "request_digest" "" r = recomputed_request_digest sha256 request;
}.

Lemma subject_no_error e subject :
  no_error (if differs (meta "subject_type" e) subject then at_event "warning" "review_subject_type_mismatch" e
            else if str_truthy subject && negb (subject =? "chain_review")%string
            then at_event "warning" "review_subject_type_unexpected" e else Passed).
Proof. repeat case_goal; by apply no_error_at_warning || apply no_error_pass. Qed.

Lemma digest_no_error e stored recomputed :
  no_error (if negb (meta "receipt_digest" e =? stored)%string then at_event "error" "review_receipt_digest_mismatch" e
            else if str_truthy recomputed && negb (stored =? recomputed)%string
            then at_event "error" "review_receipt_digest_tamper" e else Passed) <->
  meta "receipt_digest" e = stored /\ (recomputed <> "" -> stored = recomputed).
Proof.
  rewrite <- str_truthy_true.
  destruct (String.eqb_spec (meta "receipt_digest" e) stored); cbn; [|rewrite no_error_at_error; naive_solver].
  destruct (str_truthy recomputed); cbn; [|rewrite no_error_pass; naive_solver].
  destruct (String.eqb_spec stored recomputed); cbn; rewrite ?no_error_at_error, ?no_error_pass; naive_solver.
Qed.

Lemma check_review_receipt_clean receipt request e :
  event_decision e <> "timeout" ->
  clean (check_review_receipt sha256 receipt request e) <->
  (event_decision e = "governance_failure" -> forall kv l, receipt <> Some (kv :: l)) /\
  (event_decision e <> "governance_failure" -> exists r, receipt = Some r /\ receipt_bound request r e).
Proof.
  intros Ht. unfold check_review_receipt. destruct (String.eqb_spec (event_decision e) "governance_failure") as [Hg|Hg].
  { rewrite clean_hold, clean_nil. destruct receipt as [[|kv l]|]; naive_solver. }
  destruct (String.eqb_spec (event_decision e) "timeout"); [done|].
  transitivity (exists r, receipt = Some r /\ receipt_bound request r e); [|naive_solver].
  destruct (forallb _ receipt_keys) eqn:Ek; cbn [negb].
  2: { simp_clean. split; [naive_solver|]. intros (r & _ & Hr). exfalso. enough (Ht' : false = true) by done.
       rewrite <- Ek. apply forallb_elem. intros k Hk. apply str_truthy_true. by apply (rb_given _ _ _ Hr). }
  destruct receipt as [r|]; [|simp_clean; naive_solver].
  transitivity (receipt_bound request r e); [|naive_solver]. unfold bind_receipt. cbv zeta.
  rewrite clean_app, !clean_hold, !clean_cons, !no_error_hold, !String.eqb_eq.
  rewrite digest_no_error.
  assert (Hq : clean (if str_truthy (recomputed_request_digest sha256 request)
      then [hold "review_request_digest_request_mismatch" e
              (text_at "request_digest" "" r =? recomputed_request_digest sha256 request)%string]
      else []) <-> (recomputed_request_digest sha256 request <> "" ->
    text_at "request_digest" "" r = recomputed_request_digest sha256 request)).
  { rewrite <- str_truthy_true. destruct (str_truthy _); simp_clean; rewrite ?String.eqb_eq; naive_solver. }
  rewrite Hq. pose proof (subject_no_error e (text_at "subject_type" "" r)) as Hs. rewrite clean_nil. split.
  - intros ((H1 & [H2 H3] & H4 & H5 & _ & H6 & _) & H7). split; try done.
    intros k Hk. apply str_truthy_true. revert k Hk. by apply forallb_elem.
  - intros []. split_and!; done.
Qed.

(** The admitted attempt, the event and the stored receipt. *)
Record attempt_bound (receipt : option pyctx) (a : pyctx) (e : TraceEvent) : Prop := {
  ab_request : agree (meta "request_digest" e) (text_cell "request_digest" a);
  ab_subject : agree (text_cell "subject_type" a) "chain_review";
  ab_receipt : forall kv l, receipt = Some (kv :: l) -> let r := kv :: l in let dec := dict_at "decision" r in
    agree (text_cell "request_id" a) (text_at "request_id" "" r) /\
    agree (text_cell "request_digest" a) (text_at "request_digest" "" r) /\
    agree (text_cell "subject_type" a) (text_at "subject_type" "" r) /\
    py_eq (cell "attempted_outcome" a) (context_get "outcome" dec) = true /\
    agree (text_cell "subject_id" a) (text_at "subject_id" "" r) /\
    agree (text_cell "reviewer_identity" a) (text_at "reviewer_identity" "" dec);
}.

Lemma bind_attempt_clean receipt a e : clean (bind_attempt receipt a e) <-> attempt_bound receipt a e.
Proof.
  unfold bind_attempt. cbv zeta. rewrite clean_app, !clean_hold, clean_nil, negb_differs.
  assert (Hs : negb (str_truthy (text_cell "subject_type" a) && negb (text_cell "subject_type" a =? "chain_review")%string) = true
    <-> agree (text_cell "subject_type" a) "chain_review").
  { unfold agree. rewrite <- str_truthy_true. destruct (str_truthy (text_cell _ _)); cbn; [|naive_solver].
    rewrite negb_involutive, String.eqb_eq. naive_solver. }
  rewrite Hs. destruct receipt as [[|kv l]|].
  - rewrite clean_nil. split; [intros ((H1 & H2 & _) & _); by split | by intros []].
  - rewrite !clean_hold, clean_nil, !negb_differs. split.
    + intros ((H1 & H2 & _) & H3 & H4 & H5 & H6 & H7 & H8 & _). split; [done..|]. intros ? ? [= <- <-]. by split_and!.
    + intros [H1 H2 H3]. destruct (H3 _ _ eq_refl) as (? & ? & ? & ? & ? & ?). by split_and!.
  - rewrite clean_nil. split; [intros ((H1 & H2 & _) & _); by split | by intros []].
Qed.

(** The attempts behind a review: one refusal with the reason of the event, or
    admissions that agree, the first of them bound. *)
Definition attempts_behind (receipt : option pyctx) (attempts : list pyctx) (e : TraceEvent) : Prop :=
  (event_decision e = "governance_failure" ->
   exists a, List.filter (fun a => negb (is_admitted a)) attempts = [a] /\
     agree (meta "rejection_reason" e) (text_cell "rejection_reason" a)) /\
  (event_decision e <> "governance_failure" ->
   exists a l, List.filter is_admitted attempts = a :: l /\ (l <> [] -> admitted_attempts_conflict (a :: l) = false) /\
     attempt_bound receipt a e).

Lemma check_review_attempt_clean receipt attempts e :
  event_decision e <> "timeout" ->
  clean (check_review_attempt receipt attempts e) <-> attempts_behind receipt attempts e.
Proof.
  intros Ht. unfold check_review_attempt, attempts_behind.
  destruct (String.eqb_spec (event_decision e) "timeout"); [done|].
  destruct (String.eqb_spec (event_decision e) "governance_failure") as [Hg|Hg].
  - destruct (List.filter _ attempts) as [|a [|b l]]; [simp_clean; naive_solver | | simp_clean; naive_solver].
    rewrite clean_hold, clean_nil, negb_differs. naive_solver.
  - destruct (List.filter is_admitted attempts) as [|a l]; [simp_clean; naive_solver|].
    rewrite clean_app, bind_attempt_clean.
    assert (Hc : clean (if nonempty l then [if admitted_attempts_conflict (a :: l)
        then at_event "error" "review_attempt_duplicate_conflict" e
        else at_event "warning" "review_attempt_duplicate_admitted" e] else []) <->
      (l <> [] -> admitted_attempts_conflict (a :: l) = false)).
    { destruct l as [|b l]; cbn [nonempty]; [simp_clean; naive_solver|].
      destruct (admitted_attempts_conflict _); simp_clean; naive_solver. }
    rewrite Hc. naive_solver.
Qed.

(** The trail of the reviews of a run. *)
Definition reviews_agree (run : string) (events : list TraceEvent) (f : Facts) : Prop :=
  forall e, e ∈ events -> category_of e = ReviewCompleted -> event_decision e <> "timeout" ->
    let receipt := stored_dict "governed_decision_receipt" (f_state f) in
    (event_decision e = "governance_failure" -> forall kv l, receipt <> Some (kv :: l)) /\
    (event_decision e <> "governance_failure" -> exists r, receipt = Some r /\
       receipt_bound (stored_dict "governed_review_request" (f_state f)) r e) /\
    attempts_behind receipt (List.filter (fun a => (text_cell "run_id" a =? run)%string) (f_attempts f)) e.

Lemma timeout_clean receipt request attempts e : event_decision e = "timeout" ->
  clean (check_review_receipt sha256 receipt request e) /\ clean (check_review_attempt receipt attempts e).
Proof.
  intros Ht. unfold check_review_receipt, check_review_attempt. rewrite Ht. cbn.
  split; [|destruct (nonempty attempts)]; by simp_clean.
Qed.

Lemma reviews_clean run events f :
  clean (check_review_receipt_binding sha256 (f_state f) events
         ++ check_review_attempt_binding run (f_state f) (f_attempts f) events) <->
  reviews_agree run events f.
Proof.
  unfold check_review_receipt_binding, check_review_attempt_binding, reviews_agree.
  rewrite !clean_app, clean_passes, !clean_flat_map. setoid_rewrite elem_category. split.
  - intros [[_ H1] H2] e He Hc Ht. cbv zeta. specialize (H1 e (conj He Hc)). specialize (H2 e (conj He Hc)).
    rewrite check_review_receipt_clean in H1 by done. rewrite check_review_attempt_clean in H2 by done. naive_solver.
  - set (mine := List.filter _ (f_attempts f)). intros H. split; [split; [done|]|]; intros e [He Hc];
      (destruct (decide (event_decision e = "timeout")) as [Ht|Ht];
        [by apply (timeout_clean _ (stored_dict "governed_review_request" (f_state f)) mine)|]);
      destruct (H e He Hc Ht) as (H1 & H2 & H3).
    + by rewrite check_review_receipt_clean.
    + by rewrite check_review_attempt_clean.
Qed.
End Reviews.

(** ** Memory *)

(** The rows of the candidate of a write; the first one speaks for them. *)
Definition decided (decisions : list pyctx) (digest : string) : list pyctx :=
  List.filter (fun d => (text_cell "candidate_digest" d =? digest)%string) decisions.

Definition write_bound (decisions : list pyctx) (allowed : bool) (e : TraceEvent) : Prop :=
  meta "candidate_digest" e <> "" /\
  exists d l, decided decisions (meta "candidate_digest" e) = d :: l /\
    (l <> [] -> memory_decisions_conflict (d :: l) = false) /\
    text_cell "decision" d ∈ (if allowed then ["allow"] else ["deny"; "skip"]) /\
    (allowed = true <-> text_cell "write_ref" d <> "") /\
    (allowed = true -> agree (meta "write_ref" e) (text_cell "write_ref" d)) /\
    agree (meta "rule_id" e) (text_cell "rule_id" d).

Lemma ref_no_error blocked ref e :
  no_error (if negb blocked && negb (str_truthy ref)
            then at_event "error" "memory_decision_allow_missing_write_ref" e
            else if blocked && str_truthy ref
            then at_event "error" "memory_decision_blocked_has_write_ref" e else Passed) <->
  (blocked = false <-> ref <> "").
Proof.
  rewrite <- str_truthy_true. destruct blocked, (str_truthy ref); cbn;
    rewrite ?no_error_at_error, ?no_error_pass; naive_solver.
Qed.

Lemma check_memory_write_clean decisions (allowed : bool) e :
  clean (check_memory_write decisions (if allowed then ["allow"] else ["deny"; "skip"]) e) <->
  write_bound decisions allowed e.
Proof.
  unfold check_memory_write, write_bound, decided. cbv zeta.
  replace (negb (mem "allow" (if allowed then ["allow"] else ["deny"; "skip"]))) with (negb allowed) by by destruct allowed.
  rewrite <- str_truthy_true. destruct (str_truthy (meta "candidate_digest" e)); [|simp_clean; naive_solver].
  destruct (List.filter _ decisions) as [|d l]; [simp_clean; naive_solver|].
  rewrite clean_app, clean_hold, clean_cons, ref_no_error, !clean_hold, clean_nil, negb_differs, mem_true, negb_false_iff.
  assert (Hc : clean (if nonempty l then [if memory_decisions_conflict (d :: l)
      then at_event "error" "memory_decision_duplicate_conflict" e
      else at_event "warning" "memory_decision_duplicate" e] else []) <->
    (l <> [] -> memory_decisions_conflict (d :: l) = false)).
  { destruct l as [|b l]; cbn [nonempty]; [simp_clean; naive_solver|].
    destruct (memory_decisions_conflict _); simp_clean; naive_solver. }
  rewrite Hc, negb_involutive, negb_true_iff, andb_false_iff, differs_false. destruct allowed; naive_solver.
Qed.

Record memory_agrees (events : list TraceEvent) (f : Facts) : Prop := {
  ma_allowed : forall e, e ∈ events -> category_of e = MemoryWriteAllowed -> write_bound (f_memory f) true e;
  ma_blocked : forall e, e ∈ events -> category_of e = MemoryWriteBlocked -> write_bound (f_memory f) false e;
  ma_read : forall e, e ∈ events -> tagged "MEMORY_READ_ALLOWED" e = true -> meta "decision_id" e <> "" ->
    exists d, row_by_id (meta "decision_id" e) (f_reads f) = Some d;
  ma_denied : forall e d, e ∈ events -> tagged "MEMORY_READ_ALLOWED" e = false -> tagged "MEMORY_READ_DENIED" e = true ->
    meta "decision_id" e <> "" ->
    List.find (fun d => (text_cell "decision_id" d =? meta "decision_id" e)%string) (f_reads f) = Some d ->
    truthy (cell "exposed_to_node" d) = false;
}.

Lemma check_memory_read_clean decisions e :
  clean (check_memory_read decisions e) <->
  (tagged "MEMORY_READ_ALLOWED" e = true -> meta "decision_id" e <> "" ->
   exists d, row_by_id (meta "decision_id" e) decisions = Some d) /\
  (tagged "MEMORY_READ_ALLOWED" e = false -> tagged "MEMORY_READ_DENIED" e = true -> meta "decision_id" e <> "" ->
   forall d, List.find (fun d => (text_cell "decision_id" d =? meta "decision_id" e)%string) decisions = Some d ->
   truthy (cell "exposed_to_node" d) = false).
Proof.
  unfold check_memory_read. cbv zeta. rewrite <- str_truthy_true.
  destruct (tagged "MEMORY_READ_ALLOWED" e).
  { rewrite clean_hold, clean_nil. destruct (str_truthy _), (row_by_id _ decisions); cbn; naive_solver. }
  destruct (tagged "MEMORY_READ_DENIED" e), (str_truthy _); cbn [andb]; try (simp_clean; naive_solver).
  destruct (List.find _ decisions) as [d|]; [rewrite clean_flag|simp_clean]; naive_solver.
Qed.

Lemma memory_clean events f :
  clean (check_memory_decision_binding (f_memory f) events ++ check_memory_read_binding (f_reads f) events) <->
  memory_agrees events f.
Proof.
  unfold check_memory_decision_binding, check_memory_read_binding. rewrite !clean_app, !clean_flat_map.
  setoid_rewrite elem_category. setoid_rewrite (check_memory_write_clean _ true).
  setoid_rewrite (check_memory_write_clean _ false). setoid_rewrite check_memory_read_clean.
  assert (Hw : forall d, clean (check_read_traced events d)).
  { intros d. unfold check_read_traced. cbv zeta. apply clean_flag_warn. done. }
  split; [intros ([H1 H2] & H3 & _); split; naive_solver | intros []; naive_solver].
Qed.

(** ** Adapters *)

(** A row of the given polarity for this node and step. *)
Definition access_bound (decisions : list pyctx) (polarity : string) (e : TraceEvent) (id : string) : Prop :=
  exists d, row_by_id id decisions = Some d /\ py_eq (cell "decision" d) (VStr polarity) = true /\ same_turn d e = true.

Lemma check_adapter_ids_clean decisions polarity e ids :
  clean (check_adapter_ids decisions polarity e ids) <-> forall id, id ∈ ids -> access_bound decisions polarity e id.
Proof.
  unfold check_adapter_ids, access_bound. rewrite clean_flat_map.
  apply forall_proper. intros id. apply forall_proper. intros _.
  destruct (row_by_id id decisions) as [d|]; [|simp_clean; naive_solver].
  destruct (py_eq (cell "decision" d) _) eqn:E; cbn [negb]; simp_clean.
  - rewrite clean_flag, negb_false_iff. naive_solver.
  - split; [by intros []|]. intros (? & [= <-] & ? & _). congruence.
Qed.

Record adapters_agree (events : list TraceEvent) (f : Facts) : Prop := {
  (** the decisions an event names are stored, with its polarity and place *)
  da_allow : forall e id, e ∈ events -> tagged "ADAPTER_ACCESS" e = true -> id ∈ ids_at "allow_decision_ids" e ->
    access_bound (f_adapters f) "allow" e id;
  da_deny : forall e id, e ∈ events -> tagged "ADAPTER_ACCESS" e = true -> id ∈ ids_at "deny_decision_ids" e ->
    access_bound (f_adapters f) "deny" e id;
  da_named : forall e id, e ∈ events -> tagged "ADAPTER_ACCESS" e = true -> id ∈ ids_at "decision_ids" e ->
    exists d, row_by_id id (f_adapters f) = Some d;
  (** a call of an adapter has been allowed; a denied adapter is not called *)
  da_call : forall e, e ∈ events -> tagged "TOOL_CALLED" e = true -> meta "adapter" e <> "" ->
    exists d, d ∈ f_adapters f /\ allows d = true /\ same_turn d e = true /\ text_cell "adapter_name" d = meta "adapter" e;
  da_denied : forall e c a, e ∈ events -> c ∈ events -> tagged "ADAPTER_ACCESS_DENIED" e = true ->
    a ∈ ids_at "ungranted" e -> calls a e c = false;
}.

Lemma check_adapter_call_clean decisions e :
  clean (check_adapter_call decisions e) <->
  (tagged "TOOL_CALLED" e = true -> meta "adapter" e <> "" ->
   exists d, d ∈ decisions /\ allows d = true /\ same_turn d e = true /\ text_cell "adapter_name" d = meta "adapter" e).
Proof.
  unfold check_adapter_call. cbv zeta. rewrite clean_flag, !andb_false_iff, negb_false_iff, existsb_elem, <- str_truthy_true.
  assert (Hd : forall d, allows d && same_turn d e && (text_cell "adapter_name" d =? meta "adapter" e)%string = true <->
    allows d = true /\ same_turn d e = true /\ text_cell "adapter_name" d = meta "adapter" e).
  { intros d. rewrite andb_true_iff, andb_true_iff, String.eqb_eq. tauto. }
  setoid_rewrite Hd. destruct (tagged _ e), (str_truthy _); intuition (discriminate || eauto).
Qed.

Lemma check_adapter_denied_clean events e :
  clean (check_adapter_denied events e) <->
  (tagged "ADAPTER_ACCESS_DENIED" e = true -> forall a c, a ∈ ids_at "ungranted" e -> c ∈ events -> calls a e c = false).
Proof.
  unfold check_adapter_denied. destruct (tagged _ e); [|simp_clean; naive_solver].
  rewrite clean_flat_map. setoid_rewrite clean_flag. setoid_rewrite existsb_false. naive_solver.
Qed.

Lemma check_adapter_event_clean decisions e :
  clean (check_adapter_event decisions e) <->
  (tagged "ADAPTER_ACCESS" e = true ->
   (forall id, id ∈ ids_at "allow_decision_ids" e -> access_bound decisions "allow" e id) /\
   (forall id, id ∈ ids_at "deny_decision_ids" e -> access_bound decisions "deny" e id) /\
   (forall id, id ∈ ids_at "decision_ids" e -> exists d, row_by_id id decisions = Some d)).
Proof.
  unfold check_adapter_event. destruct (tagged _ e); cbn [negb]; [|simp_clean; naive_solver].
  rewrite !clean_app, !check_adapter_ids_clean, clean_flat_map.
  assert (Hd : forall id, clean match row_by_id id decisions with
      | None => [at_event "error" "adapter_access_trace_missing_durable" e] | Some _ => [] end <->
    exists d, row_by_id id decisions = Some d).
  { intros id. destruct (row_by_id id decisions); simp_clean; naive_solver. }
  setoid_rewrite Hd. naive_solver.
Qed.

Lemma adapters_clean events f :
  clean (check_adapter_access_binding (f_adapters f) events) <-> adapters_agree events f.
Proof.
  unfold check_adapter_access_binding. rewrite !clean_app, !clean_flat_map.
  setoid_rewrite check_adapter_event_clean. setoid_rewrite check_adapter_call_clean.
  setoid_rewrite check_adapter_denied_clean.
  split; [intros (H1 & H2 & H3); split; naive_solver | intros []; naive_solver].
Qed.

(** ** Package trust *)

Record trust_bound (d : pyctx) (e : TraceEvent) : Prop := {
  tb_polarity : py_eq (cell "decision" d) (VStr (if tagged "ALLOWED" e then "allow" else "deny")) = true;
  tb_node : py_eq (cell "node_id" d) (VStr (node_of e)) = true;
  tb_step : py_eq (cell "step_id" d) (VInt (step_of e)) = true;
  tb_privileged : context_get "is_privileged" (event_metadata e) <> VNone ->
    truthy (context_get "is_privileged" (event_metadata e)) = truthy (cell "is_privileged" d);
  tb_fields : forall k, k ∈ trust_fields -> meta k e <> "" /\ agree (meta k e) (text_cell k d);
}.

Record trust_agrees (events : list TraceEvent) (f : Facts) : Prop := {
  (** nothing privileged happens where trust was denied, or never decided *)
  ta_not_denied : forall e d, e ∈ events -> privileged e = true -> d ∈ f_trust f -> same_turn d e = true -> allows d = true;
  ta_allowed : forall e, e ∈ events -> privileged e = true -> f_trust f <> [] ->
    exists d, d ∈ f_trust f /\ allows d = true /\ same_turn d e = true;
  (** a decision an event names is stored as the event tells it *)
  ta_event : forall e, e ∈ events -> tagged "PACKAGE_TRUST" e = true -> meta "decision_id" e <> "" ->
    exists d, row_by_id (meta "decision_id" e) (f_trust f) = Some d /\ trust_bound d e;
}.

Lemma check_privileged_clean decisions e :
  clean (check_privileged decisions e) <->
  (privileged e = true ->
   (forall d, d ∈ decisions -> same_turn d e = true -> allows d = true) /\
   (decisions <> [] -> exists d, d ∈ decisions /\ allows d = true /\ same_turn d e = true)).
Proof.
  unfold check_privileged. destruct (privileged e); cbn [negb]; [|simp_clean; naive_solver].
  assert (Hn : existsb (fun d => negb (allows d) && same_turn d e) decisions = false <->
    (forall d, d ∈ decisions -> same_turn d e = true -> allows d = true)).
  { rewrite existsb_false. apply forall_proper. intros d. destruct (allows d), (same_turn d e); cbn; naive_solver. }
  assert (Ha : existsb (fun d => allows d && same_turn d e) decisions = true <->
    exists d, d ∈ decisions /\ allows d = true /\ same_turn d e = true).
  { rewrite existsb_elem. by setoid_rewrite andb_true_iff at 1. }
  destruct (existsb (fun d => negb _ && _) decisions).
  { simp_clean. split; [by intros []|]. intros H. destruct (H eq_refl) as [H1 _]. by apply Hn in H1. }
  rewrite clean_flag, andb_false_iff, negb_false_iff, Ha.
  assert (nonempty decisions = false <-> decisions = []) as -> by by destruct decisions.
  destruct Hn as [Hn _]. specialize (Hn eq_refl). split.
  - intros H _. split; [done|]. intros Hd. by destruct H.
  - intros H. destruct (H eq_refl) as [_ H2]. destruct decisions; [by right | left; by apply H2].
Qed.

Lemma clean_flag_neg (b : bool) c e : clean (if negb b then [at_event "error" c e] else []) <-> b = true.
Proof. by rewrite clean_flag, negb_false_iff. Qed.

Lemma check_trust_event_clean decisions e :
  clean (check_trust_event decisions e) <->
  (tagged "PACKAGE_TRUST" e = true -> meta "decision_id" e <> "" ->
   exists d, row_by_id (meta "decision_id" e) decisions = Some d /\ trust_bound d e).
Proof.
  unfold check_trust_event. cbv zeta. rewrite <- str_truthy_true.
  destruct (tagged "PACKAGE_TRUST" e), (str_truthy (meta "decision_id" e)); cbn [negb andb];
    try (simp_clean; naive_solver).
  destruct (row_by_id _ decisions) as [d|]; [|simp_clean; naive_solver].
  transitivity (trust_bound d e); [|naive_solver].
  rewrite !clean_app, !clean_flag_neg, clean_flag, clean_flat_map.
  assert (Hf : (forall k, k ∈ trust_fields -> clean (if negb (str_truthy (meta k e))
      then [at_event "error" "package_trust_metadata_missing" e]
      else if differs (meta k e) (text_cell k d) then [at_event "error" "package_trust_metadata_mismatch" e] else [])) <->
    forall k, k ∈ trust_fields -> meta k e <> "" /\ agree (meta k e) (text_cell k d)).
  { apply forall_proper. intros k. apply forall_proper. intros _. rewrite <- str_truthy_true, <- differs_false.
    destruct (str_truthy (meta k e)); cbn [negb]; [rewrite clean_flag | simp_clean]; naive_solver. }
  rewrite Hf. clear Hf.
  assert (Hp : match context_get "is_privileged" (event_metadata e) with
      | VNone => false | v => negb (Bool.eqb (truthy v) (truthy (cell "is_privileged" d))) end = false <->
    (context_get "is_privileged" (event_metadata e) <> VNone ->
     truthy (context_get "is_privileged" (event_metadata e)) = truthy (cell "is_privileged" d))).
  { destruct (context_get _ _); try (rewrite negb_false_iff, Bool.eqb_true_iff); naive_solver. }
  rewrite Hp. split; [intros (? & ? & ? & ? & ?); by split | by intros []; split_and!].
Qed.

Lemma trust_clean events f :
  clean (check_package_trust_binding (f_trust f) events) <-> trust_agrees events f.
Proof.
  unfold check_package_trust_binding. rewrite clean_app, !clean_flat_map.
  setoid_rewrite check_privileged_clean. setoid_rewrite check_trust_event_clean.
  split; [intros [H1 H2]; split; naive_solver | intros []; naive_solver].
Qed.

(** ** The report *)

Section Audit.
Context (list_of_set : list string -> list string) (sha256 : string -> string).
Hypothesis list_of_set_elems : forall l x, x ∈ list_of_set l <-> x ∈ l.

(** The trace and the tables of the run tell the same story. *)
Record agrees (nodes : dict NodeContract) (origins : list (string * pyctx)) (t : ChainTrace) (f : Facts) : Prop := {
  ag_steps : steps_agree (tr_events t) f;
  ag_effects : effects_agree nodes (tr_events t) f;
  ag_recovery : recovery_agrees origins f;
  ag_reviews : reviews_agree sha256 (tr_run_id t) (tr_events t) f;
  ag_memory : memory_agrees (tr_events t) f;
  ag_adapters : adapters_agree (tr_events t) f;
  ag_trust : trust_agrees (tr_events t) f;
}.

Lemma audit_clean nodes origins t f :
  clean (audit list_of_set sha256 nodes origins t f) <-> agrees nodes origins t f.
Proof.
  unfold audit. cbv zeta.
  pose proof (steps_clean t f) as Hs. unfold step_checks in Hs. cbv zeta in Hs.
  pose proof (effects_clean list_of_set list_of_set_elems nodes origins t f) as He. pose proof (reviews_clean sha256 (tr_run_id t) (tr_events t) f) as Hr.
  pose proof (memory_clean (tr_events t) f) as Hm.
  rewrite !clean_app in Hs. rewrite clean_app in Hr. rewrite clean_app in Hm. rewrite !clean_app, He, adapters_clean, trust_clean.
  assert (Hf : clean (flat_map check_failed (of_category NodeFailed (tr_events t)))).
  { apply clean_flat_map. intros e _. unfold check_failed. by simp_clean. }
  pose proof (check_terminal_clean (tr_events t) (tr_final_status t)) as Ht.
  pose proof (clean_all_passed (of_category BranchCompleted (tr_events t) ++ of_category BranchFailed (tr_events t))) as Hb.
  pose proof (clean_all_passed (of_category JoinCompleted (tr_events t))) as Hj.
  split.
  - intros (H1 & _ & H2 & [H3 H4] & H5 & H6 & H7 & H8 & H9 & H10 & _ & _ & _ & H11 & H12).
    split; try done; [apply Hs | apply Hr | apply Hm]; by split_and!.
  - intros [(H1 & H2 & H3 & H4)%Hs H5 H6 [H7 H8]%Hr [H9 H10]%Hm H11 H12]. by split_and!.
Qed.
End Audit.

(** C7: The reconciler is exact: its report has no error precisely when the
    trace and the tables of its run agree - step by step, effect by effect,
    review by review, and for memory, adapters and package trust - as they
    are after the repair it was asked for, which has to succeed. *)
Theorem reconcile_decides (list_of_set : list string -> list string) (sha256 : string -> string) {Json : Type}
  (parse : Json -> option ChainState) nodes origins (repair : bool) now t st logs db db' metrics report :
  (forall l x, x ∈ list_of_set l <-> x ∈ l) ->
  reconcile list_of_set sha256 parse nodes origins repair now t st logs db = (db', metrics, report) ->
  is_clean report = true <->
  agrees sha256 nodes origins t (load_facts parse (tr_run_id t) st db' logs) /\
  (repair = true ->
     is_ok (SideEffectLedger.reconcile_expired_recovery_children (tr_run_id t) now db) = true).
Proof.
  intros Hset. unfold reconcile. cbv zeta. destruct repair.
  - destruct (SideEffectLedger.reconcile_expired_recovery_children _ now db) as [[db1 repaired]|x];
      intros [= <- <- <-]; rewrite is_clean_spec, ?clean_cons, ?no_error_err, audit_clean by done; naive_solver.
  - intros [= <- <- <-]. rewrite is_clean_spec, audit_clean by done. naive_solver.
Qed.
