(* ===== verification/ReviewTrail.v ===== *)
(** * The trail of a review

    What the review manager commits and logs, the reconciler accepts: a stored
    receipt reads back as the receipt that was issued, and the events, the
    state and the attempt row of a review bind.  A small run, reconciled. *)
From S2P Require Import Prelude PyFloat PyValue Sql Contract ChainState StateStore Persistence.
From S2P Require Import ReviewWorkbench ReviewManager Trace TraceReconciler TraceAudit.
From S2P Require SideEffectLedger DecisionLog.

(** The value of a recorded row at a column. *)
Ltac at_column Hc c :=
  let H := fresh in assert (H := Hc c ltac:(repeat first [left | right])); injection H as <-.

Section Trail.
Context (sha256 : string -> string) (instant_of : string -> option Z).
Context (sha256_nonempty : forall x, sha256 x <> "").
Context {Json : Type} (dump : ChainState -> Json) (parse : Json -> option ChainState).
Context (Hparse : forall x, parse (dump x) = Some x).
Implicit Types (w : RvWorld Json).

(** ** Receipts *)

(** A stored receipt is read back as it was. *)
Lemma rebuild_stored c : check_decision (rc_decision c) = Some (rc_decision c) ->
  rebuild_receipt (receipt_dict sha256 c) = Some c.
Proof.
  intros Hd. unfold rebuild_receipt, receipt_dict, decision_dict. cbn [dict_at text_at dget String.eqb].
  destruct c as [? [] ? ? ? ? ? ? ? ? ?]. cbn in *. by rewrite Hd.
Qed.

Lemma recomputed_stored c : check_decision (rc_decision c) = Some (rc_decision c) ->
  recomputed_receipt_digest sha256 (Some (receipt_dict sha256 c)) = receipt_digest sha256 c.
Proof.
  intros Hd. pose proof (rebuild_stored c Hd) as H. unfold recomputed_receipt_digest.
  destruct (receipt_dict sha256 c) eqn:E; [done|]. by rewrite H.
Qed.

Lemma recomputed_asked r : persistable r ->
  recomputed_request_digest sha256 (Some (request_dict sha256 r)) = request_digest sha256 r.
Proof.
  intros Hp. destruct (rebuild_persisted sha256 r Hp) as (r' & H & Hd & _). unfold recomputed_request_digest.
  destruct (request_dict sha256 r) eqn:E; [done|]. by rewrite H.
Qed.

(** ** The row of an attempt *)

Definition attempt_is (r : ReviewRequest) (run identity oc reason : string) (ok : bool) (row : pyctx) : Prop :=
  text_cell "run_id" row = run /\ text_cell "request_id" row = request_id r /\
  text_cell "request_digest" row = request_digest sha256 r /\
  text_cell "subject_type" row = subject_type (subject r) /\ text_cell "subject_id" row = subject_id (subject r) /\
  cell "attempted_outcome" row = VStr oc /\ text_cell "reviewer_identity" row = identity /\
  is_admitted row = ok /\ text_cell "rejection_reason" row = reason.

Lemma attempt_recorded dr d r v s stp identity oc w : - 2 ^ 63 <= stp < 2 ^ 63 ->
  exists row, record_review_attempt sha256 dr d r v s stp identity oc w =
      (mkRvWorld (rw_state w) (rw_store w)
         (DecisionLog.insert_or_replace DecisionLog.review_decision_attempts row (rw_attempts w)) (rw_trace w), Ok tt) /\
    attempt_is r (run_id s) identity oc (if admissible v then "" else rejection_reason v) (admissible v) row.
Proof.
  intros Hs. unfold record_review_attempt, DecisionLog.record_review_attempt.
  assert (Hsc : DecisionLog.review_decision_attempts ∈ DecisionLog.schemas) by (right; left).
  destruct (DecisionLog.record _ _ _ _) as [t'|x] eqn:E.
  - apply (DecisionLog.record_spec _ _ _ _ _ Hsc) in E as (row & -> & _ & Hc). exists row. split; [done|].
    unfold attempt_is, text_cell, is_admitted.
    at_column Hc (DecisionLog.text_nn "run_id"). at_column Hc (DecisionLog.text "request_id").
    at_column Hc (DecisionLog.text "request_digest"). at_column Hc (DecisionLog.text "subject_type").
    at_column Hc (DecisionLog.text "subject_id"). at_column Hc (DecisionLog.text "attempted_outcome").
    at_column Hc (DecisionLog.text "reviewer_identity"). destruct (admissible v); at_column Hc (DecisionLog.flag_column "admitted");
      at_column Hc (DecisionLog.text "rejection_reason"); by split_and!.
  - exfalso. match type of E with
      DecisionLog.record ?sc ?now ?a ?t = _ => pose proof (DecisionLog.decision_recorded sc now a t Hsc) as H
    end.
    rewrite E in H. destruct H as (c & Hc & Hx).
    unfold DecisionLog.columns, DecisionLog.review_decision_attempts in Hc. rewrite !elem_of_cons, elem_of_nil in Hc.
    destruct_or! Hc; try done; subst c; cbn in Hx; try discriminate.
    + assert ((- 2 ^ 63 <=? stp) && (stp <? 2 ^ 63) = true) as Hb by lia.
      unfold DecisionLog.stored_value, DecisionLog.bind_value in Hx. by rewrite Hb in Hx.
    + by destruct (admissible v).
Qed.

(** ** The settled review *)

(** The attempt of a verified decision; what the run has of attempts is this
    row. *)
Definition only_attempt (run : string) (row : pyctx) (attempts : list pyctx) : Prop :=
  List.filter (fun a => (text_cell "run_id" a =? run)%string)
    (DecisionLog.get_review_attempts None None None attempts) = [row].

Definition untried (run : string) (attempts : list pyctx) : Prop :=
  forall a, a ∈ attempts -> text_cell "run_id" a <> run.

#[local] Instance filter_permutes {A} (p : A -> bool) : Proper ((≡ₚ) ==> (≡ₚ)) (List.filter p).
Proof.
  intros l k H. induction H as [|x l k _ IH|x y l|l k m _ IH1 _ IH2]; cbn.
  - done.
  - destruct (p x); by rewrite IH.
  - destruct (p x), (p y); try done. apply perm_swap.
  - by rewrite IH1.
Qed.

Lemma filter_none {A} (p : A -> bool) l : (forall x, x ∈ l -> p x = false) -> List.filter p l = [].
Proof.
  induction l as [|x l IH]; intros H; cbn; [done|]. rewrite (H x) by left. apply IH. intros y Hy. apply H. by right.
Qed.

Lemma only_recorded run row attempts : untried run attempts -> text_cell "run_id" row = run ->
  only_attempt run row (DecisionLog.insert_or_replace DecisionLog.review_decision_attempts row attempts).
Proof.
  intros Hu Hr. unfold only_attempt, DecisionLog.get_review_attempts, DecisionLog.query.
  apply Permutation_singleton_r. rewrite py_sorted_perm. unfold DecisionLog.insert_or_replace, select.
  rewrite !List.filter_app. cbn [List.filter DecisionLog.where_clause forallb snd fst fmap option_fmap option_map andb].
  rewrite Hr, String.eqb_refl, filter_none; [done|].
  intros x [_ [_ Hx]%elem_of_lfilter]%elem_of_lfilter. by apply String.eqb_neq, Hu.
Qed.

(** What a review leaves behind, as the reconciler reads it. *)
Definition trail_binds (run : string) (s : ChainState) (attempts : list pyctx) (ev : TraceEvent) : Prop :=
  let receipt := stored_dict "governed_decision_receipt" (Some s) in
  category_of ev = ReviewCompleted /\
  (event_decision ev = "governance_failure" -> forall kv l, receipt <> Some (kv :: l)) /\
  (event_decision ev <> "governance_failure" -> exists c, receipt = Some c /\
     receipt_bound sha256 (stored_dict "governed_review_request" (Some s)) c ev) /\
  attempts_behind receipt (List.filter (fun a => (text_cell "run_id" a =? run)%string)
    (DecisionLog.get_review_attempts None None None attempts)) ev.

Definition admitted_event (t : Tx) (s : ChainState) (stp : Z) (decision identity : string) (r : ReviewRequest)
  (c : DecisionReceipt) : TraceEvent :=
  review_event t s stp "human_review_completed" "human" decision []
    [ ("receipt_id", VStr (receipt_id c)); ("receipt_digest", VStr (receipt_digest sha256 c));
      ("subject_type", VStr (subject_type (subject r))); ("request_id", VStr (request_id r));
      ("request_digest", VStr (request_digest sha256 r)); ("reviewer_identity", VStr identity) ].

(** An issued receipt and the event of its decision. *)
Lemma issued_bound t s stp decision identity r d :
  check_decision d = Some d -> persistable r -> request_id r <> "" ->
  let c := issue_receipt sha256 default_policy d r in
  receipt_bound sha256 (Some (request_dict sha256 r)) (receipt_dict sha256 c)
    (admitted_event t s stp decision identity r c).
Proof.
  intros Hd Hp Hid c.
  assert (Hc : check_decision (rc_decision c) = Some (rc_decision c)) by exact Hd.
  assert (Hcom : is_committed sha256 c = true).
  { pose proof (issued_verifies sha256 sha256_nonempty default_policy d r) as H.
    unfold verify_receipt in H. rewrite !andb_true_iff in H. apply H. }
  split; rewrite ?(recomputed_stored c Hc), ?(recomputed_asked r Hp); try reflexivity.
  - intros k Hk. unfold receipt_keys in Hk. rewrite !elem_of_cons, elem_of_nil in Hk.
    destruct_or! Hk; try done; subst k; first [exact Hid | apply sha256_nonempty | discriminate].
  - cbn. by rewrite Hcom.
Qed.

Lemma agree_refl a : agree a a.
Proof. done. Qed.

Lemma issued_attempt_bound t s stp decision identity r d row run :
  ReviewWorkbench.outcome d = decision -> reviewer_identity d = identity -> subject_type (subject r) = SUBJECT_CHAIN_REVIEW ->
  attempt_is r run identity decision "" true row ->
  let c := issue_receipt sha256 default_policy d r in
  attempt_bound (Some (receipt_dict sha256 c)) row (admitted_event t s stp decision identity r c).
Proof.
  intros Ho Hi Hs (H1 & H2 & H3 & H4 & H5 & H6 & H7 & H8 & H9) c. split.
  - rewrite H3. apply agree_refl.
  - rewrite H4, Hs. apply agree_refl.
  - intros kv l [= <- <-]. cbv zeta. rewrite H2, H3, H4, H5, H6, H7. cbn. rewrite Ho, String.eqb_refl, Hi. split_and!; apply agree_refl || done.
Qed.

Lemma chain_decision_checked decision ty e dr risk r :
  chain_review_decision_type decision = Some ty ->
  let d := runtime_decision sha256 e dr risk ty r in
  check_decision d = Some d /\ ReviewWorkbench.outcome d = decision /\ decision <> "timeout" /\
  decision <> "governance_failure".
Proof.
  unfold chain_review_decision_type, check_decision. cbn [dget].
  repeat (case_goal; [bool_prop; intros [= <-]; subst; by split_and! |]). discriminate.
Qed.

(** A state that waits for the review of a request. *)
Record asked (r : ReviewRequest) (w : RvWorld Json) : Prop := {
  as_good : good parse w;
  as_waiting : status (rw_state w) = "waiting_for_review";
  as_request : dget "governed_review_request" (metadata (rw_state w)) = Some (VDict (request_dict sha256 r));
  as_no_receipt : dget "governed_decision_receipt" (metadata (rw_state w)) = None;
  as_untried : untried (run_id (rw_state w)) (rw_attempts w);
}.

(** A request of the runtime. *)
Definition runtime_request (r : ReviewRequest) : Prop :=
  persistable r /\ request_id r <> "" /\ subject_type (subject r) = SUBJECT_CHAIN_REVIEW.

Lemma stored_at k s d : dget k (metadata s) = Some (VDict d) -> stored_dict k (Some s) = Some d.
Proof. intros H. unfold stored_dict, context_get, dget_or. by rewrite H. Qed.
Lemma stored_none k s : dget k (metadata s) = None -> stored_dict k (Some s) = None.
Proof. intros H. unfold stored_dict, context_get, dget_or. by rewrite H. Qed.

Lemma admitted_trail run s attempts row t s0 stp decision identity r d :
  check_decision d = Some d -> ReviewWorkbench.outcome d = decision -> reviewer_identity d = identity ->
  decision <> "governance_failure" -> runtime_request r -> attempt_is r run identity decision "" true row ->
  let c := issue_receipt sha256 default_policy d r in
  dget "governed_decision_receipt" (metadata s) = Some (VDict (receipt_dict sha256 c)) ->
  dget "governed_review_request" (metadata s) = Some (VDict (request_dict sha256 r)) ->
  only_attempt run row attempts ->
  trail_binds run s attempts (admitted_event t s0 stp decision identity r c).
Proof.
  intros Hd Ho Hi Hg (Hp & Hid & Hs) Hrow c Hc%stored_at Hr%stored_at Hone. unfold trail_binds. cbv zeta.
  rewrite Hc, Hr, Hone. split; [vm_compute; reflexivity|].
  change (event_decision _) with decision. split; [done|]. split.
  { intros _. exists (receipt_dict sha256 c). split; [done|]. by apply issued_bound. }
  split; [done|]. intros _. exists row, []. split_and!; [|done | by apply (issued_attempt_bound _ _ _ _ _ _ _ _ run)].
  cbn [List.filter]. destruct Hrow as (_ & _ & _ & _ & _ & _ & _ & -> & _). done.
Qed.

Lemma refused_trail run s attempts row reason t s0 stp r :
  dget "governed_decision_receipt" (metadata s) = None -> is_admitted row = false ->
  text_cell "rejection_reason" row = reason -> only_attempt run row attempts ->
  trail_binds run s attempts
    (review_event t s0 stp "human_review_completed" "runtime" "governance_failure"
       [REASON_REVIEW_RECEIPT_VERIFICATION_FAILED; reason]
       [ ("request_id", VStr (request_id r)); ("subject_id", VStr (subject_id (subject r)));
         ("request_digest", VStr (request_digest sha256 r)); ("rejection_reason", VStr reason) ]).
Proof.
  intros Hn%stored_none Hrow Hreason Hone. unfold trail_binds. cbv zeta. rewrite Hn, Hone.
  split; [vm_compute; reflexivity|]. split; [done|]. split; [done|]. split; [|done].
  intros _. exists row. cbn [List.filter]. rewrite Hrow, Hreason. split; [done | apply agree_refl].
Qed.

Lemma settle_binds e dr decision ty r risk stp resolve legacy w w' d :
  asked r w -> runtime_request r -> - 2 ^ 63 <= stp < 2 ^ 63 ->
  chain_review_decision_type decision = Some ty ->
  settle_review sha256 instant_of dump e dr decision r risk stp resolve legacy w = (w', Ok d) ->
  exists ev, rw_trace w' = rw_trace w ++ [ev] /\ run_id (rw_state w') = run_id (rw_state w) /\
    trail_binds (run_id (rw_state w)) (rw_state w') (rw_attempts w') ev.
Proof.
  intros [Hg Hw Hq Hn Hu] (Hp & Hid & Hs) Hstp Hty.
  destruct (chain_decision_checked _ _ e dr risk r Hty) as (Hd & Ho & Ht & Hgf).
  unfold settle_review, materialize_decision_receipt. rewrite (proj2 (String.eqb_neq decision "timeout") Ht), Hty.
  set (od := runtime_decision _ _ _ _ _ _) in *.
  destruct (verify_spec sha256 instant_of default_policy (dr_now dr) od r) as (_ & Hv & _).
  set (v := verify _ _ _ _ od r) in *. cbv zeta. unfold io_bind at 1 2, get_state at 1. unfold io_bind at 1.
  destruct (attempt_recorded dr od r v (rw_state w) stp (default "runtime:auto" (env_reviewer_identity e)) decision w Hstp)
    as (row & -> & Hrow). 
  set (w1 := mkRvWorld _ _ _ _).
  destruct (admissible v) eqn:Ea; cbn [negb].
  - rewrite Hv by done. cbn [receipt]. unfold io_ret at 1. cbv beta iota.
    unfold io_bind, get_state, is_failed_without_receipt. cbn [ri_receipt_id]. rewrite andb_false_r.
    cbn [ri_receipt_dict ri_trace_metadata].
    set (c := issue_receipt sha256 default_policy od r).
    destruct (commit_review_transition _ _ _ _ _ _ w1) as [w2 [u|x]] eqn:Et; [|discriminate].
    apply (transition_spec dump parse Hparse) in Et as (_ & Hat & Htr & Hst); [|done]. intros [= <- <-].
    exists (admitted_event resolve (rw_state w) stp decision (default "runtime:auto" (env_reviewer_identity e)) r c).
    split; [exact Htr|]. change (rw_state w1) with (rw_state w) in *. split; [by rewrite Hst|].
    assert (Hmd : metadata (rw_state w2) =
      dset "governed_decision_receipt" (VDict (receipt_dict sha256 c)) (metadata (rw_state w))) by by rewrite Hst.
    apply (admitted_trail _ _ _ row); try done.
    + rewrite Hmd. apply dget_dset_same.
    + rewrite Hmd, dget_dset. exact Hq.
    + rewrite Hat. apply only_recorded; [done | apply Hrow].
  - unfold io_bind, fail_closed_governance, get_state. unfold io_bind, io_ret.
    destruct (commit_review_transition _ _ _ _ _ _ w1) as [w2 [u|x]] eqn:Et; [|discriminate].
    apply (transition_spec dump parse Hparse) in Et as (_ & Hat & Htr & Hst); [|done].
    assert (is_failed_without_receipt (rw_state w2) no_receipt = true) as -> by by rewrite Hst.
    intros [= <- <-]. eexists. split; [exact Htr|]. change (rw_state w1) with (rw_state w) in *.
    split; [by rewrite Hst|].
    apply (refused_trail _ _ _ row (rejection_reason v)); try done; [|apply Hrow|apply Hrow|].
    + rewrite Hst. cbn. rewrite dget_dset. exact Hn.
    + rewrite Hat. apply only_recorded; [done | apply Hrow].
Qed.

(** ** The requested review *)

Lemma request_binds e answer dr created paused pause resolve risk stp w w' d :
  good parse w -> dget "governed_decision_receipt" (metadata (rw_state w)) = None ->
  untried (run_id (rw_state w)) (rw_attempts w) -> - 2 ^ 63 <= stp < 2 ^ 63 ->
  said e answer ∈ ["approve"; "reject"; "request_revision"] ->
  request_review sha256 instant_of dump e answer dr created paused pause resolve risk stp w = (w', Ok d) ->
  exists ask ev, rw_trace w' = rw_trace w ++ [ask; ev] /\ category_of ask = ReviewRequested /\
    run_id (rw_state w') = run_id (rw_state w) /\ trail_binds (run_id (rw_state w)) (rw_state w') (rw_attempts w') ev.
Proof.
  intros Hg Hn Hu Hstp Hans. unfold request_review. unfold io_bind at 1, get_state at 1. cbv zeta.
  set (r := build_governed_review_request _ _ _ _ _ _).
  unfold io_bind at 1. destruct (commit_review_transition _ pause _ _ _ _ w) as [w1 [u|x]] eqn:Et; [|discriminate].
  apply (transition_spec dump parse Hparse) in Et as (Hg1 & Hat & Htr & Hst); [|done].
  unfold io_bind at 1, get_state at 1. unfold io_bind at 1, lift.
  destruct (get_decision e answer (outputs (rw_state w1))) as [decision|x] eqn:Ed; [|discriminate].
  assert (Hty : exists ty, chain_review_decision_type decision = Some ty).
  { pose proof (get_decision_spec e answer (outputs (rw_state w1))) as H. rewrite Ed in H. subst decision.
    rewrite !elem_of_cons, elem_of_nil in Hans. destruct Hans as [->|[->|[->|[]]]]; by eexists. }
  destruct Hty as [ty Hty]. intros H.
  assert (Hrun : run_id (rw_state w1) = run_id (rw_state w)) by by rewrite Hst.
  assert (Ha : asked r w1).
  { split; [done | by rewrite Hst | | | by rewrite Hrun, Hat].
    + rewrite Hst. cbn. rewrite !dget_dset. reflexivity.
    + rewrite Hst. cbn. rewrite !dget_dset. exact Hn. }
  assert (Hr : runtime_request r).
  { split; [split_and!; [by apply mem_true | by apply mem_true | done] | split; [discriminate | done]]. }
  destruct (settle_binds e dr decision ty _ _ _ _ _ _ _ _ Ha Hr Hstp Hty H) as (ev & Htr' & Hrun' & Hb).
  rewrite Htr, <- app_assoc in Htr'. eexists _, ev. split; [exact Htr'|].
  split; [vm_compute; reflexivity|]. split; [congruence | by rewrite <- Hrun].
Qed.

(** C8: The first review of a run leaves a trail the reconciler finds no error
    in.  Take a run whose trace has no completed review, whose state holds no
    receipt and which has no logged attempt, and let [request_review] (not the
    resume of a paused review) come back with an answer of the vocabulary:
    approve, reject or request revision.  Whether the decision was admitted or
    refused, the reconciler that loads the run from the database, with the
    attempts that were logged, then finds the receipt or the failure, the
    request and the attempt of that one completed review in agreement with its
    event.  A second review of the same run overwrites the one receipt the
    state holds, and is not covered. *)
Theorem review_trail_reconciles e answer dr created paused pause resolve risk stp w w' d db logs :
  good parse w -> (forall ev, ev ∈ rw_trace w -> category_of ev <> ReviewCompleted) ->
  dget "governed_decision_receipt" (metadata (rw_state w)) = None ->
  untried (run_id (rw_state w)) (rw_attempts w) -> - 2 ^ 63 <= stp < 2 ^ 63 ->
  said e answer ∈ ["approve"; "reject"; "request_revision"] ->
  request_review sha256 instant_of dump e answer dr created paused pause resolve risk stp w = (w', Ok d) ->
  dget_or "review_decision_attempts" [] logs = rw_attempts w' ->
  let run := run_id (rw_state w) in
  let f := load_facts parse run (rw_store w') db logs in
  is_clean (report_of (check_review_receipt_binding sha256 (f_state f) (rw_trace w')
                       ++ check_review_attempt_binding run (f_state f) (f_attempts f) (rw_trace w'))) = true.
Proof.
  intros Hg Hold Hn Hu Hstp Hans H Hlogs run f.
  assert (Hg' := H). apply (review_fail_closed_core sha256 instant_of sha256_nonempty dump parse Hparse) in Hg' as [Hg' _]; [|done].
  apply request_binds in H as (ask & ev & Htr & Hask & Hrun & _ & H1 & H2 & H3); try done.
  rewrite is_clean_spec, (reviews_clean sha256 run (rw_trace w') f). unfold reviews_agree. subst f. unfold load_facts. cbn [f_state f_attempts].
  assert (Hl : load parse run (rw_store w') = Some (rw_state w')).
  { destruct Hg' as [[Hl _] _]. by rewrite <- Hl, Hrun. }
  rewrite Hl. intros e' He Hc _.
  assert (e' = ev) as ->.
  { rewrite Htr, elem_of_app, !elem_of_cons, elem_of_nil in He. destruct He as [He|[->|[->|[]]]]; [|congruence|done].
    by destruct (Hold e' He). }
  cbv zeta. split_and!; try done. change (dget_or (DecisionLog.table_name _) [] logs)
    with (dget_or "review_decision_attempts" [] logs). by rewrite Hlogs.
Qed.
End Trail.

(** ** A short run, reconciled *)

Definition demo_trace (events : list TraceEvent) : ChainTrace := mkChainTrace "r" events (Some "completed").
Definition demo_logs (attempts : list pyctx) : dict (list pyctx) := [("review_decision_attempts", attempts)].
Definition demo_tables_none : Db := SideEffectLedger.mkDb [] [] [] [] [].
(** The ledger of effects is empty in this run. *)
Abbreviation demo_reviewed mode now := (fst (demo_review mode now)).
Abbreviation demo_report events attempts :=
  (reconcile (fun l => l) demo_sha (@Some ChainState) [] [] true 0 (demo_trace events)
     (rw_store (demo_reviewed "auto-approve" 5)) (demo_logs attempts) demo_tables_none).

Definition checks_that_failed (r : ReconciliationReport) : list string := map check (errors r).

Lemma reconcile_decides_witness :
  let w := demo_reviewed "auto-approve" 5 in
  agrees demo_sha [] [] (demo_trace (rw_trace w))
    (load_facts (@Some ChainState) "r" (rw_store w) demo_tables_none (demo_logs (rw_attempts w))) /\
  ~ agrees demo_sha [] [] (demo_trace (rw_trace w))
      (load_facts (@Some ChainState) "r" (rw_store w) demo_tables_none (demo_logs [])).
Proof.
  cbv zeta. split.
  - destruct (demo_report (rw_trace (demo_reviewed "auto-approve" 5)) (rw_attempts (demo_reviewed "auto-approve" 5)))
      as [[db' ms] report] eqn:E.
    assert (Hdb : db' = demo_tables_none) by (vm_compute in E; injection E as <- _ _; reflexivity).
    assert (Hc : is_clean report = true) by (vm_compute in E; injection E as _ _ <-; reflexivity).
    apply (reconcile_decides _ _ _ _ _ _ _ _ _ _ _ _ _ _ (fun l x => iff_refl _) E) in Hc as [Hc _].
    by rewrite Hdb in Hc.
  - intros Ha. destruct (demo_report (rw_trace (demo_reviewed "auto-approve" 5)) []) as [[db' ms] report] eqn:E.
    assert (Hdb : db' = demo_tables_none) by (vm_compute in E; injection E as <- _ _; reflexivity).
    assert (Hc : is_clean report = false) by (vm_compute in E; injection E as _ _ <-; reflexivity).
    rewrite (proj2 (reconcile_decides _ _ _ _ _ _ _ _ _ _ _ _ _ _ (fun l x => iff_refl _) E)) in Hc; [done|].
    rewrite Hdb. split; [exact Ha|]. intros _. vm_compute. reflexivity.
Defined.

Lemma review_trail_reconciles_witness :
  let w := demo_reviewed "auto-reject" 5 in
  let f := load_facts (@Some ChainState) "r" (rw_store w) demo_tables_none (demo_logs (rw_attempts w)) in
  is_clean (report_of (check_review_receipt_binding demo_sha (f_state f) (rw_trace w)
                       ++ check_review_attempt_binding "r" (f_state f) (f_attempts f) (rw_trace w))) = true.
Proof.
  cbv zeta. assert (Hd : is_ok (snd (demo_review "auto-reject" 5)) = true) by (vm_compute; reflexivity).
  destruct (demo_review "auto-reject" 5) as [w' [d|x]] eqn:E; [|discriminate].
  refine (review_trail_reconciles demo_sha demo_instants demo_sha_nonempty as_object (@Some ChainState) (fun x => eq_refl)
    (demo_env "auto-reject") "approve" (demo_draws 5) "t0" "t0" (demo_tx "p") (demo_tx "r") demo_risk 3 demo_world w' d
    demo_tables_none (demo_logs (rw_attempts w')) review_world_good _ _ _ _ _ E eq_refl).
  - clear E. intros ev Hev. exfalso. exact (proj1 (elem_of_nil _) Hev).
  - vm_compute. reflexivity.
  - clear E. intros a Ha. exfalso. exact (proj1 (elem_of_nil _) Ha).
  - clear E. lia.
  - change (said (demo_env "auto-reject") "approve") with "reject". right. left.
Defined.

(** A decision whose author has been changed in the attempt log. *)
Example forged_reviewer_found :
  let w := demo_reviewed "auto-approve" 5 in
  checks_that_failed (snd (demo_report (rw_trace w) (map (dset "reviewer_identity" (VStr "mallory")) (rw_attempts w))))
  = ["review_attempt_reviewer_identity_mismatch"].
Proof. vm_compute. reflexivity. Qed.

(** A receipt that was altered is found; altered beyond the vocabulary it
    cannot be read back, and is not looked into. *)
Definition altered (ty : string) (r : pyctx) : pyctx :=
  dset "decision" (VDict (dset "decision_type" (VStr ty) (dict_at "decision" r))) r.
Definition failed_checks (ty : string) (w : RvWorld ChainState) : list string :=
  let stored k := stored_dict k (Some (rw_state w)) in
  checks_that_failed (report_of
    (flat_map (check_review_receipt demo_sha (altered ty <$> stored "governed_decision_receipt")
                 (stored "governed_review_request")) (of_category ReviewCompleted (rw_trace w)))).

Example altered_receipts :
  let w := demo_reviewed "auto-approve" 5 in
  failed_checks "reject_chain_review" w = ["review_receipt_digest_tamper"] /\
  failed_checks "no such decision" w = [].
Proof. split; vm_compute; reflexivity. Qed.
