(* ===== verification/Runtime.v ===== *)
(** * The runtime of a chain

    What the orchestrator and its controllers share ([runtime/orchestrator.py],
    [__init__], [_record_trace_event], [_emit], [_fail_chain]): the state, the
    tables, the live trace and the step counters, as the world of a state and
    exception monad.  Fresh identifiers, clock readings and whether the
    database accepts a transaction are functions of the number of draws so
    far. *)
From S2P Require Import Prelude PyFloat PyValue Sql ChainState StateStore Persistence Trace.
From S2P Require DecisionLog.

Record Environment := mkEnvironment {
  fresh_id : nat -> string;
  clock : nat -> string;
  accepts : nat -> bool;
}.

(** What stops the code with an exception. *)
Inductive exn :=
| StoreRaised (e : store_error)
| LogRaised (e : DecisionLog.log_error)
| Raised (what : string).

Record World (Json X : Type) := mkWorld {
  w_state : ChainState;
  w_store : Store Json;
  w_trace : list TraceEvent;
  w_final_status : option string;
  (** the decision logs, by table *)
  w_logs : dict (list pyctx);
  (** [self._step] and the counter of the step allocator *)
  w_step : Z;
  w_next : Z;
  (** [_memory_read_allows] *)
  w_read_allows : list ((Z * string) * string);
  (** the retry counts of the failure manager *)
  w_retries : dict Z;
  w_draws : nat;
  (** what the other components keep *)
  w_ext : X;
}.
Arguments mkWorld {Json X}.
Arguments w_state {Json X}.
Arguments w_store {Json X}.
Arguments w_trace {Json X}.
Arguments w_final_status {Json X}.
Arguments w_logs {Json X}.
Arguments w_step {Json X}.
Arguments w_next {Json X}.
Arguments w_read_allows {Json X}.
Arguments w_retries {Json X}.
Arguments w_draws {Json X}.
Arguments w_ext {Json X}.

(** ** The monad *)

Definition io (Json X A : Type) : Type := World Json X -> World Json X * res exn A.

#[export] Instance io_ret {Json X} : MRet (io Json X) := fun A a w => (w, Ok a).
#[export] Instance io_bind {Json X} : MBind (io Json X) := fun A B f m w =>
  match m w with
  | (w', Ok a) => f a w'
  | (w', Err e) => (w', Err e)
  end.

Section Runtime.
Context {Json X : Type} (dump : ChainState -> Json) (env : Environment).
Implicit Types (w : World Json X).

Definition raise {A} (e : exn) : io Json X A := fun w => (w, Err e).
Definition lift {A} (r : res exn A) : io Json X A := fun w => (w, r).
Definition gets {A} (f : World Json X -> A) : io Json X A := fun w => (w, Ok (f w)).
Definition modify (f : World Json X -> World Json X) : io Json X unit := fun w => (f w, Ok tt).

Definition set_state (s : ChainState) w : World Json X :=
  mkWorld s (w_store w) (w_trace w) (w_final_status w) (w_logs w) (w_step w) (w_next w)
    (w_read_allows w) (w_retries w) (w_draws w) (w_ext w).
Definition set_tables (s : ChainState) (st : Store Json) w : World Json X :=
  mkWorld s st (w_trace w) (w_final_status w) (w_logs w) (w_step w) (w_next w)
    (w_read_allows w) (w_retries w) (w_draws w) (w_ext w).
Definition add_event (e : TraceEvent) w : World Json X :=
  mkWorld (w_state w) (w_store w) (w_trace w ++ [e]) (w_final_status w) (w_logs w) (w_step w)
    (w_next w) (w_read_allows w) (w_retries w) (w_draws w) (w_ext w).
Definition set_final (f : string) w : World Json X :=
  mkWorld (w_state w) (w_store w) (w_trace w) (Some f) (w_logs w) (w_step w) (w_next w)
    (w_read_allows w) (w_retries w) (w_draws w) (w_ext w).
Definition set_log (t : string) (rows : list pyctx) w : World Json X :=
  mkWorld (w_state w) (w_store w) (w_trace w) (w_final_status w) (dset t rows (w_logs w)) (w_step w)
    (w_next w) (w_read_allows w) (w_retries w) (w_draws w) (w_ext w).
Definition set_steps (stp next : Z) w : World Json X :=
  mkWorld (w_state w) (w_store w) (w_trace w) (w_final_status w) (w_logs w) stp next
    (w_read_allows w) (w_retries w) (w_draws w) (w_ext w).
Definition allow_read (k : Z * string) (d : string) w : World Json X :=
  mkWorld (w_state w) (w_store w) (w_trace w) (w_final_status w) (w_logs w) (w_step w) (w_next w)
    ((k, d) :: w_read_allows w) (w_retries w) (w_draws w) (w_ext w).
Definition set_retries (c : dict Z) w : World Json X :=
  mkWorld (w_state w) (w_store w) (w_trace w) (w_final_status w) (w_logs w) (w_step w) (w_next w)
    (w_read_allows w) c (w_draws w) (w_ext w).
Definition set_draws (n : nat) w : World Json X :=
  mkWorld (w_state w) (w_store w) (w_trace w) (w_final_status w) (w_logs w) (w_step w) (w_next w)
    (w_read_allows w) (w_retries w) n (w_ext w).
Definition set_ext (x : X) w : World Json X :=
  mkWorld (w_state w) (w_store w) (w_trace w) (w_final_status w) (w_logs w) (w_step w) (w_next w)
    (w_read_allows w) (w_retries w) (w_draws w) x.

Definition act {A} (f : World Json X -> World Json X * res exn A) : io Json X A := f.

(** One reading of the environment. *)
Definition draw : io Json X nat := fun w => (set_draws (S (w_draws w)) w, Ok (w_draws w)).

(** Loops over a list: for their effects, and for their values. *)
Fixpoint each {A} (f : A -> io Json X unit) (l : list A) : io Json X unit :=
  match l with
  | [] => mret tt
  | x :: l => _ ← f x; each f l
  end.

Fixpoint collect {A B} (f : A -> io Json X B) (l : list A) : io Json X (list B) :=
  match l with
  | [] => mret []
  | x :: l => y ← f x; ys ← collect f l; mret (y :: ys)
  end.

(** ** Transactions *)

(** A commit of the persistence coordinator, on the live state. *)
Definition commit_on (c : commit) : io Json X unit :=
  n ← draw;
  act (fun w =>
    match run_commit dump c (w_state w) (clock env n) (accepts env n) (w_store w) with
    | (s, st, Ok _) => (set_tables s st w, Ok tt)
    | (s, st, Err e) => (set_tables s st w, Err (StoreRaised e))
    end).

(** A row of a decision log. *)
Definition record_decision (sc : DecisionLog.Schema) (d : pyctx) : io Json X unit :=
  n ← draw;
  act (fun w =>
    if accepts env n then
      match DecisionLog.record sc (clock env n) d
              (dget_or (DecisionLog.table_name sc) [] (w_logs w)) with
      | Ok t => (set_log (DecisionLog.table_name sc) t w, Ok tt)
      | Err e => (w, Err (LogRaised e))
      end
    else (w, Err (StoreRaised DatabaseError))).

(** ** Events *)

(** What the callers of [_emit] give. *)
Record Draft := mkDraft {
  d_type : string;
  d_node : string;
  d_actor : string;
  d_decision : option string;
  d_reasons : list string;
  d_meta : pyctx;
  d_cost : pyfloat;
  d_latency : Z;
  d_step : option Z;
}.

Definition build_event (d : Draft) (n : nat) (s : ChainState) (stp : Z) : TraceEvent :=
  mkTraceEvent (fresh_id env n) (d_type d) (Some (d_node d)) (Some (default stp (d_step d)))
    (durable_payload (chain_id s) (d_actor d) (d_decision d) (d_reasons d) (d_cost d) (d_latency d)
       (d_meta d)) (clock env n).

(** [_record_trace_event] of an event that is not stored yet: its row first,
    then the live trace. *)
Definition record_trace_event (e : TraceEvent) : io Json X unit :=
  n ← draw;
  act (fun w =>
    if accepts env n then
      match append_trace_event (run_id (w_state w)) (revision (w_state w)) (te_event_type e)
              (te_node_id e) (te_step_id e) (te_event_id e) (te_timestamp e)
              (Some (te_durable_payload e)) (w_store w) with
      | Ok st => (add_event e (set_tables (w_state w) st w), Ok tt)
      | Err x => (w, Err (StoreRaised x))
      end
    else (w, Err (StoreRaised DatabaseError))).

(** [_emit] *)
Definition emit (d : Draft) : io Json X unit :=
  n ← draw;
  s ← gets w_state;
  stp ← gets w_step;
  record_trace_event (build_event d n s stp).

(** The common shapes of a call. *)
Definition draft (ty node actor : string) (decision : option string) : Draft :=
  mkDraft ty node actor decision [] [] fzero 0 None.
Definition with_reasons (rs : list string) (d : Draft) : Draft :=
  mkDraft (d_type d) (d_node d) (d_actor d) (d_decision d) rs (d_meta d) (d_cost d) (d_latency d) (d_step d).
Definition with_meta (md : pyctx) (d : Draft) : Draft :=
  mkDraft (d_type d) (d_node d) (d_actor d) (d_decision d) (d_reasons d) md (d_cost d) (d_latency d) (d_step d).
Definition at_step_id (stp : Z) (d : Draft) : Draft :=
  mkDraft (d_type d) (d_node d) (d_actor d) (d_decision d) (d_reasons d) (d_meta d) (d_cost d) (d_latency d)
    (Some stp).
Definition with_cost (c : pyfloat) (ms : Z) (d : Draft) : Draft :=
  mkDraft (d_type d) (d_node d) (d_actor d) (d_decision d) (d_reasons d) (d_meta d) c ms (d_step d).

(** A lifecycle transition: the state and its event in one transaction, then
    the event in the live trace. *)
Definition transition (p : LifecycleProposal) (d : Draft) : io Json X unit :=
  n ← draw;
  s ← gets w_state;
  stp ← gets w_step;
  let e := build_event d n s stp in
  _ ← commit_on (CLifecycle p e);
  modify (add_event e).

(** [_fail_chain] *)
Definition fail_chain (reason : string) (details : list string) (md : pyctx) : io Json X unit :=
  _ ← transition (mkLifecycle (Some "failed") None None None md)
        (with_reasons details (draft "chain_failed" "runtime" "runtime" (Some reason)));
  modify (set_final "failed").

(** [allocate_sync], which also becomes [self._step] on the main path. *)
Definition allocate_step : io Json X Z := fun w =>
  (set_steps (w_step w) (w_next w + 1) w, Ok (w_next w + 1)).
End Runtime.

(** ** What every operation keeps *)

Section Soundness.
Context {Json X : Type} (dump : ChainState -> Json) (parse : Json -> option ChainState).
Context (Hparse : forall x, parse (dump x) = Some x).
Context (env : Environment).
Implicit Types (w : World Json X).

(** An event is in the live trace only if the journal has it. *)
Definition acknowledged (l : list TraceEvent) (st : Store Json) : Prop :=
  forall e, e ∈ l -> exists row, row ∈ state_events st /\
    trace_event_id row = Some (te_event_id e) /\ event_type row = te_event_type e.

(** The fields the code writes in place, ahead of the commit that stores
    them. *)
Definition with_live (s s0 : ChainState) : ChainState :=
  mkState (run_id s0) (chain_id s0) (status s0) (current_node s0) (step s0) (started_at s0)
    (paused_at s0) (completed_at s0) (outputs s) (loop_state s) (cost_accumulated_usd s0)
    (human_review s0) (metadata s0) (branch_outputs s) (join_inputs s) (skipped_nodes s)
    (routing_decisions s) (branch_states s) (revision s0) (completed_steps s0) (side_effects s0)
    (is_resumed s0) (blueprint_version s0) (execution_order_hash s0).

(** The stored state is the live one up to those fields. *)
Definition stored w : Prop :=
  exists s0, load parse (run_id (w_state w)) (w_store w) = Some s0 /\ with_live (w_state w) s0 = w_state w.

Definition sound w : Prop :=
  well_formed (w_store w) /\ acknowledged (w_trace w) (w_store w) /\ stored w.

(** The stored state is exactly the live one. *)
Definition settled w : Prop := durable parse (w_state w) (w_store w) /\ acknowledged (w_trace w) (w_store w).

Lemma settled_sound w : settled w -> sound w.
Proof.
  intros [[Hl Hw] Ha]. split_and!; [done..|]. exists (w_state w). split; [done|]. by destruct (w_state w).
Qed.

(** Everything an operation that is no commit may do: add events and rows. *)
Definition quiet w w' : Prop :=
  w_state w' = w_state w /\ (w_step w' = w_step w /\ w_next w <= w_next w') /\
  chain_states (w_store w') = chain_states (w_store w) /\
  invocation_ledger (w_store w') = invocation_ledger (w_store w) /\
  (well_formed (w_store w) -> well_formed (w_store w')) /\
  (exists es, state_events (w_store w') = state_events (w_store w) ++ es) /\
  (exists l, w_trace w' = w_trace w ++ l) /\
  (acknowledged (w_trace w) (w_store w) -> acknowledged (w_trace w') (w_store w')).

Definition keeps {A} (R : World Json X -> World Json X -> Prop) (m : io Json X A) : Prop :=
  forall w w' r, m w = (w', r) -> R w w'.

Lemma acknowledged_more l st st' es :
  state_events st' = state_events st ++ es -> acknowledged l st -> acknowledged l st'.
Proof.
  intros He H e Hin. destruct (H e Hin) as (row & Hr & Hrow). exists row. split; [|done].
  rewrite He. apply elem_of_app. by left.
Qed.

#[export] Instance quiet_preorder : PreOrder quiet.
Proof.
  split.
  - intros w. split_and!; try done; try lia; by exists []; rewrite app_nil_r.
  - intros w1 w2 w3 (A1 & [A2 A2'] & A3 & A4 & A5 & (es & A6) & (l & A7) & A8)
      (B1 & [B2 B2'] & B3 & B4 & B5 & (es' & B6) & (l' & B7) & B8).
    split_and!; try congruence; try lia; try tauto.
    + exists (es ++ es'). by rewrite B6, A6, app_assoc.
    + exists (l ++ l'). by rewrite B7, A7, app_assoc.
Qed.

Lemma quiet_sound w w' : quiet w w' -> sound w -> sound w'.
Proof.
  intros (A1 & _ & A3 & _ & A5 & _ & _ & A8) (H1 & H2 & s0 & H3 & H4). split_and!; [auto..|].
  exists s0. rewrite A1. split; [|done]. by rewrite (load_same parse (w_store w)).
Qed.

Lemma quiet_settled w w' : quiet w w' -> settled w -> settled w'.
Proof.
  intros (A1 & _ & A3 & _ & A5 & _ & _ & A8) [[H1 H2] H3]. split; [|auto].
  split; [|auto]. rewrite A1. by rewrite (load_same parse (w_store w)).
Qed.

Section Keeps.
Context (R : World Json X -> World Json X -> Prop) `{!PreOrder R}.

Lemma keeps_ret {A} (a : A) : keeps R (mret a : io Json X A).
Proof. intros w w' r [= <- <-]. reflexivity. Qed.
Lemma keeps_raise {A} e : keeps R (raise e : io Json X A).
Proof. intros w w' r [= <- <-]. reflexivity. Qed.
Lemma keeps_gets {A} (f : World Json X -> A) : keeps R (gets f).
Proof. intros w w' r [= <- <-]. reflexivity. Qed.
Lemma keeps_lift {A} (x : res exn A) : keeps R (lift x : io Json X A).
Proof. intros w w' r [= <- <-]. reflexivity. Qed.
Lemma keeps_bind {A B} (m : io Json X A) (f : A -> io Json X B) :
  keeps R m -> (forall a, keeps R (f a)) -> keeps R (m ≫= f).
Proof.
  intros Hm Hf w w' r. unfold mbind, io_bind. destruct (m w) as [w1 [a|e]] eqn:E.
  - intros H. etransitivity; [by eapply Hm | by eapply Hf].
  - intros [= <- <-]. by eapply Hm.
Qed.
Lemma keeps_each {A} (f : A -> io Json X unit) l : (forall a, keeps R (f a)) -> keeps R (each f l).
Proof. intros Hf. induction l as [|a l IH]; [apply keeps_ret|]. by apply keeps_bind. Qed.
Lemma keeps_collect {A B} (f : A -> io Json X B) l : (forall a, keeps R (f a)) -> keeps R (collect f l).
Proof.
  intros Hf. induction l as [|a l IH]; [apply keeps_ret|].
  apply keeps_bind; [done|]. intros b. apply keeps_bind; [done|]. intros bs. apply keeps_ret.
Qed.
Lemma keeps_if {A} (b : bool) (m n : io Json X A) : keeps R m -> keeps R n -> keeps R (if b then m else n).
Proof. by destruct b. Qed.
End Keeps.

Lemma keeps_weaken {A} (R R' : World Json X -> World Json X -> Prop) (m : io Json X A) :
  (forall w w', R w w' -> R' w w') -> keeps R m -> keeps R' m.
Proof. intros HR Hm w w' r H. by eapply HR, Hm. Qed.

(** What holds when a program ends normally, and what survives the rest of it. *)
Definition ensures {A} (m : io Json X A) (Q : World Json X -> Prop) : Prop :=
  forall w w' a, m w = (w', Ok a) -> Q w'.

Lemma ensures_bind_r {A B} (m : io Json X A) (f : A -> io Json X B) Q :
  (forall a, ensures (f a) Q) -> ensures (m ≫= f) Q.
Proof.
  intros Hf w w' b. unfold mbind, io_bind. destruct (m w) as [w1 [a|e]]; [by apply Hf | discriminate].
Qed.

Lemma ensures_bind_l {A B} (R : World Json X -> World Json X -> Prop) (m : io Json X A)
  (f : A -> io Json X B) (Q : World Json X -> Prop) :
  (forall w w', R w w' -> Q w -> Q w') -> ensures m Q -> (forall a, keeps R (f a)) -> ensures (m ≫= f) Q.
Proof.
  intros HQ Hm Hf w w' b. unfold mbind, io_bind. destruct (m w) as [w1 [a|e]] eqn:E; [|discriminate].
  intros H. eapply HQ; [by eapply Hf | by eapply Hm].
Qed.

Lemma ensures_collect {A B} (R : World Json X -> World Json X -> Prop) `{!PreOrder R}
  (f : A -> io Json X B) (Q : A -> World Json X -> Prop) l :
  (forall a w w', R w w' -> Q a w -> Q a w') -> (forall a, keeps R (f a)) ->
  (forall a, ensures (f a) (Q a)) -> forall a, a ∈ l -> ensures (collect f l) (Q a).
Proof.
  intros HQ Hk Hf a. induction l as [|b l IH]; [by intros ?%elem_of_nil|].
  intros [->|Hin]%elem_of_cons.
  - apply (ensures_bind_l R); [apply HQ | apply Hf|]. intros y.
    apply keeps_bind; [done | by apply keeps_collect|]. intros ys. by apply keeps_ret.
  - apply ensures_bind_r. intros y. apply (ensures_bind_l R); [apply HQ | by apply IH|].
    intros ys. by apply keeps_ret.
Qed.

Ltac quiet_id :=
  split_and!; try done; try (cbn; lia); by exists []; rewrite app_nil_r.

Lemma keeps_draw : keeps quiet draw.
Proof. intros w w' r [= <- <-]. quiet_id. Qed.
Lemma keeps_set_ext (f : World Json X -> X) : keeps quiet (modify (fun w => set_ext (f w) w)).
Proof. intros w w' r [= <- <-]. quiet_id. Qed.
Lemma keeps_allow_read k d : keeps quiet (modify (allow_read k d)).
Proof. intros w w' r [= <- <-]. quiet_id. Qed.
Lemma keeps_set_retries c : keeps quiet (modify (set_retries c)).
Proof. intros w w' r [= <- <-]. quiet_id. Qed.
Lemma keeps_set_final f : keeps quiet (modify (set_final f)).
Proof. intros w w' r [= <- <-]. quiet_id. Qed.

Lemma keeps_record_decision sc d : keeps quiet (record_decision env sc d).
Proof.
  apply keeps_bind; [apply _ | apply keeps_draw|]. intros n w w' r. unfold act.
  destruct (accepts env n); [destruct (DecisionLog.record _ _ _ _)|]; intros [= <- <-]; quiet_id.
Qed.

Lemma keeps_record_trace_event e : keeps quiet (record_trace_event env e).
Proof.
  apply keeps_bind; [apply _ | apply keeps_draw|]. intros n w w' r. unfold act.
  destruct (accepts env n); [|intros [= <- <-]; quiet_id].
  destruct (append_trace_event _ _ _ _ _ _ _ _ _) as [st|x] eqn:E; intros [= <- <-]; [|quiet_id].
  unfold append_trace_event in E. pose proof (insert_event_good _ _ _ _ _ _ _ _ _ _ E) as Hg.
  destruct (insert_event_adds _ _ _ _ _ _ _ _ _ _ E) as (H1 & H2 & H3).
  split_and!; try done.
  - intros Hw. by apply Hg.
  - eauto.
  - by exists [e].
  - intros Ha e' [He|He%list_elem_of_singleton]%elem_of_app; cbn.
    + destruct (Ha e' He) as (row & Hr & Hrow). exists row. rewrite H3, elem_of_app. auto.
    + subst. eexists. rewrite H3. split; [apply elem_of_app; right; left | done].
Qed.

Lemma keeps_emit d : keeps quiet (emit env d).
Proof.
  apply keeps_bind; [apply _ | apply keeps_draw|]. intros n.
  do 2 (apply keeps_bind; [apply _ | apply keeps_gets; apply _|]; intros ?).
  apply keeps_record_trace_event.
Qed.

(** A commit stores the live state with its proposal. *)
Lemma commit_spec c w w' r :
  well_formed (w_store w) -> acknowledged (w_trace w) (w_store w) ->
  commit_on dump env c w = (w', r) ->
  w_trace w' = w_trace w /\ acknowledged (w_trace w') (w_store w') /\ well_formed (w_store w') /\
  w_step w' = w_step w /\ w_next w' = w_next w /\ extends (w_store w) (w_store w') /\
  match r with
  | Ok _ => w_state w' = accept c true (w_state w) /\ durable parse (w_state w') (w_store w')
  | Err _ => w_state w' = w_state w /\ w_store w' = w_store w
  end.
Proof.
  intros Hw Ha. unfold commit_on, mbind, io_bind, draw, act. cbn.
  destruct (run_commit dump c (w_state w) _ _ (w_store w)) as [[s st] res] eqn:E.
  pose proof (run_commit_spec dump parse Hparse c _ _ _ _ _ _ _ Hw E) as [Hs Hr].
  assert (Hex : good_step (w_store w) st) by by eapply run_commit_good.
  destruct res as [u|e]; intros [= <- <-]; cbn in *; destruct Hex as [Hw' Hx].
  - split_and!; try done. destruct Hx as [(es & Hes) _]. by eapply acknowledged_more.
  - subst. split_and!; try done.
Qed.

(** ** Transitions *)

Definition ready w : Prop := well_formed (w_store w) /\ acknowledged (w_trace w) (w_store w).

(** What any operation between two loop-backs may do. *)
Definition moves w w' : Prop :=
  run_id (w_state w') = run_id (w_state w) /\ loop_state (w_state w') = loop_state (w_state w) /\
  (ready w -> ready w' /\ extends (w_store w) (w_store w')) /\ (sound w -> sound w') /\
  (exists l, w_trace w' = w_trace w ++ l) /\ w_step w' = w_step w /\ w_next w <= w_next w'.

#[export] Instance moves_preorder : PreOrder moves.
Proof.
  split.
  - intros w. split_and!; try done; try lia; [intros H; split; [done | apply extends_refl]|].
    by exists []; rewrite app_nil_r.
  - intros w1 w2 w3 (A1 & A2 & A3 & A4 & (l & A5) & A6 & A7) (B1 & B2 & B3 & B4 & (l' & B5) & B6 & B7).
    split_and!; try congruence; try lia; try tauto.
    + intros H. destruct (A3 H) as [H2 E1]. destruct (B3 H2) as [H3 E2]. split; [done|].
      by eapply extends_trans.
    + exists (l ++ l'). by rewrite B5, A5, app_assoc.
Qed.

Lemma quiet_moves w w' : quiet w w' -> moves w w'.
Proof.
  intros Hq. pose proof Hq as (A1 & [A2 A3] & _ & A4 & A5 & (es & A6) & A7 & A8).
  split_and!; try (by rewrite A1); try done; [|by apply quiet_sound].
  intros [H1 H2]. split; [split; auto|]. split; [by exists es|]. exists []. by rewrite app_nil_r.
Qed.

Lemma settled_ready w : settled w -> ready w.
Proof. intros [[_ H] H']. by split. Qed.
Lemma sound_ready w : sound w -> ready w.
Proof. intros (H & H' & _). by split. Qed.

Lemma sound_same w w' :
  ready w' -> w_state w' = w_state w -> w_store w' = w_store w -> sound w -> sound w'.
Proof. intros [H1 H2] E1 E2 (_ & _ & H). split_and!; [done..|]. unfold stored. by rewrite E1, E2. Qed.

(** A proposal that stays in its run and leaves the loops alone. *)
Definition gentle (c : commit) : Prop :=
  forall s, run_id (proposal c s) = run_id s /\ loop_state (proposal c s) = loop_state s.

Lemma keeps_commit c : gentle c -> keeps moves (commit_on dump env c).
Proof.
  intros Hc w w' r H.
  assert (Hst : w_state w' = w_state w \/ w_state w' = accept c true (w_state w)).
  { unfold commit_on, mbind, io_bind, draw, act in H. cbn in H.
    destruct (run_commit dump c (w_state w) _ _ (w_store w)) as [[s st] res] eqn:E.
    apply run_commit_state in E as ->. destruct res; injection H as <- _; cbn; auto. }
  assert (Htr : w_trace w' = w_trace w /\ w_step w' = w_step w /\ w_next w <= w_next w').
  { unfold commit_on, mbind, io_bind, draw, act in H. cbn in H.
    destruct (run_commit dump c (w_state w) _ _ (w_store w)) as [[s st] [u|e]]; injection H as <- _;
      (split_and!; [done | done | cbn; lia]). }
  destruct Htr as (Htr & Hstp & Hnx).
  assert (Hr : ready w -> ready w' /\ extends (w_store w) (w_store w')).
  { intros [H1 H2]. destruct (commit_spec c w w' r H1 H2 H) as (_ & Ha & Hw & _ & _ & Hx & _). done. }
  split_and!.
  - destruct Hst as [->| ->]; [done|]. apply Hc.
  - destruct Hst as [->| ->]; [done|]. apply Hc.
  - exact Hr.
  - intros Hs. pose proof (sound_ready w Hs) as Hrd.
    destruct (commit_spec c w w' r (proj1 Hrd) (proj2 Hrd) H) as (_ & Ha & _ & _ & _ & _ & Hres).
    destruct r as [u|e].
    + destruct Hres. apply settled_sound. by split.
    + destruct Hres. apply (sound_same w); try done. by apply Hr.
  - exists []. by rewrite app_nil_r.
  - exact Hstp.
  - exact Hnx.
Qed.

Lemma lifecycle_gentle p e : gentle (CLifecycle p e).
Proof. done. Qed.

Lemma lifecycle_spec p d w w' r :
  ready w -> transition dump env p d w = (w', r) ->
  moves w w' /\ w_step w' = w_step w /\ w_next w' = w_next w /\
  match r with
  | Ok _ => settled w' /\ exists e, w_trace w' = w_trace w ++ [e] /\ te_event_type e = d_type d /\
      w_state w' = accept (CLifecycle p e) true (w_state w)
  | Err _ => w_state w' = w_state w /\ w_store w' = w_store w /\ w_trace w' = w_trace w
  end.
Proof.
  intros Hr. set (e := build_event env d (w_draws w) (w_state w) (w_step w)).
  set (w0 := set_draws (S (w_draws w)) w).
  assert (Heq : transition dump env p d w =
    match commit_on dump env (CLifecycle p e) w0 with
    | (w1, Ok _) => (add_event e w1, Ok tt)
    | (w1, Err x) => (w1, Err x)
    end) by reflexivity.
  rewrite Heq. clear Heq. destruct (commit_on dump env (CLifecycle p e) w0) as [w1 [u|x]] eqn:E.
  all: pose proof (keeps_commit (CLifecycle p e) (lifecycle_gentle p e) w0 w1 _ E) as Hm;
    destruct (commit_spec (CLifecycle p e) w0 w1 _ (proj1 Hr) (proj2 Hr) E)
      as (Ht & Ha & Hw & Hstp & Hnx & Hx & Hres).
  - intros [= <- <-]. destruct Hres as [Hst Hd].
    assert (Hset : settled (add_event e w1)).
    { split; [exact Hd|]. intros e' [He'|He'%list_elem_of_singleton]%elem_of_app; [by apply Ha|]. subst e'.
      unfold commit_on, mbind, io_bind, draw, act in E. cbn in E.
      destruct (commit_lifecycle _ _ _ _ _ _ _) as [[s st] [u1|x1]] eqn:E1; [|discriminate].
      injection E as <- _. exact (lifecycle_journaled dump parse Hparse p e _ _ _ _ _ _ u1 (proj1 Hr) E1). }
    destruct Hm as (M1 & M2 & M3 & M4 & M5 & M6 & M7). refine (conj _ (conj Hstp (conj Hnx (conj Hset _)))).
    + refine (conj M1 (conj M2 (conj _ (conj _ (conj _ (conj M6 M7)))))).
      * intros H. split; [by apply settled_ready | by apply M3].
      * intros _. by apply settled_sound.
      * exists [e]. cbn. by rewrite Ht.
    + exists e. cbn. rewrite Ht. done.
  - intros [= <- <-]. destruct Hres. done.
Qed.

Lemma fail_chain_spec reason details md w w' r :
  ready w -> fail_chain dump env reason details md w = (w', r) ->
  moves w w' /\
  match r with
  | Ok _ => settled w' /\ status (w_state w') = "failed" /\ w_final_status w' = Some "failed" /\
      exists e, w_trace w' = w_trace w ++ [e] /\ te_event_type e = "chain_failed"
  | Err _ => w_state w' = w_state w /\ w_store w' = w_store w
  end.
Proof.
  intros Hr. unfold fail_chain. unfold mbind, io_bind at 1.
  destruct (transition _ _ _ _ w) as [w1 [u|x]] eqn:E;
    destruct (lifecycle_spec _ _ _ _ _ Hr E) as (Hm & _ & _ & H).
  - intros [= <- <-]. destruct H as [Hs (e & He & Hty & Hst)]. split.
    + etransitivity; [exact Hm|]. apply quiet_moves. by eapply keeps_set_final.
    + split_and!; [exact Hs | by change (status (w_state w1) = "failed"); rewrite Hst | done | by exists e].
  - intros [= <- <-]. destruct H as (? & ? & ?). done.
Qed.

Lemma keeps_allocate_step : keeps moves allocate_step.
Proof.
  intros w w' r [= <- <-]. split_and!; try done.
  - intros H. split; [done | apply extends_refl].
  - by exists []; rewrite app_nil_r.
  - cbn. lia.
Qed.
End Soundness.

(** A walk through a program: its primitives are left to [lem]. *)
Ltac walk lem :=
  repeat first
    [ progress intros
    | lem
    | apply keeps_ret; apply _ | apply keeps_gets; apply _ | apply keeps_raise; apply _
    | apply keeps_each; [apply _|] | apply keeps_collect; [apply _|] | apply keeps_if
    | apply keeps_bind; [apply _| |]
    | case_goal ].

(** The same by the head of the program, where its pieces are too large to try
    every lemma on. *)
Ltac stroll lem :=
  repeat (intros;
    lazymatch goal with
    | |- keeps _ (mbind _ _) => apply keeps_bind; [apply _| |]
    | |- keeps _ (mret _) => apply keeps_ret; apply _
    | |- keeps _ (gets _) => apply keeps_gets; apply _
    | |- keeps _ (raise _) => apply keeps_raise; apply _
    | |- keeps _ (each _ _) => apply keeps_each; [apply _|]
    | |- keeps _ (collect _ _) => apply keeps_collect; [apply _|]
    | |- keeps _ draw => apply keeps_draw
    | |- keeps _ (emit _ _) => apply keeps_emit
    | |- keeps _ (record_decision _ _ _) => apply keeps_record_decision
    | |- keeps _ (modify (allow_read _ _)) => apply keeps_allow_read
    | |- keeps _ (modify (set_retries _)) => apply keeps_set_retries
    | |- keeps _ (modify (set_final _)) => apply keeps_set_final
    | |- keeps _ (match _ with _ => _ end) => case_goal
    | |- keeps _ _ => lem
    end).

Ltac quiet_prim :=
  first [ apply keeps_draw | apply keeps_emit | apply keeps_record_decision | apply keeps_allow_read
        | apply keeps_set_retries | apply keeps_set_final ].

(** ** A concrete environment *)

Fixpoint tally (n : nat) : string :=
  match n with O => "" | S n => String "i" (tally n) end.

Definition demo_env : Environment := mkEnvironment tally (fun _ => "2026-01-01T00:00:00+00:00") (fun _ => true).

Lemma demo_fresh_ids a b : fresh_id demo_env a = fresh_id demo_env b -> a = b.
Proof.
  cbn. revert b. induction a as [|a IH]; intros [|b]; cbn; try done. intros [= H]. f_equal. by apply IH.
Qed.

(** The state [s], stored. *)
Definition demo_world {X} (s : ChainState) (x : X) : World ChainState X :=
  mkWorld s (snd (fst (save (total as_object) s "t0" true empty_store))) [] None [] (ChainState.step s) (ChainState.step s)
    [] [] 0 x.
