(* ===== verification/GateController.v ===== *)
(** * Policy gate controller

    [runtime/policy_gate_controller.py]: the verdict of the policy gate on a
    node, the trace events that show it, and the durable decision behind every
    grant or denial.  The capabilities of a node are a function of the world,
    the file digest of its module is the environment's. *)
From S2P Require Import Prelude PyFloat PyValue Sql Contract Policy Envelope PolicyGate ChainState StateStore.
From S2P Require Import Persistence Trace Runtime.
From S2P Require DecisionLog.

Record RuntimeNode := mkRuntimeNode {
  rn_node_id : string;
  rn_gate : GateNode;
  rn_version : string;
  rn_module_path : string;
}.

Definition rn_contract (n : RuntimeNode) : NodeContract := gn_contract (rn_gate n).

(** [ep.get(k, dflt)] of an evaluation. *)
Definition text_of (v : pyval) : string := match v with VStr s => s | _ => "" end.
Definition ep_text (k dflt : string) (ep : pyctx) : string := text_of (dget_or k (VStr dflt) ep).
Definition ep_names (k : string) (ep : pyctx) : list string :=
  match dget k ep with
  | Some (VList l) => omap (fun v => match v with VStr s => Some s | _ => None end) l
  | _ => []
  end.

(** [next((ep for ep in evaluated if ep.get("type") == ty), None)] *)
Definition evaluation (ty : string) (r : PolicyCheckResult) : option pyctx :=
  List.find (fun ep => (ep_text "type" "" ep =? ty)%string) (evaluated_policies r).

(** [result.denial_reason or ""] *)
Definition denial_text (r : PolicyCheckResult) : string := text_of (denial_reason r).

Section Controller.
Context {Json X : Type} (env : Environment).
Context (engine : PolicyEngine) (get_capabilities : World Json X -> string -> option Capabilities).
Context (py_sum : list pyfloat -> pyval) (list_of_set : list string -> list string).
Context (file_digest : string -> string).
Context (nodes : dict RuntimeNode).

(** The costs in the live trace, by node. *)
Definition trace_costs (w : World Json X) : list (string * pyfloat) :=
  map (fun e => (default "" (te_node_id e), event_cost e)) (w_trace w).

(** [policy_gate.check] with the collaborators of the orchestrator. *)
Definition verdict (node_id : string) (node : RuntimeNode) (w : World Json X)
  : res float_error PolicyCheckResult :=
  PolicyGate.check engine (Some (get_capabilities w)) (Some (trace_costs w)) (Some (w_step w))
    py_sum list_of_set node_id (rn_gate node).

Definition consult (node_id : string) (node : RuntimeNode) : io Json X PolicyCheckResult :=
  act (fun w => match verdict node_id node w with
                | Ok r => (w, Ok r)
                | Err _ => (w, Err (Raised "policy condition"))
                end).

Section Check.
Context (node_id : string) (node : RuntimeNode) (run : string) (stp : Z) (chain : string).
Context (r : PolicyCheckResult).

(** The event of one evaluated policy. *)
Definition evaluated_draft (ep : pyctx) : option Draft :=
  let ptype := ep_text "type" "" ep in
  let decision := ep_text "decision" "" ep in
  let ev what := draft "policy_evaluated" node_id "policy_engine" (Some (ptype +:+ what)) in
  if (decision =? "denied")%string then Some (with_reasons [denial_text r] (ev "_denied"))
  else if mem decision ["allowed"; "ok"] then
    Some (with_meta
      ([("decisions", dget_or "rule_ids" (VList []) ep)] ++
       (if (ptype =? "trust_level")%string
        then [("trust_level", dget_or "trust_level" (VStr "verified") ep)] else []) ++
       (if (ptype =? "cost_limit")%string
        then [("accumulated", dget_or "accumulated" (VInt 0) ep);
              ("budget", dget_or "budget" (VFloat (fround_int 1)) ep)] else []))
      (ev (if (ptype =? "trust_level")%string then "_ok" else "_allowed")))
  else if (decision =? "requires_approval")%string then
    Some (with_reasons [text_of (approval_required r)] (ev "_requires_approval"))
  else None.

Definition emit_evaluated (ep : pyctx) : io Json X unit :=
  match evaluated_draft ep with Some d => emit env d | None => mret tt end.

(** The event of a decided access. *)
Definition access_event (ty word : string) (ok : bool) (md : pyctx) : io Json X unit :=
  emit env
    (with_meta md
      (with_reasons (if ok then [] else [denial_text r])
        (draft (ty +:+ (if ok then "_allowed" else "_denied")) node_id "runtime"
           (Some (word +:+ (if ok then "_allowed" else "_denied")))))).

Definition deny_or_allow (ok : bool) : pyval := VStr (if ok then "allow" else "deny").
Definition reason_unless (ok : bool) : pyval := VStr (if ok then "" else denial_text r).

Definition trust_source (origin observed : string) : string :=
  if (origin =? "local_registry")%string then "local_trust_marker"
  else if (origin =? "remote")%string then "registry_metadata"
  else if (observed =? "local_trusted")%string then "local_trust_marker"
  else "built_in_default".

Definition package_trust (ep : pyctx) : io Json X unit :=
  n ← draw;
  let ok := (ep_text "decision" "" ep =? "allowed")%string in
  let observed := dget_or "observed_trust_level" (VStr "built_in") ep in
  let required := dget_or "required_trust_level" (VStr "trusted") ep in
  let origin := ep_text "origin" "built_in" ep in
  let priv := dget_or "is_privileged" (VBool false) ep in
  let digest := VStr (if str_truthy (rn_module_path node) then file_digest (rn_module_path node) else "unknown") in
  let src := VStr (trust_source origin (text_of observed)) in
  _ ← record_decision env DecisionLog.package_trust_decisions
    [ ("decision_id", VStr (fresh_id env n)); ("run_id", VStr run); ("step_id", VInt stp);
      ("node_id", VStr node_id); ("package_name", VStr node_id); ("package_version", VStr (rn_version node));
      ("package_digest", digest); ("origin", VStr origin); ("observed_trust_level", observed);
      ("required_trust_level", required);
      ("signature_status", VStr (if (origin =? "built_in")%string then "not_required" else "not_verified"));
      ("lockfile_status", VStr "not_checked"); ("is_privileged", priv); ("trust_source", src);
      ("decision", deny_or_allow ok); ("reason", reason_unless ok); ("created_at", VStr (clock env n)) ];
  access_event "package_trust" "package_trust" ok
    [ ("decision_id", VStr (fresh_id env n)); ("origin", VStr origin); ("observed_trust_level", observed);
      ("required_trust_level", required); ("is_privileged", priv); ("package_digest", digest);
      ("trust_source", src) ].

Definition bound_ids (ep : pyctx) : pyctx :=
  [ ("policy_id", dget_or "policy_id" (VStr "") ep); ("rule_id", dget_or "rule_id" (VStr "") ep) ].

(** One durable decision per tool. *)
Definition record_tool (ep : pyctx) (now tool : string) : io Json X string :=
  n ← draw;
  let ok := mem tool (ep_names "allowed_tools" ep) && (ep_text "decision" "" ep =? "allowed")%string in
  _ ← record_decision env DecisionLog.tool_access_decisions
    ([ ("decision_id", VStr (fresh_id env n)); ("run_id", VStr run); ("step_id", VInt stp);
       ("node_id", VStr node_id); ("tool_name", VStr tool) ] ++ bound_ids ep ++
     [ ("decision", deny_or_allow ok); ("reason", reason_unless ok); ("created_at", VStr now) ]);
  mret (fresh_id env n).

Definition tool_access (ep : pyctx) : io Json X unit :=
  n ← draw;
  ids ← collect (record_tool ep (clock env n)) (ep_names "tools_required" ep);
  let ok := (ep_text "decision" "" ep =? "allowed")%string in
  access_event "tool_access" "tool_access" ok
    ([ ("decision_ids", strings ids); ("tools", strings (ep_names "tools_required" ep));
       ("allowed_tools", strings (ep_names "allowed_tools" ep)) ] ++ bound_ids ep ++
     (if ok then [] else [("ungranted", strings (ep_names "ungranted_tools" ep))])).

Definition record_adapter (ep : pyctx) (now adapter : string) : io Json X (bool * string) :=
  n ← draw;
  let ok := mem adapter (ep_names "allowed_adapters" ep) && (ep_text "decision" "" ep =? "allowed")%string in
  _ ← record_decision env DecisionLog.adapter_access_decisions
    ([ ("decision_id", VStr (fresh_id env n)); ("run_id", VStr run); ("step_id", VInt stp);
       ("node_id", VStr node_id); ("adapter_type", VStr "search"); ("adapter_name", VStr adapter);
       ("tool_name", VStr "search") ] ++ bound_ids ep ++
     [ ("decision", deny_or_allow ok); ("reason", reason_unless ok); ("created_at", VStr now) ]);
  mret (ok, fresh_id env n).

Definition ids_where (b : bool) (l : list (bool * string)) : pyval :=
  strings (map snd (List.filter (fun x => Bool.eqb (fst x) b) l)).

Definition adapter_access (ep : pyctx) : io Json X unit :=
  n ← draw;
  ids ← collect (record_adapter ep (clock env n)) (ep_names "adapters_required" ep);
  let ok := (ep_text "decision" "" ep =? "allowed")%string in
  access_event "adapter_access" "adapter_access" ok
    ([ ("allow_decision_ids", ids_where true ids); ("deny_decision_ids", ids_where false ids);
       ("adapters", strings (ep_names "adapters_required" ep));
       ("allowed_adapters", strings (ep_names "allowed_adapters" ep)) ] ++ bound_ids ep ++
     (if ok then [] else [("ungranted", strings (ep_names "ungranted_adapters" ep))])).

Definition memory_read (ep : pyctx) : io Json X unit :=
  n ← draw;
  let ok := (ep_text "decision" "" ep =? "allowed")%string in
  _ ← record_decision env DecisionLog.memory_read_decisions
    ([ ("decision_id", VStr (fresh_id env n)); ("run_id", VStr run); ("step_id", VInt stp);
       ("node_id", VStr node_id) ] ++ bound_ids ep ++
     [ ("decision", deny_or_allow ok); ("purpose", VStr "node_context"); ("source", VStr "session_memory");
       ("exposed_to_node", VBool ok); ("created_at", VStr (clock env n)) ]);
  _ ← (if ok then modify (allow_read (stp, node_id) (fresh_id env n)) else mret tt);
  access_event "memory_read" "memory_read" ok
    ([ ("decision_id", VStr (fresh_id env n)) ] ++ bound_ids ep ++
     [ ("purpose", VStr "node_context"); ("exposed_to_node", VBool ok) ]).

(** A refused effect: the attempt and its event. *)
Definition block_effect (ep : pyctx) (now : string) (se : string * string) : io Json X unit :=
  n ← draw;
  let decision := VStr (if (ep_text "decision" "" ep =? "requires_approval")%string
                        then "require_approval" else "deny") in
  let common := [ ("side_effect_type", VStr (fst se)); ("effect_target", VStr (snd se)) ] ++ bound_ids ep ++
                [ ("decision", decision); ("denial_reason", VStr (denial_text r)) ] in
  _ ← record_decision env DecisionLog.side_effect_blocked_attempts
    ([ ("attempt_id", VStr (fresh_id env n)); ("run_id", VStr run); ("chain_id", VStr chain);
       ("step_id", VInt stp); ("node_id", VStr node_id) ] ++ common ++ [("created_at", VStr now)]);
  emit env
    (with_meta ([ ("attempt_id", VStr (fresh_id env n)) ] ++ common ++
                [ ("side_effect_types", dget_or "side_effect_types" (VList []) ep) ])
       (draft "side_effect_blocked" node_id "runtime" (Some "side_effect_blocked"))).

(** The effects of the node, or one unknown effect when it declares none. *)
Definition declared_effects : list (string * string) :=
  match dget node_id nodes with
  | Some n => match Contract.side_effects (rn_contract n) with
              | [] => [("unknown", "")]
              | l => map (fun se => (effect_type se, effect_target se)) l
              end
  | None => [("unknown", "")]
  end.

Definition blocked_evaluation : option pyctx :=
  List.find (fun ep => (ep_text "type" "" ep =? "side_effect")%string
                       && mem (ep_text "decision" "" ep) ["denied"; "requires_approval"])
    (evaluated_policies r).

Definition blocked_effects : io Json X unit :=
  match blocked_evaluation with
  | Some ep => n ← draw; each (block_effect ep (clock env n)) declared_effects
  | None => mret tt
  end.

Definition when_evaluated (ty : string) (f : pyctx -> io Json X unit) : io Json X unit :=
  match evaluation ty r with Some ep => f ep | None => mret tt end.

(** The records of a verdict. *)
Definition record_verdict : io Json X unit :=
  _ ← each emit_evaluated (evaluated_policies r);
  _ ← when_evaluated "package_trust" package_trust;
  _ ← when_evaluated "tool_access" tool_access;
  _ ← when_evaluated "adapter_access" adapter_access;
  when_evaluated "memory_read" memory_read.
End Check.

(** [PolicyGateController.check]: the reason of a denial. *)
Definition check (node_id : string) (node : RuntimeNode) (run : string) (stp : Z) (chain : string)
  : io Json X pyval :=
  r ← consult node_id node;
  _ ← record_verdict node_id node run stp r;
  if PolicyGate.allowed r then mret VNone
  else (_ ← blocked_effects node_id run stp chain r; mret (denial_reason r)).
End Controller.

(** ** The verdict *)

Definition speaks (g : gate) : Prop := forall st r, g st = Ok (Return r) -> truthy (denial_reason r) = true.

Lemma py_or_truthy a b : truthy a || truthy b = true -> truthy (py_or a b) = true.
Proof. unfold py_or. by destruct (truthy a) eqn:E. Qed.

Ltac gate_speaks :=
  let H := fresh in intros [ctx ev] r H; unfold gate_trust, gate_tools, gate_model,
    gate_adapters, gate_memory_write, gate_memory_read, gate_side_effects, gate_cost in H;
  try (destruct (observed_trust _) in H);
  gate_cases H; try discriminate; injection H as <-; cbn [denial_reason denied];
  try apply py_or_truthy; assumption.

Section Verdict.
Context (engine : PolicyEngine) (caps : option (string -> option Capabilities)).
Context (events : option (list (string * pyfloat))) (stp : option Z).
Context (py_sum : list pyfloat -> pyval) (list_of_set : list string -> list string).
Context (node_id : string) (node : GateNode).

Lemma gates_speak : Forall speaks (gates engine events py_sum list_of_set node_id node).
Proof. repeat constructor; gate_speaks. Qed.

(** A refusal has a reason, and a grant has none. *)
Lemma check_reason r :
  PolicyGate.check engine caps events stp py_sum list_of_set node_id node = Ok r ->
  truthy (denial_reason r) = negb (PolicyGate.allowed r).
Proof.
  unfold PolicyGate.check. intros H. apply bind_ok in H as ([[c e]|r'] & Ho & H); injection H as <-; [done|].
  rewrite (run_gates_refuse _ _ _ (gates_refuse _ _ _ _ _ _) Ho).
  pose proof gates_speak as Hs. revert Ho. generalize (build_context caps events stp py_sum node_id
    (requirements (gn_contract node)), @nil pyctx).
  induction Hs as [|g gs Hg _ IH]; intros st H; [discriminate|]. cbn [run_gates] in H.
  apply bind_ok in H as ([st'|r''] & Hr & H); [by eapply IH|]. injection H as <-. by eapply Hg.
Qed.
End Verdict.

(** ** The records *)

(** A schema of the store; the columns of a concrete decision. *)
Ltac bound :=
  match goal with
  | |- _ ∈ DecisionLog.schemas => 
      unfold DecisionLog.schemas; repeat (apply elem_of_cons; first [left; reflexivity | right])
  | |- Forall _ _ =>
      repeat (apply List.Forall_cons; [eexists; split; [reflexivity | repeat split; reflexivity]|]);
      apply List.Forall_nil
  | |- _ => eexists; split; [reflexivity | repeat split; reflexivity]
  end.

Section Records.
Context {Json X : Type} (env : Environment).
Context (engine : PolicyEngine) (get_capabilities : World Json X -> string -> option Capabilities).
Context (py_sum : list pyfloat -> pyval) (list_of_set : list string -> list string).
Context (file_digest : string -> string) (nodes : dict RuntimeNode).
Implicit Types (w : World Json X).

Lemma keeps_consult node_id node :
  keeps quiet (consult engine get_capabilities py_sum list_of_set node_id node).
Proof.
  intros w w' r. unfold consult, act. destruct (verdict _ _ _ _ _ _ _); intros [= <- <-]; reflexivity.
Qed.

Lemma keeps_check node_id node run stp chain :
  keeps quiet (check env engine get_capabilities py_sum list_of_set file_digest nodes node_id node run stp chain).
Proof.
  unfold check, record_verdict, when_evaluated, emit_evaluated, package_trust, tool_access, record_tool,
    adapter_access, record_adapter, memory_read, access_event, blocked_effects, block_effect.
  walk ltac:(first [apply keeps_consult | quiet_prim]).
Qed.

(** A check that gives no reason had a verdict that allows. *)
Lemma check_allows node_id node run stp chain w w' v :
  check env engine get_capabilities py_sum list_of_set file_digest nodes node_id node run stp chain w
    = (w', Ok v) ->
  truthy v = false ->
  exists r, verdict engine get_capabilities py_sum list_of_set node_id node w = Ok r /\ PolicyGate.allowed r = true.
Proof.
  unfold check, consult, act. unfold mbind, io_bind at 1.
  destruct (verdict _ _ _ _ _ _ w) as [r|e] eqn:Er; [|discriminate]. unfold io_bind.
  destruct (record_verdict _ _ _ _ _ _ r w) as [w1 [[]|e]]; [|discriminate].
  pose proof (check_reason _ _ _ _ _ _ _ _ _ Er) as Hr. intros H Hv. exists r. split; [done|].
  destruct (PolicyGate.allowed r) eqn:Ea; [done|].
  destruct (blocked_effects _ _ _ _ _ _ r w1) as [w2 [[]|e]]; [|discriminate].
  injection H as <- <-. cbn in Hr. congruence.
Qed.

(** *** The rows of the decision logs *)

Definition log_of (sc : DecisionLog.Schema) w : list pyctx :=
  dget_or (DecisionLog.table_name sc) [] (w_logs w).

(** A value that is bound as it is. *)
Definition plain_value (v : pyval) : bool := match v with VStr _ | VInt _ => true | _ => false end.
Definition plain_source (c : DecisionLog.Column) : bool :=
  match DecisionLog.col_source c with
  | DecisionLog.Required | DecisionLog.Get _ | DecisionLog.GetNow => true
  | _ => false
  end.

Definition bound_as (sc : DecisionLog.Schema) (d : pyctx) (kv : string * pyval) : Prop :=
  exists c, List.find (fun c => (DecisionLog.col_name c =? fst kv)%string) (DecisionLog.columns sc) = Some c /\
    plain_source c = true /\
    dget (DecisionLog.col_key c) d = Some (snd kv) /\ plain_value (snd kv) = true.

Definition shows (kvs : pyctx) (row : pyctx) : Prop :=
  Forall (fun kv => DecisionLog.cell (fst kv) row = snd kv) kvs.

Lemma column_plain now d c v x :
  plain_source c = true -> plain_value v = true -> dget (DecisionLog.col_key c) d = Some v ->
  DecisionLog.column_value now d c = Ok x -> x = v.
Proof.
  unfold DecisionLog.column_value, DecisionLog.source_value, plain_source. intros Hc Hv Hd H.
  assert (DecisionLog.stored_value c v = Ok x) as Hs.
  { unfold dget_or in H. rewrite Hd in H. by destruct (DecisionLog.col_source c). }
  unfold DecisionLog.stored_value in Hs. destruct v; try discriminate; cbn [DecisionLog.bind_value] in Hs.
  - destruct (_ && _); [|discriminate]. by injection Hs.
  - by injection Hs.
Qed.

Lemma recorded_row sc now d t t' kvs :
  sc ∈ DecisionLog.schemas -> DecisionLog.record sc now d t = Ok t' -> Forall (bound_as sc d) kvs ->
  exists r, t' = DecisionLog.insert_or_replace sc r t /\ shows kvs r.
Proof.
  intros Hsc H Hk. destruct (DecisionLog.record_spec _ _ _ _ _ Hsc H) as (r & -> & _ & Hc).
  exists r. split; [done|]. eapply Forall_impl; [exact Hk|].
  intros kv (c & [Hin%list_elem_of_In <-%String.eqb_eq]%List.find_some & Hs & Hd & Hv).
  by eapply column_plain; [..|apply Hc].
Qed.

(** Rows of ids drawn before are never replaced. *)
Definition logs_grow w w' : Prop :=
  (w_draws w <= w_draws w')%nat /\
  (forall kd, kd ∈ w_read_allows w -> kd ∈ w_read_allows w') /\
  forall sc row n, sc ∈ DecisionLog.schemas -> row ∈ log_of sc w ->
    DecisionLog.cell (DecisionLog.id_column sc) row = VStr (fresh_id env n) -> (n < w_draws w)%nat ->
    row ∈ log_of sc w'.

#[export] Instance logs_grow_preorder : PreOrder logs_grow.
Proof.
  split; [by intros w|]. intros w1 w2 w3 (A1 & A2 & A3) (B1 & B2 & B3).
  split_and!; [lia | auto|]. intros sc row n Hsc Hr Hid Hn.
  eapply B3; [done | by eapply A3 | done | lia].
Qed.

(** A drawn decision is in its log. *)
Definition logged (sc : DecisionLog.Schema) (kvs : pyctx) (n : nat) w : Prop :=
  (n < w_draws w)%nat /\ exists row, row ∈ log_of sc w /\
    DecisionLog.cell (DecisionLog.id_column sc) row = VStr (fresh_id env n) /\ shows kvs row.

Lemma logged_grow sc kvs n w w' :
  sc ∈ DecisionLog.schemas -> logs_grow w w' -> logged sc kvs n w -> logged sc kvs n w'.
Proof.
  intros Hsc (H1 & _ & H3) (Hn & row & Hr & Hid & Hk). split; [lia|]. exists row. eauto.
Qed.

Lemma table_names sc sc' :
  sc ∈ DecisionLog.schemas -> sc' ∈ DecisionLog.schemas ->
  DecisionLog.table_name sc = DecisionLog.table_name sc' -> sc = sc'.
Proof.
  unfold DecisionLog.schemas. intros H H'.
  repeat (apply elem_of_cons in H as [->|H]); [..|by apply elem_of_nil in H];
  repeat (apply elem_of_cons in H' as [->|H']); try done; by apply elem_of_nil in H'.
Qed.

Lemma log_of_set sc t rows w :
  log_of sc (set_log t rows w) = if decide (DecisionLog.table_name sc = t) then rows else log_of sc w.
Proof.
  unfold log_of, set_log, dget_or. cbn. destruct (decide _) as [<-|Hn].
  - by rewrite dget_dset_same.
  - by rewrite dget_dset_other by congruence.
Qed.

Lemma grow_draw : keeps logs_grow (@draw Json X).
Proof. intros w w' r [= <- <-]. split_and!; [cbn; lia | done | done]. Qed.

Lemma grow_same w w' :
  (w_draws w <= w_draws w')%nat -> w_logs w' = w_logs w -> w_read_allows w' = w_read_allows w -> logs_grow w w'.
Proof.
  intros H1 H2 H3. split_and!; [done | by rewrite H3|]. intros sc row n _ Hr _ _.
  unfold log_of in *. by rewrite H2.
Qed.

(** What leaves the allowed reads as they were. *)
Definition same_allows w w' : Prop := w_read_allows w' = w_read_allows w /\ (w_draws w <= w_draws w')%nat.

#[export] Instance same_allows_preorder : PreOrder same_allows.
Proof. split; [by intros w|]. intros w1 w2 w3 [A1 A2] [B1 B2]. split; [congruence | lia]. Qed.

Lemma same_draw : keeps same_allows (@draw Json X).
Proof. intros w w' r [= <- <-]. split; [done | cbn; lia]. Qed.

Lemma same_emit d : keeps same_allows (@emit Json X env d).
Proof.
  apply keeps_bind; [apply _ | apply same_draw|]. intros n.
  do 2 (apply keeps_bind; [apply _ | apply keeps_gets; apply _|]; intros ?).
  apply keeps_bind; [apply _ | apply same_draw|]. intros m w w' r. unfold act.
  destruct (accepts env m); [destruct (append_trace_event _ _ _ _ _ _ _ _ _)|]; intros [= <- <-];
    by split.
Qed.

Lemma bind_done {A B} (m : io Json X A) (f : A -> io Json X B) w w' b :
  (m ≫= f) w = (w', Ok b) -> exists w1 a, m w = (w1, Ok a) /\ f a w1 = (w', Ok b).
Proof. unfold mbind, io_bind. destruct (m w) as [w1 [a|e]]; [|discriminate]. eauto. Qed.

Lemma grow_emit d : keeps logs_grow (@emit Json X env d).
Proof.
  apply keeps_bind; [apply _ | apply grow_draw|]. intros n.
  do 2 (apply keeps_bind; [apply _ | apply keeps_gets; apply _|]; intros ?).
  apply keeps_bind; [apply _ | apply grow_draw|]. intros m w w' r. unfold act.
  destruct (accepts env m); [destruct (append_trace_event _ _ _ _ _ _ _ _ _)|]; intros [= <- <-];
    by apply grow_same.
Qed.

Lemma grow_allow_read k d : keeps logs_grow (@modify Json X (allow_read k d)).
Proof.
  intros w w' r [= <- <-]. split_and!; [done | intros kd H; by right | done].
Qed.

(** A decision whose id was just drawn. *)
Context (Hfresh : forall a b, fresh_id env a = fresh_id env b -> a = b).

Lemma recorded_decision sc kvs d n w w' r :
  sc ∈ DecisionLog.schemas ->
  Forall (bound_as sc d) ((DecisionLog.id_column sc, VStr (fresh_id env n)) :: kvs) ->
  (n < w_draws w)%nat -> record_decision env sc d w = (w', r) ->
  (w_draws w <= w_draws w')%nat /\ w_read_allows w' = w_read_allows w /\
  (forall sc' row m, sc' ∈ DecisionLog.schemas -> row ∈ log_of sc' w ->
     DecisionLog.cell (DecisionLog.id_column sc') row = VStr (fresh_id env m) -> m <> n -> row ∈ log_of sc' w') /\
  (r = Ok tt -> logged sc kvs n w').
Proof.
  intros Hsc Hd Hn. unfold record_decision, mbind, io_bind, draw, act. cbn.
  destruct (accepts env (w_draws w)); [|by intros [= <- <-]; split_and!; [cbn; lia|..]].
  destruct (DecisionLog.record _ _ _ _) as [t|e] eqn:E; [|by intros [= <- <-]; split_and!; [cbn; lia|..]].
  intros [= <- <-].
  destruct (recorded_row _ _ _ _ _ _ Hsc E Hd) as (row & -> & [Hid Hk]%Forall_cons). cbn in Hid.
  split_and!; [cbn; lia | done|..].
  - intros sc' row' m Hsc' Hr' Hid' Hm. rewrite log_of_set. destruct (decide _) as [Ht|]; [|done].
    apply table_names in Ht as ->; [|done..]. apply DecisionLog.elem_of_insert_or_replace. right.
    split; [done|]. unfold DecisionLog.same_id. rewrite Hid', Hid. apply String.eqb_neq.
    intros Heq%Hfresh. done.
  - intros _. split; [cbn; lia|]. exists row. rewrite log_of_set, decide_True by done.
    split_and!; [apply DecisionLog.elem_of_insert_or_replace; by left | done..].
Qed.

Lemma grow_block {A} sc (f : nat -> pyctx) (k : nat -> io Json X A) :
  sc ∈ DecisionLog.schemas ->
  (forall n, bound_as sc (f n) (DecisionLog.id_column sc, VStr (fresh_id env n))) ->
  (forall n, keeps logs_grow (k n)) ->
  keeps logs_grow (n ← @draw Json X; _ ← @record_decision Json X env sc (f n); k n).
Proof.
  intros Hsc Hf Hk w w' r. unfold draw, mbind, io_bind.
  assert (Hid : Forall (bound_as sc (f (w_draws w))) [(DecisionLog.id_column sc, VStr (fresh_id env (w_draws w)))])
    by (constructor; [apply Hf | constructor]).
  destruct (record_decision env sc (f (w_draws w)) (set_draws (S (w_draws w)) w)) as [w1 [u|e]] eqn:E;
    destruct (recorded_decision sc [] _ (w_draws w) (set_draws (S (w_draws w)) w) _ _ Hsc Hid (Nat.lt_succ_diag_r _) E)
      as (H1 & H2 & H3 & _); cbn in H1, H2, H3.
  all: assert (logs_grow w w1) as Hg by
    (split_and!; [lia | by rewrite H2 | intros sc' row m Hsc' Hr Hid' Hm; apply (H3 sc' row m); [done..|lia]]).
  - intros H. transitivity w1; [exact Hg | exact (Hk _ _ _ _ H)].
  - by intros [= <- <-].
Qed.

Lemma logged_block {A} sc (f : nat -> pyctx) kvs (k : nat -> io Json X A) :
  sc ∈ DecisionLog.schemas ->
  (forall n, Forall (bound_as sc (f n)) ((DecisionLog.id_column sc, VStr (fresh_id env n)) :: kvs)) ->
  (forall n, keeps logs_grow (k n)) ->
  ensures (n ← @draw Json X; _ ← @record_decision Json X env sc (f n); k n) (fun w => exists n, logged sc kvs n w).
Proof.
  intros Hsc Hf Hk w w' a. unfold draw, mbind, io_bind.
  destruct (record_decision env sc (f (w_draws w)) (set_draws (S (w_draws w)) w)) as [w1 [[]|e]] eqn:E; [|discriminate].
  destruct (recorded_decision sc kvs _ (w_draws w) (set_draws (S (w_draws w)) w) _ _ Hsc (Hf _)
              (Nat.lt_succ_diag_r _) E) as (_ & _ & _ & H).
  intros Ha. exists (w_draws w). eapply logged_grow; [done | exact (Hk _ _ _ _ Ha) | by apply H].
Qed.

(** ** What a check leaves behind *)

Section Grants.
Context (node_id : string) (node : RuntimeNode) (run : string) (stp : Z) (chain : string).
Context (r : PolicyCheckResult).

Definition at_node : pyctx := [("run_id", VStr run); ("step_id", VInt stp); ("node_id", VStr node_id)].

Definition allowed_by (ep : pyctx) : bool := (ep_text "decision" "" ep =? "allowed")%string.

Lemma grow_access_event ty word ok md : keeps logs_grow (@access_event Json X env node_id r ty word ok md).
Proof. apply grow_emit. Qed.

Lemma grow_record_tool ep now tool : keeps logs_grow (@record_tool Json X env node_id run stp r ep now tool).
Proof.
  apply grow_block; [bound | intros n; bound | intros n; apply keeps_ret; apply _].
Qed.

Lemma grow_record_adapter ep now a : keeps logs_grow (@record_adapter Json X env node_id run stp r ep now a).
Proof.
  apply grow_block; [bound | intros n; bound | intros n; apply keeps_ret; apply _].
Qed.

Lemma grow_package_trust ep :
  keeps logs_grow (@package_trust Json X env file_digest node_id node run stp r ep).
Proof. apply grow_block; [bound | intros n; bound | intros n; apply grow_access_event]. Qed.

Lemma grow_tool_access ep : keeps logs_grow (@tool_access Json X env node_id run stp r ep).
Proof.
  unfold tool_access. walk ltac:(first [apply grow_draw | apply grow_record_tool | apply grow_access_event]).
Qed.

Lemma grow_adapter_access ep : keeps logs_grow (@adapter_access Json X env node_id run stp r ep).
Proof.
  unfold adapter_access.
  walk ltac:(first [apply grow_draw | apply grow_record_adapter | apply grow_access_event]).
Qed.

Lemma grow_memory_read ep : keeps logs_grow (@memory_read Json X env node_id run stp r ep).
Proof.
  apply grow_block; [bound | intros n; bound|]. intros n.
  walk ltac:(first [apply grow_allow_read | apply grow_access_event]).
Qed.

Lemma grow_block_effect ep now se :
  keeps logs_grow (@block_effect Json X env node_id run stp chain r ep now se).
Proof. apply grow_block; [bound | intros n; bound | intros n; apply grow_emit]. Qed.

Definition tool_row (ep : pyctx) (tool : string) : pyctx :=
  at_node ++ [("tool_name", VStr tool);
              ("decision", deny_or_allow (mem tool (ep_names "allowed_tools" ep) && allowed_by ep))].
Definition adapter_row (ep : pyctx) (a : string) : pyctx :=
  at_node ++ [("adapter_name", VStr a);
              ("decision", deny_or_allow (mem a (ep_names "allowed_adapters" ep) && allowed_by ep))].
Definition access_row (ep : pyctx) : pyctx := at_node ++ [("decision", deny_or_allow (allowed_by ep))].

Lemma entry_grows sc kvs w w' :
  sc ∈ DecisionLog.schemas -> logs_grow w w' -> (exists n, logged sc kvs n w) -> exists n, logged sc kvs n w'.
Proof. intros Hsc Hg [m Hm]. exists m. by eapply logged_grow. Qed.

Lemma tools_logged ep tool :
  tool ∈ ep_names "tools_required" ep ->
  ensures (@tool_access Json X env node_id run stp r ep)
    (fun w => exists n, logged DecisionLog.tool_access_decisions (tool_row ep tool) n w).
Proof.
  intros Hin. apply ensures_bind_r. intros n. apply (ensures_bind_l logs_grow).
  - intros w w'. apply entry_grows. bound.
  - refine (ensures_collect logs_grow _ (fun tool w => exists n, logged _ (tool_row ep tool) n w) _ _ _ _ tool Hin).
    + intros a w w'. apply entry_grows. bound.
    + intros a. apply grow_record_tool.
    + intros a. apply logged_block; [bound | intros m; bound | intros m; apply keeps_ret; apply _].
  - intros ids. apply grow_access_event.
Qed.

Lemma adapters_logged ep a :
  a ∈ ep_names "adapters_required" ep ->
  ensures (@adapter_access Json X env node_id run stp r ep)
    (fun w => exists n, logged DecisionLog.adapter_access_decisions (adapter_row ep a) n w).
Proof.
  intros Hin. apply ensures_bind_r. intros n. apply (ensures_bind_l logs_grow).
  - intros w w'. apply entry_grows. bound.
  - refine (ensures_collect logs_grow _ (fun a w => exists n, logged _ (adapter_row ep a) n w) _ _ _ _ a Hin).
    + intros b w w'. apply entry_grows. bound.
    + intros b. apply grow_record_adapter.
    + intros b. apply logged_block; [bound | intros m; bound | intros m; apply keeps_ret; apply _].
  - intros ids. apply grow_access_event.
Qed.

Lemma trust_logged ep :
  ensures (@package_trust Json X env file_digest node_id node run stp r ep)
    (fun w => exists n, logged DecisionLog.package_trust_decisions (access_row ep) n w).
Proof. apply logged_block; [bound | intros n; bound | intros n; apply grow_access_event]. Qed.

(** *** The reads a check allows *)

Lemma same_of_quiet_record sc d : keeps same_allows (@record_decision Json X env sc d).
Proof.
  apply keeps_bind; [apply _ | apply same_draw|]. intros n w w' x. unfold act.
  destruct (accepts env n); [destruct (DecisionLog.record _ _ _ _)|]; intros [= <- <-]; by split.
Qed.

Ltac sames :=
  walk ltac:(first [apply same_draw | apply same_emit | apply same_of_quiet_record]).

Lemma same_evaluated ep : keeps same_allows (@emit_evaluated Json X env node_id r ep).
Proof. unfold emit_evaluated. sames. Qed.
Lemma same_trust ep : keeps same_allows (@package_trust Json X env file_digest node_id node run stp r ep).
Proof. unfold package_trust, access_event. sames. Qed.
Lemma same_tools ep : keeps same_allows (@tool_access Json X env node_id run stp r ep).
Proof. unfold tool_access, record_tool, access_event. sames. Qed.
Lemma same_adapters ep : keeps same_allows (@adapter_access Json X env node_id run stp r ep).
Proof. unfold adapter_access, record_adapter, access_event. sames. Qed.
Lemma same_when ty f : (forall ep, keeps same_allows (f ep)) -> keeps same_allows (@when_evaluated Json X r ty f).
Proof. intros Hf. unfold when_evaluated. destruct (evaluation ty r); [apply Hf | by apply keeps_ret; apply _]. Qed.
Lemma same_blocked : keeps same_allows (@blocked_effects Json X env nodes node_id run stp chain r).
Proof. unfold blocked_effects, block_effect. sames. Qed.

(** A new row shows the read; the grants are those of before and, when the
    read was allowed, one more: this node, at this step, under the row's id. *)
Definition read_decided (ep : pyctx) w w' : Prop :=
  exists n, (w_draws w <= n)%nat /\ logged DecisionLog.memory_read_decisions (access_row ep) n w' /\
    w_read_allows w' =
      (if allowed_by ep then [((stp, node_id), fresh_id env n)] else []) ++ w_read_allows w.

(** No read is granted but by an evaluation of the memory policy. *)
Definition read_settled w w' : Prop :=
  match evaluation "memory_read" r with
  | Some ep => read_decided ep w w'
  | None => w_read_allows w' = w_read_allows w
  end.

Lemma read_grows ep w w1 w' :
  logs_grow w1 w' -> same_allows w1 w' -> read_decided ep w w1 -> read_decided ep w w'.
Proof.
  intros Hg [Hs _] (n & Hd & Hn & Ha). exists n. split_and!; [done | by eapply logged_grow; [bound|..] | by rewrite Hs].
Qed.

Lemma read_exactly ep w w' a : @memory_read Json X env node_id run stp r ep w = (w', Ok a) -> read_decided ep w w'.
Proof.
  unfold memory_read. unfold draw at 1. unfold mbind, io_bind at 1.
  change (ep_text "decision" "" ep =? "allowed")%string with (allowed_by ep).
  unfold io_bind at 1.
  match goal with |- context [record_decision env ?sc ?d ?w0] =>
    destruct (record_decision env sc d w0) as [w1 [[]|e]] eqn:E; [|discriminate];
    pose proof (recorded_decision sc (access_row ep) d (w_draws w) w0 w1 (Ok tt)
      ltac:(bound) ltac:(bound) (Nat.lt_succ_diag_r _) E) as (_ & Hsame & _ & Hl)
  end.
  specialize (Hl eq_refl). cbn in Hsame. unfold io_bind at 1. intros H.
  assert (exists w2, (if allowed_by ep then modify (allow_read (stp, node_id) (fresh_id env (w_draws w)))
            else mret tt) w1 = (w2, Ok tt) /\ logs_grow w1 w2 /\
            w_read_allows w2 = (if allowed_by ep then [((stp, node_id), fresh_id env (w_draws w))] else []) ++ w_read_allows w)
    as (w2 & E2 & Hg & Ha).
  { rewrite <- Hsame. destruct (allowed_by ep) eqn:Ea; eexists; (split; [reflexivity|]); split; try done.
    by eapply (grow_allow_read (stp, node_id)). }
  rewrite E2 in H. pose proof (same_emit _ _ _ _ H) as [Hs _]. apply grow_access_event in H. exists (w_draws w). split_and!.
  - done.
  - eapply logged_grow; [bound | exact H|]. eapply logged_grow; [bound | exact Hg | exact Hl].
  - by rewrite Hs, Ha.
Qed.

Lemma record_verdict_reads w w' a :
  @record_verdict Json X env file_digest node_id node run stp r w = (w', Ok a) -> read_settled w w'.
Proof.
  unfold record_verdict. intros H.
  assert (exists w1, same_allows w w1 /\ @when_evaluated Json X r "memory_read" (memory_read env node_id run stp r) w1 = (w', Ok a))
    as (w1 & [Hs Hd] & E).
  { apply bind_done in H as (w1 & [] & E1 & H). apply bind_done in H as (w2 & [] & E2 & H).
    apply bind_done in H as (w3 & [] & E3 & H). apply bind_done in H as (w4 & [] & E4 & H). exists w4. split; [|done].
    transitivity w1; [by eapply keeps_each; [apply _ | apply same_evaluated | exact E1]|].
    transitivity w2; [exact (same_when _ _ same_trust _ _ _ E2)|].
    transitivity w3; [exact (same_when _ _ same_tools _ _ _ E3) | exact (same_when _ _ same_adapters _ _ _ E4)]. }
  unfold when_evaluated in E. unfold read_settled. destruct (evaluation "memory_read" r) as [ep|].
  - apply read_exactly in E as (n & Hn & Hl & Ha). exists n. split_and!; [lia | done | by rewrite Ha, Hs].
  - by injection E as <- <-.
Qed.

(** The verdict on a blocked effect. *)
Definition blocked_decision (ep : pyctx) : pyval :=
  VStr (if (ep_text "decision" "" ep =? "requires_approval")%string then "require_approval" else "deny").

Definition effect_row (ep : pyctx) (se : string * string) : pyctx :=
  at_node ++ [("side_effect_type", VStr (fst se)); ("effect_target", VStr (snd se)); ("decision", blocked_decision ep)].

Lemma ensures_each (f : string * string -> io Json X unit) (Q : string * string -> World Json X -> Prop) l :
  (forall a w w', logs_grow w w' -> Q a w -> Q a w') -> (forall a, keeps logs_grow (f a)) ->
  (forall a, ensures (f a) (Q a)) -> forall a, a ∈ l -> ensures (each f l) (Q a).
Proof.
  intros HQ Hk Hf a. induction l as [|b l IH]; [by intros ?%elem_of_nil|]. intros [->|Hin]%elem_of_cons.
  - apply (ensures_bind_l logs_grow); [apply HQ | apply Hf|]. intros _. by apply keeps_each; [apply _|].
  - apply ensures_bind_r. intros _. by apply IH.
Qed.

Lemma effects_logged ep se :
  blocked_evaluation r = Some ep -> se ∈ declared_effects nodes node_id ->
  ensures (@blocked_effects Json X env nodes node_id run stp chain r)
    (fun w => exists n, logged DecisionLog.side_effect_blocked_attempts (effect_row ep se) n w).
Proof.
  intros He Hin. unfold blocked_effects. rewrite He. apply ensures_bind_r. intros now.
  refine (ensures_each _ (fun se w => exists n, logged _ (effect_row ep se) n w) _ _ _ _ se Hin).
  - intros a w w'. apply entry_grows. bound.
  - intros a. apply grow_block_effect.
  - intros a. apply logged_block; [bound | intros n; bound | intros n; apply grow_emit].
Qed.

Lemma grow_when ty f : (forall ep, keeps logs_grow (f ep)) -> keeps logs_grow (@when_evaluated Json X r ty f).
Proof. intros Hf. unfold when_evaluated. destruct (evaluation ty r); [apply Hf | by apply keeps_ret; apply _]. Qed.

Lemma grow_blocked : keeps logs_grow (@blocked_effects Json X env nodes node_id run stp chain r).
Proof. unfold blocked_effects. walk ltac:(first [apply grow_draw | apply grow_block_effect]). Qed.

(** The rows that a verdict leaves. *)
Definition verdict_logged w : Prop :=
  (forall ep, evaluation "package_trust" r = Some ep ->
     exists n, logged DecisionLog.package_trust_decisions (access_row ep) n w) /\
  (forall ep tool, evaluation "tool_access" r = Some ep -> tool ∈ ep_names "tools_required" ep ->
     exists n, logged DecisionLog.tool_access_decisions (tool_row ep tool) n w) /\
  (forall ep a, evaluation "adapter_access" r = Some ep -> a ∈ ep_names "adapters_required" ep ->
     exists n, logged DecisionLog.adapter_access_decisions (adapter_row ep a) n w).

Lemma verdict_logged_grow w w' : logs_grow w w' -> verdict_logged w -> verdict_logged w'.
Proof.
  intros Hg (H1 & H2 & H3). split_and!; intros.
  - eapply entry_grows; [bound | exact Hg | by apply H1].
  - eapply entry_grows; [bound | exact Hg | by apply H2].
  - eapply entry_grows; [bound | exact Hg | by apply H3].
Qed.

Lemma ensures_when ty f (Q : World Json X -> Prop) ep :
  evaluation ty r = Some ep -> ensures (f ep) Q -> ensures (@when_evaluated Json X r ty f) Q.
Proof. intros He Hf. unfold when_evaluated. by rewrite He. Qed.

Ltac grow_one :=
  apply grow_when; intros;
  lazymatch goal with
  | |- context [@package_trust] => apply grow_package_trust
  | |- context [@tool_access] => apply grow_tool_access
  | |- context [@adapter_access] => apply grow_adapter_access
  | |- context [@memory_read] => apply grow_memory_read
  end.
Ltac grows :=
  intros;
  lazymatch goal with
  | |- keeps _ (mbind _ _) => apply keeps_bind; [apply _ | grow_one | grows]
  | |- _ => grow_one
  end.
Ltac entry := intros ? ?; apply entry_grows; bound.

Lemma record_verdict_logged :
  ensures (@record_verdict Json X env file_digest node_id node run stp r) verdict_logged.
Proof.
  intros w w' a H. unfold record_verdict in H. split_and!; intros ep; [|intros tool|intros ad]; intros He; [|intros Hin..].
  - revert w w' a H. do 1 (apply ensures_bind_r; intros ?). apply (ensures_bind_l logs_grow); [entry| |grows].
    apply (ensures_when _ _ _ ep He); by apply trust_logged.
  - revert w w' a H. do 2 (apply ensures_bind_r; intros ?). apply (ensures_bind_l logs_grow); [entry| |grows].
    apply (ensures_when _ _ _ ep He); by apply tools_logged.
  - revert w w' a H. do 3 (apply ensures_bind_r; intros ?). apply (ensures_bind_l logs_grow); [entry| |grows].
    apply (ensures_when _ _ _ ep He); by apply adapters_logged.
Qed.
End Grants.

(** C6: Governance is never silent: when the check of a node returns, its
    reason is non-empty exactly when the gate refused, and what the gate
    decided of the package's trust, of each tool and each adapter the node
    requires, of its memory read, and of each effect of a blocked attempt is
    a durable row of its log naming run, step, node and verdict.  Memory can be
    read only by that grant: a check adds to the allowed reads exactly one
    entry, this node at this step under the id of the new row, when the gate
    allowed the read, and none when it refused it or had nothing to decide. *)
Theorem grants_recorded node_id node run stp chain w w' v :
  check env engine get_capabilities py_sum list_of_set file_digest nodes node_id node run stp chain w
    = (w', Ok v) ->
  exists r, verdict engine get_capabilities py_sum list_of_set node_id node w = Ok r /\
    truthy v = negb (PolicyGate.allowed r) /\
    verdict_logged node_id run stp r w' /\
    read_settled node_id run stp r w w' /\
    (PolicyGate.allowed r = false -> forall ep se,
      blocked_evaluation r = Some ep -> se ∈ declared_effects nodes node_id ->
      exists n, logged DecisionLog.side_effect_blocked_attempts (effect_row node_id run stp ep se) n w').
Proof.
  unfold check, consult, act. unfold mbind, io_bind at 1.
  destruct (verdict _ _ _ _ _ _ w) as [r|e] eqn:Er; [|discriminate]. unfold io_bind.
  destruct (record_verdict _ _ _ _ _ _ r w) as [w1 [[]|e]] eqn:Ev; [|discriminate].
  pose proof (record_verdict_reads _ _ _ _ _ _ _ _ Ev) as Hs.
  apply record_verdict_logged in Ev. pose proof (check_reason _ _ _ _ _ _ _ _ _ Er) as Hr.
  destruct (PolicyGate.allowed r) eqn:Ea; intros H; exists r; (split; [done|]); rewrite Ea.
  - injection H as <- <-. by split_and!.
  - destruct (blocked_effects _ _ _ _ _ _ r w1) as [w2 [[]|e]] eqn:Eb; [|discriminate].
    injection H as <- <-. pose proof (grow_blocked _ _ _ _ _ _ _ _ Eb) as Hg. split_and!; [done | | |].
    + eapply verdict_logged_grow; [exact Hg | exact Ev].
    + apply same_blocked in Eb as Hb. unfold read_settled in *.
      destruct (evaluation "memory_read" r); [by eapply read_grows | by rewrite (proj1 Hb)].
    + intros _ ep se He Hse. by apply (effects_logged _ _ _ _ _ _ _ He Hse _ _ _ Eb).
Qed.
End Records.

(** ** A grant *)

Definition demo_runtime_node (trust : string) : RuntimeNode := mkRuntimeNode "search" (demo_node trust) "1.0.0" "search.py".
Definition demo_capabilities (_ : World ChainState unit) : string -> option Capabilities :=
  match demo_caps with Some f => f | None => fun _ => None end.
Definition demo_digest (p : string) : string := "sha:" +:+ p.

Abbreviation demo_checked trust :=
  (check demo_env default_engine demo_capabilities demo_sum (fun l => l) demo_digest
    [("search", demo_runtime_node trust)] "search" (demo_runtime_node trust) "r" 3 "c"
    (demo_world (initial_state "r" "t0") tt)).

Lemma grants_recorded_witness :
  match demo_checked "local_trusted" with
  | (w', Ok v) => exists r, truthy v = negb (PolicyGate.allowed r) /\
      verdict_logged demo_env "search" "r" 3 r w' /\
      read_settled demo_env "search" "r" 3 r (demo_world (initial_state "r" "t0") tt) w'
  | _ => False
  end.
Proof.
  destruct (demo_checked "local_trusted") as [w' [v|e]] eqn:E; [|vm_compute in E; discriminate].
  destruct (grants_recorded demo_env default_engine demo_capabilities demo_sum (fun l => l) demo_digest
    [("search", demo_runtime_node "local_trusted")] demo_fresh_ids "search" (demo_runtime_node "local_trusted")
    "r" 3 "c" (demo_world (initial_state "r" "t0") tt) w' v E) as (r & _ & H1 & H2 & H3 & _).
  exists r. exact (conj H1 (conj H2 H3)).
Defined.

Definition tool_verdicts {X} (w : World ChainState X) : list (pyval * pyval) :=
  map (fun row => (DecisionLog.cell "tool_name" row, DecisionLog.cell "decision" row))
    (log_of DecisionLog.tool_access_decisions w).

Example grant_and_denial :
  match demo_checked "local_trusted", demo_checked "local_untrusted" with
  | (w, Ok v), (w', Ok v') =>
      v = VNone /\ tool_verdicts w = [(VStr "web", VStr "allow")] /\
      truthy v' = true /\ tool_verdicts w' = []
  | _, _ => False
  end.
Proof. vm_compute. auto. Qed.
