(* ===== verification/Orchestrator.v ===== *)
(** * The execution loop

    [runtime/orchestrator.py]: a run from its query and the resumption of a
    stored run, over the shared world of Runtime.  The loop over the execution
    order is a loop with fuel over one step; a step either goes on at a cursor
    (order, index, payload) or returns.  What the mixins, the invoker and the
    branch executor do for the loop is the interface [NodeServices]; clocks,
    texts of messages, JSON schemas and the dialogue with the reviewer are
    fields of the setup. *)
From S2P Require Import Prelude PyFloat PyValue Sql Contract Blueprint Policy Envelope PolicyGate ChainState StateStore.
From S2P Require Import LoopEnforcer Scheduler Persistence BudgetApproval ReviewManager Trace Runtime GateController.
From S2P Require Json FailureManager Preflight InvariantEngine DecisionLog SideEffectLedger RecoveryService.

(** ** Collaborators *)

Record Setup (Json X : Type) := mkSetup {
  o_blueprint : ChainBlueprint;
  o_nodes : dict RuntimeNode;
  o_engine : PolicyEngine;
  (** NODECHAIN_GOVERNANCE_STRICT, and whether NODECHAIN_STRICT_SCHEMA is 1 *)
  o_governance : string;
  o_strict_schema : bool;
  o_set_order : list string -> list string;
  o_list_of_set : list string -> list string;
  o_py_sum : list pyfloat -> pyval;
  o_sql_sum : list pyfloat -> pyfloat;
  o_file_digest : string -> string;
  o_sha256 : string -> string;
  o_instant_of : string -> option Z;
  (** [time.time()], and the hexadecimal digits of a UUID, by draw *)
  o_seconds : nat -> Z;
  o_hex : nat -> string;
  (** the side-effect rows of the run *)
  o_effects : World Json X -> list SideEffectLedger.Row;
  (** the errors of an output against a schema *)
  o_schema_errors : pyctx -> string -> list string;
  o_trace_dump : list TraceEvent -> pyval;
  o_review : ReviewEnv;
  o_answer : nat -> string;
  (** [_session_memory] and [_memory_derived_outputs] *)
  o_session_memory : list pyctx;
  o_memory_derived : list string;
  (** texts *)
  o_exn_text : exn -> string;
  o_issue_text : Preflight.preflight_issue -> string;
  o_contract_issue_text : Issue -> string;
  o_violation_text : InvariantEngine.InvariantViolation -> string;
  o_loop_text : loop_reason_case -> string;
}.
Arguments o_blueprint {Json X}.
Arguments o_nodes {Json X}.
Arguments o_engine {Json X}.
Arguments o_governance {Json X}.
Arguments o_strict_schema {Json X}.
Arguments o_set_order {Json X}.
Arguments o_list_of_set {Json X}.
Arguments o_py_sum {Json X}.
Arguments o_sql_sum {Json X}.
Arguments o_file_digest {Json X}.
Arguments o_sha256 {Json X}.
Arguments o_instant_of {Json X}.
Arguments o_seconds {Json X}.
Arguments o_hex {Json X}.
Arguments o_effects {Json X}.
Arguments o_schema_errors {Json X}.
Arguments o_trace_dump {Json X}.
Arguments o_review {Json X}.
Arguments o_answer {Json X}.
Arguments o_session_memory {Json X}.
Arguments o_memory_derived {Json X}.
Arguments o_exn_text {Json X}.
Arguments o_issue_text {Json X}.
Arguments o_contract_issue_text {Json X}.
Arguments o_violation_text {Json X}.
Arguments o_loop_text {Json X}.

(** What the loop calls and does not define: the node itself (a response and
    the elapsed milliseconds), the side-effect journal before and after it,
    the events of what it did, the semantic validation of its output (the
    output, which it may calibrate, and the errors of a strict failure), the
    branches of a fan-out (their merged output), and the reconciliation of
    effects on a resume. *)
Class NodeServices (Json X : Type) := {
  execute : RuntimeNode -> InvocationEnvelope -> io Json X (EnvelopeResponse * Z);
  journal_planned : string -> InvocationEnvelope -> io Json X bool;
  detail_events : string -> RuntimeNode -> EnvelopeResponse -> InvocationEnvelope -> io Json X bool;
  complete_reported : string -> InvocationEnvelope -> pyctx -> io Json X bool;
  run_semantic : string -> pyctx -> Z -> io Json X (pyctx * option (list string));
  execute_branches : BranchDef -> list string -> pyctx -> list string -> io Json X (option pyctx);
  reconcile_effects : string -> io Json X unit;
}.

(** Where the loop stands, and how a step ends. *)
Record Cursor := mkCursor {
  c_order : list string;
  c_idx : nat;
  c_payload : pyctx;
}.

Inductive next := Go (c : Cursor) | Stop.

(** What the loop has for a node after its failures were handled. *)
Inductive answered :=
| Answered (r : EnvelopeResponse)
| Skipped (marker : pyctx)
| Failed.

Definition or_text (dflt : string) (o : option string) : string :=
  match o with Some s => if str_truthy s then s else dflt | None => dflt end.
Definition shown (o : option string) : string := default "None" o.

(** [_SKIP_CONTINUE_ACTIONS] *)
Definition SKIP_CONTINUE_ACTIONS : list string :=
  ["skip_memory_write_policy_rejection"; "trace_fallback_stderr"].

Section Orchestrator.
Context {Json X : Type} (dump : ChainState -> Json) (env : Environment) (o : Setup Json X).
Context `{!NodeServices Json X}.
Implicit Types (w : World Json X).

Abbreviation IO := (io Json X).
Abbreviation fail := (fail_chain dump env).

Definition strict : bool := InvariantEngine.governance_strict (o_governance o).

(** An exception of a pure part. *)
Definition or_raise {E A} (what : string) (r : res E A) : IO A :=
  match r with Ok a => mret a | Err _ => raise (Raised what) end.

Definition set_self_step (stp : Z) : IO unit := modify (fun w => set_steps stp (w_next w) w).

(** ** Context, capabilities, costs *)

(** [_compute_loop_cost]: the ledger once a node of the loop completed, else
    the trace. *)
Definition compute_loop_cost (node_id : string) w : pyfloat :=
  match List.find (fun l => mem node_id (path l)) (loops (o_blueprint o)) with
  | None => fzero
  | Some loop =>
      let run := run_id (w_state w) in
      let completed := map snd (get_completed_steps run (w_store w)) in
      if existsb (fun n => mem n completed) (path loop)
      then get_invocation_cost (o_sql_sum o) run (path loop) (w_store w)
      else fold_left (fun c e => match te_node_id e with
                                 | Some n => if mem n (path loop) then fadd c (event_cost e) else c
                                 | None => c
                                 end) (w_trace w) fzero
  end.

Definition names_at (k : string) (d : pyctx) : list string :=
  match dget k d with
  | Some (VList l) => omap (fun v => match v with VStr s => Some s | _ => None end) l
  | _ => []
  end.
Definition flag_at (k : string) (d : pyctx) : bool :=
  match dget k d with Some (VBool b) => b | _ => false end.
Definition budget_at (d : pyctx) : pyfloat :=
  match dget "max_cost_usd" d with
  | Some (VFloat f) => f
  | Some (VInt z) => fround_int z
  | _ => fround_int 1
  end.

(** [_build_capabilities] *)
Definition build_capabilities w (node_id : string) : option Capabilities :=
  match get_node (o_blueprint o) node_id with
  | None => Some default_capabilities
  | Some nd =>
      let config := node_config nd in
      let reqs := option_map (fun n => requirements (rn_contract n)) (dget node_id (o_nodes o)) in
      let declared_tools := match reqs with Some r => tools_required r | None => [] end in
      let declared_adapters := match reqs with Some r => adapters_required r | None => [] end in
      let granted k declared :=
        o_list_of_set o (List.filter (fun t => mem t declared) (py_set (names_at k config))) in
      Some (mkCaps (nonempty declared_tools || truthy (dget_or "can_call_tools" (VBool false) config))
              (flag_at "can_read_memory" config) (flag_at "can_write_memory" config)
              (budget_at config) 60000
              (if nonempty declared_tools then granted "allowed_tools" declared_tools
               else o_list_of_set o (py_set (names_at "allowed_tools" config)))
              (if nonempty declared_adapters then granted "allowed_adapters" declared_adapters else [])
              (get_completed_side_effect_keys (o_effects o w))
              (get_side_effect_status_map (o_effects o w)))
  end.

(** The decision that allows the node to read memory at this step. *)
Definition read_allow (stp : Z) (node_id : string) w : option string :=
  option_map snd (List.find (fun kd => (fst (fst kd) =? stp) && (snd (fst kd) =? node_id)%string)
                    (w_read_allows w)).

Definition exposed_outputs (allow : option string) (outs : pyctx) : pyctx :=
  match allow with
  | Some _ => outs
  | None => List.filter (fun kv => negb (mem (fst kv) (o_memory_derived o))) outs
  end.

(** [_build_context], the context itself. *)
Definition context_of (node_id : string) w : Context :=
  let allow := read_allow (w_step w) node_id w in
  let s := w_state w in
  mkContext (match allow with Some _ => o_session_memory o | None => [] end)
    [ ("outputs", VDict (exposed_outputs allow (outputs s)));
      ("step", VInt (ChainState.step s));
      ("trace", if (node_id =? "trace_collector")%string then o_trace_dump o (w_trace w) else VNone) ]
    [] [] (default "" allow).

Definition derived_exposed (outs : pyctx) : list string :=
  List.filter (fun k => mem k (dkeys outs)) (o_memory_derived o).

Definition build_context (node_id : string) : IO Context :=
  stp ← gets w_step;
  allow ← gets (read_allow stp node_id);
  outs ← gets (fun w => outputs (w_state w));
  ctx ← gets (context_of node_id);
  _ ← match allow with
      | Some d =>
          if nonempty (o_session_memory o) || nonempty (derived_exposed outs) then
            emit env (with_meta
              [ ("decision_id", VStr d); ("node_id", VStr node_id); ("step_id", VInt stp);
                ("exposed_session_memory_count", VInt (Z.of_nat (length (o_session_memory o))));
                ("exposed_memory_derived_node_count", VInt (Z.of_nat (length (derived_exposed outs)))) ]
              (draft "memory_read_exposed" node_id "runtime" (Some "memory_exposed")))
          else mret tt
      | None => mret tt
      end;
  mret ctx.

(** ** Invocation *)

(** [compile_envelope] at the current step. *)
Definition prepare (node_id : string) (pl : pyctx) : IO InvocationEnvelope :=
  ctx ← build_context node_id;
  caps ← gets (fun w => build_capabilities w node_id);
  n ← draw;
  s ← gets w_state;
  stp ← gets w_step;
  or_raise "ValidationError"
    (compile_envelope (fresh_id env n) (o_seconds o n) (run_id s) (ChainState.chain_id s) node_id stp pl
       (Some ctx) caps).

(** [_invoke_node] *)
Definition invoke_node (node : RuntimeNode) (e : InvocationEnvelope) : IO EnvelopeResponse :=
  let node_id := rn_node_id node in
  _ ← emit env (at_step_id (env_step_id e) (draft "node_invoked" node_id "runtime" None));
  x ← execute node e;
  let '(r, elapsed) := x in
  _ ← (if success r then
         emit env (at_step_id (env_step_id e) (with_cost (Envelope.cost_usd r) elapsed
           (draft "node_succeeded" node_id "node" None)))
       else
         emit env (at_step_id (env_step_id e) (with_cost fzero elapsed
           (with_reasons [or_text "unknown" (resp_error r)] (draft "node_failed" node_id "node" None)))));
  mret r.

(** The last failure of the node in the trace, and the digest of the effect
    its first journalled operation named. *)
Definition last_failure_event (node_id : string) (l : list TraceEvent) : option TraceEvent :=
  List.find (fun e => of_node node_id e && is_type "node_failed" e) (reverse l).

Fixpoint split_colon (s : string) : list string :=
  match s with
  | EmptyString => [""]
  | String c t =>
      if (String c "" =? ":")%string then "" :: split_colon t
      else match split_colon t with
           | x :: l => String c x :: l
           | [] => [String c ""]
           end
  end.

Definition key_digest (e : TraceEvent) : option string :=
  match dget_or "idempotency_key" (VStr "") (event_metadata e) with
  | VStr k => if (3 <=? length (split_colon k))%nat then last (split_colon k) else None
  | _ => None
  end.

Definition retry_digest (node_id : string) (l : list TraceEvent) : string :=
  match last_failure_event node_id l with
  | None => ""
  | Some _ =>
      default "" (head (omap key_digest
        (List.filter (fun e => of_node node_id e && is_type "side_effect_started" e) l)))
  end.

(** [invoke_retry_with_trace] *)
Definition invoke_retry (node_id : string) (node : RuntimeNode) (err : string)
  (failed : option TraceEvent) (digest : string) (e : InvocationEnvelope) : IO EnvelopeResponse :=
  _ ← match failed with
      | Some f =>
          if (node_id =? "search_tool")%string && contains "SEARCH_PROVENANCE_MALFORMED" err then
            emit env (with_meta
              [ ("original_failure_event_id", VStr (te_event_id f)); ("retry_attempt_number", VInt 2);
                ("retry_reason", VStr err); ("operation_digest", VStr digest) ]
              (with_reasons ["SEARCH_RETRY_SCHEDULED"]
                (draft "tool_result_received" node_id "runtime" (Some "search_retry_scheduled"))))
          else mret tt
      | None => mret tt
      end;
  invoke_node node e.

(** [failure_manager.handle]: the strategy runs up to its invocation, the
    invocation runs in the world, the strategy ends with its response. *)
Definition handle_failure (ft : FailureManager.FailureType) (node_id : string) (e : InvocationEnvelope)
  (invoke : InvocationEnvelope -> IO EnvelopeResponse) : IO FailureManager.FailureResult :=
  n ← draw;
  c ← gets w_retries;
  nx ← gets w_next;
  let run f := FailureManager.handle (Some (fun _ _ _ => Some (nx + 1))) (Some f) (fresh_id env n)
                 (o_seconds o n) ft c node_id e 0 in
  let probe := run (fun _ => None) in
  _ ← modify (set_retries (FailureManager.o_counts probe));
  match FailureManager.o_invoked probe with
  | [] => or_raise "failure strategy" (FailureManager.o_result probe)
  | retry :: _ =>
      _ ← allocate_step;
      r ← invoke retry;
      or_raise "failure strategy" (FailureManager.o_result (run (fun _ => Some r)))
  end.

(** [_record_last_failure] *)
Definition last_failure_md (ft : FailureManager.FailureType) (node_id : string) (stp : Z) (err : string) : pyctx :=
  [ ("last_failure",
      VDict [ ("failure_type", VStr (FailureManager.FailureType_value ft)); ("node_id", VStr node_id);
              ("step_id", VInt stp); ("error", VStr err); ("retryable", VBool false) ]) ].

Definition invalid_recovery : string := "node_execution_failed:invalid_recovery_response".

(** The failure path of a response; [with_action] tells the two details apart
    that only a run gives. *)
Definition recover (with_action : bool) (node_id : string) (e : InvocationEnvelope)
  (r : EnvelopeResponse) (invoke : InvocationEnvelope -> IO EnvelopeResponse) : IO answered :=
  let ft := FailureManager.classify_failure (or_text "unknown" (resp_error r)) in
  res ← handle_failure ft node_id e invoke;
  stp ← gets w_step;
  if negb (FailureManager.recovered res) then
    _ ← fail ("node_execution_failed:" +:+ FailureManager.FailureType_value ft)
          (("Node '" +:+ node_id +:+ "' failed: " +:+ shown (resp_error r))
           :: (if with_action then ["Recovery action: " +:+ FailureManager.action res] else []))
          (last_failure_md ft node_id stp (or_text "" (resp_error r)));
    mret Failed
  else
    match FailureManager.response res with
    | None =>
        if negb (mem (FailureManager.action res) SKIP_CONTINUE_ACTIONS) then
          _ ← fail invalid_recovery
                ["Node '" +:+ node_id +:+ "' recovery returned recovered=True with no response"]
                (last_failure_md ft node_id stp "recovered_with_no_response");
          mret Failed
        else mret (Skipped [("skipped", VBool true); ("reason", VStr (FailureManager.action res))])
    | Some r' =>
        if negb (success r') then
          _ ← fail invalid_recovery
                ["Node '" +:+ node_id +:+ "' recovery returned recovered=True with a failed response"]
                (last_failure_md ft node_id stp (or_text "recovered_with_failed_response" (resp_error r')));
          mret Failed
        else
          _ ← set_self_step (resp_step_id r');
          mret (Answered r')
    end.

(** The node is invoked; a failed response goes through its strategy, in a run
    with the event of a scheduled search retry. *)
Definition obtain (resumed : bool) (node_id : string) (node : RuntimeNode) (e : InvocationEnvelope)
  : IO answered :=
  r ← invoke_node node e;
  if success r then mret (Answered r)
  else if resumed then recover false node_id e r (invoke_node node)
  else
    l ← gets w_trace;
    recover true node_id e r
      (invoke_retry node_id node (or_text "FailureType.UNKNOWN" (resp_error r))
         (last_failure_event node_id l) (retry_digest node_id l)).

(** ** Before a node *)

Definition result_text (r : LoopEnforcementResult) (dflt : string) : string :=
  match LoopEnforcer.reason r with Some c => or_text dflt (Some (o_loop_text o c)) | None => dflt end.

(** Exhausted loops and the entry condition; [false] when the chain failed. *)
Definition loop_guard (node_id : string) : IO bool :=
  s ← gets w_state;
  match check_loop_exhaustion (o_blueprint o) node_id s with
  | Some _ => _ ← fail "loop_exhausted" ["Loop exhausted at node '" +:+ node_id +:+ "'"] []; mret false
  | None =>
      cost ← gets (compute_loop_cost node_id);
      b ← or_raise "IndexError" (check_loop_entry (o_blueprint o) strict node_id s cost);
      match b with
      | None => mret true
      | Some r =>
          _ ← match advisory r with
              | Some a =>
                  if str_truthy a then
                    emit env (with_meta
                      [ ("loop_id", VStr (result_loop_id r)); ("check_type", VStr "entry"); ("advisory", VStr a);
                        ("condition_treated_as", VStr "advisory") ]
                      (with_reasons [a]
                        (draft "loop_escalation" node_id "runtime" (Some "loop_condition_advisory"))))
                  else mret tt
              | None => mret tt
              end;
          if LoopEnforcer.allowed r then mret true
          else
            let escalation := get_escalation_message (o_blueprint o) (result_loop_id r)
                                (result_text r "entry blocked") in
            _ ← emit env (with_meta
                  [ ("loop_id", VStr (result_loop_id r)); ("check_type", VStr "entry");
                    ("condition_context", VDict (LoopEnforcer.context r)) ]
                  (with_reasons [result_text r ""]
                    (draft "loop_blocked" node_id "runtime" (Some "loop_entry_blocked"))));
            _ ← fail "loop_entry_blocked"
                  [if str_truthy escalation then escalation else result_text r "Entry condition not met"] [];
            mret false
      end
  end.

(** [_emit_contract_validated] *)
Definition emit_contract_validated (node_id : string) (node : RuntimeNode) : IO unit :=
  let c := rn_contract node in
  emit env (with_meta
    [ ("entry_type", VStr (input_type (entry c))); ("exit_type", VStr (Contract.output_type (exit c)));
      ("schema_ref", VStr (entry_schema_ref (entry c))) ]
    (draft "contract_validated" node_id "runtime" (Some "contract_pre_validated"))).

(** [_check_policy_gate] *)
Definition check_policy_gate (node_id : string) (node : RuntimeNode) : IO pyval :=
  s ← gets w_state;
  stp ← gets w_step;
  GateController.check env (o_engine o) build_capabilities (o_py_sum o) (o_list_of_set o) (o_file_digest o)
    (o_nodes o) node_id node (run_id s) stp (Blueprint.chain_id (o_blueprint o)).

(** The gate, the envelope and the journal; nothing when the chain failed. *)
Definition authorize (node_id : string) (node : RuntimeNode) (pl : pyctx) : IO (option InvocationEnvelope) :=
  denied ← check_policy_gate node_id node;
  if truthy denied then
    _ ← fail "policy_denied" [text_of denied] []; mret None
  else
    e ← prepare node_id pl;
    ok ← journal_planned node_id e;
    if (ok : bool) then mret (Some e)
    else (_ ← fail "undeclared_side_effect" ["pre-call side-effect declaration violation"] []; mret None).

(** ** After a node *)

(** [validate_schema] of the pipeline: at most five errors. *)
Definition schema_errors (output : pyctx) (schema : string) : list string :=
  if str_truthy schema then firstn 5 (o_schema_errors o output schema) else [].

(** [NodeOutputValidationController.validate_schema]; the step is explicit. *)
Definition validate_schema (node_id : string) (output : pyctx) (schema : string) (stp : Z)
  : IO (list string) :=
  let errors := schema_errors output schema in
  _ ← emit env (at_step_id stp
        (match errors with
         | [] => draft "validation_passed" node_id "runtime" (Some "schema_valid")
         | _ => with_reasons (firstn 3 errors)
                  (draft "validation_failed" node_id "runtime" (Some "schema_validation_warning"))
         end));
  mret errors.

Definition completion (node_id : string) (stp : Z) (output : pyctx) (extra : pyctx) (cost : pyfloat)
  : InvocationProposal :=
  mkProposal stp node_id None (Some (VDict output)) (Some (stp, node_id)) [] "node_completed"
    (Some ([("node_id", VStr node_id); ("step_id", VInt stp)] ++ extra)) cost.

(** The events and the journal of what the node did. *)
Definition account (node_id : string) (node : RuntimeNode) (r : EnvelopeResponse) (e : InvocationEnvelope)
  (what : string) : IO bool :=
  ok ← detail_events node_id node r e;
  if negb ok then
    _ ← fail "undeclared_side_effect" ["post-call side-effect declaration violation"] []; mret false
  else
    ok ← complete_reported node_id e (output r);
    if negb ok then (_ ← fail "undeclared_side_effect" [what] []; mret false) else mret true.

(** Validation, commit and accounting of a response; the output the run goes
    on with, or nothing when the chain failed. *)
Definition record_output (node_id : string) (node : RuntimeNode) (r : EnvelopeResponse)
  (e : InvocationEnvelope) : IO (option pyctx) :=
  stp ← gets w_step;
  errors ← validate_schema node_id (output r) (exit_schema_ref (exit (rn_contract node))) stp;
  if nonempty errors && o_strict_schema o then
    _ ← fail "schema_validation_failed" (firstn 5 errors) []; mret None
  else
    _ ← commit_on dump env (CInvocation (completion node_id stp (output r) [] (Envelope.cost_usd r)));
    ok ← account node_id node r e "post-call side-effect completion validation violation";
    if negb ok then mret None
    else
      v ← run_semantic node_id (output r) stp;
      _ ← match snd v with
          | Some errs => fail "semantic_validation_failed" errs []
          | None => mret tt
          end;
      mret (Some (fst v)).

(** ** Loop-backs *)

Definition sub_field (k : string) (d : pyval) : pyval :=
  match d with VDict m => dget_or k (VDict []) m | _ => VDict [] end.

(** [_build_loop_payload] *)
Definition build_loop_payload (target : string) (current : pyctx) (outs : pyctx) : pyctx :=
  let goal := sub_field "normalized_goal" (dget_or "goal_interpreter" (VDict []) outs) in
  if (target =? "context_selector")%string then
    [ ("normalized_goal", goal);
      ("task_plan", sub_field "plan" (dget_or "task_planner" (VDict []) outs));
      ("prior_search_results", dget_or "search_results" (VList []) current) ]
  else if (target =? "task_planner")%string then
    [ ("normalized_goal", goal); ("revision_context", VDict current) ]
  else current.

(** [_pause_for_budget] *)
Definition pause_run_for_budget (lid : string) (cost : pyfloat) (previous : pyval) (why : string)
  (target source : option string) : IO unit :=
  commit_on dump env (CCheckpoint (pause_for_budget lid cost previous why target source)).

(** A loop-back that is due: its budget, its exit condition, and the order
    with the loop repeated.  [None]: the loop is left and the step goes on. *)
Definition take_loop_back (c : Cursor) (node_id : string) (out : pyctx) (d : SchedulingDecision)
  : IO (option next) :=
  let lid := default "" (sd_loop_id d) in
  cost ← gets (compute_loop_cost node_id);
  s ← gets w_state;
  budget ← or_raise "budget" (check_loop_budget (o_blueprint o) lid s cost);
  match budget with
  | Some r =>
      let ceiling := dget "max_cost_usd" (LoopEnforcer.context r) in
      let escalation := get_escalation_message (o_blueprint o) lid (result_text r "budget exceeded") in
      source ← gets (fun w =>
        if fle fzero (get_invocation_cost (o_sql_sum o) (run_id (w_state w)) [] (w_store w))
        then "invocation_ledger" else "trace_events");
      _ ← emit env (with_meta
            [ ("loop_id", VStr lid); ("check_type", VStr "budget"); ("cost_usd", VFloat cost);
              ("max_cost_usd", default VNone ceiling); ("cost_source", VStr source) ]
            (with_reasons [result_text r ""]
              (draft "loop_blocked" node_id "runtime" (Some "loop_budget_exceeded"))));
      _ ← pause_run_for_budget lid cost (default (VFloat fzero) ceiling)
            (if str_truthy escalation then escalation else result_text r "Budget exceeded")
            (sd_target_node d) (Some node_id);
      mret (Some Stop)
  | None =>
      match check_loop_exit (o_blueprint o) strict lid s cost with
      | Some r =>
          _ ← emit env (with_meta
                [ ("loop_id", VStr lid); ("check_type", VStr "exit");
                  ("condition_context", VDict (LoopEnforcer.context r)) ]
                (with_reasons [result_text r ""]
                  (draft "loop_exited" node_id "runtime" (Some "loop_exit_condition_met"))));
          mret None
      | None =>
          _ ← emit env (with_reasons [sd_reason d] (draft "loop_entered" node_id "runtime" (Some "loop_iteration")));
          let target := default "" (sd_target_node d) in
          let order := rebuild_order_with_loop (o_blueprint o) (c_order c) (current_node s) target in
          match index target order with
          | Some i => mret (Some (Go (mkCursor order i (build_loop_payload target out (outputs s)))))
          | None => raise (Raised "ValueError")
          end
      end
  end.

Definition loop_back (c : Cursor) (node_id : string) (out : pyctx) : IO (option next) :=
  s ← gets w_state;
  x ← or_raise "IndexError" (check_loop_back (o_blueprint o) node_id out s);
  let '(s', d) := x in
  _ ← modify (set_state s');
  match d with
  | None => mret None
  | Some d =>
      if bool_decide (sd_action d = TERMINATE) then
        _ ← fail "loop_exhausted" [sd_reason d] []; mret (Some Stop)
      else take_loop_back c node_id out d
  end.

(** ** Branches *)

Definition fan_out (c : Cursor) (node_id : string) (out : pyctx) : IO (option next) :=
  match get_branches_from (o_blueprint o) node_id with
  | [] => mret None
  | bd :: _ =>
      selected ← or_raise "TypeError" (resolve_branch_selection bd out);
      merged ← execute_branches bd selected out (c_order c);
      match merged with
      | None =>
          _ ← fail "branch_execution_failed" ["Branch execution returned no results"] []; mret (Some Stop)
      | Some m =>
          mret (Some (Go (mkCursor (skip_to_join (o_blueprint o) (c_order c) node_id bd) (S (c_idx c)) m)))
      end
  end.

(** ** Review *)

(** An operation of the review manager, on the state, the tables, the log of
    attempts and the trace of the run. *)
Definition on_review {A} (m : ReviewManager.io (Json := Json) A) : IO (res review_error A) := act (fun w =>
  let log := DecisionLog.table_name DecisionLog.review_decision_attempts in
  let '(v, r) := m (mkRvWorld (w_state w) (w_store w) (dget_or log [] (w_logs w)) (w_trace w)) in
  (mkWorld (rw_state v) (rw_store v) (rw_trace v) (w_final_status w) (dset log (rw_attempts v) (w_logs w))
     (w_step w) (w_next w) (w_read_allows w) (w_retries w) (w_draws w) (w_ext w), Ok r)).

Definition tx (n : nat) : Tx := mkTx (fresh_id env n) (clock env n) (clock env n) (accepts env n).
Definition review_draws (n m : nat) : Draws := mkDraws (clock env n) (o_seconds o n) (o_hex o n) (clock env n) (tx m).

Definition ask_review (out : pyctx) : IO (res review_error ReviewDecision) :=
  n ← draw; m ← draw; p ← draw; q ← draw;
  stp ← gets w_step;
  on_review (request_review (o_sha256 o) (o_instant_of o) dump (o_review o) (o_answer o n) (review_draws n m)
    (clock env n) (clock env n) (tx p) (tx q) out stp).

Definition raise_review {A} (e : review_error) : IO A :=
  match e with
  | CommitRaised se => raise (StoreRaised se)
  | ReviewPaused _ _ => raise (Raised "ReviewPausedException")
  | UnknownVocabulary => raise (Raised "ValueError")
  | NoReceipt => raise (Raised "AttributeError")
  | NotAText => raise (Raised "AttributeError")
  end.

(** The decision of the reviewer on the risk assessment.  [None]: approved. *)
Definition review (c : Cursor) (node_id : string) (out : pyctx) : IO (option next) :=
  if negb (node_id =? "risk_classifier")%string then mret None
  else match needs_review (o_review o) out with
  | Err e => raise_review e
  | Ok false => mret None
  | Ok true =>
      a ← ask_review out;
      match a with
      | Err (ReviewPaused _ stp) =>
          _ ← emit env (with_meta [("reason", VStr "pause mode"); ("step_id", stp)]
                (draft "human_review_requested" "risk_classifier" "runtime" (Some "chain_paused_for_review")));
          _ ← modify (set_final "paused");
          mret (Some Stop)
      | Err e => raise_review e
      | Ok d =>
          if (rd_decision d =? "governance_failure")%string then
            _ ← fail "review_receipt_verification_failed"
                  ["Governance failure: review receipt verification failed"] [];
            mret (Some Stop)
          else
            let t := apply_review_decision (o_blueprint o) (rd_decision d) (c_order c) node_id None in
            match sd_action t with
            | REVIEW_REJECT =>
                _ ← fail "human_review_rejected" ["Human reviewer rejected the chain output"] [];
                mret (Some Stop)
            | REVIEW_REVISION =>
                let target := or_text "task_planner" (sd_revision_target t) in
                let order := rebuild_order_with_loop (o_blueprint o) (c_order c) node_id target in
                mret (Some (Go (mkCursor order (default (S (c_idx c)) (index target order)) out)))
            | REVIEW_TIMEOUT =>
                _ ← fail "review_timeout" ["Review timed out without a decision"] []; mret (Some Stop)
            | _ => mret None
            end
      end
  end.

(** ** The loop *)

(** The first of the ways out of a node that applies. *)
Definition or_else (m : IO (option next)) (k : IO next) : IO next :=
  r ← m; match r with Some x => mret x | None => k end.

(** After the output: loop-back, branches, review, or the next node. *)
Definition leave_node (c : Cursor) (node_id : string) (out : pyctx) : IO next :=
  or_else (loop_back c node_id out)
    (or_else (fan_out c node_id out)
      (or_else (review c node_id out)
        (_ ← commit_on dump env CSnapshot; mret (Go (mkCursor (c_order c) (S (c_idx c)) out))))).

(** [self.state.outputs[node_id] = ...] *)
Definition set_output (node_id : string) (v : pyval) (s : ChainState) : ChainState :=
  mkState (run_id s) (ChainState.chain_id s) (ChainState.status s) (current_node s) (ChainState.step s)
    (started_at s) (paused_at s) (completed_at s) (dset node_id v (outputs s)) (loop_state s)
    (cost_accumulated_usd s) (human_review s) (metadata s) (ChainState.branch_outputs s) (join_inputs s)
    (skipped_nodes s) (routing_decisions s) (branch_states s) (revision s) (ChainState.completed_steps s)
    (ChainState.side_effects s) (is_resumed s) (blueprint_version s) (execution_order_hash s).

Definition skip_node (c : Cursor) (node_id : string) (marker : pyctx) : IO next :=
  _ ← modify (fun w => set_state (set_output node_id (VDict marker) (w_state w)) w);
  mret (Go (mkCursor (c_order c) (S (c_idx c)) marker)).

(** Everything before the node is invoked: its step, its loops, its gate, its
    envelope and its journal. *)
Definition clear_node (c : Cursor) (node_id : string) (node : RuntimeNode) : IO (option InvocationEnvelope) :=
  stp ← allocate_step;
  _ ← set_self_step stp;
  ok ← loop_guard node_id;
  if negb ok then mret None
  else
    _ ← emit_contract_validated node_id node;
    authorize node_id node (c_payload c).

(** One turn of the loop of [run]. *)
Definition run_step (c : Cursor) (node_id : string) : IO next :=
  match dget node_id (o_nodes o) with
  | None => _ ← fail "node_not_found" ["Node '" +:+ node_id +:+ "' not registered"] []; mret Stop
  | Some node =>
      e ← clear_node c node_id node;
      match e with
      | None => mret Stop
      | Some e =>
          a ← obtain false node_id node e;
          match a with
          | Failed => mret Stop
          | Skipped m => skip_node c node_id m
          | Answered r =>
              out ← record_output node_id node r e;
              match out with
              | None => mret Stop
              | Some out => leave_node c node_id out
              end
          end
      end
  end.

(** The while loop over a step; [None] when the fuel is spent, otherwise
    whether the order was executed to its end. *)
Fixpoint run_loop (step : Cursor -> string -> IO next) (fuel : nat) (c : Cursor) : IO (option bool) :=
  match c_order c !! c_idx c with
  | None => mret (Some true)
  | Some node_id =>
      match fuel with
      | O => mret None
      | S fuel =>
          x ← step c node_id;
          match x with
          | Stop => mret (Some false)
          | Go c' => run_loop step fuel c'
          end
      end
  end.

(** The completed state and its event. *)
Definition complete_chain : IO unit :=
  l ← gets w_trace;
  n ← draw;
  transition dump env (mkLifecycle (Some "completed") (Some (clock env n)) None None [])
    (with_meta [ ("nodes_executed", VInt (Z.of_nat (events_of "node_succeeded" l)));
                 ("loops_entered", VInt (Z.of_nat (events_of "loop_entered" l)));
                 ("human_reviews", VInt (Z.of_nat (events_of "human_review_requested" l))) ]
      (draft "chain_completed" "runtime" "runtime" (Some "chain_completed_successfully"))).

(** The loop from a cursor to the end of the chain. *)
Definition finish_loop (step : Cursor -> string -> IO next) (fuel : nat) (c : Cursor) : IO (option unit) :=
  x ← run_loop step fuel c;
  match x with
  | None => mret None
  | Some false => mret (Some tt)
  | Some true => _ ← complete_chain; mret (Some tt)
  end.

(** ** A run *)

Definition emit_invalid_contract (x : string * list Issue) : IO unit :=
  emit env (at_step_id 0 (with_reasons (map (o_contract_issue_text o) (snd x))
    (draft "contract_validated" (fst x) "runtime" (Some "invalid")))).

Definition contracts : dict NodeContract := map (fun x => (fst x, rn_contract (snd x))) (o_nodes o).

(** [validate_contracts] *)
Definition validate_contracts : IO (list Preflight.preflight_issue) :=
  v ← or_raise "contract" (Preflight.validate (o_blueprint o) contracts (o_governance o));
  _ ← each emit_invalid_contract (snd v);
  mret (fst v).

Definition emit_all_contracts_validated : IO unit :=
  let ids := dkeys (o_nodes o) in
  emit env (with_meta [("nodes", strings ids)]
    (with_reasons ["validated_" +:+ str_int (Z.of_nat (length ids)) +:+ "_node_contracts"]
      (draft "contract_validated" "runtime" "runtime" (Some "all_contracts_valid")))).

Definition emit_warning (v : InvariantEngine.InvariantViolation) : IO unit :=
  emit env (with_meta
    [ ("warning", VStr (o_violation_text o v)); ("invariant_id", VStr (InvariantEngine.vi_invariant v)) ]
    (draft "validation_failed" (or_text "runtime" (Some (InvariantEngine.vi_node v))) "runtime"
       (Some ("governance_warning:" +:+ InvariantEngine.vi_invariant v)))).

(** The checks before the first node; the order to execute. *)
Definition preflight : IO (option (list string)) :=
  issues ← validate_contracts;
  match issues with
  | _ :: _ => _ ← fail "contract_validation_failed" (map (o_issue_text o) issues) []; mret None
  | [] =>
      _ ← emit_all_contracts_validated;
      let inv := Preflight.blueprint_report (o_set_order o) (o_blueprint o) (o_governance o) in
      if negb (InvariantEngine.is_valid inv) then
        _ ← fail "blueprint_invariant_violation" (map (o_violation_text o) (InvariantEngine.errors inv)) [];
        mret None
      else
        let gov := Preflight.governance_report (o_set_order o) (o_blueprint o) contracts (o_engine o)
                     (o_governance o) in
        match InvariantEngine.errors gov with
        | (_ :: _) as l => _ ← fail "governance_invariant_violation" (map (o_violation_text o) l) []; mret None
        | [] =>
            _ ← each emit_warning (InvariantEngine.warnings gov);
            match resolve_execution_order (o_blueprint o) (o_set_order o) with
            | Some order => mret (Some order)
            | None => raise (Raised "order")
            end
        end
  end.

Definition run_body (fuel : nat) (query : string) : IO (option unit) :=
  order ← preflight;
  match order with
  | None => mret (Some tt)
  | Some order => finish_loop run_step fuel (mkCursor order 0 [("query", VStr query)])
  end.

(** [try: ... except Exception as e: self._fail_chain("unhandled_exception", [str(e)])
    finally: self.trace.finalize(self.state.status)] *)
Definition guarded (m : IO (option unit)) : IO (option unit) := fun w =>
  let '(w1, r) := match m w with
                  | (w1, Err e) =>
                      (_ ← fail "unhandled_exception" [o_exn_text o e] []; mret (Some tt)) w1
                  | x => x
                  end in
  match r with
  | Ok None => (w1, Ok None)
  | _ => (set_final (ChainState.status (w_state w1)) w1, r)
  end.

(** [Orchestrator.run]; the trace it returns is the world's. *)
Definition run (fuel : nat) (query : string) : IO (option unit) :=
  _ ← transition dump env (mkLifecycle (Some "running") None None None [])
        (at_step_id 0 (with_reasons ["goal_received"]
          (draft "chain_started" "runtime" "runtime" (Some "chain_initialized"))));
  guarded (run_body fuel query).

(** ** A resumed run *)

Context (parse : Json -> option ChainState).

Definition action_text (a : SchedulingAction) : string :=
  match a with
  | CONTINUE => "continue" | LOOP_BACK => "loop_back" | SKIP_TO_JOIN => "skip_to_join"
  | TERMINATE => "terminate" | REVIEW_APPROVE => "review_approve" | REVIEW_REJECT => "review_reject"
  | REVIEW_REVISION => "review_revision" | REVIEW_TIMEOUT => "review_timeout"
  end.

(** The trace of a new [ChainTrace]. *)
Definition new_trace w : World Json X :=
  mkWorld (w_state w) (w_store w) [] None (w_logs w) (w_step w) (w_next w) (w_read_allows w)
    (w_retries w) (w_draws w) (w_ext w).

Definition mark_resumed (s : ChainState) : ChainState :=
  mkState (run_id s) (ChainState.chain_id s) (ChainState.status s) (current_node s) (ChainState.step s)
    (started_at s) (paused_at s) (completed_at s) (outputs s) (loop_state s) (cost_accumulated_usd s)
    (human_review s) (metadata s) (ChainState.branch_outputs s) (join_inputs s) (skipped_nodes s)
    (routing_decisions s) (branch_states s) (revision s) (ChainState.completed_steps s)
    (ChainState.side_effects s) true (blueprint_version s) (execution_order_hash s).

Definition drop_metadata (k : string) (s : ChainState) : ChainState :=
  RecoveryService.with_status (ChainState.status s) (dpop k (metadata s)) s.

(** [_compute_order_hash] *)
Definition compute_order_hash (order : list string) : string :=
  String.substring 0 16 (o_sha256 o (Json.join "," order)).

(** [_verify_resume_integrity]; [false] when the cursor does not match. *)
Definition verify_resume_integrity : IO bool :=
  s ← gets w_state;
  match resolve_execution_order (o_blueprint o) (o_set_order o) with
  | None => raise (Raised "order")
  | Some order =>
      let expected := execution_order_hash s in
      let actual := compute_order_hash order in
      if negb (str_truthy expected) then mret true
      else if negb (expected =? actual)%string then
        _ ← emit env (with_reasons
              [ "execution_order_hash mismatch: expected=" +:+ expected +:+ ", actual=" +:+ actual;
                "blueprint_version=" +:+ blueprint_version s; "run_id=" +:+ run_id s ]
              (draft "chain_failed" "runtime" "runtime" (Some "recovery_cursor_mismatch")));
        mret false
      else mret true
  end.

(** [_resume_receipt_metadata] *)
Definition resume_receipt_metadata (d : ReviewDecision) (base : pyctx) : pyctx :=
  let receipt := rd_decision_receipt d in
  let decision := dict_at "decision" receipt in
  dset "reviewer_identity" (context_get "reviewer_identity" decision)
    (dset "subject_type" (context_get "subject_type" receipt)
      (dset "request_digest" (context_get "request_digest" receipt)
        (dset "request_id" (context_get "request_id" receipt)
          (dset "receipt_digest" (opt_text (rd_receipt_digest d))
            (dset "receipt_id" (opt_text (rd_receipt_id d)) base))))).

Definition receipt_md (d : ReviewDecision) : pyctx :=
  match rd_decision_receipt d with
  | [] => []
  | r => [("governed_decision_receipt", VDict r)]
  end.

(** The event and the transition of a decision that was made while paused. *)
Definition settle_resumed (d : ReviewDecision) (t : SchedulingDecision) (stp : Z) (p : LifecycleProposal) : IO unit :=
  transition dump env p
    (at_step_id stp (with_meta
      (resume_receipt_metadata d
         [ ("resumed_review", VBool true); ("transition", VStr (action_text (sd_action t)));
           ("reason", VStr (sd_reason t)) ])
      (draft "human_review_completed" "risk_classifier" "human" (Some (rd_decision d))))).

(** [_resume_waiting_for_review]; [true] when the run goes on. *)
Definition resume_waiting_for_review : IO bool :=
  n ← draw; m ← draw;
  a ← on_review (resolve_resume_review (o_sha256 o) (o_instant_of o) dump (o_review o) (o_answer o n)
        (review_draws n m));
  match a with
  | Err e => raise_review e
  | Ok d =>
      if (rd_decision d =? "governance_failure")%string then
        _ ← fail "review_receipt_verification_failed"
              ["Governance failure: review receipt verification failed on resume"] [];
        mret false
      else
        match resolve_execution_order (o_blueprint o) (o_set_order o) with
        | None => raise (Raised "order")
        | Some order =>
            let t := apply_review_decision (o_blueprint o) (rd_decision d) order "risk_classifier" None in
            s ← gets w_state;
            let reject := bool_decide (sd_action t = REVIEW_REJECT) in
            if reject || bool_decide (sd_action t = REVIEW_TIMEOUT) then
              _ ← modify (fun w => new_trace (set_steps (ChainState.step s) (ChainState.step s) w));
              _ ← settle_resumed d t (ChainState.step s)
                    (mkLifecycle (Some "failed") None None (Some true) (receipt_md d));
              _ ← fail (if reject then "human_review_rejected" else "review_timeout")
                    [if reject then "Human reviewer rejected the chain output"
                     else "Review timed out without a decision"] [];
              mret false
            else
              _ ← settle_resumed d t (ChainState.step s)
                    (mkLifecycle (Some "running") None (Some None) (Some true)
                       (receipt_md d ++
                        (if bool_decide (sd_action t = REVIEW_REVISION)
                         then [("review_revision_target", opt_text (sd_revision_target t))] else [])));
              mret true
        end
  end.

(** *** Where to go on *)

(** [d.get(k)] for the step ids. *)
Definition step_node (k : Z) (l : list (Z * string)) : option string :=
  option_map snd (List.find (fun x => fst x =? k) l).

(** The position after the [n]-th occurrence of the node. *)
Fixpoint after_occurrence (node : string) (n : nat) (i : nat) (order : list string) : option nat :=
  match order with
  | [] => None
  | x :: t =>
      if (x =? node)%string then
        match n with
        | 1%nat => Some (S i)
        | _ => after_occurrence node (pred n) (S i) t
        end
      else after_occurrence node n (S i) t
  end.

Definition start_index (stp : Z) (completed : list (Z * string)) (order : list string) : nat :=
  if (0 <? stp) && nonempty completed then
    match step_node stp completed with
    | Some n =>
        if str_truthy n then
          default 0%nat (after_occurrence n
            (count (fun x => (snd x =? n)%string && (fst x <=? stp)) completed) 0 order)
        else 0%nat
    | None => 0%nat
    end
  else 0%nat.

(** An output as the payload of the next node. *)
Definition as_payload (v : pyval) : pyctx := match v with VDict d => d | _ => [] end.

Definition last_output (done : list string) (outs : pyctx) : pyctx :=
  fold_left (fun p n => match dget n outs with Some v => as_payload v | None => p end) done [].

(** A revision the reviewer asked for. *)
Definition resume_revision (c : Cursor) : IO Cursor :=
  s ← gets w_state;
  match context_get "review_revision_target" (metadata s) with
  | VStr target =>
      if str_truthy target then
        _ ← commit_on dump env (CCheckpoint (drop_metadata "review_revision_target"));
        let order := rebuild_order_with_loop (o_blueprint o) (c_order c) "risk_classifier" target in
        mret (mkCursor order (default 0%nat (index target order))
                [("revision_requested", VBool true); ("previous_outputs", VDict (outputs s))])
      else mret c
  | _ => mret c
  end.

(** A loop-back that waited for its budget. *)
Definition resume_loop_back (c : Cursor) : IO Cursor :=
  s ← gets w_state;
  match context_get "pending_loop_back" (metadata s) with
  | VDict ((_ :: _) as p) =>
      _ ← commit_on dump env (CCheckpoint (drop_metadata "pending_loop_back"));
      match context_get "target_node" p, context_get "source_node" p with
      | VStr target, VStr source =>
          if str_truthy target && str_truthy source then
            let order := rebuild_order_with_loop (o_blueprint o) (c_order c) source target in
            let out := match dget source (outputs s) with Some v => as_payload v | None => c_payload c end in
            mret (mkCursor order (default 0%nat (index target order)) (build_loop_payload target out (outputs s)))
          else mret c
      | _, _ => mret c
      end
  | _ => mret c
  end.

(** A routing decision whose branches left no outputs. *)
Definition resume_branches (c : Cursor) : IO Cursor :=
  s ← gets w_state;
  match last (routing_decisions s), ChainState.branch_outputs s with
  | Some routing, [] =>
      let from := text_of (dget_or "from_node" (VStr "") routing) in
      match get_branches_from (o_blueprint o) from with
      | [] => mret c
      | bd :: _ =>
          merged ← execute_branches bd (names_at "selected" routing) (c_payload c) (c_order c);
          match merged with
          | None => mret c
          | Some m => mret (mkCursor (skip_to_join (o_blueprint o) (c_order c) from bd) (c_idx c) m)
          end
      end
  | _, _ => mret c
  end.

(** [already_done] *)
Definition already_done (completed : list (Z * string)) (node_id : string) (stp : Z) : bool :=
  existsb (fun x => (snd x =? node_id)%string && (fst x <=? stp)) completed.

(** Schema events only; nothing fails. *)
Definition resume_schema (node_id : string) (output : pyctx) (schema : string) : IO unit :=
  if str_truthy schema then
    emit env (match schema_errors output schema with
              | [] => draft "validation_passed" node_id "runtime" (Some "schema_valid")
              | l => with_reasons (firstn 3 l)
                       (draft "validation_failed" node_id "runtime" (Some "schema_validation_warning"))
              end)
  else mret tt.

Definition resume_output (node_id : string) (node : RuntimeNode) (r : EnvelopeResponse)
  (e : InvocationEnvelope) : IO bool :=
  _ ← resume_schema node_id (output r) (exit_schema_ref (exit (rn_contract node)));
  stp ← gets w_step;
  _ ← commit_on dump env (CInvocation (completion node_id stp (output r) [("resumed", VBool true)] fzero));
  account node_id node r e "post-call side-effect completion validation violation (resume)".

(** One turn of the loop of [resume]. *)
Definition resume_step (completed : list (Z * string)) (c : Cursor) (node_id : string) : IO next :=
  match dget node_id (o_nodes o) with
  | None => _ ← fail "node_not_found" ["Node '" +:+ node_id +:+ "' not registered"] []; mret Stop
  | Some node =>
      stp ← gets w_step;
      outs ← gets (fun w => outputs (w_state w));
      if already_done completed node_id stp then
        mret (Go (mkCursor (c_order c) (S (c_idx c))
                    (match dget node_id outs with Some v => as_payload v | None => c_payload c end)))
      else
        stp ← allocate_step;
        _ ← set_self_step stp;
        e ← authorize node_id node (c_payload c);
        match e with
        | None => mret Stop
        | Some e =>
            a ← obtain true node_id node e;
            match a with
            | Failed => mret Stop
            | Skipped m => skip_node c node_id m
            | Answered r =>
                ok ← resume_output node_id node r e;
                if negb ok then mret Stop
                else
                  or_else (fan_out c node_id (output r))
                    (_ ← commit_on dump env CSnapshot; mret (Go (mkCursor (c_order c) (S (c_idx c)) (output r))))
            end
        end
  end.

Definition resume_body (fuel : nat) (completed : list (Z * string)) : IO (option unit) :=
  issues ← validate_contracts;
  match issues with
  | _ :: _ => _ ← fail "contract_validation_failed" (map (o_issue_text o) issues) []; mret (Some tt)
  | [] =>
      match resolve_execution_order (o_blueprint o) (o_set_order o) with
      | None => raise (Raised "order")
      | Some order =>
          stp ← gets w_step;
          outs ← gets (fun w => outputs (w_state w));
          let i := start_index stp completed order in
          c ← resume_revision (mkCursor order i (last_output (take i order) outs));
          c ← resume_loop_back c;
          c ← resume_branches c;
          finish_loop (resume_step completed) fuel c
      end
  end.

(** [Orchestrator.resume] *)
Definition resume (fuel : nat) (rid : string) : IO (option unit) :=
  found ← gets (fun w => load_for_recovery parse rid (w_store w) (o_effects o w));
  match found with
  | None => raise (Raised "ValueError")
  | Some rc =>
      let s := rc_state rc in
      _ ← modify (set_state s);
      _ ← commit_on dump env (CCheckpoint mark_resumed);
      _ ← modify (set_steps (ChainState.step s) (ChainState.step s));
      ok ← verify_resume_integrity;
      if negb ok then
        _ ← fail "recovery_cursor_mismatch"
              ["Blueprint/order changed since run was saved. expected_hash=" +:+ execution_order_hash s
               +:+ ", run_id=" +:+ run_id s] [];
        mret (Some tt)
      else
        _ ← modify new_trace;
        rev ← gets (fun w => revision (w_state w));
        _ ← emit env (with_meta
              [ ("resumed_from_revision", VInt rev); ("resumed_from_step", VInt (ChainState.step s)) ]
              (draft "chain_started" "runtime" "runtime" (Some "chain_resumed")));
        _ ← reconcile_effects rid;
        go ← (if (ChainState.status s =? "waiting_for_review")%string then resume_waiting_for_review
              else mret true);
        if negb go then mret (Some tt) else guarded (resume_body fuel (rc_completed_steps rc))
  end.

(** [_load_for_recovery], and the state it becomes; the allocator stays. *)
Definition adopt_saved (rid : string) : IO ChainState :=
  found ← gets (fun w => load_for_recovery parse rid (w_store w) (o_effects o w));
  match found with
  | None => raise (Raised "ValueError")
  | Some rc =>
      let s := rc_state rc in
      _ ← modify (set_state s);
      _ ← set_self_step (ChainState.step s);
      mret s
  end.

(** [approve_budget_increase] of the orchestrator: the approval, then the
    run. *)
Definition approve_and_resume (fuel : nat) (rid : string) (new_budget : pyfloat) : IO (option string) :=
  s ← adopt_saved rid;
  match approve_budget_increase new_budget s with
  | None => raise (Raised "ValueError")
  | Some _ =>
      _ ← commit_on dump env (CCheckpoint (fun s => default s (approve_budget_increase new_budget s)));
      x ← resume fuel rid;
      match x with
      | None => mret None
      | Some _ =>
          st ← gets (fun w => load parse rid (w_store w));
          mret (Some (match st with Some s => ChainState.status s | None => "unknown" end))
      end
  end.

(** [route_fallback] up to its use of [self.nodes]: the attribute is
    [_nodes], the access raises. *)
Definition route_fallback (rid : string) : IO string :=
  s ← adopt_saved rid;
  let last := dict_at "last_failure" (metadata s) in
  if negb (truthy (context_get "node_id" last) && truthy (context_get "failure_type" last))
  then raise (Raised "ValueError")
  else match FailureManager.FailureType_of (text_of (context_get "failure_type" last)) with
       | None => raise (Raised "ValueError")
       | Some _ => raise (Raised "AttributeError")
       end.
End Orchestrator.
