(* ===== verification/OrchestratorRun.v ===== *)
(** * What a run guarantees

    Properties of the execution loop of Orchestrator, proved against the laws
    of the services it calls: how a run and a resumption end, that they end,
    and what a refused node, a context and a completed node are kept from. *)
From S2P Require Import Prelude PyFloat PyValue Sql Contract Blueprint Policy Envelope PolicyGate ChainState StateStore.
From S2P Require Import LoopEnforcer Scheduler Persistence BudgetApproval ReviewWorkbench ReviewManager Trace Runtime GateController.
From S2P Require Import Orchestrator.
From S2P Require FailureManager Preflight InvariantEngine DecisionLog RecoveryService.

(** What the loop relies on: its services leave the stored run sound and the
    loop counts alone; only branches commit. *)
Class ServiceLaws {Json X : Type} (parse : Json -> option ChainState) `{!NodeServices Json X} : Prop := {
  execute_quiet : forall n e, keeps quiet (execute n e);
  journal_quiet : forall n e, keeps quiet (journal_planned n e);
  details_quiet : forall n node r e, keeps quiet (detail_events n node r e);
  complete_quiet : forall n e out, keeps quiet (complete_reported n e out);
  semantic_moves : forall n out stp, keeps (moves parse) (run_semantic n out stp);
  branches_move : forall bd sel out order, keeps (moves parse) (execute_branches bd sel out order);
  reconcile_quiet : forall rid, keeps quiet (reconcile_effects rid);
}.

Section Logic.
Context {Json X : Type} (parse : Json -> option ChainState).
Implicit Types (w : World Json X).

(** Partial correctness from worlds whose tables and trace are in order. *)
Definition hoare {A} (P : World Json X -> Prop) (m : io Json X A) (Q : A -> World Json X -> Prop) : Prop :=
  forall w w' r, ready w -> P w -> m w = (w', r) -> ready w' /\ forall a, r = Ok a -> Q a w'.

Lemma hoare_bind {A B} P R Q (m : io Json X A) (f : A -> io Json X B) :
  hoare P m R -> (forall a, hoare (R a) (f a) Q) -> hoare P (m ≫= f) Q.
Proof.
  intros Hm Hf w w' r Hr Hp. unfold mbind, io_bind. destruct (m w) as [w1 [a|e]] eqn:E.
  - intros H. destruct (Hm _ _ _ Hr Hp E) as [Hr1 H1]. by apply (Hf a w1 w' r Hr1 (H1 a eq_refl)).
  - intros [= <- <-]. destruct (Hm _ _ _ Hr Hp E) as [Hr1 _]. done.
Qed.

Lemma hoare_ret {A} (P : World Json X -> Prop) (Q : A -> World Json X -> Prop) a :
  (forall w, P w -> Q a w) -> hoare P (mret a) Q.
Proof. intros H w w' r Hr Hp [= <- <-]. split; [done|]. intros b [= <-]. auto. Qed.

Lemma hoare_raise {A} P (Q : A -> World Json X -> Prop) e : hoare P (raise e) Q.
Proof. intros w w' r Hr Hp [= <- <-]. done. Qed.

Lemma hoare_gets {A} P (f : World Json X -> A) : hoare P (gets f) (fun a w => P w /\ a = f w).
Proof. intros w w' r Hr Hp [= <- <-]. split; [done|]. by intros a [= <-]. Qed.

Lemma hoare_weaken {A} (P P' : World Json X -> Prop) (Q Q' : A -> World Json X -> Prop) m :
  (forall w, P w -> P' w) -> (forall a w, Q' a w -> Q a w) -> hoare P' m Q' -> hoare P m Q.
Proof. intros HP HQ Hm w w' r Hr Hp H. destruct (Hm w w' r Hr (HP w Hp) H) as [H1 H2]. split; auto. Qed.

Lemma hoare_post {A} P (Q Q' : A -> World Json X -> Prop) m :
  hoare P m Q' -> (forall a w, Q' a w -> Q a w) -> hoare P m Q.
Proof. intros Hm HQ. by eapply hoare_weaken; [| |exact Hm]. Qed.

Lemma hoare_pre {A} (P P' : World Json X -> Prop) (Q : A -> World Json X -> Prop) m :
  hoare P' m Q -> (forall w, P w -> P' w) -> hoare P m Q.
Proof. intros Hm HP. by eapply hoare_weaken; [|intros a w H; exact H|exact Hm]. Qed.

Lemma hoare_case {A} (b : bool) P (Q : A -> World Json X -> Prop) m n :
  (b = true -> hoare P m Q) -> (b = false -> hoare P n Q) -> hoare P (if b then m else n) Q.
Proof. destruct b; auto. Qed.

(** What a kept relation does to an assertion. *)
Lemma hoare_keeps {A} (R : World Json X -> World Json X -> Prop) (P : World Json X -> Prop) (m : io Json X A) :
  (forall w w', R w w' -> ready w -> ready w') -> (forall w w', R w w' -> P w -> P w') ->
  keeps R m -> hoare P m (fun _ => P).
Proof. intros H1 H2 Hm w w' r Hr Hp H. apply Hm in H. split; [by eapply H1|]. intros a _. by eapply H2. Qed.

Definition pinned (s : ChainState) w : Prop := w_state w = s.
Definition looped (ls : dict LoopState) w : Prop := loop_state (w_state w) = ls.

Lemma quiet_ready w w' : quiet w w' -> ready w -> ready w'.
Proof. intros (_ & _ & _ & _ & H & _ & _ & H') [H1 H2]. split; auto. Qed.

Lemma moves_ready w w' : moves parse w w' -> ready w -> ready w'.
Proof. intros (_ & _ & H & _) Hr. by apply H. Qed.

Lemma hoare_quiet_state {A} s (m : io Json X A) : keeps quiet m -> hoare (pinned s) m (fun _ => pinned s).
Proof.
  apply hoare_keeps; [apply quiet_ready|]. intros w w' (H & _). unfold pinned. congruence.
Qed.

Lemma hoare_quiet_settled {A} s (m : io Json X A) :
  keeps quiet m -> hoare (fun w => settled parse w /\ pinned s w) m (fun _ w => settled parse w /\ pinned s w).
Proof.
  apply hoare_keeps; [apply quiet_ready|]. intros w w' H [Hs Hp]. split; [by eapply quiet_settled|].
  destruct H as (H & _). unfold pinned in *. congruence.
Qed.

Lemma hoare_quiet {A} ls (m : io Json X A) : keeps quiet m -> hoare (looped ls) m (fun _ => looped ls).
Proof.
  apply hoare_keeps; [apply quiet_ready|]. intros w w' (H & _). unfold looped. congruence.
Qed.

Lemma hoare_moves {A} ls (m : io Json X A) : keeps (moves parse) m -> hoare (looped ls) m (fun _ => looped ls).
Proof.
  apply hoare_keeps; [apply moves_ready|]. intros w w' (_ & H & _). unfold looped. congruence.
Qed.
End Logic.

Section Primitives.
Context {Json X : Type} (dump : ChainState -> Json) (parse : Json -> option ChainState).
Context (Hparse : forall x, parse (dump x) = Some x).
Context (env : Environment).
Implicit Types (w : World Json X).

Definition ends_with (ty : string) w : Prop := exists l e, w_trace w = l ++ [e] /\ te_event_type e = ty.

Definition failed_now w : Prop :=
  settled parse w /\ ChainState.status (w_state w) = "failed" /\ ends_with "chain_failed" w /\
  w_final_status w = Some "failed".

Lemma quiet_allocate : keeps quiet (@allocate_step Json X).
Proof. intros w w' r [= <- <-]. split_and!; try done; try (cbn; lia); by exists []; rewrite app_nil_r. Qed.

Lemma quiet_new_trace_ready w : ready w -> ready (new_trace w).
Proof. intros [H _]. split; [exact H|]. by intros e ?%elem_of_nil. Qed.

Lemma hoare_set_self_step P stp :
  (forall w, P w -> P (set_steps stp (w_next w) w)) ->
  hoare P (@set_self_step Json X stp) (fun _ => P).
Proof. intros HP w w' r Hr Hp [= <- <-]. split; [exact Hr|]. intros a _. auto. Qed.

Lemma hoare_commit s c :
  hoare (pinned s) (commit_on dump env c)
    (fun _ (w : World Json X) => settled parse w /\ w_state w = accept c true s).
Proof.
  intros w w' r [Hw Ha] <- H.
  destruct (commit_spec dump parse Hparse env c w w' r Hw Ha H) as (Ht & Ha' & Hw' & _ & _ & _ & Hres).
  split; [by split|]. intros a ->. destruct Hres as [Hs Hd]. by split.
Qed.

Lemma hoare_commit_settled P c : hoare P (commit_on dump env c) (fun _ (w : World Json X) => settled parse w).
Proof.
  intros w w' r Hr _ H. destruct (hoare_commit (w_state w) c w w' r Hr eq_refl H) as [H1 H2].
  split; [done|]. intros a Ha. by destruct (H2 a Ha).
Qed.

Lemma hoare_commit_looped ls c :
  gentle c -> hoare (looped ls) (commit_on dump env c) (fun _ (w : World Json X) => looped ls w).
Proof. intros Hc. apply (hoare_moves parse). by apply keeps_commit. Qed.

Lemma hoare_transition s p d :
  hoare (pinned s) (transition dump env p d)
    (fun _ (w : World Json X) => settled parse w /\ ends_with (d_type d) w /\
       exists e, w_state w = accept (CLifecycle p e) true s).
Proof.
  intros w w' r Hr <- H. destruct (lifecycle_spec dump parse Hparse env p d w w' r Hr H) as (Hm & _ & _ & Hres).
  split; [by apply Hm|]. intros a ->. destruct Hres as (Hs & e & He & Hty & Hst).
  split_and!; [done | by exists (w_trace w), e | by exists e].
Qed.

Lemma hoare_transition_any P p d :
  hoare P (transition dump env p d)
    (fun _ (w : World Json X) => settled parse w /\ ends_with (d_type d) w /\
       forall st, lp_status p = Some st -> ChainState.status (w_state w) = st).
Proof.
  intros w w' r Hr _ H. destruct (hoare_transition (w_state w) p d w w' r Hr eq_refl H) as [H1 H2].
  split; [done|]. intros a Ha. destruct (H2 a Ha) as (H3 & H4 & e & H5). split_and!; [done | done|].
  intros st Hst. rewrite H5. cbn. by rewrite Hst.
Qed.

Lemma hoare_true {A} P (m : io Json X A) : keeps quiet m -> hoare P m (fun _ _ => True).
Proof.
  intros Hm w w' r Hr _ H. apply Hm in H. split; [by eapply quiet_ready | done].
Qed.

Lemma hoare_fail P reason details md :
  hoare P (fail_chain dump env reason details md) (fun _ (w : World Json X) => failed_now w).
Proof.
  intros w w' r Hr _ H. destruct (fail_chain_spec dump parse Hparse env reason details md w w' r Hr H) as [Hm Hres].
  split; [by apply Hm|]. intros a ->. destruct Hres as (Hs & Hst & Hf & e & He & Hty).
  split_and!; [done | done | by exists (w_trace w), e | done].
Qed.

Lemma hoare_fail_looped ls reason details md :
  hoare (looped ls) (fail_chain dump env reason details md) (fun _ (w : World Json X) => looped ls w).
Proof.
  intros w w' r Hr Hp H. destruct (fail_chain_spec dump parse Hparse env reason details md w w' r Hr H) as [Hm _].
  split; [by apply Hm|]. intros a _. destruct Hm as (_ & Hl & _). unfold looped in *. congruence.
Qed.

(** How a step that returns leaves the run: failed, waiting for a budget or
    for a reviewer, and stored as it is. *)
Definition ended w : Prop :=
  settled parse w /\
  ((ChainState.status (w_state w) = "failed" /\ ends_with "chain_failed" w) \/
   ChainState.status (w_state w) = "paused_for_budget" \/
   ChainState.status (w_state w) = "waiting_for_review").

Lemma failed_ended w : failed_now w -> ended w.
Proof. intros (H & H1 & H2 & _). split; auto. Qed.

(** The common ending: fail and return. *)
Lemma hoare_fail_ret {A} P Q reason details md (a : A) :
  (forall w : World Json X, failed_now w -> Q a w) ->
  hoare P (_ ← fail_chain dump env reason details md; mret a) Q.
Proof.
  intros HQ. eapply hoare_bind; [apply hoare_fail|]. intros u. by apply hoare_ret.
Qed.

Lemma quiet_invoke `{!NodeServices Json X} `{!ServiceLaws parse} node e :
  keeps quiet (invoke_node env node e).
Proof. unfold invoke_node. walk ltac:(first [apply (execute_quiet (parse := parse)) | quiet_prim]). Qed.
End Primitives.

(** ** Reviews in a run *)

Section Reviews.
Context {Json : Type} (dump : ChainState -> Json) (parse : Json -> option ChainState).
Context (Hparse : forall x, parse (dump x) = Some x).
Context (sha256 : string -> string) (instant_of : string -> option Z).
Implicit Types (v : RvWorld Json).

Definition rv_ready v : Prop := well_formed (rw_store v) /\ acknowledged (rw_trace v) (rw_store v).

Definition pausing {A} (r : res review_error A) : Prop := exists a b, r = Err (ReviewPaused a b).

Definition rv_keeps {A} (m : ReviewManager.io (Json := Json) A) : Prop :=
  forall v v' r, rv_ready v -> m v = (v', r) ->
    rv_ready v' /\ loop_state (rw_state v') = loop_state (rw_state v) /\ ~ pausing r.

Lemma rv_bind {A B} (m : ReviewManager.io (Json := Json) A) (f : A -> ReviewManager.io (Json := Json) B) :
  rv_keeps m -> (forall a, rv_keeps (f a)) -> rv_keeps (ReviewManager.io_bind m f).
Proof.
  intros Hm Hf v v' r Hr. unfold ReviewManager.io_bind. destruct (m v) as [v1 [a|e]] eqn:E;
    destruct (Hm _ _ _ Hr E) as (H1 & H2 & H3).
  - intros H. destruct (Hf a _ _ _ H1 H) as (H4 & H5 & H6). split_and!; [done | congruence | done].
  - intros [= <- <-]. split_and!; [done | done|]. intros (a & b & [= ->]). apply H3. by exists a, b.
Qed.

Lemma rv_ret {A} (a : A) : rv_keeps (ReviewManager.io_ret a).
Proof. intros v v' r Hr [= <- <-]. split_and!; [done..|]. by intros (? & ? & [=]). Qed.

Lemma rv_transition t e st paused md v v' r :
  rv_ready v -> commit_review_transition dump t e st paused md v = (v', r) ->
  rv_ready v' /\ loop_state (rw_state v') = loop_state (rw_state v) /\ ~ pausing r /\
  (r = Ok tt -> durable parse (rw_state v') (rw_store v') /\ ChainState.status (rw_state v') = st).
Proof.
  intros [Hw Ha]. unfold commit_review_transition.
  set (p := mkLifecycle (Some st) None (Some paused) None md).
  destruct (commit_lifecycle dump p e (rw_state v) (tx_now t) (tx_io t) (rw_store v)) as [[s st'] res] eqn:E.
  pose proof (run_commit_spec dump parse Hparse (CLifecycle p e) _ _ _ _ _ _ _ Hw E) as [Hs Hd].
  assert (Hg : good_step (rw_store v) st') by by eapply (run_commit_good dump (CLifecycle p e)). destruct Hg as [Hw' Hx].
  destruct res as [u|x]; intros [= <- <-]; cbn in *.
  - split_and!; [split; [done|] | by rewrite Hs | by intros (? & ? & [=]) | intros _; split; [done | by rewrite Hs]].
    intros e' [He'|He'%list_elem_of_singleton]%elem_of_app.
    + destruct Hx as [(es & Hes) _]. eapply acknowledged_more; [exact Hes | exact Ha | exact He'].
    + subst e'. exact (lifecycle_journaled dump parse Hparse p e _ _ _ _ _ _ u Hw E).
  - subst. split_and!; [by split | done | by intros (? & ? & [=]) | by intros [=]].
Qed.

Lemma rv_commit t e st paused md : rv_keeps (commit_review_transition dump t e st paused md).
Proof. intros v v' r Hr H. apply rv_transition in H as (H1 & H2 & H3 & _); done. Qed.

Lemma rv_attempt dr d r vr s stp identity oc : rv_keeps (record_review_attempt sha256 (Json := Json) dr d r vr s stp identity oc).
Proof.
  intros v v' res Hr. unfold record_review_attempt.
  destruct (DecisionLog.record_review_attempt _ _ _); intros [= <- <-]; split_and!; try done; by intros (? & ? & [=]).
Qed.

Lemma rv_get : rv_keeps (get_state (Json := Json)).
Proof. intros v v' r Hr [= <- <-]. split_and!; [done..|]. by intros (? & ? & [=]). Qed.

Lemma rv_fail_closed t stp r reason ws : rv_keeps (fail_closed_governance sha256 dump t stp r reason ws).
Proof. apply rv_bind; [apply rv_get|]. intros s. apply rv_commit. Qed.

Lemma rv_materialize e dr decision r risk stp :
  rv_keeps (materialize_decision_receipt sha256 instant_of dump e dr decision r risk stp).
Proof.
  unfold materialize_decision_receipt. case_goal; [apply rv_ret|].
  destruct (chain_review_decision_type decision).
  2: { apply rv_bind; [apply rv_fail_closed|]. intros u. apply rv_ret. }
  apply rv_bind; [apply rv_get|]. intros st. apply rv_bind; [apply rv_attempt|]. intros u.
  case_goal; [apply rv_bind; [apply rv_fail_closed | intros u'; apply rv_ret]|].
  destruct (receipt _); [apply rv_ret|]. intros v v' res Hr [= <- <-]. split_and!; [done..|]. by intros (? & ? & [=]).
Qed.

Lemma rv_settle e dr decision r risk stp tx legacy :
  rv_keeps (settle_review sha256 instant_of dump e dr decision r risk stp tx legacy).
Proof.
  apply rv_bind; [apply rv_materialize|]. intros i. apply rv_bind; [apply rv_get|]. intros s.
  case_goal; [apply rv_ret|]. apply rv_bind; [apply rv_commit|]. intros u. apply rv_ret.
Qed.

Lemma settled_decision e dr decision r risk stp tx legacy v v' d :
  settle_review sha256 instant_of dump e dr decision r risk stp tx legacy v = (v', Ok d) ->
  rd_decision d = "governance_failure" \/ rd_decision d = decision.
Proof.
  unfold settle_review, ReviewManager.io_bind, get_state.
  destruct (materialize_decision_receipt _ _ _ _ _ _ _ _ _ v) as [v1 [i|x]]; [|discriminate].
  destruct (is_failed_without_receipt _ _); [intros [= _ <-]; by left|].
  destruct (commit_review_transition _ _ _ _ _ _ v1) as [v2 [u|x]]; [|discriminate].
  intros [= _ <-]. by right.
Qed.

(** The outcome of asking: a pause is stored, a decision is the one the mode
    or the adapter gave, or the governance failure. *)
Lemma asked e answer dr created paused p q risk stp v v' r :
  rv_ready v ->
  request_review sha256 instant_of dump e answer dr created paused p q risk stp v = (v', r) ->
  rv_ready v' /\ loop_state (rw_state v') = loop_state (rw_state v) /\
  (pausing r -> durable parse (rw_state v') (rw_store v') /\
     ChainState.status (rw_state v') = "waiting_for_review") /\
  (forall d, r = Ok d -> rd_decision d = "governance_failure" \/
     exists outs, get_decision e answer outs = Ok (rd_decision d)).
Proof.
  intros Hr. unfold request_review. unfold ReviewManager.io_bind at 1, get_state at 1.
  unfold ReviewManager.io_bind at 1.
  match goal with |- context [commit_review_transition dump ?t ?ev ?st ?pa ?md v] =>
    destruct (commit_review_transition dump t ev st pa md v) as [v1 [[]|x]] eqn:E
  end.
  all: apply rv_transition in E as (H1 & H2 & H3 & H4); [|done].
  2: { intros [= <- <-]. split_and!; [done..| |by intros d [=]].
       intros (a & b & [= ->]). destruct H3. by exists a, b. }
  destruct (H4 eq_refl) as [H5 H6]. unfold ReviewManager.io_bind at 1, get_state at 1, ReviewManager.lift.
  unfold ReviewManager.io_bind at 1. destruct (get_decision e answer _) as [d|x] eqn:Ed.
  - intros H. pose proof (rv_settle _ _ _ _ _ _ _ _ _ _ _ H1 H) as (G1 & G2 & G3).
    split_and!; [done | congruence | done|]. intros d' ->. apply settled_decision in H as [H|H]; [by left|].
    right. rewrite H. eauto.
  - intros [= <- <-]. split_and!; [done | done | done | by intros d [=]].
Qed.

Definition rv_safe {A} (m : ReviewManager.io (Json := Json) A) : Prop :=
  forall v v' r, rv_ready v -> m v = (v', r) -> rv_ready v'.

Lemma rv_safe_bind {A B} (m : ReviewManager.io (Json := Json) A) (f : A -> ReviewManager.io (Json := Json) B) :
  rv_safe m -> (forall a, rv_safe (f a)) -> rv_safe (ReviewManager.io_bind m f).
Proof.
  intros Hm Hf v v' r Hr. unfold ReviewManager.io_bind. destruct (m v) as [v1 [a|e]] eqn:E.
  - intros H. by eapply Hf; [eapply Hm | exact H].
  - intros [= <- <-]. by eapply Hm.
Qed.

Lemma rv_safe_keeps {A} (m : ReviewManager.io (Json := Json) A) : rv_keeps m -> rv_safe m.
Proof. intros Hm v v' r Hr H. by apply (Hm _ _ _ Hr H). Qed.

Lemma rv_safe_pure {A} (r : res review_error A) : rv_safe (ReviewManager.lift (Json := Json) r).
Proof. by intros v v' r' Hr [= <- <-]. Qed.

Lemma resolved e answer dr :
  rv_safe (resolve_resume_review sha256 instant_of dump e answer dr).
Proof.
  apply rv_safe_bind; [apply rv_safe_keeps, rv_get|]. intros s.
  apply rv_safe_bind.
  { repeat case_goal; first [apply rv_safe_keeps, rv_ret | apply rv_safe_pure | by intros v v' r Hr [= <- <-]]. }
  intros d. apply rv_safe_bind.
  { case_goal; [apply rv_safe_keeps, rv_ret|]. apply rv_safe_bind; [apply rv_safe_pure|]. intros r.
    case_goal; [apply rv_safe_keeps, rv_ret | apply rv_safe_keeps, rv_materialize]. }
  intros i. apply rv_safe_bind; [apply rv_safe_keeps, rv_get|]. intros s'. apply rv_safe_keeps, rv_ret.
Qed.
End Reviews.

(** ** The step of a run *)

Section Steps.
Context {Json X : Type} (dump : ChainState -> Json) (parse : Json -> option ChainState).
Context (Hparse : forall x, parse (dump x) = Some x).
Context (env : Environment) (o : Setup Json X).
Context `{!NodeServices Json X} `{!ServiceLaws parse}.
Implicit Types (w : World Json X).

(** The reviewer never asks for a revision. *)
Definition never_revises : Prop :=
  forall n outs d, get_decision (o_review o) (o_answer o n) outs = Ok d -> d <> "request_revision".

Definition review_outcome (a : res review_error ReviewDecision) w : Prop :=
  (pausing a -> settled parse w /\ ChainState.status (w_state w) = "waiting_for_review") /\
  (forall d, a = Ok d -> never_revises -> rd_decision d <> "request_revision").

Lemma hoare_draw P : (forall w, P w -> P (set_draws (S (w_draws w)) w)) ->
  hoare P (@draw Json X) (fun _ => P).
Proof. intros HP w w' r Hr Hp [= <- <-]. split; [exact Hr|]. intros a _. auto. Qed.

Lemma hoare_ask ls out :
  hoare (looped ls) (ask_review dump env o out) (fun a w => looped ls w /\ review_outcome a w).
Proof.
  unfold ask_review. do 4 (eapply hoare_bind; [by apply hoare_draw|]; intros).
  eapply hoare_bind; [apply hoare_gets|]. intros stp w w' r Hr [Hl _]. unfold on_review, act.
  match goal with |- context [request_review ?sha ?inst dump ?e ?ans ?dr ?cr ?pa ?p ?q out stp ?v] =>
    destruct (request_review sha inst dump e ans dr cr pa p q out stp v) as [v' res] eqn:E
  end.
  apply (asked dump parse Hparse) in E as (H1 & H2 & H3 & H4); [|exact Hr].
  intros [= <- <-]. split; [exact H1|]. intros x [= <-]. unfold looped in *. cbn in *.
  split; [congruence|]. split.
  - intros Hp. destruct (H3 Hp) as [H5 H6]. split; [|exact H6]. split; [exact H5 | apply H1].
  - intros d -> Hn. destruct (H4 d eq_refl) as [-> | (outs & Hd)]; [done | by eapply Hn].
Qed.

(** The iterations the loops have left. *)
Definition allowance (ls : dict LoopState) : nat :=
  list_sum (map (fun l => Z.to_nat (max_iterations l -
    match dget (loop_id l) ls with Some s => iteration s | None => 0 end)) (loops (o_blueprint o))).
Definition bounded (m : nat) w : Prop := (allowance (loop_state (w_state w)) <= m)%nat.

Lemma hoare_bounded {A} m (p : io Json X A) (Q : A -> World Json X -> Prop) :
  (forall ls, hoare (looped ls) p (fun a w => looped ls w /\ Q a w)) ->
  hoare (bounded m) p (fun a w => bounded m w /\ Q a w).
Proof.
  intros Hp w w' r Hr Hb H. destruct (Hp _ w w' r Hr eq_refl H) as [H1 H2]. split; [done|].
  intros a Ha. destruct (H2 a Ha) as [H3 H4]. split; [|done]. unfold bounded, looped in *. by rewrite H3.
Qed.

(** An assertion that every operation of a service leaves alone. *)
Definition stable (P : World Json X -> Prop) : Prop := forall w w', moves parse w w' -> P w -> P w'.

Lemma stable_quiet {A} P (p : io Json X A) : stable P -> keeps quiet p -> hoare P p (fun _ => P).
Proof.
  intros HP. apply hoare_keeps; [apply quiet_ready|]. intros w w' H. apply HP. by apply quiet_moves.
Qed.

Lemma stable_moves {A} P (p : io Json X A) : stable P -> keeps (moves parse) p -> hoare P p (fun _ => P).
Proof. intros HP. apply hoare_keeps; [apply moves_ready | exact HP]. Qed.

Lemma stable_fail P reason details md :
  stable P -> hoare P (fail_chain dump env reason details md) (fun _ (w : World Json X) => P w).
Proof.
  intros HP w w' r Hr Hp H. destruct (fail_chain_spec dump parse Hparse env reason details md w w' r Hr H) as [Hm _].
  split; [by apply Hm|]. intros a _. by eapply HP.
Qed.

Lemma bounded_stable m : stable (bounded m).
Proof. intros w w' (_ & H & _). unfold bounded. by rewrite H. Qed.

Lemma bounded_quiet {A} m (p : io Json X A) : keeps quiet p -> hoare (bounded m) p (fun _ => bounded m).
Proof. apply stable_quiet, bounded_stable. Qed.

Lemma bounded_moves {A} m (p : io Json X A) : keeps (moves parse) p -> hoare (bounded m) p (fun _ => bounded m).
Proof. apply stable_moves, bounded_stable. Qed.

Lemma hoare_or_raise {E A} P what (r : res E A) :
  hoare P (@or_raise Json X E A what r) (fun a w => P w /\ r = Ok a).
Proof.
  destruct r as [a|e]; [|apply hoare_raise]. apply hoare_ret. auto.
Qed.

(** *** Quiet pieces *)

Lemma quiet_context node_id : keeps quiet (build_context env o node_id).
Proof. unfold build_context. stroll fail. Qed.

Lemma quiet_prepare node_id pl : keeps quiet (prepare env o node_id pl).
Proof.
  unfold prepare, or_raise. stroll ltac:(apply quiet_context).
Qed.

Lemma quiet_gate node_id node : keeps quiet (check_policy_gate env o node_id node).
Proof. unfold check_policy_gate. stroll ltac:(apply keeps_check). Qed.

Lemma quiet_retry node_id node err failed digest e :
  keeps quiet (invoke_retry env node_id node err failed digest e).
Proof. unfold invoke_retry. stroll ltac:(by apply (quiet_invoke parse)). Qed.

Lemma quiet_handle ft node_id e (invoke : InvocationEnvelope -> io Json X EnvelopeResponse) :
  (forall e, keeps quiet (invoke e)) -> keeps quiet (handle_failure env o ft node_id e invoke).
Proof.
  intros Hi. unfold handle_failure, or_raise.
  stroll ltac:(first [apply Hi | apply quiet_allocate]).
Qed.

Lemma quiet_schema node_id out schema stp : keeps quiet (validate_schema env o node_id out schema stp).
Proof. unfold validate_schema. stroll fail. Qed.

(** *** The parts of a step *)

(** Either the part ended the run, or the assertion still holds. *)
Definition ends_or {A} (stopped : A -> bool) (P : World Json X -> Prop) (a : A) w : Prop :=
  if stopped a then ended parse w else P w.

Definition is_failed (a : answered) : bool := match a with Failed => true | _ => false end.
Definition is_none {A} (a : option A) : bool := match a with None => true | Some _ => false end.

Lemma stop_here {A} (P : World Json X -> Prop) (Q : A -> World Json X -> Prop) reason details md (a : A) :
  (forall w, ended parse w -> Q a w) ->
  hoare P (_ ← fail_chain dump env reason details md; mret a) Q.
Proof. intros HQ. apply (hoare_fail_ret dump parse Hparse). intros w H. by apply HQ, failed_ended. Qed.

Section Pieces.
Context (P : World Json X -> Prop) (HP : stable P).

Definition resets : Prop := forall stp w, P w -> P (set_steps stp (w_next w) w).

Lemma hoare_recover (HS : resets) wa node_id e r (invoke : InvocationEnvelope -> io Json X EnvelopeResponse) :
  (forall e, keeps quiet (invoke e)) ->
  hoare P (recover dump env o wa node_id e r invoke) (ends_or is_failed P).
Proof.
  intros Hi. unfold recover. eapply hoare_bind; [apply (stable_quiet _ _ HP); by apply quiet_handle|]. intros res.
  eapply hoare_bind; [apply (stable_quiet _ _ HP); stroll fail|]. intros stp. cbn beta.
  apply hoare_case; intros _; [by apply stop_here|].
  destruct (FailureManager.response res) as [r'|].
  - apply hoare_case; intros _; [by apply stop_here|].
    eapply hoare_bind; [apply hoare_set_self_step; auto|]. intros _u. by apply hoare_ret.
  - apply hoare_case; intros _; [by apply stop_here | by apply hoare_ret].
Qed.

Lemma hoare_obtain (HS : resets) resumed node_id node e :
  hoare P (obtain dump env o resumed node_id node e) (ends_or is_failed P).
Proof.
  unfold obtain. eapply hoare_bind; [apply (stable_quiet _ _ HP); by apply (quiet_invoke parse)|]. intros r. cbn beta.
  apply hoare_case; intros _; [by apply hoare_ret|].
  apply hoare_case; intros _.
  - apply (hoare_recover HS). intros e'. by apply (quiet_invoke parse).
  - eapply hoare_bind; [apply (stable_quiet _ _ HP); stroll fail|]. intros l. cbn beta.
    apply (hoare_recover HS). intros e'. apply quiet_retry.
Qed.

Lemma hoare_guard node_id :
  hoare P (loop_guard dump env o node_id) (ends_or negb P).
Proof.
  unfold loop_guard. eapply hoare_bind; [apply (stable_quiet _ _ HP); stroll fail|]. intros s. cbn beta.
  destruct (check_loop_exhaustion _ _ _); [by apply stop_here|].
  eapply hoare_bind; [apply (stable_quiet _ _ HP); stroll fail|]. intros cost. cbn beta.
  eapply hoare_bind; [apply (stable_quiet _ _ HP); unfold or_raise; stroll fail|]. intros b. cbn beta.
  destruct b as [r|]; [|by apply hoare_ret].
  eapply hoare_bind; [apply (stable_quiet _ _ HP); stroll fail|]. intros u. cbn beta.
  apply hoare_case; intros _; [by apply hoare_ret|].
  eapply hoare_bind; [apply (stable_quiet _ _ HP); stroll fail|]. intros u'. by apply stop_here.
Qed.

Lemma hoare_authorize node_id node pl :
  hoare P (authorize dump env o node_id node pl) (ends_or is_none P).
Proof.
  unfold authorize. eapply hoare_bind; [apply (stable_quiet _ _ HP), quiet_gate|]. intros denied. cbn beta.
  apply hoare_case; intros _; [by apply stop_here|].
  eapply hoare_bind; [apply (stable_quiet _ _ HP), quiet_prepare|]. intros e. cbn beta.
  eapply hoare_bind; [apply (stable_quiet _ _ HP), (journal_quiet (parse := parse))|]. intros ok. cbn beta.
  apply hoare_case; intros _; [by apply hoare_ret | by apply stop_here].
Qed.

Lemma hoare_account node_id node r e what :
  hoare P (account dump env node_id node r e what) (ends_or negb P).
Proof.
  unfold account. eapply hoare_bind; [apply (stable_quiet _ _ HP), (details_quiet (parse := parse))|]. intros ok. cbn beta.
  apply hoare_case; intros _; [by apply stop_here|].
  eapply hoare_bind; [apply (stable_quiet _ _ HP), (complete_quiet (parse := parse))|]. intros ok'. cbn beta.
  apply hoare_case; intros _; [by apply stop_here | by apply hoare_ret].
Qed.

Lemma completion_gentle node_id stp out extra cost : gentle (CInvocation (completion node_id stp out extra cost)).
Proof. done. Qed.

Lemma stable_commit c : gentle c -> hoare P (commit_on dump env c) (fun _ (w : World Json X) => P w).
Proof. intros Hc. apply (stable_moves _ _ HP). by apply keeps_commit. Qed.

Lemma hoare_record_output node_id node r e :
  hoare P (record_output dump env o node_id node r e) (ends_or is_none P).
Proof.
  unfold record_output. eapply hoare_bind; [apply (stable_quiet _ _ HP); stroll fail|]. intros stp. cbn beta.
  eapply hoare_bind; [apply (stable_quiet _ _ HP), quiet_schema|]. intros errors. cbn beta.
  apply hoare_case; intros _; [by apply stop_here|].
  eapply hoare_bind; [apply stable_commit, completion_gentle|]. intros u. cbn beta.
  eapply hoare_bind; [apply hoare_account|]. intros ok.
  apply hoare_case; intros Hok.
  { apply hoare_ret. intros w. unfold ends_or. by rewrite Hok. }
  apply (hoare_pre _ P); [|intros w; unfold ends_or; by rewrite Hok].
  eapply hoare_bind; [apply (stable_moves _ _ HP), semantic_moves|]. intros v. cbn beta.
  apply (hoare_bind _ (fun _ => P)); [|intros u'; by apply hoare_ret].
  destruct (snd v); [apply (stable_fail _ _ _ _ HP) | by apply hoare_ret].
Qed.
End Pieces.

(** *** The ways out of a node *)

(** What keeps reviewers from asking for revisions. *)
Context (N : Prop) (HN : N -> never_revises).

(** What is left of the order. *)
Definition ahead (c : Cursor) : nat := length (c_order c) - c_idx c.

(** A step that goes on spends a loop iteration or comes nearer to the end. *)
Definition progress (m : nat) (c c' : Cursor) w : Prop :=
  N ->
  (allowance (loop_state (w_state w)) < m)%nat \/ (bounded m w /\ (ahead c' < ahead c)%nat).

Definition step_post (m : nat) (c : Cursor) (x : next) w : Prop :=
  match x with Stop => ended parse w | Go c' => progress m c c' w end.
Definition route_post (m : nat) (c : Cursor) (x : option next) w : Prop :=
  match x with None => bounded m w | Some x => step_post m c x w end.

Lemma loop_back_action ls node_id out s s' d :
  check_loop_back_in ls node_id out s = Ok (s', Some d) -> sd_action d = TERMINATE \/ sd_action d = LOOP_BACK.
Proof.
  revert s s'. induction ls as [|l ls IH]; intros s s'; [discriminate|]. cbn [check_loop_back_in].
  destruct (path_last l); cbn; [|discriminate]. case_goal; [apply IH|]. case_goal; [apply IH|].
  destruct (path_first l); cbn; [|discriminate]. repeat case_goal; intros H; injection H as _ <-; auto.
Qed.

Lemma list_sum_le {A} (f g : A -> nat) l :
  (forall a, a ∈ l -> (f a <= g a)%nat) -> (list_sum (map f l) <= list_sum (map g l))%nat.
Proof.
  induction l as [|a l IH]; intros H; [done|].
  change (f a + list_sum (map f l) <= g a + list_sum (map g l))%nat.
  assert (f a <= g a)%nat by (apply H; left). assert (list_sum (map f l) <= list_sum (map g l))%nat by
    (apply IH; intros b Hb; apply H; by right). lia.
Qed.

Lemma list_sum_lt {A} (f g : A -> nat) l x :
  x ∈ l -> (f x < g x)%nat -> (forall a, a ∈ l -> (f a <= g a)%nat) ->
  (list_sum (map f l) < list_sum (map g l))%nat.
Proof.
  induction l as [|a l IH]; intros Hx Hlt H; [by apply elem_of_nil in Hx|].
  change (f a + list_sum (map f l) < g a + list_sum (map g l))%nat.
  assert (f a <= g a)%nat by (apply H; left).
  assert (list_sum (map f l) <= list_sum (map g l))%nat by
    (apply list_sum_le; intros b Hb; apply H; by right).
  apply elem_of_cons in Hx as [->|Hx]; [lia|].
  assert (list_sum (map f l) < list_sum (map g l))%nat by (apply IH; [done | done | intros b Hb; apply H; by right]).
  lia.
Qed.

Lemma allowance_step node_id out s s' d :
  check_loop_back (o_blueprint o) node_id out s = Ok (s', d) ->
  (allowance (loop_state s') <= allowance (loop_state s))%nat /\
  (forall x, d = Some x -> sd_action x = LOOP_BACK -> (allowance (loop_state s') < allowance (loop_state s))%nat).
Proof.
  intros H. apply check_loop_back_step in H as [[Hit Hd]|(l & x & Hl & -> & _ & _ & Hlt & Hit)].
  - split; [|intros x Hx Ha; by destruct (Hd x Hx)]. apply list_sum_le. intros l _. fold (iteration_at (loop_id l) s).
    fold (iteration_at (loop_id l) s'). rewrite Hit. lia.
  - assert (forall k, iteration_at (loop_id l) s <= iteration_at (loop_id l) s /\ iteration_at k s <= iteration_at k s') as Hge.
    { intros k. rewrite Hit. destruct (_ =? _)%string; lia. }
    split; [|intros y _ _].
    + apply list_sum_le. intros k _. fold (iteration_at (loop_id k) s). fold (iteration_at (loop_id k) s').
      specialize (Hge (loop_id k)). lia.
    + apply (list_sum_lt _ _ _ l Hl).
      * fold (iteration_at (loop_id l) s). fold (iteration_at (loop_id l) s'). rewrite Hit, String.eqb_refl. lia.
      * intros k _. fold (iteration_at (loop_id k) s). fold (iteration_at (loop_id k) s'). specialize (Hge (loop_id k)). lia.
Qed.

Lemma hoare_pause m lid cost previous why target source c :
  hoare (bounded m)
    (_ ← pause_run_for_budget (X := X) dump env lid cost previous why target source; mret (Some Stop))
    (route_post m c).
Proof.
  intros w w' r Hr Hb. unfold pause_run_for_budget, mbind, io_bind.
  destruct (commit_on dump env _ w) as [w1 [u|e]] eqn:E;
    destruct (hoare_commit dump parse Hparse env (w_state w) _ w w1 _ Hr eq_refl E) as [Hr1 H1]; intros [= <- <-].
  - split; [done|]. intros a [= <-]. destruct (H1 u eq_refl) as [Hs Hst]. split; [done|]. right. left.
    rewrite Hst. reflexivity.
  - split; [done|]. discriminate.
Qed.

Lemma hoare_take m k c node_id out d :
  (k < m)%nat -> hoare (bounded k) (take_loop_back dump env o c node_id out d) (route_post m c).
Proof.
  intros Hk. unfold take_loop_back.
  do 3 (eapply hoare_bind; [apply bounded_quiet; unfold or_raise; stroll fail|]; intros ?; cbn beta).
  destruct a1 as [r|].
  - do 2 (eapply hoare_bind; [apply bounded_quiet; stroll fail|]; intros ?; cbn beta).
    apply (hoare_pre _ (bounded m)); [by apply hoare_pause | intros w Hw; unfold bounded in *; lia].
  - destruct (check_loop_exit _ _ _ _ _).
    + eapply hoare_bind; [apply bounded_quiet; stroll fail|]. intros u. cbn beta. apply hoare_ret.
      intros w Hw. unfold route_post, bounded in *. lia.
    + eapply hoare_bind; [apply bounded_quiet; stroll fail|]. intros u. cbn beta.
      destruct (index _ _); [|apply hoare_raise]. apply hoare_ret. intros w Hw _. left. unfold bounded in Hw. lia.
Qed.

Lemma hoare_loop_back m c node_id out :
  hoare (bounded m) (loop_back dump env o c node_id out) (route_post m c).
Proof.
  unfold loop_back. eapply hoare_bind; [apply hoare_gets|]. intros s.
  eapply hoare_bind; [apply hoare_or_raise|]. intros [s' d]. cbn beta iota.
  intros w w' r Hr [[Hb ->] Hx]. apply allowance_step in Hx as Hal.
  destruct Hal as [Hle Hlt]. unfold mbind at 1, io_bind at 1, modify.
  assert (Hr1 : ready (set_state s' w)) by exact Hr.
  assert (Hb1 : bounded m (set_state s' w)) by (unfold bounded in *; cbn; lia).
  destruct d as [d|]; [|intros H; eapply (hoare_ret (bounded m)); [|exact Hr1 | exact Hb1 | exact H]; auto].
  destruct (bool_decide (sd_action d = TERMINATE)) eqn:Et.
  { intros H. eapply (stop_here (bounded m)); [|exact Hr1 | exact Hb1 | exact H]. auto. }
  assert (Hact : sd_action d = LOOP_BACK).
  { apply loop_back_action in Hx as [Ha|Ha]; [|exact Ha]. by rewrite (bool_decide_eq_true_2 _ Ha) in Et. }
  specialize (Hlt d eq_refl Hact).
  intros H. eapply (hoare_take m (allowance (loop_state s'))); [|exact Hr1 | | exact H].
  - unfold bounded in Hb. lia.
  - unfold bounded. cbn. lia.
Qed.

Lemma skip_shorter order from bd : (length (skip_to_join (o_blueprint o) order from bd) <= length order)%nat.
Proof.
  unfold skip_to_join. destruct (joins (o_blueprint o)); [done|]. case_goal; [done|]. apply length_lfilter.
Qed.

Lemma hoare_fan_out m c node_id out :
  is_Some (c_order c !! c_idx c) ->
  hoare (bounded m) (fan_out dump env o c node_id out) (route_post m c).
Proof.
  intros Hc%lookup_lt_is_Some. unfold fan_out.
  destruct (get_branches_from _ _) as [|bd bds]; [by apply hoare_ret|].
  eapply hoare_bind; [apply bounded_quiet; unfold or_raise; stroll fail|]. intros selected. cbn beta.
  eapply hoare_bind; [apply bounded_moves, branches_move|]. intros merged. cbn beta.
  destruct merged as [p|]; [|by apply stop_here].
  apply hoare_ret. intros w Hw _. right. split; [exact Hw|]. unfold ahead. cbn.
  pose proof (skip_shorter (c_order c) node_id bd). lia.
Qed.

Lemma hoare_review m c node_id out :
  is_Some (c_order c !! c_idx c) ->
  hoare (bounded m) (review dump env o c node_id out) (route_post m c).
Proof.
  intros Hc. unfold review. apply hoare_case; intros _; [by apply hoare_ret|].
  assert (Hraise : forall P (e : review_error), hoare P (@raise_review Json X (option next) e) (route_post m c)).
  { intros P e. destruct e; apply hoare_raise. }
  destruct (needs_review _ _) as [[]|e]; [|by apply hoare_ret | apply Hraise].
  eapply hoare_bind; [apply (hoare_bounded m _ review_outcome); intros ls; apply hoare_ask|].
  intros [d|e]; cbn beta.
  2: { destruct e; try apply Hraise.
       apply (hoare_pre _ (fun w => settled parse w /\ ChainState.status (w_state w) = "waiting_for_review")).
       2: { intros w [_ [Hp _]]. apply Hp. by eexists _, _. }
       eapply hoare_bind.
       { apply (hoare_keeps quiet); [apply quiet_ready | | apply keeps_emit].
         intros w w' Hq [H1 H2]. split; [by eapply quiet_settled|]. destruct Hq as (-> & _). exact H2. }
       intros u. cbn beta. eapply hoare_bind.
       { apply (hoare_keeps quiet); [apply quiet_ready | | apply keeps_set_final].
         intros w w' Hq [H1 H2]. split; [by eapply quiet_settled|]. destruct Hq as (-> & _). exact H2. }
       intros u'. apply hoare_ret. intros w [H1 H2]. split; auto. }
  apply hoare_case; intros _; [by apply stop_here|].
  set (t := apply_review_decision _ _ _ _ _).
  destruct (sd_action t) eqn:Et; try (by apply hoare_ret; intros w [H _]); try (by apply stop_here).
  apply hoare_ret. intros w [_ [_ Hn]] Hnr. exfalso. apply (Hn d eq_refl (HN Hnr)). unfold t in Et. revert Et.
  unfold apply_review_decision. repeat (case_goal; [done||bool_prop; done|]). done.
Qed.

Lemma hoare_or_else m c (p : io Json X (option next)) (k : io Json X next) :
  hoare (bounded m) p (route_post m c) -> hoare (bounded m) k (step_post m c) ->
  hoare (bounded m) (or_else p k) (step_post m c).
Proof.
  intros Hp Hk. eapply hoare_bind; [exact Hp|]. intros [x|]; [by apply hoare_ret | exact Hk].
Qed.

Lemma snapshot_gentle : gentle CSnapshot.
Proof. done. Qed.

(** Go on with the next node. *)
Lemma hoare_advance m c pl :
  is_Some (c_order c !! c_idx c) ->
  hoare (bounded m)
    (_ ← commit_on (X := X) dump env CSnapshot; mret (Go (mkCursor (c_order c) (S (c_idx c)) pl)))
    (step_post m c).
Proof.
  intros Hc%lookup_lt_is_Some. eapply hoare_bind; [apply (stable_commit _ (bounded_stable m)), snapshot_gentle|]. intros u.
  apply hoare_ret. intros w Hw _. right. split; [exact Hw|]. unfold ahead. cbn. lia.
Qed.

Lemma hoare_leave m c node_id out :
  is_Some (c_order c !! c_idx c) ->
  hoare (bounded m) (leave_node dump env o c node_id out) (step_post m c).
Proof.
  intros Hc. apply hoare_or_else; [apply hoare_loop_back|]. apply hoare_or_else; [by apply hoare_fan_out|].
  apply hoare_or_else; [by apply hoare_review | by apply hoare_advance].
Qed.

Lemma hoare_skip m c node_id marker :
  is_Some (c_order c !! c_idx c) ->
  hoare (bounded m) (skip_node (Json := Json) (X := X) c node_id marker) (step_post m c).
Proof.
  intros Hc%lookup_lt_is_Some w w' r Hr Hb [= <- <-]. split; [exact Hr|]. intros a [= <-] _. right.
  split; [exact Hb|]. unfold ahead. cbn. lia.
Qed.

Lemma quiet_validated node_id node : keeps quiet (@emit_contract_validated Json X env node_id node).
Proof. apply keeps_emit. Qed.

Lemma hoare_ends {A B} P (stopped : A -> bool) (p : io Json X A) (f : A -> io Json X B) Q :
  hoare P p (ends_or stopped P) ->
  (forall a, stopped a = true -> hoare (ended parse) (f a) Q) ->
  (forall a, stopped a = false -> hoare P (f a) Q) -> hoare P (p ≫= f) Q.
Proof.
  intros Hp H1 H2. eapply hoare_bind; [exact Hp|]. intros a. destruct (stopped a) eqn:Es.
  - eapply hoare_pre; [by apply H1|]. intros w. unfold ends_or. by rewrite Es.
  - eapply hoare_pre; [by apply H2|]. intros w. unfold ends_or. by rewrite Es.
Qed.

Lemma bounded_resets m : resets (bounded m).
Proof. intros stp w H. exact H. Qed.

Lemma hoare_clear m c node_id node :
  hoare (bounded m) (clear_node dump env o c node_id node) (ends_or is_none (bounded m)).
Proof.
  unfold clear_node. eapply hoare_bind; [apply bounded_quiet, quiet_allocate|]. intros stp. cbn beta.
  eapply hoare_bind; [by apply hoare_set_self_step|]. intros u. cbn beta.
  apply (hoare_ends _ negb); [apply hoare_guard, bounded_stable | |]; intros ok Hok; rewrite Hok; [by apply hoare_ret|].
  eapply hoare_bind; [apply bounded_quiet, quiet_validated|]. intros u'. cbn beta.
  apply hoare_authorize, bounded_stable.
Qed.

Lemma hoare_step m c node_id :
  c_order c !! c_idx c = Some node_id ->
  hoare (bounded m) (run_step dump env o c node_id) (step_post m c).
Proof.
  intros Hc. assert (Hn : is_Some (c_order c !! c_idx c)) by eauto. pose proof (bounded_stable m) as HP.
  unfold run_step. destruct (dget node_id (o_nodes o)) as [node|]; [|by apply stop_here].
  apply (hoare_ends _ is_none); [apply hoare_clear | |]; intros [e|] He; try discriminate; [by apply hoare_ret|].
  apply (hoare_ends _ is_failed); [apply hoare_obtain; [exact HP | apply bounded_resets] | |]; intros [r|mk|] Ha; try discriminate;
    [by apply hoare_ret | | by apply hoare_skip].
  apply (hoare_ends _ is_none); [by apply hoare_record_output | |]; intros [out|] Ho; try discriminate;
    [by apply hoare_ret | by apply hoare_leave].
Qed.

(** *** The loop *)

Definition steps_well (step : Cursor -> string -> io Json X next) : Prop :=
  forall m c node_id, c_order c !! c_idx c = Some node_id ->
    hoare (bounded m) (step c node_id) (step_post m c).

Lemma any_bounded w : bounded (allowance (loop_state (w_state w))) w.
Proof. unfold bounded. done. Qed.

Lemma hoare_loop step fuel c :
  steps_well step ->
  hoare (fun _ => True) (run_loop step fuel c) (fun x w => x = Some false -> ended parse w).
Proof.
  intros Hs. revert c. induction fuel as [|fuel IH]; intros c; cbn [run_loop];
    destruct (c_order c !! c_idx c) as [n|] eqn:Ec; try (by apply hoare_ret).
  intros w w' r Hr _. unfold mbind, io_bind. destruct (step c n w) as [w1 [x|e]] eqn:E;
    destruct (Hs _ c n Ec w w1 _ Hr (any_bounded w) E) as [Hr1 H1].
  - specialize (H1 x eq_refl). destruct x as [c'|].
    + intros H. by apply (IH c' w1 w' r Hr1).
    + intros [= <- <-]. split; [done|]. by intros a [= <-].
  - intros [= <- <-]. by split.
Qed.

(** More fuel changes nothing once the loop ended. *)
Lemma loop_fuel step fuel fuel' c w w' r :
  (fuel <= fuel')%nat -> run_loop step fuel c w = (w', r) -> r <> Ok None -> run_loop step fuel' c w = (w', r).
Proof.
  revert fuel' c w. induction fuel as [|fuel IH]; intros fuel' c w Hf; destruct fuel' as [|fuel'];
    cbn [run_loop]; destruct (c_order c !! c_idx c) as [n|]; try done; try lia.
  - by intros [= <- <-].
  - unfold mbind, io_bind. destruct (step c n w) as [w1 [[c'|]|e]]; try done. intros H Hr.
    apply IH; [lia | done | done].
Qed.

(** Every step goes down, so some fuel is enough. *)
Lemma loop_ends step c w :
  steps_well step -> N -> ready w ->
  exists fuel, forall w' r, run_loop step fuel c w = (w', r) -> r <> Ok None.
Proof.
  intros Hs Hnr. revert c w.
  assert (Hmain : forall m n c w, (allowance (loop_state (w_state w)) <= m)%nat -> (ahead c <= n)%nat -> ready w ->
            exists fuel, forall w' r, run_loop step fuel c w = (w', r) -> r <> Ok None); [|eauto].
  intros m. induction m as [m IHm] using lt_wf_ind. intros n. induction n as [n IHn] using lt_wf_ind.
  intros c w Hm Hn Hr. destruct (c_order c !! c_idx c) as [node|] eqn:Ec.
  2: { exists 0%nat. intros w' r. cbn. rewrite Ec. by intros [= <- <-]. }
  destruct (step c node w) as [w1 [[c'|]|e]] eqn:E.
  - destruct (Hs _ c node Ec w w1 _ Hr (any_bounded w) E) as [Hr1 H1].
    assert (exists fuel, forall w' r, run_loop step fuel c' w1 = (w', r) -> r <> Ok None) as [fuel Hfuel].
    { destruct (H1 _ eq_refl Hnr) as [Hlt|[Hb Hlt]].
      - by apply (IHm (allowance (loop_state (w_state w1))) ltac:(lia) (ahead c')).
      - apply (IHn (ahead c') ltac:(lia)); [unfold bounded in Hb; lia | done | done]. }
    exists (S fuel). intros w' r. cbn. rewrite Ec. unfold mbind, io_bind. rewrite E. apply Hfuel.
  - exists 1%nat. intros w' r. cbn. rewrite Ec. unfold mbind, io_bind. rewrite E. by intros [= <- <-].
  - exists 1%nat. intros w' r. cbn. rewrite Ec. unfold mbind, io_bind. rewrite E. by intros [= <- <-].
Qed.

(** *** A run *)

(** How a run that returns leaves the chain. *)
Definition finished w : Prop :=
  ended parse w \/
  (settled parse w /\ ChainState.status (w_state w) = "completed" /\ ends_with "chain_completed" w).

Lemma hoare_complete P : hoare P (complete_chain dump env) (fun _ (w : World Json X) => finished w).
Proof.
  unfold complete_chain. eapply hoare_bind; [apply hoare_true; stroll fail|]. intros l.
  eapply hoare_bind; [apply hoare_true; stroll fail|]. intros n.
  eapply hoare_post; [by apply (hoare_transition_any dump parse Hparse)|].
  intros u w (H1 & H2 & H3). right. split_and!; [done | by apply H3 | done].
Qed.

Lemma quiet_contracts : keeps quiet (validate_contracts env o).
Proof.
  unfold validate_contracts, or_raise, emit_invalid_contract. stroll fail.
Qed.

Lemma hoare_preflight m : hoare (bounded m) (preflight dump env o) (ends_or is_none (bounded m)).
Proof.
  unfold preflight. eapply hoare_bind; [apply bounded_quiet, quiet_contracts|]. intros issues. cbn beta.
  destruct issues as [|i l]; [|by apply stop_here].
  eapply hoare_bind; [apply bounded_quiet, keeps_emit|]. intros u. cbn beta.
  apply hoare_case; intros _; [by apply stop_here|].
  destruct (InvariantEngine.errors _); [|by apply stop_here].
  eapply hoare_bind; [apply bounded_quiet; unfold emit_warning; stroll fail|]. intros u'. cbn beta.
  destruct (resolve_execution_order _ _); [by apply hoare_ret | apply hoare_raise].
Qed.

Lemma run_steps_well : steps_well (run_step dump env o).
Proof. intros m c n Hc. by apply hoare_step. Qed.

Definition start_cursor (order : list string) (query : string) : Cursor :=
  mkCursor order 0 [("query", VStr query)].

Lemma hoare_finish step fuel c :
  steps_well step -> hoare (fun _ => True) (finish_loop dump env step fuel c) (fun x w => x = Some tt -> finished w).
Proof.
  intros Hs. unfold finish_loop. eapply hoare_bind; [by apply hoare_loop|]. intros [[]|].
  - eapply hoare_bind; [apply hoare_complete|]. intros u. apply hoare_ret. auto.
  - apply hoare_ret. intros w H _. left. by apply H.
  - by apply hoare_ret.
Qed.

Lemma finish_ends step c w :
  steps_well step -> N -> ready w -> exists fuel, snd (finish_loop dump env step fuel c w) <> Ok None.
Proof.
  intros Hs Hn Hr. destruct (loop_ends step c w Hs Hn Hr) as [fuel Hf]. exists fuel.
  unfold finish_loop, mbind, io_bind. destruct (run_loop step fuel c w) as [w2 x] eqn:El.
  specialize (Hf _ _ eq_refl). destruct x as [[[]|]|e]; try done.
  by destruct (complete_chain dump env w2) as [w3 [u|e]].
Qed.

Lemma finish_fuel step fuel fuel' c w :
  (fuel <= fuel')%nat -> snd (finish_loop dump env step fuel c w) <> Ok None ->
  finish_loop dump env step fuel' c w = finish_loop dump env step fuel c w.
Proof.
  intros Hf. unfold finish_loop, mbind, io_bind. destruct (run_loop step fuel c w) as [w2 x] eqn:El. intros H.
  assert (Hx : x <> Ok None) by (intros ->; by apply H).
  by rewrite (loop_fuel _ fuel fuel' _ _ _ _ Hf El Hx).
Qed.

Lemma hoare_body fuel query :
  hoare (fun _ => True) (run_body dump env o fuel query) (fun x w => x = Some tt -> finished w).
Proof.
  intros w w' r Hr _. unfold run_body, mbind, io_bind.
  destruct (preflight dump env o w) as [w1 [[order|]|e]] eqn:E;
    destruct (hoare_preflight _ w w1 _ Hr (any_bounded w) E) as [Hr1 H1].
  - intros H. by apply (hoare_finish (run_step dump env o) fuel (start_cursor order query) run_steps_well w1 w' r Hr1 I).
  - intros [= <- <-]. split; [done|]. intros a _ _. left. by apply (H1 None).
  - intros [= <- <-]. split; [done|]. by intros a [=].
Qed.

(** *** The exception handler *)

Definition refused_by_store (e : exn) : Prop := exists x, e = StoreRaised x.

Lemma transition_raises p d w w' e :
  transition (X := X) dump env p d w = (w', Err e) -> refused_by_store e.
Proof.
  unfold transition, commit_on, mbind, io_bind, draw, gets, act, modify. cbn.
  destruct (commit_lifecycle _ _ _ _ _ _ _) as [[s st] [u|x]]; [discriminate|]. intros [= <- <-]. by exists x.
Qed.

Lemma fail_raises reason details md w w' e :
  fail_chain (X := X) dump env reason details md w = (w', Err e) -> refused_by_store e.
Proof.
  unfold fail_chain. unfold mbind, io_bind at 1.
  destruct (transition dump env _ _ w) as [w1 [u|x]] eqn:E; [discriminate|].
  intros [= <- <-]. by eapply transition_raises.
Qed.

(** What leaves a guarded body. *)
Definition concluded (x : res exn (option unit)) w : Prop :=
  match x with
  | Ok None => True
  | Ok (Some _) => finished w /\ w_final_status w = Some (ChainState.status (w_state w))
  | Err e => refused_by_store e
  end.

Lemma finished_final w st : finished w -> finished (set_final st w).
Proof. done. Qed.

Lemma guarded_spec body w w' r :
  hoare (fun _ => True) body (fun x w => x = Some tt -> finished w) ->
  ready w -> guarded dump env o body w = (w', r) -> ready w' /\ concluded r w'.
Proof.
  intros Hb Hr. unfold guarded. destruct (body w) as [w1 [[[]|]|e]] eqn:E;
    destruct (Hb w w1 _ Hr I E) as [Hr1 H1].
  - intros [= <- <-]. split; [exact Hr1|]. split; [by apply (H1 (Some tt)) | done].
  - by intros [= <- <-].
  - unfold mbind, io_bind. destruct (fail_chain dump env _ _ _ w1) as [w2 [u|e']] eqn:Ef;
      destruct (hoare_fail dump parse Hparse env (fun _ => True) _ _ _ w1 w2 _ Hr1 I Ef) as [Hr2 H2];
      intros [= <- <-]; (split; [exact Hr2|]).
    + split; [|done]. apply finished_final. left. by apply failed_ended, (H2 u).
    + by eapply fail_raises.
Qed.

(** A body that does not run out of fuel is not cut short by its handler. *)
Lemma guarded_ends body w :
  snd (body w) <> Ok None -> snd (guarded dump env o body w) <> Ok None.
Proof.
  unfold guarded. destruct (body w) as [w1 [[[]|]|e]]; cbn; try done. intros _.
  unfold mbind, io_bind. by destruct (fail_chain dump env _ _ _ w1) as [w2 [u|e']].
Qed.

Lemma run_concluded fuel query w w' r :
  ready w -> run dump env o fuel query w = (w', r) -> ready w' /\ concluded r w'.
Proof.
  intros Hr. unfold run, mbind, io_bind. destruct (transition dump env _ _ w) as [w1 [u|e]] eqn:E;
    destruct (hoare_transition_any dump parse Hparse env (fun _ => True) _ _ w w1 _ Hr I E) as [Hr1 _].
  - intros H. by apply (guarded_spec (run_body dump env o fuel query) w1); [apply hoare_body | done | done].
  - intros [= <- <-]. split; [done|]. by eapply transition_raises.
Qed.

Lemma body_ends query w :
  N -> ready w -> exists fuel, snd (run_body dump env o fuel query w) <> Ok None.
Proof.
  intros Hn Hr. unfold run_body, mbind, io_bind.
  destruct (preflight dump env o w) as [w1 [[order|]|e]] eqn:E;
    destruct (hoare_preflight _ w w1 _ Hr (any_bounded w) E) as [Hr1 _]; [|by exists 0%nat..].
  by apply finish_ends; [apply run_steps_well|..].
Qed.

Lemma body_fuel fuel fuel' query w :
  (fuel <= fuel')%nat -> snd (run_body dump env o fuel query w) <> Ok None ->
  run_body dump env o fuel' query w = run_body dump env o fuel query w.
Proof.
  intros Hf. unfold run_body, mbind, io_bind. destruct (preflight dump env o w) as [w1 [[order|]|e]]; try done.
  by apply finish_fuel.
Qed.

Lemma run_ends_core query w :
  N -> ready w ->
  exists fuel w' r, (forall fuel', (fuel <= fuel')%nat -> run dump env o fuel' query w = (w', r)) /\
    r <> Ok None /\ concluded r w'.
Proof.
  intros Hn Hr. unfold run, mbind, io_bind. destruct (transition dump env _ _ w) as [w1 [u|e]] eqn:E;
    destruct (hoare_transition_any dump parse Hparse env (fun _ => True) _ _ w w1 _ Hr I E) as [Hr1 _].
  - destruct (body_ends query w1 Hn Hr1) as [fuel Hf].
    destruct (guarded dump env o (run_body dump env o fuel query) w1) as [w2 r] eqn:Eg.
    exists fuel, w2, r. split_and!.
    + intros fuel' Hle. rewrite <- Eg. unfold guarded. by rewrite (body_fuel fuel fuel') by done.
    + pose proof (guarded_ends _ _ Hf) as H. by rewrite Eg in H.
    + by apply (guarded_spec _ _ _ _ (hoare_body fuel query) Hr1 Eg).
  - exists 0%nat, w1, (Err e). split_and!; [done | done|]. by eapply transition_raises.
Qed.

(** *** A resumed run *)

Lemma quiet_resume_schema node_id out schema : keeps quiet (resume_schema env o node_id out schema).
Proof. unfold resume_schema. stroll fail. Qed.

Lemma hoare_resume_output P node_id node r e :
  stable P -> hoare P (resume_output dump env o node_id node r e) (ends_or negb P).
Proof.
  intros HP. unfold resume_output.
  eapply hoare_bind; [apply (stable_quiet _ _ HP), quiet_resume_schema|]. intros u. cbn beta.
  eapply hoare_bind; [apply (stable_quiet _ _ HP); stroll fail|]. intros stp. cbn beta.
  eapply hoare_bind; [apply (stable_commit _ HP), completion_gentle|]. intros u'. by apply hoare_account.
Qed.

Lemma hoare_resume_step completed m c node_id :
  c_order c !! c_idx c = Some node_id ->
  hoare (bounded m) (resume_step dump env o completed c node_id) (step_post m c).
Proof.
  intros Hc. assert (Hn : is_Some (c_order c !! c_idx c)) by eauto. pose proof (bounded_stable m) as HP.
  unfold resume_step. destruct (dget node_id (o_nodes o)) as [node|]; [|by apply stop_here].
  eapply hoare_bind; [apply bounded_quiet; stroll fail|]. intros stp. cbn beta.
  eapply hoare_bind; [apply bounded_quiet; stroll fail|]. intros outs. cbn beta.
  apply hoare_case; intros _.
  { apply hoare_ret. intros w Hw _. right. split; [exact Hw|]. apply lookup_lt_is_Some in Hn. unfold ahead. cbn. lia. }
  eapply hoare_bind; [apply bounded_quiet, quiet_allocate|]. intros stp'. cbn beta.
  eapply hoare_bind; [by apply hoare_set_self_step|]. intros u. cbn beta.
  apply (hoare_ends _ is_none); [by apply hoare_authorize | |]; intros [e|] He; try discriminate; [by apply hoare_ret|].
  apply (hoare_ends _ is_failed); [apply hoare_obtain; [exact HP | apply bounded_resets] | |];
    intros [r|mk|] Ha; try discriminate; [by apply hoare_ret | | by apply hoare_skip].
  apply (hoare_ends _ negb); [by apply hoare_resume_output | |]; intros ok Hok; rewrite Hok; [by apply hoare_ret|].
  apply hoare_or_else; [by apply hoare_fan_out | by apply hoare_advance].
Qed.

(** Nothing but that tables and trace stay in order. *)
Definition anyhow w : Prop := True.

Lemma anyhow_stable : stable anyhow.
Proof. done. Qed.

Lemma hoare_resume_revision c P : stable P -> hoare P (resume_revision dump env o c) (fun _ => P).
Proof.
  intros HP.  unfold resume_revision. eapply hoare_bind; [apply (stable_quiet _ _ HP); stroll fail|]. intros s. cbn beta.
  destruct (context_get _ _); try by apply hoare_ret. apply hoare_case; intros _; [|by apply hoare_ret].
  eapply hoare_bind; [by apply (stable_commit _ HP)|]. intros u. by apply hoare_ret.
Qed.

Lemma hoare_resume_loop_back c P : stable P -> hoare P (resume_loop_back dump env o c) (fun _ => P).
Proof.
  intros HP.  unfold resume_loop_back. eapply hoare_bind; [apply (stable_quiet _ _ HP); stroll fail|]. intros s. cbn beta.
  destruct (context_get "pending_loop_back" _) as [| | | | | |[|kv p]]; try by apply hoare_ret.
  eapply hoare_bind; [by apply (stable_commit _ HP)|]. intros u.
  repeat case_goal; by apply hoare_ret.
Qed.

Lemma hoare_resume_branches c P : stable P -> hoare P (resume_branches o c) (fun _ => P).
Proof.
  intros HP.  unfold resume_branches. eapply hoare_bind; [apply (stable_quiet _ _ HP); stroll fail|]. intros s. cbn beta.
  destruct (last _); [|by apply hoare_ret]. destruct (ChainState.branch_outputs s); [|by apply hoare_ret].
  destruct (get_branches_from _ _) as [|bd bds]; [by apply hoare_ret|].
  eapply hoare_bind; [apply (stable_moves _ _ HP), branches_move|]. intros [p'|]; by apply hoare_ret.
Qed.

Definition stopped_by_review (P : World Json X -> Prop) (go : bool) w : Prop :=
  if go then P w else failed_now parse w.

Lemma hoare_on_review {A} P (m : ReviewManager.io (Json := Json) A) :
  stable P -> rv_safe m -> (forall s0 s tr st logs w, P w ->
    P (mkWorld s st tr (w_final_status w) (dset s0 logs (w_logs w)) (w_step w) (w_next w) (w_read_allows w)
         (w_retries w) (w_draws w) (w_ext w))) ->
  hoare P (@on_review Json X A m) (fun _ => P).
Proof.
  intros HP Hm Hs w w' r Hr Hp. unfold on_review, act.
  destruct (m _) as [v' res] eqn:E. apply Hm in E; [|exact Hr]. intros [= <- <-]. split; [exact E|].
  intros a _. by apply Hs.
Qed.

(** An assertion that does not look at the run's state. *)
Definition stateless (P : World Json X -> Prop) : Prop :=
  forall s0 s tr st logs w, P w ->
    P (mkWorld s st tr (w_final_status w) (dset s0 logs (w_logs w)) (w_step w) (w_next w) (w_read_allows w)
         (w_retries w) (w_draws w) (w_ext w)).

Lemma hoare_resume_review P :
  stable P -> stateless P -> hoare P (resume_waiting_for_review dump env o) (stopped_by_review P).
Proof.
  intros HP Hs. unfold resume_waiting_for_review.
  do 2 (eapply hoare_bind; [apply (stable_quiet _ _ HP); stroll fail|]; intros ?; cbn beta).
  eapply hoare_bind; [apply hoare_on_review; [exact HP | by apply (resolved dump parse Hparse) | exact Hs]|].
  intros [d|e]; [|destruct e; apply hoare_raise]. cbn beta.
  assert (Hfail : forall (P' : World Json X -> Prop) reason details md,
    hoare P' (_ ← fail_chain dump env reason details md; mret false) (stopped_by_review P)).
  { intros P' reason details md. apply (hoare_fail_ret dump parse Hparse). by intros w H. }
  apply hoare_case; intros _; [apply Hfail|].
  destruct (resolve_execution_order _ _); [|apply hoare_raise].
  eapply hoare_bind; [apply (stable_quiet _ _ HP); stroll fail|]. intros s. cbn beta.
  apply hoare_case; intros _.
  - apply (hoare_bind _ (fun _ => anyhow)).
    { intros w w' r Hr _ [= <- <-]. split; [by apply quiet_new_trace_ready | done]. }
    intros u. apply (hoare_bind _ (fun _ => anyhow)); [|intros u'; apply Hfail].
    eapply hoare_post; [apply (hoare_transition_any dump parse Hparse)|]. done.
  - apply (hoare_bind _ (fun _ => P)); [|intros u; by apply hoare_ret].
    intros w w' r Hr Hp H. destruct (lifecycle_spec dump parse Hparse env _ _ w w' r Hr H) as (Hm & _).
    split; [by apply Hm|]. intros x _. by eapply HP.
Qed.

Lemma resume_steps_well completed : steps_well (resume_step dump env o completed).
Proof. intros m c n Hc. by apply hoare_resume_step. Qed.


Lemma hoare_resume_body fuel completed :
  hoare anyhow (resume_body dump env o fuel completed) (fun x w => x = Some tt -> finished w).
Proof.
  unfold resume_body. eapply hoare_bind; [apply hoare_true, quiet_contracts|]. intros issues.
  destruct issues as [|i l].
  2: { apply (hoare_fail_ret dump parse Hparse). intros w H _. left. by apply failed_ended. }
  destruct (resolve_execution_order _ _); [|apply hoare_raise].
  do 2 (eapply hoare_bind; [apply hoare_true; stroll fail|]; intros ?).
  eapply hoare_bind; [eapply hoare_pre; [apply (hoare_resume_revision _ _ anyhow_stable) | done]|]. intros c.
  eapply hoare_bind; [apply (hoare_resume_loop_back _ _ anyhow_stable)|]. intros c'.
  eapply hoare_bind; [apply (hoare_resume_branches _ _ anyhow_stable)|]. intros c''.
  apply hoare_finish, resume_steps_well.
Qed.

Lemma hoare_verify_integrity P : stable P -> hoare P (verify_resume_integrity env o) (fun _ => P).
Proof.
  intros HP. apply (stable_quiet _ _ HP). unfold verify_resume_integrity. stroll fail.
Qed.

Lemma hoare_same (P : World Json X -> Prop) (f : World Json X -> World Json X) :
  (forall w, ready w -> ready (f w)) -> hoare P (modify f) (fun _ => anyhow).
Proof. intros Hf w w' r Hr _ [= <- <-]. split; [by apply Hf | done]. Qed.

Lemma hoare_guarded body :
  hoare anyhow body (fun x w => x = Some tt -> finished w) ->
  hoare anyhow (guarded dump env o body) (fun x w => concluded (Ok x) w).
Proof.
  intros Hb w w' r Hr _ H. destruct (guarded_spec body w w' r Hb Hr H) as [H1 H2].
  split; [done|]. by intros a ->.
Qed.

(** A resumed run that returns ends like a run. *)
Lemma hoare_resume fuel rid :
  hoare anyhow (resume dump env o parse fuel rid) (fun x w => concluded (Ok x) w).
Proof.
  assert (Hstop : forall (P : World Json X -> Prop) reason details md,
    hoare P (_ ← fail_chain dump env reason details md; mret (Some tt)) (fun x w => concluded (Ok x) w)).
  { intros P reason details md. apply (hoare_fail_ret dump parse Hparse). intros w Hw.
    split; [left; by apply failed_ended|]. destruct Hw as (_ & -> & _ & ->). done. }
  unfold resume. eapply hoare_bind; [apply hoare_true; stroll fail|]. intros [rc|]; [|apply hoare_raise].
  eapply hoare_bind; [by apply hoare_same|]. intros u. cbn beta.
  eapply hoare_bind; [by apply (stable_commit _ anyhow_stable)|]. intros u'. cbn beta.
  eapply hoare_bind; [by apply hoare_same|]. intros u''. cbn beta.
  eapply hoare_bind; [apply (hoare_verify_integrity _ anyhow_stable)|]. intros ok. cbn beta.
  apply hoare_case; intros _; [apply Hstop|].
  eapply hoare_bind; [apply hoare_same, quiet_new_trace_ready|]. intros u1. cbn beta.
  do 2 (eapply hoare_bind; [apply (stable_quiet _ _ anyhow_stable); stroll fail|]; intros ?; cbn beta).
  eapply hoare_bind; [apply (stable_quiet _ _ anyhow_stable), (reconcile_quiet (parse := parse))|]. intros u2. cbn beta.
  apply (hoare_bind _ (stopped_by_review anyhow)).
  { apply hoare_case; intros _; [by apply hoare_resume_review|]. by apply hoare_ret. }
  intros go. destruct go; cbn [negb].
  - eapply hoare_pre; [apply hoare_guarded, hoare_resume_body | done].
  - apply hoare_ret. intros w Hw. split; [left; by apply failed_ended|].
    destruct Hw as (_ & -> & _ & ->). done.
Qed.

(** *** Enough fuel *)

(** Some fuel is enough, and more changes nothing. *)
Definition converges (F : nat -> io Json X (option unit)) w : Prop :=
  exists fuel, snd (F fuel w) <> Ok None /\ forall fuel', (fuel <= fuel')%nat -> F fuel' w = F fuel w.

Lemma converges_bind {A} (p : io Json X A) (f : A -> nat -> io Json X (option unit)) R w :
  ready w -> hoare anyhow p R -> (forall a w, ready w -> R a w -> converges (f a) w) ->
  converges (fun n => p ≫= fun a => f a n) w.
Proof.
  intros Hr Hp Hf. unfold converges, mbind, io_bind. destruct (p w) as [w1 [a|e]] eqn:E.
  - destruct (Hp w w1 _ Hr I E) as [Hr1 H1]. by apply Hf; [|apply H1].
  - by exists 0%nat.
Qed.

Lemma converges_const (p : io Json X (option unit)) w : snd (p w) <> Ok None -> converges (fun _ => p) w.
Proof. intros H. by exists 0%nat. Qed.

Lemma converges_finish step c w :
  steps_well step -> N -> ready w -> converges (fun n => finish_loop dump env step n c) w.
Proof.
  intros Hs Hn Hr. destruct (finish_ends step c w Hs Hn Hr) as [fuel Hf]. exists fuel. split; [done|].
  intros fuel' Hle. by apply finish_fuel.
Qed.

Lemma converges_guarded body w : converges body w -> converges (fun n => guarded dump env o (body n)) w.
Proof.
  intros (fuel & Hf & Hm). exists fuel. split; [by apply guarded_ends|].
  intros fuel' Hle. unfold guarded. by rewrite (Hm fuel' Hle).
Qed.

Lemma fail_stops {A} reason details md (a : A) w :
  snd ((_ ← fail_chain dump env reason details md; mret (Some a)) w) <> Ok None.
Proof. unfold mbind, io_bind. by destruct (fail_chain dump env reason details md w) as [w1 [u|e]]. Qed.

Lemma converges_resume_body completed w :
  N -> ready w -> converges (fun n => resume_body dump env o n completed) w.
Proof.
  intros Hn Hr. unfold resume_body.
  eapply converges_bind; [done | apply hoare_true, quiet_contracts|]. clear w Hr. intros issues w Hr _.
  destruct issues as [|i l]; [|by apply converges_const, fail_stops].
  destruct (resolve_execution_order _ _); [|by apply converges_const].
  do 2 (eapply converges_bind; [done | apply hoare_true; stroll fail|]; clear w Hr; intros ? w Hr _).
  eapply converges_bind; [done | apply (hoare_resume_revision _ _ anyhow_stable)|]. clear w Hr. intros c w Hr _.
  eapply converges_bind; [done | apply (hoare_resume_loop_back _ _ anyhow_stable)|]. clear w Hr. intros c' w Hr _.
  eapply converges_bind; [done | apply (hoare_resume_branches _ _ anyhow_stable)|]. clear w Hr. intros c'' w Hr _.
  by apply converges_finish; [apply resume_steps_well|..].
Qed.

Lemma converges_resume rid w : N -> ready w -> converges (fun n => resume dump env o parse n rid) w.
Proof.
  intros Hn Hr. unfold resume.
  eapply converges_bind; [done | apply hoare_true; stroll fail|]. clear w Hr. intros [rc|] w Hr _; [|by apply converges_const].
  eapply converges_bind; [done | by apply hoare_same|]. clear w Hr. intros u w Hr _.
  eapply converges_bind; [done | by apply (stable_commit _ anyhow_stable)|]. clear w Hr. intros u' w Hr _.
  eapply converges_bind; [done | by apply hoare_same|]. clear w Hr. intros u'' w Hr _.
  eapply converges_bind; [done | apply (hoare_verify_integrity _ anyhow_stable)|]. clear w Hr. intros ok w Hr _.
  destruct ok; cbn [negb]; [|by apply converges_const, fail_stops].
  eapply converges_bind; [done | apply hoare_same, quiet_new_trace_ready|]. clear w Hr. intros u1 w Hr _.
  do 2 (eapply converges_bind; [done | apply (stable_quiet _ _ anyhow_stable); stroll fail|];
        clear w Hr; intros ? w Hr _).
  eapply converges_bind; [done | apply (stable_quiet _ _ anyhow_stable), (reconcile_quiet (parse := parse))|].
  clear w Hr. intros u2 w Hr _.
  apply (converges_bind _ _ (stopped_by_review anyhow)); [done | |].
  { apply hoare_case; intros _; [by apply hoare_resume_review|]. by apply hoare_ret. }
  clear w Hr. intros go w Hr _. destruct go; cbn [negb]; [|by apply converges_const].
  by apply converges_guarded, converges_resume_body.
Qed.
End Steps.

(** ** How a run ends *)

Section Runs.
Context {Json X : Type} (dump : ChainState -> Json) (parse : Json -> option ChainState).
Context (Hparse : forall x, parse (dump x) = Some x).
Context (env : Environment) (o : Setup Json X).
Context `{!NodeServices Json X} `{!ServiceLaws parse}.
Implicit Types (w : World Json X).

(** C1: Whatever a node, a reviewer or a service does, a run that returns
    leaves the chain as the database has it: completed, failed or paused, with
    the event that says so the last one of the journal when it completed or
    failed, and the trace finalized with that status; and only a transaction
    that the database refuses can leave the run as an exception. *)
Theorem run_settles fuel query w w' r :
  ready w -> run dump env o fuel query w = (w', r) -> concluded parse r w'.
Proof.
  intros Hr H.
  by destruct (run_concluded dump parse Hparse env o (never_revises o) (fun H => H) fuel query w w' r Hr H).
Qed.

(** C3: Every run whose reviewer never asks for a revision comes to an end:
    there is a fuel from which on the loop stops, always in the same world and
    with the same result - the chain stored as completed, failed or paused
    when the run returns, and otherwise the exception of a transaction that the
    database refused. *)
Theorem run_ends query w :
  never_revises o -> ready w ->
  exists fuel w' r, (forall fuel', (fuel <= fuel')%nat -> run dump env o fuel' query w = (w', r)) /\
    r <> Ok None /\ concluded parse r w'.
Proof. by apply (run_ends_core dump parse Hparse env o (never_revises o) (fun H => H)). Qed.

(** C4: A resumption ends like a run, and always: nothing in it goes back, so
    some fuel is enough without any assumption on the reviewer. *)
Theorem resume_settles rid w :
  ready w ->
  exists fuel w' r, (forall fuel', (fuel <= fuel')%nat -> resume dump env o parse fuel' rid w = (w', r)) /\
    r <> Ok None /\ ready w' /\ forall a, r = Ok a -> concluded parse (Ok a) w'.
Proof.
  intros Hr. destruct (converges_resume dump parse Hparse env o True rid w I Hr) as (fuel & Hf & Hm).
  destruct (resume dump env o parse fuel rid w) as [w' r] eqn:E.
  destruct (hoare_resume dump parse Hparse env o True fuel rid w w' r Hr I E) as [H1 H2].
  exists fuel, w', r. split_and!; [exact Hm | exact Hf | exact H1 | exact H2].
Qed.
End Runs.
