(* ===== verification/OrchestratorSafety.v ===== *)
(** * What a run keeps from its nodes

    A node runs only after a verdict that allows it, with the grants and the
    context its contract and its decisions give; a resumption invokes no node
    whose completion the saved run records. *)
From S2P Require Import Prelude PyFloat PyValue Sql Contract Blueprint Policy Envelope PolicyGate ChainState StateStore.
From S2P Require Import LoopEnforcer Scheduler Persistence BudgetApproval ReviewWorkbench ReviewManager Trace Runtime GateController.
From S2P Require Import Orchestrator OrchestratorRun.
From S2P Require FailureManager Preflight InvariantEngine DecisionLog RecoveryService.

(** The services with other nodes behind them. *)
Definition with_execute {Json X} `{!NodeServices Json X}
  (f : RuntimeNode -> InvocationEnvelope -> io Json X (EnvelopeResponse * Z)) : NodeServices Json X :=
  {| execute := f; journal_planned := journal_planned; detail_events := detail_events;
     complete_reported := complete_reported; run_semantic := run_semantic;
     execute_branches := execute_branches; reconcile_effects := reconcile_effects |}.

Section Authorization.
Context {Json X : Type} (dump : ChainState -> Json) (env : Environment) (o : Setup Json X).
Context `{!NodeServices Json X}.
Implicit Types (w : World Json X).

(** The world of a node that is about to run. *)
Definition at_turn w w1 : Prop :=
  w_state w1 = w_state w /\ w_step w1 = w_next w + 1.

(** The grants of an envelope: tools are configured, and declared if the
    contract declares any tool; adapters are configured and declared. *)
Definition grants_within (nd : NodeDef) (node : RuntimeNode) (e : InvocationEnvelope) : Prop :=
  (forall t, t ∈ allowed_tools (capabilities e) ->
     t ∈ names_at "allowed_tools" (node_config nd) /\
     (tools_required (requirements (rn_contract node)) <> [] ->
      t ∈ tools_required (requirements (rn_contract node)))) /\
  (forall a, a ∈ allowed_adapters (capabilities e) ->
     a ∈ names_at "allowed_adapters" (node_config nd) /\
     a ∈ adapters_required (requirements (rn_contract node))).

(** The context of an envelope: without a decision that allows the read it
    shows no session memory and no output that derives from memory. *)
Definition context_within (node_id : string) w (e : InvocationEnvelope) : Prop :=
  match read_allow (w_step w) node_id w with
  | Some d => memory_read_decision_id (env_context e) = d
  | None =>
      memory_read_decision_id (env_context e) = "" /\ session_memory (env_context e) = [] /\
      forall outs k, dget "outputs" (Envelope.chain_state (env_context e)) = Some (VDict outs) ->
        k ∈ o_memory_derived o -> dget k outs = None
  end.

Context (Hset : forall l x, x ∈ o_list_of_set o l -> x ∈ l).

Lemma granted_within (declared configured : list string) t :
  t ∈ (if nonempty declared
       then o_list_of_set o (List.filter (fun t => mem t declared) (py_set configured))
       else o_list_of_set o (py_set configured)) ->
  t ∈ configured /\ (declared <> [] -> t ∈ declared).
Proof.
  destruct declared as [|d ds]; cbn [nonempty]; intros Ht%Hset.
  - split; [by rewrite elem_of_py_set in Ht | done].
  - apply elem_of_lfilter in Ht as [H2 H1]. rewrite elem_of_py_set in H1. split; [done|]. intros _.
    by apply mem_true.
Qed.

Lemma adapters_within (declared configured : list string) a :
  a ∈ (if nonempty declared
       then o_list_of_set o (List.filter (fun t => mem t declared) (py_set configured)) else []) ->
  a ∈ configured /\ a ∈ declared.
Proof.
  destruct declared as [|d ds]; cbn [nonempty]; [by intros ?%elem_of_nil|].
  intros [H2 H1]%Hset%elem_of_lfilter. rewrite elem_of_py_set in H1. split; [done | by apply mem_true].
Qed.

Lemma capabilities_within node_id nd node w e caps :
  get_node (o_blueprint o) node_id = Some nd -> dget node_id (o_nodes o) = Some node ->
  build_capabilities o w node_id = Some caps -> capabilities e = caps -> grants_within nd node e.
Proof.
  intros Hnd Hnode. unfold build_capabilities. rewrite Hnd, Hnode. cbn [option_map]. intros [= <-] He.
  unfold grants_within. rewrite He. cbn [allowed_tools allowed_adapters]. split.
  - intros t. apply granted_within.
  - intros a. apply adapters_within.
Qed.

Lemma dget_lfilter k (p : string * pyval -> bool) (d : pyctx) :
  (forall v, p (k, v) = false) -> dget k (List.filter p d) = None.
Proof.
  intros Hp. apply dget_None. unfold dkeys. intros Hin. apply list_elem_of_fmap in Hin as ([k' v] & -> & Hin).
  apply elem_of_lfilter in Hin as [H _]. cbn in *. by rewrite Hp in H.
Qed.

Lemma context_is_within node_id w e :
  env_context e = context_of o node_id w -> context_within node_id w e.
Proof.
  intros He. unfold context_within. rewrite He. unfold context_of. destruct (read_allow _ _ _) as [d|]; [done|].
  split_and!; [done | done|]. cbn. intros outs k [= <-] Hk. apply dget_lfilter. intros v. cbn.
  apply mem_true in Hk. by rewrite Hk.
Qed.

(** *** The way to the invocation *)

Lemma quiet_turn w w1 w2 : at_turn w w1 -> quiet w1 w2 -> at_turn w w2.
Proof. intros [H1 H2] (H3 & [H4 _] & _). split; congruence. Qed.

Lemma guard_quiet node_id w w' : loop_guard dump env o node_id w = (w', Ok true) -> quiet w w'.
Proof.
  unfold loop_guard. unfold mbind at 1, io_bind at 1, gets at 1.
  destruct (check_loop_exhaustion _ _ _).
  { unfold mbind, io_bind. destruct (fail_chain _ _ _ _ _ w) as [w1 [u|x]]; discriminate. }
  unfold mbind at 1, io_bind at 1, gets at 1. unfold mbind at 1, io_bind at 1, or_raise.
  destruct (check_loop_entry _ _ _ _ _) as [[r|]|x]; [| by intros [= <-] |discriminate].
  cbn [mret io_ret]. unfold mbind at 1, io_bind at 1.
  match goal with |- context [?m w] => assert (Hq : keeps quiet m) by stroll fail; destruct (m w) as [w1 [u|x]] eqn:E end;
    [|discriminate].
  apply Hq in E. destruct (LoopEnforcer.allowed r); [by intros [= <-]|].
  unfold mbind, io_bind. destruct (emit _ _ w1) as [w2 [u2|x]]; [|discriminate].
  destruct (fail_chain _ _ _ _ _ w2) as [w3 [u3|x]]; discriminate.
Qed.

(** What the envelope of a node says. *)
Definition envelope_for (c : Cursor) (node_id : string) w (e : InvocationEnvelope) : Prop :=
  env_run_id e = run_id (w_state w) /\ env_chain_id e = ChainState.chain_id (w_state w) /\
  env_node_id e = node_id /\ env_step_id e = w_next w + 1 /\ Envelope.payload e = c_payload c.

Lemma prepared node_id pl w w' e :
  prepare env o node_id pl w = (w', Ok e) ->
  exists wc wp, quiet w wc /\ quiet w wp /\ env_context e = context_of o node_id wc /\
    capabilities e = default default_capabilities (build_capabilities o wp node_id) /\
    env_run_id e = run_id (w_state w) /\ env_chain_id e = ChainState.chain_id (w_state w) /\
    env_node_id e = node_id /\ env_step_id e = w_step w /\ Envelope.payload e = pl.
Proof.
  unfold prepare. unfold mbind at 1, io_bind at 1. destruct (build_context env o node_id w) as [w1 [ctx|x]] eqn:Ec;
    [|discriminate].
  assert (Hctx : ctx = context_of o node_id w).
  { unfold build_context, mbind, io_bind, gets in Ec. cbn in Ec.
    destruct (read_allow (w_step w) node_id w) as [d|]; [destruct (_ || _); [destruct (emit env _ w) as [w2 [u|x]]|]|];
      try discriminate; by injection Ec as _ <-. }
  apply quiet_context in Ec as Hq. unfold mbind, io_bind, gets, draw, or_raise, compile_envelope. cbn.
  destruct (1 <=? w_step w1); cbn; [|discriminate]. intros [= _ <-]. cbn.
  exists w, w1. pose proof Hq as (H1 & [H2 _] & _). split_and!; try done; try congruence.
Qed.

(** The verdict on a node at its turn. *)
Definition allowed_at node_id (node : RuntimeNode) w : Prop :=
  exists wg r, at_turn w wg /\
    verdict (o_engine o) (build_capabilities o) (o_py_sum o) (o_list_of_set o) node_id node wg = Ok r /\
    PolicyGate.allowed r = true.

(** *** Nothing else is invoked *)

Abbreviation with_nodes f := (with_execute f) (only parsing).

Lemma invoke_as f node e : f node e = execute node e ->
  invoke_node env (NodeServices0 := with_nodes f) node e = invoke_node env node e.
Proof. intros H. unfold invoke_node. cbn. by rewrite H. Qed.

Lemma handle_as ft e (inv inv' : InvocationEnvelope -> io Json X EnvelopeResponse) w :
  (forall x, FailureManager.retry_of e x -> inv' x = inv x) ->
  handle_failure env o ft (env_node_id e) e inv' w = handle_failure env o ft (env_node_id e) e inv w.
Proof.
  intros H. unfold handle_failure, mbind, io_bind, draw, gets, modify. cbn.
  set (probe := FailureManager.handle _ _ _ _ _ _ _ _ _).
  pose proof (FailureManager.invoked_retry (w_next w + 1) (fun _ => None) (fresh_id env (w_draws w))
    (o_seconds o (w_draws w)) ft (w_retries w) e 0) as Hinv. fold probe in Hinv.
  destruct (FailureManager.o_invoked probe) as [|retry l]; [done|].
  by rewrite (H retry) by (apply Hinv; left).
Qed.

Lemma obtain_as f node e w :
  f node e = execute node e -> (forall x, FailureManager.retry_of e x -> f node x = execute node x) ->
  obtain dump env o (NodeServices0 := with_nodes f) false (env_node_id e) node e w =
  obtain dump env o false (env_node_id e) node e w.
Proof.
  intros He Hr. unfold obtain. rewrite invoke_as by done. unfold mbind, io_bind.
  destruct (invoke_node env node e w) as [w1 [r|x]]; [|done]. destruct (success r); [done|].
  unfold gets. cbn. unfold recover, mbind, io_bind.
  rewrite (handle_as _ _ (invoke_retry env (env_node_id e) node (or_text "FailureType.UNKNOWN" (resp_error r))
         (last_failure_event (env_node_id e) (w_trace w1)) (retry_digest (env_node_id e) (w_trace w1)))); [done|].
  intros x Hx. unfold invoke_retry. by rewrite invoke_as by by apply Hr.
Qed.

(** C2: No node runs unauthorized.  At its turn either the gate allowed the
    node in the state and step of that turn, and the node is invoked with one
    envelope: of this run, node and step, with the payload of the cursor, with
    grants within its configuration - its adapters, and its tools when the
    contract declares any, also within that contract - and with a context
    within its read decision.  In that case this node on this envelope, or,
    after it failed, on a retry of it that has no grants and no more context,
    is the only invocation of the turn outside the branches of a fan-out.  The
    gate is consulted once: such a retry is not checked again.  Or the step
    ends, the same whatever the nodes do: none of them is invoked. *)
Theorem nodes_run_authorized c node_id nd node w w1 res :
  dget node_id (o_nodes o) = Some node -> get_node (o_blueprint o) node_id = Some nd ->
  clear_node dump env o c node_id node w = (w1, res) ->
  match res with
  | Ok (Some e) =>
      allowed_at node_id node w /\ envelope_for c node_id w e /\ grants_within nd node e /\
      (exists wc, at_turn w wc /\ context_within node_id wc e) /\
      (forall f, f node e = execute node e -> (forall x, FailureManager.retry_of e x -> f node x = execute node x) ->
         run_step dump env o (NodeServices0 := with_execute f) c node_id w = run_step dump env o c node_id w)
  | Ok None => forall f, run_step dump env o (NodeServices0 := with_execute f) c node_id w = (w1, Ok Stop)
  | Err x => forall f, run_step dump env o (NodeServices0 := with_execute f) c node_id w = (w1, Err x)
  end.
Proof.
  intros Hnode Hnd H.
  assert (Hrest : forall f, clear_node dump env o (NodeServices0 := with_execute f) c node_id node w = (w1, res))
    by (intros f; exact H).
  destruct res as [[e|]|x].
  2-3: intros f; unfold run_step; rewrite Hnode; unfold mbind, io_bind; by rewrite (Hrest f).
  assert (Honly : env_node_id e = node_id -> forall f, f node e = execute node e ->
    (forall x, FailureManager.retry_of e x -> f node x = execute node x) ->
    run_step dump env o (NodeServices0 := with_execute f) c node_id w = run_step dump env o c node_id w).
  { intros Hid f He Hr. unfold run_step. rewrite Hnode. unfold mbind, io_bind. rewrite (Hrest f), H, <- Hid.
    by rewrite obtain_as. }
  clear Hrest. unfold clear_node in H. unfold mbind at 1, io_bind at 1 in H.
  destruct (allocate_step w) as [wa [stp|x]] eqn:Ea; [|discriminate]. injection Ea as <- <-.
  unfold mbind at 1, io_bind at 1, set_self_step at 1, modify at 1 in H. cbn [w_next set_steps] in H.
  set (w0 := set_steps (w_next w + 1) _ _) in H.
  assert (H0 : at_turn w w0) by done. clearbody w0.
  unfold mbind at 1, io_bind at 1 in H. destruct (loop_guard dump env o node_id w0) as [w2 [[]|x]] eqn:Eg;
    [|discriminate..]. apply guard_quiet in Eg. cbn [negb] in H.
  unfold mbind at 1, io_bind at 1 in H. destruct (emit_contract_validated env node_id node w2) as [w3 [u|x]] eqn:Ev;
    [|discriminate]. apply quiet_validated in Ev.
  assert (H3 : at_turn w w3) by (eapply quiet_turn; [|exact Ev]; eapply quiet_turn; [exact H0 | exact Eg]).
  clear H0 Eg Ev w0 w2. unfold authorize in H. unfold mbind at 1, io_bind at 1 in H.
  destruct (check_policy_gate env o node_id node w3) as [w4 [denied|x]] eqn:Eck; [|discriminate].
  destruct (truthy denied) eqn:Ed.
  { unfold mbind, io_bind in H. destruct (fail_chain _ _ _ _ _ w4) as [w5 [u'|x]]; discriminate. }
  assert (Hallow : allowed_at node_id node w).
  { unfold check_policy_gate, mbind, io_bind, gets in Eck. apply check_allows in Eck; [|done].
    destruct Eck as (r & Hr & Har). by exists w3, r. }
  apply quiet_gate in Eck. assert (H4 : at_turn w w4) by by eapply quiet_turn.
  unfold mbind at 1, io_bind at 1 in H. destruct (prepare env o node_id (c_payload c) w4) as [w5 [e'|x]] eqn:Ep;
    [|discriminate].
  unfold mbind at 1, io_bind at 1 in H. destruct (journal_planned node_id e' w5) as [w6 [[]|x]]; [| |discriminate].
  2: { unfold mbind, io_bind in H. destruct (fail_chain _ _ _ _ _ w6) as [w7 [u'|x]]; discriminate. }
  injection H as _ ->. apply prepared in Ep as (wc & wp & Hc & Hp & Hctx & Hcaps & E1 & E2 & E3 & E4 & E5).
  pose proof H4 as [G1 G2]. split_and!; [done | | | |by apply Honly].
  - unfold envelope_for. rewrite E1, E2, E3, E4, E5, G1, G2. done.
  - destruct (build_capabilities o wp node_id) as [caps|] eqn:Eb.
    + by eapply capabilities_within.
    + unfold build_capabilities in Eb. by rewrite Hnd in Eb.
  - exists wc. split; [by eapply quiet_turn | by apply context_is_within].
Qed.

(** A node whose contract declares no tool gets every configured one. *)
Theorem undeclared_tools_granted w node_id nd node t :
  (forall l x, x ∈ l -> x ∈ o_list_of_set o l) ->
  dget node_id (o_nodes o) = Some node -> get_node (o_blueprint o) node_id = Some nd ->
  tools_required (requirements (rn_contract node)) = [] -> t ∈ names_at "allowed_tools" (node_config nd) ->
  exists caps, build_capabilities o w node_id = Some caps /\ t ∈ allowed_tools caps.
Proof.
  intros Hl Hnode Hnd Hreq Ht. unfold build_capabilities. rewrite Hnd, Hnode. cbn [option_map]. rewrite Hreq.
  eexists. split; [reflexivity|]. cbn. by apply Hl, elem_of_py_set.
Qed.
End Authorization.

(** ** Completed nodes *)

Section Skips.
Context {Json X : Type} (dump : ChainState -> Json) (parse : Json -> option ChainState).
Context (Hparse : forall x, parse (dump x) = Some x).
Context (env : Environment) (o : Setup Json X).
Context `{!NodeServices Json X} `{!ServiceLaws parse}.
(** A response carries the step of its envelope. *)
Context (Hresponse : forall n e w w' r t, execute n e w = (w', Ok (r, t)) -> resp_step_id r = env_step_id e).
Implicit Types (w : World Json X).

(** The step of the loop is past the saved one and the allocator past it. *)
Definition past (s0 : Z) w : Prop := s0 <= w_step w <= w_next w.

Lemma past_stable s0 : stable parse (past s0).
Proof. intros w w' (_ & _ & _ & _ & _ & H1 & H2) H. unfold past in *. rewrite H1. lia. Qed.

Lemma past_stateless s0 : stateless (Json := Json) (X := X) (past s0).
Proof. intros s1 s tr st logs w H. exact H. Qed.

Lemma invoked_step node e w w' r : invoke_node env node e w = (w', Ok r) -> resp_step_id r = env_step_id e.
Proof.
  unfold invoke_node. unfold mbind at 1, io_bind at 1. destruct (emit env _ w) as [w1 [u|x]]; [|discriminate].
  unfold mbind at 1, io_bind at 1. destruct (execute node e w1) as [w2 [[r' t]|x]] eqn:E; [|discriminate].
  apply Hresponse in E. unfold mbind, io_bind.
  destruct (success r'); destruct (emit env _ w2) as [w3 [u'|x]]; try discriminate; by intros [= _ <-].
Qed.

Lemma past_handle s0 ft node_id node e :
  hoare (past s0) (handle_failure env o ft node_id e (invoke_node env node))
    (fun res w => past s0 w /\ forall r, FailureManager.response res = Some r -> s0 <= resp_step_id r <= w_next w).
Proof.
  intros w w' res Hr Hp H.
  assert (Hq : quiet w w').
  { eapply quiet_handle; [|exact H]. intros e'. by apply (quiet_invoke parse). }
  split; [by eapply quiet_ready|]. intros a ->. split; [eapply past_stable; [by apply quiet_moves | done]|].
  intros r Hres. unfold handle_failure, mbind, io_bind, draw, gets, modify in H. cbn in H.
  set (probe := FailureManager.handle _ _ _ _ _ _ _ _ _) in H.
  pose proof (FailureManager.handle_retry (w_next w + 1) (fun _ => None) (fresh_id env (w_draws w))
    (o_seconds o (w_draws w)) ft (w_retries w) node_id e 0) as [Hinv Hnone].
  fold probe in Hinv, Hnone. destruct (FailureManager.o_invoked probe) as [|retry l].
  { unfold or_raise in H. destruct (FailureManager.o_result probe) as [b|x]; [|discriminate].
    injection H as _ <-. by destruct (Hnone b r eq_refl Hres) as (x & _ & [=]). }
  destruct (invoke_node env node retry _) as [w2 [r2|x]] eqn:E2; [|discriminate].
  pose proof (quiet_invoke parse env node retry _ _ _ E2) as (_ & [_ Hnx] & _). cbn in Hnx.
  apply invoked_step in E2. rewrite (proj1 (Hinv retry ltac:(left))) in E2.
  unfold or_raise in H.
  pose proof (FailureManager.handle_retry (w_next w + 1) (fun _ => Some r2) (fresh_id env (w_draws w))
    (o_seconds o (w_draws w)) ft (w_retries w) node_id e 0) as [_ Hsome].
  destruct (FailureManager.o_result _) as [b|x]; [|discriminate]. injection H as <- <-.
  destruct (Hsome b r eq_refl Hres) as (x & _ & [= <-]). rewrite E2. unfold past in Hp. lia.
Qed.

Lemma past_recover s0 node_id node e r :
  hoare (past s0) (recover dump env o false node_id e r (invoke_node env node)) (ends_or parse is_failed (past s0)).
Proof.
  pose proof (past_stable s0) as HP. unfold recover. eapply hoare_bind; [apply past_handle|]. intros res.
  eapply hoare_bind; [apply hoare_gets|]. intros stp. cbn beta.
  apply hoare_case; intros _; [by apply (stop_here dump parse Hparse)|].
  destruct (FailureManager.response res) as [r'|] eqn:Er.
  - apply hoare_case; intros _; [by apply (stop_here dump parse Hparse)|].
    apply (hoare_bind _ (fun _ => past s0)); [|intros u; by apply hoare_ret].
    intros w w' x Hr [[Hp Hres] _] [= <- <-]. split; [exact Hr|]. intros y _. exact (Hres r' eq_refl).
  - apply hoare_case; intros _; [by apply (stop_here dump parse Hparse)|]. apply hoare_ret. intros w [[Hp _] _]. exact Hp.
Qed.

Lemma past_obtain s0 node_id node e :
  hoare (past s0) (obtain dump env o true node_id node e) (ends_or parse is_failed (past s0)).
Proof.
  unfold obtain. eapply hoare_bind.
  { apply (stable_quiet parse _ _ (past_stable s0)). by apply (quiet_invoke parse). }
  intros r. apply hoare_case; intros _; [by apply hoare_ret | apply past_recover].
Qed.

Lemma past_allocate s0 :
  hoare (past s0) (@allocate_step Json X) (fun stp w => past s0 w /\ stp = w_next w).
Proof.
  intros w w' r Hr Hp [= <- <-]. split; [exact Hr|]. intros a [= <-]. unfold past in *. cbn. lia.
Qed.

Lemma past_set_step s0 stp :
  hoare (fun w => past s0 w /\ stp = w_next w) (@set_self_step Json X stp) (fun _ => past s0).
Proof. intros w w' r Hr [Hp ->] [= <- <-]. split; [exact Hr|]. intros a _. unfold past in *. cbn. lia. Qed.

(** A step of a resumption that goes on is still past the saved one. *)
Definition goes_on (P : World Json X -> Prop) (x : next) w : Prop :=
  match x with Go _ => P w | Stop => True end.

Lemma past_fan_out s0 c node_id out :
  hoare (past s0) (fan_out dump env o c node_id out)
    (fun x w => match x with Some x => goes_on (past s0) x w | None => past s0 w end).
Proof.
  pose proof (past_stable s0) as HP. unfold fan_out. destruct (get_branches_from _ _) as [|bd l]; [by apply hoare_ret|].
  eapply hoare_bind; [apply (stable_quiet parse _ _ HP); unfold or_raise; stroll fail|]. intros sel. cbn beta.
  eapply hoare_bind; [apply (stable_moves parse _ _ HP), branches_move|]. intros [m|]; cbn beta.
  - by apply hoare_ret.
  - by apply (stop_here dump parse Hparse).
Qed.

Lemma past_resume_step s0 completed c node_id :
  hoare (past s0) (resume_step dump env o completed c node_id) (goes_on (past s0)).
Proof.
  pose proof (past_stable s0) as HP. unfold resume_step.
  destruct (dget node_id (o_nodes o)) as [node|]; [|by apply (stop_here dump parse Hparse)].
  do 2 (eapply hoare_bind; [apply (stable_quiet parse _ _ HP); stroll fail|]; intros ?; cbn beta).
  apply hoare_case; intros _; [by apply hoare_ret|].
  eapply hoare_bind; [apply past_allocate|]. intros stp. cbn beta.
  eapply hoare_bind; [apply past_set_step|]. intros u. cbn beta.
  apply (hoare_ends parse _ is_none); [by apply (hoare_authorize dump parse Hparse) | |]; intros [e|] He;
    try discriminate; [by apply hoare_ret|].
  apply (hoare_ends parse _ is_failed); [apply past_obtain | |]; intros [r|m|] Ha; try discriminate;
    [by apply hoare_ret | |].
  2: { intros w w' x Hr Hp [= <- <-]. split; [exact Hr|]. by intros y [= <-]. }
  apply (hoare_ends parse _ negb); [by apply (hoare_resume_output dump parse Hparse) | |]; intros ok Hok; rewrite Hok;
    [by apply hoare_ret|].
  eapply hoare_bind; [apply past_fan_out|]. intros [x|]; [by apply hoare_ret|].
  eapply hoare_bind; [apply (stable_moves parse _ _ HP), (keeps_commit dump parse Hparse), snapshot_gentle|].
  intros u'. by apply hoare_ret.
Qed.

(** *** Other nodes behind the completed ones *)

Context (f : RuntimeNode -> InvocationEnvelope -> io Json X (EnvelopeResponse * Z)).

Definition agrees (node_id : string) : Prop :=
  forall node e, env_node_id e = node_id -> f node e = execute node e.

Abbreviation other := (with_execute f).

Lemma invoke_same node e : f node e = execute node e -> invoke_node env (NodeServices0 := other) node e = invoke_node env node e.
Proof. intros H. unfold invoke_node. cbn. by rewrite H. Qed.

Lemma handle_same ft node_id e (inv inv' : InvocationEnvelope -> io Json X EnvelopeResponse) w :
  (forall x, env_node_id x = node_id -> inv' x = inv x) ->
  handle_failure env o ft node_id e inv' w = handle_failure env o ft node_id e inv w.
Proof.
  intros H. unfold handle_failure, mbind, io_bind, draw, gets, modify. cbn.
  set (probe := FailureManager.handle _ _ _ _ _ _ _ _ _).
  pose proof (FailureManager.handle_retry (w_next w + 1) (fun _ => None) (fresh_id env (w_draws w))
    (o_seconds o (w_draws w)) ft (w_retries w) node_id e 0) as [Hinv _]. fold probe in Hinv.
  destruct (FailureManager.o_invoked probe) as [|retry l]; [done|].
  by rewrite (H retry) by (apply Hinv; left).
Qed.

Lemma obtain_same resumed node_id node e w :
  agrees node_id -> env_node_id e = node_id -> resumed = true ->
  obtain dump env o (NodeServices0 := other) resumed node_id node e w = obtain dump env o resumed node_id node e w.
Proof.
  intros Ha He ->. unfold obtain. rewrite invoke_same by by apply Ha. unfold mbind, io_bind.
  destruct (invoke_node env node e w) as [w1 [r|x]]; [|done]. destruct (success r); [done|].
  unfold recover, mbind, io_bind. by rewrite (handle_same _ _ _ (invoke_node env node)) by
    (intros x Hx; apply invoke_same; by apply Ha).
Qed.

Lemma authorize_node node_id node pl w w' e :
  authorize dump env o node_id node pl w = (w', Ok (Some e)) -> env_node_id e = node_id.
Proof.
  unfold authorize. unfold mbind at 1, io_bind at 1. destruct (check_policy_gate env o node_id node w) as [w1 [d|x]];
    [|discriminate].
  destruct (truthy d). { unfold mbind, io_bind. by destruct (fail_chain _ _ _ _ _ w1) as [w2 [u|x]]. }
  unfold mbind at 1, io_bind at 1. destruct (prepare env o node_id pl w1) as [w2 [e'|x]] eqn:Ep; [|discriminate].
  unfold mbind at 1, io_bind at 1. destruct (journal_planned node_id e' w2) as [w3 [[]|x]]; [| |discriminate].
  2: { unfold mbind, io_bind. by destruct (fail_chain _ _ _ _ _ w3) as [w4 [u|x]]. }
  intros [= _ ->]. apply prepared in Ep as (wc & wp & _ & _ & _ & _ & _ & _ & H & _). exact H.
Qed.

Lemma bind_same {A B} (m m' : io Json X A) (g g' : A -> io Json X B) w :
  m' w = m w -> (forall a w1, m w = (w1, Ok a) -> g' a w1 = g a w1) -> (m' ≫= g') w = (m ≫= g) w.
Proof.
  intros Hm Hg. unfold mbind, io_bind. rewrite Hm. destruct (m w) as [w1 [a|x]]; [by apply Hg | done].
Qed.

Lemma resume_step_same completed c node_id w :
  agrees node_id \/ already_done completed node_id (w_step w) = true ->
  resume_step dump env o (NodeServices0 := other) completed c node_id w = resume_step dump env o completed c node_id w.
Proof.
  intros H. unfold resume_step. destruct (dget node_id (o_nodes o)) as [node|]; [|done].
  apply bind_same; [done|]. intros stp w1 [= <- <-]. apply bind_same; [done|]. intros outs w1 [= <- _].
  destruct (already_done completed node_id (w_step w)); [done|]. destruct H as [H|]; [|done].
  apply bind_same; [done|]. intros stp w2 _. apply bind_same; [done|]. intros u w3 _.
  apply bind_same; [done|]. intros [e|] w4 He; [|done]. apply authorize_node in He.
  apply bind_same; [by apply obtain_same|]. done.
Qed.

(** A node that had completed when the run was saved. *)
Definition done_before (s0 : Z) (completed : list (Z * string)) (node_id : string) : Prop :=
  exists k, (k, node_id) ∈ completed /\ k <= s0.

Lemma already_done_before s0 completed node_id stp :
  s0 <= stp -> done_before s0 completed node_id -> already_done completed node_id stp = true.
Proof.
  intros Hs (k & Hin & Hk). unfold already_done. apply existsb_exists. exists (k, node_id).
  split; [by apply list_elem_of_In|]. cbn. rewrite String.eqb_refl. cbn. apply Z.leb_le. lia.
Qed.

(** *** The whole resumption *)

(** Equal from the worlds where an assertion holds. *)
Definition same {A} (P : World Json X -> Prop) (m' m : io Json X A) : Prop :=
  forall w, ready w -> P w -> m' w = m w.

Lemma same_bind {A B} P R (m : io Json X A) (g g' : A -> io Json X B) :
  hoare P m R -> (forall a, same (R a) (g' a) (g a)) -> same P (m ≫= g') (m ≫= g).
Proof.
  intros Hm Hg w Hr Hp. apply bind_same; [done|]. intros a w1 H.
  destruct (Hm w w1 _ Hr Hp H) as [Hr1 H1]. by apply Hg; [|apply H1].
Qed.

Lemma same_case {A} (b : bool) P (m m' n n' : io Json X A) :
  (b = true -> same P m' m) -> (b = false -> same P n' n) -> same P (if b then m' else n') (if b then m else n).
Proof. destruct b; auto. Qed.

Section Saved.
Context (s0 : Z) (completed : list (Z * string)).
(** The other nodes are these, but for completed ones. *)
Context (Hf : forall n, ~ done_before s0 completed n -> agrees n).

Lemma agrees_or_done node_id stp :
  s0 <= stp -> agrees node_id \/ already_done completed node_id stp = true.
Proof.
  intros Hs. destruct (already_done completed node_id s0) eqn:E.
  - right. unfold already_done in *. apply existsb_exists in E as ([k n] & Hin & [Hn Hk]%andb_true_iff).
    apply existsb_exists. exists (k, n). split; [done|]. cbn in *. rewrite Hn. apply Z.leb_le in Hk. apply Z.leb_le. lia.
  - left. apply Hf. intros H. by rewrite (already_done_before s0) in E.
Qed.

Lemma loop_same fuel c :
  same (past s0) (run_loop (resume_step dump env o (NodeServices0 := other) completed) fuel c)
    (run_loop (resume_step dump env o completed) fuel c).
Proof.
  revert c. induction fuel as [|fuel IH]; intros c w Hr Hp; cbn [run_loop]; [done|].
  destruct (c_order c !! c_idx c) as [n|]; [|done]. unfold mbind, io_bind.
  rewrite resume_step_same by (apply agrees_or_done; apply Hp).
  destruct (resume_step dump env o completed c n w) as [w1 [[c'|]|x]] eqn:E; [|done..].
  destruct (past_resume_step s0 completed c n w w1 _ Hr Hp E) as [Hr1 H1].
  apply IH; [done|]. exact (H1 _ eq_refl).
Qed.

Lemma body_same fuel :
  same (past s0) (resume_body dump env o (NodeServices0 := other) fuel completed)
    (resume_body dump env o fuel completed).
Proof.
  pose proof (past_stable s0) as HP. unfold resume_body.
  eapply same_bind; [apply (stable_quiet parse _ _ HP), quiet_contracts|]. intros [|i l]; [|done].
  destruct (resolve_execution_order _ _); [|done].
  do 2 (eapply same_bind; [apply (stable_quiet parse _ _ HP); stroll fail|]; intros ?).
  eapply same_bind; [by apply (hoare_resume_revision dump parse Hparse)|]. intros c.
  eapply same_bind; [by apply (hoare_resume_loop_back dump parse Hparse)|]. intros c'.
  eapply same_bind; [by apply (hoare_resume_branches parse)|]. intros c''.
  intros w Hr Hp. unfold finish_loop, mbind, io_bind. by rewrite loop_same.
Qed.

Lemma guarded_same fuel :
  same (past s0) (guarded dump env o (resume_body dump env o (NodeServices0 := other) fuel completed))
    (guarded dump env o (resume_body dump env o fuel completed)).
Proof. intros w Hr Hp. unfold guarded. by rewrite body_same. Qed.
End Saved.

(** Whatever stands behind the nodes that had completed. *)
Lemma resume_ignores_done rid rc fuel w :
  ready w -> load_for_recovery parse rid (w_store w) (o_effects o w) = Some rc ->
  (forall n, ~ done_before (ChainState.step (rc_state rc)) (rc_completed_steps rc) n ->
     agrees n) ->
  resume dump env o (NodeServices0 := other) parse fuel rid w = resume dump env o parse fuel rid w.
Proof.
  intros Hr Hrc Hf. unfold resume. apply bind_same; [done|]. intros found w1 [= <- <-]. rewrite Hrc.
  set (s0 := ChainState.step _) in *. pose proof (past_stable s0) as HP. revert Hr. generalize I. cbn beta.
  match goal with |- True -> _ -> ?m' _ = ?m _ => enough (Hs : same (fun _ => True) m' m) by (intros; by apply Hs) end.
  clear w Hrc. apply (same_bind _ (fun _ _ => True)); [by intros w w' r Hr _ [= <- <-]|]. intros u.
  apply (same_bind _ (fun _ _ => True)); [by apply (stable_commit dump parse Hparse)|]. intros u'.
  apply (same_bind _ (fun _ => past s0)).
  { intros w w' r Hr _ [= <- <-]. split; [exact Hr|]. intros a _. unfold past. cbn. lia. }
  intros u''. eapply same_bind; [by apply (hoare_verify_integrity parse)|]. intros ok. apply same_case; intros _; [done|].
  apply (same_bind _ (fun _ => past s0)).
  { intros w w' r Hr Hp [= <- <-]. split; [by apply quiet_new_trace_ready|]. intros a _. exact Hp. }
  intros u1. do 2 (eapply same_bind; [apply (stable_quiet parse _ _ HP); stroll fail|]; intros ?).
  eapply same_bind; [apply (stable_quiet parse _ _ HP), (reconcile_quiet (parse := parse))|]. intros u2.
  apply (same_bind _ (stopped_by_review parse (past s0))).
  { apply hoare_case; intros _; [|by apply hoare_ret].
    apply (hoare_resume_review dump parse Hparse); [done | apply past_stateless]. }
  intros [|]; cbn [negb]; [by apply guarded_same | done].
Qed.

(** A run that was saved with nothing to do over: no loop counted an
    iteration or is to be taken up again, and no review has been decided, is
    awaited or asked for a revision. *)
Definition straight (s : ChainState) : Prop :=
  loop_state s = [] /\ dget "pending_loop_back" (metadata s) = None /\
  dget "review_revision_target" (metadata s) = None /\ dget "governed_decision_receipt" (metadata s) = None /\
  ChainState.status s <> "waiting_for_review".

(** C5: The resumption of a run that was saved with nothing to do over - no
    loop taken or pending, no review decided or awaited, no revision asked
    for - invokes no node that had completed when the run was saved: with
    other nodes in the place of the completed ones - whatever they do - it is
    the same resumption, of the same result and world.  Loop-backs and
    revisions are left out: the code means to execute their nodes again. *)
Theorem resume_skips_done rid rc fuel w :
  ready w -> load_for_recovery parse rid (w_store w) (o_effects o w) = Some rc -> straight (rc_state rc) ->
  (forall n, ~ done_before (ChainState.step (rc_state rc)) (rc_completed_steps rc) n ->
     agrees n) ->
  resume dump env o (NodeServices0 := other) parse fuel rid w = resume dump env o parse fuel rid w.
Proof. intros Hr Hrc _. by apply resume_ignores_done. Qed.
End Skips.
