(* ===== verification/OrchestratorDemo.v ===== *)
(** * Runs of a small chain

    Two nodes, services that only log the invocations, and the runs of the
    chain as the kernel evaluates them: how a loop repeats, what a resumption
    executes, when a run does not end; and the theorems of OrchestratorRun and
    OrchestratorSafety at these runs. *)
From S2P Require Import Prelude PyFloat PyValue Sql Contract Blueprint Policy Envelope PolicyGate ChainState StateStore.
From S2P Require Import LoopEnforcer Scheduler Persistence BudgetApproval ReviewManager Trace Runtime GateController.
From S2P Require Import Orchestrator OrchestratorRun OrchestratorSafety.
From S2P Require FailureManager Preflight InvariantEngine DecisionLog RecoveryService.

(** ** A chain of two nodes *)

Definition log_world := World ChainState (list string).
Abbreviation L := (list string).

Definition small_contract (id inp out : string) : NodeContract :=
  mkContract (id +:+ ".v1") id "1" (mkEntry inp "" [] []) (mkExit out "" [] [] None) []
    (mkRequirements false [] [] [] "none" "trusted" None None).
Definition small_node (id inp out : string) : RuntimeNode :=
  mkRuntimeNode id (mkGateNode (small_contract id inp out) "local_trusted" "builtin" "nodes") "1" "n.py".

Definition small_chain (last : string) (ls : list LoopDef) : ChainBlueprint :=
  mkBlueprint "c" "chain" "1.0.0" "" "g" (map (fun n => mkNodeDef n "model" [] 0) ["a"; last])
    [mkConnection "a" "out" last "in" None None] ls [] [] [] [] [] [] [] "".

Definition small_setup (last : string) (ls : list LoopDef) (mode : option string) : Setup ChainState L := {|
  o_blueprint := small_chain last ls;
  o_nodes := [("a", small_node "a" "raw" "text"); (last, small_node last "text" "plan")];
  o_engine := default_engine;
  o_governance := "";
  o_strict_schema := false;
  o_set_order := fun l => l;
  o_list_of_set := fun l => l;
  o_py_sum := demo_sum;
  o_sql_sum := fun l => fold_left fadd l fzero;
  o_file_digest := fun p => "sha:" +:+ p;
  o_sha256 := fun s => s;
  o_instant_of := fun _ => Some 0;
  o_seconds := fun n => Z.of_nat n;
  o_hex := tally;
  o_effects := fun _ => [];
  o_schema_errors := fun _ _ => [];
  o_trace_dump := fun _ => VNone;
  o_review := mkReviewEnv mode None None;
  o_answer := fun _ => "1";
  o_session_memory := [];
  o_memory_derived := [];
  o_exn_text := fun _ => "error";
  o_issue_text := fun _ => "issue";
  o_contract_issue_text := fun _ => "issue";
  o_violation_text := fun _ => "violation";
  o_loop_text := fun _ => "loop";
|}.

(** ** Services that log *)

Definition answer_of (e : InvocationEnvelope) (out : pyctx) (ok : bool) : EnvelopeResponse :=
  mkResponse "r" (envelope_id e) (env_run_id e) (env_chain_id e) (env_node_id e) (env_step_id e)
    (env_timestamp e) out "" ok (if ok then None else Some "boom") (fround_int 1) 1 [].

(** The output of a node may depend on how many invocations came before. *)
Definition logging_execute (out : string -> nat -> pyctx) (n : RuntimeNode) (e : InvocationEnvelope)
  : io ChainState L (EnvelopeResponse * Z) :=
  before ← gets (fun w => length (w_ext w));
  _ ← modify (fun w => set_ext (w_ext w ++ [rn_node_id n]) w);
  mret (answer_of e (out (rn_node_id n) before) true, 1).

Definition logging (out : string -> nat -> pyctx) : NodeServices ChainState L := {|
  execute := logging_execute out;
  journal_planned := fun _ _ => mret true;
  detail_events := fun _ _ _ _ => mret true;
  complete_reported := fun _ _ _ => mret true;
  run_semantic := fun _ out _ => mret (out, None);
  execute_branches := fun _ _ _ _ => mret None;
  reconcile_effects := fun _ => mret tt;
|}.

Lemma logging_quiet out n e : keeps quiet (logging_execute out n e).
Proof.
  intros w w' r [= <- <-]. split_and!; try done; try (cbn; lia); by exists []; rewrite app_nil_r.
Qed.

Lemma logging_laws out : ServiceLaws (NodeServices0 := logging out) Some.
Proof.
  split; intros; first [apply logging_quiet | apply keeps_ret; apply _].
Qed.

Definition empty_world : log_world :=
  mkWorld (initial_state "r" "t0") (snd (fst (save (total as_object) (initial_state "r" "t0") "t0" true empty_store)))
    [] None [] 0 0 [] [] 0 [].

Lemma empty_world_ready : ready empty_world.
Proof.
  split; [|by intros e ?%elem_of_nil].
  exact (proj1 (exec_good (total as_object) (OpSave (initial_state "r" "t0") "t0" true) empty_store empty_store_good)).
Qed.

(** ** The runs *)

Definition plain : Setup ChainState L := small_setup "b" [] (Some "auto-approve").
Definition looping (n budget : Z) : Setup ChainState L :=
  small_setup "b" [mkLoop "l" "" "" n (fround_int budget) ["a"; "b"] None] (Some "auto-approve").
Definition reviewed (mode : string) : Setup ChainState L := small_setup "risk_classifier" [] (Some mode).

Definition quiet_nodes : NodeServices ChainState L := logging (fun _ _ => []).
(** The second node asks for its loop: always, or the first time. *)
Definition eager_nodes : NodeServices ChainState L :=
  logging (fun n _ => if (n =? "b")%string then [("loop_required", VBool true)] else []).
Definition once_nodes : NodeServices ChainState L :=
  logging (fun n k => if (n =? "b")%string && (k <? 2)%nat then [("loop_required", VBool true)] else []).
(** The second node finds a high risk. *)
Definition risky_nodes : NodeServices ChainState L :=
  logging (fun n _ => if (n =? "risk_classifier")%string then [("risk_level", VStr "high")] else []).

Abbreviation demo_run o services fuel :=
  (run as_object demo_env o (NodeServices0 := services) fuel "q" empty_world).

(** Another process on the database a run left. *)
Definition reopened (w : log_world) : log_world :=
  mkWorld (initial_state "r" "t0") (w_store w) [] None (w_logs w) 0 0 [] [] (w_draws w) [].

Abbreviation demo_resume o services fuel w :=
  (resume as_object demo_env o (NodeServices0 := services) Some fuel "r" (reopened w)).

Definition how_it_went (x : log_world * res exn (option unit)) : list string * string * bool :=
  (w_ext (fst x), ChainState.status (w_state (fst x)), match snd x with Ok (Some _) => true | _ => false end).

(** A run of the two nodes. *)
Example both_nodes_run : how_it_went (demo_run plain quiet_nodes 9) = (["a"; "b"], "completed", true).
Proof. vm_compute. reflexivity. Qed.

(** A loop asked for once runs its body twice: the segment is inserted after
    the source, and the run goes on at the first occurrence of the target,
    before the inserted one. *)
Example loop_body_runs_twice :
  how_it_went (demo_run (looping 5 50) once_nodes 9) = (["a"; "b"; "a"; "b"; "a"; "b"], "completed", true).
Proof. vm_compute. reflexivity. Qed.

(** Of two iterations one is executed: the second loop-back is taken and the
    chain fails on the loop's first node. *)
Example last_iteration_fails :
  how_it_went (demo_run (looping 2 50) eager_nodes 9) = (["a"; "b"; "a"; "b"], "failed", true).
Proof. vm_compute. reflexivity. Qed.

(** A run over its budget waits; its resumption, approved or not, completes it
    with the loop not repeated: the nodes of the loop had completed. *)
Example budget_pause_drops_the_loop :
  let w := fst (demo_run (looping 9 1) eager_nodes 9) in
  (w_ext w, ChainState.status (w_state w)) = (["a"; "b"], "paused_for_budget") /\
  how_it_went (demo_resume (looping 9 1) eager_nodes 9 w) = ([], "completed", true).
Proof. vm_compute. auto. Qed.

(** A revision asked for while paused re-executes nothing. *)
Example paused_revision_is_lost :
  let w := fst (demo_run (reviewed "pause") risky_nodes 9) in
  (w_ext w, ChainState.status (w_state w)) = (["a"; "risk_classifier"], "waiting_for_review") /\
  how_it_went (demo_resume (reviewed "auto-revision") risky_nodes 9 w) = ([], "completed", true).
Proof. vm_compute. auto. Qed.

(** Asked for on the spot, revisions go on as long as the fuel lasts. *)
Example revisions_go_on :
  how_it_went (demo_run (reviewed "auto-revision") risky_nodes 7) =
    (["a"; "risk_classifier"; "a"; "risk_classifier"; "a"; "risk_classifier"; "a"], "running", false).
Proof. vm_compute. reflexivity. Qed.

(** ** The theorems at these runs *)

Lemma run_settles_witness :
  ready empty_world /\
  concluded Some (snd (demo_run (reviewed "pause") risky_nodes 9)) (fst (demo_run (reviewed "pause") risky_nodes 9)).
Proof.
  split; [exact empty_world_ready|].
  destruct (demo_run (reviewed "pause") risky_nodes 9) as [w' r] eqn:E.
  exact (run_settles as_object Some (fun x => eq_refl) demo_env (reviewed "pause") (NodeServices0 := risky_nodes)
    (ServiceLaws0 := logging_laws _) 9 "q" empty_world w' r empty_world_ready E).
Defined.

Lemma approver_never_revises n outs d :
  get_decision (o_review (looping 2 50)) (o_answer (looping 2 50) n) outs = Ok d -> d <> "request_revision".
Proof. by intros [= <-]. Qed.

Lemma run_ends_witness :
  never_revises (looping 2 50) /\
  exists fuel w' r, demo_run (looping 2 50) eager_nodes fuel = (w', r) /\ r <> Ok None /\ concluded Some r w'.
Proof.
  split; [exact approver_never_revises|].
  destruct (run_ends as_object Some (fun x => eq_refl) demo_env (looping 2 50) (NodeServices0 := eager_nodes)
    (ServiceLaws0 := logging_laws _) "q" empty_world approver_never_revises empty_world_ready)
    as (fuel & w' & r & H & H1 & H2).
  exists fuel, w', r. exact (conj (H fuel (le_n fuel)) (conj H1 H2)).
Defined.

Abbreviation paused_run := (fst (demo_run (looping 9 1) eager_nodes 9)).

Lemma reopened_ready o services fuel :
  ServiceLaws (NodeServices0 := services) (@Some ChainState) ->
  ready (reopened (fst (demo_run o services fuel))).
Proof.
  intros Hl. destruct (demo_run o services fuel) as [w' r] eqn:E.
  destruct (run_concluded as_object Some (fun x => eq_refl) demo_env o False (fun H => False_ind _ H)
    fuel "q" empty_world w' r empty_world_ready E) as [[H _] _].
  split; [exact H|]. by intros e ?%elem_of_nil.
Qed.

Lemma resume_settles_witness :
  ready (reopened paused_run) /\
  exists fuel w' r, demo_resume (looping 9 1) eager_nodes fuel paused_run = (w', r) /\ r <> Ok None.
Proof.
  assert (Hr : ready (reopened paused_run)) by exact (reopened_ready _ _ _ (logging_laws _)).
  split; [exact Hr|].
  destruct (resume_settles as_object Some (fun x => eq_refl) demo_env (looping 9 1) (NodeServices0 := eager_nodes)
    (ServiceLaws0 := logging_laws _) "r" (reopened paused_run) Hr) as (fuel & w' & r & H & H1 & _).
  exists fuel, w', r. exact (conj (H fuel (le_n fuel)) H1).
Defined.

(** A run that stopped after its first node, as a crash would leave it. *)
Abbreviation crashed_run := (fst (demo_run plain quiet_nodes 1)).

(** Nodes that fail where the completed one stood. *)
Definition broken_execute (n : RuntimeNode) (e : InvocationEnvelope) : io ChainState L (EnvelopeResponse * Z) :=
  if mem (env_node_id e) ["a"] then raise (Raised "node") else execute (NodeServices := quiet_nodes) n e.

Example crash_resumed :
  (w_ext crashed_run, how_it_went (demo_resume plain quiet_nodes 9 crashed_run)) = (["a"], (["b"], "completed", true)).
Proof. vm_compute. reflexivity. Qed.

Lemma logging_step out n e w w' r t :
  logging_execute out n e w = (w', Ok (r, t)) -> resp_step_id r = env_step_id e.
Proof. by intros [= _ <- _]. Qed.

Abbreviation saved_run :=
  (load_for_recovery Some "r" (w_store (reopened crashed_run)) (o_effects plain (reopened crashed_run))).

Lemma resume_skips_done_witness :
  ready (reopened crashed_run) /\
  demo_resume plain (with_execute (NodeServices0 := quiet_nodes) broken_execute) 9 crashed_run =
  demo_resume plain quiet_nodes 9 crashed_run.
Proof.
  assert (Hr : ready (reopened crashed_run)) by exact (reopened_ready _ _ _ (logging_laws _)).
  split; [exact Hr|].
  destruct saved_run as [rc|] eqn:E; [|vm_compute in E; discriminate].
  refine (resume_skips_done as_object Some (fun x => eq_refl) demo_env plain (NodeServices0 := quiet_nodes)
    (ServiceLaws0 := logging_laws _) (logging_step _) broken_execute "r" rc 9 (reopened crashed_run) Hr E _ _).
  { vm_compute in E. injection E as <-. repeat split. discriminate. }
  intros n Hn node e He. unfold broken_execute. rewrite He.
  destruct (mem n ["a"]) eqn:Em; [|reflexivity]. exfalso. apply Hn. clear He Hn.
  vm_compute in E. injection E as <-. unfold done_before. cbn [rc_completed_steps rc_state ChainState.step].
  apply mem_true in Em. apply elem_of_cons in Em as [->|[]%elem_of_nil]. exists 1. split; [left | lia].
Defined.

Abbreviation demo_clear :=
  (clear_node as_object demo_env plain (NodeServices0 := quiet_nodes) (mkCursor ["a"; "b"] 0 [("query", VStr "q")])
    "a" (small_node "a" "raw" "text") empty_world).

Lemma nodes_run_authorized_witness :
  match demo_clear with
  | (_, Ok (Some e)) => allowed_at plain "a" (small_node "a" "raw" "text") empty_world /\ env_step_id e = 1
  | _ => False
  end.
Proof.
  destruct demo_clear as [w1 [[e|]|x]] eqn:E; [|vm_compute in E; discriminate..].
  destruct (nodes_run_authorized as_object demo_env plain (NodeServices0 := quiet_nodes) (fun l x H => H)
    (mkCursor ["a"; "b"] 0 [("query", VStr "q")]) "a" (mkNodeDef "a" "model" [] 0) (small_node "a" "raw" "text")
    empty_world w1 (Ok (Some e)) eq_refl eq_refl E) as (H1 & (_ & _ & _ & H2 & _) & _).
  split; [exact H1 | exact H2].
Defined.
