(* ===== verification/StrictJson.v ===== *)
(** * Strict JSON on bytes

    [_parse_json_strict] of [runtime/exec_supervisor.py] and what it uses of
    the language.  A text is held as its UTF-8 bytes, so that any text has a
    place: decoding with replacement repairs the bytes, and an escape of the
    JSON source becomes the bytes of its character (of a lone surrogate: the
    three bytes it would have).  Recursion limits of the interpreter are not
    modelled. *)
From S2P Require Import Prelude PyFloat PyValue Json.

(** ** Texts as UTF-8 *)

Definition byte (n : nat) : ascii := ascii_of_nat n.

Definition zbyte (z : Z) : ascii := byte (Z.to_nat z).

(** A code point in UTF-8. *)
Definition utf8_of (n : Z) : string :=
  if n <? 128 then String (zbyte n) ""
  else if n <? 2048 then String (zbyte (192 + n / 64)) (String (zbyte (128 + n mod 64)) "")
  else if n <? 65536 then
    String (zbyte (224 + n / 4096)) (String (zbyte (128 + n / 64 mod 64)) (String (zbyte (128 + n mod 64)) ""))
  else String (zbyte (240 + n / 262144)) (String (zbyte (128 + n / 4096 mod 64))
         (String (zbyte (128 + n / 64 mod 64)) (String (zbyte (128 + n mod 64)) ""))).

(** U+FFFD *)
Definition replacement : string := utf8_of 65533.

Definition between (lo hi n : nat) : bool := Nat.leb lo n && Nat.leb n hi.
Definition continuation (c : ascii) : bool := between 128 191 (nat_of_ascii c).

(** The bytes that may follow a leading byte, and how many more come then. *)
Definition second_byte (n : nat) : option (nat * nat * nat) :=
  (if between 194 223 n then Some (128, 191, 0)
  else if Nat.eqb n 224 then Some (160, 191, 1)
  else if Nat.eqb n 237 then Some (128, 159, 1)
  else if between 225 239 n then Some (128, 191, 1)
  else if Nat.eqb n 240 then Some (144, 191, 2)
  else if between 241 243 n then Some (128, 191, 2)
  else if Nat.eqb n 244 then Some (128, 143, 2)
  else None)%nat.

(** [bytes.decode("utf-8", errors="replace")]: every longest start of a
    character that is not one becomes one replacement. *)
Fixpoint repair (s : string) : string :=
  match s with
  | EmptyString => EmptyString
  | String c s1 =>
      let n := nat_of_ascii c in
      if Nat.ltb n 128 then String c (repair s1)
      else
        match second_byte n, s1 with
        | Some (lo, hi, more), String d s2 =>
            if between lo hi (nat_of_ascii d) then
              match more with
              | O => String c (String d (repair s2))
              | S more =>
                  match s2 with
                  | String e s3 =>
                      if continuation e then
                        match more with
                        | O => String c (String d (String e (repair s3)))
                        | S _ =>
                            match s3 with
                            | String f s4 =>
                                if continuation f then String c (String d (String e (String f (repair s4))))
                                else replacement +:+ repair s3
                            | EmptyString => replacement
                            end
                        end
                      else replacement +:+ repair s2
                  | EmptyString => replacement
                  end
              end
            else replacement +:+ repair s1
        | _, _ => replacement +:+ repair s1
        end
  end.

(** [len(text)] *)
Fixpoint text_length (s : string) : nat :=
  match s with
  | EmptyString => O
  | String c s' => ((if continuation c then 0 else 1) + text_length s')%nat
  end.

(** [str.strip()]: the white space of Unicode. *)
Definition spaces : list string :=
  map utf8_of [9; 10; 11; 12; 13; 28; 29; 30; 31; 32; 133; 160; 5760; 8192; 8193; 8194; 8195; 8196; 8197; 8198; 8199;
               8200; 8201; 8202; 8232; 8233; 8239; 8287; 12288].

Definition drop_space (l : list string) (s : string) : option string :=
  head (omap (fun w => drop_prefix w s) l).

Fixpoint drop_spaces (l : list string) (fuel : nat) (s : string) : string :=
  match fuel, drop_space l s with
  | S f, Some s' => drop_spaces l f s'
  | _, _ => s
  end.

Definition string_rev (s : string) : string :=
  String.string_of_list_ascii (reverse (String.list_ascii_of_string s)).

Definition strip_text (s : string) : string :=
  let s1 := drop_spaces spaces (String.length s) s in
  string_rev (drop_spaces (map string_rev spaces) (String.length s1) (string_rev s1)).

(** ** The scanner *)

Inductive json_error := Malformed | DuplicateKeyError.

#[export] Instance json_error_eq_dec : EqDecision json_error.
Proof. solve_decision. Defined.

Definition of_option {A} (o : option A) : res json_error A :=
  match o with Some a => Ok a | None => Err Malformed end.

Definition hex4 (a b c d : ascii) : option Z :=
  match hex_value a, hex_value b, hex_value c, hex_value d with
  | Some w, Some x, Some y, Some z => Some (4096 * Z.of_nat w + 256 * Z.of_nat x + 16 * Z.of_nat y + Z.of_nat z)
  | _, _, _, _ => None
  end.

Definition prepend {B} (t : string) (r : option (string * B)) : option (string * B) :=
  match r with Some (s, rest) => Some (t +:+ s, rest) | None => None end.

(** The code point of a surrogate pair. *)
Definition pair_point (hi lo : Z) : Z := 65536 + (hi - 55296) * 1024 + (lo - 56320).

Definition high_surrogate (n : Z) : bool := (55296 <=? n) && (n <=? 56319).
Definition low_surrogate (n : Z) : bool := (56320 <=? n) && (n <=? 57343).

(** The rest of a string literal after its opening quote. *)
Fixpoint scan_text (s : string) : option (string * string) :=
  match s with
  | EmptyString => None
  | String c s' =>
      if Ascii.eqb c dquote then Some (EmptyString, s')
      else if Ascii.eqb c backslash then
        match s' with
        | String e s2 =>
            if Ascii.eqb e "u"%char then
              match s2 with
              | String h1 (String h2 (String h3 (String h4 s3))) =>
                  match hex4 h1 h2 h3 h4 with
                  | None => None
                  | Some n =>
                      if high_surrogate n then
                        match s3 with
                        | String b (String u (String l1 (String l2 (String l3 (String l4 s4))))) =>
                            if Ascii.eqb b backslash && Ascii.eqb u "u"%char then
                              match hex4 l1 l2 l3 l4 with
                              | None => None
                              | Some m => if low_surrogate m then prepend (utf8_of (pair_point n m)) (scan_text s4)
                                          else prepend (utf8_of n) (scan_text s3)
                              end
                            else prepend (utf8_of n) (scan_text s3)
                        | _ => prepend (utf8_of n) (scan_text s3)
                        end
                      else prepend (utf8_of n) (scan_text s3)
                  end
              | _ => None
              end
            else match unescape e with
                 | Some c' => cons_fst c' (scan_text s2)
                 | None => None
                 end
        | EmptyString => None
        end
      else if Nat.ltb (nat_of_ascii c) 32 then None
      else cons_fst c (scan_text s')
  end.

(** Integers are read up to 4300 digits. *)
Definition MAX_STR_DIGITS : nat := 4300.

Definition scan_bounded_literal (s : string) : res json_error (pyval * string) :=
  match scan_literal s with
  | Some (VInt z, r) =>
      let sign := if starts_with "-" s then 1%nat else 0%nat in
      if Nat.ltb MAX_STR_DIGITS (String.length s - String.length r - sign) then Err Malformed else Ok (VInt z, r)
  | o => of_option o
  end.

(** [_detect_dup_keys] *)
Fixpoint detect_dup_keys (seen : pyctx) (pairs : list (string * pyval)) : res json_error pyctx :=
  match pairs with
  | [] => Ok seen
  | (k, v) :: l => match dget k seen with
                   | Some _ => Err DuplicateKeyError
                   | None => detect_dup_keys (seen ++ [(k, v)]) l
                   end
  end.

(** What follows the value of an item. *)
Definition after_item {A} (close : ascii) (s : string) (stop go : string -> res json_error A) : res json_error A :=
  match skip_ws s with
  | String c s' => if Ascii.eqb c close then stop s'
                   else if Ascii.eqb c ","%char then go (skip_ws s') else Err Malformed
  | EmptyString => Err Malformed
  end.

(** As [Json.scan_once], with the hook at every object. *)
Fixpoint scan_strict (fuel : nat) (s : string) : res json_error (pyval * string) :=
  match fuel, s with
  | S f, String c s' =>
      if Ascii.eqb c dquote then
        '(t, r) ← of_option (scan_text s'); Ok (VStr t, r)
      else if Ascii.eqb c "{"%char then
        match skip_ws s' with
        | String c2 r =>
            if Ascii.eqb c2 "}"%char then Ok (VDict [], r)
            else '(kvs, r) ← strict_object f (skip_ws s'); d ← detect_dup_keys [] kvs; Ok (VDict d, r)
        | EmptyString => Err Malformed
        end
      else if Ascii.eqb c "["%char then
        match skip_ws s' with
        | String c2 r =>
            if Ascii.eqb c2 "]"%char then Ok (VList [], r)
            else '(vs, r) ← strict_array f (skip_ws s'); Ok (VList vs, r)
        | EmptyString => Err Malformed
        end
      else scan_bounded_literal s
  | _, _ => Err Malformed
  end
with strict_array (fuel : nat) (s : string) : res json_error (list pyval * string) :=
  match fuel with
  | O => Err Malformed
  | S f =>
      '(v, r) ← scan_strict f s;
      after_item "]"%char r (fun r => Ok ([v], r)) (fun r => '(vs, r) ← strict_array f r; Ok (v :: vs, r))
  end
with strict_object (fuel : nat) (s : string) : res json_error (list (string * pyval) * string) :=
  match fuel, s with
  | S f, String q s' =>
      if Ascii.eqb q dquote then
        '(k, r) ← of_option (scan_text s');
        match skip_ws r with
        | String c r' =>
            if Ascii.eqb c ":"%char then
              '(v, r) ← scan_strict f (skip_ws r');
              after_item "}"%char r (fun r => Ok ([(k, v)], r))
                (fun r => '(kvs, r) ← strict_object f r; Ok ((k, v) :: kvs, r))
            else Err Malformed
        | EmptyString => Err Malformed
        end
      else Err Malformed
  | _, _ => Err Malformed
  end.

(** [json.loads] with the hook *)
Definition loads_strict (raw : string) : res json_error pyval :=
  let s := skip_ws raw in
  '(v, r) ← scan_strict (2 * String.length s + 2) s;
  if str_truthy (skip_ws r) then Err Malformed else Ok v.

(** [_parse_json_strict] without [allowed_fields], which no caller gives: one
    object. *)
Definition parse_json_strict (raw : string) : res json_error pyctx :=
  v ← loads_strict raw;
  match v with VDict d => Ok d | _ => Err Malformed end.

(** ** The fuel is enough *)

Abbreviation len := String.length.

Lemma skip_ws_len s : (len (skip_ws s) <= len s)%nat.
Proof. destruct (lstrip_split is_json_ws s) as (a & _ & Hs & _). unfold skip_ws. rewrite Hs at 2. rewrite length_append. lia. Qed.

Lemma scan_text_len n : forall s t r, (len s <= n)%nat -> scan_text s = Some (t, r) -> (len r < len s)%nat.
Proof.
  induction n as [|n IH]; intros [|c s] t r Hn; try (done || (cbn in Hn; lia)). cbn [scan_text].
  assert (Hp : forall p s0 (k : nat), (k <= len s)%nat -> (len s0 <= k)%nat -> prepend p (scan_text s0) = Some (t, r) ->
    (len r < S (len s))%nat).
  { intros p s0 k Hk Hs0. destruct (scan_text s0) as [[t0 r0]|] eqn:E; [|done]. cbn. intros [= _ <-].
    apply IH in E; cbn in Hn; lia. }
  assert (Hc : forall c' s0, (len s0 <= len s)%nat -> cons_fst c' (scan_text s0) = Some (t, r) -> (len r < S (len s))%nat).
  { intros c' s0 Hs0. destruct (scan_text s0) as [[t0 r0]|] eqn:E; [|done]. cbn. intros [= _ <-].
    apply IH in E; cbn in Hn; lia. }
  change (len (String c s)) with (S (len s)).
  destruct (Ascii.eqb c dquote); [intros [= _ <-]; lia|].
  destruct (Ascii.eqb c backslash).
  2: { destruct (Nat.ltb _ 32); [done|]. apply Hc. lia. }
  destruct s as [|e s2]; [done|]. destruct (Ascii.eqb e "u"%char).
  2: { destruct (unescape e); [|done]. apply Hc. cbn. lia. }
  destruct s2 as [|h1 [|h2 [|h3 [|h4 s3]]]]; try done. destruct (hex4 h1 h2 h3 h4) as [m|]; [|done].
  assert (H3 : prepend (utf8_of m) (scan_text s3) = Some (t, r) ->
    (len r < S (len (String e (String h1 (String h2 (String h3 (String h4 s3)))))))%nat).
  { apply (Hp _ _ (len s3)); cbn; lia. }
  destruct (high_surrogate m); [|done].
  destruct s3 as [|b [|u [|l1 [|l2 [|l3 [|l4 s4]]]]]]; try done. destruct (_ && _); [|done].
  destruct (hex4 l1 l2 l3 l4) as [k|]; [|done]. destruct (low_surrogate k); [|done].
  apply (Hp _ _ (len s4)); cbn; lia.
Qed.

Lemma drop_prefix_len p s r : drop_prefix p s = Some r -> (len s = len p + len r)%nat.
Proof. intros ->%drop_prefix_spec. apply length_append. Qed.

Lemma span_len p s a b : span p s = (a, b) -> (len s = len a + len b)%nat.
Proof. intros [-> _]%span_split. apply length_append. Qed.

Lemma str_truthy_len s : str_truthy s = true -> (0 < len s)%nat.
Proof. destruct s; [done | cbn; lia]. Qed.

Lemma scan_frac_len s a b : scan_frac s = (a, b) -> (len b <= len s)%nat.
Proof.
  unfold scan_frac. destruct s as [|c s]; [by intros [= _ <-]|]. destruct (span is_digit s) as [ds r] eqn:E.
  apply span_len in E. destruct (_ && _); intros [= _ <-]; cbn; lia.
Qed.

Lemma scan_exp_len s a b : scan_exp s = (a, b) -> (len b <= len s)%nat.
Proof.
  unfold scan_exp. destruct s as [|c s]; [by intros [= _ <-]|].
  destruct (_ || _); [|intros [= _ <-]; lia].
  destruct (match s with EmptyString => _ | String d t => _ end) as [sg s2] eqn:E2.
  assert (len s2 <= len s)%nat.
  { destruct s as [|d t]; [by injection E2 as _ <-|]. destruct (_ || _); injection E2 as _ <-; cbn; lia. }
  destruct (span is_digit s2) as [ds r] eqn:E. apply span_len in E.
  destruct (str_truthy ds); intros [= _ <-]; cbn; lia.
Qed.

Lemma scan_number_len s v r : scan_number s = Some (v, r) -> (len r < len s)%nat.
Proof.
  unfold scan_number. destruct (scan_int s) as [[[neg ds] rest]|] eqn:E; [|done].
  assert (len rest < len s)%nat.
  { unfold scan_int in E. destruct (match drop_prefix "-" s with Some _ => _ | None => _ end) as [ng s1] eqn:E1.
    assert (len s1 <= len s)%nat.
    { destruct (drop_prefix "-" s) as [t|] eqn:Ed; injection E1 as _ <-; [apply drop_prefix_len in Ed|]; lia. }
    destruct s1 as [|c t]; [done|]. destruct (Ascii.eqb c "0"); [injection E as _ _ <-; cbn in *; lia|].
    destruct (span is_digit (String c t)) as [d2 r2] eqn:Es. apply span_len in Es.
    destruct (str_truthy d2) eqn:Et; [|done]. apply str_truthy_len in Et. injection E as _ _ <-. lia. }
  destruct (scan_frac rest) as [fr r1] eqn:Ef. destruct (scan_exp r1) as [ex r2] eqn:Ee.
  apply scan_frac_len in Ef. apply scan_exp_len in Ee.
  destruct (_ || _); [destruct (parse_float _); [|done]|]; intros [= _ <-]; lia.
Qed.

Lemma scan_literal_len s v r : scan_literal s = Some (v, r) -> (len r < len s)%nat.
Proof.
  unfold scan_literal. cbv zeta.
  repeat match goal with
  | |- context [drop_prefix ?w s] => destruct (drop_prefix w s) eqn:?; [intros [= _ <-];
      match goal with H : drop_prefix _ _ = Some _ |- _ => apply drop_prefix_len in H; cbn in H; lia end|]
  | |- context [scan_number s] => destruct (scan_number s) as [[]|] eqn:?; [intros [= <- <-]; by eapply scan_number_len|]
  end. done.
Qed.

Lemma scan_bounded_len s v r : scan_bounded_literal s = Ok (v, r) -> (len r < len s)%nat.
Proof.
  unfold scan_bounded_literal. destruct (scan_literal s) as [[w t]|] eqn:E; [|done].
  apply scan_literal_len in E. destruct w; try (by intros [= _ <-]). destruct (Nat.ltb _ _); [done|]. by intros [= _ <-].
Qed.

Lemma after_item_ok {A} close s (stop go : string -> res json_error A) x :
  after_item close s stop go = Ok x ->
  exists s', (len s' < len s)%nat /\ (stop s' = Ok x \/ go s' = Ok x).
Proof.
  unfold after_item. pose proof (skip_ws_len s) as H. destruct (skip_ws s) as [|c s']; [done|]. cbn in H.
  destruct (Ascii.eqb c close); [exists s'; split; [lia | by left]|].
  destruct (Ascii.eqb c ","); [|done]. intros Hgo. exists (skip_ws s').
  pose proof (skip_ws_len s'). split; [lia | by right].
Qed.

Lemma scan_len f :
  (forall s v r, scan_strict f s = Ok (v, r) -> (len r < len s)%nat) /\
  (forall s v r, strict_array f s = Ok (v, r) -> (len r < len s)%nat) /\
  (forall s v r, strict_object f s = Ok (v, r) -> (len r < len s)%nat).
Proof.
  induction f as [|f (IHs & IHa & IHo)]; [by split_and!|]. split_and!.
  - intros [|c s] v r; [done|]. cbn [scan_strict]. cbn [String.length].
    destruct (Ascii.eqb c dquote).
    { destruct (scan_text s) as [[t r0]|] eqn:E; [|done]. cbn. intros [= _ <-]. apply (scan_text_len (len s)) in E; lia. }
    pose proof (skip_ws_len s) as Hw. destruct (Ascii.eqb c "{"%char).
    { destruct (skip_ws s) as [|c2 s2] eqn:Ew; [done|]. cbn in Hw. destruct (Ascii.eqb c2 "}"%char); [intros [= _ <-]; lia|].
      intros ([kvs r0] & H%IHo & (d & _ & [= _ <-])%bind_ok)%bind_ok. cbn in H. lia. }
    destruct (Ascii.eqb c "["%char).
    { destruct (skip_ws s) as [|c2 s2] eqn:Ew; [done|]. cbn in Hw. destruct (Ascii.eqb c2 "]"%char); [intros [= _ <-]; lia|].
      intros ([vs r0] & H%IHa & [= _ <-])%bind_ok. cbn in H. lia. }
    apply scan_bounded_len.
  - intros s vs r. cbn [strict_array]. intros ([v r0] & H%IHs & (s' & Hl & [[= _ <-]|Hgo])%after_item_ok)%bind_ok; [lia|].
    apply bind_ok in Hgo as ([l r1] & H1%IHa & [= _ <-]). lia.
  - intros [|q s] kvs r; [done|]. cbn [strict_object String.length]. destruct (Ascii.eqb q dquote); [|done].
    destruct (scan_text s) as [[k r0]|] eqn:E; [|done]. cbn [of_option res_bind].
    apply (scan_text_len (len s)) in E; [|lia]. cbn.
    pose proof (skip_ws_len r0) as Hw. destruct (skip_ws r0) as [|c r1]; [done|]. cbn in Hw.
    destruct (Ascii.eqb c ":"); [|done]. pose proof (skip_ws_len r1).
    intros ([v r2] & H1%IHs & (s' & Hl & [[= _ <-]|Hgo])%after_item_ok)%bind_ok; [lia|].
    apply bind_ok in Hgo as ([l r3] & H2%IHo & [= _ <-]). lia.
Qed.

Lemma after_item_ext {A} close s (stop go go' : string -> res json_error A) :
  (forall s', (len s' < len s)%nat -> go s' = go' s') -> after_item close s stop go = after_item close s stop go'.
Proof.
  intros H. unfold after_item. pose proof (skip_ws_len s) as Hw. destruct (skip_ws s) as [|c s']; [done|]. cbn in Hw.
  destruct (Ascii.eqb c close); [done|]. destruct (Ascii.eqb c ","); [|done]. apply H. pose proof (skip_ws_len s'). lia.
Qed.

Definition settled (s : string) : Prop :=
  (forall f g, (2 * len s < f -> 2 * len s < g -> scan_strict f s = scan_strict g s)%nat) /\
  (forall f g, (2 * len s + 1 < f -> 2 * len s + 1 < g -> strict_array f s = strict_array g s)%nat) /\
  (forall f g, (2 * len s + 1 < f -> 2 * len s + 1 < g -> strict_object f s = strict_object g s)%nat).

Lemma fuel_settles n : forall s, (len s < n)%nat -> settled s.
Proof.
  induction n as [|n IH]; intros s Hs; [lia|].
  assert (IHn : forall s', (len s' < len s)%nat -> settled s') by (intros s' H'; apply IH; lia).
  assert (Hscan : forall f g, (2 * len s < f -> 2 * len s < g -> scan_strict f s = scan_strict g s)%nat).
  { intros [|f] [|g] Hf Hg; try lia. destruct s as [|c s]; [done|]. cbn [scan_strict]. cbn [String.length] in *.
    assert (Hw : settled (skip_ws s)) by (apply IHn; pose proof (skip_ws_len s); lia). pose proof (skip_ws_len s) as Hl.
    destruct Hw as (_ & Ha & Ho). rewrite (Ha f g), (Ho f g) by lia. done. }
  split; [exact Hscan|]. split.
  - intros [|f] [|g] Hf Hg; try lia. cbn [strict_array]. rewrite (Hscan f g) by lia.
    destruct (scan_strict g s) as [[v r]|x] eqn:E; [|done]. cbn [res_bind mbind]. apply (proj1 (scan_len g)) in E.
    apply after_item_ext. intros s' Hl. destruct (IHn s' ltac:(lia)) as (_ & Ha & _). by rewrite (Ha f g) by lia.
  - intros [|f] [|g] Hf Hg; try lia. destruct s as [|q s]; [done|]. cbn [strict_object]. cbn [String.length] in *.
    destruct (Ascii.eqb q dquote); [|done]. destruct (scan_text s) as [[k r]|] eqn:E; [|done]. cbn [of_option res_bind mbind].
    apply (scan_text_len (len s)) in E; [|lia]. pose proof (skip_ws_len r) as Hw.
    destruct (skip_ws r) as [|c r1]; [done|]. cbn in Hw. destruct (Ascii.eqb c ":"); [|done]. pose proof (skip_ws_len r1) as H1.
    destruct (IHn (skip_ws r1) ltac:(lia)) as (Hsc & _ & _). rewrite (Hsc f g) by lia.
    destruct (scan_strict g (skip_ws r1)) as [[v r2]|x] eqn:E2; [|done]. cbn [res_bind mbind]. apply (proj1 (scan_len g)) in E2.
    apply after_item_ext. intros s' Hl. destruct (IHn s' ltac:(lia)) as (_ & _ & Ho). by rewrite (Ho f g) by lia.
Qed.

(** More fuel changes nothing. *)
Lemma parse_fuel s f : (2 * len s < f)%nat -> scan_strict f s = scan_strict (2 * len s + 2) s.
Proof. intros H. apply (fuel_settles (S (len s))); lia. Qed.
