(* ===== verification/StrictText.v ===== *)
(** * Writing JSON that the strict reader reads

    [json.dumps] with its default escapes on texts held as UTF-8 bytes, in the
    compact form the channels of the supervisor use, and the round trip with
    the strict scanner of StrictJson. *)
From S2P Require Import Prelude PyFloat PyValue Json StrictJson.

(** ** Code points *)

(** The characters of a text. *)
Fixpoint points (s : string) : list Z :=
  match s with
  | EmptyString => []
  | String c s1 =>
      let n := Z.of_nat (nat_of_ascii c) in
      if n <? 192 then n :: points s1
      else match s1 with
           | EmptyString => [n]
           | String d s2 =>
               let n1 := Z.of_nat (nat_of_ascii d) - 128 in
               if n <? 224 then ((n - 192) * 64 + n1) :: points s2
               else match s2 with
                    | EmptyString => [n]
                    | String e s3 =>
                        let n2 := Z.of_nat (nat_of_ascii e) - 128 in
                        if n <? 240 then ((n - 224) * 4096 + n1 * 64 + n2) :: points s3
                        else match s3 with
                             | EmptyString => [n]
                             | String f s4 =>
                                 ((n - 240) * 262144 + n1 * 4096 + n2 * 64 + (Z.of_nat (nat_of_ascii f) - 128)) :: points s4
                             end
                    end
           end
  end.

Definition text_of_points (l : list Z) : string := fold_right (fun n s => utf8_of n +:+ s) "" l.

(** A character that is not a surrogate. *)
Definition scalar (n : Z) : bool := (0 <=? n) && (n <? 1114112) && negb (high_surrogate n || low_surrogate n).

Lemma zbyte_nat n : 0 <= n < 256 -> Z.of_nat (nat_of_ascii (zbyte n)) = n.
Proof. intros H. unfold zbyte, byte. rewrite nat_ascii_embedding; lia. Qed.

Ltac divs := Z.to_euclidean_division_equations; lia.

Lemma points_utf8 n s : 0 <= n < 1114112 -> points (utf8_of n +:+ s) = n :: points s.
Proof.
  intros Hn. unfold utf8_of.
  destruct (Z.ltb_spec n 128) as [H1|H1]; [|destruct (Z.ltb_spec n 2048) as [H2|H2];
    [|destruct (Z.ltb_spec n 65536) as [H3|H3]]]; rewrite !append_cons, append_nil; cbn [points]; cbv zeta.
  - rewrite zbyte_nat by lia. by rewrite (proj2 (Z.ltb_lt n 192)) by lia.
  - rewrite !zbyte_nat by divs. rewrite (proj2 (Z.ltb_ge _ 192)), (proj2 (Z.ltb_lt _ 224)) by divs. f_equal. divs.
  - rewrite !zbyte_nat by divs.
    rewrite (proj2 (Z.ltb_ge _ 192)), (proj2 (Z.ltb_ge _ 224)), (proj2 (Z.ltb_lt _ 240)) by divs. f_equal. divs.
  - rewrite !zbyte_nat by divs.
    rewrite (proj2 (Z.ltb_ge _ 192)), (proj2 (Z.ltb_ge _ 224)), (proj2 (Z.ltb_ge _ 240)) by divs. f_equal. divs.
Qed.

Lemma points_text l : Forall (fun n => 0 <= n < 1114112) l -> points (text_of_points l) = l.
Proof.
  induction 1 as [|n l Hn _ IH]; [done|]. change (text_of_points (n :: l)) with (utf8_of n +:+ text_of_points l).
  by rewrite points_utf8, IH.
Qed.

(** ** Escapes *)

Definition hex_at (n : Z) : ascii := hex_digit (Z.to_nat (n mod 16)).

Definition u_escape (n : Z) : string :=
  String backslash (String "u"%char
    (String (hex_at (n / 4096)) (String (hex_at (n / 256)) (String (hex_at (n / 16)) (String (hex_at n) ""))))).

(** One character inside the quotes, beyond the basic plane as a pair. *)
Definition escape_point (n : Z) : string :=
  if n <? 128 then json_char true (zbyte n)
  else if n <? 65536 then u_escape n
  else u_escape (55296 + (n - 65536) / 1024) +:+ u_escape (56320 + (n - 65536) mod 1024).

Definition text_str (s : string) : string :=
  String dquote (fold_right (fun n t => escape_point n +:+ t) (String dquote "") (points s)).

Lemma hex_value_digit k : (k < 16)%nat -> hex_value (hex_digit k) = Some k.
Proof. intros H. do 16 (destruct k as [|k]; [reflexivity|]). lia. Qed.

Lemma hex_value_at n : hex_value (hex_at n) = Some (Z.to_nat (n mod 16)).
Proof. apply hex_value_digit. divs. Qed.

Lemma hex4_at n : 0 <= n < 65536 -> hex4 (hex_at (n / 4096)) (hex_at (n / 256)) (hex_at (n / 16)) (hex_at n) = Some n.
Proof. intros H. unfold hex4. rewrite !hex_value_at. f_equal. rewrite !Z2Nat.id by divs. divs. Qed.

Lemma scan_plain_char c t : (nat_of_ascii c < 128)%nat -> scan_text (json_char true c +:+ t) = cons_fst c (scan_text t).
Proof.
  intros H. destruct c as [[] [] [] [] [] [] [] []];
    first [reflexivity | exfalso; revert H; apply Nat.le_ngt, Nat.leb_le; reflexivity].
Qed.

Lemma scan_u_escape n t : 0 <= n < 65536 -> high_surrogate n = false ->
  scan_text (u_escape n +:+ t) = prepend (utf8_of n) (scan_text t).
Proof.
  intros Hn Hs. unfold u_escape. rewrite !append_cons, append_nil. cbn [scan_text].
  change (Ascii.eqb backslash dquote) with false. change (Ascii.eqb backslash backslash) with true.
  change (Ascii.eqb "u" "u") with true. cbv iota. by rewrite hex4_at, Hs.
Qed.

Lemma scan_pair n t : 65536 <= n < 1114112 ->
  scan_text (escape_point n +:+ t) = prepend (utf8_of n) (scan_text t).
Proof.
  intros Hn. unfold escape_point. rewrite (proj2 (Z.ltb_ge n 128)), (proj2 (Z.ltb_ge n 65536)) by lia.
  set (hi := 55296 + _). set (lo := 56320 + _).
  assert (high_surrogate hi = true /\ low_surrogate lo = true /\ pair_point hi lo = n) as (Hh & Hl & Hp).
  { unfold high_surrogate, low_surrogate, pair_point, hi, lo. rewrite !andb_true_iff, !Z.leb_le. clear hi lo.
    split; [|split]; [divs..|]. divs. }
  rewrite append_assoc. unfold u_escape at 1. rewrite !append_cons, append_nil.
  unfold u_escape. rewrite !append_cons, append_nil. cbn [scan_text].
  change (Ascii.eqb backslash dquote) with false. change (Ascii.eqb backslash backslash) with true.
  change (Ascii.eqb "u" "u") with true. cbv iota. cbn [andb].
  rewrite (hex4_at hi), Hh, (hex4_at lo), Hl, Hp; [done|unfold low_surrogate in Hl; lia|unfold high_surrogate in Hh; lia].
Qed.

Lemma scan_escape n t : scalar n = true -> scan_text (escape_point n +:+ t) = prepend (utf8_of n) (scan_text t).
Proof.
  unfold scalar. rewrite !andb_true_iff, negb_true_iff, orb_false_iff, Z.leb_le, Z.ltb_lt. intros [[H0 H1] [Hh _]].
  destruct (Z.lt_ge_cases n 65536) as [Hn|Hn]; [|by apply scan_pair]. unfold escape_point.
  destruct (Z.ltb_spec n 128) as [H2|H2].
  - rewrite scan_plain_char by (unfold zbyte, byte; rewrite nat_ascii_embedding; lia).
    unfold utf8_of. by rewrite (proj2 (Z.ltb_lt n 128) H2).
  - rewrite (proj2 (Z.ltb_lt n 65536) Hn). apply scan_u_escape; [lia | done].
Qed.

(** The texts without surrogates. *)
Definition is_text (s : string) : bool := forallb scalar (points s) && (text_of_points (points s) =? s)%string.

Lemma scan_text_str s rest : is_text s = true ->
  scan_text (fold_right (fun n t => escape_point n +:+ t) (String dquote "") (points s) +:+ rest) = Some (s, rest).
Proof.
  unfold is_text. rewrite andb_true_iff, String.eqb_eq. intros [Hs He].
  transitivity (Some (text_of_points (points s), rest)); [|by rewrite He]. clear He. revert Hs. generalize (points s) as l.
  induction l as [|n l IH]; [done|]. cbn [forallb fold_right]. intros [Hn Hl]%andb_prop.
  by rewrite append_assoc, scan_escape, IH.
Qed.

Lemma text_str_app s rest :
  text_str s +:+ rest = String dquote (fold_right (fun n t => escape_point n +:+ t) (String dquote "") (points s) +:+ rest).
Proof. unfold text_str. by rewrite append_cons. Qed.

(** ** Values *)

(** [json.dumps(v, separators=(",", ":"))] *)
Fixpoint compact_text (v : pyval) : string :=
  match v with
  | VNone => "null"
  | VBool b => if b then "true" else "false"
  | VInt z => str_int z
  | VFloat f => json_float f
  | VStr s => text_str s
  | VList l => "[" +:+ join "," (map compact_text l) +:+ "]"
  | VDict d =>
      "{" +:+ join ","
        ((fix go (d : list (string * pyval)) :=
            match d with
            | [] => []
            | (k, x) :: t => (text_str k +:+ ":" +:+ compact_text x) :: go t
            end) d) +:+ "}"
  end.

Definition entry_text (kv : string * pyval) : string := text_str (fst kv) +:+ ":" +:+ compact_text (snd kv).

Lemma compact_text_dict d : compact_text (VDict d) = "{" +:+ join "," (map entry_text d) +:+ "}".
Proof. cbn [compact_text]. do 4 f_equal. induction d as [|[k x] d IH]; [done|]. cbn. by rewrite IH. Qed.

(** The values a channel carries: no floats, texts without surrogates,
    integers the reader accepts, dicts with distinct keys. *)
Fixpoint carried (v : pyval) : bool :=
  match v with
  | VFloat _ => false
  | VStr s => is_text s
  | VInt z => Nat.leb (len (str_int (Z.abs z))) MAX_STR_DIGITS
  | VList l => forallb carried l
  | VDict d =>
      bool_decide (NoDup (map fst d)) &&
      (fix go (d : list (string * pyval)) :=
         match d with [] => true | (k, x) :: t => is_text k && carried x && go t end) d
  | _ => true
  end.

Lemma carried_dict d : carried (VDict d) = true <->
  NoDup (map fst d) /\ Forall (fun kv => is_text (fst kv) = true /\ carried (snd kv) = true) d.
Proof.
  cbn [carried]. rewrite andb_true_iff, bool_decide_eq_true. f_equiv.
  induction d as [|[k x] d IH]; [by split; [constructor|]|].
  rewrite !andb_true_iff, Forall_cons, IH. done.
Qed.

Lemma compact_text_first v : carried v = true -> exists c t, compact_text v = String c t /\ value_char c = true.
Proof.
  destruct v as [|[]|z|f|s|l|d]; intros Hp; try discriminate Hp;
    try (eexists _, _; split; [reflexivity | reflexivity]).
  destruct (str_int_first z) as (c & t & Hs & Hc). exists c, t. split; [exact Hs|].
  destruct c as [[] [] [] [] [] [] [] []]; done.
Qed.

Lemma scan_bounded_int z rest : carried (VInt z) = true -> starts_out num_stop rest = true ->
  scan_bounded_literal (str_int z +:+ rest) = Ok (VInt z, rest).
Proof.
  cbn [carried]. rewrite Nat.leb_le. intros Hd Hr. unfold scan_bounded_literal. rewrite scan_literal_int by done.
  cbv zeta. rewrite length_append, Nat.add_sub.
  rewrite (proj2 (Nat.ltb_ge _ _)); [done|]. unfold str_int in *. destruct (Z.ltb_spec z 0) as [Hz|Hz].
  - rewrite (proj2 (Z.ltb_ge _ _)) in Hd by lia. rewrite <- Z.abs_neq by lia. clear Hr Hz.
    revert Hd. generalize (str_of_ascii (digits (Z.abs z))) as t. intros t Hd.
    change (starts_with "-" (("-" +:+ t) +:+ rest)) with true. rewrite length_append. cbn [String.length]. lia.
  - rewrite (proj2 (Z.ltb_ge _ _)) in Hd by lia. rewrite Z.abs_eq in Hd by lia. lia.
Qed.

Definition strict_reads (v : pyval) : Prop :=
  forall fuel rest, (2 * len (compact_text v +:+ rest) < fuel)%nat -> starts_out num_stop rest = true ->
  scan_strict fuel (compact_text v +:+ rest) = Ok (v, rest).

Lemma after_item_stop {A} close c rest (stop go : string -> res json_error A) :
  is_json_ws c = false -> Ascii.eqb c close = true -> after_item close (String c rest) stop go = stop rest.
Proof. intros Hw Hc. unfold after_item. by rewrite skip_ws_char, Hc. Qed.

Lemma after_item_go {A} close rest (stop go : string -> res json_error A) :
  Ascii.eqb ","%char close = false -> after_item close (String ","%char rest) stop go = go (skip_ws rest).
Proof. intros Hc. unfold after_item. rewrite skip_ws_char by done. by rewrite Hc. Qed.

Lemma join_cons (x : string) l : l <> [] -> join "," (x :: l) = x +:+ String ","%char (join "," l).
Proof. by destruct l. Qed.

Lemma skip_joined (l : list string) rest c t : head l = Some (String c t) -> is_json_ws c = false ->
  skip_ws (join "," l +:+ rest) = join "," l +:+ rest.
Proof.
  destruct l as [|x l]; [done|]. intros [= ->] Hc. destruct l; cbn [join]; rewrite !append_cons; by apply skip_ws_char.
Qed.

Lemma compact_first v rest : carried v = true -> skip_ws (compact_text v +:+ rest) = compact_text v +:+ rest.
Proof.
  intros H. destruct (compact_text_first v H) as (c & t & -> & (Hc & _)%value_char_spec). rewrite append_cons. by apply skip_ws_char.
Qed.

Lemma strict_array_spec l : forall fuel rest, l <> [] -> Forall (fun v => carried v = true /\ strict_reads v) l ->
  (2 * len (join "," (map compact_text l) +:+ String "]"%char rest) + 1 < fuel)%nat ->
  strict_array fuel (join "," (map compact_text l) +:+ String "]"%char rest) = Ok (l, rest).
Proof.
  induction l as [|v l IH]; intros fuel rest Hne Hr Hf; [done|]. apply Forall_cons in Hr as [[Hc Hv] Hr].
  destruct fuel as [|fuel]; [lia|]. cbn [strict_array]. destruct l as [|w l].
  - cbn [map join] in *. rewrite Hv by (done || lia). cbn [mbind res_bind]. by rewrite after_item_stop.
  - cbn [map] in *. rewrite join_cons in * by done. rewrite append_assoc, append_cons in *. rewrite Hv by (done || lia). cbn [mbind res_bind].
    rewrite after_item_go by done. apply Forall_cons in Hr as Hr'. destruct Hr' as [[Hw _] _].
    destruct (compact_text_first w Hw) as (c & t & Et & (Hc' & _)%value_char_spec).
    rewrite (skip_joined _ _ c t) by (cbn; by rewrite ?Et). rewrite IH; [done | done | done|].
    rewrite length_append in Hf. cbn [String.length] in Hf. lia.
Qed.

Lemma strict_object_spec d : forall fuel rest, d <> [] ->
  Forall (fun kv => is_text (fst kv) = true /\ carried (snd kv) = true /\ strict_reads (snd kv)) d ->
  (2 * len (join "," (map entry_text d) +:+ String "}"%char rest) + 1 < fuel)%nat ->
  strict_object fuel (join "," (map entry_text d) +:+ String "}"%char rest) = Ok (d, rest).
Proof.
  induction d as [|[k v] d IH]; intros fuel rest Hne Hr Hf; [done|]. apply Forall_cons in Hr as [(Hk & Hc & Hv) Hr].
  cbn [fst snd] in *. destruct fuel as [|fuel]; [lia|].
  assert (Hstep : forall tail, starts_out num_stop tail = true -> (2 * len (entry_text (k, v) +:+ tail) < fuel)%nat ->
    strict_object (S fuel) (entry_text (k, v) +:+ tail) =
    after_item "}"%char tail (fun r => Ok ([(k, v)], r)) (fun r => '(kvs, r) ← strict_object fuel r; Ok ((k, v) :: kvs, r))).
  { intros tail Ht Hl. unfold entry_text in *. cbn [fst snd] in *. rewrite append_assoc, text_str_app in *.
    cbn [strict_object]. rewrite Ascii.eqb_refl, scan_text_str by done. cbn [of_option mbind res_bind].
    rewrite append_assoc, append_cons, append_nil in *. rewrite skip_ws_char by done. cbn [Ascii.eqb Bool.eqb].
    rewrite compact_first by done. rewrite Hv; [done| |done].
    cbn [String.length] in Hl. rewrite length_append in Hl. cbn [String.length] in Hl. lia. }
  destruct d as [|[k2 v2] d].
  - cbn [map join] in *. rewrite Hstep by (done || lia). by rewrite after_item_stop.
  - cbn [map] in *. rewrite join_cons in * by done. rewrite append_assoc, append_cons in *. rewrite Hstep by (done || lia).
    rewrite after_item_go by done. rewrite (skip_joined _ _ dquote (fold_right (fun n t => escape_point n +:+ t) (String dquote "") (points k2) +:+ ":" +:+ compact_text v2))
      by (cbn; unfold entry_text; cbn [fst snd]; by rewrite ?text_str_app).
    rewrite IH; [done | done | done|].
    rewrite length_append in Hf. cbn [String.length] in Hf. lia.
Qed.

Lemma no_dup_keys d : forall seen, NoDup (map fst (seen ++ d)) -> detect_dup_keys seen d = Ok (seen ++ d).
Proof.
  induction d as [|[k v] d IH]; intros seen Hn; cbn [detect_dup_keys]; [by rewrite app_nil_r|].
  assert (dget k seen = None) as ->.
  { apply dget_None. rewrite map_app in Hn. apply NoDup_app in Hn as (_ & Hn & _). intros Hk. apply (Hn k Hk). by left. }
  rewrite IH; rewrite <- app_assoc; done.
Qed.

Lemma entry_first k v rest : exists t, entry_text (k, v) +:+ rest = String dquote t.
Proof. unfold entry_text. cbn [fst snd]. rewrite append_assoc, text_str_app. eauto. Qed.

Lemma carried_reads v : carried v = true -> strict_reads v.
Proof.
  induction v as [| b | z | f | s | l IH | d IH] using pyval_nested_ind; intros Hc fuel rest Hf Hrest;
    (destruct fuel as [|fuel]; [lia|]).
  - reflexivity.
  - by destruct b.
  - cbn [compact_text] in *. rewrite <- (scan_bounded_int z rest) by done.
    destruct (str_int_first z) as (c & t & -> & Hd). rewrite append_cons. cbn [scan_strict].
    by destruct c as [[] [] [] [] [] [] [] []].
  - done.
  - cbn [compact_text carried] in *. rewrite text_str_app. cbn [scan_strict]. by rewrite Ascii.eqb_refl, scan_text_str.
  - cbn [carried] in Hc. apply forallb_Forall' in Hc.
    destruct l as [|v l]; [reflexivity|].
    assert (Forall (fun v => carried v = true /\ strict_reads v) (v :: l)) as Hall.
    { eapply Forall_impl; [exact (List.Forall_and IH Hc)|]. cbn beta. intros x [H1 H2]. auto. }
    cbn [compact_text] in *. rewrite !append_cons, append_nil, append_assoc in *. cbn [String.length] in Hf.
    change ("]" +:+ rest) with (String "]"%char rest) in *.
    apply Forall_cons in Hc as [Hv _]. destruct (compact_text_first v Hv) as (c & t & Et & (Hw & Hb & _)%value_char_spec).
    assert (exists t', join "," (map compact_text (v :: l)) +:+ String "]"%char rest = String c t') as [t' Ht'].
    { destruct l; cbn [map join]; rewrite Et, !append_cons; eauto. }
    cbn [scan_strict]. change (Ascii.eqb "[" dquote) with false. change (Ascii.eqb "[" "{") with false.
    change (Ascii.eqb "[" "[") with true. cbv iota. rewrite (skip_joined _ _ c t) by (cbn; by rewrite ?Et).
    pose proof (strict_array_spec (v :: l) fuel rest) as Ha. rewrite Ht' in *. rewrite Hb, Ha by (done || lia). done.
  - apply carried_dict in Hc as [Hn Hc]. destruct d as [|[k v] d]; [reflexivity|].
    assert (Forall (fun kv => is_text (fst kv) = true /\ carried (snd kv) = true /\ strict_reads (snd kv)) ((k, v) :: d)) as Hall.
    { eapply Forall_impl; [exact (List.Forall_and IH Hc)|]. cbn beta. intros x [H1 [H2 H3]]. auto. }
    rewrite compact_text_dict in *. rewrite !append_cons, append_nil, append_assoc in *. cbn [String.length] in Hf.
    change ("}" +:+ rest) with (String "}"%char rest) in *.
    destruct (entry_first k v "") as [t0 Et]. rewrite append_empty_r in Et.
    assert (exists t', join "," (map entry_text ((k, v) :: d)) +:+ String "}"%char rest = String dquote t') as [t' Ht'].
    { destruct d; cbn [map join]; rewrite Et, !append_cons; eauto. }
    cbn [scan_strict]. change (Ascii.eqb "{" dquote) with false. change (Ascii.eqb "{" "{") with true.
    cbv iota. rewrite (skip_joined _ _ dquote t0) by (cbn [map head]; by rewrite ?Et).
    pose proof (strict_object_spec ((k, v) :: d) fuel rest) as Ha. rewrite Ht' in *. rewrite Ha by (done || lia).
    change (Ascii.eqb dquote "}") with false. cbn [mbind res_bind]. by rewrite no_dup_keys.
Qed.

(** What is written is read back. *)
Lemma loads_compact v : carried v = true -> loads_strict (compact_text v) = Ok v.
Proof.
  intros Hc. unfold loads_strict. pose proof (compact_first _ "" Hc) as Hs. rewrite append_empty_r in Hs.
  cbv zeta. rewrite Hs. pose proof (carried_reads _ Hc (2 * len (compact_text v) + 2)%nat "") as H.
  rewrite append_empty_r in H. rewrite H; [done | lia | done].
Qed.

Lemma parse_compact d : carried (VDict d) = true -> parse_json_strict (compact_text (VDict d)) = Ok d.
Proof. intros Hc. unfold parse_json_strict. by rewrite loads_compact. Qed.

(** ** What is written is printable *)

Definition printable (c : ascii) : bool := between 32 126 (nat_of_ascii c).

Lemma all_chars_join p l : all_chars p "," = true -> Forall (fun s => all_chars p s = true) l -> all_chars p (join "," l) = true.
Proof.
  intros Hp. induction 1 as [|x l Hx Hl IH]; [done|]. destruct l as [|y l]; [done|].
  rewrite join_cons, all_chars_app, Hx by done. change (String "," (join "," (y :: l))) with ("," +:+ join "," (y :: l)).
  by rewrite all_chars_app, Hp, IH.
Qed.

Lemma hex_printable k : (k < 16)%nat -> printable (hex_digit k) = true.
Proof. intros H. do 16 (destruct k as [|k]; [reflexivity|]). lia. Qed.

Lemma u_escape_printable n : all_chars printable (u_escape n) = true.
Proof. unfold u_escape, hex_at. cbn [all_chars]. rewrite !hex_printable by divs. done. Qed.

Lemma json_char_printable c : (nat_of_ascii c < 128)%nat -> all_chars printable (json_char true c) = true.
Proof.
  intros H. destruct c as [[] [] [] [] [] [] [] []];
    first [reflexivity | exfalso; revert H; apply Nat.le_ngt, Nat.leb_le; reflexivity].
Qed.

Lemma escape_printable n : all_chars printable (escape_point n) = true.
Proof.
  unfold escape_point. destruct (Z.ltb_spec n 128).
  - apply json_char_printable. unfold zbyte, byte. rewrite nat_ascii_embedding; lia.
  - destruct (n <? 65536); [apply u_escape_printable|]. by rewrite all_chars_app, !u_escape_printable.
Qed.

Lemma text_str_printable s : all_chars printable (text_str s) = true.
Proof.
  unfold text_str. cbn [all_chars]. change (printable dquote) with true. cbn [andb].
  induction (points s) as [|n l IH]; [done|]. cbn [fold_right]. by rewrite all_chars_app, escape_printable, IH.
Qed.

Lemma all_chars_impl p q s : (forall c, p c = true -> q c = true) -> all_chars p s = true -> all_chars q s = true.
Proof. intros H. induction s as [|c s IH]; [done|]. cbn. rewrite !andb_true_iff. naive_solver. Qed.

Lemma str_int_printable z : all_chars printable (str_int z) = true.
Proof.
  assert (forall n, 0 <= n -> all_chars printable (str_of_ascii (digits n)) = true) as H.
  { intros n Hn. destruct (digit_text_of n Hn) as (c & t & -> & Hd & _). revert Hd. apply all_chars_impl.
    clear. intros c. destruct c as [[] [] [] [] [] [] [] []]; intros H; try reflexivity; discriminate H. }
  unfold str_int. destruct (Z.ltb_spec z 0); [rewrite all_chars_app; cbn [andb all_chars]|]; apply H; lia.
Qed.

Lemma compact_printable v : carried v = true -> all_chars printable (compact_text v) = true.
Proof.
  induction v as [| b | z | f | s | l IH | d IH] using pyval_nested_ind; intros Hc.
  - done.
  - by destruct b.
  - apply str_int_printable.
  - done.
  - apply text_str_printable.
  - cbn [carried compact_text] in *. apply forallb_Forall' in Hc. rewrite !all_chars_app. cbn [all_chars andb].
    rewrite all_chars_join; [done | done|]. apply Forall_map. eapply Forall_impl; [exact (List.Forall_and IH Hc)|].
    cbn beta. naive_solver.
  - apply carried_dict in Hc as [_ Hc]. rewrite compact_text_dict, !all_chars_app. cbn [all_chars andb].
    rewrite all_chars_join; [done | done|]. apply Forall_map. eapply Forall_impl; [exact (List.Forall_and IH Hc)|].
    intros [k x] [H1 [H2 H3]]. unfold entry_text. cbn [fst snd] in *. rewrite !all_chars_app, text_str_printable, H1 by done. done.
Qed.

(** ** Texts and small integers are carried *)

Lemma points_app a b : is_text a = true -> points (a +:+ b) = points a ++ points b.
Proof.
  unfold is_text. rewrite andb_true_iff, String.eqb_eq. intros [Hs He]. rewrite <- He at 1. clear He.
  induction (points a) as [|n l IH]; [done|]. cbn [forallb] in Hs. apply andb_prop in Hs as [Hn Hl].
  change (text_of_points (n :: l)) with (utf8_of n +:+ text_of_points l). rewrite append_assoc, points_utf8, IH by done || (unfold scalar in Hn; lia).
  done.
Qed.

Lemma text_of_app l k : text_of_points (l ++ k) = text_of_points l +:+ text_of_points k.
Proof.
  induction l as [|n l IH]; [done|].
  change (text_of_points ((n :: l) ++ k)) with (utf8_of n +:+ text_of_points (l ++ k)). by rewrite IH, <- append_assoc.
Qed.

Lemma is_text_app a b : is_text a = true -> is_text b = true -> is_text (a +:+ b) = true.
Proof.
  intros Ha Hb. pose proof (points_app a b Ha) as E. unfold is_text in *. rewrite E, text_of_app, forallb_app.
  apply andb_prop in Ha as [-> ->%String.eqb_eq], Hb as [-> ->%String.eqb_eq]. by rewrite String.eqb_refl.
Qed.

Lemma printable_text s : all_chars printable s = true -> is_text s = true.
Proof.
  induction s as [|c s IH]; [done|]. cbn [all_chars]. intros [Hc Hs]%andb_prop.
  change (String c s) with (String c "" +:+ s). apply is_text_app; [|by apply IH]. clear -Hc.
  by destruct c as [[] [] [] [] [] [] [] []].
Qed.

Lemma digits_fuel_len fuel : forall z acc, (length (digits_fuel fuel z acc) <= fuel + length acc)%nat.
Proof.
  induction fuel as [|fuel IH]; intros z acc; cbn [digits_fuel]; [lia|]. destruct (z <? 10); [cbn; lia|].
  etransitivity; [apply IH|]. cbn. lia.
Qed.

Lemma string_of_list_len l : len (String.string_of_list_ascii l) = length l.
Proof. induction l as [|c l IH]; [done|]. cbn. by rewrite IH. Qed.

(** A machine number. *)
Definition small (z : Z) : Prop := Z.abs z < 2 ^ 64.

Lemma carried_int z : small z -> carried (VInt z) = true.
Proof.
  intros H. unfold small in H. cbn [carried]. apply Nat.leb_le. unfold str_int. rewrite (proj2 (Z.ltb_ge _ _)) by lia.
  unfold str_of_ascii. rewrite string_of_list_len. unfold digits. etransitivity; [apply digits_fuel_len|].
  assert (Z.log2 (Z.abs z) < 64).
  { destruct (Z.eq_dec (Z.abs z) 0) as [->|]; [done|]. apply Z.log2_lt_pow2; lia. }
  change MAX_STR_DIGITS with (Z.to_nat 4300). cbn [length]. lia.
Qed.
