(* ===== verification/ProtocolStream.v ===== *)
(** * The supervisor protocol

    [runtime/exec_supervisor.py], re-exported by [runtime/exec_protocol.py]:
    the versioned records the supervisor writes to its parent, the incremental
    parser both readers share, the synchronous and the asynchronous reader
    over what the event loop hands them, and the evidence that is drawn from a
    stream. *)
From S2P Require Import Prelude PyFloat PyValue Json StrictJson.

(** ** Records *)

Definition PROTO_VERSION : Z := 1.

Definition PROTO_SUPERVISOR_STARTED : string := "supervisor_started".
Definition PROTO_BOOTSTRAP_SPAWNED : string := "bootstrap_spawned".
Definition PROTO_ENFORCEMENT_VERIFIED : string := "enforcement_verified".
Definition PROTO_EXEC_MONITOR_ARMED : string := "exec_monitor_armed".
Definition PROTO_EXEC_CONFIRMED : string := "exec_confirmed".
Definition PROTO_WORKLOAD_EXITED : string := "workload_exited".
Definition PROTO_SUPERVISOR_FAILED : string := "supervisor_failed".
Definition PROTO_CLEANUP_COMPLETED : string := "cleanup_completed".

Definition PROTO_ALLOWED_TYPES : list string :=
  [ PROTO_SUPERVISOR_STARTED; PROTO_BOOTSTRAP_SPAWNED; PROTO_ENFORCEMENT_VERIFIED; PROTO_EXEC_MONITOR_ARMED;
    PROTO_EXEC_CONFIRMED; PROTO_WORKLOAD_EXITED; PROTO_SUPERVISOR_FAILED; PROTO_CLEANUP_COMPLETED ].

Definition PROTO_ALLOWED_FIELDS : dict (list string) :=
  [ (PROTO_SUPERVISOR_STARTED, ["version"; "type"]);
    (PROTO_BOOTSTRAP_SPAWNED, ["version"; "type"; "pid"]);
    (PROTO_ENFORCEMENT_VERIFIED, ["version"; "type"; "metadata"]);
    (PROTO_EXEC_MONITOR_ARMED, ["version"; "type"]);
    (PROTO_EXEC_CONFIRMED, ["version"; "type"]);
    (PROTO_WORKLOAD_EXITED, ["version"; "type"; "started"; "exit_code"; "signaled"; "signal_num"]);
    (PROTO_SUPERVISOR_FAILED, ["version"; "type"; "reason"; "errno"]);
    (PROTO_CLEANUP_COMPLETED, ["version"; "type"; "cleanup_succeeded"; "reason"]) ].

Definition PROTO_REQUIRED_FIELDS : dict (list string) :=
  [ (PROTO_SUPERVISOR_STARTED, ["version"; "type"]);
    (PROTO_BOOTSTRAP_SPAWNED, ["version"; "type"; "pid"]);
    (PROTO_ENFORCEMENT_VERIFIED, ["version"; "type"]);
    (PROTO_EXEC_MONITOR_ARMED, ["version"; "type"]);
    (PROTO_EXEC_CONFIRMED, ["version"; "type"]);
    (PROTO_WORKLOAD_EXITED, ["version"; "type"; "started"]);
    (PROTO_SUPERVISOR_FAILED, ["version"; "type"; "reason"]);
    (PROTO_CLEANUP_COMPLETED, ["version"; "type"; "cleanup_succeeded"]) ].

(** The empty text stands for the initial state; no record is of that type. *)
Definition PROTO_PREDECESSORS : dict (list string) :=
  [ (PROTO_SUPERVISOR_STARTED, []);
    (PROTO_BOOTSTRAP_SPAWNED, [PROTO_SUPERVISOR_STARTED]);
    (PROTO_ENFORCEMENT_VERIFIED, [PROTO_BOOTSTRAP_SPAWNED]);
    (PROTO_EXEC_MONITOR_ARMED, [PROTO_ENFORCEMENT_VERIFIED]);
    (PROTO_EXEC_CONFIRMED, [PROTO_EXEC_MONITOR_ARMED]);
    (PROTO_WORKLOAD_EXITED, [PROTO_EXEC_CONFIRMED]);
    (PROTO_SUPERVISOR_FAILED, [""; PROTO_SUPERVISOR_STARTED; PROTO_BOOTSTRAP_SPAWNED; PROTO_ENFORCEMENT_VERIFIED;
                               PROTO_EXEC_MONITOR_ARMED; PROTO_EXEC_CONFIRMED]);
    (PROTO_CLEANUP_COMPLETED, [PROTO_WORKLOAD_EXITED; PROTO_SUPERVISOR_FAILED]) ].

(** [obj.get(k)] and [k in obj] *)
Definition given (k : string) (obj : pyctx) : bool := match dget k obj with Some _ => true | None => false end.

(** [_is_int_not_bool]: the integers of the model are not its booleans. *)
Definition is_int_not_bool (v : pyval) : bool := match v with VInt _ => true | _ => false end.

(** The integer a value is, once it has been checked to be one. *)
Definition int_of (v : pyval) : Z := match v with VInt z => z | _ => 0 end.

Definition nonempty_text (v : pyval) : bool := match v with VStr s => str_truthy s | _ => false end.

Definition is_true (v : pyval) : bool := match v with VBool true => true | _ => false end.
Definition is_bool (v : pyval) : bool := match v with VBool _ => true | _ => false end.

Definition validate_spawned (obj : pyctx) : option string :=
  let pid := context_get "pid" obj in
  if negb (is_int_not_bool pid) || (int_of pid <=? 0) then Some "protocol_invalid_pid" else None.

(** Exactly one outcome: an exit code, or a signal with its number. *)
Definition validate_exited (obj : pyctx) : option string :=
  let has_exit := given "exit_code" obj in
  let has_signal := given "signaled" obj in
  let has_signal_num := given "signal_num" obj in
  let code := context_get "exit_code" obj in
  let num := context_get "signal_num" obj in
  if negb (is_bool (context_get "started" obj)) then Some "protocol_invalid_started_type"
  else if has_exit && has_signal then Some "protocol_conflicting_outcome"
  else if has_exit && has_signal_num then Some "protocol_stray_signal_num"
  else if has_signal && negb has_signal_num then Some "protocol_missing_signal_num"
  else if has_signal_num && negb has_signal then Some "protocol_signal_num_without_signaled"
  else if has_exit && negb (is_int_not_bool code) then Some "protocol_invalid_exit_code"
  else if has_exit && ((int_of code <? 0) || (255 <? int_of code)) then Some "protocol_invalid_exit_code_range"
  else if has_signal && negb (is_true (context_get "signaled" obj)) then Some "protocol_invalid_signaled"
  else if has_signal && (negb (is_int_not_bool num) || (int_of num <? 1)) then Some "protocol_invalid_signal_num"
  else if has_signal && (64 <? int_of num) then Some "protocol_invalid_signal_num_range"
  else if negb has_exit && negb has_signal then Some "protocol_missing_outcome"
  else None.

Definition validate_failed (obj : pyctx) : option string :=
  match context_get "reason" obj with
  | VStr r =>
      if negb (str_truthy r) then Some "protocol_invalid_reason"
      else if Nat.ltb 500 (text_length r) then Some "protocol_reason_too_long"
      else if given "errno" obj
              && (negb (is_int_not_bool (context_get "errno" obj)) || (int_of (context_get "errno" obj) <? 0))
      then Some "protocol_invalid_errno" else None
  | _ => Some "protocol_invalid_reason"
  end.

Definition validate_cleanup (obj : pyctx) : option string :=
  if negb (is_bool (context_get "cleanup_succeeded" obj)) then Some "protocol_invalid_cleanup_succeeded"
  else if given "reason" obj && negb (nonempty_text (context_get "reason" obj))
  then Some "protocol_invalid_cleanup_reason" else None.

(** [_validate_proto_fields] *)
Definition validate_proto_fields (rec_type : string) (obj : pyctx) : option string :=
  if negb (is_int_not_bool (context_get "version" obj)) then Some "protocol_invalid_version_type"
  else if negb (nonempty_text (context_get "type" obj)) then Some "protocol_invalid_type_value"
  else if (rec_type =? PROTO_BOOTSTRAP_SPAWNED)%string then validate_spawned obj
  else if (rec_type =? PROTO_WORKLOAD_EXITED)%string then validate_exited obj
  else if (rec_type =? PROTO_SUPERVISOR_FAILED)%string then validate_failed obj
  else if (rec_type =? PROTO_CLEANUP_COMPLETED)%string then validate_cleanup obj
  else None.

(** What one line is: a record, refused, or an unhashable type, whose lookup
    in the set of types raises [TypeError]. *)
Inductive line_check := Valid (rec_type : string) (obj : pyctx) | Refused (reason : string) | Raises.

(** [x in frozenset] for a JSON value *)
Definition unhashable (v : pyval) : bool := match v with VList _ | VDict _ => true | _ => false end.

Definition check_object (obj : pyctx) : line_check :=
  if negb (py_eq (context_get "version" obj) (VInt PROTO_VERSION)) then Refused "protocol_unsupported_version"
  else
    let ty := context_get "type" obj in
    if unhashable ty then Raises
    else match ty with
         | VStr t =>
             if negb (mem t PROTO_ALLOWED_TYPES) then Refused "protocol_unknown_type"
             else if negb (forallb (fun k => mem k (dget_or t [] PROTO_ALLOWED_FIELDS)) (map fst obj))
             then Refused "protocol_unknown_field"
             else if negb (forallb (fun k => given k obj) (dget_or t ["version"; "type"] PROTO_REQUIRED_FIELDS))
             then Refused "protocol_missing_required_field"
             else match validate_proto_fields t obj with
                  | Some reason => Refused reason
                  | None => Valid t obj
                  end
         | _ => Refused "protocol_unknown_type"
         end.

Definition check_record (line : string) : line_check :=
  match parse_json_strict line with
  | Err DuplicateKeyError => Refused "protocol_duplicate_key"
  | Err Malformed => Refused "protocol_malformed"
  | Ok obj => check_object obj
  end.

(** ** The parser *)

Record Limits := mkLimits { max_bytes : nat; max_records : nat; max_record_bytes : nat }.

Definition default_limits : Limits := mkLimits 64000 32 8192.

Record ProtocolReadResult := mkResult {
  ok : bool;
  reason : string;
  records : list pyctx;
  bytes_read : nat;
}.

(** What the records so far amount to. *)
Record Core := mkCore {
  c_records : list pyctx;
  last_type : option string;
  terminal_seen : bool;
  cleanup_failed : bool;
}.

Record ProtocolStreamParser := mkParser { core : Core; buffer : string; p_bytes : nat }.

Definition new_core : Core := mkCore [] None false false.
Definition new_parser : ProtocolStreamParser := mkParser new_core "" 0.

(** [_result] *)
Definition result (p : ProtocolStreamParser) (b : bool) (why : string) : ProtocolReadResult :=
  mkResult b why (c_records (core p)) (p_bytes p).

(** The order of records: why a record may not come now. *)
Definition check_order (c : Core) (ty : string) (obj : pyctx) : option string :=
  let late :=
    if terminal_seen c then Some "protocol_record_after_cleanup"
    else if (ty =? PROTO_WORKLOAD_EXITED)%string && negb (truthy (dget_or "started" (VBool false) obj))
    then Some "protocol_workload_not_started"
    else if (ty =? PROTO_WORKLOAD_EXITED)%string && negb (bool_decide (last_type c = Some PROTO_EXEC_CONFIRMED))
    then Some "protocol_workload_without_exec_confirmed"
    else match last_type c with
         | Some l => if mem l (dget_or ty [] PROTO_PREDECESSORS) then None else Some "protocol_invalid_transition"
         | None => None
         end in
  match last_type c with
  | None => if mem ty [PROTO_SUPERVISOR_STARTED; PROTO_SUPERVISOR_FAILED] then late
            else Some "protocol_invalid_initial_state"
  | Some _ => if (ty =? PROTO_SUPERVISOR_STARTED)%string then Some "protocol_duplicate_supervisor_started" else late
  end.

Definition append_record (c : Core) (ty : string) (obj : pyctx) : Core :=
  let cleanup := (ty =? PROTO_CLEANUP_COMPLETED)%string in
  mkCore (c_records c ++ [obj]) (Some ty) (terminal_seen c || cleanup)
    (cleanup_failed c || cleanup && negb (truthy (dget_or "cleanup_succeeded" (VBool true) obj))).

(** How a line ends: the stream goes on, is refused, or [TypeError]. *)
Inductive line_end := Go (c : Core) | Reject (reason : string) | Raise.

(** [_process_line] *)
Definition process_line (lim : Limits) (c : Core) (line : string) : line_end :=
  if Nat.leb (max_records lim) (length (c_records c)) then Reject "protocol_too_many_records"
  else if Nat.ltb (max_record_bytes lim) (String.length line) then Reject "protocol_record_too_large"
  else match check_record line with
       | Raises => Raise
       | Refused reason => Reject reason
       | Valid ty obj =>
           match check_order c ty obj with
           | Some reason => Reject reason
           | None => Go (append_record c ty obj)
           end
       end.

Definition newline : string := String (byte 10) "".

(** What a call of the parser ends in, when it ends the reading. *)
Inductive outcome := Settled (r : ProtocolReadResult) | Crashed.

(** The loop of [feed] over the complete lines of the buffer. *)
Fixpoint drain (lim : Limits) (fuel : nat) (p : ProtocolStreamParser) : ProtocolStreamParser * option outcome :=
  match fuel, split1 newline (buffer p) with
  | S f, Some (raw, rest) =>
      let p := mkParser (core p) rest (p_bytes p) in
      let line := strip_text (repair raw) in
      if negb (str_truthy line) then drain lim f p
      else match process_line lim (core p) line with
           | Go c => drain lim f (mkParser c rest (p_bytes p))
           | Reject why => (p, Some (Settled (result p false why)))
           | Raise => (p, Some Crashed)
           end
  | _, _ => (p, None)
  end.

(** [feed] *)
Definition feed (lim : Limits) (p : ProtocolStreamParser) (chunk : string) : ProtocolStreamParser * option outcome :=
  if Nat.ltb (max_bytes lim) (p_bytes p + String.length chunk)
  then (p, Some (Settled (result p false "protocol_limit_exceeded")))
  else let buf := buffer p +:+ chunk in
       drain lim (String.length buf) (mkParser (core p) buf (p_bytes p + String.length chunk)).

(** [bytes.strip()] *)
Definition is_byte_space (c : ascii) : bool := between 9 13 (nat_of_ascii c) || Nat.eqb (nat_of_ascii c) 32.

(** [feed_eof], [on_deadline] and [on_stop] *)
Definition feed_eof (p : ProtocolStreamParser) : ProtocolReadResult :=
  if terminal_seen (core p) then
    if str_truthy (strip_by is_byte_space (buffer p)) then result p false "protocol_data_after_cleanup"
    else if cleanup_failed (core p) then result p false "protocol_cleanup_failed"
    else result p true "ok"
  else result p false "protocol_eof_before_terminal".

Definition on_deadline (p : ProtocolStreamParser) : ProtocolReadResult :=
  result p false (if terminal_seen (core p) then "protocol_no_eof_after_cleanup" else "protocol_timeout").

Definition on_stop (p : ProtocolStreamParser) : ProtocolReadResult := result p false "protocol_stopped".

(** ** The readers *)

(** What [select] and [read] hand to the reader, in order. *)
Inductive io_event :=
| Data (chunk : string)          (* bytes, at least one *)
| EndOfFile
| DeadlinePassed
| StopReadable
| IoFailed (reason : string)     (* an [OSError] of select, read or registration *)
| Nothing.                       (* interrupted, or not readable *)

(** [read_bounded_protocol]; [None] while it still waits. *)
Fixpoint read_bounded_protocol (lim : Limits) (p : ProtocolStreamParser) (l : list io_event) : option outcome :=
  match l with
  | [] => None
  | e :: l =>
      match e with
      | Data chunk => match feed lim p chunk with
                      | (_, Some o) => Some o
                      | (p, None) => read_bounded_protocol lim p l
                      end
      | EndOfFile => Some (Settled (feed_eof p))
      | DeadlinePassed => Some (Settled (on_deadline p))
      | StopReadable => Some (Settled (on_stop p))
      | IoFailed why => Some (Settled (result p false why))
      | Nothing => read_bounded_protocol lim p l
      end
  end.

(** One wake of the asynchronous reader: what the drain reads until it would
    block, ends or fails, whether the reader could be registered again, and
    which signals had arrived. *)
Record Wake := mkWake {
  w_chunks : list string;
  w_end : option io_event;
  w_rearm_failed : option string;
  w_deadline : bool;
  w_stop : bool;
}.

(** [_drain_protocol] *)
Fixpoint drain_protocol (lim : Limits) (p : ProtocolStreamParser) (chunks : list string) (stop : option io_event)
  : ProtocolStreamParser * option outcome :=
  match chunks with
  | chunk :: l => match feed lim p chunk with
                  | (p, Some o) => (p, Some o)
                  | (p, None) => drain_protocol lim p l stop
                  end
  | [] =>
      (p, match stop with
          | Some EndOfFile => Some (Settled (feed_eof p))
          | Some (IoFailed why) => Some (Settled (result p false why))
          | _ => None
          end)
  end.

(** [read_bounded_protocol_async], after the readers are registered: the
    protocol is drained before the deadline and the stop are looked at. *)
Fixpoint read_bounded_protocol_async (lim : Limits) (p : ProtocolStreamParser) (l : list Wake) : option outcome :=
  match l with
  | [] => None
  | w :: l =>
      match drain_protocol lim p (w_chunks w) (w_end w) with
      | (_, Some o) => Some o
      | (p, None) =>
          match w_rearm_failed w with
          | Some why => Some (Settled (result p false why))
          | None =>
              if w_deadline w then Some (Settled (on_deadline p))
              else if w_stop w then Some (Settled (on_stop p))
              else read_bounded_protocol_async lim p l
          end
      end
  end.

(** ** Evidence *)

Record SupervisorExecutionEvidence := mkEvidence {
  protocol_valid : bool;
  exec_confirmed : bool;
  workload_exit_code : pyval;
  workload_signal : pyval;
  supervisor_failure_reason : pyval;
  cleanup_succeeded : pyval;
  protocol_failure_reason : option string;
  enforcement_metadata : pyctx;
}.

Definition type_of_record (obj : pyctx) : string := match context_get "type" obj with VStr t => t | _ => "" end.

Definition note_record (e : SupervisorExecutionEvidence) (obj : pyctx) : SupervisorExecutionEvidence :=
  let t := type_of_record obj in
  let '(mkEvidence v x code sig fail cl why md) := e in
  if (t =? PROTO_EXEC_CONFIRMED)%string then mkEvidence v true code sig fail cl why md
  else if (t =? PROTO_WORKLOAD_EXITED)%string then
    if truthy (context_get "signaled" obj) then mkEvidence v x code (context_get "signal_num" obj) fail cl why md
    else mkEvidence v x (context_get "exit_code" obj) sig fail cl why md
  else if (t =? PROTO_SUPERVISOR_FAILED)%string then mkEvidence v x code sig (context_get "reason" obj) cl why md
  else if (t =? PROTO_CLEANUP_COMPLETED)%string then mkEvidence v x code sig fail (context_get "cleanup_succeeded" obj) why md
  else if (t =? PROTO_ENFORCEMENT_VERIFIED)%string then
    match dget_or "metadata" (VDict []) obj with
    | VDict m => mkEvidence v x code sig fail cl why m
    | _ => e
    end
  else e.

Definition extract_supervisor_evidence (r : ProtocolReadResult) : SupervisorExecutionEvidence :=
  fold_left note_record (records r)
    (mkEvidence (ok r) false VNone VNone VNone VNone (if ok r then None else Some (reason r)) []).
