(* ===== verification/ProtocolRuns.v ===== *)
(** * Runs of the supervisor protocol

    What the parser of ProtocolStream answers, told without its buffer: a
    stream is its lines, however it was cut into chunks; the streams that are
    accepted are the legal runs of a supervisor, and their evidence is one of
    an executed or of a failed workload. *)
From S2P Require Import Prelude PyFloat PyValue Json StrictJson ProtocolStream.

(** ** Lines *)

Definition is_newline (c : ascii) : bool := Ascii.eqb c (byte 10).

(** The complete lines of a stream, and what follows the last of them. *)
Fixpoint split_lines (s : string) : list string * string :=
  match s with
  | EmptyString => ([], "")
  | String c s' =>
      let '(ls, r) := split_lines s' in
      if is_newline c then ("" :: ls, r)
      else match ls with [] => ([], String c r) | l :: ls => (String c l :: ls, r) end
  end.

Lemma split1_newline s :
  match split1 newline s with
  | Some (a, b) => split_lines s = (a :: fst (split_lines b), snd (split_lines b)) /\ (len b < len s)%nat
  | None => split_lines s = ([], s)
  end.
Proof.
  induction s as [|c s IH]; [done|]. unfold newline in *. cbn [split1 drop_prefix split_lines].
  unfold is_newline. rewrite (Ascii.eqb_sym c). destruct (Ascii.eqb_spec (byte 10) c) as [<-|Hc].
  - split; [|cbn; lia]. by destruct (split_lines s).
  - destruct (split1 _ s) as [[a b]|]; cbn.
    + destruct IH as [-> H]. split; [done | cbn; lia].
    + by rewrite IH.
Qed.

Lemma split_lines_app a b :
  split_lines (a +:+ b) =
  (fst (split_lines a) ++ fst (split_lines (snd (split_lines a) +:+ b)), snd (split_lines (snd (split_lines a) +:+ b))).
Proof.
  induction a as [|c a IH]; [cbn [split_lines fst snd app]; rewrite !append_nil; by destruct (split_lines b)|]. rewrite append_cons. cbn [split_lines].
  rewrite IH. destruct (split_lines a) as [ls r]. cbn [fst snd]. destruct (is_newline c) eqn:E; [done|].
  destruct ls as [|l ls]; [|done]. cbn [fst snd app]. rewrite append_cons. cbn [split_lines].
  rewrite E. destruct (split_lines (r +:+ b)) as [[|l ls] r']; done.
Qed.

(** What a stream of lines ends in. *)
Inductive run_end := Running (c : Core) | Refusal (c : Core) (why : string) | TypeErrorRaised.

Definition text_of (raw : string) : string := strip_text (repair raw).

Fixpoint run_lines (lim : Limits) (c : Core) (ls : list string) : run_end :=
  match ls with
  | [] => Running c
  | raw :: ls =>
      if negb (str_truthy (text_of raw)) then run_lines lim c ls
      else match process_line lim c (text_of raw) with
           | Go c => run_lines lim c ls
           | Reject why => Refusal c why
           | Raise => TypeErrorRaised
           end
  end.

Lemma run_lines_app lim l k : forall c,
  run_lines lim c (l ++ k) = match run_lines lim c l with Running c' => run_lines lim c' k | e => e end.
Proof.
  induction l as [|raw l IH]; intros c; cbn; [done|]. destruct (negb _); [apply IH|].
  destruct (process_line _ _ _); [apply IH | done | done].
Qed.

Section Chunks.
Context (lim : Limits).
Implicit Types (p : ProtocolStreamParser).

Lemma drain_lines fuel : forall p, (len (buffer p) <= fuel)%nat ->
  match run_lines lim (core p) (fst (split_lines (buffer p))) with
  | Running c => drain lim fuel p = (mkParser c (snd (split_lines (buffer p))) (p_bytes p), None)
  | Refusal c why => snd (drain lim fuel p) = Some (Settled (mkResult false why (c_records c) (p_bytes p)))
  | TypeErrorRaised => snd (drain lim fuel p) = Some Crashed
  end.
Proof.
  induction fuel as [|fuel IH]; intros p Hf; pose proof (split1_newline (buffer p)) as H; cbn [drain].
  - destruct (buffer p) eqn:E; [|cbn in Hf; lia]. cbn. destruct p; cbn in *; by subst.
  - destruct (split1 newline (buffer p)) as [[a b]|].
    2: { rewrite H. cbn. by destruct p. }
    destruct H as [-> Hl]. cbn [fst snd run_lines]. cbv zeta. fold (text_of a).
    destruct (negb (str_truthy (text_of a))); [apply (IH (mkParser (core p) b (p_bytes p))); cbn; lia|].
    cbn [core]. destruct (process_line lim (core p) (text_of a)) as [c|why|]; [|done|done].
    apply (IH (mkParser c b (p_bytes p))). cbn. lia.
Qed.

(** A parser between two calls: no complete line is left. *)
Definition between_calls p : Prop := fst (split_lines (buffer p)) = [].

Lemma tail_no_line s : fst (split_lines (snd (split_lines s))) = [].
Proof.
  induction s as [|c s IH]; [done|]. cbn [split_lines]. destruct (split_lines s) as [ls r]. cbn [snd] in IH.
  destruct (is_newline c) eqn:E; [done|]. destruct ls as [|l ls]; [|done]. cbn [snd split_lines]. rewrite E.
  destruct (split_lines r) as [ls r']. cbn [fst] in *. by subst.
Qed.

(** The answer of a reading: what it says, and the records it kept. *)
Definition answer (o : option outcome) : option (option (bool * string * list pyctx)) :=
  match o with
  | Some (Settled r) => Some (Some (ok r, reason r, records r))
  | Some Crashed => Some None
  | None => None
  end.

Definition concat_all (l : list string) : string := fold_right String.append "" l.

Lemma read_chunks cs : forall p evs, between_calls p -> (p_bytes p + len (concat_all cs) <= max_bytes lim)%nat ->
  let s := buffer p +:+ concat_all cs in
  answer (read_bounded_protocol lim p (map Data cs ++ evs)) =
  match run_lines lim (core p) (fst (split_lines s)) with
  | Running c => answer (read_bounded_protocol lim (mkParser c (snd (split_lines s)) (p_bytes p + len (concat_all cs))) evs)
  | Refusal c why => Some (Some (false, why, c_records c))
  | TypeErrorRaised => Some None
  end.
Proof.
  induction cs as [|x cs IH]; intros p evs Hp Hb; cbv zeta; cbn [concat_all fold_right map app].
  - rewrite append_empty_r, Hp. cbn [run_lines String.length]. rewrite Nat.add_0_r.
    assert (snd (split_lines (buffer p)) = buffer p) as ->.
    { clear -Hp. unfold between_calls in Hp. pose proof (split1_newline (buffer p)) as H.
      destruct (split1 newline (buffer p)) as [[a b]|]; [destruct H as [H _]; by rewrite H in Hp | by rewrite H]. }
    by destruct p.
  - fold (concat_all cs). cbn [concat_all fold_right] in Hb. fold (concat_all cs) in Hb. rewrite length_append in Hb.
    cbn [read_bounded_protocol]. unfold feed.
    assert (Nat.ltb (max_bytes lim) (p_bytes p + len x) = false) as -> by (apply Nat.ltb_ge; lia). cbv zeta.
    set (p1 := mkParser (core p) (buffer p +:+ x) (p_bytes p + len x)).
    pose proof (drain_lines (len (buffer p +:+ x)) p1 (Nat.le_refl _)) as H. cbn [core buffer p_bytes p1] in H.
    rewrite <- append_assoc, split_lines_app. cbn [fst snd]. rewrite run_lines_app.
    destruct (run_lines lim (core p) (fst (split_lines (buffer p +:+ x)))) as [c|c why|].
    + rewrite H. rewrite IH; [|apply tail_no_line|cbn; lia]. cbn [core buffer p_bytes]. cbv zeta. by rewrite length_append, Nat.add_assoc.
    + destruct (drain lim _ p1) as [p2 o]. cbn [snd] in H. by rewrite H.
    + destruct (drain lim _ p1) as [p2 o]. cbn [snd] in H. by rewrite H.
Qed.

(** Too many bytes are never accepted. *)
Lemma read_over_limit cs : forall p evs, (max_bytes lim < p_bytes p + len (concat_all cs))%nat ->
  (p_bytes p <= max_bytes lim)%nat ->
  match answer (read_bounded_protocol lim p (map Data cs ++ evs)) with Some (Some (b, _, _)) => b = false | _ => True end.
Proof.
  induction cs as [|x cs IH]; intros p evs Hb Hp; [cbn in Hb; lia|].
  cbn [concat_all fold_right map app read_bounded_protocol] in *. fold (concat_all cs) in Hb. rewrite length_append in Hb.
  unfold feed. destruct (Nat.ltb_spec (max_bytes lim) (p_bytes p + len x)) as [|Hx]; [done|]. cbv zeta.
  set (p1 := mkParser (core p) (buffer p +:+ x) (p_bytes p + len x)).
  pose proof (drain_lines (len (buffer p +:+ x)) p1 (Nat.le_refl _)) as H. cbn [core buffer p_bytes p1] in H.
  destruct (run_lines lim (core p) _) as [c|c why|].
  - rewrite H. apply IH; cbn; lia.
  - destruct (drain lim _ p1) as [p2 o]. cbn [snd] in H. by rewrite H.
  - destruct (drain lim _ p1) as [p2 o]. cbn [snd] in H. by rewrite H.
Qed.
End Chunks.

(** ** The order of records *)

Definition Rec : Type := string * pyctx.

Definition next (l : string) : list string :=
  dget_or l []
    [ (PROTO_SUPERVISOR_STARTED, [PROTO_BOOTSTRAP_SPAWNED; PROTO_SUPERVISOR_FAILED]);
      (PROTO_BOOTSTRAP_SPAWNED, [PROTO_ENFORCEMENT_VERIFIED; PROTO_SUPERVISOR_FAILED]);
      (PROTO_ENFORCEMENT_VERIFIED, [PROTO_EXEC_MONITOR_ARMED; PROTO_SUPERVISOR_FAILED]);
      (PROTO_EXEC_MONITOR_ARMED, [PROTO_EXEC_CONFIRMED; PROTO_SUPERVISOR_FAILED]);
      (PROTO_EXEC_CONFIRMED, [PROTO_WORKLOAD_EXITED; PROTO_SUPERVISOR_FAILED]);
      (PROTO_WORKLOAD_EXITED, [PROTO_CLEANUP_COMPLETED]); (PROTO_SUPERVISOR_FAILED, [PROTO_CLEANUP_COMPLETED]) ].

Fixpoint path (l : string) (ts : list string) : Prop :=
  match ts with
  | [] => l = PROTO_CLEANUP_COMPLETED
  | t :: ts => t ∈ next l /\ path t ts
  end.

Definition NORMAL : list string :=
  [ PROTO_SUPERVISOR_STARTED; PROTO_BOOTSTRAP_SPAWNED; PROTO_ENFORCEMENT_VERIFIED; PROTO_EXEC_MONITOR_ARMED;
    PROTO_EXEC_CONFIRMED ].

(** The runs of a supervisor: the workload is executed and ends, or the
    supervisor fails somewhere before; then the clean-up. *)
Definition legal_run (ts : list string) : Prop :=
  ts = NORMAL ++ [PROTO_WORKLOAD_EXITED; PROTO_CLEANUP_COMPLETED] \/
  exists k, (k <= 5)%nat /\ ts = firstn k NORMAL ++ [PROTO_SUPERVISOR_FAILED; PROTO_CLEANUP_COMPLETED].

Lemma elem_next l t : t ∈ next l ->
  (l, t) ∈ [ (PROTO_SUPERVISOR_STARTED, PROTO_BOOTSTRAP_SPAWNED); (PROTO_SUPERVISOR_STARTED, PROTO_SUPERVISOR_FAILED);
    (PROTO_BOOTSTRAP_SPAWNED, PROTO_ENFORCEMENT_VERIFIED); (PROTO_BOOTSTRAP_SPAWNED, PROTO_SUPERVISOR_FAILED);
    (PROTO_ENFORCEMENT_VERIFIED, PROTO_EXEC_MONITOR_ARMED); (PROTO_ENFORCEMENT_VERIFIED, PROTO_SUPERVISOR_FAILED);
    (PROTO_EXEC_MONITOR_ARMED, PROTO_EXEC_CONFIRMED); (PROTO_EXEC_MONITOR_ARMED, PROTO_SUPERVISOR_FAILED);
    (PROTO_EXEC_CONFIRMED, PROTO_WORKLOAD_EXITED); (PROTO_EXEC_CONFIRMED, PROTO_SUPERVISOR_FAILED);
    (PROTO_WORKLOAD_EXITED, PROTO_CLEANUP_COMPLETED); (PROTO_SUPERVISOR_FAILED, PROTO_CLEANUP_COMPLETED) ].
Proof.
  unfold next, dget_or. cbn [dget].
  repeat match goal with
  | |- context [(l =? ?k)%string] => destruct (String.eqb_spec l k) as [->|_];
      [cbn; intros Ht; rewrite !elem_of_cons, elem_of_nil in Ht; destruct_or! Ht; try done; subst t; repeat first [left | right]|]
  end.
  by intros ?%elem_of_nil.
Qed.

Ltac follow_path :=
  match goal with
  | H : path PROTO_CLEANUP_COMPLETED (_ :: _) |- _ => destruct H as [H%elem_next _]; by vm_compute in H
  | H : path ?l ?ts |- _ =>
      is_var ts; destruct ts as [|? ts]; [try discriminate H | destruct H as [Ht H];
        vm_compute next in Ht; rewrite ?elem_of_cons, elem_of_nil in Ht; destruct_or? Ht; try done; subst]
  end.

Lemma path_legal ts :
  (exists t ts', ts = t :: ts' /\ t ∈ [PROTO_SUPERVISOR_STARTED; PROTO_SUPERVISOR_FAILED] /\ path t ts') <-> legal_run ts.
Proof.
  split.
  - intros (t & ts' & -> & Ht & Hp). rewrite !elem_of_cons, elem_of_nil in Ht. destruct_or! Ht; try done; subst.
    + repeat follow_path; [by left|right..];
        [exists 5%nat | exists 4%nat | exists 3%nat | exists 2%nat | exists 1%nat]; (split; [lia | done]).
    + repeat follow_path. right. exists 0%nat. split; [lia | done].
  - intros [-> | (k & Hk & ->)].
    + by repeat econstructor.
    + do 6 (destruct k as [|k]; [by repeat econstructor|]). lia.
Qed.

(** What the order asks of a record's own fields. *)
Definition says_started (r : Rec) : bool :=
  negb (fst r =? PROTO_WORKLOAD_EXITED)%string || truthy (dget_or "started" (VBool false) (snd r)).
Definition says_cleaned (r : Rec) : bool :=
  negb (fst r =? PROTO_CLEANUP_COMPLETED)%string || truthy (dget_or "cleanup_succeeded" (VBool true) (snd r)).

Definition append (c : Core) (r : Rec) : Core := append_record c (fst r) (snd r).

(** The records may come in this order, starting after [l]. *)
Fixpoint in_order (l : option string) (rs : list Rec) : Prop :=
  match rs with
  | [] => True
  | r :: rs =>
      match l with
      | None => fst r ∈ [PROTO_SUPERVISOR_STARTED; PROTO_SUPERVISOR_FAILED]
      | Some l => fst r ∈ next l
      end /\ says_started r = true /\ in_order (Some (fst r)) rs
  end.

Lemma next_pred l t : t ∈ next l <-> mem l (dget_or t [] PROTO_PREDECESSORS) = true /\ l <> "".
Proof.
  rewrite mem_true. split.
  - intros H%elem_next. rewrite !elem_of_cons, elem_of_nil in H.
    destruct_or! H; inversion H; (split; [|done]); vm_compute dget_or; rewrite !elem_of_cons; naive_solver.
  - unfold dget_or, PROTO_PREDECESSORS. cbn [dget].
    repeat match goal with
    | |- context [(t =? ?k)%string] => destruct (String.eqb_spec t k) as [->|_]
    end; intros [Hm Hl]; rewrite ?elem_of_cons, ?elem_of_nil in Hm; destruct_or? Hm; try done; subst;
      vm_compute next; rewrite !elem_of_cons; auto 20.
Qed.

(** The state after some records, and what of it is invariant. *)
Definition after (rs : list Rec) : Core := fold_left append rs new_core.

Definition coherent (c : Core) : Prop :=
  terminal_seen c = bool_decide (last_type c = Some PROTO_CLEANUP_COMPLETED) /\ last_type c <> Some "".

Definition expected (c : Core) (r : Rec) : Prop :=
  match last_type c with
  | None => fst r ∈ [PROTO_SUPERVISOR_STARTED; PROTO_SUPERVISOR_FAILED]
  | Some l => fst r ∈ next l
  end.

Lemma check_order_none c r : coherent c ->
  check_order c (fst r) (snd r) = None <-> expected c r /\ says_started r = true.
Proof.
  intros [Ht Hl]. unfold check_order, expected, says_started. destruct r as [t obj]. cbn [fst snd]. rewrite Ht.
  destruct (last_type c) as [l|].
  - rewrite next_pred. destruct (String.eqb_spec t PROTO_SUPERVISOR_STARTED) as [->|Hs].
    { split; [done | intros [[Hm _] _]; done]. }
    destruct (bool_decide_reflect (Some l = Some PROTO_CLEANUP_COMPLETED)) as [Hc|Hc]; [injection Hc as ->|].
    { split; [done|]. intros [Hm _]. apply next_pred in Hm. by apply elem_of_nil in Hm. }
    destruct (String.eqb_spec t PROTO_WORKLOAD_EXITED) as [->|Hw]; cbn [negb andb orb].
    + destruct (truthy _); cbn [negb]; [|naive_solver].
      destruct (bool_decide_reflect (Some l = Some PROTO_EXEC_CONFIRMED)) as [He|He]; [injection He as ->; naive_solver|]; cbn [negb].
      split; [done|]. intros [[Hm _] _]. apply mem_true in Hm. vm_compute dget_or in Hm.
      rewrite elem_of_cons, elem_of_nil in Hm. destruct_or? Hm. by subst.
    + destruct (mem l _); naive_solver.
  - rewrite <- mem_true. rewrite bool_decide_eq_false_2 by done.
    destruct (mem t _) eqn:E; [|naive_solver]. apply mem_true in E.
    destruct (String.eqb_spec t PROTO_WORKLOAD_EXITED) as [->|Hw]; [|done].
    rewrite !elem_of_cons, elem_of_nil in E. by destruct_or! E.
Qed.

Lemma append_last c r : last_type (append c r) = Some (fst r).
Proof. done. Qed.

Lemma append_coherent c r : coherent c -> fst r <> "" -> expected c r -> coherent (append c r).
Proof.
  intros [Ht Hl] Hr He. split; [|cbn; congruence]. cbn. rewrite Ht.
  destruct (bool_decide_reflect (last_type c = Some PROTO_CLEANUP_COMPLETED)) as [E|_].
  - unfold expected in He. rewrite E in He. by apply elem_of_nil in He.
  - cbn. destruct (String.eqb_spec (fst r) PROTO_CLEANUP_COMPLETED) as [->|H]; [done|].
    rewrite bool_decide_eq_false_2; congruence.
Qed.

Lemma expected_typed c r : expected c r -> fst r <> "".
Proof.
  unfold expected. destruct (last_type c) as [l|]; intros H E; rewrite E in H.
  - apply elem_next in H. rewrite !elem_of_cons, elem_of_nil in H. by destruct_or! H.
  - rewrite !elem_of_cons, elem_of_nil in H. by destruct_or! H.
Qed.

(** ** Lines and records *)

Definition fits (lim : Limits) (line : string) (r : Rec) : Prop :=
  check_record line = Valid (fst r) (snd r) /\ (len line <= max_record_bytes lim)%nat.

(** The lines of a stream that are not blank. *)
Definition said (ls : list string) : list string := List.filter str_truthy (map text_of ls).

Lemma run_lines_running lim ls : forall c, coherent c ->
  forall c', run_lines lim c ls = Running c' <->
  exists rs, Forall2 (fits lim) (said ls) rs /\ in_order (last_type c) rs /\
    (length (c_records c) + length rs <= max_records lim \/ rs = [])%nat /\ c' = fold_left append rs c.
Proof.
  induction ls as [|raw ls IH]; intros c Hc c'.
  - cbn. split; [intros [= <-]; exists []; naive_solver|]. intros (rs & H & _ & _ & ->). by inversion H.
  - cbn [run_lines said map List.filter]. fold (said ls).
    destruct (str_truthy (text_of raw)); cbn [negb]; [|by apply IH]. unfold process_line.
    destruct (Nat.leb_spec (max_records lim) (length (c_records c))) as [Hm|Hm].
    { split; [done|]. intros (rs & H & _ & [Hn | ->] & _); [|by inversion H]. inversion H; subst. cbn in Hn. lia. }
    destruct (Nat.ltb_spec (max_record_bytes lim) (len (text_of raw))) as [Hb|Hb].
    { split; [done|]. intros (rs & H & _). inversion H as [|? ? ? ? [_ ?]]; subst. lia. }
    destruct (check_record (text_of raw)) as [t obj|why|] eqn:Ec.
    2,3: (split; [done|]; intros (rs & H & _); inversion H as [|? ? ? ? [E _]]; by rewrite Ec in E).
    pose proof (check_order_none c (t, obj) Hc) as Ho. cbn [fst snd] in Ho.
    destruct (check_order c t obj) as [why|].
    { split; [done|]. intros (rs & H & Hi & _). inversion H as [|? [t' obj'] ? rs' [E _]]; subst. rewrite Ec in E.
      cbn in E. injection E as <- <-. destruct Hi as (He & Hs & _). cbn [fst] in He. assert (Some why = None) by by apply Ho. done. }
    destruct (proj1 Ho eq_refl) as [He Hs].
    pose proof (append_coherent c (t, obj) Hc (expected_typed _ _ He) He) as Hc'. rewrite (IH _ Hc'). clear IH Ho.
    unfold append at 1 2. cbn [fst snd c_records last_type append_record]. rewrite length_app. cbn [length].
    split.
    + intros (rs & Hf & Hi & Hn & ->). exists ((t, obj) :: rs). repeat split; try done; [by constructor|].
      cbn [length]. left. destruct Hn as [Hn | ->]; cbn; lia.
    + intros (rs & Hf & Hi & Hn & ->). inversion Hf as [|? [t' obj'] ? rs' [E _]]; subst. rewrite Ec in E.
      cbn in E. injection E as <- <-. exists rs'. repeat split; try done; [by destruct Hi as (_ & _ & ?)|].
      cbn [length] in Hn. destruct Hn as [Hn|]; [left; lia | done].
Qed.

Lemma after_records rs : forall c, c_records (fold_left append rs c) = c_records c ++ map snd rs.
Proof. induction rs as [|r rs IH]; intros c; cbn; [by rewrite app_nil_r|]. rewrite IH. cbn. by rewrite <- app_assoc. Qed.

Lemma after_cleanup rs : forall c, cleanup_failed (fold_left append rs c) = cleanup_failed c || negb (forallb says_cleaned rs).
Proof.
  induction rs as [|r rs IH]; intros c; cbn [fold_left forallb]; [by rewrite orb_false_r|]. rewrite IH. unfold says_cleaned at 2, append.
  cbn. destruct (cleanup_failed c), (_ =? _)%string, (truthy _); done.
Qed.

Lemma after_coherent rs : forall c, coherent c -> in_order (last_type c) rs -> coherent (fold_left append rs c).
Proof.
  induction rs as [|r rs IH]; intros c Hc Hi; [done|]. destruct Hi as (He & _ & Hi). cbn. apply IH; [|done].
  apply append_coherent; [done | by apply (expected_typed c) | done].
Qed.

Lemma in_order_path rs : forall c l, last_type c = Some l ->
  in_order (Some l) rs /\ last_type (fold_left append rs c) = Some PROTO_CLEANUP_COMPLETED <->
  path l (map fst rs) /\ forallb says_started rs = true.
Proof.
  induction rs as [|r rs IH]; intros c l Hl; cbn [in_order fold_left map path forallb].
  - rewrite Hl. naive_solver.
  - rewrite andb_true_iff. pose proof (IH (append c r) (fst r) (append_last c r)). naive_solver.
Qed.

(** The records in order up to the clean-up are those of a legal run. *)
Lemma complete_run rs :
  in_order None rs /\ last_type (after rs) = Some PROTO_CLEANUP_COMPLETED <->
  legal_run (map fst rs) /\ forallb says_started rs = true.
Proof.
  unfold after. destruct rs as [|r rs]; cbn [in_order fold_left map forallb].
  - split; [by intros [_ ?]|]. intros [H _]. apply path_legal in H as (t & ts & H & _). done.
  - rewrite andb_true_iff. pose proof (in_order_path rs (append new_core r) (fst r) (append_last _ _)) as H.
    rewrite <- path_legal. split.
    + intros ((He & Hs & Hi) & Hl). destruct (proj1 H (conj Hi Hl)). split; [by eexists _, _ | done].
    + intros ((t & ts & [= <- <-] & Ht & Hp) & Hs & Hss). destruct (proj2 H (conj Hp Hss)). done.
Qed.

(** ** What the readers accept *)

Definition blank_tail (s : string) : bool := negb (str_truthy (strip_by is_byte_space (snd (split_lines s)))).

(** The records of a stream that is accepted. *)
Definition accepted (lim : Limits) (stream : string) (rs : list Rec) : Prop :=
  Forall2 (fits lim) (said (fst (split_lines stream))) rs /\ (length rs <= max_records lim)%nat /\
  legal_run (map fst rs) /\ forallb says_started rs = true /\ forallb says_cleaned rs = true /\
  blank_tail stream = true /\ (len stream <= max_bytes lim)%nat.

Definition read_all (lim : Limits) (cs : list string) : option (option (bool * string * list pyctx)) :=
  answer (read_bounded_protocol lim new_parser (map Data cs ++ [EndOfFile])).

Lemma read_all_lines lim cs : (len (concat_all cs) <= max_bytes lim)%nat ->
  read_all lim cs =
  match run_lines lim new_core (fst (split_lines (concat_all cs))) with
  | Running c => answer (Some (Settled (feed_eof (mkParser c (snd (split_lines (concat_all cs))) (len (concat_all cs))))))
  | Refusal c why => Some (Some (false, why, c_records c))
  | TypeErrorRaised => Some None
  end.
Proof.
  intros H. unfold read_all. pose proof (read_chunks lim cs new_parser [EndOfFile] eq_refl H) as R. cbv zeta in R. rewrite R. done.
Qed.

Lemma feed_eof_ok p : ok (feed_eof p) = true <->
  terminal_seen (core p) = true /\ str_truthy (strip_by is_byte_space (buffer p)) = false /\ cleanup_failed (core p) = false.
Proof. unfold feed_eof. destruct (terminal_seen (core p)), (str_truthy (strip_by is_byte_space (buffer p))), (cleanup_failed (core p)); cbn; naive_solver. Qed.

Lemma feed_eof_says p : reason (feed_eof p) = "ok" <-> ok (feed_eof p) = true.
Proof. unfold feed_eof. destruct (terminal_seen (core p)), (str_truthy (strip_by is_byte_space (buffer p))), (cleanup_failed (core p)); done. Qed.

Lemma new_coherent : coherent new_core.
Proof. done. Qed.

Lemma legal_nonempty (rs : list Rec) : legal_run (map fst rs) -> rs <> [].
Proof. intros H ->. apply path_legal in H as (t & ts & H & _). done. Qed.

Lemma in_order_of rs : legal_run (map fst rs) -> forallb says_started rs = true ->
  in_order None rs /\ terminal_seen (after rs) = true.
Proof.
  intros H Hs. destruct (proj2 (complete_run rs) (conj H Hs)) as [Hi Hl]. split; [done|].
  destruct (after_coherent rs new_core new_coherent Hi) as [E _]. fold (after rs) in E. rewrite E. by apply bool_decide_eq_true.
Qed.

(** The records of the lines are determined by them. *)
Lemma fits_unique lim ls rs : Forall2 (fits lim) ls rs -> forall rs', Forall2 (fits lim) ls rs' -> rs' = rs.
Proof.
  induction 1 as [|l [t o] ls rs [H _] _ IH]; intros rs' Hf; inversion Hf as [|? [t' o'] ? ? [H' _]]; [done|]; subst.
  rewrite H in H'. cbn in H'. injection H' as -> ->. f_equal. by apply IH.
Qed.

Lemma feed_eof_records p : records (feed_eof p) = c_records (core p).
Proof. unfold feed_eof. by destruct (terminal_seen (core p)), (str_truthy (strip_by is_byte_space (buffer p))), (cleanup_failed (core p)). Qed.

Lemma feed_eof_after rs tail n : in_order None rs ->
  ok (feed_eof (mkParser (after rs) tail n)) = true <->
  last_type (after rs) = Some PROTO_CLEANUP_COMPLETED /\ str_truthy (strip_by is_byte_space tail) = false /\
  forallb says_cleaned rs = true.
Proof.
  intros Hi. rewrite feed_eof_ok. cbn [core buffer]. destruct (after_coherent rs new_core new_coherent Hi) as [Ht _].
  fold (after rs) in Ht. rewrite Ht, bool_decide_eq_true. unfold after at 2. rewrite (after_cleanup rs new_core).
  cbn [new_core cleanup_failed orb]. by rewrite negb_false_iff.
Qed.

Lemma accepted_read lim cs rs : accepted lim (concat_all cs) rs -> read_all lim cs = Some (Some (true, "ok", map snd rs)).
Proof.
  intros (Hf & Hn & Hlr & Hst & Hcl & Hbl & Hb). rewrite read_all_lines by done.
  destruct (proj2 (complete_run rs) (conj Hlr Hst)) as [Hi Hl].
  assert (run_lines lim new_core (fst (split_lines (concat_all cs))) = Running (after rs)) as ->.
  { apply run_lines_running; [done|]. exists rs. repeat split; try done. by left. }
  set (p := mkParser _ _ _). assert (ok (feed_eof p) = true) as E.
  { apply feed_eof_after; [done|]. repeat split; [done | by apply negb_true_iff | done]. }
  cbn [answer]. rewrite E, (proj2 (feed_eof_says p) E), feed_eof_records. cbn [core p]. unfold after. by rewrite after_records.
Qed.

Lemma read_accepted lim cs objs : read_all lim cs = Some (Some (true, "ok", objs)) ->
  exists rs, accepted lim (concat_all cs) rs /\ objs = map snd rs.
Proof.
  intros H. destruct (Nat.le_gt_cases (len (concat_all cs)) (max_bytes lim)) as [Hb|Hb].
  2: { pose proof (read_over_limit lim cs new_parser [EndOfFile] Hb (Nat.le_0_l _)) as Ho. fold (read_all lim cs) in Ho.
       by rewrite H in Ho. }
  rewrite read_all_lines in H by done. destruct (run_lines _ _ _) as [c| |] eqn:R; [|done|done].
  apply run_lines_running in R as (rs & Hf & Hi & Hn & ->); [|done]. fold (after rs) in H. cbn [answer] in H.
  injection H as H1 _ H3. rewrite feed_eof_records in H3. cbn [core] in H3. unfold after in H3. rewrite after_records in H3.
  apply feed_eof_after in H1 as (Hl & Hs & Hcl); [|done]. destruct (proj1 (complete_run rs) (conj Hi Hl)) as [Hlr Hst].
  exists rs. repeat split; try done; [|by unfold blank_tail; rewrite Hs].
  destruct Hn as [Hn | ->]; [done | by destruct (legal_nonempty [])].
Qed.

(** C12: A stream is accepted exactly when, cut at its newlines, its nonblank
    lines are valid records within the limits whose types form a legal run of
    a supervisor (the workload executed and ended, or a failure at some point
    before, then the clean-up), the workload having started and the clean-up
    having succeeded, with nothing but blanks behind them; the records are
    then the answer's. *)
Theorem protocol_accepts lim cs objs :
  read_all lim cs = Some (Some (true, "ok", objs)) <->
  exists rs, accepted lim (concat_all cs) rs /\ objs = map snd rs.
Proof. split; [apply read_accepted|]. intros (rs & H & ->). by apply accepted_read. Qed.

(** How the stream was cut into chunks makes no difference: two cuts of
    the same bytes, within the limit, have the same answer whatever comes
    next, and so do the records kept. *)
Theorem chunking_irrelevant lim cs cs' evs :
  concat_all cs = concat_all cs' -> (len (concat_all cs) <= max_bytes lim)%nat ->
  answer (read_bounded_protocol lim new_parser (map Data cs ++ evs)) =
  answer (read_bounded_protocol lim new_parser (map Data cs' ++ evs)).
Proof.
  intros E Hb. pose proof (read_chunks lim cs new_parser evs eq_refl Hb) as H.
  pose proof (read_chunks lim cs' new_parser evs eq_refl) as H'. rewrite <- E in H'. cbv zeta in H, H'.
  by rewrite H, (H' Hb).
Qed.

(** ** The asynchronous reader *)

(** The events of a wake: what was drained, then the registration, the
    deadline or the stop. *)
Definition wake_events (w : Wake) : list io_event :=
  map Data (w_chunks w) ++
  match w_end w with Some EndOfFile => [EndOfFile] | Some (IoFailed why) => [IoFailed why] | _ => [] end ++
  match w_rearm_failed w with
  | Some why => [IoFailed why]
  | None => if w_deadline w then [DeadlinePassed] else if w_stop w then [StopReadable] else []
  end.

Lemma drain_protocol_read lim stop evs cs : forall p,
  read_bounded_protocol lim p
    (map Data cs ++ match stop with Some EndOfFile => [EndOfFile] | Some (IoFailed why) => [IoFailed why] | _ => [] end ++ evs) =
  match drain_protocol lim p cs stop with
  | (_, Some o) => Some o
  | (p, None) => read_bounded_protocol lim p evs
  end.
Proof.
  induction cs as [|c cs IH]; intros p; cbn.
  - by destruct stop as [[]|].
  - destruct (feed lim p c) as [p' [o|]]; [done | apply IH].
Qed.

(** The asynchronous reader gives the answer of the synchronous one on the
    events of its wakes, in the order it looks at them. *)
Theorem async_reads_as_sync lim ws : forall p,
  read_bounded_protocol_async lim p ws = read_bounded_protocol lim p (flat_map wake_events ws).
Proof.
  induction ws as [|w ws IH]; intros p; cbn [flat_map read_bounded_protocol_async]; [done|].
  unfold wake_events. rewrite <- !app_assoc, drain_protocol_read.
  destruct (drain_protocol _ _ _ _) as [p' [o|]]; [done|]. destruct (w_rearm_failed w); [done|].
  destruct (w_deadline w); [done|]. destruct (w_stop w); [done|]. apply IH.
Qed.

(** ** Bounds *)

Definition within (lim : Limits) (p : ProtocolStreamParser) : Prop :=
  (p_bytes p <= max_bytes lim /\ len (buffer p) <= p_bytes p /\ length (c_records (core p)) <= max_records lim)%nat.

Definition within_result (lim : Limits) (r : ProtocolReadResult) : Prop :=
  (bytes_read r <= max_bytes lim /\ length (records r) <= max_records lim)%nat.

Definition within_outcome (lim : Limits) (o : option outcome) : Prop :=
  match o with Some (Settled r) => within_result lim r | _ => True end.

Lemma result_within lim p b why : within lim p -> within_result lim (result p b why).
Proof. by intros (H1 & _ & H3). Qed.

Lemma drain_within lim fuel : forall p, within lim p ->
  within lim (fst (drain lim fuel p)) /\ within_outcome lim (snd (drain lim fuel p)).
Proof.
  induction fuel as [|fuel IH]; intros p Hp; [done|]. cbn [drain].
  pose proof (split1_newline (buffer p)) as H. destruct (split1 newline (buffer p)) as [[a b]|]; [|done].
  destruct H as [_ Hl]. destruct Hp as (H1 & H2 & H3). cbn [core p_bytes]. cbv zeta.
  destruct (negb _); [apply IH; repeat split; cbn; lia|]. unfold process_line.
  destruct (Nat.leb_spec (max_records lim) (length (c_records (core p)))) as [Hm|Hm]; [repeat split; cbn; lia|].
  destruct (Nat.ltb _ _); [repeat split; cbn; lia|].
  destruct (check_record _) as [t obj|why|]; [|repeat split; cbn; lia..].
  destruct (check_order _ _ _); [repeat split; cbn; lia|].
  apply IH. repeat split; cbn; [lia | lia | rewrite length_app; cbn; lia].
Qed.

Lemma feed_within lim p chunk : within lim p ->
  within lim (fst (feed lim p chunk)) /\ within_outcome lim (snd (feed lim p chunk)).
Proof.
  intros Hp. unfold feed. destruct (Nat.ltb_spec (max_bytes lim) (p_bytes p + len chunk)) as [|Hb].
  - split; [done|]. by apply result_within.
  - apply drain_within. destruct Hp as (H1 & H2 & H3). repeat split; cbn; rewrite ?length_append; lia.
Qed.

Lemma feed_eof_within lim p : within lim p -> within_result lim (feed_eof p).
Proof.
  intros H. unfold feed_eof. destruct (terminal_seen _); [|by apply result_within].
  destruct (str_truthy _); [by apply result_within|]. destruct (cleanup_failed _); by apply result_within.
Qed.

Lemma read_within lim evs : forall p, within lim p -> within_outcome lim (read_bounded_protocol lim p evs).
Proof.
  induction evs as [|e evs IH]; intros p Hp; [done|]. destruct e; cbn; try by apply result_within.
  - pose proof (feed_within lim p chunk Hp) as [H1 H2]. destruct (feed lim p chunk) as [p' [o|]]; [done | by apply IH].
  - by apply feed_eof_within.
  - by apply IH.
Qed.

(** C14: Whatever is read, in whatever chunks and whatever happens to the
    descriptors, no answer counts more bytes or more records than the limits,
    which bound what the parser has kept. *)
Theorem answers_within_limits lim evs r :
  read_bounded_protocol lim new_parser evs = Some (Settled r) ->
  (bytes_read r <= max_bytes lim /\ length (records r) <= max_records lim)%nat.
Proof.
  intros H. pose proof (read_within lim evs new_parser) as W. rewrite H in W. apply W. repeat split; cbn; lia.
Qed.

(** ** Evidence *)

(** What a valid record of each type says. *)
Definition record_says (t : string) (obj : pyctx) : Prop :=
  (t = PROTO_WORKLOAD_EXITED ->
     (exists z, context_get "exit_code" obj = VInt z /\ 0 <= z <= 255 /\ truthy (context_get "signaled" obj) = false) \/
     (exists z, context_get "signal_num" obj = VInt z /\ 1 <= z <= 64 /\ truthy (context_get "signaled" obj) = true)) /\
  (t = PROTO_SUPERVISOR_FAILED -> exists why, context_get "reason" obj = VStr why /\ why <> "") /\
  (t = PROTO_CLEANUP_COMPLETED -> exists b, context_get "cleanup_succeeded" obj = VBool b).

Lemma given_get k obj : given k obj = false -> context_get k obj = VNone.
Proof. unfold given, context_get. by destruct (dget k obj). Qed.

Lemma is_int_inv v : is_int_not_bool v = true -> exists z, v = VInt z /\ int_of v = z.
Proof. destruct v; naive_solver. Qed.

Lemma exited_says obj : validate_exited obj = None ->
  (exists z, context_get "exit_code" obj = VInt z /\ 0 <= z <= 255 /\ truthy (context_get "signaled" obj) = false) \/
  (exists z, context_get "signal_num" obj = VInt z /\ 1 <= z <= 64 /\ truthy (context_get "signaled" obj) = true).
Proof.
  unfold validate_exited. pose proof (given_get "signaled" obj) as Hs.
  destruct (is_bool _), (given "exit_code" obj), (given "signaled" obj), (given "signal_num" obj); try done; cbn; intros H.
  - left. destruct (is_int_not_bool (context_get "exit_code" obj)) eqn:E; [|done]. apply is_int_inv in E as (z & Ez & Ei).
    rewrite Ei in H. cbn in H. exists z. destruct (Z.ltb_spec z 0), (Z.ltb_spec 255 z); try done.
    rewrite Hs by done. split; [done|]. split; [lia | done].
  - right. destruct (context_get "signaled" obj) as [|[]| | | | |]; try done. cbn in H.
    destruct (is_int_not_bool (context_get "signal_num" obj)) eqn:E; [|done]. apply is_int_inv in E as (z & Ez & Ei).
    rewrite Ei in H. cbn in H. exists z. destruct (Z.ltb_spec z 1), (Z.ltb_spec 64 z); try done.
Qed.

Lemma fields_say t obj : validate_proto_fields t obj = None -> record_says t obj.
Proof.
  unfold validate_proto_fields. destruct (negb _); [done|]. destruct (negb _); [done|]. intros H.
  repeat split; intros ->; cbn [String.eqb] in H.
  - by apply exited_says.
  - change (validate_failed obj = None) in H. unfold validate_failed in H.
    destruct (context_get "reason" obj) as [| | | |why| |]; try done. exists why. split; [done|]. by intros ->.
  - change (validate_cleanup obj = None) in H. unfold validate_cleanup in H.
    destruct (context_get "cleanup_succeeded" obj); try done. by eexists.
Qed.

Lemma valid_record line t obj : check_record line = Valid t obj ->
  type_of_record obj = t /\ validate_proto_fields t obj = None.
Proof.
  unfold check_record, check_object, type_of_record. destruct (parse_json_strict line) as [o|[]]; [|done..].
  destruct (negb _); [done|]. cbv zeta. destruct (unhashable _); [done|].
  destruct (context_get "type" o) as [| | | |u| |] eqn:Et; try done.
  do 3 (destruct (negb _); [done|]). destruct (validate_proto_fields u o) eqn:Ev; [done|]. intros [= <- <-]. by rewrite Et.
Qed.

Lemma accepted_says lim ls rs : Forall2 (fits lim) ls rs ->
  Forall (fun r => type_of_record (snd r) = fst r /\ record_says (fst r) (snd r)) rs.
Proof.
  induction 1 as [|l r ls rs [H _] _ IH]; constructor; [|done].
  apply valid_record in H as [Ht Hv]. split; [done | by apply fields_say].
Qed.

(** What the evidence says of the outcome, the enforcement metadata apart. *)
Definition outcome_of (e : SupervisorExecutionEvidence) : bool * pyval * pyval * pyval * pyval :=
  (exec_confirmed e, workload_exit_code e, workload_signal e, supervisor_failure_reason e, cleanup_succeeded e).

Definition note_outcome (e : bool * pyval * pyval * pyval * pyval) (r : Rec) : bool * pyval * pyval * pyval * pyval :=
  let '(x, code, sig, fail, cl) := e in
  let '(t, obj) := r in
  if (t =? PROTO_EXEC_CONFIRMED)%string then (true, code, sig, fail, cl)
  else if (t =? PROTO_WORKLOAD_EXITED)%string then
    if truthy (context_get "signaled" obj) then (x, code, context_get "signal_num" obj, fail, cl)
    else (x, context_get "exit_code" obj, sig, fail, cl)
  else if (t =? PROTO_SUPERVISOR_FAILED)%string then (x, code, sig, context_get "reason" obj, cl)
  else if (t =? PROTO_CLEANUP_COMPLETED)%string then (x, code, sig, fail, context_get "cleanup_succeeded" obj)
  else e.

Lemma note_record_outcome e r : type_of_record (snd r) = fst r ->
  outcome_of (note_record e (snd r)) = note_outcome (outcome_of e) r /\ protocol_valid (note_record e (snd r)) = protocol_valid e.
Proof.
  destruct r as [t obj], e as [v x code sig fail cl why md]. cbn [fst snd]. intros E. unfold note_record, note_outcome. rewrite E.
  cbn [outcome_of exec_confirmed workload_exit_code workload_signal supervisor_failure_reason cleanup_succeeded].
  repeat match goal with |- context [(t =? ?k)%string] => destruct (t =? k)%string; [try done; try by destruct (truthy _)|] end; [|done].
  by destruct (dget_or _ _ _).
Qed.

Lemma extract_outcome rs : Forall (fun r : Rec => type_of_record (snd r) = fst r) rs -> forall e,
  outcome_of (fold_left note_record (map snd rs) e) = fold_left note_outcome rs (outcome_of e) /\
  protocol_valid (fold_left note_record (map snd rs) e) = protocol_valid e.
Proof.
  induction 1 as [|r rs Hr _ IH]; intros e; [done|]. cbn [map fold_left]. destruct (note_record_outcome e r Hr) as [<- <-]. apply IH.
Qed.

(** An executed workload has one outcome, an exit code or a signal. *)
Definition one_outcome (code sig : pyval) : Prop :=
  (exists z, code = VInt z /\ 0 <= z <= 255 /\ sig = VNone) \/ (exists z, sig = VInt z /\ 1 <= z <= 64 /\ code = VNone).

Definition sound_outcome (o : bool * pyval * pyval * pyval * pyval) : Prop :=
  let '(x, code, sig, fail, cl) := o in
  cl = VBool true /\
  (x = true /\ fail = VNone /\ one_outcome code sig \/
   code = VNone /\ sig = VNone /\ exists why, fail = VStr why /\ why <> "").

(** The types that are neither an outcome, a failure nor the clean-up only confirm. *)
Lemma quiet_run rs : forall o, Forall (fun r : Rec => fst r ∈ NORMAL) rs ->
  let '(x, code, sig, fail, cl) := o in
  fold_left note_outcome rs o = (x || mem PROTO_EXEC_CONFIRMED (map fst rs), code, sig, fail, cl).
Proof.
  induction rs as [|[t obj] rs IH]; intros [[[[x code] sig] fail] cl] H; cbn [fold_left map mem fst]; [by rewrite orb_false_r|].
  inversion H as [|? ? Ht Hrs]; subst. cbn [fst] in Ht. unfold NORMAL in Ht. rewrite !elem_of_cons, elem_of_nil in Ht.
  destruct_or! Ht; try done; subst t;
    try (specialize (IH (x, code, sig, fail, cl) Hrs); exact IH).
  specialize (IH (true, code, sig, fail, cl) Hrs). etransitivity; [exact IH|]. cbn. by rewrite orb_true_r.
Qed.

Lemma legal_shape (rs : list Rec) : legal_run (map fst rs) ->
  exists pre r c, rs = pre ++ [r; c] /\ fst c = PROTO_CLEANUP_COMPLETED /\ Forall (fun r : Rec => fst r ∈ NORMAL) pre /\
    (fst r = PROTO_WORKLOAD_EXITED /\ map fst pre = NORMAL \/ fst r = PROTO_SUPERVISOR_FAILED).
Proof.
  intros H.
  assert (exists ts t, map fst rs = ts ++ [t; PROTO_CLEANUP_COMPLETED] /\ Forall (fun t => t ∈ NORMAL) ts /\
    (t = PROTO_WORKLOAD_EXITED /\ ts = NORMAL \/ t = PROTO_SUPERVISOR_FAILED)) as (ts & t & E & Hts & Ht).
  { destruct H as [-> | (k & _ & ->)]; [exists NORMAL, PROTO_WORKLOAD_EXITED | exists (firstn k NORMAL), PROTO_SUPERVISOR_FAILED].
    - split; [done|]. split; [|by left]. by apply Forall_forall.
    - split; [done|]. split; [|by right]. apply Forall_take. by apply Forall_forall. }
  apply map_eq_app in E as (pre & suf & -> & E1 & E2).
  destruct suf as [|r [|c [|? ?]]]; try done. injection E2 as Er Ec. exists pre, r, c.
  split; [done|]. split; [done|]. subst. rewrite Forall_map in Hts. by split.
Qed.

(** The evidence drawn from a stream that was accepted is of one of two
    kinds, the clean-up having succeeded: the workload was executed and has
    exactly one outcome, an exit code in 0..255 or a signal in 1..64, and no
    failure is reported; or the supervisor failed, with a reason, and no
    outcome is claimed. *)
Theorem evidence_of_accepted lim cs objs n :
  read_all lim cs = Some (Some (true, "ok", objs)) ->
  let e := extract_supervisor_evidence (mkResult true "ok" objs n) in
  protocol_valid e = true /\ sound_outcome (outcome_of e).
Proof.
  intros H e. apply read_accepted in H as (rs & (Hf & _ & Hlr & _ & Hcl & _) & ->).
  pose proof (accepted_says _ _ _ Hf) as Hs.
  assert (Forall (fun r : Rec => type_of_record (snd r) = fst r) rs) as Ht.
  { eapply Forall_impl; [exact Hs|]. by intros r (? & _). }
  destruct (extract_outcome rs Ht (mkEvidence true false VNone VNone VNone VNone None [])) as [Ho Hv].
  subst e. split; [exact Hv|]. change (sound_outcome (outcome_of (fold_left note_record (map snd rs)
    (mkEvidence true false VNone VNone VNone VNone None [])))). rewrite Ho. clear Ho Hv Hf Ht.
  apply legal_shape in Hlr as (pre & [t obj] & [t' obj'] & -> & Ec & Hpre & Hr). cbn [fst] in *. subst t'.
  rewrite !Forall_app, !Forall_cons in Hs. destruct Hs as (_ & (_ & (He & Hfail & _)) & (_ & (_ & _ & Hc)) & _).
  cbn [fst snd] in *. destruct (Hc eq_refl) as [b Eb]. rewrite forallb_app in Hcl.
  pose proof (quiet_run pre (false, VNone, VNone, VNone, VNone) Hpre) as Hq. cbv beta iota in Hq.
  rewrite fold_left_app. change (outcome_of _) with (false, VNone, VNone, VNone, VNone). rewrite Hq. cbn [fold_left orb].
  assert (b = true) as ->.
  { apply andb_prop in Hcl as [_ Hcl]. apply andb_prop in Hcl as [_ Hcl]. apply andb_prop in Hcl as [Hcl _].
    change (truthy (dget_or "cleanup_succeeded" (VBool true) obj') = true) in Hcl.
    unfold context_get, dget_or in *. destruct (dget "cleanup_succeeded" obj'); [|done]. subst p. by destruct b. }
  assert (forall x code sig fail, note_outcome (x, code, sig, fail, VNone) (PROTO_CLEANUP_COMPLETED, obj')
    = (x, code, sig, fail, VBool true)) as Hlast by (intros; cbn; by rewrite Eb).
  destruct Hr as [[-> Hn] | ->].
  - rewrite Hn. assert (forall x, note_outcome (x, VNone, VNone, VNone, VNone) (PROTO_WORKLOAD_EXITED, obj) =
      if truthy (context_get "signaled" obj) then (x, VNone, context_get "signal_num" obj, VNone, VNone)
      else (x, context_get "exit_code" obj, VNone, VNone, VNone)) as -> by done.
    destruct (He eq_refl) as [(z & Ez & Hz & ->) | (z & Ez & Hz & ->)]; rewrite Hlast, Ez;
      (split; [done|left; split; [done|split; [done|]]]); [left | right]; by exists z.
  - destruct (Hfail eq_refl) as (why & Ew & Hw). assert (forall x, note_outcome (x, VNone, VNone, VNone, VNone)
      (PROTO_SUPERVISOR_FAILED, obj) = (x, VNone, VNone, context_get "reason" obj, VNone)) as -> by done.
    rewrite Hlast, Ew. split; [done|]. right. split; [done|]. split; [done|]. by exists why.
Qed.

(** ** Concrete streams *)

(** A text written with apostrophes for its quotation marks. *)
Fixpoint quoted (s : string) : string :=
  match s with
  | EmptyString => ""
  | String c s => String (if Ascii.eqb c (byte 39) then byte 34 else c) (quoted s)
  end.

Definition demo_line (s : string) : string := quoted s +:+ newline.

Definition demo_run : list string :=
  map demo_line
    [ "{'version':1,'type':'supervisor_started'}"; "{'version':1,'type':'bootstrap_spawned','pid':42}";
      "{'version':1,'type':'enforcement_verified','metadata':{'seccomp':true}}"; "{'version':1,'type':'exec_monitor_armed'}";
      "{'version':1,'type':'exec_confirmed'}"; "{'version':1,'type':'workload_exited','started':true,'exit_code':3}";
      "{'version':1,'type':'cleanup_completed','cleanup_succeeded':true}" ].

(** The same bytes, one chunk for all of them. *)
Definition demo_chunk : list string := [concat_all demo_run].

Abbreviation demo_objs :=
  (match read_all default_limits demo_run with Some (Some (_, _, objs)) => objs | _ => [] end) (only parsing).

Lemma demo_read : read_all default_limits demo_run = Some (Some (true, "ok", demo_objs)).
Proof. vm_compute. reflexivity. Qed.

Example chunking_irrelevant_witness :
  concat_all demo_run = concat_all demo_chunk /\
  answer (read_bounded_protocol default_limits new_parser (map Data demo_run ++ [StopReadable])) =
  answer (read_bounded_protocol default_limits new_parser (map Data demo_chunk ++ [StopReadable])).
Proof.
  split; [vm_compute; reflexivity|]. apply chunking_irrelevant; [vm_compute; reflexivity|].
  apply Nat.leb_le. vm_compute. reflexivity.
Defined.

Example answers_within_limits_witness :
  exists r, read_bounded_protocol default_limits new_parser (map Data demo_run ++ [EndOfFile]) = Some (Settled r) /\
    (length (records r) = 7 /\ bytes_read r <= 64000 /\ length (records r) <= 32)%nat.
Proof.
  destruct (read_bounded_protocol default_limits new_parser (map Data demo_run ++ [EndOfFile])) as [[r|]|] eqn:E;
    [|vm_compute in E; discriminate E..].
  exists r. split; [reflexivity|]. split.
  - assert (match read_bounded_protocol default_limits new_parser (map Data demo_run ++ [EndOfFile]) with
            | Some (Settled r) => length (records r) | _ => 0%nat end = 7%nat) as H by (vm_compute; reflexivity).
    rewrite E in H. exact H.
  - exact (answers_within_limits default_limits _ r E).
Defined.

Example evidence_of_accepted_witness :
  let e := extract_supervisor_evidence (mkResult true "ok" demo_objs 0) in
  workload_exit_code e = VInt 3 /\ protocol_valid e = true /\ sound_outcome (outcome_of e).
Proof. split; [vm_compute; reflexivity|]. apply (evidence_of_accepted default_limits demo_run). exact demo_read. Defined.

(** A record whose type is a list is not refused: the reader fails. *)
Example list_type_crashes : read_all default_limits [demo_line "{'version':1,'type':[]}"] = Some None.
Proof. vm_compute. reflexivity. Qed.

(** A workload that ends before it was confirmed to run is refused, and so is
    a second key of the same name, and a clean-up that failed. *)
Example exit_unconfirmed_refused :
  read_all default_limits (map demo_line ["{'version':1,'type':'supervisor_started'}";
    "{'version':1,'type':'workload_exited','started':true,'exit_code':0}"])
  = Some (Some (false, "protocol_workload_without_exec_confirmed",
      [[("version", VInt 1); ("type", VStr "supervisor_started")]])).
Proof. vm_compute. reflexivity. Qed.

Example second_key_refused :
  read_all default_limits [demo_line "{'version':1,'type':'supervisor_started','type':'supervisor_failed'}"]
  = Some (Some (false, "protocol_duplicate_key", [])).
Proof. vm_compute. reflexivity. Qed.

Example failed_cleanup_refused :
  option_map (option_map (fun a => (fst (fst a), snd (fst a)))) (read_all default_limits (map demo_line
    ["{'version':1,'type':'supervisor_failed','reason':'fork'}"; "{'version':1,'type':'cleanup_completed','cleanup_succeeded':false}"]))
  = Some (Some (false, "protocol_cleanup_failed")).
Proof. vm_compute. reflexivity. Qed.
