(* ===== verification/SupervisorChannels.v ===== *)
(** * The channels of the supervisor

    [runtime/exec_supervisor.py]: bounded writing to a pipe, the framed
    configuration and identity channels, the release token, and the emission of
    protocol records.  What the system answers to [select], [read] and [write]
    is a schedule of events; a call that is still waiting has no answer. *)
From S2P Require Import Prelude PyFloat PyValue Json StrictJson StrictText ProtocolStream.

(** ** Bytes *)

Fixpoint split_at (k : nat) (s : string) : string * string :=
  match k, s with
  | S k, String c s => let '(a, b) := split_at k s in (String c a, b)
  | _, _ => ("", s)
  end.

(** [struct.pack(">I", n)] and its inverse on four bytes *)
Definition pack (n : Z) : string :=
  String (zbyte (n / 16777216 mod 256)) (String (zbyte (n / 65536 mod 256))
    (String (zbyte (n / 256 mod 256)) (String (zbyte (n mod 256)) ""))).

Definition unpack (s : string) : Z := fold_left (fun n c => 256 * n + Z.of_nat (nat_of_ascii c)) (String.list_ascii_of_string s) 0.

(** ** Writing *)

Inductive write_event :=
| WExpired                      (* the deadline has passed *)
| WIdle                         (* interrupted, not writable, or it would block *)
| WTakes (n : nat)              (* [os.write] takes up to n bytes *)
| WPipeClosed
| WSelectFailed (e : string)
| WWriteFailed (e : string).

(** How a bounded write ends: what is in the pipe then, and the reason of its
    exception. *)
Definition write_end : Type := string * option string.

(** The loop of [_write_bounded_fd] over what is left of the data. *)
Fixpoint write_loop (prefix written data : string) (l : list write_event) : option write_end :=
  if negb (str_truthy data) then Some (written, None)
  else match l with
       | [] => None
       | e :: l =>
           match e with
           | WExpired => Some (written, Some (prefix +:+ "_timeout"))
           | WSelectFailed x => Some (written, Some (prefix +:+ "_select_error: " +:+ x))
           | WIdle => write_loop prefix written data l
           | WPipeClosed => Some (written, Some (prefix +:+ "_pipe_closed"))
           | WWriteFailed x => Some (written, Some (prefix +:+ "_write_error: " +:+ x))
           | WTakes n =>
               let '(a, b) := split_at n data in
               if negb (str_truthy a) then Some (written, Some (prefix +:+ "_write_zero"))
               else write_loop prefix (written +:+ a) b l
           end
       end.

(** [_write_bounded_fd]; [nonblock] is the failure of the set-up of the
    descriptor, when it fails. *)
Definition write_bounded_fd (prefix : string) (nonblock : option string) (data : string) (l : list write_event) : option write_end :=
  match nonblock with
  | Some e => Some ("", Some (prefix +:+ "_nonblock_setup_failed: " +:+ e))
  | None => write_loop prefix "" data l
  end.

Definition MAX_CONFIG_BYTES : nat := Z.to_nat 65536.

Definition framed (payload : string) : string := pack (Z.of_nat (String.length payload)) +:+ payload.

(** [write_bounded_config] *)
Definition write_bounded_config (max_bytes : nat) (nonblock : option string) (payload : string) (l : list write_event) : option write_end :=
  if Nat.ltb max_bytes (String.length payload) then Some ("", Some "config_oversized")
  else write_bounded_fd "config" nonblock (framed payload) l.

(** ** Reading *)

Inductive read_event :=
| RExpired
| RIdle                         (* interrupted, or not readable *)
| RReady (n : nat)              (* [os.read] gives up to n+1 bytes; none at the end of the stream *)
| RSelectFailed (e : string)
| RReadFailed (e : string).

(** What reading comes to, with what is left of stream and schedule. *)
Inductive got (A : Type) :=
| Waiting
| Failed (why : string)
| Got (a : A) (s : string) (l : list read_event).
Arguments Waiting {A}.
Arguments Failed {A}.
Arguments Got {A}.

Definition got_bind {A B} (r : got A) (k : A -> string -> list read_event -> got B) : got B :=
  match r with Waiting => Waiting | Failed why => Failed why | Got a s l => k a s l end.

(** [_read_exact] *)
Fixpoint read_exact (prefix : string) (count : nat) (allow_eof : bool) (buf s : string) (l : list read_event) : got (option string) :=
  if Nat.leb count (String.length buf) then Got (Some buf) s l
  else match l with
       | [] => Waiting
       | e :: l =>
           match e with
           | RExpired => Failed (prefix +:+ "_timeout")
           | RSelectFailed x => Failed (prefix +:+ "_select_error: " +:+ x)
           | RIdle => read_exact prefix count allow_eof buf s l
           | RReadFailed x => Failed (prefix +:+ "_read_error: " +:+ x)
           | RReady n =>
               let '(chunk, s) := split_at (Nat.min (S n) (count - String.length buf)) s in
               if str_truthy chunk then read_exact prefix count allow_eof (buf +:+ chunk) s l
               else if allow_eof && negb (str_truthy buf) then Got None s l
               else Failed (prefix +:+ "_partial_eof")
           end
       end.

(** What the framed channels differ in: their name, and how the error of a
    reading becomes theirs. *)
Record Channel := mkChannel { ch_name : string; ch_wrap : string -> string -> string }.

Definition config_channel : Channel := mkChannel "config" (fun _ why => why).
Definition identity_channel : Channel :=
  mkChannel "identity" (fun stage why => "identity_" +:+ stage +:+ "_failed: " +:+ why).

Definition stage_read (ch : Channel) (stage : string) (count : nat) (allow_eof : bool) (s : string) (l : list read_event)
  : got (option string) :=
  match read_exact (ch_name ch +:+ "_" +:+ stage) count allow_eof "" s l with
  | Failed why => Failed (ch_wrap ch stage why)
  | r => r
  end.

(** One JSON object from the payload. *)
Definition parse_payload (ch : Channel) (payload : string) : res string pyctx :=
  if negb (is_text payload) then Err (ch_name ch +:+ "_malformed")
  else match loads_strict payload with
       | Err DuplicateKeyError => Err (ch_name ch +:+ "_duplicate_key")
       | Err Malformed => Err (ch_name ch +:+ "_malformed")
       | Ok (VDict d) => Ok d
       | Ok _ => Err (ch_name ch +:+ "_non_object")
       end.

(** The common body of [read_bounded_config] and [_read_identity_frame]. *)
Definition read_frame (ch : Channel) (max_bytes : nat) (s : string) (l : list read_event) : got pyctx :=
  got_bind (stage_read ch "header" 4 false s l) (fun header s l =>
  let declared := unpack (default "" header) in
  if Z.of_nat max_bytes <? declared then Failed (ch_name ch +:+ "_oversized")
  else if declared =? 0 then Failed (ch_name ch +:+ "_empty_payload")
  else
  got_bind (stage_read ch "payload" (Z.to_nat declared) false s l) (fun payload s l =>
  got_bind (stage_read ch "eof" 1 true s l) (fun trailing s l =>
  match trailing with
  | Some _ => Failed (ch_name ch +:+ "_trailing_bytes")
  | None => match parse_payload ch (default "" payload) with
            | Err why => Failed why
            | Ok d => Got d s l
            end
  end))).

(** [read_bounded_config] *)
Definition read_bounded_config (max_bytes : nat) (s : string) (l : list read_event) : got pyctx :=
  read_frame config_channel max_bytes s l.

(** ** The identity channel *)

Definition IDENTITY_VERSION : Z := 1.
Definition IDENTITY_MAX_PAYLOAD : nat := 256.
Definition RELEASE_TOKEN : string := "S3.2_RELEASE_V1" +:+ newline.

(** [_write_identity_frame] *)
Definition write_identity_frame (nonblock : option string) (obj : pyctx) (l : list write_event) : option write_end :=
  let payload := compact_text (VDict obj) in
  if Nat.ltb IDENTITY_MAX_PAYLOAD (String.length payload) then Some ("", Some "identity_oversized")
  else write_bounded_fd "identity" nonblock (framed payload) l.

(** [_read_identity_frame] *)
Definition read_identity_frame (s : string) (l : list read_event) : got pyctx := read_frame identity_channel IDENTITY_MAX_PAYLOAD s l.

Definition IDENTITY_ALLOWED_FIELDS : list string := ["version"; "type"; "pid"; "ppid"].
Definition PROOF_ALLOWED_FIELDS : list string := ["version"; "type"; "child_pidns_dev"; "child_pidns_ino"; "init_host_pid"].

(** The keys of the object are the fields; the name of the refusal without
    the offending value. *)
Definition closed_schema (name : string) (fields : list string) (obj : pyctx) : option string :=
  if negb (forallb (fun k => mem k fields) (map fst obj)) then Some (name +:+ "_unknown_fields")
  else if negb (forallb (fun k => given k obj) fields) then Some (name +:+ "_missing_fields")
  else None.

Definition int_is (z : Z) (v : pyval) : bool := is_int_not_bool v && (int_of v =? z).
Definition positive_int (v : pyval) : bool := is_int_not_bool v && (0 <? int_of v).
Definition text_is (t : string) (v : pyval) : bool := py_eq v (VStr t).

(** [_validate_identity] *)
Definition validate_identity (obj : pyctx) : res string (Z * Z) :=
  match closed_schema "identity" IDENTITY_ALLOWED_FIELDS obj with
  | Some why => Err why
  | None =>
      if negb (int_is IDENTITY_VERSION (context_get "version" obj)) then Err "identity_version_invalid"
      else if negb (text_is "init_identity" (context_get "type" obj)) then Err "identity_type_invalid"
      else if negb (int_is 1 (context_get "pid" obj)) then Err "identity_pid_invalid"
      else if negb (int_is 0 (context_get "ppid" obj)) then Err "identity_ppid_invalid"
      else Ok (int_of (context_get "pid" obj), int_of (context_get "ppid" obj))
  end.

(** [_validate_proof_record] *)
Definition validate_proof_record (obj : pyctx) : res string (Z * Z) :=
  match closed_schema "proof" PROOF_ALLOWED_FIELDS obj with
  | Some why => Err why
  | None =>
      if negb (int_is IDENTITY_VERSION (context_get "version" obj)) then Err "proof_version_invalid"
      else if negb (text_is "topology_proof" (context_get "type" obj)) then Err "proof_type_invalid"
      else if negb (positive_int (context_get "child_pidns_dev" obj)) then Err "proof_dev_invalid"
      else if negb (positive_int (context_get "child_pidns_ino" obj)) then Err "proof_ino_invalid"
      else if negb (positive_int (context_get "init_host_pid" obj)) then Err "proof_init_host_pid_invalid"
      else Ok (int_of (context_get "child_pidns_dev" obj), int_of (context_get "child_pidns_ino" obj))
  end.

(** [_read_exact_token]; [None] while it waits. *)
Definition read_exact_token (expected s : string) (l : list read_event) : option bool :=
  match read_exact "gate_token" (String.length expected) false "" s l with
  | Waiting => None
  | Failed _ => Some false
  | Got data s l =>
      if negb (default "" data =? expected)%string then Some false
      else match read_exact "gate_eof" 1 true "" s l with
           | Waiting => None
           | Failed _ => Some false
           | Got trailing _ _ => Some (match trailing with Some _ => false | None => true end)
           end
  end.

(** ** Emission *)

Definition MAX_PROTOCOL_RECORD_BYTES : nat := Z.to_nat 8192.

(** [{"version": PROTO_VERSION, **record}] *)
Definition versioned (record : pyctx) : pyctx :=
  fold_left (fun d kv => dset (fst kv) (snd kv) d) record [("version", VInt PROTO_VERSION)].

Definition record_line (record : pyctx) : string := compact_text (VDict (versioned record)) +:+ newline.

(** [emit_protocol] *)
Definition emit_protocol (nonblock : option string) (record : pyctx) (l : list write_event) : option write_end :=
  if Nat.ltb MAX_PROTOCOL_RECORD_BYTES (String.length (record_line record)) then Some ("", Some "protocol_record_too_large")
  else write_bounded_fd "protocol" nonblock (record_line record) l.

(** ** What is written *)

Lemma split_at_spec k : forall s, split_at k s = ("", s) /\ (k = 0%nat \/ s = "") \/
  s = fst (split_at k s) +:+ snd (split_at k s) /\ len (fst (split_at k s)) = Nat.min k (len s) /\ (0 < k)%nat /\ s <> "".
Proof.
  induction k as [|k IH]; intros [|c s]; [by left; auto..|]. right. cbn [split_at].
  destruct (IH s) as [[E H] | (E & Hl & _)].
  - rewrite E. cbn. destruct H as [-> | ->]; (split; [done|split; [cbn; lia|split; [lia|done]]]).
  - destruct (split_at k s) as [a b]. cbn [fst snd] in *. rewrite append_cons, <- E. cbn. split_and!; [done | lia | lia | done].
Qed.

(** A bounded write puts all the data on the pipe, or a part before which it
    stopped, and then it raised. *)
Lemma write_loop_prefix prefix l : forall written data out why, write_loop prefix written data l = Some (out, why) ->
  exists rest, written +:+ data = out +:+ rest /\ (why = None <-> rest = "").
Proof.
  induction l as [|e l IH]; intros written data out why; cbn [write_loop];
    (destruct (str_truthy data) eqn:Ed; cbn [negb];
     [|apply str_truthy_false in Ed as ->; intros [= <- <-]; exists ""; by rewrite !append_empty_r]); [done|].
  assert (Hstop : forall x, Some (written, Some x) = Some (out, why) ->
    exists rest, written +:+ data = out +:+ rest /\ (why = None <-> rest = "")).
  { intros x [= <- <-]. exists data. split; [done|]. split; [done|]. by intros ->. }
  destruct e; try apply Hstop; [by apply IH|]. pose proof (split_at_spec n data) as H.
  destruct (split_at n data) as [a b]. cbn [fst snd] in H. destruct (str_truthy a) eqn:Ea; cbn [negb]; [|apply Hstop].
  destruct H as [[[= -> ->] _] | (E & _)]; [done|]. intros H%IH. by rewrite append_assoc, <- E in H.
Qed.

Lemma write_bounded_prefix prefix nb data l out why : write_bounded_fd prefix nb data l = Some (out, why) ->
  exists rest, data = out +:+ rest /\ (rest = "" -> data <> "" -> why = None) /\ (why = None -> rest = "").
Proof.
  unfold write_bounded_fd. destruct nb as [e|].
  - intros [= <- <-]. exists data. by split_and!.
  - intros (rest & E & H)%write_loop_prefix. exists rest. rewrite append_nil in E. naive_solver.
Qed.

(** What the system says of a failed write is text. *)
Definition write_texts (l : list write_event) : bool :=
  forallb (fun e => match e with WSelectFailed x | WWriteFailed x => is_text x | _ => true end) l.

Lemma write_loop_text prefix l : all_chars printable prefix = true -> write_texts l = true ->
  forall written data out why, write_loop prefix written data l = Some (out, Some why) -> is_text why = true.
Proof.
  intros Hp%printable_text. induction l as [|e l IH]; intros Hl written data out why; cbn [write_loop];
    (destruct (str_truthy data); cbn [negb]; [|done]); [done|].
  cbn [write_texts forallb] in Hl. apply andb_prop in Hl as [He Hl]. specialize (IH Hl). destruct e.
  - intros [= _ <-]. by apply is_text_app.
  - apply IH.
  - destruct (split_at n data) as [a b]. destruct (negb _); [|apply IH]. intros [= _ <-]. by apply is_text_app.
  - intros [= _ <-]. by apply is_text_app.
  - intros [= _ <-]. apply is_text_app; [done|]. by apply is_text_app.
  - intros [= _ <-]. apply is_text_app; [done|]. by apply is_text_app.
Qed.

Lemma config_reason_text max_bytes nb payload l out why :
  match nb with Some e => is_text e | None => true end = true -> write_texts l = true ->
  write_bounded_config max_bytes nb payload l = Some (out, Some why) -> is_text why = true.
Proof.
  intros Hnb Hl. unfold write_bounded_config, write_bounded_fd. destruct (Nat.ltb _ _); [by intros [= _ <-]|].
  destruct nb as [e|]; [intros [= _ <-]; by do 2 (apply is_text_app; [done|])|]. by apply write_loop_text.
Qed.

(** ** What is read *)

(** A schedule without failures: the reader waits or reads. *)
Definition smooth (l : list read_event) : bool :=
  forallb (fun e => match e with RIdle | RReady _ => true | _ => false end) l.

Definition ready (l : list read_event) : nat :=
  length (List.filter (fun e => match e with RReady _ => true | _ => false end) l).

Lemma read_exact_sound prefix count eof l : forall buf s r s' l', read_exact prefix count eof buf s l = Got r s' l' ->
  (len buf <= count)%nat ->
  match r with
  | Some b => buf +:+ s = b +:+ s' /\ len b = count
  | None => eof = true /\ buf = "" /\ s = "" /\ s' = ""
  end.
Proof.
  induction l as [|e l IH]; intros buf s r s' l'; cbn [read_exact];
    (destruct (Nat.leb_spec count (len buf)) as [Hc|Hc]; [intros [= <- <- _] Hb; split; [done | lia]|]); [done|].
  destruct e; try done; [apply IH|]. pose proof (split_at_spec (Nat.min (S n) (count - len buf)) s) as H.
  destruct (split_at _ s) as [chunk s1]. cbn [fst snd] in H. destruct (str_truthy chunk) eqn:Ec.
  - intros H1 Hb. destruct H as [[[= -> _] _] | (E & Hl & _)]; [done|].
    apply IH in H1; [|rewrite length_append; lia]. destruct r as [b|]; [by rewrite append_assoc, <- E in H1|].
    destruct H1 as (_ & Hn & _). destruct buf; [|done]. rewrite append_nil in Hn. by rewrite Hn in Ec.
  - apply str_truthy_false in Ec as ->. assert (s = "" /\ s1 = "") as [-> ->].
    { destruct H as [[[= ->] [H | ->]] | (E & Hl & H0 & Hne)]; [lia | done|]. change (len "") with 0%nat in Hl.
      destruct s; [done | cbn [String.length] in *; lia]. }
    destruct eof; [|done]. destruct (str_truthy buf) eqn:Eb; [done|]. apply str_truthy_false in Eb as ->.
    cbn [andb negb]. intros [= <- <- _] _. done.
Qed.

Lemma read_exact_complete prefix count eof l : forall buf s, smooth l = true -> (len buf <= count)%nat ->
  (count <= len buf + len s)%nat -> (count - len buf <= ready l)%nat ->
  exists b s' l', read_exact prefix count eof buf s l = Got (Some b) s' l' /\ smooth l' = true /\
    (ready l - (count - len buf) <= ready l')%nat.
Proof.
  induction l as [|e l IH]; intros buf s Hl Hb Hs Hr; cbn [read_exact];
    (destruct (Nat.leb_spec count (len buf)) as [Hc|Hc]; [eexists _, _, _; split_and!; [done | done | lia]|]).
  { cbn in Hr. lia. }
  cbn [smooth forallb] in Hl. apply andb_prop in Hl as [He Hl]. destruct e; try done.
  - apply IH; done.
  - change (ready (RReady n :: l)) with (S (ready l)) in *.
    pose proof (split_at_spec (Nat.min (S n) (count - len buf)) s) as H. destruct (split_at _ s) as [chunk s1]. cbn [fst snd] in H.
    destruct H as [[_ [H | ->]] | (E & Hlen & H0 & Hne)]; [lia | cbn in Hs; lia|].
    assert (0 < len s)%nat by (destruct s; [done | cbn; lia]).
    assert (str_truthy chunk = true) as -> by (destruct chunk; [change (len "") with 0%nat in Hlen; lia | done]).
    pose proof (f_equal len E) as El. rewrite length_append in El.
    destruct (IH (buf +:+ chunk) s1) as (b & s' & l' & -> & Hl' & Hr'); [done | rewrite ?length_append; lia..|].
    eexists _, _, _. split_and!; [done | done|]. rewrite length_append in Hr'. lia.
Qed.

Lemma read_exact_eof prefix l : smooth l = true -> (1 <= ready l)%nat ->
  exists l', read_exact prefix 1 true "" "" l = Got None "" l'.
Proof.
  induction l as [|e l IH]; [cbn; lia|]. cbn [smooth forallb]. intros [He Hl]%andb_prop Hr. destruct e; try done.
  - by apply IH.
  - cbn. by eexists.
Qed.

(** ** Frames *)

Lemma unpack_pack n : 0 <= n < 4294967296 -> unpack (pack n) = n.
Proof.
  intros H. unfold unpack, pack. cbn [String.list_ascii_of_string fold_left]. rewrite !zbyte_nat by divs. divs.
Qed.

Lemma zbyte_of c : zbyte (Z.of_nat (nat_of_ascii c)) = c.
Proof. unfold zbyte, byte. by rewrite Nat2Z.id, ascii_nat_embedding. Qed.

Lemma nat_of_ascii_bound c : 0 <= Z.of_nat (nat_of_ascii c) < 256.
Proof. pose proof (nat_ascii_bounded c). lia. Qed.

Lemma pack_unpack s : len s = 4%nat -> pack (unpack s) = s.
Proof.
  destruct s as [|a [|b [|c [|d [|]]]]]; try done. intros _. unfold unpack, pack. cbn [String.list_ascii_of_string fold_left].
  pose proof (nat_of_ascii_bound a). pose proof (nat_of_ascii_bound b). pose proof (nat_of_ascii_bound c). pose proof (nat_of_ascii_bound d).
  repeat f_equal.
  - rewrite <- (zbyte_of a) at 2. f_equal. divs.
  - rewrite <- (zbyte_of b) at 2. f_equal. divs.
  - rewrite <- (zbyte_of c) at 2. f_equal. divs.
  - rewrite <- (zbyte_of d) at 2. f_equal. divs.
Qed.

Lemma append_split a b c d : a +:+ b = c +:+ d -> len a = len c -> a = c /\ b = d.
Proof.
  revert c. induction a as [|x a IH]; intros [|y c] E H; try done. rewrite !append_cons in E. injection E as -> E.
  destruct (IH c E) as [-> ->]; [by injection H|]. done.
Qed.

Lemma framed_inj p q rest : framed p = framed q +:+ rest -> Z.of_nat (len p) < 4294967296 -> Z.of_nat (len q) < 4294967296 ->
  rest = "" /\ p = q.
Proof.
  unfold framed. rewrite append_assoc. intros E Hp Hq. apply append_split in E as [Eh Et]; [|done].
  apply (f_equal unpack) in Eh. rewrite !unpack_pack in Eh by lia. pose proof (f_equal len Et) as El. rewrite length_append in El.
  assert (rest = "") as -> by (destruct rest; [done | cbn [String.length] in El; lia]). by rewrite append_empty_r in Et.
Qed.

(** The stream is one frame, of a payload that is an object. *)
Definition carries (ch : Channel) (max_bytes : nat) (s : string) (obj : pyctx) : Prop :=
  exists payload, s = framed payload /\ (0 < len payload <= max_bytes)%nat /\ parse_payload ch payload = Ok obj.

Lemma stage_got ch stage count eof s l r s' l' : stage_read ch stage count eof s l = Got r s' l' ->
  match r with Some b => s = b +:+ s' /\ len b = count | None => eof = true /\ s = "" /\ s' = "" end.
Proof.
  unfold stage_read. destruct (read_exact _ _ _ _ _ _) as [|why|r1 s1 l1] eqn:E; [done..|]. intros [= <- <- <-].
  apply read_exact_sound in E; [|cbn; lia]. destruct r1 as [b|]; [by rewrite append_nil in E|]. naive_solver.
Qed.

Lemma read_frame_sound ch max_bytes s l obj s' l' : Z.of_nat max_bytes < 4294967296 ->
  read_frame ch max_bytes s l = Got obj s' l' -> carries ch max_bytes s obj /\ s' = "".
Proof.
  intros Hm. unfold read_frame. destruct (stage_read ch "header" _ _ _ _) as [|why|h s1 l1] eqn:E1; [done..|]. cbn [got_bind].
  apply stage_got in E1. destruct h as [h|]; [|by destruct E1]. destruct E1 as [-> Hh]. cbv zeta. cbn [from_option id].
  destruct (Z.ltb_spec (Z.of_nat max_bytes) (unpack h)) as [|Hd]; [done|].
  destruct (Z.eqb_spec (unpack h) 0) as [|Hz]; [done|].
  destruct (stage_read ch "payload" _ _ _ _) as [|why|p s2 l2] eqn:E2; [done..|]. cbn [got_bind].
  apply stage_got in E2. destruct p as [p|]; [|destruct E2 as (? & ? & ?); discriminate]. destruct E2 as [-> Hp]. cbn [from_option id].
  destruct (stage_read ch "eof" _ _ _ _) as [|why|t s3 l3] eqn:E3; [done..|]. cbn [got_bind].
  apply stage_got in E3. destruct t as [t|]; [done|]. destruct E3 as (_ & -> & ->).
  destruct (parse_payload ch p) as [d|why] eqn:Ep; [|done]. intros [= <- <- _]. split; [|done].
  assert (0 <= unpack h).
  { destruct h as [|a [|b [|c [|d' [|]]]]]; try done. unfold unpack. cbn [String.list_ascii_of_string fold_left]. lia. }
  exists p. rewrite append_empty_r. split; [|split; [lia | done]]. unfold framed. f_equal.
  rewrite Hp, Z2Nat.id by done. by rewrite pack_unpack.
Qed.

Lemma stage_complete ch stage count b rest l : smooth l = true -> len b = count -> (count <= ready l)%nat ->
  exists l', stage_read ch stage count false (b +:+ rest) l = Got (Some b) rest l' /\ smooth l' = true /\
    (ready l - count <= ready l')%nat.
Proof.
  intros Hl Hb Hr. unfold stage_read.
  destruct (read_exact_complete (ch_name ch +:+ "_" +:+ stage) count false l "" (b +:+ rest)) as (b' & s' & l' & E & Hl' & Hr');
    [done | cbn; lia | rewrite length_append; cbn; lia | cbn; lia|].
  rewrite E. apply read_exact_sound in E as [E Hc]; [|cbn; lia]. rewrite append_nil in E.
  apply append_split in E as [-> ->]; [|lia]. exists l'. split_and!; [done | done | cbn in Hr'; lia].
Qed.

Lemma read_frame_complete ch max_bytes s l obj : Z.of_nat max_bytes < 4294967296 -> smooth l = true -> (len s < ready l)%nat ->
  carries ch max_bytes s obj -> exists l', read_frame ch max_bytes s l = Got obj "" l'.
Proof.
  intros Hm Hl Hr (p & -> & Hp & Ep). unfold read_frame, framed in *. rewrite length_append in Hr. change (len (pack _)) with 4%nat in Hr.
  destruct (stage_complete ch "header" 4 (pack (Z.of_nat (len p))) p l) as (l1 & -> & Hl1 & Hr1); [done | done | lia|].
  cbn [got_bind from_option id]. cbv zeta. cbn [from_option id]. rewrite unpack_pack by lia. rewrite (proj2 (Z.ltb_ge _ _)) by lia. rewrite (proj2 (Z.eqb_neq _ _)) by lia.
  rewrite Nat2Z.id. destruct (stage_complete ch "payload" (len p) p "" l1) as (l2 & E2 & Hl2 & Hr2); [done | done | lia|].
  rewrite append_empty_r in E2. rewrite E2. cbn [got_bind from_option id]. unfold stage_read.
  destruct (read_exact_eof (ch_name ch +:+ "_" +:+ "eof") l2) as [l3 ->]; [done | lia|]. cbn [got_bind]. rewrite Ep. by eexists.
Qed.

(** C13: The framed channel of the configuration delivers exactly what was
    written or nothing: whatever either side's system calls do, the reader
    returns an object only if the writer wrote its whole frame, and then the
    object of its payload; and if the frame was written and the reads do not
    fail, a reader that is let read often enough returns that object. *)
Theorem config_delivered max_bytes nb payload wl out why rl :
  Z.of_nat max_bytes < 4294967296 -> write_bounded_config max_bytes nb payload wl = Some (out, why) ->
  (forall obj s' l', read_bounded_config max_bytes out rl = Got obj s' l' ->
     why = None /\ parse_payload config_channel payload = Ok obj) /\
  (forall obj, why = None -> payload <> "" -> parse_payload config_channel payload = Ok obj -> smooth rl = true ->
     (len out < ready rl)%nat -> exists l', read_bounded_config max_bytes out rl = Got obj "" l').
Proof.
  intros Hm. unfold write_bounded_config, read_bounded_config. destruct (Nat.ltb_spec max_bytes (len payload)) as [Hl|Hl].
  - intros [= <- <-]. split; [|done]. intros obj s' l' ((p & E & _) & _)%read_frame_sound; [|done].
    unfold framed in E. by apply (f_equal len) in E.
  - intros (rest & E & H1 & H2)%write_bounded_prefix. split.
    + intros obj s' l' ((p & -> & Hp & Ep) & _)%read_frame_sound; [|done].
      apply framed_inj in E as [-> ->]; [|lia..]. split; [by apply H1 | done].
    + intros obj Hw Hne Hp Hs Hr. rewrite (H2 Hw), append_empty_r in E. subst out. apply read_frame_complete; [done..|].
      exists payload. split; [done|]. split; [|done]. split; [|done]. destruct payload; [done | cbn; lia].
Qed.
