(* ===== verification/MetadataStream.v ===== *)
(** * The metadata the bootstrap sends

    [runtime/exec_supervisor.py]: the probe of the child and the bounded
    reader of the typed records the bootstrap writes to the supervisor. *)
From S2P Require Import Prelude PyFloat PyValue Json StrictJson StrictText ProtocolStream.

Definition META_BOOTSTRAP_STARTED : string := "bootstrap_started".
Definition META_ENFORCEMENT_VERIFIED : string := "enforcement_verified".
Definition META_ENFORCEMENT_FAILED : string := "enforcement_failed".
Definition META_PTRACE_TRACEME_FAILED : string := "ptrace_traceme_failed".
Definition META_BOOTSTRAP_FAILED : string := "bootstrap_failed".

Definition META_ALLOWED_TYPES : list string :=
  [META_BOOTSTRAP_STARTED; META_ENFORCEMENT_VERIFIED; META_ENFORCEMENT_FAILED; META_PTRACE_TRACEME_FAILED; META_BOOTSTRAP_FAILED].

Definition META_ALLOWED_FIELDS : dict (list string) :=
  [ (META_BOOTSTRAP_STARTED, ["type"]); (META_ENFORCEMENT_VERIFIED, ["type"; "metadata"]);
    (META_ENFORCEMENT_FAILED, ["type"; "failed_primitives"]); (META_PTRACE_TRACEME_FAILED, ["type"; "errno"]);
    (META_BOOTSTRAP_FAILED, ["type"; "stage"; "reason"]) ].

Definition META_TERMINAL_TYPES : list string :=
  [META_ENFORCEMENT_VERIFIED; META_ENFORCEMENT_FAILED; META_PTRACE_TRACEME_FAILED; META_BOOTSTRAP_FAILED].

Definition metadata_limits : Limits := mkLimits (Z.to_nat 65536) 16 (Z.to_nat 16384).

(** What [waitid] says of the child: nothing yet, a state with its code, or an
    error. *)
Inductive waitid_answer := Nothing_yet | State (si_code : Z) | ProbeError.

Record ChildProbeResult := mkProbe { running : bool; exited : bool; error : bool }.

(** [_probe_child_exit] *)
Definition probe_child_exit (a : waitid_answer) : ChildProbeResult :=
  match a with
  | Nothing_yet => mkProbe true false false
  | State code => if (1 <=? code) && (code <=? 3) then mkProbe false true false else mkProbe false false false
  | ProbeError => mkProbe false false true
  end.

Record MetadataReadResult := mkMeta {
  m_ok : bool;
  m_reason : string;
  metadata : pyctx;
  m_bytes : nat;
  m_records : nat;
  child_exited : bool;
}.

(** The variables of [read_bounded_metadata]. *)
Record MetaState := mkMetaState {
  s_buffer : string;
  s_records : list pyctx;
  s_bytes : nat;
  got_started : bool;
  terminal : option string;
}.

Definition new_meta : MetaState := mkMetaState "" [] 0 false None.

(** [_finalize] *)
Definition finalize (st : MetaState) (b : bool) (why : string) (gone : bool) : MetadataReadResult :=
  mkMeta b why (fold_left (fun d rec => fold_left (fun d kv => dset (fst kv) (snd kv) d) rec d) (s_records st) [])
    (s_bytes st) (length (s_records st)) gone.

(** How a line ends: the reading goes on, fails, or [TypeError]. *)
Inductive meta_line := MGo (st : MetaState) | MReject (why : string) | MRaise.

(** [_process_line] of the reader *)
Definition meta_process_line (lim : Limits) (st : MetaState) (line : string) : meta_line :=
  if Nat.ltb (max_record_bytes lim) (String.length line) then MReject "metadata_record_too_large"
  else match parse_json_strict line with
       | Err DuplicateKeyError => MReject "metadata_duplicate_key"
       | Err Malformed => MReject "metadata_malformed"
       | Ok obj =>
           let ty := context_get "type" obj in
           if unhashable ty then MRaise
           else match ty with
                | VStr t =>
                    if negb (mem t META_ALLOWED_TYPES) then MReject "metadata_unknown_event"
                    else if negb (forallb (fun k => mem k (dget_or t ["type"] META_ALLOWED_FIELDS)) (map fst obj))
                    then MReject "metadata_unknown_field"
                    else
                      let started := (t =? META_BOOTSTRAP_STARTED)%string in
                      if Bool.eqb started (got_started st) || match terminal st with Some _ => true | None => false end
                      then MReject "metadata_invalid_transition"
                      else MGo (mkMetaState (s_buffer st) (s_records st ++ [obj]) (s_bytes st) (started || got_started st)
                                  (if mem t META_TERMINAL_TYPES then Some t else terminal st))
                | _ => MReject "metadata_unknown_event"
                end
       end.

Inductive meta_outcome := MSettled (r : MetadataReadResult) | MCrashed.

Definition failed_now (st : MetaState) (why : string) : option meta_outcome := Some (MSettled (finalize st false why false)).

(** The loop over the complete lines of the buffer. *)
Fixpoint meta_drain (lim : Limits) (fuel : nat) (st : MetaState) : MetaState * option meta_outcome :=
  match fuel, split1 newline (s_buffer st) with
  | S f, Some (raw, rest) =>
      let st := mkMetaState rest (s_records st) (s_bytes st) (got_started st) (terminal st) in
      let line := strip_text (repair raw) in
      if negb (str_truthy line) then meta_drain lim f st
      else if Nat.leb (max_records lim) (length (s_records st)) then (st, failed_now st "metadata_too_many_records")
      else match meta_process_line lim st line with
           | MGo st => meta_drain lim f st
           | MReject why => (st, failed_now st why)
           | MRaise => (st, Some MCrashed)
           end
  | _, _ => (st, None)
  end.

(** One turn of the loop: what [select] and [read] answer, with the answer to
    the probe where the turn comes to it. *)
Inductive meta_event :=
| MExpired
| MInterrupted
| MSelectFailed (e : string)
| MReadFailed (e : string)
| MData (chunk : string) (probe : waitid_answer)
| MNoData                        (* end of the stream, or [BlockingIOError] *)
| MQuiet (probe : waitid_answer). (* nothing readable *)

(** Once a terminal record was read. *)
Definition conclude (st : MetaState) : option meta_outcome :=
  match terminal st with
  | Some t => if (t =? META_ENFORCEMENT_VERIFIED)%string then Some (MSettled (finalize st true "ok" false)) else failed_now st t
  | None => None
  end.

Definition after_probe (st : MetaState) (a : waitid_answer) : option meta_outcome :=
  match conclude st with
  | Some o => Some o
  | None =>
      let probe := probe_child_exit a in
      if error probe then failed_now st "metadata_child_probe_error"
      else if exited probe then
        Some (MSettled (finalize st false
          (if got_started st then "bootstrap_exited_before_verified" else "bootstrap_exited_before_started") true))
      else None
  end.

(** [read_bounded_metadata]; [None] while it waits. *)
Fixpoint read_bounded_metadata (lim : Limits) (st : MetaState) (l : list meta_event) : option meta_outcome :=
  match l with
  | [] => None
  | e :: l =>
      match e with
      | MExpired => match conclude st with Some o => Some o | None => failed_now st "metadata_timeout" end
      | MInterrupted => read_bounded_metadata lim st l
      | MSelectFailed x => failed_now st ("metadata_select_error: " +:+ x)
      | MReadFailed x => failed_now st ("metadata_read_error: " +:+ x)
      | MData chunk a =>
          if Nat.ltb (max_bytes lim) (s_bytes st + String.length chunk) then failed_now st "metadata_limit_exceeded"
          else
            let buf := s_buffer st +:+ chunk in
            match meta_drain lim (String.length buf)
                    (mkMetaState buf (s_records st) (s_bytes st + String.length chunk) (got_started st) (terminal st)) with
            | (_, Some o) => Some o
            | (st, None) => match after_probe st a with Some o => Some o | None => read_bounded_metadata lim st l end
            end
      | MNoData =>
          match conclude st with
          | Some o => Some o
          | None => failed_now st (if str_truthy (strip_text (repair (s_buffer st))) then "metadata_partial_record"
                                   else "metadata_eof_before_verified")
          end
      | MQuiet a => match after_probe st a with Some o => Some o | None => read_bounded_metadata lim st l end
      end
  end.

(** ** What a verified answer rests on *)

Definition typed (t : string) (obj : pyctx) : Prop :=
  context_get "type" obj = VStr t /\ forallb (fun k => mem k (dget_or t ["type"] META_ALLOWED_FIELDS)) (map fst obj) = true.

(** The records so far: none, the start, or the start and one terminal. *)
Definition phased (lim : Limits) (st : MetaState) : Prop :=
  (s_bytes st <= max_bytes lim)%nat /\
  match s_records st with
  | [] => got_started st = false /\ terminal st = None
  | [o] => typed META_BOOTSTRAP_STARTED o /\ got_started st = true /\ terminal st = None
  | [o; v] => typed META_BOOTSTRAP_STARTED o /\ got_started st = true /\
      exists t, terminal st = Some t /\ t ∈ META_TERMINAL_TYPES /\ typed t v
  | _ => False
  end.

Lemma phased_buffer lim st b : phased lim st -> phased lim (mkMetaState b (s_records st) (s_bytes st) (got_started st) (terminal st)).
Proof. done. Qed.

Lemma meta_line_phased lim st line st' : phased lim st -> meta_process_line lim st line = MGo st' -> phased lim st'.
Proof.
  intros [Hb Hp]. unfold meta_process_line. destruct (Nat.ltb _ _); [done|].
  destruct (parse_json_strict line) as [obj|[]]; [|done..]. cbv zeta. destruct (unhashable _); [done|].
  destruct (context_get "type" obj) as [| | | |t| |] eqn:Et; try done.
  destruct (mem t META_ALLOWED_TYPES) eqn:Hm; cbn [negb]; [|done]. apply mem_true in Hm.
  destruct (forallb _ _) eqn:Hf; cbn [negb]; [|done].
  destruct (Bool.eqb _ _ || _) eqn:Ho; [done|]. intros [= <-]. apply orb_false_iff in Ho as [Hg Ht].
  destruct (terminal st) as [t0|] eqn:E; [done|]. split; [done|]. cbn [s_records got_started terminal].
  destruct (s_records st) as [|o [|v [|]]]; cbn [app].
  - destruct Hp as [Hp _]. rewrite Hp in Hg. apply eqb_false_iff in Hg. destruct (String.eqb_spec t META_BOOTSTRAP_STARTED) as [->|]; [|done].
    by split.
  - destruct Hp as (Ho & Hp & _). rewrite Hp in Hg. apply eqb_false_iff in Hg. split; [done|]. rewrite Hp, orb_true_r. split; [done|].
    exists t. destruct (String.eqb_spec t META_BOOTSTRAP_STARTED) as [|Hn]; [done|].
    assert (t ∈ META_TERMINAL_TYPES) as Hin by (unfold META_ALLOWED_TYPES in Hm; rewrite elem_of_cons in Hm; by destruct Hm).
    apply mem_true in Hin as Hin'. cbn in Hin'. by rewrite Hin'.
  - by destruct Hp as (_ & _ & t1 & ? & _).
  - done.
Qed.

(** What settles a reading: a success rests on the start and the verified
    record; the reason of a failure is text. *)
Definition sound_answer (lim : Limits) (texts : Prop) (o : option meta_outcome) : Prop :=
  match o with
  | Some (MSettled r) =>
      (m_bytes r <= max_bytes lim)%nat /\ (texts -> is_text (m_reason r) = true) /\
      (m_ok r = true -> m_reason r = "ok" /\ child_exited r = false /\
        exists o v, typed META_BOOTSTRAP_STARTED o /\ typed META_ENFORCEMENT_VERIFIED v /\ m_records r = 2%nat /\
          metadata r = fold_left (fun d kv => dset (fst kv) (snd kv) d) v (fold_left (fun d kv => dset (fst kv) (snd kv) d) o []))
  | _ => True
  end.

Lemma failed_sound lim texts st why : phased lim st -> (texts -> is_text why = true) -> sound_answer lim texts (failed_now st why).
Proof. intros [Hb _] Hw. by split. Qed.

Lemma conclude_sound lim texts st : phased lim st -> sound_answer lim texts (conclude st).
Proof.
  intros [Hb Hp]. unfold conclude. destruct (terminal st) as [t|] eqn:E; [|done].
  destruct (s_records st) as [|o [|v [|]]] eqn:Er; [by destruct Hp as [_ ?] | by destruct Hp as (_ & _ & ?) | | done].
  destruct Hp as (Ho & _ & t' & [= <-] & Ht & Hv). destruct (String.eqb_spec t META_ENFORCEMENT_VERIFIED) as [->|].
  - split; [done|]. split; [done|]. intros _. split; [done|]. split; [done|]. exists o, v. unfold finalize. cbn. by rewrite Er.
  - split; [done|]. split; [|done]. intros _. cbn [finalize m_reason]. revert Ht. unfold META_TERMINAL_TYPES. rewrite !elem_of_cons, elem_of_nil. intros H. by destruct_or! H; subst.
Qed.

Lemma meta_drain_sound lim texts fuel : forall st, phased lim st ->
  phased lim (fst (meta_drain lim fuel st)) /\ sound_answer lim texts (snd (meta_drain lim fuel st)).
Proof.
  induction fuel as [|fuel IH]; intros st Hp; [done|]. cbn [meta_drain]. destruct (split1 newline (s_buffer st)) as [[raw rest]|]; [|done].
  cbv zeta. apply (phased_buffer _ _ rest) in Hp. destruct (negb _); [by apply IH|]. cbn [s_records].
  destruct (Nat.leb _ _); [split; [done | by apply failed_sound]|].
  destruct (meta_process_line _ _ _) as [st'|why|] eqn:E; [| |done].
  - apply IH. by eapply meta_line_phased.
  - split; [done|]. apply failed_sound; [done|]. intros _. unfold meta_process_line in E.
    destruct (Nat.ltb _ _); [by injection E as <-|]. destruct (parse_json_strict _) as [obj|[]]; [|by injection E as <-..].
    cbv zeta in E. destruct (unhashable _); [done|]. destruct (context_get "type" obj); try by injection E as <-.
    do 2 (destruct (negb _); [by injection E as <-|]). destruct (_ || _); [by injection E as <- | done].
Qed.

Lemma probe_sound lim texts st a : phased lim st -> sound_answer lim texts (after_probe st a).
Proof.
  intros Hp. unfold after_probe. destruct (conclude st) as [o|] eqn:E; [rewrite <- E; by apply conclude_sound|].
  cbv zeta. destruct (error _); [by apply failed_sound|]. destruct (exited _); [|done].
  split; [by destruct Hp|]. split; [|done]. by destruct (got_started st).
Qed.

(** What the system says of a failed reading is text. *)
Definition meta_texts (l : list meta_event) : Prop :=
  Forall (fun e => match e with MSelectFailed x | MReadFailed x => is_text x = true | _ => True end) l.

Lemma meta_sound lim l : forall st, phased lim st -> sound_answer lim (meta_texts l) (read_bounded_metadata lim st l).
Proof.
  induction l as [|e l IH]; intros st Hp; [done|].
  assert (Hnext : forall st, phased lim st -> sound_answer lim (meta_texts (e :: l)) (read_bounded_metadata lim st l)).
  { intros st1 H1. specialize (IH st1 H1). destruct (read_bounded_metadata lim st1 l) as [[r|]|]; [|done..].
    destruct IH as (H2 & H3 & H4). split; [done|]. split; [|done]. intros Ht. apply H3. by inversion Ht. }
  cbn [read_bounded_metadata]. destruct e.
  - destruct (conclude st) as [o|] eqn:E; [rewrite <- E; by apply conclude_sound | by apply failed_sound].
  - by apply Hnext.
  - apply failed_sound; [done|]. intros Ht. inversion Ht. by apply is_text_app.
  - apply failed_sound; [done|]. intros Ht. inversion Ht. by apply is_text_app.
  - destruct (Nat.ltb_spec (max_bytes lim) (s_bytes st + String.length chunk)) as [|Hb]; [by apply failed_sound|]. cbv zeta.
    set (st1 := mkMetaState _ _ _ _ _). assert (phased lim st1) as H1 by (destruct Hp; by split).
    pose proof (meta_drain_sound lim (meta_texts (MData chunk probe :: l)) (String.length (s_buffer st +:+ chunk)) st1 H1) as [H2 H3].
    destruct (meta_drain lim _ st1) as [st2 [o|]]; [exact H3|]. cbn [fst] in H2.
    destruct (after_probe st2 probe) as [o|] eqn:E; [rewrite <- E; by apply probe_sound | by apply Hnext].
  - destruct (conclude st) as [o|] eqn:E; [rewrite <- E; by apply conclude_sound|]. apply failed_sound; [done|]. intros _.
    by destruct (str_truthy _).
  - destruct (after_probe st probe) as [o|] eqn:E; [rewrite <- E; by apply probe_sound | by apply Hnext].
Qed.

(** The enforcement is taken for verified only on the strength of two records,
    the start and the verified one, of their closed schemas, within the limit
    and with nothing in between, and not once the child is known to be gone. *)
Theorem metadata_verified lim l r : read_bounded_metadata lim new_meta l = Some (MSettled r) -> m_ok r = true ->
  (m_bytes r <= max_bytes lim)%nat /\ child_exited r = false /\ m_records r = 2%nat /\
  exists o v, typed META_BOOTSTRAP_STARTED o /\ typed META_ENFORCEMENT_VERIFIED v /\
    metadata r = fold_left (fun d kv => dset (fst kv) (snd kv) d) v (fold_left (fun d kv => dset (fst kv) (snd kv) d) o []).
Proof.
  intros H Hok. pose proof (meta_sound lim l new_meta) as S. rewrite H in S.
  destruct S as (Hb & _ & S); [by split; [apply Nat.le_0_l|]|]. destruct (S Hok) as (_ & Hc & o & v & Ho & Hv & Hn & Hm).
  split; [done|]. split; [done|]. split; [done|]. by exists o, v.
Qed.

Lemma meta_reason_text lim l r : meta_texts l -> read_bounded_metadata lim new_meta l = Some (MSettled r) -> is_text (m_reason r) = true.
Proof.
  intros Ht H. pose proof (meta_sound lim l new_meta) as S. rewrite H in S. apply S; [|done]. by split; [apply Nat.le_0_l|].
Qed.

(** ** Concrete streams *)

Definition meta_line_of (t : string) : string :=
  let q := String dquote "" in "{" +:+ q +:+ "type" +:+ q +:+ ":" +:+ q +:+ t +:+ q +:+ "}" +:+ newline.

Definition verdict (o : option meta_outcome) : option (option (bool * string)) :=
  match o with Some (MSettled r) => Some (Some (m_ok r, m_reason r)) | Some MCrashed => Some None | None => None end.

(** The same bytes in other chunks have another answer: what follows the
    verified record is refused with it, and never read after it. *)
Example metadata_chunks_matter :
  let start := meta_line_of META_BOOTSTRAP_STARTED in
  let ver := meta_line_of META_ENFORCEMENT_VERIFIED in
  verdict (read_bounded_metadata metadata_limits new_meta [MData (start +:+ ver) Nothing_yet; MData start Nothing_yet]) = Some (Some (true, "ok")) /\
  verdict (read_bounded_metadata metadata_limits new_meta [MData (start +:+ ver +:+ start) Nothing_yet])
  = Some (Some (false, "metadata_invalid_transition")).
Proof. split; vm_compute; reflexivity. Qed.
