(* ===== verification/SupervisorMain.v ===== *)
(** * The supervisor

    [runtime/exec_supervisor.py]: the life of the supervisor as the records it
    emits, given what the system answers - the start of the bootstrap, its
    metadata, the wait statuses of the traced workload, and the clean-up of the
    namespace.  [None] stands for a supervisor that still waits. *)
From S2P Require Import Prelude PyFloat PyValue Json StrictJson StrictText ProtocolStream SupervisorChannels MetadataStream.

(** ** The protocol pipe *)

(** What was written to the pipe, whether the supervisor believes in it, and
    what the system will answer to the writes of each emission to come: the
    failure of the set-up, or the events. *)
Record Sup := mkSup { pipe : string; protocol_alive : bool; plan : list (option string * list write_event) }.

Definition new_sup (plan : list (option string * list write_event)) : Sup := mkSup "" true plan.

Definition sup (A : Type) : Type := Sup -> option (Sup * A).

Definition sret {A} (a : A) : sup A := fun s => Some (s, a).
Definition sbind {A B} (m : sup A) (k : A -> sup B) : sup B :=
  fun s => match m s with Some (s, a) => k a s | None => None end.

(** One call of [emit_protocol]: whether it returned. *)
Definition emit (record : pyctx) : sup bool := fun s =>
  match plan s with
  | [] => None
  | (nb, l) :: rest =>
      match emit_protocol nb record l with
      | None => None
      | Some (out, why) =>
          Some (mkSup (pipe s +:+ out) (protocol_alive s) rest, match why with None => true | Some _ => false end)
      end
  end.

(** [_emit_mandatory] *)
Definition emit_mandatory (record : pyctx) : sup bool := fun s =>
  if negb (protocol_alive s) then Some (s, false)
  else match emit record s with
       | None => None
       | Some (s, true) => Some (s, true)
       | Some (s, false) => Some (mkSup (pipe s) false (plan s), false)
       end.

(** ** Wait statuses *)

Definition WIFSTOPPED (st : Z) : bool := Z.land st 255 =? 127.
Definition WSTOPSIG (st : Z) : Z := Z.land (Z.shiftr st 8) 255.
Definition WIFEXITED (st : Z) : bool := Z.land st 127 =? 0.
Definition WEXITSTATUS (st : Z) : Z := Z.land (Z.shiftr st 8) 255.
Definition WTERMSIG (st : Z) : Z := Z.land st 127.
Definition WIFSIGNALED (st : Z) : bool := negb (WTERMSIG st =? 0) && negb (WTERMSIG st =? 127).

Definition SIGSTOP : Z := 19.
Definition SIGTRAP : Z := 5.
Definition PTRACE_EVENT_EXEC : Z := 4.

Definition is_exec_stop (st : Z) : bool :=
  WIFSTOPPED st && (WSTOPSIG st =? SIGTRAP) && (Z.shiftr st 16 =? PTRACE_EVENT_EXEC).

(** [_decode_wait_status] *)
Definition decode_wait_status (st : Z) : Z :=
  if WIFEXITED st then WEXITSTATUS st else if WIFSIGNALED st then 128 + WTERMSIG st else 1.

Inductive wait_answer := Status (st : Z) | NoChild | WaitFails.

(** ** The clean-up of the namespace *)

(** [waitpid(-1, WNOHANG)] in the loops that reap, or their deadline. *)
Inductive reap_event := ReapExpired | ReapInterrupted | NoChildren | Reaped | ChildrenRemain | ReapFails.

Inductive reap_end := ECHILD_PROVEN | STILL_THERE | WAIT_ERROR.

Record CleanupOs := mkCleanupOs {
  own_pid : Z; own_ppid : Z;
  ns_stat : option (Z * Z);        (* device and inode of /proc/self/ns/pid *)
  drains : list reap_event;
  after_term : list reap_event;
  after_kill : list reap_event;
}.

(** [_drain_immediately] and [_reap_until]: [polls] when children that remain
    are waited for. *)
Fixpoint reap (polls : bool) (l : list reap_event) : option reap_end :=
  match l with
  | [] => None
  | e :: l =>
      match e with
      | ReapExpired => Some STILL_THERE
      | ReapInterrupted | Reaped => reap polls l
      | NoChildren => Some ECHILD_PROVEN
      | ChildrenRemain => if polls then reap polls l else Some STILL_THERE
      | ReapFails => Some WAIT_ERROR
      end
  end.

Definition cleanup_guard (os : CleanupOs) (dev ino : pyval) : bool :=
  (own_pid os =? 1) && (own_ppid os =? 0) && positive_int dev && positive_int ino &&
  match ns_stat os with Some (d, i) => (d =? int_of dev) && (i =? int_of ino) | None => false end.

Definition is_wait_error (e : reap_end) : bool := match e with WAIT_ERROR => true | _ => false end.
Definition is_proven (e : reap_end) : bool := match e with ECHILD_PROVEN => true | _ => false end.

Definition SIGCONT : Z := 18.
Definition SIGTERM : Z := 15.
Definition SIGKILL : Z := 9.

(** [_cleanup_namespace]: the signals sent to the whole namespace, and the
    result. What the fallback for a failed guard does to the one process it
    owns is not modelled. *)
Definition cleanup_namespace (os : CleanupOs) (dev ino : pyval) : option (list Z * bool) :=
  if negb (cleanup_guard os dev ino) then Some ([], false)
  else match reap false (drains os) with
       | None => None
       | Some r1 =>
           if is_proven r1 then Some ([], true)
           else match reap true (after_term os) with
                | None => None
                | Some r2 =>
                    if is_proven r2 then Some ([SIGCONT; SIGTERM], negb (is_wait_error r1))
                    else match reap true (after_kill os) with
                         | None => None
                         | Some r3 =>
                             Some ([SIGCONT; SIGTERM; SIGCONT; SIGKILL],
                                   is_proven r3 && negb (is_wait_error r1 || is_wait_error r2))
                         end
                end
       end.

(** ** The supervisor *)

(** What the system answers, in the order it is asked. *)
Record Os := mkOs {
  input_close : option bool;            (* no input descriptor, or whether its close succeeds *)
  fork : res string Z;                  (* the failure of pipes, serialization or fork; the pid *)
  config_payload : string;
  config_nonblock : option string;
  config_writes : list write_event;
  meta_events : list meta_event;
  first_wait : wait_answer;
  setoptions : bool; setoptions_errno : Z;
  first_cont : bool; first_cont_errno : Z;
  waits : list (wait_answer * bool);    (* with the success of the continuation, where one follows *)
  last_errno : Z;
  cleanup_os : CleanupOs;
}.

(** How [supervisor_main] is left. *)
Inductive sup_end := Returns (code : Z) | Raised.

Section Supervisor.
Context (os : Os) (config : pyctx).

Definition close_workload_input : bool := match input_close os with Some false => false | _ => true end.

Definition failed_record (why : string) (errno : option Z) : pyctx :=
  [("type", VStr PROTO_SUPERVISOR_FAILED); ("reason", VStr why)] ++
  match errno with Some n => [("errno", VInt n)] | None => [] end.

Definition cleanup_record (b : bool) : pyctx :=
  [("type", VStr PROTO_CLEANUP_COMPLETED); ("cleanup_succeeded", VBool b)].

Definition run_cleanup : option bool :=
  option_map snd (cleanup_namespace (cleanup_os os) (context_get "expected_pidns_dev" config)
                    (context_get "expected_pidns_ino" config)).

(** [_fail_and_cleanup] *)
Definition fail_and_cleanup (why : string) (errno : option Z) (force_cleanup_failed : bool) : sup sup_end :=
  sbind (emit_mandatory (failed_record why errno)) (fun _ s =>
  match run_cleanup with
  | None => None
  | Some b =>
      let cleanup_ok := b && negb force_cleanup_failed in
      if protocol_alive s
      then sbind (emit (cleanup_record cleanup_ok)) (fun _ => sret (Returns 1)) s
      else Some (s, Returns 1)
  end).

(** How the loop over the wait statuses is left: a terminal of the workload,
    a supervisor error, or a failed emission. *)
Inductive loop_end :=
| Exits (confirmed : bool) (code : Z)
| Signaled (confirmed : bool) (num : Z)
| SupervisorError (why : string)
| EmitFailed.

Fixpoint wait_loop (confirmed : bool) (l : list (wait_answer * bool)) : sup loop_end :=
  match l with
  | [] => fun _ => None
  | (NoChild, _) :: _ =>
      sret (SupervisorError (if confirmed then "waitpid_child_lost_after_exec" else "waitpid_child_lost_before_exec"))
  | (WaitFails, _) :: _ =>
      sret (SupervisorError (if confirmed then "waitpid_oserror_after_exec" else "waitpid_oserror_before_exec"))
  | (Status st, cont) :: l =>
      if WIFSTOPPED st then
        if is_exec_stop st then
          sbind (emit_mandatory [("type", VStr PROTO_EXEC_CONFIRMED)]) (fun sent =>
          if negb sent then sret EmitFailed
          else if negb cont then sret (SupervisorError "ptrace_cont_after_exec_failed")
          else wait_loop true l)
        else if negb cont then sret (SupervisorError "ptrace_cont_signal_forward_failed")
        else wait_loop confirmed l
      else if WIFEXITED st then sret (Exits confirmed (WEXITSTATUS st))
      else if WIFSIGNALED st then sret (Signaled confirmed (WTERMSIG st))
      else sret (SupervisorError ("unexpected_wait_status: " +:+ str_int st))
  end.

(** The normal end, once the outcome was reported. *)
Definition conclude_run : sup sup_end := fun s =>
  match run_cleanup with
  | None => None
  | Some cleanup_ok =>
      sbind (emit_mandatory (cleanup_record cleanup_ok)) (fun sent =>
        sret (Returns (if negb sent then 1 else if cleanup_ok then 0 else 1))) s
  end.

Definition report (record : pyctx) : sup sup_end :=
  sbind (emit_mandatory record) (fun sent =>
  if negb sent then fail_and_cleanup "protocol_emit_workload_exited_failed" None false else conclude_run).

Definition exited_record (code : Z) : pyctx :=
  [("type", VStr PROTO_WORKLOAD_EXITED); ("started", VBool true); ("exit_code", VInt code)].

Definition signaled_record (num : Z) : pyctx :=
  [("type", VStr PROTO_WORKLOAD_EXITED); ("started", VBool true); ("signaled", VBool true); ("signal_num", VInt num)].

(** After the loop. *)
Definition settle (e : loop_end) : sup sup_end :=
  match e with
  | EmitFailed => fail_and_cleanup "protocol_emit_exec_confirmed_failed" None false
  | SupervisorError why => fail_and_cleanup why (Some (last_errno os)) false
  | Exits true code => report (exited_record code)
  | Signaled true num => report (signaled_record num)
  | Exits false code => fail_and_cleanup ("bootstrap_exited_before_exec: " +:+ str_int code) None false
  | Signaled false _ => fail_and_cleanup "bootstrap_killed_before_exec" None false
  end.

(** The ptrace phase: the monitor is armed and the workload runs. *)
Definition monitor : sup sup_end :=
  if negb (setoptions os) then fail_and_cleanup "ptrace_setoptions_failed" (Some (setoptions_errno os)) false
  else
    sbind (emit_mandatory [("type", VStr PROTO_EXEC_MONITOR_ARMED)]) (fun sent =>
    if negb sent then fail_and_cleanup "protocol_emit_exec_monitor_armed_failed" None false
    else if negb (first_cont os) then fail_and_cleanup "ptrace_cont_initial_failed" (Some (first_cont_errno os)) false
    else sbind (wait_loop false (waits os)) settle).

Definition enforcement_record (md : pyctx) : pyctx :=
  ("type", VStr PROTO_ENFORCEMENT_VERIFIED) ::
  match context_get "metadata" md with VDict m => [("metadata", VDict m)] | _ => [] end.

(** After the bootstrap was spawned: its configuration, its metadata, its
    first stop. *)
Definition supervise : sup sup_end := fun s =>
  match write_bounded_config MAX_CONFIG_BYTES (config_nonblock os) (config_payload os) (config_writes os) with
  | None => None
  | Some (_, Some why) => fail_and_cleanup ("config: " +:+ why) None false s
  | Some (_, None) =>
      match read_bounded_metadata metadata_limits new_meta (meta_events os) with
      | None => None
      | Some MCrashed => Some (s, Raised)
      | Some (MSettled r) =>
          if negb (m_ok r) then fail_and_cleanup ("metadata: " +:+ m_reason r) None false s
          else
            sbind (emit_mandatory (enforcement_record (metadata r))) (fun sent =>
            if negb sent then fail_and_cleanup "protocol_emit_enforcement_verified_failed" None false
            else match first_wait os with
                 | Status st =>
                     if negb (WIFSTOPPED st) || negb (WSTOPSIG st =? SIGSTOP)
                     then fail_and_cleanup "bootstrap_did_not_sigstop" None false
                     else monitor
                 | NoChild => fail_and_cleanup "waitpid_sigstop_failed" None false
                 | WaitFails => sret Raised
                 end) s
      end
  end.

(** [supervisor_main], of the parent after the fork. *)
Definition supervisor_main : sup sup_end :=
  sbind (emit_mandatory [("type", VStr PROTO_SUPERVISOR_STARTED)]) (fun sent =>
  if negb sent then fail_and_cleanup "protocol_channel_broken_at_startup" None false
  else match fork os with
       | Err exc =>
           if negb close_workload_input then fail_and_cleanup "workload_input_close_failed" None true
           else fail_and_cleanup ("setup_failed: " +:+ exc) None false
       | Ok pid =>
           if negb close_workload_input then fail_and_cleanup "workload_input_handoff_close_failed" None true
           else
             sbind (emit_mandatory [("type", VStr PROTO_BOOTSTRAP_SPAWNED); ("pid", VInt pid)]) (fun sent =>
             if negb sent then fail_and_cleanup "protocol_emit_bootstrap_spawned_failed" None false else supervise)
       end).
End Supervisor.
