(* ===== verification/SupervisorRuns.v ===== *)
(** * What the supervisor says is what is read

    The records of SupervisorMain, as they come out of the readers of
    ProtocolStream: lines of compact JSON are read back as the records that
    were emitted, whatever happens to the writes, and what is accepted of a
    supervisor tells the truth about it. *)
From S2P Require Import Prelude PyFloat PyValue Json StrictJson StrictText ProtocolStream ProtocolRuns SupervisorChannels MetadataStream SupervisorMain.

(** ** The lines of compact JSON *)

Lemma repair_printable s : all_chars printable s = true -> repair s = s.
Proof.
  induction s as [|c s IH]; [done|]. cbn [all_chars repair]. intros [Hc Hs]%andb_prop. cbv zeta.
  rewrite (proj2 (Nat.ltb_lt _ _)); [by rewrite IH|]. unfold printable, between in Hc.
  apply andb_prop in Hc as [_ Hc%Nat.leb_le]. lia.
Qed.

Lemma rev_app a b : string_rev (a +:+ b) = string_rev b +:+ string_rev a.
Proof.
  unfold string_rev. assert (forall x y, String.string_of_list_ascii (x ++ y) =
    String.string_of_list_ascii x +:+ String.string_of_list_ascii y) as Happ.
  { intros x y. induction x as [|c x IH]; [by rewrite append_nil|]. cbn [app String.string_of_list_ascii]. by rewrite append_cons, IH. }
  assert (forall x y, String.list_ascii_of_string (x +:+ y) = String.list_ascii_of_string x ++ String.list_ascii_of_string y) as Hlist.
  { intros x y. induction x as [|c x IH]; [by rewrite append_nil|]. rewrite append_cons. cbn. by rewrite IH. }
  by rewrite Hlist, reverse_app, Happ.
Qed.

Lemma rev_rev s : string_rev (string_rev s) = s.
Proof.
  unfold string_rev. by rewrite String.list_ascii_of_string_of_list_ascii, reverse_involutive, String.string_of_list_ascii_of_string.
Qed.

Lemma drop_spaces_none l n s : drop_space l s = None -> drop_spaces l n s = s.
Proof. intros H. destruct n; [done|]. cbn. by rewrite H. Qed.

(** A text in braces has nothing to strip. *)
Lemma strip_braces x : strip_text ("{" +:+ x +:+ "}") = "{" +:+ x +:+ "}".
Proof.
  unfold strip_text. rewrite (drop_spaces_none spaces) by reflexivity. cbv zeta.
  rewrite !rev_app. change (string_rev "}") with "}". rewrite drop_spaces_none by reflexivity.
  by rewrite !rev_app, !rev_rev.
Qed.

Lemma compact_braces d : exists x, compact_text (VDict d) = "{" +:+ x +:+ "}".
Proof. rewrite compact_text_dict. by eexists. Qed.

Lemma text_of_compact d : carried (VDict d) = true -> text_of (compact_text (VDict d)) = compact_text (VDict d).
Proof.
  intros H. unfold text_of. rewrite repair_printable by by apply compact_printable.
  destruct (compact_braces d) as [x ->]. apply strip_braces.
Qed.

Lemma split_printable_line s rest : all_chars printable s = true ->
  split_lines (s +:+ newline +:+ rest) = (s :: fst (split_lines rest), snd (split_lines rest)).
Proof.
  induction s as [|c s IH]; cbn [all_chars].
  - intros _. rewrite append_nil. unfold newline. rewrite append_cons, append_nil. cbn [split_lines].
    destruct (split_lines rest). done.
  - intros [Hc Hs]%andb_prop. rewrite append_cons. cbn [split_lines]. rewrite IH by done.
    assert (is_newline c = false) as ->; [|done]. clear -Hc. by destruct c as [[] [] [] [] [] [] [] []].
Qed.

Lemma split_no_newline s : all_chars printable s = true -> split_lines s = ([], s).
Proof.
  induction s as [|c s IH]; [done|]. cbn [all_chars split_lines]. intros [Hc Hs]%andb_prop. rewrite IH by done.
  assert (is_newline c = false) as ->; [|done]. clear -Hc. by destruct c as [[] [] [] [] [] [] [] []].
Qed.

(** ** Streams of records *)

Definition record_text (d : pyctx) : string := compact_text (VDict (versioned d)).

Definition stream (rs : list pyctx) : string := concat_all (map record_line rs).

Definition sendable (d : pyctx) : Prop := carried (VDict (versioned d)) = true.

Lemma stream_app rs ss : stream (rs ++ ss) = stream rs +:+ stream ss.
Proof.
  unfold stream. rewrite map_app. induction (map record_line rs) as [|x l IH]; [done|].
  cbn [app concat_all fold_right]. fold (concat_all (l ++ map record_line ss)). fold (concat_all l). by rewrite IH, append_assoc.
Qed.

Lemma split_stream rs tail : Forall sendable rs ->
  split_lines (stream rs +:+ tail) = (map record_text rs ++ fst (split_lines tail), snd (split_lines tail)).
Proof.
  induction 1 as [|r rs Hr _ IH]; [rewrite append_nil; by destruct (split_lines tail)|].
  change (stream (r :: rs)) with ((record_text r +:+ newline) +:+ stream rs). rewrite !append_assoc.
  rewrite split_printable_line by by apply compact_printable. by rewrite IH.
Qed.

Lemma said_stream rs : Forall sendable rs -> said (map record_text rs) = map record_text rs.
Proof.
  induction 1 as [|r rs Hr _ IH]; [done|]. unfold said in *. cbn [map]. unfold record_text at 1. rewrite text_of_compact by done.
  cbn [List.filter]. destruct (compact_braces (versioned r)) as [x Ex]. unfold record_text at 2. rewrite Ex. cbn. by rewrite <- Ex, IH.
Qed.

Lemma record_line_len d : len (record_line d) = S (len (record_text d)).
Proof. unfold record_line. rewrite length_append. change (len newline) with 1%nat. unfold record_text. lia. Qed.

(** What the reader makes of a line that was emitted. *)
Lemma check_emitted d : sendable d -> check_record (record_text d) = check_object (versioned d).
Proof. intros H. unfold check_record, record_text. by rewrite parse_compact. Qed.

(** ** Emission *)

Definition emitted (d : pyctx) : Prop := sendable d /\ (len (record_line d) <= MAX_PROTOCOL_RECORD_BYTES)%nat.

(** What the supervisor has put on the pipe: these records and the beginning
    of one, with which it gave the channel up. *)
Definition sent (s : Sup) (rs : list pyctx) : Prop :=
  Forall emitted rs /\ exists tail, pipe s = stream rs +:+ tail /\ all_chars printable tail = true /\
    (protocol_alive s = true -> tail = "").

Lemma sent_new plan : sent (new_sup plan) [].
Proof. split; [done|]. by exists "". Qed.

Lemma append_newline_prefix x out rest : x +:+ newline = out +:+ rest -> rest <> "" -> exists y, x = out +:+ y.
Proof.
  revert out. induction x as [|c x IH]; intros [|d out] E Hr.
  - by exists "".
  - unfold newline in E. rewrite append_cons, append_nil in E. injection E as _ E. symmetry in E.
    destruct out; [rewrite append_nil in E; by subst | done].
  - exists (String c x). by rewrite append_nil.
  - rewrite !append_cons in E. injection E as -> E. destruct (IH out E Hr) as [y ->]. by exists y.
Qed.

Lemma all_chars_prefix p a b : all_chars p (a +:+ b) = true -> all_chars p a = true.
Proof. rewrite all_chars_app. by intros [? _]%andb_prop. Qed.

Lemma emit_sent d s s' b rs : sendable d -> protocol_alive s = true -> sent s rs -> emit d s = Some (s', b) ->
  protocol_alive s' = true /\ if b then sent s' (rs ++ [d])
  else Forall emitted rs /\ exists tail, pipe s' = stream rs +:+ tail /\ all_chars printable tail = true.
Proof.
  intros Hd Ha [Hrs (tail & Hp & _ & Ht)]. unfold emit. destruct (plan s) as [|[nb l] rest]; [done|].
  destruct (emit_protocol nb d l) as [[out why]|] eqn:E; [|done]. intros [= <- <-]. split; [done|].
  rewrite (Ht Ha), append_empty_r in Hp.
  assert (exists rest, record_line d = out +:+ rest /\ (why = None -> rest = "" /\ emitted d) /\ (why <> None -> rest <> "")) as (r & E1 & E2 & E3).
  { unfold emit_protocol in E. destruct (Nat.ltb_spec MAX_PROTOCOL_RECORD_BYTES (len (record_line d))); [injection E as <- <-; exists (record_line d); split_and!; [done | done|]|].
    - intros _. unfold record_line. by destruct (compact_braces (versioned d)) as [x ->].
    - apply write_bounded_prefix in E as (r & E1 & E2 & E3). exists r. split_and!; [done | by split; [apply E3|]|]. intros Hw ->. apply Hw, E2; [done|].
      unfold record_line. by destruct (compact_braces (versioned d)) as [x ->]. }
  destruct why as [why|]; cbn [pipe].
  - split; [done|]. exists out. rewrite Hp. split; [done|]. destruct (append_newline_prefix _ _ _ E1) as [y Ey]; [by apply E3|].
    apply (all_chars_prefix _ out y). rewrite <- Ey. by apply compact_printable.
  - destruct (E2 eq_refl) as [-> He]. split; [apply Forall_app; split; [done|by constructor]|]. exists "". rewrite append_empty_r. split; [|done]. cbn [pipe].
    rewrite Hp, stream_app. rewrite append_empty_r in E1. subst out.
    change (stream [d]) with (record_line d +:+ ""). by rewrite append_empty_r.
Qed.

(** A mandatory emission appends its record, or gives the channel up. *)
Lemma mandatory_sent d s s' b rs : sendable d -> protocol_alive s = true -> sent s rs -> emit_mandatory d s = Some (s', b) ->
  protocol_alive s' = b /\ sent s' (if b then rs ++ [d] else rs).
Proof.
  intros Hd Ha Hs. unfold emit_mandatory. rewrite Ha. cbn [negb]. destruct (emit d s) as [[s1 b1]|] eqn:E; [|done].
  apply (emit_sent d s s1 b1 rs) in E as [Ha1 E]; [|done..]. destruct b1; intros [= <- <-]; [done|]. split; [done|].
  destruct E as [Hrs (tail & Hp & Ht)]. split; [done|]. by exists tail.
Qed.

(** ** The ends of a supervisor *)

(** What is on the pipe in the end, where the last emission may have failed
    without the supervisor giving up the channel. *)
Definition left_on (s : Sup) (rs : list pyctx) : Prop :=
  Forall emitted rs /\ exists tail, pipe s = stream rs +:+ tail /\ all_chars printable tail = true.

Lemma sent_left s rs : sent s rs -> left_on s rs.
Proof. intros [H (tail & Hp & Ht & _)]. split; [done|]. by exists tail. Qed.

Definition kind (r : pyctx) : string := type_of_record (versioned r).

(** No clean-up was reported yet. *)
Definition unfinished (rs : list pyctx) : Prop := Forall (fun r => kind r <> PROTO_CLEANUP_COMPLETED) rs.

(** Records that no reader accepts as those of an executed workload. *)
Definition doomed (rs : list pyctx) : Prop :=
  unfinished rs \/ Exists (fun r => kind r = PROTO_SUPERVISOR_FAILED) rs \/ cleanup_record false ∈ rs.

(** A part of the supervisor, from the records [rs] on: it returns 0 with
    these further records of [shape], or what is on the pipe is doomed. *)
Definition ends (shape : list pyctx -> Prop) (rs : list pyctx) (s : Sup) (e : sup_end) : Prop :=
  e = Returns 0 /\ (exists ss, shape ss /\ sent s (rs ++ ss) /\ protocol_alive s = true) \/
  e <> Returns 0 /\ exists rs', left_on s rs' /\ doomed rs'.

Lemma ends_mono (P Q : list pyctx -> Prop) rs s e : (forall ss, P ss -> Q ss) -> ends P rs s e -> ends Q rs s e.
Proof. intros H [[He (ss & Hss & Hr)] | Hr]; [left; split; [done|]; exists ss; auto | by right]. Qed.

Lemma failed_kind why errno : kind (failed_record why errno) = PROTO_SUPERVISOR_FAILED.
Proof. by destruct errno. Qed.

Lemma sendable_cleanup b : sendable (cleanup_record b).
Proof. by destruct b. Qed.

Lemma sendable_failed why errno : is_text why = true -> (forall n, errno = Some n -> small n) -> sendable (failed_record why errno).
Proof.
  intros Hw He. unfold sendable. assert (forall l, forallb (fun kv => is_text (fst kv) && carried (snd kv)) l = true ->
    NoDup (map fst l) -> carried (VDict l) = true) as H.
  { intros l Hl Hn. apply carried_dict. split; [done|]. apply forallb_Forall' in Hl. eapply Forall_impl; [exact Hl|].
    cbn beta. intros kv. by rewrite andb_true_iff. }
  apply H; destruct errno as [n|].
  - change (forallb _ _) with (true && (is_text why && (carried (VInt n) && true))). rewrite Hw, carried_int by by apply He. done.
  - change (forallb _ _) with (true && (is_text why && true)). by rewrite Hw.
  - by apply (bool_decide_unpack _).
  - by apply (bool_decide_unpack _).
Qed.

Section Ends.
Context (os : Os) (config : pyctx).

Lemma fail_ends shape why errno force s s' e rs : is_text why = true -> (forall n, errno = Some n -> small n) ->
  sent s rs -> unfinished rs -> fail_and_cleanup os config why errno force s = Some (s', e) -> ends shape rs s' e.
Proof.
  intros Hw He Hs Hu. unfold fail_and_cleanup, sbind. pose proof (sendable_failed why errno Hw He) as Hf.
  destruct (emit_mandatory (failed_record why errno) s) as [[s1 b]|] eqn:E; [|done].
  destruct (run_cleanup os config) as [ok|]; [|done]. cbv zeta.
  destruct (protocol_alive s) eqn:Ha.
  - apply (mandatory_sent _ _ _ _ rs) in E as [Hb E]; [|done..]. rewrite Hb. destruct b.
    + destruct (emit _ s1) as [[s2 b2]|] eqn:E2; [|done]. intros [= <- <-]. right. split; [done|].
      apply (emit_sent _ _ _ _ (rs ++ [failed_record why errno])) in E2 as [_ E2]; [|apply sendable_cleanup|done..]. destruct b2.
      * eexists. split; [by apply sent_left|]. right. left. rewrite !Exists_app. left. right. left. apply failed_kind.
      * eexists. split; [exact E2|]. right. left. rewrite Exists_app. right. left. apply failed_kind.
    + intros [= <- <-]. right. split; [done|]. exists rs. split; [by apply sent_left | by left].
  - unfold emit_mandatory in E. rewrite Ha in E. injection E as <- <-. rewrite Ha. intros [= <- <-]. right. split; [done|].
    exists rs. split; [by apply sent_left | by left].
Qed.

(** A mandatory emission in a chain: the chain goes on with the record on the
    pipe, or fails. *)
Lemma mandatory_ends shape d why (k : sup sup_end) s s' e rs :
  sendable d -> kind d <> PROTO_CLEANUP_COMPLETED -> is_text why = true -> protocol_alive s = true -> sent s rs -> unfinished rs ->
  sbind (emit_mandatory d) (fun sent => if negb sent then fail_and_cleanup os config why None false else k) s = Some (s', e) ->
  (forall s1, protocol_alive s1 = true -> sent s1 (rs ++ [d]) -> unfinished (rs ++ [d]) -> k s1 = Some (s', e) -> ends shape (rs ++ [d]) s' e) ->
  ends (fun ss => exists ss', ss = d :: ss' /\ shape ss') rs s' e.
Proof.
  intros Hd Ht Hw Ha Hs Hu. unfold sbind. destruct (emit_mandatory d s) as [[s1 b]|] eqn:E; [|done].
  apply (mandatory_sent _ _ _ _ rs) in E as [Hb E]; [|done..]. destruct b; cbn [negb].
  - intros Hk K. assert (unfinished (rs ++ [d])) as Hu1 by (apply Forall_app; split; [done | by constructor]).
    destruct (K s1 Hb E Hu1 Hk) as [[-> (ss & Hss & H1 & H2)] | H]; [left | by right].
    split; [done|]. exists (d :: ss). rewrite <- app_assoc in H1. split; [by exists ss | done].
  - intros Hk _. by apply (fail_ends _ why None false s1).
Qed.

(** ** The wait loop *)

(** The stops at an exec in the statuses. *)
Definition exec_stops (l : list (wait_answer * bool)) : nat :=
  length (List.filter (fun a => match fst a with Status st => is_exec_stop st | _ => false end) l).

(** The first status that is not a stop. *)
Fixpoint final_status (l : list (wait_answer * bool)) : option Z :=
  match l with
  | (Status st, _) :: l => if WIFSTOPPED st then final_status l else Some st
  | _ => None
  end.

Definition confirmed_record : pyctx := [("type", VStr PROTO_EXEC_CONFIRMED)].

Definition loop_says (l : list (wait_answer * bool)) (c : bool) (n : nat) (s : Sup) (e : loop_end) : Prop :=
  match e with
  | Exits b z => protocol_alive s = true /\ b = (c || Nat.ltb 0 n) /\
      exists st, final_status l = Some st /\ WIFEXITED st = true /\ z = WEXITSTATUS st
  | Signaled b z => protocol_alive s = true /\ b = (c || Nat.ltb 0 n) /\
      exists st, final_status l = Some st /\ WIFEXITED st = false /\ WIFSIGNALED st = true /\ z = WTERMSIG st
  | SupervisorError why => is_text why = true
  | EmitFailed => True
  end.

Lemma wait_loop_says l : forall c s s' e rs, protocol_alive s = true -> sent s rs -> wait_loop c l s = Some (s', e) ->
  exists n, (n <= exec_stops l)%nat /\ sent s' (rs ++ repeat confirmed_record n) /\ loop_says l c n s' e.
Proof.
  induction l as [|[[st| |] cont] l IH]; intros c s s' e rs Ha Hs; cbn [wait_loop]; [done|..].
  2,3: intros [= <- <-]; exists 0%nat; rewrite app_nil_r; (split; [lia|]); (split; [done|]); cbn; by destruct c.
  unfold exec_stops. cbn [List.filter fst final_status loop_says].
  destruct (WIFSTOPPED st) eqn:Est.
  - destruct (is_exec_stop st).
    + unfold sbind. fold confirmed_record. destruct (emit_mandatory confirmed_record s) as [[s1 b]|] eqn:E; [|done].
      apply (mandatory_sent _ _ _ _ rs) in E as [Hb E]; [|done..]. destruct b; cbn [negb].
      * destruct cont; cbn [negb].
        -- intros (n & Hn & H1 & H2)%(IH _ _ _ _ (rs ++ [confirmed_record])); [|done..]. exists (S n). rewrite <- app_assoc in H1.
           split; [cbn [length]; unfold exec_stops in Hn; lia|]. split; [done|]. unfold loop_says in *.
           cbn [final_status]. rewrite Est. cbn [Nat.ltb Nat.leb] in *. destruct e; rewrite ?orb_true_r; done.
        -- intros [= <- <-]. exists 1%nat. split; [cbn [length]; lia|]. by split.
      * intros [= <- <-]. exists 0%nat. rewrite app_nil_r. split; [lia|]. by split.
    + destruct cont; cbn [negb].
      * intros (n & Hn & H1 & H2)%(IH _ _ _ _ rs); [|done..]. exists n. split; [done|]. split; [done|].
        unfold loop_says in *. cbn [final_status]. by rewrite Est.
      * intros [= <- <-]. exists 0%nat. rewrite app_nil_r. split; [lia|]. by split.
  - assert (Hret : forall x, Some (s, x) = Some (s', e) -> loop_says ((Status st, cont) :: l) c 0 s x ->
      exists n, (n <= length (if is_exec_stop st then (Status st, cont) :: List.filter (fun a => match fst a with Status st => is_exec_stop st | _ => false end) l
                 else List.filter (fun a => match fst a with Status st => is_exec_stop st | _ => false end) l))%nat /\
        sent s' (rs ++ repeat confirmed_record n) /\ loop_says ((Status st, cont) :: l) c n s' e).
    { intros x [= <- <-] Hx. exists 0%nat. rewrite app_nil_r. split; [lia | done]. }
    destruct (WIFEXITED st) eqn:Ex; [intros H; apply (Hret _ H)|destruct (WIFSIGNALED st) eqn:Eg; intros H; apply (Hret _ H)];
      unfold loop_says; cbn [final_status]; rewrite ?Est, ?orb_false_r.
    + by split_and!; [..|exists st].
    + by split_and!; [..|exists st].
    + apply is_text_app; [reflexivity | by apply printable_text, str_int_printable].
Qed.

(** ** The normal end *)

Lemma conclude_ends s s' e rs : protocol_alive s = true -> sent s rs -> unfinished rs -> conclude_run os config s = Some (s', e) ->
  ends (fun ss => ss = [cleanup_record true]) rs s' e.
Proof.
  intros Ha Hs Hu. unfold conclude_run, sbind. destruct (run_cleanup os config) as [b|]; [|done].
  destruct (emit_mandatory (cleanup_record b) s) as [[s1 b1]|] eqn:E; [|done].
  apply (mandatory_sent _ _ _ _ rs) in E as [Hb E]; [|apply sendable_cleanup|done..]. intros [= <- <-].
  destruct b1; cbn [negb]; [destruct b|].
  - left. split; [done|]. by exists [cleanup_record true].
  - right. split; [done|]. exists (rs ++ [cleanup_record false]). split; [by apply sent_left|]. right. right.
    apply elem_of_app. right. by left.
  - right. split; [done|]. exists rs. split; [by apply sent_left | by left].
Qed.

Lemma report_ends d s s' e rs : sendable d -> kind d <> PROTO_CLEANUP_COMPLETED -> protocol_alive s = true -> sent s rs ->
  unfinished rs -> report os config d s = Some (s', e) -> ends (fun ss => ss = [d; cleanup_record true]) rs s' e.
Proof.
  intros Hd Ht Ha Hs Hu H. apply (ends_mono (fun ss => exists ss', ss = d :: ss' /\ ss' = [cleanup_record true])); [by intros ? (? & -> & ->)|].
  eapply mandatory_ends; [exact Hd | exact Ht | | exact Ha | exact Hs | exact Hu | exact H|]; [done|].
  intros s1 Ha1 Hs1 Hu1 H1. by apply (conclude_ends s1).
Qed.

Lemma exit_range st : 0 <= WEXITSTATUS st <= 255.
Proof. unfold WEXITSTATUS. change 255 with (Z.ones 8). rewrite Z.land_ones by lia. change (2 ^ 8) with 256. change (Z.ones 8) with 255. divs. Qed.

Lemma signal_range st : 0 <= WTERMSIG st <= 127.
Proof. unfold WTERMSIG. change 127 with (Z.ones 7). rewrite Z.land_ones by lia. change (2 ^ 7) with 128. change (Z.ones 7) with 127. divs. Qed.

Definition outcome_record (st : Z) : pyctx := if WIFEXITED st then exited_record (WEXITSTATUS st) else signaled_record (WTERMSIG st).

(** The workload ended with this status. *)
Definition ended_with (st : Z) : Prop := final_status (waits os) = Some st /\ WIFEXITED st || WIFSIGNALED st = true.

Lemma sendable_outcome st : sendable (outcome_record st).
Proof.
  pose proof (exit_range st). pose proof (signal_range st). unfold outcome_record, sendable. destruct (WIFEXITED st).
  - change (carried _) with (true && (true && (carried (VInt (WEXITSTATUS st)) && true))). by rewrite carried_int by (unfold small; lia).
  - change (carried _) with (true && (true && (true && (carried (VInt (WTERMSIG st)) && true)))). by rewrite carried_int by (unfold small; lia).
Qed.

Lemma outcome_type st : kind (outcome_record st) = PROTO_WORKLOAD_EXITED.
Proof. unfold outcome_record. by destruct (WIFEXITED st). Qed.

(** What the system says is text, its numbers are machine ones, and the
    metadata the bootstrap sends has no floats. *)
Record os_sound : Prop := {
  sound_fork : match fork os with Err why => is_text why = true | Ok pid => 0 < pid < 2 ^ 64 end;
  sound_config : match config_nonblock os with Some e => is_text e | None => true end = true /\
    write_texts (config_writes os) = true;
  sound_reads : meta_texts (meta_events os);
  sound_meta : forall r m, read_bounded_metadata metadata_limits new_meta (meta_events os) = Some (MSettled r) ->
    context_get "metadata" (metadata r) = VDict m -> carried (VDict m) = true;
  sound_errno : small (setoptions_errno os) /\ small (first_cont_errno os) /\ small (last_errno os);
}.
Context (Hos : os_sound).

Ltac no_errno := let n := fresh in intros n [=]; subst; apply sound_errno, Hos.

Lemma settle_ends n s s' le e rs : protocol_alive s = true \/ (forall c z, le <> Exits c z /\ le <> Signaled c z) ->
  sent s rs -> unfinished rs -> loop_says (waits os) false n s le -> settle os config le s = Some (s', e) ->
  ends (fun ss => (1 <= n)%nat /\ exists st, ended_with st /\ ss = [outcome_record st; cleanup_record true]) rs s' e.
Proof.
  intros Ha Hs Hu Hsay. destruct le as [[|] z|[|] z|why|]; cbn [settle loop_says] in *.
  - destruct Hsay as (Ha1 & Hn & st & Hf & Hx & ->). intros H. eapply ends_mono; [|apply (report_ends (outcome_record st) s)];
      [|apply sendable_outcome | by rewrite outcome_type | done | exact Hs | done | by unfold outcome_record; rewrite Hx].
    intros ss ->. split; [symmetry in Hn; apply Nat.ltb_lt in Hn; lia|]. exists st. split; [|done]. split; [done | by rewrite Hx].
  - apply fail_ends; [|done..|exact Hs|exact Hu]. apply is_text_app; [reflexivity | by apply printable_text, str_int_printable].
  - destruct Hsay as (Ha1 & Hn & st & Hf & Hx & Hg & ->). intros H. eapply ends_mono; [|apply (report_ends (outcome_record st) s)];
      [|apply sendable_outcome | by rewrite outcome_type | done | exact Hs | done | by unfold outcome_record; rewrite Hx].
    intros ss ->. split; [symmetry in Hn; apply Nat.ltb_lt in Hn; lia|]. exists st. split; [|done]. split; [done | by rewrite Hg, orb_true_r].
  - by apply fail_ends.
  - apply fail_ends; [done | no_errno | done..].
  - by apply fail_ends.
Qed.

(** The records after the enforcement: armed, as many confirmations as stops
    at an exec, the outcome, the clean-up. *)
Definition monitor_shape (ss : list pyctx) : Prop :=
  exists n st, (1 <= n <= exec_stops (waits os))%nat /\ ended_with st /\
    ss = [("type", VStr PROTO_EXEC_MONITOR_ARMED)] :: repeat confirmed_record n ++ [outcome_record st; cleanup_record true].

Lemma unfinished_repeat n : unfinished (repeat confirmed_record n).
Proof. induction n; by constructor. Qed.

Lemma monitor_ends s s' e rs : protocol_alive s = true -> sent s rs -> unfinished rs -> monitor os config s = Some (s', e) ->
  ends monitor_shape rs s' e.
Proof.
  intros Ha Hs Hu. unfold monitor. destruct (setoptions os); cbn [negb]; [|apply fail_ends; [done | no_errno | done..]].
  intros H. eapply ends_mono; [|eapply mandatory_ends; [| | | exact Ha | exact Hs | exact Hu | exact H |]]; [|done..|].
  2: { intros s1 Ha1 Hs1 Hu1. destruct (first_cont os); cbn [negb]; [|apply fail_ends; [done | no_errno | done..]].
       unfold sbind. destruct (wait_loop false (waits os) s1) as [[s2 le]|] eqn:E; [|done].
       apply (wait_loop_says _ _ _ _ _ _ Ha1 Hs1) in E as (n & Hn & Hs2 & Hsay). intros H2.
       set (rs1 := rs ++ [[("type", VStr PROTO_EXEC_MONITOR_ARMED)]]) in *.
       assert (ends (fun ss => (1 <= n)%nat /\ exists st, ended_with st /\ ss = [outcome_record st; cleanup_record true])
         (rs1 ++ repeat confirmed_record n) s' e) as [[-> (ss & (Hn1 & st & Hst & ->) & Hr)] | Hd].
       { eapply settle_ends; [| exact Hs2 | | exact Hsay | exact H2].
         - destruct le; [left; by destruct Hsay | left; by destruct Hsay | by right | by right].
         - apply Forall_app. split; [done | apply unfinished_repeat]. }
       - left. split; [done|]. exists (repeat confirmed_record n ++ [outcome_record st; cleanup_record true]).
         split; [|by rewrite app_assoc]. instantiate (1 := fun ss => exists n st, (1 <= n <= exec_stops (waits os))%nat /\ ended_with st /\
           ss = repeat confirmed_record n ++ [outcome_record st; cleanup_record true]). by exists n, st.
       - by right. }
  intros ss (ss' & -> & n & st & Hn & Hst & ->). by exists n, st.
Qed.

Lemma sendable_enforcement md : (forall m, context_get "metadata" md = VDict m -> carried (VDict m) = true) ->
  sendable (enforcement_record md).
Proof.
  intros H. unfold enforcement_record. destruct (context_get "metadata" md) as [| | | | | |m]; try reflexivity.
  unfold sendable. change (carried (VDict (versioned _))) with (true && (true && (carried (VDict m) && true))). by rewrite H.
Qed.

Lemma enforcement_type md : kind (enforcement_record md) = PROTO_ENFORCEMENT_VERIFIED.
Proof. unfold enforcement_record. by destruct (context_get "metadata" md). Qed.

Definition supervise_shape (ss : list pyctx) : Prop :=
  exists md ss', (forall m, context_get "metadata" md = VDict m -> carried (VDict m) = true) /\
    ss = enforcement_record md :: ss' /\ monitor_shape ss'.

Lemma left_ends shape rs s e : e <> Returns 0 -> sent s rs -> unfinished rs -> ends shape rs s e.
Proof. intros He Hs Hu. right. split; [done|]. exists rs. split; [by apply sent_left | by left]. Qed.

Lemma supervise_ends s s' e rs : protocol_alive s = true -> sent s rs -> unfinished rs -> supervise os config s = Some (s', e) ->
  ends supervise_shape rs s' e.
Proof.
  intros Ha Hs Hu. unfold supervise. destruct (write_bounded_config _ _ _ _) as [[out [why|]]|] eqn:Ew; [| |done].
  { apply fail_ends; [|done..]. apply is_text_app; [reflexivity|].
    destruct (sound_config Hos) as [Hn Hw]. exact (config_reason_text _ _ _ _ _ _ Hn Hw Ew). }
  destruct (read_bounded_metadata _ _ _) as [[r|]|] eqn:Er; [| |done].
  2: { intros [= <- <-]. by apply left_ends. }
  pose proof (meta_reason_text _ _ _ (sound_reads Hos) Er) as Ht. pose proof (fun m => sound_meta Hos r m Er) as Hm. destruct (m_ok r); cbn [negb].
  2: { apply fail_ends; [|done..]. by apply is_text_app. }
  intros H. eapply ends_mono; [|eapply mandatory_ends; [| | | exact Ha | exact Hs | exact Hu | exact H |]];
    [|by apply sendable_enforcement|by rewrite enforcement_type|done|].
  2: { intros s1 Ha1 Hs1 Hu1. destruct (first_wait os) as [st| |]; [|by apply fail_ends|intros [= <- <-]; by apply left_ends].
       destruct (_ || _); [by apply fail_ends | by apply monitor_ends]. }
  intros ss (ss' & -> & Hss). by exists (metadata r), ss'.
Qed.

Definition started_record : pyctx := [("type", VStr PROTO_SUPERVISOR_STARTED)].
Definition spawned_record (pid : Z) : pyctx := [("type", VStr PROTO_BOOTSTRAP_SPAWNED); ("pid", VInt pid)].

(** The records of a supervisor that returns 0. *)
Definition full_shape (ss : list pyctx) : Prop :=
  exists pid ss', 0 < pid < 2 ^ 64 /\ ss = started_record :: spawned_record pid :: ss' /\ supervise_shape ss'.

Lemma supervisor_ends plan s' e : supervisor_main os config (new_sup plan) = Some (s', e) -> ends full_shape [] s' e.
Proof.
  intros H. eapply ends_mono; [|eapply mandatory_ends; [| | | | exact (sent_new plan) | | exact H |]]; [|done|done|done|done|by constructor|].
  2: { intros s1 Ha1 Hs1 Hu1. pose proof (sound_fork Hos) as Hf. destruct (fork os) as [pid|exc].
       - destruct (close_workload_input os); cbn [negb]; [|by apply fail_ends]. clear H. intros H.
         eapply ends_mono; [|eapply mandatory_ends; [| | | exact Ha1 | exact Hs1 | exact Hu1 | exact H |]]; [| |done|done|].
         3: { intros s2 Ha2 Hs2 Hu2. by apply supervise_ends. }
         2: { unfold sendable. change (carried _) with (true && (true && (carried (VInt pid) && true))). by rewrite carried_int by (unfold small; lia). }
         intros ss (ss' & -> & Hss). instantiate (1 := fun ss => exists pid ss', 0 < pid < 2 ^ 64 /\ ss = spawned_record pid :: ss' /\ supervise_shape ss').
         by exists pid, ss'.
       - destruct (close_workload_input os); cbn [negb]; [|by apply fail_ends].
         apply fail_ends; [|done..]. by apply is_text_app. }
  intros ss (ss' & -> & pid & ss1 & Hp & -> & Hss). by exists pid, ss1.
Qed.
End Ends.

(** ** Reading what was emitted *)

Definition as_rec (r : pyctx) : Rec := (kind r, versioned r).

(** A record the reader accepts, as it stands. *)
Definition readable (r : pyctx) : Prop := check_object (versioned r) = Valid (kind r) (versioned r).

Lemma stream_len rs : Forall emitted rs -> (len (stream rs) <= length rs * MAX_PROTOCOL_RECORD_BYTES)%nat.
Proof.
  induction 1 as [|r rs [_ Hr] _ IH]; [cbn; lia|]. change (stream (r :: rs)) with (record_line r +:+ stream rs).
  rewrite length_append. cbn [length]. lia.
Qed.

Lemma emitted_fits r : emitted r -> readable r -> fits default_limits (record_text r) (as_rec r).
Proof.
  intros [Hs Hl] Hr. split; [by rewrite check_emitted|]. rewrite record_line_len in Hl.
  change (max_record_bytes default_limits) with MAX_PROTOCOL_RECORD_BYTES. lia.
Qed.

Lemma emitted_sendable rs : Forall emitted rs -> Forall sendable rs.
Proof. intros H. eapply Forall_impl; [exact H|]. by intros r [? _]. Qed.

(** A legal run of readable records is accepted, whatever the chunks. *)
Lemma stream_accepted rs : Forall emitted rs -> Forall readable rs -> legal_run (map kind rs) ->
  forallb says_started (map as_rec rs) = true -> forallb says_cleaned (map as_rec rs) = true ->
  accepted default_limits (stream rs) (map as_rec rs).
Proof.
  intros He Hr Hl Hst Hcl. pose proof (split_stream rs "" (emitted_sendable rs He)) as Hs. rewrite append_empty_r in Hs.
  cbn [split_lines fst snd] in Hs. rewrite app_nil_r in Hs. unfold accepted, blank_tail. rewrite Hs. cbn [fst snd].
  rewrite said_stream by by apply emitted_sendable.
  assert (length rs <= 7)%nat as H7.
  { rewrite <- (length_map kind). destruct Hl as [-> | (k & Hk & ->)]; [done|]. rewrite length_app, length_take. cbn. lia. }
  split_and!; [| | |done..|done|].
  - clear -He Hr. induction rs as [|r rs IH]; [constructor|]. inversion He; inversion Hr; subst. constructor; [by apply emitted_fits | by apply IH].
  - rewrite length_map. change (max_records default_limits) with 32%nat. lia.
  - rewrite map_map. exact Hl.
  - etransitivity; [by apply stream_len|]. transitivity (7 * MAX_PROTOCOL_RECORD_BYTES)%nat; [by apply Nat.mul_le_mono_r|].
    apply Nat.leb_le. vm_compute. reflexivity.
Qed.

Lemma readable_spawned pid : 0 < pid -> readable (spawned_record pid).
Proof. intros H. unfold readable. cbv -[Z.leb]. by rewrite (proj2 (Z.leb_gt _ _)) by lia. Qed.

Lemma readable_enforcement md : readable (enforcement_record md).
Proof. unfold enforcement_record. by destruct (context_get "metadata" md). Qed.

Lemma readable_exited z : 0 <= z <= 255 -> readable (exited_record z).
Proof. intros H. unfold readable. cbv -[Z.ltb]. by rewrite (proj2 (Z.ltb_ge z 0)), (proj2 (Z.ltb_ge 255 z)) by lia. Qed.

Lemma readable_signaled z : 1 <= z <= 64 -> readable (signaled_record z).
Proof. intros H. unfold readable. cbv -[Z.ltb]. by rewrite (proj2 (Z.ltb_ge z 1)), (proj2 (Z.ltb_ge 64 z)) by lia. Qed.

Lemma readable_outcome st : WIFEXITED st || WIFSIGNALED st = true -> (WIFEXITED st = false -> WTERMSIG st <= 64) ->
  readable (outcome_record st).
Proof.
  unfold outcome_record. pose proof (exit_range st). pose proof (signal_range st). destruct (WIFEXITED st).
  - intros _ _. by apply readable_exited.
  - cbn [orb]. intros Hg Hl. apply readable_signaled. unfold WIFSIGNALED in Hg. apply andb_prop in Hg as [Hg _].
    apply negb_true_iff, Z.eqb_neq in Hg. specialize (Hl eq_refl). lia.
Qed.

(** What the reader makes of records is what was emitted. *)
Lemma check_object_says obj t o : check_object obj = Valid t o -> o = obj /\ type_of_record obj = t.
Proof.
  unfold check_object, type_of_record. destruct (negb _); [done|]. cbv zeta. destruct (unhashable _); [done|].
  destruct (context_get "type" obj); try done. do 3 (destruct (negb _); [done|]).
  destruct (validate_proto_fields _ _); [done|]. by intros [= <- <-].
Qed.

Lemma fits_emitted lim rs recs : Forall sendable rs -> Forall2 (fits lim) (map record_text rs) recs -> recs = map as_rec rs.
Proof.
  intros Hs. revert recs. induction Hs as [|r rs Hr _ IH]; intros recs Hf; inversion Hf as [|? [t o] ? recs' [H _] Hf']; subst; [done|].
  rewrite check_emitted in H by done. apply check_object_says in H as [Ho Ht]. cbn [fst snd] in *. subst. cbn [map]. f_equal. by apply IH.
Qed.

Lemma accepted_left s rs recs cs : left_on s rs -> concat_all cs = pipe s -> accepted default_limits (concat_all cs) recs ->
  recs = map as_rec rs.
Proof.
  intros [He (tail & Hp & Ht)] -> (Hf & _). rewrite Hp, split_stream, (split_no_newline tail) in Hf by (done || by apply emitted_sendable).
  cbn [fst] in Hf. rewrite app_nil_r, said_stream in Hf by by apply emitted_sendable. eapply fits_emitted; [by apply emitted_sendable | exact Hf].
Qed.

Lemma doomed_refused rs : doomed rs -> legal_run (map fst (map as_rec rs)) -> forallb says_cleaned (map as_rec rs) = true ->
  PROTO_SUPERVISOR_FAILED ∈ map kind rs.
Proof.
  intros [H | [H | H]] Hl Hc.
  - apply legal_shape in Hl as (pre & r & c & E & Ec & _). exfalso. assert (c ∈ map as_rec rs) as Hin.
    { rewrite E. apply elem_of_app. right. right. left. }
    apply list_elem_of_fmap in Hin as (d & -> & Hd). unfold unfinished in H. rewrite Forall_forall in H. by apply (H d).
  - apply Exists_exists in H as (d & Hd & E). rewrite <- E. by apply list_elem_of_fmap_2.
  - exfalso. apply forallb_Forall' in Hc. rewrite Forall_forall in Hc. by specialize (Hc _ (list_elem_of_fmap_2 as_rec _ _ H)).
Qed.

Definition exit_value (st : Z) : pyval := if WIFEXITED st then VInt (WEXITSTATUS st) else VNone.
Definition signal_value (st : Z) : pyval := if WIFEXITED st then VNone else VInt (WTERMSIG st).

(** The records of a run with one exec, up to its outcome. *)
Definition one_run (pid : Z) (md : pyctx) (st : Z) : list pyctx :=
  [ started_record; spawned_record pid; enforcement_record md; [("type", VStr PROTO_EXEC_MONITOR_ARMED)]; confirmed_record;
    outcome_record st; cleanup_record true ].

Lemma one_run_accepted pid md st : Forall emitted (one_run pid md st) -> 0 < pid -> readable (outcome_record st) ->
  accepted default_limits (stream (one_run pid md st)) (map as_rec (one_run pid md st)).
Proof.
  intros He Hp Hread. unfold one_run. apply stream_accepted; [done| | | |].
  - repeat constructor; [by apply readable_spawned | apply readable_enforcement | exact Hread].
  - cbn [map]. rewrite enforcement_type, outcome_type. by left.
  - cbn [map forallb]. unfold says_started, as_rec. cbn [fst snd]. rewrite enforcement_type, outcome_type. cbn. unfold outcome_record.
    by destruct (WIFEXITED st).
  - cbn [map forallb]. unfold says_cleaned, as_rec. cbn [fst snd]. by rewrite enforcement_type, outcome_type.
Qed.

Lemma one_run_evidence pid md st n :
  outcome_of (extract_supervisor_evidence (mkResult true "ok" (map snd (map as_rec (one_run pid md st))) n)) =
  (true, exit_value st, signal_value st, VNone, VBool true).
Proof.
  destruct (extract_outcome (map as_rec (one_run pid md st))) with (e := mkEvidence true false VNone VNone VNone VNone None []) as [Ho _].
  { apply Forall_map, Forall_forall. done. }
  change (outcome_of _) with (outcome_of (fold_left note_record (map snd (map as_rec (one_run pid md st)))
    (mkEvidence true false VNone VNone VNone VNone None []))). rewrite Ho. unfold one_run, as_rec. cbn [map fold_left].
  rewrite enforcement_type, outcome_type. unfold exit_value, signal_value, outcome_record. by destruct (WIFEXITED st).
Qed.

(** The shape of a run with one confirmation. *)
Lemma full_once os rs : full_shape os rs -> (exec_stops (waits os) <= 1)%nat ->
  exists pid md st, 0 < pid /\ ended_with os st /\ rs = one_run pid md st.
Proof.
  intros (pid & ss1 & Hp & -> & md & ss2 & Hmd & -> & k & st & Hk & Hst & ->) Hone.
  assert (k = 1%nat) as -> by lia. exists pid, md, st. by split_and!; [lia|..].
Qed.

(** C10: The parent learns the truth about a supervisor, whatever the system
    answers and however the bytes are cut. A supervisor that returns 0 after
    one exec is accepted, and its evidence is the exit code or the signal the
    workload ended with, the exec confirmed and the clean-up done. And what is
    accepted comes from a supervisor that returned 0, or reports a failure. *)
Theorem supervisor_truthful os config plan s' e cs :
  os_sound os -> (forall st, ended_with os st -> WIFEXITED st = false -> WTERMSIG st <= 64) ->
  supervisor_main os config (new_sup plan) = Some (s', e) -> concat_all cs = pipe s' ->
  (e = Returns 0 -> (exec_stops (waits os) <= 1)%nat ->
     exists objs st, read_all default_limits cs = Some (Some (true, "ok", objs)) /\ ended_with os st /\
       forall n, outcome_of (extract_supervisor_evidence (mkResult true "ok" objs n)) =
         (true, exit_value st, signal_value st, VNone, VBool true)) /\
  (forall objs, read_all default_limits cs = Some (Some (true, "ok", objs)) ->
     e = Returns 0 \/ PROTO_SUPERVISOR_FAILED ∈ map type_of_record objs).
Proof.
  intros Hos Hsig Hrun Hcs. apply supervisor_ends in Hrun; [|done]. split.
  - intros -> Hone. destruct Hrun as [[_ (ss & Hss & [He (tail & Hpipe & _ & Htail)] & Ha)] | [? _]]; [|done]. cbn [app] in *.
    apply full_once in Hss as (pid & md & st & Hp & Hst & ->); [|done].
    rewrite (Htail Ha), append_empty_r in Hpipe. rewrite <- Hcs in Hpipe.
    exists (map snd (map as_rec (one_run pid md st))), st. split; [|split; [done | intros n; apply one_run_evidence]].
    apply accepted_read. rewrite Hpipe. apply one_run_accepted; [done | done|]. by apply readable_outcome; [apply Hst | apply Hsig].
  - intros objs H. apply read_accepted in H as (recs & Hacc & ->).
    destruct Hrun as [[-> _] | [_ (rs & Hl & Hd)]]; [by left|]. right. assert (recs = map as_rec rs) as -> by exact (accepted_left _ _ _ _ Hl Hcs Hacc).
    destruct Hacc as (_ & _ & Hlr & _ & Hcl & _). rewrite !map_map. exact (doomed_refused rs Hd Hlr Hcl).
Qed.
