(* ===== verification/SupervisorLaunch.v ===== *)
(** * The launch of the supervisor

    [runtime/exec_supervisor.py]: the entry point of the supervisor process,
    the launcher S that forks the namespace init I, proves the topology and
    releases I by a token, and I itself up to [supervisor_main].  The two
    processes meet in the contents of their pipes. *)
From S2P Require Import Prelude PyFloat PyValue Json StrictJson StrictText ProtocolStream ProtocolRuns SupervisorChannels MetadataStream SupervisorMain.

(** ** Containment of a child *)

(** One poll of [waitpid(init_pid, WNOHANG)]. *)
Inductive poll := PollExpired | PollNothing | PollReaped | PollNoChild | PollFails.

Inductive poll_end := NotReaped | ReapedExactly | AuthorityLost.

Fixpoint poll_child (l : list poll) : option poll_end :=
  match l with
  | [] => None
  | PollNothing :: l => poll_child l
  | PollReaped :: _ => Some ReapedExactly
  | PollNoChild :: _ => Some AuthorityLost
  | (PollExpired | PollFails) :: _ => Some NotReaped
  end.

Record ContainOs := mkContainOs { after_sigterm : list poll; after_sigkill : list poll; no_children : bool }.

(** [_contain_init_child]: the signals sent to the child, and whether it was
    reaped with no child left. *)
Definition contain_init_child (os : ContainOs) : option (list Z * bool) :=
  match poll_child (after_sigterm os) with
  | None => None
  | Some ReapedExactly => Some ([SIGTERM], no_children os)
  | Some AuthorityLost => Some ([SIGTERM], false)
  | Some NotReaped =>
      match poll_child (after_sigkill os) with
      | None => None
      | Some ReapedExactly => Some ([SIGTERM; SIGKILL], no_children os)
      | Some _ => Some ([SIGTERM; SIGKILL], false)
      end
  end.

(** ** The launcher *)

Record TopologyProof := mkProof { child_pidns_dev : Z; child_pidns_ino : Z; proof_init_host_pid : Z }.

(** One answer of [waitpid(init_host_pid, 0)]. *)
Inductive wait_init := WaitInterrupted | WaitNoChild | WaitError | Waited (pid st : Z).

Record LaunchOs := mkLaunchOs {
  pipes_failed : option string;
  unshare_failed : option string;
  fork_init : res string Z;
  l_input_close : option bool;          (* no input descriptor, or whether its close succeeds *)
  identity_reads : list read_event;
  topology : res string TopologyProof;
  proof_nonblock : option string; proof_writes : list write_event;
  protocol_close : bool;
  gate_nonblock : option string; gate_writes : list write_event;
  contain_os : ContainOs;
  l_waits : list wait_init;
}.

(** What the launcher has put on the pipes to I, the token if it was sent, and
    its exit code. *)
Record Launched := mkLaunched { proof_pipe : string; gate_pipe : string; exit_code : Z }.

Definition denied (proof_pipe : string) : Launched := mkLaunched proof_pipe "" 1.

Section Launch.
Context (os : LaunchOs).

Definition emit_failure (why : string) (cleanup_ok : bool) : sup unit :=
  sbind (emit [("type", VStr PROTO_SUPERVISOR_FAILED); ("reason", VStr why)]) (fun ok =>
  if ok then sbind (emit (cleanup_record cleanup_ok)) (fun _ => sret tt) else sret tt).

Definition input_closed : bool := match l_input_close os with Some b => b | None => true end.

(** [_prefork_fail_and_cleanup] *)
Definition prefork_fail (why : string) : sup Launched :=
  sbind (emit_failure (if input_closed then why else "cleanup_failed") input_closed) (fun _ => sret (denied "")).

(** [_contain_and_fail] *)
Definition contain_and_fail (proof_out why : string) (force_cleanup_failed : bool) : sup Launched := fun s =>
  match contain_init_child (contain_os os) with
  | None => None
  | Some (_, b) =>
      let cleanup_ok := b && negb force_cleanup_failed in
      sbind (emit_failure (if cleanup_ok then why else "cleanup_failed") cleanup_ok) (fun _ => sret (denied proof_out)) s
  end.

Fixpoint wait_for_init (init_pid : Z) (l : list wait_init) : option Z :=
  match l with
  | [] => None
  | WaitInterrupted :: l => wait_for_init init_pid l
  | (WaitNoChild | WaitError) :: _ => Some 1
  | Waited pid st :: _ => Some (if negb (pid =? init_pid) then 1 else decode_wait_status st)
  end.

(** The release: the token, the close of the gate, the wait. *)
Definition release (init_pid : Z) (proof_out : string) : sup Launched := fun s =>
  if negb (protocol_close os) then option_map (fun _ => (s, denied proof_out)) (contain_init_child (contain_os os))
  else match write_bounded_fd "gate" (gate_nonblock os) RELEASE_TOKEN (gate_writes os) with
       | None => None
       | Some (out, _) => option_map (fun code => (s, mkLaunched proof_out out code)) (wait_for_init init_pid (l_waits os))
       end.

Definition proof_record (p : TopologyProof) : pyctx :=
  [("version", VInt IDENTITY_VERSION); ("type", VStr "topology_proof"); ("child_pidns_dev", VInt (child_pidns_dev p));
   ("child_pidns_ino", VInt (child_pidns_ino p)); ("init_host_pid", VInt (proof_init_host_pid p))].

(** The proof is bound to the forked child and sent to it. *)
Definition send_proof (init_pid : Z) (p : TopologyProof) : sup Launched := fun s =>
  if negb (proof_init_host_pid p =? init_pid)
  then contain_and_fail "" ("proof_binding_mismatch: proof.init_host_pid=" +:+ str_int (proof_init_host_pid p) +:+
         " != fork_pid=" +:+ str_int init_pid) false s
  else match write_identity_frame (proof_nonblock os) (proof_record p) (proof_writes os) with
       | None => None
       | Some (out, Some why) => contain_and_fail out ("proof_write_failed: " +:+ why) false s
       | Some (out, None) => release init_pid out s
       end.

(** [launch_pid_namespace_supervisor], of the parent S; [identity] is what I
    has written to the identity pipe. The detail of a refused identity is
    its reason. *)
Definition launch_pid_namespace_supervisor (identity : string) : sup Launched := fun s =>
  match pipes_failed os with
  | Some e => prefork_fail ("pipe_failed: " +:+ e) s
  | None =>
  match unshare_failed os with
  | Some e => prefork_fail ("unshare_failed: " +:+ e) s
  | None =>
  match fork_init os with
  | Err e => prefork_fail ("fork_failed: " +:+ e) s
  | Ok init_pid =>
      if negb input_closed then contain_and_fail "" "workload_input_handoff_close_failed" true s
      else match read_identity_frame identity (identity_reads os) with
           | Waiting => None
           | Failed why => contain_and_fail "" ("identity_failed: " +:+ why) false s
           | Got obj _ _ =>
               match validate_identity obj with
               | Err why => contain_and_fail "" ("identity_failed: " +:+ why) false s
               | Ok _ =>
                   match topology os with
                   | Err why => contain_and_fail "" ("topology_proof_failed: " +:+ why) false s
                   | Ok p => send_proof init_pid p s
                   end
               end
           end
  end end end.
End Launch.

(** ** The namespace init *)

Record InitOs := mkInitOs {
  i_pid : Z; i_ppid : Z;
  identity_nonblock : option string; identity_writes : list write_event;
  proof_reads : list read_event;
  gate_reads : list read_event;
}.

Definition identity_record (os : InitOs) : pyctx :=
  [("version", VInt IDENTITY_VERSION); ("type", VStr "init_identity"); ("pid", VInt (i_pid os)); ("ppid", VInt (i_ppid os))].

(** How I goes on: it returns 1, or enters the core with a configuration. *)
Inductive init_end := Quits | Enters (config : pyctx).

(** [config.pop(k, None)] *)
Definition dpop (k : string) (d : pyctx) : pyctx := List.filter (fun kv => negb (fst kv =? k)%string) d.

(** The configuration with the identity of the proof, whatever it said. *)
Definition inject (dev ino : Z) (config : pyctx) : pyctx :=
  dset "expected_pidns_ino" (VInt ino) (dset "expected_pidns_dev" (VInt dev)
    (dpop "expected_pidns_ino" (dpop "expected_pidns_dev" config))).

(** [namespace_init_supervisor_main] up to the core, with the contents of the
    proof pipe, if there is one, and of the gate. *)
Definition namespace_init (os : InitOs) (config : pyctx) (proof : option string) (gate : string) : option init_end :=
  match write_identity_frame (identity_nonblock os) (identity_record os) (identity_writes os) with
  | None => None
  | Some (_, Some _) => Some Quits
  | Some (_, None) =>
      match proof with
      | None => Some Quits
      | Some proof =>
          match read_identity_frame proof (proof_reads os) with
          | Waiting => None
          | Failed _ => Some Quits
          | Got obj _ _ =>
              match validate_proof_record obj with
              | Err _ => Some Quits
              | Ok (dev, ino) =>
                  match read_exact_token RELEASE_TOKEN gate (gate_reads os) with
                  | None => None
                  | Some false => Some Quits
                  | Some true => Some (Enters (inject dev ino config))
                  end
              end
          end
      end
  end.

(** ** The entry point *)

(** What [fstat] and [fcntl] say of a descriptor, if they do. *)
Record FdFacts := mkFd { is_pipe : bool; reads_only : bool }.

Record EntryOs := mkEntryOs {
  protocol_fd : Z; protocol_fact : option FdFacts;
  config_stream : string; config_reads : list read_event;
  input_fd : option Z; input_fact : option FdFacts;
  dev_null : bool;                      (* whether fd 0 could be reserved *)
}.

(** How the entry point is left before the launcher: refused, with the input
    descriptor closed, or the configuration and the descriptor handed on. *)
Inductive entry_end := Refuses (why : string) (closes : option Z) | Launches (config : pyctx) (input : option Z).

Definition check_input (os : EntryOs) (config : pyctx) : option string :=
  match dget_or "has_workload_input" (VBool false) config with
  | VBool has_input =>
      if given "workload_input_rfd" config then Some "conflicting workload_input_fd authority"
      else match input_fd os with
           | None => if has_input then Some "workload_input_fd mismatch" else None
           | Some fd =>
               if negb has_input then Some "workload_input_fd mismatch"
               else if fd <? 3 then Some "invalid workload_input_fd"
               else if fd =? protocol_fd os then Some "workload_input_fd == protocol_fd"
               else match input_fact os with
                    | None => Some "workload_input_fd not accessible"
                    | Some f => if negb (is_pipe f) then Some "workload_input_fd not a pipe"
                                else if negb (reads_only f) then Some "workload_input_fd not read-only" else None
                    end
           end
  | _ => Some "invalid has_workload_input"
  end.

(** [supervisor_process_main] up to the launcher *)
Definition supervisor_process_main (os : EntryOs) : option entry_end :=
  let refuse why := Some (Refuses why (input_fd os)) in
  if protocol_fd os <? 3 then refuse "invalid protocol_fd"
  else match protocol_fact os with
       | None => refuse "protocol_fd not accessible"
       | Some f =>
           if negb (is_pipe f) then refuse "protocol_fd is not a pipe"
           else if reads_only f then refuse "protocol_fd is read-only"
           else match read_bounded_config MAX_CONFIG_BYTES (config_stream os) (config_reads os) with
                | Waiting => None
                | Failed why => refuse ("startup config failed: " +:+ why)
                | Got config _ _ =>
                    match check_input os config with
                    | Some why => refuse why
                    | None => if negb (dev_null os) then refuse "failed to reserve fd 0"
                              else Some (Launches config (input_fd os))
                    end
                end
       end.

(** ** Who enters the core *)

Lemma token_read expected gate l : expected <> "" -> read_exact_token expected gate l = Some true -> gate = expected.
Proof.
  intros Hne. unfold read_exact_token. destruct (read_exact "gate_token" _ _ _ _ _) as [|why|d s1 l1] eqn:E1; [done..|].
  apply read_exact_sound in E1; [|cbn; lia]. destruct (String.eqb_spec (default "" d) expected) as [Ed|]; cbn [negb]; [|done].
  destruct d as [b|]; [|cbn in Ed; by subst]. cbn in Ed. subst b. destruct E1 as [E1 _]. rewrite append_nil in E1.
  destruct (read_exact "gate_eof" _ _ _ _ _) as [|why|t s2 l2] eqn:E2; [done..|]. destruct t as [t|]; [done|].
  apply read_exact_sound in E2; [|cbn; lia]. destruct E2 as (_ & _ & -> & _). intros _. by rewrite E1, append_empty_r.
Qed.

(** The launcher sends something through the gate only at the release. *)
Definition quiet_gate (m : sup Launched) : Prop := forall s s' r, m s = Some (s', r) -> gate_pipe r = "".

Lemma prefork_quiet os why : quiet_gate (prefork_fail os why).
Proof. intros s s' r. unfold prefork_fail, sbind, sret. destruct (emit_failure _ _ _) as [[s1 ?]|]; [|done]. by intros [= _ <-]. Qed.

Lemma contain_quiet os proof why force : quiet_gate (contain_and_fail os proof why force).
Proof.
  intros s s' r. unfold contain_and_fail, sbind, sret. destruct (contain_init_child _) as [[sg b]|]; [|done]. cbv zeta.
  destruct (emit_failure _ _ _) as [[s1 ?]|]; [|done]. by intros [= _ <-].
Qed.

(** The release of a launcher: everything before it was checked. *)
Lemma released os identity s s' r : launch_pid_namespace_supervisor os identity s = Some (s', r) -> gate_pipe r <> "" ->
  exists init_pid p obj s1 l1, fork_init os = Ok init_pid /\ topology os = Ok p /\ proof_init_host_pid p = init_pid /\
    read_identity_frame identity (identity_reads os) = Got obj s1 l1 /\ (exists ids, validate_identity obj = Ok ids) /\
    write_identity_frame (proof_nonblock os) (proof_record p) (proof_writes os) = Some (proof_pipe r, None) /\
    protocol_close os = true /\ s' = s.
Proof.
  intros H Hg. unfold launch_pid_namespace_supervisor in H.
  destruct (pipes_failed os); [by apply prefork_quiet in H|]. destruct (unshare_failed os); [by apply prefork_quiet in H|].
  destruct (fork_init os) as [init_pid|e]; [|by apply prefork_quiet in H].
  destruct (input_closed os); cbn [negb] in H; [|by apply contain_quiet in H].
  destruct (read_identity_frame _ _) as [|why|obj s1 l1]; [done|by apply contain_quiet in H|].
  destruct (validate_identity obj) as [ids|] eqn:Ev; [|by apply contain_quiet in H].
  destruct (topology os) as [p|]; [|by apply contain_quiet in H]. unfold send_proof in H.
  destruct (Z.eqb_spec (proof_init_host_pid p) init_pid) as [Hp|]; cbn [negb] in H; [|by apply contain_quiet in H].
  destruct (write_identity_frame _ _ _) as [[out [why|]]|] eqn:Ew; [by apply contain_quiet in H| |done].
  unfold release in H. destruct (protocol_close os); cbn [negb] in H.
  2: { destruct (contain_init_child _); [|done]. by injection H as <- <-. }
  destruct (write_bounded_fd _ _ _ _) as [[gate why]|]; [|done]. destruct (wait_for_init _ _) as [code|]; [|done].
  injection H as <- <-. exists init_pid, p, obj, s1, l1. split_and!; try done. by exists ids.
Qed.

Lemma carried_proof p : carried (VInt (child_pidns_dev p)) = true -> carried (VInt (child_pidns_ino p)) = true ->
  carried (VInt (proof_init_host_pid p)) = true -> carried (VDict (proof_record p)) = true.
Proof.
  intros H1 H2 H3. change (true && (true && (carried (VInt (child_pidns_dev p)) && (carried (VInt (child_pidns_ino p)) &&
    (carried (VInt (proof_init_host_pid p)) && true)))) = true). by rewrite H1, H2, H3.
Qed.

Lemma frame_written nb obj l out : write_identity_frame nb obj l = Some (out, None) ->
  out = framed (compact_text (VDict obj)) /\ (len (compact_text (VDict obj)) <= IDENTITY_MAX_PAYLOAD)%nat.
Proof.
  unfold write_identity_frame. cbv zeta. destruct (Nat.ltb_spec IDENTITY_MAX_PAYLOAD (len (compact_text (VDict obj)))); [done|].
  intros (rest & E & _ & Hr)%write_bounded_prefix. rewrite (Hr eq_refl), append_empty_r in E. done.
Qed.

Lemma proof_validated p dev ino : validate_proof_record (proof_record p) = Ok (dev, ino) ->
  dev = child_pidns_dev p /\ ino = child_pidns_ino p /\ 0 < child_pidns_dev p /\ 0 < child_pidns_ino p.
Proof.
  unfold validate_proof_record. change (closed_schema _ _ _) with (@None string). cbv iota.
  change (negb (int_is IDENTITY_VERSION _)) with false. change (negb (text_is _ _)) with false. cbv iota.
  change (positive_int (context_get "child_pidns_dev" (proof_record p))) with (0 <? child_pidns_dev p).
  change (positive_int (context_get "child_pidns_ino" (proof_record p))) with (0 <? child_pidns_ino p).
  change (int_of (context_get "child_pidns_dev" (proof_record p))) with (child_pidns_dev p).
  change (int_of (context_get "child_pidns_ino" (proof_record p))) with (child_pidns_ino p).
  destruct (Z.ltb_spec 0 (child_pidns_dev p)); [|done]. destruct (Z.ltb_spec 0 (child_pidns_ino p)); [|done]. cbn [negb].
  destruct (positive_int _); [|done]. by intros [= <- <-].
Qed.

Lemma int_is_inv z v : int_is z v = true -> v = VInt z.
Proof. unfold int_is. destruct v; try done. cbn. by intros ->%Z.eqb_eq. Qed.

Lemma identity_validated obj ids : validate_identity obj = Ok ids -> ids = (1, 0).
Proof.
  unfold validate_identity. destruct (closed_schema _ _ _); [done|]. do 2 (destruct (negb _); [done|]).
  destruct (int_is 1 _) eqn:E1; [|done]. destruct (int_is 0 _) eqn:E2; [|done].
  apply int_is_inv in E1 as ->, E2 as ->. by intros [= <-].
Qed.

Lemma enters_by_token ios config proof gate config' :
  namespace_init ios config (Some proof) gate = Some (Enters config') -> gate = RELEASE_TOKEN.
Proof.
  unfold namespace_init. destruct (write_identity_frame _ _ _) as [[o [w|]]|]; [done| |done].
  destruct (read_identity_frame _ _) as [|why|obj s1 l1]; [done..|]. destruct (validate_proof_record obj) as [[dev ino]|]; [|done].
  destruct (read_exact_token _ _ _) as [[|]|] eqn:Et; [|done..]. intros _. by apply token_read in Et.
Qed.

(** C11: Nothing enters the supervisor core but the child the launcher released:
    when I goes on to the core with what S left on its pipes, S had read and
    validated the identity of I as PID 1 with parent 0, had a topology proof
    bound to the child it forked, had given up its end of the protocol pipe
    without a word, and had put on the pipes the whole frame of that proof and
    exactly the release token; the configuration of the core holds the
    namespace of the proof, whatever it held before.  Nothing but the exact
    token on the gate, a prefix or an extension of it included, lets I in. *)
Theorem core_entry_authorized os ios identity config config' s s' r :
  (forall p, topology os = Ok p -> small (child_pidns_dev p) /\ small (child_pidns_ino p) /\ small (proof_init_host_pid p)) ->
  launch_pid_namespace_supervisor os identity s = Some (s', r) ->
  namespace_init ios config (Some (proof_pipe r)) (gate_pipe r) = Some (Enters config') ->
  (exists init_pid p obj,
    fork_init os = Ok init_pid /\ topology os = Ok p /\ proof_init_host_pid p = init_pid /\
    carries identity_channel IDENTITY_MAX_PAYLOAD identity obj /\ validate_identity obj = Ok (1, 0) /\
    protocol_close os = true /\ pipe s' = pipe s /\
    proof_pipe r = framed (compact_text (VDict (proof_record p))) /\ gate_pipe r = RELEASE_TOKEN /\
    config' = inject (child_pidns_dev p) (child_pidns_ino p) config /\
    0 < child_pidns_dev p /\ 0 < child_pidns_ino p) /\
  (forall ios2 config2 proof gate config2', namespace_init ios2 config2 (Some proof) gate = Some (Enters config2') ->
     gate = RELEASE_TOKEN).
Proof.
  intros Hsmall Hl Hi. split; [|intros ios2 config2 proof gate config2'; apply enters_by_token].
  pose proof (enters_by_token _ _ _ _ _ Hi) as Et. unfold namespace_init in Hi.
  destruct (write_identity_frame _ (identity_record ios) _) as [[o [w|]]|]; [done| |done].
  destruct (read_identity_frame (proof_pipe r) _) as [|why|pobj s1 l1] eqn:Er; [done..|].
  destruct (validate_proof_record pobj) as [[dev ino]|] eqn:Ep; [|done].
  destruct (read_exact_token _ _ _) as [[|]|]; [|done..]. injection Hi as <-.
  apply released in Hl as (init_pid & p & obj & s2 & l2 & Hf & Ht & Hp & Hid & [ids Hv] & Hw & Hc & ->); [|by rewrite Et].
  destruct (Hsmall p Ht) as (H1%carried_int & H2%carried_int & H3%carried_int).
  apply frame_written in Hw as [Hw Hlen]. apply read_frame_sound in Er as [(payload & E & _ & Epl) _]; [|vm_compute; done].
  apply read_frame_sound in Hid as [Hid _]; [|vm_compute; done]. pose proof Hw as Hw'.
  rewrite Hw in E. destruct (framed_inj (compact_text (VDict (proof_record p))) payload "") as [_ <-].
  { by rewrite append_empty_r. } { unfold IDENTITY_MAX_PAYLOAD in Hlen. lia. }
  { apply (f_equal len) in E. unfold framed in E. rewrite !length_append in E. change (len (pack _)) with 4%nat in E.
    unfold IDENTITY_MAX_PAYLOAD in Hlen. lia. }
  pose proof (carried_proof p H1 H2 H3) as Hcar. unfold parse_payload in Epl. rewrite loads_compact in Epl by done.
  destruct (is_text _); cbn [negb] in Epl; [|done]. injection Epl as <-.
  apply proof_validated in Ep as (-> & -> & Hdev & Hino). apply identity_validated in Hv as Hv'. subst ids.
  exists init_pid, p, obj. clear E Hcar. split_and!; solve [assumption | reflexivity].
Qed.
