(* ===== verification/SupervisorResult.v ===== *)
(** * The result of a supervised execution

    [map_supervisor_result] and [_classify_exit] of
    [runtime/native_sandbox_exec.py]: what the caller is told, from the
    evidence and from what was collected of the output. *)
From S2P Require Import Prelude PyFloat PyValue Json StrictJson StrictText ProtocolStream ProtocolRuns SupervisorChannels MetadataStream SupervisorMain SupervisorRuns.

Definition SIGSYS : Z := 31.

(** [signal_{n}], or the name of a seccomp kill *)
Definition signal_reason (sig : Z) : string := if sig =? SIGSYS then "seccomp_sigsys_kill" else "signal_" +:+ str_int sig.

(** [_classify_exit] *)
Definition classify_exit (returncode : option Z) (timed_out : bool) : string * option string :=
  if timed_out then ("timeout", None)
  else match returncode with
       | None => ("error", Some "no_exit_code")
       | Some c =>
           if c =? 0 then ("pass", None)
           else if c <? 0 then ("fail", Some (signal_reason (- c)))
           else if 128 <? c then ("fail", Some (signal_reason (c - 128)))
           else ("fail", None)
       end.

(** The evidence holds integers where it holds anything. *)
Definition negated (v : pyval) : pyval := match v with VInt z => VInt (- z) | _ => v end.

Definition opt_text (o : option string) : pyval := match o with Some s => VStr s | None => VNone end.

Definition event (kind : string) (md : pyctx) : pyval :=
  VDict ([("event_type", VStr kind); ("backend", VStr "native_os_sandbox")] ++
    match md with [] => [] | _ => [("metadata", VDict md)] end).

Definition result_of (started : bool) (code : pyval) (timed_out : pyval) (out err : pyval) (truncated : pyval)
    (interpretation : string) (why : pyval) (md : pyctx) (log : list pyval) : pyctx :=
  [ ("process_started", VBool started); ("process_exit_code", code); ("process_timed_out", timed_out); ("stdout", out);
    ("stderr", err); ("output_truncated", truncated); ("exit_code_interpretation", VStr interpretation); ("reason", why);
    ("backend", VStr "native_os_sandbox"); ("sandbox_metadata", VDict md); ("sandbox_event_log", VList log) ].

Definition exit_of (e : SupervisorExecutionEvidence) : pyval :=
  if is_none (workload_signal e) then workload_exit_code e else negated (workload_signal e).

(** The output could not be collected. *)
Definition reader_error (e : SupervisorExecutionEvidence) : pyctx :=
  let md := dset "workload_signal" (workload_signal e) (dset "workload_exit_code" (workload_exit_code e)
    (dset "cleanup_succeeded" (cleanup_succeeded e) (dset "protocol_failure_reason" (opt_text (protocol_failure_reason e))
      (dset "protocol_valid" (VBool (protocol_valid e)) (enforcement_metadata e))))) in
  let md := if truthy (supervisor_failure_reason e) then dset "supervisor_failure_reason" (supervisor_failure_reason e) md else md in
  result_of (exec_confirmed e) (exit_of e) (VBool false) (VStr "") (VStr "streaming_reader_error") (VBool false) "error"
    (VStr "streaming_reader_error") md
    ((if exec_confirmed e then [event "code_execution_started" []] else []) ++
     [event "code_execution_failed" [("reason", VStr "streaming_reader_error")]]).

Definition or_else (v : pyval) (w : pyval) : pyval := if truthy v then v else w.

(** How a started workload is judged: interpretation, reason, and whether it
    counts as a failure of the execution. *)
Definition judge (e : SupervisorExecutionEvidence) (bounded : pyctx) : string * pyval * bool :=
  if py_eq (context_get "reason" bounded) (VStr "output_limit_exceeded") then ("fail", VStr "output_limit_exceeded", false)
  else if truthy (dget_or "timed_out" (VBool false) bounded) then ("timeout", VStr "timeout", false)
  else if truthy (supervisor_failure_reason e) then ("error", supervisor_failure_reason e, true)
  else if match cleanup_succeeded e with VBool false => true | _ => false end then ("error", VStr "cleanup_failed", true)
  else if negb (protocol_valid e) then ("error", or_else (opt_text (protocol_failure_reason e)) (VStr "protocol_invalid"), true)
  else match workload_signal e, workload_exit_code e with
       | VNone, VNone => ("error", VStr "supervisor_error_after_exec", true)
       | VNone, c => let '(i, why) := classify_exit (Some (int_of c)) false in (i, opt_text why, false)
       | s, _ => ("fail", VStr (signal_reason (int_of s)), false)
       end.

(** [map_supervisor_result] *)
Definition map_supervisor_result (e : SupervisorExecutionEvidence) (bounded : option pyctx) (output_task_failure : bool) : pyctx :=
  match bounded with
  | Some b =>
      if output_task_failure then reader_error e
      else
        let timed_out := dget_or "timed_out" (VBool false) b in
        let md := if truthy (supervisor_failure_reason e)
                  then dset "supervisor_failure_reason" (supervisor_failure_reason e) (enforcement_metadata e) else enforcement_metadata e in
        let md := match protocol_failure_reason e with
                  | Some why => if str_truthy why then dset "protocol_failure_reason" (VStr why) md else md
                  | None => md
                  end in
        if negb (exec_confirmed e) then
          let why := if truthy timed_out then VStr "bootstrap_timeout"
                     else or_else (supervisor_failure_reason e) (or_else (opt_text (protocol_failure_reason e)) (VStr "bootstrap_failed")) in
          result_of false (workload_exit_code e) timed_out (VStr "") (or_else (dget_or "stderr" (VStr "") b) (VStr "")) (VBool false)
            "error" why md
            [event "code_execution_failed" [("reason", why); ("protocol_valid", VBool (protocol_valid e))]]
        else
          let '(interpretation, why, overall_failure) := judge e b in
          let truncated := dget_or "output_truncated" (VBool false) b in
          result_of true (exit_of e) timed_out (dget_or "stdout" (VStr "") b) (dget_or "stderr" (VStr "") b) truncated
            interpretation why md
            ([event "code_execution_started" []] ++
             [if negb overall_failure && (interpretation =? "pass")%string
              then event "code_execution_completed" [("exit_code", workload_exit_code e)]
              else if (interpretation =? "timeout")%string then event "code_execution_timed_out" []
              else event "code_execution_failed" [("exit_code", workload_exit_code e); ("reason", why)]] ++
             (if truthy truncated then [event "sandbox_output_capped" []] else []))
  | None => reader_error e
  end.

(** ** A pass is earned *)

Definition passes (r : pyctx) : Prop := context_get "exit_code_interpretation" r = VStr "pass".

Lemma classify_pass c : fst (classify_exit (Some c) false) = "pass" <-> c = 0.
Proof.
  cbn. destruct (Z.eqb_spec c 0) as [->|Hc]; [done|]. destruct (c <? 0); [done|]. by destruct (128 <? c).
Qed.

Lemma judge_pass e b : fst (fst (judge e b)) = "pass" ->
  truthy (supervisor_failure_reason e) = false /\ cleanup_succeeded e <> VBool false /\ protocol_valid e = true /\
  workload_signal e = VNone /\ workload_exit_code e <> VNone /\ int_of (workload_exit_code e) = 0.
Proof.
  unfold judge. destruct (py_eq _ _); [done|]. destruct (truthy (dget_or "timed_out" _ _)); [done|].
  destruct (truthy (supervisor_failure_reason e)); [done|].
  destruct (cleanup_succeeded e) as [|[]| | | | |] eqn:Ec; [| |done|..]; (destruct (protocol_valid e); cbn [negb]; [|done]);
    (destruct (workload_signal e); try done);
    (destruct (workload_exit_code e) eqn:Ex; try done);
    intros H; split_and!; try done; try (by apply classify_pass; revert H; destruct (classify_exit _ _)).
Qed.

Lemma result_pass e bounded failure : passes (map_supervisor_result e bounded failure) ->
  exec_confirmed e = true /\ truthy (supervisor_failure_reason e) = false /\ protocol_valid e = true /\
  workload_signal e = VNone /\ workload_exit_code e <> VNone /\ int_of (workload_exit_code e) = 0.
Proof.
  unfold passes, map_supervisor_result. destruct bounded as [b|]; [|done]. destruct failure; [done|]. cbv zeta.
  destruct (exec_confirmed e); cbn [negb]; [|done]. pose proof (judge_pass e b) as H. destruct (judge e b) as [[i why] f]. cbn [fst] in H.
  intros [= ->]. destruct (H eq_refl) as (H1 & _ & H2). by split_and!; [..|apply H2|apply H2|apply H2|apply H2].
Qed.

(** What was read is accepted only as ok. *)
Lemma read_says_ok lim cs why objs : read_all lim cs = Some (Some (true, why, objs)) -> why = "ok".
Proof.
  intros H. destruct (Nat.le_gt_cases (len (concat_all cs)) (max_bytes lim)) as [Hb|Hb].
  - rewrite read_all_lines in H by done. destruct (run_lines _ _ _) as [c| |]; [|done|done]. cbn [answer] in H.
    injection H as H1 <- _. by apply feed_eof_says.
  - pose proof (read_over_limit lim cs new_parser [EndOfFile] Hb (Nat.le_0_l _)) as Ho. fold (read_all lim cs) in Ho. by rewrite H in Ho.
Qed.

Lemma note_record_valid e obj : protocol_valid (note_record e obj) = protocol_valid e.
Proof.
  destruct e as [v x code sig fail cl why md]. unfold note_record.
  repeat match goal with |- context [(?t =? ?k)%string] => destruct (t =? k)%string; [try done; try by destruct (truthy _)|] end; [|done].
  by destruct (dget_or _ _ _).
Qed.

Lemma evidence_valid r : protocol_valid (extract_supervisor_evidence r) = ok r.
Proof.
  unfold extract_supervisor_evidence. set (e := mkEvidence _ _ _ _ _ _ _ _). change (ok r) with (protocol_valid e). generalize e. clear e.
  induction (records r) as [|obj l IH]; intros e; [done|]. cbn [fold_left]. by rewrite IH, note_record_valid.
Qed.

(** A run with a failure has no exit code. *)
Lemma failed_no_code (rs : list Rec) n : Forall (fun r => type_of_record (snd r) = fst r) rs -> legal_run (map fst rs) ->
  PROTO_SUPERVISOR_FAILED ∈ map fst rs -> workload_exit_code (extract_supervisor_evidence (mkResult true "ok" (map snd rs) n)) = VNone.
Proof.
  intros Ht Hl Hf. destruct (extract_outcome rs Ht (mkEvidence true false VNone VNone VNone VNone None [])) as [Ho _].
  apply (f_equal (fun o => let '(_, code, _, _, _) := o in code)) in Ho. etransitivity; [exact Ho|].
  apply legal_shape in Hl as (pre & [t obj] & [t' obj'] & -> & Ec & Hpre & Hr). cbn [fst] in *. subst t'.
  destruct Hr as [[-> Hn] | ->].
  { assert (PROTO_SUPERVISOR_FAILED ∈ NORMAL ++ [PROTO_WORKLOAD_EXITED; PROTO_CLEANUP_COMPLETED]) as H.
    { rewrite <- Hn. rewrite map_app in Hf. exact Hf. }
    by apply (bool_decide_eq_true_2 _) in H. }
  pose proof (quiet_run pre (false, VNone, VNone, VNone, VNone) Hpre) as Hq. cbv beta iota in Hq.
  rewrite fold_left_app. change (outcome_of _) with (false, VNone, VNone, VNone, VNone). by rewrite Hq.
Qed.

(** The accepted run of a supervisor that returned 0 has one exec. *)
Lemma accepted_once os rs : full_shape os rs -> legal_run (map kind rs) ->
  exists pid md st, ended_with os st /\ rs = one_run pid md st.
Proof.
  intros (pid & ss1 & Hp & -> & md & ss2 & Hmd & -> & k & st & Hk & Hst & ->) Hl. exists pid, md, st. split; [done|].
  destruct Hl as [Hl | (j & Hj & Hl)].
  - apply (f_equal length) in Hl. cbn [map length] in Hl. rewrite length_map, length_app, repeat_length in Hl. cbn in Hl.
    by assert (k = 1%nat) as -> by lia.
  - exfalso. cbn [map] in Hl. rewrite map_app in Hl. rewrite !app_comm_cons in Hl. apply app_inj_2 in Hl as [_ Hl]; [|done].
    cbn [map] in Hl. by rewrite outcome_type in Hl.
Qed.

(** C9: A pass is true. The result of a supervised execution says [pass] only
    when the supervisor returned 0 and the workload was seen to exit with
    status 0, whatever the system answered it, however its records were cut,
    whatever was collected of the output. *)
Theorem pass_is_true os config plan s' e cs b why objs n bounded failure :
  os_sound os -> supervisor_main os config (new_sup plan) = Some (s', e) -> concat_all cs = pipe s' ->
  read_all default_limits cs = Some (Some (b, why, objs)) ->
  passes (map_supervisor_result (extract_supervisor_evidence (mkResult b why objs n)) bounded failure) ->
  e = Returns 0 /\ exists st, ended_with os st /\ WIFEXITED st = true /\ WEXITSTATUS st = 0.
Proof.
  intros Hos Hrun Hcs Hread Hpass. apply result_pass in Hpass as (_ & _ & Hv & _ & Hcode & Hzero).
  rewrite evidence_valid in Hv. cbn [ok] in Hv. subst b. pose proof (read_says_ok _ _ _ _ Hread). subst why.
  apply read_accepted in Hread as (recs & Hacc & ->). apply supervisor_ends in Hrun; [|done].
  assert (exists rs, left_on s' rs /\ (e = Returns 0 /\ full_shape os rs \/ doomed rs)) as (rs & Hl & Hrs).
  { destruct Hrun as [[-> (ss & Hss & Hsent & _)] | [_ (rs & Hl & Hd)]]; [exists ss | exists rs]; [|by split; [|right]].
    split; [by apply sent_left | by left]. }
  assert (recs = map as_rec rs) as -> by exact (accepted_left _ _ _ _ Hl Hcs Hacc). destruct Hacc as (Hf & _ & Hlr & _ & Hcl & _).
  destruct Hrs as [[-> Hshape] | Hd].
  - rewrite map_map in Hlr. apply accepted_once in Hshape as (pid & md & st & Hst & ->); [|exact Hlr].
    split; [done|]. exists st. split; [done|]. pose proof (one_run_evidence pid md st n) as Hev.
    apply (f_equal (fun o => let '(_, code, _, _, _) := o in code)) in Hev. change (workload_exit_code
      (extract_supervisor_evidence (mkResult true "ok" (map snd (map as_rec (one_run pid md st))) n)) = exit_value st) in Hev.
    rewrite Hev in Hcode, Hzero. unfold exit_value in *. by destruct (WIFEXITED st).
  - exfalso. apply Hcode, failed_no_code; [|exact Hlr|].
    + eapply Forall_impl; [by eapply accepted_says|]. by intros r [? _].
    + rewrite map_map. exact (doomed_refused rs Hd Hlr Hcl).
Qed.
