(* ===== verification/SupervisorDemo.v ===== *)
(** * Concrete supervisors

    Runs of the supervisor and of its channels, evaluated: the theorems of
    SupervisorChannels and SupervisorRuns at work, and two runs the protocol
    does not carry through. *)
From S2P Require Import Prelude PyFloat PyValue Json StrictJson StrictText ProtocolStream ProtocolRuns SupervisorChannels MetadataStream SupervisorMain SupervisorRuns SupervisorLaunch SupervisorResult.

(** ** The framed configuration *)

Definition demo_config : string := quoted "{'workload_argv':['true'],'has_workload_input':false}".

(** Writes and reads in pieces. *)
Definition demo_writes : list write_event := [WTakes 3; WIdle; WTakes 20; WTakes 200].
Definition demo_reads : list read_event := RReady 1 :: RIdle :: repeat (RReady 6) 100.

Abbreviation demo_out := (match write_bounded_config MAX_CONFIG_BYTES None demo_config demo_writes with Some (out, _) => out | None => "" end) (only parsing).
Abbreviation demo_obj := (match parse_payload config_channel demo_config with Ok d => d | Err _ => [] end) (only parsing).

Example config_delivered_witness :
  context_get "has_workload_input" demo_obj = VBool false /\
  exists l', read_bounded_config MAX_CONFIG_BYTES demo_out demo_reads = Got demo_obj "" l'.
Proof.
  split; [vm_compute; reflexivity|].
  refine (proj2 (config_delivered MAX_CONFIG_BYTES None demo_config demo_writes demo_out None demo_reads _ _) demo_obj eq_refl _ _ _ _).
  - vm_compute. reflexivity.
  - vm_compute. reflexivity.
  - discriminate.
  - vm_compute. reflexivity.
  - vm_compute. reflexivity.
  - apply Nat.ltb_lt. vm_compute. reflexivity.
Defined.

(** A writer that is interrupted leaves a frame no reader takes. *)
Example half_a_frame :
  write_bounded_config MAX_CONFIG_BYTES None demo_config [WTakes 9; WExpired] = Some (fst (split_at 9 (framed demo_config)), Some "config_timeout") /\
  read_bounded_config MAX_CONFIG_BYTES (fst (split_at 9 (framed demo_config))) demo_reads = Failed "config_payload_partial_eof".
Proof. split; vm_compute; reflexivity. Qed.

(** ** Supervisors *)

Definition whole : list write_event := [WTakes (Z.to_nat 9000)].

Definition exec_stop : Z := 263551.       (* SIGTRAP with PTRACE_EVENT_EXEC *)

Definition demo_os (meta : list meta_event) (waits : list (wait_answer * bool)) : Os :=
  mkOs None (Ok 42) demo_config None whole meta (Status 4991) true 0 true 0 waits 0
    (mkCleanupOs 1 0 (Some (4, 4026)) [NoChildren] [] []).

Definition ns_config : pyctx := [("expected_pidns_dev", VInt 4); ("expected_pidns_ino", VInt 4026)].

Definition demo_plan : list (option string * list write_event) := repeat (None, whole) 9.

Definition demo_meta (verified : string) : list meta_event :=
  [MData (demo_line "{'type':'bootstrap_started'}") Nothing_yet; MQuiet (State 4); MData (demo_line verified) Nothing_yet].

Definition verified_line : string := "{'type':'enforcement_verified','metadata':{'seccomp_enforced':true}}".

(** The workload execs, gets a signal it handles, and exits with 3. *)
Definition exit_os : Os := demo_os (demo_meta verified_line) [(Status exec_stop, true); (Status 2687, true); (Status 768, true)].

Lemma demo_os_sound statuses : os_sound (demo_os (demo_meta verified_line) statuses).
Proof.
  split.
  - split; reflexivity.
  - split; vm_compute; reflexivity.
  - repeat constructor.
  - intros r m H. cbn [demo_os meta_events] in H.
    destruct (read_bounded_metadata metadata_limits new_meta (demo_meta verified_line)) as [[r0|]|] eqn:E; [|discriminate H..].
    injection H as <-. vm_compute in E. injection E as <-. cbn. intros [= <-]. reflexivity.
  - split_and!; unfold small; cbn; lia.
Qed.

Abbreviation exit_pipe := (match supervisor_main exit_os ns_config (new_sup demo_plan) with Some (s, _) => pipe s | None => "" end) (only parsing).

Example supervisor_truthful_witness :
  exists s', supervisor_main exit_os ns_config (new_sup demo_plan) = Some (s', Returns 0) /\
  exists objs st, read_all default_limits [pipe s'] = Some (Some (true, "ok", objs)) /\ ended_with exit_os st /\
    forall n, outcome_of (extract_supervisor_evidence (mkResult true "ok" objs n)) = (true, exit_value st, signal_value st, VNone, VBool true).
Proof.
  destruct (supervisor_main exit_os ns_config (new_sup demo_plan)) as [[s' e]|] eqn:E; [|vm_compute in E; discriminate E].
  assert (e = Returns 0) as Hret.
  { assert (match supervisor_main exit_os ns_config (new_sup demo_plan) with Some (_, e) => e | None => Raised end = Returns 0) as H
      by (vm_compute; reflexivity). rewrite E in H. exact H. }
  rewrite Hret in E |- *. exists s'. split; [reflexivity|].
  refine (proj1 (supervisor_truthful exit_os ns_config demo_plan s' (Returns 0) [pipe s'] (demo_os_sound _) _ E _) eq_refl _).
  - intros st [H _]. vm_compute in H. injection H as <-. discriminate.
  - apply append_empty_r.
  - vm_compute. lia.
Defined.

(** What its evidence says. *)
Example exit_evidence :
  match read_all default_limits [exit_pipe] with
  | Some (Some (_, why, objs)) => (why, workload_exit_code (extract_supervisor_evidence (mkResult true why objs 0)))
  | _ => ("", VNone)
  end = ("ok", VInt 3).
Proof. vm_compute. reflexivity. Qed.

(** A workload that exits with 0 passes. *)
Definition zero_os : Os := demo_os (demo_meta verified_line) [(Status exec_stop, true); (Status 0, true)].

Definition demo_bounded : pyctx := [("stdout", VStr "done"); ("timed_out", VBool false)].

Definition zero_read : option (string * bool * string * list pyctx) :=
  match supervisor_main zero_os ns_config (new_sup demo_plan) with
  | Some (s, Returns 0) =>
      match read_all default_limits [pipe s] with Some (Some (b, why, objs)) => Some (pipe s, b, why, objs) | _ => None end
  | _ => None
  end.

Example pass_is_true_witness :
  match zero_read with
  | Some (_, b, why, objs) => passes (map_supervisor_result (extract_supervisor_evidence (mkResult b why objs 0)) (Some demo_bounded) false)
  | None => False
  end /\ exists st, ended_with zero_os st /\ WIFEXITED st = true /\ WEXITSTATUS st = 0.
Proof.
  assert (match zero_read with
    | Some (_, b, why, objs) => passes (map_supervisor_result (extract_supervisor_evidence (mkResult b why objs 0)) (Some demo_bounded) false)
    | None => False end) as H by (vm_compute; reflexivity).
  split; [exact H|]. unfold zero_read in H.
  destruct (supervisor_main zero_os ns_config (new_sup demo_plan)) as [[s' e]|] eqn:E; [|destruct H].
  destruct e as [z|]; [|destruct H]. destruct z; [|destruct H..].
  destruct (read_all default_limits [pipe s']) as [[[[b why] objs]|]|] eqn:R; [|destruct H..].
  refine (proj2 (pass_is_true zero_os ns_config demo_plan s' (Returns 0) [pipe s'] b why objs 0 (Some demo_bounded) false
    (demo_os_sound _) E _ R H)).
  apply append_empty_r.
Defined.

(** A workload that execs again, as a shell does with exec: the stop comes
    once more, the record is repeated, and the parent refuses the stream of a
    supervisor that returned 0. *)
Example second_exec_refused :
  match supervisor_main (demo_os (demo_meta verified_line) [(Status exec_stop, true); (Status exec_stop, true); (Status 0, true)])
          ns_config (new_sup demo_plan) with
  | Some (s, Returns 0) => option_map (option_map fst) (read_all default_limits [pipe s])
  | _ => None
  end = Some (Some (false, "protocol_invalid_transition")).
Proof. vm_compute. reflexivity. Qed.

(** A record that is too large is refused before any write, and yet the
    channel is taken for broken: the failure is never reported. *)
Fixpoint many (n : nat) : string := match n with O => "" | S n => "x" +:+ many n end.

Example large_metadata_unreported :
  match supervisor_main (demo_os (demo_meta ("{'type':'enforcement_verified','metadata':{'note':'" +:+ many (Z.to_nat 8200) +:+ "'}}")) [])
          ns_config (new_sup demo_plan) with
  | Some (s, Returns 1) => (protocol_alive s, option_map (option_map fst) (read_all default_limits [pipe s]))
  | _ => (true, None)
  end = (false, Some (Some (false, "protocol_eof_before_terminal"))).
Proof. vm_compute. reflexivity. Qed.

(** ** The launch *)

Definition demo_init : InitOs := mkInitOs 1 0 None whole demo_reads demo_reads.

Definition demo_identity : string := framed (compact_text (VDict (identity_record demo_init))).

Definition demo_launch : LaunchOs :=
  mkLaunchOs None None (Ok 77) None demo_reads (Ok (mkProof 4 4026 77)) None whole true None whole
    (mkContainOs [] [] true) [WaitInterrupted; Waited 77 0].

Abbreviation demo_launched :=
  (match launch_pid_namespace_supervisor demo_launch demo_identity (new_sup []) with Some (_, r) => r | None => denied "" end) (only parsing).

(** The configuration that came from outside named another namespace. *)
Definition outside_config : pyctx := [("expected_pidns_dev", VInt 1); ("workload_cwd", VStr "/")].

Example core_entry_authorized_witness :
  exit_code demo_launched = 0 /\
  (exists init_pid p obj,
    fork_init demo_launch = Ok init_pid /\ topology demo_launch = Ok p /\ proof_init_host_pid p = init_pid /\
    carries identity_channel IDENTITY_MAX_PAYLOAD demo_identity obj /\ validate_identity obj = Ok (1, 0) /\
    protocol_close demo_launch = true /\ pipe (new_sup []) = pipe (new_sup []) /\
    proof_pipe demo_launched = framed (compact_text (VDict (proof_record p))) /\ gate_pipe demo_launched = RELEASE_TOKEN /\
    inject 4 4026 outside_config = inject (child_pidns_dev p) (child_pidns_ino p) outside_config /\
    0 < child_pidns_dev p /\ 0 < child_pidns_ino p) /\
  (forall ios2 config2 proof gate config2', namespace_init ios2 config2 (Some proof) gate = Some (Enters config2') ->
     gate = RELEASE_TOKEN).
Proof.
  split; [vm_compute; reflexivity|].
  refine (core_entry_authorized demo_launch demo_init demo_identity outside_config (inject 4 4026 outside_config)
    (new_sup []) (new_sup []) demo_launched _ _ _).
  - intros p [= <-]. unfold small. cbn. lia.
  - vm_compute. reflexivity.
  - vm_compute. reflexivity.
Defined.

(** A token cut short lets nobody in. *)
Example half_a_token :
  namespace_init demo_init outside_config (Some (framed (compact_text (VDict (proof_record (mkProof 4 4026 77))))))
    (fst (split_at 7 RELEASE_TOKEN)) = Some Quits.
Proof. vm_compute. reflexivity. Qed.
