(* ===== verification/DependencyResolver.v ===== *)
(** * Resolution of remote dependencies

    [sdk/dependency_resolver.py]: the depth-first resolution of a package with
    its dependencies, the verification of the packages and of the bounds each
    sets on its dependencies, the lockfile and the receipt.  The registry's
    answer, the verification of one package, SHA-256, the identifier and the
    clock are arguments. *)
From S2P Require Import Prelude PyFloat PyValue Json.

(** ** Values of unknown type *)

(** The exceptions that leave the module. *)
Inductive dep_error :=
| DependencyCycleError (cycle_path : list string)
| AttributeErrorRaised
| TypeErrorRaised.

Definition M : Type -> Type := res dep_error.

(** [list(v)]: a text gives its characters, a dict its keys. *)
Definition as_list (v : pyval) : M (list pyval) :=
  match v with
  | VList l => Ok l
  | VStr s => Ok (map (fun c => VStr (String c "")) (String.list_ascii_of_string s))
  | VDict d => Ok (map (fun kv => VStr (fst kv)) d)
  | _ => Err TypeErrorRaised
  end.

Definition hashable (v : pyval) : bool := match v with VList _ | VDict _ => false | _ => true end.

(** [set(v)], the repetitions kept. *)
Definition as_set (v : pyval) : M (list pyval) :=
  l ← as_list v; _ ← guard_err (forallb hashable l) TypeErrorRaised; mret l.

(** [v[:12]] raises on what is neither a text nor a list. *)
Definition sliceable (v : pyval) : bool := match v with VStr _ | VList _ => true | _ => false end.

Fixpoint each_ok {A B} (f : A -> M B) (l : list A) : M (list B) :=
  match l with
  | [] => Ok []
  | x :: l => y ← f x; ys ← each_ok f l; mret (y :: ys)
  end.

(** ** Specs, nodes, graphs *)

Record RemoteDependencySpec := mkSpec {
  s_package_id : pyval;
  version_constraint : pyval;
  required : pyval;
  expected_publisher_fingerprint : pyval;
  expected_capabilities : pyval;
}.

Definition spec_from_dict (data : pyval) : M RemoteDependencySpec :=
  match data with
  | VDict d =>
      Ok (mkSpec (dget_or "package_id" (VStr "") d) (dget_or "version_constraint" (VStr "") d)
        (dget_or "required" (VBool true) d) (dget_or "expected_publisher_fingerprint" (VStr "") d)
        (dget_or "expected_capabilities" (VList []) d))
  | _ => Err AttributeErrorRaised
  end.

Definition spec_dict (s : RemoteDependencySpec) : M pyval :=
  caps ← as_list (expected_capabilities s);
  mret (VDict [ ("package_id", s_package_id s); ("version_constraint", version_constraint s); ("required", required s);
    ("expected_publisher_fingerprint", expected_publisher_fingerprint s); ("expected_capabilities", VList caps) ]).

Definition parse_dependencies (md : pyctx) : M (list RemoteDependencySpec) :=
  raw ← as_list (dget_or "dependencies" (VList []) md); each_ok spec_from_dict raw.

(** A verification check, without the text of its detail. *)
Record CheckResult := mkCheck { check : string; passed : bool }.

Record DependencyGraphNode := mkNode {
  package_id : pyval;
  version : pyval;
  remote_url : string;
  artifact_digest : pyval;
  metadata_digest : pyval;
  publisher_fingerprint : pyval;
  certification_digest : pyval;
  capabilities : pyval;
  sandbox_profile : pyval;
  dependencies : list RemoteDependencySpec;
  is_root : bool;
  verified : bool;
  verification_checks : list CheckResult;
}.

Definition key_of (pkg ver : pyval) : string := py_str pkg +:+ "@" +:+ py_str ver.

Definition node_key (n : DependencyGraphNode) : string := key_of (package_id n) (version n).

Inductive resolution_error :=
| CycleDetected (cycle : list string)
| DepthExceeded (max_depth : Z) (key : string)
| FetchFailed (key : string) (why : string)
| VersionConflict (pkg existing ver : pyval).

Definition error_text (e : resolution_error) : string :=
  match e with
  | CycleDetected c => "Dependency cycle detected: " +:+ join " → " c
  | DepthExceeded m k => "Max dependency depth (" +:+ str_int m +:+ ") exceeded at " +:+ k
  | FetchFailed k why => "Failed to fetch metadata for " +:+ k +:+ ": " +:+ why
  | VersionConflict p v w => "Version conflict: '" +:+ py_str p +:+ "' required as both " +:+ py_str v +:+ " and " +:+ py_str w
  end.

Record RemoteDependencyGraph := mkGraph {
  nodes : dict DependencyGraphNode;
  root_key : string;
  resolution_errors : list resolution_error;
  resolution_warnings : list resolution_error;
}.

Definition new_graph : RemoteDependencyGraph := mkGraph [] "" [] [].

Definition root (g : RemoteDependencyGraph) : option DependencyGraphNode :=
  if str_truthy (root_key g) then dget (root_key g) (nodes g) else None.

Definition all_nodes (g : RemoteDependencyGraph) : list DependencyGraphNode := map snd (nodes g).

Definition dependency_nodes (g : RemoteDependencyGraph) : list DependencyGraphNode :=
  List.filter (fun n => negb (is_root n)) (all_nodes g).

Definition all_verified (g : RemoteDependencyGraph) : bool := forallb verified (all_nodes g).

(** ** Resolution *)

Definition note_error (e : resolution_error) (g : RemoteDependencyGraph) : RemoteDependencyGraph :=
  mkGraph (nodes g) (root_key g) (resolution_errors g ++ [e]) (resolution_warnings g).

Definition note_warning (e : resolution_error) (g : RemoteDependencyGraph) : RemoteDependencyGraph :=
  mkGraph (nodes g) (root_key g) (resolution_errors g) (resolution_warnings g ++ [e]).

Definition add_node (key : string) (n : DependencyGraphNode) (g : RemoteDependencyGraph) : RemoteDependencyGraph :=
  mkGraph (dset key n (nodes g)) (if is_root n then key else root_key g) (resolution_errors g) (resolution_warnings g).

(** The versions of the package that are in the graph already. *)
Definition conflicts (pkg ver : pyval) (g : RemoteDependencyGraph) : list resolution_error :=
  map (fun n => VersionConflict pkg (version n) ver)
    (List.filter (fun n => py_eq (package_id n) pkg && negb (py_eq (version n) ver)) (all_nodes g)).

Definition dep_version (d : RemoteDependencySpec) : pyval :=
  if truthy (version_constraint d) then version_constraint d else VStr "latest".

Definition dep_key (d : RemoteDependencySpec) : string := key_of (s_package_id d) (dep_version d).

(** The graph and the set [visiting], which the calls share. *)
Record Walk := mkWalk { graph : RemoteDependencyGraph; visiting : list string }.

(** A loop over calls that may raise or want for fuel. *)
Fixpoint each {A S} (f : A -> S -> option (M S)) (l : list A) (s : S) : option (M S) :=
  match l with
  | [] => Some (Ok s)
  | x :: l => match f x s with Some (Ok s) => each f l s | r => r end
  end.

Section Resolution.
Context (fetch_metadata_fn : pyval -> pyval -> res string pyctx) (url : string) (max_depth : Z) (strict : bool).

Definition placeholder (pkg ver : pyval) (r : bool) : DependencyGraphNode :=
  mkNode pkg ver url (VStr "") (VStr "") (VStr "") (VStr "") (VList []) (VStr "") [] r false [mkCheck "metadata_fetch" false].

Definition node_of (pkg ver : pyval) (md : pyctx) (deps : list RemoteDependencySpec) (r : bool) : DependencyGraphNode :=
  mkNode pkg ver url (dget_or "artifact_digest" (VStr "") md) (dget_or "metadata_digest" (VStr "") md)
    (dget_or "publisher_fingerprint" (VStr "") md) (dget_or "certification_digest" (VStr "") md)
    (dget_or "capabilities" (VList []) md) (dget_or "sandbox_profile" (VStr "") md) deps r false [].

(** [_resolve_recursive]; its callers ignore the key it returns. *)
Fixpoint resolve_recursive (fuel : nat) (pkg ver : pyval) (path : list string) (r : bool) (w : Walk) : option (M Walk) :=
  let key := key_of pkg ver in
  let g := graph w in
  let back g := Some (Ok (mkWalk g (visiting w))) in
  if mem key (visiting w) then
    if strict then Some (Err (DependencyCycleError (path ++ [key]))) else back (note_warning (CycleDetected (path ++ [key])) g)
  else if dmem key (nodes g) then back g
  else if max_depth <=? Z.of_nat (length path) then back (note_error (DepthExceeded max_depth key) g)
  else
    match fetch_metadata_fn pkg ver with
    | Err why => back (add_node key (placeholder pkg ver r) (note_error (FetchFailed key why) g))
    | Ok md =>
        let g := fold_left (fun g e => note_error e g) (conflicts pkg ver g) g in
        match parse_dependencies md with
        | Err e => Some (Err e)
        | Ok deps =>
            let w1 := mkWalk (add_node key (node_of pkg ver md deps r) g) (add_new key (visiting w)) in
            match fuel with
            | O => None
            | S fuel =>
                match each (fun d => resolve_recursive fuel (s_package_id d) (dep_version d) (path ++ [key]) false) deps w1 with
                | Some (Ok w2) => Some (Ok (mkWalk (graph w2) (set_diff (visiting w2) [key])))
                | e => e
                end
            end
        end
    end.

(** [resolve_dependencies]; a path is shorter than [max_depth] where a call
    goes deeper. *)
Definition resolve_dependencies (pkg ver : pyval) : option (M RemoteDependencyGraph) :=
  match resolve_recursive (Z.to_nat max_depth) pkg ver [] true (mkWalk new_graph []) with
  | Some (Ok w) => Some (Ok (graph w))
  | Some (Err e) => Some (Err e)
  | None => None
  end.
End Resolution.

(** ** Verification *)

Definition with_checks (n : DependencyGraphNode) (b : bool) (l : list CheckResult) : DependencyGraphNode :=
  mkNode (package_id n) (version n) (remote_url n) (artifact_digest n) (metadata_digest n) (publisher_fingerprint n)
    (certification_digest n) (capabilities n) (sandbox_profile n) (dependencies n) (is_root n) b l.

Definition with_nodes (g : RemoteDependencyGraph) (d : dict DependencyGraphNode) : RemoteDependencyGraph :=
  mkGraph d (root_key g) (resolution_errors g) (resolution_warnings g).

(** [verify_dependency_graph]: the graph it leaves. *)
Definition verify_dependency_graph (verify_fn : DependencyGraphNode -> list CheckResult) (g : RemoteDependencyGraph) : RemoteDependencyGraph :=
  with_nodes g (map (fun '(k, n) => let cs := verify_fn n in (k, with_checks n (forallb passed cs) cs)) (nodes g)).

Definition SANDBOX_STRENGTH : dict Z :=
  [("none", 0); ("minimal", 1); ("standard_untrusted", 2); ("production_untrusted", 3); ("hardened_untrusted", 4)].

Definition strength (profile : pyval) : Z := match profile with VStr s => dget_or s 0 SANDBOX_STRENGTH | _ => 0 end.

(** [SANDBOX_STRENGTH.get(profile, 0)] *)
Definition get_strength (profile : pyval) : M Z :=
  _ ← guard_err (hashable profile) TypeErrorRaised; mret (strength profile).

Definition check_publisher (child : DependencyGraphNode) (d : RemoteDependencySpec) : M (list CheckResult) :=
  if truthy (expected_publisher_fingerprint d) then
    if py_eq (publisher_fingerprint child) (expected_publisher_fingerprint d) then mret []
    else
      _ ← guard_err (sliceable (expected_publisher_fingerprint d) && sliceable (publisher_fingerprint child)) TypeErrorRaised;
      mret [mkCheck "dependency_publisher_match" false]
  else mret [mkCheck "dependency_publisher_match" true].

Definition unexpected (child_caps expected_caps : list pyval) : list pyval :=
  List.filter (fun c => negb (existsb (fun e => py_eq e c) expected_caps)) child_caps.

Definition check_capabilities (child : DependencyGraphNode) (d : RemoteDependencySpec) : M (list CheckResult) :=
  if truthy (expected_capabilities d) then
    child_caps ← as_set (capabilities child);
    expected_caps ← as_set (expected_capabilities d);
    mret [mkCheck "dependency_capabilities_within_bounds" (negb (nonempty (unexpected child_caps expected_caps)))]
  else mret [mkCheck "dependency_capabilities_within_bounds" true].

Definition check_sandbox (parent child : DependencyGraphNode) : M (list CheckResult) :=
  parent_strength ← get_strength (sandbox_profile parent);
  child_strength ← get_strength (sandbox_profile child);
  let effective_floor := Z.max parent_strength (dget_or "standard_untrusted" 2 SANDBOX_STRENGTH) in
  mret [mkCheck "dependency_sandbox_not_weaker" (negb (child_strength <? effective_floor))].

(** [verify_dependency_bounds] *)
Definition verify_dependency_bounds (parent child : DependencyGraphNode) (d : RemoteDependencySpec) : M (list CheckResult) :=
  a ← check_publisher child d; b ← check_capabilities child d; c ← check_sandbox parent child; mret (a ++ b ++ c).

(** ** Resolution, verification, lockfile *)

(** The checks of one dependency, when it is in the graph, recorded with the
    node that declares it. *)
Definition bound_dependency (g : RemoteDependencyGraph) (m : M DependencyGraphNode) (d : RemoteDependencySpec) : M DependencyGraphNode :=
  n ← m;
  match dget (dep_key d) (nodes g) with
  | Some child =>
      cs ← verify_dependency_bounds n child d;
      mret (with_checks n (verified n && forallb passed cs) (verification_checks n ++ cs))
  | None => mret n
  end.

Definition bound_node (g : RemoteDependencyGraph) (n : DependencyGraphNode) : M DependencyGraphNode :=
  fold_left (bound_dependency g) (dependencies n) (Ok n).

(** The checks read nothing of a node that they change. *)
Definition verify_bounds (g : RemoteDependencyGraph) : M RemoteDependencyGraph :=
  d ← each_ok (fun '(k, n) => n' ← bound_node g n; mret (k, n')) (nodes g); mret (with_nodes g d).

Section Documents.
Context (sha256 : string -> string).

(** [_sha256_dict] *)
Definition sha256_dict (data : pyctx) : string := sha256 (json_text (mkJsonOptions "" "" true true true) (VDict data)).

Definition digest_entry (kn : string * DependencyGraphNode) : M (string * pyval) :=
  let '(k, n) := kn in
  deps ← each_ok spec_dict (dependencies n);
  mret (k, VDict [ ("package_id", package_id n); ("version", version n); ("artifact_digest", artifact_digest n);
    ("publisher_fingerprint", publisher_fingerprint n); ("dependencies", VList deps) ]).

Definition compute_graph_digest (g : RemoteDependencyGraph) : M string :=
  entries ← each_ok digest_entry (py_sorted key_leb (nodes g));
  mret (sha256_dict [("root", VStr (root_key g)); ("nodes", VDict entries)]).

Definition package_entry (n : DependencyGraphNode) : M pyval :=
  caps ← as_list (capabilities n); deps ← each_ok spec_dict (dependencies n);
  mret (VDict [ ("package_id", package_id n); ("version", version n); ("remote_url", VStr (remote_url n));
    ("artifact_digest", artifact_digest n); ("metadata_digest", metadata_digest n);
    ("publisher_fingerprint", publisher_fingerprint n); ("certification_digest", certification_digest n);
    ("capabilities", VList caps); ("sandbox_profile", sandbox_profile n); ("is_root", VBool (is_root n));
    ("dependencies", VList deps) ]).

Record RemoteDependencyLockfile := mkLockfile {
  root_package_id : pyval;
  root_version : pyval;
  l_remote_url : string;
  packages : list pyval;
  graph_digest : string;
  created_at : string;
  lockfile_digest : string;
}.

Definition lockfile_dict (l : RemoteDependencyLockfile) : pyctx :=
  [ ("type", VStr "remote_dependency_lockfile"); ("lockfile_version", VStr "1.0"); ("root_package_id", root_package_id l);
    ("root_version", root_version l); ("remote_url", VStr (l_remote_url l)); ("packages", VList (packages l));
    ("graph_digest", VStr (graph_digest l)); ("created_at", VStr (created_at l)); ("lockfile_digest", VStr (lockfile_digest l)) ].

Definition lockfile_compute_digest (l : RemoteDependencyLockfile) : string :=
  sha256_dict (List.filter (fun kv => negb (fst kv =s? "lockfile_digest")) (lockfile_dict l)).

Definition lockfile_finalize (l : RemoteDependencyLockfile) : RemoteDependencyLockfile :=
  mkLockfile (root_package_id l) (root_version l) (l_remote_url l) (packages l) (graph_digest l) (created_at l)
    (lockfile_compute_digest l).

Definition by_key (a b : DependencyGraphNode) : bool := String.leb (node_key a) (node_key b).

(** [RemoteDependencyLockfile.from_graph] *)
Definition from_graph (now : string) (g : RemoteDependencyGraph) : M RemoteDependencyLockfile :=
  entries ← each_ok package_entry (py_sorted by_key (all_nodes g));
  digest ← compute_graph_digest g;
  let '(p, v, u) := match root g with
                    | Some n => (package_id n, version n, remote_url n)
                    | None => (VStr "", VStr "", "")
                    end in
  mret (lockfile_finalize (mkLockfile p v u entries digest now "")).

Record DependencyResolutionReceipt := mkReceipt {
  receipt_id : string;
  r_root_package_id : pyval;
  r_root_version : pyval;
  r_remote_url : string;
  r_graph_digest : string;
  r_lockfile_digest : string;
  node_count : nat;
  dependency_count : nat;
  r_all_verified : bool;
  per_package_receipts : list pyval;
  r_errors : list resolution_error;
  r_warnings : list resolution_error;
  resolved_at : string;
  receipt_digest : string;
}.

Definition texts_of (l : list resolution_error) : pyval := VList (map (fun e => VStr (error_text e)) l).

Definition receipt_dict (r : DependencyResolutionReceipt) : pyctx :=
  [ ("type", VStr "dependency_resolution_receipt"); ("receipt_id", VStr (receipt_id r));
    ("root_package_id", r_root_package_id r); ("root_version", r_root_version r); ("remote_url", VStr (r_remote_url r));
    ("graph_digest", VStr (r_graph_digest r)); ("lockfile_digest", VStr (r_lockfile_digest r));
    ("node_count", VInt (Z.of_nat (node_count r))); ("dependency_count", VInt (Z.of_nat (dependency_count r)));
    ("all_verified", VBool (r_all_verified r)); ("per_package_receipts", VList (per_package_receipts r));
    ("resolution_errors", texts_of (r_errors r)); ("resolution_warnings", texts_of (r_warnings r));
    ("resolved_at", VStr (resolved_at r)); ("receipt_digest", VStr (receipt_digest r)) ].

Definition receipt_compute_digest (r : DependencyResolutionReceipt) : string :=
  sha256_dict (List.filter (fun kv => negb (fst kv =s? "receipt_digest")) (receipt_dict r)).

Definition receipt_finalize (r : DependencyResolutionReceipt) : DependencyResolutionReceipt :=
  mkReceipt (receipt_id r) (r_root_package_id r) (r_root_version r) (r_remote_url r) (r_graph_digest r) (r_lockfile_digest r)
    (node_count r) (dependency_count r) (r_all_verified r) (per_package_receipts r) (r_errors r) (r_warnings r) (resolved_at r)
    (receipt_compute_digest r).

Definition package_receipt (n : DependencyGraphNode) : pyval :=
  VDict [ ("package_id", package_id n); ("version", version n); ("verified", VBool (verified n));
    ("check_count", VInt (Z.of_nat (length (verification_checks n)))) ].

Section Entry.
Context (fetch : pyval -> pyval -> res string pyctx) (url : string) (verify_node_fn : DependencyGraphNode -> list CheckResult)
  (uuid locked_at now : string).

(** [resolve_and_verify]: cycles are errors, the depth is 16. *)
Definition resolve_and_verify (pkg ver : pyval) :
    option (M (RemoteDependencyGraph * DependencyResolutionReceipt * RemoteDependencyLockfile)) :=
  match resolve_dependencies fetch url 16 true pkg ver with
  | None => None
  | Some m => Some (
      g ← m;
      g ← verify_bounds (verify_dependency_graph verify_node_fn g);
      lockfile ← from_graph locked_at g;
      digest ← compute_graph_digest g;
      mret (g,
        receipt_finalize (mkReceipt uuid pkg ver url digest (lockfile_digest lockfile) (length (nodes g))
          (length (dependency_nodes g)) (all_verified g) (map package_receipt (all_nodes g)) (resolution_errors g)
          (resolution_warnings g) now ""),
        lockfile))
  end.
End Entry.
End Documents.
