(* ===== verification/DependencySound.v ===== *)
(** * What a resolution without errors means

    The search of DependencyResolver: it ends, it refuses a cycle only where
    the packages declare one, and a graph without errors has an order that
    installs every package after its dependencies.  What the receipt says of a
    verified graph. *)
From S2P Require Import Prelude PyFloat PyValue Json DependencyResolver.

(** ** The loop *)

Lemma each_total {A S} (f : A -> S -> option (M S)) l : forall s,
  (forall x s, x ∈ l -> is_Some (f x s)) -> is_Some (each f l s).
Proof.
  induction l as [|x l IH]; intros s H; cbn [each]; [done|]. destruct (H x s) as [[s1|e] E]; [by left|..]; rewrite E; [|done].
  apply IH. intros y s2 Hy. apply H. by right.
Qed.

(** A property that each call that does not raise carries over. *)
Lemma each_carries {A S} (f : A -> S -> option (M S)) (I : S -> Prop) l : forall s s',
  (forall x s s', x ∈ l -> f x s = Some (Ok s') -> I s -> I s') -> each f l s = Some (Ok s') -> I s -> I s'.
Proof.
  induction l as [|x l IH]; cbn [each]; intros s s' H; [by intros [= <-]|].
  destruct (f x s) as [[s1|e]|] eqn:E; [|done..]. intros Hr Hs. apply (IH s1); [|done|by apply (H x s); [left|..]].
  intros y t t' Hy. apply H. by right.
Qed.

(** The call that raised. *)
Lemma each_raises {A S} (f : A -> S -> option (M S)) (I : S -> Prop) l e : forall s,
  (forall x s s', x ∈ l -> f x s = Some (Ok s') -> I s -> I s') -> each f l s = Some (Err e) -> I s ->
  exists x s1, x ∈ l /\ I s1 /\ f x s1 = Some (Err e).
Proof.
  induction l as [|x l IH]; cbn [each]; intros s H; [done|].
  destruct (f x s) as [[s1|e1]|] eqn:E; [| |done].
  - intros Hr Hs. apply IH in Hr as (y & t & Hy & Ht); [|intros y t t' Hy; apply H; by right|by apply (H x s); [left|..]].
    exists y, t. split; [by right | done].
  - intros [= ->] Hs. exists x, s. split; [by left | done].
Qed.

(** ** Notes and nodes *)

Lemma note_errors l g : fold_left (fun g e => note_error e g) l g =
  mkGraph (nodes g) (root_key g) (resolution_errors g ++ l) (resolution_warnings g).
Proof.
  revert g. induction l as [|e l IH]; intros g; [by destruct g; cbn; rewrite app_nil_r|]. cbn [fold_left].
  rewrite IH. cbn. by rewrite <- app_assoc.
Qed.

Lemma dset_fresh {V} k (v : V) d : k ∉ dkeys d -> dset k v d = d ++ [(k, v)].
Proof.
  induction d as [|[k' v'] d IH]; [done|]. cbn [dkeys map fst dset]. intros [Hk Hd]%not_elem_of_cons.
  destruct (String.eqb_spec k k') as [->|_]; [done|]. cbn [app]. by rewrite IH.
Qed.

Lemma dget_fresh {V} k (v : V) d k' w : k ∉ dkeys d -> dget k' d = Some w -> dget k' (dset k v d) = Some w.
Proof.
  intros Hk H. rewrite dget_dset_other; [done|]. intros ->. by rewrite (proj2 (dget_None _ _) Hk) in H.
Qed.

Lemma visiting_restored k V : k ∉ V -> set_diff (add_new k V) [k] = V.
Proof.
  intros H. unfold add_new. rewrite (proj2 (mem_false k V) H). unfold set_diff.
  induction V as [|x V IH]; cbn; [by rewrite String.eqb_refl|]. apply not_elem_of_cons in H as [Hx H].
  rewrite (proj2 (String.eqb_neq x k)) by done. cbn. f_equal. by apply IH.
Qed.

Section Search.
Context (fetch : pyval -> pyval -> res string pyctx) (url : string) (max_depth : Z).

Notation resolve := (resolve_recursive fetch url max_depth true).

(** The calls of a node for its dependencies. *)
Notation visit fuel path := (fun d => resolve fuel (s_package_id d) (dep_version d) path false).

(** ** The steps of a call *)

(** A call that enters a package: its state before the dependencies. *)
Definition entered (pkg ver : pyval) (md : pyctx) (deps : list RemoteDependencySpec) (r : bool) (w : Walk) : Walk :=
  let key := key_of pkg ver in
  mkWalk (add_node key (node_of url pkg ver md deps r) (fold_left (fun g e => note_error e g) (conflicts pkg ver (graph w)) (graph w)))
    (add_new key (visiting w)).

(** The ways a call returns: at once, with a note or not, or from the
    dependencies of the package it has entered. *)
Inductive call_ends (pkg ver : pyval) (path : list string) (r : bool) (w : Walk) : nat -> M Walk -> Prop :=
| ends_known fuel : key_of pkg ver ∉ visiting w -> key_of pkg ver ∈ dkeys (nodes (graph w)) -> call_ends pkg ver path r w fuel (Ok w)
| ends_noted fuel w' e : visiting w' = visiting w -> resolution_errors (graph w') = resolution_errors (graph w) ++ [e] ->
    (r = false -> root_key (graph w') = root_key (graph w)) ->
    call_ends pkg ver path r w fuel (Ok w')
| ends_cycle fuel : key_of pkg ver ∈ visiting w -> call_ends pkg ver path r w fuel (Err (DependencyCycleError (path ++ [key_of pkg ver])))
| ends_bad fuel md e : fetch pkg ver = Ok md -> parse_dependencies md = Err e -> call_ends pkg ver path r w fuel (Err e)
| ends_children fuel md deps m : key_of pkg ver ∉ visiting w -> key_of pkg ver ∉ dkeys (nodes (graph w)) ->
    fetch pkg ver = Ok md -> parse_dependencies md = Ok deps ->
    each (visit fuel (path ++ [key_of pkg ver])) deps (entered pkg ver md deps r w) = Some m ->
    call_ends pkg ver path r w (S fuel)
      (match m with Ok w2 => Ok (mkWalk (graph w2) (set_diff (visiting w2) [key_of pkg ver])) | e => e end).

Lemma call_ends_of fuel pkg ver path r w m : resolve fuel pkg ver path r w = Some m -> call_ends pkg ver path r w fuel m.
Proof.
  assert (resolve fuel pkg ver path r w = (let key := key_of pkg ver in let g := graph w in
    let back g := Some (Ok (mkWalk g (visiting w))) in
    if mem key (visiting w) then Some (Err (DependencyCycleError (path ++ [key])))
    else if dmem key (nodes g) then back g
    else if max_depth <=? Z.of_nat (length path) then back (note_error (DepthExceeded max_depth key) g)
    else match fetch pkg ver with
    | Err why => back (add_node key (placeholder url pkg ver r) (note_error (FetchFailed key why) g))
    | Ok md => match parse_dependencies md with
      | Err e => Some (Err e)
      | Ok deps => match fuel with
        | O => None
        | S fuel => match each (visit fuel (path ++ [key])) deps (entered pkg ver md deps r w) with
                | Some (Ok w2) => Some (Ok (mkWalk (graph w2) (set_diff (visiting w2) [key])))
                | e => e
                end end end end)) as -> by by destruct fuel.
  cbv zeta. destruct (mem_spec (key_of pkg ver) (visiting w)) as [Hv|Hv]; [intros [= <-]; by constructor|].
  unfold dmem. destruct (dget (key_of pkg ver) (nodes (graph w))) as [n|] eqn:Ek.
  { intros [= <-]. destruct w. constructor; [done|]. apply dget_In, (list_elem_of_fmap_2 fst) in Ek. exact Ek. }
  apply dget_None in Ek. destruct (max_depth <=? _); [intros [= <-]; by eapply ends_noted|].
  destruct (fetch pkg ver) as [md|why] eqn:Ef; [|intros [= <-]; eapply ends_noted; [done..|by intros ->]].
  destruct (parse_dependencies md) as [deps|e] eqn:Ep; [|intros [= <-]; by eapply ends_bad].
  destruct fuel as [|fuel]; [done|]. destruct (each _ _ _) as [m'|] eqn:Ee; [|done].
  pose proof (ends_children pkg ver path r w fuel md deps m' Hv Ek Ef Ep Ee) as H. destruct m'; intros [= <-]; exact H.
Qed.

Lemma call_answers strict fuel : forall pkg ver path r w, max_depth <= Z.of_nat (fuel + length path) ->
  is_Some (resolve_recursive fetch url max_depth strict fuel pkg ver path r w).
Proof.
  induction fuel as [|fuel IH]; intros pkg ver path r w H; cbn [resolve_recursive]; cbv zeta;
    (destruct (mem _ _); [by destruct strict|]); (destruct (dmem _ _); [done|]); (destruct (Z.leb_spec max_depth (Z.of_nat (length path))); [done|]);
    (destruct (fetch pkg ver) as [md|]; [|done]); (destruct (parse_dependencies md) as [deps|]; [|done]); [lia|].
  destruct (each_total (fun d => resolve_recursive fetch url max_depth strict fuel (s_package_id d) (dep_version d) (path ++ [key_of pkg ver]) false)
    deps (entered pkg ver md deps r w)) as [[w2|e] E].
  - intros d s _. apply IH. rewrite length_app. cbn. lia.
  - unfold entered in E. rewrite E. done.
  - unfold entered in E. rewrite E. done.
Qed.

(** *** Without [strict] *)

Definition warnings (w : Walk) : list resolution_error := resolution_warnings (graph w).

(** A call that is not strict only adds warnings, and does what the strict one
    does when it adds none; what it raises is no cycle. *)
Definition lenient (w : Walk) (m : M Walk) (strictly : option (M Walk)) : Prop :=
  match m with
  | Ok w' => (exists l, warnings w' = warnings w ++ l) /\ (warnings w' = warnings w -> strictly = Some (Ok w'))
  | Err e => forall c, e <> DependencyCycleError c
  end.

Lemma lenient_same w w' : warnings w' = warnings w -> lenient w (Ok w') (Some (Ok w')).
Proof. intros H. split; [|done]. exists []. by rewrite app_nil_r. Qed.

Lemma each_lenient {A} (f g : A -> Walk -> option (M Walk)) l m : forall s,
  (forall x s m, f x s = Some m -> lenient s m (g x s)) -> each f l s = Some m -> lenient s m (each g l s).
Proof.
  induction l as [|x l IH]; intros s H; cbn [each]; [intros [= <-]; by apply lenient_same|].
  destruct (f x s) as [[s1|e]|] eqn:E; [| |done]; apply H in E; [|by intros [= <-]].
  destruct E as [[l1 H1] Hs]. intros Hr. apply IH in Hr; [|done]. destruct m as [s2|e]; [|exact Hr].
  destruct Hr as [[l2 H2] Hr]. split; [exists (l1 ++ l2); by rewrite H2, H1, app_assoc|]. intros Heq.
  assert (l1 = [] /\ l2 = []) as [-> ->].
  { apply app_eq_nil. apply (app_inv_head (warnings s)). rewrite app_nil_r, app_assoc. congruence. }
  rewrite app_nil_r in H1, H2. rewrite Hs by done. by apply Hr.
Qed.

Lemma parse_raises_no_cycle md e c : parse_dependencies md = Err e -> e <> DependencyCycleError c.
Proof.
  unfold parse_dependencies. destruct (as_list _) as [raw|e1] eqn:E; cbn.
  - intros H ->. clear E. revert H. induction raw as [|v raw IH]; [done|]. cbn [each_ok].
    destruct v; cbn; try by intros [=]. by destruct (each_ok spec_from_dict raw) as [ys|e] eqn:Er; cbn; [|intros [= ->]; apply IH].
  - intros [= <-] ->. by destruct (dget_or _ _ _).
Qed.

Lemma lenient_call fuel : forall pkg ver path r w m,
  resolve_recursive fetch url max_depth false fuel pkg ver path r w = Some m -> lenient w m (resolve fuel pkg ver path r w).
Proof.
  induction fuel as [|fuel IH]; intros pkg ver path r w m; cbn [resolve_recursive]; cbv zeta;
    (destruct (mem _ _); [intros [= <-]; split; [by eexists|]; intros H; exfalso;
       by apply (f_equal length) in H; unfold warnings in H; cbn in H; rewrite length_app in H; cbn in H; lia|]);
    (destruct (dmem _ _); [intros [= <-]; by apply lenient_same|]);
    (destruct (max_depth <=? _); [intros [= <-]; by apply lenient_same|]);
    (destruct (fetch pkg ver) as [md|]; [|intros [= <-]; by apply lenient_same]);
    (destruct (parse_dependencies md) as [deps|e] eqn:Ep; [|intros [= <-] c; by eapply parse_raises_no_cycle]); [done|].
  destruct (each _ deps _) as [m'|] eqn:E; [|done].
  eapply (each_lenient _ (visit fuel (path ++ [key_of pkg ver]))) in E; [|intros d s m1; apply IH].
  destruct m' as [w2|e]; intros [= <-]; [|exact E]. destruct E as [[l Hl] Hs].
  unfold warnings in *. cbn [graph add_node resolution_warnings] in *. rewrite note_errors in *. cbn in *.
  split; [by exists l|]. intros Heq. by rewrite Hs.
Qed.

(** Errors are only added, and the set of open packages is restored. *)
Definition grows (w w' : Walk) : Prop :=
  visiting w' = visiting w /\ exists l, resolution_errors (graph w') = resolution_errors (graph w) ++ l.

Lemma grows_trans w1 w2 w3 : grows w1 w2 -> grows w2 w3 -> grows w1 w3.
Proof. intros [H1 [l1 E1]] [H2 [l2 E2]]. split; [by rewrite H2|]. exists (l1 ++ l2). by rewrite E2, E1, app_assoc. Qed.

Lemma entered_visiting pkg ver md deps r w : key_of pkg ver ∉ visiting w -> visiting (entered pkg ver md deps r w) = visiting w ++ [key_of pkg ver].
Proof. intros H. cbn. unfold add_new. by rewrite (proj2 (mem_false _ _) H). Qed.

Lemma entered_errors pkg ver md deps r w :
  resolution_errors (graph (entered pkg ver md deps r w)) = resolution_errors (graph w) ++ conflicts pkg ver (graph w).
Proof. cbn. by rewrite note_errors. Qed.

Lemma entered_nodes pkg ver md deps r w :
  nodes (graph (entered pkg ver md deps r w)) = dset (key_of pkg ver) (node_of url pkg ver md deps r) (nodes (graph w)).
Proof. cbn. by rewrite note_errors. Qed.

Lemma call_grows fuel : forall pkg ver path r w w', resolve fuel pkg ver path r w = Some (Ok w') -> grows w w'.
Proof.
  induction fuel as [|fuel IH]; intros pkg ver path r w w' H; apply call_ends_of in H; inversion H as
    [|? ? e Hv He _| | |? md deps m Hv Hk Hf Hp He]; subst; try (split; [done|]; exists []; by rewrite app_nil_r); try (by split; [|exists [e]]).
  destruct m as [w2|]; [|done]. match goal with E : Ok _ = Ok _ |- _ => injection E as <- end.
  assert (grows (entered pkg ver md deps r w) w2) as [Hv2 [l El]].
  { refine (each_carries _ (grows (entered pkg ver md deps r w)) _ _ _ _ He _); [|split; [done|exists []; by rewrite app_nil_r]].
    intros d s s' _ Hc Hg. eapply grows_trans; [exact Hg | by eapply IH]. }
  split; cbn [visiting graph].
  - rewrite Hv2. by apply visiting_restored.
  - rewrite El, entered_errors, <- app_assoc. by eexists.
Qed.

(** ** Why a resolution raises *)

(** The package of the first key declares a dependency with the second. *)
Definition declares (a b : string) : Prop :=
  exists pkg ver md deps d, a = key_of pkg ver /\ fetch pkg ver = Ok md /\ parse_dependencies md = Ok deps /\ d ∈ deps /\ b = dep_key d.

(** A cycle that is reported is one of declared dependencies, behind a way
    from the root; the other exceptions come from what a package declares. *)
Definition explained (e : dep_error) : Prop :=
  match e with
  | DependencyCycleError c => Sorted declares c /\ exists l k m, c = l ++ k :: m ++ [k]
  | e => exists pkg ver md, fetch pkg ver = Ok md /\ parse_dependencies md = Err e
  end.

Lemma Sorted_snoc {A} (R : A -> A -> Prop) l a b : Sorted R (l ++ [a]) -> R a b -> Sorted R ((l ++ [a]) ++ [b]).
Proof.
  rewrite <- app_assoc. induction l as [|x l IH]; cbn [app]; intros H Hab; [by repeat constructor|].
  inversion H as [|? ? Hl Hx]; subst. constructor; [by apply IH|].
  destruct l; inversion Hx; by constructor.
Qed.

Lemma bad_explained pkg ver md e : fetch pkg ver = Ok md -> parse_dependencies md = Err e -> explained e.
Proof.
  intros Hf Hp. assert (forall c, e <> DependencyCycleError c) as He by (intros c; by eapply parse_raises_no_cycle).
  destruct e as [c| |]; [by destruct (He c) | by exists pkg, ver, md | by exists pkg, ver, md].
Qed.

Lemma call_explained fuel : forall pkg ver path r w e, visiting w = path -> Sorted declares (path ++ [key_of pkg ver]) ->
  resolve fuel pkg ver path r w = Some (Err e) -> explained e.
Proof.
  induction fuel as [|fuel IH]; intros pkg ver path r w e Hv Hs H; apply call_ends_of in H; inversion H as
    [| |? Hin|? md e1 Hf Hp|? md deps m Hnv Hk Hf Hp He]; subst; try (by eapply bad_explained).
  1,2: split; [done|]; apply list_elem_of_split in Hin as (l & m & ->); exists l, (key_of pkg ver), m; by rewrite <- app_assoc.
  destruct m as [|e1]; [done|]. match goal with E : Err _ = Err _ |- _ => injection E as -> end.
  apply (each_raises _ (fun s => visiting s = visiting w ++ [key_of pkg ver])) in He as (d & s & Hd & Hvs & Hc);
    [|intros d s s' _ Hc Hi; apply call_grows in Hc as [Hc _]; by rewrite Hc | by apply entered_visiting].
  eapply IH; [exact Hvs | | exact Hc]. apply Sorted_snoc; [done|]. by exists pkg, ver, md, deps, d.
Qed.

(** ** A resolution without errors *)

(** The keys of the list have their packages in the graph, each after those of
    its dependencies and once. *)
Inductive dependencies_first (d : dict DependencyGraphNode) : list string -> Prop :=
| first_nil : dependencies_first d []
| first_snoc F k n : dependencies_first d F -> k ∉ F -> dget k d = Some n ->
    Forall (fun x => dep_key x ∈ F) (dependencies n) -> dependencies_first d (F ++ [k]).

(** The node is what the registry says of its package. *)
Definition fetched (n : DependencyGraphNode) : Prop :=
  exists md deps, fetch (package_id n) (version n) = Ok md /\ parse_dependencies md = Ok deps /\
    n = node_of url (package_id n) (version n) md deps (is_root n).

(** One version of a package. *)
Definition agree (n m : DependencyGraphNode) : Prop := py_eq (package_id n) (package_id m) = true -> py_eq (version n) (version m) = true.

Definition depends (d : dict DependencyGraphNode) (k k' : string) : Prop :=
  exists n x, dget k d = Some n /\ x ∈ dependencies n /\ dep_key x = k'.

Definition extends (d d' : dict DependencyGraphNode) : Prop := forall k n, dget k d = Some n -> dget k d' = Some n.

Lemma first_extends d d' F : extends d d' -> dependencies_first d F -> dependencies_first d' F.
Proof. intros H. induction 1 as [|F k n _ IH Hk Hn Hd]; econstructor; eauto. Qed.

Lemma depends_extends d d' k k' : extends d d' -> rtc (depends d) k k' -> rtc (depends d') k k'.
Proof. intros H Hr. eapply rtc_subrel; [|exact Hr]. intros a b (n & x & Hn & Hx & E). exists n, x. by split; [apply H|]. Qed.

Lemma extends_fresh k n d : k ∉ dkeys d -> extends d (dset k n d).
Proof. intros H k' n' Hn. by apply dget_fresh. Qed.

(** The graph of a walk from [rk], where the packages of [F] are done and the
    others still open. *)
Record sound_walk (rk : string) (w : Walk) (F : list string) : Prop := {
  walk_clean : resolution_errors (graph w) = [];
  walk_order : dependencies_first (nodes (graph w)) F;
  walk_split : forall k, k ∈ dkeys (nodes (graph w)) <-> k ∈ F \/ k ∈ visiting w;
  walk_open : forall k, k ∈ visiting w -> k ∉ F;
  walk_fetched : forall k n, dget k (nodes (graph w)) = Some n -> k = node_key n /\ fetched n;
  walk_once : ForallOrdPairs agree (all_nodes (graph w));
  walk_reached : forall k, k ∈ dkeys (nodes (graph w)) -> rtc (depends (nodes (graph w))) rk k;
}.

Lemma agree_snoc l n : ForallOrdPairs agree l -> Forall (fun m => agree m n) l -> ForallOrdPairs agree (l ++ [n]).
Proof.
  induction 1 as [|m l Hm _ IH]; intros Hn; cbn [app]; [by repeat constructor|]. inversion Hn as [|? ? Hmn Hl]; subst. constructor.
  - apply Forall_app. split; [done | by constructor].
  - by apply IH.
Qed.

Lemma no_conflicts pkg ver g : conflicts pkg ver g = [] -> forall n, n ∈ all_nodes g -> py_eq (package_id n) pkg = true -> py_eq (version n) ver = true.
Proof.
  unfold conflicts. intros H%map_eq_nil n Hn Hp. destruct (py_eq (version n) ver) eqn:E; [done|]. exfalso.
  assert (n ∈ List.filter (fun n => py_eq (package_id n) pkg && negb (py_eq (version n) ver)) (all_nodes g)) as Hi.
  { apply elem_of_lfilter. by rewrite Hp, E. }
  rewrite H in Hi. by apply elem_of_nil in Hi.
Qed.

Lemma enter_sound rk pkg ver md deps r w F : sound_walk rk w F -> key_of pkg ver ∉ visiting w -> key_of pkg ver ∉ dkeys (nodes (graph w)) ->
  fetch pkg ver = Ok md -> parse_dependencies md = Ok deps -> conflicts pkg ver (graph w) = [] ->
  rtc (depends (nodes (graph w))) rk (key_of pkg ver) -> sound_walk rk (entered pkg ver md deps r w) F.
Proof.
  intros [Hc Ho Hs Hv Hn H1 Hr] Hkv Hk Hf Hp Hno Hrk. pose proof (extends_fresh _ (node_of url pkg ver md deps r) _ Hk) as Hx.
  split; rewrite ?entered_errors, ?entered_nodes, ?(entered_visiting _ _ _ _ _ _ Hkv).
  - by rewrite Hc, Hno.
  - by eapply first_extends.
  - intros k. rewrite dkeys_dset, elem_of_add_new, Hs, elem_of_app, list_elem_of_singleton. tauto.
  - intros k [Hkv'|Hkv']%elem_of_app; [by apply Hv|]. apply list_elem_of_singleton in Hkv' as ->. intros HF. apply Hk, Hs. by left.
  - intros k n. destruct (decide (k = key_of pkg ver)) as [->|Hne].
    + rewrite dget_dset_same. intros [= <-]. split; [done|]. by exists md, deps.
    + rewrite dget_dset_other by done. apply Hn.
  - unfold all_nodes. rewrite entered_nodes, (dset_fresh _ _ _ Hk), map_app. apply agree_snoc; [exact H1|].
    apply Forall_forall. intros n Hin Heq. exact (no_conflicts _ _ _ Hno n Hin Heq).
  - intros k. rewrite dkeys_dset, elem_of_add_new. intros [->|Hin]; (eapply depends_extends; [exact Hx|]); [done | by apply Hr].
Qed.

Lemma visits_grow fuel path l w w' : each (visit fuel path) l w = Some (Ok w') -> grows w w'.
Proof.
  intros H. refine (each_carries _ (grows w) _ _ _ _ H _); [|split; [done|exists []; by rewrite app_nil_r]].
  intros d s s' _ Hc Hg. eapply grows_trans; [exact Hg | by eapply call_grows].
Qed.

Lemma grows_clean w w' : grows w w' -> resolution_errors (graph w') = [] -> resolution_errors (graph w) = [].
Proof. intros [_ [l ->]] [H _]%app_eq_nil. exact H. Qed.

(** A call that leaves no error does its package and keeps what was done;
    when the package is new it is the last one. *)
Definition calls_sound (fuel : nat) : Prop :=
  forall pkg ver path r w w' rk F, resolve fuel pkg ver path r w = Some (Ok w') ->
  resolution_errors (graph w') = [] -> sound_walk rk w F -> rtc (depends (nodes (graph w))) rk (key_of pkg ver) ->
  exists F', sound_walk rk w' F' /\ F ⊆ F' /\ key_of pkg ver ∈ F' /\ extends (nodes (graph w)) (nodes (graph w')) /\
    (key_of pkg ver ∈ dkeys (nodes (graph w)) \/ exists G, F' = G ++ [key_of pkg ver]).

Lemma visits_sound fuel path rk l : calls_sound fuel -> forall w w' F, each (visit fuel path) l w = Some (Ok w') ->
  resolution_errors (graph w') = [] -> sound_walk rk w F -> Forall (fun d => rtc (depends (nodes (graph w))) rk (dep_key d)) l ->
  exists F', sound_walk rk w' F' /\ F ⊆ F' /\ Forall (fun d => dep_key d ∈ F') l /\ extends (nodes (graph w)) (nodes (graph w')).
Proof.
  intros IH. induction l as [|d l IHl]; intros w w' F; cbn [each]; [intros [= <-] _ Hs _; exists F; split_and!; [done|done|apply Forall_nil_2|by intros ?]|].
  destruct (resolve fuel _ _ _ _ w) as [[w1|]|] eqn:E; [|done..]. intros He Hc Hs Hr. inversion Hr as [|? ? Hd Hl]; subst.
  pose proof (grows_clean _ _ (visits_grow _ _ _ _ _ He) Hc) as Hc1.
  destruct (IH _ _ _ _ _ _ _ _ E Hc1 Hs Hd) as (F1 & Hs1 & HF1 & Hk1 & Hx1 & _).
  destruct (IHl w1 w' F1 He Hc Hs1) as (F2 & Hs2 & HF2 & Hk2 & Hx2).
  { eapply Forall_impl; [exact Hl|]. intros x. by apply depends_extends. }
  exists F2. split_and!; [done|set_solver| |intros k n Hn; by apply Hx2, Hx1]. constructor; [by apply HF2 | done].
Qed.

(** The package whose dependencies are done is done. *)
Lemma leave_sound rk pkg ver w F V n : visiting w = V ++ [key_of pkg ver] -> key_of pkg ver ∉ V -> sound_walk rk w F ->
  dget (key_of pkg ver) (nodes (graph w)) = Some n -> Forall (fun d => dep_key d ∈ F) (dependencies n) ->
  sound_walk rk (mkWalk (graph w) V) (F ++ [key_of pkg ver]).
Proof.
  intros Hv Hk [Hc Ho Hs Hop Hn H1 Hr] Hg Hd. split; cbn [graph visiting]; try done.
  - econstructor; [done| |done..]. apply Hop. rewrite Hv. set_solver.
  - intros k. rewrite Hs, Hv. set_solver.
  - intros k HkV HF. apply elem_of_app in HF as [HF|HF%list_elem_of_singleton]; [|by subst].
    apply (Hop k); [rewrite Hv; set_solver | done].
Qed.

Lemma call_sound fuel : calls_sound fuel.
Proof.
  induction fuel as [|fuel IH]; intros pkg ver path r w w' rk F H Hclean Hs Hr; apply call_ends_of in H; inversion H as
    [? Hv Hk|? ? e Hv He _| | |? md deps m Hv Hk Hf Hp He]; subst; try (by rewrite He in Hclean; destruct (resolution_errors (graph w))).
  1,2: exists F; split_and!; [done|done| |by intros ?|by left]; by apply (walk_split _ _ _ Hs) in Hk as [Hk|Hk].
  destruct m as [w2|]; [|done]. match goal with E : Ok _ = Ok _ |- _ => injection E as <- end. cbn [graph] in *.
  pose proof (visits_grow _ _ _ _ _ He) as Hg. pose proof (grows_clean _ _ Hg Hclean) as Hc. destruct Hg as [Hv2 _].
  rewrite entered_errors, (walk_clean _ _ _ Hs) in Hc. cbn in Hc.
  pose proof (enter_sound _ _ _ _ _ r _ _ Hs Hv Hk Hf Hp Hc Hr) as Hs1.
  assert (dget (key_of pkg ver) (nodes (graph (entered pkg ver md deps r w))) = Some (node_of url pkg ver md deps r)) as Hget.
  { rewrite entered_nodes. apply dget_dset_same. }
  destruct (visits_sound fuel _ rk deps IH _ _ F He Hclean Hs1) as (F2 & Hs2 & HF & Hd & Hx).
  { apply Forall_forall. intros d Hd. eapply rtc_r; [apply (walk_reached _ _ _ Hs1)|by exists (node_of url pkg ver md deps r), d].
    rewrite entered_nodes, dkeys_dset, elem_of_add_new. by left. }
  pose proof (visiting_restored _ _ Hv) as Hback. pose proof (entered_visiting pkg ver md deps r w Hv) as Hev.
  assert (add_new (key_of pkg ver) (visiting w) = visiting w ++ [key_of pkg ver]) as Ha by exact Hev.
  rewrite Hv2, Hev, <- Ha, Hback. exists (F2 ++ [key_of pkg ver]). split_and!.
  - apply (leave_sound _ _ _ _ _ _ (node_of url pkg ver md deps r)); [by rewrite Hv2, Hev | done | done | by apply Hx | done].
  - set_solver.
  - set_solver.
  - intros k n Hn. apply Hx. rewrite entered_nodes. by apply extends_fresh.
  - right. by exists F2.
Qed.

(** The root is that of the first call. *)
Lemma call_root fuel : forall pkg ver path w w', resolve fuel pkg ver path false w = Some (Ok w') -> root_key (graph w') = root_key (graph w).
Proof.
  induction fuel as [|fuel IH]; intros pkg ver path w w' H; apply call_ends_of in H; inversion H as
    [? Hv Hk|? ? e Hv He Hrk| | |? md deps m Hv Hk Hf Hp He]; subst; try done; try by apply Hrk.
  destruct m as [w2|]; [|done]. match goal with E : Ok _ = Ok _ |- _ => injection E as <- end. cbn [graph].
  refine (each_carries _ (fun s => root_key (graph s) = root_key (graph w)) _ _ _ _ He _).
  - intros d s s' _ Hc Hi. by rewrite (IH _ _ _ _ _ Hc).
  - cbn. by rewrite note_errors.
Qed.
End Search.

(** ** Resolved graphs *)

Lemma resolution_clean fetch url max_depth pkg ver g : resolve_dependencies fetch url max_depth true pkg ver = Some (Ok g) ->
  resolution_errors g = [] -> exists F, sound_walk fetch url (key_of pkg ver) (mkWalk g []) (F ++ [key_of pkg ver]) /\
    root_key g = key_of pkg ver.
Proof.
  unfold resolve_dependencies. destruct (resolve_recursive _ _ _ _ _ _ _ _ _ _) as [[w|]|] eqn:E; [|done..]. intros [= <-] Hc.
  assert (sound_walk fetch url (key_of pkg ver) (mkWalk new_graph []) []) as Hs.
  { split; cbn; try done; try constructor; try (by intros k ?%elem_of_nil). all: set_solver. }
  destruct (call_sound _ _ _ _ _ _ _ _ _ _ _ _ E Hc Hs (rtc_refl _ _)) as (F & Hw & _ & _ & _ & [Hk|[G ->]]); [by apply elem_of_nil in Hk|].
  exists G. assert (visiting w = []) as Hv by by apply call_grows in E as [-> _].
  split; [by destruct w; cbn in *; subst|]. apply call_ends_of in E. inversion E as
    [? ? Hk|? ? e _ He _| | |? md deps m Hv1 Hk Hf Hp He]; subst; [by apply elem_of_nil in Hk|by rewrite He in Hc|].
  destruct m as [w2|]; [|done]. match goal with H : Ok _ = Ok _ |- _ => injection H as <- end. cbn [graph].
  refine (each_carries _ (fun s => root_key (graph s) = key_of pkg ver) _ _ _ _ He _); [|done].
  intros d s s' _ Hd Hi. by rewrite (call_root _ _ _ _ _ _ _ _ _ Hd).
Qed.

Lemma first_done d F k : dependencies_first d F -> k ∈ F -> exists n, dget k d = Some n /\ Forall (fun x => dep_key x ∈ F) (dependencies n).
Proof.
  induction 1 as [|F k' n _ IH _ Hn Hd]; [by intros ?%elem_of_nil|]. intros [Hk| ->%list_elem_of_singleton]%elem_of_app.
  - destruct (IH Hk) as (m & Hm & Hf). exists m. split; [done|]. eapply Forall_impl; [exact Hf|]. set_solver.
  - exists n. split; [done|]. eapply Forall_impl; [exact Hd|]. set_solver.
Qed.

(** The graph can be installed: there is an order of exactly its packages,
    the root last, in which each comes after all its dependencies; every node
    is what the registry says of its package, none has two versions, and all
    are reached from the root. *)
Definition installable (fetch : pyval -> pyval -> res string pyctx) (url : string) (pkg ver : pyval) (g : RemoteDependencyGraph) : Prop :=
  root_key g = key_of pkg ver /\
  (exists F, dependencies_first (nodes g) (F ++ [root_key g]) /\ forall k, k ∈ F ++ [root_key g] <-> k ∈ dkeys (nodes g)) /\
  (forall k n, dget k (nodes g) = Some n -> k = node_key n /\ fetched fetch url n) /\
  ForallOrdPairs agree (all_nodes g) /\
  (forall k, k ∈ dkeys (nodes g) -> rtc (depends (nodes g)) (root_key g) k).

Lemma clean_installable fetch url max_depth pkg ver g :
  resolve_dependencies fetch url max_depth true pkg ver = Some (Ok g) -> resolution_errors g = [] -> installable fetch url pkg ver g.
Proof.
  intros H Hc. destruct (resolution_clean _ _ _ _ _ _ H Hc) as (F & [_ Ho Hs _ Hn H1 Hr] & Hroot).
  unfold installable. rewrite Hroot. split_and!; [done| |done..]. exists F. split; [done|]. intros k. rewrite Hs. cbn. set_solver.
Qed.

(** C15: A resolution always answers, strict or not.  The graph it returns can
    be installed when it has no errors and, where cycles are only warned of
    ([strict] is off), no warnings: there is an order of exactly its packages,
    the root last, in which each comes after all its dependencies (so none is
    missing and no two depend on each other); every node is what the registry
    says of its package, none has two versions, and all are reached from the
    root.  A cycle is raised only by a strict resolution, and is one of the
    dependencies that the packages declare.  Nothing is said of the other
    exceptions. *)
Theorem resolution_sound fetch url max_depth strict pkg ver :
  exists m, resolve_dependencies fetch url max_depth strict pkg ver = Some m /\
  match m with
  | Ok g => resolution_errors g = [] -> strict = true \/ resolution_warnings g = [] -> installable fetch url pkg ver g
  | Err (DependencyCycleError c) => strict = true /\ Sorted (declares fetch) c /\ exists l k m, c = l ++ k :: m ++ [k]
  | Err _ => True
  end.
Proof.
  destruct (call_answers fetch url max_depth strict (Z.to_nat max_depth) pkg ver [] true (mkWalk new_graph [])) as [m E]; [cbn; lia|].
  assert (Hm : resolve_dependencies fetch url max_depth strict pkg ver = Some (w ← m; Ok (graph w)))
    by (unfold resolve_dependencies; rewrite E; by destruct m).
  eexists. split; [exact Hm|]. destruct strict, m as [w|e]; cbn.
  - intros Hc _. by eapply clean_installable.
  - apply (call_explained _ _ _ _ pkg ver []) in E; [by destruct e | done | by repeat constructor].
  - intros Hc [?|Hw]; [done|]. apply lenient_call in E as [_ E]. eapply clean_installable; [|done].
    unfold resolve_dependencies. by rewrite E.
  - apply lenient_call in E. destruct e as [c| |]; [by destruct (E c) | done..].
Qed.

(** ** Verified graphs *)

Lemma each_ok_spec {A B} (f : A -> M B) l l' : each_ok f l = Ok l' -> Forall2 (fun x y => f x = Ok y) l l'.
Proof.
  revert l'. induction l as [|x l IH]; intros l'; cbn [each_ok]; [intros [= <-]; constructor|]. intros H.
  apply bind_ok in H as (y & Hy & H). apply bind_ok in H as (ys & Hys & [= <-]). constructor; [done | by apply IH].
Qed.

(** The dependency is within what its parent declares, its sandbox at least
    as strong as its parent's and as the floor. *)
Definition within_bounds (parent child : DependencyGraphNode) (d : RemoteDependencySpec) : Prop :=
  (truthy (expected_publisher_fingerprint d) = true -> py_eq (publisher_fingerprint child) (expected_publisher_fingerprint d) = true) /\
  (truthy (expected_capabilities d) = true ->
     exists cs es, as_list (capabilities child) = Ok cs /\ as_list (expected_capabilities d) = Ok es /\
       forall c, c ∈ cs -> exists e, e ∈ es /\ py_eq e c = true) /\
  strength (sandbox_profile parent) <= strength (sandbox_profile child) /\ 2 <= strength (sandbox_profile child).

Lemma unexpected_none cs es : nonempty (unexpected cs es) = false -> forall c, c ∈ cs -> exists e, e ∈ es /\ py_eq e c = true.
Proof.
  intros H%nonempty_false c Hc. destruct (existsb (fun e => py_eq e c) es) eqn:E.
  - apply existsb_elem in E as (e & He & Heq). by exists e.
  - exfalso. assert (c ∈ unexpected cs es) as Hu by (apply elem_of_lfilter; by rewrite E). rewrite H in Hu. by apply elem_of_nil in Hu.
Qed.

Lemma bounds_hold parent child d cs : verify_dependency_bounds parent child d = Ok cs -> forallb passed cs = true -> within_bounds parent child d.
Proof.
  unfold verify_dependency_bounds. intros H Hp. apply bind_ok in H as (a & Ha & H). apply bind_ok in H as (b & Hb & H).
  apply bind_ok in H as (c & Hc & [= <-]). rewrite !forallb_app in Hp. apply andb_prop in Hp as [Hpa Hp]. apply andb_prop in Hp as [Hpb Hpc].
  unfold within_bounds. split; [|split].
  - intros Ht. unfold check_publisher in Ha. rewrite Ht in Ha. destruct (py_eq _ _); [done|]. exfalso.
    apply bind_ok in Ha as (u & _ & [= <-]). done.
  - intros Ht. unfold check_capabilities in Hb. rewrite Ht in Hb. apply bind_ok in Hb as (x & Hx & Hb). apply bind_ok in Hb as (y & Hy & [= <-]).
    unfold as_set in Hx, Hy. apply bind_ok in Hx as (x1 & Hx & H1). apply bind_ok in H1 as (u & _ & [= <-]).
    apply bind_ok in Hy as (y1 & Hy & H1). apply bind_ok in H1 as (u1 & _ & [= <-]). exists x1, y1. split_and!; [done..|].
    apply unexpected_none. cbn in Hpb. by destruct (nonempty _).
  - unfold check_sandbox, get_strength in Hc. apply bind_ok in Hc as (x & Hx & Hc). apply bind_ok in Hc as (y & Hy & [= <-]).
    apply bind_ok in Hx as (u & _ & [= <-]). apply bind_ok in Hy as (u1 & _ & [= <-]). change (dget_or _ _ _) with 2 in Hpc.
    cbn [forallb passed] in Hpc. apply andb_prop in Hpc as [Hpc _]. apply negb_true_iff, Z.ltb_ge in Hpc. lia.
Qed.

Lemma with_checks_id n : n = with_checks n (verified n) (verification_checks n).
Proof. by destruct n. Qed.

(** What the checks of its dependencies leave of a node. *)
Lemma bound_deps g l : forall n b cs n', fold_left (bound_dependency g) l (Ok (with_checks n b cs)) = Ok n' ->
  exists b' cs', n' = with_checks n b' cs' /\ (b' = true -> b = true /\
    Forall (fun d => forall child, dget (dep_key d) (nodes g) = Some child -> within_bounds n child d) l).
Proof.
  induction l as [|d l IH]; intros n b cs n'; cbn [fold_left].
  - intros [= <-]. by exists b, cs.
  - unfold bound_dependency at 2. cbn [mbind res_bind]. destruct (dget (dep_key d) (nodes g)) as [child|] eqn:Ec.
    + destruct (verify_dependency_bounds (with_checks n b cs) child d) as [xs|e] eqn:Ev.
      * intros H. apply (IH n) in H as (b' & cs' & -> & Hb). exists b', cs'. split; [done|]. intros Ht. destruct (Hb Ht) as [Hb1 Hl].
        apply andb_prop in Hb1 as [Hb1 Hx]. split; [exact Hb1|]. constructor; [|done]. rewrite Ec. intros c [= <-]. by eapply bounds_hold in Ev.
      * intros H. exfalso. assert (forall l, fold_left (bound_dependency g) l (Err e) = Err e) as He.
        { intros l0. induction l0 as [|y l0 IH0]; [done|]. exact IH0. }
        cbn in H. rewrite He in H. done.
    + intros H. apply (IH n) in H as (b' & cs' & -> & Hb). exists b', cs'. split; [done|]. intros Ht. destruct (Hb Ht) as [Hb1 Hl].
      split; [done|]. constructor; [|done]. by rewrite Ec.
Qed.

Definition checked (verify : DependencyGraphNode -> list CheckResult) (n : DependencyGraphNode) : DependencyGraphNode :=
  with_checks n (forallb passed (verify n)) (verify n).

Lemma dget_checked verify g k n : dget k (nodes g) = Some n -> dget k (nodes (verify_dependency_graph verify g)) = Some (checked verify n).
Proof.
  cbn. induction (nodes g) as [|[k' n'] l IH]; [done|]. cbn. destruct (k =s? k'); [by intros [= ->] | exact IH].
Qed.

Lemma verified_nodes verify g g' : verify_bounds (verify_dependency_graph verify g) = Ok g' -> all_verified g' = true ->
  resolution_errors g' = resolution_errors g /\ dkeys (nodes g') = dkeys (nodes g) /\
  forall k n, dget k (nodes g) = Some n -> forallb passed (verify n) = true /\
    Forall (fun d => forall child, dget (dep_key d) (nodes g) = Some child -> within_bounds n child d) (dependencies n).
Proof.
  intros H Hall. apply bind_ok in H as (d & Hd & [= <-]). apply each_ok_spec in Hd. unfold all_verified, all_nodes in Hall. cbn [with_nodes nodes] in Hall.
  assert (forall kn, kn ∈ nodes g -> exists n', (kn.1, n') ∈ d /\ bound_node (verify_dependency_graph verify g) (checked verify kn.2) = Ok n') as Hn.
  { revert Hd. cbn [verify_dependency_graph nodes with_nodes]. generalize (verify_dependency_graph verify g) as g1. clear. intros g1. revert d.
    induction (nodes g) as [|[k n] l IH]; intros d Hd kn Hin; [by apply elem_of_nil in Hin|]. inversion Hd as [|? [k1 n1] ? d1 H1 H2]; subst.
    apply bind_ok in H1 as (n' & Hn' & [= <- <-]). apply elem_of_cons in Hin as [->|Hin].
    - exists n'. split; [by left | exact Hn'].
    - destruct (IH d1 H2 kn Hin) as (n2 & Hi & Hb). exists n2. split; [by right | done]. }
  split; [done|]. split.
  - clear -Hd. cbn [with_nodes nodes]. revert d Hd. cbn [verify_dependency_graph nodes with_nodes]. generalize (verify_dependency_graph verify g) as g1. intros g1.
    induction (nodes g) as [|[k n] l IH]; intros d Hd; inversion Hd as [|? [k1 n1] ? d1 H1 H2]; subst; [done|].
    apply bind_ok in H1 as (n' & Hn' & [= <- <-]). cbn. f_equal. by apply IH.
  - intros k n Hk. destruct (Hn (k, n) (dget_In _ _ _ Hk)) as (n' & Hi & Hb). cbn [fst snd] in *.
    apply bound_deps in Hb as (b & cs & -> & Hb). apply (list_elem_of_fmap_2 snd) in Hi. rewrite forallb_elem in Hall. specialize (Hall _ Hi).
    destruct (Hb Hall) as [Hv Hl]. split; [done|]. eapply Forall_impl; [exact Hl|]. intros x Hx child Hc.
    exact (Hx (checked verify child) (dget_checked verify g _ _ Hc)).
Qed.

Lemma key_truthy pkg ver : str_truthy (key_of pkg ver) = true.
Proof. unfold key_of. destruct (py_str pkg); by rewrite ?append_nil, ?append_cons. Qed.

(** Along dependencies the sandbox gets no weaker. *)
Lemma stronger_down d rk rn k n : dget rk d = Some rn -> rtc (depends d) rk k -> dget k d = Some n ->
  (forall k n, dget k d = Some n -> Forall (fun x => forall child, dget (dep_key x) d = Some child -> within_bounds n child x) (dependencies n)) ->
  strength (sandbox_profile rn) <= strength (sandbox_profile n).
Proof.
  intros Hr Hrtc Hn Hb. revert rn Hr n Hn. induction Hrtc as [k|a b c (m & x & Hm & Hx & <-) Hrest IH]; intros rn Hr n Hn.
  - rewrite Hn in Hr. injection Hr as ->. lia.
  - rewrite Hm in Hr. injection Hr as ->. destruct (dget (dep_key x) d) as [child|] eqn:Ec.
    + pose proof (IH child eq_refl n Hn) as H. specialize (Hb a rn Hm). rewrite Forall_forall in Hb. destruct (Hb x Hx child Ec) as (_ & _ & Hs & _). lia.
    + exfalso. inversion Hrest as [|? y ? (m' & ? & Hm' & _) _]; subst; congruence.
Qed.

(** C16: A receipt without errors that says all is verified covers every
    package: each passed its own verification, every declared dependency is in
    the graph and within the publisher, the capabilities and the sandbox its
    parent allows it, and no package runs in a weaker sandbox than the root. *)
Theorem receipt_covers_graph sha256 fetch url verify uuid locked_at now pkg ver g receipt lockfile :
  resolve_and_verify sha256 fetch url verify uuid locked_at now pkg ver = Some (Ok (g, receipt, lockfile)) ->
  r_all_verified receipt = true -> r_errors receipt = [] ->
  r_graph_digest receipt = graph_digest lockfile /\ r_lockfile_digest receipt = lockfile_compute_digest sha256 lockfile /\
  exists g0 rn, resolve_dependencies fetch url 16 true pkg ver = Some (Ok g0) /\ dkeys (nodes g) = dkeys (nodes g0) /\ root g0 = Some rn /\
  forall k n, dget k (nodes g0) = Some n ->
    forallb passed (verify n) = true /\ strength (sandbox_profile rn) <= strength (sandbox_profile n) /\
    Forall (fun d => exists child, dget (dep_key d) (nodes g0) = Some child /\ within_bounds n child d) (dependencies n).
Proof.
  unfold resolve_and_verify. destruct (resolve_dependencies fetch url 16 true pkg ver) as [m|] eqn:E; [|done]. intros [= H] Hall Herr.
  apply bind_ok in H as (g0 & -> & H). apply bind_ok in H as (g2 & Hg & H). apply bind_ok in H as (l & Hl & H).
  apply bind_ok in H as (dg & Hdg & [= <- <- <-]). cbn [r_all_verified r_errors receipt_finalize] in *.
  destruct (verified_nodes _ _ _ Hg Hall) as (He & Hkeys & Hnodes). rewrite He in Herr.
  destruct (resolution_clean _ _ _ _ _ _ E Herr) as (F & [_ Ho Hs _ _ _ Hr] & Hroot). cbn [graph visiting] in *.
  destruct (first_done _ _ (key_of pkg ver) Ho) as (rn & Hrn & _); [set_solver|].
  assert (graph_digest l = dg /\ lockfile_digest l = lockfile_compute_digest sha256 l) as [H1 H2].
  { unfold from_graph in Hl. apply bind_ok in Hl as (es & _ & Hl). apply bind_ok in Hl as (dg' & Hdg' & Hl). rewrite Hdg in Hdg'. injection Hdg' as <-.
    destruct (root g2); injection Hl as <-; done. }
  split; [done|]. split; [done|]. exists g0, rn. split_and!; [done..| |].
  { unfold root. by rewrite Hroot, key_truthy. }
  intros k n Hk. destruct (Hnodes k n Hk) as [Hv Hb].
  assert (k ∈ dkeys (nodes g0)) as Hin by by apply dget_In, (list_elem_of_fmap_2 fst) in Hk. split_and!; [done| |].
  - eapply stronger_down; [exact Hrn | by apply Hr | exact Hk|]. intros k' n' Hk'. by destruct (Hnodes k' n' Hk').
  - apply Hs in Hin as [Hin|Hin]; [|by apply elem_of_nil in Hin].
    destruct (first_done _ _ k Ho Hin) as (n' & Hn' & Hd). rewrite Hk in Hn'. injection Hn' as <-.
    apply Forall_forall. intros d Hin'. rewrite Forall_forall in Hb, Hd. specialize (Hd d Hin').
    destruct (first_done _ _ _ Ho Hd) as (child & Hc & _). exists child. split; [done | by apply Hb].
Qed.

(** ** Concrete registries *)

Definition demo_dep (pkg ver : string) (more : pyctx) : pyval := VDict ([("package_id", VStr pkg); ("version_constraint", VStr ver)] ++ more).

Definition demo_meta (sandbox : string) (caps : list string) (deps : list pyval) : pyctx :=
  [ ("publisher_fingerprint", VStr "f00d"); ("capabilities", VList (map VStr caps)); ("sandbox_profile", VStr sandbox);
    ("dependencies", VList deps) ].

Definition registry (entries : dict pyctx) (pkg ver : pyval) : res string pyctx :=
  match dget (key_of pkg ver) entries with Some md => Ok md | None => Err "not found" end.

(** Two packages share a third. *)
Definition diamond : dict pyctx :=
  [ ("app@1", demo_meta "standard_untrusted" ["net"]
      [demo_dep "left" "2" [("expected_publisher_fingerprint", VStr "f00d")]; demo_dep "right" "" []]);
    ("left@2", demo_meta "standard_untrusted" [] [demo_dep "base" "1" [("expected_capabilities", VList [VStr "log"; VStr "net"])]]);
    ("right@latest", demo_meta "production_untrusted" [] [demo_dep "base" "1" []]);
    ("base@1", demo_meta "hardened_untrusted" ["log"] []) ].

Definition fingerprinted (n : DependencyGraphNode) : list CheckResult := [mkCheck "publisher_present" (truthy (publisher_fingerprint n))].

Definition demo_resolved := resolve_and_verify id (registry diamond) "https://r" fingerprinted "id" "t1" "t2" (VStr "app") (VStr "1").

Example diamond_order :
  match resolve_dependencies (registry diamond) "https://r" 16 true (VStr "app") (VStr "1") with
  | Some (Ok g) => (dkeys (nodes g), resolution_errors g)
  | _ => ([], [])
  end = (["app@1"; "left@2"; "base@1"; "right@latest"], []).
Proof. vm_compute. reflexivity. Qed.

Example receipt_covers_graph_witness :
  match demo_resolved with
  | Some (Ok (g, receipt, lockfile)) => r_all_verified receipt = true /\ r_errors receipt = []
  | _ => False
  end /\
  exists g0 rn, resolve_dependencies (registry diamond) "https://r" 16 true (VStr "app") (VStr "1") = Some (Ok g0) /\ root g0 = Some rn /\
  forall k n, dget k (nodes g0) = Some n ->
    forallb passed (fingerprinted n) = true /\ strength (sandbox_profile rn) <= strength (sandbox_profile n) /\
    Forall (fun d => exists child, dget (dep_key d) (nodes g0) = Some child /\ within_bounds n child d) (dependencies n).
Proof.
  assert (match demo_resolved with
    | Some (Ok (g, receipt, lockfile)) => r_all_verified receipt = true /\ r_errors receipt = []
    | _ => False end) as H by (vm_compute; split; reflexivity).
  split; [exact H|]. destruct demo_resolved as [[[[g receipt] lockfile]|]|] eqn:E; [|destruct H..]. destruct H as [H1 H2].
  destruct (receipt_covers_graph id (registry diamond) "https://r" fingerprinted "id" "t1" "t2" (VStr "app") (VStr "1") g receipt lockfile E H1 H2)
    as (_ & _ & g0 & rn & Hg & _ & Hr & Hn).
  exists g0, rn. split; [exact Hg|]. split; [exact Hr | exact Hn].
Defined.

(** A cycle behind the root. *)
Example cycle_refused :
  resolve_dependencies (registry [("a@1", demo_meta "" [] [demo_dep "b" "1" []]); ("b@1", demo_meta "" [] [demo_dep "c" "1" []]);
    ("c@1", demo_meta "" [] [demo_dep "b" "1" []])]) "https://r" 16 true (VStr "a") (VStr "1")
  = Some (Err (DependencyCycleError ["a@1"; "b@1"; "c@1"; "b@1"])).
Proof. vm_compute. reflexivity. Qed.

(** An optional package that is missing is an error like any other, and the
    text of a constraint is taken for the version itself. *)
Example optional_missing_is_error :
  match resolve_dependencies (registry [("a@1", demo_meta "" [] [demo_dep "b" ">=1.0.0" [("required", VBool false)]]);
    ("b@1.0.0", demo_meta "" [] [])]) "https://r" 16 true (VStr "a") (VStr "1") with
  | Some (Ok g) => (resolution_errors g, resolution_warnings g)
  | _ => ([], [])
  end = ([FetchFailed "b@>=1.0.0" "not found"], []).
Proof. vm_compute. reflexivity. Qed.

(** All is verified although the root could not be fetched: the verification
    writes over the failed check, and the receipt counts the errors apart. *)
Example verified_with_errors :
  match resolve_and_verify id (registry [("a@1", demo_meta "standard_untrusted" [] [demo_dep "b" "1" []])]) "https://r" (fun _ => [])
    "id" "t1" "t2" (VStr "a") (VStr "2") with
  | Some (Ok (g, receipt, _)) => (r_all_verified receipt, r_errors receipt)
  | _ => (false, [])
  end = (true, [FetchFailed "a@2" "not found"]).
Proof. vm_compute. reflexivity. Qed.

(** Two packages whose keys are the same text: the second is never fetched. *)
Example keys_collide :
  match resolve_dependencies (registry [("a@1", demo_meta "" [] [demo_dep "x@1" "2" []; demo_dep "x" "1@2" []]);
    ("x@1@2", demo_meta "" [] [])]) "https://r" 16 true (VStr "a") (VStr "1") with
  | Some (Ok g) => (dkeys (nodes g), resolution_errors g)
  | _ => ([], [])
  end = (["a@1"; "x@1@2"], []).
Proof. vm_compute. reflexivity. Qed.
