(* ===== verification/RegistryServer.v ===== *)
(** * The reference registry server

    [sdk/reference_registry_server.py]: the registry's state file, its package
    records and publishers, and the publication, deprecation and revocation of
    packages.  The state is the file's content, [None] where there is none
    yet; an operation that raises leaves it as it was.  SHA-256 and the
    readings of the clock within an operation are arguments. *)
From S2P Require Import Prelude PyFloat PyValue Json.

Definition PROTOCOL_VERSION : string := "v1".
Definition MAX_ARTIFACT_SIZE : Z := 50 * 1024 * 1024.

Definition LIFECYCLE_ACTIVE : string := "active".
Definition LIFECYCLE_DEPRECATED : string := "deprecated".
Definition LIFECYCLE_REVOKED : string := "revoked".

(** ** Publishers *)

Record PublisherAuthorization := mkAuth {
  publisher_id : string;
  publisher_fingerprint : string;
  approved_packages : list string;
  approved_at : string;
}.

Definition can_publish (a : PublisherAuthorization) (package_id : string) : bool :=
  if nonempty (approved_packages a) then mem package_id (approved_packages a) else true.

(** ** Packages *)

Record ImmutablePackageRecord := mkPackage {
  package_id : string;
  version : string;
  artifact_digest : string;
  artifact_size : Z;
  manifest_digest : string;
  certification_digest : string;
  p_publisher_fingerprint : string;
  p_publisher_id : string;
  capabilities : list string;
  sandbox_profile : string;
  description : string;
  p_nodes : list string;
  lifecycle : string;
  published_at : string;
  deprecated_at : string;
  revoked_at : string;
  revocation_reason : string;
}.

Definition immutable_identity_fields (r : ImmutablePackageRecord) : dict string :=
  [ ("package_id", package_id r); ("version", version r); ("artifact_digest", artifact_digest r);
    ("manifest_digest", manifest_digest r); ("publisher_fingerprint", p_publisher_fingerprint r);
    ("publisher_id", p_publisher_id r); ("certification_digest", certification_digest r);
    ("sandbox_profile", sandbox_profile r) ].

Definition same_identity (a b : ImmutablePackageRecord) : bool :=
  bool_decide (immutable_identity_fields a = immutable_identity_fields b).

Definition with_lifecycle (r : ImmutablePackageRecord) (l deprecated revoked reason : string) : ImmutablePackageRecord :=
  mkPackage (package_id r) (version r) (artifact_digest r) (artifact_size r) (manifest_digest r) (certification_digest r)
    (p_publisher_fingerprint r) (p_publisher_id r) (capabilities r) (sandbox_profile r) (description r) (p_nodes r) l
    (published_at r) deprecated revoked reason.

Definition published_now (r : ImmutablePackageRecord) (now : string) : ImmutablePackageRecord :=
  mkPackage (package_id r) (version r) (artifact_digest r) (artifact_size r) (manifest_digest r) (certification_digest r)
    (p_publisher_fingerprint r) (p_publisher_id r) (capabilities r) (sandbox_profile r) (description r) (p_nodes r) (lifecycle r)
    now (deprecated_at r) (revoked_at r) (revocation_reason r).

(** ** The state file *)

Record RegistryData := mkData {
  registry_id : string;
  registry_signer_fingerprint : string;
  generation : Z;
  publishers : dict PublisherAuthorization;
  packages : dict ImmutablePackageRecord;
  created_at : string;
}.

Inductive registry_error :=
| PublishError
| UnauthorizedPublisherError
| PackageConflictError
| PackageRevokedError
| PackageNotFound
| UnauthorizedRotationError
| TerminalPackageError
| InvalidTransitionError
| LifecycleError.

Definition R : Type -> Type := res registry_error.

(** [_load] *)
Definition load (now : string) (s : option RegistryData) : RegistryData :=
  match s with Some d => d | None => mkData "" "" 0 [] [] now end.

(** [_save]: the file has the keys of its objects in order. *)
Definition save (d : RegistryData) : option RegistryData :=
  Some (mkData (registry_id d) (registry_signer_fingerprint d) (generation d) (py_sorted key_leb (publishers d))
    (py_sorted key_leb (packages d)) (created_at d)).

Definition with_packages (d : RegistryData) (g : Z) (ps : dict ImmutablePackageRecord) : RegistryData :=
  mkData (registry_id d) (registry_signer_fingerprint d) g (publishers d) ps (created_at d).

Definition with_publishers (d : RegistryData) (ps : dict PublisherAuthorization) : RegistryData :=
  mkData (registry_id d) (registry_signer_fingerprint d) (generation d) ps (packages d) (created_at d).

Definition get_registry_id (s : option RegistryData) : string := registry_id (load "" s).
Definition get_generation (s : option RegistryData) : Z := generation (load "" s).
Definition get_signer_fingerprint (s : option RegistryData) : string := registry_signer_fingerprint (load "" s).

Definition set_registry_identity (now id signer : string) (s : option RegistryData) : option RegistryData :=
  let d := load now s in save (mkData id signer (generation d) (publishers d) (packages d) (created_at d)).

(** [approve_publisher]; the clock is read for a new file and for the approval. *)
Definition approve_publisher (t0 t1 id fingerprint : string) (approved : list string) (s : option RegistryData) : option RegistryData :=
  let d := load t0 s in
  save (with_publishers d (dset fingerprint (mkAuth id fingerprint approved t1) (publishers d))).

Definition is_publisher_authorized (fingerprint pkg : string) (s : option RegistryData) : bool :=
  match dget fingerprint (publishers (load "" s)) with
  | Some a => can_publish a pkg
  | None => false
  end.

Definition pkg_key (pkg ver : string) : string := pkg +:+ ":" +:+ ver.

Definition get_package (pkg ver : string) (s : option RegistryData) : option ImmutablePackageRecord :=
  dget (pkg_key pkg ver) (packages (load "" s)).

Definition list_packages (s : option RegistryData) : list ImmutablePackageRecord := map snd (packages (load "" s)).

Definition check_identity_conflict (pkg ver : string) (proposed : ImmutablePackageRecord) (s : option RegistryData) : bool :=
  match get_package pkg ver s with
  | None => false
  | Some existing => negb (same_identity existing proposed)
  end.

(** [publish_package]: the new state and the generation. *)
Definition publish_package (t0 t1 : string) (r : ImmutablePackageRecord) (s : option RegistryData) : R (option RegistryData * Z) :=
  let d := load t0 s in
  let key := pkg_key (package_id r) (version r) in
  match dget key (packages d) with
  | Some existing => if negb (same_identity existing r) then Err PackageConflictError else Ok (s, generation d)
  | None =>
      let d := with_packages d (generation d + 1) (dset key (published_now r t1) (packages d)) in
      Ok (save d, generation d)
  end.

Definition revoke_package (now pkg ver reason : string) (s : option RegistryData) : R (option RegistryData * Z) :=
  let d := load now s in
  let key := pkg_key pkg ver in
  match dget key (packages d) with
  | None => Err PackageNotFound
  | Some r =>
      if lifecycle r =? LIFECYCLE_REVOKED then Ok (s, generation d)
      else
        let d := with_packages d (generation d + 1)
          (dset key (with_lifecycle r LIFECYCLE_REVOKED (deprecated_at r) now reason) (packages d)) in
        Ok (save d, generation d)
  end%string.

Definition deprecate_package (now pkg ver : string) (s : option RegistryData) : R (option RegistryData * Z) :=
  let d := load now s in
  let key := pkg_key pkg ver in
  match dget key (packages d) with
  | None => Err PackageNotFound
  | Some r =>
      if lifecycle r =? LIFECYCLE_REVOKED then Err PackageRevokedError
      else if lifecycle r =? LIFECYCLE_DEPRECATED then Ok (s, generation d)
      else
        let d := with_packages d (generation d + 1)
          (dset key (with_lifecycle r LIFECYCLE_DEPRECATED now (revoked_at r) (revocation_reason r)) (packages d)) in
        Ok (save d, generation d)
  end%string.

(** ** The server *)

Section Server.
Context (sha256 : string -> string).

Definition sha256_dict (d : pyctx) : string := sha256 (json_text (mkJsonOptions "" "" true true true) (VDict d)).

Definition text_fields (d : dict string) : pyctx := map (fun kv => (fst kv, VStr (snd kv))) d.

Definition compute_package_index_digest (s : option RegistryData) : string :=
  let active := List.filter (fun p => negb (lifecycle p =s? LIFECYCLE_REVOKED)) (list_packages s) in
  sha256_dict [("packages", VList (map VStr (sort_str
    (map (fun p => json_text sorted_options (VDict (text_fields (immutable_identity_fields p)))) active))))].

(** What [publish] is called with. *)
Record Publication := mkPublication {
  a_package_id : string;
  a_version : string;
  artifact_bytes : string;
  a_manifest_digest : string;
  a_certification_digest : string;
  a_publisher_fingerprint : string;
  a_publisher_id : string;
  a_capabilities : list string;
  a_sandbox_profile : string;
  a_description : string;
  a_nodes : list string;
}.

Definition record_of (a : Publication) : ImmutablePackageRecord :=
  mkPackage (a_package_id a) (a_version a) (sha256 (artifact_bytes a)) (Z.of_nat (String.length (artifact_bytes a)))
    (a_manifest_digest a) (a_certification_digest a) (a_publisher_fingerprint a) (a_publisher_id a)
    (if nonempty (a_capabilities a) then a_capabilities a else ["read_only"]) (a_sandbox_profile a) (a_description a) (a_nodes a)
    LIFECYCLE_ACTIVE "" "" "" "".

Record PublicationReceipt := mkReceipt {
  receipt_id : string;
  rc_package_id : string;
  rc_version : string;
  rc_artifact_digest : string;
  rc_publisher_fingerprint : string;
  rc_registry_id : string;
  rc_generation : Z;
  rc_published_at : string;
  rc_signer_fingerprint : string;
  receipt_digest : string;
}.

Definition publication_receipt (now : string) (a : Publication) (generation : Z) (s : option RegistryData) : PublicationReceipt :=
  let digest := sha256 (artifact_bytes a) in
  let id := String.substring 0 32 (sha256 (a_package_id a +:+ ":" +:+ a_version a +:+ ":" +:+ digest +:+ ":" +:+ str_int generation)) in
  mkReceipt id (a_package_id a) (a_version a) digest (a_publisher_fingerprint a) (get_registry_id s) generation now
    (get_signer_fingerprint s)
    (sha256_dict [ ("receipt_id", VStr id); ("package_id", VStr (a_package_id a)); ("version", VStr (a_version a));
      ("artifact_digest", VStr digest); ("publisher_fingerprint", VStr (a_publisher_fingerprint a));
      ("registry_id", VStr (get_registry_id s)); ("generation", VInt generation); ("published_at", VStr now) ]).

(** The artifact directory, by digest. *)
Definition store_artifact (digest bytes : string) (artifacts : dict string) : dict string :=
  if dmem digest artifacts then artifacts else dset digest bytes artifacts.

Record Server := mkServer { state : option RegistryData; artifacts : dict string }.

Definition publish (t0 t1 t2 : string) (a : Publication) (w : Server) : R (Server * PublicationReceipt) :=
  if MAX_ARTIFACT_SIZE <? Z.of_nat (String.length (artifact_bytes a)) then Err PublishError
  else if negb (is_publisher_authorized (a_publisher_fingerprint a) (a_package_id a) (state w)) then Err UnauthorizedPublisherError
  else if match get_package (a_package_id a) (a_version a) (state w) with
          | Some r => lifecycle r =s? LIFECYCLE_REVOKED
          | None => false
          end then Err PackageRevokedError
  else if check_identity_conflict (a_package_id a) (a_version a) (record_of a) (state w) then Err PackageConflictError
  else
    let stored := store_artifact (sha256 (artifact_bytes a)) (artifact_bytes a) (artifacts w) in
    '(s, g) ← publish_package t0 t1 (record_of a) (state w);
    mret (mkServer s stored, publication_receipt t2 a g s).

(** [get_signed_metadata], issued at [now] and expiring at [later]. *)
Definition get_signed_metadata (now later : string) (s : option RegistryData) : pyctx :=
  let metadata :=
    [ ("registry_id", VStr (get_registry_id s)); ("protocol_version", VStr PROTOCOL_VERSION);
      ("signer_fingerprint", VStr (get_signer_fingerprint s)); ("registry_name", VStr "NodeChain Reference Registry");
      ("issued_at", VStr now); ("expires_at", VStr later); ("generation", VInt (get_generation s));
      ("package_index_digest", VStr (compute_package_index_digest s)); ("packages_base_url", VStr "");
      ("active_package_count", VInt (Z.of_nat (length (List.filter (fun p => lifecycle p =s? LIFECYCLE_ACTIVE) (list_packages s)))));
      ("total_package_count", VInt (Z.of_nat (length (list_packages s)))) ] in
  let digest := sha256_dict metadata in
  metadata ++ [("metadata_digest", VStr digest); ("signature", VStr digest)].
End Server.
