(* ===== verification/RegistryLifecycle.v ===== *)
(** * The governance of a registry

    [sdk/registry_lifecycle.py]: the transition log and the governor that
    authorizes, applies and records the transitions of a registry.  The log is
    the content of its file, [None] where there is none; the sequence counter
    is the governor's own. *)
From S2P Require Import Prelude PyFloat PyValue Json RegistryServer.

Definition TRANSITION_PUBLISH : string := "publish".
Definition TRANSITION_REVOKE : string := "revoke".
Definition TRANSITION_DEPRECATE : string := "deprecate".
Definition TRANSITION_SIGNER_ROTATION : string := "signer_rotation".
Definition TRANSITION_PUBLISHER_ADD : string := "publisher_add".
Definition TRANSITION_PUBLISHER_REVOKE : string := "publisher_revoke".

Definition LIFECYCLE_TRANSITIONS : dict (list string) :=
  [("active", ["deprecated"; "revoked"]); ("deprecated", ["revoked"]); ("revoked", [])].

(** ** The log *)

Record LifecycleTransition := mkTransition {
  sequence : Z;
  transition_type : string;
  t_registry_id : string;
  authorized_by : string;
  generation_before : Z;
  generation_after : Z;
  target_package_id : string;
  target_version : string;
  details : pyctx;
  transition_digest : string;
  timestamp : string;
}.

Record KeyContinuityRecord := mkContinuity {
  k_registry_id : string;
  old_signer_fingerprint : string;
  new_signer_fingerprint : string;
  rotation_generation : Z;
  k_authorized_by : string;
  rotated_at : string;
}.

Record LogData := mkLog { l_registry_id : string; transitions : list LifecycleTransition; key_continuity : list KeyContinuityRecord }.

Definition load_log (l : option LogData) : LogData := match l with Some d => d | None => mkLog "" [] [] end.

(** What is read back of a transition: its details in the order of the file. *)
Definition as_written (t : LifecycleTransition) : LifecycleTransition :=
  mkTransition (sequence t) (transition_type t) (t_registry_id t) (authorized_by t) (generation_before t) (generation_after t)
    (target_package_id t) (target_version t)
    (match json_value sorted_options (VDict (details t)) with VDict d => d | _ => [] end) (transition_digest t) (timestamp t).

Definition save_log (d : LogData) : option LogData := Some (mkLog (l_registry_id d) (map as_written (transitions d)) (key_continuity d)).

Definition set_log_registry_id (id : string) (l : option LogData) : option LogData :=
  let d := load_log l in save_log (mkLog id (transitions d) (key_continuity d)).

Definition append_transition (t : LifecycleTransition) (l : option LogData) : option LogData :=
  let d := load_log l in save_log (mkLog (l_registry_id d) (transitions d ++ [t]) (key_continuity d)).

Definition append_key_continuity (k : KeyContinuityRecord) (l : option LogData) : option LogData :=
  let d := load_log l in save_log (mkLog (l_registry_id d) (transitions d) (key_continuity d ++ [k])).

Definition get_transitions (l : option LogData) : list LifecycleTransition := transitions (load_log l).
Definition get_key_continuity (l : option LogData) : list KeyContinuityRecord := key_continuity (load_log l).

Section Governance.
Context (sha256 : string -> string).

(** The fields of a transition without its digest. *)
Definition transition_dict (t : LifecycleTransition) : pyctx :=
  [ ("sequence", VInt (sequence t)); ("transition_type", VStr (transition_type t)); ("registry_id", VStr (t_registry_id t));
    ("authorized_by", VStr (authorized_by t)); ("generation_before", VInt (generation_before t));
    ("generation_after", VInt (generation_after t)); ("target_package_id", VStr (target_package_id t));
    ("target_version", VStr (target_version t)); ("details", VDict (details t)); ("timestamp", VStr (timestamp t)) ].

Definition compute_digest (t : LifecycleTransition) : string := sha256_dict sha256 (transition_dict t).

(** The loop of [verify_integrity], from index [i], behind [before]. *)
Fixpoint verify_from (i : Z) (before : option LifecycleTransition) (l : list LifecycleTransition) : bool :=
  match l with
  | [] => true
  | t :: l =>
      if negb (sequence t =? i + 1) then false
      else if negb (transition_digest t =s? compute_digest t)%string then false
      else if match before with Some b => negb (generation_before t =? generation_after b) | None => false end then false
      else verify_from (i + 1) (Some t) l
  end.

Definition verify_integrity (l : option LogData) : bool := verify_from 0 None (get_transitions l).

(** ** Receipts *)

Record LifecycleReceipt := mkLifecycleReceipt {
  lr_receipt_id : string;
  lr_transition_type : string;
  lr_registry_id : string;
  lr_generation : Z;
  lr_authorized_by : string;
  lr_timestamp : string;
  lr_receipt_digest : string;
  lr_signature : string;
}.

Definition make_receipt (t : LifecycleTransition) : LifecycleReceipt :=
  let id := String.substring 0 32 (sha256 (transition_type t +:+ ":" +:+ str_int (sequence t) +:+ ":" +:+ timestamp t)) in
  mkLifecycleReceipt id (transition_type t) (t_registry_id t) (generation_after t) (authorized_by t) (timestamp t)
    (sha256_dict sha256 [ ("receipt_id", VStr id); ("transition_type", VStr (transition_type t)); ("registry_id", VStr (t_registry_id t));
      ("generation", VInt (generation_after t)); ("authorized_by", VStr (authorized_by t)); ("timestamp", VStr (timestamp t)) ]) "".

(** ** The governor *)

Record World := mkWorld { w_state : option RegistryData; w_log : option LogData; w_sequence : Z }.

(** [_make_transition]: counted, digested and logged. *)
Definition make_transition (now type by_ : string) (before after : Z) (pkg ver : string) (ds : pyctx) (w : World) :
    World * LifecycleReceipt :=
  let t := mkTransition (w_sequence w + 1) type (get_registry_id (w_state w)) by_ before after pkg ver ds "" now in
  let t := mkTransition (sequence t) type (t_registry_id t) by_ before after pkg ver ds (compute_digest t) now in
  (mkWorld (w_state w) (append_transition t (w_log w)) (w_sequence w + 1), make_receipt t).

Definition allowed (from to : string) : bool := mem to (dget_or from [] LIFECYCLE_TRANSITIONS).

Definition validate_transition (from to : string) : R unit := guard_err (allowed from to) InvalidTransitionError.

Definition with_state (w : World) (s : option RegistryData) : World := mkWorld s (w_log w) (w_sequence w).

Definition govern_publish (now pkg ver digest publisher by_ : string) (w : World) : R (World * LifecycleReceipt) :=
  let before := get_generation (w_state w) in
  Ok (make_transition now TRANSITION_PUBLISH (if str_truthy by_ then by_ else publisher) before (before + 1) pkg ver
    [("artifact_digest", VStr digest); ("publisher_fingerprint", VStr publisher)] w).

Definition govern_revoke (t0 t1 pkg ver reason by_ : string) (w : World) : R (World * LifecycleReceipt) :=
  if negb (by_ =s? get_signer_fingerprint (w_state w))%string then Err UnauthorizedRotationError
  else
    match get_package pkg ver (w_state w) with
    | None => Err PackageNotFound
    | Some r =>
        if (lifecycle r =s? LIFECYCLE_REVOKED)%string then Err TerminalPackageError
        else
          _ ← validate_transition (lifecycle r) LIFECYCLE_REVOKED;
          '(s, after) ← revoke_package t0 pkg ver reason (w_state w);
          mret (make_transition t1 TRANSITION_REVOKE by_ (get_generation (w_state w)) after pkg ver
            [("reason", VStr reason); ("from_lifecycle", VStr (lifecycle r))] (with_state w s))
    end.

Definition govern_deprecate (t0 t1 pkg ver by_ : string) (w : World) : R (World * LifecycleReceipt) :=
  if negb (by_ =s? get_signer_fingerprint (w_state w))%string then Err UnauthorizedRotationError
  else
    match get_package pkg ver (w_state w) with
    | None => Err PackageNotFound
    | Some r =>
        if (lifecycle r =s? LIFECYCLE_REVOKED)%string then Err TerminalPackageError
        else
          _ ← validate_transition (lifecycle r) LIFECYCLE_DEPRECATED;
          '(s, after) ← deprecate_package t0 pkg ver (w_state w);
          mret (make_transition t1 TRANSITION_DEPRECATE by_ (get_generation (w_state w)) after pkg ver
            [("from_lifecycle", VStr (lifecycle r))] (with_state w s))
    end.

(** The second save of a rotation: what was loaded, with the generation. *)
Definition rotated (d : RegistryData) (after : Z) : option RegistryData := save (with_packages d after (packages d)).

Definition govern_signer_rotation (t0 t1 t2 new_signer by_ : string) (w : World) : R (World * LifecycleReceipt) :=
  let current := get_signer_fingerprint (w_state w) in
  if negb (by_ =s? current)%string then Err UnauthorizedRotationError
  else if (new_signer =s? current)%string then Err LifecycleError
  else
    let id := get_registry_id (w_state w) in
    let before := get_generation (w_state w) in
    let s := set_registry_identity t0 id new_signer (w_state w) in
    let after := before + 1 in
    let s := rotated (load t0 s) after in
    let l := append_key_continuity (mkContinuity id current new_signer after by_ t1) (w_log w) in
    Ok (make_transition t2 TRANSITION_SIGNER_ROTATION by_ before after "" ""
      [("old_signer_fingerprint", VStr current); ("new_signer_fingerprint", VStr new_signer)] (mkWorld s l (w_sequence w))).

Definition govern_publisher_add (t0 t1 t2 id fingerprint : string) (approved : list string) (by_ : string) (w : World) :
    R (World * LifecycleReceipt) :=
  if negb (by_ =s? get_signer_fingerprint (w_state w))%string then Err UnauthorizedRotationError
  else
    let before := get_generation (w_state w) in
    let s := approve_publisher t0 t1 id fingerprint approved (w_state w) in
    Ok (make_transition t2 TRANSITION_PUBLISHER_ADD by_ before before "" ""
      [ ("publisher_id", VStr id); ("publisher_fingerprint", VStr fingerprint); ("approved_packages", VList (map VStr approved)) ]
      (with_state w s)).

Definition drop_publisher (now fingerprint : string) (s : option RegistryData) : option RegistryData :=
  let d := load now s in
  if dmem fingerprint (publishers d)
  then save (with_publishers d (List.filter (fun kv => negb (fst kv =s? fingerprint)%string) (publishers d)))
  else s.

Definition govern_publisher_revoke (t0 t1 fingerprint by_ : string) (w : World) : R (World * LifecycleReceipt) :=
  if negb (by_ =s? get_signer_fingerprint (w_state w))%string then Err UnauthorizedRotationError
  else
    let before := get_generation (w_state w) in
    Ok (make_transition t1 TRANSITION_PUBLISHER_REVOKE by_ before before "" ""
      [("publisher_fingerprint", VStr fingerprint); ("packages_preserved", VBool true)]
      (with_state w (drop_publisher t0 fingerprint (w_state w)))).
End Governance.
