(* ===== verification/RegistrySound.v ===== *)
(** * What a registry keeps

    Any sequence of operations on a registry, direct and governed: packages
    keep their identity, lifecycles only advance, the generation tells of
    every change; publications are decided as documented; the log of a
    governor verifies and its keys form a chain. *)
From S2P Require Import Prelude PyFloat PyValue Json RegistryServer RegistryLifecycle.

(** ** The state file *)

(** The packages, the generation and the names do not depend on the clock. *)
Notation packages_of s := (packages (load "" s)).
Notation known r := (lifecycle r ∈ [LIFECYCLE_ACTIVE; LIFECYCLE_DEPRECATED; LIFECYCLE_REVOKED]).

Lemma packages_load now s : packages (load now s) = packages_of s.
Proof. by destruct s. Qed.
Lemma generation_load now s : generation (load now s) = get_generation s.
Proof. by destruct s. Qed.
Lemma signer_load now s : registry_signer_fingerprint (load now s) = get_signer_fingerprint s.
Proof. by destruct s. Qed.

Lemma dget_dset_eqb {A} k k' (v : A) d : dget k (dset k' v d) = if (k =s? k')%string then Some v else dget k d.
Proof. destruct (String.eqb_spec k k') as [->|H]; [by rewrite dget_dset_same | by rewrite dget_dset_other]. Qed.

(** ** Packages grow older *)

(** What later operations may do to a package. *)
Definition ages (r r' : ImmutablePackageRecord) : Prop :=
  immutable_identity_fields r' = immutable_identity_fields r /\ published_at r' = published_at r /\
  rtc (fun a b => allowed a b = true) (lifecycle r) (lifecycle r') /\ (lifecycle r = LIFECYCLE_REVOKED -> r' = r).

(** The state of a registry over time. *)
Record evolves (s s' : option RegistryData) : Prop := {
  evolves_packages : forall key r, dget key (packages_of s) = Some r -> exists r', dget key (packages_of s') = Some r' /\ ages r r';
  evolves_known : (forall key r, dget key (packages_of s) = Some r -> known r) -> forall key r, dget key (packages_of s') = Some r -> known r;
  evolves_generation : get_generation s <= get_generation s';
  evolves_counted : get_generation s' = get_generation s -> forall key, dget key (packages_of s') = dget key (packages_of s);
}.

Definition well_formed (s : option RegistryData) : Prop := forall key r, dget key (packages_of s) = Some r -> known r.

Lemma ages_refl r : ages r r.
Proof. split_and!; [done|done|apply rtc_refl|done]. Qed.

Lemma ages_trans a b c : ages a b -> ages b c -> ages a c.
Proof.
  intros (H1 & H2 & H3 & H4) (K1 & K2 & K3 & K4). split_and!; [by rewrite K1|by rewrite K2|by etransitivity|].
  intros Hr. rewrite (H4 Hr) in *. by apply K4.
Qed.

Lemma registry_evolves_refl s : evolves s s.
Proof. split; [|done|lia|done]. intros key r H. exists r. split; [done | apply ages_refl]. Qed.

Lemma registry_evolves_trans a b c : evolves a b -> evolves b c -> evolves a c.
Proof.
  intros [H1 H2 H3 H4] [K1 K2 K3 K4]. split; [|intros Hw; exact (K2 (H2 Hw))|lia|].
  - intros key r Hr. destruct (H1 key r Hr) as (r1 & Hr1 & Ha). destruct (K1 key r1 Hr1) as (r2 & Hr2 & Hb).
    exists r2. split; [done | by eapply ages_trans].
  - intros Hg key. rewrite K4, H4 by lia. done.
Qed.

(** A new state that differs in one package. *)
Lemma evolves_set s d key r' : generation d = get_generation s + 1 ->
  packages d = dset key r' (packages_of s) -> known r' -> (forall r, dget key (packages_of s) = Some r -> ages r r') -> evolves s (save d).
Proof.
  intros Hg Hp Hk Ha. split; cbn; rewrite ?Hp, ?Hg; unfold get_generation; cbn; rewrite ?Hg; try done.
  - intros k r Hr. rewrite dget_sorted, dget_dset_eqb. destruct (String.eqb_spec k key) as [->|]; [exists r'; auto|].
    exists r. split; [done | apply ages_refl].
  - intros Hw k r. rewrite dget_sorted, dget_dset_eqb. destruct (k =s? key)%string; [by intros [= <-] | apply Hw].
  - unfold get_generation. lia.
  - unfold get_generation. lia.
Qed.

(** A new state with the same packages. *)
Lemma evolves_same s d : get_generation s <= generation d ->
  packages d = packages_of s -> evolves s (save d).
Proof.
  intros Hg Hp. split; cbn; rewrite ?Hp; unfold get_generation in *; cbn; try done.
  - intros k r Hr. exists r. rewrite dget_sorted. split; [done | apply ages_refl].
  - intros Hw k r. rewrite dget_sorted. apply Hw.
  - intros _ k. by rewrite dget_sorted.
Qed.

(** ** The operations *)

Lemma publish_evolves t0 t1 r s s' g : publish_package t0 t1 r s = Ok (s', g) -> known r -> evolves s s' /\ g = get_generation s'.
Proof.
  unfold publish_package. rewrite packages_load. destruct (dget _ _) as [e|] eqn:E.
  - destruct (negb _); [done|]. intros [= <- <-] _. rewrite generation_load. split; [apply registry_evolves_refl | done].
  - intros [= <- <-] Hk. rewrite generation_load. split; [|done].
    refine (evolves_set _ _ (pkg_key (package_id r) (version r)) (published_now r t1) _ _ _ _); cbn; [done..|].
    intros r0 Hr. rewrite Hr in E. done.
Qed.

Lemma allowed_steps r l : known r -> lifecycle r <> LIFECYCLE_REVOKED -> l ∈ [LIFECYCLE_DEPRECATED; LIFECYCLE_REVOKED] ->
  (l = LIFECYCLE_DEPRECATED -> lifecycle r <> LIFECYCLE_DEPRECATED) -> allowed (lifecycle r) l = true.
Proof.
  rewrite !elem_of_cons, !elem_of_nil. intros [H|[H|[H|[]]]] Hn [->|[->|[]]] Hd; rewrite H in *; try done. by destruct Hd.
Qed.

Lemma revoke_evolves now pkg ver reason s s' g : revoke_package now pkg ver reason s = Ok (s', g) -> well_formed s ->
  evolves s s' /\ g = get_generation s'.
Proof.
  unfold revoke_package. rewrite packages_load. destruct (dget _ _) as [r|] eqn:E; [|done]. intros H Hw. revert H.
  destruct (String.eqb_spec (lifecycle r) LIFECYCLE_REVOKED) as [Hr|Hr]; intros [= <- <-]; rewrite generation_load; (split; [|done]); [apply registry_evolves_refl|].
  refine (evolves_set _ _ (pkg_key pkg ver) (with_lifecycle r LIFECYCLE_REVOKED (deprecated_at r) now reason) _ _ _ _);
    cbn; [done|done|set_solver|].
  intros r0 Hr0. rewrite E in Hr0. injection Hr0 as <-. split_and!; [done|done| |done]. apply rtc_once, allowed_steps; [by eapply Hw|done|set_solver|done].
Qed.

Lemma deprecate_evolves now pkg ver s s' g : deprecate_package now pkg ver s = Ok (s', g) -> well_formed s ->
  evolves s s' /\ g = get_generation s'.
Proof.
  unfold deprecate_package. rewrite packages_load. destruct (dget _ _) as [r|] eqn:E; [|done]. intros H Hw. revert H.
  destruct (String.eqb_spec (lifecycle r) LIFECYCLE_REVOKED) as [Hr|Hr]; [done|].
  destruct (String.eqb_spec (lifecycle r) LIFECYCLE_DEPRECATED) as [Hd|Hd]; intros [= <- <-]; rewrite generation_load; (split; [|done]); [apply registry_evolves_refl|].
  refine (evolves_set _ _ (pkg_key pkg ver) (with_lifecycle r LIFECYCLE_DEPRECATED now (revoked_at r) (revocation_reason r)) _ _ _ _);
    cbn; [done|done|set_solver|].
  intros r0 Hr0. rewrite E in Hr0. injection Hr0 as <-. split_and!; [done|done| |done]. apply rtc_once, allowed_steps; [by eapply Hw|done|set_solver|done].
Qed.

Lemma approve_evolves t0 t1 id fp approved s : evolves s (approve_publisher t0 t1 id fp approved s).
Proof. apply evolves_same; cbn; rewrite ?generation_load, ?packages_load; done || lia. Qed.

Lemma drop_evolves now fp s : evolves s (drop_publisher now fp s).
Proof.
  unfold drop_publisher. destruct (dmem _ _); [|apply registry_evolves_refl].
  apply evolves_same; cbn; rewrite ?generation_load, ?packages_load; done || lia.
Qed.

Lemma rotate_evolves t0 signer s : evolves s (rotated (load t0 (set_registry_identity t0 (get_registry_id s) signer s)) (get_generation s + 1)).
Proof.
  eapply registry_evolves_trans; [apply (evolves_same s (mkData (get_registry_id s) signer (generation (load t0 s)) (publishers (load t0 s))
    (packages (load t0 s)) (created_at (load t0 s)))); cbn; rewrite ?generation_load, ?packages_load; done || lia|].
  apply evolves_same; cbn; [|done]. unfold get_generation. cbn. rewrite (generation_load t0 s). unfold get_generation. lia.
Qed.

(** ** Any sequence of operations *)

Record Registry := mkRegistry { world : World; r_artifacts : dict string }.

Inductive op :=
| SetIdentity (now id signer : string)
| PublishRecord (t0 t1 : string) (p : ImmutablePackageRecord)
| Publish (t0 t1 t2 : string) (a : Publication)
| Revoke (now pkg ver reason : string)
| Deprecate (now pkg ver : string)
| Approve (t0 t1 id fingerprint : string) (approved : list string)
| GovernPublish (now pkg ver digest publisher by_ : string)
| GovernRevoke (t0 t1 pkg ver reason by_ : string)
| GovernDeprecate (t0 t1 pkg ver by_ : string)
| GovernRotation (t0 t1 t2 signer by_ : string)
| GovernPublisherAdd (t0 t1 t2 id fingerprint : string) (approved : list string) (by_ : string)
| GovernPublisherRevoke (t0 t1 fingerprint by_ : string)
| Restart.

Section Runs.
Context (sha256 : string -> string).

Definition or_same {A} (x : A) (r : R A) : A := match r with Ok y => y | Err _ => x end.

Definition on_state (r : Registry) (m : R (option RegistryData * Z)) : Registry :=
  mkRegistry (with_state (world r) (or_same (w_state (world r)) (fst <$> m))) (r_artifacts r).

Definition on_world (r : Registry) (m : R (World * LifecycleReceipt)) : Registry :=
  mkRegistry (or_same (world r) (fst <$> m)) (r_artifacts r).

(** An operation on the registry; one that raises changes nothing. A governor
    that starts anew counts from zero. *)
Definition step (r : Registry) (o : op) : Registry :=
  let w := world r in
  match o with
  | SetIdentity now id signer => mkRegistry (with_state w (set_registry_identity now id signer (w_state w))) (r_artifacts r)
  | PublishRecord t0 t1 p => on_state r (publish_package t0 t1 p (w_state w))
  | Publish t0 t1 t2 a =>
      match publish sha256 t0 t1 t2 a (mkServer (w_state w) (r_artifacts r)) with
      | Ok (v, _) => mkRegistry (with_state w (state v)) (artifacts v)
      | Err _ => r
      end
  | Revoke now pkg ver reason => on_state r (revoke_package now pkg ver reason (w_state w))
  | Deprecate now pkg ver => on_state r (deprecate_package now pkg ver (w_state w))
  | Approve t0 t1 id fp approved => mkRegistry (with_state w (approve_publisher t0 t1 id fp approved (w_state w))) (r_artifacts r)
  | GovernPublish now pkg ver digest publisher by_ => on_world r (govern_publish sha256 now pkg ver digest publisher by_ w)
  | GovernRevoke t0 t1 pkg ver reason by_ => on_world r (govern_revoke sha256 t0 t1 pkg ver reason by_ w)
  | GovernDeprecate t0 t1 pkg ver by_ => on_world r (govern_deprecate sha256 t0 t1 pkg ver by_ w)
  | GovernRotation t0 t1 t2 signer by_ => on_world r (govern_signer_rotation sha256 t0 t1 t2 signer by_ w)
  | GovernPublisherAdd t0 t1 t2 id fp approved by_ => on_world r (govern_publisher_add sha256 t0 t1 t2 id fp approved by_ w)
  | GovernPublisherRevoke t0 t1 fp by_ => on_world r (govern_publisher_revoke sha256 t0 t1 fp by_ w)
  | Restart => mkRegistry (mkWorld (w_state w) (w_log w) 0) (r_artifacts r)
  end.

Definition run (ops : list op) (r : Registry) : Registry := fold_left step ops r.

(** A registry as its server first opens it. *)
Definition opened (now id signer : string) : Registry := mkRegistry (mkWorld (set_registry_identity now id signer None) None 0) [].

Notation st r := (w_state (world r)).

Lemma govern_revoke_state t0 t1 pkg ver reason by_ w w' lr : govern_revoke sha256 t0 t1 pkg ver reason by_ w = Ok (w', lr) ->
  exists g, revoke_package t0 pkg ver reason (w_state w) = Ok (w_state w', g).
Proof.
  unfold govern_revoke. destruct (negb _); [done|]. destruct (get_package _ _ _); [|done]. destruct (_ =s? _)%string; [done|]. intros H.
  apply bind_ok in H as (u & _ & H). apply bind_ok in H as ([s g] & Hs & [= <- _]). by exists g.
Qed.

Lemma govern_deprecate_state t0 t1 pkg ver by_ w w' lr : govern_deprecate sha256 t0 t1 pkg ver by_ w = Ok (w', lr) ->
  exists g, deprecate_package t0 pkg ver (w_state w) = Ok (w_state w', g).
Proof.
  unfold govern_deprecate. destruct (negb _); [done|]. destruct (get_package _ _ _); [|done]. destruct (_ =s? _)%string; [done|]. intros H.
  apply bind_ok in H as (u & _ & H). apply bind_ok in H as ([s g] & Hs & [= <- _]). by exists g.
Qed.

Lemma publish_state t0 t1 t2 a v v' rc : publish sha256 t0 t1 t2 a v = Ok (v', rc) ->
  exists g, publish_package t0 t1 (record_of sha256 a) (state v) = Ok (state v', g).
Proof.
  unfold publish. do 4 (destruct (_ : bool); [done|]). intros H. apply bind_ok in H as ([s g] & Hs & [= <- _]). by exists g.
Qed.

(** A record is published directly in one of the three lifecycles. *)
Definition orderly (o : op) : Prop := match o with PublishRecord _ _ p => known p | _ => True end.

Lemma step_evolves r o : orderly o -> well_formed (st r) -> evolves (st r) (st (step r o)).
Proof.
  intros Ho Hw. pose proof (registry_evolves_refl (st r)) as Hsame. destruct o; cbn [step].
  - apply evolves_same; cbn; rewrite ?generation_load, ?packages_load; done || lia.
  - cbn. destruct (publish_package _ _ _ _) as [[s g]|] eqn:E; [|done]. exact (proj1 (publish_evolves _ _ _ _ _ _ E Ho)).
  - destruct (publish _ _ _ _ _ _) as [[v rc]|] eqn:E; [|done]. apply publish_state in E as (g & E). cbn in E |- *.
    eapply publish_evolves; [exact E|]. cbn. set_solver.
  - cbn. destruct (revoke_package _ _ _ _ _) as [[s g]|] eqn:E; [|done]. exact (proj1 (revoke_evolves _ _ _ _ _ _ _ E Hw)).
  - cbn. destruct (deprecate_package _ _ _ _) as [[s g]|] eqn:E; [|done]. exact (proj1 (deprecate_evolves _ _ _ _ _ _ E Hw)).
  - apply approve_evolves.
  - done.
  - cbn. destruct (govern_revoke _ _ _ _ _ _ _ _) as [[w' lr]|] eqn:E; [|done]. apply govern_revoke_state in E as (g & E). exact (proj1 (revoke_evolves _ _ _ _ _ _ _ E Hw)).
  - cbn. destruct (govern_deprecate _ _ _ _ _ _ _) as [[w' lr]|] eqn:E; [|done]. apply govern_deprecate_state in E as (g & E). exact (proj1 (deprecate_evolves _ _ _ _ _ _ E Hw)).
  - cbn. unfold govern_signer_rotation. destruct (negb _); [done|]. destruct (_ =s? _)%string; [done|]. apply rotate_evolves.
  - cbn. unfold govern_publisher_add. destruct (negb _); [done|]. apply approve_evolves.
  - cbn. unfold govern_publisher_revoke. destruct (negb _); [done|]. apply drop_evolves.
  - done.
Qed.

Lemma run_evolves ops : forall r, Forall orderly ops -> well_formed (st r) -> evolves (st r) (st (run ops r)).
Proof.
  induction ops as [|o ops IH]; intros r Ho Hw; [apply registry_evolves_refl|]. inversion Ho as [|? ? H1 H2]; subst.
  pose proof (step_evolves r o H1 Hw) as Hs. eapply registry_evolves_trans; [exact Hs|]. apply IH; [done|].
  exact (evolves_known _ _ Hs Hw).
Qed.

(** *** The identifier *)

(** The identifier after an operation, and after a sequence of them. *)
Definition named (id : string) (o : op) : string := match o with SetIdentity _ id' _ => id' | _ => id end.

Lemma publish_named t0 t1 p s s' g : publish_package t0 t1 p s = Ok (s', g) -> get_registry_id s' = get_registry_id s.
Proof. unfold publish_package. destruct s; cbn; [destruct (dget _ _); [destruct (negb _); [done|]|]|]; by intros [= <- _]. Qed.

Lemma revoke_named now pkg ver reason s s' g : revoke_package now pkg ver reason s = Ok (s', g) -> get_registry_id s' = get_registry_id s.
Proof. unfold revoke_package. destruct s; cbn; (destruct (dget _ _); [|done]) || done; destruct (_ =? _)%string; by intros [= <- _]. Qed.

Lemma deprecate_named now pkg ver s s' g : deprecate_package now pkg ver s = Ok (s', g) -> get_registry_id s' = get_registry_id s.
Proof.
  unfold deprecate_package. destruct s; cbn; (destruct (dget _ _); [|done]) || done; (destruct (_ =? _)%string; [done|]);
    destruct (_ =? _)%string; by intros [= <- _].
Qed.

Lemma step_named r o : get_registry_id (st (step r o)) = named (get_registry_id (st r)) o.
Proof.
  destruct o; cbn [step named].
  - done.
  - cbn. destruct (publish_package _ _ _ _) as [[s g]|] eqn:E; [|done]. by eapply publish_named.
  - destruct (publish _ _ _ _ _ _) as [[v rc]|] eqn:E; [|done]. apply publish_state in E as (g & E). by eapply publish_named in E.
  - cbn. destruct (revoke_package _ _ _ _ _) as [[s g]|] eqn:E; [|done]. by eapply revoke_named.
  - cbn. destruct (deprecate_package _ _ _ _) as [[s g]|] eqn:E; [|done]. by eapply deprecate_named.
  - by destruct (st r).
  - done.
  - cbn. destruct (govern_revoke _ _ _ _ _ _ _ _) as [[w' lr]|] eqn:E; [|done]. apply govern_revoke_state in E as (g & E). by eapply revoke_named in E.
  - cbn. destruct (govern_deprecate _ _ _ _ _ _ _) as [[w' lr]|] eqn:E; [|done]. apply govern_deprecate_state in E as (g & E). by eapply deprecate_named in E.
  - cbn. unfold govern_signer_rotation. destruct (negb _); [done|]. by destruct (_ =s? _)%string.
  - cbn. unfold govern_publisher_add. destruct (negb _); [done|]. cbn. by destruct (st r).
  - cbn. unfold govern_publisher_revoke, drop_publisher. destruct (negb _); [done|]. cbn. destruct (dmem _ _); [|done]. by destruct (st r).
  - done.
Qed.

Lemma run_named ops : forall r, get_registry_id (st (run ops r)) = fold_left named ops (get_registry_id (st r)).
Proof. induction ops as [|o ops IH]; intros r; [done|]. cbn [run fold_left]. fold (run ops (step r o)). by rewrite IH, step_named. Qed.

Lemma opened_well_formed now id signer : well_formed (st (opened now id signer)).
Proof. done. Qed.

(** ** Artifacts *)

(** Its identity was recorded directly, past the server. *)
Definition recorded_directly (ops : list op) (r : ImmutablePackageRecord) : Prop :=
  exists t0 t1 p, PublishRecord t0 t1 p ∈ ops /\ immutable_identity_fields p = immutable_identity_fields r.

Section Backed.
Context (all : list op).

(** Every package has its artifact in the store, under its digest, or was
    recorded directly. *)
Definition backed (s : option RegistryData) (store : dict string) : Prop :=
  (forall d b, dget d store = Some b -> sha256 b = d) /\
  forall key r, dget key (packages_of s) = Some r -> recorded_directly all r \/ is_Some (dget (artifact_digest r) store).

Lemma same_digest a b : immutable_identity_fields a = immutable_identity_fields b -> artifact_digest a = artifact_digest b.
Proof. by intros [=]. Qed.

(** New states whose packages are old ones, aged. *)
Lemma backed_aged s s' store : backed s store ->
  (forall key r', dget key (packages_of s') = Some r' -> exists r, dget key (packages_of s) = Some r /\ immutable_identity_fields r' = immutable_identity_fields r) ->
  backed s' store.
Proof.
  intros [H1 H2] H. split; [done|]. intros key r' Hr. destruct (H key r' Hr) as (r & Hk & Hi). rewrite (same_digest _ _ Hi).
  destruct (H2 key r Hk) as [(t0 & t1 & p & Hp & He)|Hd]; [left | by right]. exists t0, t1, p. split; [done | by rewrite Hi].
Qed.

Lemma aged_set s d key r r' : packages d = dset key r' (packages_of s) -> dget key (packages_of s) = Some r ->
  immutable_identity_fields r' = immutable_identity_fields r ->
  forall k x, dget k (packages_of (save d)) = Some x -> exists y, dget k (packages_of s) = Some y /\ immutable_identity_fields x = immutable_identity_fields y.
Proof.
  intros Hp Hr Hi k x. cbn. rewrite dget_sorted, Hp, dget_dset_eqb. destruct (String.eqb_spec k key) as [->|]; [|by intros; exists x].
  intros [= <-]. by exists r.
Qed.

Lemma aged_same s d : packages d = packages_of s -> forall k x, dget k (packages_of (save d)) = Some x ->
  exists y, dget k (packages_of s) = Some y /\ immutable_identity_fields x = immutable_identity_fields y.
Proof. intros Hp k x. cbn. rewrite dget_sorted, Hp. intros H. by exists x. Qed.

Lemma revoke_backed now pkg ver reason s s' g store : revoke_package now pkg ver reason s = Ok (s', g) -> backed s store -> backed s' store.
Proof.
  unfold revoke_package. rewrite packages_load. destruct (dget _ _) as [r|] eqn:E; [|done]. intros H Hb. revert H.
  destruct (_ =? _)%string; intros [= <- _]; [done|]. eapply backed_aged; [exact Hb|].
  eapply aged_set; [reflexivity|exact E|done].
Qed.

Lemma deprecate_backed now pkg ver s s' g store : deprecate_package now pkg ver s = Ok (s', g) -> backed s store -> backed s' store.
Proof.
  unfold deprecate_package. rewrite packages_load. destruct (dget _ _) as [r|] eqn:E; [|done]. intros H Hb. revert H.
  destruct (_ =? _)%string; [done|]. destruct (_ =? _)%string; intros [= <- _]; [done|]. eapply backed_aged; [exact Hb|].
  eapply aged_set; [reflexivity|exact E|done].
Qed.

Lemma store_backed a store : (forall d b, dget d store = Some b -> sha256 b = d) ->
  let store' := store_artifact (sha256 (artifact_bytes a)) (artifact_bytes a) store in
  (forall d b, dget d store' = Some b -> sha256 b = d) /\ is_Some (dget (sha256 (artifact_bytes a)) store') /\
  (forall d, is_Some (dget d store) -> is_Some (dget d store')).
Proof.
  intros H. unfold store_artifact, dmem. destruct (dget _ store) as [b0|] eqn:E; [by rewrite E|]. split; [|split].
  - intros d b. rewrite dget_dset_eqb. destruct (String.eqb_spec d (sha256 (artifact_bytes a))) as [->|]; [by intros [= <-] | apply H].
  - by rewrite dget_dset_same.
  - intros d Hd. rewrite dget_dset_eqb. by destruct (d =s? _)%string.
Qed.

Lemma publish_backed t0 t1 t2 a v v' rc : publish sha256 t0 t1 t2 a v = Ok (v', rc) -> backed (state v) (artifacts v) -> backed (state v') (artifacts v').
Proof.
  unfold publish. do 4 (destruct (_ : bool); [done|]). intros H [H1 H2]. apply bind_ok in H as ([s g] & Hs & [= <- _]). cbn [state artifacts].
  destruct (store_backed a (artifacts v) H1) as (K1 & K2 & K3). split; [exact K1|]. unfold publish_package in Hs. rewrite packages_load in Hs.
  destruct (dget _ _) as [e|] eqn:E.
  - destruct (negb _); [done|]. injection Hs as <- _. intros key r Hr. destruct (H2 key r Hr); [by left | right; by apply K3].
  - injection Hs as <- _. intros key r. cbn -[py_sorted]. rewrite dget_sorted, dget_dset_eqb. destruct (_ =s? _)%string; [by intros [= <-]; right|].
    intros Hr. destruct (H2 key r Hr); [by left | right; by apply K3].
Qed.

Lemma record_backed t0 t1 p s s' g store : publish_package t0 t1 p s = Ok (s', g) -> PublishRecord t0 t1 p ∈ all ->
  backed s store -> backed s' store.
Proof.
  unfold publish_package. rewrite packages_load. intros H Hp [H1 H2]. split; [done|]. revert H. destruct (dget _ _) as [e|] eqn:E.
  - destruct (negb _); [done|]. by intros [= <- _].
  - intros [= <- _] key r. cbn -[py_sorted]. rewrite dget_sorted, dget_dset_eqb. destruct (_ =s? _)%string; [|apply H2].
    intros [= <-]. left. by exists t0, t1, p.
Qed.

Lemma step_backed r o : o ∈ all -> backed (st r) (r_artifacts r) -> backed (st (step r o)) (r_artifacts (step r o)).
Proof.
  intros Ho Hb. destruct o; cbn [step]; try exact Hb.
  - eapply backed_aged; [exact Hb|]. apply aged_same. cbn. by rewrite packages_load.
  - cbn. destruct (publish_package _ _ _ _) as [[s g]|] eqn:E; [|exact Hb]. by eapply record_backed in E.
  - destruct (publish _ _ _ _ _ _) as [[v rc]|] eqn:E; [|exact Hb]. cbn. by eapply publish_backed in E.
  - cbn. destruct (revoke_package _ _ _ _ _) as [[s g]|] eqn:E; [|exact Hb]. by eapply revoke_backed in E.
  - cbn. destruct (deprecate_package _ _ _ _) as [[s g]|] eqn:E; [|exact Hb]. by eapply deprecate_backed in E.
  - eapply backed_aged; [exact Hb|]. apply aged_same. cbn. by rewrite packages_load.
  - cbn. destruct (govern_revoke _ _ _ _ _ _ _ _) as [[w' lr]|] eqn:E; [|exact Hb]. apply govern_revoke_state in E as (g & E). by eapply revoke_backed in E.
  - cbn. destruct (govern_deprecate _ _ _ _ _ _ _) as [[w' lr]|] eqn:E; [|exact Hb]. apply govern_deprecate_state in E as (g & E). by eapply deprecate_backed in E.
  - cbn. unfold govern_signer_rotation. destruct (negb _); [exact Hb|]. destruct (_ =s? _)%string; [exact Hb|]. cbn.
    eapply backed_aged; [exact Hb|]. intros k x. cbn -[py_sorted]. rewrite !dget_sorted, packages_load. intros Hx. exists x. split; [|done]. change (foldr (sort_insert key_leb) [] ?l) with (py_sorted key_leb l) in Hx. by rewrite dget_sorted in Hx.
  - cbn. unfold govern_publisher_add. destruct (negb _); [exact Hb|]. cbn. eapply backed_aged; [exact Hb|]. apply aged_same. cbn. by rewrite packages_load.
  - cbn. unfold govern_publisher_revoke, drop_publisher. destruct (negb _); [exact Hb|]. cbn. destruct (dmem _ _); [|exact Hb].
    eapply backed_aged; [exact Hb|]. apply aged_same. cbn. by rewrite packages_load.
Qed.

Lemma run_backed ops : forall r, (forall o, o ∈ ops -> o ∈ all) -> backed (st r) (r_artifacts r) ->
  backed (st (run ops r)) (r_artifacts (run ops r)).
Proof.
  induction ops as [|o ops IH]; intros r Ho Hb; [done|]. apply IH; [intros x Hx; apply Ho; by right|].
  apply step_backed; [apply Ho; by left | done].
Qed.
End Backed.

(** C17: Whatever sequence of its operations is done to a registry - through
    its server, on its state directly, or governed - a package that was
    published stays: its identity and the time of its publication never
    change, its lifecycle only moves along the transitions and a revoked one
    does not change at all.  The generation never decreases, and where it is
    the same no package has changed.  The identifier is the one that was set
    last.  Every package has an artifact of its digest in the store, unless
    its record was published directly, without the server.  Records published
    directly are taken to be in one of the three lifecycles. *)
Theorem registry_history now id signer ops ops' :
  Forall orderly (ops ++ ops') ->
  let s := st (run ops (opened now id signer)) in
  let s' := st (run ops' (run ops (opened now id signer))) in
  (forall key r, dget key (packages_of s) = Some r -> exists r', dget key (packages_of s') = Some r' /\ ages r r') /\
  get_generation s <= get_generation s' /\
  (get_generation s' = get_generation s -> forall key, dget key (packages_of s') = dget key (packages_of s)) /\
  get_registry_id s' = fold_left named (ops ++ ops') id /\
  (forall key r, dget key (packages_of s) = Some r -> recorded_directly ops r \/
     exists bytes, dget (artifact_digest r) (r_artifacts (run ops (opened now id signer))) = Some bytes /\ sha256 bytes = artifact_digest r).
Proof.
  intros [Ho Ho']%Forall_app. cbv zeta. pose proof (run_evolves ops _ Ho (opened_well_formed now id signer)) as H1.
  pose proof (evolves_known _ _ H1 (opened_well_formed now id signer)) as Hw.
  destruct (run_evolves ops' _ Ho' Hw) as [Hp _ Hg Hc]. split_and!; [exact Hp|exact Hg|exact Hc| |].
  - by rewrite !run_named, fold_left_app.
  - destruct (run_backed ops ops (opened now id signer)) as [H2 H3]; [done..|]. intros key r Hr.
    destruct (H3 key r Hr) as [Hd|[bytes Hb]]; [by left | right]. exists bytes. split; [done | by apply H2].
Qed.

(** ** Publications *)

Lemma authorized_iff fp pkg s : is_publisher_authorized fp pkg s = true <->
  exists auth, dget fp (publishers (load "" s)) = Some auth /\ (approved_packages auth = [] \/ pkg ∈ approved_packages auth).
Proof.
  unfold is_publisher_authorized, can_publish. destruct (dget fp _) as [auth|]; [|naive_solver].
  destruct (nonempty (approved_packages auth)) eqn:E.
  - rewrite mem_true. apply nonempty_true in E. naive_solver.
  - apply nonempty_false in E. naive_solver.
Qed.

(** C18: A publication is decided as documented: it succeeds exactly when the
    artifact is within the limit, the publisher is approved for the package,
    and what is published under the name is neither revoked nor another
    identity. Then the package is there with this identity, its artifact is
    stored, no other package has changed, and the generation is one more if
    the package is new and unchanged otherwise. *)
Theorem publish_decides t0 t1 t2 a v :
  let existing := get_package (a_package_id a) (a_version a) (state v) in
  let fits := Z.of_nat (String.length (artifact_bytes a)) <= MAX_ARTIFACT_SIZE in
  let approved := exists auth, dget (a_publisher_fingerprint a) (publishers (load "" (state v))) = Some auth /\
    (approved_packages auth = [] \/ a_package_id a ∈ approved_packages auth) in
  let same r := immutable_identity_fields r = immutable_identity_fields (record_of sha256 a) in
  match publish sha256 t0 t1 t2 a v with
  | Ok (v', rc) =>
      fits /\ approved /\ (forall r, existing = Some r -> lifecycle r <> LIFECYCLE_REVOKED /\ same r) /\
      (exists r, get_package (a_package_id a) (a_version a) (state v') = Some r /\ same r /\ lifecycle r <> LIFECYCLE_REVOKED) /\
      is_Some (dget (rc_artifact_digest rc) (artifacts v')) /\ rc_artifact_digest rc = sha256 (artifact_bytes a) /\
      rc_generation rc = get_generation (state v') /\
      (forall key, key <> pkg_key (a_package_id a) (a_version a) -> dget key (packages_of (state v')) = dget key (packages_of (state v))) /\
      get_generation (state v') = get_generation (state v) + (if existing then 0 else 1)
  | Err e =>
      e = PublishError /\ ~ fits \/ e = UnauthorizedPublisherError /\ ~ approved \/
      exists r, existing = Some r /\ (e = PackageRevokedError /\ lifecycle r = LIFECYCLE_REVOKED \/ e = PackageConflictError /\ ~ same r)
  end.
Proof.
  cbv zeta. unfold publish. destruct (Z.ltb_spec MAX_ARTIFACT_SIZE (Z.of_nat (String.length (artifact_bytes a)))) as [Hf|Hf]; [left; split; [done|lia]|].
  destruct (is_publisher_authorized _ _ _) eqn:Ha; cbn [negb];
    [apply authorized_iff in Ha|right; left; split; [done|intros H%authorized_iff; by rewrite H in Ha]].
  unfold check_identity_conflict, publish_package. rewrite packages_load. fold (get_package (package_id (record_of sha256 a)) (version (record_of sha256 a)) (state v)).
  change (package_id (record_of sha256 a)) with (a_package_id a). change (version (record_of sha256 a)) with (a_version a).
  destruct (get_package (a_package_id a) (a_version a) (state v)) as [r|] eqn:Eg.
  - destruct (String.eqb_spec (lifecycle r) LIFECYCLE_REVOKED) as [Hr|Hr]; [right; right; exists r; split; [done | by left]|].
    destruct (same_identity r (record_of sha256 a)) eqn:Es; cbn [negb]; [|right; right; exists r; split; [done|right; split; [done|by apply bool_decide_eq_false in Es]]].
    apply bool_decide_eq_true in Es. cbn [mbind res_bind mret res_ret]. split_and!; [lia|done|by intros ? [= <-]|by exists r| |done| |done|cbn; lia].
    + cbn. unfold store_artifact, dmem. destruct (dget _ (artifacts v)) eqn:E; [by rewrite E | by rewrite dget_dset_same].
    + cbn. by rewrite generation_load.
  - cbn [mbind res_bind mret res_ret]. split_and!; [lia|done|done| | |done|done| |].
    + exists (published_now (record_of sha256 a) t1). split; [|done]. unfold get_package. cbn -[py_sorted]. by rewrite dget_sorted, dget_dset_same.
    + cbn. unfold store_artifact, dmem. destruct (dget _ (artifacts v)) eqn:E; [by rewrite E | by rewrite dget_dset_same].
    + intros key Hk. cbn -[py_sorted]. rewrite dget_sorted, dget_dset_other by done. done.
    + cbn. unfold get_generation at 1. cbn. by rewrite generation_load.
Qed.

(** ** The log of a governor *)

Lemma as_written_digest t : compute_digest sha256 (as_written t) = compute_digest sha256 t.
Proof.
  unfold compute_digest, sha256_dict. f_equal. set (o := mkJsonOptions "" "" true true true). rewrite !json_text_dict. do 4 f_equal.
  cbn [transition_dict map_snd map fst snd as_written sequence transition_type t_registry_id authorized_by generation_before generation_after
    target_package_id target_version details timestamp].
  do 8 f_equal. rewrite (json_value_sort sorted_options o) by done. rewrite json_value_dict. cbv iota.
  rewrite <- (json_text_value o (VDict (details t))), json_value_dict. done.
Qed.

Lemma verify_written l : forall i b b', option_map generation_after b = option_map generation_after b' ->
  verify_from sha256 i b (map as_written l) = verify_from sha256 i b' l.
Proof.
  induction l as [|t l IH]; intros i b b' Hb; [done|]. cbn [map verify_from]. rewrite as_written_digest.
  destruct (negb _); [done|]. destruct (negb _); [done|].
  assert (match b with Some x => negb (generation_before (as_written t) =? generation_after x) | None => false end =
    match b' with Some x => negb (generation_before t =? generation_after x) | None => false end) as ->.
  { destruct b, b'; try done. cbn in Hb. injection Hb as Hb. cbn. by rewrite Hb. }
  destruct (match b' with Some _ => _ | None => _ end); [done|]. by apply IH.
Qed.

Lemma verify_snoc l t : forall i b, verify_from sha256 i b l = true -> sequence t = i + Z.of_nat (length l) + 1 ->
  transition_digest t = compute_digest sha256 t ->
  (forall x, match last l with Some x => Some x | None => b end = Some x -> generation_before t = generation_after x) ->
  verify_from sha256 i b (l ++ [t]) = true.
Proof.
  induction l as [|u l IH]; intros i b Hv Hs Hd Hg.
  - cbn in *. rewrite (proj2 (Z.eqb_eq _ _)), Hd, String.eqb_refl by lia. cbn. destruct b as [x|]; [|done].
    by rewrite (proj2 (Z.eqb_eq _ _) (Hg x eq_refl)).
  - cbn [app verify_from length] in *. destruct (negb _); [done|]. destruct (negb _); [done|].
    destruct (match b with Some _ => _ | None => _ end); [done|]. apply IH; [done|lia|done|]. intros x Hx. apply Hg. rewrite last_cons. by destruct (last l).
Qed.

(** The log verifies, has as many transitions as were counted, and ends at
    this generation. *)
Definition logs_up_to (w : World) (g : Z) : Prop :=
  verify_integrity sha256 (w_log w) = true /\ Z.of_nat (length (get_transitions (w_log w))) = w_sequence w /\
  forall x, last (get_transitions (w_log w)) = Some x -> generation_after x = g.

Lemma rewritten_up_to w l g s : logs_up_to w g -> get_transitions l = map as_written (get_transitions (w_log w)) -> logs_up_to (mkWorld s l (w_sequence w)) g.
Proof.
  intros (Hv & Hn & Hg) Hl. unfold logs_up_to, verify_integrity in *. cbn. rewrite Hl, length_map. split_and!; [by rewrite (verify_written _ _ None None)|done|].
  intros x. rewrite fmap_last. intros (y & Hy & ->)%fmap_Some_1. cbn. by apply Hg.
Qed.

Lemma transition_up_to now type by_ before after pkg ver ds w : logs_up_to w before ->
  logs_up_to (fst (make_transition sha256 now type by_ before after pkg ver ds w)) after.
Proof.
  intros (Hv & Hn & Hg). unfold logs_up_to, verify_integrity in *. cbn [make_transition fst w_log w_sequence append_transition get_transitions load_log save_log transitions].
  fold (get_transitions (w_log w)). rewrite length_map, length_app. split_and!.
  - rewrite (verify_written _ _ None None) by done. apply verify_snoc; [exact Hv | cbn; lia | done|]. intros x Hx. cbn. symmetry. apply Hg. by destruct (last _).
  - cbn. lia.
  - intros x. rewrite fmap_last, last_snoc. by intros [= <-].
Qed.

(** The signers of a registry, each put in place by the one before. *)
Fixpoint key_chain (id from : string) (l : list KeyContinuityRecord) (to : string) : Prop :=
  match l with
  | [] => from = to
  | k :: l => k_registry_id k = id /\ old_signer_fingerprint k = from /\ k_authorized_by k = from /\ key_chain id (new_signer_fingerprint k) l to
  end.

Lemma key_chain_snoc id l k to : forall from, key_chain id from l (old_signer_fingerprint k) -> k_registry_id k = id ->
  k_authorized_by k = old_signer_fingerprint k -> new_signer_fingerprint k = to -> key_chain id from (l ++ [k]) to.
Proof.
  induction l as [|x l IH]; intros from; cbn; [by intros -> | intros (? & ? & ? & H) K1 K2 K3]. split_and!; [done..|]. by apply IH.
Qed.

Definition governed (o : op) : bool :=
  match o with
  | GovernRevoke _ _ _ _ _ _ | GovernDeprecate _ _ _ _ _ | GovernRotation _ _ _ _ _ | GovernPublisherAdd _ _ _ _ _ _ _
  | GovernPublisherRevoke _ _ _ _ => true
  | _ => false
  end.

Definition authorizer (o : op) : string :=
  match o with
  | GovernRevoke _ _ _ _ _ b | GovernDeprecate _ _ _ _ b | GovernRotation _ _ _ _ b | GovernPublisherAdd _ _ _ _ _ _ b
  | GovernPublisherRevoke _ _ _ b => b
  | _ => ""
  end.

(** A registry whose governor has logged all its transitions. *)
Definition governed_well (id signer : string) (w : World) : Prop :=
  logs_up_to w (get_generation (w_state w)) /\ get_registry_id (w_state w) = id /\
  key_chain id signer (get_key_continuity (w_log w)) (get_signer_fingerprint (w_state w)).

Lemma revoke_names now pkg ver reason s s' g : revoke_package now pkg ver reason s = Ok (s', g) ->
  g = get_generation s' /\ get_registry_id s' = get_registry_id s /\ get_signer_fingerprint s' = get_signer_fingerprint s.
Proof. unfold revoke_package. destruct s; [|done]; cbn; (destruct (dget _ _); [|done]); destruct (_ =? _)%string; by intros [= <- <-]. Qed.

Lemma deprecate_names now pkg ver s s' g : deprecate_package now pkg ver s = Ok (s', g) ->
  g = get_generation s' /\ get_registry_id s' = get_registry_id s /\ get_signer_fingerprint s' = get_signer_fingerprint s.
Proof.
  unfold deprecate_package. destruct s; [|done]; cbn; (destruct (dget _ _); [|done]); (destruct (_ =? _)%string; [done|]); destruct (_ =? _)%string; by intros [= <- <-].
Qed.

Lemma transition_well id signer now type by_ before after pkg ver ds w : logs_up_to w before -> after = get_generation (w_state w) ->
  get_registry_id (w_state w) = id -> key_chain id signer (get_key_continuity (w_log w)) (get_signer_fingerprint (w_state w)) ->
  governed_well id signer (fst (make_transition sha256 now type by_ before after pkg ver ds w)).
Proof. intros Hl -> Hi Hk. split_and!; [by apply transition_up_to|done|done]. Qed.

Lemma approve_names t0 t1 i fp approved s : let s' := approve_publisher t0 t1 i fp approved s in
  get_generation s = get_generation s' /\ get_registry_id s' = get_registry_id s /\ get_signer_fingerprint s' = get_signer_fingerprint s.
Proof. by destruct s. Qed.

Lemma drop_names now fp s : let s' := drop_publisher now fp s in
  get_generation s = get_generation s' /\ get_registry_id s' = get_registry_id s /\ get_signer_fingerprint s' = get_signer_fingerprint s.
Proof. unfold drop_publisher. destruct s as [d|]; [|done]. cbv zeta. by destruct (dmem _ _). Qed.

Lemma governed_step id signer r o : governed o = true -> governed_well id signer (world r) ->
  step r o = r \/ authorizer o = get_signer_fingerprint (st r) /\ governed_well id signer (world (step r o)).
Proof.
  intros Ho (Hl & Hi & Hk). assert (mkRegistry (world r) (r_artifacts r) = r) as Hr by by destruct r.
  destruct o; try discriminate Ho; cbn [step authorizer]; unfold on_world, govern_revoke, govern_deprecate, govern_signer_rotation,
    govern_publisher_add, govern_publisher_revoke;
    (destruct (String.eqb_spec by_ (get_signer_fingerprint (st r))) as [->|]; [|by left]); cbn [negb].
  - destruct (get_package _ _ _) as [p|]; [|by left]. destruct (_ =? _)%string; [by left|]. destruct (validate_transition _ _); [|by left].
    destruct (revoke_package _ _ _ _ _) as [[s g]|] eqn:E; [|by left]. right. split; [done|]. apply revoke_names in E as (Eg & E1 & E2).
    apply transition_well; cbn [with_state w_state w_log]; [exact Hl|exact Eg|by rewrite E1|by rewrite E2].
  - destruct (get_package _ _ _) as [p|]; [|by left]. destruct (_ =? _)%string; [by left|]. destruct (validate_transition _ _); [|by left].
    destruct (deprecate_package _ _ _ _) as [[s g]|] eqn:E; [|by left]. right. split; [done|]. apply deprecate_names in E as (Eg & E1 & E2).
    apply transition_well; cbn [with_state w_state w_log]; [exact Hl|exact Eg|by rewrite E1|by rewrite E2].
  - destruct (_ =? _)%string; [by left|]. right. split; [done|]. apply transition_well; [by apply (rewritten_up_to (world r))|done|done|].
    apply key_chain_snoc; cbn; done.
  - right. split; [done|]. destruct (approve_names t0 t1 id0 fingerprint approved (st r)) as (Eg & E1 & E2).
    apply transition_well; cbn [with_state w_state w_log]; [exact Hl|exact Eg|by rewrite E1|by rewrite E2].
  - right. split; [done|]. destruct (drop_names t0 fingerprint (st r)) as (Eg & E1 & E2).
    apply transition_well; cbn [with_state w_state w_log]; [exact Hl|exact Eg|by rewrite E1|by rewrite E2].
Qed.

Lemma governed_run id signer ops : forall r, forallb governed ops = true -> governed_well id signer (world r) -> governed_well id signer (world (run ops r)).
Proof.
  induction ops as [|o ops IH]; intros r; [done|]. cbn [forallb run fold_left]. intros [Ho Hs]%andb_prop Hg. apply IH; [done|].
  by destruct (governed_step id signer r o Ho Hg) as [->|[_ H]].
Qed.

(** C19: The log of a governor that starts with an empty log, where the
    registry is changed from then on by its revocations, deprecations,
    rotations, additions and revocations of publishers alone, verifies: it
    counts its transitions without a gap, each with its digest and from the
    generation the one before led to. Its key records lead from the first
    signer to the current one, each rotation authorized by the signer it
    replaces, and none of these changes anything without the authority of the
    current signer.  Publications are excluded, recorded with [govern_publish]
    or not: that one logs a generation that it does not itself advance, and
    asks for no authority. *)
Theorem governed_log_verifies ops o s store :
  forallb governed ops = true -> governed o = true ->
  let r := run ops (mkRegistry (mkWorld s None 0) store) in
  verify_integrity sha256 (w_log (world r)) = true /\ Z.of_nat (length (get_transitions (w_log (world r)))) = w_sequence (world r) /\
  key_chain (get_registry_id s) (get_signer_fingerprint s) (get_key_continuity (w_log (world r))) (get_signer_fingerprint (st r)) /\
  (step r o <> r -> authorizer o = get_signer_fingerprint (st r)).
Proof.
  intros Hops Ho. cbv zeta. destruct (governed_run (get_registry_id s) (get_signer_fingerprint s) ops (mkRegistry (mkWorld s None 0) store) Hops)
    as (Hl & Hi & Hk); [by split_and!|].
  split_and!; [apply Hl|apply Hl|exact Hk|]. intros Hne. destruct (governed_step _ _ _ o Ho (conj Hl (conj Hi Hk))) as [|[H _]]; done.
Qed.
End Runs.
