(* ===== verification/RegistryDemo.v ===== *)
(** * Concrete registries

    Runs of a registry and its governor, evaluated: the theorems of
    RegistrySound at work, and what lies outside their hypotheses. *)
From S2P Require Import Prelude PyFloat PyValue Json RegistryServer RegistryLifecycle RegistrySound.

Definition demo_package (pkg ver bytes : string) : Publication :=
  mkPublication pkg ver bytes "m" "c" "fp-pub" "pub" [] "hardened_untrusted" "" [].

(** A registry of [reg] signed by [k1] with a publisher and a package. *)
Definition demo_registry : Registry :=
  run id [Approve "t0" "t1" "pub" "fp-pub" []; Publish "t2" "t3" "t4" (demo_package "a" "1" "bytes")] (opened "t" "reg" "k1").

Definition demo_state : option RegistryData := w_state (world demo_registry).

(** A package through the server, another past it, a new identity, and the
    first package revoked. *)
Definition demo_history : list op :=
  [ Approve "t0" "t1" "pub" "fp-pub" []; Publish "t2" "t3" "t4" (demo_package "a" "1" "bytes");
    PublishRecord "t5" "t6" (record_of id (demo_package "b" "1" "unstored")) ].

Definition demo_future : list op := [ SetIdentity "t7" "reg2" "k2"; Revoke "t8" "a" "1" "flaw" ].

Lemma registry_history_witness :
  let s := w_state (world (run id demo_history (opened "t" "reg" "k1"))) in
  let s' := w_state (world (run id demo_future (run id demo_history (opened "t" "reg" "k1")))) in
  Forall orderly (demo_history ++ demo_future) /\
  (exists r', dget "a:1" (packages (load "" s')) = Some r' /\ lifecycle r' = LIFECYCLE_REVOKED /\ artifact_digest r' = "bytes") /\
  get_generation s < get_generation s' /\ get_registry_id s' = "reg2" /\
  (forall key r, dget key (packages (load "" s)) = Some r -> recorded_directly demo_history r \/
     exists bytes, dget (artifact_digest r) (r_artifacts (run id demo_history (opened "t" "reg" "k1"))) = Some bytes /\ bytes = artifact_digest r).
Proof.
  cbv zeta. assert (Ho : Forall orderly (demo_history ++ demo_future)) by (repeat constructor).
  split; [exact Ho|]. destruct (registry_history id "t" "reg" "k1" demo_history demo_future Ho) as (H1 & H2 & H3 & H4 & H5).
  split_and!.
  - destruct (H1 "a:1" (published_now (record_of id (demo_package "a" "1" "bytes")) "t3")) as (r' & Hr & Hi & _); [vm_compute; reflexivity|].
    exists r'. split; [exact Hr|]. vm_compute in Hr. injection Hr as <-. split; reflexivity.
  - vm_compute. reflexivity.
  - rewrite H4. vm_compute. reflexivity.
  - exact H5.
Defined.

Definition demo_ops : list op :=
  [ GovernDeprecate "t5" "t6" "a" "1" "k1"; GovernRotation "t7" "t8" "t9" "k2" "k1";
    GovernPublisherRevoke "t10" "t11" "fp-pub" "k1"; GovernPublisherAdd "t12" "t13" "t14" "p2" "fp2" ["b"] "k2" ].

Example governed_log_verifies_witness :
  let r := run id demo_ops (mkRegistry (mkWorld demo_state None 0) []) in
  verify_integrity id (w_log (world r)) = true /\ Z.of_nat (length (get_transitions (w_log (world r)))) = w_sequence (world r) /\
  key_chain (get_registry_id demo_state) (get_signer_fingerprint demo_state) (get_key_continuity (w_log (world r)))
    (get_signer_fingerprint (w_state (world r))) /\
  (step id r (GovernRevoke "t15" "t16" "a" "1" "flaw" "k2") <> r -> "k2" = get_signer_fingerprint (w_state (world r))).
Proof.
  exact (governed_log_verifies id demo_ops (GovernRevoke "t15" "t16" "a" "1" "flaw" "k2") demo_state [] eq_refl eq_refl).
Defined.

(** The old key did nothing, the new one added its publisher. *)
Example demo_log :
  let r := run id demo_ops (mkRegistry (mkWorld demo_state None 0) []) in
  map (fun t => (sequence t, transition_type t, generation_after t)) (get_transitions (w_log (world r)))
  = [(1, "deprecate", 2); (2, "signer_rotation", 3); (3, "publisher_add", 3)].
Proof. vm_compute. reflexivity. Qed.

Example demo_revoked :
  option_map lifecycle (get_package "a" "1" (w_state (world (run id (demo_ops ++ [GovernRevoke "t15" "t16" "a" "1" "flaw" "k2"]) demo_registry))))
  = Some "revoked".
Proof. vm_compute. reflexivity. Qed.

(** A governor that is started again counts from zero: the log it goes on
    with does not verify any more. *)
Example restart_breaks_log :
  verify_integrity id (w_log (world (run id [GovernDeprecate "t5" "t6" "a" "1" "k1"; Restart; GovernRotation "t7" "t8" "t9" "k2" "k1"] demo_registry)))
  = false.
Proof. vm_compute. reflexivity. Qed.

(** A publication between two governed transitions is a gap of the
    generation, whether it is recorded or not. *)
Example publication_breaks_log :
  let after l := verify_integrity id (w_log (world (run id l demo_registry))) in
  let p := Publish "t2" "t3" "t4" (demo_package "b" "1" "more") in
  ( after [GovernRotation "t7" "t8" "t9" "k2" "k1"; p; GovernDeprecate "t5" "t6" "a" "1" "k2"],
    after [GovernRotation "t7" "t8" "t9" "k2" "k1"; p; GovernPublish "t5" "b" "1" "more" "fp-pub" ""; GovernDeprecate "t5" "t6" "a" "1" "k2"],
    after [GovernRotation "t7" "t8" "t9" "k2" "k1"; GovernPublish "t5" "b" "1" "more" "fp-pub" ""; p; GovernDeprecate "t5" "t6" "a" "1" "k2"] )
  = (false, false, true).
Proof. vm_compute. reflexivity. Qed.

(** A rotation loads the state and saves it again outside the lock of the
    state: a package published in between is lost. *)
Example rotation_loses_publication :
  let s := set_registry_identity "t" "reg" "k2" demo_state in
  match publish_package "t2" "t3" (record_of id (demo_package "b" "1" "more")) s with
  | Ok (s', _) => (if get_package "b" "1" s' then true else false,
                   if get_package "b" "1" (rotated (load "t" s) (get_generation s + 1)) then true else false)
  | Err _ => (false, true)
  end = (true, false).
Proof. vm_compute. reflexivity. Qed.

(** A package revoked between the checks of a publication and its end: the
    publication of the same identity succeeds all the same. *)
Example revoked_during_publication :
  let a := demo_package "a" "1" "bytes" in
  match revoke_package "t" "a" "1" "flaw" demo_state with
  | Ok (s, _) => (is_ok (publish_package "t2" "t3" (record_of id a) s), is_ok (publish id "t2" "t3" "t4" a (mkServer s [])))
  | Err _ => (false, true)
  end = (true, false).
Proof. vm_compute. reflexivity. Qed.

(** A registry without an identity takes the empty text for its signer. *)
Example nobody_authorizes :
  is_ok (govern_publisher_add id "t0" "t1" "t2" "p" "fp" [] "" (mkWorld None None 0)) = true.
Proof. reflexivity. Qed.

(** Two names, one key. *)
Example names_collide :
  match publish id "t2" "t3" "t4" (demo_package "x:y" "1" "b") (mkServer demo_state []) with
  | Ok (v, _) => match publish id "t2" "t3" "t4" (demo_package "x" "y:1" "b") v with Err e => Some e | Ok _ => None end
  | Err _ => None
  end = Some PackageConflictError.
Proof. vm_compute. reflexivity. Qed.
