(* ===== verification/TransparencyLog.v ===== *)
(** * The transparency log

    [sdk/transparency_log.py]: the log of registry interactions, chained by
    digests, its verification and its file.  An entry read from a file may
    hold any JSON value.  SHA-256 and the clock are arguments; the file is
    what its text parses to. *)
From S2P Require Import Prelude PyFloat PyValue Json.

Definition TRANSPARENCY_LOG_VERSION : string := "v1".

Definition EVENT_TYPES : list string :=
  [ "registry_metadata_seen"; "package_metadata_seen"; "package_artifact_seen"; "package_installed"; "dependency_graph_resolved";
    "package_revoked"; "certification_revoked"; "registry_selected"; "registry_conflict"; "federated_package_resolved";
    "reputation_score_computed"; "discovery_index_seen"; "registry_discovered"; "registry_added_from_discovery"; "attestation_seen";
    "attestation_verified"; "attestation_rejected"; "artifact_retained"; "artifact_orphan_collected"; "evidence_index_verified";
    "evidence_index_mismatch"; "checkpoint_created"; "checkpoint_verified"; "checkpoint_chain_broken"; "rollback_detected" ].

Inductive log_error := TransparencyLogError | ValueErrorRaised | KeyErrorRaised | TypeErrorRaised.

Definition L : Type -> Type := res log_error.

(** ** Entries *)

Record TransparencyLogEntry := mkEntry {
  sequence_number : pyval;
  timestamp : pyval;
  event_type : pyval;
  subject_id : pyval;
  subject_version : pyval;
  metadata_digest : pyval;
  artifact_digest : pyval;
  graph_digest : pyval;
  previous_entry_digest : pyval;
  signer_fingerprint : pyval;
  entry_digest : pyval;
  extra : pyval;
}.

(** The fields before the digest and the extra data. *)
Definition common_fields (e : TransparencyLogEntry) : pyctx :=
  [ ("sequence_number", sequence_number e); ("timestamp", timestamp e); ("event_type", event_type e); ("subject_id", subject_id e);
    ("subject_version", subject_version e); ("metadata_digest", metadata_digest e); ("artifact_digest", artifact_digest e);
    ("graph_digest", graph_digest e); ("previous_entry_digest", previous_entry_digest e); ("signer_fingerprint", signer_fingerprint e) ].

Definition payload (e : TransparencyLogEntry) : pyctx := common_fields e ++ [("extra", extra e)].

Definition compact_options : JsonOptions := mkJsonOptions "" "" true true true.

Definition canonical_payload (e : TransparencyLogEntry) : string := json_text compact_options (VDict (payload e)).

Definition entry_dict (e : TransparencyLogEntry) : pyctx :=
  common_fields e ++ [("entry_digest", entry_digest e)] ++ (if truthy (extra e) then [("extra", extra e)] else []).

(** [d[key]] *)
Definition field (key : string) (d : pyctx) : L pyval := match dget key d with Some v => Ok v | None => Err KeyErrorRaised end.

(** [TransparencyLogEntry.from_dict]; what is no dict has no such key. *)
Definition entry_from_dict (v : pyval) : L TransparencyLogEntry :=
  match v with
  | VDict d =>
      seq ← field "sequence_number" d; ts ← field "timestamp" d; ty ← field "event_type" d; id ← field "subject_id" d;
      let get k := dget_or k (VStr "") d in
      mret (mkEntry seq ts ty id (get "subject_version") (get "metadata_digest") (get "artifact_digest") (get "graph_digest")
        (get "previous_entry_digest") (get "signer_fingerprint") (get "entry_digest") (dget_or "extra" (VDict []) d))
  | _ => Err TypeErrorRaised
  end.

Section Log.
Context (sha256 : string -> string).

Definition compute_digest (e : TransparencyLogEntry) : string := sha256 (canonical_payload e).

Definition with_digest (e : TransparencyLogEntry) (d : pyval) : TransparencyLogEntry :=
  mkEntry (sequence_number e) (timestamp e) (event_type e) (subject_id e) (subject_version e) (metadata_digest e) (artifact_digest e)
    (graph_digest e) (previous_entry_digest e) (signer_fingerprint e) d (extra e).

Definition finalize (e : TransparencyLogEntry) : TransparencyLogEntry :=
  if truthy (entry_digest e) then e else with_digest e (VStr (compute_digest e)).

Definition verify_digest (e : TransparencyLogEntry) : bool := py_eq (entry_digest e) (VStr (compute_digest e)).

(** ** The log *)

Definition TransparencyLog : Type := list TransparencyLogEntry.

(** [v + 1] *)
Definition plus_one (v : pyval) : L pyval :=
  match v with
  | VInt z => Ok (VInt (z + 1))
  | VBool b => Ok (VInt ((if b then 1 else 0) + 1))
  | VFloat f => Ok (VFloat (fadd f (fround_int 1)))
  | _ => Err TypeErrorRaised
  end.

Definition next_sequence (log : TransparencyLog) : L pyval :=
  match last log with None => Ok (VInt 1) | Some e => plus_one (sequence_number e) end.

Definition tail_digest (log : TransparencyLog) : pyval :=
  match last log with None => VStr "" | Some e => entry_digest e end.

(** What [append] is called with. *)
Record Event := mkEvent {
  ev_type : string;
  ev_subject_id : string;
  ev_subject_version : string;
  ev_metadata_digest : string;
  ev_artifact_digest : string;
  ev_graph_digest : string;
  ev_signer_fingerprint : string;
  ev_extra : pyctx;
}.

Definition append (now : string) (v : Event) (log : TransparencyLog) : L (TransparencyLog * TransparencyLogEntry) :=
  if negb (mem (ev_type v) EVENT_TYPES) then Err ValueErrorRaised
  else
    seq ← next_sequence log;
    let e := finalize (mkEntry seq (VStr now) (VStr (ev_type v)) (VStr (ev_subject_id v)) (VStr (ev_subject_version v))
      (VStr (ev_metadata_digest v)) (VStr (ev_artifact_digest v)) (VStr (ev_graph_digest v)) (tail_digest log)
      (VStr (ev_signer_fingerprint v)) (VStr "") (VDict (ev_extra v))) in
    mret (log ++ [e], e).

Inductive chain_error := FirstSequence | SequenceGap | DuplicateSequence | BrokenChain | DigestMismatch.

Record TransparencyLogVerifyResult := mkVerify {
  valid : bool;
  total_entries : nat;
  errors : list chain_error;
  first_sequence : pyval;
  last_sequence : pyval;
  log_digest : pyval;
}.

Definition hashable (v : pyval) : bool := match v with VList _ | VDict _ => false | _ => true end.

(** [v[:12]] raises on what is neither a text nor a list. *)
Definition sliceable (v : pyval) : bool := match v with VStr _ | VList _ => true | _ => false end.

Definition note (b : bool) (e : chain_error) : list chain_error := if b then [e] else [].

(** The checks of one entry, behind the sequence number [before]. *)
Definition check_entry (before : option pyval) (seen : list pyval) (prev_digest : pyval) (e : TransparencyLogEntry) : L (list chain_error) :=
  a ← match before with
      | None => mret (note (negb (py_eq (sequence_number e) (VInt 1))) FirstSequence)
      | Some s => expected ← plus_one s; mret (note (negb (py_eq (sequence_number e) expected)) SequenceGap)
      end;
  _ ← guard_err (hashable (sequence_number e)) TypeErrorRaised;
  let b := note (existsb (fun s => py_eq s (sequence_number e)) seen) DuplicateSequence in
  let broken := negb (py_eq (previous_entry_digest e) prev_digest) in
  _ ← guard_err (negb broken || sliceable prev_digest && sliceable (previous_entry_digest e)) TypeErrorRaised;
  mret (a ++ b ++ note broken BrokenChain ++ note (negb (verify_digest e)) DigestMismatch).

Fixpoint check_entries (before : option pyval) (seen : list pyval) (prev_digest : pyval) (l : TransparencyLog) : L (list chain_error) :=
  match l with
  | [] => mret []
  | e :: l =>
      es ← check_entry before seen prev_digest e;
      rest ← check_entries (Some (sequence_number e)) (sequence_number e :: seen) (entry_digest e) l;
      mret (es ++ rest)
  end.

Definition verify (log : TransparencyLog) : L TransparencyLogVerifyResult :=
  match log with
  | [] => mret (mkVerify true 0 [] (VInt 0) (VInt 0) (VStr (sha256 "")))
  | e :: _ =>
      es ← check_entries None [] (VStr "") log;
      mret (mkVerify (negb (nonempty es)) (length log) es (sequence_number e)
        (match last log with Some x => sequence_number x | None => VNone end) (tail_digest log))
  end.

Definition keeps (key : option string) (v : pyval) : bool :=
  match key with Some k => negb (str_truthy k) || py_eq v (VStr k) | None => true end.

Definition query (package digest type : option string) (log : TransparencyLog) : TransparencyLog :=
  List.filter (fun e => keeps package (subject_id e) && keeps digest (entry_digest e) && keeps type (event_type e)) log.

Definition get_entry_by_sequence (seq : Z) (log : TransparencyLog) : option TransparencyLogEntry :=
  List.find (fun e => py_eq (sequence_number e) (VInt seq)) log.

(** ** The file *)

Definition log_dict (log : TransparencyLog) : pyctx :=
  [ ("version", VStr TRANSPARENCY_LOG_VERSION); ("total_entries", VInt (Z.of_nat (length log))); ("log_digest", tail_digest log);
    ("entries", VList (map (fun e => VDict (entry_dict e)) log)) ].

Fixpoint entries_from (l : list pyval) : L TransparencyLog :=
  match l with [] => mret [] | v :: l => e ← entry_from_dict v; es ← entries_from l; mret (e :: es) end.

(** [TransparencyLog.from_dict]: a text or a dict is iterated by its texts,
    which are no entries. *)
Definition log_from_dict (d : pyctx) : L TransparencyLog :=
  match dget_or "entries" (VList []) d with
  | VList l => entries_from l
  | VStr s => if str_truthy s then Err TypeErrorRaised else mret []
  | VDict d => if nonempty d then Err TypeErrorRaised else mret []
  | _ => Err TypeErrorRaised
  end.

Inductive log_file := Missing | Corrupt | Holds (v : pyval).

Definition load_transparency_log (f : log_file) : L TransparencyLog :=
  match f with
  | Missing => mret []
  | Holds (VDict d) => log_from_dict d
  | _ => Err TransparencyLogError
  end.

(** What the file parses to, its keys being sorted. *)
Definition save_transparency_log (log : TransparencyLog) : log_file := Holds (json_value sorted_options (VDict (log_dict log))).

Definition append_event (now : string) (v : Event) (f : log_file) : L log_file :=
  log ← load_transparency_log f; '(log, _) ← append now v log; mret (save_transparency_log log).

Definition verify_transparency_log (f : log_file) : L TransparencyLogVerifyResult :=
  log ← load_transparency_log f; verify log.
End Log.
