(* ===== verification/TransparencySound.v ===== *)
(** * What a transparency log shows

    A log that verifies is a chain: its last digest commits to every entry, up
    to a collision of the hash; and what is appended event by event, through
    the file, verifies. *)
From S2P Require Import Prelude PyFloat PyValue Json TransparencyLog.

Lemma py_eq_text v s : py_eq v (VStr s) = true <-> v = VStr s.
Proof. destruct v; cbn; try (by split); try (by destruct b). rewrite String.eqb_eq. split; [by intros -> | by intros [= ->]]. Qed.

Section Chain.
Context (sha256 : string -> string).

(** ** Chains *)

Notation digest_of e := (VStr (compute_digest sha256 e)).

(** Entries linked by their digests, from this one on. *)
Fixpoint chained (prev : pyval) (l : TransparencyLog) : Prop :=
  match l with
  | [] => True
  | e :: l => previous_entry_digest e = prev /\ entry_digest e = digest_of e /\ chained (digest_of e) l
  end.

Lemma check_entry_clean before seen prev e : check_entry sha256 before seen (VStr prev) e = Ok [] ->
  previous_entry_digest e = VStr prev /\ entry_digest e = digest_of e.
Proof.
  unfold check_entry. intros H. apply bind_ok in H as (a & _ & H). apply bind_ok in H as (u & _ & H). apply bind_ok in H as (u1 & _ & [= H]).
  apply app_eq_nil in H as [_ H]. apply app_eq_nil in H as [_ H]. apply app_eq_nil in H as [H1 H2].
  split; apply py_eq_text.
  - by destruct (py_eq _ _).
  - unfold verify_digest in H2. by destruct (py_eq (entry_digest e) _).
Qed.

Lemma check_entries_chained l : forall before seen prev, check_entries sha256 before seen (VStr prev) l = Ok [] -> chained (VStr prev) l.
Proof.
  induction l as [|e l IH]; intros before seen prev; [done|]. cbn [check_entries chained]. intros H.
  apply bind_ok in H as (es & He & H). apply bind_ok in H as (rest & Hr & [= H]). apply app_eq_nil in H as [-> ->].
  apply check_entry_clean in He as [H1 H2]. rewrite H2 in Hr. split_and!; [done..|]. by apply IH in Hr.
Qed.

Lemma verify_chained log r : verify sha256 log = Ok r -> valid r = true ->
  chained (VStr "") log /\ log_digest r = match last log with Some e => entry_digest e | None => VStr (sha256 "") end.
Proof.
  unfold verify. destruct log as [|e l]; [by intros [= <-]|]. intros H Hv. apply bind_ok in H as (es & He & [= <-]). cbn [valid log_digest] in *.
  destruct es; [|done]. split; [by eapply check_entries_chained|]. unfold tail_digest. by rewrite last_cons; destruct (last l).
Qed.

Lemma chained_snoc l e : forall prev, chained prev (l ++ [e]) <->
  chained prev l /\ previous_entry_digest e = match last l with Some x => digest_of x | None => prev end /\ entry_digest e = digest_of e.
Proof.
  induction l as [|x l IH]; intros prev; cbn [app chained]; [tauto|]. rewrite IH, last_cons. destruct (last l); tauto.
Qed.

(** ** Canonical payloads *)

Definition plain_entry (e : TransparencyLogEntry) : Prop := json_plain (VDict (payload e)) = true.

(** The same entry, up to the order of keys in its extra data. *)
Definition same_entry (e e' : TransparencyLogEntry) : Prop :=
  json_value compact_options (VDict (payload e)) = json_value compact_options (VDict (payload e')) /\ entry_digest e = entry_digest e'.

Lemma canonical_same e e' : plain_entry e -> plain_entry e' -> canonical_payload e = canonical_payload e' ->
  json_value compact_options (VDict (payload e)) = json_value compact_options (VDict (payload e')).
Proof.
  unfold canonical_payload. intros H H' E. pose proof (loads_dumps compact_options eq_refl eq_refl _ H) as L1.
  pose proof (loads_dumps compact_options eq_refl eq_refl _ H') as L2. rewrite E, L2 in L1. by apply (inj Some) in L1.
Qed.

(** The fields of the same value are the same. *)
Lemma same_fields (d d' : pyctx) k : json_value compact_options (VDict d) = json_value compact_options (VDict d') ->
  option_map (json_value compact_options) (dget k d) = option_map (json_value compact_options) (dget k d').
Proof. rewrite !json_value_dict. intros [= E]. apply (f_equal (dget k)) in E. by rewrite !dget_json_items, !dget_map_snd in E. Qed.

Lemma same_previous e e' s s' : json_value compact_options (VDict (payload e)) = json_value compact_options (VDict (payload e')) ->
  previous_entry_digest e = VStr s -> previous_entry_digest e' = VStr s' -> s = s'.
Proof. intros H E E'. apply (same_fields _ _ "previous_entry_digest") in H. cbn in H. rewrite E, E' in H. by injection H. Qed.

Lemma canonical_nonempty e : canonical_payload e <> "".
Proof. unfold canonical_payload. by rewrite json_text_dict. Qed.

Lemma chained_last_text prev l : chained (VStr prev) l -> forall e, last l = Some e -> entry_digest e = digest_of e.
Proof.
  destruct l as [|x l] using rev_ind; [done|]. rewrite chained_snoc, last_snoc. intros (_ & _ & H) e [= <-]. exact H.
Qed.

(** The texts that the digests of a log are hashes of. *)
Definition hashed (l : TransparencyLog) : list string := "" :: map canonical_payload l.

(** Two different texts of these logs with the same hash. *)
Definition collide (l l' : TransparencyLog) : Prop :=
  exists x y, x ∈ hashed l /\ y ∈ hashed l' /\ x <> y /\ sha256 x = sha256 y.

Lemma collide_earlier l e l' e' : collide l l' -> collide (l ++ [e]) (l' ++ [e']).
Proof.
  intros (x & y & Hx & Hy & H). exists x, y. unfold hashed in *. rewrite !map_app. set_solver.
Qed.

Lemma hashed_last l e : canonical_payload e ∈ hashed (l ++ [e]).
Proof. unfold hashed. rewrite map_app. set_solver. Qed.

Lemma chains_agree l : forall l', (forall x, sha256 x <> "") -> Forall plain_entry l -> Forall plain_entry l' ->
  chained (VStr "") l -> chained (VStr "") l' ->
  match last l with Some e => digest_of e | None => VStr "" end = match last l' with Some e => digest_of e | None => VStr "" end ->
  Forall2 same_entry l l' \/ collide l l'.
Proof.
  intros l' Hsha. revert l'. induction l as [|e l IH] using rev_ind; intros l' Hp Hp' Hc Hc' Hd;
    (destruct l' as [|e' l' _] using rev_ind; rewrite ?last_snoc in Hd; cbn in Hd).
  - by left.
  - injection Hd as Hd. by destruct (Hsha (canonical_payload e')).
  - injection Hd as Hd. by destruct (Hsha (canonical_payload e)).
  - injection Hd as Hd. apply chained_snoc in Hc as (Hc & He & Hdig), Hc' as (Hc' & He' & Hdig').
    apply Forall_app in Hp as [Hp [Hpe _]%Forall_cons], Hp' as [Hp' [Hpe' _]%Forall_cons].
    destruct (String.string_dec (canonical_payload e) (canonical_payload e')) as [E|Hne];
      [|right; eexists _, _; split_and!; [apply hashed_last.. | exact Hne | exact Hd]].
    pose proof (canonical_same _ _ Hpe Hpe' E) as Hs.
    destruct (IH l' Hp Hp' Hc Hc') as [Hl|]; [|left|right; by apply collide_earlier].
    + destruct (last l) as [x|], (last l') as [x'|]; (rewrite (same_previous _ _ _ _ Hs He He')) || (f_equal; exact (same_previous _ _ _ _ Hs He He')); done.
    + apply Forall2_app; [done|]. constructor; [|constructor]. split; [done|]. rewrite Hdig, Hdig'. unfold compute_digest. by rewrite E.
Qed.

(** C20: The digest of a log commits to all of it: two logs that verify with
    the same digest have the same entries (up to the order of keys in their
    extra data), or among the texts that were hashed for them - the canonical
    payloads of their entries, and the empty text - are two different ones
    with the same hash.  The extra data are JSON values without floats and the
    hash is never the empty text. *)
Theorem log_digest_commits log log' r r' :
  (forall x, sha256 x <> "") -> Forall plain_entry log -> Forall plain_entry log' ->
  verify sha256 log = Ok r -> valid r = true -> verify sha256 log' = Ok r' -> valid r' = true -> log_digest r = log_digest r' ->
  Forall2 same_entry log log' \/ collide log log'.
Proof.
  intros Hsha Hp Hp' Hr Hv Hr' Hv' Hd. apply verify_chained in Hr as [Hc Hl], Hr' as [Hc' Hl']; [|done..].
  rewrite Hl, Hl' in Hd. clear Hl Hl' Hv Hv'.
  pose proof (chained_last_text _ _ Hc) as He. pose proof (chained_last_text _ _ Hc') as He'.
  assert (Hlast : forall l e, last l = Some e -> canonical_payload e ∈ hashed l).
  { intros l e Hle. right. apply list_elem_of_fmap_2. apply last_Some in Hle as [l0 ->]. set_solver. }
  destruct (last log) as [e|] eqn:E, (last log') as [e'|] eqn:E'.
  - apply chains_agree; try done. rewrite E, E'. by rewrite <- (He e), <- (He' e').
  - right. rewrite (He e) in Hd by done. injection Hd as Hd. exists (canonical_payload e), "".
    split_and!; [by apply Hlast | left | apply canonical_nonempty | exact Hd].
  - right. rewrite (He' e') in Hd by done. injection Hd as Hd. exists "", (canonical_payload e').
    split_and!; [left | by apply Hlast | intros H; by apply (canonical_nonempty e') | exact Hd].
  - apply last_None in E, E'. subst. by left.
Qed.

(** ** What is appended *)

(** The entries the program writes. *)
Definition typed (e : TransparencyLogEntry) : Prop :=
  exists seq ts ty id ver md ad gd prev sg dig x,
    e = mkEntry (VInt seq) (VStr ts) (VStr ty) (VStr id) (VStr ver) (VStr md) (VStr ad) (VStr gd) (VStr prev) (VStr sg) (VStr dig) (VDict x) /\
    json_plain (VDict x) = true.

Definition numbered (n : nat) (l : TransparencyLog) : Prop := forall i e, l !! i = Some e -> sequence_number e = VInt (Z.of_nat (n + i) + 1).

Record good_log (l : TransparencyLog) : Prop := { good_chain : chained (VStr "") l; good_typed : Forall typed l; good_numbers : numbered 0 l }.

(** What is read of an entry that was saved. *)
Definition as_saved (e : TransparencyLogEntry) : TransparencyLogEntry :=
  mkEntry (sequence_number e) (timestamp e) (event_type e) (subject_id e) (subject_version e) (metadata_digest e) (artifact_digest e)
    (graph_digest e) (previous_entry_digest e) (signer_fingerprint e) (entry_digest e) (json_value sorted_options (extra e)).

Lemma entry_reads e : typed e -> entry_from_dict (json_value sorted_options (VDict (entry_dict e))) = Ok (as_saved e).
Proof.
  intros (seq & ts & ty & id & ver & md & ad & gd & prev & sg & dig & x & -> & _). rewrite json_value_dict. unfold entry_from_dict, field, dget_or.
  rewrite !dget_json_items, !dget_map_snd. destruct x as [|kv x]; cbn -[json_value]; [done|]. reflexivity.
Qed.

Lemma entries_read l : Forall typed l -> entries_from (map (fun e => json_value sorted_options (VDict (entry_dict e))) l) = Ok (map as_saved l).
Proof. induction 1 as [|e l He _ IH]; [done|]. cbn [map entries_from]. by rewrite entry_reads, IH. Qed.

Lemma load_saved l : Forall typed l -> load_transparency_log (save_transparency_log l) = Ok (map as_saved l).
Proof.
  intros H. unfold save_transparency_log. rewrite json_value_dict. cbn [load_transparency_log]. unfold log_from_dict, dget_or.
  rewrite dget_json_items, dget_map_snd. cbn -[json_value entry_dict]. cbn [json_value]. rewrite map_map. by apply entries_read.
Qed.

Lemma saved_canonical e : canonical_payload (as_saved e) = canonical_payload e.
Proof.
  unfold canonical_payload. rewrite !json_text_dict. do 4 f_equal. unfold payload, common_fields, as_saved. cbn [app map_snd map fst snd extra
    sequence_number timestamp event_type subject_id subject_version metadata_digest artifact_digest graph_digest previous_entry_digest signer_fingerprint].
  do 10 f_equal. rewrite (json_value_sort sorted_options compact_options) by done. by rewrite json_text_value.
Qed.

Lemma json_plain_value o v : json_plain v = true -> json_plain (json_value o v) = true.
Proof.
  induction v as [| | | | |l IH|d IH] using pyval_nested_ind; try done.
  - cbn [json_plain json_value]. rewrite !forallb_Forall', Forall_map. intros H. eapply Forall_impl; [exact (List.Forall_and IH H)|].
    intros v [H1 H2]. by apply H1.
  - rewrite json_value_dict, !json_plain_dict. intros [Hn H]. split.
    + eapply NoDup_Permutation_proper; [apply Permutation_map, json_items_perm|]. unfold map_snd. by rewrite map_map.
    + rewrite json_items_perm. unfold map_snd. rewrite Forall_map. eapply Forall_impl; [exact (List.Forall_and IH H)|]. intros kv [H1 H2]. by apply H1.
Qed.

Lemma chained_saved l : forall prev, chained prev l -> chained prev (map as_saved l).
Proof.
  induction l as [|e l IH]; intros prev; [done|]. cbn [map chained]. intros (H1 & H2 & H3). unfold compute_digest. rewrite saved_canonical.
  split_and!; [exact H1 | exact H2 | by apply IH].
Qed.

Lemma good_saved l : good_log l -> good_log (map as_saved l).
Proof.
  intros [Hc Ht Hn]. split; [by apply chained_saved| |].
  - rewrite Forall_map. eapply Forall_impl; [exact Ht|]. intros e (seq & ts & ty & id & ver & md & ad & gd & prev & sg & dig & x & -> & Hx).
    do 11 eexists. exists (json_items sorted_options (map_snd (json_value sorted_options) x)). unfold as_saved. rewrite <- json_value_dict.
    split; [done | by apply json_plain_value].
  - intros i e Hi. assert (fmap as_saved (l !! i) = Some e) as (e0 & He & ->)%fmap_Some_1
      by (rewrite <- Hi; symmetry; exact (list_lookup_fmap as_saved l i)). exact (Hn i e0 He).
Qed.

(** An event the program logs. *)
Definition loggable (v : Event) : Prop := mem (ev_type v) EVENT_TYPES = true /\ json_plain (VDict (ev_extra v)) = true.

(** The entry of an event. *)
Definition records (v : Event) (e : TransparencyLogEntry) : Prop :=
  event_type e = VStr (ev_type v) /\ subject_id e = VStr (ev_subject_id v) /\ subject_version e = VStr (ev_subject_version v) /\
  metadata_digest e = VStr (ev_metadata_digest v) /\ artifact_digest e = VStr (ev_artifact_digest v) /\
  graph_digest e = VStr (ev_graph_digest v) /\ signer_fingerprint e = VStr (ev_signer_fingerprint v) /\
  json_value sorted_options (extra e) = json_value sorted_options (VDict (ev_extra v)).

Lemma append_good now v l : good_log l -> loggable v -> exists e, append sha256 now v l = Ok (l ++ [e], e) /\ good_log (l ++ [e]) /\ records v e.
Proof.
  intros [Hc Ht Hn] [Hv Hx]. unfold append. rewrite Hv. cbn [negb].
  assert (next_sequence l = Ok (VInt (Z.of_nat (length l) + 1))) as ->.
  { unfold next_sequence. destruct l as [|e l _] using rev_ind; [done|]. rewrite last_snoc, (Hn (length l) e) by apply list_lookup_middle, eq_refl.
    cbn. rewrite length_app. cbn. do 2 f_equal. lia. }
  assert (exists p, tail_digest l = VStr p /\ VStr p = match last l with Some x => digest_of x | None => VStr "" end) as (p & Hp & Hp').
  { unfold tail_digest. destruct (last l) as [e|] eqn:E; [|by exists ""]. rewrite (chained_last_text _ _ Hc e E). by eexists. }
  rewrite Hp. cbn [mbind res_bind]. eexists. split; [reflexivity|]. split; [|by split_and!]. split.
  - apply chained_snoc. by rewrite <- Hp'.
  - apply Forall_app. split; [done|]. constructor; [|constructor]. do 12 eexists. split; [reflexivity | done].
  - intros i e [Hi|[Hi He]]%lookup_app_Some; [by apply Hn|]. apply list_lookup_singleton_Some in He as [Hi0 <-]. cbn. do 2 f_equal. lia.
Qed.

(** ** Verification accepts it *)

Lemma check_good l : forall n before seen prev, numbered n l -> chained prev l -> Forall typed l ->
  before = match n with O => None | S _ => Some (VInt (Z.of_nat n)) end -> Forall (fun s => exists m, s = VInt m /\ m <= Z.of_nat n) seen ->
  check_entries sha256 before seen prev l = Ok [].
Proof.
  induction l as [|e l IH]; intros n before seen prev Hn Hc Ht Hb Hs; [done|]. cbn [check_entries]. destruct Hc as (Hp & Hd & Hc).
  apply Forall_cons in Ht as [He Ht]. pose proof (Hn 0%nat e eq_refl) as Hseq. rewrite Nat.add_0_r in Hseq.
  assert (check_entry sha256 before seen prev e = Ok []) as ->.
  { assert (exists p, prev = VStr p) as [p ->].
    { destruct He as (sq & ts & ty & id & ver & md & ad & gd & pv & sg & dig & x & -> & _). by exists pv. }
    unfold check_entry. rewrite Hseq, Hp.
    assert (match before with
      | None => mret (note (negb (py_eq (VInt (Z.of_nat n + 1)) (VInt 1))) FirstSequence)
      | Some s => expected ← plus_one s; mret (note (negb (py_eq (VInt (Z.of_nat n + 1)) expected)) SequenceGap)
      end = Ok []) as ->.
    { subst before. destruct n; cbn [plus_one mbind res_bind mret res_ret]; rewrite py_eq_int; [done|]. by rewrite Z.eqb_refl. }
    assert (existsb (fun s => py_eq s (VInt (Z.of_nat n + 1))) seen = false) as ->.
    { apply existsb_false. rewrite Forall_forall in Hs. intros s Hin. destruct (Hs s Hin) as (m & -> & Hm). rewrite py_eq_int. apply Z.eqb_neq. lia. }
    unfold verify_digest. by rewrite (proj2 (py_eq_text _ _) Hd), (proj2 (py_eq_text _ p) eq_refl). }
  cbn [mbind res_bind].
  rewrite (IH (S n)); [done| |by rewrite Hd| done | by rewrite Hseq; do 2 f_equal; lia|].
  - intros i e' Hi. rewrite Nat.add_succ_comm. exact (Hn (S i) e' Hi).
  - constructor; [exists (Z.of_nat n + 1); split; [done|lia]|]. eapply Forall_impl; [exact Hs|]. intros s (m & -> & Hm). exists m. split; [done|lia].
Qed.

Lemma verify_good l : good_log l -> exists r, verify sha256 l = Ok r /\ valid r = true /\ total_entries r = length l.
Proof.
  intros [Hc Ht Hn]. unfold verify. destruct l as [|e l]; [by eexists|]. rewrite (check_good _ 0) by done.
  eexists. split; [reflexivity | done].
Qed.

(** Events appended one after the other through the file. *)
Fixpoint append_events (evs : list (string * Event)) (f : log_file) : L log_file :=
  match evs with
  | [] => mret f
  | (now, v) :: evs => f ← append_event sha256 now v f; append_events evs f
  end.

Lemma json_value_idem o v : json_value o (json_value o v) = json_value o v.
Proof.
  induction v as [| | | | |l IH|d IH] using pyval_nested_ind; [done..| |].
  - cbn [json_value]. f_equal. rewrite map_map. apply map_ext_Forall, IH.
  - rewrite json_value_dict, json_value_dict, !json_items_map_snd, json_items_idem, map_snd_compose. f_equal. apply map_snd_ext.
    by apply (Forall_map_snd_items o (fun x => json_value o (json_value o x) = json_value o x)).
Qed.

Lemma records_saved v e : records v e -> records v (as_saved e).
Proof. intros (H1 & H2 & H3 & H4 & H5 & H6 & H7 & H8). split_and!; try done. cbn [as_saved extra]. by rewrite json_value_idem. Qed.

(** The file holds a good log of these events. *)
Definition file_holds (f : log_file) (evs : list Event) : Prop :=
  exists log, load_transparency_log f = Ok log /\ good_log log /\ Forall2 records evs log.

Lemma append_holds now v f evs : file_holds f evs -> loggable v -> exists f', append_event sha256 now v f = Ok f' /\ file_holds f' (evs ++ [v]).
Proof.
  intros (log & Hl & Hg & Hr) Hv. unfold append_event. rewrite Hl. cbn [mbind res_bind].
  destruct (append_good now v log Hg Hv) as (e & -> & Hg' & He). eexists. split; [reflexivity|].
  exists (map as_saved (log ++ [e])). split_and!; [apply load_saved, (good_typed _ Hg') | by apply good_saved|].
  apply Forall2_fmap_r, (Forall2_impl records); [apply Forall2_app; [done | by constructor]|]. intros x y. apply records_saved.
Qed.

(** C21: What is appended through the file, event by event, is a log that
    verifies and holds an entry for each event, in order. *)
Theorem appended_log_verifies evs :
  Forall (fun tv => loggable (snd tv)) evs ->
  exists f log r, append_events evs Missing = Ok f /\ load_transparency_log f = Ok log /\ verify_transparency_log sha256 f = Ok r /\
    valid r = true /\ total_entries r = length evs /\ Forall2 records (map snd evs) log.
Proof.
  intros H. assert (forall f old, file_holds f old -> exists f', append_events evs f = Ok f' /\ file_holds f' (old ++ map snd evs)) as Hrun.
  { induction H as [|[now v] evs Hv _ IH]; intros f old Hf; [exists f; rewrite app_nil_r; by split|]. cbn [append_events map snd].
    destruct (append_holds now v f old Hf Hv) as (f1 & -> & Hf1). destruct (IH f1 _ Hf1) as (f2 & Hf2 & Hh). exists f2.
    rewrite <- app_assoc in Hh. by split. }
  destruct (Hrun Missing []) as (f & Hf & log & Hl & Hg & Hr).
  { exists []. split_and!; [done| |apply Forall2_nil_2]. split; [done|apply Forall_nil_2|by intros i e He]. }
  destruct (verify_good log Hg) as (r & Hv & Hval & Ht). exists f, log, r. unfold verify_transparency_log. rewrite Hl.
  split_and!; [done|done|exact Hv|done| |done]. rewrite Ht. symmetry. transitivity (length (map snd evs)); [by rewrite length_map|exact (Forall2_length _ _ _ Hr)].
Qed.
End Chain.

(** ** Concrete logs *)

Definition demo_sha (s : string) : string := "#" +:+ s.

Definition demo_event (type subject : string) (more : pyctx) : Event := mkEvent type subject "1.0" "" "" "" "" more.

Definition demo_events : list (string * Event) :=
  [ ("t1", demo_event "package_installed" "a" [("z", VInt 1); ("by", VStr "op")]); ("t2", demo_event "package_revoked" "a" []) ].

Definition demo_file : log_file := match append_events demo_sha demo_events Missing with Ok f => f | Err _ => Corrupt end.
Definition demo_log : TransparencyLog := match load_transparency_log demo_file with Ok l => l | Err _ => [] end.

Example appended_log_verifies_witness :
  Forall (fun tv => loggable (snd tv)) demo_events /\
  exists f log r, append_events demo_sha demo_events Missing = Ok f /\ load_transparency_log f = Ok log /\
    verify_transparency_log demo_sha f = Ok r /\ valid r = true /\ total_entries r = 2%nat /\ Forall2 records (map snd demo_events) log.
Proof.
  assert (Forall (fun tv => loggable (snd tv)) demo_events) as H by (repeat constructor; vm_compute; reflexivity).
  split; [exact H | exact (appended_log_verifies demo_sha demo_events H)].
Defined.

Lemma demo_verifies : exists r, verify demo_sha demo_log = Ok r /\ valid r = true.
Proof.
  assert (match verify demo_sha demo_log with Ok r => valid r | Err _ => false end = true) as H by (vm_compute; reflexivity).
  destruct (verify demo_sha demo_log) as [r|]; [by exists r | done].
Qed.

Lemma demo_plain : Forall plain_entry demo_log.
Proof.
  assert (forallb (fun e => json_plain (VDict (payload e))) demo_log = true) as H by (vm_compute; reflexivity).
  by apply forallb_Forall' in H.
Qed.

Example log_digest_commits_witness :
  exists r, verify demo_sha demo_log = Ok r /\ valid r = true /\ (Forall2 same_entry demo_log demo_log \/ collide demo_sha demo_log demo_log).
Proof.
  destruct demo_verifies as (r & E & Hv). exists r. split; [exact E|]. split; [exact Hv|].
  exact (log_digest_commits demo_sha demo_log demo_log r r (fun x => ltac:(discriminate)) demo_plain demo_plain E Hv E Hv eq_refl).
Defined.

(** An entry that is changed is noticed. *)
Example changed_entry_noticed :
  match demo_log with
  | e :: l => verify demo_sha (mkEntry (sequence_number e) (timestamp e) (event_type e) (VStr "b") (subject_version e) (metadata_digest e)
      (artifact_digest e) (graph_digest e) (previous_entry_digest e) (signer_fingerprint e) (entry_digest e) (extra e) :: l)
  | [] => Err TransparencyLogError
  end = Ok (mkVerify false 2 [DigestMismatch] (VInt 1) (VInt 2) (tail_digest demo_log)).
Proof. vm_compute. reflexivity. Qed.

(** The last entries can be taken away: the file says how many there were and
    what the last digest was, and nothing reads it. *)
Definition without_last (f : log_file) : log_file :=
  match f with
  | Holds (VDict d) => Holds (VDict (dset "entries" (match dget "entries" d with Some (VList l) => VList (take (length l - 1) l) | _ => VNone end) d))
  | f => f
  end.

Example truncation_unnoticed :
  match verify_transparency_log demo_sha (without_last demo_file) with Ok r => (valid r, total_entries r) | Err _ => (false, 0%nat) end = (true, 1%nat).
Proof. vm_compute. reflexivity. Qed.

(** Two writers that have loaded the same log: the first event is gone, and
    the log verifies. *)
Example writers_lose_events :
  match load_transparency_log demo_file with
  | Ok log =>
      match append demo_sha "t3" (demo_event "package_revoked" "b" []) log, append demo_sha "t3" (demo_event "package_revoked" "c" []) log with
      | Ok (l1, _), Ok (l2, _) =>
          let file := save_transparency_log l1 in let file := save_transparency_log l2 in
          match verify_transparency_log demo_sha file, load_transparency_log file with
          | Ok r, Ok l => (valid r, map subject_id l)
          | _, _ => (false, [])
          end
      | _, _ => (false, [])
      end
  | Err _ => (false, [])
  end = (true, [VStr "a"; VStr "a"; VStr "c"]).
Proof. vm_compute. reflexivity. Qed.

(** A file whose entries are null is no error of the log. *)
Example null_entries_raise :
  load_transparency_log (Holds (VDict [("entries", VNone)])) = Err TypeErrorRaised.
Proof. reflexivity. Qed.
